(* ===== verification/_CoqProject ===== *)
-Q . S2P
Prelude.v
Primitives.v
Ids.v
Time.v
Floats.v
Cbor.v
CborCodec.v
CborDecode.v
Serializer.v
Framing.v
Effects.v
Records.v
State.v
Inputs.v
ToolBatch.v
Digests.v
Policy.v
ApplyStage.v
ApplyTools.v
ApplyEffects.v
ApplyRecord.v
Shapes.v
Events.v
Apply.v
Decide.v
DecideLimit.v
DecideTools.v
DecideStage.v
DecideSettle.v
DecideControl.v
Conversation.v
Validate.v
Reducer.v
Decisions.v
Chain.v
ChainIntegrity.v
History.v
BatchOrder.v
PhaseMachine.v
PhaseBatch.v
Reach.v
Journal.v
ValidateSound.v
Accepting.v
Bounds.v
ConversationTree.v
Append.v
Snapshot.v
Store.v
StoreChain.v
MemoryStore.v
StoreJournal.v
Recover.v
RecoverSound.v
Dispatch.v
Coordinator.v
CoordinatorSound.v
Sample.v
ModelPort.v
ContextPort.v
ContextCall.v
ContextSound.v
Middleware.v
MiddlewareSound.v
ModelStream.v
ModelStreamSound.v
ToolPort.v
ToolPortSound.v
Compaction.v
CompactionSound.v
EventHub.v
EventHubSound.v
EventHubRun.v
SamplePorts.v
SampleStore.v
PropertiesReplay.v
PropertiesProtocol.v
PropertiesDecide.v
PropertiesStore.v
PropertiesPorts.v
