(* ===== verification/Prelude.v ===== *)
(** * A verification library for finstack-ai

    finstack-ai runs language-model agents on top of an append-only journal.  Its
    core is a deterministic reducer: the kernel decides on the records a command
    needs, a store commits them to the journal as a checksum chain, and replaying
    the committed records is the only way the state of a run changes.  This
    library models that core in Rocq together with what stands around it: the
    journal stores, the coordinator that submits commands through them, recovery
    by replay and snapshots, the conversation of a session, and the ports through
    which models, tools, context providers and middleware take part in a run,
    and the hub that hands the events of a run to its subscribers.  It proves
    what makes them correct, and shows where they do not do what they mean to.

    ** The program and its model

    Paths are relative to [src/crates/finstack-ai-kernel/src] (kernel),
    [src/crates/finstack-ai-protocol/src] (protocol),
    [src/crates/finstack-ai-runtime/src] (runtime) and [src/extensions/stores]
    (stores).

    Kernel, data:
    - [Primitives] content blocks, messages, errors, usage ([primitives/],
      [content/], [conversation/message.rs]); [Ids] identifier text
      ([primitives/ids.rs]); [Time] timestamps, the civil calendar and RFC 3339
      text ([primitives/time.rs]);
    - [Effects] effects and interactions ([effects/]); [Records] the record bodies
      and their payloads ([records/]); [State] [KernelState] with one setter per
      field ([state/types.rs], [state/mod.rs]); [Inputs] commands, decisions and
      errors ([reducer/input.rs], [reducer/decision.rs]);
    - [ToolBatch] the active tool batch with its incremental index and counters
      ([records/tools.rs]); [Policy] validation of policy records
      ([records/policy/]); [Digests] domain separated digests and settlement
      fingerprints ([primitives/digest.rs], [reducer/fingerprint/]).

    Kernel, replay:
    - [ApplyStage], [ApplyTools], [ApplyEffects], [ApplyRecord] one handler per
      record ([reducer/apply/*.rs], [reducer/tool/cancellation.rs]); [Shapes] the
      admissible record sequences of a batch and the growth preflight
      ([reducer/apply/shapes.rs], [reducer/capacity.rs]); [Events] derived public
      events ([events/]); [Apply] the transactional application of a batch
      ([reducer/apply/mod.rs], [validate.rs]).

    Kernel, decisions:
    - [Decide] drafts, allocated identities and shared checks; [DecideLimit]
      limits; [DecideTools] tool planning, settlement and follow-ups;
      [DecideStage] acceptance and stages; [DecideSettle] model and output
      settlements; [DecideControl] cancellation, timers, interactions, extension
      effects; [Reducer] review, limits and dispatch ([reducer/decide/],
      [reducer/tool/], [reducer/interaction.rs], [reducer/extension.rs]);
    - [Validate] the full check of a state that is restored
      ([state/validate.rs]);
    - [Conversation] the tree of entries, lanes and the projection of a session
      ([conversation/tree.rs]); [Append] append requests and committed batches
      ([records/append.rs], [records/validate.rs], [reducer/decision.rs]).

    Protocol:
    - [Floats] IEEE formats by their bits, [Cbor] the canonical codec, both the
      writer and the decoder ([cbor/value.rs]); [Serializer] the serde serializer
      in front of it ([cbor/ser.rs]); [Framing] frames, version offers and
      negotiation ([wire/]); [Chain] payload and envelope checksums, committing
      and verifying records ([journal.rs]); [Snapshot] snapshot envelopes
      ([snapshot.rs]).

    Stores:
    - [Store] the journal port's data and windows ([ports/journal.rs]), the
      verification, admission and caching rules every backend shares
      ([finstack-ai-store-common]); [MemoryStore] the in-memory backend with its
      indices and prunes ([finstack-ai-store-memory]).

    Runtime:
    - [Recover] replay of a loaded session, from snapshots, of one run or of its
      structure ([exec/coordinator/recover.rs]); [Dispatch] authorization and the
      seeds of post-commit actions ([exec/coordinator/dispatch.rs]);
      [Coordinator] submissions, sidecar and session commits, reloads after
      conflicts, publishing, dispatch and snapshots ([exec/coordinator/mod.rs],
      [submit.rs], [session_commit.rs]), in a state and error monad over a
      coordinator, a store and a host.

    Ports of the runtime:
    - [ModelPort] context profiles, request drafts and their checks
      ([ports/model/profile.rs], [request.rs], [port.rs]); [ModelStream] the
      assembler of a model stream ([ports/model/stream.rs]);
    - [ContextPort] context items, contributions and their assembly under a budget
      ([ports/context/types.rs], [assembly.rs]); [ContextCall] committed calls of
      context providers, the messages and the protection map built from what they
      contribute ([ports/context/committed.rs], [exec/context_driver/]);
    - [Middleware] the resolution of a middleware chain
      ([ports/middleware/chain.rs]); [Compaction] what a stage outcome and a
      compacted context must satisfy and the fold of a stage
      ([ports/middleware/validate.rs], [digest.rs],
      [exec/middleware_driver/fold.rs]);
    - [ToolPort] the tool catalog and its approval decision, tool streams, the
      recovery decisions for tools and models ([ports/tool/],
      [ports/model/context.rs]), and the loop that recovers the calls of a tool
      batch and dispatches them again ([exec/settlement/tool.rs], [mod.rs],
      [exec/task/owner.rs]).

    Event delivery of the runtime:
    - [EventHub] the native event hub ([exec/event_hub/mod.rs], [subscription.rs],
      [batching.rs], [dispatch.rs], [handle.rs], [task.rs]): the hub task with its
      commands and its fan-out, one task per subscription that batches, and the
      consumers, as one labelled transition system.  A step is the code between
      two awaits, so its runs are the interleavings of the three parties.

    A fallible function returns [result] with the source's error type, threaded
    with [let?] and [do?]; mutation of a working copy is explicit state passing;
    integers are [Z] with the width of every checked operation written out; maps
    are [gmap], walked in key order where the source's [BTreeMap] order shows.
    Every definition of the kernel and the protocol is executable.

    ** Parameters

    What the code takes from elsewhere is a parameter with the laws it relies on:
    [Hasher] is SHA-256 and canonical JSON, [Serde] the JSON readers of tool
    results, [Wire] the derived serializers of record bodies, [Half] the binary16
    conversions of the [half] crate, [SnapshotWire] the derived serializer of a
    state and its hash, [Continuations] the reader of a model response's
    continuation; [ContextJson], [ModelJson], [StreamJson],
    [MiddlewareJson], [CompactionJson] and [ToolStreamJson] are the
    canonical JSON of the ports' values, [ToolSchemas] the JSON Schema compiler,
    [IdSources] clock, entropy and the layout of identifiers, [Mpsc] (with
    [MpscLaws]) the bounded channels of the asynchronous runtime.
    [ToolRecovery] is what the recovery loop calls: the answers of toolsets and
    the submissions that record them, of which nothing is assumed.  Providers,
    toolsets, middleware and progress callbacks are functions, on a world where
    they may act.  The coordinator is written against the interfaces
    [JournalStore] (with the laws [JournalLaws], which [CoordinatorSound] proves of
    the in-memory store) and [Host] (event publisher and dispatcher).  [Sample],
    [SampleStore] and [SamplePorts] instantiate them with concrete
    functions and run the program: a whole run from acceptance to completion, a
    cancellation, deadlines, the loop decide, commit, apply, a session driven
    through the coordinator and the in-memory store, and values of every port.

    ** What is proved

    [PropertiesReplay]: a batch moves the run along the abstract phase automaton
    of [PhaseMachine]; terminal states agree with the phase, and after the end of
    a run nothing changes but the applied sequence, the version, the wall time and
    releases of reservations; the journal is extended without gaps and history only grows; events are a numbered
    projection of records; identities are unique; collections stay within their
    ceilings; other runs are isolated; cancellation collects exactly the
    outstanding effects and only shrinks.

    [PropertiesReplay], second part: tool calls settle in source order, groups are barriers, the
    opened batch is the plan, the counters agree with a recount, batches close
    complete.

    [PropertiesProtocol]: the decoder accepts exactly the canonical encodings and
    the codec round trips; serialized values decode; the head of a chain fixes its
    history up to a hash collision exhibited by its records; committed records
    verify; frames, negotiation, offers and identifiers.

    [PropertiesDecide]: every decision repeats what is settled or spends its
    allocation exactly and passes the envelope checks of replay; acceptance,
    cancellation and limit decisions are applied once committed, while the clock
    has not gone back before the acceptance of the run and the settlements and
    completion identities are within their ceilings; stage settlements
    count once; the usage that is checked is the usage that is accounted, and
    limits are checked exactly.  Three theorems state when a decided batch is
    refused: a limit crossed while an extension effect is pending, the
    cancellation of a batch that failed fatally, and a cancellation or a limit
    failure decided at a time before the acceptance of the run.

    [PropertiesDecide], second part: a validated state has the invariants of replay; a limit
    that ends a run with an active batch leaves a state that is not valid;
    timestamp text round trips.

    [PropertiesStore]: the in-memory store refines an append-only journal per
    session; acknowledged appends survive every later operation and retries under
    the same batch identity are answered alike; loads return exactly what was not
    pruned of the journal and scans stretches of it, whatever the cache of
    verified heads holds; the cache decides as a full verification does
    while the prefix it stands for is intact, and accepts any prefix otherwise.

    [PropertiesStore], second part: a submission keeps the kernel of a coordinator with the
    primary replay scope a replay of the durable journal and reaches the host only
    with what a durable batch justifies; recovery from a snapshot that passes the
    state check of a restore is the full replay; snapshots round trip;
    walks of a conversation terminate, sessions are forests that only grow,
    histories are well paired and previews answer as commits do.  One theorem
    shows that a snapshot that is due after conversation entries were committed
    beside a batch is written with the wrong checksum, and that pruning through it
    makes the session unrecoverable.

    [PropertiesPorts]: a middleware chain resolves to the specified order or has a
    cycle; an accepted model stream is repeated by its response; a compaction
    keeps protected messages, the current request and tool pairs; assembly of
    context is deterministic, within budget and accounted, and only a trusted
    provider reaches a system message; validated requests fit the provider's
    window; tools run only with the approvals they need; recovery repeats the calls
    of a tool batch exactly when every one of them is accounted for and one may be
    repeated.
    Two theorems show where the context stage goes wrong: a skipped provider makes
    it fail, and protection is lost to a later item with equal content.  Of the
    event hub, in every interleaving: a subscription receives its events in order
    and, while it is open, misses only progress that is counted; queues, batches
    and subscriptions keep within their bounds and the statistics are exact.  One
    theorem shows that closing the hub hides the loss of a durable event.

    The lemmas are by component: [CborCodec] and [CborDecode] for the codec,
    [ChainIntegrity] for the chain, [BatchOrder] for the order in a tool batch,
    [History] for growth and for what a handler leaves alone, [PhaseMachine] and
    [PhaseBatch] for phases, [Reach] for reachable kernels, [Journal] for
    sequences, identities and committed batches, [Bounds] for ceilings and
    cancellation, [Decisions] for what a decision is made of and how usage is
    accounted, [Accepting] for decided batches, [ValidateSound] for validated
    states, [ConversationTree] for conversations, [StoreChain] for chains and the
    cache, [StoreJournal] for the refinement of the store, [RecoverSound] for
    recovery, [CoordinatorSound] for the Hoare triples of the coordinator and the
    laws of the store, [ContextSound], [MiddlewareSound], [ModelStreamSound],
    [CompactionSound] and [ToolPortSound] for the ports, [EventHubSound] for one
    subscription and [EventHubRun] for the runs of the hub.

    ** Bounds and recursion

    The decoder recurses on the nesting depth, which the source bounds by 32
    ([CANONICAL_NESTING_DEPTH]); the model takes the remaining depth as its
    structural argument, starting from that constant, and returns the source's
    error when it is exhausted, so no input runs out of it early.  The
    binary search of the sorted call lists ([bisect] in [ApplyTools]) takes the
    length of the list as fuel, which [Bounds.bisect_finds] proves enough.
    The walk of a conversation ([walk_loop] in [Conversation]) takes one turn per
    entry and one more, which [ConversationTree.walk_loop_total] proves enough on
    any entries.  The resolution of a stage ([resolve_loop] in [Middleware]) takes one
    turn per component, which [MiddlewareSound.resolve_loop_spec] proves enough.
    The retry loops of the coordinator go round at most twice, once
    before and once after a reload, and are written out as two turns.  All other
    recursion is structural, on lists of records, calls or bytes; loops are
    [rfold], which stops at the first error.  The loops of the event hub and its
    tasks do not end; they are steps, and the theorems are about all runs.

    ** Not modelled

    Derived serde implementations and visitors, and the generic deserializer
    ([cbor/de.rs]), whose behaviour is that of generated code; the wire form and
    the hash projection of a state ([state/wire.rs], [state/projection.rs]), which
    are parameters here; remote messages ([remote.rs]); of the coordinator, live
    state, manual drive, middleware and compaction checkpoints, transient events
    and the deadline of a snapshot write; of the ports, the traits themselves,
    cancellation signals (of a context stage, the early exit of a cancelled
    driver) and the JSON Schema compiler; the SQL stores; the tasks that settle
    stages, models and tools and the recovery loop of a model request, the variant of the event hub for
    WebAssembly hosts ([host.rs]) and the durations of its timers, services, the
    SDK, the server, bindings, extensions and applications, which drive the
    coordinator and the ports through asynchronous input and output. *)

From Stdlib Require Export ZArith Lia Ascii String.
From stdpp Require Export prelude gmap strings list fin_maps sorting.

#[global] Open Scope Z_scope.

(** ** Fallible code: [Result<T, E>] and the [?] operator *)

Inductive result (A E : Type) : Type :=
| Ok (a : A)
| Err (e : E).

Arguments Ok {A E} a.
Arguments Err {A E} e.

(** [rbind m k] is Rust's [let x = m?; k]. *)
Definition rbind {A B E} (m : result A E) (k : A -> result B E) : result B E :=
  match m with
  | Ok a => k a
  | Err e => Err e
  end.

(** [Result::map_err]. *)
Definition map_err {A E F} (f : E -> F) (m : result A E) : result A F :=
  match m with
  | Ok a => Ok a
  | Err e => Err (f e)
  end.

(** [Option::ok_or]. *)
Definition ok_or {A E} (o : option A) (e : E) : result A E :=
  match o with
  | Some a => Ok a
  | None => Err e
  end.

(** An early return [if c { return Err(e) }]. *)
Definition reject_if {E} (c : bool) (e : E) : result unit E :=
  if c then Err e else Ok tt.

Declare Scope result_scope.
Delimit Scope result_scope with result.
#[global] Open Scope result_scope.

Notation "'let?' x ':=' m 'in' k" := (rbind m (fun x => k))
  (at level 10, x name, m at level 100, k at level 200,
   format "'[v' 'let?'  x  ':='  m  'in' '/' k ']'") : result_scope.
Notation "'let?' ' p ':=' m 'in' k" := (rbind m (fun p => k))
  (at level 10, p pattern, m at level 100, k at level 200) : result_scope.
Notation "'do?' m 'in' k" := (rbind m (fun _ => k))
  (at level 10, m at level 100, k at level 200,
   format "'[v' 'do?'  m  'in' '/' k ']'") : result_scope.

(** Left-to-right traversal that stops at the first error, the [for] loop with
    a [?] in its body. *)
Fixpoint rfold {A S E} (f : S -> A -> result S E) (s : S) (l : list A) : result S E :=
  match l with
  | [] => Ok s
  | a :: l' => let? s' := f s a in rfold f s' l'
  end.

Section Result.
Context {A B E : Type}.

Lemma rbind_Ok (m : result A E) (k : A -> result B E) b :
  rbind m k = Ok b <-> exists a, m = Ok a /\ k a = Ok b.
Proof. destruct m; simpl; naive_solver. Qed.

Lemma rbind_Err (m : result A E) (k : A -> result B E) e :
  rbind m k = Err e <-> m = Err e \/ exists a, m = Ok a /\ k a = Err e.
Proof. destruct m; simpl; naive_solver. Qed.

(** [injection] on results, without normalizing the payload. *)
Lemma Ok_inj (a b : A) : Ok (E := E) a = Ok b -> a = b.
Proof. by intros [=]. Qed.

Lemma ok_or_Ok (o : option A) (e : E) a : ok_or o e = Ok a <-> o = Some a.
Proof. destruct o; simpl; naive_solver. Qed.

Lemma map_err_Ok {F} (f : E -> F) (m : result A E) a : map_err f m = Ok a <-> m = Ok a.
Proof. destruct m; simpl; naive_solver. Qed.

Lemma reject_if_Ok (c : bool) (e : E) u : reject_if c e = Ok u <-> c = false.
Proof. destruct c, u; simpl; naive_solver. Qed.

Lemma rfold_app (f : B -> A -> result B E) s l1 l2 :
  rfold f s (l1 ++ l2) = rbind (rfold f s l1) (fun s' => rfold f s' l2).
Proof. revert s. induction l1 as [|a l1 IH]; intros s; simpl; [done|]. by destruct (f s a); simpl. Qed.

(** Invariants of a fallible loop. *)
Lemma rfold_ind (P : B -> Prop) (f : B -> A -> result B E) s l s' :
  P s ->
  (forall s a s1, a ∈ l -> P s -> f s a = Ok s1 -> P s1) ->
  rfold f s l = Ok s' -> P s'.
Proof.
  revert s. induction l as [|a l IH]; intros s Hs Hstep; simpl; [by intros [= <-]|].
  destruct (f s a) as [s1|] eqn:Hf; simpl; [|done].
  apply IH; [|set_solver]. eapply Hstep; [|done..]. set_solver.
Qed.
End Result.

(** ** Machine integers

    [u64], [u32], [u16] and [i64] values are integers in [Z]; every arithmetic
    operation of the source on them is one of the checked or saturating forms
    below.  [usize] values count list elements and are [nat]; the targets of
    the crate have a 32- or 64-bit [usize] and every list has far fewer
    elements than either bound, so [u64::try_from] of a length is total. *)

Definition u16_max : Z := 2 ^ 16 - 1.
Definition u32_max : Z := 2 ^ 32 - 1.
Definition u64_max : Z := 2 ^ 64 - 1.
Definition i64_min : Z := - 2 ^ 63.
Definition i64_max : Z := 2 ^ 63 - 1.

Definition is_u16 (z : Z) : Prop := 0 <= z <= u16_max.
Definition is_u32 (z : Z) : Prop := 0 <= z <= u32_max.
Definition is_u64 (z : Z) : Prop := 0 <= z <= u64_max.
Definition is_i64 (z : Z) : Prop := i64_min <= z <= i64_max.

Definition in_range (lo hi z : Z) : option Z :=
  if (lo <=? z) && (z <=? hi) then Some z else None.

Definition u64_checked_add (a b : Z) : option Z := in_range 0 u64_max (a + b).
Definition u64_checked_sub (a b : Z) : option Z := in_range 0 u64_max (a - b).
Definition u32_checked_add (a b : Z) : option Z := in_range 0 u32_max (a + b).
Definition i64_checked_add (a b : Z) : option Z := in_range i64_min i64_max (a + b).
Definition i64_checked_sub (a b : Z) : option Z := in_range i64_min i64_max (a - b).
Definition u32_saturating_add (a b : Z) : Z := Z.min u32_max (a + b).
Definition u32_saturating_sub (a b : Z) : Z := Z.max 0 (a - b).
Definition u64_saturating_add (a b : Z) : Z := Z.min u64_max (a + b).
Definition u64_saturating_sub (a b : Z) : Z := Z.max 0 (a - b).

(** [u64::try_from] of a [usize] length or index. *)
Definition u64_of_usize (n : nat) : Z := Z.of_nat n.

Lemma in_range_Some lo hi z z' : in_range lo hi z = Some z' <-> z' = z /\ lo <= z <= hi.
Proof. unfold in_range. destruct (Z.leb_spec lo z), (Z.leb_spec z hi); simpl; naive_solver lia. Qed.

Lemma in_range_None lo hi z : in_range lo hi z = None <-> z < lo \/ hi < z.
Proof. unfold in_range. destruct (Z.leb_spec lo z), (Z.leb_spec z hi); simpl; naive_solver lia. Qed.

(** Unfold every machine-integer operation and bound, then call [lia]. *)
Ltac machine :=
  unfold u64_checked_add, u64_checked_sub, u32_checked_add, i64_checked_add, i64_checked_sub,
    u32_saturating_add, u32_saturating_sub, u64_saturating_add, u64_of_usize,
    is_u16, is_u32, is_u64, is_i64 in *;
  rewrite ?in_range_Some, ?in_range_None in *;
  unfold u16_max, u32_max, u64_max, i64_min, i64_max in *;
  try lia.

(** ** Options and booleans *)

Definition is_some {A} (o : option A) : bool := match o with Some _ => true | None => false end.
Definition is_none {A} (o : option A) : bool := negb (is_some o).
(** [Option::is_some_and] and [Option::is_none_or]. *)
Definition is_some_and {A} (o : option A) (p : A -> bool) : bool :=
  match o with Some a => p a | None => false end.
Definition is_none_or {A} (o : option A) (p : A -> bool) : bool :=
  match o with Some a => p a | None => true end.
(** [Option::or_else] with an already evaluated alternative. *)
Definition or_else {A} (o o' : option A) : option A :=
  match o with Some a => Some a | None => o' end.

Lemma is_some_true {A} (o : option A) : is_some o = true <-> exists a, o = Some a.
Proof. destruct o; simpl; naive_solver. Qed.
Lemma is_some_false {A} (o : option A) : is_some o = false <-> o = None.
Proof. destruct o; simpl; naive_solver. Qed.
Lemma is_none_true {A} (o : option A) : is_none o = true <-> o = None.
Proof. destruct o; simpl; naive_solver. Qed.
Lemma is_none_false {A} (o : option A) : is_none o = false <-> exists a, o = Some a.
Proof. destruct o; simpl; naive_solver. Qed.

(** Boolean equality through decidable equality, Rust's derived [==]. *)
Definition eqb {A} `{EqDecision A} (x y : A) : bool := bool_decide (x = y).
#[global] Arguments eqb {A _} x y : simpl never.
Notation "x =?? y" := (eqb x y) (at level 70, no associativity) : result_scope.
Notation "x <>?? y" := (negb (eqb x y)) (at level 70, no associativity) : result_scope.

Section Eqb.
Context {A} `{EqDecision A}.
Lemma eqb_true (x y : A) : (x =?? y) = true <-> x = y.
Proof. unfold eqb. by rewrite bool_decide_eq_true. Qed.
Lemma eqb_false (x y : A) : (x =?? y) = false <-> x <> y.
Proof. unfold eqb. by rewrite bool_decide_eq_false. Qed.
Lemma eqb_eq (x y : A) : (x =?? y) = true -> x = y.
Proof. apply eqb_true. Qed.
Lemma eqb_reflect (x y : A) : reflect (x = y) (x =?? y).
Proof. apply bool_decide_reflect. Qed.
Lemma eqb_refl (x : A) : (x =?? x) = true.
Proof. by apply eqb_true. Qed.
End Eqb.

Create HintDb finstack discriminated.
#[global] Hint Constants Opaque : finstack.
#[export] Hint Rewrite @rbind_Ok @ok_or_Ok @map_err_Ok @reject_if_Ok @eqb_true @eqb_false
  @is_some_true @is_some_false @is_none_true @is_none_false
  negb_true_iff negb_false_iff andb_true_iff orb_false_iff : finstack.
#[export] Hint Resolve eqb_refl : finstack.

(** ** Automation

    [step H] takes one [let?], [do?], [ok_or], [reject_if] or [match] off a
    hypothesis [H : m = Ok _] or [H : m = Err _]; [steps H] repeats it. *)

Ltac step H :=
  lazymatch type of H with
  | rbind ?m ?k = Ok _ =>
      let E := fresh "E" in destruct m eqn:E; cbn [rbind] in H; [|discriminate H]
  | rbind ?m ?k = Err _ =>
      let E := fresh "E" in destruct m eqn:E; cbn [rbind] in H
  | Ok _ = Ok _ => injection H as H; try (subst; idtac)
  | Err _ = Ok _ => discriminate H
  | Ok _ = Err _ => discriminate H
  | (if ?b then _ else _) = _ =>
      let E := fresh "E" in destruct b eqn:E; try discriminate H
  | (match ?o with _ => _ end) = _ =>
      let E := fresh "E" in destruct o eqn:E; try discriminate H
  end.
Ltac steps H := repeat (step H).

(** Decompose every successful computation of the context. *)
Ltac crush_ok :=
  repeat match goal with
  | H : rbind _ _ = Ok _ |- _ => step H
  | H : ok_or ?o _ = Ok _ |- _ => apply ok_or_Ok in H
  | H : reject_if _ _ = Ok _ |- _ => apply reject_if_Ok in H
  | H : map_err _ _ = Ok _ |- _ => apply map_err_Ok in H
  | H : Err _ = Ok _ |- _ => discriminate H
  | H : Ok _ = Err _ |- _ => discriminate H
  | H : Ok _ = Ok _ |- _ => injection H as H; subst
  | H : (_ || _) = false |- _ => apply orb_false_iff in H as [? ?]
  | H : (_ && _) = true |- _ => apply andb_true_iff in H as [? ?]
  | H : (_ =?? _) = true |- _ => apply (proj1 (eqb_true _ _)) in H
  | H : (_ =?? _) = false |- _ => apply (proj1 (eqb_false _ _)) in H
  | H : (_ <>?? _) = false |- _ => apply negb_false_iff in H; apply (proj1 (eqb_true _ _)) in H
  | H : (_ <>?? _) = true |- _ => apply negb_true_iff in H; apply (proj1 (eqb_false _ _)) in H
  end.

(** ** Lists *)

(** [iter().enumerate()]. *)
Definition enumerate {A} (l : list A) : list (nat * A) := zip (seq 0 (length l)) l.

(** [Iterator::find_map]. *)
Fixpoint find_map {A B} (f : A -> option B) (l : list A) : option B :=
  match l with
  | [] => None
  | a :: l' => match f a with Some b => Some b | None => find_map f l' end
  end.

(** [Vec::dedup]: drop an element equal to its neighbour. *)
Fixpoint dedup `{EqDecision A} (l : list A) : list A :=
  match l with
  | a :: l' =>
      match l' with
      | b :: _ => if a =?? b then dedup l' else a :: dedup l'
      | [] => [a]
      end
  | [] => []
  end.

Section Dedup.
Context `{EqDecision A}.

Lemma dedup_cons (a b : A) l : dedup (a :: b :: l) = if a =?? b then dedup (b :: l) else a :: dedup (b :: l).
Proof. reflexivity. Qed.

Lemma dedup_elem (l : list A) x : x ∈ dedup l <-> x ∈ l.
Proof.
  induction l as [|a [|b l] IH]; [done|done|]. rewrite dedup_cons. destruct (eqb_reflect a b) as [->|Hne].
  - rewrite IH. set_solver.
  - rewrite !elem_of_cons, IH, elem_of_cons. done.
Qed.

Lemma dedup_head a (l : list A) : exists l', dedup (a :: l) = a :: l'.
Proof.
  revert a. induction l as [|b l IH]; intros a; [by exists []|]. rewrite dedup_cons.
  destruct (eqb_reflect a b) as [->|Hne]; [apply IH|by eexists].
Qed.

Lemma dedup_idemp (l : list A) : dedup (dedup l) = dedup l.
Proof.
  induction l as [|a [|b l] IH]; [done|done|]. rewrite dedup_cons. destruct (eqb_reflect a b) as [->|Hne]; [done|].
  destruct (dedup_head b l) as [l' Hl]. rewrite Hl in IH |- *. rewrite dedup_cons. by rewrite (proj2 (eqb_false a b) Hne), IH.
Qed.

Lemma dedup_length (l : list A) : (length (dedup l) <= length l)%nat.
Proof.
  induction l as [|a [|b l] IH]; [done|done|]. rewrite dedup_cons. destruct (eqb_reflect a b); cbn [length] in *; lia.
Qed.
End Dedup.

Definition count {A} (p : A -> bool) (l : list A) : nat := length (List.filter p l).

Lemma count_cons {A} (p : A -> bool) a l :
  count p (a :: l) = ((if p a then 1 else 0) + count p l)%nat.
Proof. unfold count. simpl. by destruct (p a). Qed.

Lemma count_app {A} (p : A -> bool) l1 l2 : count p (l1 ++ l2) = (count p l1 + count p l2)%nat.
Proof. unfold count. by rewrite List.filter_app, length_app. Qed.

Lemma count_le_length {A} (p : A -> bool) l : (count p l <= length l)%nat.
Proof. unfold count. induction l as [|a l IH]; simpl; [done|]. destruct (p a); simpl; lia. Qed.

Lemma count_zero {A} (p : A -> bool) l : count p l = 0%nat <-> forall a, a ∈ l -> p a = false.
Proof.
  induction l as [|a l IH]; [by split; [set_solver|]|].
  rewrite count_cons. split.
  - intros Hc. destruct (p a) eqn:E; [lia|]. intros b Hb.
    apply elem_of_cons in Hb as [->|Hb]; [done|]. by apply IH.
  - intros Hall. rewrite (Hall a) by set_solver. apply IH. set_solver.
Qed.

(** Replacing one element changes a count by that element's contribution. *)
Lemma count_insert {A} (p : A -> bool) (l : list A) i a b :
  l !! i = Some a ->
  (count p (<[i:=b]> l) + (if p a then 1 else 0) = count p l + (if p b then 1 else 0))%nat.
Proof.
  revert i. induction l as [|c l IH]; intros [|i]; simpl; try done.
  - intros [= ->]. rewrite !count_cons. destruct (p a), (p b); lia.
  - intros Hi. rewrite !count_cons. specialize (IH _ Hi). lia.
Qed.

Lemma existsb_false {A} (p : A -> bool) l : existsb p l = false <-> forall a, a ∈ l -> p a = false.
Proof.
  induction l as [|a l IH]; simpl; [by split; [set_solver|]|].
  rewrite orb_false_iff, IH. set_solver.
Qed.

Lemma elem_of_enumerate {A} (l : list A) i a : l !! i = Some a -> (i, a) ∈ enumerate l.
Proof.
  intros Hi. unfold enumerate. apply list_elem_of_lookup. exists i.
  apply lookup_zip_with_Some. exists i, a. split_and!; [done| |done].
  apply lookup_seq_lt. by eapply lookup_lt_Some.
Qed.

(** Invariants of a fallible loop over [iter().enumerate()]. *)
Lemma rfold_enumerate_ind {A S E} (P : S -> list A -> Prop) (f : S -> nat * A -> result S E) s l s' :
  P s [] ->
  (forall s1 l1 a s2, P s1 l1 -> f s1 (length l1, a) = Ok s2 -> P s2 (l1 ++ [a])) ->
  rfold f s (enumerate l) = Ok s' -> P s' l.
Proof.
  intros H0 Hstep. unfold enumerate.
  enough (forall l2 l1 s1, P s1 l1 -> rfold f s1 (zip (seq (length l1) (length l2)) l2) = Ok s' -> P s' (l1 ++ l2))
    as Hgen by (intros Hf; by apply (Hgen l [] s)).
  induction l2 as [|a l2 IH]; intros l1 s1 HP; simpl; [by intros [= <-]; rewrite app_nil_r|].
  destruct (f s1 (length l1, a)) as [s2|] eqn:Hf; simpl; [|done].
  replace (Datatypes.S (length l1)) with (length (l1 ++ [a])) by (rewrite length_app; simpl; lia).
  intros Hr. replace (l1 ++ a :: l2) with ((l1 ++ [a]) ++ l2) by by rewrite <- app_assoc.
  eapply IH; [by eapply Hstep|done].
Qed.

Lemma find_map_Some {A B} (f : A -> option B) l b :
  find_map f l = Some b -> exists i a, l !! i = Some a /\ f a = Some b /\ forall j a', (j < i)%nat -> l !! j = Some a' -> f a' = None.
Proof.
  induction l as [|a l IH]; simpl; [done|]. destruct (f a) as [b'|] eqn:Ha.
  - intros [= <-]. exists 0%nat, a. split_and!; [done..|lia].
  - intros (i & a' & Hi & Ha' & Hlt)%IH. exists (S i), a'. split_and!; [done..|].
    intros [|j] a'' Hj Hl; [by simplify_eq/=|]. eapply Hlt; [|done]. lia.
Qed.

Lemma find_map_None {A B} (f : A -> option B) l : find_map f l = None -> forall a, a ∈ l -> f a = None.
Proof.
  induction l as [|a l IH]; simpl; [set_solver|]. destruct (f a) eqn:Ha; [done|]. intros Hn. set_solver.
Qed.

(** ** Maps filled in order and numbered lists *)

Lemma foldl_insert_lookup `{Countable K} {A V} (key : A -> K) (val : A -> V) (l : list A) (m : gmap K V) a :
  NoDup (key <$> l) -> a ∈ l -> foldl (fun m a => <[key a := val a]> m) m l !! key a = Some (val a).
Proof.
  induction l as [|b l IH] using rev_ind; intros Hnd Ha; [set_solver|].
  rewrite fmap_app in Hnd. apply NoDup_app in Hnd as (Hnd & Hdis & _).
  rewrite foldl_app. simpl. apply elem_of_app in Ha as [Ha|Ha].
  - rewrite lookup_insert_ne; [by apply IH|]. intros He. apply (Hdis (key a)).
    + by apply list_elem_of_fmap_2.
    + rewrite <- He. set_solver.
  - apply list_elem_of_singleton in Ha as ->. by rewrite lookup_insert_eq.
Qed.

Lemma foldl_insert_inv `{Countable K} {A V} (key : A -> K) (val : A -> V) (l : list A) k v :
  foldl (fun m a => <[key a := val a]> m) (∅ : gmap K V) l !! k = Some v -> exists a, a ∈ l /\ k = key a /\ v = val a.
Proof.
  induction l as [|b l IH] using rev_ind; simpl; [by rewrite lookup_empty|]. rewrite foldl_app. simpl.
  rewrite lookup_insert_Some. intros [[<- <-]|[_ HH]]; [set_solver|].
  destruct (IH HH) as (a & Ha & -> & ->). set_solver.
Qed.

Lemma enumerate_elem {A} (l : list A) k a : l !! k = Some a -> (k, a) ∈ enumerate l.
Proof.
  intros Hk. unfold enumerate. apply list_elem_of_lookup. exists k. rewrite lookup_zip_with, Hk.
  rewrite lookup_seq_lt by (by eapply lookup_lt_Some). done.
Qed.
