(* ===== verification/Primitives.v ===== *)
(** * Primitives, content and messages

    Data of [crates/finstack-ai-kernel/src/primitives], [content] and
    [conversation/message.rs]: identities, labels, errors, usage, content
    blocks and messages, with the validity predicates their constructors
    check.  Opaque identities and digests are numbers, [str] and byte payloads
    are byte strings, and JSON payloads ([RawJson], [Metadata]) are their
    canonical text. *)

From S2P Require Import Prelude.


(** ** Identities, digests, time and text *)

Notation SessionId := N (only parsing).
Notation LaneId := N (only parsing).
Notation RunId := N (only parsing).
Notation TurnId := N (only parsing).
Notation MessageId := N (only parsing).
Notation ModelRequestId := N (only parsing).
Notation ToolBatchId := N (only parsing).
Notation ToolCallId := N (only parsing).
Notation EffectId := N (only parsing).
Notation InteractionId := N (only parsing).
Notation EventId := N (only parsing).
Notation BudgetScopeId := N (only parsing).
Notation BudgetReservationId := N (only parsing).
Notation CancellationRequestId := N (only parsing).
Notation RecordId := N (only parsing).
Notation AppendBatchId := N (only parsing).
Notation ArtifactId := N (only parsing).
Notation EntryId := N (only parsing).
Notation Digest := N (only parsing).
(** Milliseconds since the Unix epoch, and milliseconds. *)
Notation Timestamp := Z (only parsing).
Notation Duration := Z (only parsing).
Notation ComponentId := string (only parsing).
Notation ToolId := string (only parsing).
Notation CapabilityId := string (only parsing).
Notation LimitKey := string (only parsing).
Notation EffectOutputKey := string (only parsing).
Notation RawJson := string (only parsing).
Notation Metadata := string (only parsing).

Definition TEXT_MAX_BYTES : Z := 4 * 1024 * 1024.
Definition LABEL_MAX_BYTES : Z := 256.
Definition CONTENT_MAX_ITEMS : nat := Z.to_nat 4096.
Definition SEMANTIC_ARRAY_MAX_ITEMS : nat := Z.to_nat 4096.
Definition SEMANTIC_MAP_MAX_ENTRIES : nat := Z.to_nat 256.
Definition METADATA_EMPTY : Metadata := "{}".

Definition str_len (s : string) : Z := Z.of_nat (String.length s).

(** [value.as_bytes().contains(&0)]. *)
Fixpoint has_nul (s : string) : bool :=
  match s with
  | EmptyString => false
  | String c s' => bool_decide (c = Ascii.zero) || has_nul s'
  end.

Definition label_is_valid (value : string) : bool :=
  negb (value =?? "") && (str_len value <=? LABEL_MAX_BYTES) && negb (has_nul value).

(** ** Error descriptors *)

Inductive ErrorCategory : Type :=
| ErrorCategory_Configuration
| ErrorCategory_Registration
| ErrorCategory_Validation
| ErrorCategory_Model
| ErrorCategory_Tool
| ErrorCategory_Context
| ErrorCategory_Middleware
| ErrorCategory_Store
| ErrorCategory_Cancellation
| ErrorCategory_Deadline
| ErrorCategory_Limit
| ErrorCategory_Recovery
| ErrorCategory_Corruption
| ErrorCategory_Protocol
| ErrorCategory_Plugin
| ErrorCategory_Internal.
#[global] Instance ErrorCategory_eq_dec : EqDecision ErrorCategory.
Proof. solve_decision. Defined.

Record ErrorIdentifiers : Type := mkErrorIdentifiers {
  ei_session_id : option SessionId;
  ei_lane_id : option LaneId;
  ei_run_id : option RunId;
  ei_turn_id : option TurnId;
  ei_message_id : option MessageId;
  ei_model_request_id : option ModelRequestId;
  ei_tool_batch_id : option ToolBatchId;
  ei_tool_call_id : option ToolCallId;
  ei_effect_id : option EffectId;
  ei_interaction_id : option InteractionId;
  ei_event_id : option EventId;
  ei_budget_scope_id : option BudgetScopeId;
  ei_budget_reservation_id : option BudgetReservationId;
  ei_cancellation_request_id : option CancellationRequestId;
  ei_record_id : option RecordId;
  ei_append_batch_id : option AppendBatchId;
  ei_artifact_id : option ArtifactId
}.
#[global] Instance ErrorIdentifiers_eq_dec : EqDecision ErrorIdentifiers.
Proof. solve_decision. Defined.

Notation ErrorCode := string (only parsing).

Record ErrorDescriptor : Type := mkErrorDescriptor {
  ed_code : ErrorCode;
  ed_message : string;
  ed_category : ErrorCategory;
  ed_retryable : bool;
  ed_identifiers : ErrorIdentifiers;
  ed_safe_details : Metadata
}.
#[global] Instance ErrorDescriptor_eq_dec : EqDecision ErrorDescriptor.
Proof. solve_decision. Defined.

Definition ascii_between (lo hi c : Ascii.ascii) : bool :=
  (Ascii.nat_of_ascii lo <=? Ascii.nat_of_ascii c)%nat && (Ascii.nat_of_ascii c <=? Ascii.nat_of_ascii hi)%nat.
Definition is_ascii_lowercase (c : Ascii.ascii) : bool := ascii_between "a"%char "z"%char c.
Definition is_ascii_digit (c : Ascii.ascii) : bool := ascii_between "0"%char "9"%char c.

(** The scanning loop of [error_code_is_valid]. *)
Fixpoint error_code_tail (s : string) (previous_underscore : bool) : bool :=
  match s with
  | EmptyString => negb previous_underscore
  | String c s' =>
      if is_ascii_lowercase c || is_ascii_digit c then error_code_tail s' false
      else if (c =?? "_"%char) && negb previous_underscore then error_code_tail s' true
      else false
  end.

Definition error_code_is_valid (code : string) : bool :=
  match code with
  | EmptyString => false
  | String c s' =>
      (str_len code <=? LABEL_MAX_BYTES) && is_ascii_lowercase c && error_code_tail s' false
  end.

Definition ErrorIdentifiers_default : ErrorIdentifiers :=
  mkErrorIdentifiers None None None None None None None None None None None None None None None None None.

(** [ErrorDescriptor::validate]; its only error carries no data. *)
Definition error_descriptor_valid (e : ErrorDescriptor) : bool :=
  negb ((ed_message e =?? "") || (TEXT_MAX_BYTES <? str_len (ed_message e)) || has_nul (ed_message e)).

(** [ErrorDescriptor::new]. *)
Definition error_descriptor_new (code message : string) (category : ErrorCategory) (retryable : bool)
    : option ErrorDescriptor :=
  if error_code_is_valid code then
    let descriptor := mkErrorDescriptor code message category retryable ErrorIdentifiers_default METADATA_EMPTY in
    if error_descriptor_valid descriptor then Some descriptor else None
  else None.

(** ** Identities of components and principals *)

Record Version : Type := mkVersion {
  ver_major : Z;
  ver_minor : Z;
  ver_patch : Z
}.
#[global] Instance Version_eq_dec : EqDecision Version.
Proof. solve_decision. Defined.

Record ComponentRef : Type := mkComponentRef {
  cref_id : ComponentId;
  cref_version : option Version
}.
#[global] Instance ComponentRef_eq_dec : EqDecision ComponentRef.
Proof. solve_decision. Defined.

Record MiddlewareRef : Type := mkMiddlewareRef {
  mref_component : ComponentRef;
  mref_stage : option string
}.
#[global] Instance MiddlewareRef_eq_dec : EqDecision MiddlewareRef.
Proof. solve_decision. Defined.

Record PrincipalRef : Type := mkPrincipalRef {
  pr_issuer : string;
  pr_subject : string;
  pr_tenant_scope : option string
}.
#[global] Instance PrincipalRef_eq_dec : EqDecision PrincipalRef.
Proof. solve_decision. Defined.

Inductive AssigneeHint : Type :=
| AssigneeHint_Principal (value : PrincipalRef)
| AssigneeHint_Role (value : string)
| AssigneeHint_Queue (value : string).
#[global] Instance AssigneeHint_eq_dec : EqDecision AssigneeHint.
Proof. solve_decision. Defined.

Record AuthorizationEvidence : Type := mkAuthorizationEvidence {
  ae_policy_version : string;
  ae_decision_id : string
}.
#[global] Instance AuthorizationEvidence_eq_dec : EqDecision AuthorizationEvidence.
Proof. solve_decision. Defined.

(** ** Usage and cost *)

Record CostAmount : Type := mkCostAmount {
  ca_unit : string;
  ca_micros : Z;
  ca_pricing_policy_version : string
}.
#[global] Instance CostAmount_eq_dec : EqDecision CostAmount.
Proof. solve_decision. Defined.

Record Usage : Type := mkUsage {
  us_input_tokens : option Z;
  us_output_tokens : option Z;
  us_total_tokens : option Z;
  us_cost : option CostAmount;
  us_extension_counters : gmap LimitKey Z
}.
#[global] Instance Usage_eq_dec : EqDecision Usage.
Proof. solve_decision. Defined.

Definition MAX_EXTENSION_COUNTERS : nat := 32.

(** [Usage::validate]. *)
Definition usage_valid (u : Usage) : bool := (size (us_extension_counters u) <=? MAX_EXTENSION_COUNTERS)%nat.

(** ** Content blocks *)

Record BlobRef : Type := mkBlobRef {
  br_id : string;
  br_media_type : string;
  br_length : Z;
  br_digest : option Digest;
  br_name : option string
}.
#[global] Instance BlobRef_eq_dec : EqDecision BlobRef.
Proof. solve_decision. Defined.

Record MediaRef : Type := mkMediaRef {
  mr_blob : BlobRef
}.
#[global] Instance MediaRef_eq_dec : EqDecision MediaRef.
Proof. solve_decision. Defined.

Inductive OpaquePayload : Type :=
| OpaquePayload_Bytes (value : string)
| OpaquePayload_Json (value : RawJson).
#[global] Instance OpaquePayload_eq_dec : EqDecision OpaquePayload.
Proof. solve_decision. Defined.

Record OpaqueBlock : Type := mkOpaqueBlock {
  ob_media_type : string;
  ob_payload : OpaquePayload
}.
#[global] Instance OpaqueBlock_eq_dec : EqDecision OpaqueBlock.
Proof. solve_decision. Defined.

Record ToolCallBlock : Type := mkToolCallBlock {
  tc_tool_call_id : ToolCallId;
  tc_tool_name : string;
  tc_arguments : RawJson;
  tc_provider_call_id : option string
}.
#[global] Instance ToolCallBlock_eq_dec : EqDecision ToolCallBlock.
Proof. solve_decision. Defined.

Record TextBlock : Type := mkTextBlock {
  tb_text : string
}.
#[global] Instance TextBlock_eq_dec : EqDecision TextBlock.
Proof. solve_decision. Defined.

Record JsonBlock : Type := mkJsonBlock {
  jb_value : RawJson
}.
#[global] Instance JsonBlock_eq_dec : EqDecision JsonBlock.
Proof. solve_decision. Defined.

(** Tool results nest content blocks, so the two types are mutual. *)
Inductive ContentBlock : Type :=
| ContentBlock_Text (value : TextBlock)
| ContentBlock_Json (value : JsonBlock)
| ContentBlock_Image (value : MediaRef)
| ContentBlock_Audio (value : MediaRef)
| ContentBlock_File (value : MediaRef)
| ContentBlock_ToolCall (value : ToolCallBlock)
| ContentBlock_ToolResult (value : ToolResultBlock)
| ContentBlock_Opaque (value : OpaqueBlock)
with ToolResultBlock : Type :=
| mkToolResultBlock (tool_call_id : ToolCallId) (content : list ContentBlock) (is_error : bool).

Definition tr_tool_call_id (b : ToolResultBlock) : ToolCallId := let 'mkToolResultBlock i _ _ := b in i.
Definition tr_content (b : ToolResultBlock) : list ContentBlock := let 'mkToolResultBlock _ c _ := b in c.
Definition tr_is_error (b : ToolResultBlock) : bool := let 'mkToolResultBlock _ _ e := b in e.

Fixpoint ContentBlock_eq_dec (x y : ContentBlock) {struct x} : {x = y} + {x <> y}
with ToolResultBlock_eq_dec (x y : ToolResultBlock) {struct x} : {x = y} + {x <> y}.
Proof.
  - decide equality; try apply (decide (_ = _)).
  - decide equality; try apply (decide (_ = _)).
    clear - ContentBlock_eq_dec. decide equality.
Defined.
#[global] Instance ContentBlock_decision : EqDecision ContentBlock := ContentBlock_eq_dec.
#[global] Instance ToolResultBlock_decision : EqDecision ToolResultBlock := ToolResultBlock_eq_dec.

Definition is_tool_block (b : ContentBlock) : bool :=
  match b with ContentBlock_ToolCall _ | ContentBlock_ToolResult _ => true | _ => false end.

(** ** Messages *)

Inductive MessageRole : Type :=
| MessageRole_System
| MessageRole_Developer
| MessageRole_User
| MessageRole_Assistant
| MessageRole_Tool.
#[global] Instance MessageRole_eq_dec : EqDecision MessageRole.
Proof. solve_decision. Defined.

Inductive ThinkingLevel : Type :=
| ThinkingLevel_Low
| ThinkingLevel_Medium
| ThinkingLevel_High.
#[global] Instance ThinkingLevel_eq_dec : EqDecision ThinkingLevel.
Proof. solve_decision. Defined.

Record ModelRef : Type := mkModelRef {
  mdl_provider : string;
  mdl_model : string;
  mdl_thinking_level : option ThinkingLevel;
  mdl_context_length : option Z;
  mdl_fast : option bool
}.
#[global] Instance ModelRef_eq_dec : EqDecision ModelRef.
Proof. solve_decision. Defined.

Record ProviderIds : Type := mkProviderIds {
  pids_request_id : option string;
  pids_response_id : option string;
  pids_continuation_id : option string
}.
#[global] Instance ProviderIds_eq_dec : EqDecision ProviderIds.
Proof. solve_decision. Defined.

Record Message : Type := mkMessage {
  msg_id : MessageId;
  msg_role : MessageRole;
  msg_content : list ContentBlock;
  msg_created_at : Timestamp;
  msg_model : option ModelRef;
  msg_provider_ids : ProviderIds;
  msg_metadata : Metadata
}.
#[global] Instance Message_eq_dec : EqDecision Message.
Proof. solve_decision. Defined.

(** ** External handles and artifacts *)

Record ExternalHandleRef : Type := mkExternalHandleRef {
  eh_provider : ComponentId;
  eh_handle : string;
  eh_reconciliation_metadata : RawJson
}.
#[global] Instance ExternalHandleRef_eq_dec : EqDecision ExternalHandleRef.
Proof. solve_decision. Defined.

Record ArtifactRef : Type := mkArtifactRef {
  art_id : ArtifactId;
  art_kind : string;
  art_blob : BlobRef;
  art_content_digest : Digest;
  art_scope_digest : Digest;
  art_metadata : Metadata
}.
#[global] Instance ArtifactRef_eq_dec : EqDecision ArtifactRef.
Proof. solve_decision. Defined.

(** ** Preallocated identities *)

Record AllocatedIds : Type := mkAllocatedIds {
  ids_record_ids : list RecordId;
  ids_event_ids : list EventId;
  ids_effect_ids : list EffectId;
  ids_interaction_ids : list InteractionId;
  ids_message_ids : list MessageId;
  ids_turn_ids : list TurnId;
  ids_model_request_ids : list ModelRequestId;
  ids_tool_batch_ids : list ToolBatchId;
  ids_tool_call_ids : list ToolCallId;
  ids_append_batch_ids : list AppendBatchId;
  ids_cancellation_request_ids : list CancellationRequestId
}.

Record TransitionEnv : Type := mkTransitionEnv {
  env_now : Timestamp;
  env_ids : AllocatedIds
}.

