(* ===== verification/Ids.v ===== *)
(** * Identifier text

    Models [Id::to_canonical_string], [UuidBuffer::encode],
    [parse_uuid_hyphenated] of [primitives/ids.rs] and [hex_nibble] of
    [primitives/label.rs].  An identifier is its 16 bytes; elsewhere in the
    development it is the number those bytes spell in big-endian order. *)

From S2P Require Import Prelude Primitives.

(** [HEX_DIGITS]. *)
Definition HEX_DIGITS : list Ascii.ascii := String.list_ascii_of_string "0123456789abcdef".

Definition hex_digit (n : N) : Ascii.ascii := default Ascii.zero (HEX_DIGITS !! N.to_nat n).

(** The two digits of a byte: [byte >> 4] and [byte & 0x0f]. *)
Definition hex_byte (b : N) : list Ascii.ascii :=
  [hex_digit (N.shiftr b 4); hex_digit (N.land b 15)].

(** [hex_nibble]: digits of either case. *)
Definition hex_nibble (c : Ascii.ascii) : option N :=
  let n := Ascii.N_of_ascii c in
  if ((48 <=? n) && (n <=? 57))%N then Some (n - 48)%N
  else if ((97 <=? n) && (n <=? 102))%N then Some (n - 97 + 10)%N
  else if ((65 <=? n) && (n <=? 70))%N then Some (n - 65 + 10)%N
  else None.

(** The bytes of an identifier, most significant first. *)
Fixpoint be_bytes (n : nat) (v : N) : list N :=
  match n with
  | O => []
  | S n => N.land (N.shiftr v (8 * N.of_nat n)) 255 :: be_bytes n v
  end.

Definition of_be_bytes (l : list N) : N := foldl (fun acc b => (acc * 256 + b)%N) 0%N l.

Definition id_bytes (id : N) : list N := be_bytes 16 id.

(** The text groups of [UuidBuffer::encode]: bytes 0-3, 4-5, 6-7, 8-9, 10-15. *)
Definition UUID_GROUPS : list (nat * nat) := [(0, 4); (4, 2); (6, 2); (8, 2); (10, 6)]%nat.

Definition hyphen : Ascii.ascii := Ascii.ascii_of_N 45.

Definition encode_group (bytes : list N) (g : nat * nat) : list Ascii.ascii :=
  mbind hex_byte (take g.2 (drop g.1 bytes)).

(** The buffer starts as 36 hyphens and each group overwrites its digits. *)
Definition uuid_encode (bytes : list N) : list Ascii.ascii :=
  encode_group bytes (0, 4)%nat ++ hyphen :: encode_group bytes (4, 2)%nat ++ hyphen ::
  encode_group bytes (6, 2)%nat ++ hyphen :: encode_group bytes (8, 2)%nat ++ hyphen ::
  encode_group bytes (10, 6)%nat.

Definition to_canonical_string (id : N) : string :=
  String.string_of_list_ascii (uuid_encode (id_bytes id)).

(** One byte of a group: two digits from [start + offset * 2]. *)
Definition parse_byte (text : list Ascii.ascii) (position : nat) : option N :=
  hi ← c ← text !! position; hex_nibble c;
  lo ← c ← text !! S position; hex_nibble c;
  Some (N.lor (N.shiftl hi 4) lo).

(** The text groups of [parse_uuid_hyphenated]: where each starts and its bytes. *)
Definition PARSE_GROUPS : list (nat * nat) := [(0, 4); (9, 2); (14, 2); (19, 2); (24, 6)]%nat.

Definition parse_uuid_hyphenated (input : string) : option (list N) :=
  let bytes := String.list_ascii_of_string input in
  if negb (length bytes =? 36)%nat
     || (bytes !! 8%nat <>?? Some hyphen) || (bytes !! 13%nat <>?? Some hyphen)
     || (bytes !! 18%nat <>?? Some hyphen) || (bytes !! 23%nat <>?? Some hyphen)
  then None
  else
    mapM (fun p => parse_byte bytes p)
      (mbind (fun g : nat * nat => (fun offset => (g.1 + offset * 2)%nat) <$> seq 0 g.2) PARSE_GROUPS).

(** [Id::parse]. *)
Definition Id_parse (input : string) : option N := of_be_bytes <$> parse_uuid_hyphenated input.

(** ** Round trip *)

Lemma hex_byte_nibbles b : (b < 256)%N ->
  exists c d, hex_byte b = [c; d] /\ hex_nibble c = Some (N.shiftr b 4) /\ hex_nibble d = Some (N.land b 15).
Proof.
  intros Hb. do 2 eexists. split; [done|].
  assert (forall n, (n < 16)%N -> hex_nibble (hex_digit n) = Some n) as Hdigit.
  { intros n Hn. rewrite <- (N2Nat.id n). assert (N.to_nat n < 16)%nat as Hlt by lia. clear Hn. revert Hlt.
    generalize (N.to_nat n) as k. intros k Hk. do 16 (destruct k as [|k]; [reflexivity|]). lia. }
  split; apply Hdigit.
  - rewrite N.shiftr_div_pow2. apply N.Div0.div_lt_upper_bound. exact Hb.
  - change 15%N with (N.ones 4). rewrite N.land_ones. by apply N.mod_lt.
Qed.

Lemma nibbles_byte b : N.lor (N.shiftl (N.shiftr b 4) 4) (N.land b 15) = b.
Proof.
  apply N.bits_inj. intros k. rewrite N.lor_spec, N.land_spec.
  change 15%N with (N.ones 4). destruct (N.lt_ge_cases k 4) as [Hk|Hk].
  - rewrite N.shiftl_spec_low, N.ones_spec_low by lia. simpl. apply andb_true_r.
  - rewrite N.shiftl_spec_high' by lia. rewrite N.shiftr_spec' by lia. rewrite N.ones_spec_high by lia.
    rewrite andb_false_r, orb_false_r. f_equal. lia.
Qed.

Lemma be_bytes_length n v : length (be_bytes n v) = n.
Proof. induction n; simpl; congruence. Qed.

Lemma be_bytes_bounded n v : Forall (fun b => (b < 256)%N) (be_bytes n v).
Proof.
  induction n as [|n IH]; constructor; [|done]. change 255%N with (N.ones 8). rewrite N.land_ones.
  by apply N.mod_lt.
Qed.

Lemma of_be_bytes_acc l acc :
  foldl (fun acc b => (acc * 256 + b)%N) acc l = (acc * 256 ^ N.of_nat (length l) + of_be_bytes l)%N.
Proof.
  unfold of_be_bytes. revert acc. induction l as [|b l IH]; intros acc; [simpl; lia|].
  cbn [foldl length]. rewrite IH, (IH (0 * 256 + b)%N). rewrite Nat2N.inj_succ, N.pow_succ_r'. lia.
Qed.

Lemma of_be_bytes_be_bytes n v : of_be_bytes (be_bytes n v) = (v mod 256 ^ N.of_nat n)%N.
Proof.
  induction n as [|n IH]; [by rewrite N.mod_1_r|].
  cbn [be_bytes]. unfold of_be_bytes. cbn [foldl]. rewrite of_be_bytes_acc, IH, be_bytes_length.
  rewrite N.mul_0_l, N.add_0_l. change 255%N with (N.ones 8). rewrite N.land_ones, N.shiftr_div_pow2.
  rewrite Nat2N.inj_succ, N.pow_succ_r'.
  assert (2 ^ (8 * N.of_nat n) = 256 ^ N.of_nat n)%N as -> by (rewrite N.pow_mul_r; done).
  rewrite (N.mul_comm 256), N.Div0.mod_mul_r. change (2 ^ 8)%N with 256%N. lia.
Qed.

Lemma parse_byte_at text p c d b :
  text !! p = Some c -> text !! S p = Some d ->
  hex_nibble c = Some (N.shiftr b 4) -> hex_nibble d = Some (N.land b 15) -> parse_byte text p = Some b.
Proof. unfold parse_byte. intros -> -> Hc Hd. simpl. rewrite Hc. simpl. rewrite Hd. simpl. by rewrite nibbles_byte. Qed.

Lemma uuid_bytes_roundtrip bytes :
  length bytes = 16%nat -> Forall (fun b => (b < 256)%N) bytes ->
  parse_uuid_hyphenated (String.string_of_list_ascii (uuid_encode bytes)) = Some bytes.
Proof.
  intros Hlen Hall. unfold parse_uuid_hyphenated. rewrite String.list_ascii_of_string_of_list_ascii.
  do 16 (destruct bytes as [|? bytes]; [done|]). destruct bytes; [|done]. clear Hlen.
  unfold uuid_encode, encode_group. cbn [fst snd take drop mbind list_bind].
  repeat match goal with
    | H : Forall _ (_ :: _) |- _ => apply Forall_cons in H as [Hb%hex_byte_nibbles H];
        destruct Hb as (? & ? & -> & ? & ?)
    end.
  cbn [app length Nat.eqb negb orb]. cbn [lookup list_lookup]. rewrite !eqb_refl. cbn [negb orb].
  unfold PARSE_GROUPS. cbn [mbind list_bind fst snd seq fmap list_fmap app Nat.add Nat.mul].
  cbn [mapM]. repeat (erewrite parse_byte_at; [cbn [mbind option_bind mret]|reflexivity|reflexivity|eassumption|eassumption]).
  done.
Qed.

Lemma id_roundtrip id : (id < 2 ^ 128)%N -> Id_parse (to_canonical_string id) = Some id.
Proof.
  intros Hid. unfold Id_parse, to_canonical_string.
  rewrite uuid_bytes_roundtrip by (apply be_bytes_length || apply be_bytes_bounded).
  cbn [fmap option_fmap option_map]. f_equal. unfold id_bytes. rewrite of_be_bytes_be_bytes.
  apply N.mod_small. exact Hid.
Qed.
