(* ===== verification/Time.v ===== *)
(** * Timestamps

    Models [primitives/time.rs]: the range of timestamps, checked arithmetic, the
    civil calendar and RFC 3339 text with millisecond precision.  A timestamp is
    its number of milliseconds since the epoch.  Signed division of the source
    truncates ([Z.quot]); its unsigned values are non-negative numbers. *)

From S2P Require Import Prelude Primitives.

Definition TIMESTAMP_MIN_MS : Z := -62135596800000.
Definition TIMESTAMP_MAX_MS : Z := 253402300799999.

Inductive TimeError : Type :=
| TimeError_OutOfRange (value : Z)
| TimeError_Overflow
| TimeError_InvalidRfc3339 (input : list Ascii.ascii).

Definition from_unix_ms (ms : Z) : result Timestamp TimeError :=
  if (ms <? TIMESTAMP_MIN_MS) || (TIMESTAMP_MAX_MS <? ms) then Err (TimeError_OutOfRange ms) else Ok ms.

Definition Timestamp_checked_add (t : Timestamp) (d : Duration) : option Timestamp :=
  d ← in_range i64_min i64_max d;
  ms ← i64_checked_add t d;
  in_range TIMESTAMP_MIN_MS TIMESTAMP_MAX_MS ms.

Definition Timestamp_checked_sub (t : Timestamp) (d : Duration) : option Timestamp :=
  d ← in_range i64_min i64_max d;
  ms ← i64_checked_sub t d;
  in_range TIMESTAMP_MIN_MS TIMESTAMP_MAX_MS ms.

(** ** The civil calendar *)

Definition is_leap (year : Z) : bool :=
  ((year mod 4 =? 0) && negb (year mod 100 =? 0)) || (year mod 400 =? 0).

Definition days_in_month (year month : Z) : Z :=
  match month with
  | 1 | 3 | 5 | 7 | 8 | 10 | 12 => 31
  | 4 | 6 | 9 | 11 => 30
  | 2 => if is_leap year then 29 else 28
  | _ => 0
  end.

Definition days_from_civil (year month day : Z) : Z :=
  let y := if month <=? 2 then year - 1 else year in
  let era := (if 0 <=? y then y else y - 399) ÷ 400 in
  let yoe := y - era * 400 in
  let mp := if 2 <? month then month - 3 else month + 9 in
  let doy := (153 * mp + 2) / 5 + day - 1 in
  let doe := yoe * 365 + yoe / 4 - yoe / 100 + doy in
  era * 146097 + doe - 719468.

(** The year of an era from its day. *)
Definition year_of_era (doe : Z) : Z := (doe - doe / 1460 + doe / 36524 - doe / 146096) / 365.

(** The date part of [civil_from_unix_ms]. *)
Definition civil_from_days (days : Z) : Z * Z * Z :=
  let days := days + 719468 in
  let era := (if 0 <=? days then days else days - 146096) ÷ 146097 in
  let doe := days - era * 146097 in
  let yoe := year_of_era doe in
  let y := yoe + era * 400 in
  let doy := doe - (365 * yoe + yoe / 4 - yoe / 100) in
  let mp := (5 * doy + 2) / 153 in
  let d := doy - (153 * mp + 2) / 5 + 1 in
  let m := if mp <? 10 then mp + 3 else mp - 9 in
  (if m <=? 2 then y + 1 else y, m, d).

Definition day_ms : Z := 86400000.

Record Civil : Type := mkCivil {
  cv_year : Z; cv_month : Z; cv_day : Z; cv_hour : Z; cv_minute : Z; cv_second : Z; cv_millis : Z
}.

Definition civil_from_unix_ms (ms : Z) : Civil :=
  let '(year, month, day) := civil_from_days (ms / day_ms) in
  let tod := ms mod day_ms in
  let hour := tod / 3600000 in
  let tod := tod mod 3600000 in
  let minute := tod / 60000 in
  let tod := tod mod 60000 in
  mkCivil year month day hour minute (tod / 1000) (tod mod 1000).

(** ** Text *)

Definition digit (n : Z) : Ascii.ascii := Ascii.ascii_of_N (48 + Z.to_N n).

(** [write_digits] on a slot of this width. *)
Fixpoint write_digits (width : nat) (value : Z) : list Ascii.ascii :=
  match width with
  | O => []
  | S width => write_digits width (value / 10) ++ [digit (value mod 10)]
  end.

Definition digit_value (c : Ascii.ascii) : option Z :=
  let n := Z.of_N (Ascii.N_of_ascii c) in
  if (48 <=? n) && (n <=? 57) then Some (n - 48) else None.

Definition parse_step (value : option Z) (c : Ascii.ascii) : option Z :=
  value ← value; d ← digit_value c; Some (value * 10 + d).

Definition parse_u32 (slice : list Ascii.ascii) : option Z := foldl parse_step (Some 0) slice.

Definition mark (n : N) : Ascii.ascii := Ascii.ascii_of_N n.
Definition HYPHEN : Ascii.ascii := mark 45.
Definition LETTER_T : Ascii.ascii := mark 84.
Definition COLON : Ascii.ascii := mark 58.
Definition DOT : Ascii.ascii := mark 46.
Definition LETTER_Z : Ascii.ascii := mark 90.

(** [Rfc3339Buffer::encode]: the template with its seven fields overwritten. *)
Definition Rfc3339Buffer_encode (unix_ms : Z) : list Ascii.ascii :=
  let c := civil_from_unix_ms unix_ms in
  write_digits 4 (cv_year c) ++ HYPHEN :: write_digits 2 (cv_month c) ++ HYPHEN :: write_digits 2 (cv_day c)
  ++ LETTER_T :: write_digits 2 (cv_hour c) ++ COLON :: write_digits 2 (cv_minute c) ++ COLON
  :: write_digits 2 (cv_second c) ++ DOT :: write_digits 3 (cv_millis c) ++ [LETTER_Z].

Definition to_rfc3339 (t : Timestamp) : list Ascii.ascii := Rfc3339Buffer_encode t.

(** [&bytes[start..start + width]]. *)
Definition field_at (start width : nat) (input : list Ascii.ascii) : option Z :=
  parse_u32 (take width (drop start input)).

Definition unix_ms_of (c : Civil) : Z :=
  days_from_civil (cv_year c) (cv_month c) (cv_day c) * day_ms
  + (cv_hour c * 3600000 + cv_minute c * 60000 + cv_second c * 1000 + cv_millis c).

Definition civil_in_range (c : Civil) : bool :=
  (1 <=? cv_year c) && (cv_year c <=? 9999) && (1 <=? cv_month c) && (cv_month c <=? 12)
  && (1 <=? cv_day c) && (cv_day c <=? days_in_month (cv_year c) (cv_month c))
  && (cv_hour c <=? 23) && (cv_minute c <=? 59) && (cv_second c <=? 59) && (cv_millis c <=? 999).

Definition separators : list (nat * Ascii.ascii) :=
  [(4%nat, HYPHEN); (7%nat, HYPHEN); (10%nat, LETTER_T); (13%nat, COLON); (16%nat, COLON); (19%nat, DOT); (23%nat, LETTER_Z)].

Definition parse_rfc3339 (input : list Ascii.ascii) : result Timestamp TimeError :=
  let invalid := TimeError_InvalidRfc3339 input in
  do? reject_if (negb (length input =? 24)%nat
                 || negb (forallb (fun p : nat * Ascii.ascii => input !! p.1 =?? Some p.2) separators)) invalid in
  let? year := ok_or (field_at 0 4 input) invalid in
  let? month := ok_or (field_at 5 2 input) invalid in
  let? day := ok_or (field_at 8 2 input) invalid in
  let? hour := ok_or (field_at 11 2 input) invalid in
  let? minute := ok_or (field_at 14 2 input) invalid in
  let? second := ok_or (field_at 17 2 input) invalid in
  let? millis := ok_or (field_at 20 3 input) invalid in
  let c := mkCivil year month day hour minute second millis in
  do? reject_if (negb (civil_in_range c)) invalid in
  map_err (fun _ => invalid) (from_unix_ms (unix_ms_of c)).

Example epoch_text : String.string_of_list_ascii (to_rfc3339 0) = "1970-01-01T00:00:00.000Z".
Proof. reflexivity. Qed.
Example leap_day_parses :
  parse_rfc3339 (String.list_ascii_of_string "2024-02-29T12:34:56.789Z") = Ok 1709210096789.
Proof. reflexivity. Qed.
Example leap_second_rejected :
  parse_rfc3339 (String.list_ascii_of_string "2016-12-31T23:59:60.000Z") =
    Err (TimeError_InvalidRfc3339 (String.list_ascii_of_string "2016-12-31T23:59:60.000Z")).
Proof. reflexivity. Qed.

(** ** Eras

    An era has 146097 days; day [doe] of it belongs to the March-based year
    [year_of_era doe], whose first day is [era_start]. *)

Definition era_start (yoe : Z) : Z := 365 * yoe + yoe / 4 - yoe / 100.

(** The length of a March-based year: its last day is the leap day, if any, of
    the following civil year. *)
Definition era_year_days (yoe : Z) : Z := if is_leap (yoe + 1) then 366 else 365.

Definition era_rank (doe : Z) : Z := doe - doe / 1460 + doe / 36524 - doe / 146096.

Definition era_year_ok (yoe : Z) : bool :=
  let last := era_start yoe + era_year_days yoe - 1 in
  (year_of_era (era_start yoe) =? yoe) && (year_of_era last =? yoe) && (last <=? 146096)
  && ((yoe =? 399) || (last + 1 =? era_start (yoe + 1))).

Lemma era_years_ok : forallb era_year_ok (Z.of_nat <$> seq 0 400) = true.
Proof. vm_compute. reflexivity. Qed.

Lemma era_year_spec yoe : 0 <= yoe < 400 ->
  let last := era_start yoe + era_year_days yoe - 1 in
  year_of_era (era_start yoe) = yoe /\ year_of_era last = yoe /\ last <= 146096 /\
  (yoe <> 399 -> last + 1 = era_start (yoe + 1)).
Proof.
  intros Hy. pose proof era_years_ok as Hall. rewrite forallb_forall in Hall. specialize (Hall yoe).
  assert (era_year_ok yoe = true) as Hok.
  { apply Hall. apply list_elem_of_In, list_elem_of_fmap. exists (Z.to_nat yoe). rewrite elem_of_seq. lia. }
  unfold era_year_ok in Hok. cbv zeta in Hok. crush_ok. cbv zeta. lia.
Qed.

Lemma era_rank_mono a b : 0 <= a <= b -> b <= 146096 -> era_rank a <= era_rank b.
Proof.
  intros Hab Hb. assert (exists n, b = a + Z.of_nat n) as [n ->] by (exists (Z.to_nat (b - a)); lia).
  induction n as [|n IH]; [by rewrite Z.add_0_r|]. etrans; [apply IH; lia|]. unfold era_rank.
  assert (0 <= a + Z.of_nat n < 146096) as Hr by lia. replace (a + Z.of_nat (S n)) with (a + Z.of_nat n + 1) by lia.
  generalize dependent (a + Z.of_nat n). intros x Hx. clear. intros. Z.to_euclidean_division_equations. lia.
Qed.

Lemma year_of_era_rank doe : year_of_era doe = era_rank doe / 365.
Proof. reflexivity. Qed.

Lemma year_of_era_mono a b : 0 <= a <= b -> b <= 146096 -> year_of_era a <= year_of_era b.
Proof. intros Hab Hb. rewrite !year_of_era_rank. apply Z.div_le_mono; [lia|]. by apply era_rank_mono. Qed.

Lemma era_start_nonneg yoe : 0 <= yoe -> 0 <= era_start yoe.
Proof. intros Hy. unfold era_start. Z.to_euclidean_division_equations. lia. Qed.

Lemma era_year_days_bounds yoe : 365 <= era_year_days yoe <= 366.
Proof. unfold era_year_days. destruct (is_leap _); lia. Qed.

(** Every day of a year belongs to it. *)
Lemma year_of_era_day yoe doy : 0 <= yoe < 400 -> 0 <= doy < era_year_days yoe -> year_of_era (era_start yoe + doy) = yoe.
Proof.
  intros Hy Hd. destruct (era_year_spec yoe Hy) as (Hs & Hl & Hmax & _). pose proof (era_start_nonneg yoe ltac:(lia)).
  apply Z.le_antisymm.
  - rewrite <- Hl at 2. apply year_of_era_mono; lia.
  - rewrite <- Hs at 1. apply year_of_era_mono; lia.
Qed.

(** Every day of an era belongs to one of its years. *)
Lemma year_of_era_bounds doe : 0 <= doe <= 146096 ->
  0 <= year_of_era doe < 400 /\ 0 <= doe - era_start (year_of_era doe) < era_year_days (year_of_era doe).
Proof.
  intros Hd. assert (0 <= year_of_era doe < 400) as Hy.
  { pose proof (year_of_era_mono 0 doe ltac:(lia) ltac:(lia)) as H1. pose proof (year_of_era_mono doe 146096 ltac:(lia) ltac:(lia)) as H2.
    change (year_of_era 0) with 0 in H1. change (year_of_era 146096) with 399 in H2. lia. }
  split; [done|]. set (y := year_of_era doe) in *.
  pose proof (era_year_spec y Hy) as (Hs & Hl & Hmax & Hnext). pose proof (era_year_days_bounds y). split.
  - destruct (Z_lt_le_dec doe (era_start y)) as [Hlt|]; [|lia]. exfalso.
    assert (y <> 0) as Hy0 by (intros ->; change (era_start 0) with 0 in Hlt; lia).
    pose proof (era_year_spec (y - 1) ltac:(lia)) as (_ & Hl' & Hmax' & Hnext').
    specialize (Hnext' ltac:(lia)). replace (y - 1 + 1) with y in Hnext' by lia.
    pose proof (year_of_era_mono doe (era_start (y - 1) + era_year_days (y - 1) - 1) ltac:(lia) ltac:(lia)). lia.
  - destruct (Z_lt_le_dec (doe - era_start y) (era_year_days y)) as [|Hge]; [done|]. exfalso.
    destruct (decide (y = 399)) as [He|Hn].
    { assert (era_start y + era_year_days y - 1 = 146096) by (rewrite He; reflexivity). lia. }
    specialize (Hnext Hn). pose proof (era_year_spec (y + 1) ltac:(lia)) as (Hs' & _ & _ & _).
    pose proof (era_start_nonneg (y + 1) ltac:(lia)).
    pose proof (year_of_era_mono (era_start (y + 1)) doe ltac:(lia) ltac:(lia)). lia.
Qed.

(** ** Months *)

Definition month_of (mp : Z) : Z := if mp <? 10 then mp + 3 else mp - 9.
Definition month_start (mp : Z) : Z := (153 * mp + 2) / 5.

(** The days of March-based month [mp], with a leap day in the last. *)
Lemma month_of_day doy : 0 <= doy <= 365 ->
  let mp := (5 * doy + 2) / 153 in let d := doy - month_start mp + 1 in
  0 <= mp <= 11 /\ 1 <= d /\ (mp <> 11 -> d <= month_start (mp + 1) - month_start mp) /\ (mp = 11 -> d = doy - 336).
Proof. intros Hd. cbv zeta. unfold month_start. Z.to_euclidean_division_equations. lia. Qed.

Lemma month_lengths year mp : 0 <= mp <= 10 -> days_in_month year (month_of mp) = month_start (mp + 1) - month_start mp.
Proof.
  intros Hm. assert (mp = 0 \/ mp = 1 \/ mp = 2 \/ mp = 3 \/ mp = 4 \/ mp = 5 \/ mp = 6 \/ mp = 7 \/ mp = 8 \/ mp = 9 \/ mp = 10)
    as Hcases by lia. by repeat destruct Hcases as [->|Hcases]; subst.
Qed.

Lemma february year : days_in_month year (month_of 11) = if is_leap year then 29 else 28.
Proof. reflexivity. Qed.

(** A day of a month determines the month. *)
Lemma day_of_month mp d : 0 <= mp <= 11 -> 1 <= d -> (mp <> 11 -> d <= month_start (mp + 1) - month_start mp) -> (mp = 11 -> d <= 29) ->
  0 <= month_start mp + d - 1 <= 365 /\ (5 * (month_start mp + d - 1) + 2) / 153 = mp.
Proof. intros Hm Hd H1 H2. unfold month_start in *. Z.to_euclidean_division_equations. lia. Qed.

Lemma is_leap_era year era : is_leap (year + era * 400) = is_leap year.
Proof.
  unfold is_leap. replace (era * 400) with (era * 100 * 4) at 1 by lia. rewrite Z.mod_add by lia.
  replace (era * 400) with (era * 4 * 100) at 1 by lia. rewrite Z.mod_add by lia. by rewrite Z.mod_add by lia.
Qed.

(** ** Dates *)

Definition valid_date (year month day : Z) : Prop := 1 <= month <= 12 /\ 1 <= day <= days_in_month year month.

(** A day count from the first era on is the day count of its date. *)
Lemma civil_of_days days : 0 <= days + 719468 ->
  let '(year, month, day) := civil_from_days days in
  valid_date year month day /\ days_from_civil year month day = days.
Proof.
  intros Hd. unfold civil_from_days. cbv zeta. rewrite (proj2 (Z.leb_le 0 (days + 719468)) Hd).
  rewrite Z.quot_div_nonneg by lia. set (n := days + 719468) in *. set (era := n / 146097). set (doe := n - era * 146097).
  assert (0 <= era /\ 0 <= doe <= 146096) as [Hera Hdoe] by (unfold era, doe; Z.to_euclidean_division_equations; lia).
  destruct (year_of_era_bounds doe Hdoe) as [Hy Hdoy]. set (yoe := year_of_era doe) in *.
  change (365 * yoe + yoe / 4 - yoe / 100) with (era_start yoe). set (doy := doe - era_start yoe) in *.
  pose proof (era_year_days_bounds yoe) as Hyd. destruct (month_of_day doy ltac:(lia)) as (Hmp & Hd1 & Hd2 & Hd3).
  set (mp := (5 * doy + 2) / 153) in *. fold (month_start mp). set (d := doy - month_start mp + 1) in *. fold (month_of mp).
  assert (month_of mp <=? 2 = (9 <? mp)) as Hm2 by (unfold month_of; destruct (Z.ltb_spec mp 10); lia).
  split.
  - split; [unfold month_of; destruct (Z.ltb_spec mp 10); lia|]. split; [done|].
    destruct (decide (mp = 11)) as [Hm|Hm].
    + rewrite Hm, february. rewrite Hm in Hm2. rewrite Hm2. cbn [Z.ltb Z.compare Pos.compare Pos.compare_cont].
      specialize (Hd3 Hm). unfold era_year_days in Hdoy. replace (yoe + era * 400 + 1) with (yoe + 1 + era * 400) by lia.
      rewrite is_leap_era. destruct (is_leap (yoe + 1)); lia.
    + rewrite month_lengths by lia. auto.
  - unfold days_from_civil. cbv zeta. rewrite Hm2.
    assert ((if 9 <? mp then (if 9 <? mp then yoe + era * 400 + 1 else yoe + era * 400) - 1
             else if 9 <? mp then yoe + era * 400 + 1 else yoe + era * 400) = yoe + era * 400) as -> by (destruct (9 <? mp); lia).
    rewrite (proj2 (Z.leb_le 0 (yoe + era * 400))) by lia. rewrite Z.quot_div_nonneg by lia.
    assert ((yoe + era * 400) / 400 = era) as -> by (rewrite Z.div_add by lia; rewrite Z.div_small by lia; lia).
    replace (yoe + era * 400 - era * 400) with yoe by lia.
    assert ((if 2 <? month_of mp then month_of mp - 3 else month_of mp + 9) = mp) as ->
      by (unfold month_of; destruct (Z.ltb_spec mp 10); [destruct (Z.ltb_spec 2 (mp + 3))|destruct (Z.ltb_spec 2 (mp - 9))]; lia).
    fold (month_start mp). unfold d, doy, doe, era_start, n. lia.
Qed.

(** The pieces of a valid date from the first year on: era, year, month, day. *)
Lemma date_pieces year month day : 1 <= year -> valid_date year month day ->
  exists era yoe mp, 0 <= era /\ 0 <= yoe < 400 /\ 0 <= mp <= 11 /\ month = month_of mp /\
    year = yoe + era * 400 + (if 9 <? mp then 1 else 0) /\
    0 <= month_start mp + day - 1 < era_year_days yoe /\ (5 * (month_start mp + day - 1) + 2) / 153 = mp /\
    days_from_civil year month day = era * 146097 + (era_start yoe + (month_start mp + day - 1)) - 719468.
Proof.
  intros Hy [Hm Hd]. set (y := if month <=? 2 then year - 1 else year). set (mp := if 2 <? month then month - 3 else month + 9).
  assert (0 <= y) as Hy0 by (unfold y; destruct (month <=? 2); lia).
  assert (0 <= mp <= 11 /\ month = month_of mp /\ (9 <? mp) = (month <=? 2)) as (Hmp & Hmonth & Hsplit).
  { unfold mp, month_of. destruct (Z.ltb_spec 2 month), (Z.leb_spec month 2); try lia.
    - destruct (Z.ltb_spec (month - 3) 10); lia.
    - destruct (Z.ltb_spec (month + 9) 10); lia. }
  assert (0 <= y / 400 /\ 0 <= y mod 400 < 400) as [Hera Hyoe] by (Z.to_euclidean_division_equations; lia).
  assert (year = y mod 400 + y / 400 * 400 + (if 9 <? mp then 1 else 0)) as Hyear.
  { rewrite Hsplit. pose proof (Z.div_mod y 400 ltac:(lia)). unfold y in *. destruct (month <=? 2); lia. }
  destruct (day_of_month mp day Hmp ltac:(lia)) as [Hdoy Hback].
  { intros Hn. rewrite <- (month_lengths year) by lia. rewrite <- Hmonth. lia. }
  { intros H11. rewrite Hmonth, H11, february in Hd. destruct (is_leap year); lia. }
  exists (y / 400), (y mod 400), mp. do 5 (split; [done|]). split; [|split; [done|]].
  - unfold era_year_days. destruct (decide (mp = 11)) as [H11|Hn].
    + rewrite Hmonth, H11, february in Hd. rewrite H11 in Hyear. cbn in Hyear.
      replace (is_leap (y mod 400 + 1)) with (is_leap year).
      * rewrite H11 in Hdoy |- *. change (month_start 11) with 337 in *. destruct (is_leap year); lia.
      * rewrite Hyear. replace (y mod 400 + y / 400 * 400 + 1) with (y mod 400 + 1 + y / 400 * 400) by lia. apply is_leap_era.
    + assert (month_start mp + day - 1 < 365) as Hlt; [|destruct (is_leap _); lia].
      rewrite Hmonth, month_lengths in Hd by lia. unfold month_start in *. Z.to_euclidean_division_equations. lia.
  - unfold days_from_civil. cbv zeta. fold y mp. rewrite (proj2 (Z.leb_le 0 y) Hy0), Z.quot_div_nonneg by lia.
    fold (month_start mp). replace (y - y / 400 * 400) with (y mod 400) by (pose proof (Z.div_mod y 400 ltac:(lia)); lia).
    unfold era_start. lia.
Qed.

(** A valid date is the date of its day count. *)
Lemma days_of_civil year month day : 1 <= year -> valid_date year month day ->
  civil_from_days (days_from_civil year month day) = (year, month, day).
Proof.
  intros Hy Hv. destruct (date_pieces year month day Hy Hv) as (era & yoe & mp & Hera & Hyoe & Hmp & Hm & Hyear & Hdoy & Hback & ->).
  set (doy := month_start mp + day - 1) in *. destruct (era_year_spec yoe Hyoe) as (_ & _ & Hmax & _).
  pose proof (era_start_nonneg yoe ltac:(lia)). unfold civil_from_days. cbv zeta.
  replace (era * 146097 + (era_start yoe + doy) - 719468 + 719468) with (era_start yoe + doy + era * 146097) by lia.
  rewrite (proj2 (Z.leb_le 0 _)) by lia. rewrite Z.quot_div_nonneg by lia. rewrite Z.div_add by lia.
  rewrite (Z.div_small (era_start yoe + doy)) by lia. rewrite Z.add_0_l.
  replace (era_start yoe + doy + era * 146097 - era * 146097) with (era_start yoe + doy) by lia.
  rewrite year_of_era_day by done. change (365 * yoe + yoe / 4 - yoe / 100) with (era_start yoe).
  replace (era_start yoe + doy - era_start yoe) with doy by lia. rewrite Hback. fold (month_start mp) (month_of mp).
  assert ((month_of mp <=? 2) = (9 <? mp)) as -> by (unfold month_of; destruct (Z.ltb_spec mp 10); lia).
  rewrite Hm. f_equal; [|unfold doy; lia]. f_equal. rewrite Hyear. destruct (9 <? mp); lia.
Qed.

Lemma era_start_mono a b : 0 <= a <= b -> era_start a <= era_start b.
Proof. intros Hab. unfold era_start. Z.to_euclidean_division_equations. lia. Qed.

(** The day counts of the years 1 to 9999. *)
Lemma days_bounds year month day : 1 <= year <= 9999 -> valid_date year month day ->
  -719162 <= days_from_civil year month day <= 2932896.
Proof.
  intros [Hy1 Hy2] Hv. destruct (date_pieces year month day Hy1 Hv) as (era & yoe & mp & Hera & Hyoe & Hmp & Hm & Hyear & Hdoy & Hback & ->).
  set (doy := month_start mp + day - 1) in *. destruct (era_year_spec yoe Hyoe) as (_ & _ & Hmax & Hnext).
  pose proof (era_start_nonneg yoe ltac:(lia)). assert (era <= 24) as He by (destruct (9 <? mp); lia).
  assert (9 < mp <-> 306 <= doy) as H306 by (clear - Hback; Z.to_euclidean_division_equations; lia). split.
  - destruct (decide (era = 0)) as [->|]; [|lia]. destruct (decide (yoe = 0)) as [->|].
    + destruct (Z.ltb_spec 9 mp); lia.
    + pose proof (era_start_mono 1 yoe ltac:(lia)). change (era_start 1) with 365 in *. lia.
  - destruct (decide (era = 24)) as [->|]; [|lia]. destruct (decide (yoe = 399)) as [->|].
    + change (era_start 399) with 145731. destruct (Z.ltb_spec 9 mp); lia.
    + specialize (Hnext ltac:(lia)). pose proof (era_start_mono (yoe + 1) 399 ltac:(lia)). change (era_start 399) with 145731 in *. lia.
Qed.

(** The years of the day counts of the range. *)
Lemma year_bounds days : -719162 <= days <= 2932896 ->
  1 <= (civil_from_days days).1.1 <= 9999.
Proof.
  intros Hd. pose proof (civil_of_days days ltac:(lia)) as Hc. destruct (civil_from_days days) as [[year month] day] eqn:E. cbn [fst].
  destruct Hc as [Hv Hdays].
  unfold civil_from_days in E. cbv zeta in E. rewrite (proj2 (Z.leb_le 0 (days + 719468))) in E by lia.
  rewrite Z.quot_div_nonneg in E by lia. set (n := days + 719468) in *. set (era := n / 146097) in *. set (doe := n - era * 146097) in *.
  assert (0 <= era <= 24 /\ 0 <= doe <= 146096 /\ n = era * 146097 + doe) as (Hera & Hdoe & Hn)
    by (unfold doe, era, n; clear - Hd; Z.to_euclidean_division_equations; lia).
  destruct (year_of_era_bounds doe Hdoe) as [Hy Hdoy]. set (yoe := year_of_era doe) in *.
  change (365 * yoe + yoe / 4 - yoe / 100) with (era_start yoe) in E. set (doy := doe - era_start yoe) in *.
  set (mp := (5 * doy + 2) / 153) in *. fold (month_of mp) in E.
  assert ((month_of mp <=? 2) = (9 <? mp)) as Hm2.
  { pose proof (era_year_days_bounds yoe). destruct (month_of_day doy ltac:(lia)) as [Hmp _]. fold mp in Hmp.
    unfold month_of. destruct (Z.ltb_spec mp 10); lia. }
  rewrite Hm2 in E. injection E as Hyear _ _.
  assert (9 < mp <-> 306 <= doy) as H306 by (unfold mp; clear; Z.to_euclidean_division_equations; lia).
  rewrite <- Hyear. split.
  - destruct (decide (era = 0)) as [He|]; [|destruct (9 <? mp); lia]. destruct (decide (yoe = 0)) as [Hy0|]; [|destruct (9 <? mp); lia].
    assert (era_start yoe = 0) by (rewrite Hy0; done). destruct (Z.ltb_spec 9 mp); lia.
  - destruct (decide (era = 24)) as [He|]; [|destruct (9 <? mp); lia]. destruct (decide (yoe = 399)) as [Hy9|]; [|destruct (9 <? mp); lia].
    assert (era_start yoe = 145731) by (rewrite Hy9; done). destruct (Z.ltb_spec 9 mp); lia.
Qed.

(** ** Time of day *)

Record valid_civil (c : Civil) : Prop := {
  vc_year : 1 <= cv_year c <= 9999;
  vc_date : valid_date (cv_year c) (cv_month c) (cv_day c);
  vc_hour : 0 <= cv_hour c <= 23;
  vc_minute : 0 <= cv_minute c <= 59;
  vc_second : 0 <= cv_second c <= 59;
  vc_millis : 0 <= cv_millis c <= 999
}.

Lemma civil_of_ms t : TIMESTAMP_MIN_MS <= t <= TIMESTAMP_MAX_MS ->
  valid_civil (civil_from_unix_ms t) /\ unix_ms_of (civil_from_unix_ms t) = t.
Proof.
  intros Ht. unfold civil_from_unix_ms. cbv zeta.
  assert (-719162 <= t / day_ms <= 2932896) as Hd
    by (clear - Ht; unfold TIMESTAMP_MIN_MS, TIMESTAMP_MAX_MS, day_ms in *; Z.to_euclidean_division_equations; lia).
  pose proof (civil_of_days (t / day_ms) ltac:(lia)) as Hc. pose proof (year_bounds (t / day_ms) Hd) as Hy.
  destruct (civil_from_days (t / day_ms)) as [[year month] day]. cbn [fst] in Hy. destruct Hc as [Hv Hdays]. clear Hd. split.
  - split; cbn [cv_year cv_month cv_day cv_hour cv_minute cv_second cv_millis]; [done|done|..];
      clear; unfold day_ms; Z.to_euclidean_division_equations; lia.
  - unfold unix_ms_of. cbn [cv_year cv_month cv_day cv_hour cv_minute cv_second cv_millis]. rewrite Hdays.
    clear; unfold day_ms; Z.to_euclidean_division_equations; lia.
Qed.

Lemma ms_of_civil c : valid_civil c ->
  TIMESTAMP_MIN_MS <= unix_ms_of c <= TIMESTAMP_MAX_MS /\ civil_from_unix_ms (unix_ms_of c) = c.
Proof.
  intros [Hy Hd Hh Hm Hs Hl]. pose proof (days_bounds _ _ _ Hy Hd) as Hb. split.
  - unfold unix_ms_of, day_ms, TIMESTAMP_MIN_MS, TIMESTAMP_MAX_MS. lia.
  - unfold civil_from_unix_ms. set (days := days_from_civil (cv_year c) (cv_month c) (cv_day c)) in *.
    set (tod := cv_hour c * 3600000 + cv_minute c * 60000 + cv_second c * 1000 + cv_millis c).
    assert (unix_ms_of c = tod + days * day_ms) as -> by (unfold unix_ms_of, tod, days; lia).
    assert (0 <= tod < day_ms) as Htod by (unfold tod, day_ms; lia).
    rewrite Z.div_add, Z.mod_add, Z.div_small, Z.mod_small, Z.add_0_l by (unfold day_ms in *; lia).
    unfold days. rewrite days_of_civil by (done || lia). unfold tod. cbv zeta. clear - Hh Hm Hs Hl.
    destruct c as [y mo d h mi s l]. cbn [cv_year cv_month cv_day cv_hour cv_minute cv_second cv_millis] in *.
    f_equal; Z.to_euclidean_division_equations; lia.
Qed.

(** ** Digits *)

Lemma digit_value_digit n : 0 <= n < 10 -> digit_value (digit n) = Some n.
Proof.
  intros Hn. unfold digit_value, digit. cbv zeta. rewrite Ascii.N_ascii_embedding by lia.
  replace (Z.of_N (48 + Z.to_N n)) with (48 + n) by lia.
  rewrite (proj2 (Z.leb_le 48 _)), (proj2 (Z.leb_le _ 57)) by lia. cbn. f_equal. lia.
Qed.

Lemma digit_of_value c d : digit_value c = Some d -> c = digit d /\ 0 <= d < 10.
Proof.
  unfold digit_value, digit. cbv zeta. destruct (Z.leb_spec 48 (Z.of_N (Ascii.N_of_ascii c))); [|done].
  destruct (Z.leb_spec (Z.of_N (Ascii.N_of_ascii c)) 57); [|done]. cbn. intros [= <-]. split; [|lia].
  rewrite <- (Ascii.ascii_N_embedding c) at 1. f_equal. lia.
Qed.

Lemma parse_snoc l c : parse_u32 (l ++ [c]) = parse_step (parse_u32 l) c.
Proof. unfold parse_u32. by rewrite foldl_app. Qed.

Lemma parse_write w : forall v, 0 <= v < 10 ^ Z.of_nat w -> parse_u32 (write_digits w v) = Some v.
Proof.
  induction w as [|w IH]; intros v Hv.
  { cbn in Hv |- *. f_equal. lia. }
  cbn [write_digits]. rewrite parse_snoc, IH.
  - unfold parse_step. cbn [mbind option_bind]. rewrite digit_value_digit by (apply Z.mod_pos_bound; lia). cbn. f_equal.
    pose proof (Z.div_mod v 10 ltac:(lia)). lia.
  - rewrite Nat2Z.inj_succ, Z.pow_succ_r in Hv by lia. split; [apply Z.div_pos; lia|]. apply Z.div_lt_upper_bound; lia.
Qed.

Lemma write_parse l : forall v, parse_u32 l = Some v -> write_digits (length l) v = l /\ 0 <= v.
Proof.
  induction l as [|c l IH] using rev_ind; intros v.
  { cbn. intros [= <-]. done. }
  rewrite parse_snoc. unfold parse_step. intros (u & Hu & (d & Hd & [= <-])%bind_Some)%bind_Some.
  apply digit_of_value in Hd as [-> Hd]. apply IH in Hu as [Hw Hu]. rewrite length_app, Nat.add_comm. cbn [length Nat.add write_digits].
  replace ((u * 10 + d) / 10) with u by (Z.to_euclidean_division_equations; lia).
  replace ((u * 10 + d) mod 10) with d by (Z.to_euclidean_division_equations; lia). split; [by rewrite Hw|lia].
Qed.

(** ** Text *)

Lemma civil_checked c : 0 <= cv_hour c -> 0 <= cv_minute c -> 0 <= cv_second c -> 0 <= cv_millis c ->
  civil_in_range c = true <-> valid_civil c.
Proof.
  intros Hh Hm Hs Hl. unfold civil_in_range. rewrite !andb_true_iff, !Z.leb_le. split.
  - intros. split; [lia|split; lia|lia..].
  - intros [Hy [Hmo Hd] ? ? ? ?]. lia.
Qed.

Lemma days_in_month_le year month : days_in_month year month <= 31.
Proof. unfold days_in_month. repeat case_match; lia. Qed.

(** The printed text parses back. *)
Lemma parse_of_text t : TIMESTAMP_MIN_MS <= t <= TIMESTAMP_MAX_MS -> parse_rfc3339 (to_rfc3339 t) = Ok t.
Proof.
  intros Ht. destruct (civil_of_ms t Ht) as [Hv Hms]. unfold parse_rfc3339.
  unfold to_rfc3339, Rfc3339Buffer_encode. cbv zeta. set (c := civil_from_unix_ms t) in *.
  match goal with |- context [reject_if (negb (length ?l =? 24)%nat || _) _] => set (text := l) end.
  assert (negb (length text =? 24)%nat ||
    negb (forallb (fun p : nat * Ascii.ascii => text !! p.1 =?? Some p.2) separators) = false) as -> by reflexivity.
  cbn [reject_if rbind]. pose proof Hv as [Hy [Hmo Hd] Hh Hm Hs Hl]. pose proof (days_in_month_le (cv_year c) (cv_month c)).
  assert (field_at 0 4 text = Some (cv_year c)) as -> by (apply (parse_write 4); lia). cbn [ok_or rbind].
  assert (field_at 5 2 text = Some (cv_month c)) as -> by (apply (parse_write 2); lia). cbn [ok_or rbind].
  assert (field_at 8 2 text = Some (cv_day c)) as -> by (apply (parse_write 2); lia). cbn [ok_or rbind].
  assert (field_at 11 2 text = Some (cv_hour c)) as -> by (apply (parse_write 2); lia). cbn [ok_or rbind].
  assert (field_at 14 2 text = Some (cv_minute c)) as -> by (apply (parse_write 2); lia). cbn [ok_or rbind].
  assert (field_at 17 2 text = Some (cv_second c)) as -> by (apply (parse_write 2); lia). cbn [ok_or rbind].
  assert (field_at 20 3 text = Some (cv_millis c)) as -> by (apply (parse_write 3); lia). cbn [ok_or rbind].
  destruct c as [y mo d h mi s l]. cbn [cv_year cv_month cv_day cv_hour cv_minute cv_second cv_millis] in *.
  rewrite (proj2 (civil_checked (mkCivil y mo d h mi s l) ltac:(cbn; lia) ltac:(cbn; lia) ltac:(cbn; lia) ltac:(cbn; lia)) Hv).
  cbn [negb reject_if rbind]. rewrite Hms. unfold from_unix_ms.
  rewrite (proj2 (Z.ltb_ge t TIMESTAMP_MIN_MS)), (proj2 (Z.ltb_ge TIMESTAMP_MAX_MS t)) by lia. done.
Qed.

Lemma field_text start width input v : (start + width <= length input)%nat -> field_at start width input = Some v ->
  take width (drop start input) = write_digits width v /\ 0 <= v.
Proof.
  intros Hlen [Hw Hv]%write_parse. rewrite length_take, length_drop, Nat.min_l in Hw by lia. done.
Qed.

(** Nothing but the printed text parses. *)
Lemma text_of_parse input t : parse_rfc3339 input = Ok t ->
  to_rfc3339 t = input /\ TIMESTAMP_MIN_MS <= t <= TIMESTAMP_MAX_MS.
Proof.
  unfold parse_rfc3339. cbv zeta. intros HH. step HH. apply reject_if_Ok, orb_false_iff in E as [Hlen Hsep].
  apply negb_false_iff, Nat.eqb_eq in Hlen. apply negb_false_iff in Hsep. unfold separators in Hsep. cbn [forallb fst snd] in Hsep.
  rewrite !andb_true_iff, !eqb_true in Hsep. destruct Hsep as (S4 & S7 & S10 & S13 & S16 & S19 & S23 & _).
  do 7 (apply (proj1 (rbind_Ok _ _ _)) in HH as (? & ?%ok_or_Ok & HH)).
  repeat match goal with E : field_at _ _ input = Some _ |- _ => apply field_text in E as [? ?]; [|lia] end.
  step HH. apply reject_if_Ok, negb_false_iff, civil_checked, ms_of_civil in E as [Hr Hc]; [|cbn; lia..].
  apply map_err_Ok in HH. unfold from_unix_ms in HH. destruct (_ || _); [done|]. injection HH as <-. split; [|done].
  unfold to_rfc3339, Rfc3339Buffer_encode. cbv zeta. rewrite Hc. cbn [cv_year cv_month cv_day cv_hour cv_minute cv_second cv_millis].
  repeat match goal with E : take _ _ = write_digits _ _ |- _ => rewrite <- E; clear E end.
  do 24 (destruct input as [|? input]; [done|]). destruct input; [|done]. cbn in *. by simplify_eq.
Qed.
