(* ===== verification/Floats.v ===== *)
(** * IEEE-754 formats, by their bits

    What the codec uses of the floating-point types of the language: the test
    [is_finite], the widening [f64::from(f32)] and the rounding cast [as f32],
    on bit patterns.  A narrow format is given by the widths of its exponent
    and mantissa fields, so that the same functions describe binary16.  The
    binary16 type itself is the [half] crate's: the class [Half] holds its
    operations and [HalfLaws] what its documentation promises of them. *)

From S2P Require Import Prelude.

Local Open Scope N_scope.

(** ** binary64 *)

Definition f64_exponent (bits : N) : N := N.land (N.shiftr bits 52) 2047.
Definition f64_mantissa (bits : N) : N := N.land bits (N.ones 52).
Definition f64_sign (bits : N) : N := N.shiftr bits 63.
Definition f64_of (sign exponent mantissa : N) : N := sign * 2 ^ 63 + exponent * 2 ^ 52 + mantissa.

(** [f64::is_finite]. *)
Definition f64_is_finite (bits : N) : bool := negb (f64_exponent bits =? 2047).

(** ** A narrower format *)

Section Narrow.
(** Exponent width and mantissa width. *)
Variables (eb mb : N).

Definition exponent_max : N := 2 ^ eb - 1.
Definition bias : N := 2 ^ (eb - 1) - 1.

Definition small_sign (bits : N) : N := bits / 2 ^ (eb + mb).
Definition small_exponent (bits : N) : N := (bits / 2 ^ mb) mod 2 ^ eb.
Definition small_mantissa (bits : N) : N := bits mod 2 ^ mb.
Definition small_of (sign magnitude : N) : N := sign * 2 ^ (eb + mb) + magnitude.

Definition small_is_finite (bits : N) : bool := negb (small_exponent bits =? exponent_max).

(** Every value of the narrow format is a binary64 value. *)
Definition widen (bits : N) : N :=
  let s := small_sign bits in
  let e := small_exponent bits in
  let m := small_mantissa bits in
  if e =? exponent_max then f64_of s 2047 (m * 2 ^ (52 - mb))
  else if negb (e =? 0) then f64_of s (e + 1023 - bias) (m * 2 ^ (52 - mb))
  else if m =? 0 then f64_of s 0 0
  else
    let k := N.log2 m in
    f64_of s (k + 1024 - bias - mb) ((m - 2 ^ k) * 2 ^ (52 - k)).

(** Drop [shift] low bits, rounding to nearest, ties to even.  A carry out of
    the mantissa moves into the exponent, and out of the largest exponent to
    infinity. *)
Definition round_shift (magnitude shift : N) : N :=
  let kept := magnitude / 2 ^ shift in
  let rest := magnitude mod 2 ^ shift in
  let half := 2 ^ (shift - 1) in
  if (half <? rest) || ((rest =? half) && N.odd kept) then kept + 1 else kept.

(** The rounding cast; a NaN becomes a quiet NaN. *)
Definition narrow (bits : N) : N :=
  let s := f64_sign bits in
  let e := f64_exponent bits in
  let m := f64_mantissa bits in
  if e =? 2047 then small_of s (exponent_max * 2 ^ mb + (if m =? 0 then 0 else 2 ^ (mb - 1)))
  else if 1023 - bias <? e then
    if exponent_max <=? e - (1023 - bias) then small_of s (exponent_max * 2 ^ mb)
    else small_of s (round_shift ((e - (1023 - bias)) * 2 ^ 52 + m) (52 - mb))
  else
    let full := if e =? 0 then m else m + 2 ^ 52 in
    small_of s (round_shift full (52 - mb + (1024 - bias - N.max e 1))).

(** ** Widening then narrowing is the identity on finite values *)

Hypothesis Hmb : 1 <= mb < 52.
Hypothesis Heb : 2 <= eb.
Hypothesis Hfit : bias + mb < 1023.

Lemma round_shift_exact n shift : 1 <= shift -> round_shift (n * 2 ^ shift) shift = n.
Proof.
  intros Hs. unfold round_shift. rewrite N.Div0.mod_mul, N.div_mul by (apply N.pow_nonzero; lia).
  assert (0 < 2 ^ (shift - 1)) by (apply N.neq_0_lt_0, N.pow_nonzero; lia).
  destruct (N.ltb_spec (2 ^ (shift - 1)) 0); [lia|]. destruct (N.eqb_spec 0 (2 ^ (shift - 1))); [lia|done].
Qed.

Lemma f64_of_fields s e m : s < 2 -> e < 2048 -> m < 2 ^ 52 ->
  f64_sign (f64_of s e m) = s /\ f64_exponent (f64_of s e m) = e /\ f64_mantissa (f64_of s e m) = m.
Proof.
  intros Hs He Hm. unfold f64_sign, f64_exponent, f64_mantissa, f64_of.
  change 2047 with (N.ones 11). rewrite !N.land_ones, !N.shiftr_div_pow2.
  change (2 ^ 63) with (2 ^ 11 * 2 ^ 52). change (2 ^ 11) with 2048.
  replace (s * (2048 * 2 ^ 52) + e * 2 ^ 52 + m) with ((s * 2048 + e) * 2 ^ 52 + m) by lia.
  split_and!.
  - rewrite (N.mul_comm 2048), <- N.Div0.div_div.
    rewrite N.div_add_l, (N.div_small m), N.add_0_r by done. rewrite N.div_add_l, (N.div_small e) by done. lia.
  - rewrite N.div_add_l, (N.div_small m), N.add_0_r by done.
    rewrite N.add_comm, N.Div0.mod_add. by apply N.mod_small.
  - rewrite N.add_comm, N.Div0.mod_add. by apply N.mod_small.
Qed.

Lemma small_fields bits :
  bits = small_of (small_sign bits) (small_exponent bits * 2 ^ mb + small_mantissa bits).
Proof.
  unfold small_of, small_sign, small_exponent, small_mantissa. rewrite N.pow_add_r.
  rewrite (N.mul_comm (2 ^ eb)), <- N.Div0.div_div.
  pose proof (N.Div0.div_mod bits (2 ^ mb)). pose proof (N.Div0.div_mod (bits / 2 ^ mb) (2 ^ eb)).
  rewrite (N.mul_comm (2 ^ mb) (2 ^ eb)), N.mul_assoc. nia.
Qed.
Lemma bias_pos : 1 <= bias.
Proof.
  unfold bias. replace (eb - 1) with (N.succ (eb - 2)) by lia. rewrite N.pow_succ_r'.
  assert (2 ^ (eb - 2) <> 0) by (apply N.pow_nonzero; lia). lia.
Qed.

Lemma exponent_max_bias : exponent_max = 2 * bias + 1.
Proof.
  unfold exponent_max, bias. replace (2 ^ eb) with (2 ^ N.succ (eb - 1)) by (f_equal; lia).
  rewrite N.pow_succ_r'. assert (2 ^ (eb - 1) <> 0) by (apply N.pow_nonzero; lia). lia.
Qed.

Lemma mantissa_scaled m k : m < 2 ^ k -> k <= 52 -> m * 2 ^ (52 - k) < 2 ^ 52.
Proof.
  intros Hm Hk. replace (2 ^ 52) with (2 ^ k * 2 ^ (52 - k)) by (rewrite <- N.pow_add_r; f_equal; lia).
  apply N.mul_lt_mono_pos_r; [|done]. apply N.neq_0_lt_0, N.pow_nonzero. lia.
Qed.

Definition is_small (bits : N) : Prop := bits < 2 ^ (1 + eb + mb).

Lemma small_bounds bits : is_small bits ->
  small_sign bits < 2 /\ small_exponent bits <= exponent_max /\ small_mantissa bits < 2 ^ mb.
Proof.
  unfold is_small, small_sign, small_exponent, small_mantissa, exponent_max. intros Hb. split_and!.
  - apply N.Div0.div_lt_upper_bound. rewrite N.mul_comm, <- N.pow_succ_r'. by replace (N.succ (eb + mb)) with (1 + eb + mb) by lia.
  - assert (2 ^ eb <> 0) as Hne by (apply N.pow_nonzero; lia).
    pose proof (N.mod_lt (bits / 2 ^ mb) (2 ^ eb) Hne). lia.
  - apply N.mod_lt, N.pow_nonzero. lia.
Qed.

(** The fields of a widened value, by cases. *)
Inductive widened (bits : N) : Prop :=
| widened_special : small_exponent bits = exponent_max -> f64_exponent (widen bits) = 2047 -> widened bits
| widened_normal : 1 <= small_exponent bits < exponent_max ->
    f64_sign (widen bits) = small_sign bits ->
    f64_exponent (widen bits) = small_exponent bits + 1023 - bias ->
    f64_mantissa (widen bits) = small_mantissa bits * 2 ^ (52 - mb) -> widened bits
| widened_zero : small_exponent bits = 0 -> small_mantissa bits = 0 -> f64_sign (widen bits) = small_sign bits ->
    f64_exponent (widen bits) = 0 -> f64_mantissa (widen bits) = 0 -> widened bits
| widened_subnormal k : small_exponent bits = 0 -> k < mb -> 2 ^ k <= small_mantissa bits ->
    f64_sign (widen bits) = small_sign bits ->
    f64_exponent (widen bits) = k + 1024 - bias - mb ->
    f64_mantissa (widen bits) = (small_mantissa bits - 2 ^ k) * 2 ^ (52 - k) -> widened bits.

Lemma widen_cases bits : is_small bits -> widened bits /\ widen bits < 2 ^ 64.
Proof.
  intros (Hs & He & Hm)%small_bounds. pose proof bias_pos as Hbp. pose proof exponent_max_bias as Hbm.
  assert (forall s e m, s < 2 -> e < 2048 -> m < 2 ^ 52 -> f64_of s e m < 2 ^ 64) as Hfits.
  { intros s e m. unfold f64_of. change (2 ^ 64) with (2 * 2 ^ 11 * 2 ^ 52). change (2 ^ 63) with (2 ^ 11 * 2 ^ 52).
    change (2 ^ 11) with 2048. intros. nia. }
  destruct (N.eqb_spec (small_exponent bits) exponent_max) as [Heq|Hne].
  - assert (small_mantissa bits * 2 ^ (52 - mb) < 2 ^ 52) as Hms by (apply mantissa_scaled; lia).
    destruct (f64_of_fields (small_sign bits) 2047 _ Hs ltac:(lia) Hms) as (_ & H2 & _).
    assert (widen bits = f64_of (small_sign bits) 2047 (small_mantissa bits * 2 ^ (52 - mb))) as Hw.
    { unfold widen. by rewrite (proj2 (N.eqb_eq _ _) Heq). }
    split; [|rewrite Hw; apply Hfits; [done|lia|done]]. apply widened_special; [done|]. by rewrite Hw.
  - destruct (N.eqb_spec (small_exponent bits) 0) as [H0|H0].
    + destruct (N.eqb_spec (small_mantissa bits) 0) as [Hm0|Hm0].
      * assert (widen bits = f64_of (small_sign bits) 0 0) as Hw.
        { unfold widen. rewrite (proj2 (N.eqb_neq _ _) Hne), H0, Hm0. done. }
        destruct (f64_of_fields (small_sign bits) 0 0) as (H1 & H2 & H3); [lia..|].
        split; [|rewrite Hw; apply Hfits; lia]. by apply widened_zero; rewrite ?Hw.
      * set (k := N.log2 (small_mantissa bits)).
        assert (2 ^ k <= small_mantissa bits < 2 ^ N.succ k) as Hk by (apply N.log2_spec; lia).
        assert (k < mb) as Hkm by (apply N.log2_lt_pow2; lia).
        assert ((small_mantissa bits - 2 ^ k) * 2 ^ (52 - k) < 2 ^ 52) as Hms.
        { apply mantissa_scaled; [|lia]. rewrite N.pow_succ_r' in Hk. lia. }
        assert (widen bits = f64_of (small_sign bits) (k + 1024 - bias - mb)
                  ((small_mantissa bits - 2 ^ k) * 2 ^ (52 - k))) as Hw.
        { unfold widen. rewrite (proj2 (N.eqb_neq _ _) Hne), H0, (proj2 (N.eqb_neq _ _) Hm0). done. }
        destruct (f64_of_fields (small_sign bits) (k + 1024 - bias - mb) _ Hs ltac:(lia) Hms) as (H1 & H2 & H3).
        split; [|rewrite Hw; apply Hfits; [done|lia|done]].
        apply (widened_subnormal bits k); rewrite ?Hw; first [assumption|apply Hk].
    + assert (small_mantissa bits * 2 ^ (52 - mb) < 2 ^ 52) as Hms by (apply mantissa_scaled; lia).
      assert (widen bits = f64_of (small_sign bits) (small_exponent bits + 1023 - bias)
                (small_mantissa bits * 2 ^ (52 - mb))) as Hw.
      { unfold widen. by rewrite (proj2 (N.eqb_neq _ _) Hne), (proj2 (N.eqb_neq _ _) H0). }
      destruct (f64_of_fields (small_sign bits) (small_exponent bits + 1023 - bias) _ Hs ltac:(lia) Hms) as (H1 & H2 & H3).
      split; [|rewrite Hw; apply Hfits; [done|lia|done]].
      apply widened_normal; rewrite ?Hw; try done. lia.
Qed.

Lemma widen_finite bits : is_small bits -> f64_is_finite (widen bits) = small_is_finite bits.
Proof.
  intros Hb. pose proof bias_pos as Hbp. pose proof exponent_max_bias as Hbm.
  destruct (small_bounds bits Hb) as (_ & He & _).
  destruct (widen_cases bits Hb) as [[Hx Hw|Hx _ Hw _|Hx _ _ Hw _|k Hx Hk _ _ Hw _] _];
    unfold f64_is_finite, small_is_finite; rewrite Hw, ?Hx.
  - by rewrite !N.eqb_refl.
  - destruct (N.eqb_spec (small_exponent bits + 1023 - bias) 2047), (N.eqb_spec (small_exponent bits) exponent_max); lia || done.
  - destruct (N.eqb_spec 0 exponent_max); lia || done.
  - destruct (N.eqb_spec (k + 1024 - bias - mb) 2047), (N.eqb_spec 0 exponent_max); lia || done.
Qed.

Lemma narrow_widen bits : is_small bits -> small_is_finite bits = true -> narrow (widen bits) = bits.
Proof.
  intros Hb Hfin. pose proof bias_pos as Hbp. pose proof exponent_max_bias as Hbm.
  rewrite (small_fields bits) at 2. unfold narrow.
  destruct (widen_cases bits Hb) as [[Hx Hw|Hx -> -> ->|Hx Hm -> -> ->|k Hx Hk Hle -> -> ->] _].
  - unfold small_is_finite in Hfin. by rewrite Hx, N.eqb_refl in Hfin.
  - rewrite (proj2 (N.eqb_neq _ _)), (proj2 (N.ltb_lt _ _)) by lia.
    replace (small_exponent bits + 1023 - bias - (1023 - bias)) with (small_exponent bits) by lia.
    rewrite (proj2 (N.leb_gt _ _)) by lia. f_equal.
    replace (2 ^ 52) with (2 ^ mb * 2 ^ (52 - mb)) by (rewrite <- N.pow_add_r; f_equal; lia).
    rewrite N.mul_assoc, <- N.mul_add_distr_r. apply round_shift_exact. lia.
  - rewrite Hx, Hm. rewrite (proj2 (N.ltb_ge (1023 - bias) 0)) by lia. cbn [N.eqb]. f_equal.
    by apply (round_shift_exact 0); lia.
  - rewrite Hx, (proj2 (N.eqb_neq _ _)), (proj2 (N.ltb_ge _ _)) by lia.
    rewrite (proj2 (N.eqb_neq (k + 1024 - bias - mb) 0)) by lia. rewrite N.max_l by lia.
    replace (52 - mb + (1024 - bias - (k + 1024 - bias - mb))) with (52 - k) by lia. f_equal.
    replace (2 ^ 52) with (2 ^ k * 2 ^ (52 - k)) by (rewrite <- N.pow_add_r; f_equal; lia).
    rewrite <- N.mul_add_distr_r, round_shift_exact by lia. lia.
Qed.

Lemma round_shift_bound n shift bound : n < bound * 2 ^ shift -> round_shift n shift <= bound.
Proof.
  intros Hn. unfold round_shift. assert (n / 2 ^ shift < bound).
  { apply N.Div0.div_lt_upper_bound. by rewrite N.mul_comm. }
  case_match; lia.
Qed.

Lemma f64_bounds bits : bits < 2 ^ 64 ->
  f64_sign bits < 2 /\ f64_exponent bits < 2048 /\ f64_mantissa bits < 2 ^ 52.
Proof.
  intros Hb. unfold f64_sign, f64_exponent, f64_mantissa. change 2047 with (N.ones 11).
  rewrite !N.land_ones, !N.shiftr_div_pow2. split_and!; [|by apply N.mod_lt..].
  apply N.Div0.div_lt_upper_bound. exact Hb.
Qed.

Lemma narrow_small bits : bits < 2 ^ 64 -> is_small (narrow bits).
Proof.
  intros (Hs & He & Hm)%f64_bounds. pose proof bias_pos as Hbp. pose proof exponent_max_bias as Hbm.
  assert (2 ^ (1 + eb + mb) = 2 * 2 ^ (eb + mb)) as Hpow by (rewrite <- N.pow_succ_r'; f_equal; lia).
  assert (2 ^ eb = exponent_max + 1) as Heq.
  { unfold exponent_max. assert (2 ^ eb <> 0) by (apply N.pow_nonzero; lia). lia. }
  assert (0 < 2 ^ mb) as Hmp by (apply N.neq_0_lt_0, N.pow_nonzero; lia).
  assert (forall m, m <= exponent_max * 2 ^ mb + 2 ^ (mb - 1) -> is_small (small_of (f64_sign bits) m)) as Hsmall.
  { intros m Hle. unfold is_small, small_of. rewrite Hpow, N.pow_add_r, Heq.
    assert (2 ^ mb = 2 * 2 ^ (mb - 1)) by (rewrite <- N.pow_succ_r'; f_equal; lia). nia. }
  assert (2 ^ 52 = 2 ^ mb * 2 ^ (52 - mb)) as H52 by (rewrite <- N.pow_add_r; f_equal; lia).
  unfold narrow. repeat case_match; apply Hsmall; try lia.
  - etransitivity; [apply (round_shift_bound _ _ (exponent_max * 2 ^ mb))|lia].
    rewrite <- N.mul_assoc, <- H52. apply N.leb_gt in H1. nia.
  - etransitivity; [apply (round_shift_bound _ _ (2 ^ mb))|nia].
    rewrite <- N.pow_add_r. eapply N.lt_le_trans; [exact Hm|]. apply N.pow_le_mono_r; [lia|].
    apply N.eqb_eq in H1. rewrite H1. cbn [N.max]. lia.
  - etransitivity; [apply (round_shift_bound _ _ (2 ^ mb))|nia].
    rewrite <- N.pow_add_r. apply (N.lt_le_trans _ (2 ^ 53)); [change (2 ^ 53) with (2 * 2 ^ 52); lia|].
    apply N.pow_le_mono_r; [lia|]. apply N.ltb_ge in H0. apply N.eqb_neq in H1. lia.
Qed.
End Narrow.

(** ** binary32 and binary16 *)

(** [f64::from(f32)] and [as f32]. *)
Definition f32_to_f64 (bits : N) : N := widen 8 23 bits.
Definition f64_to_f32_lossy (bits : N) : N := narrow 8 23 bits.
Definition f32_is_finite (bits : N) : bool := small_is_finite 8 23 bits.

(** [half::f16]: conversions to and from binary64, and [is_finite]. *)
Class Half : Type := {
  f16_from_f64 : N -> N;
  f16_to_f64 : N -> N;
  f16_is_finite : N -> bool
}.

(** Every binary16 value is a binary64 value, finite together with it, and
    rounding back an exactly representable value returns it. *)
Class HalfLaws `{Half} : Prop := {
  f16_from_f64_range : forall bits, f16_from_f64 bits < 2 ^ 16;
  f16_to_f64_range : forall h, h < 2 ^ 16 -> f16_to_f64 h < 2 ^ 64;
  f16_to_f64_finite : forall h, h < 2 ^ 16 -> f64_is_finite (f16_to_f64 h) = f16_is_finite h;
  f16_from_to_f64 : forall h, h < 2 ^ 16 -> f16_is_finite h = true -> f16_from_f64 (f16_to_f64 h) = h
}.

Section F32.
Let widths : 1 <= 23 < 52 /\ 2 <= 8 /\ bias 8 + 23 < 1023 := ltac:(split_and!; vm_compute; congruence).

Lemma f32_to_f64_bits h : h < 2 ^ 32 -> f32_to_f64 h < 2 ^ 64.
Proof. destruct widths as (? & ? & ?). intros Hh. by apply widen_cases. Qed.

Lemma f32_to_f64_finite h : h < 2 ^ 32 -> f64_is_finite (f32_to_f64 h) = f32_is_finite h.
Proof. destruct widths as (? & ? & ?). intros Hh. by apply widen_finite. Qed.

Lemma f64_to_f32_bits bits : bits < 2 ^ 64 -> f64_to_f32_lossy bits < 2 ^ 32.
Proof. destruct widths as (? & ? & ?). intros Hb. by apply (narrow_small 8 23). Qed.

Lemma f32_narrow_widen h : h < 2 ^ 32 -> f32_is_finite h = true -> f64_to_f32_lossy (f32_to_f64 h) = h.
Proof. destruct widths as (? & ? & ?). intros. by apply narrow_widen. Qed.
End F32.

(** The binary16 format satisfies the laws. *)
Definition ieee_half : Half := {|
  f16_from_f64 := fun bits => narrow 5 10 (bits mod 2 ^ 64);
  f16_to_f64 := widen 5 10;
  f16_is_finite := small_is_finite 5 10
|}.

Lemma ieee_half_laws : @HalfLaws ieee_half.
Proof.
  assert (1 <= 10 < 52 /\ 2 <= 5 /\ bias 5 + 10 < 1023) as (? & ? & ?) by (split_and!; vm_compute; congruence).
  split; cbn [ieee_half f16_from_f64 f16_to_f64 f16_is_finite].
  - intros bits. apply (narrow_small 5 10); [done..|]. by apply N.mod_lt.
  - intros h Hh. by apply widen_cases.
  - intros h Hh. by apply widen_finite.
  - intros h Hh Hf. rewrite N.mod_small by by apply widen_cases. by apply narrow_widen.
Qed.
