(* ===== verification/Cbor.v ===== *)
(** * Canonical CBOR

    Models [cbor/value.rs] of [finstack-ai-protocol] and the ceilings of
    [cbor/mod.rs]: the value tree, the RFC 8949 deterministic encoder and the
    strict decoder.  A byte is an [ascii]; lengths that are compared with a
    ceiling are [N].  Floats are their binary64 bits. *)

From stdpp Require Import sorting.
From S2P Require Import Prelude Ids Floats.

Notation bytes := (list Ascii.ascii).

(** ** Errors and ceilings *)

Inductive ProtocolError : Type :=
| ProtocolError_LimitExceeded (resource : string) (limit : N)
| ProtocolError_InvalidCbor (reason_code : string)
| ProtocolError_InvalidFrame (reason_code : string)
| ProtocolError_InvalidEnvelope (reason_code : string)
| ProtocolError_UnsupportedVersion (reason_code : string)
| ProtocolError_InvalidMessage (reason_code : string)
| ProtocolError_Codec (message : string)
| ProtocolError_Integrity (reason_code : string).
#[global] Instance ProtocolError_eq_dec : EqDecision ProtocolError.
Proof. solve_decision. Defined.

Notation presult A := (result A ProtocolError).

Local Open Scope N_scope.

Definition CANONICAL_ENVELOPE_MAX_BYTES : N := 8 * 1024 * 1024.
Definition APPEND_BATCH_MAX_BYTES : N := 16 * 1024 * 1024.
Definition CANONICAL_STRING_MAX_BYTES : N := 4 * 1024 * 1024.
Definition CANONICAL_ARRAY_MAX_ITEMS : N := 4096.
Definition CANONICAL_MAP_MAX_ENTRIES : N := 256.
Definition CANONICAL_NESTING_DEPTH : nat := 32.

Definition len {A} (l : list A) : N := N.of_nat (length l).

(** ** Bytes *)

Definition u8 (c : Ascii.ascii) : N := Ascii.N_of_ascii c.
Definition of_u8 (n : N) : Ascii.ascii := Ascii.ascii_of_N n.

(** [to_be_bytes] and [from_be_bytes]. *)
Definition be (width : nat) (n : N) : bytes := of_u8 <$> be_bytes width n.
Definition from_be (l : bytes) : N := of_be_bytes (u8 <$> l).

(** The order of byte slices. *)
Fixpoint bytes_le (a b : bytes) : bool :=
  match a, b with
  | [], _ => true
  | _ :: _, [] => false
  | x :: a, y :: b => (u8 x <? u8 y) || ((u8 x =? u8 y) && bytes_le a b)
  end.

(** [std::str::from_utf8] succeeds: no overlong form, no surrogate, at most
    U+10FFFF. *)
Definition within (lo hi : N) (c : Ascii.ascii) : bool := (lo <=? u8 c) && (u8 c <=? hi).
Definition continuation (c : Ascii.ascii) : bool := within 128 191 c.

Fixpoint utf8_valid (l : bytes) : bool :=
  match l with
  | [] => true
  | a :: l1 =>
      if within 0 127 a then utf8_valid l1
      else
        match l1 with
        | [] => false
        | b :: l2 =>
            if within 194 223 a then continuation b && utf8_valid l2
            else
              match l2 with
              | [] => false
              | c :: l3 =>
                  let second :=
                    if within 224 224 a then within 160 191 b
                    else if within 237 237 a then within 128 159 b
                    else within 225 239 a && continuation b in
                  if second && continuation c then utf8_valid l3
                  else
                    match l3 with
                    | [] => false
                    | d :: l4 =>
                        let second :=
                          if within 240 240 a then within 144 191 b
                          else if within 244 244 a then within 128 143 b
                          else within 241 243 a && continuation b in
                        second && continuation c && continuation d && utf8_valid l4
                    end
              end
        end
  end.

(** ** Values *)

Inductive CanonicalValue : Type :=
| CanonicalValue_Null
| CanonicalValue_Bool (b : bool)
| CanonicalValue_Unsigned (n : N)
| CanonicalValue_Negative (n : N)
| CanonicalValue_Bytes (b : bytes)
| CanonicalValue_Text (t : bytes)
| CanonicalValue_Array (items : list CanonicalValue)
| CanonicalValue_Map (entries : list (CanonicalValue * CanonicalValue))
| CanonicalValue_Float (bits : N).

(** ** The writer *)

Record Writer : Type := mkWriter {
  wr_out : bytes;
  wr_limit : N
}.

Definition Writer_new (limit : N) : Writer := mkWriter [] limit.

Definition extend (b : bytes) (w : Writer) : presult Writer :=
  do? reject_if (wr_limit w <? len (wr_out w) + len b)
        (ProtocolError_LimitExceeded "canonical_envelope" (wr_limit w)) in
  Ok (mkWriter (wr_out w ++ b) (wr_limit w)).

Definition push (byte : N) (w : Writer) : presult Writer := extend [of_u8 byte] w.

Definition uint (major n : N) (w : Writer) : presult Writer :=
  let major := N.shiftl major 5 in
  if n <? 2 ^ 8 then
    if n <? 24 then push (N.lor major n) w else extend [of_u8 (N.lor major 24); of_u8 n] w
  else if n <? 2 ^ 16 then
    let? w := push (N.lor major 25) w in extend (be 2 n) w
  else if n <? 2 ^ 32 then
    let? w := push (N.lor major 26) w in extend (be 4 n) w
  else
    let? w := push (N.lor major 27) w in extend (be 8 n) w.

Definition enter_depth (depth : nat) : presult nat :=
  do? reject_if (CANONICAL_NESTING_DEPTH <=? depth)%nat
        (ProtocolError_LimitExceeded "nesting_depth" (N.of_nat CANONICAL_NESTING_DEPTH)) in
  Ok (S depth).

(** The order in which map entries are written: by encoded key. *)
Definition key_le {A} (a b : bytes * A) : Prop := bytes_le a.1 b.1 = true.
#[global] Instance key_le_dec {A} : RelDecision (@key_le A) := fun a b => decide (bytes_le a.1 b.1 = true).

(** [keys.windows(2)] finds two equal keys side by side. *)
Fixpoint adjacent_duplicate (keys : list bytes) : bool :=
  match keys with
  | a :: rest => match rest with b :: _ => (a =?? b) || adjacent_duplicate rest | [] => false end
  | [] => false
  end.

Section Codec.
Context `{Half}.

Definition f64_to_f16_exact (bits : N) : option N :=
  let half := f16_from_f64 bits in
  if f16_to_f64 half =? bits then Some half else None.

Definition write_float (bits : N) (w : Writer) : presult Writer :=
  do? reject_if (negb (f64_is_finite bits)) (ProtocolError_InvalidCbor "non_finite_float") in
  match f64_to_f16_exact bits with
  | Some half => let? w := push 249 w in extend (be 2 half) w
  | None =>
      let single := f64_to_f32_lossy bits in
      if f32_to_f64 single =? bits then let? w := push 250 w in extend (be 4 single) w
      else let? w := push 251 w in extend (be 8 bits) w
  end.

(** [Writer::value].  The values of a map are kept as the list [writers] of
    their pending writes, so that [entries[index]] of the source is a lookup
    there; the indices come from [enumerate] and are in range. *)
Fixpoint Writer_value (value : CanonicalValue) (depth : nat) (w : Writer) {struct value} : presult Writer :=
  match value with
  | CanonicalValue_Null => push 246 w
  | CanonicalValue_Bool false => push 244 w
  | CanonicalValue_Bool true => push 245 w
  | CanonicalValue_Unsigned n => uint 0 n w
  | CanonicalValue_Negative n => uint 1 n w
  | CanonicalValue_Bytes b =>
      do? reject_if (CANONICAL_STRING_MAX_BYTES <? len b)
            (ProtocolError_LimitExceeded "byte_string" CANONICAL_STRING_MAX_BYTES) in
      let? w := uint 2 (len b) w in
      extend b w
  | CanonicalValue_Text t =>
      do? reject_if (CANONICAL_STRING_MAX_BYTES <? len t)
            (ProtocolError_LimitExceeded "text_string" CANONICAL_STRING_MAX_BYTES) in
      let? w := uint 3 (len t) w in
      extend t w
  | CanonicalValue_Array items =>
      let? nested := enter_depth depth in
      do? reject_if (CANONICAL_ARRAY_MAX_ITEMS <? len items)
            (ProtocolError_LimitExceeded "array_items" CANONICAL_ARRAY_MAX_ITEMS) in
      let? w := uint 4 (len items) w in
      rfold (fun w item => Writer_value item nested w) w items
  | CanonicalValue_Map entries =>
      let? nested := enter_depth depth in
      do? reject_if (CANONICAL_MAP_MAX_ENTRIES <? len entries)
            (ProtocolError_LimitExceeded "map_entries" CANONICAL_MAP_MAX_ENTRIES) in
      let? keys := rfold (fun keys entry =>
                     let? key_writer := Writer_value entry.1 nested (Writer_new CANONICAL_ENVELOPE_MAX_BYTES) in
                     Ok (keys ++ [(wr_out key_writer, length keys)])) [] entries in
      let writers := List.map (fun entry => Writer_value entry.2 nested) entries in
      let keys := merge_sort key_le keys in
      do? reject_if (adjacent_duplicate keys.*1) (ProtocolError_InvalidCbor "duplicate_map_key") in
      let? w := uint 5 (len entries) w in
      rfold (fun w (key : bytes * nat) =>
               let? w := extend key.1 w in
               match writers !! key.2 with Some write => write w | None => Ok w end) w keys
  | CanonicalValue_Float bits => write_float bits w
  end.

Definition encode_value (value : CanonicalValue) : presult bytes :=
  let? writer := Writer_value value 0 (Writer_new CANONICAL_ENVELOPE_MAX_BYTES) in
  Ok (wr_out writer).

(** [sort_map] of the serializer. *)
Definition sort_map (entries : list (CanonicalValue * CanonicalValue))
    : presult (list (CanonicalValue * CanonicalValue)) :=
  do? reject_if (CANONICAL_MAP_MAX_ENTRIES <? len entries)
        (ProtocolError_LimitExceeded "map_entries" CANONICAL_MAP_MAX_ENTRIES) in
  let? keyed := rfold (fun keyed entry =>
                  let? encoded := encode_value entry.1 in Ok (keyed ++ [(encoded, entry)])) [] entries in
  let keyed := merge_sort key_le keyed in
  do? reject_if (adjacent_duplicate keyed.*1) (ProtocolError_InvalidCbor "duplicate_map_key") in
  Ok keyed.*2.

(** ** The decoder

    [input] is the whole slice and a position is the [offset] field.  The
    [depth] field is carried as [levels], the nesting that is still allowed:
    [CANONICAL_NESTING_DEPTH - depth]. *)

Section Decoder.
Variable input : bytes.

Definition slice (start stop : nat) : bytes := take (stop - start) (drop start input).

Definition read_u8 (offset : nat) : presult (N * nat) :=
  let? byte := ok_or (input !! offset) (ProtocolError_InvalidCbor "truncated_cbor") in
  Ok (u8 byte, S offset).

Definition read_exact (n : nat) (offset : nat) : presult (bytes * nat) :=
  do? reject_if (length input <? offset + n)%nat (ProtocolError_InvalidCbor "declared_length_overrun") in
  Ok (slice offset (offset + n), (offset + n)%nat).

(** [from_be_bytes] of [read_array]. *)
Definition read_be (width : nat) (offset : nat) : presult (N * nat) :=
  let? '(b, offset) := read_exact width offset in
  Ok (from_be b, offset).

Definition read_uint (additional : N) (offset : nat) : presult (N * nat) :=
  let? '(value, offset) :=
    if additional <=? 23 then Ok (additional, offset)
    else if additional =? 24 then read_u8 offset
    else if additional =? 25 then read_be 2 offset
    else if additional =? 26 then read_be 4 offset
    else if additional =? 27 then read_be 8 offset
    else if additional =? 31 then Err (ProtocolError_InvalidCbor "indefinite_length")
    else Err (ProtocolError_InvalidCbor "reserved_additional_info") in
  let minimal :=
    if additional =? 24 then 24 <=? value
    else if additional =? 25 then 2 ^ 8 - 1 <? value
    else if additional =? 26 then 2 ^ 16 - 1 <? value
    else if additional =? 27 then 2 ^ 32 - 1 <? value
    else true in
  do? reject_if (negb minimal) (ProtocolError_InvalidCbor "non_minimal_integer_or_length") in
  Ok (value, offset).

(** [bounded_len]; [of_string] is [resource.ends_with("string")]. *)
Definition bounded_len (additional : N) (max : N) (resource : string) (of_string : bool) (offset : nat)
    : presult (nat * nat) :=
  do? reject_if (additional =? 31) (ProtocolError_InvalidCbor "indefinite_length") in
  let? '(declared, offset) := read_uint additional offset in
  do? reject_if (max <? declared) (ProtocolError_LimitExceeded resource max) in
  do? reject_if ((len input <? N.of_nat offset + declared) && of_string)
        (ProtocolError_InvalidCbor "declared_length_overrun") in
  Ok (N.to_nat declared, offset).

Definition f16_to_f64_bits (half : N) : presult N :=
  do? reject_if (negb (f16_is_finite half)) (ProtocolError_InvalidCbor "non_finite_float") in
  Ok (f16_to_f64 half).

Definition simple (additional : N) (offset : nat) : presult (CanonicalValue * nat) :=
  if additional =? 20 then Ok (CanonicalValue_Bool false, offset)
  else if additional =? 21 then Ok (CanonicalValue_Bool true, offset)
  else if additional =? 22 then Ok (CanonicalValue_Null, offset)
  else if additional =? 25 then
    let? '(bits, offset) := read_be 2 offset in
    let? wide := f16_to_f64_bits bits in
    Ok (CanonicalValue_Float wide, offset)
  else if additional =? 26 then
    let? '(bits, offset) := read_be 4 offset in
    do? reject_if (negb (f32_is_finite bits)) (ProtocolError_InvalidCbor "non_finite_float") in
    let widened := f32_to_f64 bits in
    do? reject_if (is_some (f64_to_f16_exact widened)) (ProtocolError_InvalidCbor "non_minimal_float") in
    Ok (CanonicalValue_Float widened, offset)
  else if additional =? 27 then
    let? '(bits, offset) := read_be 8 offset in
    do? reject_if (negb (f64_is_finite bits)) (ProtocolError_InvalidCbor "non_finite_float") in
    do? reject_if (is_some (f64_to_f16_exact bits) || (f32_to_f64 (f64_to_f32_lossy bits) =? bits))
          (ProtocolError_InvalidCbor "non_minimal_float") in
    Ok (CanonicalValue_Float bits, offset)
  else if additional =? 31 then Err (ProtocolError_InvalidCbor "indefinite_length")
  else Err (ProtocolError_InvalidCbor "unsupported_simple").

(** [for _ in 0..n] with a [?] in its body. *)
Fixpoint times {S E} (n : nat) (f : S -> result S E) (s : S) : result S E :=
  match n with
  | O => Ok s
  | Datatypes.S n => let? s := f s in times n f s
  end.

(** One entry of a map; [st] holds the entries read, the slice of the last key
    and the position. *)
Definition map_entry (item : nat -> presult (CanonicalValue * nat))
    (st : list (CanonicalValue * CanonicalValue) * option (nat * nat) * nat)
    : presult (list (CanonicalValue * CanonicalValue) * option (nat * nat) * nat) :=
  let '(entries, previous_key, key_start) := st in
  let? '(key, key_end) := item key_start in
  do? reject_if (is_some_and previous_key (fun p => bytes_le (slice key_start key_end) (slice p.1 p.2)))
        (ProtocolError_InvalidCbor "unsorted_or_duplicate_map_key") in
  let? '(value, offset) := item key_end in
  Ok (entries ++ [(key, value)], Some (key_start, key_end), offset).

Definition array_item (item : nat -> presult (CanonicalValue * nat)) (st : list CanonicalValue * nat)
    : presult (list CanonicalValue * nat) :=
  let? '(value, offset) := item st.2 in Ok (st.1 ++ [value], offset).

Definition nesting_error : ProtocolError :=
  ProtocolError_LimitExceeded "nesting_depth" (N.of_nat CANONICAL_NESTING_DEPTH).

(** [Decoder::item]; [nested] reads an item one container deeper, if
    [enter_container] allows it. *)
Definition item_at (nested : option (nat -> presult (CanonicalValue * nat))) (offset : nat)
    : presult (CanonicalValue * nat) :=
  let? '(initial, offset) := read_u8 offset in
  let major := N.shiftr initial 5 in
  let additional := N.land initial 31 in
  if major =? 0 then
    let? '(n, offset) := read_uint additional offset in Ok (CanonicalValue_Unsigned n, offset)
  else if major =? 1 then
    let? '(n, offset) := read_uint additional offset in Ok (CanonicalValue_Negative n, offset)
  else if major =? 2 then
    let? '(n, offset) := bounded_len additional CANONICAL_STRING_MAX_BYTES "byte_string" true offset in
    let? '(b, offset) := read_exact n offset in
    Ok (CanonicalValue_Bytes b, offset)
  else if major =? 3 then
    let? '(n, offset) := bounded_len additional CANONICAL_STRING_MAX_BYTES "text_string" true offset in
    let? '(b, offset) := read_exact n offset in
    do? reject_if (negb (utf8_valid b)) (ProtocolError_InvalidCbor "invalid_utf8") in
    Ok (CanonicalValue_Text b, offset)
  else if major =? 4 then
    match nested with
    | None => Err nesting_error
    | Some nested =>
        let? '(n, offset) := bounded_len additional CANONICAL_ARRAY_MAX_ITEMS "array_items" false offset in
        let? '(items, offset) := times n (array_item nested) ([], offset) in
        Ok (CanonicalValue_Array items, offset)
    end
  else if major =? 5 then
    match nested with
    | None => Err nesting_error
    | Some nested =>
        let? '(n, offset) := bounded_len additional CANONICAL_MAP_MAX_ENTRIES "map_entries" false offset in
        let? '(entries, _, offset) := times n (map_entry nested) ([], None, offset) in
        Ok (CanonicalValue_Map entries, offset)
    end
  else if major =? 6 then
    let? '(tag, _) := read_uint additional offset in
    if (tag =? 2) || (tag =? 3) then Err (ProtocolError_InvalidCbor "bignum_tag")
    else Err (ProtocolError_InvalidCbor "cbor_tag")
  else if major =? 7 then simple additional offset
  else Err (ProtocolError_InvalidCbor "unknown_major_type").
Fixpoint item (levels : nat) : nat -> presult (CanonicalValue * nat) :=
  item_at match levels with O => None | S levels => Some (item levels) end.
End Decoder.

Definition decode_value (b : bytes) : presult CanonicalValue :=
  do? reject_if (CANONICAL_ENVELOPE_MAX_BYTES <? len b)
        (ProtocolError_LimitExceeded "canonical_envelope" CANONICAL_ENVELOPE_MAX_BYTES) in
  let? '(value, offset) := item b CANONICAL_NESTING_DEPTH 0 in
  do? reject_if (negb (offset =? length b)%nat) (ProtocolError_InvalidCbor "trailing_cbor") in
  Ok value.
End Codec.
