(* ===== verification/CborCodec.v ===== *)
(** * Canonical CBOR: bytes

    Facts about the byte-level parts of the codec: big-endian integers, the
    order of byte strings, the head byte and the shortest integer forms, in the
    writer and in the decoder.

    Then the values: the bytes a value stands for, its normal form, and the codec on
    values. *)

From stdpp Require Import sorting.
From S2P Require Import Prelude Ids Floats Cbor.

Local Open Scope N_scope.

(** ** Big-endian integers *)

Lemma fmap_id_on {A} (f : A -> A) l : Forall (fun x => f x = x) l -> f <$> l = l.
Proof. induction 1; [done|]. cbn [fmap list_fmap]. by f_equal. Qed.

Lemma u8_bound c : u8 c < 256.
Proof. apply Ascii.N_ascii_bounded. Qed.
Lemma of_u8_u8 c : of_u8 (u8 c) = c.
Proof. apply Ascii.ascii_N_embedding. Qed.
Lemma u8_of_u8 n : n < 256 -> u8 (of_u8 n) = n.
Proof. apply Ascii.N_ascii_embedding. Qed.

Lemma be_length w n : length (be w n) = w.
Proof. unfold be. by rewrite length_fmap, be_bytes_length. Qed.

Lemma from_be_be w n : n < 256 ^ N.of_nat w -> from_be (be w n) = n.
Proof.
  intros Hn. unfold from_be, be. rewrite <- list_fmap_compose.
  rewrite (fmap_id_on (u8 ∘ of_u8) (be_bytes w n)); [by rewrite of_be_bytes_be_bytes, N.mod_small|].
  eapply Forall_impl; [apply be_bytes_bounded|]. intros b Hb. by apply u8_of_u8.
Qed.

Lemma from_be_bound l : from_be l < 256 ^ len l.
Proof.
  unfold from_be, len. induction l as [|c l IH] using rev_ind; [done|].
  unfold of_be_bytes in *. rewrite fmap_app, foldl_app. cbn [fmap list_fmap foldl].
  rewrite length_app, Nat.add_comm. cbn [length Nat.add]. rewrite Nat2N.inj_succ, N.pow_succ_r'.
  pose proof (u8_bound c). lia.
Qed.

Lemma be_bytes_of_be_bytes l : Forall (fun b => b < 256) l -> be_bytes (length l) (of_be_bytes l) = l.
Proof.
  induction l as [|b l IH]; intros Hall; [done|]. apply Forall_cons in Hall as [Hb Hall].
  assert (of_be_bytes (b :: l) = b * 256 ^ N.of_nat (length l) + of_be_bytes l) as Hsplit.
  { unfold of_be_bytes at 1. cbn [foldl]. rewrite of_be_bytes_acc. done. }
  assert (of_be_bytes l < 256 ^ N.of_nat (length l)) as Hlt.
  { pose proof (from_be_bound (of_u8 <$> l)) as Hf. unfold from_be, len in Hf.
    rewrite length_fmap, <- list_fmap_compose, (fmap_id_on (u8 ∘ of_u8) l) in Hf; [done|].
    eapply Forall_impl; [exact Hall|]. intros c Hc. by apply u8_of_u8. }
  cbn [length be_bytes]. f_equal.
  - change 255 with (N.ones 8). rewrite N.land_ones, N.shiftr_div_pow2, Hsplit.
    rewrite N.pow_mul_r. change (2 ^ 8) with 256.
    rewrite N.div_add_l by (apply N.pow_nonzero; lia). rewrite (N.div_small _ _ Hlt), N.add_0_r. by apply N.mod_small.
  - transitivity (be_bytes (length l) (of_be_bytes l)); [|by apply IH]. rewrite Hsplit. clear IH Hsplit Hlt Hall.
    generalize (of_be_bytes l) as v. intros v. generalize (length l) as n. intros n.
    enough (forall k, (k <= n)%nat -> be_bytes k (b * 256 ^ N.of_nat n + v) = be_bytes k v) as Hk by by apply Hk.
    induction k as [|k IH]; intros Hle; [done|]. cbn [be_bytes]. rewrite IH by lia. f_equal.
    change 255 with (N.ones 8). rewrite !N.land_ones, !N.shiftr_div_pow2, !N.pow_mul_r. change (2 ^ 8) with 256.
    replace (256 ^ N.of_nat n) with (256 ^ N.of_nat (n - S k) * 256 * 256 ^ N.of_nat k).
    + rewrite !N.mul_assoc, N.div_add_l by (apply N.pow_nonzero; lia).
      rewrite N.add_comm, N.Div0.mod_add. done.
    + rewrite <- N.mul_assoc, <- N.pow_succ_r', <- N.pow_add_r. f_equal. lia.
Qed.

Lemma be_from_be w l : length l = w -> be w (from_be l) = l.
Proof.
  intros <-. unfold be, from_be. rewrite <- (length_fmap u8 l), be_bytes_of_be_bytes.
  - rewrite <- list_fmap_compose. apply fmap_id_on. apply Forall_true. intros c. apply of_u8_u8.
  - apply Forall_fmap, Forall_true. apply u8_bound.
Qed.

(** ** Byte order *)

Lemma bytes_le_total a b : bytes_le a b = true \/ bytes_le b a = true.
Proof.
  revert b. induction a as [|x a IH]; intros [|y b]; simpl; [by left|by left|by right|].
  destruct (IH b) as [->| ->]; destruct (N.ltb_spec (u8 x) (u8 y)), (N.ltb_spec (u8 y) (u8 x)),
    (N.eqb_spec (u8 x) (u8 y)), (N.eqb_spec (u8 y) (u8 x)); simpl; auto; lia.
Qed.

Lemma bytes_le_cons x a y b :
  bytes_le (x :: a) (y :: b) = true <-> u8 x < u8 y \/ (u8 x = u8 y /\ bytes_le a b = true).
Proof. cbn [bytes_le]. rewrite orb_true_iff, andb_true_iff, N.ltb_lt, N.eqb_eq. done. Qed.

Lemma bytes_le_trans a b c : bytes_le a b = true -> bytes_le b c = true -> bytes_le a c = true.
Proof.
  revert b c. induction a as [|x a IH]; intros [|y b] [|z c] Hab Hbc; try done.
  apply bytes_le_cons in Hab, Hbc. apply bytes_le_cons.
  destruct Hab as [|[? ?]], Hbc as [|[? ?]]; try (left; lia). right. split; [lia|by eapply IH].
Qed.

Lemma bytes_le_antisym a b : bytes_le a b = true -> bytes_le b a = true -> a = b.
Proof.
  revert b. induction a as [|x a IH]; intros [|y b] Hab Hba; try done.
  apply bytes_le_cons in Hab, Hba. destruct Hab as [|[Hx ?]], Hba as [|[? ?]]; try lia.
  f_equal; [|by apply IH]. by rewrite <- (of_u8_u8 x), Hx, of_u8_u8.
Qed.

Definition bytes_lt (a b : bytes) : Prop := bytes_le b a = false.

Lemma bytes_lt_le a b : bytes_lt a b -> bytes_le a b = true.
Proof. unfold bytes_lt. intros Hlt. destruct (bytes_le_total a b) as [|Hb]; [done|congruence]. Qed.

Lemma bytes_lt_ne a b : bytes_le a b = true -> a <> b -> bytes_lt a b.
Proof. intros Hle Hne. unfold bytes_lt. destruct (bytes_le b a) eqn:Hb; [|done]. by destruct Hne; apply bytes_le_antisym. Qed.

#[export] Instance bytes_lt_trans : Transitive bytes_lt.
Proof.
  intros a b c Hab Hbc. unfold bytes_lt. destruct (bytes_le c a) eqn:Hca; [|done].
  unfold bytes_lt in Hbc. rewrite (bytes_le_trans c a b) in Hbc; [done|done|by apply bytes_lt_le].
Qed.

Lemma bytes_lt_irrefl a : ~ bytes_lt a a.
Proof. unfold bytes_lt. destruct (bytes_le_total a a) as [->| ->]; done. Qed.

#[export] Instance key_le_total {A} : Total (@key_le A).
Proof. intros a b. apply bytes_le_total. Qed.
#[export] Instance key_le_trans {A} : Transitive (@key_le A).
Proof. intros a b c. apply bytes_le_trans. Qed.

(** A sorted list without equal neighbours is strictly sorted. *)
Lemma adjacent_strict keys :
  Sorted (fun a b => bytes_le a b = true) keys -> adjacent_duplicate keys = false -> StronglySorted bytes_lt keys.
Proof.
  intros Hs Hd. apply Sorted_StronglySorted; [apply _|].
  induction Hs as [|a l Hs IH Hh]; [constructor|]. destruct Hh as [|b l Hab].
  - by repeat constructor.
  - simpl in Hd. apply orb_false_iff in Hd as [Hne%eqb_false Hd]. constructor; [by apply IH|].
    constructor. by apply bytes_lt_ne.
Qed.

Lemma strict_adjacent keys : StronglySorted bytes_lt keys -> adjacent_duplicate keys = false.
Proof.
  induction 1 as [|a l Hs IH Ha]; [done|]. destruct l as [|b l]; [done|]. cbn [adjacent_duplicate] in *.
  rewrite IH, orb_false_r. apply eqb_false. intros ->. apply Forall_cons in Ha as [Ha _]. by apply bytes_lt_irrefl in Ha.
Qed.

(** ** Appending to the writer *)

Definition fits (w : Writer) (b : bytes) : Prop := len (wr_out w) + len b <= wr_limit w.

Definition appended (w : Writer) (b : bytes) : Writer := mkWriter (wr_out w ++ b) (wr_limit w).

Lemma len_app {A} (a b : list A) : len (a ++ b) = len a + len b.
Proof. unfold len. rewrite length_app. lia. Qed.

Lemma extend_Ok b w w' : extend b w = Ok w' <-> fits w b /\ w' = appended w b.
Proof.
  unfold extend, fits, appended. destruct (N.ltb_spec (wr_limit w) (len (wr_out w) + len b)); simpl.
  - split; [done|]. intros []. lia.
  - split; [intros [= <-]; split; [lia|done]|by intros [_ ->]].
Qed.

Lemma extend_app a b w : rbind (extend a w) (extend b) = extend (a ++ b) w.
Proof.
  unfold extend. rewrite !len_app.
  destruct (N.ltb_spec (wr_limit w) (len (wr_out w) + len a)), (N.ltb_spec (wr_limit w) (len (wr_out w) + (len a + len b)));
    cbn [reject_if rbind wr_out wr_limit]; try done; try lia; rewrite len_app;
    destruct (N.ltb_spec (wr_limit w) (len (wr_out w) + len a + len b)); try lia; cbn [reject_if rbind]; try done.
  by rewrite app_assoc.
Qed.

Lemma appended_app w a b : appended (appended w a) b = appended w (a ++ b).
Proof. unfold appended. cbn [wr_out wr_limit]. by rewrite app_assoc. Qed.

Lemma fits_app w a b : fits w (a ++ b) <-> fits w a /\ fits (appended w a) b.
Proof. unfold fits, appended. cbn [wr_out wr_limit]. rewrite !len_app. lia. Qed.

(** ** Heads *)

(** The additional information of a shortest-form integer and the bytes after it. *)
Definition uint_additional (n : N) : N :=
  if n <? 24 then n else if n <? 2 ^ 8 then 24 else if n <? 2 ^ 16 then 25 else if n <? 2 ^ 32 then 26 else 27.
Definition uint_tail (n : N) : bytes :=
  if n <? 24 then [] else if n <? 2 ^ 8 then be 1 n else if n <? 2 ^ 16 then be 2 n
  else if n <? 2 ^ 32 then be 4 n else be 8 n.

Definition head_byte (major additional : N) : Ascii.ascii := of_u8 (N.lor (N.shiftl major 5) additional).
Definition uint_bytes (major n : N) : bytes := head_byte major (uint_additional n) :: uint_tail n.

Lemma be_one n : n < 256 -> be 1 n = [of_u8 n].
Proof.
  intros Hn. unfold be. cbn [be_bytes fmap list_fmap]. change 255 with (N.ones 8). rewrite N.land_ones.
  change (8 * N.of_nat 0) with 0. rewrite N.shiftr_0_r. by rewrite N.mod_small.
Qed.

Lemma uint_extend major n w : uint major n w = extend (uint_bytes major n) w.
Proof.
  unfold uint, uint_bytes, uint_additional, uint_tail, push, head_byte. cbv zeta.
  destruct (N.ltb_spec n 24) as [|Hge].
  { rewrite (proj2 (N.ltb_lt _ _)) by (change (2 ^ 8) with 256; lia). done. }
  destruct (N.ltb_spec n (2 ^ 8)); [by rewrite be_one|].
  destruct (N.ltb_spec n (2 ^ 16)); [by rewrite extend_app|].
  destruct (N.ltb_spec n (2 ^ 32)); by rewrite extend_app.
Qed.

(** Splitting a head byte, in both directions, by inspection of all 256. *)
Lemma head_split_all : forallb (fun n => let m := N.of_nat (n / 32) in let a := N.of_nat (n mod 32) in
  (N.shiftr (u8 (head_byte m a)) 5 =? m) && (N.land (u8 (head_byte m a)) 31 =? a)) (seq 0 256) = true.
Proof. vm_compute. reflexivity. Qed.

Lemma head_split major additional : major < 8 -> additional < 32 ->
  N.shiftr (u8 (head_byte major additional)) 5 = major /\ N.land (u8 (head_byte major additional)) 31 = additional.
Proof.
  intros Hm Ha. pose proof head_split_all as Hall. rewrite forallb_forall in Hall.
  specialize (Hall (N.to_nat (major * 32 + additional))). cbv zeta in Hall.
  assert (N.to_nat (major * 32 + additional) / 32 = N.to_nat major)%nat as Hd.
  { symmetry. apply (Nat.div_unique _ 32 _ (N.to_nat additional)); lia. }
  assert (N.to_nat (major * 32 + additional) mod 32 = N.to_nat additional)%nat as Hr.
  { symmetry. apply (Nat.mod_unique _ 32 (N.to_nat major)); lia. }
  rewrite Hd, Hr, !N2Nat.id in Hall.
  assert (In (N.to_nat (major * 32 + additional)) (seq 0 256)) as Hin by (apply in_seq; lia).
  apply Hall, andb_true_iff in Hin as [H1%N.eqb_eq H2%N.eqb_eq]. done.
Qed.

Lemma head_join_all : forallb (fun n => let c := of_u8 (N.of_nat n) in
  (head_byte (N.shiftr (u8 c) 5) (N.land (u8 c) 31) =?? c) && (N.shiftr (u8 c) 5 <? 8) && (N.land (u8 c) 31 <? 32))
  (seq 0 256) = true.
Proof. vm_compute. reflexivity. Qed.

Lemma head_join c :
  head_byte (N.shiftr (u8 c) 5) (N.land (u8 c) 31) = c /\ N.shiftr (u8 c) 5 < 8 /\ N.land (u8 c) 31 < 32.
Proof.
  pose proof head_join_all as Hall. rewrite forallb_forall in Hall. specialize (Hall (N.to_nat (u8 c))).
  cbv zeta in Hall. rewrite N2Nat.id, of_u8_u8 in Hall.
  pose proof (u8_bound c). assert (In (N.to_nat (u8 c)) (seq 0 256)) as Hin by (apply in_seq; lia).
  apply Hall in Hin. apply andb_true_iff in Hin as [Hin H3%N.ltb_lt].
  apply andb_true_iff in Hin as [H1%eqb_eq H2%N.ltb_lt]. done.
Qed.

Lemma uint_additional_bound n : uint_additional n < 28.
Proof. unfold uint_additional. destruct (N.ltb_spec n 24); [lia|]. repeat case_match; lia. Qed.

(** ** Reading *)

Section Reading.
Variable input : bytes.

Lemma slice_app a b c : (a <= b)%nat -> (b <= c)%nat -> slice input a b ++ slice input b c = slice input a c.
Proof.
  intros Hab Hbc. unfold slice. replace (c - a)%nat with ((b - a) + (c - b))%nat by lia.
  rewrite <- take_take_drop, drop_drop. by replace (a + (b - a))%nat with b by lia.
Qed.

Lemma slice_length a b : (a <= b)%nat -> (b <= length input)%nat -> length (slice input a b) = (b - a)%nat.
Proof. intros. unfold slice. rewrite length_take, length_drop. lia. Qed.

Lemma slice_at off b rest : drop off input = b ++ rest -> slice input off (off + length b) = b.
Proof. intros Hd. unfold slice. rewrite Hd. replace (off + length b - off)%nat with (length b) by lia. by rewrite take_app_length. Qed.

Lemma drop_after off (b rest : bytes) : drop off input = b ++ rest -> drop (off + length b) input = rest.
Proof. intros Hd. by rewrite <- drop_drop, Hd, drop_app_length. Qed.

Lemma read_u8_Ok off v off' :
  read_u8 input off = Ok (v, off') ->
  exists c, v = u8 c /\ off' = S off /\ slice input off off' = [c] /\ (off' <= length input)%nat.
Proof.
  unfold read_u8. intros HH. step HH. apply ok_or_Ok in E. injection HH as <- <-. exists a.
  split_and!; [done..| |by apply lookup_lt_Some in E].
  unfold slice. replace (S off - off)%nat with 1%nat by lia. rewrite (drop_S input a off E). done.
Qed.

Lemma read_u8_at off c rest : drop off input = c :: rest -> read_u8 input off = Ok (u8 c, S off).
Proof.
  intros Hd. unfold read_u8. assert (input !! off = Some c) as ->; [|done].
  rewrite <- (Nat.add_0_r off), <- lookup_drop, Hd. done.
Qed.

Lemma read_exact_Ok n off b off' :
  read_exact input n off = Ok (b, off') ->
  off' = (off + n)%nat /\ b = slice input off off' /\ (off' <= length input)%nat /\ length b = n.
Proof.
  unfold read_exact. intros HH. step HH. apply reject_if_Ok, Nat.ltb_ge in E. injection HH as <- <-.
  split_and!; [done..|]. rewrite slice_length by lia. lia.
Qed.

Lemma drop_length_le off (b rest : bytes) : drop off input = b ++ rest -> b <> [] -> (off + length b <= length input)%nat.
Proof.
  intros Hd Hb. apply (f_equal length) in Hd. rewrite length_drop, length_app in Hd.
  destruct b; [done|]. cbn [length] in *. lia.
Qed.

Lemma read_exact_at off b rest :
  (off <= length input)%nat -> drop off input = b ++ rest -> read_exact input (length b) off = Ok (b, (off + length b)%nat).
Proof.
  intros Hle Hd. unfold read_exact. rewrite (slice_at off b rest Hd).
  assert (off + length b <= length input)%nat as Hfit.
  { apply (f_equal length) in Hd. rewrite length_drop, length_app in Hd. lia. }
  by rewrite (proj2 (Nat.ltb_ge _ _) Hfit).
Qed.

Lemma read_be_Ok w off n off' :
  read_be input w off = Ok (n, off') ->
  off' = (off + w)%nat /\ slice input off off' = be w n /\ n < 256 ^ N.of_nat w /\ (off' <= length input)%nat.
Proof.
  unfold read_be. intros HH. step HH. destruct a as [b o]. injection HH as <- <-.
  apply read_exact_Ok in E as (-> & Hb & Hle & Hl). rewrite <- Hb. split_and!; [done| |rewrite <- Hl; apply from_be_bound|done].
  by rewrite be_from_be.
Qed.

Lemma read_be_at w off n rest :
  (off <= length input)%nat -> n < 256 ^ N.of_nat w -> drop off input = be w n ++ rest ->
  read_be input w off = Ok (n, (off + w)%nat).
Proof.
  intros Hle Hn Hd. unfold read_be. rewrite <- (be_length w n) at 1. rewrite (read_exact_at off _ rest Hle Hd).
  cbn [rbind]. by rewrite be_length, from_be_be.
Qed.

Lemma read_uint_Ok additional off n off' : additional < 32 ->
  read_uint input additional off = Ok (n, off') ->
  additional = uint_additional n /\ slice input off off' = uint_tail n /\ n < 2 ^ 64 /\
  (off <= off')%nat /\ (off <= length input -> off' <= length input)%nat.
Proof.
  intros Ha HH. unfold read_uint in HH. step HH. destruct a as [v o]. step HH. injection HH as <- <-.
  apply reject_if_Ok, negb_false_iff in E0. unfold uint_additional, uint_tail.
  destruct (N.leb_spec additional 23) as [Hs|Hs].
  { injection E as <- <-. rewrite (proj2 (N.ltb_lt _ _)) by lia. split_and!; [done| |lia|lia|lia].
    unfold slice. by rewrite Nat.sub_diag. }
  destruct (N.eqb_spec additional 24) as [->|].
  { apply read_u8_Ok in E as (c & -> & -> & Hs' & Hl). apply N.leb_le in E0. pose proof (u8_bound c).
    rewrite (proj2 (N.ltb_ge _ _)) by lia. rewrite (proj2 (N.ltb_lt _ _)) by done.
    split_and!; [done| |lia..]. by rewrite Hs', be_one, of_u8_u8. }
  destruct (N.eqb_spec additional 25) as [->|].
  { apply read_be_Ok in E as (-> & Hs' & Hn & Hl). cbn [N.of_nat] in Hn. apply N.ltb_lt in E0.
    rewrite !(proj2 (N.ltb_ge _ _)) by lia. rewrite (proj2 (N.ltb_lt _ _)) by done. split_and!; [done..|lia|lia|lia]. }
  destruct (N.eqb_spec additional 26) as [->|].
  { apply read_be_Ok in E as (-> & Hs' & Hn & Hl). apply N.ltb_lt in E0.
    rewrite !(proj2 (N.ltb_ge _ _)) by lia. rewrite (proj2 (N.ltb_lt _ _)) by done. split_and!; [done..|lia|lia|lia]. }
  destruct (N.eqb_spec additional 27) as [->|].
  { apply read_be_Ok in E as (-> & Hs' & Hn & Hl). apply N.ltb_lt in E0.
    rewrite !(proj2 (N.ltb_ge _ _)) by lia. split_and!; [done..|lia|lia]. }
  by destruct (additional =? 31).
Qed.

Lemma read_uint_at off n rest :
  (off <= length input)%nat -> n < 2 ^ 64 -> drop off input = uint_tail n ++ rest ->
  read_uint input (uint_additional n) off = Ok (n, (off + length (uint_tail n))%nat).
Proof.
  intros Hle Hn Hd. unfold read_uint, uint_additional, uint_tail in *.
  destruct (N.ltb_spec n 24) as [Hs|Hs].
  { rewrite (proj2 (N.leb_le _ _)) by lia. rewrite !(proj2 (N.eqb_neq _ _)) by lia. cbn [rbind reject_if negb length].
    by rewrite Nat.add_0_r. }
  destruct (N.ltb_spec n (2 ^ 8)).
  { rewrite be_one in Hd |- * by done. change (24 <=? 23) with false. cbn [N.eqb Pos.eqb].
    rewrite (read_u8_at off (of_u8 n) rest Hd), u8_of_u8 by done. cbn [rbind].
    rewrite (proj2 (N.leb_le _ _)) by done. cbn [reject_if negb rbind length]. by rewrite Nat.add_1_r. }
  destruct (N.ltb_spec n (2 ^ 16)).
  { rewrite (read_be_at 2 off n rest) by done. change (25 <=? 23) with false. cbn [N.eqb Pos.eqb rbind].
    rewrite (proj2 (N.ltb_lt _ _)) by lia. cbn [reject_if negb rbind]. by rewrite be_length. }
  destruct (N.ltb_spec n (2 ^ 32)).
  { rewrite (read_be_at 4 off n rest) by done. change (26 <=? 23) with false. cbn [N.eqb Pos.eqb rbind].
    rewrite (proj2 (N.ltb_lt _ _)) by lia. cbn [reject_if negb rbind]. by rewrite be_length. }
  rewrite (read_be_at 8 off n rest) by done. change (27 <=? 23) with false. cbn [N.eqb Pos.eqb rbind].
  rewrite (proj2 (N.ltb_lt _ _)) by lia. cbn [reject_if negb rbind]. by rewrite be_length.
Qed.
End Reading.

(** * Canonical CBOR: values

    The bytes a value stands for ([spec_bytes]), the form the codec gives a
    value ([normalize]: maps ordered by encoded key) and the values that can
    appear in canonical bytes ([canonical]); and that the writer appends
    exactly the bytes of the normalized value. *)

Local Open Scope N_scope.

(** ** Induction over value trees *)

Section TreeInd.
Variable P : CanonicalValue -> Prop.
Hypothesis HNull : P CanonicalValue_Null.
Hypothesis HBool : forall b, P (CanonicalValue_Bool b).
Hypothesis HUnsigned : forall n, P (CanonicalValue_Unsigned n).
Hypothesis HNegative : forall n, P (CanonicalValue_Negative n).
Hypothesis HBytes : forall b, P (CanonicalValue_Bytes b).
Hypothesis HText : forall t, P (CanonicalValue_Text t).
Hypothesis HArray : forall items, Forall P items -> P (CanonicalValue_Array items).
Hypothesis HMap : forall entries, Forall (fun e => P e.1 /\ P e.2) entries -> P (CanonicalValue_Map entries).
Hypothesis HFloat : forall bits, P (CanonicalValue_Float bits).

Fixpoint tree_ind (v : CanonicalValue) : P v :=
  match v with
  | CanonicalValue_Null => HNull
  | CanonicalValue_Bool b => HBool b
  | CanonicalValue_Unsigned n => HUnsigned n
  | CanonicalValue_Negative n => HNegative n
  | CanonicalValue_Bytes b => HBytes b
  | CanonicalValue_Text t => HText t
  | CanonicalValue_Array items =>
      HArray items ((fix go l : Forall P l :=
        match l with [] => Forall_nil_2 P | x :: l => Forall_cons_2 P x l (tree_ind x) (go l) end) items)
  | CanonicalValue_Map entries =>
      HMap entries ((fix go l : Forall (fun e => P e.1 /\ P e.2) l :=
        match l with
        | [] => Forall_nil_2 _
        | e :: l => Forall_cons_2 _ e l (conj (tree_ind e.1) (tree_ind e.2)) (go l)
        end) entries)
  | CanonicalValue_Float bits => HFloat bits
  end.
End TreeInd.

Section Values.
Context `{Half}.

Definition float_bytes (bits : N) : bytes :=
  match f64_to_f16_exact bits with
  | Some half => head_byte 7 25 :: be 2 half
  | None =>
      if f32_to_f64 (f64_to_f32_lossy bits) =? bits then head_byte 7 26 :: be 4 (f64_to_f32_lossy bits)
      else head_byte 7 27 :: be 8 bits
  end.

(** The encoding of a value whose maps are in the order given. *)
Fixpoint spec_bytes (v : CanonicalValue) : bytes :=
  match v with
  | CanonicalValue_Null => [head_byte 7 22]
  | CanonicalValue_Bool b => [head_byte 7 (if b then 21 else 20)]
  | CanonicalValue_Unsigned n => uint_bytes 0 n
  | CanonicalValue_Negative n => uint_bytes 1 n
  | CanonicalValue_Bytes b => uint_bytes 2 (len b) ++ b
  | CanonicalValue_Text t => uint_bytes 3 (len t) ++ t
  | CanonicalValue_Array items => uint_bytes 4 (len items) ++ concat (List.map spec_bytes items)
  | CanonicalValue_Map entries =>
      uint_bytes 5 (len entries) ++ concat (List.map (fun e => spec_bytes e.1 ++ spec_bytes e.2) entries)
  | CanonicalValue_Float bits => float_bytes bits
  end.

Definition entry_bytes (e : CanonicalValue * CanonicalValue) : bytes := spec_bytes e.1 ++ spec_bytes e.2.

Definition entry_le (a b : CanonicalValue * CanonicalValue) : Prop := bytes_le (spec_bytes a.1) (spec_bytes b.1) = true.
#[export] Instance entry_le_dec : RelDecision entry_le := fun a b => decide (bytes_le (spec_bytes a.1) (spec_bytes b.1) = true).
#[export] Instance entry_le_total : Total entry_le.
Proof. intros a b. apply bytes_le_total. Qed.
#[export] Instance entry_le_trans : Transitive entry_le.
Proof. intros a b c. apply bytes_le_trans. Qed.

(** Every map in the order of its encoded keys. *)
Fixpoint normalize (v : CanonicalValue) : CanonicalValue :=
  match v with
  | CanonicalValue_Array items => CanonicalValue_Array (List.map normalize items)
  | CanonicalValue_Map entries =>
      CanonicalValue_Map (merge_sort entry_le (List.map (fun e => (normalize e.1, normalize e.2)) entries))
  | v => v
  end.

Definition normalize_entry (e : CanonicalValue * CanonicalValue) : CanonicalValue * CanonicalValue :=
  (normalize e.1, normalize e.2).

(** What the types of the source guarantee of a value: [u64] fields and UTF-8
    text. *)
Inductive well_typed : CanonicalValue -> Prop :=
| wt_null : well_typed CanonicalValue_Null
| wt_bool b : well_typed (CanonicalValue_Bool b)
| wt_unsigned n : n < 2 ^ 64 -> well_typed (CanonicalValue_Unsigned n)
| wt_negative n : n < 2 ^ 64 -> well_typed (CanonicalValue_Negative n)
| wt_bytes b : well_typed (CanonicalValue_Bytes b)
| wt_text t : utf8_valid t = true -> well_typed (CanonicalValue_Text t)
| wt_array items : Forall well_typed items -> well_typed (CanonicalValue_Array items)
| wt_map entries : Forall (fun e => well_typed e.1 /\ well_typed e.2) entries -> well_typed (CanonicalValue_Map entries)
| wt_float bits : bits < 2 ^ 64 -> well_typed (CanonicalValue_Float bits).

(** The values canonical bytes can hold, within [levels] of nesting. *)
Inductive canonical : nat -> CanonicalValue -> Prop :=
| can_null l : canonical l CanonicalValue_Null
| can_bool l b : canonical l (CanonicalValue_Bool b)
| can_unsigned l n : n < 2 ^ 64 -> canonical l (CanonicalValue_Unsigned n)
| can_negative l n : n < 2 ^ 64 -> canonical l (CanonicalValue_Negative n)
| can_bytes l b : len b <= CANONICAL_STRING_MAX_BYTES -> canonical l (CanonicalValue_Bytes b)
| can_text l t : len t <= CANONICAL_STRING_MAX_BYTES -> utf8_valid t = true -> canonical l (CanonicalValue_Text t)
| can_array l items : len items <= CANONICAL_ARRAY_MAX_ITEMS -> Forall (canonical l) items ->
    canonical (S l) (CanonicalValue_Array items)
| can_map l entries : len entries <= CANONICAL_MAP_MAX_ENTRIES ->
    Forall (fun e => canonical l e.1 /\ canonical l e.2) entries ->
    StronglySorted bytes_lt (spec_bytes <$> entries.*1) -> canonical (S l) (CanonicalValue_Map entries)
| can_float l bits : bits < 2 ^ 64 -> f64_is_finite bits = true -> canonical l (CanonicalValue_Float bits).

(** ** Sorting *)

(** In strictly sorted keys each entry has its own key. *)
Lemma strict_key_inj {A} (key : A -> bytes) l x y :
  StronglySorted bytes_lt (key <$> l) -> x ∈ l -> y ∈ l -> key x = key y -> x = y.
Proof.
  induction l as [|z l IH]; intros Hs Hx Hy Heq; [set_solver|]. inversion Hs as [|? ? Hs' Hall]; subst.
  rewrite Forall_fmap, Forall_forall in Hall.
  apply elem_of_cons in Hx as [->|Hx], Hy as [->|Hy]; [done| | |by apply IH].
  - specialize (Hall _ Hy). cbn in Hall. rewrite Heq in Hall. by apply bytes_lt_irrefl in Hall.
  - specialize (Hall _ Hx). cbn in Hall. rewrite Heq in Hall. by apply bytes_lt_irrefl in Hall.
Qed.

(** Sorting by key finds the strictly sorted permutation, if there is one. *)
Lemma merge_sort_strict {A} (key : A -> bytes) (R : relation A) `{!RelDecision R} l l' :
  (forall a b, R a b <-> bytes_le (key a) (key b) = true) ->
  l ≡ₚ l' -> StronglySorted bytes_lt (key <$> l') -> merge_sort R l = l'.
Proof.
  intros HR Hp Hs. assert (Total R) by (intros a b; rewrite !HR; apply bytes_le_total).
  assert (Transitive R) by (intros a b c; rewrite !HR; apply bytes_le_trans).
  assert (merge_sort R l ≡ₚ l') as Hperm by (by rewrite merge_sort_Permutation).
  apply (StronglySorted_unique_strong R); [| | |done].
  - intros a b Ha Hb Hab%HR Hba%HR. apply (strict_key_inj key l'); [done|by rewrite <- Hperm|done|].
    by apply bytes_le_antisym.
  - apply StronglySorted_merge_sort; apply _.
  - clear -HR Hs. induction l' as [|a l IH]; [constructor|]. inversion Hs as [|? ? Hs' Hall]; subst.
    constructor; [by apply IH|]. rewrite Forall_fmap in Hall. eapply Forall_impl; [exact Hall|].
    intros b Hb. apply HR. by apply bytes_lt_le.
Qed.

Lemma canonical_normalize v levels : canonical levels v -> normalize v = v.
Proof.
  revert levels. induction v as [| | | | | |items IH|entries IH|] using tree_ind; intros levels Hc; try done.
  - inversion Hc as [| | | | | |l ? _ Hall| |]; subst. cbn [normalize]. f_equal.
    induction items as [|x items IHl]; [done|]. apply Forall_cons in IH as [Hx IH], Hall as [Hcx Hall]. cbn [List.map].
    rewrite (Hx _ Hcx), IHl; [done|done| |done]. constructor; [|done].
    inversion Hc; subst. unfold len in *. cbn [length] in *. lia.
  - inversion Hc as [| | | | | | |l ? _ Hall Hs|]; subst. cbn [normalize]. f_equal.
    assert (List.map (fun e => (normalize e.1, normalize e.2)) entries = entries) as ->.
    { clear Hc Hs. induction entries as [|[k x] entries IHl]; [done|].
      apply Forall_cons in IH as [[Hk Hx] IH], Hall as [[Hck Hcx] Hall]. cbn [List.map fst snd] in *.
      rewrite (Hk _ Hck), (Hx _ Hcx), IHl; done. }
    apply (merge_sort_strict (fun e => spec_bytes e.1)); [done..|]. by rewrite <- list_fmap_compose in Hs.
Qed.
(** ** The writer *)

Lemma float_write bits w w' :
  write_float bits w = Ok w' <-> f64_is_finite bits = true /\ extend (float_bytes bits) w = Ok w'.
Proof.
  unfold write_float, float_bytes. destruct (f64_is_finite bits) eqn:Hf; cbn [negb reject_if rbind];
    [|split; [discriminate|intros [? _]; discriminate]].
  assert (forall r1 r2 : presult Writer, r1 = r2 -> (r1 = Ok w' <-> true = true /\ r2 = Ok w')) as Hr
    by (intros r1 r2 ->; split; [done|by intros [_ ?]]).
  apply Hr. unfold push. change (of_u8 249) with (head_byte 7 25). change (of_u8 250) with (head_byte 7 26).
  change (of_u8 251) with (head_byte 7 27).
  destruct (f64_to_f16_exact bits); [by rewrite extend_app|].
  destruct (f32_to_f64 (f64_to_f32_lossy bits) =? bits); by rewrite extend_app.
Qed.

Lemma enter_depth_Ok depth nested : enter_depth depth = Ok nested <-> (depth < CANONICAL_NESTING_DEPTH)%nat /\ nested = S depth.
Proof.
  unfold enter_depth. destruct (Nat.leb_spec CANONICAL_NESTING_DEPTH depth); simpl; [|naive_solver].
  split; [done|]. intros []. lia.
Qed.

Lemma fits_new : fits (Writer_new CANONICAL_ENVELOPE_MAX_BYTES) [].
Proof. unfold fits, CANONICAL_ENVELOPE_MAX_BYTES, len. cbn [Writer_new wr_out wr_limit length]. lia. Qed.

(** The keys a map is written by. *)
Definition key_step (nested : nat) (keys : list (bytes * nat)) (entry : CanonicalValue * CanonicalValue)
    : presult (list (bytes * nat)) :=
  let? key_writer := Writer_value entry.1 nested (Writer_new CANONICAL_ENVELOPE_MAX_BYTES) in
  Ok (keys ++ [(wr_out key_writer, length keys)]).

Definition entry_step (writers : list (Writer -> presult Writer)) (w : Writer) (key : bytes * nat) : presult Writer :=
  let? w := extend key.1 w in
  match writers !! key.2 with Some write => write w | None => Ok w end.

(** A loop of writes appends what each write appends. *)
Lemma rfold_append {A} (f : Writer -> A -> presult Writer) (out : A -> bytes) (Q : A -> Prop) l w w' :
  (forall a w w', a ∈ l -> f w a = Ok w' -> fits w [] -> fits w (out a) /\ w' = appended w (out a) /\ Q a) ->
  rfold f w l = Ok w' -> fits w [] ->
  fits w (concat (List.map out l)) /\ w' = appended w (concat (List.map out l)) /\ Forall Q l.
Proof.
  intros Hf. revert w. induction l as [|a l IH]; intros w HH Hw; cbn [List.map concat] in *.
  - injection HH as <-. split_and!; [done| |done]. unfold appended. rewrite app_nil_r. by destruct w.
  - cbn [rfold] in HH. step HH. apply Hf in E as (Hfit & -> & HQ); [|set_solver|done].
    apply IH in HH as (Hfit' & -> & Hall); [|set_solver|].
    + rewrite fits_app, appended_app. split_and!; [done..|by constructor].
    + unfold fits, appended, len in *. cbn [length wr_out wr_limit] in *. rewrite length_app. lia.
Qed.

Lemma rfold_appends {A} (f : Writer -> A -> presult Writer) (out : A -> bytes) l w :
  (forall a w, a ∈ l -> fits w (out a) -> wr_limit w = CANONICAL_ENVELOPE_MAX_BYTES -> f w a = Ok (appended w (out a))) ->
  fits w (concat (List.map out l)) -> wr_limit w = CANONICAL_ENVELOPE_MAX_BYTES ->
  rfold f w l = Ok (appended w (concat (List.map out l))).
Proof.
  revert w. induction l as [|a l IH]; intros w Hf Hfit Hlim; cbn [List.map concat rfold] in *.
  - unfold appended. rewrite app_nil_r. by destruct w.
  - apply fits_app in Hfit as [Ha Hl]. rewrite Hf by (done || set_solver). cbn [rbind].
    rewrite IH; [by rewrite appended_app| |done|done]. intros b w0 Hb. apply Hf. set_solver.
Qed.
Lemma Writer_map entries depth w :
  Writer_value (CanonicalValue_Map entries) depth w =
  let? nested := enter_depth depth in
  do? reject_if (CANONICAL_MAP_MAX_ENTRIES <? len entries)
        (ProtocolError_LimitExceeded "map_entries" CANONICAL_MAP_MAX_ENTRIES) in
  let? keys := rfold (key_step nested) [] entries in
  let keys := merge_sort key_le keys in
  do? reject_if (adjacent_duplicate keys.*1) (ProtocolError_InvalidCbor "duplicate_map_key") in
  let? w := uint 5 (len entries) w in
  rfold (entry_step (List.map (fun entry => Writer_value entry.2 nested) entries)) w keys.
Proof. reflexivity. Qed.

(** What a value must satisfy for its writes to be understood. *)
Definition writes (depth : nat) (v : CanonicalValue) : Prop :=
  forall w w', Writer_value v depth w = Ok w' -> fits w [] ->
    fits w (spec_bytes (normalize v)) /\ w' = appended w (spec_bytes (normalize v)) /\
    canonical (CANONICAL_NESTING_DEPTH - depth) (normalize v).

Definition indexed_keys (start : nat) (entries : list (CanonicalValue * CanonicalValue)) : list (bytes * nat) :=
  zip ((fun e => spec_bytes (normalize e.1)) <$> entries) (seq start (length entries)).

Lemma keys_loop nested entries keys keys' :
  Forall (fun e => writes nested e.1) entries -> rfold (key_step nested) keys entries = Ok keys' ->
  keys' = keys ++ indexed_keys (length keys) entries /\
  Forall (fun e => canonical (CANONICAL_NESTING_DEPTH - nested) (normalize e.1)) entries.
Proof.
  revert keys. induction entries as [|e entries IH]; intros keys Hw HH.
  { injection HH as <-. by rewrite app_nil_r. }
  apply Forall_cons in Hw as [He Hw]. cbn [rfold] in HH. step HH. unfold key_step in E. step E.
  injection E as <-. destruct (He _ _ E0 fits_new) as (_ & -> & Hc).
  apply IH in HH as [-> Hall]; [|done]. rewrite length_app. cbn [length]. rewrite Nat.add_1_r, <- app_assoc.
  split; [done|by constructor].
Qed.

Lemma keys_loop_ok nested entries keys :
  Forall (fun e => Writer_value e.1 nested (Writer_new CANONICAL_ENVELOPE_MAX_BYTES) =
                   Ok (appended (Writer_new CANONICAL_ENVELOPE_MAX_BYTES) (spec_bytes (normalize e.1)))) entries ->
  rfold (key_step nested) keys entries = Ok (keys ++ indexed_keys (length keys) entries).
Proof.
  revert keys. induction entries as [|e entries IH]; intros keys Hw; [by rewrite app_nil_r|].
  apply Forall_cons in Hw as [He Hw]. cbn [rfold]. unfold key_step at 1. rewrite He. cbn [rbind].
  rewrite IH by done. rewrite length_app. cbn [length]. by rewrite Nat.add_1_r, <- app_assoc.
Qed.

(** The entry an index stands for, normalized. *)
Definition entry_at (entries : list (CanonicalValue * CanonicalValue)) (key : bytes * nat)
    : CanonicalValue * CanonicalValue :=
  default (CanonicalValue_Null, CanonicalValue_Null) (normalize_entry <$> entries !! key.2).

Lemma indexed_keys_elem entries k i :
  (k, i) ∈ indexed_keys 0 entries <-> exists e, entries !! i = Some e /\ k = spec_bytes (normalize e.1).
Proof.
  unfold indexed_keys. rewrite list_elem_of_lookup. split.
  - intros [j Hj]. apply lookup_zip_with_Some in Hj as (k' & i' & Heq & Hk & Hi).
    apply lookup_seq in Hi as [-> _]. rewrite list_lookup_fmap in Hk.
    destruct (entries !! j) as [e|] eqn:He; [|done]. injection Heq as -> ->. injection Hk as <-. by exists e.
  - intros (e & He & ->). exists i. apply lookup_zip_with_Some.
    exists (spec_bytes (normalize e.1)), i. split_and!; [done|by rewrite list_lookup_fmap, He|].
    apply lookup_seq. split; [done|]. by eapply lookup_lt_Some.
Qed.

Lemma indexed_keys_fst start entries : (indexed_keys start entries).*1 = (fun e => spec_bytes (normalize e.1)) <$> entries.
Proof. unfold indexed_keys. apply fst_zip. by rewrite length_fmap, length_seq. Qed.

Lemma entry_at_indexed entries : entry_at entries <$> indexed_keys 0 entries = normalize_entry <$> entries.
Proof.
  apply list_eq. intros i. rewrite !list_lookup_fmap. unfold indexed_keys.
  destruct (entries !! i) as [e|] eqn:He.
  - assert (zip ((fun e => spec_bytes (normalize e.1)) <$> entries) (seq 0 (length entries)) !! i =
            Some (spec_bytes (normalize e.1), i)) as ->.
    { apply lookup_zip_with_Some. do 2 eexists. split_and!; [done|by rewrite list_lookup_fmap, He|].
      apply lookup_seq. split; [done|]. by eapply lookup_lt_Some. }
    cbn. unfold entry_at. cbn [snd]. by rewrite He.
  - rewrite (proj2 (lookup_zip_with_None _ _ _ _)); [done|]. left. by rewrite list_lookup_fmap, He.
Qed.

(** The normalized entries are the sorted keys, looked up. *)
Lemma normalized_entries entries keys :
  keys ≡ₚ indexed_keys 0 entries -> StronglySorted bytes_lt keys.*1 ->
  merge_sort entry_le (normalize_entry <$> entries) = entry_at entries <$> keys /\
  (spec_bytes <$> (entry_at entries <$> keys).*1) = keys.*1.
Proof.
  intros Hp Hs.
  assert ((spec_bytes <$> (entry_at entries <$> keys).*1) = keys.*1) as Hk.
  { rewrite <- !list_fmap_compose. apply list_fmap_ext. intros i [k j] Hi. cbn.
    apply list_elem_of_lookup_2 in Hi. rewrite Hp in Hi. apply indexed_keys_elem in Hi as (e & He & ->).
    unfold entry_at. cbn [snd]. by rewrite He. }
  split; [|done]. apply (merge_sort_strict (fun e => spec_bytes e.1)); [done| |].
  - rewrite Hp. by rewrite entry_at_indexed.
  - rewrite <- Hk in Hs. by rewrite <- list_fmap_compose in Hs.
Qed.
End Values.

(** * Canonical CBOR: the codec

    The writer produces the bytes of the normalized value and nothing else;
    the decoder reads back exactly the canonical values and accepts no other
    bytes. *)

Local Open Scope N_scope.

Section Codec.
Context `{Half}.

(** ** Writing *)

Lemma limit_check x max r : reject_if (max <? x) (ProtocolError_LimitExceeded r max) = Ok tt <-> x <= max.
Proof. by rewrite reject_if_Ok, N.ltb_ge. Qed.

Lemma fits_appended_nil w b : fits w b -> fits (appended w b) [].
Proof. unfold fits, appended, len. cbn [wr_out wr_limit length]. rewrite length_app. lia. Qed.

Lemma writes_string depth major b resource w w' :
  rbind (reject_if (CANONICAL_STRING_MAX_BYTES <? len b) (ProtocolError_LimitExceeded resource CANONICAL_STRING_MAX_BYTES))
    (fun _ => rbind (uint major (len b) w) (fun w => extend b w)) = Ok w' ->
  (depth <= CANONICAL_NESTING_DEPTH)%nat ->
  len b <= CANONICAL_STRING_MAX_BYTES /\ fits w (uint_bytes major (len b) ++ b) /\ w' = appended w (uint_bytes major (len b) ++ b).
Proof.
  intros HH _. step HH. destruct a. apply limit_check in E. split; [done|]. rewrite uint_extend in HH.
  change (rbind (extend (uint_bytes major (len b)) w) (extend b) = Ok w') in HH. rewrite extend_app in HH. by apply extend_Ok.
Qed.

Lemma writes_array depth items :
  Forall (fun v => well_typed v -> writes (S depth) v) items -> Forall well_typed items ->
  writes depth (CanonicalValue_Array items).
Proof.
  intros IH Hwt w w' HH Hw. cbn [Writer_value] in HH. step HH. apply enter_depth_Ok in E as [Hd ->].
  step HH. destruct a. apply limit_check in E. step HH. rewrite uint_extend in E0. apply extend_Ok in E0 as [Hfit ->].
  eapply (rfold_append _ (fun v => spec_bytes (normalize v))
    (fun v => canonical (CANONICAL_NESTING_DEPTH - S depth) (normalize v))) in HH
    as (Hfit' & -> & Hall); [|intros v w0 w1 Hv HW Hn; rewrite Forall_forall in IH, Hwt; exact (IH v Hv (Hwt v Hv) w0 w1 HW Hn)|by apply fits_appended_nil].
  cbn [normalize spec_bytes]. rewrite appended_app. unfold len in *. rewrite length_map, List.map_map.
  split_and!; [by apply fits_app|done|].
  replace (CANONICAL_NESTING_DEPTH - depth)%nat with (S (CANONICAL_NESTING_DEPTH - S depth)) by lia.
  constructor; [unfold len; by rewrite length_map|]. by apply Forall_map.
Qed.

Lemma entry_writes nested entries key :
  Forall (fun e => writes nested e.1 /\ writes nested e.2) entries -> key ∈ indexed_keys 0 entries ->
  forall w w', entry_step (List.map (fun e => Writer_value e.2 nested) entries) w key = Ok w' -> fits w [] ->
    fits w (entry_bytes (entry_at entries key)) /\ w' = appended w (entry_bytes (entry_at entries key)) /\
    canonical (CANONICAL_NESTING_DEPTH - nested) (entry_at entries key).2.
Proof.
  intros Hall Hin w w' HH Hw. destruct key as [k i]. apply indexed_keys_elem in Hin as (e & He & ->).
  unfold entry_step in HH. cbn [fst snd] in HH. step HH. apply extend_Ok in E as [Hfit ->].
  assert (List.map (fun e => Writer_value e.2 nested) entries !! i = Some (Writer_value e.2 nested)) as Hl.
  { change (List.map (fun e => Writer_value e.2 nested) entries) with ((fun e => Writer_value e.2 nested) <$> entries).
    by rewrite list_lookup_fmap, He. }
  rewrite Hl in HH. assert (writes nested e.2) as Hwr.
  { rewrite Forall_forall in Hall. by apply Hall, list_elem_of_lookup_2 with i. }
  destruct (Hwr _ _ HH (fits_appended_nil _ _ Hfit)) as (Hfit' & -> & Hc).
  unfold entry_at, entry_bytes. cbn [snd]. rewrite He. cbn. rewrite fits_app, appended_app. done.
Qed.

Lemma Sorted_fmap_fst (keys : list (bytes * nat)) : Sorted key_le keys -> Sorted (fun a b => bytes_le a b = true) keys.*1.
Proof.
  induction 1 as [|a l Hs IH Hh]; [constructor|]. cbn [fmap list_fmap]. constructor; [done|].
  destruct Hh; constructor. done.
Qed.

Lemma writes_map depth entries :
  Forall (fun e => (well_typed e.1 -> writes (S depth) e.1) /\ (well_typed e.2 -> writes (S depth) e.2)) entries ->
  Forall (fun e => well_typed e.1 /\ well_typed e.2) entries -> writes depth (CanonicalValue_Map entries).
Proof.
  intros IH Hwt w w' HH Hw. rewrite Writer_map in HH. step HH. apply enter_depth_Ok in E as [Hd ->].
  step HH. destruct a. apply limit_check in E. step HH. cbv zeta in HH. step HH. step HH.
  apply reject_if_Ok in E1. rewrite uint_extend in E2. apply extend_Ok in E2 as [Hfit ->].
  assert (Forall (fun e => writes (S depth) e.1 /\ writes (S depth) e.2) entries) as Hwr.
  { rewrite Forall_forall in IH, Hwt |- *. intros e He. destruct (IH e He), (Hwt e He). auto. }
  apply keys_loop in E0 as [-> Hkc]; [|eapply Forall_impl; [exact Hwr|by intros ? []]]. cbn [app length] in *.
  set (sorted := merge_sort key_le (indexed_keys 0 entries)) in *.
  assert (sorted ≡ₚ indexed_keys 0 entries) as Hp by apply merge_sort_Permutation.
  assert (StronglySorted bytes_lt sorted.*1) as Hs.
  { apply adjacent_strict; [|done]. apply Sorted_fmap_fst, Sorted_merge_sort, _. }
  destruct (normalized_entries entries sorted Hp Hs) as [Hn Hk].
  apply (rfold_append _ (fun key => entry_bytes (entry_at entries key))
    (fun key => canonical (CANONICAL_NESTING_DEPTH - S depth) (entry_at entries key).2)) in HH
    as (Hfit' & -> & Hvc); [| |by apply fits_appended_nil].
  2: { intros key w0 w1 Hin. rewrite Hp in Hin. by apply entry_writes. }
  assert (normalize (CanonicalValue_Map entries) = CanonicalValue_Map (entry_at entries <$> sorted)) as ->.
  { cbn [normalize]. f_equal. rewrite <- Hn. done. }
  assert (length sorted = length entries) as Hlen.
  { rewrite Hp. unfold indexed_keys. rewrite length_zip_with, length_fmap, length_seq. lia. }
  cbn [spec_bytes]. unfold len. rewrite length_fmap, Hlen. fold (len entries).
  change (List.map (fun e => spec_bytes e.1 ++ spec_bytes e.2) (entry_at entries <$> sorted))
    with (List.map entry_bytes (List.map (entry_at entries) sorted)). rewrite List.map_map, appended_app.
  split_and!; [by apply fits_app|done|].
  replace (CANONICAL_NESTING_DEPTH - depth)%nat with (S (CANONICAL_NESTING_DEPTH - S depth)) by lia.
  constructor; [unfold len; by rewrite length_fmap, Hlen| |by rewrite Hk].
  apply Forall_fmap, Forall_forall. intros [k i] Hin. rewrite Forall_forall in Hvc. split; [|by apply Hvc].
  rewrite Hp in Hin. apply indexed_keys_elem in Hin as (e & He & _). unfold compose, entry_at. cbn [snd]. rewrite He. cbn.
  rewrite Forall_forall in Hkc. by apply Hkc, list_elem_of_lookup_2 with i.
Qed.

Lemma writer_sound v : forall depth, (depth <= CANONICAL_NESTING_DEPTH)%nat -> well_typed v -> writes depth v.
Proof.
  assert (forall (b : bytes) w w', extend b w = Ok w' -> fits w b /\ w' = appended w b) as Hext.
  { intros b w w'. apply extend_Ok. }
  induction v as [|b|n|n|b|t|items IH|entries IH|bits] using tree_ind; intros depth Hd Hwt.
  - intros w w' HH _. apply Hext in HH as [? ->]. split_and!; [done..|constructor].
  - intros w w' HH _. destruct b; apply Hext in HH as [? ->]; (split_and!; [done..|constructor]).
  - intros w w' HH _. cbn [Writer_value] in HH. rewrite uint_extend in HH. apply Hext in HH as [? ->].
    inversion Hwt. split_and!; [done..|by constructor].
  - intros w w' HH _. cbn [Writer_value] in HH. rewrite uint_extend in HH. apply Hext in HH as [? ->].
    inversion Hwt. split_and!; [done..|by constructor].
  - intros w w' HH _. apply (writes_string depth) in HH as (? & ? & ->); [|done]. split_and!; [done..|by constructor].
  - intros w w' HH _. apply (writes_string depth) in HH as (? & ? & ->); [|done]. inversion Hwt. split_and!; [done..|by constructor].
  - intros w w' HH Hw. destruct (Nat.eq_dec depth CANONICAL_NESTING_DEPTH) as [->|Hne].
    { cbn [Writer_value] in HH. step HH. apply enter_depth_Ok in E. lia. }
    inversion Hwt. refine (writes_array depth items _ ltac:(done) w w' HH Hw).
    eapply Forall_impl; [exact IH|]. intros v Hv. apply Hv. lia.
  - intros w w' HH Hw. destruct (Nat.eq_dec depth CANONICAL_NESTING_DEPTH) as [->|Hne].
    { rewrite Writer_map in HH. step HH. apply enter_depth_Ok in E. lia. }
    inversion Hwt. refine (writes_map depth entries _ ltac:(done) w w' HH Hw).
    eapply Forall_impl; [exact IH|]. intros e [Hk Hv]. split; [apply Hk|apply Hv]; lia.
  - intros w w' HH _. cbn [Writer_value] in HH. apply float_write in HH as [? HH]. apply Hext in HH as [? ->].
    inversion Hwt. split_and!; [done..|by constructor].
Qed.
(** Canonical values are always written, if there is room. *)
Definition writable (levels : nat) (v : CanonicalValue) : Prop :=
  forall depth w, (depth + levels = CANONICAL_NESTING_DEPTH)%nat -> fits w (spec_bytes v) ->
    wr_limit w = CANONICAL_ENVELOPE_MAX_BYTES -> Writer_value v depth w = Ok (appended w (spec_bytes v)).

Lemma extend_fits b w : fits w b -> extend b w = Ok (appended w b).
Proof. intros Hf. by apply extend_Ok. Qed.

Lemma limit_ok x max r : x <= max -> reject_if (max <? x) (ProtocolError_LimitExceeded r max) = Ok tt.
Proof. apply limit_check. Qed.

Lemma enter_depth_ok depth levels : (depth + S levels = CANONICAL_NESTING_DEPTH)%nat -> enter_depth depth = Ok (S depth).
Proof. intros Hd. apply enter_depth_Ok. split; [lia|done]. Qed.

Lemma writable_array levels items :
  Forall (writable levels) items -> len items <= CANONICAL_ARRAY_MAX_ITEMS ->
  writable (S levels) (CanonicalValue_Array items).
Proof.
  intros IH Hlen depth w Hd Hfit Hlim. cbn [Writer_value spec_bytes] in *.
  rewrite (enter_depth_ok depth levels Hd). cbn [rbind]. rewrite limit_ok by done. cbn [rbind].
  apply fits_app in Hfit as [Hh Hb]. rewrite uint_extend, extend_fits by done. cbn [rbind].
  rewrite <- appended_app. apply (rfold_appends (fun w item => Writer_value item (S depth) w) spec_bytes); [|done..].
  intros v w0 Hv Hf Hl. rewrite Forall_forall in IH. apply IH; [done|lia|done|done].
Qed.

Lemma fits_concat w e (entries : list (CanonicalValue * CanonicalValue)) :
  fits w (concat (List.map entry_bytes entries)) -> e ∈ entries -> len (spec_bytes e.1) <= wr_limit w.
Proof.
  intros Hf [l1 [l2 ->]]%list_elem_of_split. rewrite List.map_app, concat_app in Hf. cbn [List.map concat] in Hf.
  unfold fits, entry_bytes in Hf. rewrite !len_app in Hf. lia.
Qed.

Lemma canonical_normalize_entries levels entries :
  Forall (fun e => canonical levels e.1 /\ canonical levels e.2) entries -> normalize_entry <$> entries = entries.
Proof.
  intros Hall. apply fmap_id_on. eapply Forall_impl; [exact Hall|]. intros [k v] [Hk Hv].
  unfold normalize_entry. cbn [fst snd] in *. by rewrite (canonical_normalize k levels Hk), (canonical_normalize v levels Hv).
Qed.

Lemma entry_writable depth levels entries key w :
  (S depth + levels = CANONICAL_NESTING_DEPTH)%nat ->
  Forall (fun e => writable levels e.1 /\ writable levels e.2) entries ->
  Forall (fun e => canonical levels e.1 /\ canonical levels e.2) entries ->
  key ∈ indexed_keys 0 entries -> fits w (entry_bytes (entry_at entries key)) ->
  wr_limit w = CANONICAL_ENVELOPE_MAX_BYTES ->
  entry_step (List.map (fun e => Writer_value e.2 (S depth)) entries) w key =
    Ok (appended w (entry_bytes (entry_at entries key))).
Proof.
  intros Hd IH Hc Hin Hfit Hlim. destruct key as [k i]. apply indexed_keys_elem in Hin as (e & He & ->).
  assert (e ∈ entries) as Hel by by eapply list_elem_of_lookup_2.
  rewrite Forall_forall in IH, Hc. destruct (Hc e Hel) as [Hck Hcv], (IH e Hel) as [_ Hv].
  unfold entry_at, entry_bytes in *. cbn [snd] in *. rewrite He in *. cbn in Hfit |- *.
  rewrite (canonical_normalize e.1 levels Hck), (canonical_normalize e.2 levels Hcv) in *.
  apply fits_app in Hfit as [Hf1 Hf2]. unfold entry_step. cbn [fst snd]. rewrite extend_fits by done. cbn [rbind].
  change (List.map (fun e => Writer_value e.2 (S depth)) entries) with ((fun e => Writer_value e.2 (S depth)) <$> entries).
  rewrite list_lookup_fmap, He. cbn [fmap option_fmap option_map]. by rewrite Hv, appended_app.
Qed.

Lemma writable_map levels entries :
  Forall (fun e => writable levels e.1 /\ writable levels e.2) entries ->
  len entries <= CANONICAL_MAP_MAX_ENTRIES ->
  Forall (fun e => canonical levels e.1 /\ canonical levels e.2) entries ->
  StronglySorted bytes_lt (spec_bytes <$> entries.*1) -> writable (S levels) (CanonicalValue_Map entries).
Proof.
  intros IH Hlen Hc Hs depth w Hd Hfit Hlim. rewrite Writer_map. cbn [spec_bytes] in *.
  rewrite (enter_depth_ok depth levels Hd). cbn [rbind]. rewrite limit_ok by done. cbn [rbind].
  apply fits_app in Hfit as [Hh Hb]. rewrite keys_loop_ok.
  2: { apply Forall_forall. intros e He. rewrite Forall_forall in IH, Hc. destruct (Hc e He) as [Hk _].
       rewrite (canonical_normalize e.1 levels Hk). apply (IH e He); [lia| |done].
       unfold fits. cbn [Writer_new wr_out wr_limit]. eapply fits_concat in Hb; [|exact He].
       cbn [appended wr_limit] in Hb. rewrite Hlim in Hb. unfold len in *. cbn [length]. lia. }
  cbn [rbind app length]. cbv zeta.
  assert ((indexed_keys 0 entries).*1 = spec_bytes <$> entries.*1) as Hkeys.
  { rewrite indexed_keys_fst, <- list_fmap_compose. apply list_fmap_ext. intros i e He. unfold compose.
    rewrite Forall_forall in Hc. destruct (Hc e) as [Hk _]; [by eapply list_elem_of_lookup_2|].
    by rewrite (canonical_normalize e.1 levels Hk). }
  rewrite (merge_sort_strict fst key_le (indexed_keys 0 entries) (indexed_keys 0 entries)) by (done || by rewrite Hkeys).
  rewrite Hkeys, strict_adjacent by done. cbn [reject_if rbind]. rewrite uint_extend, extend_fits by done. cbn [rbind].
  assert (List.map entry_bytes entries = List.map (fun key => entry_bytes (entry_at entries key)) (indexed_keys 0 entries)) as Hout.
  { rewrite <- (List.map_map (entry_at entries) entry_bytes). f_equal. change (entries = entry_at entries <$> indexed_keys 0 entries).
    rewrite entry_at_indexed. symmetry. by eapply canonical_normalize_entries. }
  change (List.map (fun e => spec_bytes e.1 ++ spec_bytes e.2) entries) with (List.map entry_bytes entries) in Hb |- *.
  rewrite <- appended_app. rewrite Hout in Hb |- *. apply rfold_appends; [|done|done].
  intros key w0 Hin Hf Hl. apply (entry_writable depth levels); [lia|done..].
Qed.

Lemma writer_complete v : forall levels, canonical levels v -> writable levels v.
Proof.
  assert (forall b w, fits w b -> extend b w = Ok (appended w b)) as Hext by apply extend_fits.
  induction v as [|b|n|n|b|t|items IH|entries IH|bits] using tree_ind; intros levels Hc.
  - intros depth w _ Hf _. by apply Hext.
  - intros depth w _ Hf _. destruct b; by apply Hext.
  - intros depth w _ Hf _. cbn [Writer_value]. rewrite uint_extend. by apply Hext.
  - intros depth w _ Hf _. cbn [Writer_value]. rewrite uint_extend. by apply Hext.
  - intros depth w _ Hf _. inversion Hc. cbn [Writer_value]. rewrite limit_ok by done. cbn [rbind].
    rewrite uint_extend. change (rbind (extend (uint_bytes 2 (len b)) w) (extend b) = Ok (appended w (spec_bytes (CanonicalValue_Bytes b)))).
    rewrite extend_app. by apply Hext.
  - intros depth w _ Hf _. inversion Hc. cbn [Writer_value]. rewrite limit_ok by done. cbn [rbind].
    rewrite uint_extend. change (rbind (extend (uint_bytes 3 (len t)) w) (extend t) = Ok (appended w (spec_bytes (CanonicalValue_Text t)))).
    rewrite extend_app. by apply Hext.
  - inversion Hc as [| | | | | |l ? Hlen Hall| |]; subst. apply writable_array; [|done].
    rewrite Forall_forall in IH, Hall |- *. auto.
  - inversion Hc as [| | | | | | |l ? Hlen Hall Hs|]; subst. apply writable_map; [|done..].
    rewrite Forall_forall in IH, Hall |- *. intros e He. destruct (IH e He), (Hall e He). auto.
  - intros depth w _ Hf _. inversion Hc. cbn [Writer_value]. apply float_write. split; [done|by apply Hext].
Qed.
End Codec.
