(* ===== verification/CborDecode.v ===== *)
(** * Canonical CBOR: the decoder

    What the decoder accepts is a canonical value at exactly its bytes, and it
    accepts every canonical value; with the writer this gives the round trips
    in both directions. *)

From stdpp Require Import sorting.
From S2P Require Import Prelude Ids Floats Cbor CborCodec.

Local Open Scope N_scope.

Section Decode.
Context `{HalfLaws}.

Section Input.
Variable input : bytes.

(** [v] stands at [off .. off'] of the input. *)
Definition stands (v : CanonicalValue) (off off' : nat) : Prop :=
  (off <= off')%nat /\ (off' <= length input)%nat /\ slice input off off' = spec_bytes v.

Lemma bounded_len_Ok additional max resource of_string off n off' : additional < 32 ->
  bounded_len input additional max resource of_string off = Ok (n, off') ->
  additional = uint_additional (N.of_nat n) /\ slice input off off' = uint_tail (N.of_nat n) /\
  N.of_nat n <= max /\ (off <= off')%nat /\ (off <= length input -> off' <= length input)%nat.
Proof.
  intros Ha HH. unfold bounded_len in HH. step HH. step HH. destruct a0 as [d o]. step HH. step HH.
  injection HH as <- <-. rewrite N2Nat.id. apply reject_if_Ok, N.ltb_ge in E1.
  apply read_uint_Ok in E0 as (? & ? & ? & ? & ?); [|done]. done.
Qed.

Lemma float_exact_16 h : h < 2 ^ 16 -> f16_is_finite h = true -> float_bytes (f16_to_f64 h) = head_byte 7 25 :: be 2 h.
Proof. intros Hh Hf. unfold float_bytes, f64_to_f16_exact. by rewrite f16_from_to_f64, N.eqb_refl by done. Qed.

Lemma simple_sound additional levels off v off' : additional < 32 -> (off <= length input)%nat ->
  simple input additional off = Ok (v, off') ->
  canonical levels v /\ head_byte 7 additional :: slice input off off' = spec_bytes v /\
  (off <= off')%nat /\ (off' <= length input)%nat.
Proof.
  intros Ha Hoff HH. unfold simple in HH.
  assert (slice input off off = []) as Hnil by (unfold slice; by rewrite Nat.sub_diag).
  repeat match type of HH with
  | (if ?a =? ?k then _ else _) = _ => destruct (N.eqb_spec a k) as [->|?]; [try (injection HH as <- <-)|]
  end; try discriminate HH; try (rewrite Hnil; split_and!; [constructor|done|lia..]).
  - step HH. destruct a as [h o]. apply read_be_Ok in E as (-> & Hs & Hn & Hl). step HH. unfold f16_to_f64_bits in E.
    step E. apply reject_if_Ok, negb_false_iff in E0. injection E as <-. injection HH as <- <-.
    change (256 ^ N.of_nat 2) with (2 ^ 16) in Hn. rewrite Hs. cbn [spec_bytes]. rewrite float_exact_16 by done.
    split_and!; [|done|lia|done]. constructor; [by apply f16_to_f64_range|]. by rewrite f16_to_f64_finite.
  - step HH. destruct a as [h o]. apply read_be_Ok in E as (-> & Hs & Hn & Hl). step HH. step HH. injection HH as <- <-.
    apply reject_if_Ok, negb_false_iff in E. apply reject_if_Ok, is_some_false in E0.
    change (256 ^ N.of_nat 4) with (2 ^ 32) in Hn. rewrite Hs. cbn [spec_bytes]. unfold float_bytes.
    rewrite E0, f32_narrow_widen, N.eqb_refl by done. split_and!; [|done|lia|done].
    constructor; [by apply f32_to_f64_bits|]. by rewrite f32_to_f64_finite.
  - step HH. destruct a as [h o]. apply read_be_Ok in E as (-> & Hs & Hn & Hl). step HH. step HH. injection HH as <- <-.
    apply reject_if_Ok, negb_false_iff in E. apply reject_if_Ok, orb_false_iff in E0 as [E0%is_some_false E1].
    change (256 ^ N.of_nat 8) with (2 ^ 64) in Hn. rewrite Hs. cbn [spec_bytes]. unfold float_bytes.
    rewrite E0, E1. split_and!; [by constructor|done|lia|done].
Qed.

Section Loops.
Variables (levels : nat) (read : nat -> presult (CanonicalValue * nat)).
Hypothesis Hread : forall off v off', (off <= length input)%nat -> read off = Ok (v, off') ->
  canonical levels v /\ stands v off off'.

Lemma array_loop n acc off acc' off' : (off <= length input)%nat ->
  times n (array_item read) (acc, off) = Ok (acc', off') ->
  exists vs, acc' = acc ++ vs /\ length vs = n /\ Forall (canonical levels) vs /\
    (off <= off')%nat /\ (off' <= length input)%nat /\ slice input off off' = concat (List.map spec_bytes vs).
Proof.
  revert acc off. induction n as [|n IH]; intros acc off Hoff HH; cbn [times] in HH.
  - injection HH as <- <-. exists []. rewrite app_nil_r. split_and!; try done. unfold slice. by rewrite Nat.sub_diag.
  - step HH. unfold array_item in E. cbn [fst snd] in E. step E. destruct a0 as [v o]. injection E as <-.
    apply Hread in E0 as (Hc & Hle & Hlen & Hs); [|done]. apply IH in HH as (vs & -> & Hn & Hall & Hle' & Hlen' & Hs'); [|done].
    exists (v :: vs). rewrite <- app_assoc. split_and!; [done|by cbn; f_equal|by constructor|lia|done|].
    cbn [List.map concat]. rewrite <- Hs, <- Hs'. symmetry. by apply slice_app.
Qed.

Definition last_key (previous : option (nat * nat)) : list bytes :=
  match previous with Some p => [slice input p.1 p.2] | None => [] end.

Lemma map_loop n acc previous off acc' previous' off' : (off <= length input)%nat ->
  times n (map_entry input read) (acc, previous, off) = Ok (acc', previous', off') ->
  exists es, acc' = acc ++ es /\ length es = n /\ Forall (fun e => canonical levels e.1 /\ canonical levels e.2) es /\
    (off <= off')%nat /\ (off' <= length input)%nat /\ slice input off off' = concat (List.map entry_bytes es) /\
    Sorted bytes_lt (last_key previous ++ (spec_bytes <$> es.*1)).
Proof.
  revert acc previous off. induction n as [|n IH]; intros acc previous off Hoff HH; cbn [times] in HH.
  - injection HH as <- <- <-. exists []. rewrite app_nil_r. split_and!; try done.
    + unfold slice. by rewrite Nat.sub_diag.
    + destruct previous; cbn; by repeat constructor.
  - step HH. unfold map_entry in E. step E. destruct a0 as [k o]. step E. step E. destruct a1 as [v o']. injection E as <-.
    apply Hread in E0 as (Hck & Hlek & Hlenk & Hsk); [|done]. apply Hread in E2 as (Hcv & Hlev & Hlenv & Hsv); [|done].
    apply reject_if_Ok in E1.
    apply IH in HH as (es & -> & Hn & Hall & Hle' & Hlen' & Hs' & Hsorted); [|done].
    exists ((k, v) :: es). rewrite <- app_assoc. split_and!; [done|by cbn; f_equal|by constructor|lia|done| |].
    + cbn [List.map concat]. rewrite <- Hs'. unfold entry_bytes at 1. cbn [fst snd]. rewrite <- Hsk, <- Hsv.
      rewrite slice_app by done. symmetry. apply slice_app; lia.
    + cbn [last_key fst snd app fmap list_fmap] in *. rewrite <- Hsk. destruct previous as [p|]; cbn [app last_key]; [|done].
      constructor; [done|]. constructor. done.
Qed.
End Loops.

(** A head byte and its tail are the slice they were read from. *)
Lemma slice_head off c off' rest : slice input off (S off) = [c] -> (S off <= off')%nat ->
  slice input (S off) off' = rest -> slice input off off' = c :: rest.
Proof. intros H1 Hle <-. rewrite <- (slice_app input off (S off) off') by lia. by rewrite H1. Qed.

Lemma slice_uint major n off off' : slice input off (S off) = [head_byte major (uint_additional n)] ->
  (S off <= off')%nat -> slice input (S off) off' = uint_tail n -> slice input off off' = uint_bytes major n.
Proof. intros H1 Hle Ht. by rewrite (slice_head off _ off' _ H1 Hle Ht). Qed.

(** A container or string: a length head, then the contents. *)
Lemma slice_headed {A} major (l : list A) off o off' content :
  slice input off (S off) = [head_byte major (uint_additional (len l))] -> (S off <= o)%nat -> (o <= off')%nat ->
  slice input (S off) o = uint_tail (len l) -> slice input o off' = content ->
  slice input off off' = uint_bytes major (len l) ++ content.
Proof. intros H1 Hle Hle' Ht <-. rewrite <- (slice_uint major _ off o H1 Hle Ht). symmetry. apply slice_app; lia. Qed.

Lemma string_sound major additional resource off n o b off' : additional < 32 -> (S off <= length input)%nat ->
  slice input off (S off) = [head_byte major additional] ->
  bounded_len input additional CANONICAL_STRING_MAX_BYTES resource true (S off) = Ok (n, o) ->
  read_exact input n o = Ok (b, off') ->
  len b <= CANONICAL_STRING_MAX_BYTES /\ (off <= off')%nat /\ (off' <= length input)%nat /\
  slice input off off' = uint_bytes major (len b) ++ b.
Proof.
  intros Ha Hl Hc E E0. apply bounded_len_Ok in E as (-> & Hs & Hn & Hle & Hl'); [|done].
  apply read_exact_Ok in E0 as (-> & Hb & Hlen & Hbl).
  assert (N.of_nat n = len b) as Hnl by (unfold len; by rewrite Hbl). rewrite Hnl in *.
  split_and!; [done|lia|done|]. apply (slice_headed major b off o); [done|done|lia|done|by rewrite Hb].
Qed.

Lemma array_sound levels additional off n o items off' : additional < 32 -> (S off <= length input)%nat ->
  (forall off v off', (off <= length input)%nat -> item input levels off = Ok (v, off') ->
     canonical levels v /\ stands v off off') ->
  slice input off (S off) = [head_byte 4 additional] ->
  bounded_len input additional CANONICAL_ARRAY_MAX_ITEMS "array_items" false (S off) = Ok (n, o) ->
  times n (array_item (item input levels)) ([], o) = Ok (items, off') ->
  canonical (S levels) (CanonicalValue_Array items) /\ stands (CanonicalValue_Array items) off off'.
Proof.
  intros Ha Hl IH Hc E E0. apply bounded_len_Ok in E as (-> & Hs & Hn & Hle & Hl'); [|done].
  apply (array_loop levels _ IH) in E0 as (vs & -> & Hlen & Hall & Hle' & Hlen' & Hs'); [|by apply Hl'].
  cbn [app]. assert (N.of_nat n = len vs) as Hnl by (unfold len; by rewrite Hlen). rewrite Hnl in *.
  split; [by constructor|]. split_and!; [lia|done|]. by apply (slice_headed 4 vs off o).
Qed.

Lemma map_sound levels additional off n o entries previous off' : additional < 32 -> (S off <= length input)%nat ->
  (forall off v off', (off <= length input)%nat -> item input levels off = Ok (v, off') ->
     canonical levels v /\ stands v off off') ->
  slice input off (S off) = [head_byte 5 additional] ->
  bounded_len input additional CANONICAL_MAP_MAX_ENTRIES "map_entries" false (S off) = Ok (n, o) ->
  times n (map_entry input (item input levels)) ([], None, o) = Ok (entries, previous, off') ->
  canonical (S levels) (CanonicalValue_Map entries) /\ stands (CanonicalValue_Map entries) off off'.
Proof.
  intros Ha Hl IH Hc E E0. apply bounded_len_Ok in E as (-> & Hs & Hn & Hle & Hl'); [|done].
  apply (map_loop levels _ IH) in E0 as (es & -> & Hlen & Hall & Hle' & Hlen' & Hs' & Hsort); [|by apply Hl'].
  cbn [app last_key] in *. assert (N.of_nat n = len es) as Hnl by (unfold len; by rewrite Hlen). rewrite Hnl in *.
  split; [constructor; [done..|]; apply Sorted_StronglySorted; [apply _|done]|].
  split_and!; [lia|done|]. by apply (slice_headed 5 es off o).
Qed.

(** The positions an item can be at, by its head. *)
Ltac head_cases HH :=
  repeat match type of HH with
  | (if ?a =? ?k then _ else _) = _ => let Hne := fresh "Hne" in destruct (N.eqb_spec a k) as [->|Hne]
  end; try discriminate HH.

Lemma item_sound levels : forall off v off', (off <= length input)%nat -> item input levels off = Ok (v, off') ->
  canonical levels v /\ stands v off off'.
Proof.
  induction levels as [levels IH] using lt_wf_ind. intros off v off' Hoff HH.
  assert (item_at input match levels with O => None | S levels => Some (item input levels) end off = Ok (v, off')) as HH'
    by by destruct levels. clear HH. rename HH' into HH. unfold item_at in HH.
  step HH. destruct a as [initial o]. apply read_u8_Ok in E as (c & -> & -> & Hc & Hl).
  destruct (head_join c) as (Hhead & Hmaj & Hadd). rewrite <- Hhead in Hc. clear Hhead.
  revert HH Hc Hmaj Hadd. generalize (N.shiftr (u8 c) 5) as major, (N.land (u8 c) 31) as additional.
  intros major additional HH Hc Hmaj Hadd. unfold stands. head_cases HH.
  - step HH. destruct a as [n o]. injection HH as <- <-.
    apply read_uint_Ok in E as (-> & Hs & Hn & Hle & Hl'); [|done].
    split; [by apply can_unsigned|]. split_and!; [lia|by apply Hl'|]. by apply (slice_uint 0 n).
  - step HH. destruct a as [n o]. injection HH as <- <-.
    apply read_uint_Ok in E as (-> & Hs & Hn & Hle & Hl'); [|done].
    split; [by apply can_negative|]. split_and!; [lia|by apply Hl'|]. by apply (slice_uint 1 n).
  - step HH. destruct a as [n o]. step HH. destruct a as [b o']. injection HH as <- <-.
    destruct (string_sound 2 additional "byte_string" off n o b o' Hadd Hl Hc E E0) as (? & ? & ? & ?).
    split; [by constructor|by split_and!].
  - step HH. destruct a as [n o]. step HH. destruct a as [b o']. step HH. injection HH as <- <-.
    apply reject_if_Ok, negb_false_iff in E1.
    destruct (string_sound 3 additional "text_string" off n o b o' Hadd Hl Hc E E0) as (? & ? & ? & ?).
    split; [by constructor|by split_and!].
  - destruct levels as [|levels]; [discriminate HH|]. step HH. destruct a as [n o]. step HH. destruct a as [items o'].
    injection HH as <- <-. apply (array_sound levels additional off n o); try done. apply IH. lia.
  - destruct levels as [|levels]; [discriminate HH|]. step HH. destruct a as [n o]. step HH. destruct a as [[entries pk] o'].
    injection HH as <- <-. apply (map_sound levels additional off n o entries pk); try done. apply IH. lia.
  - step HH. destruct a as [tag o]. by destruct ((tag =? 2) || (tag =? 3)).
  - apply (simple_sound additional levels) in HH as (Hcan & Hs & Hle & Hl'); [|done..].
    split; [done|split_and!; [lia|done|by rewrite (slice_head off _ off' _ Hc Hle eq_refl)]].
Qed.
(** ** Every canonical value is read back *)

(** [v] is read wherever its bytes stand. *)
Definition readable (read : nat -> presult (CanonicalValue * nat)) (v : CanonicalValue) : Prop :=
  forall off rest, (off <= length input)%nat -> drop off input = spec_bytes v ++ rest ->
    read off = Ok (v, (off + length (spec_bytes v))%nat).

Lemma drop_bound off (b rest : bytes) :
  (off <= length input)%nat -> drop off input = b ++ rest -> (off + length b <= length input)%nat.
Proof. intros Hle Hd. apply (f_equal length) in Hd. rewrite length_drop, length_app in Hd. lia. Qed.

Lemma bounded_len_at n max resource of_string off rest : (off <= length input)%nat ->
  N.of_nat n <= max -> max < 2 ^ 64 -> drop off input = uint_tail (N.of_nat n) ++ rest ->
  (of_string = true -> n <= length rest)%nat ->
  bounded_len input (uint_additional (N.of_nat n)) max resource of_string off =
    Ok (n, (off + length (uint_tail (N.of_nat n)))%nat).
Proof.
  intros Hle Hn Hmax Hd Hstr. unfold bounded_len.
  pose proof (uint_additional_bound (N.of_nat n)). rewrite (proj2 (N.eqb_neq _ 31)) by lia. cbn [reject_if rbind].
  rewrite (read_uint_at input off _ rest Hle) by (done || lia). cbn [rbind]. rewrite limit_ok by done. cbn [rbind].
  rewrite Nat2N.id. destruct of_string; [|by rewrite andb_false_r].
  specialize (Hstr eq_refl). apply (f_equal length) in Hd. rewrite length_drop, length_app in Hd.
  rewrite (proj2 (N.ltb_ge _ _)) by (unfold len; lia). done.
Qed.

Lemma array_loop_at read vs : Forall (readable read) vs -> forall acc off rest, (off <= length input)%nat ->
  drop off input = concat (List.map spec_bytes vs) ++ rest ->
  times (length vs) (array_item read) (acc, off) = Ok (acc ++ vs, (off + length (concat (List.map spec_bytes vs)))%nat).
Proof.
  induction 1 as [|v vs Hv Hall IH]; intros acc off rest Hle Hd; cbn [times length List.map concat] in *.
  { by rewrite app_nil_r, Nat.add_0_r. }
  rewrite <- app_assoc in Hd. unfold array_item at 1. cbn [fst snd]. rewrite (Hv off _ Hle Hd). cbn [rbind].
  rewrite (IH _ _ rest); [|by eapply drop_bound|by apply drop_after in Hd].
  by rewrite <- app_assoc, length_app, Nat.add_assoc.
Qed.

Lemma map_loop_at read es : Forall (fun e => readable read e.1 /\ readable read e.2) es ->
  forall acc previous off rest, (off <= length input)%nat ->
  drop off input = concat (List.map entry_bytes es) ++ rest ->
  Sorted bytes_lt (last_key previous ++ (spec_bytes <$> es.*1)) ->
  exists previous', times (length es) (map_entry input read) (acc, previous, off) =
    Ok (acc ++ es, previous', (off + length (concat (List.map entry_bytes es)))%nat).
Proof.
  induction 1 as [|[k v] es [Hk Hv] Hall IH]; intros acc previous off rest Hle Hd Hs; cbn [times length List.map concat fst snd] in *.
  { exists previous. by rewrite app_nil_r, Nat.add_0_r. }
  unfold entry_bytes in Hd at 1. cbn [fst snd] in Hd. rewrite <- !app_assoc in Hd.
  unfold map_entry at 1. rewrite (Hk off _ Hle Hd). cbn [rbind].
  pose proof (drop_after _ _ _ _ Hd) as Hd1. rewrite (slice_at _ _ _ _ Hd).
  assert (off + length (spec_bytes k) <= length input)%nat as Hle1 by by eapply drop_bound.
  assert (is_some_and previous (fun p => bytes_le (spec_bytes k) (slice input p.1 p.2)) = false) as ->.
  { destruct previous as [p|]; [|done]. cbn [last_key app fmap list_fmap] in Hs. inversion Hs as [|? ? _ Hh]; subst.
    inversion Hh. done. }
  cbn [reject_if rbind]. rewrite (Hv _ _ Hle1 Hd1). cbn [rbind].
  destruct (IH (acc ++ [(k, v)]) (Some (off, (off + length (spec_bytes k))%nat))
              (off + length (spec_bytes k) + length (spec_bytes v))%nat rest) as [previous' HIH];
    [by eapply drop_bound|by apply drop_after in Hd1| |].
  { cbn [last_key fst snd]. rewrite (slice_at _ _ _ _ Hd). destruct previous; [|done].
    cbn [last_key app fmap list_fmap] in Hs. by inversion Hs. }
  exists previous'. rewrite HIH, <- app_assoc, length_app.
  change (length (entry_bytes (k, v))) with (length (spec_bytes k ++ spec_bytes v)). by rewrite length_app, !Nat.add_assoc.
Qed.

Lemma simple_at bits off rest : (off <= length input)%nat -> bits < 2 ^ 64 -> f64_is_finite bits = true ->
  exists additional, additional < 32 /\ float_bytes bits = head_byte 7 additional :: tail (float_bytes bits) /\
    (drop off input = tail (float_bytes bits) ++ rest ->
     simple input additional off = Ok (CanonicalValue_Float bits, (off + length (tail (float_bytes bits)))%nat)).
Proof.
  intros Hle Hb Hf. unfold float_bytes. destruct (f64_to_f16_exact bits) as [h|] eqn:Hh.
  - exists 25. split_and!; [done..|]. cbn [tail]. intros Hd. unfold f64_to_f16_exact in Hh.
    destruct (N.eqb_spec (f16_to_f64 (f16_from_f64 bits)) bits) as [Heq|]; [|done]. injection Hh as <-.
    unfold simple. cbn [N.eqb Pos.eqb]. pose proof (f16_from_f64_range bits) as Hr. rewrite (read_be_at input 2 off _ rest) by done.
    cbn [rbind]. unfold f16_to_f64_bits. rewrite <- f16_to_f64_finite, Heq, Hf by done. by rewrite be_length.
  - destruct (N.eqb_spec (f32_to_f64 (f64_to_f32_lossy bits)) bits) as [Heq|Hne].
    + exists 26. split_and!; [done..|]. cbn [tail]. intros Hd. unfold simple. cbn [N.eqb Pos.eqb].
      pose proof (f64_to_f32_bits bits Hb) as Hr. rewrite (read_be_at input 4 off _ rest) by done. cbn [rbind].
      rewrite <- f32_to_f64_finite, Heq, Hf, Hh by done. by rewrite be_length.
    + exists 27. split_and!; [done..|]. cbn [tail]. intros Hd. unfold simple. cbn [N.eqb Pos.eqb].
      rewrite (read_be_at input 8 off _ rest) by done. cbn [rbind].
      rewrite Hf, Hh, (proj2 (N.eqb_neq _ _) Hne). by rewrite be_length.
Qed.

(** Reading a head byte dispatches on its two fields. *)
Lemma item_head levels off major additional rest : major < 8 -> additional < 32 ->
  drop off input = head_byte major additional :: rest ->
  item input levels off =
  if major =? 0 then
    let? '(n, offset) := read_uint input additional (S off) in Ok (CanonicalValue_Unsigned n, offset)
  else if major =? 1 then
    let? '(n, offset) := read_uint input additional (S off) in Ok (CanonicalValue_Negative n, offset)
  else if major =? 2 then
    let? '(n, offset) := bounded_len input additional CANONICAL_STRING_MAX_BYTES "byte_string" true (S off) in
    let? '(b, offset) := read_exact input n offset in
    Ok (CanonicalValue_Bytes b, offset)
  else if major =? 3 then
    let? '(n, offset) := bounded_len input additional CANONICAL_STRING_MAX_BYTES "text_string" true (S off) in
    let? '(b, offset) := read_exact input n offset in
    do? reject_if (negb (utf8_valid b)) (ProtocolError_InvalidCbor "invalid_utf8") in
    Ok (CanonicalValue_Text b, offset)
  else if major =? 4 then
    match levels with
    | O => Err nesting_error
    | S levels =>
        let? '(n, offset) := bounded_len input additional CANONICAL_ARRAY_MAX_ITEMS "array_items" false (S off) in
        let? '(items, offset) := times n (array_item (item input levels)) ([], offset) in
        Ok (CanonicalValue_Array items, offset)
    end
  else if major =? 5 then
    match levels with
    | O => Err nesting_error
    | S levels =>
        let? '(n, offset) := bounded_len input additional CANONICAL_MAP_MAX_ENTRIES "map_entries" false (S off) in
        let? '(entries, _, offset) := times n (map_entry input (item input levels)) ([], None, offset) in
        Ok (CanonicalValue_Map entries, offset)
    end
  else if major =? 6 then
    let? '(tag, _) := read_uint input additional (S off) in
    if (tag =? 2) || (tag =? 3) then Err (ProtocolError_InvalidCbor "bignum_tag")
    else Err (ProtocolError_InvalidCbor "cbor_tag")
  else if major =? 7 then simple input additional (S off)
  else Err (ProtocolError_InvalidCbor "unknown_major_type").
Proof.
  intros Hm Ha Hd. destruct (head_split major additional Hm Ha) as [H1 H2].
  destruct levels; cbn [item]; unfold item_at; rewrite (read_u8_at input off _ rest Hd); cbn [rbind];
    cbv zeta; by rewrite H1, H2.
Qed.

(** The head of a string, array or map, and the position after it. *)
Lemma headed_at {A} major (l : list A) max resource of_string off content rest : (off <= length input)%nat ->
  len l <= max -> max < 2 ^ 64 -> drop off input = (uint_bytes major (len l) ++ content) ++ rest ->
  (of_string = true -> length l <= length content)%nat ->
  let after := (off + length (uint_bytes major (len l)))%nat in
  drop off input = head_byte major (uint_additional (len l)) :: uint_tail (len l) ++ content ++ rest /\
  bounded_len input (uint_additional (len l)) max resource of_string (S off) = Ok (length l, after) /\
  (after <= length input)%nat /\ drop after input = content ++ rest.
Proof.
  intros Hle Hlen Hmax Hd Hstr after. rewrite <- app_assoc in Hd.
  assert (off + length (uint_bytes major (len l)) <= length input)%nat as Hle' by by eapply drop_bound.
  assert (drop (S off) input = uint_tail (len l) ++ content ++ rest) as Hd1.
  { apply (drop_after input off [_]) in Hd. by rewrite Nat.add_1_r in Hd. }
  split_and!; [done| |done|by apply drop_after in Hd].
  unfold len. rewrite (bounded_len_at _ max resource of_string _ (content ++ rest)); [| |done|done|done|].
  - f_equal. f_equal. unfold after, uint_bytes. cbn [length]. unfold len. lia.
  - unfold uint_bytes in Hle'. cbn [length] in Hle'. lia.
  - intros Ho. specialize (Hstr Ho). rewrite length_app. lia.
Qed.

Lemma uint_additional_lt n : uint_additional n < 32.
Proof. pose proof (uint_additional_bound n). lia. Qed.

Lemma uint_readable levels major n v : (major = 0 /\ v = CanonicalValue_Unsigned n \/ major = 1 /\ v = CanonicalValue_Negative n) ->
  n < 2 ^ 64 -> readable (item input levels) v.
Proof.
  intros Hv Hn off rest Hle Hd.
  assert (spec_bytes v = uint_bytes major n) as Hb by (destruct Hv as [[-> ->]|[-> ->]]; done). rewrite Hb in *.
  pose proof (drop_bound _ _ _ Hle Hd) as Hle'.
  assert (drop (S off) input = uint_tail n ++ rest) as Hd1.
  { apply (drop_after input off [_]) in Hd. by rewrite Nat.add_1_r in Hd. }
  rewrite (item_head levels off major _ _ ltac:(destruct Hv as [[-> _]|[-> _]]; lia) (uint_additional_lt n) Hd).
  unfold uint_bytes in *. cbn [length] in *.
  destruct Hv as [[-> ->]|[-> ->]]; cbn [N.eqb]; rewrite (read_uint_at input (S off) n rest) by (done || lia);
    cbn [rbind]; do 2 f_equal; lia.
Qed.

Lemma string_readable levels b : len b <= CANONICAL_STRING_MAX_BYTES ->
  readable (item input levels) (CanonicalValue_Bytes b) /\
  (utf8_valid b = true -> readable (item input levels) (CanonicalValue_Text b)).
Proof.
  intros Hlen. split; [|intros Hu]; intros off rest Hle Hd; cbn [spec_bytes] in *.
  - destruct (headed_at 2 b CANONICAL_STRING_MAX_BYTES "byte_string" true off b rest Hle Hlen ltac:(done) Hd ltac:(done))
      as (H1 & H2 & H3 & H4).
    rewrite (item_head levels off 2 _ _ ltac:(done) (uint_additional_lt _) H1). cbn [N.eqb Pos.eqb]. rewrite H2. cbn [rbind].
    rewrite (read_exact_at input _ b rest) by done. cbn [rbind]. by rewrite length_app, Nat.add_assoc.
  - destruct (headed_at 3 b CANONICAL_STRING_MAX_BYTES "text_string" true off b rest Hle Hlen ltac:(done) Hd ltac:(done))
      as (H1 & H2 & H3 & H4).
    rewrite (item_head levels off 3 _ _ ltac:(done) (uint_additional_lt _) H1). cbn [N.eqb Pos.eqb]. rewrite H2. cbn [rbind].
    rewrite (read_exact_at input _ b rest) by done. cbn [rbind]. rewrite Hu. cbn [negb reject_if rbind]. by rewrite length_app, Nat.add_assoc.
Qed.

Lemma array_readable levels items : len items <= CANONICAL_ARRAY_MAX_ITEMS -> Forall (readable (item input levels)) items ->
  readable (item input (S levels)) (CanonicalValue_Array items).
Proof.
  intros Hlen Hall off rest Hle Hd. cbn [spec_bytes] in *.
  destruct (headed_at 4 items CANONICAL_ARRAY_MAX_ITEMS "array_items" false off _ rest Hle Hlen ltac:(done) Hd ltac:(done))
    as (H1 & H2 & H3 & H4).
  rewrite (item_head (S levels) off 4 _ _ ltac:(done) (uint_additional_lt _) H1). cbn [N.eqb Pos.eqb]. rewrite H2. cbn [rbind].
  rewrite (array_loop_at _ _ Hall [] _ rest H3 H4). cbn [rbind app]. by rewrite length_app, Nat.add_assoc.
Qed.

Lemma map_readable levels entries : len entries <= CANONICAL_MAP_MAX_ENTRIES ->
  Forall (fun e => readable (item input levels) e.1 /\ readable (item input levels) e.2) entries ->
  StronglySorted bytes_lt (spec_bytes <$> entries.*1) -> readable (item input (S levels)) (CanonicalValue_Map entries).
Proof.
  intros Hlen Hall Hs off rest Hle Hd. cbn [spec_bytes] in *.
  destruct (headed_at 5 entries CANONICAL_MAP_MAX_ENTRIES "map_entries" false off _ rest Hle Hlen ltac:(done) Hd ltac:(done))
    as (H1 & H2 & H3 & H4).
  rewrite (item_head (S levels) off 5 _ _ ltac:(done) (uint_additional_lt _) H1). cbn [N.eqb Pos.eqb]. rewrite H2. cbn [rbind].
  destruct (map_loop_at _ _ Hall [] None _ rest H3 H4) as [p Hloop]; [by apply StronglySorted_Sorted|].
  rewrite Hloop. cbn [rbind app]. by rewrite length_app, Nat.add_assoc.
Qed.

Lemma float_readable levels bits : bits < 2 ^ 64 -> f64_is_finite bits = true ->
  readable (item input levels) (CanonicalValue_Float bits).
Proof.
  intros Hb Hf off rest Hle Hd. cbn [spec_bytes] in *. pose proof (drop_bound _ _ _ Hle Hd) as Hle'.
  destruct (simple_at bits (S off) rest) as (a & Ha & Heq & Hsimple); [|done..|].
  { destruct (float_bytes bits) eqn:E; [|cbn [length] in Hle'; lia]. unfold float_bytes in E. repeat case_match; done. }
  rewrite Heq in Hd, Hle' |- *. cbn [app length] in *.
  rewrite (item_head levels off 7 a _ ltac:(done) Ha Hd). cbn [N.eqb Pos.eqb]. rewrite Hsimple; [do 2 f_equal; lia|].
  apply (drop_after input off [_]) in Hd. by rewrite Nat.add_1_r in Hd.
Qed.

Lemma item_complete v : forall levels, canonical levels v -> readable (item input levels) v.
Proof.
  induction v as [|b|n|n|b|t|items IH|entries IH|bits] using tree_ind; intros levels Hc.
  - intros off rest Hle Hd. rewrite (item_head levels off 7 22 rest) by done. cbn. by rewrite Nat.add_1_r.
  - intros off rest Hle Hd. rewrite (item_head levels off 7 (if b then 21 else 20) rest) by by destruct b.
    destruct b; cbn; by rewrite Nat.add_1_r.
  - inversion Hc. apply (uint_readable levels 0 n); auto.
  - inversion Hc. apply (uint_readable levels 1 n); auto.
  - inversion Hc. by apply string_readable.
  - inversion Hc. by apply string_readable.
  - inversion Hc as [| | | | | |l ? Hlen Hall| |]; subst. apply array_readable; [done|].
    rewrite Forall_forall in IH, Hall |- *. auto.
  - inversion Hc as [| | | | | | |l ? Hlen Hall Hs|]; subst. apply map_readable; [done| |done].
    rewrite Forall_forall in IH, Hall |- *. intros e He. destruct (IH e He), (Hall e He). auto.
  - inversion Hc. by apply float_readable.
Qed.
End Input.

(** ** The round trips *)

Lemma slice_all (input : bytes) : slice input 0 (length input) = input.
Proof. unfold slice. rewrite Nat.sub_0_r. by apply take_ge. Qed.

(** What the encoder writes is the canonical form of the value. *)
Lemma encode_canonical v b : well_typed v -> encode_value v = Ok b ->
  b = spec_bytes (normalize v) /\ canonical CANONICAL_NESTING_DEPTH (normalize v) /\ len b <= CANONICAL_ENVELOPE_MAX_BYTES.
Proof.
  intros Hwt HH. unfold encode_value in HH. step HH. injection HH as <-.
  destruct (writer_sound v 0 ltac:(lia) Hwt _ _ E fits_new) as (Hf & -> & Hc). split_and!; [done..|exact Hf].
Qed.

Lemma decode_spec_bytes v : canonical CANONICAL_NESTING_DEPTH v -> len (spec_bytes v) <= CANONICAL_ENVELOPE_MAX_BYTES ->
  decode_value (spec_bytes v) = Ok v.
Proof.
  intros Hc Hlen. unfold decode_value. rewrite limit_ok by done. cbn [rbind].
  rewrite (item_complete _ _ _ Hc 0%nat []) by (lia || by rewrite drop_0, app_nil_r). cbn [rbind Nat.add].
  by rewrite Nat.eqb_refl.
Qed.

Lemma decode_of_encode v b : well_typed v -> encode_value v = Ok b -> decode_value b = Ok (normalize v).
Proof. intros Hwt (-> & Hc & Hlen)%encode_canonical; [|done]. by apply decode_spec_bytes. Qed.

Lemma decode_canonical b v : decode_value b = Ok v ->
  b = spec_bytes v /\ canonical CANONICAL_NESTING_DEPTH v /\ len b <= CANONICAL_ENVELOPE_MAX_BYTES.
Proof.
  unfold decode_value. intros HH. step HH. destruct a. apply limit_check in E. step HH. destruct a as [v' o]. step HH.
  injection HH as <-. apply reject_if_Ok, negb_false_iff, Nat.eqb_eq in E1. subst o.
  apply item_sound in E0 as (Hc & _ & _ & Hs); [|lia]. rewrite slice_all in Hs. done.
Qed.

Lemma encode_of_decode b v : decode_value b = Ok v -> encode_value v = Ok b.
Proof.
  intros (-> & Hc & Hlen)%decode_canonical. unfold encode_value.
  rewrite (writer_complete v _ Hc 0%nat _) by done. done.
Qed.
End Decode.
