(* ===== verification/Serializer.v ===== *)
(** * The canonical serializer

    Models [cbor/ser.rs] and [encode] of [cbor/mod.rs].  A value of a
    [Serialize] type is the tree of [Serializer] calls it makes ([SerdeTree]): the
    implementations are derived by the [serde] macros, the serializer that
    answers the calls is the code of this file.  The result of serializing is
    always in canonical order, so encoding and decoding return it unchanged. *)

From stdpp Require Import sorting.
From S2P Require Import Prelude Ids Floats Cbor CborCodec CborDecode.

Local Open Scope N_scope.

(** The calls of [serde::Serializer].  The calls a map makes are tagged: [true]
    is [serialize_key], [false] is [serialize_value]. *)
Inductive SerdeTree : Type :=
| Serde_bool (value : bool)
| Serde_i64 (value : Z)
| Serde_i128
| Serde_u64 (value : N)
| Serde_u128
| Serde_f32 (bits : N)
| Serde_f64 (bits : N)
| Serde_str (value : bytes)
| Serde_bytes (value : bytes)
| Serde_none
| Serde_some (value : SerdeTree)
| Serde_unit
| Serde_unit_variant (variant : bytes)
| Serde_newtype_struct (value : SerdeTree)
| Serde_newtype_variant (variant : bytes) (value : SerdeTree)
| Serde_seq (expected_len : option N) (items : list SerdeTree)
| Serde_tuple_variant (variant : bytes) (expected_len : N) (items : list SerdeTree)
| Serde_map (expected_len : option N) (calls : list (bool * SerdeTree))
| Serde_struct (expected_len : N) (fields : list (bytes * SerdeTree))
| Serde_struct_variant (variant : bytes) (expected_len : N) (fields : list (bytes * SerdeTree))
| Serde_error (message : string).

Definition check_array_len (expected : option N) : presult unit :=
  reject_if (is_some_and expected (fun count => CANONICAL_ARRAY_MAX_ITEMS <? count))
    (ProtocolError_LimitExceeded "array_items" CANONICAL_ARRAY_MAX_ITEMS).

Definition check_map_len (expected : option N) : presult unit :=
  reject_if (is_some_and expected (fun count => CANONICAL_MAP_MAX_ENTRIES <? count))
    (ProtocolError_LimitExceeded "map_entries" CANONICAL_MAP_MAX_ENTRIES).

Definition check_actual_len (expected : option N) (actual : N) : presult unit :=
  reject_if (is_some_and expected (fun expected => negb (expected =? actual)))
    (ProtocolError_Codec "collection length hint mismatch").

(** [CanonicalSerializer::nested]; the serializer is its depth. *)
Definition nested (depth : nat) : presult nat := enter_depth depth.

Definition serialize_i64 (value : Z) : CanonicalValue :=
  if (0 <=? value)%Z then CanonicalValue_Unsigned (Z.to_N value)
  else CanonicalValue_Negative (Z.to_N (Z.lnot value)).

Definition serialize_f64 (bits : N) : presult CanonicalValue :=
  do? reject_if (negb (f64_is_finite bits)) (ProtocolError_InvalidCbor "non_finite_float") in
  Ok (CanonicalValue_Float bits).

Definition serialize_str (value : bytes) : presult CanonicalValue :=
  do? reject_if (CANONICAL_STRING_MAX_BYTES <? len value)
        (ProtocolError_LimitExceeded "text_string" CANONICAL_STRING_MAX_BYTES) in
  Ok (CanonicalValue_Text value).

Definition serialize_bytes (value : bytes) : presult CanonicalValue :=
  do? reject_if (CANONICAL_STRING_MAX_BYTES <? len value)
        (ProtocolError_LimitExceeded "byte_string" CANONICAL_STRING_MAX_BYTES) in
  Ok (CanonicalValue_Bytes value).

(** [serialize_element] of [SerializeVec] and [serialize_field] of [SerializeNamedVec]. *)
Definition push_item (items : list CanonicalValue) (value : presult CanonicalValue) : presult (list CanonicalValue) :=
  do? reject_if (CANONICAL_ARRAY_MAX_ITEMS <=? len items)
        (ProtocolError_LimitExceeded "array_items" CANONICAL_ARRAY_MAX_ITEMS) in
  let? value := value in
  Ok (items ++ [value]).

(** The fields of [SerializeEntries]. *)
Notation Entries := (list (CanonicalValue * CanonicalValue) * option CanonicalValue)%type.

Definition serialize_key (st : Entries) (key : presult CanonicalValue) : presult Entries :=
  do? reject_if (is_some st.2) (ProtocolError_Codec "map key without value") in
  let? key := key in
  Ok (st.1, Some key).

Definition serialize_value (st : Entries) (value : presult CanonicalValue) : presult Entries :=
  let? key := ok_or st.2 (ProtocolError_Codec "map value without key") in
  do? reject_if (CANONICAL_MAP_MAX_ENTRIES <=? len st.1)
        (ProtocolError_LimitExceeded "map_entries" CANONICAL_MAP_MAX_ENTRIES) in
  let? value := value in
  Ok (st.1 ++ [(key, value)], None).

(** [serialize_field] of [SerializeNamedEntries]. *)
Definition push_field (entries : list (CanonicalValue * CanonicalValue)) (key : bytes)
    (value : presult CanonicalValue) : presult (list (CanonicalValue * CanonicalValue)) :=
  do? reject_if (CANONICAL_MAP_MAX_ENTRIES <=? len entries)
        (ProtocolError_LimitExceeded "map_entries" CANONICAL_MAP_MAX_ENTRIES) in
  let? value := value in
  Ok (entries ++ [(CanonicalValue_Text key, value)]).

Section Serializer.
Context `{Half}.

(** [SerializeMap::end]. *)
Definition end_map (expected_len : option N) (st : Entries) : presult CanonicalValue :=
  do? reject_if (is_some st.2) (ProtocolError_Codec "map key without value") in
  do? check_actual_len expected_len (len st.1) in
  let? entries := sort_map st.1 in
  Ok (CanonicalValue_Map entries).

Definition variant_map (variant : bytes) (value : CanonicalValue) : CanonicalValue :=
  CanonicalValue_Map [(CanonicalValue_Text variant, value)].

(** The [Serializer] implementation, driven by the calls of the value. *)
Fixpoint serialize (value : SerdeTree) (depth : nat) {struct value} : presult CanonicalValue :=
  match value with
  | Serde_bool value => Ok (CanonicalValue_Bool value)
  | Serde_i64 value => Ok (serialize_i64 value)
  | Serde_i128 | Serde_u128 => Err (ProtocolError_InvalidCbor "integer_overflow")
  | Serde_u64 value => Ok (CanonicalValue_Unsigned value)
  | Serde_f32 bits => serialize_f64 (f32_to_f64 bits)
  | Serde_f64 bits => serialize_f64 bits
  | Serde_str value => serialize_str value
  | Serde_bytes value => serialize_bytes value
  | Serde_none | Serde_unit => Ok CanonicalValue_Null
  | Serde_some value | Serde_newtype_struct value => serialize value depth
  | Serde_unit_variant variant => serialize_str variant
  | Serde_newtype_variant variant value =>
      let? inner := nested depth in
      let? value := serialize value inner in
      Ok (variant_map variant value)
  | Serde_seq expected_len items =>
      do? check_array_len expected_len in
      let? inner := nested depth in
      let? items := rfold (fun acc item => push_item acc (serialize item inner)) [] items in
      do? check_actual_len expected_len (len items) in
      Ok (CanonicalValue_Array items)
  | Serde_tuple_variant variant expected_len items =>
      do? check_array_len (Some expected_len) in
      let? inner := nested depth in
      let? inner := nested inner in
      let? items := rfold (fun acc item => push_item acc (serialize item inner)) [] items in
      do? check_actual_len (Some expected_len) (len items) in
      Ok (variant_map variant (CanonicalValue_Array items))
  | Serde_map expected_len calls =>
      do? check_map_len expected_len in
      let? inner := nested depth in
      let? st := rfold (fun st (call : bool * SerdeTree) =>
                   if call.1 then serialize_key st (serialize call.2 inner)
                   else serialize_value st (serialize call.2 inner)) ([], None) calls in
      end_map expected_len st
  | Serde_struct expected_len fields =>
      do? check_map_len (Some expected_len) in
      let? inner := nested depth in
      let? st := rfold (fun st (field : bytes * SerdeTree) =>
                   let? st := serialize_key st (serialize_str field.1) in
                   serialize_value st (serialize field.2 inner)) ([], None) fields in
      end_map (Some expected_len) st
  | Serde_struct_variant variant expected_len fields =>
      do? check_map_len (Some expected_len) in
      let? inner := nested depth in
      let? inner := nested inner in
      let? entries := rfold (fun acc (field : bytes * SerdeTree) => push_field acc field.1 (serialize field.2 inner))
                        [] fields in
      do? check_actual_len (Some expected_len) (len entries) in
      let? entries := sort_map entries in
      Ok (variant_map variant (CanonicalValue_Map entries))
  | Serde_error message => Err (ProtocolError_Codec message)
  end.

Definition to_canonical (value : SerdeTree) : presult CanonicalValue := serialize value 0.

(** [encode]. *)
Definition encode (value : SerdeTree) : presult bytes :=
  let? tree := to_canonical value in
  let? b := encode_value tree in
  do? reject_if (CANONICAL_ENVELOPE_MAX_BYTES <? len b)
        (ProtocolError_LimitExceeded "canonical_envelope" CANONICAL_ENVELOPE_MAX_BYTES) in
  Ok b.
(** ** Serialized values are canonical *)

(** What the types of the source guarantee of a call tree. *)
Inductive serde_typed : SerdeTree -> Prop :=
| st_bool b : serde_typed (Serde_bool b)
| st_i64 z : is_i64 z -> serde_typed (Serde_i64 z)
| st_i128 : serde_typed Serde_i128
| st_u64 n : n < 2 ^ 64 -> serde_typed (Serde_u64 n)
| st_u128 : serde_typed Serde_u128
| st_f32 bits : bits < 2 ^ 32 -> serde_typed (Serde_f32 bits)
| st_f64 bits : bits < 2 ^ 64 -> serde_typed (Serde_f64 bits)
| st_str t : utf8_valid t = true -> serde_typed (Serde_str t)
| st_bytes b : serde_typed (Serde_bytes b)
| st_none : serde_typed Serde_none
| st_some t : serde_typed t -> serde_typed (Serde_some t)
| st_unit : serde_typed Serde_unit
| st_unit_variant v : utf8_valid v = true -> serde_typed (Serde_unit_variant v)
| st_newtype_struct t : serde_typed t -> serde_typed (Serde_newtype_struct t)
| st_newtype_variant v t : utf8_valid v = true -> serde_typed t -> serde_typed (Serde_newtype_variant v t)
| st_seq n items : Forall serde_typed items -> serde_typed (Serde_seq n items)
| st_tuple_variant v n items : utf8_valid v = true -> Forall serde_typed items -> serde_typed (Serde_tuple_variant v n items)
| st_map n calls : Forall (fun c => serde_typed c.2) calls -> serde_typed (Serde_map n calls)
| st_struct n fields : Forall (fun f => utf8_valid f.1 = true /\ serde_typed f.2) fields -> serde_typed (Serde_struct n fields)
| st_struct_variant v n fields : utf8_valid v = true ->
    Forall (fun f => utf8_valid f.1 = true /\ serde_typed f.2) fields -> serde_typed (Serde_struct_variant v n fields)
| st_error m : serde_typed (Serde_error m).

(** Well typed and already in canonical order. *)
Definition settled (v : CanonicalValue) : Prop := well_typed v /\ normalize v = v.
Definition settled_entry (e : CanonicalValue * CanonicalValue) : Prop := settled e.1 /\ settled e.2.

Lemma settled_entries entries : Forall settled_entry entries -> normalize_entry <$> entries = entries.
Proof.
  intros Hall. apply fmap_id_on. eapply Forall_impl; [exact Hall|]. intros [k v] [[_ Hk] [_ Hv]].
  unfold normalize_entry. cbn [fst snd] in *. by rewrite Hk, Hv.
Qed.

Lemma settled_array items : Forall settled items -> settled (CanonicalValue_Array items).
Proof.
  intros Hall. split; [constructor; eapply Forall_impl; [exact Hall|by intros ? []]|]. cbn [normalize]. f_equal.
  change (normalize <$> items = items). apply fmap_id_on. eapply Forall_impl; [exact Hall|by intros ? []].
Qed.

Lemma settled_map entries : Forall settled_entry entries -> StronglySorted bytes_lt (spec_bytes <$> entries.*1) ->
  settled (CanonicalValue_Map entries).
Proof.
  intros Hall Hs. split.
  - constructor. eapply Forall_impl; [exact Hall|]. by intros e [[? _] [? _]].
  - cbn [normalize]. f_equal. change (merge_sort entry_le (normalize_entry <$> entries) = entries).
    rewrite settled_entries by done. apply (merge_sort_strict (fun e => spec_bytes e.1)); [done..|].
    by rewrite <- list_fmap_compose in Hs.
Qed.

Lemma settled_variant variant v : utf8_valid variant = true -> settled v -> settled (variant_map variant v).
Proof.
  intros Hu Hv. apply settled_map; [|cbn; repeat constructor].
  constructor; [|done]. split; [|done]. split; [by constructor|done].
Qed.

Lemma settled_str value v : utf8_valid value = true -> serialize_str value = Ok v -> settled v.
Proof. intros Hu HH. unfold serialize_str in HH. step HH. injection HH as <-. split; [by constructor|done]. Qed.
End Serializer.

Section Settled.
Context `{HalfLaws}.

Lemma keyed_loop entries keyed keyed' : Forall settled_entry entries ->
  rfold (fun keyed (entry : CanonicalValue * CanonicalValue) =>
           let? encoded := encode_value entry.1 in Ok (keyed ++ [(encoded, entry)])) keyed entries = Ok keyed' ->
  keyed' = keyed ++ ((fun e => (spec_bytes e.1, e)) <$> entries).
Proof.
  revert keyed. induction entries as [|e entries IH]; intros keyed Hall HH; cbn [rfold] in HH.
  { injection HH as <-. by rewrite app_nil_r. }
  apply Forall_cons in Hall as [[[Hwt Hn] _] Hall]. step HH. step E. injection E as <-.
  apply encode_canonical in E0 as (-> & _ & _); [|done]. rewrite Hn in HH. apply IH in HH as ->; [|done].
  by rewrite <- app_assoc.
Qed.

Lemma sort_map_settled entries sorted : Forall settled_entry entries -> sort_map entries = Ok sorted ->
  sorted ≡ₚ entries /\ settled (CanonicalValue_Map sorted).
Proof.
  intros Hall HH. unfold sort_map in HH. step HH. step HH. step HH. injection HH as <-.
  apply keyed_loop in E0 as ->; [|done]. cbn [app] in *. apply reject_if_Ok in E1.
  set (keyed := (fun e => (spec_bytes e.1, e)) <$> entries) in *.
  set (ordered := merge_sort key_le keyed) in *.
  assert (ordered ≡ₚ keyed) as Hp by apply merge_sort_Permutation.
  assert (ordered.*2 ≡ₚ entries) as Hperm.
  { rewrite Hp. unfold keyed. rewrite <- list_fmap_compose. by rewrite list_fmap_id. }
  split; [done|]. apply settled_map; [by rewrite Hperm|].
  assert (spec_bytes <$> ordered.*2.*1 = ordered.*1) as ->.
  { rewrite <- !list_fmap_compose. apply list_fmap_ext. intros i [k e] Hi. apply list_elem_of_lookup_2 in Hi.
    rewrite Hp in Hi. apply list_elem_of_fmap in Hi as (e' & [= -> ->] & _). done. }
  apply adjacent_strict; [|done].
  assert (Sorted key_le ordered) as Hs by apply Sorted_merge_sort, _.
  clear -Hs. induction Hs as [|a l Hs IH Hh]; [constructor|]. cbn [fmap list_fmap]. constructor; [done|].
  by destruct Hh; constructor.
Qed.

Definition serializes (t : SerdeTree) : Prop := forall depth v, serialize t depth = Ok v -> settled v.

Lemma items_settled inner items acc acc' :
  Forall serializes items -> Forall settled acc ->
  rfold (fun acc item => push_item acc (serialize item inner)) acc items = Ok acc' -> Forall settled acc'.
Proof.
  intros Hi. revert acc. induction Hi as [|t items Ht Hi IH]; intros acc Hacc HH; cbn [rfold] in HH; [by injection HH as <-|].
  step HH. unfold push_item in E. step E. step E. injection E as <-. apply Ht in E1. apply IH in HH; [done|].
  by apply Forall_app_2; [|constructor].
Qed.

Lemma push_fields_settled inner fields acc acc' :
  Forall (fun f => utf8_valid f.1 = true /\ serializes f.2) fields -> Forall settled_entry acc ->
  rfold (fun acc (field : bytes * SerdeTree) => push_field acc field.1 (serialize field.2 inner)) acc fields = Ok acc' ->
  Forall settled_entry acc'.
Proof.
  intros Hf. revert acc. induction Hf as [|[k t] fields [Hk Ht] Hf IH]; intros acc Hacc HH; cbn [rfold] in HH; [by injection HH as <-|].
  step HH. unfold push_field in E. step E. step E. injection E as <-. apply Ht in E1. apply IH in HH; [done|].
  apply Forall_app_2; [done|]. constructor; [|done]. split; [|done]. split; [by constructor|done].
Qed.

Definition settled_state (st : Entries) : Prop := Forall settled_entry st.1 /\ forall k, st.2 = Some k -> settled k.

Lemma settled_start : settled_state ([], None).
Proof. split; [constructor|done]. Qed.

Lemma key_settled st t st' : settled_state st -> (forall v, t = Ok v -> settled v) -> serialize_key st t = Ok st' -> settled_state st'.
Proof.
  intros [Hst _] Ht HH. unfold serialize_key in HH. step HH. step HH. injection HH as <-. split; [done|].
  intros k [= <-]. by apply Ht.
Qed.

Lemma value_settled st t st' : settled_state st -> (forall v, t = Ok v -> settled v) -> serialize_value st t = Ok st' -> settled_state st'.
Proof.
  intros [Hst Hk] Ht HH. unfold serialize_value in HH. step HH. step HH. step HH. injection HH as <-.
  apply ok_or_Ok in E. split; [|done]. apply Forall_app_2; [done|]. constructor; [|done]. split; [by apply Hk|by apply Ht].
Qed.

Lemma end_map_settled n st v : settled_state st -> end_map n st = Ok v -> settled v.
Proof.
  intros [Hst _] HH. unfold end_map in HH. step HH. step HH. step HH. injection HH as <-.
  by apply sort_map_settled in E1 as [_ ?].
Qed.

Lemma calls_settled inner calls st st' :
  Forall (fun c => serializes c.2) calls -> settled_state st ->
  rfold (fun st (call : bool * SerdeTree) =>
           if call.1 then serialize_key st (serialize call.2 inner)
           else serialize_value st (serialize call.2 inner)) st calls = Ok st' -> settled_state st'.
Proof.
  intros Hc. revert st. induction Hc as [|[k t] calls Ht Hc IH]; intros st Hst HH; cbn [rfold] in HH; [by injection HH as <-|].
  step HH. apply IH in HH; [done|]. cbn [fst snd] in E. destruct k.
  - apply key_settled in E; [done..|]. apply Ht.
  - apply value_settled in E; [done..|]. apply Ht.
Qed.

Lemma fields_settled inner fields st st' :
  Forall (fun f => utf8_valid f.1 = true /\ serializes f.2) fields -> settled_state st ->
  rfold (fun st (field : bytes * SerdeTree) =>
           let? st := serialize_key st (serialize_str field.1) in
           serialize_value st (serialize field.2 inner)) st fields = Ok st' -> settled_state st'.
Proof.
  intros Hf. revert st. induction Hf as [|[k t] fields [Hk Ht] Hf IH]; intros st Hst HH; cbn [rfold] in HH; [by injection HH as <-|].
  step HH. apply IH in HH; [done|]. step E. apply key_settled in E0; [|done|intros v; by apply settled_str].
  apply value_settled in E; [done..|]. apply Ht.
Qed.
(** Induction over call trees. *)
Section SerdeInd.
Variable P : SerdeTree -> Prop.
Hypothesis Hleaf : forall t, match t with
  | Serde_some _ | Serde_newtype_struct _ | Serde_newtype_variant _ _ | Serde_seq _ _ | Serde_tuple_variant _ _ _
  | Serde_map _ _ | Serde_struct _ _ | Serde_struct_variant _ _ _ => True
  | _ => P t
  end.
Hypothesis Hsome : forall t, P t -> P (Serde_some t).
Hypothesis Hstruct : forall t, P t -> P (Serde_newtype_struct t).
Hypothesis Hvariant : forall v t, P t -> P (Serde_newtype_variant v t).
Hypothesis Hseq : forall n items, Forall P items -> P (Serde_seq n items).
Hypothesis Htuple : forall v n items, Forall P items -> P (Serde_tuple_variant v n items).
Hypothesis Hmap : forall n calls, Forall (fun c => P c.2) calls -> P (Serde_map n calls).
Hypothesis Hfields : forall n fields, Forall (fun f => P f.2) fields -> P (Serde_struct n fields).
Hypothesis Hvfields : forall v n fields, Forall (fun f => P f.2) fields -> P (Serde_struct_variant v n fields).

Fixpoint serde_ind (t : SerdeTree) : P t :=
  let all := fix go l : Forall P l :=
    match l with [] => Forall_nil_2 P | x :: l => Forall_cons_2 P x l (serde_ind x) (go l) end in
  let all_calls := fix go (l : list (bool * SerdeTree)) : Forall (fun c => P c.2) l :=
    match l with [] => Forall_nil_2 _ | c :: l => Forall_cons_2 _ c l (serde_ind c.2) (go l) end in
  let all_fields := fix go (l : list (bytes * SerdeTree)) : Forall (fun f => P f.2) l :=
    match l with [] => Forall_nil_2 _ | f :: l => Forall_cons_2 _ f l (serde_ind f.2) (go l) end in
  match t with
  | Serde_some t => Hsome t (serde_ind t)
  | Serde_newtype_struct t => Hstruct t (serde_ind t)
  | Serde_newtype_variant v t => Hvariant v t (serde_ind t)
  | Serde_seq n items => Hseq n items (all items)
  | Serde_tuple_variant v n items => Htuple v n items (all items)
  | Serde_map n calls => Hmap n calls (all_calls calls)
  | Serde_struct n fields => Hfields n fields (all_fields fields)
  | Serde_struct_variant v n fields => Hvfields v n fields (all_fields fields)
  | t => Hleaf t
  end.
End SerdeInd.

Lemma typed_fields fields :
  Forall (fun f : bytes * SerdeTree => serde_typed f.2 -> serializes f.2) fields ->
  Forall (fun f => utf8_valid f.1 = true /\ serde_typed f.2) fields ->
  Forall (fun f => utf8_valid f.1 = true /\ serializes f.2) fields.
Proof. rewrite !Forall_forall. intros IH Ht f Hf. destruct (Ht f Hf). auto. Qed.

Lemma leaf_settled bits v : bits < 2 ^ 64 -> serialize_f64 bits = Ok v -> settled v.
Proof. intros Hb HH. unfold serialize_f64 in HH. step HH. injection HH as <-. split; [by constructor|done]. Qed.

Lemma serialize_settled t : serde_typed t -> serializes t.
Proof.
  revert t. apply (serde_ind (fun t => serde_typed t -> serializes t)); [intros t|intros t IH|intros t IH|intros v t IH|intros n items IH|intros v n items IH
    |intros n calls IH|intros n fields IH|intros v n fields IH].
  - destruct t; try exact I; intros Ht depth v HH; inversion Ht; subst; cbn [serialize] in HH;
      try discriminate HH; try (injection HH as <-; split; [by constructor|done]).
    + injection HH as <-. unfold serialize_i64. unfold is_i64, i64_min, i64_max in *.
      destruct (Z.leb_spec 0 value); split; try done; constructor; unfold Z.lnot; lia.
    + by apply leaf_settled in HH; [|apply f32_to_f64_bits].
    + by apply leaf_settled in HH.
    + by apply settled_str in HH.
    + unfold serialize_bytes in HH. step HH. injection HH as <-. split; [by constructor|done].
    + by apply settled_str in HH.
  - intros Ht. inversion Ht; subst. intros depth v HH. by apply (IH ltac:(done) depth).
  - intros Ht. inversion Ht; subst. intros depth v HH. by apply (IH ltac:(done) depth).
  - intros Ht. inversion Ht; subst. intros depth w HH. cbn [serialize] in HH. step HH. step HH. injection HH as <-.
    apply settled_variant; [done|]. by eapply IH.
  - intros Ht. inversion Ht; subst. intros depth w HH. cbn [serialize] in HH. do 4 step HH. injection HH as <-.
    apply settled_array. eapply items_settled; [|constructor|exact E1]. rewrite Forall_forall in *. auto.
  - intros Ht. inversion Ht; subst. intros depth w HH. cbn [serialize] in HH. do 5 step HH. injection HH as <-.
    apply settled_variant; [done|]. apply settled_array. eapply items_settled; [|constructor|exact E2].
    rewrite Forall_forall in *. auto.
  - intros Ht. inversion Ht; subst. intros depth w HH. cbn [serialize] in HH. do 3 step HH.
    eapply end_map_settled; [|exact HH]. eapply calls_settled; [|apply settled_start|exact E1]. rewrite Forall_forall in *. auto.
  - intros Ht. inversion Ht; subst. intros depth w HH. cbn [serialize] in HH. do 3 step HH.
    eapply end_map_settled; [|exact HH]. eapply fields_settled; [|apply settled_start|exact E1]. by apply typed_fields.
  - intros Ht. inversion Ht; subst. intros depth w HH. cbn [serialize] in HH. do 6 step HH. injection HH as <-.
    apply settled_variant; [done|]. apply push_fields_settled in E2; [|by apply typed_fields|constructor].
    by apply sort_map_settled in E4 as [_ ?].
Qed.

(** The encoded bytes of a value decode to the tree it serialized to. *)
Lemma encode_decode_tree t b : serde_typed t -> encode t = Ok b ->
  exists v, to_canonical t = Ok v /\ decode_value b = Ok v.
Proof.
  intros Ht HH. unfold encode in HH. step HH. step HH. step HH. injection HH as <-. exists a. split; [done|].
  destruct (serialize_settled t Ht 0%nat a E) as [Hwt Hn]. rewrite <- Hn. by apply decode_of_encode.
Qed.

Lemma encode_length t b : encode t = Ok b -> len b <= CANONICAL_ENVELOPE_MAX_BYTES.
Proof. unfold encode. intros HH. step HH. step HH. step HH. injection HH as <-. by apply reject_if_Ok, N.ltb_ge in E1. Qed.

(** Two values with the same encoding serialize to the same tree. *)
Lemma encode_inj t1 t2 b : serde_typed t1 -> serde_typed t2 -> encode t1 = Ok b -> encode t2 = Ok b ->
  to_canonical t1 = to_canonical t2.
Proof.
  intros H1 H2 E1 E2. apply encode_decode_tree in E1 as (v1 & -> & D1); [|done].
  apply encode_decode_tree in E2 as (v2 & -> & D2); [|done]. congruence.
Qed.
End Settled.
