(* ===== verification/Framing.v ===== *)
(** * Frames and version negotiation

    Models [wire/frame.rs] and [wire/handshake.rs] of [finstack-ai-protocol]:
    the length-prefixed frame, the family-tagged envelope and the negotiation of
    a protocol version.  The typed decoder of an envelope body is an argument of
    [decode_envelope]. *)

From stdpp Require Import sorting.
From S2P Require Import Prelude Primitives Ids Floats Cbor CborCodec.

(** ** Frames *)

Definition PRE_AUTH_FRAME_MAX_BYTES : N := 16 * 1024.
Definition POST_AUTH_FRAME_MAX_BYTES : N := 256 * 1024.
Definition FRAME_LENGTH_BYTES : nat := 4.

Definition frame_limit (ceiling : N) : ProtocolError := ProtocolError_LimitExceeded "frame_payload" ceiling.

Definition checked_len (length ceiling : N) : presult N :=
  do? reject_if (ceiling <? length)%N (frame_limit ceiling) in
  do? reject_if (2 ^ 32 - 1 <? length)%N (frame_limit ceiling) in
  Ok length.

Definition encode_frame (payload : bytes) (ceiling : N) : presult bytes :=
  let? declared := checked_len (len payload) ceiling in
  Ok (be 4 declared ++ payload).

Definition decode_frame_len (header : bytes) (ceiling : N) : presult N :=
  let declared := from_be header in
  do? checked_len declared ceiling in
  Ok declared.

Definition decode_frame (b : bytes) (ceiling : N) : presult bytes :=
  do? reject_if (length b <? FRAME_LENGTH_BYTES)%nat (ProtocolError_InvalidFrame "truncated_frame") in
  let header := take FRAME_LENGTH_BYTES b in
  let? declared := decode_frame_len header ceiling in
  let rest := drop FRAME_LENGTH_BYTES b in
  do? reject_if (negb (len rest =? declared)%N) (ProtocolError_InvalidFrame "frame_length_mismatch") in
  Ok rest.

(** ** Envelopes *)

Definition PROTOCOL_VERSION_V1 : Z := 1.

Inductive PayloadFamily : Type :=
| PayloadFamily_Remote
| PayloadFamily_Process.
#[global] Instance PayloadFamily_eq_dec : EqDecision PayloadFamily.
Proof. solve_decision. Defined.

Record ProtocolEnvelope (T : Type) : Type := mkProtocolEnvelope {
  pe_payload_family : PayloadFamily;
  pe_protocol_version : Z;
  pe_body : T
}.
Arguments mkProtocolEnvelope {T}.
Arguments pe_payload_family {T}.
Arguments pe_protocol_version {T}.
Arguments pe_body {T}.

Definition decode_envelope {T} (decode : bytes -> presult (ProtocolEnvelope T)) (b : bytes)
    (expected_family : PayloadFamily) (expected_version : Z) : presult (ProtocolEnvelope T) :=
  let? envelope := decode b in
  do? reject_if (pe_payload_family envelope <>?? expected_family)
        (ProtocolError_InvalidEnvelope "wrong_payload_family") in
  do? reject_if (negb (pe_protocol_version envelope =? expected_version))
        (ProtocolError_UnsupportedVersion "unsupported_protocol_version") in
  Ok envelope.

(** ** Version offers *)

Definition VERSION_OFFER_MAX_VERSIONS : nat := 16.
Definition VERSION_OFFER_MAX_FEATURES : nat := 64.

Record VersionOffer : Type := mkVersionOffer {
  vo_supported_versions : list Z;
  vo_downgrade_floor : Z;
  vo_features : list string
}.

(** The byte order of text. *)
Definition text_le (a b : string) : Prop :=
  bytes_le (String.list_ascii_of_string a) (String.list_ascii_of_string b) = true.
#[global] Instance text_le_dec : RelDecision text_le := fun a b =>
  decide (bytes_le (String.list_ascii_of_string a) (String.list_ascii_of_string b) = true).

Definition VersionOffer_try_new (supported_versions : list Z) (downgrade_floor : Z) (features : list string)
    : presult VersionOffer :=
  do? reject_if ((length supported_versions =? 0)%nat || (VERSION_OFFER_MAX_VERSIONS <? length supported_versions)%nat)
        (ProtocolError_InvalidMessage "invalid_version_offer_size") in
  do? reject_if ((downgrade_floor =? 0) || existsb (Z.eqb 0) supported_versions)
        (ProtocolError_InvalidMessage "zero_protocol_version") in
  do? reject_if (VERSION_OFFER_MAX_FEATURES <? length features)%nat
        (ProtocolError_InvalidMessage "too_many_protocol_features") in
  do? reject_if (existsb (fun feature => negb (label_is_valid feature)) features)
        (ProtocolError_InvalidMessage "invalid_protocol_feature") in
  let supported_versions := dedup (merge_sort Z.ge supported_versions) in
  let features := dedup (merge_sort text_le features) in
  do? reject_if (negb (existsb (fun version => downgrade_floor <=? version) supported_versions))
        (ProtocolError_InvalidMessage "version_below_floor") in
  Ok (mkVersionOffer supported_versions downgrade_floor features).

(** [Deserialize]: only a normalized offer is accepted. *)
Definition VersionOffer_deserialize (wire : VersionOffer) : presult VersionOffer :=
  let? normalized := VersionOffer_try_new (vo_supported_versions wire) (vo_downgrade_floor wire) (vo_features wire) in
  do? reject_if ((vo_supported_versions normalized <>?? vo_supported_versions wire)
                 || (vo_features normalized <>?? vo_features wire))
        (ProtocolError_Codec "version offer is not normalized") in
  Ok normalized.

(** [Iterator::max]. *)
Fixpoint iter_max (l : list Z) : option Z :=
  match l with
  | [] => None
  | a :: l => match iter_max l with Some m => Some (Z.max a m) | None => Some a end
  end.

Definition mutual (client server : VersionOffer) (version : Z) : bool :=
  (vo_downgrade_floor client <=? version) && (vo_downgrade_floor server <=? version)
  && existsb (Z.eqb version) (vo_supported_versions server).

Definition select_version (client server : VersionOffer) : presult Z :=
  ok_or (iter_max (List.filter (mutual client server) (vo_supported_versions client)))
    (ProtocolError_UnsupportedVersion "unknown_protocol_version").

Definition require_feature (offered : VersionOffer) (u : unit) (feature : string) : presult unit :=
  reject_if (negb (existsb (eqb feature) (vo_features offered)))
    (ProtocolError_InvalidMessage "missing_mandatory_feature").

Definition require_features (offered : VersionOffer) (mandatory : list string) : presult unit :=
  rfold (require_feature offered) tt mandatory.

(** ** Frame lemmas *)

Lemma checked_len_Ok n ceiling m : checked_len n ceiling = Ok m <-> m = n /\ (n <= ceiling)%N /\ (n < 2 ^ 32)%N.
Proof.
  unfold checked_len. destruct (N.ltb_spec ceiling n), (N.ltb_spec (2 ^ 32 - 1) n); cbn [reject_if rbind];
    split; try done; try (intros (_ & ? & ?); lia).
  - intros [= <-]. split_and!; [done|lia|lia].
  - by intros [-> _].
Qed.

Lemma frame_roundtrip payload ceiling frame : encode_frame payload ceiling = Ok frame -> decode_frame frame ceiling = Ok payload.
Proof.
  unfold encode_frame. intros HH. step HH. apply Ok_inj in HH as <-. destruct (proj1 (checked_len_Ok _ _ _) E) as (-> & Hle & Hlt).
  unfold decode_frame. rewrite length_app, be_length. cbn [FRAME_LENGTH_BYTES Nat.add Nat.ltb Nat.leb reject_if rbind].
  unfold FRAME_LENGTH_BYTES. rewrite take_app_length', drop_app_length' by by rewrite be_length.
  unfold decode_frame_len. rewrite from_be_be by done. rewrite E. cbn [rbind]. rewrite N.eqb_refl. done.
Qed.

Lemma frame_canonical frame ceiling payload : decode_frame frame ceiling = Ok payload -> encode_frame payload ceiling = Ok frame.
Proof.
  unfold decode_frame. intros HH. step HH. step HH. step HH. apply Ok_inj in HH as <-.
  apply reject_if_Ok, Nat.ltb_ge in E. apply reject_if_Ok, negb_false_iff, N.eqb_eq in E1.
  unfold decode_frame_len in E0. step E0. apply Ok_inj in E0 as <-. destruct (proj1 (checked_len_Ok _ _ _) E2) as (-> & Hle & Hlt).
  unfold encode_frame. rewrite E1. rewrite (proj2 (checked_len_Ok _ _ _) (conj eq_refl (conj Hle Hlt))). cbn [rbind].
  unfold FRAME_LENGTH_BYTES in *. rewrite be_from_be by (rewrite length_take; lia). by rewrite take_drop.
Qed.

Lemma encode_frame_Err payload ceiling :
  encode_frame payload ceiling = Err (frame_limit ceiling) <-> (ceiling < len payload \/ 2 ^ 32 <= len payload)%N.
Proof.
  unfold encode_frame, checked_len. destruct (N.ltb_spec ceiling (len payload)), (N.ltb_spec (2 ^ 32 - 1) (len payload));
    cbn [reject_if rbind]; split; try done; intros; lia.
Qed.

(** ** Negotiation lemmas *)

Lemma iter_max_Some l m : iter_max l = Some m <-> m ∈ l /\ forall x, x ∈ l -> x <= m.
Proof.
  revert m. induction l as [|a l IH]; intros m; cbn [iter_max].
  { split; [done|]. intros [Hm _]. by apply not_elem_of_nil in Hm. }
  destruct (iter_max l) as [n|] eqn:Hn.
  - destruct (proj1 (IH n) eq_refl) as [Hin Hmax]. split.
    + intros [= <-]. split; [destruct (Z.max_spec a n) as [[_ ->]|[_ ->]]; set_solver|].
      intros x [->|Hx]%elem_of_cons; [lia|]. specialize (Hmax x Hx). lia.
    + intros [Hm Hall]. f_equal. apply Z.le_antisymm.
      * pose proof (Hall a ltac:(set_solver)). pose proof (Hall n ltac:(set_solver)). lia.
      * apply elem_of_cons in Hm as [->|Hm]; [lia|]. specialize (Hmax m Hm). lia.
  - assert (l = []) as -> by (destruct l as [|b l]; [done|]; cbn [iter_max] in Hn; by destruct (iter_max l)).
    split; [intros [= <-]; set_solver|]. intros [->%list_elem_of_singleton _]. done.
Qed.

Lemma existsb_eqb z l : existsb (Z.eqb z) l = true <-> z ∈ l.
Proof.
  rewrite existsb_exists. split; [intros (x & Hx & ->%Z.eqb_eq); by apply list_elem_of_In|].
  intros Hin. exists z. split; [by apply list_elem_of_In|apply Z.eqb_refl].
Qed.

Definition shared (client server : VersionOffer) (version : Z) : Prop :=
  version ∈ vo_supported_versions client /\ version ∈ vo_supported_versions server /\
  vo_downgrade_floor client <= version /\ vo_downgrade_floor server <= version.

Lemma mutual_elem client server v :
  v ∈ List.filter (mutual client server) (vo_supported_versions client) <-> shared client server v.
Proof.
  rewrite list_elem_of_In, filter_In, <- list_elem_of_In. unfold mutual, shared.
  rewrite !andb_true_iff, !Z.leb_le, existsb_eqb. tauto.
Qed.

Lemma select_version_spec client server v :
  select_version client server = Ok v <-> shared client server v /\ forall w, shared client server w -> w <= v.
Proof.
  unfold select_version. rewrite ok_or_Ok, iter_max_Some, mutual_elem. by setoid_rewrite mutual_elem.
Qed.

Lemma select_version_none client server :
  (forall v, ~ shared client server v) <->
  select_version client server = Err (ProtocolError_UnsupportedVersion "unknown_protocol_version").
Proof.
  unfold select_version. split.
  - intros Hno. destruct (iter_max _) as [m|] eqn:Hm; [|done]. apply iter_max_Some in Hm as [Hm%mutual_elem _]. by apply Hno in Hm.
  - intros Herr v Hv%mutual_elem. destruct (iter_max _) eqn:Hm; [done|]. clear Herr.
    destruct (List.filter (mutual client server) (vo_supported_versions client)) as [|a l]; [by apply not_elem_of_nil in Hv|].
    cbn [iter_max] in Hm. by destruct (iter_max l).
Qed.

(** Negotiation does not depend on who offers. *)
Lemma select_version_sym client server : select_version client server = select_version server client.
Proof.
  assert (forall v, shared client server v <-> shared server client v) as Hsym by (unfold shared; tauto).
  destruct (select_version client server) as [v|e] eqn:H1.
  - symmetry. apply select_version_spec in H1 as [Hs Hm]. apply select_version_spec. split; [by apply Hsym|].
    intros w Hw. by apply Hm, Hsym.
  - unfold select_version in H1. destruct (iter_max _) eqn:Hm; [done|]. injection H1 as <-. symmetry.
    apply select_version_none. intros v Hv%Hsym.
    assert (select_version client server = Err (ProtocolError_UnsupportedVersion "unknown_protocol_version")) as Hn
      by (unfold select_version; by rewrite Hm).
    by apply (proj2 (select_version_none _ _) Hn v).
Qed.

Lemma require_features_spec offered mandatory :
  require_features offered mandatory = Ok tt <-> forall f, f ∈ mandatory -> f ∈ vo_features offered.
Proof.
  unfold require_features. induction mandatory as [|f mandatory IH]; cbn [rfold]; [split; [set_solver|done]|].
  rewrite rbind_Ok. unfold require_feature at 1. split.
  - intros ([] & Hf%reject_if_Ok & HH). apply negb_false_iff, existsb_exists in Hf as (x & Hx & ->%eqb_eq).
    apply list_elem_of_In in Hx. apply IH in HH || (rewrite IH in HH). set_solver.
  - intros Hall. exists tt. split; [|apply IH; set_solver]. apply reject_if_Ok, negb_false_iff, existsb_exists.
    exists f. split; [apply list_elem_of_In; set_solver|apply eqb_refl].
Qed.

(** ** Offer lemmas *)

Lemma dedup_sorted_le {A} `{EqDecision A} (R : relation A) (l : list A) : StronglySorted R l -> StronglySorted R (dedup l).
Proof.
  induction 1 as [|a l Hs IH Hall]; [constructor|]. destruct l as [|b l]; [constructor; constructor|].
  rewrite dedup_cons. destruct (eqb_reflect a b); [exact IH|]. constructor; [exact IH|].
  rewrite Forall_forall in Hall |- *. intros x Hx. apply Hall. exact (proj1 (dedup_elem _ _) Hx).
Qed.

Lemma merge_sort_sorted {A} (R : relation A) `{!RelDecision R, !Total R, !Transitive R, !AntiSymm (=) R} l :
  StronglySorted R l -> merge_sort R l = l.
Proof.
  intros Hs. apply (StronglySorted_unique R); [by apply StronglySorted_merge_sort|done|apply merge_sort_Permutation].
Qed.

Lemma sort_dedup_idemp {A} `{EqDecision A} (R : relation A) `{!RelDecision R, !Total R, !Transitive R, !AntiSymm (=) R} l :
  dedup (merge_sort R (dedup (merge_sort R l))) = dedup (merge_sort R l).
Proof.
  rewrite (merge_sort_sorted R); [apply dedup_idemp|]. apply dedup_sorted_le. by apply StronglySorted_merge_sort.
Qed.

Lemma sort_dedup_elem {A} `{EqDecision A} (R : relation A) `{!RelDecision R} l x : x ∈ dedup (merge_sort R l) <-> x ∈ l.
Proof. by rewrite dedup_elem, merge_sort_Permutation. Qed.

Lemma sort_dedup_length {A} `{EqDecision A} (R : relation A) `{!RelDecision R} l : (length (dedup (merge_sort R l)) <= length l)%nat.
Proof. etrans; [apply dedup_length|]. by rewrite merge_sort_Permutation. Qed.

Lemma sort_dedup_existsb {A} `{EqDecision A} (R : relation A) `{!RelDecision R} (p : A -> bool) l :
  existsb p (dedup (merge_sort R l)) = existsb p l.
Proof.
  apply eq_true_iff_eq. rewrite !existsb_exists. setoid_rewrite <- list_elem_of_In. by setoid_rewrite sort_dedup_elem.
Qed.

#[local] Instance text_le_total : Total text_le.
Proof. intros a b. apply bytes_le_total. Qed.
#[local] Instance text_le_trans : Transitive text_le.
Proof. intros a b c. apply bytes_le_trans. Qed.
#[local] Instance text_le_antisym : AntiSymm (=) text_le.
Proof.
  intros a b H1 H2. rewrite <- (String.string_of_list_ascii_of_string a), <- (String.string_of_list_ascii_of_string b).
  f_equal. by apply bytes_le_antisym.
Qed.
#[local] Instance ge_total : Total Z.ge.
Proof. intros a b. lia. Qed.
#[local] Instance ge_trans : Transitive Z.ge.
Proof. intros a b c. lia. Qed.
#[local] Instance ge_antisym : AntiSymm (=) Z.ge.
Proof. intros a b. lia. Qed.

(** A built offer is its own normal form. *)
Lemma try_new_normal vs floor fs o : VersionOffer_try_new vs floor fs = Ok o ->
  VersionOffer_try_new (vo_supported_versions o) (vo_downgrade_floor o) (vo_features o) = Ok o.
Proof.
  unfold VersionOffer_try_new. intros HH. do 5 step HH. apply Ok_inj in HH as <-.
  cbn [vo_supported_versions vo_downgrade_floor vo_features].
  rewrite sort_dedup_existsb in E3. rewrite (sort_dedup_idemp Z.ge), (sort_dedup_idemp text_le), !sort_dedup_existsb, E0, E2, E3.
  apply reject_if_Ok in E, E1. apply orb_false_iff in E as [En El]. apply Nat.eqb_neq in En. apply Nat.ltb_ge in El, E1.
  pose proof (sort_dedup_length Z.ge vs) as Hv. pose proof (sort_dedup_length text_le fs) as Hf.
  rewrite (proj2 (reject_if_Ok _ _ tt)); [|apply orb_false_iff; split; [|by apply Nat.ltb_ge; lia]].
  2: { apply Nat.eqb_neq. intros Hz%nil_length_inv. destruct vs as [|v vs]; [done|].
       assert (v ∈ dedup (merge_sort Z.ge (v :: vs))) as Hin by (apply sort_dedup_elem; set_solver).
       rewrite Hz in Hin. by apply not_elem_of_nil in Hin. }
  rewrite (proj2 (reject_if_Ok _ _ tt)) by (by apply Nat.ltb_ge; lia). done.
Qed.

Lemma deserialize_offer w o : VersionOffer_deserialize w = Ok o <->
  o = w /\ VersionOffer_try_new (vo_supported_versions w) (vo_downgrade_floor w) (vo_features w) = Ok w.
Proof.
  unfold VersionOffer_deserialize. split.
  - intros HH. step HH. step HH. apply Ok_inj in HH as <-. apply reject_if_Ok, orb_false_iff in E0 as [Hv Hf].
    apply negb_false_iff, eqb_eq in Hv, Hf.
    assert (vo_downgrade_floor a = vo_downgrade_floor w) as Hd.
    { unfold VersionOffer_try_new in E. do 5 step E. by apply Ok_inj in E as <-. }
    assert (a = w) as -> by (destruct a, w; cbn in *; congruence). done.
  - intros [-> HH]. rewrite HH. cbn [rbind]. by rewrite !eqb_refl.
Qed.
