(* ===== verification/Effects.v ===== *)
(** * Effects and interactions

    Data of [crates/finstack-ai-kernel/src/effects]: effect requests and their
    settlements, output contracts, and typed interactions.  [Stage] and
    [StageCursor] of [records/lifecycle.rs] come first because effect inputs
    carry the cursor of the stage that requested them. *)

From S2P Require Import Prelude Primitives.

(** ** Stage cursors *)

Inductive Stage : Type :=
| Stage_BeforeRun
| Stage_PrepareContext
| Stage_BeforeModel
| Stage_AfterModel
| Stage_BeforeToolBatch
| Stage_AfterToolBatch
| Stage_BeforeFinalize.
#[global] Instance Stage_eq_dec : EqDecision Stage.
Proof. solve_decision. Defined.

Record StageCursor : Type := mkStageCursor {
  sc_cycle : Z;
  sc_stage : Stage
}.
#[global] Instance StageCursor_eq_dec : EqDecision StageCursor.
Proof. solve_decision. Defined.

#[global] Instance Stage_countable : Countable Stage.
Proof.
  refine (inj_countable'
    (fun s => match s with
       | Stage_BeforeRun => 0 | Stage_PrepareContext => 1 | Stage_BeforeModel => 2
       | Stage_AfterModel => 3 | Stage_BeforeToolBatch => 4 | Stage_AfterToolBatch => 5
       | Stage_BeforeFinalize => 6 end%nat)
    (fun n => match n with
       | 0 => Stage_BeforeRun | 1 => Stage_PrepareContext | 2 => Stage_BeforeModel
       | 3 => Stage_AfterModel | 4 => Stage_BeforeToolBatch | 5 => Stage_AfterToolBatch
       | _ => Stage_BeforeFinalize end%nat) _).
  by intros [].
Defined.
#[global] Instance StageCursor_countable : Countable StageCursor.
Proof.
  refine (inj_countable' (fun c => (sc_cycle c, sc_stage c)) (fun p => mkStageCursor p.1 p.2) _).
  by intros [].
Defined.

(** ** Effect kinds, inputs and contracts *)

Inductive EffectKind : Type :=
| EffectKind_Model
| EffectKind_Tool
| EffectKind_Context
| EffectKind_Middleware
| EffectKind_Interaction
| EffectKind_Timer.
#[global] Instance EffectKind_eq_dec : EqDecision EffectKind.
Proof. solve_decision. Defined.

Inductive RetrySafety : Type :=
| RetrySafety_SafeToRetry
| RetrySafety_IdempotentWithKey
| RetrySafety_AtMostOnce
| RetrySafety_Unknown.
#[global] Instance RetrySafety_eq_dec : EqDecision RetrySafety.
Proof. solve_decision. Defined.

Inductive InvocationRecovery : Type :=
| InvocationRecovery_RecomputeSafe
| InvocationRecovery_Reconcile
| InvocationRecovery_NonRepeatable.
#[global] Instance InvocationRecovery_eq_dec : EqDecision InvocationRecovery.
Proof. solve_decision. Defined.

Record ComponentInvocation : Type := mkComponentInvocation {
  ci_component : ComponentId;
  ci_version : Version;
  ci_configuration_digest : Digest;
  ci_recovery : InvocationRecovery
}.
#[global] Instance ComponentInvocation_eq_dec : EqDecision ComponentInvocation.
Proof. solve_decision. Defined.

Record PipelinePosition : Type := mkPipelinePosition {
  pp_chain_digest : Digest;
  pp_stage : string;
  pp_index : Z
}.
#[global] Instance PipelinePosition_eq_dec : EqDecision PipelinePosition.
Proof. solve_decision. Defined.

Inductive NestedModelKind : Type :=
| NestedModelKind_McpSampling.
#[global] Instance NestedModelKind_eq_dec : EqDecision NestedModelKind.
Proof. solve_decision. Defined.

Inductive EffectPurpose : Type :=
| EffectPurpose_CompactionSummary (middleware_component_id : ComponentId)
| EffectPurpose_NestedModel (kind : NestedModelKind).
#[global] Instance EffectPurpose_eq_dec : EqDecision EffectPurpose.
Proof. solve_decision. Defined.

Record EffectRelation : Type := mkEffectRelation {
  er_parent_effect_id : EffectId;
  er_purpose : EffectPurpose
}.
#[global] Instance EffectRelation_eq_dec : EqDecision EffectRelation.
Proof. solve_decision. Defined.

Inductive EffectInput : Type :=
| EffectInput_Model (request : RawJson)
| EffectInput_Tool (call : ToolCallBlock)
| EffectInput_Context (cursor : StageCursor) (request : RawJson)
| EffectInput_Middleware (cursor : StageCursor) (stage : string) (input : RawJson) (resume : (option RawJson))
| EffectInput_Interaction (interaction_id : InteractionId) (request_digest : Digest)
| EffectInput_Timer (due_at : Timestamp).
#[global] Instance EffectInput_eq_dec : EqDecision EffectInput.
Proof. solve_decision. Defined.

Inductive EffectOutputKind : Type :=
| EffectOutputKind_ModelResponse
| EffectOutputKind_ToolResult
| EffectOutputKind_ContextContribution
| EffectOutputKind_MiddlewareOutcome
| EffectOutputKind_InteractionResolution
| EffectOutputKind_TimerFiring
| EffectOutputKind_ArtifactReceipt
| EffectOutputKind_Custom (key : EffectOutputKey).
#[global] Instance EffectOutputKind_eq_dec : EqDecision EffectOutputKind.
Proof. solve_decision. Defined.

Record EffectOutputContract : Type := mkEffectOutputContract {
  oc_kind : EffectOutputKind;
  oc_schema_version : Z;
  oc_schema_digest : Digest
}.
#[global] Instance EffectOutputContract_eq_dec : EqDecision EffectOutputContract.
Proof. solve_decision. Defined.

(** [EffectInput::kind]. *)
Definition EffectInput_kind (i : EffectInput) : EffectKind :=
  match i with
  | EffectInput_Model _ => EffectKind_Model
  | EffectInput_Tool _ => EffectKind_Tool
  | EffectInput_Context _ _ => EffectKind_Context
  | EffectInput_Middleware _ _ _ _ => EffectKind_Middleware
  | EffectInput_Interaction _ _ => EffectKind_Interaction
  | EffectInput_Timer _ => EffectKind_Timer
  end.

(** ** Effect lifecycle *)

Record EffectRequested : Type := mkEffectRequested {
  req_effect_id : EffectId;
  req_kind : EffectKind;
  req_relation : option EffectRelation;
  req_component : option ComponentInvocation;
  req_pipeline : option PipelinePosition;
  req_output_contract : EffectOutputContract;
  req_input : EffectInput;
  req_input_digest : Digest;
  req_retry_safety : RetrySafety;
  req_deadline : option Timestamp
}.
#[global] Instance EffectRequested_eq_dec : EqDecision EffectRequested.
Proof. solve_decision. Defined.

Inductive ReconciliationPolicy : Type :=
| ReconciliationPolicy_CallbackOnly
| ReconciliationPolicy_Poll
| ReconciliationPolicy_CallbackOrPoll
| ReconciliationPolicy_ExternalWorkflow.
#[global] Instance ReconciliationPolicy_eq_dec : EqDecision ReconciliationPolicy.
Proof. solve_decision. Defined.

Record EffectDeferred : Type := mkEffectDeferred {
  def_effect_id : EffectId;
  def_handle : ExternalHandleRef;
  def_reconciliation : ReconciliationPolicy;
  def_next_poll_at : option Timestamp;
  def_expires_at : option Timestamp;
  def_output_contract : EffectOutputContract
}.
#[global] Instance EffectDeferred_eq_dec : EqDecision EffectDeferred.
Proof. solve_decision. Defined.

Record EffectCompleted : Type := mkEffectCompleted {
  cpl_effect_id : EffectId;
  cpl_output_contract : EffectOutputContract;
  cpl_output : RawJson;
  cpl_output_digest : Digest;
  cpl_usage : option Usage;
  cpl_usage_digest : option Digest;
  cpl_artifacts : list ArtifactRef;
  cpl_provider_ids : ProviderIds;
  cpl_completion_id : option string;
  cpl_reservation_id : option BudgetReservationId
}.
#[global] Instance EffectCompleted_eq_dec : EqDecision EffectCompleted.
Proof. solve_decision. Defined.

Record EffectFailed : Type := mkEffectFailed {
  fld_effect_id : EffectId;
  fld_output_contract : EffectOutputContract;
  fld_error : ErrorDescriptor;
  fld_usage : option Usage;
  fld_usage_digest : option Digest;
  fld_completion_id : option string
}.
#[global] Instance EffectFailed_eq_dec : EqDecision EffectFailed.
Proof. solve_decision. Defined.

Record EffectCancelled : Type := mkEffectCancelled {
  cnl_effect_id : EffectId;
  cnl_output_contract : EffectOutputContract;
  cnl_reason : option string;
  cnl_completion_id : option string
}.
#[global] Instance EffectCancelled_eq_dec : EqDecision EffectCancelled.
Proof. solve_decision. Defined.

Definition is_compaction_summary (r : EffectRequested) : bool :=
  (req_kind r =?? EffectKind_Model) &&
  is_some_and (req_relation r) (fun rel =>
    match er_purpose rel with EffectPurpose_CompactionSummary _ => true | _ => false end).

Definition is_nested_model (r : EffectRequested) : bool :=
  (req_kind r =?? EffectKind_Model) &&
  is_some_and (req_relation r) (fun rel =>
    match er_purpose rel with EffectPurpose_NestedModel _ => true | _ => false end).

Definition is_runtime_owned_child_model (r : EffectRequested) : bool :=
  is_compaction_summary r || is_nested_model r.

(** [validate_settlement]: the settlement names the requested effect and repeats
    its output contract.  [true] is [Ok(())]. *)
Definition validate_settlement (requested : EffectRequested) (effect_id : EffectId)
    (output_contract : EffectOutputContract) : bool :=
  negb ((effect_id <>?? req_effect_id requested) ||
        (output_contract <>?? req_output_contract requested)).

(** ** Typed interactions *)

Inductive InteractionKind : Type :=
| InteractionKind_Approval
| InteractionKind_Choice
| InteractionKind_Form
| InteractionKind_FreeText
| InteractionKind_Review
| InteractionKind_Correction
| InteractionKind_Custom (name : string).
#[global] Instance InteractionKind_eq_dec : EqDecision InteractionKind.
Proof. solve_decision. Defined.

Record InteractionRequest : Type := mkInteractionRequest {
  ir_request_version : Z;
  ir_interaction_id : InteractionId;
  ir_effect_id : EffectId;
  ir_kind : InteractionKind;
  ir_prompt : list ContentBlock;
  ir_prompt_digest : Digest;
  ir_response_schema : RawJson;
  ir_response_schema_digest : Digest;
  ir_policy_component : ComponentRef;
  ir_policy_version : Version;
  ir_assignee_hint : option AssigneeHint;
  ir_expires_at : option Timestamp;
  ir_delegatable : bool;
  ir_metadata : Metadata
}.
#[global] Instance InteractionRequest_eq_dec : EqDecision InteractionRequest.
Proof. solve_decision. Defined.

Record InteractionResolution : Type := mkInteractionResolution {
  ires_interaction_id : InteractionId;
  ires_resolution_id : string;
  ires_principal : PrincipalRef;
  ires_authorization : AuthorizationEvidence;
  ires_response : RawJson;
  ires_comment : option string
}.
#[global] Instance InteractionResolution_eq_dec : EqDecision InteractionResolution.
Proof. solve_decision. Defined.

Record InteractionExpired : Type := mkInteractionExpired {
  iexp_interaction_id : InteractionId;
  iexp_expired_at : Timestamp
}.
#[global] Instance InteractionExpired_eq_dec : EqDecision InteractionExpired.
Proof. solve_decision. Defined.

Record InteractionCancelled : Type := mkInteractionCancelled {
  ican_interaction_id : InteractionId;
  ican_principal : option PrincipalRef;
  ican_authorization : option AuthorizationEvidence;
  ican_reason : option string
}.
#[global] Instance InteractionCancelled_eq_dec : EqDecision InteractionCancelled.
Proof. solve_decision. Defined.

