(* ===== verification/Records.v ===== *)
(** * Journal records

    Data of [crates/finstack-ai-kernel/src/records]: stage outcomes, tool
    batches, run acceptance, cancellation, limits, budgets, structured output,
    and the closed vocabulary [RecordBody] with its drafts and committed
    envelopes. *)

From S2P Require Import Prelude Primitives Effects.

(** ** Lifecycle records *)

Inductive StageDisposition : Type :=
| StageDisposition_Continued
| StageDisposition_ContextPrepared (turn_id : TurnId) (context_digest : Digest)
| StageDisposition_ModelRequested (turn_id : TurnId) (model_request_id : ModelRequestId) (effect_id : EffectId)
| StageDisposition_ToolBatchPrepared (tool_batch_id : ToolBatchId) (plan_digest : Digest)
| StageDisposition_FinalizeAccepted
| StageDisposition_ContinueModel (next_cycle : Z)
| StageDisposition_RetryScheduled (attempt : Z) (timer_effect_id : EffectId) (due_at : Timestamp)
| StageDisposition_Failed (error : ErrorDescriptor).
#[global] Instance StageDisposition_eq_dec : EqDecision StageDisposition.
Proof. solve_decision. Defined.

Inductive RetryClassification : Type :=
| RetryClassification_Model
| RetryClassification_Tool
| RetryClassification_Validation
| RetryClassification_Framework.
#[global] Instance RetryClassification_eq_dec : EqDecision RetryClassification.
Proof. solve_decision. Defined.

Record RetryDirective : Type := mkRetryDirective {
  rd_classification : RetryClassification;
  rd_backoff : Duration;
  rd_policy_version : string
}.
#[global] Instance RetryDirective_eq_dec : EqDecision RetryDirective.
Proof. solve_decision. Defined.

Record RetryScheduled : Type := mkRetryScheduled {
  rs_cycle : Z;
  rs_attempt : Z;
  rs_classification : RetryClassification;
  rs_policy_version : string;
  rs_timer_effect_id : EffectId;
  rs_due_at : Timestamp;
  rs_prior_error : ErrorDescriptor
}.
#[global] Instance RetryScheduled_eq_dec : EqDecision RetryScheduled.
Proof. solve_decision. Defined.

Record TimerFired : Type := mkTimerFired {
  tf_effect_id : EffectId;
  tf_due_at : Timestamp;
  tf_fired_at : Timestamp
}.
#[global] Instance TimerFired_eq_dec : EqDecision TimerFired.
Proof. solve_decision. Defined.

Record RunSuspended : Type := mkRunSuspended {
  rsus_reason_code : ErrorCode;
  rsus_cancellation_request_id : option CancellationRequestId
}.
#[global] Instance RunSuspended_eq_dec : EqDecision RunSuspended.
Proof. solve_decision. Defined.

Record RunCancelled : Type := mkRunCancelled {
  rcan_request_id : CancellationRequestId;
  rcan_reason_code : ErrorCode
}.
#[global] Instance RunCancelled_eq_dec : EqDecision RunCancelled.
Proof. solve_decision. Defined.

Record StageOutcomeRecorded : Type := mkStageOutcomeRecorded {
  so_cursor : StageCursor;
  so_disposition : StageDisposition;
  so_settlement_digest : Digest
}.
#[global] Instance StageOutcomeRecorded_eq_dec : EqDecision StageOutcomeRecorded.
Proof. solve_decision. Defined.

Record ContextPrepared : Type := mkContextPrepared {
  cp_cycle : Z;
  cp_turn_id : TurnId;
  cp_messages : list Message;
  cp_context_digest : Digest
}.
#[global] Instance ContextPrepared_eq_dec : EqDecision ContextPrepared.
Proof. solve_decision. Defined.

Record EntryAppended : Type := mkEntryAppended {
  ea_cycle : Z;
  ea_turn_id : TurnId;
  ea_model_request_id : ModelRequestId;
  ea_effect_id : EffectId;
  ea_parent_message_id : option MessageId;
  ea_message : Message
}.
#[global] Instance EntryAppended_eq_dec : EqDecision EntryAppended.
Proof. solve_decision. Defined.

Record RunCompleted : Type := mkRunCompleted {
  rcpl_cycle : Z;
  rcpl_turn_id : TurnId;
  rcpl_model_request_id : ModelRequestId;
  rcpl_effect_id : EffectId;
  rcpl_result_message_id : MessageId;
  rcpl_result_digest : Digest
}.
#[global] Instance RunCompleted_eq_dec : EqDecision RunCompleted.
Proof. solve_decision. Defined.

Record RunFailed : Type := mkRunFailed {
  rf_cycle : Z;
  rf_turn_id : option TurnId;
  rf_model_request_id : option ModelRequestId;
  rf_effect_id : option EffectId;
  rf_error : ErrorDescriptor
}.
#[global] Instance RunFailed_eq_dec : EqDecision RunFailed.
Proof. solve_decision. Defined.

(** ** Tool batches *)

Inductive ToolExecutionMode : Type :=
| ToolExecutionMode_Parallel
| ToolExecutionMode_Sequential
| ToolExecutionMode_Barrier.
#[global] Instance ToolExecutionMode_eq_dec : EqDecision ToolExecutionMode.
Proof. solve_decision. Defined.

Inductive ToolFailurePolicy : Type :=
| ToolFailurePolicy_ReturnToModel
| ToolFailurePolicy_FailRun.
#[global] Instance ToolFailurePolicy_eq_dec : EqDecision ToolFailurePolicy.
Proof. solve_decision. Defined.

Inductive ToolBatchContinuation : Type :=
| ToolBatchContinuation_ContinueModel
| ToolBatchContinuation_Finalize.
#[global] Instance ToolBatchContinuation_eq_dec : EqDecision ToolBatchContinuation.
Proof. solve_decision. Defined.

Record ValidatedToolCall : Type := mkValidatedToolCall {
  vt_call : ToolCallBlock;
  vt_tool_id : ToolId;
  vt_component : option ComponentInvocation;
  vt_output_contract : EffectOutputContract;
  vt_retry_safety : RetrySafety;
  vt_deadline : option Timestamp;
  vt_execution : ToolExecutionMode;
  vt_failure_policy : ToolFailurePolicy
}.
#[global] Instance ValidatedToolCall_eq_dec : EqDecision ValidatedToolCall.
Proof. solve_decision. Defined.

Record SyntheticToolClosure : Type := mkSyntheticToolClosure {
  sy_call : ToolCallBlock;
  sy_execution : ToolExecutionMode;
  sy_failure_policy : ToolFailurePolicy;
  sy_error : ErrorDescriptor
}.
#[global] Instance SyntheticToolClosure_eq_dec : EqDecision SyntheticToolClosure.
Proof. solve_decision. Defined.

Inductive ToolCallPlan : Type :=
| ToolCallPlan_Execute (value : ValidatedToolCall)
| ToolCallPlan_SyntheticClosure (value : SyntheticToolClosure).
#[global] Instance ToolCallPlan_eq_dec : EqDecision ToolCallPlan.
Proof. solve_decision. Defined.

Record AssignedToolCall : Type := mkAssignedToolCall {
  asg_source_index : Z;
  asg_group_index : Z;
  asg_effect_id : EffectId;
  asg_plan : ToolCallPlan
}.
#[global] Instance AssignedToolCall_eq_dec : EqDecision AssignedToolCall.
Proof. solve_decision. Defined.

Record ToolBatchOpened : Type := mkToolBatchOpened {
  tbo_cycle : Z;
  tbo_turn_id : TurnId;
  tbo_tool_batch_id : ToolBatchId;
  tbo_source_message_id : MessageId;
  tbo_calls : list AssignedToolCall;
  tbo_continuation : ToolBatchContinuation;
  tbo_plan_digest : Digest
}.
#[global] Instance ToolBatchOpened_eq_dec : EqDecision ToolBatchOpened.
Proof. solve_decision. Defined.

Record ToolCallSettled : Type := mkToolCallSettled {
  tcs_cycle : Z;
  tcs_turn_id : TurnId;
  tcs_tool_batch_id : ToolBatchId;
  tcs_tool_call_id : ToolCallId;
  tcs_effect_id : EffectId;
  tcs_message : Message;
  tcs_settlement_digest : Digest;
  tcs_synthetic : bool;
  tcs_error : option ErrorDescriptor
}.
#[global] Instance ToolCallSettled_eq_dec : EqDecision ToolCallSettled.
Proof. solve_decision. Defined.

Inductive ToolBatchOutcome : Type :=
| ToolBatchOutcome_ContinueModel
| ToolBatchOutcome_Finalize
| ToolBatchOutcome_Failed (error : ErrorDescriptor).
#[global] Instance ToolBatchOutcome_eq_dec : EqDecision ToolBatchOutcome.
Proof. solve_decision. Defined.

Record ToolBatchClosed : Type := mkToolBatchClosed {
  tbc_cycle : Z;
  tbc_turn_id : TurnId;
  tbc_tool_batch_id : ToolBatchId;
  tbc_source_message_id : MessageId;
  tbc_result_message_ids : list MessageId;
  tbc_outcome : ToolBatchOutcome;
  tbc_close_digest : Digest
}.
#[global] Instance ToolBatchClosed_eq_dec : EqDecision ToolBatchClosed.
Proof. solve_decision. Defined.

Inductive ActiveToolCallStatus : Type :=
| ActiveToolCallStatus_Undispatched
| ActiveToolCallStatus_Requested (requested : EffectRequested) (deferred : (option EffectDeferred))
| ActiveToolCallStatus_Buffered (result : ToolResultBlock) (settlement_digest : Digest) (synthetic : bool) (error : (option ErrorDescriptor))
| ActiveToolCallStatus_Settled (result_message_id : MessageId) (settlement_digest : Digest).
#[global] Instance ActiveToolCallStatus_eq_dec : EqDecision ActiveToolCallStatus.
Proof. solve_decision. Defined.

Record ActiveToolCall : Type := mkActiveToolCall {
  atc_assigned : AssignedToolCall;
  atc_status : ActiveToolCallStatus
}.
#[global] Instance ActiveToolCall_eq_dec : EqDecision ActiveToolCall.
Proof. solve_decision. Defined.

Record ActiveToolBatch : Type := mkActiveToolBatch {
  atb_opened : ToolBatchOpened;
  atb_calls : list ActiveToolCall;
  atb_current_group : Z;
  atb_next_source_index : Z;
  atb_result_message_ids : list MessageId;
  atb_fatal_error : option ErrorDescriptor;
  atb_effect_index : gmap EffectId Z;
  atb_current_group_open : Z;
  atb_unsettled_count : Z;
  atb_undispatched_count : Z
}.

Record ToolCallIdentity : Type := mkToolCallIdentity {
  tci_cycle : Z;
  tci_turn_id : TurnId;
  tci_source_message_id : MessageId;
  tci_tool_batch_id : option ToolBatchId;
  tci_effect_id : option EffectId;
  tci_call : ToolCallBlock
}.
#[global] Instance ToolCallIdentity_eq_dec : EqDecision ToolCallIdentity.
Proof. solve_decision. Defined.

Inductive ToolSettlementKind : Type :=
| ToolSettlementKind_Completed
| ToolSettlementKind_Failed
| ToolSettlementKind_Synthetic.
#[global] Instance ToolSettlementKind_eq_dec : EqDecision ToolSettlementKind.
Proof. solve_decision. Defined.

Record ToolSettlementFingerprint : Type := mkToolSettlementFingerprint {
  tsf_kind : ToolSettlementKind;
  tsf_digest : Digest
}.
#[global] Instance ToolSettlementFingerprint_eq_dec : EqDecision ToolSettlementFingerprint.
Proof. solve_decision. Defined.

(** ** Limits *)

Inductive LimitDimension : Type :=
| LimitDimension_ModelRequests
| LimitDimension_Turns
| LimitDimension_ToolCalls
| LimitDimension_ParallelTools
| LimitDimension_InputTokens
| LimitDimension_OutputTokens
| LimitDimension_ContextBytes
| LimitDimension_OutputBytes
| LimitDimension_Retries
| LimitDimension_WallTime
| LimitDimension_Cost
| LimitDimension_Extension (key : LimitKey).
#[global] Instance LimitDimension_eq_dec : EqDecision LimitDimension.
Proof. solve_decision. Defined.

Inductive LimitValue : Type :=
| LimitValue_Count (value : Z)
| LimitValue_Bytes (value : Z)
| LimitValue_Duration (value : Duration)
| LimitValue_Cost (value : CostAmount).
#[global] Instance LimitValue_eq_dec : EqDecision LimitValue.
Proof. solve_decision. Defined.

Record LimitUsage : Type := mkLimitUsage {
  lu_model_requests : Z;
  lu_turns : Z;
  lu_tool_calls : Z;
  lu_max_parallel_tools : Z;
  lu_input_tokens : Z;
  lu_output_tokens : Z;
  lu_context_bytes : Z;
  lu_output_bytes : Z;
  lu_retries : Z;
  lu_wall_time : Duration;
  lu_cost : option CostAmount;
  lu_extension_counters : gmap LimitKey Z
}.
#[global] Instance LimitUsage_eq_dec : EqDecision LimitUsage.
Proof. solve_decision. Defined.

Record LimitReached : Type := mkLimitReached {
  lr_dimension : LimitDimension;
  lr_observed : LimitValue;
  lr_maximum : LimitValue;
  lr_usage : LimitUsage;
  lr_usage_digest : Digest
}.
#[global] Instance LimitReached_eq_dec : EqDecision LimitReached.
Proof. solve_decision. Defined.

Inductive UnknownUsagePolicy : Type :=
| UnknownUsagePolicy_FailClosed
| UnknownUsagePolicy_SuspendForDecision
| UnknownUsagePolicy_AllowWithinReservedMaximum.
#[global] Instance UnknownUsagePolicy_eq_dec : EqDecision UnknownUsagePolicy.
Proof. solve_decision. Defined.

Record CostLimit : Type := mkCostLimit {
  cl_unit : string;
  cl_micros : Z;
  cl_pricing_policy_version : string;
  cl_unknown_usage : UnknownUsagePolicy
}.
#[global] Instance CostLimit_eq_dec : EqDecision CostLimit.
Proof. solve_decision. Defined.

Record RunLimits : Type := mkRunLimits {
  rl_max_model_requests : option Z;
  rl_max_turns : option Z;
  rl_max_tool_calls : option Z;
  rl_max_parallel_tools : option Z;
  rl_max_input_tokens : option Z;
  rl_max_output_tokens : option Z;
  rl_max_context_bytes : option Z;
  rl_max_output_bytes : option Z;
  rl_max_retries : option Z;
  rl_max_wall_time : option Duration;
  rl_max_cost : option CostLimit;
  rl_extension_counters : gmap LimitKey Z
}.
#[global] Instance RunLimits_eq_dec : EqDecision RunLimits.
Proof. solve_decision. Defined.

(** ** Runs: acceptance, cancellation, children, external commands *)

Inductive CancellationPropagation : Type :=
| CancellationPropagation_Cascade
| CancellationPropagation_DetachOnlyIfPreauthorized.
#[global] Instance CancellationPropagation_eq_dec : EqDecision CancellationPropagation.
Proof. solve_decision. Defined.

Inductive DeadlinePropagation : Type :=
| DeadlinePropagation_MinimumOfParentAndChild.
#[global] Instance DeadlinePropagation_eq_dec : EqDecision DeadlinePropagation.
Proof. solve_decision. Defined.

Inductive BudgetPropagation : Type :=
| BudgetPropagation_SharedScope
| BudgetPropagation_ReservedChildAllocation.
#[global] Instance BudgetPropagation_eq_dec : EqDecision BudgetPropagation.
Proof. solve_decision. Defined.

Inductive PrincipalPropagation : Type :=
| PrincipalPropagation_Inherit
| PrincipalPropagation_AttenuatedDelegation.
#[global] Instance PrincipalPropagation_eq_dec : EqDecision PrincipalPropagation.
Proof. solve_decision. Defined.

Record RunPropagationPolicy : Type := mkRunPropagationPolicy {
  rp_cancellation : CancellationPropagation;
  rp_deadline : DeadlinePropagation;
  rp_budget : BudgetPropagation;
  rp_principal : PrincipalPropagation
}.
#[global] Instance RunPropagationPolicy_eq_dec : EqDecision RunPropagationPolicy.
Proof. solve_decision. Defined.

Inductive RunRelationKind : Type :=
| RunRelationKind_Root
| RunRelationKind_ChildAgent
| RunRelationKind_DelegatedAgent
| RunRelationKind_WorkflowStep.
#[global] Instance RunRelationKind_eq_dec : EqDecision RunRelationKind.
Proof. solve_decision. Defined.

Record RunRelation : Type := mkRunRelation {
  rr_root_run_id : RunId;
  rr_parent_run_id : option RunId;
  rr_parent_effect_id : option EffectId;
  rr_kind : RunRelationKind;
  rr_depth : Z;
  rr_budget_scope_id : option BudgetScopeId;
  rr_external_work_ref : option string
}.
#[global] Instance RunRelation_eq_dec : EqDecision RunRelation.
Proof. solve_decision. Defined.

Inductive Sensitivity : Type :=
| Sensitivity_Public
| Sensitivity_Internal
| Sensitivity_Confidential
| Sensitivity_Secret
| Sensitivity_Credential.
#[global] Instance Sensitivity_eq_dec : EqDecision Sensitivity.
Proof. solve_decision. Defined.

Record CompactionAuthorization : Type := mkCompactionAuthorization {
  cau_allowed_model : ComponentRef;
  cau_maximum_sensitivity : Sensitivity;
  cau_residency_policy_digest : Digest
}.
#[global] Instance CompactionAuthorization_eq_dec : EqDecision CompactionAuthorization.
Proof. solve_decision. Defined.

Record RunSecurityContext : Type := mkRunSecurityContext {
  rsc_tenant_scope : string;
  rsc_principal : PrincipalRef;
  rsc_authentication_method : string;
  rsc_assurance_level : string;
  rsc_authorization_policy_version : string;
  rsc_authorization_decision_id : string;
  rsc_delegated_from : option PrincipalRef;
  rsc_compaction_authorization : option CompactionAuthorization
}.
#[global] Instance RunSecurityContext_eq_dec : EqDecision RunSecurityContext.
Proof. solve_decision. Defined.

(** The Boolean inside is ignored by the type's equality. *)
Record LineageValidation : Type := mkLineageValidation { lineage_flag : bool }.

Record RunAccepted : Type := mkRunAccepted {
  ra_run_id : RunId;
  ra_relation : RunRelation;
  ra_security : RunSecurityContext;
  ra_effective_deadline : option Timestamp;
  ra_limits : RunLimits;
  ra_propagation : RunPropagationPolicy;
  ra_resolved_agent_lock_digest : Digest;
  ra_lineage_validated : LineageValidation
}.

Inductive CancellationInitiator : Type :=
| CancellationInitiator_Principal (principal : PrincipalRef) (authorization : AuthorizationEvidence)
| CancellationInitiator_ParentRun (parent_run_id : RunId)
| CancellationInitiator_Deadline
| CancellationInitiator_RuntimeShutdown.
#[global] Instance CancellationInitiator_eq_dec : EqDecision CancellationInitiator.
Proof. solve_decision. Defined.

Record CancellationRequest : Type := mkCancellationRequest {
  cr_request_id : CancellationRequestId;
  cr_initiator : CancellationInitiator;
  cr_reason : option string
}.
#[global] Instance CancellationRequest_eq_dec : EqDecision CancellationRequest.
Proof. solve_decision. Defined.

Record CancellationRequested : Type := mkCancellationRequested {
  crd_request : CancellationRequest
}.
#[global] Instance CancellationRequested_eq_dec : EqDecision CancellationRequested.
Proof. solve_decision. Defined.

Record CancellationReconciled : Type := mkCancellationReconciled {
  crc_request_id : CancellationRequestId;
  crc_completed_effects : list EffectId;
  crc_cancelled_effects : list EffectId;
  crc_uncertain_effects : list EffectId
}.
#[global] Instance CancellationReconciled_eq_dec : EqDecision CancellationReconciled.
Proof. solve_decision. Defined.

Record OperationLocator : Type := mkOperationLocator {
  ol_tenant_scope : string;
  ol_session_id : SessionId;
  ol_lane_id : LaneId;
  ol_run_id : RunId
}.
#[global] Instance OperationLocator_eq_dec : EqDecision OperationLocator.
Proof. solve_decision. Defined.

Inductive ChildPlacement : Type :=
| ChildPlacement_CompatibleLaneInParentSession
| ChildPlacement_IsolatedChildSession
| ChildPlacement_RemoteChildSession.
#[global] Instance ChildPlacement_eq_dec : EqDecision ChildPlacement.
Proof. solve_decision. Defined.

Record RemoteRouteRef : Type := mkRemoteRouteRef {
  rrt_service : ComponentRef;
  rrt_route : ExternalHandleRef
}.
#[global] Instance RemoteRouteRef_eq_dec : EqDecision RemoteRouteRef.
Proof. solve_decision. Defined.

Record ChildRunLocator : Type := mkChildRunLocator {
  crl_operation : OperationLocator;
  crl_remote : option RemoteRouteRef
}.
#[global] Instance ChildRunLocator_eq_dec : EqDecision ChildRunLocator.
Proof. solve_decision. Defined.

Record ChildRunPrepared : Type := mkChildRunPrepared {
  crp_parent_run_id : RunId;
  crp_parent_effect_id : EffectId;
  crp_child : ChildRunLocator;
  crp_request_digest : Digest;
  crp_placement : ChildPlacement;
  crp_budget_reservation_id : option BudgetReservationId
}.
#[global] Instance ChildRunPrepared_eq_dec : EqDecision ChildRunPrepared.
Proof. solve_decision. Defined.

Inductive ExternalCommandKind : Type :=
| ExternalCommandKind_EffectCompletion
| ExternalCommandKind_InteractionResolution.
#[global] Instance ExternalCommandKind_eq_dec : EqDecision ExternalCommandKind.
Proof. solve_decision. Defined.

Inductive ExternalCommandTarget : Type :=
| ExternalCommandTarget_Effect (value : EffectId)
| ExternalCommandTarget_Interaction (value : InteractionId).
#[global] Instance ExternalCommandTarget_eq_dec : EqDecision ExternalCommandTarget.
Proof. solve_decision. Defined.

Record ExternalCommandRejected : Type := mkExternalCommandRejected {
  ecr_command_kind : ExternalCommandKind;
  ecr_command_id : string;
  ecr_target : ExternalCommandTarget;
  ecr_principal : PrincipalRef;
  ecr_authorization : AuthorizationEvidence;
  ecr_reason_code : string;
  ecr_submitted_digest : Digest;
  ecr_accepted_digest : option Digest
}.
#[global] Instance ExternalCommandRejected_eq_dec : EqDecision ExternalCommandRejected.
Proof. solve_decision. Defined.

Record RecordExternalCommandRejected : Type := mkRecordExternalCommandRejected {
  recr_locator : OperationLocator;
  recr_rejection : ExternalCommandRejected
}.
#[global] Instance RecordExternalCommandRejected_eq_dec : EqDecision RecordExternalCommandRejected.
Proof. solve_decision. Defined.

(** ** Budgets *)

Record BudgetRequest : Type := mkBudgetRequest {
  bq_input_tokens : option Z;
  bq_output_tokens : option Z;
  bq_cost : option CostLimit;
  bq_extension_counters : gmap LimitKey Z
}.
#[global] Instance BudgetRequest_eq_dec : EqDecision BudgetRequest.
Proof. solve_decision. Defined.

Record BudgetReserveRequest : Type := mkBudgetReserveRequest {
  brq_scope_id : BudgetScopeId;
  brq_reservation_id : BudgetReservationId;
  brq_run_id : RunId;
  brq_amount : BudgetRequest;
  brq_request_digest : Digest
}.
#[global] Instance BudgetReserveRequest_eq_dec : EqDecision BudgetReserveRequest.
Proof. solve_decision. Defined.

Record BudgetReservationReceipt : Type := mkBudgetReservationReceipt {
  brr_scope_id : BudgetScopeId;
  brr_reservation_id : BudgetReservationId;
  brr_reserved : BudgetRequest;
  brr_remaining : BudgetRequest;
  brr_request_digest : Digest;
  brr_receipt_digest : Digest
}.
#[global] Instance BudgetReservationReceipt_eq_dec : EqDecision BudgetReservationReceipt.
Proof. solve_decision. Defined.

Record BudgetChargeReceipt : Type := mkBudgetChargeReceipt {
  bcr_scope_id : BudgetScopeId;
  bcr_reservation_id : BudgetReservationId;
  bcr_effect_id : EffectId;
  bcr_charged_usage : Usage;
  bcr_cumulative_usage : Usage;
  bcr_usage_digest : Digest;
  bcr_receipt_digest : Digest
}.
#[global] Instance BudgetChargeReceipt_eq_dec : EqDecision BudgetChargeReceipt.
Proof. solve_decision. Defined.

Record BudgetReleaseReceipt : Type := mkBudgetReleaseReceipt {
  brl_scope_id : BudgetScopeId;
  brl_reservation_id : BudgetReservationId;
  brl_terminal_run_id : RunId;
  brl_released_unused : BudgetRequest;
  brl_request_digest : Digest;
  brl_receipt_digest : Digest
}.
#[global] Instance BudgetReleaseReceipt_eq_dec : EqDecision BudgetReleaseReceipt.
Proof. solve_decision. Defined.

Record BudgetReservationRequested : Type := mkBudgetReservationRequested {
  brd_request : BudgetReserveRequest
}.
#[global] Instance BudgetReservationRequested_eq_dec : EqDecision BudgetReservationRequested.
Proof. solve_decision. Defined.

Record BudgetReservationSettled : Type := mkBudgetReservationSettled {
  brs_receipt : BudgetReservationReceipt
}.
#[global] Instance BudgetReservationSettled_eq_dec : EqDecision BudgetReservationSettled.
Proof. solve_decision. Defined.

Record BudgetChargeRecorded : Type := mkBudgetChargeRecorded {
  bch_receipt : BudgetChargeReceipt
}.
#[global] Instance BudgetChargeRecorded_eq_dec : EqDecision BudgetChargeRecorded.
Proof. solve_decision. Defined.

Record BudgetReservationReleased : Type := mkBudgetReservationReleased {
  bre_receipt : BudgetReleaseReceipt
}.
#[global] Instance BudgetReservationReleased_eq_dec : EqDecision BudgetReservationReleased.
Proof. solve_decision. Defined.

(** ** Structured output and capabilities *)

Inductive JsonSchemaDraft : Type :=
| JsonSchemaDraft_Draft202012.
#[global] Instance JsonSchemaDraft_eq_dec : EqDecision JsonSchemaDraft.
Proof. solve_decision. Defined.

Record SchemaRef : Type := mkSchemaRef {
  sr_draft : JsonSchemaDraft;
  sr_schema_version : Z;
  sr_schema_digest : Digest
}.
#[global] Instance SchemaRef_eq_dec : EqDecision SchemaRef.
Proof. solve_decision. Defined.

Inductive OutputSpec : Type :=
| OutputSpec_PlainText
| OutputSpec_JsonSchema (schema : SchemaRef).
#[global] Instance OutputSpec_eq_dec : EqDecision OutputSpec.
Proof. solve_decision. Defined.

Inductive OutputEndStrategy : Type :=
| OutputEndStrategy_Early
| OutputEndStrategy_Exhaustive.
#[global] Instance OutputEndStrategy_eq_dec : EqDecision OutputEndStrategy.
Proof. solve_decision. Defined.

Record OutputConfiguration : Type := mkOutputConfiguration {
  ocf_output : OutputSpec;
  ocf_end_strategy : OutputEndStrategy
}.
#[global] Instance OutputConfiguration_eq_dec : EqDecision OutputConfiguration.
Proof. solve_decision. Defined.

Inductive StructuredResultSource : Type :=
| StructuredResultSource_JsonBlock (content_index : Z)
| StructuredResultSource_InternalTool (tool_call_id : ToolCallId).
#[global] Instance StructuredResultSource_eq_dec : EqDecision StructuredResultSource.
Proof. solve_decision. Defined.

Record FinalResultRecorded : Type := mkFinalResultRecorded {
  frr_cycle : Z;
  frr_turn_id : TurnId;
  frr_model_request_id : ModelRequestId;
  frr_effect_id : EffectId;
  frr_message_id : MessageId;
  frr_schema : SchemaRef;
  frr_value : RawJson;
  frr_value_digest : Digest;
  frr_source : StructuredResultSource;
  frr_end_strategy : OutputEndStrategy;
  frr_skipped_tool_call_ids : list ToolCallId
}.
#[global] Instance FinalResultRecorded_eq_dec : EqDecision FinalResultRecorded.
Proof. solve_decision. Defined.

Inductive CapabilityActivationSource : Type :=
| CapabilityActivationSource_Always
| CapabilityActivationSource_Application
| CapabilityActivationSource_Model.
#[global] Instance CapabilityActivationSource_eq_dec : EqDecision CapabilityActivationSource.
Proof. solve_decision. Defined.

Record ActiveCapability : Type := mkActiveCapability {
  ac_capability_id : CapabilityId;
  ac_source : CapabilityActivationSource
}.
#[global] Instance ActiveCapability_eq_dec : EqDecision ActiveCapability.
Proof. solve_decision. Defined.

Record CapabilitiesActivated : Type := mkCapabilitiesActivated {
  cact_prior_plan_digest : option Digest;
  cact_resolved_plan_digest : Digest;
  cact_active : list ActiveCapability
}.
#[global] Instance CapabilitiesActivated_eq_dec : EqDecision CapabilitiesActivated.
Proof. solve_decision. Defined.

Record ValidationIssue : Type := mkValidationIssue {
  vi_instance_path : string;
  vi_schema_path : string;
  vi_keyword : option string;
  vi_message : string
}.
#[global] Instance ValidationIssue_eq_dec : EqDecision ValidationIssue.
Proof. solve_decision. Defined.

Inductive ValidationOutcome : Type :=
| ValidationOutcome_Valid
| ValidationOutcome_Invalid (issues : (list ValidationIssue)) (feedback : string).
#[global] Instance ValidationOutcome_eq_dec : EqDecision ValidationOutcome.
Proof. solve_decision. Defined.

Record OutputValidated : Type := mkOutputValidated {
  ov_message_id : MessageId;
  ov_schema : SchemaRef;
  ov_candidate : RawJson;
  ov_source : StructuredResultSource;
  ov_outcome : ValidationOutcome
}.
#[global] Instance OutputValidated_eq_dec : EqDecision OutputValidated.
Proof. solve_decision. Defined.

Record OutputValidationFailed : Type := mkOutputValidationFailed {
  ovf_cycle : Z;
  ovf_turn_id : TurnId;
  ovf_model_request_id : ModelRequestId;
  ovf_effect_id : EffectId;
  ovf_message_id : MessageId;
  ovf_schema : SchemaRef;
  ovf_candidate_digest : Digest;
  ovf_source : StructuredResultSource;
  ovf_issues : list ValidationIssue;
  ovf_feedback : string;
  ovf_error : ErrorDescriptor;
  ovf_skipped_tool_call_ids : list ToolCallId
}.
#[global] Instance OutputValidationFailed_eq_dec : EqDecision OutputValidationFailed.
Proof. solve_decision. Defined.

(** ** Session structure *)

Record SessionCreated : Type := mkSessionCreated {
  ses_metadata : Metadata
}.
#[global] Instance SessionCreated_eq_dec : EqDecision SessionCreated.
Proof. solve_decision. Defined.

Record LaneCreated : Type := mkLaneCreated {
  lnc_name : string
}.
#[global] Instance LaneCreated_eq_dec : EqDecision LaneCreated.
Proof. solve_decision. Defined.

Record LaneMoved : Type := mkLaneMoved {
  lnm_leaf_id : EntryId
}.
#[global] Instance LaneMoved_eq_dec : EqDecision LaneMoved.
Proof. solve_decision. Defined.

Record SnapshotWritten : Type := mkSnapshotWritten {
  snp_sequence : Z;
  snp_digest : Digest
}.
#[global] Instance SnapshotWritten_eq_dec : EqDecision SnapshotWritten.
Proof. solve_decision. Defined.

Inductive EntryBody : Type :=
| EntryBody_Message (value : Message).
#[global] Instance EntryBody_eq_dec : EqDecision EntryBody.
Proof. solve_decision. Defined.

Record ConversationEntry : Type := mkConversationEntry {
  ce_id : EntryId;
  ce_parent_id : option EntryId;
  ce_lane_id : LaneId;
  ce_sequence : Z;
  ce_body : EntryBody
}.
#[global] Instance ConversationEntry_eq_dec : EqDecision ConversationEntry.
Proof. solve_decision. Defined.

(** ** The record vocabulary *)

Inductive RecordBody : Type :=
| RecordBody_RunAccepted (value : RunAccepted)
| RecordBody_EffectRequested (value : EffectRequested)
| RecordBody_EffectDeferred (value : EffectDeferred)
| RecordBody_EffectCompleted (value : EffectCompleted)
| RecordBody_EffectFailed (value : EffectFailed)
| RecordBody_EffectCancelled (value : EffectCancelled)
| RecordBody_InteractionRequested (value : InteractionRequest)
| RecordBody_InteractionResolved (value : InteractionResolution)
| RecordBody_InteractionExpired (value : InteractionExpired)
| RecordBody_InteractionCancelled (value : InteractionCancelled)
| RecordBody_StageOutcomeRecorded (value : StageOutcomeRecorded)
| RecordBody_ContextPrepared (value : ContextPrepared)
| RecordBody_EntryAppended (value : EntryAppended)
| RecordBody_ToolBatchOpened (value : ToolBatchOpened)
| RecordBody_ToolCallSettled (value : ToolCallSettled)
| RecordBody_ToolBatchClosed (value : ToolBatchClosed)
| RecordBody_CancellationRequested (value : CancellationRequested)
| RecordBody_CancellationReconciled (value : CancellationReconciled)
| RecordBody_LimitReached (value : LimitReached)
| RecordBody_RetryScheduled (value : RetryScheduled)
| RecordBody_TimerFired (value : TimerFired)
| RecordBody_RunSuspended (value : RunSuspended)
| RecordBody_RunCompleted (value : RunCompleted)
| RecordBody_RunFailed (value : RunFailed)
| RecordBody_RunCancelled (value : RunCancelled)
| RecordBody_OutputConfigured (value : OutputConfiguration)
| RecordBody_CapabilitiesActivated (value : CapabilitiesActivated)
| RecordBody_FinalResultRecorded (value : FinalResultRecorded)
| RecordBody_OutputValidationFailed (value : OutputValidationFailed)
| RecordBody_ExternalCommandRejected (value : ExternalCommandRejected)
| RecordBody_ChildRunPrepared (value : ChildRunPrepared)
| RecordBody_BudgetReservationRequested (value : BudgetReservationRequested)
| RecordBody_BudgetReservationSettled (value : BudgetReservationSettled)
| RecordBody_BudgetChargeRecorded (value : BudgetChargeRecorded)
| RecordBody_BudgetReservationReleased (value : BudgetReservationReleased)
| RecordBody_SessionCreated (value : SessionCreated)
| RecordBody_LaneCreated (value : LaneCreated)
| RecordBody_LaneMoved (value : LaneMoved)
| RecordBody_SnapshotWritten (value : SnapshotWritten)
| RecordBody_ConversationEntry (value : ConversationEntry).

Record RecordDraft : Type := mkRecordDraft {
  dr_format_version : Z;
  dr_kind_version : Z;
  dr_record_id : RecordId;
  dr_session_id : SessionId;
  dr_lane_id : LaneId;
  dr_run_id : option RunId;
  dr_timestamp : Timestamp;
  dr_derived_event_ids : list EventId;
  dr_body : RecordBody
}.

Record RecordEnvelope : Type := mkRecordEnvelope {
  rec_format_version : Z;
  rec_kind_version : Z;
  rec_record_id : RecordId;
  rec_session_id : SessionId;
  rec_lane_id : LaneId;
  rec_run_id : option RunId;
  rec_sequence : Z;
  rec_timestamp : Timestamp;
  rec_committed_at : option Timestamp;
  rec_payload_digest : Digest;
  rec_previous_checksum : option Digest;
  rec_checksum : Digest;
  rec_derived_event_ids : list EventId;
  rec_body : RecordBody
}.

