(* ===== verification/State.v ===== *)
(** * Replay-derived kernel state

    Data of [crates/finstack-ai-kernel/src/state]: the phase vocabulary, the
    outstanding-work records, and [KernelState] itself with one functional
    setter per field (the source assigns fields of a working copy). *)

From S2P Require Import Prelude Primitives Effects Records.

Inductive RunPhase : Type :=
| RunPhase_Accepted
| RunPhase_BeforeRun
| RunPhase_PreparingContext
| RunPhase_BeforeModel
| RunPhase_AwaitingModel
| RunPhase_AfterModel
| RunPhase_BeforeToolBatch
| RunPhase_AwaitingTools
| RunPhase_AfterToolBatch
| RunPhase_BeforeFinalize
| RunPhase_AwaitingInteraction
| RunPhase_AwaitingExternal
| RunPhase_Sleeping
| RunPhase_Cancelling
| RunPhase_Suspended
| RunPhase_Completed
| RunPhase_Failed
| RunPhase_Cancelled.
#[global] Instance RunPhase_eq_dec : EqDecision RunPhase.
Proof. solve_decision. Defined.

Record CurrentTurn : Type := mkCurrentTurn {
  ct_cycle : Z;
  ct_turn_id : TurnId;
  ct_context : ContextPrepared;
  ct_model_request_id : option ModelRequestId;
  ct_effect_id : option EffectId;
  ct_final_message_id : option MessageId
}.
#[global] Instance CurrentTurn_eq_dec : EqDecision CurrentTurn.
Proof. solve_decision. Defined.

Record PendingModelEffect : Type := mkPendingModelEffect {
  pme_cycle : Z;
  pme_turn_id : TurnId;
  pme_model_request_id : ModelRequestId;
  pme_requested : EffectRequested;
  pme_deferred : option EffectDeferred
}.
#[global] Instance PendingModelEffect_eq_dec : EqDecision PendingModelEffect.
Proof. solve_decision. Defined.

Record PendingExtensionEffect : Type := mkPendingExtensionEffect {
  pxe_cursor : StageCursor;
  pxe_requested : EffectRequested
}.
#[global] Instance PendingExtensionEffect_eq_dec : EqDecision PendingExtensionEffect.
Proof. solve_decision. Defined.

Inductive ExtensionSettlementKind : Type :=
| ExtensionSettlementKind_Completed
| ExtensionSettlementKind_Failed.
#[global] Instance ExtensionSettlementKind_eq_dec : EqDecision ExtensionSettlementKind.
Proof. solve_decision. Defined.

Record ExtensionSettlementFingerprint : Type := mkExtensionSettlementFingerprint {
  xsf_kind : ExtensionSettlementKind;
  xsf_digest : Digest
}.
#[global] Instance ExtensionSettlementFingerprint_eq_dec : EqDecision ExtensionSettlementFingerprint.
Proof. solve_decision. Defined.

Inductive TerminalCandidate : Type :=
| TerminalCandidate_Completed (cycle : Z) (turn_id : TurnId) (model_request_id : ModelRequestId) (effect_id : EffectId) (message_id : MessageId) (result_digest : Digest)
| TerminalCandidate_Failed (cycle : Z) (turn_id : (option TurnId)) (model_request_id : (option ModelRequestId)) (effect_id : (option EffectId)) (error : ErrorDescriptor).
#[global] Instance TerminalCandidate_eq_dec : EqDecision TerminalCandidate.
Proof. solve_decision. Defined.

Inductive ModelSettlementKind : Type :=
| ModelSettlementKind_Completed
| ModelSettlementKind_Failed.
#[global] Instance ModelSettlementKind_eq_dec : EqDecision ModelSettlementKind.
Proof. solve_decision. Defined.

Record ModelSettlementFingerprint : Type := mkModelSettlementFingerprint {
  msf_kind : ModelSettlementKind;
  msf_digest : Digest
}.
#[global] Instance ModelSettlementFingerprint_eq_dec : EqDecision ModelSettlementFingerprint.
Proof. solve_decision. Defined.

Record CompletionIdentity : Type := mkCompletionIdentity {
  cid_effect_id : EffectId;
  cid_settlement_digest : Digest
}.
#[global] Instance CompletionIdentity_eq_dec : EqDecision CompletionIdentity.
Proof. solve_decision. Defined.

Record PendingInteraction : Type := mkPendingInteraction {
  pin_request : InteractionRequest;
  pin_prior_phase : RunPhase;
  pin_cursor : StageCursor
}.
#[global] Instance PendingInteraction_eq_dec : EqDecision PendingInteraction.
Proof. solve_decision. Defined.

Record ResolutionIdentity : Type := mkResolutionIdentity {
  rid_interaction_id : InteractionId;
  rid_settlement_digest : Digest
}.
#[global] Instance ResolutionIdentity_eq_dec : EqDecision ResolutionIdentity.
Proof. solve_decision. Defined.

Inductive InteractionTerminalOutcome : Type :=
| InteractionTerminalOutcome_Granted
| InteractionTerminalOutcome_Denied
| InteractionTerminalOutcome_Expired
| InteractionTerminalOutcome_Cancelled.
#[global] Instance InteractionTerminalOutcome_eq_dec : EqDecision InteractionTerminalOutcome.
Proof. solve_decision. Defined.

Record InteractionTerminal : Type := mkInteractionTerminal {
  itm_interaction_id : InteractionId;
  itm_kind : InteractionKind;
  itm_cursor : StageCursor;
  itm_outcome : InteractionTerminalOutcome
}.
#[global] Instance InteractionTerminal_eq_dec : EqDecision InteractionTerminal.
Proof. solve_decision. Defined.

Inductive TerminalState : Type :=
| TerminalState_Completed (value : RunCompleted)
| TerminalState_Failed (value : RunFailed)
| TerminalState_Cancelled (value : RunCancelled).
#[global] Instance TerminalState_eq_dec : EqDecision TerminalState.
Proof. solve_decision. Defined.

Record CancellationState : Type := mkCancellationState {
  cs_request : CancellationRequest;
  cs_prior_phase : RunPhase;
  cs_completed_effects : list EffectId;
  cs_cancelled_effects : list EffectId;
  cs_uncertain_effects : list EffectId;
  cs_outstanding_effects : list EffectId
}.
#[global] Instance CancellationState_eq_dec : EqDecision CancellationState.
Proof. solve_decision. Defined.

Record RetryState : Type := mkRetryState {
  rst_attempts : Z;
  rst_pending : option RetryScheduled;
  rst_timer_firings : gmap EffectId TimerFired
}.
#[global] Instance RetryState_eq_dec : EqDecision RetryState.
Proof. solve_decision. Defined.

Record BudgetReservationReplay : Type := mkBudgetReservationReplay {
  brp_request : BudgetReserveRequest;
  brp_settlement : option BudgetReservationReceipt;
  brp_release : option BudgetReleaseReceipt
}.
#[global] Instance BudgetReservationReplay_eq_dec : EqDecision BudgetReservationReplay.
Proof. solve_decision. Defined.

(** ** The authoritative state *)

Record KernelState : Type := mkKernelState {
  k_state_version : Z;
  k_last_applied_sequence : Z;
  k_session_id : option SessionId;
  k_lane_id : option LaneId;
  k_accepted : option RunAccepted;
  k_accepted_at : option Timestamp;
  k_phase : option RunPhase;
  k_cycle : Z;
  k_current_turn : option CurrentTurn;
  k_messages : list Message;
  k_pending_model_effect : option PendingModelEffect;
  k_pending_extension_effect : option PendingExtensionEffect;
  k_terminal_candidate : option TerminalCandidate;
  k_stage_settlements : gmap StageCursor Digest;
  k_model_settlements : gmap EffectId ModelSettlementFingerprint;
  k_extension_settlements : gmap EffectId ExtensionSettlementFingerprint;
  k_completion_identities : gmap string CompletionIdentity;
  k_pending_interaction : option PendingInteraction;
  k_resolution_identities : gmap string ResolutionIdentity;
  k_last_interaction_terminal : option InteractionTerminal;
  k_active_tool_batch : option ActiveToolBatch;
  k_tool_calls : gmap ToolCallId ToolCallIdentity;
  k_tool_settlements : gmap EffectId ToolSettlementFingerprint;
  k_last_tool_batch : option ToolBatchClosed;
  k_output_configuration : option OutputConfiguration;
  k_active_capabilities : list ActiveCapability;
  k_resolved_plan_digest : option Digest;
  k_final_result : option FinalResultRecorded;
  k_validation_failure : option OutputValidationFailed;
  k_child_preparations : gmap EffectId ChildRunPrepared;
  k_budget_reservations : gmap BudgetReservationId BudgetReservationReplay;
  k_budget_charges : gmap EffectId BudgetChargeReceipt;
  k_limit_usage : LimitUsage;
  k_cancellation : option CancellationState;
  k_retry : RetryState;
  k_last_limit : option LimitReached;
  k_suspension : option RunSuspended;
  k_terminal : option TerminalState
}.

(** ** Field updates *)

Definition with_state_version (v : Z) (s : KernelState) : KernelState :=
  mkKernelState v (k_last_applied_sequence s) (k_session_id s) (k_lane_id s) (k_accepted s) (k_accepted_at s) (k_phase s) (k_cycle s) (k_current_turn s) (k_messages s) (k_pending_model_effect s) (k_pending_extension_effect s) (k_terminal_candidate s) (k_stage_settlements s) (k_model_settlements s) (k_extension_settlements s) (k_completion_identities s) (k_pending_interaction s) (k_resolution_identities s) (k_last_interaction_terminal s) (k_active_tool_batch s) (k_tool_calls s) (k_tool_settlements s) (k_last_tool_batch s) (k_output_configuration s) (k_active_capabilities s) (k_resolved_plan_digest s) (k_final_result s) (k_validation_failure s) (k_child_preparations s) (k_budget_reservations s) (k_budget_charges s) (k_limit_usage s) (k_cancellation s) (k_retry s) (k_last_limit s) (k_suspension s) (k_terminal s).
Definition with_last_applied_sequence (v : Z) (s : KernelState) : KernelState :=
  mkKernelState (k_state_version s) v (k_session_id s) (k_lane_id s) (k_accepted s) (k_accepted_at s) (k_phase s) (k_cycle s) (k_current_turn s) (k_messages s) (k_pending_model_effect s) (k_pending_extension_effect s) (k_terminal_candidate s) (k_stage_settlements s) (k_model_settlements s) (k_extension_settlements s) (k_completion_identities s) (k_pending_interaction s) (k_resolution_identities s) (k_last_interaction_terminal s) (k_active_tool_batch s) (k_tool_calls s) (k_tool_settlements s) (k_last_tool_batch s) (k_output_configuration s) (k_active_capabilities s) (k_resolved_plan_digest s) (k_final_result s) (k_validation_failure s) (k_child_preparations s) (k_budget_reservations s) (k_budget_charges s) (k_limit_usage s) (k_cancellation s) (k_retry s) (k_last_limit s) (k_suspension s) (k_terminal s).
Definition with_session_id (v : option SessionId) (s : KernelState) : KernelState :=
  mkKernelState (k_state_version s) (k_last_applied_sequence s) v (k_lane_id s) (k_accepted s) (k_accepted_at s) (k_phase s) (k_cycle s) (k_current_turn s) (k_messages s) (k_pending_model_effect s) (k_pending_extension_effect s) (k_terminal_candidate s) (k_stage_settlements s) (k_model_settlements s) (k_extension_settlements s) (k_completion_identities s) (k_pending_interaction s) (k_resolution_identities s) (k_last_interaction_terminal s) (k_active_tool_batch s) (k_tool_calls s) (k_tool_settlements s) (k_last_tool_batch s) (k_output_configuration s) (k_active_capabilities s) (k_resolved_plan_digest s) (k_final_result s) (k_validation_failure s) (k_child_preparations s) (k_budget_reservations s) (k_budget_charges s) (k_limit_usage s) (k_cancellation s) (k_retry s) (k_last_limit s) (k_suspension s) (k_terminal s).
Definition with_lane_id (v : option LaneId) (s : KernelState) : KernelState :=
  mkKernelState (k_state_version s) (k_last_applied_sequence s) (k_session_id s) v (k_accepted s) (k_accepted_at s) (k_phase s) (k_cycle s) (k_current_turn s) (k_messages s) (k_pending_model_effect s) (k_pending_extension_effect s) (k_terminal_candidate s) (k_stage_settlements s) (k_model_settlements s) (k_extension_settlements s) (k_completion_identities s) (k_pending_interaction s) (k_resolution_identities s) (k_last_interaction_terminal s) (k_active_tool_batch s) (k_tool_calls s) (k_tool_settlements s) (k_last_tool_batch s) (k_output_configuration s) (k_active_capabilities s) (k_resolved_plan_digest s) (k_final_result s) (k_validation_failure s) (k_child_preparations s) (k_budget_reservations s) (k_budget_charges s) (k_limit_usage s) (k_cancellation s) (k_retry s) (k_last_limit s) (k_suspension s) (k_terminal s).
Definition with_accepted (v : option RunAccepted) (s : KernelState) : KernelState :=
  mkKernelState (k_state_version s) (k_last_applied_sequence s) (k_session_id s) (k_lane_id s) v (k_accepted_at s) (k_phase s) (k_cycle s) (k_current_turn s) (k_messages s) (k_pending_model_effect s) (k_pending_extension_effect s) (k_terminal_candidate s) (k_stage_settlements s) (k_model_settlements s) (k_extension_settlements s) (k_completion_identities s) (k_pending_interaction s) (k_resolution_identities s) (k_last_interaction_terminal s) (k_active_tool_batch s) (k_tool_calls s) (k_tool_settlements s) (k_last_tool_batch s) (k_output_configuration s) (k_active_capabilities s) (k_resolved_plan_digest s) (k_final_result s) (k_validation_failure s) (k_child_preparations s) (k_budget_reservations s) (k_budget_charges s) (k_limit_usage s) (k_cancellation s) (k_retry s) (k_last_limit s) (k_suspension s) (k_terminal s).
Definition with_accepted_at (v : option Timestamp) (s : KernelState) : KernelState :=
  mkKernelState (k_state_version s) (k_last_applied_sequence s) (k_session_id s) (k_lane_id s) (k_accepted s) v (k_phase s) (k_cycle s) (k_current_turn s) (k_messages s) (k_pending_model_effect s) (k_pending_extension_effect s) (k_terminal_candidate s) (k_stage_settlements s) (k_model_settlements s) (k_extension_settlements s) (k_completion_identities s) (k_pending_interaction s) (k_resolution_identities s) (k_last_interaction_terminal s) (k_active_tool_batch s) (k_tool_calls s) (k_tool_settlements s) (k_last_tool_batch s) (k_output_configuration s) (k_active_capabilities s) (k_resolved_plan_digest s) (k_final_result s) (k_validation_failure s) (k_child_preparations s) (k_budget_reservations s) (k_budget_charges s) (k_limit_usage s) (k_cancellation s) (k_retry s) (k_last_limit s) (k_suspension s) (k_terminal s).
Definition with_phase (v : option RunPhase) (s : KernelState) : KernelState :=
  mkKernelState (k_state_version s) (k_last_applied_sequence s) (k_session_id s) (k_lane_id s) (k_accepted s) (k_accepted_at s) v (k_cycle s) (k_current_turn s) (k_messages s) (k_pending_model_effect s) (k_pending_extension_effect s) (k_terminal_candidate s) (k_stage_settlements s) (k_model_settlements s) (k_extension_settlements s) (k_completion_identities s) (k_pending_interaction s) (k_resolution_identities s) (k_last_interaction_terminal s) (k_active_tool_batch s) (k_tool_calls s) (k_tool_settlements s) (k_last_tool_batch s) (k_output_configuration s) (k_active_capabilities s) (k_resolved_plan_digest s) (k_final_result s) (k_validation_failure s) (k_child_preparations s) (k_budget_reservations s) (k_budget_charges s) (k_limit_usage s) (k_cancellation s) (k_retry s) (k_last_limit s) (k_suspension s) (k_terminal s).
Definition with_cycle (v : Z) (s : KernelState) : KernelState :=
  mkKernelState (k_state_version s) (k_last_applied_sequence s) (k_session_id s) (k_lane_id s) (k_accepted s) (k_accepted_at s) (k_phase s) v (k_current_turn s) (k_messages s) (k_pending_model_effect s) (k_pending_extension_effect s) (k_terminal_candidate s) (k_stage_settlements s) (k_model_settlements s) (k_extension_settlements s) (k_completion_identities s) (k_pending_interaction s) (k_resolution_identities s) (k_last_interaction_terminal s) (k_active_tool_batch s) (k_tool_calls s) (k_tool_settlements s) (k_last_tool_batch s) (k_output_configuration s) (k_active_capabilities s) (k_resolved_plan_digest s) (k_final_result s) (k_validation_failure s) (k_child_preparations s) (k_budget_reservations s) (k_budget_charges s) (k_limit_usage s) (k_cancellation s) (k_retry s) (k_last_limit s) (k_suspension s) (k_terminal s).
Definition with_current_turn (v : option CurrentTurn) (s : KernelState) : KernelState :=
  mkKernelState (k_state_version s) (k_last_applied_sequence s) (k_session_id s) (k_lane_id s) (k_accepted s) (k_accepted_at s) (k_phase s) (k_cycle s) v (k_messages s) (k_pending_model_effect s) (k_pending_extension_effect s) (k_terminal_candidate s) (k_stage_settlements s) (k_model_settlements s) (k_extension_settlements s) (k_completion_identities s) (k_pending_interaction s) (k_resolution_identities s) (k_last_interaction_terminal s) (k_active_tool_batch s) (k_tool_calls s) (k_tool_settlements s) (k_last_tool_batch s) (k_output_configuration s) (k_active_capabilities s) (k_resolved_plan_digest s) (k_final_result s) (k_validation_failure s) (k_child_preparations s) (k_budget_reservations s) (k_budget_charges s) (k_limit_usage s) (k_cancellation s) (k_retry s) (k_last_limit s) (k_suspension s) (k_terminal s).
Definition with_messages (v : list Message) (s : KernelState) : KernelState :=
  mkKernelState (k_state_version s) (k_last_applied_sequence s) (k_session_id s) (k_lane_id s) (k_accepted s) (k_accepted_at s) (k_phase s) (k_cycle s) (k_current_turn s) v (k_pending_model_effect s) (k_pending_extension_effect s) (k_terminal_candidate s) (k_stage_settlements s) (k_model_settlements s) (k_extension_settlements s) (k_completion_identities s) (k_pending_interaction s) (k_resolution_identities s) (k_last_interaction_terminal s) (k_active_tool_batch s) (k_tool_calls s) (k_tool_settlements s) (k_last_tool_batch s) (k_output_configuration s) (k_active_capabilities s) (k_resolved_plan_digest s) (k_final_result s) (k_validation_failure s) (k_child_preparations s) (k_budget_reservations s) (k_budget_charges s) (k_limit_usage s) (k_cancellation s) (k_retry s) (k_last_limit s) (k_suspension s) (k_terminal s).
Definition with_pending_model_effect (v : option PendingModelEffect) (s : KernelState) : KernelState :=
  mkKernelState (k_state_version s) (k_last_applied_sequence s) (k_session_id s) (k_lane_id s) (k_accepted s) (k_accepted_at s) (k_phase s) (k_cycle s) (k_current_turn s) (k_messages s) v (k_pending_extension_effect s) (k_terminal_candidate s) (k_stage_settlements s) (k_model_settlements s) (k_extension_settlements s) (k_completion_identities s) (k_pending_interaction s) (k_resolution_identities s) (k_last_interaction_terminal s) (k_active_tool_batch s) (k_tool_calls s) (k_tool_settlements s) (k_last_tool_batch s) (k_output_configuration s) (k_active_capabilities s) (k_resolved_plan_digest s) (k_final_result s) (k_validation_failure s) (k_child_preparations s) (k_budget_reservations s) (k_budget_charges s) (k_limit_usage s) (k_cancellation s) (k_retry s) (k_last_limit s) (k_suspension s) (k_terminal s).
Definition with_pending_extension_effect (v : option PendingExtensionEffect) (s : KernelState) : KernelState :=
  mkKernelState (k_state_version s) (k_last_applied_sequence s) (k_session_id s) (k_lane_id s) (k_accepted s) (k_accepted_at s) (k_phase s) (k_cycle s) (k_current_turn s) (k_messages s) (k_pending_model_effect s) v (k_terminal_candidate s) (k_stage_settlements s) (k_model_settlements s) (k_extension_settlements s) (k_completion_identities s) (k_pending_interaction s) (k_resolution_identities s) (k_last_interaction_terminal s) (k_active_tool_batch s) (k_tool_calls s) (k_tool_settlements s) (k_last_tool_batch s) (k_output_configuration s) (k_active_capabilities s) (k_resolved_plan_digest s) (k_final_result s) (k_validation_failure s) (k_child_preparations s) (k_budget_reservations s) (k_budget_charges s) (k_limit_usage s) (k_cancellation s) (k_retry s) (k_last_limit s) (k_suspension s) (k_terminal s).
Definition with_terminal_candidate (v : option TerminalCandidate) (s : KernelState) : KernelState :=
  mkKernelState (k_state_version s) (k_last_applied_sequence s) (k_session_id s) (k_lane_id s) (k_accepted s) (k_accepted_at s) (k_phase s) (k_cycle s) (k_current_turn s) (k_messages s) (k_pending_model_effect s) (k_pending_extension_effect s) v (k_stage_settlements s) (k_model_settlements s) (k_extension_settlements s) (k_completion_identities s) (k_pending_interaction s) (k_resolution_identities s) (k_last_interaction_terminal s) (k_active_tool_batch s) (k_tool_calls s) (k_tool_settlements s) (k_last_tool_batch s) (k_output_configuration s) (k_active_capabilities s) (k_resolved_plan_digest s) (k_final_result s) (k_validation_failure s) (k_child_preparations s) (k_budget_reservations s) (k_budget_charges s) (k_limit_usage s) (k_cancellation s) (k_retry s) (k_last_limit s) (k_suspension s) (k_terminal s).
Definition with_stage_settlements (v : gmap StageCursor Digest) (s : KernelState) : KernelState :=
  mkKernelState (k_state_version s) (k_last_applied_sequence s) (k_session_id s) (k_lane_id s) (k_accepted s) (k_accepted_at s) (k_phase s) (k_cycle s) (k_current_turn s) (k_messages s) (k_pending_model_effect s) (k_pending_extension_effect s) (k_terminal_candidate s) v (k_model_settlements s) (k_extension_settlements s) (k_completion_identities s) (k_pending_interaction s) (k_resolution_identities s) (k_last_interaction_terminal s) (k_active_tool_batch s) (k_tool_calls s) (k_tool_settlements s) (k_last_tool_batch s) (k_output_configuration s) (k_active_capabilities s) (k_resolved_plan_digest s) (k_final_result s) (k_validation_failure s) (k_child_preparations s) (k_budget_reservations s) (k_budget_charges s) (k_limit_usage s) (k_cancellation s) (k_retry s) (k_last_limit s) (k_suspension s) (k_terminal s).
Definition with_model_settlements (v : gmap EffectId ModelSettlementFingerprint) (s : KernelState) : KernelState :=
  mkKernelState (k_state_version s) (k_last_applied_sequence s) (k_session_id s) (k_lane_id s) (k_accepted s) (k_accepted_at s) (k_phase s) (k_cycle s) (k_current_turn s) (k_messages s) (k_pending_model_effect s) (k_pending_extension_effect s) (k_terminal_candidate s) (k_stage_settlements s) v (k_extension_settlements s) (k_completion_identities s) (k_pending_interaction s) (k_resolution_identities s) (k_last_interaction_terminal s) (k_active_tool_batch s) (k_tool_calls s) (k_tool_settlements s) (k_last_tool_batch s) (k_output_configuration s) (k_active_capabilities s) (k_resolved_plan_digest s) (k_final_result s) (k_validation_failure s) (k_child_preparations s) (k_budget_reservations s) (k_budget_charges s) (k_limit_usage s) (k_cancellation s) (k_retry s) (k_last_limit s) (k_suspension s) (k_terminal s).
Definition with_extension_settlements (v : gmap EffectId ExtensionSettlementFingerprint) (s : KernelState) : KernelState :=
  mkKernelState (k_state_version s) (k_last_applied_sequence s) (k_session_id s) (k_lane_id s) (k_accepted s) (k_accepted_at s) (k_phase s) (k_cycle s) (k_current_turn s) (k_messages s) (k_pending_model_effect s) (k_pending_extension_effect s) (k_terminal_candidate s) (k_stage_settlements s) (k_model_settlements s) v (k_completion_identities s) (k_pending_interaction s) (k_resolution_identities s) (k_last_interaction_terminal s) (k_active_tool_batch s) (k_tool_calls s) (k_tool_settlements s) (k_last_tool_batch s) (k_output_configuration s) (k_active_capabilities s) (k_resolved_plan_digest s) (k_final_result s) (k_validation_failure s) (k_child_preparations s) (k_budget_reservations s) (k_budget_charges s) (k_limit_usage s) (k_cancellation s) (k_retry s) (k_last_limit s) (k_suspension s) (k_terminal s).
Definition with_completion_identities (v : gmap string CompletionIdentity) (s : KernelState) : KernelState :=
  mkKernelState (k_state_version s) (k_last_applied_sequence s) (k_session_id s) (k_lane_id s) (k_accepted s) (k_accepted_at s) (k_phase s) (k_cycle s) (k_current_turn s) (k_messages s) (k_pending_model_effect s) (k_pending_extension_effect s) (k_terminal_candidate s) (k_stage_settlements s) (k_model_settlements s) (k_extension_settlements s) v (k_pending_interaction s) (k_resolution_identities s) (k_last_interaction_terminal s) (k_active_tool_batch s) (k_tool_calls s) (k_tool_settlements s) (k_last_tool_batch s) (k_output_configuration s) (k_active_capabilities s) (k_resolved_plan_digest s) (k_final_result s) (k_validation_failure s) (k_child_preparations s) (k_budget_reservations s) (k_budget_charges s) (k_limit_usage s) (k_cancellation s) (k_retry s) (k_last_limit s) (k_suspension s) (k_terminal s).
Definition with_pending_interaction (v : option PendingInteraction) (s : KernelState) : KernelState :=
  mkKernelState (k_state_version s) (k_last_applied_sequence s) (k_session_id s) (k_lane_id s) (k_accepted s) (k_accepted_at s) (k_phase s) (k_cycle s) (k_current_turn s) (k_messages s) (k_pending_model_effect s) (k_pending_extension_effect s) (k_terminal_candidate s) (k_stage_settlements s) (k_model_settlements s) (k_extension_settlements s) (k_completion_identities s) v (k_resolution_identities s) (k_last_interaction_terminal s) (k_active_tool_batch s) (k_tool_calls s) (k_tool_settlements s) (k_last_tool_batch s) (k_output_configuration s) (k_active_capabilities s) (k_resolved_plan_digest s) (k_final_result s) (k_validation_failure s) (k_child_preparations s) (k_budget_reservations s) (k_budget_charges s) (k_limit_usage s) (k_cancellation s) (k_retry s) (k_last_limit s) (k_suspension s) (k_terminal s).
Definition with_resolution_identities (v : gmap string ResolutionIdentity) (s : KernelState) : KernelState :=
  mkKernelState (k_state_version s) (k_last_applied_sequence s) (k_session_id s) (k_lane_id s) (k_accepted s) (k_accepted_at s) (k_phase s) (k_cycle s) (k_current_turn s) (k_messages s) (k_pending_model_effect s) (k_pending_extension_effect s) (k_terminal_candidate s) (k_stage_settlements s) (k_model_settlements s) (k_extension_settlements s) (k_completion_identities s) (k_pending_interaction s) v (k_last_interaction_terminal s) (k_active_tool_batch s) (k_tool_calls s) (k_tool_settlements s) (k_last_tool_batch s) (k_output_configuration s) (k_active_capabilities s) (k_resolved_plan_digest s) (k_final_result s) (k_validation_failure s) (k_child_preparations s) (k_budget_reservations s) (k_budget_charges s) (k_limit_usage s) (k_cancellation s) (k_retry s) (k_last_limit s) (k_suspension s) (k_terminal s).
Definition with_last_interaction_terminal (v : option InteractionTerminal) (s : KernelState) : KernelState :=
  mkKernelState (k_state_version s) (k_last_applied_sequence s) (k_session_id s) (k_lane_id s) (k_accepted s) (k_accepted_at s) (k_phase s) (k_cycle s) (k_current_turn s) (k_messages s) (k_pending_model_effect s) (k_pending_extension_effect s) (k_terminal_candidate s) (k_stage_settlements s) (k_model_settlements s) (k_extension_settlements s) (k_completion_identities s) (k_pending_interaction s) (k_resolution_identities s) v (k_active_tool_batch s) (k_tool_calls s) (k_tool_settlements s) (k_last_tool_batch s) (k_output_configuration s) (k_active_capabilities s) (k_resolved_plan_digest s) (k_final_result s) (k_validation_failure s) (k_child_preparations s) (k_budget_reservations s) (k_budget_charges s) (k_limit_usage s) (k_cancellation s) (k_retry s) (k_last_limit s) (k_suspension s) (k_terminal s).
Definition with_active_tool_batch (v : option ActiveToolBatch) (s : KernelState) : KernelState :=
  mkKernelState (k_state_version s) (k_last_applied_sequence s) (k_session_id s) (k_lane_id s) (k_accepted s) (k_accepted_at s) (k_phase s) (k_cycle s) (k_current_turn s) (k_messages s) (k_pending_model_effect s) (k_pending_extension_effect s) (k_terminal_candidate s) (k_stage_settlements s) (k_model_settlements s) (k_extension_settlements s) (k_completion_identities s) (k_pending_interaction s) (k_resolution_identities s) (k_last_interaction_terminal s) v (k_tool_calls s) (k_tool_settlements s) (k_last_tool_batch s) (k_output_configuration s) (k_active_capabilities s) (k_resolved_plan_digest s) (k_final_result s) (k_validation_failure s) (k_child_preparations s) (k_budget_reservations s) (k_budget_charges s) (k_limit_usage s) (k_cancellation s) (k_retry s) (k_last_limit s) (k_suspension s) (k_terminal s).
Definition with_tool_calls (v : gmap ToolCallId ToolCallIdentity) (s : KernelState) : KernelState :=
  mkKernelState (k_state_version s) (k_last_applied_sequence s) (k_session_id s) (k_lane_id s) (k_accepted s) (k_accepted_at s) (k_phase s) (k_cycle s) (k_current_turn s) (k_messages s) (k_pending_model_effect s) (k_pending_extension_effect s) (k_terminal_candidate s) (k_stage_settlements s) (k_model_settlements s) (k_extension_settlements s) (k_completion_identities s) (k_pending_interaction s) (k_resolution_identities s) (k_last_interaction_terminal s) (k_active_tool_batch s) v (k_tool_settlements s) (k_last_tool_batch s) (k_output_configuration s) (k_active_capabilities s) (k_resolved_plan_digest s) (k_final_result s) (k_validation_failure s) (k_child_preparations s) (k_budget_reservations s) (k_budget_charges s) (k_limit_usage s) (k_cancellation s) (k_retry s) (k_last_limit s) (k_suspension s) (k_terminal s).
Definition with_tool_settlements (v : gmap EffectId ToolSettlementFingerprint) (s : KernelState) : KernelState :=
  mkKernelState (k_state_version s) (k_last_applied_sequence s) (k_session_id s) (k_lane_id s) (k_accepted s) (k_accepted_at s) (k_phase s) (k_cycle s) (k_current_turn s) (k_messages s) (k_pending_model_effect s) (k_pending_extension_effect s) (k_terminal_candidate s) (k_stage_settlements s) (k_model_settlements s) (k_extension_settlements s) (k_completion_identities s) (k_pending_interaction s) (k_resolution_identities s) (k_last_interaction_terminal s) (k_active_tool_batch s) (k_tool_calls s) v (k_last_tool_batch s) (k_output_configuration s) (k_active_capabilities s) (k_resolved_plan_digest s) (k_final_result s) (k_validation_failure s) (k_child_preparations s) (k_budget_reservations s) (k_budget_charges s) (k_limit_usage s) (k_cancellation s) (k_retry s) (k_last_limit s) (k_suspension s) (k_terminal s).
Definition with_last_tool_batch (v : option ToolBatchClosed) (s : KernelState) : KernelState :=
  mkKernelState (k_state_version s) (k_last_applied_sequence s) (k_session_id s) (k_lane_id s) (k_accepted s) (k_accepted_at s) (k_phase s) (k_cycle s) (k_current_turn s) (k_messages s) (k_pending_model_effect s) (k_pending_extension_effect s) (k_terminal_candidate s) (k_stage_settlements s) (k_model_settlements s) (k_extension_settlements s) (k_completion_identities s) (k_pending_interaction s) (k_resolution_identities s) (k_last_interaction_terminal s) (k_active_tool_batch s) (k_tool_calls s) (k_tool_settlements s) v (k_output_configuration s) (k_active_capabilities s) (k_resolved_plan_digest s) (k_final_result s) (k_validation_failure s) (k_child_preparations s) (k_budget_reservations s) (k_budget_charges s) (k_limit_usage s) (k_cancellation s) (k_retry s) (k_last_limit s) (k_suspension s) (k_terminal s).
Definition with_output_configuration (v : option OutputConfiguration) (s : KernelState) : KernelState :=
  mkKernelState (k_state_version s) (k_last_applied_sequence s) (k_session_id s) (k_lane_id s) (k_accepted s) (k_accepted_at s) (k_phase s) (k_cycle s) (k_current_turn s) (k_messages s) (k_pending_model_effect s) (k_pending_extension_effect s) (k_terminal_candidate s) (k_stage_settlements s) (k_model_settlements s) (k_extension_settlements s) (k_completion_identities s) (k_pending_interaction s) (k_resolution_identities s) (k_last_interaction_terminal s) (k_active_tool_batch s) (k_tool_calls s) (k_tool_settlements s) (k_last_tool_batch s) v (k_active_capabilities s) (k_resolved_plan_digest s) (k_final_result s) (k_validation_failure s) (k_child_preparations s) (k_budget_reservations s) (k_budget_charges s) (k_limit_usage s) (k_cancellation s) (k_retry s) (k_last_limit s) (k_suspension s) (k_terminal s).
Definition with_active_capabilities (v : list ActiveCapability) (s : KernelState) : KernelState :=
  mkKernelState (k_state_version s) (k_last_applied_sequence s) (k_session_id s) (k_lane_id s) (k_accepted s) (k_accepted_at s) (k_phase s) (k_cycle s) (k_current_turn s) (k_messages s) (k_pending_model_effect s) (k_pending_extension_effect s) (k_terminal_candidate s) (k_stage_settlements s) (k_model_settlements s) (k_extension_settlements s) (k_completion_identities s) (k_pending_interaction s) (k_resolution_identities s) (k_last_interaction_terminal s) (k_active_tool_batch s) (k_tool_calls s) (k_tool_settlements s) (k_last_tool_batch s) (k_output_configuration s) v (k_resolved_plan_digest s) (k_final_result s) (k_validation_failure s) (k_child_preparations s) (k_budget_reservations s) (k_budget_charges s) (k_limit_usage s) (k_cancellation s) (k_retry s) (k_last_limit s) (k_suspension s) (k_terminal s).
Definition with_resolved_plan_digest (v : option Digest) (s : KernelState) : KernelState :=
  mkKernelState (k_state_version s) (k_last_applied_sequence s) (k_session_id s) (k_lane_id s) (k_accepted s) (k_accepted_at s) (k_phase s) (k_cycle s) (k_current_turn s) (k_messages s) (k_pending_model_effect s) (k_pending_extension_effect s) (k_terminal_candidate s) (k_stage_settlements s) (k_model_settlements s) (k_extension_settlements s) (k_completion_identities s) (k_pending_interaction s) (k_resolution_identities s) (k_last_interaction_terminal s) (k_active_tool_batch s) (k_tool_calls s) (k_tool_settlements s) (k_last_tool_batch s) (k_output_configuration s) (k_active_capabilities s) v (k_final_result s) (k_validation_failure s) (k_child_preparations s) (k_budget_reservations s) (k_budget_charges s) (k_limit_usage s) (k_cancellation s) (k_retry s) (k_last_limit s) (k_suspension s) (k_terminal s).
Definition with_final_result (v : option FinalResultRecorded) (s : KernelState) : KernelState :=
  mkKernelState (k_state_version s) (k_last_applied_sequence s) (k_session_id s) (k_lane_id s) (k_accepted s) (k_accepted_at s) (k_phase s) (k_cycle s) (k_current_turn s) (k_messages s) (k_pending_model_effect s) (k_pending_extension_effect s) (k_terminal_candidate s) (k_stage_settlements s) (k_model_settlements s) (k_extension_settlements s) (k_completion_identities s) (k_pending_interaction s) (k_resolution_identities s) (k_last_interaction_terminal s) (k_active_tool_batch s) (k_tool_calls s) (k_tool_settlements s) (k_last_tool_batch s) (k_output_configuration s) (k_active_capabilities s) (k_resolved_plan_digest s) v (k_validation_failure s) (k_child_preparations s) (k_budget_reservations s) (k_budget_charges s) (k_limit_usage s) (k_cancellation s) (k_retry s) (k_last_limit s) (k_suspension s) (k_terminal s).
Definition with_validation_failure (v : option OutputValidationFailed) (s : KernelState) : KernelState :=
  mkKernelState (k_state_version s) (k_last_applied_sequence s) (k_session_id s) (k_lane_id s) (k_accepted s) (k_accepted_at s) (k_phase s) (k_cycle s) (k_current_turn s) (k_messages s) (k_pending_model_effect s) (k_pending_extension_effect s) (k_terminal_candidate s) (k_stage_settlements s) (k_model_settlements s) (k_extension_settlements s) (k_completion_identities s) (k_pending_interaction s) (k_resolution_identities s) (k_last_interaction_terminal s) (k_active_tool_batch s) (k_tool_calls s) (k_tool_settlements s) (k_last_tool_batch s) (k_output_configuration s) (k_active_capabilities s) (k_resolved_plan_digest s) (k_final_result s) v (k_child_preparations s) (k_budget_reservations s) (k_budget_charges s) (k_limit_usage s) (k_cancellation s) (k_retry s) (k_last_limit s) (k_suspension s) (k_terminal s).
Definition with_child_preparations (v : gmap EffectId ChildRunPrepared) (s : KernelState) : KernelState :=
  mkKernelState (k_state_version s) (k_last_applied_sequence s) (k_session_id s) (k_lane_id s) (k_accepted s) (k_accepted_at s) (k_phase s) (k_cycle s) (k_current_turn s) (k_messages s) (k_pending_model_effect s) (k_pending_extension_effect s) (k_terminal_candidate s) (k_stage_settlements s) (k_model_settlements s) (k_extension_settlements s) (k_completion_identities s) (k_pending_interaction s) (k_resolution_identities s) (k_last_interaction_terminal s) (k_active_tool_batch s) (k_tool_calls s) (k_tool_settlements s) (k_last_tool_batch s) (k_output_configuration s) (k_active_capabilities s) (k_resolved_plan_digest s) (k_final_result s) (k_validation_failure s) v (k_budget_reservations s) (k_budget_charges s) (k_limit_usage s) (k_cancellation s) (k_retry s) (k_last_limit s) (k_suspension s) (k_terminal s).
Definition with_budget_reservations (v : gmap BudgetReservationId BudgetReservationReplay) (s : KernelState) : KernelState :=
  mkKernelState (k_state_version s) (k_last_applied_sequence s) (k_session_id s) (k_lane_id s) (k_accepted s) (k_accepted_at s) (k_phase s) (k_cycle s) (k_current_turn s) (k_messages s) (k_pending_model_effect s) (k_pending_extension_effect s) (k_terminal_candidate s) (k_stage_settlements s) (k_model_settlements s) (k_extension_settlements s) (k_completion_identities s) (k_pending_interaction s) (k_resolution_identities s) (k_last_interaction_terminal s) (k_active_tool_batch s) (k_tool_calls s) (k_tool_settlements s) (k_last_tool_batch s) (k_output_configuration s) (k_active_capabilities s) (k_resolved_plan_digest s) (k_final_result s) (k_validation_failure s) (k_child_preparations s) v (k_budget_charges s) (k_limit_usage s) (k_cancellation s) (k_retry s) (k_last_limit s) (k_suspension s) (k_terminal s).
Definition with_budget_charges (v : gmap EffectId BudgetChargeReceipt) (s : KernelState) : KernelState :=
  mkKernelState (k_state_version s) (k_last_applied_sequence s) (k_session_id s) (k_lane_id s) (k_accepted s) (k_accepted_at s) (k_phase s) (k_cycle s) (k_current_turn s) (k_messages s) (k_pending_model_effect s) (k_pending_extension_effect s) (k_terminal_candidate s) (k_stage_settlements s) (k_model_settlements s) (k_extension_settlements s) (k_completion_identities s) (k_pending_interaction s) (k_resolution_identities s) (k_last_interaction_terminal s) (k_active_tool_batch s) (k_tool_calls s) (k_tool_settlements s) (k_last_tool_batch s) (k_output_configuration s) (k_active_capabilities s) (k_resolved_plan_digest s) (k_final_result s) (k_validation_failure s) (k_child_preparations s) (k_budget_reservations s) v (k_limit_usage s) (k_cancellation s) (k_retry s) (k_last_limit s) (k_suspension s) (k_terminal s).
Definition with_limit_usage (v : LimitUsage) (s : KernelState) : KernelState :=
  mkKernelState (k_state_version s) (k_last_applied_sequence s) (k_session_id s) (k_lane_id s) (k_accepted s) (k_accepted_at s) (k_phase s) (k_cycle s) (k_current_turn s) (k_messages s) (k_pending_model_effect s) (k_pending_extension_effect s) (k_terminal_candidate s) (k_stage_settlements s) (k_model_settlements s) (k_extension_settlements s) (k_completion_identities s) (k_pending_interaction s) (k_resolution_identities s) (k_last_interaction_terminal s) (k_active_tool_batch s) (k_tool_calls s) (k_tool_settlements s) (k_last_tool_batch s) (k_output_configuration s) (k_active_capabilities s) (k_resolved_plan_digest s) (k_final_result s) (k_validation_failure s) (k_child_preparations s) (k_budget_reservations s) (k_budget_charges s) v (k_cancellation s) (k_retry s) (k_last_limit s) (k_suspension s) (k_terminal s).
Definition with_cancellation (v : option CancellationState) (s : KernelState) : KernelState :=
  mkKernelState (k_state_version s) (k_last_applied_sequence s) (k_session_id s) (k_lane_id s) (k_accepted s) (k_accepted_at s) (k_phase s) (k_cycle s) (k_current_turn s) (k_messages s) (k_pending_model_effect s) (k_pending_extension_effect s) (k_terminal_candidate s) (k_stage_settlements s) (k_model_settlements s) (k_extension_settlements s) (k_completion_identities s) (k_pending_interaction s) (k_resolution_identities s) (k_last_interaction_terminal s) (k_active_tool_batch s) (k_tool_calls s) (k_tool_settlements s) (k_last_tool_batch s) (k_output_configuration s) (k_active_capabilities s) (k_resolved_plan_digest s) (k_final_result s) (k_validation_failure s) (k_child_preparations s) (k_budget_reservations s) (k_budget_charges s) (k_limit_usage s) v (k_retry s) (k_last_limit s) (k_suspension s) (k_terminal s).
Definition with_retry (v : RetryState) (s : KernelState) : KernelState :=
  mkKernelState (k_state_version s) (k_last_applied_sequence s) (k_session_id s) (k_lane_id s) (k_accepted s) (k_accepted_at s) (k_phase s) (k_cycle s) (k_current_turn s) (k_messages s) (k_pending_model_effect s) (k_pending_extension_effect s) (k_terminal_candidate s) (k_stage_settlements s) (k_model_settlements s) (k_extension_settlements s) (k_completion_identities s) (k_pending_interaction s) (k_resolution_identities s) (k_last_interaction_terminal s) (k_active_tool_batch s) (k_tool_calls s) (k_tool_settlements s) (k_last_tool_batch s) (k_output_configuration s) (k_active_capabilities s) (k_resolved_plan_digest s) (k_final_result s) (k_validation_failure s) (k_child_preparations s) (k_budget_reservations s) (k_budget_charges s) (k_limit_usage s) (k_cancellation s) v (k_last_limit s) (k_suspension s) (k_terminal s).
Definition with_last_limit (v : option LimitReached) (s : KernelState) : KernelState :=
  mkKernelState (k_state_version s) (k_last_applied_sequence s) (k_session_id s) (k_lane_id s) (k_accepted s) (k_accepted_at s) (k_phase s) (k_cycle s) (k_current_turn s) (k_messages s) (k_pending_model_effect s) (k_pending_extension_effect s) (k_terminal_candidate s) (k_stage_settlements s) (k_model_settlements s) (k_extension_settlements s) (k_completion_identities s) (k_pending_interaction s) (k_resolution_identities s) (k_last_interaction_terminal s) (k_active_tool_batch s) (k_tool_calls s) (k_tool_settlements s) (k_last_tool_batch s) (k_output_configuration s) (k_active_capabilities s) (k_resolved_plan_digest s) (k_final_result s) (k_validation_failure s) (k_child_preparations s) (k_budget_reservations s) (k_budget_charges s) (k_limit_usage s) (k_cancellation s) (k_retry s) v (k_suspension s) (k_terminal s).
Definition with_suspension (v : option RunSuspended) (s : KernelState) : KernelState :=
  mkKernelState (k_state_version s) (k_last_applied_sequence s) (k_session_id s) (k_lane_id s) (k_accepted s) (k_accepted_at s) (k_phase s) (k_cycle s) (k_current_turn s) (k_messages s) (k_pending_model_effect s) (k_pending_extension_effect s) (k_terminal_candidate s) (k_stage_settlements s) (k_model_settlements s) (k_extension_settlements s) (k_completion_identities s) (k_pending_interaction s) (k_resolution_identities s) (k_last_interaction_terminal s) (k_active_tool_batch s) (k_tool_calls s) (k_tool_settlements s) (k_last_tool_batch s) (k_output_configuration s) (k_active_capabilities s) (k_resolved_plan_digest s) (k_final_result s) (k_validation_failure s) (k_child_preparations s) (k_budget_reservations s) (k_budget_charges s) (k_limit_usage s) (k_cancellation s) (k_retry s) (k_last_limit s) v (k_terminal s).
Definition with_terminal (v : option TerminalState) (s : KernelState) : KernelState :=
  mkKernelState (k_state_version s) (k_last_applied_sequence s) (k_session_id s) (k_lane_id s) (k_accepted s) (k_accepted_at s) (k_phase s) (k_cycle s) (k_current_turn s) (k_messages s) (k_pending_model_effect s) (k_pending_extension_effect s) (k_terminal_candidate s) (k_stage_settlements s) (k_model_settlements s) (k_extension_settlements s) (k_completion_identities s) (k_pending_interaction s) (k_resolution_identities s) (k_last_interaction_terminal s) (k_active_tool_batch s) (k_tool_calls s) (k_tool_settlements s) (k_last_tool_batch s) (k_output_configuration s) (k_active_capabilities s) (k_resolved_plan_digest s) (k_final_result s) (k_validation_failure s) (k_child_preparations s) (k_budget_reservations s) (k_budget_charges s) (k_limit_usage s) (k_cancellation s) (k_retry s) (k_last_limit s) (k_suspension s) v.

(** ** Updates of nested records *)

Definition set_lu_model_requests (v : Z) (r : LimitUsage) : LimitUsage :=
  mkLimitUsage v (lu_turns r) (lu_tool_calls r) (lu_max_parallel_tools r) (lu_input_tokens r) (lu_output_tokens r) (lu_context_bytes r) (lu_output_bytes r) (lu_retries r) (lu_wall_time r) (lu_cost r) (lu_extension_counters r).
Definition set_lu_turns (v : Z) (r : LimitUsage) : LimitUsage :=
  mkLimitUsage (lu_model_requests r) v (lu_tool_calls r) (lu_max_parallel_tools r) (lu_input_tokens r) (lu_output_tokens r) (lu_context_bytes r) (lu_output_bytes r) (lu_retries r) (lu_wall_time r) (lu_cost r) (lu_extension_counters r).
Definition set_lu_tool_calls (v : Z) (r : LimitUsage) : LimitUsage :=
  mkLimitUsage (lu_model_requests r) (lu_turns r) v (lu_max_parallel_tools r) (lu_input_tokens r) (lu_output_tokens r) (lu_context_bytes r) (lu_output_bytes r) (lu_retries r) (lu_wall_time r) (lu_cost r) (lu_extension_counters r).
Definition set_lu_max_parallel_tools (v : Z) (r : LimitUsage) : LimitUsage :=
  mkLimitUsage (lu_model_requests r) (lu_turns r) (lu_tool_calls r) v (lu_input_tokens r) (lu_output_tokens r) (lu_context_bytes r) (lu_output_bytes r) (lu_retries r) (lu_wall_time r) (lu_cost r) (lu_extension_counters r).
Definition set_lu_input_tokens (v : Z) (r : LimitUsage) : LimitUsage :=
  mkLimitUsage (lu_model_requests r) (lu_turns r) (lu_tool_calls r) (lu_max_parallel_tools r) v (lu_output_tokens r) (lu_context_bytes r) (lu_output_bytes r) (lu_retries r) (lu_wall_time r) (lu_cost r) (lu_extension_counters r).
Definition set_lu_output_tokens (v : Z) (r : LimitUsage) : LimitUsage :=
  mkLimitUsage (lu_model_requests r) (lu_turns r) (lu_tool_calls r) (lu_max_parallel_tools r) (lu_input_tokens r) v (lu_context_bytes r) (lu_output_bytes r) (lu_retries r) (lu_wall_time r) (lu_cost r) (lu_extension_counters r).
Definition set_lu_context_bytes (v : Z) (r : LimitUsage) : LimitUsage :=
  mkLimitUsage (lu_model_requests r) (lu_turns r) (lu_tool_calls r) (lu_max_parallel_tools r) (lu_input_tokens r) (lu_output_tokens r) v (lu_output_bytes r) (lu_retries r) (lu_wall_time r) (lu_cost r) (lu_extension_counters r).
Definition set_lu_output_bytes (v : Z) (r : LimitUsage) : LimitUsage :=
  mkLimitUsage (lu_model_requests r) (lu_turns r) (lu_tool_calls r) (lu_max_parallel_tools r) (lu_input_tokens r) (lu_output_tokens r) (lu_context_bytes r) v (lu_retries r) (lu_wall_time r) (lu_cost r) (lu_extension_counters r).
Definition set_lu_retries (v : Z) (r : LimitUsage) : LimitUsage :=
  mkLimitUsage (lu_model_requests r) (lu_turns r) (lu_tool_calls r) (lu_max_parallel_tools r) (lu_input_tokens r) (lu_output_tokens r) (lu_context_bytes r) (lu_output_bytes r) v (lu_wall_time r) (lu_cost r) (lu_extension_counters r).
Definition set_lu_wall_time (v : Duration) (r : LimitUsage) : LimitUsage :=
  mkLimitUsage (lu_model_requests r) (lu_turns r) (lu_tool_calls r) (lu_max_parallel_tools r) (lu_input_tokens r) (lu_output_tokens r) (lu_context_bytes r) (lu_output_bytes r) (lu_retries r) v (lu_cost r) (lu_extension_counters r).
Definition set_lu_cost (v : option CostAmount) (r : LimitUsage) : LimitUsage :=
  mkLimitUsage (lu_model_requests r) (lu_turns r) (lu_tool_calls r) (lu_max_parallel_tools r) (lu_input_tokens r) (lu_output_tokens r) (lu_context_bytes r) (lu_output_bytes r) (lu_retries r) (lu_wall_time r) v (lu_extension_counters r).
Definition set_lu_extension_counters (v : gmap LimitKey Z) (r : LimitUsage) : LimitUsage :=
  mkLimitUsage (lu_model_requests r) (lu_turns r) (lu_tool_calls r) (lu_max_parallel_tools r) (lu_input_tokens r) (lu_output_tokens r) (lu_context_bytes r) (lu_output_bytes r) (lu_retries r) (lu_wall_time r) (lu_cost r) v.

Definition set_ct_model_request_id (v : option ModelRequestId) (r : CurrentTurn) : CurrentTurn :=
  mkCurrentTurn (ct_cycle r) (ct_turn_id r) (ct_context r) v (ct_effect_id r) (ct_final_message_id r).
Definition set_ct_effect_id (v : option EffectId) (r : CurrentTurn) : CurrentTurn :=
  mkCurrentTurn (ct_cycle r) (ct_turn_id r) (ct_context r) (ct_model_request_id r) v (ct_final_message_id r).
Definition set_ct_final_message_id (v : option MessageId) (r : CurrentTurn) : CurrentTurn :=
  mkCurrentTurn (ct_cycle r) (ct_turn_id r) (ct_context r) (ct_model_request_id r) (ct_effect_id r) v.

Definition set_pme_deferred (v : option EffectDeferred) (r : PendingModelEffect) : PendingModelEffect :=
  mkPendingModelEffect (pme_cycle r) (pme_turn_id r) (pme_model_request_id r) (pme_requested r) v.

Definition set_rst_attempts (v : Z) (r : RetryState) : RetryState :=
  mkRetryState v (rst_pending r) (rst_timer_firings r).
Definition set_rst_pending (v : option RetryScheduled) (r : RetryState) : RetryState :=
  mkRetryState (rst_attempts r) v (rst_timer_firings r).
Definition set_rst_timer_firings (v : gmap EffectId TimerFired) (r : RetryState) : RetryState :=
  mkRetryState (rst_attempts r) (rst_pending r) v.

Definition set_cs_completed_effects (v : list EffectId) (r : CancellationState) : CancellationState :=
  mkCancellationState (cs_request r) (cs_prior_phase r) v (cs_cancelled_effects r) (cs_uncertain_effects r) (cs_outstanding_effects r).
Definition set_cs_cancelled_effects (v : list EffectId) (r : CancellationState) : CancellationState :=
  mkCancellationState (cs_request r) (cs_prior_phase r) (cs_completed_effects r) v (cs_uncertain_effects r) (cs_outstanding_effects r).
Definition set_cs_uncertain_effects (v : list EffectId) (r : CancellationState) : CancellationState :=
  mkCancellationState (cs_request r) (cs_prior_phase r) (cs_completed_effects r) (cs_cancelled_effects r) v (cs_outstanding_effects r).
Definition set_cs_outstanding_effects (v : list EffectId) (r : CancellationState) : CancellationState :=
  mkCancellationState (cs_request r) (cs_prior_phase r) (cs_completed_effects r) (cs_cancelled_effects r) (cs_uncertain_effects r) v.

Definition set_brp_settlement (v : option BudgetReservationReceipt) (r : BudgetReservationReplay) : BudgetReservationReplay :=
  mkBudgetReservationReplay (brp_request r) v (brp_release r).
Definition set_brp_release (v : option BudgetReleaseReceipt) (r : BudgetReservationReplay) : BudgetReservationReplay :=
  mkBudgetReservationReplay (brp_request r) (brp_settlement r) v.

Definition set_tci_tool_batch_id (v : option ToolBatchId) (r : ToolCallIdentity) : ToolCallIdentity :=
  mkToolCallIdentity (tci_cycle r) (tci_turn_id r) (tci_source_message_id r) v (tci_effect_id r) (tci_call r).
Definition set_tci_effect_id (v : option EffectId) (r : ToolCallIdentity) : ToolCallIdentity :=
  mkToolCallIdentity (tci_cycle r) (tci_turn_id r) (tci_source_message_id r) (tci_tool_batch_id r) v (tci_call r).

Definition set_atb_next_source_index (v : Z) (r : ActiveToolBatch) : ActiveToolBatch :=
  mkActiveToolBatch (atb_opened r) (atb_calls r) (atb_current_group r) v (atb_result_message_ids r) (atb_fatal_error r) (atb_effect_index r) (atb_current_group_open r) (atb_unsettled_count r) (atb_undispatched_count r).
Definition set_atb_result_message_ids (v : list MessageId) (r : ActiveToolBatch) : ActiveToolBatch :=
  mkActiveToolBatch (atb_opened r) (atb_calls r) (atb_current_group r) (atb_next_source_index r) v (atb_fatal_error r) (atb_effect_index r) (atb_current_group_open r) (atb_unsettled_count r) (atb_undispatched_count r).
Definition set_atb_fatal_error (v : option ErrorDescriptor) (r : ActiveToolBatch) : ActiveToolBatch :=
  mkActiveToolBatch (atb_opened r) (atb_calls r) (atb_current_group r) (atb_next_source_index r) (atb_result_message_ids r) v (atb_effect_index r) (atb_current_group_open r) (atb_unsettled_count r) (atb_undispatched_count r).

(** [KernelState::default]. *)
Definition LimitUsage_default : LimitUsage :=
  mkLimitUsage 0 0 0 0 0 0 0 0 0 0 None ∅.

Definition RetryState_default : RetryState := mkRetryState 0 None ∅.

Definition KernelState_default : KernelState :=
  mkKernelState 1 0 None None None None None 0 None [] None None None ∅ ∅ ∅ ∅ None ∅ None None ∅ ∅ None
    None [] None None None ∅ ∅ ∅ LimitUsage_default None RetryState_default None None None.

(** The terminal phases, [Completed | Failed | Cancelled]. *)
Definition is_terminal_phase (p : option RunPhase) : bool :=
  match p with
  | Some (RunPhase_Completed | RunPhase_Failed | RunPhase_Cancelled) => true
  | _ => false
  end.
