(* ===== verification/Inputs.v ===== *)
(** * Reducer vocabulary

    Data of [crates/finstack-ai-kernel/src/reducer/input.rs] and
    [reducer/decision.rs]: normalized inputs, decisions, committed batches and
    the stable errors of the reducer. *)

From S2P Require Import Prelude Primitives Effects Records State.

Inductive DiagnosticSeverity : Type :=
| DiagnosticSeverity_Debug
| DiagnosticSeverity_Info
| DiagnosticSeverity_Warning
| DiagnosticSeverity_Error.
#[global] Instance DiagnosticSeverity_eq_dec : EqDecision DiagnosticSeverity.
Proof. solve_decision. Defined.

Record Diagnostic : Type := mkDiagnostic {
  dg_code : string;
  dg_message : string;
  dg_severity : DiagnosticSeverity;
  dg_metadata : Metadata
}.
#[global] Instance Diagnostic_eq_dec : EqDecision Diagnostic.
Proof. solve_decision. Defined.

(** ** Decisions, batches, errors *)

Inductive PostCommitAction : Type :=
| PostCommitAction_ExecuteEffect (effect_id : EffectId)
| PostCommitAction_CancelEffect (effect_id : EffectId).
#[global] Instance PostCommitAction_eq_dec : EqDecision PostCommitAction.
Proof. solve_decision. Defined.

Record Decision : Type := mkDecision {
  dec_expected_sequence : Z;
  dec_records : list RecordDraft;
  dec_actions : list PostCommitAction;
  dec_diagnostics : list Diagnostic
}.

Record CommittedBatch : Type := mkCommittedBatch {
  cb_batch_id : AppendBatchId;
  cb_first_sequence : Z;
  cb_last_sequence : Z;
  cb_records : list RecordEnvelope
}.

Inductive KernelError : Type :=
| KernelError_InvalidInputPayload (field : string) (reason_code : string)
| KernelError_InvalidRunAcceptance
| KernelError_InvalidPhaseInput (phase : (option RunPhase)) (input : string)
| KernelError_StageCursorMismatch (expected : StageCursor) (actual : StageCursor)
| KernelError_ModelRequestContractMismatch
| KernelError_ModelSettlementMismatch
| KernelError_DuplicateToolCall
| KernelError_ToolBatchPlanMismatch
| KernelError_ToolEffectContractMismatch
| KernelError_ToolSettlementMismatch
| KernelError_ToolResultMismatch
| KernelError_AssistantMessagePresenceMismatch
| KernelError_AssistantMessageMismatch
| KernelError_SettlementDigestMismatch
| KernelError_ContextDigestMismatch
| KernelError_ConflictingCompletionId
| KernelError_CycleOverflow
| KernelError_AllocatedIdsExhausted (kind : string)
| KernelError_UnusedAllocatedIds (kind : string)
| KernelError_StateCapacityExceeded (field : string)
| KernelError_CommittedBatchRangeMismatch
| KernelError_NonContiguousRecordSequence
| KernelError_RecordIdentityMismatch
| KernelError_InvalidRecordOrder
| KernelError_EffectNotPending (effect_id : EffectId)
| KernelError_ConflictingSettlement
| KernelError_TerminalStateImmutable
| KernelError_StateHashFailed
| KernelError_InvariantViolation.
#[global] Instance KernelError_eq_dec : EqDecision KernelError.
Proof. solve_decision. Defined.

(** ** Normalized inputs *)

Inductive ExtensionSettlement : Type :=
| ExtensionSettlement_Completed (value : EffectCompleted)
| ExtensionSettlement_Failed (value : EffectFailed).
#[global] Instance ExtensionSettlement_eq_dec : EqDecision ExtensionSettlement.
Proof. solve_decision. Defined.

Record ExtensionEffectSettled : Type := mkExtensionEffectSettled {
  xes_cursor : StageCursor;
  xes_outcome : ExtensionSettlement
}.
#[global] Instance ExtensionEffectSettled_eq_dec : EqDecision ExtensionEffectSettled.
Proof. solve_decision. Defined.

Record RequestExtensionEffect : Type := mkRequestExtensionEffect {
  rxe_requested : EffectRequested
}.
#[global] Instance RequestExtensionEffect_eq_dec : EqDecision RequestExtensionEffect.
Proof. solve_decision. Defined.

Record RequestCompactionModel : Type := mkRequestCompactionModel {
  rcm_request : RawJson;
  rcm_component : option ComponentInvocation;
  rcm_relation : EffectRelation;
  rcm_output_contract : EffectOutputContract;
  rcm_retry_safety : RetrySafety;
  rcm_deadline : option Timestamp
}.
#[global] Instance RequestCompactionModel_eq_dec : EqDecision RequestCompactionModel.
Proof. solve_decision. Defined.

Record RequestInteraction : Type := mkRequestInteraction {
  rqi_request : InteractionRequest
}.
#[global] Instance RequestInteraction_eq_dec : EqDecision RequestInteraction.
Proof. solve_decision. Defined.

Inductive InteractionSettled : Type :=
| InteractionSettled_Resolved (value : InteractionResolution)
| InteractionSettled_Expired (value : InteractionExpired)
| InteractionSettled_Cancelled (value : InteractionCancelled).
#[global] Instance InteractionSettled_eq_dec : EqDecision InteractionSettled.
Proof. solve_decision. Defined.

Record CancelRequested : Type := mkCancelRequested {
  crq_initiator : CancellationInitiator;
  crq_reason : option string
}.
#[global] Instance CancelRequested_eq_dec : EqDecision CancelRequested.
Proof. solve_decision. Defined.

Record CancellationReconciledInput : Type := mkCancellationReconciledInput {
  cri_request_id : CancellationRequestId;
  cri_completed_effects : list EffectId;
  cri_cancelled_effects : list EffectId;
  cri_uncertain_effects : list EffectId
}.
#[global] Instance CancellationReconciledInput_eq_dec : EqDecision CancellationReconciledInput.
Proof. solve_decision. Defined.

Record TimerFiredInput : Type := mkTimerFiredInput {
  tfi_effect_id : EffectId;
  tfi_due_at : Timestamp;
  tfi_fired_at : Timestamp
}.
#[global] Instance TimerFiredInput_eq_dec : EqDecision TimerFiredInput.
Proof. solve_decision. Defined.

Record AcceptRun : Type := mkAcceptRun {
  ar_session_id : SessionId;
  ar_lane_id : LaneId;
  ar_accepted : RunAccepted
}.

Inductive ReducerStageOutcome : Type :=
| ReducerStageOutcome_Continue
| ReducerStageOutcome_ContextPrepared (messages : (list Message))
| ReducerStageOutcome_ModelRequestPrepared (request : RawJson) (component : (option ComponentInvocation)) (output_contract : EffectOutputContract) (retry_safety : RetrySafety) (deadline : (option Timestamp))
| ReducerStageOutcome_ToolBatchPrepared (calls : (list ToolCallPlan)) (continuation : ToolBatchContinuation)
| ReducerStageOutcome_FinalizeAccepted
| ReducerStageOutcome_ContinueModel (reason : (option string))
| ReducerStageOutcome_Retry (value : RetryDirective)
| ReducerStageOutcome_Fail (value : ErrorDescriptor).
#[global] Instance ReducerStageOutcome_eq_dec : EqDecision ReducerStageOutcome.
Proof. solve_decision. Defined.

Record StageSettled : Type := mkStageSettled {
  ss_cursor : StageCursor;
  ss_outcome : ReducerStageOutcome
}.
#[global] Instance StageSettled_eq_dec : EqDecision StageSettled.
Proof. solve_decision. Defined.

Inductive ToolSettlement : Type :=
| ToolSettlement_Completed (value : EffectCompleted)
| ToolSettlement_Deferred (value : EffectDeferred)
| ToolSettlement_Failed (value : EffectFailed).
#[global] Instance ToolSettlement_eq_dec : EqDecision ToolSettlement.
Proof. solve_decision. Defined.

Record ToolBatchSettled : Type := mkToolBatchSettled {
  tbs_tool_batch_id : ToolBatchId;
  tbs_outcome : ToolSettlement
}.
#[global] Instance ToolBatchSettled_eq_dec : EqDecision ToolBatchSettled.
Proof. solve_decision. Defined.

Inductive ModelSettlement : Type :=
| ModelSettlement_Completed (completion : EffectCompleted) (assistant_message : Message)
| ModelSettlement_Deferred (value : EffectDeferred)
| ModelSettlement_Failed (value : EffectFailed).
#[global] Instance ModelSettlement_eq_dec : EqDecision ModelSettlement.
Proof. solve_decision. Defined.

Record ModelSettled : Type := mkModelSettled {
  ms_turn_id : TurnId;
  ms_model_request_id : ModelRequestId;
  ms_outcome : ModelSettlement
}.
#[global] Instance ModelSettled_eq_dec : EqDecision ModelSettled.
Proof. solve_decision. Defined.

Inductive ExternalEffectOutcome : Type :=
| ExternalEffectOutcome_Completed (output : RawJson) (usage : (option Usage)) (artifacts : (list ArtifactRef))
| ExternalEffectOutcome_Failed (error : ErrorDescriptor).
#[global] Instance ExternalEffectOutcome_eq_dec : EqDecision ExternalEffectOutcome.
Proof. solve_decision. Defined.

Record ExternalEffectCompletion : Type := mkExternalEffectCompletion {
  xec_effect_id : EffectId;
  xec_completion_id : string;
  xec_outcome : ExternalEffectOutcome
}.
#[global] Instance ExternalEffectCompletion_eq_dec : EqDecision ExternalEffectCompletion.
Proof. solve_decision. Defined.

Record ExternalEffectCompletedInput : Type := mkExternalEffectCompletedInput {
  xei_completion : ExternalEffectCompletion;
  xei_assistant_message : option Message
}.
#[global] Instance ExternalEffectCompletedInput_eq_dec : EqDecision ExternalEffectCompletedInput.
Proof. solve_decision. Defined.

Inductive KernelInput : Type :=
| KernelInput_AcceptRun (value : AcceptRun)
| KernelInput_StageSettled (value : StageSettled)
| KernelInput_ModelSettled (value : ModelSettled)
| KernelInput_ExternalEffectCompleted (value : ExternalEffectCompletedInput)
| KernelInput_ToolBatchSettled (value : ToolBatchSettled)
| KernelInput_CancelRequested (value : CancelRequested)
| KernelInput_CancellationReconciled (value : CancellationReconciledInput)
| KernelInput_TimerFired (value : TimerFiredInput)
| KernelInput_ConfigureOutput (value : OutputConfiguration)
| KernelInput_CapabilitiesActivated (value : CapabilitiesActivated)
| KernelInput_OutputValidated (value : OutputValidated)
| KernelInput_RecordExternalCommandRejected (value : RecordExternalCommandRejected)
| KernelInput_RequestInteraction (value : RequestInteraction)
| KernelInput_InteractionSettled (value : InteractionSettled)
| KernelInput_RequestCompactionModel (value : RequestCompactionModel)
| KernelInput_RequestExtensionEffect (value : RequestExtensionEffect)
| KernelInput_ExtensionEffectSettled (value : ExtensionEffectSettled).

