(* ===== verification/ToolBatch.v ===== *)
(** * The active tool batch

    The replay-derived batch of [records/tools.rs]: source-ordered calls with
    an effect index and three counters that the source maintains incrementally
    so that group and batch completion are constant-time questions.  The file
    models every operation on the batch and proves that the incremental index
    and counters always agree with a recount of the calls, so that the cached
    answers equal their reference definitions. *)

From S2P Require Import Prelude Primitives Effects Records.

(** ** Plans *)

(** [ToolCallPlan::call]. *)
Definition plan_call (p : ToolCallPlan) : ToolCallBlock :=
  match p with
  | ToolCallPlan_Execute v => vt_call v
  | ToolCallPlan_SyntheticClosure v => sy_call v
  end.

(** [ToolCallPlan::execution]. *)
Definition plan_execution (p : ToolCallPlan) : ToolExecutionMode :=
  match p with
  | ToolCallPlan_Execute v => vt_execution v
  | ToolCallPlan_SyntheticClosure v => sy_execution v
  end.

(** [ToolCallPlan::failure_policy]. *)
Definition plan_failure_policy (p : ToolCallPlan) : ToolFailurePolicy :=
  match p with
  | ToolCallPlan_Execute v => vt_failure_policy v
  | ToolCallPlan_SyntheticClosure v => sy_failure_policy v
  end.

Definition is_execute (p : ToolCallPlan) : bool :=
  match p with ToolCallPlan_Execute _ => true | _ => false end.

(** ** Call status *)

Definition is_undispatched (s : ActiveToolCallStatus) : bool :=
  match s with ActiveToolCallStatus_Undispatched => true | _ => false end.
Definition is_requested (s : ActiveToolCallStatus) : bool :=
  match s with ActiveToolCallStatus_Requested _ _ => true | _ => false end.
Definition is_buffered (s : ActiveToolCallStatus) : bool :=
  match s with ActiveToolCallStatus_Buffered _ _ _ _ => true | _ => false end.
Definition is_settled (s : ActiveToolCallStatus) : bool :=
  match s with ActiveToolCallStatus_Settled _ _ => true | _ => false end.

Record StatusKind : Type := mkStatusKind {
  sk_undispatched : bool;
  sk_unsettled : bool;
  sk_open : bool
}.

Definition status_kind (s : ActiveToolCallStatus) : StatusKind :=
  mkStatusKind (is_undispatched s) (negb (is_settled s)) (is_undispatched s || is_requested s).

(** [bump]: move a counter when the tracked predicate changes. *)
Definition bump (counter : Z) (was now : bool) : Z :=
  if eqb was now then counter
  else if now then u32_saturating_add counter 1 else u32_saturating_sub counter 1.

(** ** Construction and reindexing *)

Definition with_calls (calls : list ActiveToolCall) (b : ActiveToolBatch) : ActiveToolBatch :=
  mkActiveToolBatch (atb_opened b) calls (atb_current_group b) (atb_next_source_index b)
    (atb_result_message_ids b) (atb_fatal_error b) (atb_effect_index b) (atb_current_group_open b)
    (atb_unsettled_count b) (atb_undispatched_count b).

Definition with_counters (index : gmap EffectId Z) (open unsettled undispatched : Z)
    (b : ActiveToolBatch) : ActiveToolBatch :=
  mkActiveToolBatch (atb_opened b) (atb_calls b) (atb_current_group b) (atb_next_source_index b)
    (atb_result_message_ids b) (atb_fatal_error b) index open unsettled undispatched.

(** One iteration of the [for] loop of [reindex]. *)
Definition reindex_step (b : ActiveToolBatch) (entry : nat * ActiveToolCall) : ActiveToolBatch :=
  let '(index, call) := entry in
  let effect_index :=
    if Z.of_nat index <=? u32_max
    then <[asg_effect_id (atc_assigned call) := Z.of_nat index]> (atb_effect_index b)
    else atb_effect_index b in
  let kind := status_kind (atc_status call) in
  let open := sk_open kind && (asg_group_index (atc_assigned call) =? atb_current_group b) in
  with_counters effect_index
    (bump (atb_current_group_open b) false open)
    (bump (atb_unsettled_count b) false (sk_unsettled kind))
    (bump (atb_undispatched_count b) false (sk_undispatched kind)) b.

Definition reindex (b : ActiveToolBatch) : ActiveToolBatch :=
  foldl reindex_step (with_counters ∅ 0 0 0 b) (enumerate (atb_calls b)).

Definition ActiveToolBatch_new (opened : ToolBatchOpened) (calls : list ActiveToolCall)
    (current_group next_source_index : Z) (result_message_ids : list MessageId)
    (fatal_error : option ErrorDescriptor) : ActiveToolBatch :=
  reindex (mkActiveToolBatch opened calls current_group next_source_index result_message_ids
             fatal_error ∅ 0 0 0).

(** ** Queries *)

Definition call_index (b : ActiveToolBatch) (effect_id : EffectId) : option nat :=
  Z.to_nat <$> atb_effect_index b !! effect_id.

Definition call (b : ActiveToolBatch) (effect_id : EffectId) : option ActiveToolCall :=
  index ← call_index b effect_id; atb_calls b !! index.

Definition group_is_terminal (b : ActiveToolBatch) (group : Z) : bool :=
  if group =? atb_current_group b then atb_current_group_open b =? 0
  else forallb (fun c => negb (asg_group_index (atc_assigned c) =? group)
                         || is_buffered (atc_status c) || is_settled (atc_status c)) (atb_calls b).

Definition all_settled (b : ActiveToolBatch) : bool := atb_unsettled_count b =? 0.

Definition next_executable_group (b : ActiveToolBatch) : option Z :=
  if atb_undispatched_count b =? 0 then None
  else find_map (fun c =>
         if is_undispatched (atc_status c) && is_execute (asg_plan (atc_assigned c))
         then Some (asg_group_index (atc_assigned c)) else None) (atb_calls b).

(** ** Updates *)

Definition adjust_counters (group : Z) (previous next : StatusKind) (b : ActiveToolBatch)
    : ActiveToolBatch :=
  let in_group := group =? atb_current_group b in
  with_counters (atb_effect_index b)
    (bump (atb_current_group_open b) (in_group && sk_open previous) (in_group && sk_open next))
    (bump (atb_unsettled_count b) (sk_unsettled previous) (sk_unsettled next))
    (bump (atb_undispatched_count b) (sk_undispatched previous) (sk_undispatched next)) b.

Definition set_call_status (index : nat) (status : ActiveToolCallStatus) (b : ActiveToolBatch)
    : ActiveToolBatch :=
  match atb_calls b !! index with
  | None => b
  | Some c =>
      adjust_counters (asg_group_index (atc_assigned c)) (status_kind (atc_status c)) (status_kind status)
        (with_calls (<[index := mkActiveToolCall (atc_assigned c) status]> (atb_calls b)) b)
  end.

Definition in_open_group (group : Z) (c : ActiveToolCall) : bool :=
  (asg_group_index (atc_assigned c) =? group) && sk_open (status_kind (atc_status c)).

Definition set_current_group (group : Z) (b : ActiveToolBatch) : ActiveToolBatch :=
  let open := Z.of_nat (count (in_open_group group) (atb_calls b)) in
  mkActiveToolBatch (atb_opened b) (atb_calls b) group (atb_next_source_index b)
    (atb_result_message_ids b) (atb_fatal_error b) (atb_effect_index b)
    (if open <=? u32_max then open else u32_max)
    (atb_unsettled_count b) (atb_undispatched_count b).

(** ** Predictions used to allocate identities before settling *)

Definition current_group_completes_after (b : ActiveToolBatch) (target : nat) : bool :=
  match atb_calls b !! target with
  | None => atb_current_group_open b =? 0
  | Some c =>
      if (asg_group_index (atc_assigned c) =? atb_current_group b) && sk_open (status_kind (atc_status c))
      then atb_current_group_open b <=? 1
      else atb_current_group_open b =? 0
  end.

Definition predicted_buffered (index target : nat) (abort_undispatched : bool)
    (status : ActiveToolCallStatus) : bool :=
  (index =? target)%nat || is_buffered status || (abort_undispatched && is_undispatched status).

Definition next_group_request_count (calls : list ActiveToolCall) (target : nat) : nat :=
  let dispatchable '(index, c) :=
    negb (index =? target)%nat && is_undispatched (atc_status c)
    && is_execute (asg_plan (atc_assigned c)) in
  match find_map (fun e => if dispatchable e then Some (asg_group_index (atc_assigned e.2)) else None)
          (enumerate calls) with
  | None => 0
  | Some group =>
      count (fun e => dispatchable e && (asg_group_index (atc_assigned e.2) =? group)) (enumerate calls)
  end.

(** The leading run of calls from [next_source_index] that will be buffered. *)
Fixpoint leading {A} (p : A -> bool) (l : list A) : nat :=
  match l with
  | [] => 0
  | a :: l' => if p a then S (leading p l') else 0
  end.

Definition predicted_settlement_counts (b : ActiveToolBatch) (target : nat) (fatal : bool)
    : nat * nat * nat :=
  let current_complete := current_group_completes_after b target in
  let abort_undispatched := fatal && current_complete in
  let start := Z.to_nat (atb_next_source_index b) in
  let messages :=
    leading (fun e => predicted_buffered e.1 target abort_undispatched (atc_status e.2))
      (drop start (enumerate (atb_calls b))) in
  let requests :=
    if negb fatal && current_complete then next_group_request_count (atb_calls b) target else 0%nat in
  let remaining := Z.to_nat (atb_unsettled_count b) in
  (messages, requests, if (remaining =? messages)%nat then 1%nat else 0%nat).

(** ** The index invariant *)

Section Invariant.
Implicit Types (b : ActiveToolBatch) (c : ActiveToolCall).

Definition undispatched_call c : bool := is_undispatched (atc_status c).
Definition unsettled_call c : bool := negb (is_settled (atc_status c)).
Definition effect_of c : EffectId := asg_effect_id (atc_assigned c).

(** Every index entry points at a call with that effect, and every call's
    effect is indexed. *)
Definition index_sound b : Prop :=
  forall e i, atb_effect_index b !! e = Some i ->
    0 <= i /\ exists c, atb_calls b !! Z.to_nat i = Some c /\ effect_of c = e.
Definition index_complete b : Prop :=
  forall c, c ∈ atb_calls b -> is_Some (atb_effect_index b !! effect_of c).

(** The cached counters agree with a recount. *)
Definition counters_exact b : Prop :=
  atb_undispatched_count b = Z.of_nat (count undispatched_call (atb_calls b)) /\
  atb_unsettled_count b = Z.of_nat (count unsettled_call (atb_calls b)) /\
  atb_current_group_open b = Z.of_nat (count (in_open_group (atb_current_group b)) (atb_calls b)).

Record indexed b : Prop := mk_indexed {
  indexed_bound : Z.of_nat (length (atb_calls b)) <= u32_max;
  indexed_sound : index_sound b;
  indexed_complete : index_complete b;
  indexed_counters : counters_exact b
}.

Lemma bump_exact n was now :
  0 <= n -> n + 1 <= u32_max -> (was = true -> 1 <= n) ->
  bump n was now = n - (if was then 1 else 0) + (if now then 1 else 0).
Proof. intros ?? Hw. unfold bump. destruct was, now; simpl; machine; specialize (Hw eq_refl); lia. Qed.

Lemma bump_false n now :
  0 <= n -> n + 1 <= u32_max -> bump n false now = n + (if now then 1 else 0).
Proof. intros. rewrite bump_exact by done. destruct now; lia. Qed.

Lemma bump_count {A} (p : A -> bool) (l : list A) i a a' :
  l !! i = Some a -> Z.of_nat (length l) <= u32_max ->
  bump (Z.of_nat (count p l)) (p a) (p a') = Z.of_nat (count p (<[i:=a']> l)).
Proof.
  intros Hi Hlen. pose proof (count_insert p l i a a' Hi) as Hc.
  pose proof (count_le_length p l). pose proof (count_le_length p (<[i:=a']> l)) as Hl'.
  rewrite length_insert in Hl'.
  destruct (p a) eqn:Ha, (p a') eqn:Ha'; unfold bump; simpl; machine.
Qed.

(** What the loop of [reindex] has established after a prefix [l1] of the
    calls. *)
Record reindexed (b0 : ActiveToolBatch) (l1 : list ActiveToolCall) b : Prop := mk_reindexed {
  reindexed_calls : atb_calls b = atb_calls b0;
  reindexed_group : atb_current_group b = atb_current_group b0;
  reindexed_sound : forall e i, atb_effect_index b !! e = Some i ->
    0 <= i /\ exists c, l1 !! Z.to_nat i = Some c /\ effect_of c = e;
  reindexed_complete : forall c, c ∈ l1 -> is_Some (atb_effect_index b !! effect_of c);
  reindexed_undispatched : atb_undispatched_count b = Z.of_nat (count undispatched_call l1);
  reindexed_unsettled : atb_unsettled_count b = Z.of_nat (count unsettled_call l1);
  reindexed_open :
    atb_current_group_open b = Z.of_nat (count (in_open_group (atb_current_group b0)) l1)
}.

Lemma reindex_step_ok b0 l1 c b :
  Z.of_nat (length l1) + 1 <= u32_max ->
  reindexed b0 l1 b -> reindexed b0 (l1 ++ [c]) (reindex_step b (length l1, c)).
Proof.
  intros Hlen [Hcalls Hgroup Hsound Hcomplete Hund Huns Hopen].
  pose proof (fun p => count_le_length p l1) as Hcount.
  assert (Z.of_nat (length l1) <=? u32_max = true) as Hle by (apply Z.leb_le; lia).
  unfold reindex_step. rewrite Hle. split; simpl; try done.
  - intros e i. rewrite lookup_insert. case_decide as He.
    + intros [= <-]. split; [lia|]. exists c. rewrite Nat2Z.id.
      rewrite list_lookup_middle by done. done.
    + intros [Hi (c' & Hc' & ?)]%Hsound. split; [done|]. exists c'.
      by rewrite (lookup_app_l_Some _ _ _ _ Hc').
  - intros c' [Hc'| ->%list_elem_of_singleton]%elem_of_app; rewrite lookup_insert; case_decide; try done.
    by apply Hcomplete.
  - rewrite Hund, count_app, count_cons. unfold count at 3; simpl.
    specialize (Hcount undispatched_call). rewrite bump_false by lia.
    change (is_undispatched (atc_status c)) with (undispatched_call c).
    destruct (undispatched_call c); lia.
  - rewrite Huns, count_app, count_cons. unfold count at 3; simpl.
    specialize (Hcount unsettled_call). rewrite bump_false by lia.
    change (negb (is_settled (atc_status c))) with (unsettled_call c).
    destruct (unsettled_call c); lia.
  - rewrite Hopen, Hgroup, count_app, count_cons. unfold count at 3; simpl.
    specialize (Hcount (in_open_group (atb_current_group b0))). rewrite bump_false by lia.
    rewrite andb_comm. change (_ && (is_undispatched _ || _)) with (in_open_group (atb_current_group b0) c).
    destruct (in_open_group _ c); lia.
Qed.

Lemma reindex_loop_ok b0 l2 l1 b :
  Z.of_nat (length (l1 ++ l2)) <= u32_max ->
  reindexed b0 l1 b ->
  reindexed b0 (l1 ++ l2) (foldl reindex_step b (zip (seq (length l1) (length l2)) l2)).
Proof.
  revert l1 b. induction l2 as [|c l2 IH]; intros l1 b Hlen Hb; simpl; [by rewrite app_nil_r|].
  rewrite length_app in Hlen. simpl in Hlen.
  replace (S (length l1)) with (length (l1 ++ [c])) by (rewrite length_app; simpl; lia).
  replace (l1 ++ c :: l2) with ((l1 ++ [c]) ++ l2) by by rewrite <- app_assoc.
  apply IH; [rewrite !length_app; simpl; lia|]. apply reindex_step_ok; [lia|done].
Qed.

Lemma reindex_indexed b : Z.of_nat (length (atb_calls b)) <= u32_max -> indexed (reindex b).
Proof.
  intros Hlen.
  assert (reindexed b (atb_calls b) (reindex b)) as [Hc Hg Hs Hcm Hu Hn Ho].
  { apply (reindex_loop_ok b (atb_calls b) []); [done|]. split; simpl; try done.
    by intros c ?%elem_of_nil. }
  split; [by rewrite Hc | | | split; [|split]]; try unfold index_sound, index_complete; rewrite ?Hc, ?Hg; done.
Qed.

Lemma set_call_status_indexed i st b : indexed b -> indexed (set_call_status i st b).
Proof.
  intros [Hlen Hsound Hcomplete (Hu & Hn & Ho)]. unfold set_call_status.
  destruct (atb_calls b !! i) as [c|] eqn:Hi; [|by split].
  assert (forall j c', atb_calls b !! j = Some c' ->
    exists c'', <[i:=mkActiveToolCall (atc_assigned c) st]> (atb_calls b) !! j = Some c'' /\
      effect_of c'' = effect_of c') as Hkeep.
  { intros j c' Hj. destruct (decide (i = j)) as [<-|Hne].
    - simplify_eq. eexists. rewrite list_lookup_insert_eq by (by eapply lookup_lt_Some). done.
    - exists c'. by rewrite list_lookup_insert_ne. }
  set (c1 := mkActiveToolCall (atc_assigned c) st) in *.
  split; simpl.
  - by rewrite length_insert.
  - intros e k [Hk (c' & Hc' & He)]%Hsound. split; [done|].
    destruct (Hkeep _ _ Hc') as (c'' & ? & ?). exists c''. split; [done|congruence].
  - intros c' [j Hj]%list_elem_of_lookup. simpl in Hj.
    destruct (decide (i = j)) as [<-|Hne].
    + rewrite list_lookup_insert_eq in Hj by (by eapply lookup_lt_Some). simplify_eq.
      apply (Hcomplete c). by eapply list_elem_of_lookup_2.
    + rewrite list_lookup_insert_ne in Hj by done. apply Hcomplete. by eapply list_elem_of_lookup_2.
  - split; [|split]; simpl; rewrite ?Hu, ?Hn, ?Ho.
    + by apply (bump_count undispatched_call _ i c c1).
    + by apply (bump_count unsettled_call _ i c c1).
    + by apply (bump_count (in_open_group _) _ i c c1).
Qed.

Lemma set_current_group_indexed g b : indexed b -> indexed (set_current_group g b).
Proof.
  intros [Hlen Hsound Hcomplete (Hu & Hn & Ho)]. split; try done. split; [done|split; [done|]]. simpl.
  pose proof (count_le_length (in_open_group g) (atb_calls b)).
  destruct (Z.leb_spec (Z.of_nat (count (in_open_group g) (atb_calls b))) u32_max); [done|lia].
Qed.

(** Reference definitions that recount the calls. *)
Definition group_is_terminal_ref b (group : Z) : bool :=
  forallb (fun c => negb (asg_group_index (atc_assigned c) =? group)
                    || is_buffered (atc_status c) || is_settled (atc_status c)) (atb_calls b).
Definition all_settled_ref b : bool := forallb (fun c => is_settled (atc_status c)) (atb_calls b).
Definition next_executable_group_ref b : option Z :=
  find_map (fun c =>
    if is_undispatched (atc_status c) && is_execute (asg_plan (atc_assigned c))
    then Some (asg_group_index (atc_assigned c)) else None) (atb_calls b).

Lemma count_zero_forallb {A} (p q : A -> bool) l :
  (forall a, q a = negb (p a)) -> (Z.of_nat (count p l) =? 0) = forallb q l.
Proof.
  intros Hq. induction l as [|a l IH]; [done|]. rewrite count_cons. simpl. rewrite <- IH, Hq.
  destruct (p a); simpl; lia.
Qed.

Lemma group_is_terminal_cached b g :
  counters_exact b -> group_is_terminal b g = group_is_terminal_ref b g.
Proof.
  intros (_ & _ & Ho). unfold group_is_terminal, group_is_terminal_ref.
  destruct (Z.eqb_spec g (atb_current_group b)) as [->|]; [|done].
  rewrite Ho. apply count_zero_forallb. intros c. unfold in_open_group, status_kind. simpl.
  by destruct (_ =? _), (atc_status c).
Qed.

Lemma all_settled_cached b : counters_exact b -> all_settled b = all_settled_ref b.
Proof.
  intros (_ & Hn & _). unfold all_settled. rewrite Hn. apply count_zero_forallb.
  intros c. unfold unsettled_call. by rewrite negb_involutive.
Qed.

Lemma next_executable_group_cached b :
  counters_exact b -> next_executable_group b = next_executable_group_ref b.
Proof.
  intros (Hu & _ & _). unfold next_executable_group, next_executable_group_ref. rewrite Hu.
  destruct (Z.eqb_spec (Z.of_nat (count undispatched_call (atb_calls b))) 0) as [Hz|]; [|done].
  assert (forall c, c ∈ atb_calls b -> undispatched_call c = false) as Hall by (apply count_zero; lia).
  clear Hz Hu. induction (atb_calls b) as [|c l IH]; [done|]. simpl.
  assert (is_undispatched (atc_status c) = false) as -> by (apply Hall; set_solver).
  simpl. apply IH. set_solver.
Qed.

(** Lookup by effect is exact when effects are distinct. *)
Lemma call_exact b e c :
  indexed b -> NoDup (effect_of <$> atb_calls b) ->
  call b e = Some c <-> c ∈ atb_calls b /\ effect_of c = e.
Proof.
  intros [_ Hsound Hcomplete _] Hnd. unfold call, call_index. split.
  - destruct (atb_effect_index b !! e) as [i|] eqn:Hi; simpl; [|done].
    intros Hc. destruct (Hsound _ _ Hi) as [_ (c' & Hc' & ?)].
    rewrite Hc' in Hc. simplify_eq. split; [by eapply list_elem_of_lookup_2|done].
  - intros [Hin <-]. destruct (Hcomplete _ Hin) as [i Hi]. rewrite Hi. simpl.
    destruct (Hsound _ _ Hi) as [_ (c' & Hc' & He)]. rewrite Hc'. f_equal.
    apply list_elem_of_lookup in Hin as [j Hj].
    assert (Z.to_nat i = j) as <-; [|congruence].
    apply (NoDup_lookup _ _ _ (effect_of c) Hnd); rewrite list_lookup_fmap, ?Hc', ?Hj; simpl; congruence.
Qed.
End Invariant.
