(* ===== verification/Digests.v ===== *)
(** * Digests and settlement fingerprints

    Models [primitives/digest.rs] and [reducer/fingerprint/*.rs].  SHA-256 (the
    [sha2] crate) and RFC 8785 canonical JSON ([serde_json_canonicalizer] with
    the derived serializers) are the two operations of the class [Hasher]; the
    rest of a digest, its domain-separated preimage and the value it covers, is
    the source's own code.  The projections of [state/projection.rs] repeat
    every field of the value they project, so a fingerprint here carries the
    value itself. *)

From S2P Require Import Prelude Primitives Effects Records State Inputs.

(** ** Fingerprints *)

Inductive StageSettlementFingerprintV1 : Type :=
| StageFp_Continue (cursor : StageCursor)
| StageFp_ContextPrepared (cursor : StageCursor) (messages : list Message)
| StageFp_ModelRequestPrepared (cursor : StageCursor) (request : RawJson)
    (component : option ComponentInvocation) (output_contract : EffectOutputContract)
    (retry_safety : RetrySafety) (deadline : option Timestamp)
| StageFp_ToolBatchPrepared (cursor : StageCursor) (calls : list ToolCallPlan)
    (continuation : ToolBatchContinuation)
| StageFp_FinalizeAccepted (cursor : StageCursor)
| StageFp_ContinueModel (cursor : StageCursor)
| StageFp_Retry (cursor : StageCursor) (classification : RetryClassification)
    (backoff : Duration) (policy_version : string)
| StageFp_Fail (cursor : StageCursor) (error : ErrorDescriptor).

Inductive ModelSettlementFingerprintV1 : Type :=
| ModelFp_DirectCompleted (turn_id : TurnId) (model_request_id : ModelRequestId)
    (completion : EffectCompleted) (assistant_message : Message)
| ModelFp_DirectFailed (turn_id : TurnId) (model_request_id : ModelRequestId) (failure : EffectFailed)
| ModelFp_DirectDeferred (turn_id : TurnId) (model_request_id : ModelRequestId)
    (deferred : EffectDeferred)
| ModelFp_ExternalCompleted (effect_id : EffectId) (completion_id : string) (output : RawJson)
    (usage : option Usage) (artifacts : list ArtifactRef) (assistant_message : Message)
| ModelFp_ExternalFailed (effect_id : EffectId) (completion_id : string) (error : ErrorDescriptor).

Inductive ToolSettlementFingerprintV1 : Type :=
| ToolFp_DirectCompleted (tool_batch_id : ToolBatchId) (completion : EffectCompleted)
| ToolFp_DirectFailed (tool_batch_id : ToolBatchId) (failure : EffectFailed)
| ToolFp_DirectDeferred (tool_batch_id : ToolBatchId) (deferred : EffectDeferred)
| ToolFp_ExternalCompleted (tool_batch_id : ToolBatchId) (effect_id : EffectId)
    (completion_id : string) (output : RawJson) (usage : option Usage) (artifacts : list ArtifactRef)
| ToolFp_ExternalFailed (tool_batch_id : ToolBatchId) (effect_id : EffectId)
    (completion_id : string) (error : ErrorDescriptor)
| ToolFp_Synthetic (tool_batch_id : ToolBatchId) (tool_call_id : ToolCallId) (effect_id : EffectId)
    (result : ToolResultBlock) (error : ErrorDescriptor).

Record ToolBatchPlanFingerprintV1 : Type := mkToolBatchPlanFingerprintV1 {
  tbpf_cycle : Z;
  tbpf_turn_id : TurnId;
  tbpf_tool_batch_id : ToolBatchId;
  tbpf_source_message_id : MessageId;
  tbpf_calls : list AssignedToolCall;
  tbpf_continuation : ToolBatchContinuation
}.

Record ToolBatchCloseFingerprintV1 : Type := mkToolBatchCloseFingerprintV1 {
  tbcf_cycle : Z;
  tbcf_turn_id : TurnId;
  tbcf_tool_batch_id : ToolBatchId;
  tbcf_source_message_id : MessageId;
  tbcf_result_message_ids : list MessageId;
  tbcf_outcome : ToolBatchOutcome
}.

(** Every value the kernel canonicalizes. *)
Inductive Canonical : Type :=
| Canon_EffectInput (v : EffectInput)
| Canon_Usage (v : Usage)
| Canon_Messages (v : list Message)
| Canon_Prompt (v : list ContentBlock)
| Canon_InteractionRequest (v : InteractionRequest)
| Canon_Stage (v : StageSettlementFingerprintV1)
| Canon_Model (v : ModelSettlementFingerprintV1)
| Canon_Compaction (turn_id : TurnId) (model_request_id : ModelRequestId) (v : EffectCompleted)
| Canon_Tool (v : ToolSettlementFingerprintV1)
| Canon_ToolPlan (v : ToolBatchPlanFingerprintV1)
| Canon_ToolClose (v : ToolBatchCloseFingerprintV1)
| Canon_Extension (v : ExtensionEffectSettled)
| Canon_Resolution (v : InteractionResolution)
| Canon_LimitUsage (v : LimitUsage)
| Canon_BudgetReserve (scope_id : BudgetScopeId) (reservation_id : BudgetReservationId)
    (run_id : RunId) (amount : BudgetRequest)
| Canon_BudgetRelease (scope_id : BudgetScopeId) (reservation_id : BudgetReservationId)
    (terminal_run_id : RunId).

(** The two third-party operations the kernel's digests rest on. *)
Class Hasher : Type := {
  sha256 : string -> Digest;
  canonicalize : Canonical -> option string
}.

(** ** Domain separation *)

Definition nul : string := String Ascii.zero EmptyString.

(** [u32::to_be_bytes]. *)
Definition byte_of (z : Z) : Ascii.ascii := Ascii.ascii_of_N (Z.to_N (z mod 256)).
Definition to_be_bytes (v : Z) : string :=
  String (byte_of (Z.shiftr v 24)) (String (byte_of (Z.shiftr v 16))
    (String (byte_of (Z.shiftr v 8)) (String (byte_of v) EmptyString))).

(** What [domain_hasher] has absorbed before the payload. *)
Definition domain_prefix (domain : string) (schema_version : Z) : string :=
  "finstack-ai" +:+ nul +:+ domain +:+ nul +:+ to_be_bytes schema_version +:+ nul.

Definition domain_is_valid (domain : string) : bool := negb (domain =?? "") && negb (has_nul domain).

Definition DOMAIN_RAW_JSON : string := "raw-json".
Definition DOMAIN_EFFECT_INPUT : string := "effect-input".
Definition DOMAIN_EFFECT_OUTPUT : string := "effect-output".

(** [DigestWriter]: a chunk buffer in front of a streaming hasher.  The hasher
    is the bytes it has absorbed. *)
Record DigestWriter : Type := mkDigestWriter {
  dw_hasher : string;
  dw_chunk : string;
  dw_written : nat
}.

Definition DIGEST_CHUNK_BYTES : Z := 8192.

Definition DigestWriter_new (domain : string) (schema_version : Z) : option DigestWriter :=
  if domain_is_valid domain then Some (mkDigestWriter (domain_prefix domain schema_version) "" 0) else None.

Definition DigestWriter_write (buf : string) (w : DigestWriter) : DigestWriter :=
  let flushed :=
    if DIGEST_CHUNK_BYTES <? str_len (dw_chunk w) + str_len buf
    then mkDigestWriter (dw_hasher w +:+ dw_chunk w) "" (dw_written w) else w in
  let written := (dw_written w + String.length buf)%nat in
  if DIGEST_CHUNK_BYTES <=? str_len buf
  then mkDigestWriter (dw_hasher flushed +:+ buf) (dw_chunk flushed) written
  else mkDigestWriter (dw_hasher flushed) (dw_chunk flushed +:+ buf) written.

Section Digests.
Context `{Hasher}.

Definition DigestWriter_finish (w : DigestWriter) : Digest * nat :=
  (sha256 (dw_hasher w +:+ dw_chunk w), dw_written w).

(** [Digest::hash_domain]. *)
Definition hash_domain (domain : string) (schema_version : Z) (canonical_bytes : string) : Digest :=
  sha256 (domain_prefix domain schema_version +:+ canonical_bytes).

Definition digest_raw_json (bytes : string) : Digest := hash_domain DOMAIN_RAW_JSON 1 bytes.
Definition digest_effect_input (bytes : string) : Digest := hash_domain DOMAIN_EFFECT_INPUT 1 bytes.
Definition digest_effect_output (bytes : string) : Digest := hash_domain DOMAIN_EFFECT_OUTPUT 1 bytes.

(** [canonical_digest] of [reducer/mod.rs]: stream the canonical bytes of a
    value through a [DigestWriter]. *)
Definition canonical_digest (domain : string) (value : Canonical) : result Digest KernelError :=
  let? writer := ok_or (DigestWriter_new domain 1) KernelError_InvariantViolation in
  let? bytes := ok_or (canonicalize value) KernelError_InvariantViolation in
  Ok (DigestWriter_finish (DigestWriter_write bytes writer)).1.

(** ** Stage fingerprints *)

Definition stage_fingerprint (input : StageSettled) : StageSettlementFingerprintV1 :=
  let cursor := ss_cursor input in
  match ss_outcome input with
  | ReducerStageOutcome_Continue => StageFp_Continue cursor
  | ReducerStageOutcome_ContextPrepared messages => StageFp_ContextPrepared cursor messages
  | ReducerStageOutcome_ModelRequestPrepared request component output_contract retry_safety deadline =>
      StageFp_ModelRequestPrepared cursor request component output_contract retry_safety deadline
  | ReducerStageOutcome_ToolBatchPrepared calls continuation =>
      StageFp_ToolBatchPrepared cursor calls continuation
  | ReducerStageOutcome_FinalizeAccepted => StageFp_FinalizeAccepted cursor
  | ReducerStageOutcome_ContinueModel _ => StageFp_ContinueModel cursor
  | ReducerStageOutcome_Retry d =>
      StageFp_Retry cursor (rd_classification d) (rd_backoff d) (rd_policy_version d)
  | ReducerStageOutcome_Fail error => StageFp_Fail cursor error
  end.

Definition stage_digest (input : StageSettled) : result Digest KernelError :=
  canonical_digest "stage-settlement" (Canon_Stage (stage_fingerprint input)).

Definition model_request_stage_fingerprint (cursor : StageCursor) (requested : EffectRequested)
    : result StageSettlementFingerprintV1 KernelError :=
  match req_input requested with
  | EffectInput_Model request =>
      Ok (StageFp_ModelRequestPrepared cursor request (req_component requested)
            (req_output_contract requested) (req_retry_safety requested) (req_deadline requested))
  | _ => Err KernelError_InvalidRecordOrder
  end.

(** The fingerprint a committed stage record stands for, rebuilt from the
    record and the sibling that follows it. *)
Definition stage_record_fingerprint (outcome : StageOutcomeRecorded) (sibling : option RecordEnvelope)
    : result StageSettlementFingerprintV1 KernelError :=
  let cursor := so_cursor outcome in
  let body := rec_body <$> sibling in
  match so_disposition outcome with
  | StageDisposition_Continued => Ok (StageFp_Continue cursor)
  | StageDisposition_ContextPrepared _ _ =>
      match body with
      | Some (RecordBody_ContextPrepared c) => Ok (StageFp_ContextPrepared cursor (cp_messages c))
      | _ => Err KernelError_InvalidRecordOrder
      end
  | StageDisposition_ModelRequested _ _ _ =>
      match body with
      | Some (RecordBody_EffectRequested requested) => model_request_stage_fingerprint cursor requested
      | _ => Err KernelError_InvalidRecordOrder
      end
  | StageDisposition_ToolBatchPrepared _ _ =>
      match body with
      | Some (RecordBody_ToolBatchOpened opened) =>
          Ok (StageFp_ToolBatchPrepared cursor (asg_plan <$> tbo_calls opened) (tbo_continuation opened))
      | _ => Err KernelError_InvalidRecordOrder
      end
  | StageDisposition_FinalizeAccepted => Ok (StageFp_FinalizeAccepted cursor)
  | StageDisposition_ContinueModel next_cycle =>
      if is_none_or (u64_checked_add (sc_cycle cursor) 1) (fun expected => negb (expected =? next_cycle))
      then Err KernelError_InvalidRecordOrder
      else Ok (StageFp_ContinueModel cursor)
  | StageDisposition_RetryScheduled _ _ _ =>
      match sibling, body with
      | Some s, Some (RecordBody_RetryScheduled retry) =>
          let? backoff :=
            ok_or (v ← i64_checked_sub (rs_due_at retry) (rec_timestamp s); in_range 0 u64_max v)
              KernelError_InvalidRecordOrder in
          Ok (StageFp_Retry cursor (rs_classification retry) backoff (rs_policy_version retry))
      | _, _ => Err KernelError_InvalidRecordOrder
      end
  | StageDisposition_Failed error => Ok (StageFp_Fail cursor error)
  end.

Definition stage_record_digest (outcome : StageOutcomeRecorded) (sibling : option RecordEnvelope)
    : result Digest KernelError :=
  let? fingerprint := stage_record_fingerprint outcome sibling in
  canonical_digest "stage-settlement" (Canon_Stage fingerprint).

(** ** Model fingerprints *)

Definition model_digest (fingerprint : ModelSettlementFingerprintV1) : result Digest KernelError :=
  canonical_digest "model-settlement" (Canon_Model fingerprint).

Definition direct_digest (input : ModelSettled) : result Digest KernelError :=
  let turn := ms_turn_id input in
  let request := ms_model_request_id input in
  model_digest match ms_outcome input with
    | ModelSettlement_Completed completion message => ModelFp_DirectCompleted turn request completion message
    | ModelSettlement_Failed failure => ModelFp_DirectFailed turn request failure
    | ModelSettlement_Deferred deferred => ModelFp_DirectDeferred turn request deferred
    end.

Definition external_digest (input : ExternalEffectCompletedInput) : result Digest KernelError :=
  let c := xei_completion input in
  match xec_outcome c, xei_assistant_message input with
  | ExternalEffectOutcome_Completed output usage artifacts, Some message =>
      model_digest (ModelFp_ExternalCompleted (xec_effect_id c) (xec_completion_id c) output usage artifacts message)
  | ExternalEffectOutcome_Completed _ _ _, None => Err KernelError_AssistantMessagePresenceMismatch
  | ExternalEffectOutcome_Failed error, _ =>
      model_digest (ModelFp_ExternalFailed (xec_effect_id c) (xec_completion_id c) error)
  end.

Definition completed_compaction_digest (pending : PendingModelEffect) (completed : EffectCompleted)
    : result Digest KernelError :=
  canonical_digest "compaction-model-settlement"
    (Canon_Compaction (pme_turn_id pending) (pme_model_request_id pending) completed).

Definition completed_record_digest (pending : PendingModelEffect) (completed : EffectCompleted)
    (assistant_message : Message) : result Digest KernelError :=
  if is_some (pme_deferred pending) then
    do? reject_if (is_some (cpl_reservation_id completed)) KernelError_ModelSettlementMismatch in
    let? completion_id := ok_or (cpl_completion_id completed) KernelError_ModelSettlementMismatch in
    model_digest (ModelFp_ExternalCompleted (cpl_effect_id completed) completion_id (cpl_output completed)
      (cpl_usage completed) (cpl_artifacts completed) assistant_message)
  else
    model_digest (ModelFp_DirectCompleted (pme_turn_id pending) (pme_model_request_id pending)
      completed assistant_message).

Definition failed_record_digest (pending : PendingModelEffect) (failed : EffectFailed)
    : result Digest KernelError :=
  if is_some (pme_deferred pending) then
    do? reject_if (is_some (fld_usage failed)) KernelError_ModelSettlementMismatch in
    let? completion_id := ok_or (fld_completion_id failed) KernelError_ModelSettlementMismatch in
    model_digest (ModelFp_ExternalFailed (fld_effect_id failed) completion_id (fld_error failed))
  else
    model_digest (ModelFp_DirectFailed (pme_turn_id pending) (pme_model_request_id pending) failed).

(** ** Tool fingerprints *)

Definition tool_digest (fingerprint : ToolSettlementFingerprintV1) : result Digest KernelError :=
  canonical_digest "tool-settlement" (Canon_Tool fingerprint).

Definition tool_batch_plan_digest (cycle : Z) (turn_id : TurnId) (tool_batch_id : ToolBatchId)
    (source_message_id : MessageId) (calls : list AssignedToolCall)
    (continuation : ToolBatchContinuation) : result Digest KernelError :=
  canonical_digest "tool-batch-plan"
    (Canon_ToolPlan (mkToolBatchPlanFingerprintV1 cycle turn_id tool_batch_id source_message_id calls continuation)).

Definition opened_tool_batch_plan_digest (opened : ToolBatchOpened) : result Digest KernelError :=
  tool_batch_plan_digest (tbo_cycle opened) (tbo_turn_id opened) (tbo_tool_batch_id opened)
    (tbo_source_message_id opened) (tbo_calls opened) (tbo_continuation opened).

Definition direct_tool_digest (tool_batch_id : ToolBatchId) (outcome : ToolSettlement)
    : result Digest KernelError :=
  tool_digest match outcome with
    | ToolSettlement_Completed completion => ToolFp_DirectCompleted tool_batch_id completion
    | ToolSettlement_Deferred deferred => ToolFp_DirectDeferred tool_batch_id deferred
    | ToolSettlement_Failed failure => ToolFp_DirectFailed tool_batch_id failure
    end.

Definition external_tool_digest (tool_batch_id : ToolBatchId) (input : ExternalEffectCompletedInput)
    : result Digest KernelError :=
  let c := xei_completion input in
  tool_digest match xec_outcome c with
    | ExternalEffectOutcome_Completed output usage artifacts =>
        ToolFp_ExternalCompleted tool_batch_id (xec_effect_id c) (xec_completion_id c) output usage artifacts
    | ExternalEffectOutcome_Failed error =>
        ToolFp_ExternalFailed tool_batch_id (xec_effect_id c) (xec_completion_id c) error
    end.

Definition synthetic_tool_digest (tool_batch_id : ToolBatchId) (tool_call_id : ToolCallId)
    (effect_id : EffectId) (res : ToolResultBlock) (error : ErrorDescriptor) : result Digest KernelError :=
  tool_digest (ToolFp_Synthetic tool_batch_id tool_call_id effect_id res error).

Definition completed_tool_record_digest (tool_batch_id : ToolBatchId) (external : bool)
    (completed : EffectCompleted) : result Digest KernelError :=
  if external then
    let? completion_id := ok_or (cpl_completion_id completed) KernelError_ToolSettlementMismatch in
    tool_digest (ToolFp_ExternalCompleted tool_batch_id (cpl_effect_id completed) completion_id
      (cpl_output completed) (cpl_usage completed) (cpl_artifacts completed))
  else tool_digest (ToolFp_DirectCompleted tool_batch_id completed).

Definition failed_tool_record_digest (tool_batch_id : ToolBatchId) (external : bool)
    (failed : EffectFailed) : result Digest KernelError :=
  if external then
    let? completion_id := ok_or (fld_completion_id failed) KernelError_ToolSettlementMismatch in
    tool_digest (ToolFp_ExternalFailed tool_batch_id (fld_effect_id failed) completion_id (fld_error failed))
  else tool_digest (ToolFp_DirectFailed tool_batch_id failed).

Definition tool_batch_close_digest (cycle : Z) (turn_id : TurnId) (tool_batch_id : ToolBatchId)
    (source_message_id : MessageId) (result_message_ids : list MessageId) (outcome : ToolBatchOutcome)
    : result Digest KernelError :=
  canonical_digest "tool-batch-close"
    (Canon_ToolClose (mkToolBatchCloseFingerprintV1 cycle turn_id tool_batch_id source_message_id
                        result_message_ids outcome)).

(** ** Digested payloads *)

(** [context_digest_and_len]; its errors carry no data the reducer keeps. *)
Definition context_digest_and_len (messages : list Message) : option (Digest * nat) :=
  if (SEMANTIC_ARRAY_MAX_ITEMS <? length messages)%nat then None
  else
    writer ← DigestWriter_new "model-context" 1;
    bytes ← canonicalize (Canon_Messages messages);
    Some (DigestWriter_finish (DigestWriter_write bytes writer)).

(** [EffectInput::digest]. *)
Definition EffectInput_digest (i : EffectInput) : option Digest :=
  digest_effect_input <$> canonicalize (Canon_EffectInput i).

(** [LimitUsage::digest]. *)
Definition LimitUsage_digest (u : LimitUsage) : option Digest :=
  hash_domain "limit-usage" 1 <$> canonicalize (Canon_LimitUsage u).

(** [optional_usage_digest]; [None] is its error. *)
Definition optional_usage_digest (usage : option Usage) : option (option Digest) :=
  match usage with
  | None => Some None
  | Some u => if usage_valid u then (fun bytes => Some (digest_effect_output bytes)) <$> canonicalize (Canon_Usage u)
              else None
  end.

(** [validated_text] / [validated_label] of the effects module. *)
Definition text_is_valid (s : string) : bool :=
  negb (s =?? "") && (str_len s <=? TEXT_MAX_BYTES) && negb (has_nul s).

(** [EffectRequested::try_new]. *)
Definition EffectRequested_try_new (effect_id : EffectId) (kind : EffectKind)
    (relation : option EffectRelation) (component : option ComponentInvocation)
    (pipeline : option PipelinePosition) (output_contract : EffectOutputContract)
    (input : EffectInput) (retry_safety : RetrySafety) (deadline : option Timestamp)
    : option EffectRequested :=
  if EffectInput_kind input <>?? kind then None
  else if match input with EffectInput_Middleware _ stage _ _ => negb (text_is_valid stage) | _ => false end
  then None
  else (fun input_digest =>
          mkEffectRequested effect_id kind relation component pipeline output_contract input
            input_digest retry_safety deadline) <$> EffectInput_digest input.
End Digests.

(** ** Properties of the digest pipeline *)

Section DigestLemmas.
Context `{Hasher}.

Lemma string_app_cons c (s t : string) : String c s +:+ t = String c (s +:+ t).
Proof. done. Qed.
Lemma string_app_nil_l (s : string) : "" +:+ s = s.
Proof. done. Qed.

Lemma string_app_assoc (s1 s2 s3 : string) : (s1 +:+ s2) +:+ s3 = s1 +:+ (s2 +:+ s3).
Proof. induction s1 as [|c s1 IH]; [done|]. by rewrite !string_app_cons, IH. Qed.

Lemma string_app_nil_r (s : string) : s +:+ "" = s.
Proof. induction s as [|c s IH]; [done|]. by rewrite string_app_cons, IH. Qed.

Lemma string_app_length (s1 s2 : string) :
  String.length (s1 +:+ s2) = (String.length s1 + String.length s2)%nat.
Proof. induction s1 as [|c s1 IH]; [done|]. rewrite string_app_cons. simpl. by rewrite IH. Qed.

(** A NUL-free string followed by a NUL determines where it ends. *)
Lemma nul_terminated_inj (d1 d2 s1 s2 : string) :
  has_nul d1 = false -> has_nul d2 = false ->
  d1 +:+ nul +:+ s1 = d2 +:+ nul +:+ s2 -> d1 = d2 /\ s1 = s2.
Proof.
  unfold nul. revert d2. induction d1 as [|c d1 IH]; intros [|c' d2]; cbn [has_nul];
    rewrite ?string_app_cons, ?string_app_nil_l; intros H1 H2 Heq; simplify_eq.
  - done.
  - apply orb_false_iff in H1 as [_ H1], H2 as [_ H2].
    by destruct (IH d2 H1 H2 ltac:(assumption)) as [-> ->].
Qed.

Lemma byte_of_inj (a b : Z) : byte_of a = byte_of b -> a mod 256 = b mod 256.
Proof.
  unfold byte_of. intros Heq. apply (f_equal Ascii.N_of_ascii) in Heq.
  pose proof (Z.mod_pos_bound a 256). pose proof (Z.mod_pos_bound b 256).
  rewrite !Ascii.N_ascii_embedding in Heq by lia. lia.
Qed.

Lemma to_be_bytes_inj (a b : Z) : is_u32 a -> is_u32 b -> to_be_bytes a = to_be_bytes b -> a = b.
Proof.
  unfold is_u32, u32_max, to_be_bytes. intros Ha Hb Heq. injection Heq as H3 H2 H1 H0.
  apply byte_of_inj in H3, H2, H1, H0. rewrite !Z.shiftr_div_pow2 in * by lia.
  change (2 ^ 24) with 16777216 in *. change (2 ^ 16) with 65536 in *. change (2 ^ 8) with 256 in *.
  change (2 ^ 32 - 1) with 4294967295 in *.
  Z.to_euclidean_division_equations. lia.
Qed.

Lemma domain_prefix_inj d1 d2 v1 v2 s1 s2 :
  domain_is_valid d1 = true -> domain_is_valid d2 = true -> is_u32 v1 -> is_u32 v2 ->
  domain_prefix d1 v1 +:+ s1 = domain_prefix d2 v2 +:+ s2 -> d1 = d2 /\ v1 = v2 /\ s1 = s2.
Proof.
  unfold domain_is_valid, domain_prefix. intros H1 H2 Hv1 Hv2 Heq.
  apply andb_true_iff in H1 as [_ H1%negb_true_iff], H2 as [_ H2%negb_true_iff].
  rewrite !string_app_assoc in Heq. unfold nul at 1 4 in Heq.
  rewrite !string_app_cons, !string_app_nil_l in Heq. injection Heq as Heq.
  destruct (nul_terminated_inj d1 d2 _ _ H1 H2 Heq) as [-> Hrest].
  assert (forall v, to_be_bytes v = String (byte_of (Z.shiftr v 24)) (String (byte_of (Z.shiftr v 16))
    (String (byte_of (Z.shiftr v 8)) (String (byte_of v) EmptyString)))) as Hb by done.
  unfold to_be_bytes, nul in Hrest. rewrite !string_app_cons, !string_app_nil_l in Hrest.
  injection Hrest as Hb3 Hb2 Hb1 Hb0 Hs. split_and!; [done| |done].
  apply to_be_bytes_inj; [done..|]. rewrite !Hb. congruence.
Qed.

(** The bytes a writer has absorbed, flushed or not. *)
Definition absorbed (w : DigestWriter) : string := dw_hasher w +:+ dw_chunk w.

Lemma write_absorbed buf w :
  absorbed (DigestWriter_write buf w) = absorbed w +:+ buf \/
  (dw_chunk w <> "" /\ str_len (dw_chunk w) + str_len buf <= DIGEST_CHUNK_BYTES /\
   DIGEST_CHUNK_BYTES <= str_len buf).
Proof.
  unfold DigestWriter_write, absorbed.
  destruct (Z.ltb_spec DIGEST_CHUNK_BYTES (str_len (dw_chunk w) + str_len buf)) as [Hf|Hf]; simpl;
    destruct (Z.leb_spec DIGEST_CHUNK_BYTES (str_len buf)); simpl;
    rewrite ?string_app_assoc, ?string_app_nil_r; try by left.
  destruct (decide (dw_chunk w = "")) as [->|]; [left; by rewrite ?string_app_nil_r|by right].
Qed.

Lemma write_absorbs buf w : absorbed (DigestWriter_write buf w) = absorbed w +:+ buf.
Proof.
  destruct (write_absorbed buf w) as [|(Hne & Hle & Hge)]; [done|].
  exfalso. unfold str_len in *. destruct (dw_chunk w); [done|simpl in *; lia].
Qed.

Lemma write_written buf w :
  dw_written (DigestWriter_write buf w) = (dw_written w + String.length buf)%nat.
Proof. unfold DigestWriter_write. by destruct (_ <=? _). Qed.

(** Concatenation of the buffers written, in order. *)
Fixpoint concat_bufs (bufs : list string) : string :=
  match bufs with [] => "" | b :: bufs' => b +:+ concat_bufs bufs' end.

Lemma writes_absorb bufs w :
  absorbed (foldl (fun w b => DigestWriter_write b w) w bufs) = absorbed w +:+ concat_bufs bufs /\
  dw_written (foldl (fun w b => DigestWriter_write b w) w bufs) =
    (dw_written w + String.length (concat_bufs bufs))%nat.
Proof.
  revert w. induction bufs as [|b bufs IH]; intros w; simpl; [by rewrite string_app_nil_r, Nat.add_0_r|].
  destruct (IH (DigestWriter_write b w)) as [-> ->].
  rewrite write_absorbs, write_written, string_app_assoc, string_app_length. split; [done|lia].
Qed.

Lemma canonical_digest_hash domain v :
  domain_is_valid domain = true ->
  canonical_digest domain v =
    match canonicalize v with
    | Some bytes => Ok (hash_domain domain 1 bytes)
    | None => Err KernelError_InvariantViolation
    end.
Proof.
  intros Hd. unfold canonical_digest, DigestWriter_new. rewrite Hd. simpl.
  destruct (canonicalize v) as [bytes|]; simpl; [|done].
  unfold DigestWriter_finish. simpl. f_equal. fold (absorbed (DigestWriter_write bytes (mkDigestWriter (domain_prefix domain 1) "" 0))).
  rewrite write_absorbs. unfold absorbed. simpl. by rewrite string_app_nil_r.
Qed.
End DigestLemmas.
