(* ===== verification/Policy.v ===== *)
(** * Policy records: limits, structured output, budgets, children

    The validity checks of [records/policy/*.rs] and [records/run/child.rs]
    that replay runs before it accepts a record, and the attenuation order on
    run limits that a child run must respect.  A source function that returns
    [Result<(), E>] whose error value every kernel caller discards is a
    Boolean here. *)

From S2P Require Import Prelude Primitives Effects Records Digests.

(** ** Record vocabulary ([records/body.rs]) *)

Definition RECORD_FORMAT_VERSION : Z := 1.
Definition RECORD_KIND_VERSION : Z := 1.

(** [RecordBody::derived_event_count] at the supported kind version. *)
Definition derived_event_count (body : RecordBody) : nat :=
  match body with
  | RecordBody_StageOutcomeRecorded _ | RecordBody_ContextPrepared _ | RecordBody_ToolBatchOpened _
  | RecordBody_ToolBatchClosed _ | RecordBody_CancellationRequested _ | RecordBody_CancellationReconciled _
  | RecordBody_RetryScheduled _ | RecordBody_TimerFired _ | RecordBody_OutputConfigured _
  | RecordBody_CapabilitiesActivated _ | RecordBody_FinalResultRecorded _ | RecordBody_OutputValidationFailed _
  | RecordBody_ExternalCommandRejected _ | RecordBody_ChildRunPrepared _ | RecordBody_BudgetReservationRequested _
  | RecordBody_BudgetReservationSettled _ | RecordBody_BudgetChargeRecorded _
  | RecordBody_BudgetReservationReleased _ | RecordBody_SessionCreated _ | RecordBody_LaneCreated _
  | RecordBody_LaneMoved _ | RecordBody_SnapshotWritten _ | RecordBody_ConversationEntry _ => 0
  | RecordBody_ToolCallSettled _ => 2
  | _ => 1
  end.

Definition is_structural (body : RecordBody) : bool :=
  match body with
  | RecordBody_SessionCreated _ | RecordBody_LaneCreated _ | RecordBody_LaneMoved _
  | RecordBody_SnapshotWritten _ | RecordBody_ConversationEntry _ => true
  | _ => false
  end.

(** ** Structured output *)

Definition OutputConfiguration_valid (c : OutputConfiguration) : bool :=
  match ocf_output c with
  | OutputSpec_JsonSchema schema => negb (sr_schema_version schema =? 0)
  | OutputSpec_PlainText => true
  end.

Definition expected_validation_error (retry_attempts : Z) (max_retries : option Z) : option ErrorDescriptor :=
  let retryable := is_none_or max_retries (fun maximum => retry_attempts <? maximum) in
  error_descriptor_new
    (if retryable then "structured_output_validation_failed" else "structured_output_retries_exhausted")
    (if retryable then "structured output did not satisfy the configured schema"
     else "structured output retry limit was exhausted")
    ErrorCategory_Validation retryable.

Definition ValidationIssue_valid (i : ValidationIssue) : bool :=
  negb ((TEXT_MAX_BYTES <? str_len (vi_instance_path i))
        || (TEXT_MAX_BYTES <? str_len (vi_schema_path i))
        || (vi_message i =?? "")
        || (TEXT_MAX_BYTES <? str_len (vi_message i))
        || has_nul (vi_instance_path i)
        || has_nul (vi_schema_path i)
        || has_nul (vi_message i))
  && is_none_or (vi_keyword i) label_is_valid.

Definition ValidationOutcome_valid (o : ValidationOutcome) : bool :=
  match o with
  | ValidationOutcome_Valid => true
  | ValidationOutcome_Invalid issues feedback =>
      negb ((length issues =? 0)%nat || (SEMANTIC_ARRAY_MAX_ITEMS <? length issues)%nat)
      && negb ((TEXT_MAX_BYTES <? str_len feedback) || has_nul feedback)
      && forallb ValidationIssue_valid issues
  end.

Definition OutputValidated_valid (v : OutputValidated) : bool :=
  negb (sr_schema_version (ov_schema v) =? 0) && ValidationOutcome_valid (ov_outcome v).

Definition OutputValidationFailed_valid (f : OutputValidationFailed) : bool :=
  negb (sr_schema_version (ovf_schema f) =? 0)
  && ValidationOutcome_valid (ValidationOutcome_Invalid (ovf_issues f) (ovf_feedback f))
  && negb ((ed_category (ovf_error f) <>?? ErrorCategory_Validation) || negb (error_descriptor_valid (ovf_error f)))
  && (length (ovf_skipped_tool_call_ids f) <=? SEMANTIC_ARRAY_MAX_ITEMS)%nat.

(** ** Capabilities *)

(** The [for] loop over [active]: every id is greater than its predecessor. *)
Fixpoint strictly_sorted_from (prior : option ActiveCapability) (active : list ActiveCapability) : bool :=
  match active with
  | [] => true
  | item :: rest =>
      is_none_or prior (fun value => String.ltb (ac_capability_id value) (ac_capability_id item))
      && strictly_sorted_from (Some item) rest
  end.

Definition CapabilitiesActivated_valid (c : CapabilitiesActivated) : bool :=
  (length (cact_active c) <=? SEMANTIC_ARRAY_MAX_ITEMS)%nat && strictly_sorted_from None (cact_active c).

(** ** Child preparation *)

Definition ChildRunLocator_valid_for (c : ChildRunLocator) (placement : ChildPlacement) : bool :=
  Bool.eqb (placement =?? ChildPlacement_RemoteChildSession) (is_some (crl_remote c)).

Definition ChildRunPrepared_valid (p : ChildRunPrepared) (parent_tenant_scope : string) : bool :=
  ChildRunLocator_valid_for (crp_child p) (crp_placement p)
  && (ol_tenant_scope (crl_operation (crp_child p)) =?? parent_tenant_scope)
  && (ol_run_id (crl_operation (crp_child p)) <>?? crp_parent_run_id p).

(** ** Limit evidence *)

Definition limit_kinds_match (d : LimitDimension) (observed maximum : LimitValue) : bool :=
  match d, observed, maximum with
  | (LimitDimension_ContextBytes | LimitDimension_OutputBytes), LimitValue_Bytes _, LimitValue_Bytes _ => true
  | (LimitDimension_ContextBytes | LimitDimension_OutputBytes), _, _ => false
  | LimitDimension_WallTime, LimitValue_Duration _, LimitValue_Duration _ => true
  | LimitDimension_WallTime, _, _ => false
  | LimitDimension_Cost, LimitValue_Cost _, LimitValue_Cost _ => true
  | LimitDimension_Cost, _, _ => false
  | _, LimitValue_Count _, LimitValue_Count _ => true
  | _, _, _ => false
  end.

(** ** Attenuation of run limits *)

Definition opt_le (parent child : option Z) : bool :=
  match parent, child with
  | Some p, Some c => c <=? p
  | None, _ => true
  | Some _, None => false
  end.

Definition unknown_usage_rank (p : UnknownUsagePolicy) : Z :=
  match p with
  | UnknownUsagePolicy_FailClosed => 0
  | UnknownUsagePolicy_SuspendForDecision => 1
  | UnknownUsagePolicy_AllowWithinReservedMaximum => 2
  end.

Definition unknown_usage_at_least_as_strict (parent child : UnknownUsagePolicy) : bool :=
  unknown_usage_rank child <=? unknown_usage_rank parent.

Definition cost_le (parent child : option CostLimit) : bool :=
  match parent, child with
  | Some p, Some c =>
      (cl_unit c =?? cl_unit p)
      && (cl_pricing_policy_version c =?? cl_pricing_policy_version p)
      && (cl_micros c <=? cl_micros p)
      && unknown_usage_at_least_as_strict (cl_unknown_usage p) (cl_unknown_usage c)
  | None, _ => true
  | Some _, None => false
  end.

Definition counters_attenuated (parent child : gmap LimitKey Z) : bool :=
  forallb (fun e => is_some_and (child !! e.1) (fun v => v <=? e.2)) (map_to_list parent).

Definition allows_child_attenuation (parent child : RunLimits) : bool :=
  opt_le (rl_max_model_requests parent) (rl_max_model_requests child)
  && opt_le (rl_max_turns parent) (rl_max_turns child)
  && opt_le (rl_max_tool_calls parent) (rl_max_tool_calls child)
  && opt_le (rl_max_parallel_tools parent) (rl_max_parallel_tools child)
  && opt_le (rl_max_input_tokens parent) (rl_max_input_tokens child)
  && opt_le (rl_max_output_tokens parent) (rl_max_output_tokens child)
  && opt_le (rl_max_context_bytes parent) (rl_max_context_bytes child)
  && opt_le (rl_max_output_bytes parent) (rl_max_output_bytes child)
  && opt_le (rl_max_retries parent) (rl_max_retries child)
  && opt_le (rl_max_wall_time parent) (rl_max_wall_time child)
  && cost_le (rl_max_cost parent) (rl_max_cost child)
  && counters_attenuated (rl_extension_counters parent) (rl_extension_counters child).

Definition RunLimits_valid (l : RunLimits) : bool :=
  (size (rl_extension_counters l) <=? MAX_EXTENSION_COUNTERS)%nat.

Definition RunLimits_empty : RunLimits :=
  mkRunLimits None None None None None None None None None None None ∅.

(** ** Validity that depends on digests *)

Section PolicyDigests.
Context `{Hasher}.

Definition FinalResultRecorded_valid (r : FinalResultRecorded) : bool :=
  negb (sr_schema_version (frr_schema r) =? 0)
  && (frr_value_digest r =?? digest_raw_json (frr_value r))
  && (length (frr_skipped_tool_call_ids r) <=? SEMANTIC_ARRAY_MAX_ITEMS)%nat.

Definition LimitReached_valid (r : LimitReached) : bool :=
  limit_kinds_match (lr_dimension r) (lr_observed r) (lr_maximum r)
  && (LimitUsage_digest (lr_usage r) =?? Some (lr_usage_digest r)).

Definition BudgetRequest_valid (b : BudgetRequest) : bool :=
  (size (bq_extension_counters b) <=? MAX_EXTENSION_COUNTERS)%nat.

Definition reserve_request_digest (scope_id : BudgetScopeId) (reservation_id : BudgetReservationId)
    (run_id : RunId) (amount : BudgetRequest) : option Digest :=
  if BudgetRequest_valid amount
  then hash_domain "budget-reserve-request" 1 <$> canonicalize (Canon_BudgetReserve scope_id reservation_id run_id amount)
  else None.

Definition BudgetReserveRequest_valid (r : BudgetReserveRequest) : bool :=
  reserve_request_digest (brq_scope_id r) (brq_reservation_id r) (brq_run_id r) (brq_amount r)
    =?? Some (brq_request_digest r).

Definition BudgetReservationReceipt_valid (r : BudgetReservationReceipt) : bool :=
  BudgetRequest_valid (brr_reserved r) && BudgetRequest_valid (brr_remaining r).

Definition BudgetChargeReceipt_valid (r : BudgetChargeReceipt) : bool :=
  usage_valid (bcr_charged_usage r)
  && usage_valid (bcr_cumulative_usage r)
  && ((digest_effect_output <$> canonicalize (Canon_Usage (bcr_charged_usage r))) =?? Some (bcr_usage_digest r)).

Definition release_request_digest (scope_id : BudgetScopeId) (reservation_id : BudgetReservationId)
    (terminal_run_id : RunId) : option Digest :=
  hash_domain "budget-release-request" 1
    <$> canonicalize (Canon_BudgetRelease scope_id reservation_id terminal_run_id).

Definition BudgetReleaseReceipt_valid (r : BudgetReleaseReceipt) : bool :=
  BudgetRequest_valid (brl_released_unused r)
  && (release_request_digest (brl_scope_id r) (brl_reservation_id r) (brl_terminal_run_id r)
        =?? Some (brl_request_digest r)).
End PolicyDigests.
