(* ===== verification/ApplyStage.v ===== *)
(** * Replaying stage outcomes, context, usage and retry timers

    Models [reducer/apply/stage.rs] and the parts of [reducer/apply/record.rs],
    [reducer/apply/effects.rs] and [reducer/apply/mod.rs] that touch stages,
    the prepared context, cumulative usage and completion identities.  Each
    function takes the working copy of the state and returns the updated copy
    or the reducer's error. *)

From S2P Require Import Prelude Primitives Effects Records State Inputs ToolBatch Digests.

Definition kresult (A : Type) : Type := result A KernelError.

Definition INTERNAL_TOOL_NAMESPACE : string := "finstack.internal.".
Definition SUBMIT_FINAL_OUTPUT_TOOL : string := "finstack.internal.submit_final_output".

(** [str::starts_with] on bytes. *)
Definition is_internal_tool_name (name : string) : bool := String.prefix INTERNAL_TOOL_NAMESPACE name.

(** [state.state_version = state.state_version.max(v)]. *)
Definition raise_version (v : Z) (s : KernelState) : KernelState :=
  with_state_version (Z.max (k_state_version s) v) s.

Definition map_limit_usage (f : LimitUsage -> LimitUsage) (s : KernelState) : KernelState :=
  with_limit_usage (f (k_limit_usage s)) s.

(** [matches!(output_configuration, Some(OutputConfiguration { output: JsonSchema { .. }, .. }))]. *)
Definition wants_json_schema (s : KernelState) : bool :=
  is_some_and (k_output_configuration s) (fun c =>
    match ocf_output c with OutputSpec_JsonSchema _ => true | _ => false end).

(** ** Stage outcomes *)

Definition failure_candidate (s : KernelState) (error : ErrorDescriptor) : TerminalCandidate :=
  let turn := k_current_turn s in
  TerminalCandidate_Failed (k_cycle s) (ct_turn_id <$> turn)
    (t ← turn; ct_model_request_id t) (t ← turn; ct_effect_id t) error.

Definition message_has_tools (m : Message) : bool :=
  existsb (fun block =>
    match block with
    | ContentBlock_ToolCall c => negb (is_internal_tool_name (tc_tool_name c))
    | _ => false
    end) (msg_content m).

(** The [Stage::AfterModel] arm of [StageDisposition::Continued]. *)
Definition continued_after_model (s : KernelState) : kresult RunPhase :=
  if is_some (k_validation_failure s) then Ok RunPhase_BeforeFinalize
  else if wants_json_schema s && is_none (k_final_result s) then Err KernelError_InvalidRecordOrder
  else
    let has_tools := is_some_and (last (k_messages s)) message_has_tools in
    let ends_early := is_some_and (k_final_result s) (fun r => frr_end_strategy r =?? OutputEndStrategy_Early) in
    Ok (if has_tools && negb ends_early then RunPhase_BeforeToolBatch else RunPhase_BeforeFinalize).

(** The [StageDisposition::Continued] arm. *)
Definition apply_continued (s : KernelState) (stage : Stage) : kresult KernelState :=
  match stage with
  | Stage_BeforeRun => Ok (with_phase (Some RunPhase_PreparingContext) s)
  | Stage_AfterModel =>
      let? phase := continued_after_model s in
      Ok (with_phase (Some phase) s)
  | Stage_AfterToolBatch =>
      match tbc_outcome <$> k_last_tool_batch s with
      | Some ToolBatchOutcome_ContinueModel =>
          let? cycle := ok_or (u64_checked_add (k_cycle s) 1) KernelError_CycleOverflow in
          Ok (with_phase (Some RunPhase_PreparingContext)
                (with_last_tool_batch None
                  (with_validation_failure None
                    (with_final_result None
                      (with_terminal_candidate None
                        (with_current_turn None (with_cycle cycle s)))))))
      | Some (ToolBatchOutcome_Finalize | ToolBatchOutcome_Failed _) =>
          Ok (with_phase (Some RunPhase_BeforeFinalize) s)
      | None => Err KernelError_InvalidRecordOrder
      end
  | _ => Err KernelError_InvalidRecordOrder
  end.

Definition apply_stage_outcome (s : KernelState) (outcome : StageOutcomeRecorded) : kresult KernelState :=
  let cursor := so_cursor outcome in
  let digest := so_settlement_digest outcome in
  do? reject_if (is_some_and (k_stage_settlements s !! cursor) (fun existing => existing <>?? digest))
        KernelError_SettlementDigestMismatch in
  let s := with_stage_settlements (<[cursor := digest]> (k_stage_settlements s)) s in
  match so_disposition outcome with
  | StageDisposition_Continued => apply_continued s (sc_stage cursor)
  | StageDisposition_ContextPrepared _ _
  | StageDisposition_ToolBatchPrepared _ _
  | StageDisposition_FinalizeAccepted
  | StageDisposition_RetryScheduled _ _ _ => Ok s
  | StageDisposition_ModelRequested _ model_request_id effect_id =>
      let? turn := ok_or (k_current_turn s) KernelError_InvalidRecordOrder in
      Ok (with_current_turn
            (Some (set_ct_effect_id (Some effect_id) (set_ct_model_request_id (Some model_request_id) turn))) s)
  | StageDisposition_ContinueModel next_cycle =>
      Ok (with_phase (Some RunPhase_PreparingContext)
            (with_validation_failure None
              (with_final_result None
                (with_terminal_candidate None
                  (with_pending_model_effect None
                    (with_current_turn None (with_cycle next_cycle s)))))))
  | StageDisposition_Failed error =>
      let s := with_terminal_candidate (Some (failure_candidate s error)) s in
      Ok (if sc_stage cursor <>?? Stage_BeforeFinalize
          then with_phase (Some RunPhase_BeforeFinalize) s else s)
  end.

(** ** Completion identities *)

Definition insert_completion_identity (s : KernelState) (effect_id : EffectId) (digest : Digest)
    (completion_id : option string) : kresult KernelState :=
  match completion_id with
  | None => Ok s
  | Some cid =>
      do? reject_if
            (is_some_and (k_completion_identities s !! cid) (fun existing =>
               (cid_effect_id existing <>?? effect_id) || (cid_settlement_digest existing <>?? digest)))
            KernelError_ConflictingCompletionId in
      Ok (with_completion_identities
            (<[cid := mkCompletionIdentity effect_id digest]> (k_completion_identities s)) s)
  end.

Definition insert_model_identity (s : KernelState) (effect_id : EffectId) (kind : ModelSettlementKind)
    (digest : Digest) (completion_id : option string) : kresult KernelState :=
  do? reject_if
        (is_some_and (k_model_settlements s !! effect_id) (fun existing =>
           (msf_kind existing <>?? kind) || (msf_digest existing <>?? digest)))
        KernelError_ConflictingSettlement in
  insert_completion_identity
    (with_model_settlements
       (<[effect_id := mkModelSettlementFingerprint kind digest]> (k_model_settlements s)) s)
    effect_id digest completion_id.

(** ** Usage *)

Definition update_wall_usage (s : KernelState) (now : Timestamp) : kresult KernelState :=
  match k_accepted_at s with
  | None => Ok s
  | Some accepted_at =>
      let? elapsed := ok_or (v ← i64_checked_sub now accepted_at; in_range 0 u64_max v)
                        KernelError_InvalidRecordOrder in
      Ok (map_limit_usage (set_lu_wall_time elapsed) s)
  end.

(** [CostAmount::try_new]. *)
Definition CostAmount_try_new (unit_ : string) (micros : Z) (version : string) : option CostAmount :=
  if label_is_valid unit_ && label_is_valid version then Some (mkCostAmount unit_ micros version) else None.

(** Add an optional counter of a completion to a cumulative counter. *)
Definition add_counter (get : LimitUsage -> Z) (set : Z -> LimitUsage -> LimitUsage) (delta : option Z)
    (u : LimitUsage) : kresult LimitUsage :=
  match delta with
  | None => Ok u
  | Some value =>
      let? total := ok_or (u64_checked_add (get u) value) KernelError_InvalidRecordOrder in
      Ok (set total u)
  end.

Definition add_cost (cost : option CostAmount) (u : LimitUsage) : kresult LimitUsage :=
  match cost with
  | None => Ok u
  | Some value =>
      let current := match lu_cost u with Some c => ca_micros c | None => 0 end in
      let? micros := ok_or (u64_checked_add current (ca_micros value)) KernelError_InvalidRecordOrder in
      let? amount := ok_or (CostAmount_try_new (ca_unit value) micros (ca_pricing_policy_version value))
                       KernelError_InvalidRecordOrder in
      Ok (set_lu_cost (Some amount) u)
  end.

Definition add_extension_counter (u : LimitUsage) (entry : LimitKey * Z) : kresult LimitUsage :=
  let current := default 0 (lu_extension_counters u !! entry.1) in
  let? total := ok_or (u64_checked_add current entry.2) KernelError_InvalidRecordOrder in
  Ok (set_lu_extension_counters (<[entry.1 := total]> (lu_extension_counters u)) u).

Definition apply_completed_usage (s : KernelState) (completed : EffectCompleted) : kresult KernelState :=
  let? u := add_counter lu_output_bytes set_lu_output_bytes (Some (str_len (cpl_output completed)))
              (k_limit_usage s) in
  match cpl_usage completed with
  | None => Ok (with_limit_usage u s)
  | Some usage =>
      let? u := add_counter lu_input_tokens set_lu_input_tokens (us_input_tokens usage) u in
      let? u := add_counter lu_output_tokens set_lu_output_tokens (us_output_tokens usage) u in
      let? u := add_cost (us_cost usage) u in
      let? u := rfold add_extension_counter u (map_to_list (us_extension_counters usage)) in
      Ok (with_limit_usage u s)
  end.

(** Calls per group, then the largest group: [record_tool_batch_usage]'s map. *)
Definition bump_group (counts : gmap Z Z) (c : AssignedToolCall) : kresult (gmap Z Z) :=
  let? n := ok_or (u32_checked_add (default 0 (counts !! asg_group_index c)) 1)
              KernelError_InvalidRecordOrder in
  Ok (<[asg_group_index c := n]> counts).

Definition record_tool_batch_usage (s : KernelState) (opened : ToolBatchOpened) : kresult KernelState :=
  let u := k_limit_usage s in
  let? total := ok_or (u64_checked_add (lu_tool_calls u) (u64_of_usize (length (tbo_calls opened))))
                  KernelError_InvalidRecordOrder in
  let? counts := rfold bump_group ∅ (tbo_calls opened) in
  let widest := foldr (fun e m => Z.max e.2 m) 0 (map_to_list counts) in
  Ok (with_limit_usage
        (set_lu_max_parallel_tools (Z.max (lu_max_parallel_tools u) widest) (set_lu_tool_calls total u)) s).

(** ** Retry timers *)

Definition apply_timer_fired (s : KernelState) (fired : TimerFired) : kresult KernelState :=
  let? pending := ok_or (rst_pending (k_retry s)) KernelError_InvalidRecordOrder in
  do? reject_if
        ((rs_timer_effect_id pending <>?? tf_effect_id fired)
         || negb (rs_due_at pending =? tf_due_at fired)
         || (tf_fired_at fired <? tf_due_at fired))
        KernelError_InvalidRecordOrder in
  let retry := set_rst_timer_firings (<[tf_effect_id fired := fired]> (rst_timer_firings (k_retry s)))
                 (set_rst_pending None (k_retry s)) in
  let? cycle := ok_or (u64_checked_add (k_cycle s) 1) KernelError_CycleOverflow in
  Ok (raise_version 3
        (with_phase (Some RunPhase_PreparingContext)
          (with_validation_failure None
            (with_final_result None
              (with_terminal_candidate None
                (with_pending_model_effect None
                  (with_current_turn None
                    (with_cycle cycle (with_retry retry s))))))))).

Section ApplyStage.
Context `{Hasher}.

Definition apply_context_prepared (s : KernelState) (context : ContextPrepared) : kresult KernelState :=
  let? p := ok_or (context_digest_and_len (cp_messages context)) KernelError_ContextDigestMismatch in
  let digest := p.1 in
  let context_bytes := p.2 in
  do? reject_if (digest <>?? cp_context_digest context) KernelError_ContextDigestMismatch in
  let s := with_current_turn
             (Some (mkCurrentTurn (cp_cycle context) (cp_turn_id context) context None None None)) s in
  let s := with_phase (Some RunPhase_BeforeModel) s in
  let? turns := ok_or (u64_checked_add (lu_turns (k_limit_usage s)) 1) KernelError_InvalidRecordOrder in
  let s := map_limit_usage (set_lu_turns turns) s in
  let? bytes := ok_or (u64_checked_add (lu_context_bytes (k_limit_usage s)) (u64_of_usize context_bytes))
                  KernelError_InvalidRecordOrder in
  Ok (map_limit_usage (set_lu_context_bytes bytes) s).
End ApplyStage.
