(* ===== verification/ApplyTools.v ===== *)
(** * Replaying tool batches

    Models [reducer/apply/tools.rs] and the helpers of [reducer/tool/records.rs],
    [reducer/tool/cancellation.rs] and [reducer/validation.rs] it calls: opening
    a source-ordered batch, buffering effect outcomes, settling results in
    source order and closing the batch.  Decoding and encoding of JSON payloads
    by [serde_json] are the operations of the class [Serde]. *)

From S2P Require Import Prelude Primitives Effects Records State Inputs ToolBatch Digests ApplyStage.

(** A JSON value as far as the kernel inspects one. *)
Inductive JsonValue : Type :=
| JsonValue_Bool (b : bool)
| JsonValue_Other.

(** [serde_json] with the derived (de)serializers. *)
Class Serde : Type := {
  (** [serde_json::to_string] of an error, then [RawJson::parse]. *)
  encode_error : ErrorDescriptor -> option RawJson;
  (** [serde_json::from_str::<ToolResultBlock>]. *)
  decode_tool_result_block : RawJson -> option ToolResultBlock;
  (** [serde_json::from_str::<Value>] followed by [as_object]. *)
  decode_object : RawJson -> option (gmap string JsonValue)
}.

(** [assistant_tool_calls]. *)
Definition assistant_tool_calls (message : Message) (skip_internal : bool) : list ToolCallBlock :=
  omap (fun block =>
    match block with
    | ContentBlock_ToolCall c =>
        if negb skip_internal || negb (is_internal_tool_name (tc_tool_name c)) then Some c else None
    | _ => None
    end) (msg_content message).

Definition ProviderIds_empty : ProviderIds := mkProviderIds None None None.

(** The loop of [slice::binary_search]: the window of [size] elements from
    [base] is halved until one element is left.  Every round shrinks the window,
    so the length of the slice is fuel enough. *)
Fixpoint bisect (fuel : nat) (l : list EffectId) (e : EffectId) (base size : nat) : nat :=
  match fuel with
  | O => base
  | S fuel =>
      if (size <=? 1)%nat then base
      else
        let half := (size / 2)%nat in
        let mid := (base + half)%nat in
        let base := if is_some_and (l !! mid) (fun x => (x <=? e)%N) then mid else base in
        bisect fuel l e base (size - half)
  end.

(** [slice::binary_search(&e).is_ok()]. *)
Definition sorted_contains (l : list EffectId) (e : EffectId) : bool :=
  is_some_and (l !! bisect (length l) l e 0 (length l)) (fun x => x =?? e).

Definition cancelled_error : kresult ErrorDescriptor :=
  ok_or (error_descriptor_new "cancelled" "tool call was cancelled before run termination"
           ErrorCategory_Cancellation false) KernelError_InvariantViolation.

Definition aborted_error : kresult ErrorDescriptor :=
  ok_or (error_descriptor_new "tool_batch_aborted" "tool call was not dispatched because the batch failed"
           ErrorCategory_Tool false) KernelError_InvariantViolation.

Definition insert_tool_identity (s : KernelState) (effect_id : EffectId) (kind : ToolSettlementKind)
    (digest : Digest) (completion_id : option string) : kresult KernelState :=
  do? reject_if
        (is_some_and (k_tool_settlements s !! effect_id) (fun existing =>
           (tsf_kind existing <>?? kind) || (tsf_digest existing <>?? digest)))
        KernelError_ConflictingSettlement in
  insert_completion_identity
    (with_tool_settlements
       (<[effect_id := mkToolSettlementFingerprint kind digest]> (k_tool_settlements s)) s)
    effect_id digest completion_id.

Definition tool_wait_phase (b : ActiveToolBatch) : RunPhase :=
  if existsb (fun c =>
       match atc_status c with
       | ActiveToolCallStatus_Requested _ (Some _) => true
       | _ => false
       end) (atb_calls b)
  then RunPhase_AwaitingExternal else RunPhase_AwaitingTools.

Section ApplyTools.
Context `{Hasher, Serde}.

(** [ToolResultBlock::try_new] on one JSON block always succeeds. *)
Definition synthetic_result (c : ToolCallBlock) (error : ErrorDescriptor) : kresult ToolResultBlock :=
  let? json := ok_or (encode_error error) KernelError_InvariantViolation in
  Ok (mkToolResultBlock (tc_tool_call_id c) [ContentBlock_Json (mkJsonBlock json)] true).

Definition decode_tool_result (completion : EffectCompleted) (c : ToolCallBlock) : kresult ToolResultBlock :=
  let? res := ok_or (decode_tool_result_block (cpl_output completion)) KernelError_ToolResultMismatch in
  do? reject_if (tr_tool_call_id res <>?? tc_tool_call_id c) KernelError_ToolResultMismatch in
  Ok res.

(** ** Opening a batch *)

(** The loop state of [apply_tool_batch_opened]. *)
Record OpenLoop : Type := mkOpenLoop {
  ol_tool_calls : gmap ToolCallId ToolCallIdentity;
  ol_calls : list ActiveToolCall;
  ol_prior : option AssignedToolCall
}.

(** The group the plan must assign to a call, from its predecessor. *)
Definition expected_group (prior : option AssignedToolCall) (assigned : AssignedToolCall) : kresult Z :=
  match prior with
  | None => Ok 0
  | Some p =>
      if (plan_execution (asg_plan p) =?? ToolExecutionMode_Parallel)
         && (plan_execution (asg_plan assigned) =?? ToolExecutionMode_Parallel)
      then Ok (asg_group_index p)
      else ok_or (u32_checked_add (asg_group_index p) 1) KernelError_ToolBatchPlanMismatch
  end.

Definition opened_status (opened : ToolBatchOpened) (assigned : AssignedToolCall)
    : kresult ActiveToolCallStatus :=
  match asg_plan assigned with
  | ToolCallPlan_Execute c =>
      if oc_kind (vt_output_contract c) <>?? EffectOutputKind_ToolResult
      then Err KernelError_ToolEffectContractMismatch
      else Ok ActiveToolCallStatus_Undispatched
  | ToolCallPlan_SyntheticClosure closure =>
      let? res := synthetic_result (sy_call closure) (sy_error closure) in
      let? digest := synthetic_tool_digest (tbo_tool_batch_id opened) (tc_tool_call_id (sy_call closure))
                       (asg_effect_id assigned) res (sy_error closure) in
      Ok (ActiveToolCallStatus_Buffered res digest true (Some (sy_error closure)))
  end.

Definition open_step (opened : ToolBatchOpened) (source_calls : list ToolCallBlock)
    (st : OpenLoop) (entry : nat * AssignedToolCall) : kresult OpenLoop :=
  let '(index, assigned) := entry in
  let planned := plan_call (asg_plan assigned) in
  let? source_index := ok_or (in_range 0 u32_max (Z.of_nat index)) KernelError_InvalidRecordOrder in
  let? identity := ok_or (ol_tool_calls st !! tc_tool_call_id planned) KernelError_ToolBatchPlanMismatch in
  do? reject_if
        (negb (asg_source_index assigned =? source_index)
         || (Some planned <>?? source_calls !! index)
         || (tci_call identity <>?? planned)
         || (tci_source_message_id identity <>?? tbo_source_message_id opened)
         || is_some (tci_effect_id identity))
        KernelError_ToolBatchPlanMismatch in
  let? expected := expected_group (ol_prior st) assigned in
  do? reject_if (negb (asg_group_index assigned =? expected)) KernelError_ToolBatchPlanMismatch in
  let? status := opened_status opened assigned in
  Ok (mkOpenLoop
        (<[tc_tool_call_id planned :=
             set_tci_effect_id (Some (asg_effect_id assigned))
               (set_tci_tool_batch_id (Some (tbo_tool_batch_id opened)) identity)]> (ol_tool_calls st))
        (ol_calls st ++ [mkActiveToolCall assigned status])
        (Some assigned)).

Definition apply_tool_batch_opened (s : KernelState) (opened : ToolBatchOpened) : kresult KernelState :=
  do? reject_if
        (is_some (k_active_tool_batch s)
         || negb (tbo_cycle opened =? k_cycle s)
         || is_none_or (k_current_turn s) (fun t => ct_turn_id t <>?? tbo_turn_id opened)
         || is_none_or (last (k_messages s)) (fun m => msg_id m <>?? tbo_source_message_id opened)
         || (length (tbo_calls opened) =? 0)%nat
         || (SEMANTIC_ARRAY_MAX_ITEMS <? length (tbo_calls opened))%nat)
        KernelError_InvalidRecordOrder in
  let? message := ok_or (last (k_messages s)) KernelError_InvalidRecordOrder in
  let source_calls := assistant_tool_calls message true in
  do? reject_if (negb (length source_calls =? length (tbo_calls opened))%nat)
        KernelError_ToolBatchPlanMismatch in
  let? loop := rfold (open_step opened source_calls) (mkOpenLoop (k_tool_calls s) [] None)
                 (enumerate (tbo_calls opened)) in
  let current_group :=
    default 0 (find_map (fun c =>
      if is_execute (asg_plan (atc_assigned c)) then Some (asg_group_index (atc_assigned c)) else None)
      (ol_calls loop)) in
  Ok (with_phase (Some RunPhase_AwaitingTools)
        (with_last_tool_batch None
          (with_active_tool_batch
             (Some (ActiveToolBatch_new opened (ol_calls loop) current_group 0 [] None))
             (with_tool_calls (ol_tool_calls loop) s)))).

(** ** Buffering effect outcomes *)

Definition apply_tool_effect_completed (s : KernelState) (completed : EffectCompleted) : kresult KernelState :=
  let? batch := ok_or (k_active_tool_batch s) KernelError_InvalidRecordOrder in
  let? index := ok_or (call_index batch (cpl_effect_id completed)) KernelError_InvalidRecordOrder in
  let? active := ok_or (atb_calls batch !! index) KernelError_InvalidRecordOrder in
  match atc_status active with
  | ActiveToolCallStatus_Requested requested deferred =>
      do? reject_if (negb (validate_settlement requested (cpl_effect_id completed) (cpl_output_contract completed)))
            KernelError_ToolSettlementMismatch in
      let? res := decode_tool_result completed (plan_call (asg_plan (atc_assigned active))) in
      let? digest := completed_tool_record_digest (tbo_tool_batch_id (atb_opened batch)) (is_some deferred) completed in
      let? s := insert_tool_identity s (cpl_effect_id completed) ToolSettlementKind_Completed digest
                  (cpl_completion_id completed) in
      let batch := set_call_status index (ActiveToolCallStatus_Buffered res digest false None) batch in
      Ok (with_phase (Some (tool_wait_phase batch)) (with_active_tool_batch (Some batch) s))
  | _ => Err KernelError_InvalidRecordOrder
  end.

Definition apply_tool_effect_failed (s : KernelState) (failed : EffectFailed) : kresult KernelState :=
  let? batch := ok_or (k_active_tool_batch s) KernelError_InvalidRecordOrder in
  let? index := ok_or (call_index batch (fld_effect_id failed)) KernelError_InvalidRecordOrder in
  let? active := ok_or (atb_calls batch !! index) KernelError_InvalidRecordOrder in
  match atc_status active with
  | ActiveToolCallStatus_Requested requested deferred =>
      do? reject_if (negb (validate_settlement requested (fld_effect_id failed) (fld_output_contract failed)))
            KernelError_ToolSettlementMismatch in
      let? digest := failed_tool_record_digest (tbo_tool_batch_id (atb_opened batch)) (is_some deferred) failed in
      let? res := synthetic_result (plan_call (asg_plan (atc_assigned active))) (fld_error failed) in
      let? s := insert_tool_identity s (fld_effect_id failed) ToolSettlementKind_Failed digest
                  (fld_completion_id failed) in
      let batch := set_call_status index
                     (ActiveToolCallStatus_Buffered res digest true (Some (fld_error failed))) batch in
      let batch :=
        if (plan_failure_policy (asg_plan (atc_assigned active)) =?? ToolFailurePolicy_FailRun)
           && is_none (atb_fatal_error batch)
        then set_atb_fatal_error (Some (fld_error failed)) batch else batch in
      Ok (with_phase (Some (tool_wait_phase batch)) (with_active_tool_batch (Some batch) s))
  | _ => Err KernelError_InvalidRecordOrder
  end.

(** ** Settling results in source order *)

(** The match on the status of the call at [next_source_index]. *)
Definition settled_status_matches (batch : ActiveToolBatch) (active : ActiveToolCall)
    (settled : ToolCallSettled) (message_result : ToolResultBlock) : kresult unit :=
  match atc_status active with
  | ActiveToolCallStatus_Buffered res settlement_digest synthetic error =>
      reject_if
        (negb ((res =?? message_result)
               && (settlement_digest =?? tcs_settlement_digest settled)
               && Bool.eqb synthetic (tcs_synthetic settled)
               && (error =?? tcs_error settled)))
        KernelError_InvalidRecordOrder
  | ActiveToolCallStatus_Undispatched =>
      match atb_fatal_error batch, tcs_synthetic settled, tcs_error settled with
      | Some _, true, Some error =>
          if ed_code error =?? "tool_batch_aborted" then
            let? expected := synthetic_result (plan_call (asg_plan (atc_assigned active))) error in
            do? reject_if (expected <>?? message_result) KernelError_SettlementDigestMismatch in
            let? digest := synthetic_tool_digest (tcs_tool_batch_id settled) (tcs_tool_call_id settled)
                             (tcs_effect_id settled) message_result error in
            reject_if (digest <>?? tcs_settlement_digest settled) KernelError_SettlementDigestMismatch
          else Err KernelError_InvalidRecordOrder
      | _, _, _ => Err KernelError_InvalidRecordOrder
      end
  | _ => Err KernelError_InvalidRecordOrder
  end.

(** The settlement index update for synthetic results. *)
Definition settle_identity (s : KernelState) (settled : ToolCallSettled) (message_result : ToolResultBlock)
    : kresult KernelState :=
  if tcs_synthetic settled then
    let? error := ok_or (tcs_error settled) KernelError_ToolResultMismatch in
    do? reject_if (negb (tr_is_error message_result)) KernelError_SettlementDigestMismatch in
    let? synthetic_digest := synthetic_tool_digest (tcs_tool_batch_id settled) (tcs_tool_call_id settled)
                               (tcs_effect_id settled) message_result error in
    match k_tool_settlements s !! tcs_effect_id settled with
    | Some existing =>
        do? reject_if
              ((tsf_digest existing <>?? tcs_settlement_digest settled)
               || ((tsf_kind existing =?? ToolSettlementKind_Synthetic)
                   && (synthetic_digest <>?? tcs_settlement_digest settled))
               || (tsf_kind existing =?? ToolSettlementKind_Completed))
              KernelError_SettlementDigestMismatch in
        Ok s
    | None =>
        do? reject_if (synthetic_digest <>?? tcs_settlement_digest settled)
              KernelError_SettlementDigestMismatch in
        insert_tool_identity s (tcs_effect_id settled) ToolSettlementKind_Synthetic
          (tcs_settlement_digest settled) None
    end
  else
    do? reject_if (is_some (tcs_error settled)) KernelError_ToolResultMismatch in
    Ok s.

Definition apply_tool_call_settled (s : KernelState) (settled : ToolCallSettled) (record : RecordEnvelope)
    : kresult KernelState :=
  let? batch := ok_or (k_active_tool_batch s) KernelError_InvalidRecordOrder in
  let index := Z.to_nat (atb_next_source_index batch) in
  let? active := ok_or (atb_calls batch !! index) KernelError_InvalidRecordOrder in
  let opened := atb_opened batch in
  let planned := plan_call (asg_plan (atc_assigned active)) in
  let message := tcs_message settled in
  do? reject_if
        (negb (tcs_cycle settled =? tbo_cycle opened)
         || (tcs_turn_id settled <>?? tbo_turn_id opened)
         || (tcs_tool_batch_id settled <>?? tbo_tool_batch_id opened)
         || (tcs_tool_call_id settled <>?? tc_tool_call_id planned)
         || (tcs_effect_id settled <>?? asg_effect_id (atc_assigned active))
         || (msg_role message <>?? MessageRole_Tool)
         || negb (msg_created_at message =? rec_timestamp record)
         || is_some (msg_model message)
         || (msg_provider_ids message <>?? ProviderIds_empty)
         || (msg_metadata message <>?? METADATA_EMPTY)
         || negb (length (msg_content message) =? 1)%nat)
        KernelError_InvalidRecordOrder in
  match msg_content message with
  | ContentBlock_ToolResult message_result :: _ =>
      do? reject_if (tr_tool_call_id message_result <>?? tc_tool_call_id planned)
            KernelError_ToolResultMismatch in
      do? settled_status_matches batch active settled message_result in
      let? s := settle_identity s settled message_result in
      let batch := set_call_status index
                     (ActiveToolCallStatus_Settled (msg_id message) (tcs_settlement_digest settled)) batch in
      let batch := set_atb_result_message_ids (atb_result_message_ids batch ++ [msg_id message]) batch in
      let? next := ok_or (u32_checked_add (atb_next_source_index batch) 1) KernelError_InvariantViolation in
      let batch := set_atb_next_source_index next batch in
      Ok (with_messages (k_messages s ++ [message]) (with_active_tool_batch (Some batch) s))
  | _ => Err KernelError_InvalidRecordOrder
  end.

(** ** Closing a batch *)

Definition closed_outcome_matches (batch : ActiveToolBatch) (closed : ToolBatchClosed) : bool :=
  match atb_fatal_error batch, tbo_continuation (atb_opened batch), tbc_outcome closed with
  | Some expected, _, ToolBatchOutcome_Failed error => expected =?? error
  | None, ToolBatchContinuation_ContinueModel, ToolBatchOutcome_ContinueModel
  | None, ToolBatchContinuation_Finalize, ToolBatchOutcome_Finalize => true
  | _, _, _ => false
  end.

Definition apply_tool_batch_closed (s : KernelState) (closed : ToolBatchClosed) : kresult KernelState :=
  let? batch := ok_or (k_active_tool_batch s) KernelError_InvalidRecordOrder in
  let opened := atb_opened batch in
  do? reject_if
        (negb (tbc_cycle closed =? tbo_cycle opened)
         || (tbc_turn_id closed <>?? tbo_turn_id opened)
         || (tbc_tool_batch_id closed <>?? tbo_tool_batch_id opened)
         || (tbc_source_message_id closed <>?? tbo_source_message_id opened)
         || (tbc_result_message_ids closed <>?? atb_result_message_ids batch)
         || negb (all_settled batch))
        KernelError_InvalidRecordOrder in
  do? reject_if (negb (closed_outcome_matches batch closed)) KernelError_InvalidRecordOrder in
  let? s :=
    match tbc_outcome closed with
    | ToolBatchOutcome_Failed error =>
        match k_terminal_candidate s with
        | Some (TerminalCandidate_Completed cycle turn_id model_request_id effect_id _ _) =>
            Ok (with_terminal_candidate
                  (Some (TerminalCandidate_Failed cycle (Some turn_id) (Some model_request_id)
                           (Some effect_id) error)) s)
        | _ => Err KernelError_InvalidRecordOrder
        end
    | _ => Ok s
    end in
  Ok (with_phase (Some RunPhase_AfterToolBatch)
        (with_active_tool_batch None (with_last_tool_batch (Some closed) s))).

(** ** Cancellation closures *)

Definition buffer_cancellation_result (c : ActiveToolCall) (tool_batch_id : ToolBatchId)
    (error : ErrorDescriptor) : kresult ActiveToolCallStatus :=
  let planned := plan_call (asg_plan (atc_assigned c)) in
  let? res := synthetic_result planned error in
  let? digest := synthetic_tool_digest tool_batch_id (tc_tool_call_id planned)
                   (asg_effect_id (atc_assigned c)) res error in
  Ok (ActiveToolCallStatus_Buffered res digest true (Some error)).

(** [None] is the source's [Ok(false)]. *)
Definition buffer_cancelled_effect (batch : ActiveToolBatch) (effect_id : EffectId)
    : kresult (option ActiveToolBatch) :=
  let? error := cancelled_error in
  match call_index batch effect_id with
  | None => Ok None
  | Some index =>
      match atb_calls batch !! index with
      | Some c =>
          if is_requested (atc_status c) then
            let? status := buffer_cancellation_result c (tbo_tool_batch_id (atb_opened batch)) error in
            Ok (Some (set_call_status index status batch))
          else Ok None
      | None => Ok None
      end
  end.

Definition close_reconciled_step (error : ErrorDescriptor) (batch : ActiveToolBatch) (index : nat)
    : kresult ActiveToolBatch :=
  match atb_calls batch !! index with
  | None => Ok batch
  | Some c =>
      let? status := buffer_cancellation_result c (tbo_tool_batch_id (atb_opened batch)) error in
      Ok (set_call_status index status batch)
  end.

Definition buffer_reconciled_tool_closures (batch : ActiveToolBatch) (completed_effects : list EffectId)
    : kresult ActiveToolBatch :=
  let? error := cancelled_error in
  let indexes :=
    omap (fun e =>
      let c := e.2 in
      let completed := sorted_contains completed_effects (asg_effect_id (atc_assigned c)) in
      if is_undispatched (atc_status c) || (completed && is_requested (atc_status c))
      then Some e.1 else None) (enumerate (atb_calls batch)) in
  rfold (close_reconciled_step error) batch indexes.

Definition cancellation_fingerprints (s : KernelState) : list (EffectId * Digest) :=
  match k_active_tool_batch s with
  | None => []
  | Some batch =>
      omap (fun c =>
        match atc_status c with
        | ActiveToolCallStatus_Buffered _ settlement_digest true (Some error) =>
            if ed_code error =?? "cancelled" then Some (asg_effect_id (atc_assigned c), settlement_digest)
            else None
        | _ => None
        end) (atb_calls batch)
  end.
End ApplyTools.
