(* ===== verification/ApplyEffects.v ===== *)
(** * Replaying effects and interactions

    Models [reducer/apply/effects.rs], [reducer/apply/interactions.rs], the
    shared helpers of [reducer/extension.rs] and [reducer/interaction.rs], and
    the cancellation handlers of [reducer/apply/record.rs]. *)

From S2P Require Import Prelude Primitives Effects Records State Inputs ToolBatch Digests ApplyStage ApplyTools.

(** [stage_cursor_for_phase] of [reducer/apply/shapes.rs]. *)
Definition stage_cursor_for_phase (s : KernelState) : option StageCursor :=
  phase ← k_phase s;
  stage ← match phase with
          | RunPhase_BeforeRun => Some Stage_BeforeRun
          | RunPhase_PreparingContext => Some Stage_PrepareContext
          | RunPhase_BeforeModel => Some Stage_BeforeModel
          | RunPhase_AfterModel => Some Stage_AfterModel
          | RunPhase_BeforeToolBatch | RunPhase_AwaitingTools => Some Stage_BeforeToolBatch
          | RunPhase_AfterToolBatch => Some Stage_AfterToolBatch
          | RunPhase_BeforeFinalize => Some Stage_BeforeFinalize
          | _ => None
          end;
  Some (mkStageCursor (k_cycle s) stage).

(** ** Extension effects *)

Definition stage_name (stage : Stage) : string :=
  match stage with
  | Stage_BeforeRun => "before_run"
  | Stage_PrepareContext => "prepare_context"
  | Stage_BeforeModel => "before_model"
  | Stage_AfterModel => "after_model"
  | Stage_BeforeToolBatch => "before_tool_batch"
  | Stage_AfterToolBatch => "after_tool_batch"
  | Stage_BeforeFinalize => "before_finalize"
  end.

Definition request_cursor (requested : EffectRequested) : kresult StageCursor :=
  match req_input requested with
  | EffectInput_Context cursor _ | EffectInput_Middleware cursor _ _ _ => Ok cursor
  | _ => Err (KernelError_InvalidInputPayload "requested.input" "not_extension_effect")
  end.

Definition validate_request_shape (requested : EffectRequested) : kresult unit :=
  do? reject_if (is_some (req_relation requested) || is_none (req_component requested))
        (KernelError_InvalidInputPayload "requested" "invalid_extension_contract") in
  let pipeline_stage_is name := is_some_and (req_pipeline requested) (fun p => pp_stage p =?? name) in
  let valid :=
    match req_input requested with
    | EffectInput_Context cursor _ =>
        (req_kind requested =?? EffectKind_Context)
        && (sc_stage cursor =?? Stage_PrepareContext)
        && pipeline_stage_is "prepare_context"
        && (oc_kind (req_output_contract requested) =?? EffectOutputKind_ContextContribution)
    | EffectInput_Middleware cursor stage _ _ =>
        (req_kind requested =?? EffectKind_Middleware)
        && (stage =?? stage_name (sc_stage cursor))
        && (oc_kind (req_output_contract requested) =?? EffectOutputKind_MiddlewareOutcome)
        && is_some_and (req_component requested) (fun c => ci_recovery c =?? InvocationRecovery_RecomputeSafe)
        && pipeline_stage_is stage
    | _ => false
    end in
  reject_if (negb valid) (KernelError_InvalidInputPayload "requested" "invalid_extension_contract").

(** Accessors of [ExtensionSettlement]. *)
Definition ExtensionSettlement_effect_id (o : ExtensionSettlement) : EffectId :=
  match o with
  | ExtensionSettlement_Completed v => cpl_effect_id v
  | ExtensionSettlement_Failed v => fld_effect_id v
  end.
Definition ExtensionSettlement_completion_id (o : ExtensionSettlement) : option string :=
  match o with
  | ExtensionSettlement_Completed v => cpl_completion_id v
  | ExtensionSettlement_Failed v => fld_completion_id v
  end.
Definition ExtensionSettlement_valid (o : ExtensionSettlement) (requested : EffectRequested) : bool :=
  match o with
  | ExtensionSettlement_Completed v => validate_settlement requested (cpl_effect_id v) (cpl_output_contract v)
  | ExtensionSettlement_Failed v => validate_settlement requested (fld_effect_id v) (fld_output_contract v)
  end.

Definition apply_extension_requested (s : KernelState) (requested : EffectRequested) : kresult KernelState :=
  do? validate_request_shape requested in
  let? cursor := request_cursor requested in
  do? reject_if (is_some (k_pending_extension_effect s) || (stage_cursor_for_phase s <>?? Some cursor))
        KernelError_InvalidRecordOrder in
  Ok (raise_version 7
        (with_pending_extension_effect (Some (mkPendingExtensionEffect cursor requested)) s)).

(** ** Interactions *)

Definition terminal_from_pending (pending : PendingInteraction) (outcome : InteractionTerminalOutcome)
    : InteractionTerminal :=
  mkInteractionTerminal (ir_interaction_id (pin_request pending)) (ir_kind (pin_request pending))
    (pin_cursor pending) outcome.

Definition apply_interaction_requested (s : KernelState) (request : InteractionRequest) : kresult KernelState :=
  let s := raise_version 6 s in
  match k_pending_interaction s with
  | Some pending =>
      if (ir_interaction_id (pin_request pending) =?? ir_interaction_id request)
         && (ir_effect_id (pin_request pending) =?? ir_effect_id request)
      then Ok s else Err KernelError_InvalidRecordOrder
  | None =>
      let? prior_phase := ok_or (k_phase s) KernelError_InvalidRecordOrder in
      let? cursor := ok_or (stage_cursor_for_phase s) KernelError_InvalidRecordOrder in
      Ok (with_pending_interaction (Some (mkPendingInteraction request prior_phase cursor)) s)
  end.

Definition apply_interaction_terminal_outcome (s : KernelState) (interaction_id : InteractionId)
    (outcome : InteractionTerminalOutcome) : kresult KernelState :=
  let? pending := ok_or (k_pending_interaction s) KernelError_InvalidRecordOrder in
  do? reject_if (ir_interaction_id (pin_request pending) <>?? interaction_id) KernelError_InvalidRecordOrder in
  Ok (raise_version 6 (with_last_interaction_terminal (Some (terminal_from_pending pending outcome)) s)).

Definition apply_interaction_effect_terminal (s : KernelState) (effect_id : EffectId)
    (completion_id : option string) (settlement_digest : Digest) : kresult KernelState :=
  let? pending := ok_or (k_pending_interaction s) KernelError_InvalidRecordOrder in
  do? reject_if (ir_effect_id (pin_request pending) <>?? effect_id) KernelError_InvalidRecordOrder in
  let s := with_pending_interaction None s in
  let s := match completion_id with
           | Some cid => with_completion_identities
                           (<[cid := mkCompletionIdentity effect_id settlement_digest]> (k_completion_identities s)) s
           | None => s
           end in
  if is_some (k_cancellation s) then
    Ok match k_phase s with
       | Some (RunPhase_Cancelling | RunPhase_Suspended | RunPhase_Cancelled) => s
       | _ => with_phase (Some RunPhase_Cancelling) s
       end
  else Ok (with_phase (Some (pin_prior_phase pending)) s).

Definition apply_timer_effect_cancelled (s : KernelState) (cancelled : EffectCancelled) : kresult KernelState :=
  let? pending := ok_or (rst_pending (k_retry s)) KernelError_InvalidRecordOrder in
  do? reject_if
        ((rs_timer_effect_id pending <>?? cnl_effect_id cancelled)
         || (oc_kind (cnl_output_contract cancelled) <>?? EffectOutputKind_TimerFiring))
        KernelError_InvalidRecordOrder in
  Ok (raise_version 3 (with_retry (set_rst_pending None (k_retry s)) s)).

(** The sequence of tool calls an assistant entry introduces. *)
Definition entry_step (entry : EntryAppended) (calls : gmap ToolCallId ToolCallIdentity) (c : ToolCallBlock)
    : kresult (gmap ToolCallId ToolCallIdentity) :=
  do? reject_if (is_some (calls !! tc_tool_call_id c)) KernelError_DuplicateToolCall in
  Ok (<[tc_tool_call_id c :=
          mkToolCallIdentity (ea_cycle entry) (ea_turn_id entry) (msg_id (ea_message entry)) None None c]> calls).

Definition apply_entry_appended (s : KernelState) (entry : EntryAppended) : kresult KernelState :=
  let message_id := msg_id (ea_message entry) in
  let external_calls := assistant_tool_calls (ea_message entry) true in
  let? tool_calls := rfold (entry_step entry) (k_tool_calls s) external_calls in
  let s := with_tool_calls tool_calls s in
  let s := if negb (length external_calls =? 0)%nat then raise_version 2 s else s in
  let s := with_messages (k_messages s ++ [ea_message entry]) s in
  let s := with_current_turn (set_ct_final_message_id (Some message_id) <$> k_current_turn s) s in
  do? reject_if
        (negb match k_terminal_candidate s with
              | Some (TerminalCandidate_Completed _ _ _ effect_id candidate_message_id _) =>
                  (effect_id =?? ea_effect_id entry) && (candidate_message_id =?? message_id)
              | _ => false
              end)
        KernelError_AssistantMessageMismatch in
  Ok (with_phase (Some RunPhase_AfterModel) (with_pending_model_effect None s)).

Section ApplyEffects.
Context `{Hasher, Serde}.

Definition extension_fingerprint (input : ExtensionEffectSettled) : kresult ExtensionSettlementFingerprint :=
  let? digest := canonical_digest "extension-settlement" (Canon_Extension input) in
  Ok (mkExtensionSettlementFingerprint
        match xes_outcome input with
        | ExtensionSettlement_Completed _ => ExtensionSettlementKind_Completed
        | ExtensionSettlement_Failed _ => ExtensionSettlementKind_Failed
        end digest).

Definition approval_outcome (kind : InteractionKind) (response : RawJson) : kresult InteractionTerminalOutcome :=
  let invalid := KernelError_InvalidInputPayload "response" "invalid_approval" in
  match kind with
  | InteractionKind_Approval =>
      let? object := ok_or (decode_object response) invalid in
      do? reject_if (negb (size object =? 1)%nat) invalid in
      match object !! "approved" with
      | Some (JsonValue_Bool true) => Ok InteractionTerminalOutcome_Granted
      | Some (JsonValue_Bool false) => Ok InteractionTerminalOutcome_Denied
      | _ => Err invalid
      end
  | _ => Ok InteractionTerminalOutcome_Granted
  end.

Definition resolution_digest (resolution : InteractionResolution) : kresult Digest :=
  canonical_digest "interaction-resolution" (Canon_Resolution resolution).

(** [InteractionRequest::request_digest]. *)
Definition request_digest (request : InteractionRequest) : option Digest :=
  digest_effect_input <$> canonicalize (Canon_InteractionRequest request).

Definition apply_interaction_effect_requested (s : KernelState) (requested : EffectRequested)
    (next : option RecordBody) : kresult KernelState :=
  let? request :=
    match next with
    | Some (RecordBody_InteractionRequested request) => Ok request
    | _ => ok_or (pin_request <$> k_pending_interaction s) KernelError_InvalidRecordOrder
    end in
  let? digest := ok_or (request_digest request) KernelError_InvalidRecordOrder in
  do? reject_if
        ((req_effect_id requested <>?? ir_effect_id request)
         || negb match req_input requested with
                 | EffectInput_Interaction interaction_id d =>
                     (interaction_id =?? ir_interaction_id request) && (d =?? digest)
                 | _ => false
                 end)
        KernelError_InvalidRecordOrder in
  let? s := if is_none (k_pending_interaction s) then apply_interaction_requested s request else Ok s in
  Ok (raise_version 6 (with_phase (Some RunPhase_AwaitingInteraction) s)).

Definition apply_interaction_resolved (s : KernelState) (resolved : InteractionResolution) : kresult KernelState :=
  let? pending := ok_or (k_pending_interaction s) KernelError_InvalidRecordOrder in
  do? reject_if (ir_interaction_id (pin_request pending) <>?? ires_interaction_id resolved)
        KernelError_InvalidRecordOrder in
  let? digest := map_err (fun _ => KernelError_InvalidRecordOrder) (resolution_digest resolved) in
  let? outcome := map_err (fun _ => KernelError_InvalidRecordOrder)
                    (approval_outcome (ir_kind (pin_request pending)) (ires_response resolved)) in
  let s := with_resolution_identities
             (<[ires_resolution_id resolved := mkResolutionIdentity (ires_interaction_id resolved) digest]>
                (k_resolution_identities s)) s in
  apply_interaction_terminal_outcome s (ires_interaction_id resolved) outcome.

(** ** Effect requests *)

(** The [EffectKind::Timer] arm of [apply_effect_requested]. *)
Definition apply_timer_requested (s : KernelState) (requested : EffectRequested) : kresult KernelState :=
  let? pending := ok_or (rst_pending (k_retry s)) KernelError_InvalidRecordOrder in
  do? reject_if
        ((rs_timer_effect_id pending <>?? req_effect_id requested)
         || (oc_kind (req_output_contract requested) <>?? EffectOutputKind_TimerFiring)
         || negb match req_input requested with
                 | EffectInput_Timer due_at => due_at =? rs_due_at pending
                 | _ => false
                 end)
        KernelError_InvalidRecordOrder in
  Ok (with_phase (Some RunPhase_Sleeping) s).

(** The [EffectKind::Tool] arm. *)
Definition apply_tool_requested (s : KernelState) (requested : EffectRequested) : kresult KernelState :=
  let? batch := ok_or (k_active_tool_batch s) KernelError_InvalidRecordOrder in
  let? index := ok_or (call_index batch (req_effect_id requested)) KernelError_InvalidRecordOrder in
  let? active := ok_or (atb_calls batch !! index) KernelError_InvalidRecordOrder in
  let requested_group := asg_group_index (atc_assigned active) in
  do? reject_if
        (negb (is_undispatched (atc_status active))
         || (requested_group <? atb_current_group batch)
         || (oc_kind (req_output_contract requested) <>?? EffectOutputKind_ToolResult)
         || negb match req_input requested with
                 | EffectInput_Tool input => input =?? plan_call (asg_plan (atc_assigned active))
                 | _ => false
                 end)
        KernelError_InvalidRecordOrder in
  do? reject_if
        ((atb_current_group batch <? requested_group)
         && existsb (fun c => (asg_group_index (atc_assigned c) <? requested_group)
                              && negb (is_settled (atc_status c))) (atb_calls batch))
        KernelError_InvalidRecordOrder in
  let batch := set_call_status index (ActiveToolCallStatus_Requested requested None)
                 (set_current_group requested_group batch) in
  Ok (with_phase (Some RunPhase_AwaitingTools) (with_active_tool_batch (Some batch) s)).

(** The remaining kind, [EffectKind::Model]; [ModelRequestId::from_bytes] of
    an effect identity keeps its bytes. *)
Definition apply_model_requested (s : KernelState) (requested : EffectRequested) : kresult KernelState :=
  let? total := ok_or (u64_checked_add (lu_model_requests (k_limit_usage s)) 1) KernelError_InvalidRecordOrder in
  let s := map_limit_usage (set_lu_model_requests total) s in
  let? turn := ok_or (k_current_turn s) KernelError_InvalidRecordOrder in
  let? p :=
    match ct_model_request_id turn with
    | Some id => Ok (id, turn)
    | None =>
        if is_runtime_owned_child_model requested then
          Ok (req_effect_id requested,
              set_ct_effect_id (Some (req_effect_id requested))
                (set_ct_model_request_id (Some (req_effect_id requested)) turn))
        else Err KernelError_InvalidRecordOrder
    end in
  let s := with_current_turn (Some p.2) s in
  Ok (with_phase (Some RunPhase_AwaitingModel)
        (with_pending_model_effect
           (Some (mkPendingModelEffect (k_cycle s) (ct_turn_id turn) p.1 requested None)) s)).

Definition apply_effect_requested (s : KernelState) (requested : EffectRequested) (next : option RecordBody)
    : kresult KernelState :=
  match req_kind requested with
  | EffectKind_Context | EffectKind_Middleware => apply_extension_requested s requested
  | EffectKind_Interaction => apply_interaction_effect_requested s requested next
  | EffectKind_Timer => apply_timer_requested s requested
  | EffectKind_Tool => apply_tool_requested s requested
  | EffectKind_Model => apply_model_requested s requested
  end.

Definition apply_effect_deferred (s : KernelState) (deferred : EffectDeferred) : kresult KernelState :=
  if oc_kind (def_output_contract deferred) =?? EffectOutputKind_ToolResult then
    let? batch := ok_or (k_active_tool_batch s) KernelError_InvalidRecordOrder in
    let? index := ok_or (call_index batch (def_effect_id deferred)) KernelError_InvalidRecordOrder in
    let? active := ok_or (atb_calls batch !! index) KernelError_InvalidRecordOrder in
    match atc_status active with
    | ActiveToolCallStatus_Requested requested existing =>
        do? reject_if (negb (validate_settlement requested (def_effect_id deferred) (def_output_contract deferred)))
              KernelError_ToolSettlementMismatch in
        do? reject_if (is_some existing) KernelError_InvalidRecordOrder in
        let batch := set_call_status index (ActiveToolCallStatus_Requested requested (Some deferred)) batch in
        Ok (with_phase (Some RunPhase_AwaitingExternal) (with_active_tool_batch (Some batch) s))
    | _ => Err KernelError_InvalidRecordOrder
    end
  else
    let? pending := ok_or (k_pending_model_effect s) KernelError_ModelSettlementMismatch in
    Ok (with_phase (Some RunPhase_AwaitingExternal)
          (with_pending_model_effect (Some (set_pme_deferred (Some deferred) pending)) s)).

(** ** Effect settlements *)

Definition apply_extension_settled (s : KernelState) (outcome : ExtensionSettlement) : kresult KernelState :=
  let? pending := ok_or (k_pending_extension_effect s) KernelError_InvalidRecordOrder in
  do? reject_if (negb (ExtensionSettlement_valid outcome (pxe_requested pending))) KernelError_InvalidRecordOrder in
  let input := mkExtensionEffectSettled (pxe_cursor pending) outcome in
  let? fingerprint := extension_fingerprint input in
  let effect_id := ExtensionSettlement_effect_id outcome in
  do? reject_if (is_some (k_extension_settlements s !! effect_id)) KernelError_InvalidRecordOrder in
  let s := with_extension_settlements (<[effect_id := fingerprint]> (k_extension_settlements s)) s in
  let? s := insert_completion_identity s effect_id (xsf_digest fingerprint)
              (ExtensionSettlement_completion_id outcome) in
  Ok (raise_version 7 (with_pending_extension_effect None s)).

Definition apply_compaction_completed (s : KernelState) (completed : EffectCompleted) : kresult KernelState :=
  let? pending := ok_or (k_pending_model_effect s) KernelError_ModelSettlementMismatch in
  let? digest := completed_compaction_digest pending completed in
  let? s := insert_model_identity s (cpl_effect_id completed) ModelSettlementKind_Completed digest
              (cpl_completion_id completed) in
  let s := with_pending_model_effect None s in
  let clear turn :=
    if ct_effect_id turn =?? Some (req_effect_id (pme_requested pending))
    then set_ct_effect_id None (set_ct_model_request_id None turn) else turn in
  let s := with_current_turn (clear <$> k_current_turn s) s in
  Ok (with_phase (Some (if is_nested_model (pme_requested pending) then RunPhase_AwaitingTools
                        else RunPhase_BeforeModel)) s).

Definition apply_model_completed (s : KernelState) (completed : EffectCompleted) (next : option RecordBody)
    : kresult KernelState :=
  match next with
  | Some (RecordBody_EntryAppended entry) =>
      let? pending := ok_or (k_pending_model_effect s) KernelError_ModelSettlementMismatch in
      let? digest := completed_record_digest pending completed (ea_message entry) in
      let? s := insert_model_identity s (cpl_effect_id completed) ModelSettlementKind_Completed digest
                  (cpl_completion_id completed) in
      Ok (with_terminal_candidate
            (Some (TerminalCandidate_Completed (ea_cycle entry) (ea_turn_id entry) (ea_model_request_id entry)
                     (ea_effect_id entry) (msg_id (ea_message entry)) (cpl_output_digest completed))) s)
  | _ => Err KernelError_InvalidRecordOrder
  end.

Definition apply_effect_completed (s : KernelState) (completed : EffectCompleted) (next : option RecordBody)
    : kresult KernelState :=
  match oc_kind (cpl_output_contract completed) with
  | EffectOutputKind_ContextContribution | EffectOutputKind_MiddlewareOutcome =>
      apply_extension_settled s (ExtensionSettlement_Completed completed)
  | EffectOutputKind_InteractionResolution =>
      apply_interaction_effect_terminal s (cpl_effect_id completed) (cpl_completion_id completed)
        (cpl_output_digest completed)
  | EffectOutputKind_ToolResult => apply_tool_effect_completed s completed
  | _ =>
      if is_some_and (k_pending_model_effect s) (fun p => is_runtime_owned_child_model (pme_requested p))
      then apply_compaction_completed s completed
      else apply_model_completed s completed next
  end.

Definition apply_effect_failed (s : KernelState) (failed : EffectFailed) : kresult KernelState :=
  match oc_kind (fld_output_contract failed) with
  | EffectOutputKind_ContextContribution | EffectOutputKind_MiddlewareOutcome =>
      apply_extension_settled s (ExtensionSettlement_Failed failed)
  | EffectOutputKind_InteractionResolution =>
      apply_interaction_effect_terminal s (fld_effect_id failed) (fld_completion_id failed)
        (digest_raw_json "interaction-effect-failed")
  | EffectOutputKind_ToolResult => apply_tool_effect_failed s failed
  | _ =>
      let? pending := ok_or (k_pending_model_effect s) KernelError_ModelSettlementMismatch in
      let? digest := failed_record_digest pending failed in
      let? s := insert_model_identity s (fld_effect_id failed) ModelSettlementKind_Failed digest
                  (fld_completion_id failed) in
      Ok (with_phase (Some RunPhase_BeforeFinalize)
            (with_terminal_candidate
               (Some (TerminalCandidate_Failed (pme_cycle pending) (Some (pme_turn_id pending))
                        (Some (pme_model_request_id pending)) (Some (req_effect_id (pme_requested pending)))
                        (fld_error failed)))
               (with_pending_model_effect None s)))
  end.

(** ** Cancelled effects *)

Definition buffer_cancelled_tool_effect (s : KernelState) (cancelled : EffectCancelled) : kresult KernelState :=
  let effect_id := cnl_effect_id cancelled in
  let? batch := ok_or (k_active_tool_batch s) KernelError_InvalidRecordOrder in
  let? requested :=
    ok_or (c ← call batch effect_id;
           match atc_status c with ActiveToolCallStatus_Requested requested _ => Some requested | _ => None end)
      KernelError_InvalidRecordOrder in
  do? reject_if (negb (validate_settlement requested effect_id (cnl_output_contract cancelled)))
        KernelError_InvalidRecordOrder in
  let? buffered := buffer_cancelled_effect batch effect_id in
  let? batch := ok_or buffered KernelError_InvalidRecordOrder in
  let? digest :=
    ok_or (c ← call batch effect_id;
           match atc_status c with ActiveToolCallStatus_Buffered _ d _ _ => Some d | _ => None end)
      KernelError_InvalidRecordOrder in
  insert_tool_identity (with_active_tool_batch (Some batch) s) effect_id ToolSettlementKind_Synthetic digest None.

(** The three pending slots an [EffectCancelled] of any other kind can name. *)
Definition apply_other_cancelled (s : KernelState) (cancelled : EffectCancelled) : kresult KernelState :=
  let effect_id := cnl_effect_id cancelled in
  let names requested := req_effect_id requested =?? effect_id in
  let valid requested := validate_settlement requested effect_id (cnl_output_contract cancelled) in
  match k_pending_extension_effect s with
  | Some pending =>
      if names (pxe_requested pending) then
        do? reject_if (negb (valid (pxe_requested pending))) KernelError_InvalidRecordOrder in
        Ok (raise_version 7 (with_pending_extension_effect None s))
      else
        let? s :=
          match k_pending_model_effect s with
          | Some model =>
              if names (pme_requested model) then
                do? reject_if (negb (valid (pme_requested model))) KernelError_InvalidRecordOrder in
                Ok (with_pending_model_effect None s)
              else buffer_cancelled_tool_effect s cancelled
          | None => buffer_cancelled_tool_effect s cancelled
          end in
        Ok (raise_version 3 s)
  | None =>
      let? s :=
        match k_pending_model_effect s with
        | Some model =>
            if names (pme_requested model) then
              do? reject_if (negb (valid (pme_requested model))) KernelError_InvalidRecordOrder in
              Ok (with_pending_model_effect None s)
            else buffer_cancelled_tool_effect s cancelled
        | None => buffer_cancelled_tool_effect s cancelled
        end in
      Ok (raise_version 3 s)
  end.

Definition apply_effect_cancelled (s : KernelState) (cancelled : EffectCancelled) : kresult KernelState :=
  match oc_kind (cnl_output_contract cancelled) with
  | EffectOutputKind_InteractionResolution =>
      apply_interaction_effect_terminal s (cnl_effect_id cancelled) (cnl_completion_id cancelled)
        (digest_raw_json "interaction-effect-cancelled")
  | EffectOutputKind_TimerFiring => apply_timer_effect_cancelled s cancelled
  | _ => apply_other_cancelled s cancelled
  end.
End ApplyEffects.
