(* ===== verification/ApplyRecord.v ===== *)
(** * Replaying one committed record

    Models [reducer/apply/output.rs], the child, budget, limit, retry and
    cancellation handlers of [reducer/apply/record.rs], and [apply_record], the
    dispatcher over the whole record vocabulary. *)

From S2P Require Import Prelude Primitives Effects Records State Inputs ToolBatch Digests Policy ApplyStage ApplyTools ApplyEffects.

(** [outstanding_requested_effects] of [reducer/decide/shared.rs]: collected,
    sorted by identity and deduplicated. *)
Definition outstanding_requested_effects (s : KernelState) : list EffectId :=
  let model := match k_pending_model_effect s with
               | Some p => [req_effect_id (pme_requested p)] | None => [] end in
  let tools := match k_active_tool_batch s with
               | Some batch =>
                   omap (fun c => if is_requested (atc_status c) then Some (asg_effect_id (atc_assigned c)) else None)
                     (atb_calls batch)
               | None => [] end in
  let interaction := match k_pending_interaction s with
                     | Some p => [ir_effect_id (pin_request p)] | None => [] end in
  let extension := match k_pending_extension_effect s with
                   | Some p => [req_effect_id (pxe_requested p)] | None => [] end in
  let timer := match rst_pending (k_retry s) with
               | Some p => [rs_timer_effect_id p] | None => [] end in
  dedup (merge_sort N.le (model ++ tools ++ interaction ++ extension ++ timer)).

(** ** Structured output *)

Definition structured_source_value (message : Message) (source : StructuredResultSource) : option RawJson :=
  match source with
  | StructuredResultSource_JsonBlock content_index =>
      block ← msg_content message !! Z.to_nat content_index;
      match block with ContentBlock_Json value => Some (jb_value value) | _ => None end
  | StructuredResultSource_InternalTool tool_call_id =>
      find_map (fun block =>
        match block with
        | ContentBlock_ToolCall c =>
            if (tc_tool_call_id c =?? tool_call_id) && (tc_tool_name c =?? SUBMIT_FINAL_OUTPUT_TOOL)
            then Some (tc_arguments c) else None
        | _ => None
        end) (msg_content message)
  end.

(** The [matches!] on the terminal candidate shared by both output handlers. *)
Definition candidate_matches (s : KernelState) (cycle : Z) (turn_id : TurnId)
    (model_request_id : ModelRequestId) (effect_id : EffectId) (message_id : MessageId) : bool :=
  match k_terminal_candidate s with
  | Some (TerminalCandidate_Completed c t r e m _) =>
      (cycle =? c) && (turn_id =?? t) && (model_request_id =?? r) && (effect_id =?? e) && (message_id =?? m)
  | _ => false
  end.

(** [state.messages.last().filter(|message| message.id() == id)]. *)
Definition last_message_is (s : KernelState) (id : MessageId) : option Message :=
  m ← last (k_messages s); if msg_id m =?? id then Some m else None.

Definition skipped_calls (message : Message) : list ToolCallId :=
  tc_tool_call_id <$> assistant_tool_calls message true.

(** ** Child runs *)

Definition apply_child_run_prepared (s : KernelState) (prepared : ChildRunPrepared) : kresult KernelState :=
  let? accepted := ok_or (k_accepted s) KernelError_InvalidRecordOrder in
  let? parent_session_id := ok_or (k_session_id s) KernelError_InvalidRecordOrder in
  let operation := crl_operation (crp_child prepared) in
  let same_session := ol_session_id operation =?? parent_session_id in
  let placement_matches :=
    match crp_placement prepared with
    | ChildPlacement_CompatibleLaneInParentSession =>
        same_session && is_some_and (k_lane_id s) (fun lane_id => ol_lane_id operation <>?? lane_id)
    | ChildPlacement_IsolatedChildSession | ChildPlacement_RemoteChildSession => negb same_session
    end in
  do? reject_if
        ((crp_parent_run_id prepared <>?? ra_run_id accepted)
         || negb (ChildRunPrepared_valid prepared (rsc_tenant_scope (ra_security accepted)))
         || negb placement_matches)
        KernelError_InvalidRecordOrder in
  let? s :=
    match k_child_preparations s !! crp_parent_effect_id prepared with
    | Some existing => if existing =?? prepared then Ok s else Err KernelError_InvalidRecordOrder
    | None => Ok (with_child_preparations
                    (<[crp_parent_effect_id prepared := prepared]> (k_child_preparations s)) s)
    end in
  Ok (raise_version 5 s).

(** ** Cancellation *)

(** [apply_record] on [CancellationRequested]. *)
Definition apply_cancellation_requested (s : KernelState) (requested : CancellationRequested) : kresult KernelState :=
  let outstanding := outstanding_requested_effects s in
  let? prior_phase := ok_or (k_phase s) KernelError_InvalidRecordOrder in
  Ok (raise_version 3
        (with_phase (Some RunPhase_Cancelling)
          (with_cancellation
             (Some (mkCancellationState (crd_request requested) prior_phase [] [] [] outstanding)) s))).

Definition classified_effects (r : CancellationReconciled) : gset EffectId :=
  list_to_set (crc_completed_effects r ++ crc_cancelled_effects r ++ crc_uncertain_effects r).

Definition reconcile_cancellation (c : CancellationState) (r : CancellationReconciled) : CancellationState :=
  set_cs_outstanding_effects
    (List.filter (fun e => negb (bool_decide (e ∈ classified_effects r))) (cs_outstanding_effects c))
    (set_cs_uncertain_effects (crc_uncertain_effects r)
      (set_cs_cancelled_effects (crc_cancelled_effects r)
        (set_cs_completed_effects (crc_completed_effects r) c))).

(** The pending slots that a completed effect of the reconciliation empties. *)
Definition clear_completed_pending (r : CancellationReconciled) (s : KernelState) : KernelState :=
  let completed requested := bool_decide (req_effect_id requested ∈ crc_completed_effects r) in
  let s := if is_some_and (k_pending_model_effect s) (fun p => completed (pme_requested p))
           then with_pending_model_effect None s else s in
  if is_some_and (k_pending_extension_effect s) (fun p => completed (pxe_requested p))
  then with_pending_extension_effect None s else s.

(** ** Retries and terminals *)

Definition apply_retry_scheduled (s : KernelState) (retry : RetryScheduled) : KernelState :=
  raise_version 3
    (with_phase (Some RunPhase_Sleeping)
      (map_limit_usage (set_lu_retries (rs_attempt retry))
        (with_retry (set_rst_pending (Some retry) (set_rst_attempts (rs_attempt retry) (k_retry s))) s))).

Definition is_limit_failure (e : ErrorDescriptor) : bool :=
  match ed_category e with ErrorCategory_Limit | ErrorCategory_Deadline => true | _ => false end.

Definition apply_run_failed (s : KernelState) (failed : RunFailed) : KernelState :=
  let s := with_phase (Some RunPhase_Failed) (with_terminal (Some (TerminalState_Failed failed)) s) in
  if is_limit_failure (rf_error failed) then raise_version 3 s else s.

Definition apply_output_configured (s : KernelState) (c : OutputConfiguration) : kresult KernelState :=
  do? reject_if (negb (OutputConfiguration_valid c) || is_some (k_output_configuration s))
        KernelError_InvalidRecordOrder in
  Ok (raise_version 4 (with_output_configuration (Some c) s)).

Definition apply_capabilities_activated (s : KernelState) (a : CapabilitiesActivated) : kresult KernelState :=
  do? reject_if (negb (CapabilitiesActivated_valid a)) KernelError_InvalidRecordOrder in
  do? reject_if (cact_prior_plan_digest a <>?? k_resolved_plan_digest s) KernelError_InvalidRecordOrder in
  Ok (raise_version 4
        (with_resolved_plan_digest (Some (cact_resolved_plan_digest a))
          (with_active_capabilities (cact_active a) s))).

(** [is_foreign_run] of [reducer/apply/shapes.rs]. *)
Definition is_foreign_run (s : KernelState) (record : RecordEnvelope) : bool :=
  match k_accepted s, rec_run_id record with
  | Some accepted, Some run_id =>
      if run_id <>?? ra_run_id accepted then
        match rec_body record with
        | RecordBody_RunAccepted _ => true
        | _ => existsb (fun e => ol_run_id (crl_operation (crp_child e.2)) =?? run_id)
                 (map_to_list (k_child_preparations s))
        end
      else false
  | _, _ => false
  end.

Section ApplyRecord.
Context `{Hasher, Serde}.

Definition apply_final_result (s : KernelState) (r : FinalResultRecorded) : kresult KernelState :=
  do? reject_if (negb (FinalResultRecorded_valid r)) KernelError_InvalidRecordOrder in
  match k_output_configuration s with
  | Some (mkOutputConfiguration (OutputSpec_JsonSchema schema) end_strategy) =>
      let? message := ok_or (last_message_is s (frr_message_id r)) KernelError_InvalidRecordOrder in
      let expected_skipped :=
        if end_strategy =?? OutputEndStrategy_Early then skipped_calls message else [] in
      do? reject_if
            (negb (candidate_matches s (frr_cycle r) (frr_turn_id r) (frr_model_request_id r)
                     (frr_effect_id r) (frr_message_id r))
             || (frr_schema r <>?? schema)
             || (frr_end_strategy r <>?? end_strategy)
             || (frr_value_digest r <>?? digest_raw_json (frr_value r))
             || (structured_source_value message (frr_source r) <>?? Some (frr_value r))
             || (frr_skipped_tool_call_ids r <>?? expected_skipped)
             || is_some (k_final_result s)
             || is_some (k_validation_failure s))
            KernelError_InvalidRecordOrder in
      Ok (raise_version 4
            (with_final_result (Some r)
              (with_terminal_candidate
                 (Some (TerminalCandidate_Completed (frr_cycle r) (frr_turn_id r) (frr_model_request_id r)
                          (frr_effect_id r) (frr_message_id r) (frr_value_digest r))) s)))
  | _ => Err KernelError_InvalidRecordOrder
  end.

Definition apply_validation_failure (s : KernelState) (f : OutputValidationFailed) : kresult KernelState :=
  do? reject_if (negb (OutputValidationFailed_valid f)) KernelError_InvalidRecordOrder in
  match k_output_configuration s with
  | Some (mkOutputConfiguration (OutputSpec_JsonSchema schema) _) =>
      let? message := ok_or (last_message_is s (ovf_message_id f)) KernelError_InvalidRecordOrder in
      let? expected_error :=
        ok_or (expected_validation_error (rst_attempts (k_retry s))
                 (a ← k_accepted s; rl_max_retries (ra_limits a)))
          (KernelError_InvalidInputPayload "validation_error" "expected_error_unavailable") in
      do? reject_if
            (negb (candidate_matches s (ovf_cycle f) (ovf_turn_id f) (ovf_model_request_id f)
                     (ovf_effect_id f) (ovf_message_id f))
             || (ovf_schema f <>?? schema)
             || (ovf_error f <>?? expected_error)
             || is_none_or (structured_source_value message (ovf_source f))
                  (fun value => digest_raw_json value <>?? ovf_candidate_digest f)
             || (ovf_skipped_tool_call_ids f <>?? skipped_calls message)
             || is_some (k_final_result s)
             || is_some (k_validation_failure s))
            KernelError_InvalidRecordOrder in
      Ok (raise_version 4
            (with_validation_failure (Some f)
              (with_terminal_candidate
                 (Some (TerminalCandidate_Failed (ovf_cycle f) (Some (ovf_turn_id f))
                          (Some (ovf_model_request_id f)) (Some (ovf_effect_id f)) (ovf_error f))) s)))
  | _ => Err KernelError_InvalidRecordOrder
  end.

(** ** Budgets *)

Definition apply_budget_reservation_requested (s : KernelState) (requested : BudgetReservationRequested)
    : kresult KernelState :=
  let request := brd_request requested in
  do? reject_if (negb (BudgetReserveRequest_valid request)) KernelError_InvalidRecordOrder in
  let linked :=
    existsb (fun e => (crp_budget_reservation_id e.2 =?? Some (brq_reservation_id request))
                      && (ol_run_id (crl_operation (crp_child e.2)) =?? brq_run_id request))
      (map_to_list (k_child_preparations s)) in
  do? reject_if (negb linked) KernelError_InvalidRecordOrder in
  let? s :=
    match k_budget_reservations s !! brq_reservation_id request with
    | Some existing => if brp_request existing =?? request then Ok s else Err KernelError_InvalidRecordOrder
    | None => Ok (with_budget_reservations
                    (<[brq_reservation_id request := mkBudgetReservationReplay request None None]>
                       (k_budget_reservations s)) s)
    end in
  Ok (raise_version 5 s).

Definition apply_budget_reservation_settled (s : KernelState) (settled : BudgetReservationSettled)
    : kresult KernelState :=
  let receipt := brs_receipt settled in
  do? reject_if (negb (BudgetReservationReceipt_valid receipt)) KernelError_InvalidRecordOrder in
  let? replay := ok_or (k_budget_reservations s !! brr_reservation_id receipt) KernelError_InvalidRecordOrder in
  do? reject_if
        ((brr_scope_id receipt <>?? brq_scope_id (brp_request replay))
         || (brr_request_digest receipt <>?? brq_request_digest (brp_request replay))
         || (brr_reserved receipt <>?? brq_amount (brp_request replay)))
        KernelError_InvalidRecordOrder in
  let? s :=
    match brp_settlement replay with
    | Some existing => if existing =?? receipt then Ok s else Err KernelError_InvalidRecordOrder
    | None => Ok (with_budget_reservations
                    (<[brr_reservation_id receipt := set_brp_settlement (Some receipt) replay]>
                       (k_budget_reservations s)) s)
    end in
  Ok (raise_version 5 s).

Definition apply_budget_charge_recorded (s : KernelState) (charged : BudgetChargeRecorded) : kresult KernelState :=
  let receipt := bch_receipt charged in
  do? reject_if (negb (BudgetChargeReceipt_valid receipt)) KernelError_InvalidRecordOrder in
  let? replay := ok_or (k_budget_reservations s !! bcr_reservation_id receipt) KernelError_InvalidRecordOrder in
  do? reject_if
        (is_none (brp_settlement replay) || (brq_scope_id (brp_request replay) <>?? bcr_scope_id receipt))
        KernelError_InvalidRecordOrder in
  let? s :=
    match k_budget_charges s !! bcr_effect_id receipt with
    | Some existing => if existing =?? receipt then Ok s else Err KernelError_InvalidRecordOrder
    | None => Ok (with_budget_charges (<[bcr_effect_id receipt := receipt]> (k_budget_charges s)) s)
    end in
  Ok (raise_version 5 s).

Definition apply_budget_reservation_released (s : KernelState) (released : BudgetReservationReleased)
    : kresult KernelState :=
  let receipt := bre_receipt released in
  do? reject_if (negb (BudgetReleaseReceipt_valid receipt)) KernelError_InvalidRecordOrder in
  let? replay := ok_or (k_budget_reservations s !! brl_reservation_id receipt) KernelError_InvalidRecordOrder in
  do? reject_if
        (is_none (brp_settlement replay)
         || (brq_scope_id (brp_request replay) <>?? brl_scope_id receipt)
         || is_none_or (k_accepted s) (fun a => ra_run_id a <>?? brl_terminal_run_id receipt))
        KernelError_InvalidRecordOrder in
  let? s :=
    match brp_release replay with
    | Some existing => if existing =?? receipt then Ok s else Err KernelError_InvalidRecordOrder
    | None => Ok (with_budget_reservations
                    (<[brl_reservation_id receipt := set_brp_release (Some receipt) replay]>
                       (k_budget_reservations s)) s)
    end in
  Ok (raise_version 5 s).

(** ** Limits and reconciliation *)

(** [apply_limit_reached] and the dispatcher's arm around it. *)
Definition apply_limit_reached (s : KernelState) (reached : LimitReached) : kresult KernelState :=
  do? reject_if (negb (LimitReached_valid reached)) KernelError_InvalidRecordOrder in
  Ok (with_limit_usage (lr_usage reached) s).

Definition apply_cancellation_reconciled (s : KernelState) (r : CancellationReconciled) : kresult KernelState :=
  let? cancellation := ok_or (k_cancellation s) KernelError_InvalidRecordOrder in
  do? reject_if (cr_request_id (cs_request cancellation) <>?? crc_request_id r) KernelError_InvalidRecordOrder in
  let s := with_cancellation (Some (reconcile_cancellation cancellation r)) s in
  let s := clear_completed_pending r s in
  let? s :=
    match k_active_tool_batch s with
    | None => Ok s
    | Some batch =>
        let? batch := buffer_reconciled_tool_closures batch (crc_completed_effects r) in
        Ok (with_active_tool_batch (Some batch) s)
    end in
  let? s :=
    rfold (fun s e => insert_tool_identity s e.1 ToolSettlementKind_Synthetic e.2 None)
      s (cancellation_fingerprints s) in
  Ok (raise_version 3 s).

(** ** The dispatcher *)

(** The [match record.body()] of [apply_record]. *)
Definition apply_body (s : KernelState) (record : RecordEnvelope) (next : option RecordBody)
    : kresult KernelState :=
  match rec_body record with
  | RecordBody_RunAccepted accepted =>
      Ok (with_phase (Some RunPhase_Accepted)
            (with_accepted_at (Some (rec_timestamp record))
              (with_accepted (Some accepted)
                (with_lane_id (Some (rec_lane_id record))
                  (with_session_id (Some (rec_session_id record)) s)))))
  | RecordBody_StageOutcomeRecorded outcome => apply_stage_outcome s outcome
  | RecordBody_ContextPrepared context => apply_context_prepared s context
  | RecordBody_EffectRequested requested => apply_effect_requested s requested next
  | RecordBody_EffectDeferred deferred => apply_effect_deferred s deferred
  | RecordBody_EffectCompleted completed =>
      let? s := apply_completed_usage s completed in
      apply_effect_completed s completed next
  | RecordBody_EntryAppended entry => apply_entry_appended s entry
  | RecordBody_ToolBatchOpened opened =>
      let? s := record_tool_batch_usage s opened in
      apply_tool_batch_opened s opened
  | RecordBody_ToolCallSettled settled => apply_tool_call_settled s settled record
  | RecordBody_ToolBatchClosed closed => apply_tool_batch_closed s closed
  | RecordBody_EffectFailed failed => apply_effect_failed s failed
  | RecordBody_RunCompleted completed =>
      Ok (with_phase (Some RunPhase_Completed) (with_terminal (Some (TerminalState_Completed completed)) s))
  | RecordBody_RunFailed failed => Ok (apply_run_failed s failed)
  | RecordBody_CancellationRequested requested => apply_cancellation_requested s requested
  | RecordBody_CancellationReconciled reconciled => apply_cancellation_reconciled s reconciled
  | RecordBody_RetryScheduled retry => Ok (apply_retry_scheduled s retry)
  | RecordBody_TimerFired fired => apply_timer_fired s fired
  | RecordBody_LimitReached limit =>
      let? s := apply_limit_reached s limit in
      Ok (raise_version 3 (with_last_limit (Some limit) s))
  | RecordBody_RunSuspended suspended =>
      Ok (raise_version 3 (with_phase (Some RunPhase_Suspended) (with_suspension (Some suspended) s)))
  | RecordBody_RunCancelled cancelled =>
      Ok (raise_version 3
            (with_phase (Some RunPhase_Cancelled) (with_terminal (Some (TerminalState_Cancelled cancelled)) s)))
  | RecordBody_OutputConfigured configuration => apply_output_configured s configuration
  | RecordBody_CapabilitiesActivated activation => apply_capabilities_activated s activation
  | RecordBody_FinalResultRecorded r => apply_final_result s r
  | RecordBody_OutputValidationFailed failure => apply_validation_failure s failure
  | RecordBody_ExternalCommandRejected _ | RecordBody_SessionCreated _ | RecordBody_LaneCreated _
  | RecordBody_LaneMoved _ | RecordBody_SnapshotWritten _ | RecordBody_ConversationEntry _ => Ok s
  | RecordBody_ChildRunPrepared prepared => apply_child_run_prepared s prepared
  | RecordBody_BudgetReservationRequested requested => apply_budget_reservation_requested s requested
  | RecordBody_BudgetReservationSettled settled => apply_budget_reservation_settled s settled
  | RecordBody_BudgetChargeRecorded charged => apply_budget_charge_recorded s charged
  | RecordBody_BudgetReservationReleased released => apply_budget_reservation_released s released
  | RecordBody_EffectCancelled cancelled => apply_effect_cancelled s cancelled
  | RecordBody_InteractionRequested request => apply_interaction_requested s request
  | RecordBody_InteractionResolved resolved => apply_interaction_resolved s resolved
  | RecordBody_InteractionExpired expired =>
      apply_interaction_terminal_outcome s (iexp_interaction_id expired) InteractionTerminalOutcome_Expired
  | RecordBody_InteractionCancelled cancelled =>
      apply_interaction_terminal_outcome s (ican_interaction_id cancelled) InteractionTerminalOutcome_Cancelled
  end.

Definition is_external_rejection (body : RecordBody) : bool :=
  match body with RecordBody_ExternalCommandRejected _ => true | _ => false end.

Definition apply_record (s : KernelState) (record : RecordEnvelope) (next : option RecordBody)
    : kresult KernelState :=
  if is_structural (rec_body record) then Ok s
  else if is_foreign_run s record then Ok s
  else
    let? s := if is_external_rejection (rec_body record) then Ok s
              else update_wall_usage s (rec_timestamp record) in
    apply_body s record next.
End ApplyRecord.
