(* ===== verification/Shapes.v ===== *)
(** * Shapes of committed batches

    Models [reducer/apply/shapes.rs]: which sequences of sibling records may
    follow a state of each phase.  A committed batch reaches replay only if one
    of these Boolean predicates accepts it.

    The second part is the capacity preflight ([reducer/capacity.rs]). *)

From S2P Require Import Prelude Primitives Effects Records State Inputs ToolBatch Digests Policy ApplyStage ApplyTools ApplyEffects ApplyRecord.

Notation bodies records := (rec_body <$> records) (only parsing).

(** [failure_from_state] of [reducer/mod.rs]. *)
Definition failure_from_state (s : KernelState) (error : ErrorDescriptor) : RunFailed :=
  let turn := k_current_turn s in
  mkRunFailed (k_cycle s) (ct_turn_id <$> turn) (t ← turn; ct_model_request_id t)
    (t ← turn; ct_effect_id t) error.

Definition structural_record_shape (records : list RecordEnvelope) : bool :=
  negb (length records =? 0)%nat && forallb (fun r => is_structural (rec_body r)) records.

Definition foreign_run_shape (s : KernelState) (records : list RecordEnvelope) : bool :=
  negb (length records =? 0)%nat
  && is_some (k_accepted s)
  && forallb (fun r => is_structural (rec_body r) || is_foreign_run s r) records.

(** ** Stages *)

Definition one_stage (records : list RecordEnvelope) (cycle : Z) (stage : Stage)
    (disposition : StageDisposition -> bool) : bool :=
  match bodies records with
  | [RecordBody_StageOutcomeRecorded outcome] =>
      (so_cursor outcome =?? mkStageCursor cycle stage) && disposition (so_disposition outcome)
  | _ => false
  end.

Definition one_settled_stage (records : list RecordEnvelope) (cycle : Z) (stage : Stage) : bool :=
  one_stage records cycle stage (fun d =>
    match d with StageDisposition_Continued | StageDisposition_Failed _ => true | _ => false end).

Definition one_failed_stage (records : list RecordEnvelope) (cycle : Z) (stage : Stage) : bool :=
  one_stage records cycle stage (fun d => match d with StageDisposition_Failed _ => true | _ => false end).

Definition prepare_context_shape (records : list RecordEnvelope) (cycle : Z) : bool :=
  match bodies records with
  | [RecordBody_StageOutcomeRecorded
       (mkStageOutcomeRecorded cursor (StageDisposition_ContextPrepared turn_id context_digest) _);
     RecordBody_ContextPrepared context] =>
      (cursor =?? mkStageCursor cycle Stage_PrepareContext)
      && (cp_cycle context =? cycle)
      && (cp_turn_id context =?? turn_id)
      && (cp_context_digest context =?? context_digest)
  | _ => false
  end.

Definition request_model_shape (s : KernelState) (records : list RecordEnvelope) : bool :=
  match bodies records with
  | [RecordBody_StageOutcomeRecorded
       (mkStageOutcomeRecorded cursor (StageDisposition_ModelRequested turn_id _ effect_id) _);
     RecordBody_EffectRequested requested] =>
      (cursor =?? mkStageCursor (k_cycle s) Stage_BeforeModel)
      && is_some_and (k_current_turn s) (fun current => ct_turn_id current =?? turn_id)
      && (req_effect_id requested =?? effect_id)
      && (req_kind requested =?? EffectKind_Model)
      && is_none (req_relation requested)
      && is_none (req_pipeline requested)
      && (oc_kind (req_output_contract requested) =?? EffectOutputKind_ModelResponse)
      && match req_input requested with EffectInput_Model _ => true | _ => false end
  | _ => false
  end.

Definition compaction_model_request_shape (records : list RecordEnvelope) : bool :=
  match bodies records with
  | [RecordBody_EffectRequested requested] => is_runtime_owned_child_model requested
  | _ => false
  end.

Definition retry_shape (s : KernelState) (records : list RecordEnvelope) : bool :=
  match bodies records with
  | [RecordBody_StageOutcomeRecorded
       (mkStageOutcomeRecorded cursor (StageDisposition_RetryScheduled attempt timer_effect_id due_at) _);
     RecordBody_RetryScheduled scheduled;
     RecordBody_EffectRequested effect] =>
      (cursor =?? mkStageCursor (k_cycle s) Stage_BeforeFinalize)
      && (rs_attempt scheduled =? attempt)
      && (rs_timer_effect_id scheduled =?? timer_effect_id)
      && (rs_due_at scheduled =? due_at)
      && (req_effect_id effect =?? timer_effect_id)
      && (req_kind effect =?? EffectKind_Timer)
      && match req_input effect with EffectInput_Timer effect_due => effect_due =? due_at | _ => false end
  | _ => false
  end.

Definition timer_fired_shape (s : KernelState) (records : list RecordEnvelope) : bool :=
  match bodies records, rst_pending (k_retry s) with
  | [RecordBody_TimerFired fired], Some pending =>
      (rs_timer_effect_id pending =?? tf_effect_id fired) && (rs_due_at pending =? tf_due_at fired)
  | _, _ => false
  end.

Definition terminal_completed_matches (s : KernelState) (completed : RunCompleted) : bool :=
  match k_terminal_candidate s with
  | Some (TerminalCandidate_Completed cycle turn_id model_request_id effect_id message_id result_digest) =>
      (rcpl_cycle completed =? cycle)
      && (rcpl_turn_id completed =?? turn_id)
      && (rcpl_model_request_id completed =?? model_request_id)
      && (rcpl_effect_id completed =?? effect_id)
      && (rcpl_result_message_id completed =?? message_id)
      && (rcpl_result_digest completed =?? result_digest)
  | _ => false
  end.

Definition terminal_failed_matches (s : KernelState) (failed : RunFailed) : bool :=
  match k_terminal_candidate s with
  | Some (TerminalCandidate_Failed cycle turn_id model_request_id effect_id error) =>
      (rf_cycle failed =? cycle)
      && (rf_turn_id failed =?? turn_id)
      && (rf_model_request_id failed =?? model_request_id)
      && (rf_effect_id failed =?? effect_id)
      && (rf_error failed =?? error)
  | _ => false
  end.

Definition finalize_shape (s : KernelState) (records : list RecordEnvelope) : bool :=
  let cursor := mkStageCursor (k_cycle s) Stage_BeforeFinalize in
  match bodies records with
  | [RecordBody_StageOutcomeRecorded outcome] =>
      (so_cursor outcome =?? cursor)
      && match so_disposition outcome, k_terminal_candidate s with
         | StageDisposition_ContinueModel next_cycle, Some (TerminalCandidate_Completed _ _ _ _ _ _) =>
             is_some_and (u64_checked_add (k_cycle s) 1) (fun expected => next_cycle =? expected)
         | _, _ => false
         end
  | [RecordBody_StageOutcomeRecorded outcome; terminal] =>
      (so_cursor outcome =?? cursor)
      && match so_disposition outcome, terminal with
         | StageDisposition_FinalizeAccepted, RecordBody_RunCompleted completed =>
             terminal_completed_matches s completed
         | StageDisposition_FinalizeAccepted, RecordBody_RunFailed failed => terminal_failed_matches s failed
         | StageDisposition_Failed error, RecordBody_RunFailed failed => failed =?? failure_from_state s error
         | _, _ => false
         end
  | _ => false
  end.

(** ** Model settlements *)

Definition entry_matches_completion (s : KernelState) (pending : PendingModelEffect) (entry : EntryAppended)
    (completion : EffectCompleted) (entry_record : RecordEnvelope) : bool :=
  (ea_cycle entry =? pme_cycle pending)
  && (ea_turn_id entry =?? pme_turn_id pending)
  && (ea_model_request_id entry =?? pme_model_request_id pending)
  && (ea_effect_id entry =?? req_effect_id (pme_requested pending))
  && (ea_parent_message_id entry =?? (msg_id <$> last (k_messages s)))
  && (msg_role (ea_message entry) =?? MessageRole_Assistant)
  && (msg_created_at (ea_message entry) =? rec_timestamp entry_record)
  && (msg_provider_ids (ea_message entry) =?? cpl_provider_ids completion).

Definition model_settlement_shape (s : KernelState) (records : list RecordEnvelope) (allow_deferred : bool) : bool :=
  match k_pending_model_effect s with
  | None => false
  | Some pending =>
      let requested := pme_requested pending in
      let terminal_settlement_ok := allow_deferred || is_some (pme_deferred pending) in
      match records with
      | [record] =>
          match rec_body record with
          | RecordBody_EffectDeferred d =>
              allow_deferred && validate_settlement requested (def_effect_id d) (def_output_contract d)
          | RecordBody_EffectFailed f =>
              terminal_settlement_ok && validate_settlement requested (fld_effect_id f) (fld_output_contract f)
          | RecordBody_EffectCompleted c =>
              is_runtime_owned_child_model requested
              && terminal_settlement_ok
              && validate_settlement requested (cpl_effect_id c) (cpl_output_contract c)
          | _ => false
          end
      | [completed_record; entry_record] =>
          match rec_body completed_record, rec_body entry_record with
          | RecordBody_EffectCompleted c, RecordBody_EntryAppended entry =>
              terminal_settlement_ok
              && validate_settlement requested (cpl_effect_id c) (cpl_output_contract c)
              && entry_matches_completion s pending entry c entry_record
          | _, _ => false
          end
      | _ => false
      end
  end.

(** ** Extensions and interactions *)

Definition extension_request_shape (s : KernelState) (records : list RecordEnvelope) : bool :=
  match bodies records with
  | [RecordBody_EffectRequested requested] =>
      match req_kind requested with EffectKind_Context | EffectKind_Middleware => true | _ => false end
      && (match request_cursor requested with Ok c => Some c | Err _ => None end =?? stage_cursor_for_phase s)
  | _ => false
  end.

Definition extension_settlement_shape (s : KernelState) (records : list RecordEnvelope) : bool :=
  match k_pending_extension_effect s, bodies records with
  | Some pending, [RecordBody_EffectCompleted c] =>
      validate_settlement (pxe_requested pending) (cpl_effect_id c) (cpl_output_contract c)
  | Some pending, [RecordBody_EffectFailed f] =>
      validate_settlement (pxe_requested pending) (fld_effect_id f) (fld_output_contract f)
  | _, _ => false
  end.

Definition interaction_terminal_shape (records : list RecordEnvelope) : bool :=
  let is_interaction contract := oc_kind contract =?? EffectOutputKind_InteractionResolution in
  match bodies records with
  | [RecordBody_InteractionResolved _; RecordBody_EffectCompleted c] => is_interaction (cpl_output_contract c)
  | [RecordBody_InteractionExpired _; RecordBody_EffectFailed f] => is_interaction (fld_output_contract f)
  | [RecordBody_InteractionCancelled _; RecordBody_EffectCancelled c] => is_interaction (cnl_output_contract c)
  | _ => false
  end.

(** ** Children and budgets *)

Definition composition_record_shape (s : KernelState) (records : list RecordEnvelope) : bool :=
  let reservation_settled id :=
    is_some_and (k_budget_reservations s !! id) (fun reservation => is_some (brp_settlement reservation)) in
  match bodies records with
  | [RecordBody_ChildRunPrepared value] => is_none (crp_budget_reservation_id value)
  | [RecordBody_ChildRunPrepared child; RecordBody_BudgetReservationRequested budget] =>
      (crp_budget_reservation_id child =?? Some (brq_reservation_id (brd_request budget)))
      && (ol_run_id (crl_operation (crp_child child)) =?? brq_run_id (brd_request budget))
  | [RecordBody_BudgetReservationSettled value] =>
      is_some (k_budget_reservations s !! brr_reservation_id (brs_receipt value))
  | [RecordBody_BudgetChargeRecorded value] => reservation_settled (bcr_reservation_id (bch_receipt value))
  | [RecordBody_BudgetReservationReleased value] =>
      reservation_settled (brl_reservation_id (bre_receipt value))
      && is_some_and (k_accepted s) (fun a => ra_run_id a =?? brl_terminal_run_id (bre_receipt value))
  | _ => false
  end.

(** ** Cancellation *)

(** The scan of the records after the reconciliation. *)
Fixpoint reconciliation_tail (closed : bool) (tail : list RecordBody) : bool :=
  match tail with
  | [] => true
  | body :: rest =>
      match body with
      | RecordBody_ToolCallSettled _ => negb closed && reconciliation_tail closed rest
      | RecordBody_ToolBatchClosed _ => negb closed && reconciliation_tail true rest
      | RecordBody_RunSuspended _ | RecordBody_RunCancelled _ =>
          match rest with [] => true | _ => false end
      | _ => false
      end
  end.

(** Split at the first [CancellationReconciled]. *)
Fixpoint split_reconciled (l : list RecordBody)
    : option (list RecordBody * CancellationReconciled * list RecordBody) :=
  match l with
  | [] => None
  | RecordBody_CancellationReconciled r :: rest => Some ([], r, rest)
  | body :: rest =>
      match split_reconciled rest with
      | Some (before, r, after) => Some (body :: before, r, after)
      | None => None
      end
  end.

Definition reconciliation_shape (s : KernelState) (records : list RecordEnvelope) : bool :=
  match k_cancellation s, split_reconciled (bodies records) with
  | Some cancellation, Some (before, reconciled, tail) =>
      forallb (fun body =>
        match body with
        | RecordBody_EffectCancelled cancelled =>
            bool_decide (cnl_effect_id cancelled ∈ cs_outstanding_effects cancellation)
        | RecordBody_InteractionCancelled _ => true
        | _ => false
        end) before
      && (crc_request_id reconciled =?? cr_request_id (cs_request cancellation))
      && reconciliation_tail false tail
  | _, _ => false
  end.

(** ** Tool batches *)

Definition is_tool_request (effect_id : EffectId) (body : RecordBody) : bool :=
  match body with
  | RecordBody_EffectRequested value => (req_kind value =?? EffectKind_Tool) && (req_effect_id value =?? effect_id)
  | _ => false
  end.

Definition is_settlement_of (effect_id : EffectId) (body : RecordBody) : bool :=
  match body with
  | RecordBody_ToolCallSettled value => tcs_effect_id value =?? effect_id
  | _ => false
  end.

Definition is_close_of (tool_batch_id : ToolBatchId) (body : option RecordBody) : bool :=
  match body with
  | Some (RecordBody_ToolBatchClosed value) => tbc_tool_batch_id value =?? tool_batch_id
  | _ => false
  end.

(** [records.iter().zip(&expected).all(..)]: the shorter list decides. *)
Definition zip_all {A B} (p : A -> B -> bool) (l : list A) (expected : list B) : bool :=
  forallb (fun e => p e.1 e.2) (zip l expected).

(** [iter().take_while(p)]. *)
Fixpoint take_while {A} (p : A -> bool) (l : list A) : list A :=
  match l with
  | [] => []
  | a :: l' => if p a then a :: take_while p l' else []
  end.

(** The calls the opening batch dispatches: the first executable group. *)
Definition opened_requests (calls : list AssignedToolCall) : option Z * list EffectId :=
  let first_executable_group :=
    find_map (fun c => if is_execute (asg_plan c) then Some (asg_group_index c) else None) calls in
  (first_executable_group,
   match first_executable_group with
   | None => []
   | Some group =>
       asg_effect_id <$> List.filter (fun c => (asg_group_index c =? group) && is_execute (asg_plan c)) calls
   end).

Definition tool_batch_open_shape (s : KernelState) (records : list RecordEnvelope) : bool :=
  match bodies records with
  | RecordBody_StageOutcomeRecorded
      (mkStageOutcomeRecorded cursor (StageDisposition_ToolBatchPrepared tool_batch_id plan_digest) _)
    :: RecordBody_ToolBatchOpened opened :: rest =>
      let '(first_executable_group, requested) := opened_requests (tbo_calls opened) in
      let leading_synthetic := take_while (fun c => negb (is_execute (asg_plan c))) (tbo_calls opened) in
      let expected_close := if is_none first_executable_group then 1%nat else 0%nat in
      let expected_len := (length requested + length leading_synthetic + expected_close)%nat in
      let requests_match :=
        zip_all (fun body e => is_tool_request e body) (take (length requested) rest) requested in
      let settlements_match :=
        zip_all (fun body c =>
          match body with
          | RecordBody_ToolCallSettled value =>
              (tcs_effect_id value =?? asg_effect_id c)
              && (tcs_tool_call_id value =?? tc_tool_call_id (plan_call (asg_plan c)))
          | _ => false
          end) (take (length leading_synthetic) (drop (length requested) rest)) leading_synthetic in
      let close_matches := (expected_close =? 0)%nat || is_close_of (tbo_tool_batch_id opened) (last rest) in
      (cursor =?? mkStageCursor (k_cycle s) Stage_BeforeToolBatch)
      && (tbo_cycle opened =? k_cycle s)
      && (tbo_tool_batch_id opened =?? tool_batch_id)
      && (tbo_plan_digest opened =?? plan_digest)
      && is_some_and (k_current_turn s) (fun turn => ct_turn_id turn =?? tbo_turn_id opened)
      && is_some_and (last (k_messages s)) (fun message => msg_id message =?? tbo_source_message_id opened)
      && (length rest =? expected_len)%nat
      && requests_match
      && settlements_match
      && close_matches
  | _ => false
  end.

(** Which call the first record of a settlement batch settles: its effect,
    whether it is only deferred, and whether its failure fails the run. *)
Definition settlement_target (batch : ActiveToolBatch) (body : RecordBody) : option (EffectId * bool * bool) :=
  match body with
  | RecordBody_EffectCompleted value =>
      if oc_kind (cpl_output_contract value) =?? EffectOutputKind_ToolResult
      then Some (cpl_effect_id value, false, false) else None
  | RecordBody_EffectFailed value =>
      if oc_kind (fld_output_contract value) =?? EffectOutputKind_ToolResult then
        c ← call batch (fld_effect_id value);
        Some (fld_effect_id value, false,
              plan_failure_policy (asg_plan (atc_assigned c)) =?? ToolFailurePolicy_FailRun)
      else None
  | RecordBody_EffectDeferred value =>
      if oc_kind (def_output_contract value) =?? EffectOutputKind_ToolResult
      then Some (def_effect_id value, true, false) else None
  | _ => None
  end.

(** The sibling records that must follow a settlement of the call at
    [target_index]: source-ordered settlements, the requests of the next group
    and the closure. *)
Definition settlement_followup_shape (batch : ActiveToolBatch) (target_index : nat) (fatal : bool)
    (rest : list RecordBody) : bool :=
  let '(expected_settlements, expected_requests, expected_close) :=
    predicted_settlement_counts batch target_index fatal in
  let current_group_complete :=
    forallb (fun e =>
      negb (asg_group_index (atc_assigned e.2) =? atb_current_group batch)
      || (e.1 =? target_index)%nat
      || is_buffered (atc_status e.2) || is_settled (atc_status e.2)) (enumerate (atb_calls batch)) in
  let abort_undispatched := fatal && current_group_complete in
  let start := Z.to_nat (atb_next_source_index batch) in
  let is_virtual_buffered (e : nat * ActiveToolCall) :=
    (e.1 =? target_index)%nat
    || is_buffered (atc_status e.2)
    || (abort_undispatched && is_undispatched (atc_status e.2)) in
  let settlement_effects :=
    (fun e => asg_effect_id (atc_assigned e.2))
      <$> take_while is_virtual_buffered (drop start (enumerate (atb_calls batch))) in
  let settlements_match :=
    zip_all (fun body e => is_settlement_of e body) (take (length settlement_effects) rest) settlement_effects in
  let settled_end := (start + length settlement_effects)%nat in
  let next_group :=
    if negb fatal && current_group_complete then
      find_map (fun e =>
        if (settled_end <=? e.1)%nat
           && is_undispatched (atc_status e.2) && is_execute (asg_plan (atc_assigned e.2))
        then Some (asg_group_index (atc_assigned e.2)) else None) (enumerate (atb_calls batch))
    else None in
  let requested :=
    match next_group with
    | None => []
    | Some group =>
        (fun c => asg_effect_id (atc_assigned c))
          <$> List.filter (fun c => (asg_group_index (atc_assigned c) =? group)
                                    && is_undispatched (atc_status c)
                                    && is_execute (asg_plan (atc_assigned c))) (atb_calls batch)
    end in
  let requests_match :=
    zip_all (fun body e => is_tool_request e body)
      (take (length requested) (drop (length settlement_effects) rest)) requested in
  let expected_len := (expected_settlements + expected_requests + expected_close)%nat in
  let close_matches :=
    (expected_close =? 0)%nat || is_close_of (tbo_tool_batch_id (atb_opened batch)) (last rest) in
  settlements_match
  && requests_match
  && (length rest =? expected_len)%nat
  && (length settlement_effects =? expected_settlements)%nat
  && (length requested =? expected_requests)%nat
  && close_matches.

Definition tool_settlement_shape (s : KernelState) (records : list RecordEnvelope) : bool :=
  match k_active_tool_batch s, bodies records with
  | Some batch, first :: rest =>
      match settlement_target batch first with
      | None => false
      | Some (effect_id, deferred, fail_run) =>
          match (i ← call_index batch effect_id; c ← atb_calls batch !! i; Some (i, c)) with
          | None => false
          | Some (target_index, c) =>
              if negb (asg_group_index (atc_assigned c) =? atb_current_group batch) then false
              else if deferred then
                match atc_status c with ActiveToolCallStatus_Requested _ None => true | _ => false end
                && (length rest =? 0)%nat
              else if negb (is_requested (atc_status c)) then false
              else settlement_followup_shape batch target_index
                     (is_some (atb_fatal_error batch) || fail_run) rest
          end
      end
  | _, _ => false
  end.

Section Shapes.
Context `{Hasher}.

(** The two siblings of an interaction request, in either order. *)
Definition interaction_request_shape (records : list RecordEnvelope) : bool :=
  let pair_matches effect request :=
    (req_kind effect =?? EffectKind_Interaction)
    && match req_input effect with
       | EffectInput_Interaction interaction_id d =>
           (interaction_id =?? ir_interaction_id request)
           && (req_effect_id effect =?? ir_effect_id request)
           && (request_digest request =?? Some d)
       | _ => false
       end in
  match bodies records with
  | [RecordBody_EffectRequested effect; RecordBody_InteractionRequested request]
  | [RecordBody_InteractionRequested request; RecordBody_EffectRequested effect] => pair_matches effect request
  | _ => false
  end.

(** The phase matrix: [None] stands for the immediate
    [TerminalStateImmutable] of the terminal phases. *)
Definition phase_shape (s : KernelState) (records : list RecordEnvelope) : option bool :=
  let cycle := k_cycle s in
  let request := interaction_request_shape records || extension_request_shape s records in
  match k_phase s with
  | None =>
      Some match records with
           | [record] =>
               match rec_body record with
               | RecordBody_RunAccepted accepted => rec_run_id record =?? Some (ra_run_id accepted)
               | _ => false
               end
           | _ => false
           end
  | Some RunPhase_BeforeRun =>
      Some (match bodies records with
            | [RecordBody_OutputConfigured _] | [RecordBody_CapabilitiesActivated _] => true
            | _ => false
            end || one_settled_stage records cycle Stage_BeforeRun || request)
  | Some RunPhase_PreparingContext =>
      Some (prepare_context_shape records cycle || one_failed_stage records cycle Stage_PrepareContext || request)
  | Some RunPhase_BeforeModel =>
      Some (request_model_shape s records || compaction_model_request_shape records
            || one_failed_stage records cycle Stage_BeforeModel || request)
  | Some RunPhase_AwaitingModel => Some (model_settlement_shape s records true)
  | Some RunPhase_AwaitingExternal =>
      Some (if is_some (k_pending_model_effect s) then model_settlement_shape s records false
            else tool_settlement_shape s records)
  | Some RunPhase_AfterModel =>
      Some (match bodies records with
            | [RecordBody_FinalResultRecorded _] | [RecordBody_OutputValidationFailed _] => true
            | _ => false
            end || one_settled_stage records cycle Stage_AfterModel || request)
  | Some RunPhase_BeforeToolBatch =>
      Some (tool_batch_open_shape s records || one_failed_stage records cycle Stage_BeforeToolBatch || request)
  | Some RunPhase_AwaitingTools =>
      Some (tool_settlement_shape s records || interaction_request_shape records
            || compaction_model_request_shape records)
  | Some RunPhase_AfterToolBatch =>
      Some (one_settled_stage records cycle Stage_AfterToolBatch || request
            || match bodies records with [RecordBody_CapabilitiesActivated _] => true | _ => false end)
  | Some RunPhase_BeforeFinalize => Some (finalize_shape s records || retry_shape s records || request)
  | Some RunPhase_Sleeping => Some (timer_fired_shape s records)
  | Some (RunPhase_Cancelling | RunPhase_Suspended) => Some (reconciliation_shape s records)
  | Some RunPhase_AwaitingInteraction => Some (interaction_terminal_shape records)
  | Some RunPhase_Accepted => Some false
  | Some (RunPhase_Completed | RunPhase_Failed | RunPhase_Cancelled) => None
  end.

Definition cancellation_shape (s : KernelState) (records : list RecordEnvelope) : bool :=
  is_some (k_accepted s) && is_none (k_cancellation s)
  && match bodies records with [RecordBody_CancellationRequested _] => true | _ => false end.

(** [limit_shape || control_failure_shape]. *)
Definition control_shape (records : list RecordEnvelope) : bool :=
  match bodies records with
  | [RecordBody_LimitReached _; RecordBody_RunFailed _] => true
  | [RecordBody_RunFailed failed] => is_limit_failure (rf_error failed)
  | [RecordBody_RunSuspended _] => true
  | _ => false
  end.

Definition external_rejection_shape (records : list RecordEnvelope) : bool :=
  match bodies records with [RecordBody_ExternalCommandRejected _] => true | _ => false end.

Definition validate_batch_shape (s : KernelState) (records : list RecordEnvelope) : kresult unit :=
  if composition_record_shape s records || structural_record_shape records || foreign_run_shape s records
  then Ok tt
  else if is_some (k_accepted s) && external_rejection_shape records then Ok tt
  else if is_some (k_pending_extension_effect s)
          && negb match k_phase s with Some (RunPhase_Cancelling | RunPhase_Suspended) => true | _ => false end
  then reject_if (negb (extension_settlement_shape s records || cancellation_shape s records))
         KernelError_InvalidRecordOrder
  else
    match phase_shape s records with
    | None => Err KernelError_TerminalStateImmutable
    | Some valid =>
        reject_if (negb (valid || cancellation_shape s records || control_shape records))
          KernelError_InvalidRecordOrder
    end.
End Shapes.

(** * Capacity preflight

    Models [reducer/capacity.rs]: the ceilings on the collections of the
    authoritative state, checked against the growth of a decision and of a
    committed batch before either takes effect. *)

(** [usize] addition does not overflow on lengths, so only the ceiling can fail. *)
Definition check (field : string) (current growth maximum : nat) : kresult unit :=
  reject_if (maximum <? current + growth)%nat (KernelError_StateCapacityExceeded field).

(** ** Growth of a decision *)

Record StateGrowth : Type := mkStateGrowth {
  sg_messages : nat;
  sg_stage : option StageCursor;
  sg_model : option EffectId;
  sg_extension : option EffectId;
  sg_completion : option string;
  sg_resolution : option string;
  sg_tool_calls : list ToolCallId;
  sg_tool_settlements : list EffectId;
  sg_extra_tool_settlements : nat;
  sg_timer_firings : option EffectId;
  sg_child_preparations : option EffectId;
  sg_budget_reservations : option BudgetReservationId;
  sg_budget_charges : option EffectId
}.

Definition StateGrowth_default : StateGrowth :=
  mkStateGrowth 0 None None None None None [] [] 0 None None None None.

(** [usize::from(key.is_some_and(|key| !map.contains_key(&key)))]. *)
Definition fresh_key `{Countable K} {V} (m : gmap K V) (key : option K) : nat :=
  if is_some_and key (fun k => is_none (m !! k)) then 1 else 0.

(** The number of distinct keys of [keys] that [m] does not hold. *)
Definition fresh_keys `{Countable K} {V} (m : gmap K V) (keys : list K) : nat :=
  size (list_to_set (C := gset K) (List.filter (fun k => is_none (m !! k)) keys)).

Definition preflight_decision (s : KernelState) (g : StateGrowth) : kresult unit :=
  let maximum := SEMANTIC_MAP_MAX_ENTRIES in
  do? check "messages" (length (k_messages s)) (sg_messages g) SEMANTIC_ARRAY_MAX_ITEMS in
  do? check "stage_settlements" (size (k_stage_settlements s)) (fresh_key (k_stage_settlements s) (sg_stage g)) maximum in
  do? check "model_settlements" (size (k_model_settlements s)) (fresh_key (k_model_settlements s) (sg_model g)) maximum in
  do? check "extension_settlements" (size (k_extension_settlements s))
        (fresh_key (k_extension_settlements s) (sg_extension g)) maximum in
  do? check "completion_identities" (size (k_completion_identities s))
        (fresh_key (k_completion_identities s) (sg_completion g)) maximum in
  do? check "resolution_identities" (size (k_resolution_identities s))
        (fresh_key (k_resolution_identities s) (sg_resolution g)) maximum in
  do? check "tool_calls" (size (k_tool_calls s)) (fresh_keys (k_tool_calls s) (sg_tool_calls g)) maximum in
  do? check "tool_settlements" (size (k_tool_settlements s))
        (fresh_keys (k_tool_settlements s) (sg_tool_settlements g) + sg_extra_tool_settlements g) maximum in
  do? check "timer_firings" (size (rst_timer_firings (k_retry s)))
        (fresh_key (rst_timer_firings (k_retry s)) (sg_timer_firings g)) maximum in
  do? check "child_preparations" (size (k_child_preparations s))
        (fresh_key (k_child_preparations s) (sg_child_preparations g)) maximum in
  do? check "budget_reservations" (size (k_budget_reservations s))
        (fresh_key (k_budget_reservations s) (sg_budget_reservations g)) maximum in
  check "budget_charges" (size (k_budget_charges s)) (fresh_key (k_budget_charges s) (sg_budget_charges g)) maximum.

(** ** Growth of a committed batch *)

Record BatchGrowth : Type := mkBatchGrowth {
  bg_messages : nat;
  bg_stage_keys : gset StageCursor;
  bg_model_keys : gset EffectId;
  bg_extension_keys : gset EffectId;
  bg_completion_keys : gset string;
  bg_resolution_keys : gset string;
  bg_tool_call_keys : gset ToolCallId;
  bg_tool_settlement_keys : gset EffectId;
  bg_timer_firing_keys : gset EffectId;
  bg_child_preparation_keys : gset EffectId;
  bg_budget_reservation_keys : gset BudgetReservationId;
  bg_budget_charge_keys : gset EffectId
}.

Definition BatchGrowth_default : BatchGrowth := mkBatchGrowth 0 ∅ ∅ ∅ ∅ ∅ ∅ ∅ ∅ ∅ ∅ ∅.

(** The union of two growths; [observe] adds one record's growth to a batch's. *)
Definition growth_join (a b : BatchGrowth) : BatchGrowth :=
  mkBatchGrowth (bg_messages a + bg_messages b) (bg_stage_keys a ∪ bg_stage_keys b)
    (bg_model_keys a ∪ bg_model_keys b) (bg_extension_keys a ∪ bg_extension_keys b)
    (bg_completion_keys a ∪ bg_completion_keys b) (bg_resolution_keys a ∪ bg_resolution_keys b)
    (bg_tool_call_keys a ∪ bg_tool_call_keys b) (bg_tool_settlement_keys a ∪ bg_tool_settlement_keys b)
    (bg_timer_firing_keys a ∪ bg_timer_firing_keys b)
    (bg_child_preparation_keys a ∪ bg_child_preparation_keys b)
    (bg_budget_reservation_keys a ∪ bg_budget_reservation_keys b)
    (bg_budget_charge_keys a ∪ bg_budget_charge_keys b).

(** [if !map.contains_key(&key) { keys.insert(key) }]. *)
Definition fresh_set `{Countable K} {V} (m : gmap K V) (key : K) : gset K :=
  if is_none (m !! key) then {[ key ]} else ∅.

Definition observe_tool_calls (s : KernelState) (message : Message) : gset ToolCallId :=
  list_to_set (omap (fun block =>
    match block with
    | ContentBlock_ToolCall c =>
        if is_none (k_tool_calls s !! tc_tool_call_id c) then Some (tc_tool_call_id c) else None
    | _ => None
    end) (msg_content message)).

Definition observe_settlement (s : KernelState) (kind : EffectOutputKind) (effect_id : EffectId)
    (completion_id : option string) : BatchGrowth :=
  let tool := if kind =?? EffectOutputKind_ToolResult then fresh_set (k_tool_settlements s) effect_id else ∅ in
  let extension :=
    match kind with
    | EffectOutputKind_ContextContribution | EffectOutputKind_MiddlewareOutcome =>
        fresh_set (k_extension_settlements s) effect_id
    | _ => ∅
    end in
  let model := if kind =?? EffectOutputKind_ModelResponse then fresh_set (k_model_settlements s) effect_id else ∅ in
  let completion :=
    match completion_id with Some id => fresh_set (k_completion_identities s) id | None => ∅ end in
  mkBatchGrowth 0 ∅ model extension completion ∅ ∅ tool ∅ ∅ ∅ ∅.

(** What one record adds; the source inserts it into the accumulated sets. *)
Definition observed (s : KernelState) (body : RecordBody) : BatchGrowth :=
  match body with
  | RecordBody_StageOutcomeRecorded outcome =>
      mkBatchGrowth 0 (fresh_set (k_stage_settlements s) (so_cursor outcome)) ∅ ∅ ∅ ∅ ∅ ∅ ∅ ∅ ∅ ∅
  | RecordBody_EntryAppended entry =>
      mkBatchGrowth 1 ∅ ∅ ∅ ∅ ∅ (observe_tool_calls s (ea_message entry)) ∅ ∅ ∅ ∅ ∅
  | RecordBody_ToolCallSettled settled =>
      mkBatchGrowth 1 ∅ ∅ ∅ ∅ ∅ ∅ (fresh_set (k_tool_settlements s) (tcs_effect_id settled)) ∅ ∅ ∅ ∅
  | RecordBody_InteractionResolved value =>
      mkBatchGrowth 0 ∅ ∅ ∅ ∅ (fresh_set (k_resolution_identities s) (ires_resolution_id value)) ∅ ∅ ∅ ∅ ∅ ∅
  | RecordBody_EffectCompleted value =>
      observe_settlement s (oc_kind (cpl_output_contract value)) (cpl_effect_id value) (cpl_completion_id value)
  | RecordBody_TimerFired fired =>
      mkBatchGrowth 0 ∅ ∅ ∅ ∅ ∅ ∅ ∅ (fresh_set (rst_timer_firings (k_retry s)) (tf_effect_id fired)) ∅ ∅ ∅
  | RecordBody_ChildRunPrepared prepared =>
      mkBatchGrowth 0 ∅ ∅ ∅ ∅ ∅ ∅ ∅ ∅ (fresh_set (k_child_preparations s) (crp_parent_effect_id prepared)) ∅ ∅
  | RecordBody_BudgetReservationRequested requested =>
      mkBatchGrowth 0 ∅ ∅ ∅ ∅ ∅ ∅ ∅ ∅ ∅
        (fresh_set (k_budget_reservations s) (brq_reservation_id (brd_request requested))) ∅
  | RecordBody_BudgetChargeRecorded charged =>
      mkBatchGrowth 0 ∅ ∅ ∅ ∅ ∅ ∅ ∅ ∅ ∅ ∅ (fresh_set (k_budget_charges s) (bcr_effect_id (bch_receipt charged)))
  | RecordBody_EffectFailed value =>
      observe_settlement s (oc_kind (fld_output_contract value)) (fld_effect_id value) (fld_completion_id value)
  | _ => BatchGrowth_default
  end.

Definition observe (s : KernelState) (g : BatchGrowth) (record : RecordEnvelope) : BatchGrowth :=
  growth_join g (observed s (rec_body record)).

Definition growth_check (g : BatchGrowth) (s : KernelState) : kresult unit :=
  let maximum := SEMANTIC_MAP_MAX_ENTRIES in
  do? check "messages" (length (k_messages s)) (bg_messages g) SEMANTIC_ARRAY_MAX_ITEMS in
  do? check "stage_settlements" (size (k_stage_settlements s)) (size (bg_stage_keys g)) maximum in
  do? check "model_settlements" (size (k_model_settlements s)) (size (bg_model_keys g)) maximum in
  do? check "extension_settlements" (size (k_extension_settlements s)) (size (bg_extension_keys g)) maximum in
  do? check "completion_identities" (size (k_completion_identities s)) (size (bg_completion_keys g)) maximum in
  do? check "resolution_identities" (size (k_resolution_identities s)) (size (bg_resolution_keys g)) maximum in
  do? check "tool_calls" (size (k_tool_calls s)) (size (bg_tool_call_keys g)) maximum in
  do? check "tool_settlements" (size (k_tool_settlements s)) (size (bg_tool_settlement_keys g)) maximum in
  do? check "timer_firings" (size (rst_timer_firings (k_retry s))) (size (bg_timer_firing_keys g)) maximum in
  do? check "child_preparations" (size (k_child_preparations s)) (size (bg_child_preparation_keys g)) maximum in
  do? check "budget_reservations" (size (k_budget_reservations s)) (size (bg_budget_reservation_keys g)) maximum in
  check "budget_charges" (size (k_budget_charges s)) (size (bg_budget_charge_keys g)) maximum.

Definition preflight_batch (s : KernelState) (records : list RecordEnvelope) : kresult unit :=
  growth_check (foldl (observe s) BatchGrowth_default records) s.
