(* ===== verification/Events.v ===== *)
(** * Derived events

    Models [events/mod.rs], [events/body.rs], [events/derive.rs] and
    [events/envelope.rs]: the projection of a committed record onto the public
    run events it carries.  An [EventError] is only tested for by the
    reducer, so the fallible functions return [option]. *)

From S2P Require Import Prelude Primitives Effects Records State Inputs Policy.

Definition RUN_EVENT_SCHEMA_VERSION : Z := 1.
Definition RUN_EVENT_KIND_VERSION : Z := 1.

Inductive RunEventClass : Type :=
| RunEventClass_DurableDerived
| RunEventClass_Transient.
#[global] Instance RunEventClass_eq_dec : EqDecision RunEventClass.
Proof. solve_decision. Defined.

Inductive RunEventKind : Type :=
| RunEventKind_RunAccepted
| RunEventKind_EffectRequested
| RunEventKind_EffectDeferred
| RunEventKind_EffectCompleted
| RunEventKind_EffectFailed
| RunEventKind_EffectCancelled
| RunEventKind_InteractionRequested
| RunEventKind_InteractionResolved
| RunEventKind_InteractionExpired
| RunEventKind_InteractionCancelled
| RunEventKind_MessageFinalized
| RunEventKind_ToolSettled
| RunEventKind_LimitReached
| RunEventKind_RunSuspended
| RunEventKind_RunCompleted
| RunEventKind_RunFailed
| RunEventKind_RunCancelled
| RunEventKind_ModelTextDelta
| RunEventKind_ReasoningDelta
| RunEventKind_ToolProgress
| RunEventKind_QueueDepthWarning
| RunEventKind_ProviderHeartbeat.
#[global] Instance RunEventKind_eq_dec : EqDecision RunEventKind.
Proof. solve_decision. Defined.

Definition event_class (k : RunEventKind) : RunEventClass :=
  match k with
  | RunEventKind_ModelTextDelta | RunEventKind_ReasoningDelta | RunEventKind_ToolProgress
  | RunEventKind_QueueDepthWarning | RunEventKind_ProviderHeartbeat => RunEventClass_Transient
  | _ => RunEventClass_DurableDerived
  end.

Inductive RunEventBody : Type :=
| RunEventBody_RunAccepted (value : RunAccepted)
| RunEventBody_EffectRequested (value : EffectRequested)
| RunEventBody_EffectDeferred (value : EffectDeferred)
| RunEventBody_EffectCompleted (value : EffectCompleted)
| RunEventBody_EffectFailed (value : EffectFailed)
| RunEventBody_EffectCancelled (value : EffectCancelled)
| RunEventBody_InteractionRequested (value : InteractionRequest)
| RunEventBody_InteractionResolved (value : InteractionResolution)
| RunEventBody_InteractionExpired (value : InteractionExpired)
| RunEventBody_InteractionCancelled (value : InteractionCancelled)
| RunEventBody_MessageFinalized (message_id : MessageId)
| RunEventBody_ToolSettled (tool_call_id : ToolCallId)
| RunEventBody_LimitReached (dimension : LimitDimension)
| RunEventBody_RunSuspended (reason_code : option string)
| RunEventBody_RunCompleted (result_digest : Digest)
| RunEventBody_RunFailed (error : ErrorDescriptor)
| RunEventBody_RunCancelled (request_id : option CancellationRequestId)
| RunEventBody_ModelTextDelta (text : string)
| RunEventBody_ReasoningDelta (text : string)
| RunEventBody_ToolProgress (message : string) (percent : option Z)
| RunEventBody_QueueDepthWarning (depth limit : Z)
| RunEventBody_ProviderHeartbeat (provider : string) (detail : option string).

Definition event_kind (b : RunEventBody) : RunEventKind :=
  match b with
  | RunEventBody_RunAccepted _ => RunEventKind_RunAccepted
  | RunEventBody_EffectRequested _ => RunEventKind_EffectRequested
  | RunEventBody_EffectDeferred _ => RunEventKind_EffectDeferred
  | RunEventBody_EffectCompleted _ => RunEventKind_EffectCompleted
  | RunEventBody_EffectFailed _ => RunEventKind_EffectFailed
  | RunEventBody_EffectCancelled _ => RunEventKind_EffectCancelled
  | RunEventBody_InteractionRequested _ => RunEventKind_InteractionRequested
  | RunEventBody_InteractionResolved _ => RunEventKind_InteractionResolved
  | RunEventBody_InteractionExpired _ => RunEventKind_InteractionExpired
  | RunEventBody_InteractionCancelled _ => RunEventKind_InteractionCancelled
  | RunEventBody_MessageFinalized _ => RunEventKind_MessageFinalized
  | RunEventBody_ToolSettled _ => RunEventKind_ToolSettled
  | RunEventBody_LimitReached _ => RunEventKind_LimitReached
  | RunEventBody_RunSuspended _ => RunEventKind_RunSuspended
  | RunEventBody_RunCompleted _ => RunEventKind_RunCompleted
  | RunEventBody_RunFailed _ => RunEventKind_RunFailed
  | RunEventBody_RunCancelled _ => RunEventKind_RunCancelled
  | RunEventBody_ModelTextDelta _ => RunEventKind_ModelTextDelta
  | RunEventBody_ReasoningDelta _ => RunEventKind_ReasoningDelta
  | RunEventBody_ToolProgress _ _ => RunEventKind_ToolProgress
  | RunEventBody_QueueDepthWarning _ _ => RunEventKind_QueueDepthWarning
  | RunEventBody_ProviderHeartbeat _ _ => RunEventKind_ProviderHeartbeat
  end.

Record RunEvent : Type := mkRunEvent {
  ev_schema_version : Z;
  ev_kind_version : Z;
  ev_event_id : EventId;
  ev_kind : RunEventKind;
  ev_session_id : SessionId;
  ev_lane_id : LaneId;
  ev_run_id : RunId;
  ev_turn_id : option TurnId;
  ev_model_request_id : option ModelRequestId;
  ev_tool_batch_id : option ToolBatchId;
  ev_effect_id : option EffectId;
  ev_tool_call_id : option ToolCallId;
  ev_durable_sequence : option Z;
  ev_transient_sequence : Z;
  ev_timestamp : Timestamp;
  ev_sensitivity : Sensitivity;
  ev_body : RunEventBody
}.

Record EventCorrelations : Type := mkEventCorrelations {
  ec_model_turn : option TurnId;
  ec_model_request : option ModelRequestId;
  ec_tool_turn : option TurnId;
  ec_tool_batch : option ToolBatchId;
  ec_tool_call : option ToolCallId
}.

Record ResolvedEventCorrelations : Type := mkResolvedEventCorrelations {
  rsv_turn : option TurnId;
  rsv_model_request : option ModelRequestId;
  rsv_tool_batch : option ToolBatchId;
  rsv_effect : option EffectId;
  rsv_tool_call : option ToolCallId
}.

(** ** Validation *)

Definition effect_event_is (body : RunEventBody) (kind : EffectKind) (output : EffectOutputKind) : bool :=
  match body with
  | RunEventBody_EffectRequested v => req_kind v =?? kind
  | RunEventBody_EffectDeferred v => oc_kind (def_output_contract v) =?? output
  | RunEventBody_EffectCompleted v => oc_kind (cpl_output_contract v) =?? output
  | RunEventBody_EffectFailed v => oc_kind (fld_output_contract v) =?? output
  | RunEventBody_EffectCancelled v => oc_kind (cnl_output_contract v) =?? output
  | _ => false
  end.

Definition effect_record_is (body : RecordBody) (kind : EffectKind) (output : EffectOutputKind) : bool :=
  match body with
  | RecordBody_EffectRequested v => req_kind v =?? kind
  | RecordBody_EffectDeferred v => oc_kind (def_output_contract v) =?? output
  | RecordBody_EffectCompleted v => oc_kind (cpl_output_contract v) =?? output
  | RecordBody_EffectFailed v => oc_kind (fld_output_contract v) =?? output
  | RecordBody_EffectCancelled v => oc_kind (cnl_output_contract v) =?? output
  | _ => false
  end.

Definition is_tool_effect_record (body : RecordBody) : bool :=
  effect_record_is body EffectKind_Tool EffectOutputKind_ToolResult.
Definition is_model_effect_record (body : RecordBody) : bool :=
  effect_record_is body EffectKind_Model EffectOutputKind_ModelResponse.

Definition derived_event_sensitivity (body : RecordBody) : Sensitivity :=
  if is_model_effect_record body || is_tool_effect_record body then Sensitivity_Confidential
  else Sensitivity_Internal.

(** [validate_event_policy]: [true] when it returns [Ok]. *)
Definition validate_event_policy (turn_id : option TurnId) (model_request_id : option ModelRequestId)
    (tool_batch_id : option ToolBatchId) (effect_id : option EffectId) (tool_call_id : option ToolCallId)
    (sensitivity : Sensitivity) (body : RunEventBody) : bool :=
  let rejected :=
    match body with
    | RunEventBody_MessageFinalized _ =>
        is_none turn_id || is_none effect_id
        || (is_none model_request_id && (is_none tool_batch_id || is_none tool_call_id))
        || (sensitivity <>?? Sensitivity_Internal)
    | RunEventBody_ToolSettled _ =>
        is_none turn_id || is_none tool_batch_id || is_none effect_id || is_none tool_call_id
        || (sensitivity <>?? Sensitivity_Internal)
    | RunEventBody_RunCompleted _ =>
        is_none turn_id || is_none model_request_id || is_none effect_id
        || (sensitivity <>?? Sensitivity_Internal)
    | RunEventBody_RunFailed _ => sensitivity <>?? Sensitivity_Internal
    | _ => false
    end in
  let model_event :=
    effect_event_is body EffectKind_Model EffectOutputKind_ModelResponse
    || match body with RunEventBody_ModelTextDelta _ | RunEventBody_ReasoningDelta _ => true | _ => false end in
  let tool_event :=
    effect_event_is body EffectKind_Tool EffectOutputKind_ToolResult
    || match body with RunEventBody_ToolProgress _ _ => true | _ => false end in
  negb rejected
  && negb (model_event
           && (is_none turn_id || is_none model_request_id || is_none effect_id
               || (sensitivity <>?? Sensitivity_Confidential)))
  && negb (tool_event
           && (is_none turn_id || is_none tool_batch_id || is_none effect_id || is_none tool_call_id
               || (sensitivity <>?? Sensitivity_Confidential))).

Definition validate_event_versions (schema_version kind_version : Z) : bool :=
  (schema_version =? RUN_EVENT_SCHEMA_VERSION) && (kind_version =? RUN_EVENT_KIND_VERSION).

Definition effect_id_for_body (body : RunEventBody) : option EffectId :=
  match body with
  | RunEventBody_EffectRequested v => Some (req_effect_id v)
  | RunEventBody_EffectDeferred v => Some (def_effect_id v)
  | RunEventBody_EffectCompleted v => Some (cpl_effect_id v)
  | RunEventBody_EffectFailed v => Some (fld_effect_id v)
  | RunEventBody_EffectCancelled v => Some (cnl_effect_id v)
  | RunEventBody_InteractionRequested v => Some (ir_effect_id v)
  | _ => None
  end.

(** [validate_event_correlations]: [true] when it returns [Ok]. *)
Definition validate_event_correlations (run_id : RunId) (model_request_id : option ModelRequestId)
    (effect_id : option EffectId) (tool_call_id : option ToolCallId) (body : RunEventBody) : bool :=
  match body with
  | RunEventBody_RunAccepted accepted =>
      lineage_flag (ra_lineage_validated accepted) && (ra_run_id accepted =?? run_id)
  | _ => true
  end
  && is_none_or (effect_id_for_body body) (fun expected => effect_id =?? Some expected)
  && match body with
     | RunEventBody_ToolSettled expected => tool_call_id =?? Some expected
     | RunEventBody_ModelTextDelta _ | RunEventBody_ReasoningDelta _ => is_some model_request_id
     | RunEventBody_ToolProgress _ _ => is_some tool_call_id
     | _ => true
     end.

(** ** Projection of a record *)

Definition run_event_body_from_record (body : RecordBody) (ordinal : nat) : option RunEventBody :=
  match body, ordinal with
  | RecordBody_RunAccepted v, O => Some (RunEventBody_RunAccepted v)
  | RecordBody_EffectRequested v, O => Some (RunEventBody_EffectRequested v)
  | RecordBody_EffectDeferred v, O => Some (RunEventBody_EffectDeferred v)
  | RecordBody_EffectCompleted v, O => Some (RunEventBody_EffectCompleted v)
  | RecordBody_EffectFailed v, O => Some (RunEventBody_EffectFailed v)
  | RecordBody_EffectCancelled v, O => Some (RunEventBody_EffectCancelled v)
  | RecordBody_InteractionRequested v, O => Some (RunEventBody_InteractionRequested v)
  | RecordBody_InteractionResolved v, O => Some (RunEventBody_InteractionResolved v)
  | RecordBody_InteractionExpired v, O => Some (RunEventBody_InteractionExpired v)
  | RecordBody_InteractionCancelled v, O => Some (RunEventBody_InteractionCancelled v)
  | RecordBody_EntryAppended v, O => Some (RunEventBody_MessageFinalized (msg_id (ea_message v)))
  | RecordBody_ToolCallSettled v, O => Some (RunEventBody_MessageFinalized (msg_id (tcs_message v)))
  | RecordBody_ToolCallSettled v, S O => Some (RunEventBody_ToolSettled (tcs_tool_call_id v))
  | RecordBody_RunCompleted v, O => Some (RunEventBody_RunCompleted (rcpl_result_digest v))
  | RecordBody_RunFailed v, O => Some (RunEventBody_RunFailed (rf_error v))
  | RecordBody_LimitReached v, O => Some (RunEventBody_LimitReached (lr_dimension v))
  | RecordBody_RunSuspended v, O => Some (RunEventBody_RunSuspended (Some (rsus_reason_code v)))
  | RecordBody_RunCancelled v, O => Some (RunEventBody_RunCancelled (Some (rcan_request_id v)))
  | _, _ => None
  end.

(** [derived_event_kind]. *)
Definition derived_event_kind (body : RecordBody) (kind_version : Z) (ordinal : nat) : option RunEventKind :=
  if negb (kind_version =? RECORD_KIND_VERSION) then None
  else
    match body, ordinal with
    | RecordBody_RunAccepted _, O => Some RunEventKind_RunAccepted
    | RecordBody_EffectRequested _, O => Some RunEventKind_EffectRequested
    | RecordBody_EffectDeferred _, O => Some RunEventKind_EffectDeferred
    | RecordBody_EffectCompleted _, O => Some RunEventKind_EffectCompleted
    | RecordBody_EffectFailed _, O => Some RunEventKind_EffectFailed
    | RecordBody_EffectCancelled _, O => Some RunEventKind_EffectCancelled
    | RecordBody_InteractionRequested _, O => Some RunEventKind_InteractionRequested
    | RecordBody_InteractionResolved _, O => Some RunEventKind_InteractionResolved
    | RecordBody_InteractionExpired _, O => Some RunEventKind_InteractionExpired
    | RecordBody_InteractionCancelled _, O => Some RunEventKind_InteractionCancelled
    | (RecordBody_EntryAppended _ | RecordBody_ToolCallSettled _), O => Some RunEventKind_MessageFinalized
    | RecordBody_ToolCallSettled _, S O => Some RunEventKind_ToolSettled
    | RecordBody_RunCompleted _, O => Some RunEventKind_RunCompleted
    | RecordBody_RunFailed _, O => Some RunEventKind_RunFailed
    | RecordBody_LimitReached _, O => Some RunEventKind_LimitReached
    | RecordBody_RunSuspended _, O => Some RunEventKind_RunSuspended
    | RecordBody_RunCancelled _, O => Some RunEventKind_RunCancelled
    | _, _ => None
    end.

Definition record_correlations (body : RecordBody) (c : EventCorrelations) (body_effect_id : option EffectId)
    : ResolvedEventCorrelations :=
  match body with
  | RecordBody_EntryAppended v =>
      mkResolvedEventCorrelations (Some (ea_turn_id v)) (Some (ea_model_request_id v)) None (Some (ea_effect_id v)) None
  | RecordBody_ToolCallSettled v =>
      mkResolvedEventCorrelations (Some (tcs_turn_id v)) None (Some (tcs_tool_batch_id v)) (Some (tcs_effect_id v))
        (Some (tcs_tool_call_id v))
  | RecordBody_RunCompleted v =>
      mkResolvedEventCorrelations (Some (rcpl_turn_id v)) (Some (rcpl_model_request_id v)) None
        (Some (rcpl_effect_id v)) None
  | RecordBody_RunFailed v =>
      mkResolvedEventCorrelations (rf_turn_id v) (rf_model_request_id v) None (rf_effect_id v) None
  | RecordBody_RunCancelled _ | RecordBody_RunSuspended _ | RecordBody_LimitReached _ =>
      mkResolvedEventCorrelations (ec_model_turn c) (ec_model_request c) (ec_tool_batch c) body_effect_id (ec_tool_call c)
  | RecordBody_EffectRequested _ | RecordBody_EffectDeferred _ | RecordBody_EffectCompleted _
  | RecordBody_EffectFailed _ | RecordBody_EffectCancelled _ =>
      if is_tool_effect_record body
      then mkResolvedEventCorrelations (ec_tool_turn c) None (ec_tool_batch c) body_effect_id (ec_tool_call c)
      else mkResolvedEventCorrelations (ec_model_turn c) (ec_model_request c) None body_effect_id None
  | _ => mkResolvedEventCorrelations None None None body_effect_id None
  end.

(** [RunEvent::try_new] for one class. *)
Definition RunEvent_try_new (expected : RunEventClass) (schema_version kind_version : Z) (event_id : EventId)
    (session_id : SessionId) (lane_id : LaneId) (run_id : RunId) (c : ResolvedEventCorrelations)
    (durable_sequence : option Z) (transient_sequence : Z) (timestamp : Timestamp) (sensitivity : Sensitivity)
    (body : RunEventBody) : option RunEvent :=
  if validate_event_versions schema_version kind_version
     && (event_class (event_kind body) =?? expected)
     && validate_event_correlations run_id (rsv_model_request c) (rsv_effect c) (rsv_tool_call c) body
     && validate_event_policy (rsv_turn c) (rsv_model_request c) (rsv_tool_batch c) (rsv_effect c)
          (rsv_tool_call c) sensitivity body
  then Some (mkRunEvent schema_version kind_version event_id (event_kind body) session_id lane_id run_id
               (rsv_turn c) (rsv_model_request c) (rsv_tool_batch c) (rsv_effect c) (rsv_tool_call c)
               durable_sequence transient_sequence timestamp sensitivity body)
  else None.

(** [RunEvent::try_from_record_with_correlations]. *)
Definition try_from_record (record : RecordEnvelope) (ordinal : nat) (transient_sequence : Z)
    (correlations : EventCorrelations) : option RunEvent :=
  expected_kind ← derived_event_kind (rec_body record) (rec_kind_version record) ordinal;
  event_id ← rec_derived_event_ids record !! ordinal;
  body ← run_event_body_from_record (rec_body record) ordinal;
  if event_kind body <>?? expected_kind then None
  else
    run_id ← rec_run_id record;
    let resolved := record_correlations (rec_body record) correlations (effect_id_for_body body) in
    if is_model_effect_record (rec_body record)
       && (is_none (rsv_turn resolved) || is_none (rsv_model_request resolved)) then None
    else if is_tool_effect_record (rec_body record)
            && (is_none (rsv_turn resolved) || is_none (rsv_tool_batch resolved) || is_none (rsv_tool_call resolved))
    then None
    else
      RunEvent_try_new RunEventClass_DurableDerived RUN_EVENT_SCHEMA_VERSION (rec_kind_version record) event_id
        (rec_session_id record) (rec_lane_id record) run_id resolved (Some (rec_sequence record))
        transient_sequence (rec_timestamp record) (derived_event_sensitivity (rec_body record)) body.
