(* ===== verification/Apply.v ===== *)
(** * Applying a committed batch

    Models [reducer/apply/validate.rs], [reducer/apply/mod.rs] and
    [Kernel::apply] of [reducer/mod.rs]: the transactional step of the reducer.
    A batch is checked as a whole (range, sequences, identities, shape,
    digests, capacity), applied to a working copy record by record, and its
    public events are derived; the kernel state changes only if all of that
    succeeds. *)

From S2P Require Import Prelude Primitives Effects Records State Inputs ToolBatch Digests Policy ApplyStage ApplyTools ApplyEffects ApplyRecord Shapes Events.

Definition APPEND_BATCH_MAX_RECORDS : nat := Z.to_nat 256.

(** ** Batch validation *)

Definition validate_batch_range (s : KernelState) (committed : CommittedBatch) : kresult unit :=
  do? reject_if (APPEND_BATCH_MAX_RECORDS <? length (cb_records committed))%nat
        (KernelError_InvalidInputPayload "records" "too_many_items") in
  do? reject_if (length (cb_records committed) =? 0)%nat KernelError_CommittedBatchRangeMismatch in
  let? expected_first := ok_or (u64_checked_add (k_last_applied_sequence s) 1)
                           KernelError_CommittedBatchRangeMismatch in
  let? span := ok_or (u64_checked_sub (u64_of_usize (length (cb_records committed))) 1)
                 KernelError_CommittedBatchRangeMismatch in
  let? expected_last := ok_or (u64_checked_add (cb_first_sequence committed) span)
                          KernelError_CommittedBatchRangeMismatch in
  reject_if (negb (cb_first_sequence committed =? expected_first) || negb (cb_last_sequence committed =? expected_last))
    KernelError_CommittedBatchRangeMismatch.

Definition check_sequence (committed : CommittedBatch) (u : unit) (entry : nat * RecordEnvelope) : kresult unit :=
  let? expected := ok_or (u64_checked_add (cb_first_sequence committed) (u64_of_usize entry.1))
                     KernelError_NonContiguousRecordSequence in
  reject_if (negb (rec_sequence entry.2 =? expected)) KernelError_NonContiguousRecordSequence.

Definition validate_record_sequences (committed : CommittedBatch) : kresult unit :=
  rfold (check_sequence committed) tt (enumerate (cb_records committed)).

(** The sets the identity scan accumulates. *)
Record SeenIds : Type := mkSeenIds {
  seen_records : gset RecordId;
  seen_events : gset EventId
}.

(** [ids.iter().any(|id| !set.insert(id))]: insert until a duplicate. *)
Fixpoint insert_all (ids : list EventId) (seen : gset EventId) : option (gset EventId) :=
  match ids with
  | [] => Some seen
  | id :: rest => if bool_decide (id ∈ seen) then None else insert_all rest ({[ id ]} ∪ seen)
  end.

Definition identity_step (s : KernelState) (first_timestamp : Timestamp) (seen : SeenIds) (record : RecordEnvelope)
    : kresult SeenIds :=
  do? reject_if (bool_decide (rec_record_id record ∈ seen_records seen)) KernelError_RecordIdentityMismatch in
  let? events := ok_or (insert_all (rec_derived_event_ids record) (seen_events seen))
                   KernelError_RecordIdentityMismatch in
  do? reject_if (negb (rec_timestamp record =? first_timestamp)) KernelError_RecordIdentityMismatch in
  do? reject_if (is_some_and (k_session_id s) (fun session_id => rec_session_id record <>?? session_id))
        KernelError_RecordIdentityMismatch in
  let scoped := is_structural (rec_body record) || is_foreign_run s record in
  do? reject_if
        (negb scoped
         && match k_lane_id s, k_accepted s with
            | Some lane_id, Some accepted =>
                (rec_lane_id record <>?? lane_id) || (rec_run_id record <>?? Some (ra_run_id accepted))
            | _, _ => false
            end)
        KernelError_RecordIdentityMismatch in
  Ok (mkSeenIds ({[ rec_record_id record ]} ∪ seen_records seen) events).

Definition validate_identities (s : KernelState) (records : list RecordEnvelope) : kresult unit :=
  let? first_timestamp := ok_or (rec_timestamp <$> head records) KernelError_CommittedBatchRangeMismatch in
  let? _ := rfold (identity_step s first_timestamp) (mkSeenIds ∅ ∅) records in
  Ok tt.

(** The guards of [apply] that exempt a batch from terminal immutability. *)
Definition post_terminal_budget_release (records : list RecordEnvelope) : bool :=
  forallb (fun r => match rec_body r with RecordBody_BudgetReservationReleased _ => true | _ => false end) records.

Definition reject_terminal_batch (s : KernelState) (records : list RecordEnvelope) : kresult unit :=
  reject_if
    (negb (external_rejection_shape records)
     && negb (structural_record_shape records)
     && negb (foreign_run_shape s records)
     && negb (post_terminal_budget_release records)
     && (is_some (k_terminal s) || is_terminal_phase (k_phase s)))
    KernelError_TerminalStateImmutable.

(** ** Event correlations *)

Definition correlated_effect_id (body : RecordBody) : option EffectId :=
  match body with
  | RecordBody_EffectRequested v => Some (req_effect_id v)
  | RecordBody_EffectDeferred v => Some (def_effect_id v)
  | RecordBody_EffectCompleted v => Some (cpl_effect_id v)
  | RecordBody_EffectFailed v => Some (fld_effect_id v)
  | RecordBody_EffectCancelled v => Some (cnl_effect_id v)
  | RecordBody_ToolCallSettled v => Some (tcs_effect_id v)
  | _ => None
  end.

Definition event_correlations_for (s : KernelState) (body : RecordBody) : EventCorrelations :=
  let model_turn := or_else (pme_turn_id <$> k_pending_model_effect s) (ct_turn_id <$> k_current_turn s) in
  let model_request :=
    or_else (pme_model_request_id <$> k_pending_model_effect s)
      (or_else (t ← k_current_turn s; ct_model_request_id t)
         match body with
         | RecordBody_EffectRequested requested =>
             if is_runtime_owned_child_model requested then Some (req_effect_id requested) else None
         | _ => None
         end) in
  let tool :=
    batch ← k_active_tool_batch s;
    effect_id ← correlated_effect_id body;
    c ← call batch effect_id;
    Some (tbo_turn_id (atb_opened batch), tbo_tool_batch_id (atb_opened batch),
          tc_tool_call_id (plan_call (asg_plan (atc_assigned c)))) in
  mkEventCorrelations model_turn model_request ((fun t => t.1.1) <$> tool) ((fun t => t.1.2) <$> tool)
    ((fun t => t.2) <$> tool).

Definition derive_event (first_transient_sequence : Z) (correlations : EventCorrelations) (record : RecordEnvelope)
    (events : list RunEvent) (ordinal : nat) : kresult (list RunEvent) :=
  let? transient_sequence :=
    ok_or (u64_checked_add first_transient_sequence (u64_of_usize (length events)))
      (KernelError_InvalidInputPayload "first_transient_sequence" "overflow") in
  let? event := ok_or (try_from_record record ordinal transient_sequence correlations)
                  (KernelError_InvalidInputPayload "derived_event" "record_event_projection_failed") in
  Ok (events ++ [event]).

Definition derive_record_events (first_transient_sequence : Z) (events : list RunEvent)
    (entry : RecordEnvelope * EventCorrelations) : kresult (list RunEvent) :=
  rfold (derive_event first_transient_sequence entry.2 entry.1) events
    (seq 0 (length (rec_derived_event_ids entry.1))).

Definition derive_events (first_transient_sequence : Z) (entries : list (RecordEnvelope * EventCorrelations))
    : kresult (list RunEvent) :=
  rfold (derive_record_events first_transient_sequence) [] entries.

Section Apply.
Context `{Hasher, Serde}.

(** Each element of a list with the one after it. *)
Fixpoint with_next {A} (l : list A) : list (A * option A) :=
  match l with
  | [] => []
  | a :: l' => (a, head l') :: with_next l'
  end.

Definition check_stage_digest (u : unit) (entry : RecordEnvelope * option RecordEnvelope) : kresult unit :=
  match rec_body entry.1 with
  | RecordBody_StageOutcomeRecorded outcome =>
      let? reconstructed := stage_record_digest outcome entry.2 in
      reject_if (reconstructed <>?? so_settlement_digest outcome) KernelError_SettlementDigestMismatch
  | _ => Ok tt
  end.

Definition validate_stage_digests (records : list RecordEnvelope) : kresult unit :=
  rfold check_stage_digest tt (with_next records).

Definition check_tool_digest (u : unit) (record : RecordEnvelope) : kresult unit :=
  match rec_body record with
  | RecordBody_ToolBatchOpened opened =>
      let? digest := opened_tool_batch_plan_digest opened in
      reject_if (digest <>?? tbo_plan_digest opened) KernelError_SettlementDigestMismatch
  | RecordBody_ToolBatchClosed closed =>
      let? digest := tool_batch_close_digest (tbc_cycle closed) (tbc_turn_id closed) (tbc_tool_batch_id closed)
                       (tbc_source_message_id closed) (tbc_result_message_ids closed) (tbc_outcome closed) in
      reject_if (digest <>?? tbc_close_digest closed) KernelError_SettlementDigestMismatch
  | _ => Ok tt
  end.

Definition validate_tool_digests (records : list RecordEnvelope) : kresult unit :=
  rfold check_tool_digest tt records.

Definition validate_model_digests (s : KernelState) (records : list RecordEnvelope) : kresult unit :=
  match k_pending_model_effect s, bodies records with
  | Some pending, [RecordBody_EffectCompleted completed; RecordBody_EntryAppended entry] =>
      if oc_kind (cpl_output_contract completed) =?? EffectOutputKind_ModelResponse then
        let? _ := completed_record_digest pending completed (ea_message entry) in Ok tt
      else Ok tt
  | Some pending, [RecordBody_EffectFailed failed] =>
      if oc_kind (fld_output_contract failed) =?? EffectOutputKind_ModelResponse then
        let? _ := failed_record_digest pending failed in Ok tt
      else Ok tt
  | _, _ => Ok tt
  end.

(** ** Applying the records *)

(** One iteration of the loop of [apply_semantic_records]. *)
Definition semantic_step (acc : KernelState * list EventCorrelations)
    (entry : RecordEnvelope * option RecordEnvelope) : kresult (KernelState * list EventCorrelations) :=
  let '(s, correlations) := acc in
  let '(record, next) := entry in
  let c := event_correlations_for s (rec_body record) in
  let? s := apply_record s record (rec_body <$> next) in
  Ok (with_last_applied_sequence (rec_sequence record) s, correlations ++ [c]).

Definition enter_before_run (s : KernelState) : KernelState :=
  if k_phase s =?? Some RunPhase_Accepted then with_phase (Some RunPhase_BeforeRun) s else s.

Definition apply_semantic_records (original : KernelState) (records : list RecordEnvelope)
    : kresult (KernelState * list EventCorrelations) :=
  let? r := rfold semantic_step (original, []) (with_next records) in
  Ok (enter_before_run r.1, r.2).

Definition apply (original : KernelState) (committed : CommittedBatch) (first_transient_sequence : Z)
    : kresult (KernelState * list RunEvent) :=
  let records := cb_records committed in
  do? validate_batch_range original committed in
  do? validate_record_sequences committed in
  do? reject_terminal_batch original records in
  do? validate_identities original records in
  do? validate_batch_shape original records in
  do? validate_stage_digests records in
  do? validate_tool_digests records in
  do? validate_model_digests original records in
  do? preflight_batch original records in
  let? applied := apply_semantic_records original records in
  let? events := derive_events first_transient_sequence (zip records applied.2) in
  Ok (applied.1, events).

(** Every check a committed batch passed, and what applying it produced. *)
Record committed_step (s : KernelState) (b : CommittedBatch) (t : Z) (s' : KernelState) (events : list RunEvent)
    (correlations : list EventCorrelations) : Prop := {
  cs_range : validate_batch_range s b = Ok tt;
  cs_sequences : validate_record_sequences b = Ok tt;
  cs_terminal : reject_terminal_batch s (cb_records b) = Ok tt;
  cs_identities : validate_identities s (cb_records b) = Ok tt;
  cs_shape : validate_batch_shape s (cb_records b) = Ok tt;
  cs_stage_digests : validate_stage_digests (cb_records b) = Ok tt;
  cs_tool_digests : validate_tool_digests (cb_records b) = Ok tt;
  cs_model_digests : validate_model_digests s (cb_records b) = Ok tt;
  cs_capacity : preflight_batch s (cb_records b) = Ok tt;
  cs_applied : apply_semantic_records s (cb_records b) = Ok (s', correlations);
  cs_events : derive_events t (zip (cb_records b) correlations) = Ok events
}.

Lemma apply_step s b t s' events :
  apply s b t = Ok (s', events) -> exists correlations, committed_step s b t s' events correlations.
Proof.
  unfold apply. cbv zeta. intros HH.
  do 11 step HH. injection HH as <- <-.
  repeat match goal with u : unit |- _ => destruct u end.
  match goal with E : apply_semantic_records _ _ = Ok ?r |- _ => destruct r as [s' c]; exists c end.
  by split.
Qed.

Lemma apply_of_step s b t s' events c : committed_step s b t s' events c -> apply s b t = Ok (s', events).
Proof.
  intros [Hr Hs Ht Hi Hsh Hsd Htd Hmd Hc Ha He]. unfold apply. cbv zeta.
  rewrite Hr, Hs, Ht, Hi, Hsh, Hsd, Htd, Hmd, Hc. cbn [rbind]. rewrite Ha. cbn [rbind snd fst]. by rewrite He.
Qed.

(** [Kernel::apply]: the state is replaced on success only. *)
Definition Kernel_apply (state : KernelState) (committed : CommittedBatch) (first_transient_sequence : Z)
    : KernelState * kresult (list RunEvent) :=
  match apply state committed first_transient_sequence with
  | Ok (state', events) => (state', Ok events)
  | Err e => (state, Err e)
  end.
End Apply.

(** [Kernel::adopt_session_head]. *)
Definition Kernel_adopt_session_head (state : KernelState) (sequence : Z) : kresult KernelState :=
  do? reject_if (sequence <? k_last_applied_sequence state) KernelError_InvariantViolation in
  Ok (with_last_applied_sequence sequence state).
