(* ===== verification/Decide.v ===== *)
(** * Decisions: shared construction

    Models [reducer/allocated_ids.rs], [reducer/decide/shared.rs],
    [reducer/validation.rs] and the constructors a decision uses:
    [RecordDraft::try_new] with [records/validate.rs], and [try_new] of the
    effect settlements, of [Message] and of [RetryScheduled].  A decision is the
    list of record drafts the coordinator must commit atomically, together with
    the actions it may run after the commit. *)

From stdpp Require Import sorting.
From S2P Require Import Prelude Primitives Ids Effects Records State Inputs ToolBatch Digests Policy ApplyStage ApplyTools ApplyEffects ApplyRecord Shapes.

(** ** Preallocated identities *)

Record IdRequirements : Type := mkIdRequirements {
  idr_records : nat;
  idr_events : nat;
  idr_effects : nat;
  idr_turns : nat;
  idr_model_requests : nat;
  idr_messages : nat;
  idr_tool_batches : nat;
  idr_tool_calls : nat;
  idr_cancellations : nat;
  idr_interactions : nat
}.

Definition IdRequirements_new (records events effects turns model_requests messages : nat) : IdRequirements :=
  mkIdRequirements records events effects turns model_requests messages 0 0 0 0.

Definition with_cancellations (n : nat) (r : IdRequirements) : IdRequirements :=
  mkIdRequirements (idr_records r) (idr_events r) (idr_effects r) (idr_turns r) (idr_model_requests r)
    (idr_messages r) (idr_tool_batches r) (idr_tool_calls r) n (idr_interactions r).

Definition with_tools (tool_batches tool_calls : nat) (r : IdRequirements) : IdRequirements :=
  mkIdRequirements (idr_records r) (idr_events r) (idr_effects r) (idr_turns r) (idr_model_requests r)
    (idr_messages r) tool_batches tool_calls (idr_cancellations r) (idr_interactions r).

Definition with_interactions (n : nat) (r : IdRequirements) : IdRequirements :=
  mkIdRequirements (idr_records r) (idr_events r) (idr_effects r) (idr_turns r) (idr_model_requests r)
    (idr_messages r) (idr_tool_batches r) (idr_tool_calls r) (idr_cancellations r) n.

(** The [queues] array: name, available, needed. *)
Definition id_queues (ids : AllocatedIds) (required : IdRequirements) : list (string * nat * nat) :=
  [("record_ids", length (ids_record_ids ids), idr_records required);
   ("event_ids", length (ids_event_ids ids), idr_events required);
   ("effect_ids", length (ids_effect_ids ids), idr_effects required);
   ("turn_ids", length (ids_turn_ids ids), idr_turns required);
   ("model_request_ids", length (ids_model_request_ids ids), idr_model_requests required);
   ("message_ids", length (ids_message_ids ids), idr_messages required);
   ("interaction_ids", length (ids_interaction_ids ids), idr_interactions required);
   ("tool_batch_ids", length (ids_tool_batch_ids ids), idr_tool_batches required);
   ("tool_call_ids", length (ids_tool_call_ids ids), idr_tool_calls required);
   ("cancellation_request_ids", length (ids_cancellation_request_ids ids), idr_cancellations required)].

Definition check_exhausted (u : unit) (q : string * nat * nat) : kresult unit :=
  let '(kind, actual, needed) := q in reject_if (actual <? needed)%nat (KernelError_AllocatedIdsExhausted kind).

Definition check_unused (u : unit) (q : string * nat * nat) : kresult unit :=
  let '(kind, actual, needed) := q in reject_if (needed <? actual)%nat (KernelError_UnusedAllocatedIds kind).

Definition validate_allocated_ids (ids : AllocatedIds) (required : IdRequirements) : kresult unit :=
  let queues := id_queues ids required in
  do? rfold check_exhausted tt queues in
  rfold check_unused tt queues.

(** ** Small shared checks *)

Definition required {A} (values : list A) (index : nat) (kind : string) : kresult A :=
  ok_or (values !! index) (KernelError_AllocatedIdsExhausted kind).

Definition next_sequence (s : KernelState) : kresult Z :=
  ok_or (u64_checked_add (k_last_applied_sequence s) 1) KernelError_InvariantViolation.

Definition reject_terminal (s : KernelState) : kresult unit :=
  reject_if (is_terminal_phase (k_phase s) || is_some (k_terminal s)) KernelError_TerminalStateImmutable.

Definition expected_stage_cursor (s : KernelState) : option StageCursor :=
  phase ← k_phase s;
  expected_stage ← match phase with
                   | RunPhase_BeforeRun => Some Stage_BeforeRun
                   | RunPhase_PreparingContext => Some Stage_PrepareContext
                   | RunPhase_BeforeModel => Some Stage_BeforeModel
                   | RunPhase_AfterModel => Some Stage_AfterModel
                   | RunPhase_BeforeToolBatch => Some Stage_BeforeToolBatch
                   | RunPhase_AfterToolBatch => Some Stage_AfterToolBatch
                   | RunPhase_BeforeFinalize => Some Stage_BeforeFinalize
                   | _ => None
                   end;
  Some (mkStageCursor (k_cycle s) expected_stage).

Definition validate_error_descriptor (error : ErrorDescriptor) : kresult unit :=
  reject_if (negb (error_descriptor_valid error)) (KernelError_InvalidInputPayload "error.message" "invalid_text").

(** [Diagnostic::try_new]. *)
Definition Diagnostic_try_new (code message : string) (severity : DiagnosticSeverity) (metadata : Metadata)
    : option Diagnostic :=
  if text_is_valid message && label_is_valid code then Some (mkDiagnostic code message severity metadata) else None.

Definition duplicate_decision (s : KernelState) : kresult Decision :=
  let? diagnostic := ok_or (Diagnostic_try_new "duplicate_settlement" "equal committed settlement was ignored"
                              DiagnosticSeverity_Info METADATA_EMPTY) KernelError_InvariantViolation in
  let? expected_sequence := next_sequence s in
  Ok (mkDecision expected_sequence [] [] [diagnostic]).

(** [validated_label(..).transpose()]: an optional label, valid if present. *)
Definition optional_label (value : option string) : option (option string) :=
  if is_none_or value label_is_valid then Some value else None.

Definition EffectCancelled_try_new (effect_id : EffectId) (output_contract : EffectOutputContract)
    (reason completion_id : option string) : option EffectCancelled :=
  reason ← optional_label reason;
  completion_id ← optional_label completion_id;
  Some (mkEffectCancelled effect_id output_contract reason completion_id).

Definition CancellationRequest_try_new (request_id : CancellationRequestId) (initiator : CancellationInitiator)
    (reason : option string) : option CancellationRequest :=
  reason ← optional_label reason;
  Some (mkCancellationRequest request_id initiator reason).

Definition InteractionCancelled_try_new (interaction_id : InteractionId) (principal : option PrincipalRef)
    (authorization : option AuthorizationEvidence) (reason : option string) : option InteractionCancelled :=
  if Bool.eqb (is_some principal) (is_some authorization) then
    reason ← optional_label reason;
    Some (mkInteractionCancelled interaction_id principal authorization reason)
  else None.

Definition RetryScheduled_try_new (cycle attempt : Z) (classification : RetryClassification)
    (policy_version : string) (timer_effect_id : EffectId) (due_at : Timestamp) (prior_error : ErrorDescriptor)
    : option RetryScheduled :=
  if attempt =? 0 then None
  else if negb (label_is_valid policy_version) then None
  else if negb (error_descriptor_valid prior_error) then None
  else Some (mkRetryScheduled cycle attempt classification policy_version timer_effect_id due_at prior_error).

(** ** Messages ([conversation/message.rs]) *)

(** [validate_role_blocks]: the blocks each role may carry. *)
Definition role_allows (role : MessageRole) (block : ContentBlock) : bool :=
  match role, block with
  | (MessageRole_System | MessageRole_Developer),
    (ContentBlock_Text _ | ContentBlock_Json _ | ContentBlock_Opaque _) => true
  | MessageRole_User,
    (ContentBlock_Text _ | ContentBlock_Json _ | ContentBlock_Image _ | ContentBlock_Audio _
    | ContentBlock_File _ | ContentBlock_Opaque _) => true
  | MessageRole_Assistant,
    (ContentBlock_Text _ | ContentBlock_Json _ | ContentBlock_Image _ | ContentBlock_Audio _
    | ContentBlock_File _ | ContentBlock_ToolCall _ | ContentBlock_Opaque _) => true
  | MessageRole_Tool, ContentBlock_ToolResult _ => true
  | _, _ => false
  end.

Definition tool_result_ids (content : list ContentBlock) : list ToolCallId :=
  omap (fun block => match block with ContentBlock_ToolResult r => Some (tr_tool_call_id r) | _ => None end) content.

(** [validate_tool_associations(None)]: a tool message answers at least one
    call, and none twice. *)
Definition validate_tool_associations (role : MessageRole) (content : list ContentBlock) : bool :=
  (role <>?? MessageRole_Tool)
  || (negb (length (tool_result_ids content) =? 0)%nat && bool_decide (NoDup (tool_result_ids content))).

Definition Message_try_new (id : MessageId) (role : MessageRole) (content : list ContentBlock)
    (created_at : Timestamp) (model : option ModelRef) (provider_ids : ProviderIds) (metadata : Metadata)
    : option Message :=
  if (length content <=? CONTENT_MAX_ITEMS)%nat && forallb (role_allows role) content
     && validate_tool_associations role content
  then Some (mkMessage id role content created_at model provider_ids metadata)
  else None.

(** ** Tool effects known to the run ([reducer/tool/decide_settle.rs]) *)

(** The values of a [BTreeMap] keyed by identifiers, in key order. *)
Definition id_le {V} (a b : N * V) : Prop := (a.1 <= b.1)%N.
#[global] Instance id_le_dec {V} : RelDecision (@id_le V) := fun a b => decide (a.1 <= b.1)%N.

Definition sorted_values {V} (m : gmap N V) : list V := snd <$> merge_sort id_le (map_to_list m).

Definition is_known_tool_effect (s : KernelState) (effect_id : EffectId) : bool :=
  is_some_and (k_active_tool_batch s) (fun batch => is_some (call_index batch effect_id))
  || existsb (fun identity => tci_effect_id identity =?? Some effect_id) (sorted_values (k_tool_calls s)).

Definition tool_batch_id_for_effect (s : KernelState) (effect_id : EffectId) : option ToolBatchId :=
  or_else (batch ← k_active_tool_batch s;
           (fun _ => tbo_tool_batch_id (atb_opened batch)) <$> call_index batch effect_id)
    (identity ← find (fun identity => tci_effect_id identity =?? Some effect_id) (sorted_values (k_tool_calls s));
     tci_tool_batch_id identity).

(** ** Record drafts *)

Section Decide.
Context `{Hasher, Serde}.

Definition EffectCompleted_try_new (effect_id : EffectId) (output_contract : EffectOutputContract) (output : RawJson)
    (usage : option Usage) (artifacts : list ArtifactRef) (provider_ids : ProviderIds)
    (completion_id : option string) (reservation_id : option BudgetReservationId) : option EffectCompleted :=
  if (SEMANTIC_ARRAY_MAX_ITEMS <? length artifacts)%nat then None
  else
    usage_digest ← optional_usage_digest usage;
    completion_id ← optional_label completion_id;
    Some (mkEffectCompleted effect_id output_contract output (digest_effect_output output) usage usage_digest
            artifacts provider_ids completion_id reservation_id).

Definition EffectFailed_try_new (effect_id : EffectId) (output_contract : EffectOutputContract)
    (error : ErrorDescriptor) (usage : option Usage) (completion_id : option string) : option EffectFailed :=
  if negb (error_descriptor_valid error) then None
  else
    usage_digest ← optional_usage_digest usage;
    completion_id ← optional_label completion_id;
    Some (mkEffectFailed effect_id output_contract error usage usage_digest completion_id).

Definition timer_firing_contract : EffectOutputContract :=
  mkEffectOutputContract EffectOutputKind_TimerFiring 1
    (digest_effect_output (String.string_of_list_ascii
       (Ascii.ascii_of_N 123 :: Ascii.ascii_of_N 34 :: String.list_ascii_of_string "type" ++
        Ascii.ascii_of_N 34 :: Ascii.ascii_of_N 58 :: Ascii.ascii_of_N 34 ::
        String.list_ascii_of_string "timer_firing" ++ [Ascii.ascii_of_N 34; Ascii.ascii_of_N 125]))).

(** The error descriptor a body carries, which [validate_body_for_creation] validates. *)
Definition body_error (body : RecordBody) : option ErrorDescriptor :=
  match body with
  | RecordBody_StageOutcomeRecorded outcome =>
      match so_disposition outcome with StageDisposition_Failed error => Some error | _ => None end
  | RecordBody_EffectFailed failed => Some (fld_error failed)
  | RecordBody_ToolCallSettled settled => tcs_error settled
  | RecordBody_ToolBatchClosed closed =>
      match tbc_outcome closed with ToolBatchOutcome_Failed error => Some error | _ => None end
  | RecordBody_RunFailed failed => Some (rf_error failed)
  | RecordBody_OutputValidationFailed failed => Some (ovf_error failed)
  | RecordBody_RetryScheduled retry => Some (rs_prior_error retry)
  | _ => None
  end.

Definition validate_body_for_creation (body : RecordBody) : bool :=
  match body with
  | RecordBody_RunAccepted accepted => lineage_flag (ra_lineage_validated accepted)
  | _ => true
  end
  && is_none_or (body_error body) error_descriptor_valid
  && match body with
     | RecordBody_BudgetReservationRequested value => BudgetReserveRequest_valid (brd_request value)
     | RecordBody_BudgetReservationSettled value => BudgetReservationReceipt_valid (brs_receipt value)
     | RecordBody_BudgetChargeRecorded value => BudgetChargeReceipt_valid (bch_receipt value)
     | RecordBody_BudgetReservationReleased value => BudgetReleaseReceipt_valid (bre_receipt value)
     | _ => true
     end.

Definition validate_versions_and_events (format_version kind_version : Z) (actual_event_count : nat)
    (body : RecordBody) : bool :=
  (format_version =? RECORD_FORMAT_VERSION) && (kind_version =? RECORD_KIND_VERSION)
  && (actual_event_count =? derived_event_count body)%nat.

Definition validate_record_run_id (run_id : option RunId) (body : RecordBody) : bool :=
  match body with
  | RecordBody_RunAccepted accepted => run_id =?? Some (ra_run_id accepted)
  | _ => true
  end
  && negb (is_structural body && is_some run_id).

Definition RecordDraft_try_new (format_version kind_version : Z) (record_id : RecordId) (session_id : SessionId)
    (lane_id : LaneId) (run_id : option RunId) (timestamp : Timestamp) (derived_event_ids : list EventId)
    (body : RecordBody) : option RecordDraft :=
  if validate_versions_and_events format_version kind_version (length derived_event_ids) body
     && validate_record_run_id run_id body && validate_body_for_creation body
  then Some (mkRecordDraft format_version kind_version record_id session_id lane_id run_id timestamp
               derived_event_ids body)
  else None.

(** [draft_for_state]: one draft per body; events are taken from the queue in
    order, [derived_event_count] of them for each body. *)
Definition draft_step (session_id : SessionId) (lane_id : LaneId) (run_id : RunId) (env : TransitionEnv)
    (st : nat * list RecordDraft) (entry : nat * RecordBody) : kresult (nat * list RecordDraft) :=
  let '(event_index, records) := st in
  let '(record_index, body) := entry in
  let count := derived_event_count body in
  let? event_ids := rfold (fun ids offset =>
                      let? event_id := required (ids_event_ids (env_ids env)) (event_index + offset) "event_ids" in
                      Ok (ids ++ [event_id])) [] (seq 0 count) in
  let? record_id := required (ids_record_ids (env_ids env)) record_index "record_ids" in
  let? draft := ok_or (RecordDraft_try_new RECORD_FORMAT_VERSION RECORD_KIND_VERSION record_id session_id lane_id
                         (Some run_id) (env_now env) event_ids body) KernelError_InvariantViolation in
  Ok ((event_index + count)%nat, records ++ [draft]).

Definition draft_for_state (s : KernelState) (env : TransitionEnv) (record_bodies : list RecordBody)
    : kresult (list RecordDraft) :=
  let? session_id := ok_or (k_session_id s) KernelError_InvalidRunAcceptance in
  let? lane_id := ok_or (k_lane_id s) KernelError_InvalidRunAcceptance in
  let? run_id := ok_or (ra_run_id <$> k_accepted s) KernelError_InvalidRunAcceptance in
  let? st := rfold (draft_step session_id lane_id run_id env) (0%nat, []) (enumerate record_bodies) in
  Ok st.2.

Definition decision_for (s : KernelState) (env : TransitionEnv) (record_bodies : list RecordBody)
    (actions : list PostCommitAction) : kresult Decision :=
  let? expected_sequence := next_sequence s in
  let? records := draft_for_state s env record_bodies in
  Ok (mkDecision expected_sequence records actions []).

Definition stage_record (cursor : StageCursor) (disposition : StageDisposition) (settlement_digest : Digest)
    : RecordBody :=
  RecordBody_StageOutcomeRecorded (mkStageOutcomeRecorded cursor disposition settlement_digest).

(** The error of an input that the current phase does not admit. *)
Definition invalid_phase (s : KernelState) (input : string) : KernelError :=
  KernelError_InvalidPhaseInput (k_phase s) input.

Definition terminal_body_from_candidate (s : KernelState) : kresult RecordBody :=
  let? candidate := ok_or (k_terminal_candidate s) (invalid_phase s "stage_settled") in
  Ok match candidate with
     | TerminalCandidate_Completed cycle turn_id model_request_id effect_id message_id result_digest =>
         RecordBody_RunCompleted
           (mkRunCompleted cycle turn_id model_request_id effect_id message_id result_digest)
     | TerminalCandidate_Failed cycle turn_id model_request_id effect_id error =>
         RecordBody_RunFailed (mkRunFailed cycle turn_id model_request_id effect_id error)
     end.

(** ** Assistant messages ([reducer/validation.rs]) *)

Definition assistant_call_step (s : KernelState) (st : gset ToolCallId * nat) (c : ToolCallBlock)
    : kresult (gset ToolCallId * nat) :=
  let '(seen, final_output_calls) := st in
  do? reject_if (bool_decide (tc_tool_call_id c ∈ seen) || is_some (k_tool_calls s !! tc_tool_call_id c))
        KernelError_DuplicateToolCall in
  let seen := {[ tc_tool_call_id c ]} ∪ seen in
  if is_internal_tool_name (tc_tool_name c) then
    do? reject_if ((tc_tool_name c <>?? SUBMIT_FINAL_OUTPUT_TOOL) || negb (wants_json_schema s))
          KernelError_AssistantMessageMismatch in
    let final_output_calls := S final_output_calls in
    do? reject_if (1 <? final_output_calls)%nat KernelError_AssistantMessageMismatch in
    Ok (seen, final_output_calls)
  else Ok (seen, final_output_calls).

Definition validate_assistant_semantics (s : KernelState) (env : TransitionEnv) (message : Message)
    (completion : EffectCompleted) : kresult unit :=
  do? reject_if
        (negb (msg_created_at message =? env_now env)
         || (msg_role message <>?? MessageRole_Assistant)
         || (msg_provider_ids message <>?? cpl_provider_ids completion))
        KernelError_AssistantMessageMismatch in
  let? _ := rfold (assistant_call_step s) (∅, 0%nat) (assistant_tool_calls message false) in
  Ok tt.

Definition validate_assistant_tool_call_ids (allocated : list ToolCallId) (message : Message) : kresult unit :=
  reject_if ((tc_tool_call_id <$> assistant_tool_calls message false) <>?? allocated)
    KernelError_AssistantMessageMismatch.
End Decide.
