(* ===== verification/DecideLimit.v ===== *)
(** * Limits: deciding that a run has used up what it was granted

    Models [reducer/decide/limit.rs]: the usage an input would lead to, the
    first ceiling that usage crosses in the fixed order of dimensions, and the
    decision that ends or suspends the run. *)

From stdpp Require Import sorting.
From S2P Require Import Prelude Primitives Ids Effects Records State Inputs ToolBatch Digests Policy ApplyStage ApplyTools ApplyEffects ApplyRecord Shapes Decide.

(** ** Tool groups *)

(** One round of the loop of [largest_tool_group]: the previous call, the width
    of the group so far and the largest width. *)
Definition group_step (st : option ToolCallPlan * Z * Z) (c : ToolCallPlan) : option (option ToolCallPlan * Z * Z) :=
  let '(prior, current, largest) := st in
  let joins := is_none_or prior (fun p =>
                 (plan_execution p =?? ToolExecutionMode_Parallel)
                 && (plan_execution c =?? ToolExecutionMode_Parallel)) in
  current ← if joins then u32_checked_add current 1 else Some 1;
  Some (Some c, current, Z.max largest current).

Definition largest_tool_group (calls : list ToolCallPlan) : option Z :=
  snd <$> foldl (fun st c => st ← st; group_step st c) (Some (None, 0, 0)) calls.

(** ** Projected usage *)

(** [UsageProjectionFailure]: a code and a message. *)
Record UsageProjectionFailure : Type := mkUsageProjectionFailure {
  upf_code : string;
  upf_message : string
}.

(** The entries of a [BTreeMap] of counters, in key order. *)
Definition key_le (a b : LimitKey * Z) : Prop := String.leb a.1 b.1 = true.
#[global] Instance key_le_dec : RelDecision key_le := fun a b => decide (String.leb a.1 b.1 = true).

Definition sorted_entries (m : gmap LimitKey Z) : list (LimitKey * Z) := merge_sort key_le (map_to_list m).

Definition project_counter (limits : RunLimits) (u : LimitUsage) (entry : LimitKey * Z)
    : result LimitUsage UsageProjectionFailure :=
  do? reject_if (is_none (rl_extension_counters limits !! entry.1))
        (mkUsageProjectionFailure "unregistered_extension_counter"
           "completion reported an unregistered extension counter") in
  let current := default 0 (lu_extension_counters u !! entry.1) in
  let? total := ok_or (u64_checked_add current entry.2)
                  (mkUsageProjectionFailure "counter_overflow" "extension counter accounting overflowed") in
  Ok (set_lu_extension_counters (<[entry.1 := total]> (lu_extension_counters u)) u).

Definition project_cost (limits : RunLimits) (cost : option CostAmount) (u : LimitUsage)
    : result LimitUsage UsageProjectionFailure :=
  let mismatch := mkUsageProjectionFailure "cost_policy_mismatch"
                    "completion cost does not match the accepted pricing policy" in
  match cost with
  | None => Ok u
  | Some value =>
      let? maximum := ok_or (rl_max_cost limits)
                        (mkUsageProjectionFailure "cost_policy_mismatch"
                           "completion reported cost without an accepted cost policy") in
      do? reject_if ((ca_unit value <>?? cl_unit maximum)
                     || (ca_pricing_policy_version value <>?? cl_pricing_policy_version maximum)) mismatch in
      let current := match lu_cost u with Some c => ca_micros c | None => 0 end in
      let? micros := ok_or (u64_checked_add current (ca_micros value))
                       (mkUsageProjectionFailure "cost_overflow" "cost accounting overflowed") in
      let? amount := ok_or (CostAmount_try_new (ca_unit value) micros (ca_pricing_policy_version value)) mismatch in
      Ok (set_lu_cost (Some amount) u)
  end.

(** An optional counter of the completion, with the failure of its overflow. *)
Definition project_tokens (get : LimitUsage -> Z) (set : Z -> LimitUsage -> LimitUsage) (delta : option Z)
    (failure : UsageProjectionFailure) (u : LimitUsage) : result LimitUsage UsageProjectionFailure :=
  match delta with
  | None => Ok u
  | Some value =>
      let? total := ok_or (u64_checked_add (get u) value) failure in
      Ok (set total u)
  end.

Definition project_completed_usage (u : LimitUsage) (output : RawJson) (completion : option Usage)
    (limits : RunLimits) : result LimitUsage UsageProjectionFailure :=
  let? u := project_tokens lu_output_bytes set_lu_output_bytes (Some (str_len output))
              (mkUsageProjectionFailure "output_bytes_overflow" "output byte accounting overflowed") u in
  match completion with
  | None => Ok u
  | Some c =>
      let? u := project_tokens lu_input_tokens set_lu_input_tokens (us_input_tokens c)
                  (mkUsageProjectionFailure "input_tokens_overflow" "input token accounting overflowed") u in
      let? u := project_tokens lu_output_tokens set_lu_output_tokens (us_output_tokens c)
                  (mkUsageProjectionFailure "output_tokens_overflow" "output token accounting overflowed") u in
      let? u := project_cost limits (us_cost c) u in
      rfold (project_counter limits) u (sorted_entries (us_extension_counters c))
  end.

(** ** The first ceiling crossed *)

Record LimitCrossing : Type := mkLimitCrossing {
  lc_dimension : LimitDimension;
  lc_observed : LimitValue;
  lc_maximum : LimitValue;
  lc_code : string;
  lc_category : ErrorCategory
}.

Definition crossing (d : LimitDimension) (observed maximum : LimitValue) : LimitCrossing :=
  mkLimitCrossing d observed maximum "limit_reached" ErrorCategory_Limit.

(** A ceiling on one number: crossed when the observed value is above it. *)
Definition over (d : LimitDimension) (kind : Z -> LimitValue) (field : Z) (maximum : option Z)
    : option LimitCrossing :=
  maximum ← maximum; if maximum <? field then Some (crossing d (kind field) (kind maximum)) else None.

(** The numeric ceilings, in the order of the source. *)
Definition numeric_crossing (limits : RunLimits) (u : LimitUsage) : option LimitCrossing :=
  foldr or_else None
    [over LimitDimension_ModelRequests LimitValue_Count (lu_model_requests u) (rl_max_model_requests limits);
     over LimitDimension_Turns LimitValue_Count (lu_turns u) (rl_max_turns limits);
     over LimitDimension_ToolCalls LimitValue_Count (lu_tool_calls u) (rl_max_tool_calls limits);
     over LimitDimension_ParallelTools LimitValue_Count (lu_max_parallel_tools u) (rl_max_parallel_tools limits);
     over LimitDimension_InputTokens LimitValue_Count (lu_input_tokens u) (rl_max_input_tokens limits);
     over LimitDimension_OutputTokens LimitValue_Count (lu_output_tokens u) (rl_max_output_tokens limits);
     over LimitDimension_ContextBytes LimitValue_Bytes (lu_context_bytes u) (rl_max_context_bytes limits);
     over LimitDimension_OutputBytes LimitValue_Bytes (lu_output_bytes u) (rl_max_output_bytes limits);
     over LimitDimension_Retries LimitValue_Count (lu_retries u) (rl_max_retries limits);
     over LimitDimension_WallTime LimitValue_Duration (lu_wall_time u) (rl_max_wall_time limits)].

Definition cost_crossing (limits : RunLimits) (u : LimitUsage) : kresult (option LimitCrossing) :=
  match rl_max_cost limits, lu_cost u with
  | Some maximum, Some observed =>
      if cl_micros maximum <? ca_micros observed then
        let? max := ok_or (CostAmount_try_new (cl_unit maximum) (cl_micros maximum)
                             (cl_pricing_policy_version maximum)) KernelError_InvariantViolation in
        Ok (Some (crossing LimitDimension_Cost (LimitValue_Cost observed) (LimitValue_Cost max)))
      else Ok None
  | _, _ => Ok None
  end.

Fixpoint counter_crossing (limits : RunLimits) (entries : list (LimitKey * Z)) : kresult (option LimitCrossing) :=
  match entries with
  | [] => Ok None
  | (key, observed) :: rest =>
      let? maximum := ok_or (rl_extension_counters limits !! key) KernelError_InvariantViolation in
      if maximum <? observed
      then Ok (Some (crossing (LimitDimension_Extension key) (LimitValue_Count observed) (LimitValue_Count maximum)))
      else counter_crossing limits rest
  end.

Definition first_limit_crossing (accepted : RunAccepted) (u : LimitUsage) : kresult (option LimitCrossing) :=
  let limits := ra_limits accepted in
  match numeric_crossing limits u with
  | Some c => Ok (Some c)
  | None =>
      let? cost := cost_crossing limits u in
      match cost with
      | Some c => Ok (Some c)
      | None => counter_crossing limits (sorted_entries (lu_extension_counters u))
      end
  end.

(** ** Which inputs a limit applies to *)

Definition stage_boundary (s : KernelState) (cursor : StageCursor) : bool :=
  expected_stage_cursor s =?? Some cursor.

Definition compaction_boundary (s : KernelState) (input : RequestCompactionModel) : bool :=
  match er_purpose (rcm_relation input) with
  | EffectPurpose_CompactionSummary _ =>
      (k_phase s =?? Some RunPhase_BeforeModel) && is_none (k_pending_model_effect s)
  | EffectPurpose_NestedModel NestedModelKind_McpSampling =>
      (k_phase s =?? Some RunPhase_AwaitingTools) && is_none (k_pending_model_effect s)
  end.

Definition ModelSettlement_effect_id (o : ModelSettlement) : EffectId :=
  match o with
  | ModelSettlement_Completed completion _ => cpl_effect_id completion
  | ModelSettlement_Deferred value => def_effect_id value
  | ModelSettlement_Failed value => fld_effect_id value
  end.

Definition ModelSettlement_completion_id (o : ModelSettlement) : option string :=
  match o with
  | ModelSettlement_Completed completion _ => cpl_completion_id completion
  | ModelSettlement_Deferred _ => None
  | ModelSettlement_Failed value => fld_completion_id value
  end.

Definition ToolSettlement_effect_id (o : ToolSettlement) : EffectId :=
  match o with
  | ToolSettlement_Completed value => cpl_effect_id value
  | ToolSettlement_Deferred value => def_effect_id value
  | ToolSettlement_Failed value => fld_effect_id value
  end.

Definition ToolSettlement_completion_id (o : ToolSettlement) : option string :=
  match o with
  | ToolSettlement_Completed value => cpl_completion_id value
  | ToolSettlement_Deferred _ => None
  | ToolSettlement_Failed value => fld_completion_id value
  end.

Definition outstanding_model_settlement (s : KernelState) (input : ModelSettled) : bool :=
  is_some_and (k_pending_model_effect s) (fun pending =>
    (pme_turn_id pending =?? ms_turn_id input)
    && (pme_model_request_id pending =?? ms_model_request_id input)
    && (req_effect_id (pme_requested pending) =?? ModelSettlement_effect_id (ms_outcome input))).

Definition outstanding_tool_settlement (s : KernelState) (input : ToolBatchSettled) : bool :=
  is_some_and (k_active_tool_batch s) (fun batch =>
    (tbo_tool_batch_id (atb_opened batch) =?? tbs_tool_batch_id input)
    && is_some_and (call batch (ToolSettlement_effect_id (tbs_outcome input))) (fun c =>
         is_requested (atc_status c) && (asg_group_index (atc_assigned c) =? atb_current_group batch))).

Definition is_deferred (status : ActiveToolCallStatus) : bool :=
  match status with ActiveToolCallStatus_Requested _ (Some _) => true | _ => false end.

Definition outstanding_external_completion (s : KernelState) (input : ExternalEffectCompletedInput) : bool :=
  let effect_id := xec_effect_id (xei_completion input) in
  if is_known_tool_effect s effect_id then
    is_some_and (k_active_tool_batch s) (fun batch =>
      is_some_and (call batch effect_id) (fun c => is_deferred (atc_status c)))
  else
    (k_phase s =?? Some RunPhase_AwaitingExternal)
    && is_some_and (k_pending_model_effect s) (fun pending =>
         (req_effect_id (pme_requested pending) =?? effect_id) && is_some (pme_deferred pending)).

Definition settlement_admissible_for_cost (s : KernelState) (input : KernelInput) : bool :=
  match input with
  | KernelInput_ModelSettled settled => outstanding_model_settlement s settled
  | KernelInput_ToolBatchSettled settled => outstanding_tool_settlement s settled
  | KernelInput_ExternalEffectCompleted completed => outstanding_external_completion s completed
  | _ => false
  end.

(** The usage a settlement reports, if the input is a completion. *)
Definition completion_usage (input : KernelInput) : option (option Usage) :=
  match input with
  | KernelInput_ModelSettled (mkModelSettled _ _ (ModelSettlement_Completed completion _)) =>
      Some (cpl_usage completion)
  | KernelInput_ToolBatchSettled (mkToolBatchSettled _ (ToolSettlement_Completed completion)) =>
      Some (cpl_usage completion)
  | KernelInput_ExternalEffectCompleted completed =>
      match xec_outcome (xei_completion completed) with
      | ExternalEffectOutcome_Completed _ usage _ => Some usage
      | ExternalEffectOutcome_Failed _ => None
      end
  | _ => None
  end.

Definition unknown_cost_policy (accepted : RunAccepted) (input : KernelInput) : option UnknownUsagePolicy :=
  maximum ← rl_max_cost (ra_limits accepted);
  usage ← completion_usage input;
  if is_none (u ← usage; us_cost u) then Some (cl_unknown_usage maximum) else None.

(** Inputs and states that [decide_limit] leaves alone. *)
Definition limit_exempt (s : KernelState) (input : KernelInput) : bool :=
  match input with
  | KernelInput_AcceptRun _ | KernelInput_InteractionSettled _ | KernelInput_CancelRequested _ => true
  | _ => false
  end
  || is_some (k_cancellation s) || is_some (k_terminal s) || is_some (k_pending_interaction s)
  || (k_phase s =?? Some RunPhase_AwaitingInteraction) || is_terminal_phase (k_phase s).

(** ** Decisions *)

Section DecideLimit.
Context `{Hasher, Serde}.

Definition control_failure_decision (s : KernelState) (env : TransitionEnv) (code message : string)
    (category : ErrorCategory) : kresult Decision :=
  do? validate_allocated_ids (env_ids env) (IdRequirements_new 1 1 0 0 0 0) in
  let? error := ok_or (error_descriptor_new code message category false) KernelError_InvariantViolation in
  decision_for s env [RecordBody_RunFailed (failure_from_state s error)] [].

(** The working copy of the usage, or the decision that ends the analysis. *)
Inductive Projection : Type :=
| Projected (u : LimitUsage)
| Concluded (d : Decision).

(** [let Some(x) = o else { return Ok(Some(control_failure_decision(..)?)) }]. *)
Definition projected_or (s : KernelState) (env : TransitionEnv) (o : option LimitUsage) (code message : string)
    : kresult Projection :=
  match o with
  | Some u => Ok (Projected u)
  | None =>
      let? d := control_failure_decision s env code message ErrorCategory_Limit in
      Ok (Concluded d)
  end.

Definition bump_model_requests (s : KernelState) (env : TransitionEnv) (u : LimitUsage) : kresult Projection :=
  projected_or s env ((fun n => set_lu_model_requests n u) <$> u64_checked_add (lu_model_requests u) 1)
    "model_requests_overflow" "model-request accounting overflowed".

Definition project_or_fail (s : KernelState) (env : TransitionEnv) (u : LimitUsage) (accepted : RunAccepted)
    (output : RawJson) (completion : option Usage) : kresult Projection :=
  match project_completed_usage u output completion (ra_limits accepted) with
  | Ok u => Ok (Projected u)
  | Err failure =>
      let? d := control_failure_decision s env (upf_code failure) (upf_message failure) ErrorCategory_Limit in
      Ok (Concluded d)
  end.

(** The [StageSettled] arms, at the boundary the run is at. *)
Definition project_stage (s : KernelState) (env : TransitionEnv) (outcome : ReducerStageOutcome)
    (context_canonical : option (Digest * nat)) (u : LimitUsage) : kresult Projection :=
  match outcome with
  | ReducerStageOutcome_ContextPrepared _ =>
      let? p := projected_or s env ((fun n => set_lu_turns n u) <$> u64_checked_add (lu_turns u) 1)
                  "turns_overflow" "turn accounting overflowed" in
      match p with
      | Concluded d => Ok (Concluded d)
      | Projected u =>
          let? canonical := ok_or context_canonical KernelError_InvariantViolation in
          projected_or s env
            ((fun n => set_lu_context_bytes n u) <$> u64_checked_add (lu_context_bytes u) (u64_of_usize canonical.2))
            "context_bytes_overflow" "context-byte accounting overflowed"
      end
  | ReducerStageOutcome_ModelRequestPrepared _ _ _ _ _ => bump_model_requests s env u
  | ReducerStageOutcome_ToolBatchPrepared calls _ =>
      let? p := projected_or s env
                  ((fun n => set_lu_tool_calls n u) <$> u64_checked_add (lu_tool_calls u) (u64_of_usize (length calls)))
                  "tool_calls_overflow" "tool-call accounting overflowed" in
      match p with
      | Concluded d => Ok (Concluded d)
      | Projected u =>
          projected_or s env
            ((fun largest => set_lu_max_parallel_tools (Z.max (lu_max_parallel_tools u) largest) u)
               <$> largest_tool_group calls)
            "parallel_tools_overflow" "parallel-tool accounting overflowed"
      end
  | ReducerStageOutcome_Retry _ =>
      projected_or s env ((fun n => set_lu_retries n u) <$> u32_checked_add (lu_retries u) 1)
        "retries_overflow" "retry accounting overflowed"
  | _ => Ok (Projected u)
  end.

Definition project_input (s : KernelState) (env : TransitionEnv) (input : KernelInput) (accepted : RunAccepted)
    (context_canonical : option (Digest * nat)) (u : LimitUsage) : kresult Projection :=
  match input with
  | KernelInput_StageSettled settled =>
      if stage_boundary s (ss_cursor settled) then project_stage s env (ss_outcome settled) context_canonical u
      else Ok (Projected u)
  | KernelInput_RequestCompactionModel compaction =>
      if compaction_boundary s compaction then bump_model_requests s env u else Ok (Projected u)
  | KernelInput_ModelSettled settled =>
      match ms_outcome settled with
      | ModelSettlement_Completed completion _ =>
          if outstanding_model_settlement s settled
          then project_or_fail s env u accepted (cpl_output completion) (cpl_usage completion)
          else Ok (Projected u)
      | _ => Ok (Projected u)
      end
  | KernelInput_ToolBatchSettled settled =>
      match tbs_outcome settled with
      | ToolSettlement_Completed completion =>
          if outstanding_tool_settlement s settled
          then project_or_fail s env u accepted (cpl_output completion) (cpl_usage completion)
          else Ok (Projected u)
      | _ => Ok (Projected u)
      end
  | KernelInput_ExternalEffectCompleted completed =>
      match xec_outcome (xei_completion completed) with
      | ExternalEffectOutcome_Completed output usage _ =>
          if outstanding_external_completion s completed
          then project_or_fail s env u accepted output usage
          else Ok (Projected u)
      | _ => Ok (Projected u)
      end
  | _ => Ok (Projected u)
  end.

(** What an unknown cost leads to: a decision, or nothing to decide yet. *)
Definition decide_unknown_cost (s : KernelState) (env : TransitionEnv) (accepted : RunAccepted)
    (policy : UnknownUsagePolicy) : kresult (option Decision) :=
  let fail := control_failure_decision s env "unknown_cost_usage" "completion omitted required cost usage"
                ErrorCategory_Limit in
  match policy with
  | UnknownUsagePolicy_FailClosed => let? d := fail in Ok (Some d)
  | UnknownUsagePolicy_SuspendForDecision =>
      do? validate_allocated_ids (env_ids env) (IdRequirements_new 1 1 0 0 0 0) in
      do? reject_if (negb (error_code_is_valid "unknown_cost_usage")) KernelError_InvariantViolation in
      let? d := decision_for s env [RecordBody_RunSuspended (mkRunSuspended "unknown_cost_usage" None)] [] in
      Ok (Some d)
  | UnknownUsagePolicy_AllowWithinReservedMaximum =>
      let? maximum := ok_or (rl_max_cost (ra_limits accepted)) KernelError_InvariantViolation in
      let accrued := match lu_cost (k_limit_usage s) with Some c => ca_micros c | None => 0 end in
      if cl_micros maximum <=? accrued then let? d := fail in Ok (Some d) else Ok None
  end.

(** The elapsed milliseconds between two timestamps, when they fit [u64]. *)
Definition elapsed_ms (later earlier : Timestamp) : option Z :=
  d ← i64_checked_sub later earlier; in_range 0 u64_max d.

(** The ceiling crossed once the usage is known: the deadline first, then the
    configured limits. *)
Definition decide_crossing (s : KernelState) (env : TransitionEnv) (accepted : RunAccepted) (u : LimitUsage)
    : kresult (option Decision) :=
  let conclude (c : option LimitCrossing) :=
    match c with
    | None => Ok None
    | Some c =>
        do? validate_allocated_ids (env_ids env) (IdRequirements_new 2 2 0 0 0 0) in
        let? usage_digest := ok_or (LimitUsage_digest u) KernelError_InvariantViolation in
        let? error := ok_or (error_descriptor_new (lc_code c) "configured run limit reached" (lc_category c) false)
                        KernelError_InvariantViolation in
        let? d := decision_for s env
                    [RecordBody_LimitReached
                       (mkLimitReached (lc_dimension c) (lc_observed c) (lc_maximum c) u usage_digest);
                     RecordBody_RunFailed (failure_from_state s error)] [] in
        Ok (Some d)
    end in
  match k_accepted_at s, ra_effective_deadline accepted with
  | Some accepted_at, Some deadline =>
      if deadline <=? env_now env then
        match elapsed_ms deadline accepted_at with
        | None =>
            let? d := control_failure_decision s env "deadline_overflow" "deadline accounting overflowed"
                        ErrorCategory_Deadline in
            Ok (Some d)
        | Some maximum_ms =>
            let? _ := first_limit_crossing accepted u in
            conclude (Some (mkLimitCrossing LimitDimension_WallTime (LimitValue_Duration (lu_wall_time u))
                              (LimitValue_Duration maximum_ms) "deadline_exceeded" ErrorCategory_Deadline))
        end
      else let? c := first_limit_crossing accepted u in conclude c
  | _, _ => let? c := first_limit_crossing accepted u in conclude c
  end.

Definition decide_limit (s : KernelState) (env : TransitionEnv) (input : KernelInput)
    (context_canonical : option (Digest * nat)) : kresult (option Decision) :=
  match k_accepted s with
  | None => Ok None
  | Some accepted =>
      if limit_exempt s input then Ok None
      else
        let? unknown :=
          match (if settlement_admissible_for_cost s input then unknown_cost_policy accepted input else None) with
          | Some policy => decide_unknown_cost s env accepted policy
          | None => Ok None
          end in
        match unknown with
        | Some d => Ok (Some d)
        | None =>
            let? p :=
              match k_accepted_at s with
              | None => Ok (Projected (k_limit_usage s))
              | Some accepted_at =>
                  projected_or s env
                    ((fun elapsed => set_lu_wall_time elapsed (k_limit_usage s)) <$> elapsed_ms (env_now env) accepted_at)
                    "wall_time_overflow" "wall-time accounting overflowed"
              end in
            match p with
            | Concluded d => Ok (Some d)
            | Projected u =>
                let? p := project_input s env input accepted context_canonical u in
                match p with
                | Concluded d => Ok (Some d)
                | Projected u => decide_crossing s env accepted u
                end
            end
        end
  end.
End DecideLimit.
