(* ===== verification/DecideTools.v ===== *)
(** * Tool batches: deciding how they open, settle and close

    Models [reducer/tool/planning.rs], [reducer/tool/records.rs],
    [reducer/tool/followups.rs], [reducer/tool/decide_open.rs],
    [reducer/tool/decide_settle.rs] and [cancellation_followups] of
    [reducer/tool/cancellation.rs].  Each decision works on a prospective copy of
    the active batch and proposes the records that lead to it. *)

From stdpp Require Import sorting.
From S2P Require Import Prelude Primitives Ids Effects Records State Inputs ToolBatch Digests Policy ApplyStage ApplyTools ApplyEffects ApplyRecord Shapes Apply Decide DecideLimit.

(** ** Planning *)

(** [execution_groups]: neighbours that both run in parallel share a group. *)
Definition groups_step (st : option ToolCallPlan * Z * list Z) (plan : ToolCallPlan)
    : kresult (option ToolCallPlan * Z * list Z) :=
  let '(prior, group, groups) := st in
  let? group :=
    if is_some_and prior (fun p =>
         negb ((plan_execution p =?? ToolExecutionMode_Parallel)
               && (plan_execution plan =?? ToolExecutionMode_Parallel)))
    then ok_or (u32_checked_add group 1) (KernelError_InvalidInputPayload "calls" "too_many_items")
    else Ok group in
  Ok (Some plan, group, groups ++ [group]).

Definition execution_groups (plans : list ToolCallPlan) : kresult (list Z) :=
  let? st := rfold groups_step (None, 0, []) plans in Ok st.2.

Definition executes_in (group : Z) (e : ToolCallPlan * Z) : bool := (e.2 =? group) && is_execute e.1.

Definition first_executable_plan (entries : list (ToolCallPlan * Z)) : option Z :=
  find_map (fun e : ToolCallPlan * Z => if is_execute e.1 then Some e.2 else None) entries.

Definition leading_synthetic (plans : list ToolCallPlan) : nat :=
  length (take_while (fun p => negb (is_execute p)) plans).

Definition opening_id_requirements (plans : list ToolCallPlan) : kresult IdRequirements :=
  let? groups := execution_groups plans in
  let entries := zip plans groups in
  let first_executable_group := first_executable_plan entries in
  let requests := match first_executable_group with
                  | Some group => count (executes_in group) entries | None => 0%nat end in
  let synthetic := leading_synthetic plans in
  let records := (2 + requests + synthetic + (if is_none first_executable_group then 1 else 0))%nat in
  let events := (requests + 2 * synthetic)%nat in
  Ok (with_tools 1 0 (IdRequirements_new records events (length plans) 0 0 synthetic)).

Definition validate_plan (s : KernelState) (u : unit) (e : ToolCallBlock * ToolCallPlan) : kresult unit :=
  let '(source_call, plan) := e in
  let planned := plan_call plan in
  do? reject_if
        ((tc_tool_call_id source_call <>?? tc_tool_call_id planned)
         || (tc_tool_name source_call <>?? tc_tool_name planned)
         || (tc_arguments source_call <>?? tc_arguments planned))
        KernelError_ToolBatchPlanMismatch in
  let? identity := ok_or (k_tool_calls s !! tc_tool_call_id source_call) KernelError_ToolBatchPlanMismatch in
  do? reject_if ((tci_call identity <>?? source_call) || is_some (tci_effect_id identity))
        KernelError_ToolBatchPlanMismatch in
  match plan with
  | ToolCallPlan_Execute c =>
      reject_if (oc_kind (vt_output_contract c) <>?? EffectOutputKind_ToolResult)
        KernelError_ToolEffectContractMismatch
  | ToolCallPlan_SyntheticClosure closure => validate_error_descriptor (sy_error closure)
  end.

Definition validate_plans (s : KernelState) (source : list ToolCallBlock) (plans : list ToolCallPlan)
    : kresult unit :=
  do? reject_if ((length source =? 0)%nat || negb (length source =? length plans)%nat)
        KernelError_ToolBatchPlanMismatch in
  rfold (validate_plan s) tt (zip source plans).

Definition assign_step (env : TransitionEnv) (assigned : list AssignedToolCall) (e : nat * (ToolCallPlan * Z))
    : kresult (list AssignedToolCall) :=
  let '(index, (plan, group)) := e in
  let? source_index := ok_or (in_range 0 u32_max (Z.of_nat index))
                         (KernelError_InvalidInputPayload "calls" "too_many_items") in
  let? effect_id := required (ids_effect_ids (env_ids env)) index "effect_ids" in
  Ok (assigned ++ [mkAssignedToolCall source_index group effect_id plan]).

Definition assign_plans (env : TransitionEnv) (plans : list ToolCallPlan) : kresult (list AssignedToolCall) :=
  let? groups := execution_groups plans in
  rfold (assign_step env) [] (enumerate (zip plans groups)).

Definition ensure_record_batch_bound (count : nat) : kresult unit :=
  reject_if (APPEND_BATCH_MAX_RECORDS <? count)%nat (KernelError_InvalidInputPayload "records" "too_many_items").

(** The distinct groups of the executable plans, ascending: the
    [BTreeSet<u32>] of [validate_record_batch_bounds]. *)
Definition executable_groups (entries : list (ToolCallPlan * Z)) : list Z :=
  dedup (merge_sort Z.le ((fun e : ToolCallPlan * Z => e.2) <$> List.filter (fun e => is_execute e.1) entries)).

Fixpoint position {A} (p : A -> bool) (l : list A) : option nat :=
  match l with
  | [] => None
  | a :: l => if p a then Some 0%nat else S <$> position p l
  end.

(** The batches that settle one group after another, each within the append bound. *)
Fixpoint check_group_bounds (entries : list (ToolCallPlan * Z)) (groups : list Z) : kresult unit :=
  match groups with
  | [] => Ok tt
  | group :: rest =>
      let? start := ok_or (position (executes_in group) entries) KernelError_InvariantViolation in
      let next_group := head rest in
      let end_ := default (length entries) (next ← next_group; position (executes_in next) entries) in
      let next_requests := match next_group with
                           | Some next => count (executes_in next) entries | None => 0%nat end in
      let close := (if is_none next_group then 1 else 0)%nat in
      do? ensure_record_batch_bound (1 + (end_ - start) + next_requests + close)%nat in
      let group_can_fail_run :=
        existsb (fun e => executes_in group e && (plan_failure_policy e.1 =?? ToolFailurePolicy_FailRun)) entries in
      do? (if group_can_fail_run then ensure_record_batch_bound (1 + (length entries - start) + 1)%nat else Ok tt) in
      check_group_bounds entries rest
  end.

Definition validate_record_batch_bounds (plans : list ToolCallPlan) : kresult unit :=
  let? groups := execution_groups plans in
  let entries := zip plans groups in
  let executable := executable_groups entries in
  let opening_requests := match head executable with
                          | Some group => count (executes_in group) entries | None => 0%nat end in
  let opening_close := (if (length executable =? 0)%nat then 1 else 0)%nat in
  do? ensure_record_batch_bound (2 + leading_synthetic plans + opening_requests + opening_close)%nat in
  check_group_bounds entries executable.

(** ** Records of a batch *)

Definition outcome_for_continuation (continuation : ToolBatchContinuation) : ToolBatchOutcome :=
  match continuation with
  | ToolBatchContinuation_ContinueModel => ToolBatchOutcome_ContinueModel
  | ToolBatchContinuation_Finalize => ToolBatchOutcome_Finalize
  end.

Definition first_executable_group (assigned : list AssignedToolCall) : option Z :=
  find_map (fun c => if is_execute (asg_plan c) then Some (asg_group_index c) else None) assigned.

(** [requirements_for_bodies]: what the bodies consume, exactly. *)
Definition requirements_for_bodies (record_bodies : list RecordBody) (messages effects tool_batches : nat)
    : IdRequirements :=
  with_tools tool_batches 0
    (IdRequirements_new (length record_bodies) (sum_list (derived_event_count <$> record_bodies)) effects 0 0 messages).

(** [BufferedToolResult]. *)
Record BufferedToolResult : Type := mkBufferedToolResult {
  btr_result : ToolResultBlock;
  btr_settlement_digest : Digest;
  btr_synthetic : bool;
  btr_error : option ErrorDescriptor
}.

Definition buffered_result (status : ActiveToolCallStatus) : option BufferedToolResult :=
  match status with
  | ActiveToolCallStatus_Buffered res digest synthetic error =>
      Some (mkBufferedToolResult res digest synthetic error)
  | _ => None
  end.

(** [ToolFollowups]. *)
Record ToolFollowups : Type := mkToolFollowups {
  tfu_bodies : list RecordBody;
  tfu_actions : list PostCommitAction;
  tfu_settlements : list EffectId;
  tfu_messages : nat
}.

Definition ToolFollowups_default : ToolFollowups := mkToolFollowups [] [] [] 0.

Definition tool_settled_record (opened : ToolBatchOpened) (assigned : AssignedToolCall) (message_id : MessageId)
    (env : TransitionEnv) (normalized : BufferedToolResult) : kresult ToolCallSettled :=
  let? message := ok_or (Message_try_new message_id MessageRole_Tool
                           [ContentBlock_ToolResult (btr_result normalized)] (env_now env) None ProviderIds_empty
                           METADATA_EMPTY) KernelError_ToolResultMismatch in
  Ok (mkToolCallSettled (tbo_cycle opened) (tbo_turn_id opened) (tbo_tool_batch_id opened)
        (tc_tool_call_id (plan_call (asg_plan assigned))) (asg_effect_id assigned) message
        (btr_settlement_digest normalized) (btr_synthetic normalized) (btr_error normalized)).

Section DecideTools.
Context `{Hasher, Serde}.

(** [append_group_requests]: the requests of a group with their actions. *)
Definition request_step (st : list RecordBody * list PostCommitAction) (c : AssignedToolCall)
    : kresult (list RecordBody * list PostCommitAction) :=
  match asg_plan c with
  | ToolCallPlan_Execute validated =>
      let? requested := ok_or (EffectRequested_try_new (asg_effect_id c) EffectKind_Tool None
                                 (vt_component validated) None (vt_output_contract validated)
                                 (EffectInput_Tool (vt_call validated)) (vt_retry_safety validated)
                                 (vt_deadline validated)) KernelError_ToolEffectContractMismatch in
      Ok (st.1 ++ [RecordBody_EffectRequested requested],
          st.2 ++ [PostCommitAction_ExecuteEffect (asg_effect_id c)])
  | ToolCallPlan_SyntheticClosure _ => Ok st
  end.

Definition append_group_requests (assigned : list AssignedToolCall) (group : Z)
    (st : list RecordBody * list PostCommitAction) : kresult (list RecordBody * list PostCommitAction) :=
  rfold request_step st (List.filter (fun c => asg_group_index c =? group) assigned).

Definition close_record (opened : ToolBatchOpened) (result_message_ids : list MessageId)
    (outcome : ToolBatchOutcome) : kresult ToolBatchClosed :=
  let? close_digest := tool_batch_close_digest (tbo_cycle opened) (tbo_turn_id opened) (tbo_tool_batch_id opened)
                         (tbo_source_message_id opened) result_message_ids outcome in
  Ok (mkToolBatchClosed (tbo_cycle opened) (tbo_turn_id opened) (tbo_tool_batch_id opened)
        (tbo_source_message_id opened) result_message_ids outcome close_digest).

(** ** Follow-ups of a settlement *)

Definition abort_step (error : ErrorDescriptor) (batch : ActiveToolBatch) (index : nat) : kresult ActiveToolBatch :=
  match atb_calls batch !! index with
  | None => Ok batch
  | Some c =>
      let planned := plan_call (asg_plan (atc_assigned c)) in
      let? res := synthetic_result planned error in
      let? digest := synthetic_tool_digest (tbo_tool_batch_id (atb_opened batch)) (tc_tool_call_id planned)
                       (asg_effect_id (atc_assigned c)) res error in
      Ok (set_call_status index (ActiveToolCallStatus_Buffered res digest true (Some error)) batch)
  end.

Definition abort_undispatched_calls (batch : ActiveToolBatch) : kresult ActiveToolBatch :=
  let? abort_error := aborted_error in
  rfold (abort_step abort_error) batch
    (omap (fun e : nat * ActiveToolCall => if is_undispatched (atc_status e.2) then Some e.1 else None)
       (enumerate (atb_calls batch))).

(** The loop state of [finalize_buffered_prefix]. *)
Record FinalizeLoop : Type := mkFinalizeLoop {
  fl_batch : ActiveToolBatch;
  fl_bodies : list RecordBody;
  fl_finalized : list EffectId;
  fl_result_ids : list MessageId;
  fl_messages : nat
}.

(** The loop over the calls from the next unsettled one; it stops at the first
    call that is not buffered. *)
Fixpoint finalize_from (env : TransitionEnv) (indexes : list nat) (st : FinalizeLoop) : kresult FinalizeLoop :=
  match indexes with
  | [] => Ok st
  | index :: rest =>
      match atb_calls (fl_batch st) !! index with
      | None => Ok st
      | Some c =>
          match buffered_result (atc_status c) with
          | None => Ok st
          | Some normalized =>
              let? message_id := required (ids_message_ids (env_ids env)) (fl_messages st) "message_ids" in
              let? settled := tool_settled_record (atb_opened (fl_batch st)) (atc_assigned c) message_id env normalized in
              let batch := set_call_status index
                             (ActiveToolCallStatus_Settled message_id (btr_settlement_digest normalized)) (fl_batch st) in
              let? next := ok_or (u32_checked_add (atb_next_source_index batch) 1) KernelError_InvariantViolation in
              finalize_from env rest
                (mkFinalizeLoop (set_atb_next_source_index next batch)
                   (fl_bodies st ++ [RecordBody_ToolCallSettled settled])
                   (fl_finalized st ++ [asg_effect_id (atc_assigned c)])
                   (fl_result_ids st ++ [message_id]) (S (fl_messages st)))
          end
      end
  end.

(** The indexes [start..batch.calls.len()]. *)
Definition indexes_from (batch : ActiveToolBatch) : list nat :=
  let start := Z.to_nat (atb_next_source_index batch) in seq start (length (atb_calls batch) - start).

Definition finalize_buffered_prefix (batch : ActiveToolBatch) (env : TransitionEnv) : kresult FinalizeLoop :=
  let? st := finalize_from env (indexes_from batch) (mkFinalizeLoop batch [] [] (atb_result_message_ids batch) 0) in
  Ok (mkFinalizeLoop (set_atb_result_message_ids (fl_result_ids st) (fl_batch st)) (fl_bodies st) (fl_finalized st)
        (fl_result_ids st) (fl_messages st)).

Definition followup_records (batch : ActiveToolBatch) (env : TransitionEnv) : kresult ToolFollowups :=
  let current_group_complete := group_is_terminal batch (atb_current_group batch) in
  let? batch := if is_some (atb_fatal_error batch) && current_group_complete
                then abort_undispatched_calls batch else Ok batch in
  let? st := finalize_buffered_prefix batch env in
  let batch := fl_batch st in
  let? requested :=
    if is_none (atb_fatal_error batch) && current_group_complete then
      match next_executable_group batch with
      | Some group =>
          let? r := append_group_requests (tbo_calls (atb_opened batch)) group (fl_bodies st, []) in
          Ok (r, set_current_group group batch)
      | None => Ok ((fl_bodies st, []), batch)
      end
    else Ok ((fl_bodies st, []), batch) in
  let batch := requested.2 in
  let record_bodies := requested.1.1 in
  let? record_bodies :=
    if all_settled batch then
      let outcome := match atb_fatal_error batch with
                     | Some error => ToolBatchOutcome_Failed error
                     | None => outcome_for_continuation (tbo_continuation (atb_opened batch)) end in
      let? closed := close_record (atb_opened batch) (atb_result_message_ids batch) outcome in
      Ok (record_bodies ++ [RecordBody_ToolBatchClosed closed])
    else Ok record_bodies in
  Ok (mkToolFollowups record_bodies requested.1.2 (fl_finalized st) (fl_messages st)).

(** ** Follow-ups of a cancellation *)

(** One call of the first loop of [cancellation_followups]: its new status and
    the cancellation record it needs. *)
Definition cancel_call (newly_completed newly_cancelled : list EffectId) (batch_id : ToolBatchId)
    (error : ErrorDescriptor) (st : list ActiveToolCall * list RecordBody) (c : ActiveToolCall)
    : kresult (list ActiveToolCall * list RecordBody) :=
  let effect_id := asg_effect_id (atc_assigned c) in
  let classified_cancelled := sorted_contains newly_cancelled effect_id in
  let classified_completed := sorted_contains newly_completed effect_id in
  if negb (classified_cancelled || classified_completed || is_undispatched (atc_status c))
  then Ok (st.1 ++ [c], st.2)
  else
    let? cancelled :=
      match classified_cancelled, atc_status c with
      | true, ActiveToolCallStatus_Requested requested _ =>
          let? record := ok_or (EffectCancelled_try_new effect_id (req_output_contract requested)
                                  (Some "cancelled") None) KernelError_InvariantViolation in
          Ok [RecordBody_EffectCancelled record]
      | _, _ => Ok []
      end in
    let? status :=
      if is_requested (atc_status c) || is_undispatched (atc_status c)
      then buffer_cancellation_result c batch_id error else Ok (atc_status c) in
    Ok (st.1 ++ [mkActiveToolCall (atc_assigned c) status], st.2 ++ cancelled).

(** The second loop: the contiguous buffered prefix becomes result records. *)
Fixpoint settle_prefix (env : TransitionEnv) (opened : ToolBatchOpened) (calls : list ActiveToolCall)
    (st : list RecordBody * list MessageId * list EffectId * nat)
    : kresult (list RecordBody * list MessageId * list EffectId * nat) :=
  match calls with
  | [] => Ok st
  | c :: rest =>
      match buffered_result (atc_status c) with
      | None => Ok st
      | Some normalized =>
          let '(record_bodies, result_ids, settlements, message_count) := st in
          let? message_id := required (ids_message_ids (env_ids env)) message_count "message_ids" in
          let? settled := tool_settled_record opened (atc_assigned c) message_id env normalized in
          settle_prefix env opened rest
            (record_bodies ++ [RecordBody_ToolCallSettled settled], result_ids ++ [message_id],
             settlements ++ [asg_effect_id (atc_assigned c)], S message_count)
      end
  end.

Definition cancellation_followups (s : KernelState) (env : TransitionEnv)
    (newly_completed newly_cancelled : list EffectId) : kresult ToolFollowups :=
  match k_active_tool_batch s with
  | None => Ok ToolFollowups_default
  | Some batch =>
      let? error := cancelled_error in
      let opened := atb_opened batch in
      let? p := rfold (cancel_call newly_completed newly_cancelled (tbo_tool_batch_id opened) error) ([], [])
                  (atb_calls batch) in
      let? st := settle_prefix env opened (drop (Z.to_nat (atb_next_source_index batch)) p.1)
                   (p.2, atb_result_message_ids batch, [], 0%nat) in
      let '(record_bodies, result_ids, settlements, message_count) := st in
      let? record_bodies :=
        if (length result_ids =? length (atb_calls batch))%nat then
          let? closed := close_record opened result_ids (outcome_for_continuation (tbo_continuation opened)) in
          Ok (record_bodies ++ [RecordBody_ToolBatchClosed closed])
        else Ok record_bodies in
      do? ensure_record_batch_bound (length record_bodies) in
      Ok (mkToolFollowups record_bodies [] settlements message_count)
  end.

(** ** Opening a batch *)

(** The leading synthetic closures of a plan, settled as the batch opens. *)
Fixpoint settle_synthetic (env : TransitionEnv) (opened : ToolBatchOpened) (assigned : list AssignedToolCall)
    (st : list RecordBody * list MessageId * list EffectId)
    : kresult (list RecordBody * list MessageId * list EffectId) :=
  match assigned with
  | [] => Ok st
  | c :: rest =>
      match asg_plan c with
      | ToolCallPlan_Execute _ => Ok st
      | ToolCallPlan_SyntheticClosure closure =>
          let '(record_bodies, result_ids, effects) := st in
          let? res := synthetic_result (sy_call closure) (sy_error closure) in
          let? digest := synthetic_tool_digest (tbo_tool_batch_id opened) (tc_tool_call_id (sy_call closure))
                           (asg_effect_id c) res (sy_error closure) in
          let? message_id := required (ids_message_ids (env_ids env)) (length result_ids) "message_ids" in
          let? settled := tool_settled_record opened c message_id env
                            (mkBufferedToolResult res digest true (Some (sy_error closure))) in
          settle_synthetic env opened rest
            (record_bodies ++ [RecordBody_ToolCallSettled settled], result_ids ++ [message_id],
             effects ++ [asg_effect_id c])
      end
  end.

Definition decide_batch_prepared (s : KernelState) (env : TransitionEnv) (input : StageSettled)
    (settlement_digest : Digest) : kresult Decision :=
  match ss_outcome input with
  | ReducerStageOutcome_ToolBatchPrepared calls continuation =>
      do? reject_if (k_phase s <>?? Some RunPhase_BeforeToolBatch) (invalid_phase s "stage_settled") in
      let? turn := ok_or (k_current_turn s) (invalid_phase s "stage_settled") in
      let? source_message := ok_or (last (k_messages s)) (invalid_phase s "stage_settled") in
      let source_calls := assistant_tool_calls source_message true in
      do? validate_plans s source_calls calls in
      do? validate_record_batch_bounds calls in
      let synthetic_prefix := leading_synthetic calls in
      do? preflight_decision s
            (mkStateGrowth synthetic_prefix (Some (ss_cursor input)) None None None None [] [] synthetic_prefix
               None None None None) in
      let? requirements := opening_id_requirements calls in
      do? validate_allocated_ids (env_ids env) requirements in
      let? tool_batch_id := required (ids_tool_batch_ids (env_ids env)) 0 "tool_batch_ids" in
      let? assigned := assign_plans env calls in
      let? plan_digest := tool_batch_plan_digest (k_cycle s) (ct_turn_id turn) tool_batch_id
                            (msg_id source_message) assigned continuation in
      let opened := mkToolBatchOpened (k_cycle s) (ct_turn_id turn) tool_batch_id (msg_id source_message) assigned
                      continuation plan_digest in
      let opening := [stage_record (ss_cursor input) (StageDisposition_ToolBatchPrepared tool_batch_id plan_digest)
                        settlement_digest;
                      RecordBody_ToolBatchOpened opened] in
      let? requested := match first_executable_group assigned with
                        | Some group => append_group_requests assigned group (opening, [])
                        | None => Ok (opening, [])
                        end in
      let? st := settle_synthetic env opened assigned (requested.1, [], []) in
      let '(record_bodies, result_ids, synthetic_effects) := st in
      let? record_bodies :=
        if (length result_ids =? length assigned)%nat then
          let? closed := close_record opened result_ids (outcome_for_continuation continuation) in
          Ok (record_bodies ++ [RecordBody_ToolBatchClosed closed])
        else Ok record_bodies in
      do? ensure_record_batch_bound (length record_bodies) in
      do? preflight_decision s
            (mkStateGrowth (length result_ids) (Some (ss_cursor input)) None None None None [] synthetic_effects 0
               None None None None) in
      do? validate_allocated_ids (env_ids env)
            (requirements_for_bodies record_bodies (length result_ids) (length assigned) 1) in
      decision_for s env record_bodies requested.2
  | _ => Err KernelError_InvariantViolation
  end.

(** ** Settling a call *)

(** The outcome arms of [settle_normalized_tool]: the prospective batch and the
    settlement record; a deferral is [inr]. *)
Definition settle_outcome (batch : ActiveToolBatch) (call_index : nat) (active_call : ActiveToolCall)
    (requested : EffectRequested) (outcome : ToolSettlement) (settlement_digest : Digest) (external : bool)
    : kresult ((ActiveToolBatch * RecordBody) + RecordBody) :=
  match outcome with
  | ToolSettlement_Completed completion =>
      do? reject_if (negb (validate_settlement requested (cpl_effect_id completion) (cpl_output_contract completion)))
            KernelError_ToolSettlementMismatch in
      do? reject_if ((oc_kind (cpl_output_contract completion) <>?? EffectOutputKind_ToolResult)
                     || (cpl_provider_ids completion <>?? ProviderIds_empty)
                     || is_some (cpl_reservation_id completion)) KernelError_ToolEffectContractMismatch in
      let? res := decode_tool_result completion (plan_call (asg_plan (atc_assigned active_call))) in
      Ok (inl (set_call_status call_index (ActiveToolCallStatus_Buffered res settlement_digest false None) batch,
               RecordBody_EffectCompleted completion))
  | ToolSettlement_Failed failure =>
      do? reject_if (negb (validate_settlement requested (fld_effect_id failure) (fld_output_contract failure)))
            KernelError_ToolSettlementMismatch in
      let error := fld_error failure in
      let? res := synthetic_result (plan_call (asg_plan (atc_assigned active_call))) error in
      let prospective :=
        set_call_status call_index (ActiveToolCallStatus_Buffered res settlement_digest true (Some error)) batch in
      let prospective :=
        if (plan_failure_policy (asg_plan (atc_assigned active_call)) =?? ToolFailurePolicy_FailRun)
           && is_none (atb_fatal_error prospective)
        then set_atb_fatal_error (Some error) prospective else prospective in
      Ok (inl (prospective, RecordBody_EffectFailed failure))
  | ToolSettlement_Deferred value =>
      do? reject_if (negb (validate_settlement requested (def_effect_id value) (def_output_contract value)))
            KernelError_ToolSettlementMismatch in
      do? reject_if external KernelError_ToolSettlementMismatch in
      Ok (inr (RecordBody_EffectDeferred value))
  end.

Definition settle_normalized_tool (s : KernelState) (env : TransitionEnv) (tool_batch_id : ToolBatchId)
    (outcome : ToolSettlement) (settlement_digest : Digest) (external : bool) : kresult Decision :=
  let effect_id := ToolSettlement_effect_id outcome in
  do? reject_terminal s in
  let valid_phase := (k_phase s =?? Some RunPhase_AwaitingExternal)
                     || (negb external && (k_phase s =?? Some RunPhase_AwaitingTools)) in
  do? reject_if (negb valid_phase)
        (invalid_phase s (if external then "external_effect_completed" else "tool_batch_settled")) in
  let? batch := ok_or (k_active_tool_batch s) KernelError_ToolSettlementMismatch in
  do? reject_if (tbo_tool_batch_id (atb_opened batch) <>?? tool_batch_id) KernelError_ToolSettlementMismatch in
  let? call_index := ok_or (call_index batch effect_id) KernelError_ToolSettlementMismatch in
  let? active_call := ok_or (atb_calls batch !! call_index) KernelError_ToolSettlementMismatch in
  match atc_status active_call with
  | ActiveToolCallStatus_Requested requested deferred =>
      do? reject_if (negb (Bool.eqb external (is_some deferred))) KernelError_ToolSettlementMismatch in
      do? reject_if ((req_kind requested <>?? EffectKind_Tool)
                     || (oc_kind (req_output_contract requested) <>?? EffectOutputKind_ToolResult))
            KernelError_ToolEffectContractMismatch in
      let? settled := settle_outcome batch call_index active_call requested outcome settlement_digest external in
      match settled with
      | inr deferral =>
          do? validate_allocated_ids (env_ids env) (requirements_for_bodies [deferral] 0 0 0) in
          decision_for s env [deferral] []
      | inl (prospective, record) =>
          let? followups := followup_records prospective env in
          let record_bodies := record :: tfu_bodies followups in
          do? ensure_record_batch_bound (length record_bodies) in
          do? preflight_decision s
                (mkStateGrowth (tfu_messages followups) None None None (ToolSettlement_completion_id outcome) None []
                   (tfu_settlements followups ++ [effect_id]) 0 None None None None) in
          do? validate_allocated_ids (env_ids env)
                (requirements_for_bodies record_bodies (tfu_messages followups) 0 0) in
          decision_for s env record_bodies (tfu_actions followups)
      end
  | _ => Err KernelError_ToolSettlementMismatch
  end.

Definition decide_tool_settled (s : KernelState) (env : TransitionEnv) (input : ToolBatchSettled)
    (digest : Digest) : kresult Decision :=
  do? match tbs_outcome input with
      | ToolSettlement_Failed failure => validate_error_descriptor (fld_error failure)
      | _ => Ok tt
      end in
  settle_normalized_tool s env (tbs_tool_batch_id input) (tbs_outcome input) digest false.

Definition decide_external_tool (s : KernelState) (env : TransitionEnv) (input : ExternalEffectCompletedInput)
    (digest : Digest) : kresult Decision :=
  let completion := xei_completion input in
  let not_pending := KernelError_EffectNotPending (xec_effect_id completion) in
  let? tool_batch_id := ok_or (tool_batch_id_for_effect s (xec_effect_id completion)) not_pending in
  do? reject_if (is_some (xei_assistant_message input)) KernelError_AssistantMessagePresenceMismatch in
  let? batch := ok_or (k_active_tool_batch s) not_pending in
  let? active := ok_or (call batch (xec_effect_id completion)) not_pending in
  match atc_status active with
  | ActiveToolCallStatus_Requested requested (Some _) =>
      let? outcome :=
        match xec_outcome completion with
        | ExternalEffectOutcome_Completed output usage artifacts =>
            let? c := ok_or (EffectCompleted_try_new (req_effect_id requested) (req_output_contract requested) output
                               usage artifacts ProviderIds_empty (Some (xec_completion_id completion)) None)
                        KernelError_ToolSettlementMismatch in
            Ok (ToolSettlement_Completed c)
        | ExternalEffectOutcome_Failed error =>
            let? f := ok_or (EffectFailed_try_new (req_effect_id requested) (req_output_contract requested) error None
                               (Some (xec_completion_id completion))) KernelError_ToolSettlementMismatch in
            Ok (ToolSettlement_Failed f)
        end in
      settle_normalized_tool s env tool_batch_id outcome digest true
  | _ => Err not_pending
  end.
End DecideTools.
