(* ===== verification/DecideStage.v ===== *)
(** * Acceptance and stage settlements

    Models [reducer/decide/stage.rs] and [reducer/decide/bodies.rs]: accepting a
    run, and turning the outcome of a stage into the records that move the run to
    its next boundary. *)

From S2P Require Import Prelude Primitives Ids Time Effects Records State Inputs ToolBatch Digests Policy ApplyStage ApplyTools ApplyEffects ApplyRecord Shapes Apply Decide DecideTools.

Definition is_completed_candidate (c : option TerminalCandidate) : bool :=
  match c with Some (TerminalCandidate_Completed _ _ _ _ _ _) => true | _ => false end.

(** Bodies and the action that follows their commit. *)
Notation Proposal := (list RecordBody * option PostCommitAction)%type (only parsing).

Section DecideStage.
Context `{Hasher, Serde}.

Definition decide_accept (s : KernelState) (env : TransitionEnv) (input : AcceptRun) : kresult Decision :=
  let accepted := ar_accepted input in
  do? reject_terminal s in
  do? reject_if (is_some (k_phase s) || is_some (k_accepted s)) (invalid_phase s "accept_run") in
  do? reject_if ((ra_run_id accepted <>?? rr_root_run_id (ra_relation accepted))
                 && is_none (rr_parent_run_id (ra_relation accepted))) KernelError_InvalidRunAcceptance in
  do? validate_allocated_ids (env_ids env) (IdRequirements_new 1 1 0 0 0 0) in
  let? record_id := required (ids_record_ids (env_ids env)) 0 "record_ids" in
  let? event_id := required (ids_event_ids (env_ids env)) 0 "event_ids" in
  let? record := ok_or (RecordDraft_try_new RECORD_FORMAT_VERSION RECORD_KIND_VERSION record_id
                          (ar_session_id input) (ar_lane_id input) (Some (ra_run_id accepted)) (env_now env)
                          [event_id] (RecordBody_RunAccepted accepted)) KernelError_InvalidRunAcceptance in
  let? expected_sequence := next_sequence s in
  Ok (mkDecision expected_sequence [record] [] []).

(** ** Proposed bodies *)

Definition prepared_context_bodies (env : TransitionEnv) (cursor : StageCursor) (messages : list Message)
    (settlement_digest context_digest : Digest) : kresult Proposal :=
  let? turn_id := required (ids_turn_ids (env_ids env)) 0 "turn_ids" in
  Ok ([stage_record cursor (StageDisposition_ContextPrepared turn_id context_digest) settlement_digest;
       RecordBody_ContextPrepared (mkContextPrepared (sc_cycle cursor) turn_id messages context_digest)], None).

Definition requested_model_bodies (env : TransitionEnv) (cursor : StageCursor) (settlement_digest : Digest)
    (turn_id : TurnId) (requested : EffectRequested) : kresult Proposal :=
  let? model_request_id := required (ids_model_request_ids (env_ids env)) 0 "model_request_ids" in
  let effect_id := req_effect_id requested in
  Ok ([stage_record cursor (StageDisposition_ModelRequested turn_id model_request_id effect_id) settlement_digest;
       RecordBody_EffectRequested requested], Some (PostCommitAction_ExecuteEffect effect_id)).

Definition accepted_finalize_bodies (s : KernelState) (cursor : StageCursor) (settlement_digest : Digest)
    : kresult Proposal :=
  let? terminal := terminal_body_from_candidate s in
  Ok ([stage_record cursor StageDisposition_FinalizeAccepted settlement_digest; terminal], None).

Definition continued_model_bodies (s : KernelState) (cursor : StageCursor) (settlement_digest : Digest)
    : kresult Proposal :=
  let? next_cycle := ok_or (u64_checked_add (k_cycle s) 1) KernelError_CycleOverflow in
  Ok ([stage_record cursor (StageDisposition_ContinueModel next_cycle) settlement_digest], None).

Definition failed_stage_bodies (s : KernelState) (cursor : StageCursor) (settlement_digest : Digest)
    (error : ErrorDescriptor) : Proposal :=
  (stage_record cursor (StageDisposition_Failed error) settlement_digest
     :: (if sc_stage cursor =?? Stage_BeforeFinalize
         then [RecordBody_RunFailed (failure_from_state s error)] else []), None).

Definition retry_prior_error (s : KernelState) (directive : RetryDirective) : kresult ErrorDescriptor :=
  match k_terminal_candidate s with
  | Some (TerminalCandidate_Failed _ _ _ _ error) =>
      if ed_retryable error then Ok error else Err (invalid_phase s "stage_settled")
  | Some (TerminalCandidate_Completed _ _ _ _ _ _) =>
      if rd_classification directive =?? RetryClassification_Framework
      then ok_or (error_descriptor_new "candidate_rejected"
                    "a before-finalize verifier rejected the completed candidate"
                    ErrorCategory_Validation true) KernelError_InvariantViolation
      else Err (invalid_phase s "stage_settled")
  | None => Err (invalid_phase s "stage_settled")
  end.

Definition retry_bodies (s : KernelState) (env : TransitionEnv) (cursor : StageCursor) (settlement_digest : Digest)
    (directive : RetryDirective) : kresult Proposal :=
  let validation := rd_classification directive =?? RetryClassification_Validation in
  do? reject_if (validation && is_none (k_validation_failure s)) (invalid_phase s "stage_settled") in
  do? reject_if (is_some (k_validation_failure s) && negb validation) (invalid_phase s "stage_settled") in
  let? prior_error := retry_prior_error s directive in
  let? attempt := ok_or (u32_checked_add (rst_attempts (k_retry s)) 1)
                    (KernelError_InvalidInputPayload "retry.attempt" "overflow") in
  let? due_at := ok_or (Timestamp_checked_add (env_now env) (rd_backoff directive))
                   (KernelError_InvalidInputPayload "retry.backoff" "overflow") in
  let? timer_effect_id := required (ids_effect_ids (env_ids env)) 0 "effect_ids" in
  let? retry := ok_or (RetryScheduled_try_new (k_cycle s) attempt (rd_classification directive)
                         (rd_policy_version directive) timer_effect_id due_at prior_error)
                  (KernelError_InvalidInputPayload "retry" "invalid") in
  let? requested := ok_or (EffectRequested_try_new timer_effect_id EffectKind_Timer None None None
                             timer_firing_contract (EffectInput_Timer due_at) RetrySafety_IdempotentWithKey
                             (Some due_at)) KernelError_InvariantViolation in
  Ok ([stage_record cursor (StageDisposition_RetryScheduled attempt timer_effect_id due_at) settlement_digest;
       RecordBody_RetryScheduled retry; RecordBody_EffectRequested requested],
      Some (PostCommitAction_ExecuteEffect timer_effect_id)).

(** ** Stage settlements *)

Definition validate_stage_input (input : StageSettled) : kresult unit :=
  match ss_outcome input with
  | ReducerStageOutcome_ContextPrepared messages =>
      reject_if (SEMANTIC_ARRAY_MAX_ITEMS <? length messages)%nat
        (KernelError_InvalidInputPayload "messages" "too_many_items")
  | ReducerStageOutcome_ContinueModel (Some reason) =>
      reject_if (negb (text_is_valid reason)) (KernelError_InvalidInputPayload "reason" "invalid_text")
  | ReducerStageOutcome_Fail error => validate_error_descriptor error
  | _ => Ok tt
  end.

(** The stages a plain [Continue] settles. *)
Definition continues (stage : Stage) : bool :=
  match stage with Stage_BeforeRun | Stage_AfterModel | Stage_AfterToolBatch => true | _ => false end.

Definition stage_id_requirements (s : KernelState) (input : StageSettled) : kresult IdRequirements :=
  let stage := sc_stage (ss_cursor input) in
  let invalid := invalid_phase s "stage_settled" in
  match ss_outcome input with
  | ReducerStageOutcome_Continue =>
      if continues stage then
        do? reject_if ((stage =?? Stage_AfterModel) && wants_json_schema s && is_none (k_final_result s)
                       && is_none (k_validation_failure s)) invalid in
        Ok (IdRequirements_new 1 0 0 0 0 0)
      else Err invalid
  | ReducerStageOutcome_ContextPrepared _ =>
      if stage =?? Stage_PrepareContext then Ok (IdRequirements_new 2 0 0 1 0 0) else Err invalid
  | ReducerStageOutcome_ModelRequestPrepared _ _ output_contract _ _ =>
      if stage =?? Stage_BeforeModel then
        do? reject_if (oc_kind output_contract <>?? EffectOutputKind_ModelResponse)
              KernelError_ModelRequestContractMismatch in
        Ok (IdRequirements_new 2 1 1 0 1 0)
      else Err invalid
  | ReducerStageOutcome_FinalizeAccepted =>
      if stage =?? Stage_BeforeFinalize then
        let? _ := terminal_body_from_candidate s in
        Ok (IdRequirements_new 2 1 0 0 0 0)
      else Err invalid
  | ReducerStageOutcome_ContinueModel _ =>
      if (stage =?? Stage_BeforeFinalize) && is_completed_candidate (k_terminal_candidate s) then
        let? _ := ok_or (u64_checked_add (k_cycle s) 1) KernelError_CycleOverflow in
        Ok (IdRequirements_new 1 0 0 0 0 0)
      else Err invalid
  | ReducerStageOutcome_Fail _ =>
      if stage =?? Stage_BeforeFinalize then Ok (IdRequirements_new 2 1 0 0 0 0)
      else Ok (IdRequirements_new 1 0 0 0 0 0)
  | ReducerStageOutcome_Retry _ =>
      if stage =?? Stage_BeforeFinalize then Ok (IdRequirements_new 3 1 1 0 0 0) else Err invalid
  | ReducerStageOutcome_ToolBatchPrepared _ _ => Err invalid
  end.

Definition stage_bodies (s : KernelState) (env : TransitionEnv) (input : StageSettled) (settlement_digest : Digest)
    (context_canonical : option (Digest * nat)) : kresult Proposal :=
  let cursor := ss_cursor input in
  let stage := sc_stage cursor in
  let invalid := invalid_phase s "stage_settled" in
  match ss_outcome input with
  | ReducerStageOutcome_Continue =>
      if continues stage then Ok ([stage_record cursor StageDisposition_Continued settlement_digest], None)
      else Err invalid
  | ReducerStageOutcome_ContextPrepared messages =>
      if stage =?? Stage_PrepareContext then
        let? canonical := ok_or context_canonical KernelError_InvariantViolation in
        prepared_context_bodies env cursor messages settlement_digest canonical.1
      else Err invalid
  | ReducerStageOutcome_ModelRequestPrepared request component output_contract retry_safety deadline =>
      if stage =?? Stage_BeforeModel then
        let? turn_id := ok_or (ct_turn_id <$> k_current_turn s) invalid in
        let? effect_id := required (ids_effect_ids (env_ids env)) 0 "effect_ids" in
        let? requested := ok_or (EffectRequested_try_new effect_id EffectKind_Model None component None
                                   output_contract (EffectInput_Model request) retry_safety deadline)
                            KernelError_ModelRequestContractMismatch in
        requested_model_bodies env cursor settlement_digest turn_id requested
      else Err invalid
  | ReducerStageOutcome_FinalizeAccepted =>
      if stage =?? Stage_BeforeFinalize then accepted_finalize_bodies s cursor settlement_digest else Err invalid
  | ReducerStageOutcome_ContinueModel _ =>
      if (stage =?? Stage_BeforeFinalize) && is_completed_candidate (k_terminal_candidate s)
      then continued_model_bodies s cursor settlement_digest else Err invalid
  | ReducerStageOutcome_Fail error => Ok (failed_stage_bodies s cursor settlement_digest error)
  | ReducerStageOutcome_Retry directive =>
      if stage =?? Stage_BeforeFinalize then retry_bodies s env cursor settlement_digest directive else Err invalid
  | ReducerStageOutcome_ToolBatchPrepared _ _ => Err invalid
  end.

Definition stage_growth (cursor : StageCursor) : StateGrowth :=
  mkStateGrowth 0 (Some cursor) None None None None [] [] 0 None None None None.

Definition option_to_list {A} (o : option A) : list A := match o with Some a => [a] | None => [] end.

Definition decide_stage (s : KernelState) (env : TransitionEnv) (input : StageSettled)
    (context_canonical : option (Digest * nat)) (settlement_digest : Digest) : kresult Decision :=
  do? validate_stage_input input in
  do? reject_terminal s in
  do? reject_if (is_some (k_pending_extension_effect s)) (invalid_phase s "stage_settled") in
  let? expected := ok_or (expected_stage_cursor s) (invalid_phase s "stage_settled") in
  do? reject_if (ss_cursor input <>?? expected) (KernelError_StageCursorMismatch expected (ss_cursor input)) in
  match ss_outcome input with
  | ReducerStageOutcome_ToolBatchPrepared _ _ => decide_batch_prepared s env input settlement_digest
  | _ =>
      let? requirements := stage_id_requirements s input in
      do? preflight_decision s (stage_growth (ss_cursor input)) in
      do? validate_allocated_ids (env_ids env) requirements in
      let? proposal := stage_bodies s env input settlement_digest context_canonical in
      decision_for s env proposal.1 (option_to_list proposal.2)
  end.
End DecideStage.
