(* ===== verification/DecideSettle.v ===== *)
(** * Model settlements, nested model requests and structured output

    Models [reducer/decide/model.rs] and [reducer/decide/output.rs]. *)

From S2P Require Import Prelude Primitives Ids Effects Records State Inputs ToolBatch Digests Policy ApplyStage ApplyTools ApplyEffects ApplyRecord Shapes Apply Decide DecideLimit DecideTools.

Section DecideSettle.
Context `{Hasher, Serde}.

(** ** Runtime-owned model requests *)

Definition purpose_input_name (purpose : EffectPurpose) : string :=
  match purpose with
  | EffectPurpose_CompactionSummary _ => "request_compaction_model"
  | EffectPurpose_NestedModel _ => "request_nested_model"
  end.

(** A nested request belongs to a tool call that is in flight. *)
Definition parent_open (s : KernelState) (parent : EffectId) : bool :=
  is_some_and (k_active_tool_batch s) (fun batch =>
    existsb (fun c => match atc_status c with
                      | ActiveToolCallStatus_Requested requested _ => req_effect_id requested =?? parent
                      | _ => false
                      end) (atb_calls batch)).

Definition decide_request_compaction_model (s : KernelState) (env : TransitionEnv) (input : RequestCompactionModel)
    : kresult Decision :=
  let purpose := er_purpose (rcm_relation input) in
  let invalid := invalid_phase s (purpose_input_name purpose) in
  do? reject_terminal s in
  do? match purpose with
      | EffectPurpose_CompactionSummary _ =>
          do? reject_if ((k_phase s <>?? Some RunPhase_BeforeModel) || is_some (k_pending_model_effect s)) invalid in
          let? _ := ok_or (expected_stage_cursor s) invalid in
          Ok tt
      | EffectPurpose_NestedModel NestedModelKind_McpSampling =>
          do? reject_if ((k_phase s <>?? Some RunPhase_AwaitingTools) || is_some (k_pending_model_effect s)) invalid in
          reject_if (negb (parent_open s (er_parent_effect_id (rcm_relation input))))
            KernelError_ModelRequestContractMismatch
      end in
  do? reject_if (is_none (k_current_turn s)) invalid in
  do? reject_if (oc_kind (rcm_output_contract input) <>?? EffectOutputKind_ModelResponse)
        KernelError_ModelRequestContractMismatch in
  do? validate_allocated_ids (env_ids env) (IdRequirements_new 1 1 1 0 0 0) in
  let? effect_id := required (ids_effect_ids (env_ids env)) 0 "effect_ids" in
  let? requested := ok_or (EffectRequested_try_new effect_id EffectKind_Model (Some (rcm_relation input))
                             (rcm_component input) None (rcm_output_contract input)
                             (EffectInput_Model (rcm_request input)) (rcm_retry_safety input) (rcm_deadline input))
                      KernelError_ModelRequestContractMismatch in
  decision_for s env [RecordBody_EffectRequested requested] [].

(** ** Model settlements *)

(** Growth of a settlement of the model effect. *)
Definition model_growth (messages : nat) (effect_id : EffectId) (completion : option string)
    (tool_calls : list ToolCallId) : StateGrowth :=
  mkStateGrowth messages None (Some effect_id) None completion None tool_calls [] 0 None None None None.

Definition compaction_summary_completion_bodies (s : KernelState) (completion : EffectCompleted)
    (effect_id : EffectId) : kresult (IdRequirements * list RecordBody) :=
  do? preflight_decision s (model_growth 0 effect_id (cpl_completion_id completion) []) in
  Ok (IdRequirements_new 1 1 0 0 0 0, [RecordBody_EffectCompleted completion]).

Definition assistant_completion_bodies (s : KernelState) (env : TransitionEnv) (pending : PendingModelEffect)
    (completion : EffectCompleted) (assistant_message : Message) (effect_id : EffectId)
    : kresult (IdRequirements * list RecordBody) :=
  do? validate_assistant_semantics s env assistant_message completion in
  let tool_call_ids := tc_tool_call_id <$> assistant_tool_calls assistant_message false in
  do? preflight_decision s (model_growth 1 effect_id (cpl_completion_id completion) tool_call_ids) in
  let requirements := with_tools 0 (length tool_call_ids) (IdRequirements_new 2 2 0 0 0 1) in
  do? validate_allocated_ids (env_ids env) requirements in
  let? message_id := required (ids_message_ids (env_ids env)) 0 "message_ids" in
  do? reject_if (msg_id assistant_message <>?? message_id) KernelError_AssistantMessageMismatch in
  do? validate_assistant_tool_call_ids (ids_tool_call_ids (env_ids env)) assistant_message in
  let parent_message_id := msg_id <$> last (k_messages s) in
  Ok (requirements,
      [RecordBody_EffectCompleted completion;
       RecordBody_EntryAppended (mkEntryAppended (pme_cycle pending) (pme_turn_id pending)
                                   (pme_model_request_id pending) effect_id parent_message_id assistant_message)]).

Definition completed_settlement_bodies (s : KernelState) (env : TransitionEnv) (pending : PendingModelEffect)
    (completion : EffectCompleted) (assistant_message : Message) (effect_id : EffectId)
    : kresult (IdRequirements * list RecordBody) :=
  do? reject_if (negb (validate_settlement (pme_requested pending) (cpl_effect_id completion)
                         (cpl_output_contract completion))) KernelError_ModelSettlementMismatch in
  do? reject_if (oc_kind (cpl_output_contract completion) <>?? EffectOutputKind_ModelResponse)
        KernelError_ModelSettlementMismatch in
  if is_runtime_owned_child_model (pme_requested pending)
  then compaction_summary_completion_bodies s completion effect_id
  else assistant_completion_bodies s env pending completion assistant_message effect_id.

Definition deferred_settlement_bodies (pending : PendingModelEffect) (deferred : EffectDeferred)
    : kresult (IdRequirements * list RecordBody) :=
  do? reject_if (is_runtime_owned_child_model (pme_requested pending)) KernelError_ModelSettlementMismatch in
  do? reject_if (negb (validate_settlement (pme_requested pending) (def_effect_id deferred)
                         (def_output_contract deferred))) KernelError_ModelSettlementMismatch in
  Ok (IdRequirements_new 1 1 0 0 0 0, [RecordBody_EffectDeferred deferred]).

Definition failed_settlement_bodies (s : KernelState) (pending : PendingModelEffect) (failed : EffectFailed)
    (effect_id : EffectId) : kresult (IdRequirements * list RecordBody) :=
  do? reject_if (negb (validate_settlement (pme_requested pending) (fld_effect_id failed)
                         (fld_output_contract failed))) KernelError_ModelSettlementMismatch in
  do? preflight_decision s (model_growth 0 effect_id (fld_completion_id failed) []) in
  Ok (IdRequirements_new 1 1 0 0 0 0, [RecordBody_EffectFailed failed]).

Definition model_settlement_bodies (s : KernelState) (env : TransitionEnv) (pending : PendingModelEffect)
    (input : ModelSettled) (effect_id : EffectId) : kresult (IdRequirements * list RecordBody) :=
  match ms_outcome input with
  | ModelSettlement_Completed completion assistant_message =>
      completed_settlement_bodies s env pending completion assistant_message effect_id
  | ModelSettlement_Deferred deferred => deferred_settlement_bodies pending deferred
  | ModelSettlement_Failed failed => failed_settlement_bodies s pending failed effect_id
  end.

Definition decide_normalized_model (s : KernelState) (env : TransitionEnv) (input : ModelSettled)
    (input_name : string) (required_phase : RunPhase) : kresult Decision :=
  let effect_id := ModelSettlement_effect_id (ms_outcome input) in
  do? reject_terminal s in
  do? reject_if (k_phase s <>?? Some required_phase) (invalid_phase s input_name) in
  let? pending := ok_or (k_pending_model_effect s) KernelError_ModelSettlementMismatch in
  do? reject_if
        ((pme_turn_id pending <>?? ms_turn_id input)
         || (pme_model_request_id pending <>?? ms_model_request_id input)
         || (req_effect_id (pme_requested pending) <>?? effect_id))
        KernelError_ModelSettlementMismatch in
  do? reject_if (req_kind (pme_requested pending) <>?? EffectKind_Model) KernelError_ModelSettlementMismatch in
  let? p := model_settlement_bodies s env pending input effect_id in
  do? validate_allocated_ids (env_ids env) p.1 in
  decision_for s env p.2 [].

Definition decide_model (s : KernelState) (env : TransitionEnv) (input : ModelSettled) : kresult Decision :=
  do? match ms_outcome input with
      | ModelSettlement_Failed failed => validate_error_descriptor (fld_error failed)
      | _ => Ok tt
      end in
  decide_normalized_model s env input "model_settled" RunPhase_AwaitingModel.

Definition validate_external_completion_input (input : ExternalEffectCompletedInput) : kresult unit :=
  let completion := xei_completion input in
  do? reject_if (negb (label_is_valid (xec_completion_id completion)))
        (KernelError_InvalidInputPayload "completion_id" "invalid_label") in
  match xec_outcome completion with
  | ExternalEffectOutcome_Completed _ _ artifacts =>
      reject_if (SEMANTIC_ARRAY_MAX_ITEMS <? length artifacts)%nat
        (KernelError_InvalidInputPayload "artifacts" "too_many_items")
  | ExternalEffectOutcome_Failed error => validate_error_descriptor error
  end.

Definition decide_external (s : KernelState) (env : TransitionEnv) (input : ExternalEffectCompletedInput)
    (settlement_digest : Digest) : kresult Decision :=
  let completion := xei_completion input in
  let not_pending := KernelError_EffectNotPending (xec_effect_id completion) in
  do? validate_external_completion_input input in
  if is_known_tool_effect s (xec_effect_id completion) then decide_external_tool s env input settlement_digest
  else if k_phase s <>?? Some RunPhase_AwaitingExternal then
    do? reject_terminal s in
    Err (invalid_phase s "external_effect_completed")
  else
    let? pending := ok_or (k_pending_model_effect s) not_pending in
    do? reject_if (req_effect_id (pme_requested pending) <>?? xec_effect_id completion) not_pending in
    do? reject_if (is_none (pme_deferred pending)) not_pending in
    let requested := pme_requested pending in
    let? outcome :=
      match xec_outcome completion with
      | ExternalEffectOutcome_Completed output usage artifacts =>
          let? assistant_message := ok_or (xei_assistant_message input)
                                      KernelError_AssistantMessagePresenceMismatch in
          let? c := ok_or (EffectCompleted_try_new (req_effect_id requested) (req_output_contract requested) output
                             usage artifacts (msg_provider_ids assistant_message)
                             (Some (xec_completion_id completion)) None) KernelError_ModelSettlementMismatch in
          Ok (ModelSettlement_Completed c assistant_message)
      | ExternalEffectOutcome_Failed error =>
          do? reject_if (is_some (xei_assistant_message input)) KernelError_AssistantMessagePresenceMismatch in
          let? f := ok_or (EffectFailed_try_new (req_effect_id requested) (req_output_contract requested) error None
                             (Some (xec_completion_id completion))) KernelError_ModelSettlementMismatch in
          Ok (ModelSettlement_Failed f)
      end in
    decide_normalized_model s env (mkModelSettled (pme_turn_id pending) (pme_model_request_id pending) outcome)
      "external_effect_completed" RunPhase_AwaitingExternal.

(** ** Structured output *)

Definition decide_configure_output (s : KernelState) (env : TransitionEnv) (configuration : OutputConfiguration)
    : kresult Decision :=
  do? reject_terminal s in
  do? reject_if (negb (OutputConfiguration_valid configuration))
        (KernelError_InvalidInputPayload "output.schema.schema_version" "schema_version_must_be_positive") in
  if k_output_configuration s =?? Some configuration then duplicate_decision s
  else
    do? reject_if (is_some (k_output_configuration s)) KernelError_ConflictingSettlement in
    do? reject_if (k_phase s <>?? Some RunPhase_BeforeRun) (invalid_phase s "configure_output") in
    do? validate_allocated_ids (env_ids env) (IdRequirements_new 1 0 0 0 0 0) in
    decision_for s env [RecordBody_OutputConfigured configuration] [].

(** The reason code of an invalid activation. *)
Definition activation_reason (activation : CapabilitiesActivated) : string :=
  if (length (cact_active activation) <=? SEMANTIC_ARRAY_MAX_ITEMS)%nat then "not_strictly_sorted"
  else "too_many_items".

Definition decide_capabilities_activated (s : KernelState) (env : TransitionEnv) (activation : CapabilitiesActivated)
    : kresult Decision :=
  do? reject_terminal s in
  do? reject_if (negb (CapabilitiesActivated_valid activation))
        (KernelError_InvalidInputPayload "capabilities.active" (activation_reason activation)) in
  if (k_active_capabilities s =?? cact_active activation)
     && (k_resolved_plan_digest s =?? Some (cact_resolved_plan_digest activation))
  then duplicate_decision s
  else
    do? reject_if (negb ((k_phase s =?? Some RunPhase_BeforeRun) || (k_phase s =?? Some RunPhase_AfterToolBatch)))
          (invalid_phase s "capabilities_activated") in
    do? reject_if (cact_prior_plan_digest activation <>?? k_resolved_plan_digest s)
          KernelError_ConflictingSettlement in
    do? validate_allocated_ids (env_ids env) (IdRequirements_new 1 0 0 0 0 0) in
    decision_for s env [RecordBody_CapabilitiesActivated activation] [].

(** The reason code of an invalid validation command: the first check that fails. *)
Definition issue_reason (i : ValidationIssue) : string :=
  if negb ((TEXT_MAX_BYTES <? str_len (vi_instance_path i)) || (TEXT_MAX_BYTES <? str_len (vi_schema_path i))
           || (vi_message i =?? "") || (TEXT_MAX_BYTES <? str_len (vi_message i))
           || has_nul (vi_instance_path i) || has_nul (vi_schema_path i) || has_nul (vi_message i))
  then "invalid_validation_keyword" else "invalid_validation_issue_text".

Definition output_reason (input : OutputValidated) : string :=
  if sr_schema_version (ov_schema input) =? 0 then "schema_version_must_be_positive"
  else
    match ov_outcome input with
    | ValidationOutcome_Valid => ""
    | ValidationOutcome_Invalid issues feedback =>
        if (length issues =? 0)%nat || (SEMANTIC_ARRAY_MAX_ITEMS <? length issues)%nat
        then "invalid_validation_issue_count"
        else if (TEXT_MAX_BYTES <? str_len feedback) || has_nul feedback then "invalid_validation_feedback"
        else default "" (issue_reason <$> find (fun i => negb (ValidationIssue_valid i)) issues)
    end.

Definition validate_structured_source (message : Message) (source : StructuredResultSource) (candidate : RawJson)
    : kresult unit :=
  let valid :=
    match source with
    | StructuredResultSource_JsonBlock content_index =>
        is_some_and (msg_content message !! Z.to_nat content_index) (fun block =>
          match block with ContentBlock_Json value => jb_value value =?? candidate | _ => false end)
    | StructuredResultSource_InternalTool tool_call_id =>
        existsb (fun block =>
          match block with
          | ContentBlock_ToolCall c =>
              (tc_tool_call_id c =?? tool_call_id) && (tc_tool_name c =?? SUBMIT_FINAL_OUTPUT_TOOL)
              && (tc_arguments c =?? candidate)
          | _ => false
          end) (msg_content message)
    end in
  reject_if (negb valid) KernelError_AssistantMessageMismatch.

(** A validation that repeats the recorded outcome. *)
Definition validation_repeats (s : KernelState) (input : OutputValidated) : bool :=
  match ov_outcome input, k_final_result s, k_validation_failure s with
  | ValidationOutcome_Valid, Some r, None =>
      (frr_message_id r =?? ov_message_id input) && (frr_schema r =?? ov_schema input)
      && (frr_value r =?? ov_candidate input) && (frr_source r =?? ov_source input)
  | ValidationOutcome_Invalid issues feedback, None, Some f =>
      (ovf_message_id f =?? ov_message_id input) && (ovf_schema f =?? ov_schema input)
      && (ovf_candidate_digest f =?? digest_raw_json (ov_candidate input)) && (ovf_source f =?? ov_source input)
      && (ovf_issues f =?? issues) && (ovf_feedback f =?? feedback)
  | _, _, _ => false
  end.

Definition output_validation_body (s : KernelState) (input : OutputValidated) (cycle : Z) (turn_id : TurnId)
    (model_request_id : ModelRequestId) (effect_id : EffectId) (message_id : MessageId)
    (end_strategy : OutputEndStrategy) (application_calls : list ToolCallId) : kresult RecordBody :=
  match ov_outcome input with
  | ValidationOutcome_Valid =>
      Ok (RecordBody_FinalResultRecorded
            (mkFinalResultRecorded cycle turn_id model_request_id effect_id message_id (ov_schema input)
               (ov_candidate input) (digest_raw_json (ov_candidate input)) (ov_source input) end_strategy
               (if end_strategy =?? OutputEndStrategy_Early then application_calls else [])))
  | ValidationOutcome_Invalid issues feedback =>
      let? error := ok_or (expected_validation_error (rst_attempts (k_retry s))
                             (a ← k_accepted s; rl_max_retries (ra_limits a))) KernelError_InvariantViolation in
      Ok (RecordBody_OutputValidationFailed
            (mkOutputValidationFailed cycle turn_id model_request_id effect_id message_id (ov_schema input)
               (digest_raw_json (ov_candidate input)) (ov_source input) issues feedback error application_calls))
  end.

Definition decide_output_validated (s : KernelState) (env : TransitionEnv) (input : OutputValidated)
    : kresult Decision :=
  let invalid := invalid_phase s "output_validated" in
  do? reject_terminal s in
  do? reject_if (negb (OutputValidated_valid input))
        (KernelError_InvalidInputPayload "output_validation" (output_reason input)) in
  do? reject_if (k_phase s <>?? Some RunPhase_AfterModel) invalid in
  match k_output_configuration s with
  | Some (mkOutputConfiguration (OutputSpec_JsonSchema schema) end_strategy) =>
      do? reject_if (schema <>?? ov_schema input) KernelError_ConflictingSettlement in
      if validation_repeats s input then duplicate_decision s
      else
        do? reject_if (is_some (k_final_result s) || is_some (k_validation_failure s))
              KernelError_ConflictingSettlement in
        let? candidate := ok_or (k_terminal_candidate s) KernelError_InvariantViolation in
        match candidate with
        | TerminalCandidate_Completed cycle turn_id model_request_id effect_id message_id _ =>
            do? reject_if (message_id <>?? ov_message_id input) KernelError_AssistantMessageMismatch in
            let? message := ok_or (last_message_is s message_id) KernelError_AssistantMessageMismatch in
            do? validate_structured_source message (ov_source input) (ov_candidate input) in
            let application_calls := tc_tool_call_id <$> assistant_tool_calls message true in
            let? body := output_validation_body s input cycle turn_id model_request_id effect_id message_id
                           end_strategy application_calls in
            do? validate_allocated_ids (env_ids env) (IdRequirements_new 1 0 0 0 0 0) in
            decision_for s env [body] []
        | TerminalCandidate_Failed _ _ _ _ _ => Err invalid
        end
  | _ => Err invalid
  end.
End DecideSettle.
