(* ===== verification/DecideControl.v ===== *)
(** * Cancellation, timers, interactions, extensions and rejected commands

    Models [reducer/decide/cancel.rs], [reducer/decide/external.rs],
    [decide_request] and [decide_settled] of [reducer/interaction.rs] and of
    [reducer/extension.rs]. *)

From stdpp Require Import sorting.
From S2P Require Import Prelude Primitives Ids Effects Records State Inputs ToolBatch Digests Policy ApplyStage ApplyTools ApplyEffects ApplyRecord Shapes Apply Decide DecideLimit DecideTools.

(** ** Cancellation requests *)

Definition validate_cancel_authorization (accepted : RunAccepted) (env : TransitionEnv) (input : CancelRequested)
    : kresult unit :=
  let security := ra_security accepted in
  let authorized :=
    match crq_initiator input with
    | CancellationInitiator_Principal principal authorization =>
        (principal =?? rsc_principal security)
        && (ae_policy_version authorization =?? rsc_authorization_policy_version security)
        && (ae_decision_id authorization =?? rsc_authorization_decision_id security)
    | CancellationInitiator_ParentRun parent_run_id =>
        (rr_parent_run_id (ra_relation accepted) =?? Some parent_run_id)
        && match rp_cancellation (ra_propagation accepted) with
           | CancellationPropagation_Cascade => true
           | CancellationPropagation_DetachOnlyIfPreauthorized =>
               negb (String.prefix "detach:" (rsc_authorization_decision_id security))
           end
    | CancellationInitiator_Deadline =>
        is_some_and (ra_effective_deadline accepted) (fun deadline => deadline <=? env_now env)
    | CancellationInitiator_RuntimeShutdown => true
    end in
  reject_if (negb authorized) (KernelError_InvalidInputPayload "initiator" "unauthorized").

(** ** Reconciliation *)

Definition elem_b (e : EffectId) (l : list EffectId) : bool := bool_decide (e ∈ l).

(** [values.windows(2).any(|pair| pair[0] >= pair[1])], negated. *)
Fixpoint strictly_ascending (l : list EffectId) : bool :=
  match l with
  | a :: l' => match l' with b :: _ => (a <? b)%N && strictly_ascending l' | [] => true end
  | [] => true
  end.

Definition check_effect_set (c : CancellationState) (u : unit) (entry : string * list EffectId) : kresult unit :=
  let '(field, values) := entry in
  reject_if
    ((SEMANTIC_ARRAY_MAX_ITEMS <? length values)%nat
     || negb (strictly_ascending values)
     || existsb (fun id => negb (elem_b id (cs_outstanding_effects c)) && negb (elem_b id (cs_completed_effects c))
                           && negb (elem_b id (cs_cancelled_effects c)) && negb (elem_b id (cs_uncertain_effects c)))
          values)
    (KernelError_InvalidInputPayload field "invalid_effect_set").

Definition overlaps (a b : list EffectId) : bool := existsb (fun id => elem_b id b) a.

Definition validate_reconciliation_input (input : CancellationReconciledInput) (c : CancellationState)
    : kresult unit :=
  let completed := cri_completed_effects input in
  let cancelled := cri_cancelled_effects input in
  let uncertain := cri_uncertain_effects input in
  do? rfold (check_effect_set c) tt
        [("completed_effects", completed); ("cancelled_effects", cancelled); ("uncertain_effects", uncertain)] in
  do? reject_if (overlaps completed cancelled || overlaps completed uncertain || overlaps cancelled uncertain)
        (KernelError_InvalidInputPayload "reconciliation" "overlapping_effect_sets") in
  reject_if
    (overlaps completed (cs_cancelled_effects c) || overlaps completed (cs_uncertain_effects c)
     || overlaps cancelled (cs_completed_effects c) || overlaps cancelled (cs_uncertain_effects c)
     || overlaps uncertain (cs_completed_effects c) || overlaps uncertain (cs_cancelled_effects c))
    KernelError_ConflictingSettlement.

(** [sort_unstable] then [dedup] of the recorded and the new effects. *)
Definition merged (recorded new : list EffectId) : list EffectId := dedup (merge_sort N.le (recorded ++ new)).

Definition contained (a b : list EffectId) : bool := forallb (fun id => elem_b id b) a.

Definition minus (a b : list EffectId) : list EffectId := List.filter (fun id => negb (elem_b id b)) a.

(** A reconciliation that adds nothing to what is recorded. *)
Definition reconciliation_repeats (c : CancellationState) (input : CancellationReconciledInput) : bool :=
  contained (cri_completed_effects input) (cs_completed_effects c)
  && contained (cri_cancelled_effects input) (cs_cancelled_effects c)
  && contained (cri_uncertain_effects input) (cs_uncertain_effects c)
  && negb ((length (cri_completed_effects input) =? 0)%nat && (length (cri_cancelled_effects input) =? 0)%nat
           && (length (cri_uncertain_effects input) =? 0)%nat).

(** ** Known effects *)

Definition known_effect (s : KernelState) (effect_id : EffectId) : bool :=
  is_some_and (k_pending_model_effect s) (fun p => req_effect_id (pme_requested p) =?? effect_id)
  || is_some (k_model_settlements s !! effect_id)
  || is_some (k_tool_settlements s !! effect_id)
  || existsb (fun identity => tci_effect_id identity =?? Some effect_id) (sorted_values (k_tool_calls s))
  || existsb (fun entry : string * CompletionIdentity => cid_effect_id entry.2 =?? effect_id)
       (map_to_list (k_completion_identities s))
  || is_some_and (k_pending_interaction s) (fun p => ir_effect_id (pin_request p) =?? effect_id).

(** [interaction_contract]. *)
Definition interaction_contract (schema_digest : Digest) : EffectOutputContract :=
  mkEffectOutputContract EffectOutputKind_InteractionResolution 1 schema_digest.

(** [reject_busy] of [reducer/interaction.rs]. *)
Definition reject_busy (s : KernelState) (input : string) : kresult unit :=
  do? reject_if (is_some (k_terminal s)) KernelError_TerminalStateImmutable in
  reject_if (is_some (k_cancellation s)) (invalid_phase s input).

Section DecideControl.
Context `{Hasher, Serde}.

Definition decide_cancel (s : KernelState) (env : TransitionEnv) (input : CancelRequested) : kresult Decision :=
  do? reject_terminal s in
  match k_cancellation s with
  | Some c =>
      if (cr_initiator (cs_request c) =?? crq_initiator input) && (cr_reason (cs_request c) =?? crq_reason input)
      then duplicate_decision s else Err KernelError_ConflictingSettlement
  | None =>
      let? accepted := ok_or (k_accepted s) (invalid_phase s "cancel_requested") in
      do? validate_cancel_authorization accepted env input in
      do? validate_allocated_ids (env_ids env) (with_cancellations 1 (IdRequirements_new 1 0 0 0 0 0)) in
      let? request_id := required (ids_cancellation_request_ids (env_ids env)) 0 "cancellation_request_ids" in
      let? request := ok_or (CancellationRequest_try_new request_id (crq_initiator input) (crq_reason input))
                        (KernelError_InvalidInputPayload "reason" "invalid_label") in
      decision_for s env [RecordBody_CancellationRequested (mkCancellationRequested request)]
        (PostCommitAction_CancelEffect <$> outstanding_requested_effects s)
  end.

(** [EffectCancelled::try_new] with the reason of a reconciliation. *)
Definition cancelled_record (effect_id : EffectId) (contract : EffectOutputContract) (completion_id : option string)
    : kresult RecordBody :=
  let? record := ok_or (EffectCancelled_try_new effect_id contract (Some "cancelled") completion_id)
                   KernelError_InvariantViolation in
  Ok (RecordBody_EffectCancelled record).

(** The records that close the pending slots a newly cancelled effect occupies. *)
Definition cancel_pending (s : KernelState) (record_bodies : list RecordBody) (effect_id : EffectId)
    : kresult (list RecordBody) :=
  let? record_bodies :=
    match k_pending_extension_effect s with
    | Some p => if req_effect_id (pxe_requested p) =?? effect_id then
                  let? r := cancelled_record effect_id (req_output_contract (pxe_requested p)) None in
                  Ok (record_bodies ++ [r])
                else Ok record_bodies
    | None => Ok record_bodies
    end in
  let? record_bodies :=
    match k_pending_model_effect s with
    | Some p => if req_effect_id (pme_requested p) =?? effect_id then
                  let? r := cancelled_record effect_id (req_output_contract (pme_requested p)) None in
                  Ok (record_bodies ++ [r])
                else Ok record_bodies
    | None => Ok record_bodies
    end in
  let? record_bodies :=
    match k_pending_interaction s with
    | Some p =>
        let request := pin_request p in
        if ir_effect_id request =?? effect_id then
          let? i := ok_or (InteractionCancelled_try_new (ir_interaction_id request) None None (Some "cancelled"))
                      KernelError_InvariantViolation in
          let? r := cancelled_record effect_id (interaction_contract (ir_response_schema_digest request))
                      (Some (to_canonical_string (ir_interaction_id request))) in
          Ok (record_bodies ++ [RecordBody_InteractionCancelled i; r])
        else Ok record_bodies
    | None => Ok record_bodies
    end in
  match rst_pending (k_retry s) with
  | Some p => if rs_timer_effect_id p =?? effect_id then
                let? r := cancelled_record (rs_timer_effect_id p) timer_firing_contract None in
                Ok (record_bodies ++ [r])
              else Ok record_bodies
  | None => Ok record_bodies
  end.

Definition is_effect_cancelled (body : RecordBody) : bool :=
  match body with RecordBody_EffectCancelled _ => true | _ => false end.

(** The record that ends a reconciliation, if it settles the cancellation. *)
Definition reconciliation_end (input : CancellationReconciledInput) (uncertain : list EffectId) (remaining : nat)
    : kresult (list RecordBody) :=
  if negb (length uncertain =? 0)%nat then
    do? reject_if (negb (error_code_is_valid "cancellation_uncertain")) KernelError_InvariantViolation in
    Ok [RecordBody_RunSuspended (mkRunSuspended "cancellation_uncertain" (Some (cri_request_id input)))]
  else if (remaining =? 0)%nat then
    do? reject_if (negb (error_code_is_valid "cancelled")) KernelError_InvariantViolation in
    Ok [RecordBody_RunCancelled (mkRunCancelled (cri_request_id input) "cancelled")]
  else Ok [].

Definition decide_reconciliation (s : KernelState) (env : TransitionEnv) (input : CancellationReconciledInput)
    : kresult Decision :=
  do? reject_terminal s in
  let? c := ok_or (k_cancellation s) (invalid_phase s "cancellation_reconciled") in
  do? reject_if (cri_request_id input <>?? cr_request_id (cs_request c)) KernelError_ConflictingSettlement in
  do? validate_reconciliation_input input c in
  if reconciliation_repeats c input then duplicate_decision s
  else
    let completed := merged (cs_completed_effects c) (cri_completed_effects input) in
    let cancelled := merged (cs_cancelled_effects c) (cri_cancelled_effects input) in
    let uncertain := merged (cs_uncertain_effects c) (cri_uncertain_effects input) in
    let reconciled := mkCancellationReconciled (cri_request_id input) completed cancelled uncertain in
    let remaining := length (minus (cs_outstanding_effects c) (completed ++ cancelled ++ uncertain)) in
    let newly_completed := minus (cri_completed_effects input) (cs_completed_effects c) in
    let newly_cancelled := minus (cri_cancelled_effects input) (cs_cancelled_effects c) in
    let? pending_bodies := rfold (cancel_pending s) [] newly_cancelled in
    let? followups := cancellation_followups s env newly_completed newly_cancelled in
    let first_non_cancelled := length (take_while is_effect_cancelled (tfu_bodies followups)) in
    let? ending := reconciliation_end input uncertain remaining in
    let record_bodies :=
      pending_bodies ++ take first_non_cancelled (tfu_bodies followups)
        ++ RecordBody_CancellationReconciled reconciled :: drop first_non_cancelled (tfu_bodies followups) ++ ending in
    let event_count := sum_list (derived_event_count <$> record_bodies) in
    do? ensure_record_batch_bound (length record_bodies) in
    do? preflight_decision s
          (mkStateGrowth (tfu_messages followups) None None None None None [] (tfu_settlements followups) 0
             None None None None) in
    do? validate_allocated_ids (env_ids env)
          (IdRequirements_new (length record_bodies) event_count 0 0 0 (tfu_messages followups)) in
    decision_for s env record_bodies [].

(** ** Timers *)

Definition decide_timer_fired (s : KernelState) (env : TransitionEnv) (input : TimerFiredInput) : kresult Decision :=
  do? reject_terminal s in
  match rst_timer_firings (k_retry s) !! tfi_effect_id input with
  | Some existing =>
      if (tf_effect_id existing =?? tfi_effect_id input) && (tf_due_at existing =? tfi_due_at input)
         && (tf_fired_at existing =? tfi_fired_at input)
      then duplicate_decision s else Err KernelError_ConflictingSettlement
  | None =>
      do? reject_if ((k_phase s <>?? Some RunPhase_Sleeping) || is_some (k_cancellation s))
            (invalid_phase s "timer_fired") in
      let? pending := ok_or (rst_pending (k_retry s)) (invalid_phase s "timer_fired") in
      do? reject_if
            ((rs_timer_effect_id pending <>?? tfi_effect_id input) || negb (rs_due_at pending =? tfi_due_at input)
             || (tfi_fired_at input <? tfi_due_at input))
            KernelError_ConflictingSettlement in
      do? preflight_decision s
            (mkStateGrowth 0 None None None None None [] [] 0 (Some (tfi_effect_id input)) None None None) in
      do? validate_allocated_ids (env_ids env) (IdRequirements_new 1 0 0 0 0 0) in
      decision_for s env
        [RecordBody_TimerFired (mkTimerFired (tfi_effect_id input) (tfi_due_at input) (tfi_fired_at input))] []
  end.

(** ** Rejected external commands *)

Definition decide_external_command_rejected (s : KernelState) (env : TransitionEnv)
    (input : RecordExternalCommandRejected) : kresult Decision :=
  let locator := recr_locator input in
  let rejection := recr_rejection input in
  let? accepted := ok_or (k_accepted s) KernelError_InvalidRunAcceptance in
  let security := ra_security accepted in
  do? reject_if
        ((k_session_id s <>?? Some (ol_session_id locator))
         || (k_lane_id s <>?? Some (ol_lane_id locator))
         || (ra_run_id accepted <>?? ol_run_id locator)
         || (rsc_tenant_scope security <>?? ol_tenant_scope locator)
         || (rsc_principal security <>?? ecr_principal rejection)
         || (rsc_authorization_policy_version security <>?? ae_policy_version (ecr_authorization rejection))
         || (rsc_authorization_decision_id security <>?? ae_decision_id (ecr_authorization rejection)))
        KernelError_InvalidRunAcceptance in
  do? match ecr_target rejection with
      | ExternalCommandTarget_Effect effect_id =>
          reject_if (negb (known_effect s effect_id)) (KernelError_EffectNotPending effect_id)
      | ExternalCommandTarget_Interaction interaction_id =>
          reject_if
            (is_none_or (k_pending_interaction s) (fun p => ir_interaction_id (pin_request p) <>?? interaction_id)
             && is_none_or (k_last_interaction_terminal s) (fun t => itm_interaction_id t <>?? interaction_id))
            (invalid_phase s "record_external_command_rejected")
      end in
  do? validate_allocated_ids (env_ids env) (IdRequirements_new 1 0 0 0 0 0) in
  decision_for s env [RecordBody_ExternalCommandRejected rejection] [].

(** ** Interactions *)

Definition decide_interaction_request (s : KernelState) (env : TransitionEnv) (input : RequestInteraction)
    : kresult Decision :=
  let request := rqi_request input in
  do? reject_busy s "request_interaction" in
  do? reject_if (is_some (k_pending_interaction s)) (invalid_phase s "request_interaction") in
  do? reject_if (is_none (expected_stage_cursor s) && (k_phase s <>?? Some RunPhase_AwaitingTools))
        (invalid_phase s "request_interaction") in
  do? validate_allocated_ids (env_ids env) (with_interactions 1 (IdRequirements_new 2 2 1 0 0 0)) in
  do? reject_if (head (ids_effect_ids (env_ids env)) <>?? Some (ir_effect_id request))
        (KernelError_UnusedAllocatedIds "effect_ids") in
  do? reject_if (head (ids_interaction_ids (env_ids env)) <>?? Some (ir_interaction_id request))
        (KernelError_UnusedAllocatedIds "interaction_ids") in
  let? digest := ok_or (request_digest request) KernelError_InvariantViolation in
  let? requested := ok_or (EffectRequested_try_new (ir_effect_id request) EffectKind_Interaction None None None
                             (interaction_contract (ir_response_schema_digest request))
                             (EffectInput_Interaction (ir_interaction_id request) digest)
                             RetrySafety_AtMostOnce (ir_expires_at request)) KernelError_InvariantViolation in
  decision_for s env [RecordBody_EffectRequested requested; RecordBody_InteractionRequested request] [].

Definition decide_resolved (s : KernelState) (env : TransitionEnv) (pending : PendingInteraction)
    (resolution : InteractionResolution) : kresult Decision :=
  let request := pin_request pending in
  do? reject_if (ires_interaction_id resolution <>?? ir_interaction_id request)
        (invalid_phase s "interaction_settled") in
  let? accepted := ok_or (k_accepted s) KernelError_InvalidRunAcceptance in
  let security := ra_security accepted in
  do? reject_if
        ((rsc_principal security <>?? ires_principal resolution)
         || (rsc_authorization_policy_version security <>?? ae_policy_version (ires_authorization resolution))
         || (rsc_authorization_decision_id security <>?? ae_decision_id (ires_authorization resolution)))
        KernelError_InvalidRunAcceptance in
  do? match ir_assignee_hint request with
      | Some (AssigneeHint_Principal expected) =>
          reject_if ((expected <>?? ires_principal resolution)
                     && negb (ir_delegatable request && (rsc_delegated_from security =?? Some expected)))
            KernelError_InvalidRunAcceptance
      | _ => Ok tt
      end in
  do? reject_if (is_some_and (ir_expires_at request) (fun deadline => deadline <=? env_now env))
        (KernelError_InvalidInputPayload "expires_at" "interaction_expired") in
  let? _ := approval_outcome (ir_kind request) (ires_response resolution) in
  do? preflight_decision s
        (mkStateGrowth 0 None None None (Some (ires_resolution_id resolution))
           (Some (ires_resolution_id resolution)) [] [] 0 None None None None) in
  do? validate_allocated_ids (env_ids env) (IdRequirements_new 2 2 0 0 0 0) in
  let? completed := ok_or (EffectCompleted_try_new (ir_effect_id request)
                             (interaction_contract (ir_response_schema_digest request)) (ires_response resolution)
                             None [] ProviderIds_empty (Some (ires_resolution_id resolution)) None)
                      KernelError_InvariantViolation in
  decision_for s env [RecordBody_InteractionResolved resolution; RecordBody_EffectCompleted completed] [].

Definition decide_interaction_settled (s : KernelState) (env : TransitionEnv) (input : InteractionSettled)
    : kresult Decision :=
  let invalid := invalid_phase s "interaction_settled" in
  do? reject_busy s "interaction_settled" in
  do? reject_if (k_phase s <>?? Some RunPhase_AwaitingInteraction) invalid in
  let? pending := ok_or (k_pending_interaction s) invalid in
  let request := pin_request pending in
  let contract := interaction_contract (ir_response_schema_digest request) in
  match input with
  | InteractionSettled_Resolved resolution => decide_resolved s env pending resolution
  | InteractionSettled_Expired expired =>
      do? reject_if (iexp_interaction_id expired <>?? ir_interaction_id request) invalid in
      do? validate_allocated_ids (env_ids env) (IdRequirements_new 2 2 0 0 0 0) in
      let? error := ok_or (error_descriptor_new "interaction_expired" "interaction expired before resolution"
                             ErrorCategory_Deadline false) KernelError_InvariantViolation in
      let? failed := ok_or (EffectFailed_try_new (ir_effect_id request) contract error None
                              (Some (to_canonical_string (iexp_interaction_id expired))))
                       KernelError_InvariantViolation in
      decision_for s env [RecordBody_InteractionExpired expired; RecordBody_EffectFailed failed] []
  | InteractionSettled_Cancelled cancelled =>
      do? reject_if (ican_interaction_id cancelled <>?? ir_interaction_id request) invalid in
      do? validate_allocated_ids (env_ids env) (IdRequirements_new 2 2 0 0 0 0) in
      let? effect := ok_or (EffectCancelled_try_new (ir_effect_id request) contract (ican_reason cancelled)
                              (Some (to_canonical_string (ican_interaction_id cancelled))))
                       KernelError_InvariantViolation in
      decision_for s env [RecordBody_InteractionCancelled cancelled; RecordBody_EffectCancelled effect] []
  end.

(** ** Extension effects *)

Definition decide_extension_request (s : KernelState) (env : TransitionEnv) (input : RequestExtensionEffect)
    : kresult Decision :=
  let requested := rxe_requested input in
  let invalid := invalid_phase s "request_extension_effect" in
  match k_pending_extension_effect s with
  | Some pending =>
      if pxe_requested pending =?? requested then duplicate_decision s else Err KernelError_ConflictingSettlement
  | None =>
      do? reject_if (is_some (k_terminal s) || is_some (k_cancellation s)) invalid in
      do? reject_if (is_some (k_extension_settlements s !! req_effect_id requested))
            KernelError_ConflictingSettlement in
      let? cursor := request_cursor requested in
      let? expected := ok_or (expected_stage_cursor s) invalid in
      do? reject_if (cursor <>?? expected) (KernelError_StageCursorMismatch expected cursor) in
      do? validate_request_shape requested in
      do? validate_allocated_ids (env_ids env) (IdRequirements_new 1 1 1 0 0 0) in
      do? reject_if (head (ids_effect_ids (env_ids env)) <>?? Some (req_effect_id requested))
            (KernelError_UnusedAllocatedIds "effect_ids") in
      decision_for s env [RecordBody_EffectRequested requested]
        [PostCommitAction_ExecuteEffect (req_effect_id requested)]
  end.

Definition decide_extension_settled (s : KernelState) (env : TransitionEnv) (input : ExtensionEffectSettled)
    : kresult Decision :=
  let? fingerprint := extension_fingerprint input in
  let outcome := xes_outcome input in
  let effect_id := ExtensionSettlement_effect_id outcome in
  let completion := ExtensionSettlement_completion_id outcome in
  match (c ← completion; k_completion_identities s !! c) with
  | Some existing =>
      if (cid_effect_id existing =?? effect_id) && (cid_settlement_digest existing =?? xsf_digest fingerprint)
      then duplicate_decision s else Err KernelError_ConflictingCompletionId
  | None =>
      match k_extension_settlements s !! effect_id with
      | Some existing =>
          if existing =?? fingerprint then duplicate_decision s else Err KernelError_ConflictingSettlement
      | None =>
          do? reject_if (is_some (k_cancellation s)) (invalid_phase s "extension_effect_settled") in
          let? pending := ok_or (k_pending_extension_effect s) (KernelError_EffectNotPending effect_id) in
          do? reject_if ((pxe_cursor pending <>?? xes_cursor input)
                         || (req_effect_id (pxe_requested pending) <>?? effect_id))
                KernelError_ConflictingSettlement in
          do? reject_if (negb (ExtensionSettlement_valid outcome (pxe_requested pending)))
                KernelError_ConflictingSettlement in
          do? preflight_decision s
                (mkStateGrowth 0 None None (Some effect_id) completion None [] [] 0 None None None None) in
          let body := match outcome with
                      | ExtensionSettlement_Completed value => RecordBody_EffectCompleted value
                      | ExtensionSettlement_Failed value => RecordBody_EffectFailed value
                      end in
          do? validate_allocated_ids (env_ids env) (IdRequirements_new 1 (derived_event_count body) 0 0 0 0) in
          decision_for s env [body] []
      end
  end.
End DecideControl.
