(* ===== verification/Conversation.v ===== *)
(** * The conversation tree and the session projection

    Models [crates/finstack-ai-kernel/src/conversation/tree.rs]: the immutable
    tree of conversation entries, the walk from a leaf to its root, and the
    projection of lanes, entries, operations and child runs that a session
    rebuilds from its journal.  A [BTreeMap] is a finite map; where the source
    iterates over one, the model iterates in key order. *)

From S2P Require Import Prelude Primitives Effects Records State Inputs Decide.

Inductive ConversationError : Type :=
| ConversationError_SelfParent
| ConversationError_MissingParent
| ConversationError_ImmutableConflict
| ConversationError_Cycle
| ConversationError_MissingLeaf
| ConversationError_InvalidToolPair
| ConversationError_EnvelopeMismatch
| ConversationError_UnknownLeaf
| ConversationError_DuplicateLaneId
| ConversationError_DuplicateLaneName
| ConversationError_UnknownLane.
#[global] Instance ConversationError_eq_dec : EqDecision ConversationError.
Proof. solve_decision. Defined.

Notation cresult A := (result A ConversationError).

(** ** Entries *)

Definition ConversationEntry_try_new (id : EntryId) (parent_id : option EntryId) (lane_id : LaneId) (sequence : Z)
    (body : EntryBody) : cresult ConversationEntry :=
  do? reject_if (parent_id =?? Some id) ConversationError_SelfParent in
  Ok (mkConversationEntry id parent_id lane_id sequence body).

(** [EntryId::from_bytes(message.id().to_bytes())] keeps the identity's bytes. *)
Definition ConversationEntry_from_message (message : Message) (parent_id : option EntryId) (lane_id : LaneId)
    (sequence : Z) : cresult ConversationEntry :=
  ConversationEntry_try_new (msg_id message) parent_id lane_id sequence (EntryBody_Message message).

Notation Entries := (gmap EntryId ConversationEntry).

Definition same_committed_entry (left right : ConversationEntry) : bool :=
  (ce_id left =?? ce_id right) && (ce_parent_id left =?? ce_parent_id right)
  && (ce_lane_id left =?? ce_lane_id right) && (ce_body left =?? ce_body right).

Definition preview_conversation_entry (committed staged : Entries) (entry : ConversationEntry) : cresult unit :=
  do? reject_if (is_some_and (ce_parent_id entry)
                   (fun parent_id => is_none (committed !! parent_id) && is_none (staged !! parent_id)))
        ConversationError_MissingParent in
  match or_else (committed !! ce_id entry) (staged !! ce_id entry) with
  | Some existing => if same_committed_entry existing entry then Ok tt else Err ConversationError_ImmutableConflict
  | None => Ok tt
  end.

Definition apply_conversation_entry (entries : Entries) (entry : ConversationEntry) : cresult Entries :=
  do? preview_conversation_entry entries ∅ entry in
  Ok (if is_some (entries !! ce_id entry) then entries else <[ce_id entry := entry]> entries).

(** ** Walking a branch *)

(** The [while let] loop; [None] is the loop still running when the fuel ends. *)
Fixpoint walk_loop (fuel : nat) (entries : Entries) (walk : list ConversationEntry) (seen : gset EntryId)
    (current : option EntryId) : option (cresult (list ConversationEntry)) :=
  match current with
  | None => Some (Ok (reverse walk))
  | Some id =>
      match fuel with
      | O => None
      | S fuel =>
          if decide (id ∈ seen) then Some (Err ConversationError_Cycle)
          else match entries !! id with
               | None => Some (Err (match walk with [] => ConversationError_MissingLeaf | _ => ConversationError_MissingParent end))
               | Some entry => walk_loop fuel entries (walk ++ [entry]) ({[ id ]} ∪ seen) (ce_parent_id entry)
               end
      end
  end.

(** One turn of the loop for each entry and one more to fail in. *)
Definition walk_conversation (entries : Entries) (leaf_id : EntryId) : cresult (list ConversationEntry) :=
  default (Err ConversationError_Cycle) (walk_loop (S (size entries)) entries [] ∅ (Some leaf_id)).

(** ** Tool pairs *)

(** The open and the closed calls of a path. *)
Definition ToolPairs : Type := gset ToolCallId * gset ToolCallId.

Definition open_pair (st : ToolPairs) (block : ContentBlock) : cresult ToolPairs :=
  match block with
  | ContentBlock_ToolCall call =>
      if decide (tc_tool_call_id call ∈ st.1) then Err ConversationError_InvalidToolPair
      else Ok ({[ tc_tool_call_id call ]} ∪ st.1, st.2)
  | _ => Ok st
  end.

Definition close_pair (st : ToolPairs) (block : ContentBlock) : cresult ToolPairs :=
  match block with
  | ContentBlock_ToolResult result =>
      let id := tr_tool_call_id result in
      if decide (id ∉ st.1) then Err ConversationError_InvalidToolPair
      else if decide (id ∈ st.2) then Err ConversationError_InvalidToolPair
      else Ok (st.1 ∖ {[ id ]}, {[ id ]} ∪ st.2)
  | _ => Ok st
  end.

Definition pair_step (st : ToolPairs) (entry : ConversationEntry) : cresult ToolPairs :=
  let 'EntryBody_Message message := ce_body entry in
  match msg_role message with
  | MessageRole_Assistant => rfold open_pair st (msg_content message)
  | MessageRole_Tool => rfold close_pair st (msg_content message)
  | MessageRole_User | MessageRole_System | MessageRole_Developer => Ok st
  end.

Definition validate_tool_pairs (path : list ConversationEntry) : cresult unit :=
  let? st := rfold pair_step (∅, ∅) path in
  if decide (st.1 = ∅) then Ok tt else Err ConversationError_InvalidToolPair.

Definition extract_history (entries : Entries) (leaf_id : EntryId) : cresult (list ConversationEntry) :=
  let? walk := walk_conversation entries leaf_id in
  do? validate_tool_pairs walk in
  Ok walk.

(** ** The session projection *)

Record LaneProjection : Type := mkLaneProjection {
  lp_name : string;
  lp_leaf_id : option EntryId
}.
#[global] Instance LaneProjection_eq_dec : EqDecision LaneProjection.
Proof. solve_decision. Defined.

Record OperationSummary : Type := mkOperationSummary {
  os_run_id : RunId;
  os_lane_id : LaneId;
  os_relation : RunRelation;
  os_security : RunSecurityContext;
  os_propagation : RunPropagationPolicy;
  os_terminal : bool
}.

Record SessionProjection : Type := mkSessionProjection {
  sp_session_id : option SessionId;
  sp_metadata : Metadata;
  sp_lanes : gmap LaneId LaneProjection;
  sp_entries : Entries;
  sp_operations : gmap RunId OperationSummary;
  sp_child_mappings : gmap (RunId * EffectId) ChildRunPrepared
}.

Definition SessionProjection_new (session_id : SessionId) : SessionProjection :=
  mkSessionProjection (Some session_id) METADATA_EMPTY ∅ ∅ ∅ ∅.

Definition set_sp_session_id (v : option SessionId) (p : SessionProjection) : SessionProjection :=
  mkSessionProjection v (sp_metadata p) (sp_lanes p) (sp_entries p) (sp_operations p) (sp_child_mappings p).
Definition set_sp_metadata (v : Metadata) (p : SessionProjection) : SessionProjection :=
  mkSessionProjection (sp_session_id p) v (sp_lanes p) (sp_entries p) (sp_operations p) (sp_child_mappings p).
Definition set_sp_lanes (v : gmap LaneId LaneProjection) (p : SessionProjection) : SessionProjection :=
  mkSessionProjection (sp_session_id p) (sp_metadata p) v (sp_entries p) (sp_operations p) (sp_child_mappings p).
Definition set_sp_entries (v : Entries) (p : SessionProjection) : SessionProjection :=
  mkSessionProjection (sp_session_id p) (sp_metadata p) (sp_lanes p) v (sp_operations p) (sp_child_mappings p).
Definition set_sp_operations (v : gmap RunId OperationSummary) (p : SessionProjection) : SessionProjection :=
  mkSessionProjection (sp_session_id p) (sp_metadata p) (sp_lanes p) (sp_entries p) v (sp_child_mappings p).
Definition set_sp_child_mappings (v : gmap (RunId * EffectId) ChildRunPrepared) (p : SessionProjection)
    : SessionProjection :=
  mkSessionProjection (sp_session_id p) (sp_metadata p) (sp_lanes p) (sp_entries p) (sp_operations p) v.

(** [lane.leaf_id = Some(leaf)] through [get_mut], and [operation.terminal = true]. *)
Definition set_leaf (leaf : EntryId) (lane : LaneProjection) : LaneProjection :=
  mkLaneProjection (lp_name lane) (Some leaf).
Definition set_terminal (op : OperationSummary) : OperationSummary :=
  mkOperationSummary (os_run_id op) (os_lane_id op) (os_relation op) (os_security op) (os_propagation op) true.

Definition lane (p : SessionProjection) (name : string) : option (LaneId * LaneProjection) :=
  find_map (fun kv : LaneId * LaneProjection => if lp_name kv.2 =?? name then Some kv else None)
    (merge_sort id_le (map_to_list (sp_lanes p))).

Definition main_lane (p : SessionProjection) : option (LaneId * LaneProjection) := lane p "main".

Definition active_on_lane (p : SessionProjection) (lane_id : LaneId) : option RunId :=
  find_map (fun op => if (os_lane_id op =?? lane_id) && negb (os_terminal op) then Some (os_run_id op) else None)
    (sorted_values (sp_operations p)).

Definition SessionProjection_walk (p : SessionProjection) (leaf_id : EntryId) : cresult (list ConversationEntry) :=
  walk_conversation (sp_entries p) leaf_id.

Definition SessionProjection_history (p : SessionProjection) (leaf_id : EntryId)
    : cresult (list ConversationEntry) := extract_history (sp_entries p) leaf_id.

(** ** Structural records *)

Definition apply_lane_created (p : SessionProjection) (lane_id : LaneId) (created : LaneCreated)
    : cresult SessionProjection :=
  do? reject_if (is_some (sp_lanes p !! lane_id)) ConversationError_DuplicateLaneId in
  do? reject_if (existsb (fun lane => lp_name lane =?? lnc_name created) (sorted_values (sp_lanes p)))
        ConversationError_DuplicateLaneName in
  Ok (set_sp_lanes (<[lane_id := mkLaneProjection (lnc_name created) None]> (sp_lanes p)) p).

Definition apply_lane_moved (p : SessionProjection) (lane_id : LaneId) (moved : LaneMoved)
    : cresult SessionProjection :=
  match sp_lanes p !! lane_id with
  | None => Err ConversationError_UnknownLane
  | Some lane =>
      do? reject_if (is_none (sp_entries p !! lnm_leaf_id moved)) ConversationError_UnknownLeaf in
      Ok (set_sp_lanes (<[lane_id := set_leaf (lnm_leaf_id moved) lane]> (sp_lanes p)) p)
  end.

(** [session_id] is adopted from the first record seen. *)
Definition adopt_session (session_id : SessionId) (p : SessionProjection) : SessionProjection :=
  if is_none (sp_session_id p) then set_sp_session_id (Some session_id) p else p.

Definition other_session (p : SessionProjection) (session_id : SessionId) : bool :=
  is_some_and (sp_session_id p) (fun own => session_id <>?? own).

Definition apply_structural_draft (p : SessionProjection) (draft : RecordDraft) : cresult SessionProjection :=
  do? reject_if (other_session p (dr_session_id draft)) ConversationError_EnvelopeMismatch in
  let p := adopt_session (dr_session_id draft) p in
  match dr_body draft with
  | RecordBody_SessionCreated created => Ok (set_sp_metadata (ses_metadata created) p)
  | RecordBody_LaneCreated created => apply_lane_created p (dr_lane_id draft) created
  | RecordBody_ConversationEntry entry =>
      do? reject_if (ce_lane_id entry <>?? dr_lane_id draft) ConversationError_EnvelopeMismatch in
      match sp_lanes p !! dr_lane_id draft with
      | None => Err ConversationError_UnknownLane
      | Some lane =>
          let? entries := apply_conversation_entry (sp_entries p) entry in
          Ok (set_sp_lanes (<[dr_lane_id draft := set_leaf (ce_id entry) lane]> (sp_lanes p)) (set_sp_entries entries p))
      end
  | RecordBody_LaneMoved moved => apply_lane_moved p (dr_lane_id draft) moved
  | RecordBody_SnapshotWritten _ => Ok p
  | _ => Err ConversationError_EnvelopeMismatch
  end.

Definition preview_structural_drafts (p : SessionProjection) (drafts : list RecordDraft) : cresult SessionProjection :=
  rfold apply_structural_draft p drafts.

(** Drafts staged over the committed entries, without copying those. *)
Definition preview_step (entries staged : Entries) (entry : ConversationEntry) : cresult Entries :=
  do? preview_conversation_entry entries staged entry in
  Ok (if is_none (entries !! ce_id entry) then <[ce_id entry := entry]> staged else staged).

Definition preview_conversation_entries (p : SessionProjection) (drafts : list ConversationEntry) : cresult unit :=
  let? _ := rfold (preview_step (sp_entries p)) ∅ drafts in
  Ok tt.

(** ** Committed records *)

(** The branch [if let Some(lane) = self.lanes.get_mut(..)]. *)
Definition move_leaf (lane_id : LaneId) (leaf : EntryId) (p : SessionProjection) : SessionProjection :=
  match sp_lanes p !! lane_id with
  | Some lane => set_sp_lanes (<[lane_id := set_leaf leaf lane]> (sp_lanes p)) p
  | None => p
  end.

Definition apply_recorded_entry (p : SessionProjection) (record : RecordEnvelope) (entry : ConversationEntry)
    : cresult SessionProjection :=
  do? reject_if ((ce_lane_id entry <>?? rec_lane_id record) || negb (ce_sequence entry =? rec_sequence record))
        ConversationError_EnvelopeMismatch in
  let? entries := apply_conversation_entry (sp_entries p) entry in
  Ok (move_leaf (rec_lane_id record) (ce_id entry) (set_sp_entries entries p)).

Definition synthesize_from_message (p : SessionProjection) (message : Message) (record : RecordEnvelope)
    (parent_id : option EntryId) : cresult SessionProjection :=
  let id := msg_id message in
  if is_some (sp_entries p !! id) then Ok p
  else
    let parent := or_else parent_id (sp_lanes p !! rec_lane_id record ≫= lp_leaf_id) in
    let? entry := ConversationEntry_from_message message parent (rec_lane_id record) (rec_sequence record) in
    let? entries := apply_conversation_entry (sp_entries p) entry in
    Ok (move_leaf (rec_lane_id record) id (set_sp_entries entries p)).

(** [entry(run_id).or_insert(..)]: the first acceptance of a run is kept. *)
Definition apply_run_accepted (p : SessionProjection) (lane_id : LaneId) (accepted : RunAccepted) : SessionProjection :=
  if is_some (sp_operations p !! ra_run_id accepted) then p
  else set_sp_operations
         (<[ra_run_id accepted := mkOperationSummary (ra_run_id accepted) lane_id (ra_relation accepted)
                                    (ra_security accepted) (ra_propagation accepted) false]> (sp_operations p)) p.

Definition apply_run_terminal (p : SessionProjection) (run_id : option RunId) : SessionProjection :=
  match run_id with
  | Some run_id => set_sp_operations (alter set_terminal run_id (sp_operations p)) p
  | None => p
  end.

Definition apply_envelope (p : SessionProjection) (record : RecordEnvelope) : cresult SessionProjection :=
  if other_session p (rec_session_id record) then Ok p
  else
    let p := adopt_session (rec_session_id record) p in
    match rec_body record with
    | RecordBody_SessionCreated created => Ok (set_sp_metadata (ses_metadata created) p)
    | RecordBody_LaneCreated created => apply_lane_created p (rec_lane_id record) created
    | RecordBody_ConversationEntry entry => apply_recorded_entry p record entry
    | RecordBody_LaneMoved moved => apply_lane_moved p (rec_lane_id record) moved
    | RecordBody_EntryAppended entry => synthesize_from_message p (ea_message entry) record (ea_parent_message_id entry)
    | RecordBody_ToolCallSettled settled => synthesize_from_message p (tcs_message settled) record None
    | RecordBody_RunAccepted accepted => Ok (apply_run_accepted p (rec_lane_id record) accepted)
    | RecordBody_RunCompleted _ | RecordBody_RunFailed _ | RecordBody_RunCancelled _ =>
        Ok (apply_run_terminal p (rec_run_id record))
    | RecordBody_ChildRunPrepared prepared =>
        Ok (set_sp_child_mappings (<[(crp_parent_run_id prepared, crp_parent_effect_id prepared) := prepared]>
                                     (sp_child_mappings p)) p)
    | _ => Ok p
    end.
