(* ===== verification/Validate.v ===== *)
(** * Validating a kernel state

    Models [state/validate.rs], the full check a state passes before a kernel is
    restored from it: collection ceilings, the state version, pending work
    against the phase, control, composition, structured output and tool state.
    The maps are walked entry by entry; all entries of one map report the same
    error, so the order of the walk does not show. *)

From S2P Require Import Prelude Primitives Effects Records State Inputs ToolBatch Digests Policy ApplyStage ApplyTools ApplyEffects ApplyRecord Shapes Apply Decide DecideLimit DecideTools DecideControl.

Definition invalid_state (field reason_code : string) : KernelError := KernelError_InvalidInputPayload field reason_code.

(** ** Collection ceilings and the state version *)

Definition check_ceiling (u : unit) (entry : string * nat) : kresult unit :=
  reject_if (SEMANTIC_MAP_MAX_ENTRIES <? entry.2)%nat (invalid_state entry.1 "too_many_items").

Definition has_invalid_label {V} (m : gmap string V) : bool :=
  existsb (fun e : string * V => negb (label_is_valid e.1)) (map_to_list m).

Definition validate_collection_ceilings (s : KernelState) : kresult unit :=
  do? reject_if (SEMANTIC_ARRAY_MAX_ITEMS <? length (k_messages s))%nat (invalid_state "messages" "too_many_items") in
  do? rfold check_ceiling tt
        [("stage_settlements", size (k_stage_settlements s));
         ("model_settlements", size (k_model_settlements s));
         ("completion_identities", size (k_completion_identities s));
         ("tool_calls", size (k_tool_calls s));
         ("tool_settlements", size (k_tool_settlements s));
         ("timer_firings", size (rst_timer_firings (k_retry s)));
         ("child_preparations", size (k_child_preparations s));
         ("budget_reservations", size (k_budget_reservations s));
         ("budget_charges", size (k_budget_charges s));
         ("resolution_identities", size (k_resolution_identities s));
         ("extension_settlements", size (k_extension_settlements s))] in
  do? reject_if (has_invalid_label (k_completion_identities s)) (invalid_state "completion_identities" "invalid_label") in
  reject_if (has_invalid_label (k_resolution_identities s)) (invalid_state "resolution_identities" "invalid_label").

Definition nonempty {K} `{Countable K} {V} (m : gmap K V) : bool := negb (size m =? 0)%nat.

Definition has_tool_state (s : KernelState) : bool :=
  is_some (k_active_tool_batch s) || nonempty (k_tool_calls s) || nonempty (k_tool_settlements s)
  || is_some (k_last_tool_batch s).

Definition has_control_state (s : KernelState) : bool :=
  is_some (k_cancellation s) || (k_retry s <>?? RetryState_default) || is_some (k_last_limit s)
  || is_some (k_suspension s)
  || match k_terminal s with Some (TerminalState_Cancelled _) => true | _ => false end.

Definition has_structured_state (s : KernelState) : bool :=
  is_some (k_output_configuration s) || negb (length (k_active_capabilities s) =? 0)%nat
  || is_some (k_resolved_plan_digest s) || is_some (k_final_result s) || is_some (k_validation_failure s).

Definition has_composition_state (s : KernelState) : bool :=
  nonempty (k_child_preparations s) || nonempty (k_budget_reservations s) || nonempty (k_budget_charges s).

Definition has_interaction_state (s : KernelState) : bool :=
  is_some (k_pending_interaction s) || nonempty (k_resolution_identities s) || is_some (k_last_interaction_terminal s).

Definition has_extension_state (s : KernelState) : bool :=
  is_some (k_pending_extension_effect s) || nonempty (k_extension_settlements s).

Definition validate_state_version (s : KernelState) : kresult unit :=
  let v := k_state_version s in
  reject_if
    (negb ((1 <=? v) && (v <=? 7))
     || ((v =? 1) && has_tool_state s)
     || ((v <? 3) && has_control_state s)
     || ((v <? 4) && has_structured_state s)
     || ((v <? 5) && has_composition_state s)
     || ((v <? 6) && has_interaction_state s)
     || ((v <? 7) && has_extension_state s))
    (invalid_state "state_version" "unsupported_or_inconsistent").

(** ** Pending work and the phase *)

Definition extension_stage_phase (stage : Stage) : RunPhase :=
  match stage with
  | Stage_BeforeRun => RunPhase_BeforeRun
  | Stage_PrepareContext => RunPhase_PreparingContext
  | Stage_BeforeModel => RunPhase_BeforeModel
  | Stage_AfterModel => RunPhase_AfterModel
  | Stage_BeforeToolBatch => RunPhase_BeforeToolBatch
  | Stage_AfterToolBatch => RunPhase_AfterToolBatch
  | Stage_BeforeFinalize => RunPhase_BeforeFinalize
  end.

Definition extension_request_shape_matches (pending : PendingExtensionEffect) : bool :=
  let requested := pxe_requested pending in
  match req_input requested with
  | EffectInput_Context cursor _ =>
      (req_kind requested =?? EffectKind_Context)
      && (sc_stage cursor =?? Stage_PrepareContext)
      && is_some (req_component requested)
      && is_some_and (req_pipeline requested) (fun p => pp_stage p =?? "prepare_context")
      && (oc_kind (req_output_contract requested) =?? EffectOutputKind_ContextContribution)
      && (cursor =?? pxe_cursor pending)
  | EffectInput_Middleware cursor stage _ _ =>
      (req_kind requested =?? EffectKind_Middleware)
      && is_some (req_component requested)
      && is_some_and (req_pipeline requested) (fun p =>
           (pp_stage p =?? stage) && (stage =?? stage_name (sc_stage cursor)))
      && (oc_kind (req_output_contract requested) =?? EffectOutputKind_MiddlewareOutcome)
      && (cursor =?? pxe_cursor pending)
  | _ => false
  end.

(** The phases a run is in while its cancellation is being reconciled. *)
Definition reconciling (phase : option RunPhase) : bool :=
  match phase with Some (RunPhase_Cancelling | RunPhase_Suspended) => true | _ => false end.

Definition validate_pending_extension_effect (s : KernelState) (pending : PendingExtensionEffect) : kresult unit :=
  let expected_phase := extension_stage_phase (sc_stage (pxe_cursor pending)) in
  let phase_matches :=
    if is_some (k_cancellation s) then reconciling (k_phase s) else k_phase s =?? Some expected_phase in
  reject_if
    (negb (sc_cycle (pxe_cursor pending) =? k_cycle s) || negb phase_matches
     || negb (extension_request_shape_matches pending))
    (invalid_state "pending_extension_effect" "inconsistent").

Definition validate_pending_interaction (s : KernelState) : kresult unit :=
  reject_if
    (((k_phase s =?? Some RunPhase_AwaitingInteraction) && is_none (k_pending_interaction s))
     || (is_some (k_pending_interaction s)
         && negb ((k_phase s =?? Some RunPhase_AwaitingInteraction) || reconciling (k_phase s))))
    (invalid_state "pending_interaction" "inconsistent").

Definition terminal_phase_matches (terminal : option TerminalState) (phase : option RunPhase) : bool :=
  match terminal, phase with
  | Some (TerminalState_Completed _), Some RunPhase_Completed
  | Some (TerminalState_Failed _), Some RunPhase_Failed
  | Some (TerminalState_Cancelled _), Some RunPhase_Cancelled => true
  | None, phase => negb (is_terminal_phase phase)
  | _, _ => false
  end.

Definition validate_terminal_phase (s : KernelState) : kresult unit :=
  reject_if (negb (terminal_phase_matches (k_terminal s) (k_phase s))) (invalid_state "terminal" "inconsistent_phase").

(** ** Control state *)

Definition validate_control_phases (s : KernelState) : kresult unit :=
  do? reject_if (negb (Bool.eqb (is_some (k_accepted s)) (is_some (k_accepted_at s))))
        (invalid_state "accepted_at" "inconsistent") in
  do? reject_if
        ((is_some (k_cancellation s)
          && negb (reconciling (k_phase s) || (k_phase s =?? Some RunPhase_Cancelled)))
         || (((k_phase s =?? Some RunPhase_Cancelling) || (k_phase s =?? Some RunPhase_Cancelled))
             && is_none (k_cancellation s)))
        (invalid_state "cancellation" "inconsistent") in
  reject_if ((k_phase s =?? Some RunPhase_Suspended) && is_none (k_suspension s))
    (invalid_state "suspension" "inconsistent").

Section StateValidation.
Context `{Hasher}.

Definition validate_limit_state (s : KernelState) : kresult unit :=
  let counters := lu_extension_counters (k_limit_usage s) in
  do? reject_if
        ((MAX_EXTENSION_COUNTERS <? size counters)%nat
         || is_some_and (k_accepted s) (fun accepted =>
              existsb (fun e : LimitKey * Z => is_none (rl_extension_counters (ra_limits accepted) !! e.1))
                (map_to_list counters)))
        (invalid_state "limit_usage.extension_counters" "unregistered_or_too_many_entries") in
  reject_if (is_some_and (k_last_limit s) (fun limit => negb (LimitReached_valid limit)))
    (invalid_state "last_limit" "invalid_value_kind").

Definition validate_retry_state (s : KernelState) : kresult unit :=
  reject_if
    (is_some_and (rst_pending (k_retry s)) (fun pending =>
       negb (rs_attempt pending =? rst_attempts (k_retry s))
       || negb ((k_phase s =?? Some RunPhase_Sleeping) || reconciling (k_phase s)))
     || ((k_phase s =?? Some RunPhase_Sleeping) && is_none (rst_pending (k_retry s))))
    (invalid_state "retry" "inconsistent").

Definition check_recorded_set (u : unit) (entry : string * list EffectId) : kresult unit :=
  reject_if ((SEMANTIC_ARRAY_MAX_ITEMS <? length entry.2)%nat || negb (strictly_ascending entry.2))
    (invalid_state entry.1 "invalid_effect_set").

Definition validate_cancellation_effect_sets (c : CancellationState) : kresult unit :=
  do? rfold check_recorded_set tt
        [("cancellation.completed_effects", cs_completed_effects c);
         ("cancellation.cancelled_effects", cs_cancelled_effects c);
         ("cancellation.uncertain_effects", cs_uncertain_effects c);
         ("cancellation.outstanding_effects", cs_outstanding_effects c)] in
  let chained := cs_completed_effects c ++ cs_cancelled_effects c ++ cs_uncertain_effects c in
  let classified : gset EffectId := list_to_set chained in
  reject_if
    (negb (size classified =? length chained)%nat
     || existsb (fun id => bool_decide (id ∈ classified)) (cs_outstanding_effects c))
    (invalid_state "cancellation" "overlapping_effect_sets").

Definition validate_control_state (s : KernelState) : kresult unit :=
  do? validate_control_phases s in
  do? validate_limit_state s in
  do? validate_retry_state s in
  match k_cancellation s with
  | Some cancellation => validate_cancellation_effect_sets cancellation
  | None => Ok tt
  end.

(** ** Composition *)

Definition child_preparation_valid (accepted : RunAccepted) (parent_session_id : SessionId) (parent_lane_id : LaneId)
    (entry : EffectId * ChildRunPrepared) : bool :=
  let '(effect_id, prepared) := entry in
  let operation := crl_operation (crp_child prepared) in
  let same_session := ol_session_id operation =?? parent_session_id in
  let placement_matches :=
    match crp_placement prepared with
    | ChildPlacement_CompatibleLaneInParentSession => same_session && (ol_lane_id operation <>?? parent_lane_id)
    | ChildPlacement_IsolatedChildSession | ChildPlacement_RemoteChildSession => negb same_session
    end in
  negb ((effect_id <>?? crp_parent_effect_id prepared) || (crp_parent_run_id prepared <>?? ra_run_id accepted)
        || negb (ChildRunPrepared_valid prepared (rsc_tenant_scope (ra_security accepted)))
        || negb placement_matches).

Definition budget_reservation_valid (s : KernelState) (entry : BudgetReservationId * BudgetReservationReplay) : bool :=
  let '(reservation_id, replay) := entry in
  let request := brp_request replay in
  negb ((reservation_id <>?? brq_reservation_id request)
        || negb (BudgetReserveRequest_valid request)
        || is_some_and (brp_settlement replay) (fun receipt =>
             negb (BudgetReservationReceipt_valid receipt)
             || (brr_scope_id receipt <>?? brq_scope_id request)
             || (brr_reservation_id receipt <>?? brq_reservation_id request)
             || (brr_request_digest receipt <>?? brq_request_digest request)
             || (brr_reserved receipt <>?? brq_amount request))
        || is_some_and (brp_release replay) (fun receipt =>
             negb (BudgetReleaseReceipt_valid receipt)
             || (brl_scope_id receipt <>?? brq_scope_id request)
             || (brl_reservation_id receipt <>?? brq_reservation_id request)
             || is_none (brp_settlement replay)
             || is_none (k_terminal s))).

Definition budget_charge_valid (s : KernelState) (entry : EffectId * BudgetChargeReceipt) : bool :=
  let '(effect_id, receipt) := entry in
  negb ((effect_id <>?? bcr_effect_id receipt)
        || negb (BudgetChargeReceipt_valid receipt)
        || negb (is_some_and (k_budget_reservations s !! bcr_reservation_id receipt) (fun reservation =>
                   is_some (brp_settlement reservation)
                   && (brq_scope_id (brp_request reservation) =?? bcr_scope_id receipt)))).

Definition validate_child_preparations (s : KernelState) (accepted : RunAccepted) (parent_session_id : SessionId)
    (parent_lane_id : LaneId) : kresult unit :=
  reject_if (negb (forallb (child_preparation_valid accepted parent_session_id parent_lane_id)
                     (map_to_list (k_child_preparations s))))
    (invalid_state "child_preparations" "inconsistent").

Definition validate_budget_reservations (s : KernelState) : kresult unit :=
  reject_if (negb (forallb (budget_reservation_valid s) (map_to_list (k_budget_reservations s))))
    (invalid_state "budget_reservations" "inconsistent").

Definition validate_budget_charges (s : KernelState) : kresult unit :=
  reject_if (negb (forallb (budget_charge_valid s) (map_to_list (k_budget_charges s))))
    (invalid_state "budget_charges" "inconsistent").

Definition validate_composition_state (s : KernelState) : kresult unit :=
  let? accepted := ok_or (k_accepted s) (invalid_state "composition_state" "missing_accepted_run") in
  let? parent_session_id := ok_or (k_session_id s) (invalid_state "composition_state" "missing_session_id") in
  let? parent_lane_id := ok_or (k_lane_id s) (invalid_state "composition_state" "missing_lane_id") in
  do? validate_child_preparations s accepted parent_session_id parent_lane_id in
  do? validate_budget_reservations s in
  validate_budget_charges s.

(** ** Structured output *)

Definition validate_final_result (s : KernelState) (res : FinalResultRecorded) : kresult unit :=
  let configuration_matches :=
    match k_output_configuration s with
    | Some (mkOutputConfiguration (OutputSpec_JsonSchema schema) end_strategy) =>
        (schema =?? frr_schema res) && (end_strategy =?? frr_end_strategy res)
    | _ => false
    end in
  let candidate_matches :=
    match k_terminal_candidate s with
    | Some (TerminalCandidate_Completed cycle turn_id model_request_id effect_id message_id result_digest) =>
        (cycle =? frr_cycle res) && (turn_id =?? frr_turn_id res) && (model_request_id =?? frr_model_request_id res)
        && (effect_id =?? frr_effect_id res) && (message_id =?? frr_message_id res)
        && (result_digest =?? frr_value_digest res)
    | _ => false
    end in
  reject_if (negb configuration_matches || negb candidate_matches)
    (invalid_state "final_result" "configuration_mismatch").

Definition validate_validation_failure (s : KernelState) (failure : OutputValidationFailed) : kresult unit :=
  let schema_matches :=
    match k_output_configuration s with
    | Some (mkOutputConfiguration (OutputSpec_JsonSchema schema) _) => schema =?? ovf_schema failure
    | _ => false
    end in
  let candidate_matches :=
    match k_terminal_candidate s with
    | Some (TerminalCandidate_Failed cycle (Some turn_id) (Some model_request_id) (Some effect_id) error) =>
        (cycle =? ovf_cycle failure) && (turn_id =?? ovf_turn_id failure)
        && (model_request_id =?? ovf_model_request_id failure) && (effect_id =?? ovf_effect_id failure)
        && (error =?? ovf_error failure)
    | _ => false
    end in
  reject_if (negb schema_matches || negb candidate_matches)
    (invalid_state "validation_failure" "configuration_mismatch").

Definition validate_structured_output_state (s : KernelState) : kresult unit :=
  do? reject_if (is_some_and (k_output_configuration s) (fun c => negb (OutputConfiguration_valid c)))
        (invalid_state "output_configuration" "invalid") in
  do? reject_if ((SEMANTIC_ARRAY_MAX_ITEMS <? length (k_active_capabilities s))%nat
                 || negb (strictly_sorted_from None (k_active_capabilities s)))
        (invalid_state "active_capabilities" "invalid_capability_set") in
  do? reject_if (is_some (k_final_result s) && is_some (k_validation_failure s))
        (invalid_state "structured_output" "conflicting_outcomes") in
  do? reject_if (is_some_and (k_final_result s) (fun r => negb (FinalResultRecorded_valid r))
                 || is_some_and (k_validation_failure s) (fun f => negb (OutputValidationFailed_valid f)))
        (invalid_state "structured_output" "invalid") in
  do? match k_final_result s with Some r => validate_final_result s r | None => Ok tt end in
  do? match k_validation_failure s with Some f => validate_validation_failure s f | None => Ok tt end in
  reject_if ((is_some (k_final_result s) || is_some (k_validation_failure s)) && negb (wants_json_schema s))
    (invalid_state "structured_output" "missing_configuration").

(** ** The active tool batch

    The source reports [Err(())]; here a check is a boolean, and the loop over
    the calls is an [option] of whether a call of the batch is in flight. *)

Definition tool_request_matches_plan (assigned : AssignedToolCall) (plan : ValidatedToolCall)
    (requested : EffectRequested) (deferred : option EffectDeferred) : bool :=
  (req_effect_id requested =?? asg_effect_id assigned)
  && (req_kind requested =?? EffectKind_Tool)
  && is_none (req_relation requested)
  && (req_component requested =?? vt_component plan)
  && is_none (req_pipeline requested)
  && (req_output_contract requested =?? vt_output_contract plan)
  && (oc_kind (req_output_contract requested) =?? EffectOutputKind_ToolResult)
  && match req_input requested with EffectInput_Tool c => c =?? vt_call plan | _ => false end
  && (req_retry_safety requested =?? vt_retry_safety plan)
  && (req_deadline requested =?? vt_deadline plan)
  && is_none_or deferred (fun d => validate_settlement requested (def_effect_id d) (def_output_contract d)).

Definition expected_group_index (batch : ActiveToolBatch) (index : nat) (assigned : AssignedToolCall) : option Z :=
  match index with
  | O => Some 0
  | S previous =>
      prior ← tbo_calls (atb_opened batch) !! previous;
      if (plan_execution (asg_plan prior) =?? ToolExecutionMode_Parallel)
         && (plan_execution (asg_plan assigned) =?? ToolExecutionMode_Parallel)
      then Some (asg_group_index prior)
      else u32_checked_add (asg_group_index prior) 1
  end.

Definition validate_active_batch_header (s : KernelState) (batch : ActiveToolBatch) : bool :=
  let nested_model := is_some_and (k_pending_model_effect s) (fun p => is_nested_model (pme_requested p)) in
  let allowed_phase :=
    match k_phase s with
    | Some (RunPhase_AwaitingTools | RunPhase_AwaitingExternal | RunPhase_AwaitingInteraction
           | RunPhase_Cancelling | RunPhase_Suspended) => true
    | _ => false
    end || (nested_model && (k_phase s =?? Some RunPhase_AwaitingModel)) in
  let finalized := Z.to_nat (atb_next_source_index batch) in
  negb (negb allowed_phase
        || (is_some (k_pending_model_effect s) && negb nested_model)
        || negb (tbo_cycle (atb_opened batch) =? k_cycle s)
        || (length (atb_calls batch) =? 0)%nat
        || negb (length (atb_calls batch) =? length (tbo_calls (atb_opened batch)))%nat
        || (length (atb_calls batch) <? finalized)%nat
        || negb (length (atb_result_message_ids batch) =? finalized)%nat
        || is_none_or (k_current_turn s) (fun turn => ct_turn_id turn <>?? tbo_turn_id (atb_opened batch))).

Definition validate_active_batch_external_phase (s : KernelState) (batch : ActiveToolBatch) : bool :=
  let expected_external := existsb (fun c => is_deferred (atc_status c)) (atb_calls batch) in
  negb (((k_phase s =?? Some RunPhase_AwaitingTools) || (k_phase s =?? Some RunPhase_AwaitingExternal))
        && negb (Bool.eqb (k_phase s =?? Some RunPhase_AwaitingExternal) expected_external)).

(** The settlement recorded for the call has this digest. *)
Definition settlement_recorded (s : KernelState) (c : ActiveToolCall) (digest : Digest) : bool :=
  is_some_and (k_tool_settlements s !! asg_effect_id (atc_assigned c)) (fun entry => tsf_digest entry =?? digest).

Definition validate_active_call_status (s : KernelState) (batch : ActiveToolBatch) (index : nat) (c : ActiveToolCall)
    (finalized : nat) : option bool :=
  let group := asg_group_index (atc_assigned c) in
  match asg_plan (atc_assigned c), atc_status c with
  | ToolCallPlan_SyntheticClosure _, (ActiveToolCallStatus_Undispatched | ActiveToolCallStatus_Requested _ _) => None
  | ToolCallPlan_Execute plan, ActiveToolCallStatus_Requested requested deferred =>
      if negb (group =? atb_current_group batch)
         || negb (tool_request_matches_plan (atc_assigned c) plan requested deferred)
      then None else Some true
  | ToolCallPlan_Execute _, ActiveToolCallStatus_Undispatched =>
      if group <=? atb_current_group batch then None else Some false
  | plan, ActiveToolCallStatus_Buffered res settlement_digest synthetic error =>
      if (is_execute plan && (atb_current_group batch <? group) && negb (reconciling (k_phase s)))
         || (tr_tool_call_id res <>?? tc_tool_call_id (plan_call plan))
         || negb (Bool.eqb synthetic (is_some error))
         || (synthetic && negb (tr_is_error res))
         || (is_execute plan && negb (settlement_recorded s c settlement_digest))
      then None else Some false
  | plan, ActiveToolCallStatus_Settled result_message_id settlement_digest =>
      if (is_execute plan && (atb_current_group batch <? group) && negb (reconciling (k_phase s)))
         || negb (settlement_recorded s c settlement_digest)
         || (finalized <=? index)%nat
         || (atb_result_message_ids batch !! index <>?? Some result_message_id)
      then None else Some false
  end.

Definition validate_active_tool_call (s : KernelState) (batch : ActiveToolBatch) (finalized : nat)
    (entry : nat * (ActiveToolCall * AssignedToolCall)) : option bool :=
  let '(index, (c, opened_call)) := entry in
  let planned := plan_call (asg_plan (atc_assigned c)) in
  if (atc_assigned c <>?? opened_call) || negb (asg_source_index (atc_assigned c) =? Z.of_nat index) then None
  else
    group ← expected_group_index batch index (atc_assigned c);
    if negb (asg_group_index (atc_assigned c) =? group) then None
    else
      identity ← k_tool_calls s !! tc_tool_call_id planned;
      if (tci_call identity <>?? planned)
         || (tci_tool_batch_id identity <>?? Some (tbo_tool_batch_id (atb_opened batch)))
         || (tci_effect_id identity <>?? Some (asg_effect_id (atc_assigned c)))
      then None
      else
        is_current_request ← validate_active_call_status s batch index c finalized;
        if ((index <? finalized)%nat && negb (is_settled (atc_status c)))
           || ((finalized <=? index)%nat && is_settled (atc_status c))
        then None else Some is_current_request.

Definition validate_call_step (s : KernelState) (batch : ActiveToolBatch) (finalized : nat) (has_current : option bool)
    (entry : nat * (ActiveToolCall * AssignedToolCall)) : option bool :=
  has_current ← has_current;
  is_current ← validate_active_tool_call s batch finalized entry;
  Some (has_current || is_current).

Definition validate_active_tool_batch (s : KernelState) (batch : ActiveToolBatch) : bool :=
  validate_active_batch_header s batch
  && validate_active_batch_external_phase s batch
  && match foldl (validate_call_step s batch (Z.to_nat (atb_next_source_index batch))) (Some false)
             (enumerate (zip (atb_calls batch) (tbo_calls (atb_opened batch)))) with
     | None => false
     | Some has_current_request =>
         let has_fail_run_settlement :=
           existsb (fun c =>
             (plan_failure_policy (asg_plan (atc_assigned c)) =?? ToolFailurePolicy_FailRun)
             && is_some_and (k_tool_settlements s !! asg_effect_id (atc_assigned c)) (fun entry =>
                  tsf_kind entry =?? ToolSettlementKind_Failed)) (atb_calls batch) in
         Bool.eqb (is_some (atb_fatal_error batch)) has_fail_run_settlement && has_current_request
     end.

(** ** Tool state *)

(** The tool calls the assistant authored, with the message of each. *)
Definition authored (s : KernelState) : list (MessageId * ToolCallBlock) :=
  message ← k_messages s;
  if msg_role message =?? MessageRole_Assistant then
    omap (fun block => match block with ContentBlock_ToolCall c => Some (msg_id message, c) | _ => None end)
      (msg_content message)
  else [].

Definition check_identity (s : KernelState) (effect_ids : gset EffectId) (entry : ToolCallId * ToolCallIdentity)
    : option (gset EffectId) :=
  let '(tool_call_id, identity) := entry in
  if (tc_tool_call_id (tci_call identity) <>?? tool_call_id)
     || negb (Bool.eqb (is_some (tci_tool_batch_id identity)) (is_some (tci_effect_id identity)))
     || negb (existsb (fun a : MessageId * ToolCallBlock =>
                (tc_tool_call_id a.2 =?? tool_call_id) && (a.1 =?? tci_source_message_id identity)
                && (a.2 =?? tci_call identity)) (authored s))
  then None
  else
    match tci_effect_id identity with
    | Some effect_id => if decide (effect_id ∈ effect_ids) then None else Some ({[effect_id]} ∪ effect_ids)
    | None => Some effect_ids
    end.

Definition check_identities (s : KernelState) : option (gset EffectId) :=
  foldl (fun st entry => ids ← st; check_identity s ids entry) (Some ∅) (map_to_list (k_tool_calls s)).

Definition last_batch_phase (phase : option RunPhase) : bool :=
  match phase with
  | Some (RunPhase_AfterToolBatch | RunPhase_BeforeFinalize | RunPhase_Completed | RunPhase_Failed
         | RunPhase_Cancelling | RunPhase_Suspended | RunPhase_Cancelled) => true
  | _ => false
  end.

Definition last_batch_valid (s : KernelState) (closed : ToolBatchClosed) : bool :=
  let assigned_count :=
    count (fun e : ToolCallId * ToolCallIdentity => tci_tool_batch_id e.2 =?? Some (tbc_tool_batch_id closed))
      (map_to_list (k_tool_calls s)) in
  let tool_message_ids : list MessageId :=
    msg_id <$> List.filter (fun m => msg_role m =?? MessageRole_Tool) (k_messages s) in
  negb (negb (last_batch_phase (k_phase s))
        || (k_cycle s <? tbc_cycle closed)
        || (assigned_count =? 0)%nat
        || negb (assigned_count =? length (tbc_result_message_ids closed))%nat
        || existsb (fun id => negb (bool_decide (id ∈ tool_message_ids))) (tbc_result_message_ids closed)).

Definition validate_tool_state (s : KernelState) : kresult unit :=
  let invalid := invalid_state "tool_state" "inconsistent" in
  do? reject_if (negb (nonempty (k_tool_calls s)) || (is_some (k_active_tool_batch s) && is_some (k_last_tool_batch s)))
        invalid in
  let? effect_ids := ok_or (check_identities s) invalid in
  do? reject_if (existsb (fun e : EffectId * ToolSettlementFingerprint => negb (bool_decide (e.1 ∈ effect_ids)))
                   (map_to_list (k_tool_settlements s))) invalid in
  do? match k_active_tool_batch s with
      | Some batch => reject_if (negb (validate_active_tool_batch s batch)) invalid
      | None =>
          reject_if ((k_phase s =?? Some RunPhase_AwaitingTools)
                     || ((k_phase s =?? Some RunPhase_AwaitingExternal) && is_none (k_pending_model_effect s))) invalid
      end in
  match k_last_tool_batch s with
  | Some closed => reject_if (negb (last_batch_valid s closed)) invalid
  | None => Ok tt
  end.

(** ** The whole check *)

(** A check that applies from a state version on. *)
Definition from_version (s : KernelState) (version : Z) (checked : kresult unit) : kresult unit :=
  if version <=? k_state_version s then checked else Ok tt.

Definition validate (s : KernelState) : kresult unit :=
  do? validate_collection_ceilings s in
  do? validate_state_version s in
  do? match k_pending_extension_effect s with
      | Some pending => validate_pending_extension_effect s pending
      | None => Ok tt
      end in
  do? validate_pending_interaction s in
  do? validate_terminal_phase s in
  do? (if has_tool_state s then from_version s 2 (validate_tool_state s) else Ok tt) in
  do? from_version s 3 (validate_control_state s) in
  do? from_version s 5 (validate_composition_state s) in
  from_version s 4 (validate_structured_output_state s).
End StateValidation.
