(* ===== verification/Reducer.v ===== *)
(** * The reducer: review, limits and dispatch

    Models [reducer/decide/settlement.rs], [decide] of [reducer/decide/mod.rs]
    and [Kernel::decide].  Every input is first reviewed against what is already
    settled (an equal settlement is a duplicate, a different one a conflict), then
    against the limits of the run, and only then decided. *)

From S2P Require Import Prelude Primitives Ids Effects Records State Inputs ToolBatch Digests Policy ApplyStage ApplyTools ApplyEffects ApplyRecord Shapes Apply Decide DecideLimit DecideTools DecideStage DecideSettle DecideControl.

Inductive SettlementReview : Type :=
| SettlementReview_Duplicate
| SettlementReview_Fresh (digest : Digest)
| SettlementReview_Unreviewed.

Definition review_index (existing : option Digest) (digest : Digest) : kresult SettlementReview :=
  match existing with
  | Some existing => if existing =?? digest then Ok SettlementReview_Duplicate
                     else Err KernelError_ConflictingSettlement
  | None => Ok (SettlementReview_Fresh digest)
  end.

Definition review_completion_or_map (s : KernelState) (completion_id : option string) (effect_id : EffectId)
    (digest : Digest) (existing_settlement : option Digest) : kresult SettlementReview :=
  match (c ← completion_id; k_completion_identities s !! c) with
  | Some existing =>
      if (cid_effect_id existing =?? effect_id) && (cid_settlement_digest existing =?? digest)
      then Ok SettlementReview_Duplicate else Err KernelError_ConflictingCompletionId
  | None => review_index existing_settlement digest
  end.

Section Reducer.
Context `{Hasher, Serde}.

(** An equal deferral of the pending model effect is a duplicate. *)
Definition review_model_deferred (s : KernelState) (input : ModelSettled) (digest : Digest)
    : kresult SettlementReview :=
  match ms_outcome input, k_pending_model_effect s with
  | ModelSettlement_Deferred deferred, Some pending =>
      match (existing ← pme_deferred pending;
             if req_effect_id (pme_requested pending) =?? def_effect_id deferred then Some existing else None) with
      | Some existing =>
          let? existing_digest := direct_digest (mkModelSettled (pme_turn_id pending) (pme_model_request_id pending)
                                                   (ModelSettlement_Deferred existing)) in
          review_index (Some existing_digest) digest
      | None => Ok (SettlementReview_Fresh digest)
      end
  | _, _ => Ok (SettlementReview_Fresh digest)
  end.

Definition review_tool_deferred (s : KernelState) (input : ToolBatchSettled) (digest : Digest)
    : kresult SettlementReview :=
  match tbs_outcome input, k_active_tool_batch s with
  | ToolSettlement_Deferred _, Some batch =>
      match (active ← call batch (ToolSettlement_effect_id (tbs_outcome input));
             if tbo_tool_batch_id (atb_opened batch) =?? tbs_tool_batch_id input
             then Some (atc_status active) else None) with
      | Some (ActiveToolCallStatus_Requested _ (Some existing)) =>
          let? existing_digest := direct_tool_digest (tbs_tool_batch_id input) (ToolSettlement_Deferred existing) in
          review_index (Some existing_digest) digest
      | _ => Ok (SettlementReview_Fresh digest)
      end
  | _, _ => Ok (SettlementReview_Fresh digest)
  end.

Definition review_model (s : KernelState) (input : ModelSettled) : kresult SettlementReview :=
  let? digest := direct_digest input in
  let effect_id := ModelSettlement_effect_id (ms_outcome input) in
  let? reviewed := review_completion_or_map s (ModelSettlement_completion_id (ms_outcome input)) effect_id digest
                     (msf_digest <$> k_model_settlements s !! effect_id) in
  match reviewed with
  | SettlementReview_Duplicate => Ok SettlementReview_Duplicate
  | _ => review_model_deferred s input digest
  end.

Definition review_tool (s : KernelState) (input : ToolBatchSettled) : kresult SettlementReview :=
  let? digest := direct_tool_digest (tbs_tool_batch_id input) (tbs_outcome input) in
  let effect_id := ToolSettlement_effect_id (tbs_outcome input) in
  let? reviewed := review_completion_or_map s (ToolSettlement_completion_id (tbs_outcome input)) effect_id digest
                     (tsf_digest <$> k_tool_settlements s !! effect_id) in
  match reviewed with
  | SettlementReview_Duplicate => Ok SettlementReview_Duplicate
  | _ => review_tool_deferred s input digest
  end.

Definition review_external (s : KernelState) (input : ExternalEffectCompletedInput) : kresult SettlementReview :=
  let effect_id := xec_effect_id (xei_completion input) in
  let completion_id := xec_completion_id (xei_completion input) in
  do? reject_if (is_some_and (k_completion_identities s !! completion_id) (fun existing =>
                   cid_effect_id existing <>?? effect_id)) KernelError_ConflictingCompletionId in
  if is_known_tool_effect s effect_id then
    let? tool_batch_id := ok_or (tool_batch_id_for_effect s effect_id) (KernelError_EffectNotPending effect_id) in
    let? digest := external_tool_digest tool_batch_id input in
    review_completion_or_map s (Some completion_id) effect_id digest (tsf_digest <$> k_tool_settlements s !! effect_id)
  else
    let? digest := external_digest input in
    review_completion_or_map s (Some completion_id) effect_id digest
      (msf_digest <$> k_model_settlements s !! effect_id).

Definition review_settlement (s : KernelState) (input : KernelInput) : kresult SettlementReview :=
  match input with
  | KernelInput_StageSettled input =>
      let? digest := stage_digest input in
      review_index (k_stage_settlements s !! ss_cursor input) digest
  | KernelInput_ModelSettled input => review_model s input
  | KernelInput_ToolBatchSettled input => review_tool s input
  | KernelInput_ExternalEffectCompleted input => review_external s input
  | KernelInput_InteractionSettled (InteractionSettled_Resolved resolution) =>
      let? digest := resolution_digest resolution in
      review_index (rid_settlement_digest <$> k_resolution_identities s !! ires_resolution_id resolution) digest
  | _ => Ok SettlementReview_Unreviewed
  end.

(** Cancellation is authorized before anything else is looked at. *)
Definition authorize_cancel (s : KernelState) (env : TransitionEnv) (input : KernelInput) : kresult unit :=
  match input, k_accepted s with
  | KernelInput_CancelRequested cancel, Some accepted =>
      if is_none (k_cancellation s) && is_none (k_terminal s)
      then validate_cancel_authorization accepted env cancel else Ok tt
  | _, _ => Ok tt
  end.

(** The canonical context of a prepared-context settlement, computed once. *)
Definition context_canonical_of (input : KernelInput) : kresult (option (Digest * nat)) :=
  match input with
  | KernelInput_StageSettled (mkStageSettled _ (ReducerStageOutcome_ContextPrepared messages)) =>
      let? canonical := ok_or (context_digest_and_len messages) KernelError_ContextDigestMismatch in
      Ok (Some canonical)
  | _ => Ok None
  end.

Definition dispatch (s : KernelState) (env : TransitionEnv) (input : KernelInput) (review : SettlementReview)
    (context_canonical : option (Digest * nat)) : kresult Decision :=
  match input, review with
  | KernelInput_AcceptRun input, SettlementReview_Unreviewed => decide_accept s env input
  | KernelInput_StageSettled input, SettlementReview_Fresh digest =>
      decide_stage s env input context_canonical digest
  | KernelInput_ModelSettled input, SettlementReview_Fresh _ => decide_model s env input
  | KernelInput_ExternalEffectCompleted input, SettlementReview_Fresh digest => decide_external s env input digest
  | KernelInput_ToolBatchSettled input, SettlementReview_Fresh digest => decide_tool_settled s env input digest
  | KernelInput_CancelRequested input, SettlementReview_Unreviewed => decide_cancel s env input
  | KernelInput_CancellationReconciled input, SettlementReview_Unreviewed => decide_reconciliation s env input
  | KernelInput_TimerFired input, SettlementReview_Unreviewed => decide_timer_fired s env input
  | KernelInput_ConfigureOutput input, SettlementReview_Unreviewed => decide_configure_output s env input
  | KernelInput_CapabilitiesActivated input, SettlementReview_Unreviewed =>
      decide_capabilities_activated s env input
  | KernelInput_OutputValidated input, SettlementReview_Unreviewed => decide_output_validated s env input
  | KernelInput_RequestInteraction input, SettlementReview_Unreviewed => decide_interaction_request s env input
  | KernelInput_InteractionSettled input, (SettlementReview_Fresh _ | SettlementReview_Unreviewed) =>
      decide_interaction_settled s env input
  | KernelInput_RequestCompactionModel input, SettlementReview_Unreviewed =>
      decide_request_compaction_model s env input
  | KernelInput_RequestExtensionEffect input, SettlementReview_Unreviewed => decide_extension_request s env input
  | KernelInput_ExtensionEffectSettled input, SettlementReview_Unreviewed => decide_extension_settled s env input
  | _, _ => Err KernelError_InvariantViolation
  end.

(** [decide], and [Kernel::decide] on the state the kernel owns. *)
Definition Kernel_decide (s : KernelState) (env : TransitionEnv) (input : KernelInput) : kresult Decision :=
  match input with
  | KernelInput_RecordExternalCommandRejected input => decide_external_command_rejected s env input
  | _ =>
      do? authorize_cancel s env input in
      let? context_canonical := context_canonical_of input in
      let? review := review_settlement s input in
      match review with
      | SettlementReview_Duplicate => duplicate_decision s
      | _ =>
          let? limit := decide_limit s env input context_canonical in
          match limit with
          | Some d => Ok d
          | None => dispatch s env input review context_canonical
          end
      end
  end.
End Reducer.
