(* ===== verification/Decisions.v ===== *)
(** * What every decision is made of

    A decision either repeats what is already settled, and proposes nothing, or
    proposes records that carry exactly the bodies it decided on and consume
    exactly the record and event identities the coordinator allocated, in order.
    The lemmas follow every branch of the decide side.

    The second part shows that deciding and replaying agree on limits. *)

From stdpp Require Import sorting.
From S2P Require Import Prelude Primitives Ids Effects Records State Inputs ToolBatch Digests Policy ApplyStage ApplyTools ApplyEffects ApplyRecord Shapes Events Apply Decide DecideLimit DecideTools DecideStage.
From S2P Require Import DecideSettle DecideControl Reducer.

(** ** Allocated identities *)

Lemma check_exhausted_all queues : rfold check_exhausted tt queues = Ok tt <->
  Forall (fun q : string * nat * nat => (q.2 <= q.1.2)%nat) queues.
Proof.
  induction queues as [|[[k a] n] queues IH]; cbn [rfold check_exhausted]; [split; [constructor|done]|].
  rewrite Forall_cons. destruct (Nat.ltb_spec a n); cbn [reject_if rbind fst snd].
  - split; [done|]. intros [? _]. lia.
  - rewrite IH. split; [done|by intros [_ ?]].
Qed.

Lemma check_unused_all queues : rfold check_unused tt queues = Ok tt <->
  Forall (fun q : string * nat * nat => (q.1.2 <= q.2)%nat) queues.
Proof.
  induction queues as [|[[k a] n] queues IH]; cbn [rfold check_unused]; [split; [constructor|done]|].
  rewrite Forall_cons. destruct (Nat.ltb_spec n a); cbn [reject_if rbind fst snd].
  - split; [done|]. intros [? _]. lia.
  - rewrite IH. split; [done|by intros [_ ?]].
Qed.

Lemma check_exhausted_Err queues e : rfold check_exhausted tt queues = Err e ->
  exists kind available needed, e = KernelError_AllocatedIdsExhausted kind /\
    (kind, available, needed) ∈ queues /\ (available < needed)%nat.
Proof.
  induction queues as [|[[k a] n] queues IH]; cbn [rfold check_exhausted]; [done|].
  destruct (Nat.ltb_spec a n); cbn [reject_if rbind].
  - intros [= <-]. exists k, a, n. split_and!; [done|left|done].
  - intros (k' & a' & n' & ? & ? & ?)%IH. exists k', a', n'. split_and!; [done|by right|done].
Qed.

Lemma check_unused_Err queues e : rfold check_unused tt queues = Err e ->
  exists kind available needed, e = KernelError_UnusedAllocatedIds kind /\
    (kind, available, needed) ∈ queues /\ (needed < available)%nat.
Proof.
  induction queues as [|[[k a] n] queues IH]; cbn [rfold check_unused]; [done|].
  destruct (Nat.ltb_spec n a); cbn [reject_if rbind].
  - intros [= <-]. exists k, a, n. split_and!; [done|left|done].
  - intros (k' & a' & n' & ? & ? & ?)%IH. exists k', a', n'. split_and!; [done|by right|done].
Qed.

(** Validation succeeds when every queue has exactly what is needed. *)
Lemma validate_allocated_exact ids r : validate_allocated_ids ids r = Ok tt <->
  Forall (fun q : string * nat * nat => q.1.2 = q.2) (id_queues ids r).
Proof.
  unfold validate_allocated_ids. split.
  - intros HH. step HH. destruct a. apply check_exhausted_all in E. apply check_unused_all in HH.
    rewrite Forall_forall in *. intros q Hq. specialize (E q Hq). specialize (HH q Hq). cbn beta in *. lia.
  - intros Hall. rewrite (proj2 (check_exhausted_all _)).
    + cbn [rbind]. apply check_unused_all. eapply Forall_impl; [exact Hall|]. intros q Heq. cbn beta in *. lia.
    + eapply Forall_impl; [exact Hall|]. intros q Heq. cbn beta in *. lia.
Qed.

Lemma validate_allocated_lengths ids r u : validate_allocated_ids ids r = Ok u ->
  length (ids_record_ids ids) = idr_records r /\ length (ids_event_ids ids) = idr_events r.
Proof.
  destruct u. intros Hall%validate_allocated_exact. unfold id_queues in Hall. rewrite !Forall_cons in Hall.
  by destruct Hall as (? & ? & _).
Qed.

(** ** Drafts *)

(** The events of a body: the next [count] identities of the queue. *)
Lemma event_ids_loop queue start count acc ids :
  rfold (fun ids offset => let? event_id := @required EventId queue (start + offset) "event_ids" in Ok (ids ++ [event_id])) acc
    (seq 0 count) = Ok ids ->
  ids = acc ++ take count (drop start queue) /\ (start + count <= length queue \/ count = 0)%nat.
Proof.
  revert ids. induction count as [|count IH]; intros ids HH.
  { injection HH as <-. rewrite take_0, app_nil_r. auto. }
  rewrite seq_S, rfold_app in HH. apply (proj1 (rbind_Ok _ _ _)) in HH as (l & E & HH). apply IH in E as [-> Hle]. cbn [rfold Nat.add] in HH. do 2 step HH.
  step E. injection E as <-. unfold required in E0. apply ok_or_Ok in E0.
  pose proof (lookup_lt_Some _ _ _ E0). split; [|lia].
  rewrite (take_S_r _ _ a) by (by rewrite lookup_drop). by rewrite app_assoc.
Qed.

(** A draft of the run in scope, made now. *)
Record draft_in (sid : SessionId) (lane : LaneId) (run : RunId) (env : TransitionEnv) (r : RecordDraft) : Prop := {
  di_session : dr_session_id r = sid;
  di_lane : dr_lane_id r = lane;
  di_run : dr_run_id r = Some run;
  di_timestamp : dr_timestamp r = env_now env;
  di_versions : dr_format_version r = RECORD_FORMAT_VERSION /\ dr_kind_version r = RECORD_KIND_VERSION;
  di_events : length (dr_derived_event_ids r) = derived_event_count (dr_body r);
  di_plain : is_structural (dr_body r) = false
}.

Section Decisions.
Context `{Hasher, Serde}.

Lemma draft_try_new fv kv id sid lane run t events body r :
  RecordDraft_try_new fv kv id sid lane run t events body = Some r ->
  r = mkRecordDraft fv kv id sid lane run t events body /\ length events = derived_event_count body /\
  fv = RECORD_FORMAT_VERSION /\ kv = RECORD_KIND_VERSION /\ (is_some run = true -> is_structural body = false).
Proof.
  unfold RecordDraft_try_new. intros HH. destruct (_ && _) eqn:E; [|done]. injection HH as <-.
  apply andb_true_iff in E as [[Ev Er]%andb_true_iff _]. unfold validate_versions_and_events in Ev.
  apply andb_true_iff in Ev as [[Ef%Z.eqb_eq Ek%Z.eqb_eq]%andb_true_iff El%Nat.eqb_eq].
  unfold validate_record_run_id in Er. apply andb_true_iff in Er as [_ Es%negb_true_iff].
  split_and!; [done..|]. intros Hr. rewrite Hr, andb_true_r in Es. exact Es.
Qed.

Lemma drafts_loop sid lane run env bodies : forall start n acc st,
  rfold (draft_step sid lane run env) (n, acc) (zip (seq start (length bodies)) bodies) = Ok st ->
  exists rs, st.2 = acc ++ rs /\ dr_body <$> rs = bodies /\ Forall (draft_in sid lane run env) rs /\
    dr_record_id <$> rs = take (length bodies) (drop start (ids_record_ids (env_ids env))) /\
    mbind dr_derived_event_ids rs = take (sum_list (derived_event_count <$> bodies)) (drop n (ids_event_ids (env_ids env))).
Proof.
  induction bodies as [|b bodies IH]; intros start n acc st HH; cbn [length seq zip zip_with rfold] in HH.
  { injection HH as <-. exists []. cbn. rewrite app_nil_r. repeat split; constructor. }
  step HH. unfold draft_step in E. cbv zeta in E. do 3 step E. injection E as <-.
  apply event_ids_loop in E0 as [-> _]. cbn [app] in *. apply ok_or_Ok, draft_try_new in E2 as (-> & Hlen & _ & _ & Hs).
  apply ok_or_Ok in E1. apply IH in HH as (rs & -> & Hb & Hall & Hr & He). eexists (_ :: rs).
  rewrite <- app_assoc. split_and!; [done|cbn; by rewrite Hb| | |].
  - constructor; [|done]. split; cbn; auto.
  - cbn [fmap list_fmap dr_record_id length]. rewrite Hr. symmetry. rewrite (drop_S _ _ start E1). done.
  - cbn [mbind list_bind dr_derived_event_ids fmap list_fmap sum_list].
    change (sum_list (derived_event_count b :: (derived_event_count <$> bodies)))
      with (derived_event_count b + sum_list (derived_event_count <$> bodies))%nat.
    change (list_bind _ _ dr_derived_event_ids rs) with (mbind dr_derived_event_ids rs). rewrite He.
    rewrite <- take_take_drop, drop_drop. done.
Qed.

(** The decision proposes these bodies and spends the allocation on them. *)
Record drafted (s : KernelState) (env : TransitionEnv) (sid : SessionId) (lane : LaneId) (run : RunId)
    (bodies : list RecordBody) (d : Decision) : Prop := {
  dd_sequence : dec_expected_sequence d = k_last_applied_sequence s + 1;
  dd_fits : k_last_applied_sequence s + 1 <= u64_max;
  dd_bodies : dr_body <$> dec_records d = bodies;
  dd_drafts : Forall (draft_in sid lane run env) (dec_records d);
  dd_records : dr_record_id <$> dec_records d = ids_record_ids (env_ids env);
  dd_events : mbind dr_derived_event_ids (dec_records d) = ids_event_ids (env_ids env);
  dd_diagnostics : dec_diagnostics d = []
}.

(** What is in scope when a decision is made for an accepted run. *)
Definition in_scope (s : KernelState) (sid : SessionId) (lane : LaneId) (run : RunId) : Prop :=
  k_session_id s = Some sid /\ k_lane_id s = Some lane /\ ra_run_id <$> k_accepted s = Some run.

Definition proposes (s : KernelState) (env : TransitionEnv) (bodies : list RecordBody) (d : Decision) : Prop :=
  exists sid lane run, in_scope s sid lane run /\ drafted s env sid lane run bodies d.

(** A decision of an accepted run: a repetition, or a proposal. *)
Inductive decided (s : KernelState) (env : TransitionEnv) (d : Decision) : Prop :=
| decided_duplicate : duplicate_decision s = Ok d -> decided s env d
| decided_proposal bodies : bodies <> [] -> proposes s env bodies d -> decided s env d.

Lemma next_sequence_Ok s n : next_sequence s = Ok n -> n = k_last_applied_sequence s + 1 /\ n <= u64_max.
Proof. unfold next_sequence. intros HH%ok_or_Ok. machine. Qed.

Lemma decision_for_proposes s env bodies actions d req u :
  validate_allocated_ids (env_ids env) req = Ok u -> idr_records req = length bodies ->
  idr_events req = sum_list (derived_event_count <$> bodies) ->
  decision_for s env bodies actions = Ok d -> proposes s env bodies d.
Proof.
  intros [Hr He]%validate_allocated_lengths Hnr Hne HH. unfold decision_for in HH. step HH. step HH. injection HH as <-.
  apply next_sequence_Ok in E as [-> Hfits]. unfold draft_for_state in E0. do 4 step E0. injection E0 as <-.
  apply ok_or_Ok in E, E1, E2. unfold enumerate in E3.
  apply drafts_loop in E3 as (rs & Hrs & Hb & Hall & Hids & Hevents). cbn [app] in Hrs.
  exists a, a1, a2. split; [done|]. split; cbn [dec_expected_sequence dec_records dec_diagnostics]; rewrite ?Hrs; [done|done|done|done| | |done].
  - rewrite Hids. rewrite drop_0, <- Hnr, <- Hr. by apply take_ge.
  - rewrite Hevents. rewrite drop_0, <- Hne, <- He. by apply take_ge.
Qed.

Lemma decided_for s env bodies actions d req u :
  validate_allocated_ids (env_ids env) req = Ok u -> idr_records req = length bodies ->
  idr_events req = sum_list (derived_event_count <$> bodies) -> bodies <> [] ->
  decision_for s env bodies actions = Ok d -> decided s env d.
Proof. intros. eapply decided_proposal; [done|]. by eapply decision_for_proposes. Qed.
End Decisions.

(** Follow the branches of a decision to its end. *)
Ltac conclude_decision :=
  match goal with
  | HH : duplicate_decision _ = Ok _ |- _ => by apply decided_duplicate
  | E : validate_allocated_ids _ _ = Ok _, HH : decision_for _ _ _ _ = Ok _ |- _ =>
      eapply decided_for; [exact E| | | |exact HH]; [reflexivity|reflexivity|discriminate]
  end.
Ltac decision HH := repeat (step HH); conclude_decision.

Section Branches.
Context `{Hasher, Serde}.

Lemma control_failure_decided s env code message category d :
  control_failure_decision s env code message category = Ok d -> decided s env d.
Proof. unfold control_failure_decision. intros HH. decision HH. Qed.

Lemma projected_or_decided s env o code message d : projected_or s env o code message = Ok (Concluded d) -> decided s env d.
Proof. unfold projected_or. intros HH. repeat step HH. by eapply control_failure_decided. Qed.

Lemma project_or_fail_decided s env u accepted output completion d :
  project_or_fail s env u accepted output completion = Ok (Concluded d) -> decided s env d.
Proof. unfold project_or_fail. intros HH. repeat step HH. by eapply control_failure_decided. Qed.

Lemma project_input_decided s env input accepted canonical u d :
  project_input s env input accepted canonical u = Ok (Concluded d) -> decided s env d.
Proof.
  unfold project_input, project_stage, bump_model_requests. intros HH.
  repeat step HH; subst; eauto using projected_or_decided, project_or_fail_decided.
Qed.

Lemma decide_crossing_decided s env accepted u d : decide_crossing s env accepted u = Ok (Some d) -> decided s env d.
Proof.
  unfold decide_crossing. cbv zeta. intros HH. repeat step HH; subst; first [by eapply control_failure_decided|conclude_decision].
Qed.

Lemma decide_limit_decided s env input canonical d : decide_limit s env input canonical = Ok (Some d) -> decided s env d.
Proof.
  unfold decide_limit. intros HH. step HH. step HH. step HH. destruct a as [d'|].
  - injection HH as <-. unfold decide_unknown_cost in E1. repeat step E1; subst; first [by eapply control_failure_decided|conclude_decision].
  - repeat step HH; subst;
      first [by eapply project_input_decided|by eapply decide_crossing_decided|repeat step E2; by eapply projected_or_decided].
Qed.

(** ** Tools *)

Lemma requirements_records bodies messages effects batches :
  idr_records (requirements_for_bodies bodies messages effects batches) = length bodies.
Proof. done. Qed.

Lemma decided_for_bodies s env bodies actions messages effects batches d u :
  validate_allocated_ids (env_ids env) (requirements_for_bodies bodies messages effects batches) = Ok u -> bodies <> [] ->
  decision_for s env bodies actions = Ok d -> decided s env d.
Proof. intros Hv Hne HH. by eapply decided_for; [exact Hv|..|exact HH]. Qed.

(** Requests and settlements only extend the bodies of an opening. *)
Lemma append_group_requests_extends assigned group st st' :
  append_group_requests assigned group st = Ok st' -> exists more, st'.1 = st.1 ++ more.
Proof.
  unfold append_group_requests. generalize (List.filter (fun c => asg_group_index c =? group) assigned). intros l.
  revert st. induction l as [|c l IH]; intros st HH; cbn [rfold] in HH; [injection HH as <-; exists []; by rewrite app_nil_r|].
  step HH. apply IH in HH as [more ->]. unfold request_step in E. repeat step E; subst; cbn [fst]; [|by eexists].
  exists (RecordBody_EffectRequested a0 :: more). by rewrite <- app_assoc.
Qed.

Lemma settle_synthetic_extends env opened assigned : forall st st',
  settle_synthetic env opened assigned st = Ok st' -> exists more, st'.1.1 = st.1.1 ++ more.
Proof.
  induction assigned as [|c l IH]; intros st st' HH; cbn [settle_synthetic] in HH; [injection HH as <-; exists []; by rewrite app_nil_r|].
  step HH; [injection HH as <-; exists []; by rewrite app_nil_r|]. destruct st as [[bodies ids] effects]. do 4 step HH.
  apply IH in HH as [more ->]. cbn [fst]. eexists. by rewrite <- app_assoc.
Qed.

Lemma closed_nonempty (complete : bool) (bodies : list RecordBody) (closed : kresult ToolBatchClosed) r :
  (if complete then let? c := closed in Ok (bodies ++ [RecordBody_ToolBatchClosed c]) else Ok bodies) = Ok r ->
  bodies <> [] -> r <> [].
Proof. intros HH Hne. repeat step HH; subst; [by destruct bodies|done]. Qed.

Lemma decide_batch_prepared_decided s env input digest d : decide_batch_prepared s env input digest = Ok d -> decided s env d.
Proof.
  unfold decide_batch_prepared. cbv zeta. intros HH. repeat step HH.
  eapply decided_for_bodies; [eassumption| |exact HH].
  match goal with Ec : (if _ then _ else Ok _) = Ok _ |- _ => apply (closed_nonempty _ _ _ _ Ec) end.
  match goal with Es : settle_synthetic _ _ _ _ = Ok _ |- _ => apply settle_synthetic_extends in Es as [m1 Hm1]; cbn [fst] in Hm1; rewrite Hm1 end.
  match goal with Er : match first_executable_group _ with _ => _ end = Ok ?r |- _ => repeat step Er; subst end; [|done].
  match goal with Er : append_group_requests _ _ _ = Ok _ |- _ => apply append_group_requests_extends in Er as [m2 ->] end. done.
Qed.

Lemma settle_normalized_tool_decided s env batch outcome digest external d :
  settle_normalized_tool s env batch outcome digest external = Ok d -> decided s env d.
Proof.
  unfold settle_normalized_tool. cbv zeta. intros HH.
  repeat step HH; (eapply decided_for_bodies; [eassumption|done|exact HH]).
Qed.

Lemma decide_tool_settled_decided s env input digest d : decide_tool_settled s env input digest = Ok d -> decided s env d.
Proof. unfold decide_tool_settled. intros HH. step HH. by eapply settle_normalized_tool_decided. Qed.

Lemma decide_external_tool_decided s env input digest d : decide_external_tool s env input digest = Ok d -> decided s env d.
Proof. unfold decide_external_tool. cbv zeta. intros HH. repeat step HH. by eapply settle_normalized_tool_decided. Qed.

(** ** Stages *)

(** The requirements of a stage outcome are those of the bodies it proposes. *)
Lemma stage_requirements_match s env input digest canonical req p :
  stage_id_requirements s input = Ok req -> stage_bodies s env input digest canonical = Ok p ->
  idr_records req = length p.1 /\ idr_events req = sum_list (derived_event_count <$> p.1) /\ p.1 <> [].
Proof.
  unfold stage_id_requirements, stage_bodies, prepared_context_bodies, requested_model_bodies, accepted_finalize_bodies,
    terminal_body_from_candidate, continued_model_bodies, retry_bodies, failed_stage_bodies. cbv zeta.
  intros Hr Hb. repeat step Hr; subst; repeat step Hb; subst; try done.
  all: repeat match goal with E : rbind _ _ = Ok _ |- _ => step E | c : TerminalCandidate |- _ => destruct c | E : Ok _ = Ok ?b |- _ => apply Ok_inj in E; subst end; done.
Qed.

Lemma decide_stage_decided s env input canonical digest d : decide_stage s env input canonical digest = Ok d -> decided s env d.
Proof.
  unfold decide_stage. intros HH. do 5 step HH.
  destruct (ss_outcome input) eqn:Ho; [| | |by eapply decide_batch_prepared_decided| | | | ].
  all: do 4 step HH;
    match goal with Er : stage_id_requirements _ _ = Ok _, Eb : stage_bodies _ _ _ _ _ = Ok _ |- _ =>
      destruct (stage_requirements_match _ _ _ _ _ _ _ Er Eb) as (Hr & He & Hne) end;
    (eapply decided_for; [eassumption|exact Hr|exact He|exact Hne|exact HH]).
Qed.

(** ** Models and output *)

Lemma decide_compaction_decided s env input d : decide_request_compaction_model s env input = Ok d -> decided s env d.
Proof. unfold decide_request_compaction_model. cbv zeta. intros HH. do 7 step HH; conclude_decision. Qed.

Lemma model_bodies_match s env pending input effect p : model_settlement_bodies s env pending input effect = Ok p ->
  idr_records p.1 = length p.2 /\ idr_events p.1 = sum_list (derived_event_count <$> p.2) /\ p.2 <> [].
Proof.
  unfold model_settlement_bodies, completed_settlement_bodies, compaction_summary_completion_bodies,
    assistant_completion_bodies, deferred_settlement_bodies, failed_settlement_bodies. cbv zeta. intros HH.
  by repeat step HH; subst.
Qed.

Lemma decide_normalized_model_decided s env input name phase d :
  decide_normalized_model s env input name phase = Ok d -> decided s env d.
Proof.
  unfold decide_normalized_model. cbv zeta. intros HH. repeat step HH.
  match goal with Em : model_settlement_bodies _ _ _ _ _ = Ok _ |- _ =>
    destruct (model_bodies_match _ _ _ _ _ _ Em) as (Hr & He & Hne) end.
  eapply decided_for; [eassumption|exact Hr|exact He|exact Hne|exact HH].
Qed.

Lemma decide_external_decided s env input digest d : decide_external s env input digest = Ok d -> decided s env d.
Proof.
  unfold decide_external. cbv zeta. intros HH. step HH. step HH; [by eapply decide_external_tool_decided|].
  repeat step HH; by eapply decide_normalized_model_decided.
Qed.

Lemma decide_configure_output_decided s env c d : decide_configure_output s env c = Ok d -> decided s env d.
Proof. unfold decide_configure_output. intros HH. decision HH. Qed.

Lemma decide_capabilities_decided s env a d : decide_capabilities_activated s env a = Ok d -> decided s env d.
Proof. unfold decide_capabilities_activated. intros HH. decision HH. Qed.

Lemma output_body_silent s input cycle turn request effect message strategy calls body :
  output_validation_body s input cycle turn request effect message strategy calls = Ok body -> derived_event_count body = 0%nat.
Proof. unfold output_validation_body. intros HH. by repeat step HH; subst. Qed.

Lemma decide_output_validated_decided s env input d : decide_output_validated s env input = Ok d -> decided s env d.
Proof.
  unfold decide_output_validated. cbv zeta. intros HH. repeat step HH; [by apply decided_duplicate|].
  eapply decided_for; [eassumption| | | |exact HH]; [done| |done]. cbn.
  match goal with Eo : output_validation_body _ _ _ _ _ _ _ _ _ = Ok _ |- _ => by rewrite (output_body_silent _ _ _ _ _ _ _ _ _ _ Eo) end.
Qed.

(** ** Control *)

Lemma decide_cancel_decided s env input d : decide_cancel s env input = Ok d -> decided s env d.
Proof. unfold decide_cancel. intros HH. decision HH. Qed.

Lemma decide_reconciliation_decided s env input d : decide_reconciliation s env input = Ok d -> decided s env d.
Proof.
  unfold decide_reconciliation. cbv zeta. intros HH. repeat step HH; [by apply decided_duplicate|].
  eapply decided_for; [eassumption| | | |exact HH]; [done|done|].
  intros Hnil%(f_equal length). rewrite !length_app in Hnil. cbn [length] in Hnil. lia.
Qed.

Lemma decide_timer_decided s env input d : decide_timer_fired s env input = Ok d -> decided s env d.
Proof. unfold decide_timer_fired. intros HH. decision HH. Qed.

Lemma decide_rejected_decided s env input d : decide_external_command_rejected s env input = Ok d -> decided s env d.
Proof. unfold decide_external_command_rejected. cbv zeta. intros HH. do 4 step HH; conclude_decision. Qed.

Lemma decide_interaction_request_decided s env input d : decide_interaction_request s env input = Ok d -> decided s env d.
Proof. unfold decide_interaction_request. cbv zeta. intros HH. decision HH. Qed.

Lemma decide_interaction_settled_decided s env input d : decide_interaction_settled s env input = Ok d -> decided s env d.
Proof.
  unfold decide_interaction_settled, decide_resolved. cbv zeta. intros HH. do 3 step HH. step HH; [do 9 step HH|decision HH|decision HH].
  conclude_decision.
Qed.

Lemma decide_extension_request_decided s env input d : decide_extension_request s env input = Ok d -> decided s env d.
Proof. unfold decide_extension_request. cbv zeta. intros HH. decision HH. Qed.

Lemma decide_extension_settled_decided s env input d : decide_extension_settled s env input = Ok d -> decided s env d.
Proof.
  unfold decide_extension_settled. cbv zeta. intros HH. repeat step HH; try by apply decided_duplicate.
  destruct (xes_outcome input); conclude_decision.
Qed.

(** ** Acceptance and dispatch *)

Lemma decide_accept_drafted s env input d : decide_accept s env input = Ok d ->
  k_accepted s = None /\ k_phase s = None /\
  drafted s env (ar_session_id input) (ar_lane_id input) (ra_run_id (ar_accepted input))
    [RecordBody_RunAccepted (ar_accepted input)] d.
Proof.
  unfold decide_accept. cbv zeta. intros HH. repeat step HH. apply ok_or_Ok, draft_try_new in E5 as (-> & Hlen & _ & _ & Hs).
  apply next_sequence_Ok in E6 as [-> Hfits]. apply reject_if_Ok, orb_false_iff in E0 as [Hp Ha]. apply is_some_false in Hp, Ha.
  apply validate_allocated_lengths in E2 as [Hr He]. cbn in Hr, He. unfold required in E3, E4. apply ok_or_Ok in E3, E4.
  split_and!; [done..|]. split; cbn; [done|done|done| | | |done].
  - by repeat constructor.
  - destruct (ids_record_ids (env_ids env)) as [|x [|]]; [done| |done]. by injection E3 as ->.
  - destruct (ids_event_ids (env_ids env)) as [|x [|]]; [done| |done]. by injection E4 as ->.
Qed.

Lemma dispatch_decided s env input review canonical d : dispatch s env input review canonical = Ok d ->
  decided s env d \/ exists a, input = KernelInput_AcceptRun a /\ decide_accept s env a = Ok d.
Proof.
  unfold dispatch. intros HH. destruct input, review; try discriminate HH; try (by right; eexists); left;
    eauto using decide_stage_decided, decide_normalized_model_decided, decide_external_decided, decide_tool_settled_decided,
      decide_cancel_decided, decide_reconciliation_decided, decide_timer_decided, decide_configure_output_decided,
      decide_capabilities_decided, decide_output_validated_decided, decide_interaction_request_decided,
      decide_interaction_settled_decided, decide_compaction_decided, decide_extension_request_decided, decide_extension_settled_decided.
  all: unfold decide_model in HH; step HH; by eapply decide_normalized_model_decided.
Qed.

Lemma kernel_decided s env input d : Kernel_decide s env input = Ok d ->
  decided s env d \/ exists a, input = KernelInput_AcceptRun a /\ decide_accept s env a = Ok d.
Proof.
  unfold Kernel_decide. intros HH.
  assert ((exists i, input = KernelInput_RecordExternalCommandRejected i /\ decide_external_command_rejected s env i = Ok d) \/
    duplicate_decision s = Ok d \/ (exists canonical, decide_limit s env input canonical = Ok (Some d)) \/
    exists review canonical, dispatch s env input review canonical = Ok d) as [(i & -> & Hd)|[Hd|[[c Hd]|(r & c & Hd)]]].
  - destruct input; try (by left; eexists); right; (do 3 step HH; step HH; [by left|..]; step HH; step HH);
      first [right; right; do 2 eexists; exact HH|right; left; eexists; injection HH as <-; eassumption].
  - left. by eapply decide_rejected_decided.
  - left. by apply decided_duplicate.
  - left. by eapply decide_limit_decided.
  - by eapply dispatch_decided.
Qed.
End Branches.

(** * Limit accounting: deciding and replaying agree

    Before it admits an input, [decide] projects the usage the input leads to;
    when the input's records are replayed, the handlers add that usage again.
    This file shows that the two accounts agree: for the tokens, bytes, cost and
    counters of a completion, and for the calls and the widest group of a tool
    batch; and that no ceiling is crossed exactly when the projected usage is
    within every configured limit. *)

(** ** Completions *)

Lemma add_extension_counter_swap u (x y : LimitKey * Z) : x.1 <> y.1 ->
  rbind (add_extension_counter u x) (fun u => add_extension_counter u y) =
  rbind (add_extension_counter u y) (fun u => add_extension_counter u x).
Proof.
  intros Hne. unfold add_extension_counter. cbv zeta.
  destruct (u64_checked_add (default 0 (lu_extension_counters u !! x.1)) x.2) as [a|] eqn:Ha,
    (u64_checked_add (default 0 (lu_extension_counters u !! y.1)) y.2) as [b|] eqn:Hb; cbn [ok_or rbind];
    change (lu_extension_counters (set_lu_extension_counters ?m u)) with m;
    rewrite ?lookup_insert_ne by done; rewrite ?Ha, ?Hb; cbn [ok_or rbind]; try done.
  f_equal. change (set_lu_extension_counters ?m (set_lu_extension_counters _ u)) with (set_lu_extension_counters m u).
  f_equal. by apply insert_insert_ne.
Qed.

Lemma add_counters_perm (l l' : list (LimitKey * Z)) : l ≡ₚ l' -> NoDup l.*1 -> forall u,
  rfold add_extension_counter u l = rfold add_extension_counter u l'.
Proof.
  induction 1 as [|x l l' Hp IH|x y l|l l' l'' Hp1 IH1 Hp2 IH2]; intros Hnd u.
  - done.
  - cbn [rfold]. rewrite fmap_cons in Hnd. apply NoDup_cons in Hnd as [_ Hnd].
    destruct (add_extension_counter u x); cbn [rbind]; [by apply IH|done].
  - cbn [rfold]. rewrite !fmap_cons in Hnd. apply NoDup_cons in Hnd as [Hn _]. rewrite elem_of_cons in Hn.
    assert (y.1 <> x.1) as Hne by (intros He; apply Hn; by left).
    pose proof (add_extension_counter_swap u y x Hne) as Hs.
    destruct (add_extension_counter u y) as [u1|] eqn:E1, (add_extension_counter u x) as [u2|] eqn:E2; cbn [rbind] in *;
      [by rewrite Hs|by rewrite Hs|by rewrite <- Hs|by injection Hs as ->].
  - rewrite IH1 by done. apply IH2. by rewrite <- Hp1.
Qed.

Lemma project_counters limits entries : forall u u', rfold (project_counter limits) u entries = Ok u' ->
  rfold add_extension_counter u entries = Ok u'.
Proof.
  induction entries as [|x entries IH]; intros u u' HH; cbn [rfold] in *; [by injection HH as ->|]. step HH. unfold project_counter in E.
  cbv zeta in E. step E. step E. injection E as <-. unfold add_extension_counter at 1. cbv zeta. apply ok_or_Ok in E1. rewrite E1.
  cbn [ok_or rbind]. by apply IH.
Qed.

Lemma project_tokens_add get set delta failure u u' : project_tokens get set delta failure u = Ok u' ->
  add_counter get set delta u = Ok u'.
Proof.
  unfold project_tokens, add_counter. intros HH. destruct delta; [|by injection HH as ->]. step HH. apply ok_or_Ok in E. rewrite E. by injection HH as <-.
Qed.

Lemma project_cost_add limits cost u u' : project_cost limits cost u = Ok u' -> add_cost cost u = Ok u'.
Proof.
  unfold project_cost, add_cost. cbv zeta. intros HH. destruct cost as [value|]; [|by injection HH as ->]. do 4 step HH.
  apply ok_or_Ok in E1, E2. rewrite E1. cbn [ok_or rbind]. rewrite E2. by injection HH as <-.
Qed.

(** What [decide] projects for a completion is what replay accounts. *)
Lemma projected_usage_applies s c limits u :
  project_completed_usage (k_limit_usage s) (cpl_output c) (cpl_usage c) limits = Ok u ->
  apply_completed_usage s c = Ok (with_limit_usage u s).
Proof.
  unfold project_completed_usage, apply_completed_usage. intros HH. step HH. apply project_tokens_add in E. rewrite E. cbn [rbind].
  destruct (cpl_usage c) as [usage|]; [|by injection HH as <-]. do 3 step HH.
  apply project_tokens_add in E0, E1. apply project_cost_add in E2. rewrite E0. cbn [rbind]. rewrite E1. cbn [rbind]. rewrite E2. cbn [rbind].
  apply project_counters in HH. rewrite <- (add_counters_perm (sorted_entries (us_extension_counters usage))).
  - by rewrite HH.
  - apply merge_sort_Permutation.
  - unfold sorted_entries. rewrite merge_sort_Permutation. apply NoDup_fst_map_to_list.
Qed.

(** ** Tool groups *)

Definition widest (counts : gmap Z Z) : Z := foldr (fun e m => Z.max e.2 m) 0 (map_to_list counts).

Lemma foldr_max_spec (l : list (Z * Z)) w : 0 <= w -> (forall e, e ∈ l -> e.2 <= w) -> w = 0 \/ (exists e, e ∈ l /\ e.2 = w) ->
  foldr (fun e m => Z.max e.2 m) 0 l = w.
Proof.
  revert w. induction l as [|x l IH]; intros w Hw Hall Hex; cbn [foldr].
  { destruct Hex as [->|(e & He & _)]; [done|]. by apply not_elem_of_nil in He. }
  assert (x.2 <= w) as Hx by (apply Hall; set_solver).
  assert (foldr (fun e m => Z.max e.2 m) 0 l <= w /\ (w = 0 \/ x.2 = w \/ foldr (fun e m => Z.max e.2 m) 0 l = w)) as [Hle Hor].
  { assert (foldr (fun e m => Z.max e.2 m) 0 l <= w) as Hle.
    { clear -Hw Hall. induction l as [|y l IH]; cbn [foldr]; [done|].
      assert (y.2 <= w) by (apply Hall; set_solver). assert (foldr (fun e m => Z.max e.2 m) 0 l <= w) by (apply IH; set_solver). lia. }
    split; [done|]. destruct Hex as [->|(e & [->|He]%elem_of_cons & Heq)]; [by left|by right; left|right; right].
    apply IH; [done|set_solver|right; by exists e]. }
  assert (0 <= foldr (fun e m => Z.max e.2 m) 0 l) as H0 by (clear; induction l; cbn [foldr]; lia). lia.
Qed.

Lemma widest_spec counts w : 0 <= w -> (forall k v, counts !! k = Some v -> v <= w) ->
  w = 0 \/ (exists k, counts !! k = Some w) -> widest counts = w.
Proof.
  intros Hw Hall Hex. apply foldr_max_spec; [done| |].
  - intros [k v] Hin%elem_of_map_to_list. by eapply Hall.
  - destruct Hex as [->|[k Hk]]; [by left|right]. exists (k, w). by rewrite elem_of_map_to_list.
Qed.

Definition bump (counts : gmap Z Z) (group : Z) : kresult (gmap Z Z) :=
  let? n := ok_or (u32_checked_add (default 0 (counts !! group)) 1) KernelError_InvalidRecordOrder in
  Ok (<[group := n]> counts).

Lemma bump_groups calls : forall counts,
  rfold bump_group counts calls = rfold bump counts (asg_group_index <$> calls).
Proof.
  induction calls as [|c calls IH]; intros counts; [done|]. cbn [rfold fmap list_fmap].
  change (bump_group counts c) with (bump counts (asg_group_index c)). destruct (bump _ _); [apply IH|done].
Qed.

(** The three scans of a plan in step: the groups it is cut into, the width of
    the widest group, and the number of calls counted per group. *)
Record scans (plans : list ToolCallPlan) (prior : option ToolCallPlan) (group current largest : Z) (counts : gmap Z Z) : Prop := {
  sn_prior : prior = last plans;
  sn_start : plans = [] -> group = 0 /\ current = 0 /\ largest = 0 /\ counts = ∅;
  sn_current : plans <> [] -> counts !! group = Some current /\ 1 <= current <= largest;
  sn_groups : forall k v, counts !! k = Some v -> k <= group /\ v <= largest;
  sn_largest : largest = 0 \/ exists k, counts !! k = Some largest
}.

(** A call joins the group of its predecessor when both run in parallel. *)
Definition joins (prior : option ToolCallPlan) (c : ToolCallPlan) : bool :=
  is_none_or prior (fun p =>
    (plan_execution p =?? ToolExecutionMode_Parallel) && (plan_execution c =?? ToolExecutionMode_Parallel)).

Lemma groups_step_joins prior group groups c :
  groups_step (prior, group, groups) c =
    let? g := if joins prior c then Ok group
              else ok_or (u32_checked_add group 1) (KernelError_InvalidInputPayload "calls" "too_many_items") in
    Ok (Some c, g, groups ++ [g]).
Proof. unfold groups_step, joins. destruct prior as [p|]; [|done]. cbn [is_some_and is_none_or]. by destruct (_ && _). Qed.

Lemma group_step_joins prior current largest c :
  group_step (prior, current, largest) c =
    n ← (if joins prior c then u32_checked_add current 1 else Some 1); Some (Some c, n, Z.max largest n).
Proof. done. Qed.

Lemma scans_step plans prior group current largest counts c group' n :
  scans plans prior group current largest counts ->
  (if joins prior c then Ok group
   else ok_or (u32_checked_add group 1) (KernelError_InvalidInputPayload "calls" "too_many_items")) = Ok group' ->
  (if joins prior c then u32_checked_add current 1 else Some 1) = Some n ->
  exists counts', bump counts group' = Ok counts' /\ scans (plans ++ [c]) (Some c) group' n (Z.max largest n) counts'.
Proof.
  intros [Hp Hs Hc Hg Hl] Hgroup Hn.
  assert (u32_checked_add (default 0 (counts !! group')) 1 = Some n /\ 1 <= n /\
    (forall k v, counts !! k = Some v -> k <= group' /\ (k = group' -> v <= n))) as (Hadd & Hn1 & Hk).
  { destruct (joins prior c) eqn:Hj.
    - injection Hgroup as <-. destruct (decide (plans = [])) as [He|He].
      + destruct (Hs He) as (-> & -> & -> & ->). rewrite lookup_empty. cbn [default]. split; [exact Hn|]. machine. split; [lia|].
        intros k v Hv. by rewrite lookup_empty in Hv.
      + destruct (Hc He) as [Hcur Hle]. rewrite Hcur. cbn [default]. split; [done|]. machine. split; [lia|].
        intros k v Hk. split; [by apply Hg in Hk as [? _]|]. intros ->. rewrite Hcur in Hk. injection Hk as <-. lia.
    - injection Hn as <-. apply ok_or_Ok in Hgroup. assert (group' = group + 1) as -> by machine.
      assert (counts !! (group + 1) = None) as ->.
      { destruct (counts !! (group + 1)) as [v|] eqn:Hv; [|done]. apply Hg in Hv as [? _]. lia. }
      split_and!; [done|lia|]. intros k v Hk. apply Hg in Hk as [? _]. split; [lia|]. intros ->. lia. }
  exists (<[group' := n]> counts). split; [unfold bump; by rewrite Hadd|]. split.
  - by rewrite last_snoc.
  - by destruct plans.
  - intros _. rewrite lookup_insert_eq. split; [done|lia].
  - intros k v Hv. apply lookup_insert_Some in Hv as [[<- <-]|[Hne Hv]]; [lia|].
    split; [by apply Hk in Hv as [? _]|]. apply Hg in Hv as [_ ?]. lia.
  - destruct (Z.max_spec largest n) as [[_ ->]|[Hle ->]]; [right; exists group'; by rewrite lookup_insert_eq|].
    destruct Hl as [->|[k Hlk]]; [lia|]. right. destruct (decide (k = group')) as [->|Hne].
    + exists group'. rewrite lookup_insert_eq. f_equal. apply Hk in Hlk as [_ Hv]. specialize (Hv eq_refl). lia.
    + exists k. by rewrite lookup_insert_ne.
Qed.

Lemma scans_plans plans : forall prior group groups st,
  rfold groups_step (None, 0, []) plans = Ok (prior, group, groups) ->
  foldl (fun st c => st ← st; group_step st c) (Some (None, 0, 0)) plans = Some st ->
  exists counts, rfold bump ∅ groups = Ok counts /\ scans plans prior group st.1.2 st.2 counts /\ st.1.1 = prior.
Proof.
  induction plans as [|c plans IH] using rev_ind; intros prior group groups st HH Hl.
  { cbn in HH, Hl. injection HH as <- <- <-. injection Hl as <-. exists ∅. split; [done|]. split; [|done].
    split; cbn; [done|done|done|intros k v Hv; by rewrite lookup_empty in Hv|by left]. }
  rewrite rfold_app in HH. step HH. destruct a as [[prior0 group0] groups0]. rewrite foldl_app in Hl. cbn [foldl] in Hl.
  apply bind_Some in Hl as ([[prior1 current] largest] & Hl & Hstep).
  destruct (IH prior0 group0 groups0 _ eq_refl Hl) as (counts & Hb & Hscan & Hpr). cbn [fst snd] in Hscan, Hpr. subst prior1.
  cbn [rfold] in HH. rewrite groups_step_joins in HH. step HH. apply Ok_inj in HH. subst a. step E0. injection E0 as <- <- <-.
  rewrite group_step_joins in Hstep. apply bind_Some in Hstep as (n & Hn & [= <-]).
  destruct (scans_step _ _ _ _ _ _ c _ n Hscan E1 Hn) as (counts' & Hb' & Hscan'). exists counts'.
  rewrite rfold_app, Hb. cbn [rbind rfold]. rewrite Hb'. done.
Qed.

(** The widest group of a plan is the largest count of calls per group. *)
Lemma largest_group_counted plans groups w :
  execution_groups plans = Ok groups -> largest_tool_group plans = Some w ->
  exists counts, rfold bump ∅ groups = Ok counts /\ widest counts = w.
Proof.
  unfold execution_groups, largest_tool_group. intros HH Hl. step HH. injection HH as <-. destruct a as [[prior group] groups].
  apply fmap_Some in Hl as (st & Hl & ->). destruct (scans_plans _ _ _ _ st E Hl) as (counts & Hb & [Hp Hs Hc Hg Hlg] & _).
  exists counts. split; [exact Hb|]. apply widest_spec; [|by intros k v [_ ?]%Hg|done].
  destruct (decide (plans = [])) as [He|He]; [by destruct (Hs He) as (_ & _ & -> & _)|]. destruct (Hc He). lia.
Qed.

Lemma assigned_groups env l : forall start acc assigned,
  rfold (assign_step env) acc (zip (seq start (length l)) l) = Ok assigned ->
  asg_group_index <$> assigned = (asg_group_index <$> acc) ++ l.*2 /\ length assigned = (length acc + length l)%nat.
Proof.
  induction l as [|[p g] l IH]; intros start acc assigned HH; cbn [length seq zip zip_with rfold] in HH.
  { injection HH as <-. rewrite app_nil_r. split; [done|cbn; lia]. }
  step HH. unfold assign_step in E. step E. step E. injection E as <-. apply IH in HH as [-> ->].
  rewrite fmap_app. cbn. split; [by rewrite <- app_assoc|rewrite length_app; cbn; lia].
Qed.

Lemma groups_length plans : forall st st', rfold groups_step st plans = Ok st' -> length st'.2 = (length st.2 + length plans)%nat.
Proof.
  induction plans as [|p plans IH]; intros st st' HH; cbn [rfold] in HH; [injection HH as <-; cbn; lia|].
  step HH. apply IH in HH as ->. destruct st as [[prior group] groups]. rewrite groups_step_joins in E. step E. injection E as <-.
  cbn [snd]. rewrite length_app. cbn. lia.
Qed.

Lemma assign_plans_groups env plans assigned groups :
  assign_plans env plans = Ok assigned -> execution_groups plans = Ok groups ->
  asg_group_index <$> assigned = groups /\ length assigned = length plans.
Proof.
  unfold assign_plans. intros HH Hg. rewrite Hg in HH. cbn [rbind] in HH. unfold enumerate in HH.
  apply assigned_groups in HH as [-> ->]. unfold execution_groups in Hg. step Hg. injection Hg as <-. apply groups_length in E.
  cbn [snd length] in E. rewrite snd_zip by lia. split; [done|]. rewrite length_zip_with. cbn. lia.
Qed.

(** What [decide] projects for a tool batch is what replay accounts. *)
Lemma projected_tools_apply s env plans assigned opened total w :
  assign_plans env plans = Ok assigned -> tbo_calls opened = assigned ->
  u64_checked_add (lu_tool_calls (k_limit_usage s)) (u64_of_usize (length plans)) = Some total ->
  largest_tool_group plans = Some w ->
  record_tool_batch_usage s opened =
    Ok (with_limit_usage (set_lu_max_parallel_tools (Z.max (lu_max_parallel_tools (k_limit_usage s)) w)
                            (set_lu_tool_calls total (k_limit_usage s))) s).
Proof.
  intros Ha Ho Ht Hw. pose proof Ha as Hg. unfold assign_plans in Hg. step Hg. clear Hg.
  destruct (assign_plans_groups _ _ _ _ Ha E) as [Hgroups Hlen]. destruct (largest_group_counted _ _ _ E Hw) as (counts & Hb & Hwide).
  unfold record_tool_batch_usage. cbv zeta. rewrite Ho, Hlen, Ht. cbn [ok_or rbind]. rewrite bump_groups, Hgroups, Hb. cbn [rbind].
  unfold widest in Hwide. by rewrite Hwide.
Qed.

(** ** Crossings *)

Definition at_most (field : Z) (maximum : option Z) : Prop := forall m, maximum = Some m -> field <= m.

(** The usage respects every configured limit; every counter is registered. *)
Record within_limits (l : RunLimits) (u : LimitUsage) : Prop := {
  wl_model_requests : at_most (lu_model_requests u) (rl_max_model_requests l);
  wl_turns : at_most (lu_turns u) (rl_max_turns l);
  wl_tool_calls : at_most (lu_tool_calls u) (rl_max_tool_calls l);
  wl_parallel_tools : at_most (lu_max_parallel_tools u) (rl_max_parallel_tools l);
  wl_input_tokens : at_most (lu_input_tokens u) (rl_max_input_tokens l);
  wl_output_tokens : at_most (lu_output_tokens u) (rl_max_output_tokens l);
  wl_context_bytes : at_most (lu_context_bytes u) (rl_max_context_bytes l);
  wl_output_bytes : at_most (lu_output_bytes u) (rl_max_output_bytes l);
  wl_retries : at_most (lu_retries u) (rl_max_retries l);
  wl_wall_time : at_most (lu_wall_time u) (rl_max_wall_time l);
  wl_cost : forall m c, rl_max_cost l = Some m -> lu_cost u = Some c -> ca_micros c <= cl_micros m;
  wl_counters : forall k v, lu_extension_counters u !! k = Some v ->
    exists m, rl_extension_counters l !! k = Some m /\ v <= m
}.

Lemma over_None d kind field maximum : over d kind field maximum = None <-> at_most field maximum.
Proof.
  unfold over, at_most. destruct maximum as [m|]; cbn [mbind option_bind]; [|by split].
  destruct (Z.ltb_spec m field).
  - split; [done|]. intros Hm. specialize (Hm m eq_refl). lia.
  - split; [|done]. intros _ m' [= <-]. done.
Qed.

Lemma or_else_None {A} (a b : option A) : or_else a b = None <-> a = None /\ b = None.
Proof. destruct a; cbn; naive_solver. Qed.

Lemma cost_crossing_None limits u : cost_crossing limits u = Ok None <->
  forall m c, rl_max_cost limits = Some m -> lu_cost u = Some c -> ca_micros c <= cl_micros m.
Proof.
  unfold cost_crossing. destruct (rl_max_cost limits) as [m|], (lu_cost u) as [c|]; try (split; [intros _ ? ?; done|done]).
  destruct (Z.ltb_spec (cl_micros m) (ca_micros c)).
  - split; [by destruct (CostAmount_try_new _ _ _)|]. intros Hm. specialize (Hm m c eq_refl eq_refl). lia.
  - split; [|done]. by intros _ ? ? [= <-] [= <-].
Qed.

Lemma counter_crossing_None limits entries : counter_crossing limits entries = Ok None <->
  forall k v, (k, v) ∈ entries -> exists m, rl_extension_counters limits !! k = Some m /\ v <= m.
Proof.
  induction entries as [|[k v] entries IH]; cbn [counter_crossing].
  { split; [intros _ k v Hin; by apply not_elem_of_nil in Hin|done]. }
  destruct (rl_extension_counters limits !! k) as [m|] eqn:Hm; cbn [ok_or rbind].
  - destruct (Z.ltb_spec m v).
    + split; [done|]. intros Hall. destruct (Hall k v ltac:(set_solver)) as (m' & Hm' & ?). rewrite Hm in Hm'. injection Hm' as <-. lia.
    + rewrite IH. split.
      * intros Hall k' v' [[= -> ->]|Hin]%elem_of_cons; [by exists m|by apply Hall].
      * intros Hall k' v' Hin. apply Hall. set_solver.
  - split; [done|]. intros Hall. destruct (Hall k v ltac:(set_solver)) as (m' & Hm' & _). congruence.
Qed.

(** No ceiling is crossed exactly when the usage is within every limit. *)
Lemma no_crossing accepted u : first_limit_crossing accepted u = Ok None <-> within_limits (ra_limits accepted) u.
Proof.
  assert (counter_crossing (ra_limits accepted) (sorted_entries (lu_extension_counters u)) = Ok None <->
    forall k v, lu_extension_counters u !! k = Some v -> exists m, rl_extension_counters (ra_limits accepted) !! k = Some m /\ v <= m) as Hcount.
  { rewrite counter_crossing_None. unfold sorted_entries. setoid_rewrite merge_sort_Permutation. by setoid_rewrite elem_of_map_to_list. }
  unfold first_limit_crossing. cbv zeta. destruct (numeric_crossing (ra_limits accepted) u) as [c|] eqn:Hn.
  - split; [done|]. intros [? ? ? ? ? ? ? ? ? ? _ _]. exfalso.
    assert (numeric_crossing (ra_limits accepted) u = None) as Hno; [|congruence]. unfold numeric_crossing. cbn [foldr].
    rewrite !or_else_None, !over_None. by split_and!.
  - unfold numeric_crossing in Hn. cbn [foldr] in Hn. rewrite !or_else_None, !over_None in Hn.
    destruct (cost_crossing (ra_limits accepted) u) as [[c|]|e] eqn:Hc; cbn [rbind].
    + split; [done|]. intros [_ _ _ _ _ _ _ _ _ _ Hcost _]. by rewrite (proj2 (cost_crossing_None _ _) Hcost) in Hc.
    + rewrite Hcount. split; [|by intros [_ _ _ _ _ _ _ _ _ _ _ ?]].
      intros Hcounters. destruct Hn as (? & ? & ? & ? & ? & ? & ? & ? & ? & ? & _). pose proof (proj1 (cost_crossing_None _ _) Hc). by split.
    + split; [done|]. intros [_ _ _ _ _ _ _ _ _ _ Hcost _]. by rewrite (proj2 (cost_crossing_None _ _) Hcost) in Hc.
Qed.
