(* ===== verification/Chain.v ===== *)
(** * The journal chain

    Models [journal.rs] of [finstack-ai-protocol] and [RecordEnvelope::try_new]:
    how drafts become committed envelopes and how a chain of envelopes is
    verified.  The derived [Serialize] implementations of
    the record types are the operations of the class [Wire]; the bytes and
    digests made from them are the code of this development. *)

From S2P Require Import Prelude Ids Floats Cbor CborCodec CborDecode Serializer.
From S2P Require Import Primitives Effects Records State Inputs ToolBatch Digests Policy ApplyStage ApplyTools ApplyEffects ApplyRecord Shapes Events Apply Decide.

(** ** Digested projections *)

Record EnvelopeChecksumView : Type := mkEnvelopeChecksumView {
  ecv_format_version : Z;
  ecv_kind_version : Z;
  ecv_record_id : RecordId;
  ecv_session_id : SessionId;
  ecv_lane_id : LaneId;
  ecv_run_id : option RunId;
  ecv_sequence : Z;
  ecv_timestamp : Timestamp;
  ecv_payload_digest : Digest;
  ecv_previous_checksum : option Digest;
  ecv_derived_event_ids : list EventId;
  ecv_body : RecordBody
}.

(** The derived serializers of the journal types, as the calls they make. *)
Class Wire : Type := {
  body_serde : RecordBody -> SerdeTree;
  envelope_serde : RecordEnvelope -> SerdeTree
}.

(** [Serialize] of identifiers, of digests ([serialize_hex] with [HexBuffer]) and
    of timestamps, for a serializer that is not human readable. *)
Definition id_serde (id : N) : SerdeTree := Serde_str (uuid_encode (id_bytes id)).
Definition hex_text (d : Digest) : bytes := mbind hex_byte (be_bytes 32 d).
Definition digest_serde (d : Digest) : SerdeTree := Serde_newtype_struct (Serde_str (hex_text d)).
Definition timestamp_serde (t : Timestamp) : SerdeTree := Serde_i64 t.

Definition field (name : string) (value : SerdeTree) : bytes * SerdeTree := (String.list_ascii_of_string name, value).
(** [skip_serializing_if = "Option::is_none"]. *)
Definition optional_field {A} (name : string) (serde : A -> SerdeTree) (value : option A) : list (bytes * SerdeTree) :=
  match value with Some v => [field name (serde v)] | None => [] end.

(** The derived serializer of the checksum view: its fields in declaration order. *)
Definition view_fields `{Wire} (v : EnvelopeChecksumView) : list (bytes * SerdeTree) :=
  [field "format_version" (Serde_u64 (Z.to_N (ecv_format_version v)));
   field "kind_version" (Serde_u64 (Z.to_N (ecv_kind_version v)));
   field "record_id" (id_serde (ecv_record_id v));
   field "session_id" (id_serde (ecv_session_id v));
   field "lane_id" (id_serde (ecv_lane_id v))]
  ++ optional_field "run_id" id_serde (ecv_run_id v)
  ++ [field "sequence" (Serde_u64 (Z.to_N (ecv_sequence v)));
      field "timestamp" (timestamp_serde (ecv_timestamp v));
      field "payload_digest" (digest_serde (ecv_payload_digest v))]
  ++ optional_field "previous_checksum" digest_serde (ecv_previous_checksum v)
  ++ [field "derived_event_ids" (Serde_seq (Some (len (ecv_derived_event_ids v))) (id_serde <$> ecv_derived_event_ids v));
      field "body" (body_serde (ecv_body v))].

Definition view_serde `{Wire} (v : EnvelopeChecksumView) : SerdeTree :=
  Serde_struct (len (view_fields v)) (view_fields v).

Definition DOMAIN_RECORD_PAYLOAD : string := "record-payload".
Definition RECORD_PAYLOAD_DIGEST_SCHEMA_VERSION : Z := 1.
Definition DOMAIN_RECORD_ENVELOPE : string := "record-envelope".
Definition RECORD_ENVELOPE_DIGEST_SCHEMA_VERSION : Z := 1.

Definition integrity (reason_code : string) : ProtocolError := ProtocolError_Integrity reason_code.

Section Chain.
Context `{Half, Hasher, Serde, Wire}.

(** [Digest::domain_separated]. *)
Definition domain_digest (domain : string) (schema_version : Z) (canonical_bytes : bytes) : presult Digest :=
  do? reject_if (negb (domain_is_valid domain)) (ProtocolError_Codec "invalid digest domain") in
  Ok (hash_domain domain schema_version (String.string_of_list_ascii canonical_bytes)).

Definition payload_digest (body : RecordBody) : presult Digest :=
  let? b := encode (body_serde body) in
  domain_digest DOMAIN_RECORD_PAYLOAD RECORD_PAYLOAD_DIGEST_SCHEMA_VERSION b.

Definition checksum_of (view : EnvelopeChecksumView) : presult Digest :=
  let? b := encode (view_serde view) in
  domain_digest DOMAIN_RECORD_ENVELOPE RECORD_ENVELOPE_DIGEST_SCHEMA_VERSION b.

Definition envelope_view (envelope : RecordEnvelope) : EnvelopeChecksumView :=
  mkEnvelopeChecksumView (rec_format_version envelope) (rec_kind_version envelope) (rec_record_id envelope)
    (rec_session_id envelope) (rec_lane_id envelope) (rec_run_id envelope) (rec_sequence envelope)
    (rec_timestamp envelope) (rec_payload_digest envelope) (rec_previous_checksum envelope)
    (rec_derived_event_ids envelope) (rec_body envelope).

Definition envelope_checksum (envelope : RecordEnvelope) : presult Digest := checksum_of (envelope_view envelope).

(** ** Committing drafts *)

Definition RecordEnvelope_try_new (format_version kind_version : Z) (record_id : RecordId) (session_id : SessionId)
    (lane_id : LaneId) (run_id : option RunId) (sequence : Z) (timestamp : Timestamp)
    (committed_at : option Timestamp) (payload : Digest) (previous_checksum : option Digest) (checksum : Digest)
    (derived_event_ids : list EventId) (body : RecordBody) : option RecordEnvelope :=
  if validate_versions_and_events format_version kind_version (length derived_event_ids) body
     && validate_record_run_id run_id body && validate_body_for_creation body
  then Some (mkRecordEnvelope format_version kind_version record_id session_id lane_id run_id sequence timestamp
               committed_at payload previous_checksum checksum derived_event_ids body)
  else None.

Definition commit_record_with_len (draft : RecordDraft) (sequence : Z) (previous_checksum : option Digest)
    (committed_at : option Timestamp) : presult (RecordEnvelope * N) :=
  let? payload := payload_digest (dr_body draft) in
  let? checksum := checksum_of
                     (mkEnvelopeChecksumView (dr_format_version draft) (dr_kind_version draft) (dr_record_id draft)
                        (dr_session_id draft) (dr_lane_id draft) (dr_run_id draft) sequence (dr_timestamp draft)
                        payload previous_checksum (dr_derived_event_ids draft) (dr_body draft)) in
  let? envelope := ok_or (RecordEnvelope_try_new (dr_format_version draft) (dr_kind_version draft)
                            (dr_record_id draft) (dr_session_id draft) (dr_lane_id draft) (dr_run_id draft) sequence
                            (dr_timestamp draft) committed_at payload previous_checksum checksum
                            (dr_derived_event_ids draft) (dr_body draft))
                     (ProtocolError_Codec "invalid record") in
  let? b := encode (envelope_serde envelope) in
  Ok (envelope, len b).

Definition commit_record (draft : RecordDraft) (sequence : Z) (previous_checksum : option Digest)
    (committed_at : option Timestamp) : presult RecordEnvelope :=
  let? committed := commit_record_with_len draft sequence previous_checksum committed_at in
  Ok committed.1.

(** The records committed so far, their bytes and the last checksum. *)
Record CommitState : Type := mkCommitState {
  cm_records : list RecordEnvelope;
  cm_bytes : N;
  cm_previous : option Digest
}.

Definition append_limit : ProtocolError := ProtocolError_LimitExceeded "append_batch" APPEND_BATCH_MAX_BYTES.

Definition commit_step (first_sequence : Z) (committed_at : option Timestamp) (st : CommitState)
    (entry : nat * RecordDraft) : presult CommitState :=
  let? sequence := ok_or (u64_checked_add first_sequence (u64_of_usize entry.1)) (integrity "sequence_exhausted") in
  let? '(envelope, canonical_len) := commit_record_with_len entry.2 sequence (cm_previous st) committed_at in
  let canonical_bytes := (cm_bytes st + canonical_len)%N in
  do? reject_if (APPEND_BATCH_MAX_BYTES <? canonical_bytes)%N append_limit in
  Ok (mkCommitState (cm_records st ++ [envelope]) canonical_bytes (Some (rec_checksum envelope))).

Definition commit_records (drafts : list RecordDraft) (first_sequence : Z) (previous_checksum : option Digest)
    (committed_at : option Timestamp) : presult (list RecordEnvelope) :=
  do? reject_if (APPEND_BATCH_MAX_RECORDS <? length drafts)%nat
        (ProtocolError_LimitExceeded "batch_records" (N.of_nat APPEND_BATCH_MAX_RECORDS)) in
  let? st := rfold (commit_step first_sequence committed_at) (mkCommitState [] 0 previous_checksum)
               (enumerate drafts) in
  Ok (cm_records st).

(** ** Verification *)

Definition verify_envelope (envelope : RecordEnvelope) : presult unit :=
  let? expected_payload := payload_digest (rec_body envelope) in
  do? reject_if (expected_payload <>?? rec_payload_digest envelope) (integrity "payload_digest_mismatch") in
  let? expected_checksum := envelope_checksum envelope in
  do? reject_if (expected_checksum <>?? rec_checksum envelope) (integrity "envelope_checksum_mismatch") in
  let? _ := encode (envelope_serde envelope) in
  Ok tt.

Record ChainAnchor : Type := mkChainAnchor {
  ca_session_id : SessionId;
  ca_next_sequence : Z;
  ca_previous_checksum : option Digest
}.

Definition ChainAnchor_root (session_id : SessionId) : ChainAnchor := mkChainAnchor session_id 1 None.

Definition ChainAnchor_try_new (session_id : SessionId) (next_sequence : Z) (previous_checksum : option Digest)
    : presult ChainAnchor :=
  do? reject_if ((next_sequence =? 0) || negb (Bool.eqb (next_sequence =? 1) (is_none previous_checksum)))
        (integrity "invalid_chain_anchor") in
  Ok (mkChainAnchor session_id next_sequence previous_checksum).

Definition verify_step (anchor : ChainAnchor) (st : option Digest * Z) (record : RecordEnvelope)
    : presult (option Digest * Z) :=
  let '(previous, expected_sequence) := st in
  do? verify_envelope record in
  do? reject_if (rec_session_id record <>?? ca_session_id anchor) (integrity "session_chain_mismatch") in
  do? reject_if (rec_previous_checksum record <>?? previous) (integrity "checksum_chain_break") in
  do? reject_if (negb (rec_sequence record =? expected_sequence)) (integrity "sequence_gap") in
  let? next := ok_or (u64_checked_add (rec_sequence record) 1) (integrity "sequence_exhausted") in
  Ok (Some (rec_checksum record), next).

Definition verify_chain_from (records : list RecordEnvelope) (anchor : ChainAnchor) : presult (option Digest) :=
  let? st := rfold (verify_step anchor) (ca_previous_checksum anchor, ca_next_sequence anchor) records in
  Ok st.1.

Definition verify_chain (records : list RecordEnvelope) : presult (option Digest) :=
  match records with
  | [] => Ok None
  | first :: _ => verify_chain_from records (ChainAnchor_root (rec_session_id first))
  end.

(** ** What commit produces *)

(** A committed record carries the fields of its draft and is sealed by the
    digests of its own contents. *)
Record sealed_from (d : RecordDraft) (sequence : Z) (previous : option Digest) (r : RecordEnvelope) : Prop := {
  sf_fields : mkRecordDraft (rec_format_version r) (rec_kind_version r) (rec_record_id r) (rec_session_id r)
                (rec_lane_id r) (rec_run_id r) (rec_timestamp r) (rec_derived_event_ids r) (rec_body r) = d;
  sf_sequence : rec_sequence r = sequence;
  sf_previous : rec_previous_checksum r = previous;
  sf_verified : verify_envelope r = Ok tt
}.

Lemma commit_record_sealed d sequence previous committed_at r n :
  commit_record_with_len d sequence previous committed_at = Ok (r, n) -> sealed_from d sequence previous r.
Proof.
  unfold commit_record_with_len. intros HH. do 4 step HH. injection HH as <- _.
  apply ok_or_Ok in E1. unfold RecordEnvelope_try_new in E1. case_match; [|done]. injection E1 as <-.
  split; [by destruct d|done..|]. unfold verify_envelope, envelope_checksum, envelope_view. cbn. rewrite E. cbn [rbind].
  rewrite eqb_refl. cbn [negb reject_if rbind]. rewrite E0. cbn [rbind]. rewrite eqb_refl. cbn [negb reject_if rbind].
  by rewrite E2.
Qed.

(** Records in sequence, each citing the checksum before it. *)
Inductive linked : option Digest -> Z -> list RecordEnvelope -> option Digest -> Prop :=
| linked_nil previous sequence : linked previous sequence [] previous
| linked_cons previous sequence r rs head :
    verify_envelope r = Ok tt -> rec_previous_checksum r = previous -> rec_sequence r = sequence ->
    linked (Some (rec_checksum r)) (sequence + 1) rs head -> linked previous sequence (r :: rs) head.

Definition draft_of (r : RecordEnvelope) : RecordDraft :=
  mkRecordDraft (rec_format_version r) (rec_kind_version r) (rec_record_id r) (rec_session_id r)
    (rec_lane_id r) (rec_run_id r) (rec_timestamp r) (rec_derived_event_ids r) (rec_body r).

Lemma commit_loop first committed_at drafts : forall start st st',
  rfold (commit_step first committed_at) st (zip (seq start (length drafts)) drafts) = Ok st' ->
  exists rs, cm_records st' = cm_records st ++ rs /\ draft_of <$> rs = drafts /\
    linked (cm_previous st) (first + Z.of_nat start) rs (cm_previous st') /\
    (drafts <> [] -> first + Z.of_nat (start + length drafts) - 1 <= u64_max).
Proof.
  induction drafts as [|d drafts IH]; intros start st st' HH; cbn [length seq zip zip_with rfold] in HH.
  { injection HH as <-. exists []. rewrite app_nil_r. split_and!; [done..|constructor|done]. }
  step HH. unfold commit_step in E. step E. step E. destruct a1 as [r n]. step E. injection E as <-.
  apply ok_or_Ok in E0. apply commit_record_sealed in E1 as [Hf Hs Hp Hv]. cbn [fst snd] in *.
  apply IH in HH as (rs & Hr & Hd & Hl & Hle). cbn [cm_records cm_previous] in *. exists (r :: rs).
  rewrite <- app_assoc in Hr. unfold u64_checked_add, u64_of_usize in E0. apply in_range_Some in E0 as [-> Hrange].
  split_and!; [done|by rewrite fmap_cons, Hd, <- Hf| |].
  - constructor; [done..|]. by replace (first + Z.of_nat start + 1) with (first + Z.of_nat (S start)) by lia.
  - intros _. destruct drafts as [|d' drafts]; [cbn [length]; lia|]. specialize (Hle ltac:(done)). cbn [length] in *. lia.
Qed.

Lemma commit_records_spec drafts first previous committed_at rs :
  commit_records drafts first previous committed_at = Ok rs ->
  draft_of <$> rs = drafts /\ (length drafts <= APPEND_BATCH_MAX_RECORDS)%nat /\ (exists head, linked previous first rs head) /\
  (drafts <> [] -> first + Z.of_nat (length drafts) - 1 <= u64_max).
Proof.
  unfold commit_records. intros HH. step HH. step HH. injection HH as <-. apply reject_if_Ok, Nat.ltb_ge in E.
  unfold enumerate in E0. apply commit_loop in E0 as (rs & Hr & Hd & Hl & Hle). cbn [cm_records cm_previous app] in *.
  rewrite Hr. rewrite Z.add_0_r in Hl. split_and!; [done..|by eexists|]. exact Hle.
Qed.

(** ** What verification establishes *)

Lemma verify_loop anchor rs : forall previous sequence head next,
  rfold (verify_step anchor) (previous, sequence) rs = Ok (head, next) <->
  linked previous sequence rs head /\ Forall (fun r => rec_session_id r = ca_session_id anchor) rs /\
  next = sequence + Z.of_nat (length rs) /\ (rs <> [] -> 0 <= sequence + 1 /\ next <= u64_max).
Proof.
  induction rs as [|r rs IH]; intros previous sequence head next; cbn [rfold length].
  { rewrite Z.add_0_r. split; [intros [= <- <-]; split_and!; [constructor|constructor|done|done]|].
    intros (Hl & _ & -> & _). by inversion Hl. }
  split.
  - intros HH. step HH. unfold verify_step in E. do 5 step E. injection E as <-. apply IH in HH as (Hl & Hs & -> & Hb).
    destruct a0. apply reject_if_Ok, negb_false_iff, eqb_eq in E1. apply reject_if_Ok, negb_false_iff, eqb_eq in E2.
    apply reject_if_Ok, negb_false_iff, Z.eqb_eq in E3. apply ok_or_Ok in E4. unfold u64_checked_add in E4.
    apply in_range_Some in E4 as [-> Hr]. rewrite E3 in *. split_and!; [by constructor|by constructor|lia|].
    intros _. split; [lia|]. destruct rs; [cbn [length]; lia|]. specialize (Hb ltac:(done)). lia.
  - intros (Hl & Hs & -> & Hb). inversion Hl as [|? ? ? ? ? Hv Hp Hq Hl']; subst. apply Forall_cons in Hs as [Hs Hs'].
    specialize (Hb ltac:(done)). unfold verify_step at 1. rewrite Hv. cbn [rbind]. rewrite Hs, !eqb_refl, Z.eqb_refl.
    cbn [negb reject_if rbind]. assert (u64_checked_add (rec_sequence r) 1 = Some (rec_sequence r + 1)) as ->.
    { apply in_range_Some. split; [done|]. unfold u64_max in *. cbn [length] in Hb. lia. }
    cbn [ok_or rbind]. apply IH. split_and!; [done|done|cbn [length]; lia|]. intros _. cbn [length] in Hb. lia.
Qed.

(** The anchor of a step only names the session. *)
Lemma verify_chain_app rs1 rs2 sid next previous head :
  verify_chain_from (rs1 ++ rs2) (mkChainAnchor sid next previous) = Ok head <->
  exists middle, verify_chain_from rs1 (mkChainAnchor sid next previous) = Ok middle /\
    verify_chain_from rs2 (mkChainAnchor sid (next + Z.of_nat (length rs1)) middle) = Ok head.
Proof.
  unfold verify_chain_from. cbn [ca_previous_checksum ca_next_sequence]. rewrite rfold_app.
  destruct (rfold (verify_step _) _ rs1) as [[middle next']|e] eqn:E1; cbn [rbind].
  - pose proof E1 as (_ & _ & -> & _)%verify_loop. split; [intros HH; exists middle; split; [done|]|intros (m & [= <-] & HH)].
    all: exact HH.
  - split; [done|]. by intros (? & ? & _).
Qed.

Lemma verify_chain_from_spec rs anchor head :
  verify_chain_from rs anchor = Ok head <->
  linked (ca_previous_checksum anchor) (ca_next_sequence anchor) rs head /\
  Forall (fun r => rec_session_id r = ca_session_id anchor) rs /\
  (rs <> [] -> 0 <= ca_next_sequence anchor + 1 /\ ca_next_sequence anchor + Z.of_nat (length rs) <= u64_max).
Proof.
  unfold verify_chain_from. rewrite rbind_Ok. split.
  - intros ([h n] & HH & [= <-]). apply verify_loop in HH as (Hl & Hs & -> & Hb). done.
  - intros (Hl & Hs & Hb). exists (head, ca_next_sequence anchor + Z.of_nat (length rs)). split; [|done].
    apply verify_loop. done.
Qed.
End Chain.
