(* ===== verification/ChainIntegrity.v ===== *)
(** * Integrity of the journal chain

    What the checksum at the head of a verified chain says about its records:
    the fields that are replayed are fixed by it, unless two different byte
    strings hash to the same digest. *)

From stdpp Require Import sorting.
From S2P Require Import Prelude Ids Floats Cbor CborCodec CborDecode Serializer.
From S2P Require Import Primitives Effects Records State Inputs ToolBatch Digests Policy ApplyStage ApplyTools ApplyEffects ApplyRecord Shapes Events Apply Decide Chain.

(** ** Struct fields and the canonical map *)

Section Fields.
Context `{HalfLaws}.

(** The entry a field becomes. *)
Definition entry_of (f : bytes * SerdeTree) (e : CanonicalValue * CanonicalValue) : Prop :=
  e.1 = CanonicalValue_Text f.1 /\ serialize f.2 1 = Ok e.2.

Lemma field_loop fields : forall st st',
  st.2 = None ->
  rfold (fun st (f : bytes * SerdeTree) =>
           let? st := serialize_key st (serialize_str f.1) in
           serialize_value st (serialize f.2 1)) st fields = Ok st' ->
  exists entries, st' = (st.1 ++ entries, None) /\ Forall2 entry_of fields entries.
Proof.
  induction fields as [|[k t] fields IH]; intros st st' Hst HH; cbn [rfold] in HH.
  { injection HH as <-. exists []. rewrite app_nil_r. destruct st. cbn in Hst. subst. by split. }
  step HH. step E. unfold serialize_key in E0. step E0. step E0. injection E0 as <-.
  unfold serialize_str in E2. step E2. injection E2 as <-.
  unfold serialize_value in E. cbn [fst snd ok_or rbind] in E. step E. step E. injection E as <-.
  apply IH in HH as (entries & -> & Hall); [|done]. exists ((CanonicalValue_Text k, a3) :: entries). cbn [fst].
  rewrite <- app_assoc. split; [done|]. by constructor.
Qed.

Lemma struct_entries n fields v : Forall (fun f => utf8_valid f.1 = true /\ serde_typed f.2) fields ->
  serialize (Serde_struct n fields) 0 = Ok v ->
  exists entries sorted, v = CanonicalValue_Map sorted /\ sorted ≡ₚ entries /\ Forall2 entry_of fields entries.
Proof.
  intros Ht HH. cbn [serialize] in HH. step HH. step HH. apply enter_depth_Ok in E0 as [_ ->]. step HH.
  assert (settled_state a0) as [Hst _].
  { eapply fields_settled; [|apply settled_start|exact E0]. apply typed_fields; [|done].
    apply Forall_true. intros f. apply serialize_settled. }
  apply field_loop in E0 as (entries & -> & Hall); [|done]. unfold end_map in HH. cbn [fst snd app] in *.
  do 3 step HH. injection HH as <-. apply sort_map_settled in E2 as [Hp _]; [|done]. by exists entries, a2.
Qed.

(** Equal canonical structs have equal values under equal names. *)
Lemma struct_field_eq n1 n2 fields1 fields2 v k t1 :
  Forall (fun f => utf8_valid f.1 = true /\ serde_typed f.2) fields1 ->
  Forall (fun f => utf8_valid f.1 = true /\ serde_typed f.2) fields2 ->
  serialize (Serde_struct n1 fields1) 0 = Ok v -> serialize (Serde_struct n2 fields2) 0 = Ok v ->
  (k, t1) ∈ fields1 -> exists t2, (k, t2) ∈ fields2 /\ serialize t1 1 = serialize t2 1.
Proof.
  intros Ht1 Ht2 H1 H2 Hin. apply struct_entries in H1 as (e1 & s1 & -> & Hp1 & Ha1); [|done].
  apply struct_entries in H2 as (e2 & s2 & [= <-] & Hp2 & Ha2); [|done].
  apply list_elem_of_lookup in Hin as [i Hi]. destruct (Forall2_lookup_l _ _ _ _ _ Ha1 Hi) as ([kv x] & He & Hk & Hx).
  cbn [fst snd] in *. subst kv. assert ((CanonicalValue_Text k, x) ∈ e2) as He2.
  { rewrite <- Hp2, Hp1. by eapply list_elem_of_lookup_2. }
  apply list_elem_of_lookup in He2 as [j Hj]. destruct (Forall2_lookup_r _ _ _ _ _ Ha2 Hj) as ([k2 t2] & Hf & Hk2 & Hx2).
  cbn [fst snd] in *. injection Hk2 as <-. exists t2. split; [by eapply list_elem_of_lookup_2|congruence].
Qed.
End Fields.

(** ** ASCII text *)

Lemma ascii_utf8 l : Forall (fun c => (u8 c < 128)%N) l -> utf8_valid l = true.
Proof.
  induction 1 as [|c l Hc Hl IH]; [done|]. cbn [utf8_valid]. unfold within. rewrite (proj2 (N.leb_le _ 127)) by lia.
  rewrite (proj2 (N.leb_le 0 _)) by lia. done.
Qed.

Lemma hex_digit_ascii n : (u8 (hex_digit n) < 128)%N.
Proof.
  unfold hex_digit. destruct (HEX_DIGITS !! N.to_nat n) as [c|] eqn:Hc; [|done]. apply list_elem_of_lookup_2 in Hc.
  revert c Hc. apply Forall_forall. unfold HEX_DIGITS. cbn. repeat (constructor; [vm_compute; reflexivity|]). constructor.
Qed.

Lemma hex_byte_ascii b : Forall (fun c => (u8 c < 128)%N) (hex_byte b).
Proof. repeat constructor; apply hex_digit_ascii. Qed.

Lemma hex_bytes_ascii l : Forall (fun c => (u8 c < 128)%N) (mbind hex_byte l).
Proof. apply Forall_bind, Forall_true. apply hex_byte_ascii. Qed.

Lemma uuid_ascii l : Forall (fun c => (u8 c < 128)%N) (uuid_encode l).
Proof.
  unfold uuid_encode, encode_group.
  repeat (apply Forall_app_2; [apply hex_bytes_ascii|]; constructor; [vm_compute; reflexivity|]).
  apply hex_bytes_ascii.
Qed.

Lemma hex_byte_inj a b : (a < 256)%N -> (b < 256)%N -> hex_byte a = hex_byte b -> a = b.
Proof.
  intros Ha Hb Heq. destruct (hex_byte_nibbles a Ha) as (c & d & Hc & H1 & H2).
  destruct (hex_byte_nibbles b Hb) as (c' & d' & Hc' & H1' & H2'). rewrite Hc, Hc' in Heq. injection Heq as -> ->.
  rewrite <- (nibbles_byte a), <- (nibbles_byte b). congruence.
Qed.

Lemma hex_bytes_inj l1 l2 : Forall (fun b => (b < 256)%N) l1 -> Forall (fun b => (b < 256)%N) l2 ->
  length l1 = length l2 -> mbind hex_byte l1 = mbind hex_byte l2 -> l1 = l2.
Proof.
  revert l2. induction l1 as [|a l1 IH]; intros [|b l2] H1 H2 Hlen Heq; try done.
  apply Forall_cons in H1 as [Ha H1], H2 as [Hb H2]. cbn [mbind list_bind] in Heq.
  apply app_inj_1 in Heq as [Hab Heq]; [|done]. f_equal; [by apply hex_byte_inj|]. apply IH; [done..|by injection Hlen|done].
Qed.

Lemma hex_text_inj d1 d2 : (d1 < 2 ^ 256)%N -> (d2 < 2 ^ 256)%N -> hex_text d1 = hex_text d2 -> d1 = d2.
Proof.
  intros H1 H2 Heq. apply hex_bytes_inj in Heq; [|apply be_bytes_bounded..|by rewrite !be_bytes_length].
  apply (f_equal of_be_bytes) in Heq. rewrite !of_be_bytes_be_bytes in Heq.
  rewrite !N.mod_small in Heq by done. done.
Qed.

(** ** The checksum fixes the view *)

Section Integrity.
Context `{HalfLaws, Hasher, Serde, Wire}.

(** SHA-256 yields 32 bytes. *)
Class HasherLaws : Prop := { sha256_bits : forall s, (sha256 s < 2 ^ 256)%N }.

(** What the types of the source guarantee of an envelope. *)
Record envelope_typed (r : RecordEnvelope) : Prop := {
  et_format : is_u16 (rec_format_version r);
  et_kind : is_u16 (rec_kind_version r);
  et_sequence : is_u64 (rec_sequence r);
  et_timestamp : is_i64 (rec_timestamp r);
  et_body : serde_typed (body_serde (rec_body r))
}.

(** The bytes a record's checksum is the SHA-256 of. *)
Definition checksum_preimage (r : RecordEnvelope) : presult string :=
  let? b := encode (view_serde (envelope_view r)) in
  Ok (domain_prefix DOMAIN_RECORD_ENVELOPE RECORD_ENVELOPE_DIGEST_SCHEMA_VERSION +:+ String.string_of_list_ascii b).

(** The two records exhibit a SHA-256 collision: their checksums are the same
    hash of different bytes. *)
Definition collides (r1 r2 : RecordEnvelope) : Prop :=
  exists a b, checksum_preimage r1 = Ok a /\ checksum_preimage r2 = Ok b /\ a <> b /\ sha256 a = sha256 b.

Definition collision (rs1 rs2 : list RecordEnvelope) : Prop := exists r1 r2, r1 ∈ rs1 /\ r2 ∈ rs2 /\ collides r1 r2.

(** The serialized checksum view: every field that is replayed. *)
Definition replay_fields (r : RecordEnvelope) : presult CanonicalValue := to_canonical (view_serde (envelope_view r)).

Lemma id_typed id : serde_typed (id_serde id).
Proof. constructor. apply ascii_utf8, uuid_ascii. Qed.

Lemma digest_typed d : serde_typed (digest_serde d).
Proof. constructor. constructor. apply ascii_utf8, hex_bytes_ascii. Qed.

Lemma u64_typed z : is_u64 z -> serde_typed (Serde_u64 (Z.to_N z)).
Proof. unfold is_u64, u64_max. intros Hz. constructor. lia. Qed.

Definition field_typed (f : bytes * SerdeTree) : Prop := utf8_valid f.1 = true /\ serde_typed f.2.

Lemma typed_field name t : forallb (fun c => u8 c <? 128)%N (String.list_ascii_of_string name) = true ->
  serde_typed t -> field_typed (field name t).
Proof.
  intros Hn Ht. split; [|done]. apply ascii_utf8. apply Forall_forall. intros c Hc.
  rewrite forallb_forall in Hn. apply N.ltb_lt, Hn. by apply list_elem_of_In.
Qed.

Lemma typed_optional {A} name (serde : A -> SerdeTree) o :
  forallb (fun c => u8 c <? 128)%N (String.list_ascii_of_string name) = true ->
  (forall a, serde_typed (serde a)) -> Forall field_typed (optional_field name serde o).
Proof. intros Hn Hs. destruct o; [|constructor]. constructor; [by apply typed_field|constructor]. Qed.

Lemma view_typed r : envelope_typed r -> Forall field_typed (view_fields (envelope_view r)).
Proof.
  intros [Hf Hk Hs Ht Hb]. assert (forall z, is_u16 z -> is_u64 z) as Hw by (unfold is_u16, is_u64, u16_max, u64_max; lia).
  unfold view_fields. rewrite !Forall_app. split_and!.
  - repeat (constructor; [apply typed_field; [reflexivity|]|]); [| | | | |constructor]; cbn [envelope_view ecv_format_version ecv_kind_version].
    1, 2: apply u64_typed; by apply Hw. all: apply id_typed.
  - apply typed_optional; [reflexivity|apply id_typed].
  - constructor; [apply typed_field; [reflexivity|by apply u64_typed]|].
    constructor; [apply typed_field; [reflexivity|by constructor]|].
    constructor; [apply typed_field; [reflexivity|apply digest_typed]|constructor].
  - apply typed_optional; [reflexivity|apply digest_typed].
  - constructor; [apply typed_field; [reflexivity|]|].
    { constructor. apply Forall_fmap, Forall_true. apply id_typed. }
    constructor; [apply typed_field; [reflexivity|exact Hb]|constructor].
Qed.

(** Which fields a view has. *)
Lemma view_field_cases v name t : (String.list_ascii_of_string name, t) ∈ view_fields v ->
  (name = "sequence" -> t = Serde_u64 (Z.to_N (ecv_sequence v))) /\
  (name = "previous_checksum" -> exists d, ecv_previous_checksum v = Some d /\ t = digest_serde d).
Proof.
  unfold view_fields, optional_field, field. intros Hin.
  split; intros ->; destruct (ecv_run_id v), (ecv_previous_checksum v); cbn [app] in Hin;
    repeat (apply elem_of_cons in Hin as [Hin|Hin];
      [first [injection Hin as ->; by eauto | apply (f_equal fst) in Hin; vm_compute in Hin; discriminate Hin]|]);
    by apply not_elem_of_nil in Hin.
Qed.

Lemma checksum_view r1 r2 c : envelope_typed r1 -> envelope_typed r2 ->
  envelope_checksum r1 = Ok c -> envelope_checksum r2 = Ok c ->
  (exists v, replay_fields r1 = Ok v /\ replay_fields r2 = Ok v) \/ collides r1 r2.
Proof.
  intros Ht1 Ht2 E1 E2. unfold envelope_checksum, checksum_of in *. step E1. step E2.
  unfold domain_digest in *. step E1. step E2. injection E1 as <-. injection E2 as Heq. unfold hash_domain in Heq.
  destruct (decide (domain_prefix DOMAIN_RECORD_ENVELOPE 1 +:+ String.string_of_list_ascii a =
                    domain_prefix DOMAIN_RECORD_ENVELOPE 1 +:+ String.string_of_list_ascii a0)) as [Hs|Hs].
  - left. apply domain_prefix_inj in Hs as (_ & _ & Hs); [|by vm_compute..].
    apply (f_equal String.list_ascii_of_string) in Hs. rewrite !String.list_ascii_of_string_of_list_ascii in Hs. subst a0.
    assert (serde_typed (view_serde (envelope_view r1))) as Hty1 by (constructor; by apply view_typed).
    assert (serde_typed (view_serde (envelope_view r2))) as Hty2 by (constructor; by apply view_typed).
    apply encode_decode_tree in E as (v & Hv & D1); [|done]. apply encode_decode_tree in E0 as (v2 & Hv2 & D2); [|done].
    exists v. split; [done|]. unfold replay_fields. rewrite Hv2. congruence.
  - right. unfold collides, checksum_preimage. rewrite E, E0. cbn [rbind]. by do 2 eexists.
Qed.

Lemma view_has_sequence v : (String.list_ascii_of_string "sequence", Serde_u64 (Z.to_N (ecv_sequence v))) ∈ view_fields v.
Proof. unfold view_fields. rewrite !elem_of_app. right. right. left. left. Qed.

Lemma view_has_previous v d : ecv_previous_checksum v = Some d ->
  (String.list_ascii_of_string "previous_checksum", digest_serde d) ∈ view_fields v.
Proof. intros Hd. unfold view_fields. rewrite !elem_of_app. right. right. right. left. rewrite Hd. left. Qed.

(** Records with the same replayed fields have the same sequence and cite the
    same checksum. *)
Lemma same_fields_sequence r1 r2 v : envelope_typed r1 -> envelope_typed r2 ->
  replay_fields r1 = Ok v -> replay_fields r2 = Ok v -> rec_sequence r1 = rec_sequence r2.
Proof.
  intros Ht1 Ht2 H1' H2'.
  destruct (struct_field_eq _ _ _ _ v _ _ (view_typed r1 Ht1) (view_typed r2 Ht2) H1' H2' (view_has_sequence _)) as (t & Hin & Heq).
  apply view_field_cases in Hin as [Hseq _]. rewrite (Hseq eq_refl) in Heq. cbn in Heq. injection Heq as Heq.
  destruct Ht1 as [_ _ Hs1 _ _], Ht2 as [_ _ Hs2 _ _]. unfold is_u64 in *. lia.
Qed.

Lemma serialize_digest d : serialize (digest_serde d) 1 = Ok (CanonicalValue_Text (hex_text d)).
Proof.
  unfold digest_serde. cbn [serialize]. unfold serialize_str.
  assert (length (hex_text d) = 64%nat) as Hl.
  { unfold hex_text. enough (forall l, length (mbind hex_byte l) = (2 * length l)%nat) as -> by by rewrite be_bytes_length.
    induction l as [|x l IHl]; [done|]. cbn [mbind list_bind]. rewrite length_app, IHl. cbn [length hex_byte]. lia. }
  unfold len. rewrite Hl. done.
Qed.

Lemma same_fields_previous r1 r2 v d1 : envelope_typed r1 -> envelope_typed r2 ->
  replay_fields r1 = Ok v -> replay_fields r2 = Ok v -> rec_previous_checksum r1 = Some d1 ->
  exists d2, rec_previous_checksum r2 = Some d2 /\ hex_text d1 = hex_text d2.
Proof.
  intros Ht1 Ht2 H1' H2' Hd.
  destruct (struct_field_eq _ _ _ _ v _ _ (view_typed r1 Ht1) (view_typed r2 Ht2) H1' H2' (view_has_previous (envelope_view r1) d1 Hd)) as (t & Hin & Heq).
  apply view_field_cases in Hin as [_ Hp]. destruct (Hp eq_refl) as (d2 & Hd2 & ->). exists d2. split; [done|].
  rewrite !serialize_digest in Heq. congruence.
Qed.

(** ** Chains *)

Lemma linked_snoc rs : forall p s r h, linked p s (rs ++ [r]) h <->
  exists h', linked p s rs h' /\ verify_envelope r = Ok tt /\ rec_previous_checksum r = h' /\
    rec_sequence r = s + Z.of_nat (length rs) /\ h = Some (rec_checksum r).
Proof.
  induction rs as [|x rs IH]; intros p s r h; cbn [app length].
  - rewrite Z.add_0_r. split.
    + intros Hl. inversion Hl as [|? ? ? ? ? Hv Hp Hs Hn]; subst. inversion Hn; subst. eexists. split_and!; [constructor|done..].
    + intros (h' & Hl & Hv & Hp & Hs & ->). inversion Hl; subst. constructor; [done..|]. constructor.
  - split.
    + intros Hl. inversion Hl as [|? ? ? ? ? Hv Hp Hs Hn]; subst. apply IH in Hn as (h' & Hl' & Hv' & Hp' & Hs' & ->).
      exists h'. split_and!; [by constructor|done|done|lia|done].
    + intros (h' & Hl & Hv & Hp & Hs & ->). inversion Hl as [|? ? ? ? ? Hv' Hp' Hs' Hn]; subst.
      constructor; [done..|]. apply IH. eexists. split_and!; [exact Hn|done|done|lia|done].
Qed.

Lemma verified_checksum r : verify_envelope r = Ok tt -> envelope_checksum r = Ok (rec_checksum r).
Proof.
  unfold verify_envelope. intros HH. step HH. step HH. step HH. step HH. apply reject_if_Ok, negb_false_iff, eqb_eq in E2.
  by rewrite E2.
Qed.

Context `{!HasherLaws}.

Lemma verified_bits r : verify_envelope r = Ok tt -> (rec_checksum r < 2 ^ 256)%N.
Proof.
  intros Hv%verified_checksum. unfold envelope_checksum, checksum_of, domain_digest in Hv. step Hv. step Hv. injection Hv as <-.
  apply sha256_bits.
Qed.

Lemma linked_head_bits rs p s h d : linked p s rs h -> rs <> [] -> h = Some d -> (d < 2 ^ 256)%N.
Proof.
  destruct rs as [|r rs _] using rev_ind; [done|]. intros (h' & _ & Hv & _ & _ & ->)%linked_snoc _ [= <-].
  by apply verified_bits.
Qed.

(** Chains of the same length whose heads read the same have the same head. *)
Lemma heads_agree rs1 rs2 p s h1 h2 : linked p s rs1 h1 -> linked p s rs2 h2 -> length rs1 = length rs2 ->
  (forall d1, h1 = Some d1 -> exists d2, h2 = Some d2 /\ hex_text d1 = hex_text d2) -> h1 = h2.
Proof.
  intros L1 L2 Hlen Hsame. destruct (decide (rs1 = [])) as [->|N1].
  - destruct rs2; [|done]. inversion L1; inversion L2; congruence.
  - assert (rs2 <> []) as N2 by (intros ->; by apply nil_length_inv in Hlen).
    assert (exists d1, h1 = Some d1) as [d1 Hd1].
    { clear -L1 N1. destruct rs1 as [|r rs1 _] using rev_ind; [done|]. apply linked_snoc in L1 as (? & _ & _ & _ & _ & ->). by eexists. }
    destruct (Hsame d1 Hd1) as (d2 & Hd2 & Hx). rewrite Hd1, Hd2. f_equal. apply hex_text_inj; [| |done].
    + exact (linked_head_bits rs1 p s h1 d1 L1 N1 Hd1).
    + exact (linked_head_bits rs2 p s h2 d2 L2 N2 Hd2).
Qed.

(** The two records carry the same replayed fields. *)
Definition same_replay (r1 r2 : RecordEnvelope) : Prop :=
  rec_checksum r1 = rec_checksum r2 /\ exists v, replay_fields r1 = Ok v /\ replay_fields r2 = Ok v.

Lemma collision_last rs1 rs2 r1 r2 : collides r1 r2 -> collision (rs1 ++ [r1]) (rs2 ++ [r2]).
Proof. exists r1, r2. set_solver. Qed.

Lemma collision_app rs1 rs2 l1 l2 : collision rs1 rs2 -> collision (rs1 ++ l1) (rs2 ++ l2).
Proof. intros (r1 & r2 & ? & ? & ?). exists r1, r2. set_solver. Qed.

Lemma linked_same rs1 : forall rs2 p s h, linked p s rs1 h -> linked p s rs2 h -> length rs1 = length rs2 ->
  Forall envelope_typed rs1 -> Forall envelope_typed rs2 -> Forall2 same_replay rs1 rs2 \/ collision rs1 rs2.
Proof.
  induction rs1 as [|r1 rs1 IH] using rev_ind; intros rs2 p s h L1 L2 Hlen T1 T2.
  { destruct rs2; [|done]. left. constructor. }
  destruct rs2 as [|r2 rs2 _] using rev_ind; [rewrite length_app in Hlen; cbn in Hlen; lia|].
  rewrite !length_app in Hlen. cbn [length] in Hlen. apply Forall_app in T1 as [T1 [Tr1 _]%Forall_cons], T2 as [T2 [Tr2 _]%Forall_cons].
  apply linked_snoc in L1 as (h1 & L1 & V1 & P1 & S1 & ->), L2 as (h2 & L2 & V2 & P2 & S2 & [= Hc]).
  pose proof (verified_checksum _ V1) as C1. pose proof (verified_checksum _ V2) as C2. rewrite <- Hc in C2.
  destruct (checksum_view r1 r2 _ Tr1 Tr2 C1 C2) as [(v & F1 & F2)|Hcol]; [|right; by apply collision_last].
  assert (h1 = h2) as Hh.
  { apply (heads_agree rs1 rs2 p s h1 h2 L1 L2); [lia|]. intros d1 Hd. rewrite <- P1 in Hd.
    destruct (same_fields_previous r1 r2 v d1 Tr1 Tr2 F1 F2 Hd) as (d2 & Hd2 & Hx). exists d2. by rewrite <- P2. }
  rewrite <- Hh in L2. destruct (IH rs2 p s h1 L1 L2 ltac:(lia) T1 T2) as [Hall|Hcol]; [|right; by apply collision_app].
  left. apply Forall2_app; [done|]. constructor; [|constructor]. split; [done|]. by exists v.
Qed.

Lemma chain_fixes_records rs1 rs2 anchor head :
  rs1 <> [] -> rs2 <> [] -> Forall envelope_typed rs1 -> Forall envelope_typed rs2 ->
  verify_chain_from rs1 anchor = Ok head -> verify_chain_from rs2 anchor = Ok head ->
  Forall2 same_replay rs1 rs2 \/ collision rs1 rs2.
Proof.
  intros N1 N2 T1 T2 (L1 & _ & _)%verify_chain_from_spec (L2 & _ & _)%verify_chain_from_spec.
  destruct rs1 as [|r1 rs1 _] using rev_ind; [done|]. destruct rs2 as [|r2 rs2 _] using rev_ind; [done|].
  pose proof L1 as (h1 & _ & V1 & _ & S1 & ->)%linked_snoc. pose proof L2 as (h2 & _ & V2 & _ & S2 & [= Hc])%linked_snoc.
  pose proof (verified_checksum _ V1) as C1. pose proof (verified_checksum _ V2) as C2. rewrite <- Hc in C2.
  pose proof T1 as [_ [Tr1 _]%Forall_cons]%Forall_app. pose proof T2 as [_ [Tr2 _]%Forall_cons]%Forall_app.
  destruct (checksum_view r1 r2 _ Tr1 Tr2 C1 C2) as [(v & F1 & F2)|Hcol]; [|right; by apply collision_last].
  pose proof (same_fields_sequence r1 r2 v Tr1 Tr2 F1 F2) as Hs.
  eapply linked_same; [exact L1|exact L2| |done|done]. rewrite !length_app. cbn [length]. lia.
Qed.

(** What is committed verifies, from the anchor it was committed at. *)
Lemma committed_verifies drafts first previous committed_at rs sid :
  commit_records drafts first previous committed_at = Ok rs ->
  Forall (fun d => dr_session_id d = sid) drafts -> 0 <= first -> first + Z.of_nat (length drafts) <= u64_max ->
  exists head, verify_chain_from rs (mkChainAnchor sid first previous) = Ok head.
Proof.
  intros (Hd & _ & [head Hl] & _)%commit_records_spec Hs Hf Hle. exists head. apply verify_chain_from_spec.
  cbn [ca_previous_checksum ca_next_sequence ca_session_id]. subst drafts. rewrite length_fmap in Hle.
  split_and!; [done| |intros _; lia]. by rewrite Forall_fmap in Hs.
Qed.
End Integrity.
