(* ===== verification/History.v ===== *)
(** * The history of a run only grows

    A refinement of the kernel state into the part that replay may extend but
    never rewrite: settlement fingerprints, messages, child preparations,
    budget reservations and charges, the output configuration, a requested
    cancellation.  [grows] is the
    preorder; every handler of the reducer moves along it.

    The second part is the frame relation of the handlers. *)

From S2P Require Import Prelude Primitives Effects Records State Inputs ToolBatch Digests Policy ApplyStage ApplyTools ApplyEffects ApplyRecord Shapes Events Apply.

(** A reservation's request is fixed and its receipts are written once. *)
Definition reservation_grows (r r' : BudgetReservationReplay) : Prop :=
  brp_request r = brp_request r' /\
  (forall x, brp_settlement r = Some x -> brp_settlement r' = Some x) /\
  (forall x, brp_release r = Some x -> brp_release r' = Some x).

(** A tool call keeps its content and, once assigned, its batch and effect. *)
Definition tool_call_grows (i i' : ToolCallIdentity) : Prop :=
  tci_call i = tci_call i' /\ tci_source_message_id i = tci_source_message_id i' /\
  (forall e, tci_effect_id i = Some e -> tci_effect_id i' = Some e).

(** Every entry of [m] survives in [m'], up to [R]. *)
Definition map_grows `{Countable K} {V} (R : V -> V -> Prop) (m m' : gmap K V) : Prop :=
  forall k v, m !! k = Some v -> exists v', m' !! k = Some v' /\ R v v'.

Record grows (s s' : KernelState) : Prop := {
  gr_stage : k_stage_settlements s ⊆ k_stage_settlements s';
  gr_model : k_model_settlements s ⊆ k_model_settlements s';
  gr_extension : k_extension_settlements s ⊆ k_extension_settlements s';
  gr_tool : k_tool_settlements s ⊆ k_tool_settlements s';
  gr_children : k_child_preparations s ⊆ k_child_preparations s';
  gr_charges : k_budget_charges s ⊆ k_budget_charges s';
  gr_reservations : map_grows reservation_grows (k_budget_reservations s) (k_budget_reservations s');
  gr_tool_calls : map_grows tool_call_grows (k_tool_calls s) (k_tool_calls s');
  gr_messages : k_messages s `prefix_of` k_messages s';
  gr_output : forall c, k_output_configuration s = Some c -> k_output_configuration s' = Some c;
  gr_cancellation : is_some (k_cancellation s) = true -> is_some (k_cancellation s') = true;
  gr_version : k_state_version s <= k_state_version s'
}.

Lemma map_grows_refl `{Countable K} {V} (R : V -> V -> Prop) `{!Reflexive R} (m : gmap K V) : map_grows R m m.
Proof. intros k v ?. by exists v. Qed.

Lemma map_grows_trans `{Countable K} {V} (R : V -> V -> Prop) `{!Transitive R} (m1 m2 m3 : gmap K V) :
  map_grows R m1 m2 -> map_grows R m2 m3 -> map_grows R m1 m3.
Proof.
  intros H12 H23 k v Hk. destruct (H12 k v Hk) as (v2 & Hk2 & ?). destruct (H23 k v2 Hk2) as (v3 & ? & ?).
  exists v3. split; [done|]. by transitivity v2.
Qed.

Lemma map_grows_insert `{Countable K} {V} (R : V -> V -> Prop) `{!Reflexive R} (m : gmap K V) k v :
  (forall v0, m !! k = Some v0 -> R v0 v) -> map_grows R m (<[k:=v]> m).
Proof.
  intros Hk k' v' Hv'. destruct (decide (k = k')) as [<-|Hne].
  - exists v. by rewrite lookup_insert_eq; auto.
  - exists v'. by rewrite lookup_insert_ne.
Qed.

#[global] Instance reservation_grows_refl : Reflexive reservation_grows.
Proof. done. Qed.
#[global] Instance reservation_grows_trans : Transitive reservation_grows.
Proof. intros ??? (? & ? & ?) (? & ? & ?). split_and!; [congruence|auto..]. Qed.
#[global] Instance tool_call_grows_refl : Reflexive tool_call_grows.
Proof. done. Qed.
#[global] Instance tool_call_grows_trans : Transitive tool_call_grows.
Proof. intros ??? (? & ? & ?) (? & ? & ?). split_and!; [congruence..|auto]. Qed.

#[global] Instance grows_preorder : PreOrder grows.
Proof.
  split.
  - intros s. constructor; try done; by apply map_grows_refl; apply _.
  - intros s1 s2 s3 [] []. constructor; try (by etrans); auto;
      eapply map_grows_trans; eauto; apply _.
Qed.

(** Inserting under a key that is free or already holds the value. *)
Lemma insert_grows `{Countable K} {V} (m : gmap K V) k v :
  (forall v0, m !! k = Some v0 -> v0 = v) -> m ⊆ <[k:=v]> m.
Proof.
  intros Hk. destruct (m !! k) as [v0|] eqn:E.
  - rewrite (Hk v0 eq_refl) in E. by rewrite insert_id.
  - by apply insert_subseteq.
Qed.

(** ** Setters *)

Section Setters.
Implicit Types s : KernelState.
Ltac frame := intros []; constructor; done.

Lemma grows_with_last_applied_sequence s s' v : grows s s' -> grows s (with_last_applied_sequence v s'). Proof. frame. Qed.
Lemma grows_with_session_id s s' v : grows s s' -> grows s (with_session_id v s'). Proof. frame. Qed.
Lemma grows_with_lane_id s s' v : grows s s' -> grows s (with_lane_id v s'). Proof. frame. Qed.
Lemma grows_with_accepted s s' v : grows s s' -> grows s (with_accepted v s'). Proof. frame. Qed.
Lemma grows_with_accepted_at s s' v : grows s s' -> grows s (with_accepted_at v s'). Proof. frame. Qed.
Lemma grows_with_phase s s' v : grows s s' -> grows s (with_phase v s'). Proof. frame. Qed.
Lemma grows_with_cycle s s' v : grows s s' -> grows s (with_cycle v s'). Proof. frame. Qed.
Lemma grows_with_current_turn s s' v : grows s s' -> grows s (with_current_turn v s'). Proof. frame. Qed.
Lemma grows_with_pending_model_effect s s' v : grows s s' -> grows s (with_pending_model_effect v s'). Proof. frame. Qed.
Lemma grows_with_pending_extension_effect s s' v : grows s s' -> grows s (with_pending_extension_effect v s'). Proof. frame. Qed.
Lemma grows_with_terminal_candidate s s' v : grows s s' -> grows s (with_terminal_candidate v s'). Proof. frame. Qed.
Lemma grows_with_completion_identities s s' v : grows s s' -> grows s (with_completion_identities v s'). Proof. frame. Qed.
Lemma grows_with_pending_interaction s s' v : grows s s' -> grows s (with_pending_interaction v s'). Proof. frame. Qed.
Lemma grows_with_resolution_identities s s' v : grows s s' -> grows s (with_resolution_identities v s'). Proof. frame. Qed.
Lemma grows_with_last_interaction_terminal s s' v : grows s s' -> grows s (with_last_interaction_terminal v s'). Proof. frame. Qed.
Lemma grows_with_active_tool_batch s s' v : grows s s' -> grows s (with_active_tool_batch v s'). Proof. frame. Qed.
Lemma grows_with_last_tool_batch s s' v : grows s s' -> grows s (with_last_tool_batch v s'). Proof. frame. Qed.
Lemma grows_with_active_capabilities s s' v : grows s s' -> grows s (with_active_capabilities v s'). Proof. frame. Qed.
Lemma grows_with_resolved_plan_digest s s' v : grows s s' -> grows s (with_resolved_plan_digest v s'). Proof. frame. Qed.
Lemma grows_with_final_result s s' v : grows s s' -> grows s (with_final_result v s'). Proof. frame. Qed.
Lemma grows_with_validation_failure s s' v : grows s s' -> grows s (with_validation_failure v s'). Proof. frame. Qed.
Lemma grows_with_limit_usage s s' v : grows s s' -> grows s (with_limit_usage v s'). Proof. frame. Qed.
Lemma grows_with_cancellation s s' v : grows s s' -> grows s (with_cancellation (Some v) s'). Proof. frame. Qed.
Lemma grows_with_retry s s' v : grows s s' -> grows s (with_retry v s'). Proof. frame. Qed.
Lemma grows_with_last_limit s s' v : grows s s' -> grows s (with_last_limit v s'). Proof. frame. Qed.
Lemma grows_with_suspension s s' v : grows s s' -> grows s (with_suspension v s'). Proof. frame. Qed.
Lemma grows_with_terminal s s' v : grows s s' -> grows s (with_terminal v s'). Proof. frame. Qed.

Lemma grows_raise_version s s' v : grows s s' -> grows s (raise_version v s').
Proof. intros []. constructor; try done. simpl. lia. Qed.
Lemma grows_map_limit_usage s s' f : grows s s' -> grows s (map_limit_usage f s').
Proof. frame. Qed.
End Setters.

#[export] Hint Resolve grows_with_last_applied_sequence grows_with_session_id grows_with_lane_id
  grows_with_accepted grows_with_accepted_at grows_with_phase grows_with_cycle grows_with_current_turn
  grows_with_pending_model_effect grows_with_pending_extension_effect grows_with_terminal_candidate
  grows_with_completion_identities grows_with_pending_interaction grows_with_resolution_identities
  grows_with_last_interaction_terminal grows_with_active_tool_batch grows_with_last_tool_batch
  grows_with_active_capabilities grows_with_resolved_plan_digest grows_with_final_result
  grows_with_validation_failure grows_with_limit_usage grows_with_cancellation grows_with_retry
  grows_with_last_limit grows_with_suspension grows_with_terminal grows_raise_version
  grows_map_limit_usage : finstack.
#[export] Hint Extern 0 (grows ?s ?s) => reflexivity : finstack.

(** Peel a successful handler, then close the frame goal. *)
Ltac peel H :=
  repeat first
    [ progress cbv zeta in H
    | match type of H with
      | ok_or _ _ = Ok _ => apply ok_or_Ok in H
      | reject_if _ _ = Ok _ => apply reject_if_Ok in H
      | map_err _ _ = Ok _ => apply map_err_Ok in H
      end
    | step H ].
Ltac split_ifs :=
  repeat match goal with
  | |- grows _ ?t => match t with context [if ?b then _ else _] => destruct b end
  end.
Ltac grow H := peel H; subst; split_ifs; eauto 20 with finstack.

(** ** Handlers without digests *)

Section Handlers.
Implicit Types s : KernelState.

Lemma apply_continued_grows s stage s' : apply_continued s stage = Ok s' -> grows s s'.
Proof. unfold apply_continued. intros H. grow H. Qed.

Lemma with_stage_settlements_grows s k d :
  (forall d0, k_stage_settlements s !! k = Some d0 -> d0 = d) ->
  grows s (with_stage_settlements (<[k := d]> (k_stage_settlements s)) s).
Proof.
  intros Hk. constructor; simpl; try done; try (by apply map_grows_refl; apply _). by apply insert_grows.
Qed.

Lemma apply_stage_outcome_grows s o s' : apply_stage_outcome s o = Ok s' -> grows s s'.
Proof.
  unfold apply_stage_outcome. intros H. step H. apply reject_if_Ok in E.
  set (s1 := with_stage_settlements _ _) in H.
  assert (grows s s1) as Hs1.
  { apply with_stage_settlements_grows. intros d0 Hd0. rewrite Hd0 in E. simpl in E. by crush_ok. }
  clearbody s1. step H; try (grow H; fail). etrans; [done|]. by eapply apply_continued_grows.
Qed.

Lemma insert_completion_identity_grows s e d cid s' :
  insert_completion_identity s e d cid = Ok s' -> grows s s'.
Proof. unfold insert_completion_identity. intros H. grow H. Qed.

Lemma insert_model_identity_grows s e k d cid s' : insert_model_identity s e k d cid = Ok s' -> grows s s'.
Proof.
  unfold insert_model_identity. intros H. step H. apply reject_if_Ok in E.
  etrans; [|by eapply insert_completion_identity_grows].
  constructor; simpl; try done; try (by apply map_grows_refl; apply _). apply insert_grows.
  intros [k0 d0] Hv. rewrite Hv in E. simpl in E. by crush_ok; simplify_eq/=.
Qed.

Lemma insert_tool_identity_grows s e k d cid s' : insert_tool_identity s e k d cid = Ok s' -> grows s s'.
Proof.
  unfold insert_tool_identity. intros H. step H. apply reject_if_Ok in E.
  etrans; [|by eapply insert_completion_identity_grows].
  constructor; simpl; try done; try (by apply map_grows_refl; apply _). apply insert_grows.
  intros [k0 d0] Hv. rewrite Hv in E. simpl in E. by crush_ok; simplify_eq/=.
Qed.

Lemma update_wall_usage_grows s now s' : update_wall_usage s now = Ok s' -> grows s s'.
Proof. unfold update_wall_usage. intros H. grow H. Qed.

Lemma apply_completed_usage_grows s c s' : apply_completed_usage s c = Ok s' -> grows s s'.
Proof. unfold apply_completed_usage. intros H. grow H. Qed.

Lemma record_tool_batch_usage_grows s o s' : record_tool_batch_usage s o = Ok s' -> grows s s'.
Proof. unfold record_tool_batch_usage. intros H. grow H. Qed.

Lemma apply_timer_fired_grows s f s' : apply_timer_fired s f = Ok s' -> grows s s'.
Proof. unfold apply_timer_fired. intros H. grow H. Qed.

Lemma apply_extension_requested_grows s r s' : apply_extension_requested s r = Ok s' -> grows s s'.
Proof. unfold apply_extension_requested. intros H. grow H. Qed.

Lemma apply_interaction_requested_grows s r s' : apply_interaction_requested s r = Ok s' -> grows s s'.
Proof. unfold apply_interaction_requested. intros H. grow H. Qed.

Lemma apply_interaction_terminal_outcome_grows s i o s' :
  apply_interaction_terminal_outcome s i o = Ok s' -> grows s s'.
Proof. unfold apply_interaction_terminal_outcome. intros H. grow H. Qed.

Lemma apply_interaction_effect_terminal_grows s e c d s' :
  apply_interaction_effect_terminal s e c d = Ok s' -> grows s s'.
Proof.
  unfold apply_interaction_effect_terminal. intros H. step H. step H. cbv zeta in H.
  match type of H with context [is_some (k_cancellation ?t)] => set (s1 := t) in H end.
  assert (grows s s1) as Hs1 by (subst s1; destruct c; eauto 20 with finstack).
  clearbody s1. step H; [|grow H]. injection H as <-.
  destruct (k_phase s1) as [[]|]; eauto 20 with finstack.
Qed.

Lemma apply_timer_effect_cancelled_grows s c s' : apply_timer_effect_cancelled s c = Ok s' -> grows s s'.
Proof. unfold apply_timer_effect_cancelled. intros H. grow H. Qed.

Lemma entry_step_grows entry m c m' : entry_step entry m c = Ok m' -> map_grows tool_call_grows m m'.
Proof.
  unfold entry_step. intros H. step H. injection H as <-. apply reject_if_Ok, is_some_false in E.
  apply map_grows_insert; [apply _|]. by rewrite E.
Qed.

Lemma entry_steps_grow entry l m m' : rfold (entry_step entry) m l = Ok m' -> map_grows tool_call_grows m m'.
Proof.
  apply (rfold_ind (fun m1 => map_grows tool_call_grows m m1)).
  - apply map_grows_refl. apply _.
  - intros m1 c m2 _ Hm1 Hstep%entry_step_grows. by eapply map_grows_trans; [apply _|..].
Qed.

Lemma with_messages_grows s m : grows s (with_messages (k_messages s ++ [m]) s).
Proof. constructor; simpl; try done; try (by apply map_grows_refl; apply _). by apply prefix_app_r. Qed.

Lemma with_tool_calls_grows s m :
  map_grows tool_call_grows (k_tool_calls s) m -> grows s (with_tool_calls m s).
Proof. intros ?. constructor; simpl; try done; by apply map_grows_refl; apply _. Qed.

Lemma apply_entry_appended_grows s e s' : apply_entry_appended s e = Ok s' -> grows s s'.
Proof.
  unfold apply_entry_appended. intros H. step H. cbv zeta in H.
  match type of H with context [with_messages (k_messages ?t ++ _) _] => set (s1 := t) in H end.
  assert (grows s s1) as Hs1.
  { pose proof (with_tool_calls_grows _ _ (entry_steps_grow _ _ _ _ E)). subst s1. split_ifs; eauto with finstack. }
  clearbody s1. peel H. subst. apply grows_with_phase, grows_with_pending_model_effect, grows_with_current_turn.
  etrans; [done|apply with_messages_grows].
Qed.

Lemma apply_child_run_prepared_grows s p s' : apply_child_run_prepared s p = Ok s' -> grows s s'.
Proof.
  unfold apply_child_run_prepared. intros H. do 3 step H. step H. injection H as <-.
  apply grows_raise_version. step E2; [by peel E2; subst|]. injection E2 as <-.
  constructor; simpl; try done; try (by apply map_grows_refl; apply _). apply insert_grows. by rewrite E3.
Qed.

Lemma apply_cancellation_requested_grows s r s' : apply_cancellation_requested s r = Ok s' -> grows s s'.
Proof. unfold apply_cancellation_requested. intros H. grow H. Qed.

Lemma apply_retry_scheduled_grows s r : grows s (apply_retry_scheduled s r).
Proof. unfold apply_retry_scheduled. eauto 20 with finstack. Qed.

Lemma apply_run_failed_grows s f : grows s (apply_run_failed s f).
Proof. unfold apply_run_failed. cbv zeta. destruct (is_limit_failure _); eauto 20 with finstack. Qed.

Lemma apply_output_configured_grows s c s' : apply_output_configured s c = Ok s' -> grows s s'.
Proof.
  unfold apply_output_configured. intros H. step H. injection H as <-. apply reject_if_Ok in E.
  apply grows_raise_version. crush_ok. apply is_some_false in H0.
  constructor; simpl; try done; try (by apply map_grows_refl; apply _). by rewrite H0.
Qed.

Lemma apply_capabilities_activated_grows s a s' : apply_capabilities_activated s a = Ok s' -> grows s s'.
Proof. unfold apply_capabilities_activated. intros H. grow H. Qed.

Lemma clear_completed_pending_grows r s : grows s (clear_completed_pending r s).
Proof.
  unfold clear_completed_pending. cbv zeta.
  repeat match goal with |- context [if ?b then _ else _] => destruct b end; eauto with finstack.
Qed.
End Handlers.

(** ** Handlers with digests, and the dispatcher *)

Section DigestHandlers.
Context `{Hasher, Serde}.
Implicit Types s : KernelState.

Lemma apply_context_prepared_grows s c s' : apply_context_prepared s c = Ok s' -> grows s s'.
Proof. unfold apply_context_prepared. intros HH. grow HH. Qed.

Lemma open_step_grows opened calls st e st' :
  open_step opened calls st e = Ok st' -> map_grows tool_call_grows (ol_tool_calls st) (ol_tool_calls st').
Proof.
  destruct e as [i a]. unfold open_step. intros HH. do 6 step HH. injection HH as <-. cbn [ol_tool_calls].
  apply ok_or_Ok in E0. apply reject_if_Ok in E1. crush_ok.
  apply map_grows_insert; [apply _|]. intros v0 Hv0. simplify_eq.
  split_and!; [done..|]. intros e' He'.
  match goal with H : is_some (tci_effect_id _) = false |- _ => apply is_some_false in H; congruence end.
Qed.

Lemma open_steps_grow opened calls l st st' :
  rfold (open_step opened calls) st l = Ok st' ->
  map_grows tool_call_grows (ol_tool_calls st) (ol_tool_calls st').
Proof.
  apply (rfold_ind (fun st1 => map_grows tool_call_grows (ol_tool_calls st) (ol_tool_calls st1))).
  - apply map_grows_refl. apply _.
  - intros st1 e st2 _ Hst1 Hstep%open_step_grows. by eapply map_grows_trans; [apply _|..].
Qed.

Lemma apply_tool_batch_opened_grows s o s' : apply_tool_batch_opened s o = Ok s' -> grows s s'.
Proof.
  unfold apply_tool_batch_opened. intros HH. do 4 step HH. injection HH as <-.
  apply grows_with_phase, grows_with_last_tool_batch, grows_with_active_tool_batch, with_tool_calls_grows.
  by eapply open_steps_grow in E2.
Qed.

Lemma apply_tool_effect_completed_grows s c s' : apply_tool_effect_completed s c = Ok s' -> grows s s'.
Proof.
  unfold apply_tool_effect_completed. intros HH. peel HH. subst.
  apply grows_with_phase, grows_with_active_tool_batch. by eapply insert_tool_identity_grows.
Qed.

Lemma apply_tool_effect_failed_grows s f s' : apply_tool_effect_failed s f = Ok s' -> grows s s'.
Proof.
  unfold apply_tool_effect_failed. intros HH. peel HH; subst;
    apply grows_with_phase, grows_with_active_tool_batch; by eapply insert_tool_identity_grows.
Qed.

Lemma settle_identity_grows s t m s' : settle_identity s t m = Ok s' -> grows s s'.
Proof.
  unfold settle_identity. intros HH. peel HH; subst; try reflexivity. by eapply insert_tool_identity_grows.
Qed.

Lemma apply_tool_call_settled_grows s t r s' : apply_tool_call_settled s t r = Ok s' -> grows s s'.
Proof.
  unfold apply_tool_call_settled. intros HH. peel HH. subst.
  match goal with HS : settle_identity _ _ _ = Ok ?s1 |- _ =>
    apply settle_identity_grows in HS; etrans; [exact HS|];
    refine (transitivity (y := with_active_tool_batch _ s1) _ (with_messages_grows _ _));
    eauto with finstack
  end.
Qed.

Lemma apply_tool_batch_closed_grows s c s' : apply_tool_batch_closed s c = Ok s' -> grows s s'.
Proof.
  unfold apply_tool_batch_closed. intros HH. do 4 step HH. injection HH as <-.
  apply grows_with_phase, grows_with_active_tool_batch, grows_with_last_tool_batch. grow E2.
Qed.

Lemma apply_interaction_effect_requested_grows s r next s' :
  apply_interaction_effect_requested s r next = Ok s' -> grows s s'.
Proof.
  unfold apply_interaction_effect_requested. intros HH. do 4 step HH. injection HH as <-.
  apply grows_raise_version, grows_with_phase. step E2; [|by peel E2; subst].
  by eapply apply_interaction_requested_grows.
Qed.

Lemma apply_interaction_resolved_grows s r s' : apply_interaction_resolved s r = Ok s' -> grows s s'.
Proof.
  unfold apply_interaction_resolved. intros HH. do 4 step HH.
  etrans; [|by eapply apply_interaction_terminal_outcome_grows]. eauto with finstack.
Qed.

Lemma apply_effect_requested_grows s r next s' : apply_effect_requested s r next = Ok s' -> grows s s'.
Proof.
  unfold apply_effect_requested. intros HH. step HH.
  - unfold apply_model_requested in HH. grow HH.
  - unfold apply_tool_requested in HH. grow HH.
  - by eapply apply_extension_requested_grows.
  - by eapply apply_extension_requested_grows.
  - by eapply apply_interaction_effect_requested_grows.
  - unfold apply_timer_requested in HH. grow HH.
Qed.

Lemma apply_effect_deferred_grows s d s' : apply_effect_deferred s d = Ok s' -> grows s s'.
Proof. unfold apply_effect_deferred. intros HH. grow HH. Qed.

Lemma apply_extension_settled_grows s o s' : apply_extension_settled s o = Ok s' -> grows s s'.
Proof.
  unfold apply_extension_settled. intros HH. do 5 step HH. injection HH as <-.
  apply grows_raise_version, grows_with_pending_extension_effect.
  etrans; [|by eapply insert_completion_identity_grows]. apply reject_if_Ok, is_some_false in E2.
  constructor; simpl; try done; try (by apply map_grows_refl; apply _). apply insert_grows. by rewrite E2.
Qed.

Lemma apply_effect_completed_grows s c next s' : apply_effect_completed s c next = Ok s' -> grows s s'.
Proof.
  assert (forall s', apply_compaction_completed s c = Ok s' -> grows s s') as Hcompaction.
  { unfold apply_compaction_completed. intros s1 HH. do 3 step HH. injection HH as <-.
    eapply insert_model_identity_grows in E1. eauto 10 with finstack. }
  assert (forall s', apply_model_completed s c next = Ok s' -> grows s s') as Hmodel.
  { unfold apply_model_completed. intros s1 HH. peel HH. subst.
    apply grows_with_terminal_candidate. by eapply insert_model_identity_grows. }
  unfold apply_effect_completed. intros HH. step HH; try (step HH; eauto; fail).
  - by eapply apply_tool_effect_completed_grows.
  - by eapply apply_extension_settled_grows.
  - by eapply apply_extension_settled_grows.
  - by eapply apply_interaction_effect_terminal_grows.
Qed.

Lemma apply_effect_failed_grows s f s' : apply_effect_failed s f = Ok s' -> grows s s'.
Proof.
  assert (forall k d c s1, insert_model_identity s (fld_effect_id f) k d c = Ok s1 -> grows s s1) as Hi.
  { intros. by eapply insert_model_identity_grows. }
  unfold apply_effect_failed. intros HH.
  step HH; try (do 3 step HH; injection HH as <-; apply Hi in E2; eauto with finstack; fail).
  - by eapply apply_tool_effect_failed_grows.
  - by eapply apply_extension_settled_grows.
  - by eapply apply_extension_settled_grows.
  - by eapply apply_interaction_effect_terminal_grows.
Qed.

Lemma buffer_cancelled_tool_effect_grows s c s' : buffer_cancelled_tool_effect s c = Ok s' -> grows s s'.
Proof.
  unfold buffer_cancelled_tool_effect. intros HH. do 6 step HH.
  etrans; [|by eapply insert_tool_identity_grows]. eauto with finstack.
Qed.

Lemma apply_effect_cancelled_grows s c s' : apply_effect_cancelled s c = Ok s' -> grows s s'.
Proof.
  assert (forall s', apply_other_cancelled s c = Ok s' -> grows s s') as Hother.
  { unfold apply_other_cancelled. intros s1 HH.
    repeat (cbv zeta in HH; step HH); subst; eauto with finstack; apply grows_raise_version;
      repeat match goal with
      | E : match _ with _ => _ end = Ok _ |- _ => step E
      | E : (if _ then _ else _) = Ok _ |- _ => step E
      | E : rbind _ _ = Ok _ |- _ => step E
      end; try (by eapply buffer_cancelled_tool_effect_grows); crush_ok; eauto with finstack. }
  unfold apply_effect_cancelled. intros HH. step HH; eauto.
  - by eapply apply_interaction_effect_terminal_grows.
  - by eapply apply_timer_effect_cancelled_grows.
Qed.
End DigestHandlers.

Section Dispatcher.
Context `{Hasher, Serde}.
Implicit Types s : KernelState.

Lemma with_budget_reservations_grows s id r :
  (forall r0, k_budget_reservations s !! id = Some r0 -> reservation_grows r0 r) ->
  grows s (with_budget_reservations (<[id := r]> (k_budget_reservations s)) s).
Proof.
  intros Hr. constructor; simpl; try done; try (by apply map_grows_refl; apply _).
  apply map_grows_insert; [apply _|done].
Qed.

Lemma apply_budget_reservation_requested_grows s r s' :
  apply_budget_reservation_requested s r = Ok s' -> grows s s'.
Proof.
  unfold apply_budget_reservation_requested. intros HH. do 3 step HH. injection HH as <-. apply grows_raise_version.
  step E1; [by peel E1; subst|]. injection E1 as <-. apply with_budget_reservations_grows. by rewrite E2.
Qed.

Lemma apply_budget_reservation_settled_grows s r s' :
  apply_budget_reservation_settled s r = Ok s' -> grows s s'.
Proof.
  unfold apply_budget_reservation_settled. intros HH. do 4 step HH. injection HH as <-. apply grows_raise_version.
  step E2; [by peel E2; subst|]. injection E2 as <-. apply with_budget_reservations_grows.
  apply ok_or_Ok in E0. intros r0 Hr0. simplify_eq. split_and!; [done| |done]. by rewrite E3.
Qed.

Lemma apply_budget_charge_recorded_grows s r s' : apply_budget_charge_recorded s r = Ok s' -> grows s s'.
Proof.
  unfold apply_budget_charge_recorded. intros HH. do 4 step HH. injection HH as <-. apply grows_raise_version.
  step E2; [by peel E2; subst|]. injection E2 as <-.
  constructor; simpl; try done; try (by apply map_grows_refl; apply _). apply insert_grows. by rewrite E3.
Qed.

Lemma apply_budget_reservation_released_grows s r s' :
  apply_budget_reservation_released s r = Ok s' -> grows s s'.
Proof.
  unfold apply_budget_reservation_released. intros HH. do 4 step HH. injection HH as <-. apply grows_raise_version.
  step E2; [by peel E2; subst|]. injection E2 as <-. apply with_budget_reservations_grows.
  apply ok_or_Ok in E0. intros r0 Hr0. simplify_eq. split_and!; [done..|]. by rewrite E3.
Qed.

Lemma apply_final_result_grows s r s' : apply_final_result s r = Ok s' -> grows s s'.
Proof. unfold apply_final_result. intros HH. grow HH. Qed.

Lemma apply_validation_failure_grows s r s' : apply_validation_failure s r = Ok s' -> grows s s'.
Proof. unfold apply_validation_failure. intros HH. grow HH. Qed.

Lemma apply_limit_reached_grows s r s' : apply_limit_reached s r = Ok s' -> grows s s'.
Proof. unfold apply_limit_reached. intros HH. grow HH. Qed.

Lemma insert_tool_identities_grow s l s' :
  rfold (fun s e => insert_tool_identity s e.1 ToolSettlementKind_Synthetic e.2 None) s l = Ok s' -> grows s s'.
Proof.
  apply (rfold_ind (grows s)); [reflexivity|]. intros s1 e s2 _ Hs1 Hs2. etrans; [done|].
  by eapply insert_tool_identity_grows.
Qed.

Lemma apply_cancellation_reconciled_grows s r s' : apply_cancellation_reconciled s r = Ok s' -> grows s s'.
Proof.
  unfold apply_cancellation_reconciled. intros HH. do 4 step HH. injection HH as <-.
  apply grows_raise_version. etrans; [|by eapply insert_tool_identities_grow].
  match type of E1 with context [clear_completed_pending r ?t] => trans (clear_completed_pending r t) end.
  { etrans; [|apply clear_completed_pending_grows]. eauto with finstack. }
  grow E1.
Qed.

Lemma apply_body_grows s record next s' : apply_body s record next = Ok s' -> grows s s'.
Proof.
  unfold apply_body. intros HH.
  destruct (rec_body record); eauto using apply_stage_outcome_grows, apply_context_prepared_grows,
    apply_effect_requested_grows, apply_effect_deferred_grows, apply_entry_appended_grows,
    apply_tool_call_settled_grows, apply_tool_batch_closed_grows, apply_effect_failed_grows,
    apply_cancellation_requested_grows, apply_cancellation_reconciled_grows, apply_timer_fired_grows,
    apply_output_configured_grows, apply_capabilities_activated_grows, apply_final_result_grows,
    apply_validation_failure_grows, apply_child_run_prepared_grows,
    apply_budget_reservation_requested_grows, apply_budget_reservation_settled_grows,
    apply_budget_charge_recorded_grows, apply_budget_reservation_released_grows,
    apply_effect_cancelled_grows, apply_interaction_requested_grows, apply_interaction_resolved_grows,
    apply_interaction_terminal_outcome_grows; try (injection HH as <-; eauto 10 with finstack; fail).
  - step HH. apply apply_completed_usage_grows in E. etrans; [done|]. by eapply apply_effect_completed_grows.
  - step HH. apply record_tool_batch_usage_grows in E. etrans; [done|]. by eapply apply_tool_batch_opened_grows.
  - step HH. apply apply_limit_reached_grows in E. injection HH as <-. eauto with finstack.
  - injection HH as <-. apply apply_retry_scheduled_grows.
  - injection HH as <-. apply apply_run_failed_grows.
Qed.

Lemma apply_record_grows s record next s' : apply_record s record next = Ok s' -> grows s s'.
Proof.
  unfold apply_record. intros HH. step HH; [by injection HH as <-|]. step HH; [by injection HH as <-|].
  step HH. apply apply_body_grows in HH. etrans; [|done].
  step E1; [by injection E1 as <-|]. by eapply update_wall_usage_grows.
Qed.

Lemma semantic_steps_grow l acc acc' :
  rfold semantic_step acc l = Ok acc' -> grows acc.1 acc'.1.
Proof.
  apply (rfold_ind (fun a => grows acc.1 a.1)); [reflexivity|].
  intros [s cs] [record next] acc1 _ Hs Hstep. unfold semantic_step in Hstep. step Hstep.
  injection Hstep as <-. cbn [fst]. apply grows_with_last_applied_sequence.
  etrans; [done|]. by eapply apply_record_grows.
Qed.

Lemma enter_before_run_grows s : grows s (enter_before_run s).
Proof. unfold enter_before_run. split_ifs; eauto with finstack. Qed.

Lemma apply_semantic_grows s records r : apply_semantic_records s records = Ok r -> grows s r.1.
Proof.
  unfold apply_semantic_records. intros HH. step HH. injection HH as <-. cbn [fst].
  apply semantic_steps_grow in E. etrans; [done|apply enter_before_run_grows].
Qed.
End Dispatcher.

(** * What a handler leaves alone

    The frame relation the invariants of a run use: [keeps_run], the identity,
    the sequence and the terminal of the run, the well-formedness of the
    pending extension effect, and the cancellation in progress.  Only
    acceptance, the cancellation request and the three terminal records leave
    it. *)

(** The pending extension effect is one whose contract was checked. *)
Definition extension_ok (s : KernelState) : Prop :=
  forall p, k_pending_extension_effect s = Some p -> validate_request_shape (pxe_requested p) = Ok tt.

(** A cancellation keeps its request and only loses outstanding effects. *)
Definition cancellation_follows (o o' : option CancellationState) : Prop :=
  forall c, o = Some c -> exists c', o' = Some c' /\ cs_request c' = cs_request c /\
    cs_prior_phase c' = cs_prior_phase c /\ cs_outstanding_effects c' ⊆ cs_outstanding_effects c.

#[global] Instance cancellation_follows_preorder : PreOrder cancellation_follows.
Proof.
  split.
  - intros o c Hc. by exists c.
  - intros o1 o2 o3 H12 H23 c Hc. destruct (H12 c Hc) as (c2 & Hc2 & ? & ? & ?).
    destruct (H23 c2 Hc2) as (c3 & ? & ? & ? & ?). exists c3. split_and!; [done|congruence..|set_solver].
Qed.

Record keeps_run (s s' : KernelState) : Prop := {
  kr_session : k_session_id s' = k_session_id s;
  kr_lane : k_lane_id s' = k_lane_id s;
  kr_accepted : k_accepted s' = k_accepted s;
  kr_accepted_at : k_accepted_at s' = k_accepted_at s;
  kr_sequence : k_last_applied_sequence s' = k_last_applied_sequence s;
  kr_terminal : k_terminal s' = k_terminal s;
  kr_extension : extension_ok s -> extension_ok s';
  kr_cancellation : cancellation_follows (k_cancellation s) (k_cancellation s')
}.

#[global] Instance keeps_run_preorder : PreOrder keeps_run.
Proof.
  split; [done|]. intros s1 s2 s3 [] []. constructor; first [by etrans|auto].
Qed.

(** Decide a frame goal whose states differ by field updates only. *)
Ltac frame_field :=
  first [reflexivity | exact (fun h => h) | intros _ ? ?; discriminate].
Ltac framed := intros; constructor; frame_field.
Ltac keep_ifs :=
  repeat match goal with
  | |- keeps_run _ ?t => match t with context [if ?b then _ else _] => destruct b end
  end.
Ltac keep H := peel H; subst; keep_ifs; try (constructor; frame_field).

Section KeepsRun.
Implicit Types s : KernelState.

Lemma apply_stage_outcome_keeps s o s' : apply_stage_outcome s o = Ok s' -> keeps_run s s'.
Proof. unfold apply_stage_outcome, apply_continued, continued_after_model. intros H. keep H. Qed.

Lemma insert_completion_identity_keeps s e d cid s' :
  insert_completion_identity s e d cid = Ok s' -> keeps_run s s'.
Proof. unfold insert_completion_identity. intros H. keep H. Qed.

Lemma insert_model_identity_keeps s e k d cid s' : insert_model_identity s e k d cid = Ok s' -> keeps_run s s'.
Proof.
  unfold insert_model_identity. intros H. step H. apply insert_completion_identity_keeps in H.
  etrans; [|done]. framed.
Qed.

Lemma insert_tool_identity_keeps s e k d cid s' : insert_tool_identity s e k d cid = Ok s' -> keeps_run s s'.
Proof.
  unfold insert_tool_identity. intros H. step H. apply insert_completion_identity_keeps in H.
  etrans; [|done]. framed.
Qed.

Lemma update_wall_usage_keeps s now s' : update_wall_usage s now = Ok s' -> keeps_run s s'.
Proof. unfold update_wall_usage. intros H. keep H. Qed.

Lemma apply_completed_usage_keeps s c s' : apply_completed_usage s c = Ok s' -> keeps_run s s'.
Proof. unfold apply_completed_usage. intros H. keep H. Qed.

Lemma record_tool_batch_usage_keeps s o s' : record_tool_batch_usage s o = Ok s' -> keeps_run s s'.
Proof. unfold record_tool_batch_usage. intros H. keep H. Qed.

Lemma apply_timer_fired_keeps s f s' : apply_timer_fired s f = Ok s' -> keeps_run s s'.
Proof. unfold apply_timer_fired. intros H. keep H. Qed.

Lemma apply_interaction_requested_keeps s r s' : apply_interaction_requested s r = Ok s' -> keeps_run s s'.
Proof. unfold apply_interaction_requested. intros H. keep H. Qed.

Lemma apply_interaction_terminal_outcome_keeps s i o s' :
  apply_interaction_terminal_outcome s i o = Ok s' -> keeps_run s s'.
Proof. unfold apply_interaction_terminal_outcome. intros H. keep H. Qed.

Lemma apply_interaction_effect_terminal_keeps s e c d s' :
  apply_interaction_effect_terminal s e c d = Ok s' -> keeps_run s s'.
Proof.
  unfold apply_interaction_effect_terminal. intros H. do 2 step H. destruct c; cbn [k_cancellation] in H;
    step H; injection H as <-; try framed; repeat case_match; framed.
Qed.

Lemma apply_entry_appended_keeps s e s' : apply_entry_appended s e = Ok s' -> keeps_run s s'.
Proof. unfold apply_entry_appended. intros H. keep H. Qed.

Lemma apply_child_run_prepared_keeps s p s' : apply_child_run_prepared s p = Ok s' -> keeps_run s s'.
Proof.
  unfold apply_child_run_prepared. intros H. do 4 step H. injection H as <-. trans a2; [|framed].
  step E2; [step E2|]; injection E2 as <-; framed.
Qed.

Lemma clear_completed_pending_keeps r s : keeps_run s (clear_completed_pending r s).
Proof. unfold clear_completed_pending. cbv zeta. repeat case_match; framed. Qed.

Lemma insert_tool_identities_keep s l s' :
  rfold (fun s e => insert_tool_identity s e.1 ToolSettlementKind_Synthetic e.2 None) s l = Ok s' ->
  keeps_run s s'.
Proof.
  apply (rfold_ind (keeps_run s)); [reflexivity|]. intros s1 e s2 _ Hs1 Hs2. etrans; [done|].
  by eapply insert_tool_identity_keeps.
Qed.
End KeepsRun.

Section KeepsRunDigests.
Context `{Hasher, Serde}.
Implicit Types s : KernelState.

Lemma apply_extension_requested_keeps s r s' : apply_extension_requested s r = Ok s' -> keeps_run s s'.
Proof.
  unfold apply_extension_requested. intros HH. do 3 step HH. injection HH as <-.
  repeat match goal with u : unit |- _ => destruct u end.
  constructor; try reflexivity. intros _ p Hp. by injection Hp as <-.
Qed.

Lemma apply_effect_requested_keeps s r next s' : apply_effect_requested s r next = Ok s' -> keeps_run s s'.
Proof.
  unfold apply_effect_requested. intros HH. step HH.
  - unfold apply_model_requested in HH. keep HH.
  - unfold apply_tool_requested in HH. keep HH.
  - by eapply apply_extension_requested_keeps.
  - by eapply apply_extension_requested_keeps.
  - unfold apply_interaction_effect_requested in HH. do 4 step HH. injection HH as <-. trans a2; [|framed].
    step E3; [by eapply apply_interaction_requested_keeps|by injection E3 as <-].
  - unfold apply_timer_requested in HH. keep HH.
Qed.

Lemma apply_effect_deferred_keeps s d s' : apply_effect_deferred s d = Ok s' -> keeps_run s s'.
Proof. unfold apply_effect_deferred. intros HH. keep HH. Qed.

Lemma apply_extension_settled_keeps s o s' : apply_extension_settled s o = Ok s' -> keeps_run s s'.
Proof.
  unfold apply_extension_settled. intros HH. do 5 step HH. injection HH as <-.
  apply insert_completion_identity_keeps in E3. trans a3; [|framed]. etrans; [|exact E3]. framed.
Qed.

Lemma apply_tool_effect_completed_keeps s c s' : apply_tool_effect_completed s c = Ok s' -> keeps_run s s'.
Proof.
  unfold apply_tool_effect_completed. intros HH. peel HH. subst.
  etrans; [by eapply insert_tool_identity_keeps|framed].
Qed.

Lemma apply_tool_effect_failed_keeps s f s' : apply_tool_effect_failed s f = Ok s' -> keeps_run s s'.
Proof.
  unfold apply_tool_effect_failed. intros HH. peel HH; subst;
    (etrans; [by eapply insert_tool_identity_keeps|framed]).
Qed.

Lemma apply_effect_completed_keeps s c next s' : apply_effect_completed s c next = Ok s' -> keeps_run s s'.
Proof.
  assert (forall s', apply_compaction_completed s c = Ok s' -> keeps_run s s') as Hcompaction.
  { unfold apply_compaction_completed. intros s1 HH. do 3 step HH. injection HH as <-.
    eapply insert_model_identity_keeps in E1. etrans; [exact E1|framed]. }
  assert (forall s', apply_model_completed s c next = Ok s' -> keeps_run s s') as Hmodel.
  { unfold apply_model_completed. intros s1 HH. peel HH. subst.
    etrans; [by eapply insert_model_identity_keeps|framed]. }
  unfold apply_effect_completed. intros HH. step HH; try (step HH; eauto; fail).
  - by eapply apply_tool_effect_completed_keeps.
  - by eapply apply_extension_settled_keeps.
  - by eapply apply_extension_settled_keeps.
  - by eapply apply_interaction_effect_terminal_keeps.
Qed.

Lemma apply_effect_failed_keeps s f s' : apply_effect_failed s f = Ok s' -> keeps_run s s'.
Proof.
  assert (forall k d c s1, insert_model_identity s (fld_effect_id f) k d c = Ok s1 -> keeps_run s s1) as Hi.
  { intros. by eapply insert_model_identity_keeps. }
  unfold apply_effect_failed. intros HH.
  step HH; try (do 3 step HH; injection HH as <-; apply Hi in E2; etrans; [exact E2|framed]).
  - by eapply apply_tool_effect_failed_keeps.
  - by eapply apply_extension_settled_keeps.
  - by eapply apply_extension_settled_keeps.
  - by eapply apply_interaction_effect_terminal_keeps.
Qed.

Lemma apply_tool_call_settled_keeps s t r s' : apply_tool_call_settled s t r = Ok s' -> keeps_run s s'.
Proof.
  assert (forall m s1, settle_identity s t m = Ok s1 -> keeps_run s s1) as Hi.
  { unfold settle_identity. intros m s1 HH. peel HH; subst; try reflexivity. by eapply insert_tool_identity_keeps. }
  unfold apply_tool_call_settled. intros HH. peel HH. subst. etrans; [by eapply Hi|framed].
Qed.

Lemma apply_tool_batch_closed_keeps s c s' : apply_tool_batch_closed s c = Ok s' -> keeps_run s s'.
Proof.
  unfold apply_tool_batch_closed. intros HH. do 4 step HH. injection HH as <-. trans a2; [|framed]. keep E2.
Qed.

Lemma buffer_cancelled_tool_effect_keeps s c s' : buffer_cancelled_tool_effect s c = Ok s' -> keeps_run s s'.
Proof.
  unfold buffer_cancelled_tool_effect. intros HH. do 6 step HH. apply insert_tool_identity_keeps in HH.
  etrans; [|exact HH]. framed.
Qed.

Lemma apply_effect_cancelled_keeps s c s' : apply_effect_cancelled s c = Ok s' -> keeps_run s s'.
Proof.
  assert (forall s', apply_other_cancelled s c = Ok s' -> keeps_run s s') as Hother.
  { unfold apply_other_cancelled. intros s1 HH.
    repeat (cbv zeta in HH; step HH); subst; try framed;
      (match goal with |- keeps_run _ (raise_version _ ?t) => trans t; [|framed] end);
      repeat match goal with
      | E : match _ with _ => _ end = Ok _ |- _ => step E
      | E : (if _ then _ else _) = Ok _ |- _ => step E
      | E : rbind _ _ = Ok _ |- _ => step E
      end; try (by eapply buffer_cancelled_tool_effect_keeps); crush_ok; framed. }
  unfold apply_effect_cancelled. intros HH. step HH; eauto.
  - by eapply apply_interaction_effect_terminal_keeps.
  - unfold apply_timer_effect_cancelled in HH. keep HH.
Qed.

Lemma reconcile_outstanding_subset c r :
  cs_outstanding_effects (reconcile_cancellation c r) ⊆ cs_outstanding_effects c.
Proof. intros e He. cbn in He. apply list_elem_of_In, filter_In in He as [He _]. by apply list_elem_of_In. Qed.

Lemma apply_cancellation_reconciled_keeps s r s' : apply_cancellation_reconciled s r = Ok s' -> keeps_run s s'.
Proof.
  unfold apply_cancellation_reconciled. intros HH. do 4 step HH. injection HH as <-.
  apply insert_tool_identities_keep in E2. trans a2; [|framed]. etrans; [|exact E2].
  apply ok_or_Ok in E. apply reject_if_Ok in E0.
  match type of E1 with context [clear_completed_pending r ?t] => trans (clear_completed_pending r t) end.
  { etrans; [|apply clear_completed_pending_keeps]. constructor; try reflexivity; [exact (fun h => h)|].
    intros c Hc. rewrite E in Hc. injection Hc as <-. eexists. split; [reflexivity|].
    split_and!; [done|done|]. apply reconcile_outstanding_subset. }
  keep E1.
Qed.

Lemma with_reservations_keeps s m v : keeps_run s (raise_version v (with_budget_reservations m s)).
Proof. framed. Qed.

(** Every budget handler ends in one of two states. *)
Lemma budget_handlers_keep s body next record s' :
  rec_body record = body ->
  match body with
  | RecordBody_BudgetReservationRequested _ | RecordBody_BudgetReservationSettled _
  | RecordBody_BudgetChargeRecorded _ | RecordBody_BudgetReservationReleased _ => True
  | _ => False
  end ->
  apply_body s record next = Ok s' -> keeps_run s s'.
Proof.
  intros Hb Hk. unfold apply_body. rewrite Hb. destruct body; try done; intros HH.
  - unfold apply_budget_reservation_requested in HH. do 3 step HH. injection HH as <-.
    step E1; [step E1|]; injection E1 as <-; framed.
  - unfold apply_budget_reservation_settled in HH. do 4 step HH. injection HH as <-.
    step E2; [step E2|]; injection E2 as <-; framed.
  - unfold apply_budget_charge_recorded in HH. do 4 step HH. injection HH as <-.
    step E2; [step E2|]; injection E2 as <-; framed.
  - unfold apply_budget_reservation_released in HH. do 4 step HH. injection HH as <-.
    step E2; [step E2|]; injection E2 as <-; framed.
Qed.

(** The records that open or close a run, or start closing it. *)
Definition is_boundary (body : RecordBody) : bool :=
  match body with
  | RecordBody_RunAccepted _ | RecordBody_CancellationRequested _ | RecordBody_RunCompleted _ | RecordBody_RunFailed _ | RecordBody_RunCancelled _ => true
  | _ => false
  end.

Lemma apply_body_keeps_run s record next s' :
  is_boundary (rec_body record) = false -> apply_body s record next = Ok s' -> keeps_run s s'.
Proof.
  intros Hb HH.
  destruct (rec_body record) eqn:Hbody; try discriminate Hb;
    try (by eapply budget_handlers_keep; [exact Hbody| |exact HH]);
    unfold apply_body in HH; rewrite Hbody in HH;
    eauto using apply_stage_outcome_keeps, apply_effect_requested_keeps, apply_effect_deferred_keeps,
      apply_entry_appended_keeps, apply_tool_call_settled_keeps, apply_tool_batch_closed_keeps,
      apply_effect_failed_keeps, apply_cancellation_reconciled_keeps, apply_timer_fired_keeps,
      apply_child_run_prepared_keeps, apply_effect_cancelled_keeps, apply_interaction_requested_keeps,
      apply_interaction_terminal_outcome_keeps; try (injection HH as <-; framed).
  - step HH. apply apply_completed_usage_keeps in E. etrans; [exact E|]. by eapply apply_effect_completed_keeps.
  - unfold apply_interaction_resolved in HH. do 4 step HH. apply apply_interaction_terminal_outcome_keeps in HH.
    etrans; [|exact HH]. framed.
  - unfold apply_context_prepared in HH. keep HH.
  - step HH. apply record_tool_batch_usage_keeps in E. etrans; [exact E|].
    unfold apply_tool_batch_opened in HH. keep HH.
  - unfold apply_limit_reached in HH. step HH. injection HH as <-. keep E.
  - unfold apply_output_configured in HH. keep HH.
  - unfold apply_capabilities_activated in HH. keep HH.
  - unfold apply_final_result in HH. keep HH.
  - unfold apply_validation_failure in HH. keep HH.
Qed.
End KeepsRunDigests.
