(* ===== verification/BatchOrder.v ===== *)
(** * Order in an active tool batch

    The invariant of the tool batch that replay maintains: the index and the
    counters are exact, the calls are the opened plan, results are settled in
    source order, and no call of a group is in flight while an earlier group
    still has work.  Every batch update of the reducer preserves it.

    The second part shows that replay keeps the batch in order. *)

From S2P Require Import Prelude Primitives Effects Records State Inputs ToolBatch Digests Policy ApplyStage ApplyTools ApplyEffects ApplyRecord Shapes Events Apply History.

(** ** The plan *)

(** The group rule between neighbours: parallel neighbours share a group,
    anything else starts the next one. *)
Definition group_after (p a : AssignedToolCall) : Z :=
  if (plan_execution (asg_plan p) =?? ToolExecutionMode_Parallel)
     && (plan_execution (asg_plan a) =?? ToolExecutionMode_Parallel)
  then asg_group_index p else asg_group_index p + 1.

Record well_planned (calls : list AssignedToolCall) : Prop := {
  wp_source : forall i a, calls !! i = Some a -> asg_source_index a = Z.of_nat i;
  wp_first : forall a, calls !! 0%nat = Some a -> asg_group_index a = 0;
  wp_next : forall i p a, calls !! i = Some p -> calls !! S i = Some a -> asg_group_index a = group_after p a
}.

Lemma group_after_le p a : asg_group_index p <= group_after p a.
Proof. unfold group_after. destruct (_ && _); lia. Qed.

Lemma well_planned_monotone calls i j a b :
  well_planned calls -> (i <= j)%nat -> calls !! i = Some a -> calls !! j = Some b ->
  asg_group_index a <= asg_group_index b.
Proof.
  intros Hwp Hij. revert b. induction Hij as [|j Hij IH]; intros b Ha Hb; [by simplify_eq|].
  destruct (lookup_lt_is_Some_2 calls j) as [p Hp]; [apply lookup_lt_Some in Hb; lia|].
  rewrite (wp_next _ Hwp j p b Hp Hb). etrans; [by apply IH|apply group_after_le].
Qed.

Lemma well_planned_nonneg calls i a : well_planned calls -> calls !! i = Some a -> 0 <= asg_group_index a.
Proof.
  intros Hwp Ha. destruct (lookup_lt_is_Some_2 calls 0%nat) as [f Hf]; [apply lookup_lt_Some in Ha; lia|].
  rewrite <- (wp_first _ Hwp f Hf). eapply well_planned_monotone; [done| |done..]. lia.
Qed.

Lemma well_planned_snoc calls a :
  well_planned calls -> asg_source_index a = Z.of_nat (length calls) ->
  match last calls with None => asg_group_index a = 0 | Some p => asg_group_index a = group_after p a end ->
  well_planned (calls ++ [a]).
Proof.
  intros [Hs Hf Hn] Hsrc Hgrp. split.
  - intros i b [Hb|[Hlen Hb]]%lookup_app_Some; [by apply Hs|].
    apply list_lookup_singleton_Some in Hb as [Hi <-]. rewrite Hsrc. f_equal. lia.
  - intros b. destruct calls as [|c calls]; simpl; [|apply Hf]. intros [= <-]. done.
  - intros i p b Hp Hb.
    apply lookup_app_Some in Hb as [Hb|[Hlen Hb]].
    + apply (Hn i); [|done]. rewrite lookup_app_l in Hp; [done|]. apply lookup_lt_Some in Hb. lia.
    + apply list_lookup_singleton_Some in Hb as [Hi <-].
      assert (length calls = S i) as Hlc by lia.
      rewrite lookup_app_l in Hp by lia. rewrite last_lookup, Hlc in Hgrp. simpl in Hgrp. by rewrite Hp in Hgrp.
Qed.

(** ** The invariant *)

Definition settled_message (c : ActiveToolCall) : option MessageId :=
  match atc_status c with ActiveToolCallStatus_Settled m _ => Some m | _ => None end.

(** Finished as far as dispatch is concerned. *)
Definition is_done (s : ActiveToolCallStatus) : bool := is_buffered s || is_settled s.

Record batch_inv (b : ActiveToolBatch) : Prop := {
  bi_indexed : indexed b;
  bi_assigned : atc_assigned <$> atb_calls b = tbo_calls (atb_opened b);
  bi_planned : well_planned (tbo_calls (atb_opened b));
  bi_next : 0 <= atb_next_source_index b;
  bi_settled : forall i c, atb_calls b !! i = Some c ->
    is_settled (atc_status c) = true <-> (i < Z.to_nat (atb_next_source_index b))%nat;
  bi_results : atb_result_message_ids b = omap settled_message (atb_calls b);
  bi_flight : forall c, c ∈ atb_calls b -> is_requested (atc_status c) = true ->
    asg_group_index (atc_assigned c) = atb_current_group b;
  bi_barrier : forall c, c ∈ atb_calls b -> asg_group_index (atc_assigned c) < atb_current_group b ->
    is_done (atc_status c) = true
}.

Lemma set_call_status_calls i st b c :
  atb_calls b !! i = Some c ->
  atb_calls (set_call_status i st b) = <[i := mkActiveToolCall (atc_assigned c) st]> (atb_calls b).
Proof. intros Hc. unfold set_call_status. by rewrite Hc. Qed.

Lemma set_call_status_fields i st b :
  atb_opened (set_call_status i st b) = atb_opened b /\
  atb_current_group (set_call_status i st b) = atb_current_group b /\
  atb_next_source_index (set_call_status i st b) = atb_next_source_index b /\
  atb_result_message_ids (set_call_status i st b) = atb_result_message_ids b /\
  atb_fatal_error (set_call_status i st b) = atb_fatal_error b.
Proof. unfold set_call_status. by destruct (atb_calls b !! i). Qed.

Lemma set_call_status_assigned i st b :
  atc_assigned <$> atb_calls (set_call_status i st b) = atc_assigned <$> atb_calls b.
Proof.
  destruct (atb_calls b !! i) as [c|] eqn:Hc; [|unfold set_call_status; by rewrite Hc].
  rewrite (set_call_status_calls _ _ _ _ Hc), list_fmap_insert. simpl. apply list_insert_id.
  by rewrite list_lookup_fmap, Hc.
Qed.

(** An element of the updated list is the new one or an old one. *)
Lemma elem_of_insert {A} (l : list A) i (x y : A) : y ∈ <[i := x]> l -> y = x \/ y ∈ l.
Proof.
  intros [j Hj]%list_elem_of_lookup. apply list_lookup_insert_Some in Hj as [(_ & -> & _)|[_ Hj]]; [by left|].
  right. by eapply list_elem_of_lookup_2.
Qed.

Lemma omap_insert_none {A B} (f : A -> option B) (l : list A) i a a' :
  l !! i = Some a -> f a = None -> f a' = None -> omap f (<[i := a']> l) = omap f l.
Proof.
  revert i. induction l as [|x l IH]; intros [|i] Hi Ha Ha'; simplify_eq/=; [by rewrite Ha, Ha'|].
  by rewrite IH.
Qed.

(** Replacing the status of an unsettled call by another unsettled status that
    keeps the group discipline. *)
Lemma set_call_status_inv i st b c :
  batch_inv b -> atb_calls b !! i = Some c ->
  is_settled (atc_status c) = false -> is_settled st = false ->
  (is_requested st = true -> asg_group_index (atc_assigned c) = atb_current_group b) ->
  (is_done st = true \/ is_done (atc_status c) = false) ->
  batch_inv (set_call_status i st b).
Proof.
  intros [Hix Has Hpl Hnx Hst Hrs Hfl Hba] Hc Hns Hns' Hreq Hdone.
  destruct (set_call_status_fields i st b) as (Ho & Hg & Hn & Hr & Hf).
  constructor; rewrite ?Ho, ?Hg, ?Hn, ?Hr; try done.
  - by apply set_call_status_indexed.
  - by rewrite set_call_status_assigned.
  - rewrite (set_call_status_calls _ _ _ _ Hc). intros j d.
    rewrite list_lookup_insert_Some. intros [(<- & <- & _)|[_ Hd]]; [|by apply Hst].
    simpl. rewrite Hns', <- (Hst i c Hc), Hns. done.
  - rewrite (set_call_status_calls _ _ _ _ Hc), Hrs. symmetry. eapply omap_insert_none; [done|..].
    + unfold settled_message. by destruct (atc_status c).
    + unfold settled_message. simpl. by destruct st.
  - rewrite (set_call_status_calls _ _ _ _ Hc). intros d [->|Hd]%elem_of_insert; [done|by apply Hfl].
  - rewrite (set_call_status_calls _ _ _ _ Hc). intros d [->|Hd]%elem_of_insert Hlt; [|by apply Hba].
    simpl in *. destruct Hdone as [|Hdone]; [done|].
    rewrite (Hba c) in Hdone; [done|by eapply list_elem_of_lookup_2|done].
Qed.

(** Starting a later group once the earlier ones are settled. *)
Lemma set_current_group_inv g b :
  batch_inv b -> atb_current_group b <= g ->
  (atb_current_group b < g ->
   forall c, c ∈ atb_calls b -> asg_group_index (atc_assigned c) < g -> is_settled (atc_status c) = true) ->
  batch_inv (set_current_group g b).
Proof.
  intros [Hix Has Hpl Hnx Hst Hrs Hfl Hba] Hle Hlow. constructor; try done.
  - by apply set_current_group_indexed.
  - simpl. intros c Hc Hr. destruct (decide (atb_current_group b = g)) as [<-|Hne]; [by apply Hfl|].
    specialize (Hfl c Hc Hr). specialize (Hlow ltac:(lia) c Hc ltac:(lia)). by destruct (atc_status c).
  - simpl. intros c Hc Hlt. destruct (decide (atb_current_group b = g)) as [<-|Hne]; [by apply Hba|].
    unfold is_done. by rewrite (Hlow ltac:(lia) c Hc Hlt), orb_true_r.
Qed.

Lemma set_fatal_inv e b : batch_inv b -> batch_inv (set_atb_fatal_error e b).
Proof.
  intros [[Hl Hs Hc Hn] ?????]. by constructor.
Qed.

(** Nothing after the settled prefix carries a result. *)
Lemma omap_all_none {A B} (f : A -> option B) l : (forall a, a ∈ l -> f a = None) -> omap f l = [].
Proof.
  induction l as [|a l IH]; intros Hall; [done|]. simpl. rewrite (Hall a) by set_solver.
  apply IH. set_solver.
Qed.

Lemma omap_settle_next b c m d :
  batch_inv b -> atb_calls b !! Z.to_nat (atb_next_source_index b) = Some c ->
  omap settled_message
    (<[Z.to_nat (atb_next_source_index b) := mkActiveToolCall (atc_assigned c) (ActiveToolCallStatus_Settled m d)]>
       (atb_calls b)) = atb_result_message_ids b ++ [m].
Proof.
  intros Hb Hc. rewrite (bi_results b Hb). set (n := Z.to_nat (atb_next_source_index b)) in *.
  assert (omap settled_message (drop n (atb_calls b)) = []) as Hdrop.
  { apply omap_all_none. intros a [j Hj]%list_elem_of_lookup. rewrite lookup_drop in Hj.
    pose proof (bi_settled b Hb _ _ Hj) as Hset. fold n in Hset. unfold settled_message.
    destruct (atc_status a); try done. simpl in Hset. exfalso. destruct Hset as [Hset _].
    specialize (Hset eq_refl). lia. }
  rewrite <- (take_drop_middle _ _ _ Hc) in Hdrop at 1.
  assert (n < length (atb_calls b))%nat as Hn by (by eapply lookup_lt_Some).
  rewrite drop_app_ge in Hdrop by (rewrite length_take; lia).
  rewrite length_take, Nat.min_l, Nat.sub_diag in Hdrop by lia. simpl in Hdrop.
  destruct (settled_message c) eqn:Hsc; [done|].
  rewrite <- (take_drop_middle _ _ _ Hc), insert_app_r_alt by (rewrite length_take; lia).
  rewrite length_take, Nat.min_l, Nat.sub_diag by lia. simpl.
  rewrite !omap_app. simpl. by rewrite Hsc, Hdrop, app_nil_r.
Qed.

(** Settling the next call in source order. *)
Lemma settle_next_inv b c m d next :
  batch_inv b -> atb_calls b !! Z.to_nat (atb_next_source_index b) = Some c ->
  next = atb_next_source_index b + 1 ->
  batch_inv
    (set_atb_next_source_index next
      (set_atb_result_message_ids (atb_result_message_ids b ++ [m])
        (set_call_status (Z.to_nat (atb_next_source_index b)) (ActiveToolCallStatus_Settled m d) b))).
Proof.
  intros Hb Hc ->. pose proof (omap_settle_next b c m d Hb Hc) as Hres.
  destruct Hb as [Hix Has Hpl Hnx Hst Hrs Hfl Hba].
  set (n := Z.to_nat (atb_next_source_index b)) in *. set (st := ActiveToolCallStatus_Settled m d) in *.
  destruct (set_call_status_fields n st b) as (Ho & Hg & Hn & Hr & Hf).
  pose proof (set_call_status_calls n st b c Hc) as Hcalls.
  pose proof (set_call_status_indexed n st b Hix) as [Hl1 Hs1 Hc1 Hn1].
  constructor; simpl; rewrite ?Ho, ?Hg; try done.
  - by rewrite set_call_status_assigned.
  - lia.
  - rewrite Hcalls. intros j e. replace (Z.to_nat (atb_next_source_index b + 1)) with (S n) by lia.
    rewrite list_lookup_insert_Some. intros [(<- & <- & _)|[Hne He]]; [simpl; split; [lia|done]|].
    rewrite (Hst j e He). lia.
  - by rewrite Hcalls, Hres.
  - rewrite Hcalls. intros e [->|He]%elem_of_insert; [done|by apply Hfl].
  - rewrite Hcalls. intros e [->|He]%elem_of_insert ?; [done|by apply Hba].
Qed.

(** * Replay keeps the tool batch in order

    Every record handler either leaves the active tool batch alone or moves it
    to another batch that satisfies [batch_inv]; the message identities of
    settled results occur in the message log in the same order. *)

Definition batch_ok (s : KernelState) : Prop :=
  forall b, k_active_tool_batch s = Some b ->
    batch_inv b /\ atb_result_message_ids b `sublist_of` (msg_id <$> k_messages s).

(** Frames: the batch is kept or dropped and messages only grow. *)
Lemma batch_ok_frame s s' :
  grows s s' -> (k_active_tool_batch s' = k_active_tool_batch s \/ k_active_tool_batch s' = None) ->
  batch_ok s -> batch_ok s'.
Proof.
  intros Hg Hb Hok b' Hb'. destruct Hb as [Hb|Hb]; rewrite Hb in Hb'; [|done].
  destruct (Hok b' Hb') as [Hinv Hsub]. split; [done|].
  etrans; [exact Hsub|]. destruct (gr_messages s s' Hg) as [l ->]. rewrite fmap_app. by apply sublist_inserts_r.
Qed.

(** A handler that replaces the batch and keeps its results. *)
Lemma batch_ok_replace s s' b b' :
  grows s s' -> k_active_tool_batch s = Some b -> batch_ok s -> k_active_tool_batch s' = Some b' ->
  batch_inv b' -> atb_result_message_ids b' = atb_result_message_ids b -> batch_ok s'.
Proof.
  intros Hg Hb Hok Hb' Hinv Hres b'' Hb''. rewrite Hb' in Hb''. injection Hb'' as <-. split; [done|].
  rewrite Hres. destruct (Hok b Hb) as [_ Hsub]. etrans; [exact Hsub|].
  destruct (gr_messages s s' Hg) as [l ->]. rewrite fmap_app. by apply sublist_inserts_r.
Qed.

(** ** Opening *)

Section Opening.
Context `{Hasher, Serde}.

Definition opened_as (c : ActiveToolCall) : Prop :=
  if is_execute (asg_plan (atc_assigned c)) then atc_status c = ActiveToolCallStatus_Undispatched
  else is_buffered (atc_status c) = true.

Record opening (st : OpenLoop) (l : list AssignedToolCall) : Prop := {
  op_assigned : atc_assigned <$> ol_calls st = l;
  op_planned : well_planned l;
  op_prior : ol_prior st = last l;
  op_status : Forall opened_as (ol_calls st)
}.

Lemma opened_status_as opened a st :
  opened_status opened a = Ok st -> opened_as (mkActiveToolCall a st).
Proof.
  unfold opened_status, opened_as. simpl. destruct (asg_plan a); simpl; intros HH; peel HH; by subst.
Qed.

Lemma expected_group_after prior a g :
  expected_group prior a = Ok g -> g = match prior with None => 0 | Some p => group_after p a end.
Proof.
  unfold expected_group, group_after. destruct prior as [p|]; [|by intros [= <-]].
  destruct (_ && _); [by intros [= <-]|]. intros Hg%ok_or_Ok. by machine.
Qed.

Lemma open_step_opening opened source st l a st' :
  opening st l -> open_step opened source st (length l, a) = Ok st' -> opening st' (l ++ [a]).
Proof.
  intros [Ha Hp Hpr Hs]. unfold open_step. intros HH. do 6 step HH. injection HH as <-. crush_ok.
  apply in_range_Some in E as [-> _]. apply negb_false_iff, Z.eqb_eq in E3.
  match goal with Hsrc : negb (asg_source_index _ =? _) = false |- _ =>
    apply negb_false_iff, Z.eqb_eq in Hsrc; rename Hsrc into Hsource end.
  apply expected_group_after in E2. rewrite Hpr in E2. subst.
  constructor; simpl.
  - by rewrite fmap_app.
  - apply well_planned_snoc; [done|done|]. by destruct (last _).
  - by rewrite last_snoc.
  - apply Forall_app. split; [done|]. apply Forall_singleton. by eapply opened_status_as.
Qed.

Lemma opening_batch_inv opened calls g :
  atc_assigned <$> calls = tbo_calls opened -> well_planned (tbo_calls opened) -> Forall opened_as calls ->
  Z.of_nat (length calls) <= u32_max ->
  g = default 0 (find_map (fun c =>
      if is_execute (asg_plan (atc_assigned c)) then Some (asg_group_index (atc_assigned c)) else None) calls) ->
  batch_inv (ActiveToolBatch_new opened calls g 0 [] None).
Proof.
  intros Ha Hp Hs Hlen Hg. unfold ActiveToolBatch_new.
  set (b0 := mkActiveToolBatch opened calls g 0 [] None ∅ 0 0 0).
  assert (forall l b, let b' := foldl reindex_step b l in
    atb_opened b' = atb_opened b /\ atb_calls b' = atb_calls b /\ atb_current_group b' = atb_current_group b /\
    atb_next_source_index b' = atb_next_source_index b /\
    atb_result_message_ids b' = atb_result_message_ids b) as Hfold.
  { induction l as [|[i c] l IH]; intros b; [done|]. cbn [foldl].
    destruct (IH (reindex_step b (i, c))) as (-> & -> & -> & -> & ->). done. }
  destruct (Hfold (enumerate calls) (with_counters ∅ 0 0 0 b0)) as (Ho & Hc & Hgr & Hn & Hr).
  change (foldl _ _ _) with (reindex b0) in Ho, Hc, Hgr, Hn, Hr. simpl in Ho, Hc, Hgr, Hn, Hr.
  assert (forall c, c ∈ calls -> opened_as c) as Hs' by (by apply Forall_forall).
  constructor; rewrite ?Ho, ?Hc, ?Hgr, ?Hn, ?Hr; try done.
  - by apply reindex_indexed.
  - intros i c Hi. assert (opened_as c) as Hop by (eapply Hs', list_elem_of_lookup_2, Hi).
    unfold opened_as in Hop. destruct (is_execute _); [rewrite Hop|destruct (atc_status c)]; simpl in *;
      split; try done; lia.
  - symmetry. apply omap_all_none. intros c Hci. specialize (Hs' c Hci). unfold opened_as, settled_message in *.
    destruct (is_execute _); [by rewrite Hs'|]. by destruct (atc_status c).
  - intros c Hci. specialize (Hs' c Hci). unfold opened_as in Hs'.
    destruct (is_execute _); [by rewrite Hs'|]. by destruct (atc_status c).
  - intros c Hci Hlt. pose proof (Hs' c Hci) as Hop. unfold opened_as in Hop.
    destruct (is_execute (asg_plan (atc_assigned c))) eqn:Hex; [|unfold is_done; by rewrite Hop].
    exfalso. apply list_elem_of_lookup in Hci as [i Hi].
    assert (tbo_calls opened !! i = Some (atc_assigned c)) as Hai by (by rewrite <- Ha, list_lookup_fmap, Hi).
    destruct (find_map _ calls) as [g'|] eqn:Hf; simpl in Hg; subst g.
    + apply find_map_Some in Hf as (j & c' & Hj & Hc' & Hfirst).
      destruct (is_execute (asg_plan (atc_assigned c'))) eqn:Hex'; [|done]. injection Hc' as <-.
      assert (tbo_calls opened !! j = Some (atc_assigned c')) as Haj by (by rewrite <- Ha, list_lookup_fmap, Hj).
      destruct (decide (i < j)%nat) as [Hij|Hij].
      * specialize (Hfirst i c Hij Hi). by rewrite Hex in Hfirst.
      * pose proof (well_planned_monotone _ j i _ _ Hp ltac:(lia) Haj Hai). lia.
    + pose proof (well_planned_nonneg _ _ _ Hp Hai). lia.
Qed.

Lemma apply_tool_batch_opened_batch s o s' :
  apply_tool_batch_opened s o = Ok s' -> batch_ok s'.
Proof.
  unfold apply_tool_batch_opened. intros HH. do 4 step HH. injection HH as <-.
  apply (rfold_enumerate_ind opening) in E2; [|by constructor|intros; by eapply open_step_opening].
  destruct E2 as [Ha Hp _ Hs]. intros b [= <-]. split.
  - apply opening_batch_inv; try done. apply (f_equal length) in Ha. rewrite length_fmap in Ha.
    rewrite Ha.
    apply reject_if_Ok in E. apply orb_false_iff in E as [_ Hmax%Nat.ltb_ge].
    unfold SEMANTIC_ARRAY_MAX_ITEMS in Hmax. unfold u32_max. lia.
  - unfold ActiveToolBatch_new, reindex.
    enough (forall l b, atb_result_message_ids (foldl reindex_step b l) = atb_result_message_ids b) as ->
      by apply sublist_nil_l.
    induction l as [|[i c] l IH]; intros b; [done|]. cbn [foldl]. by rewrite IH.
Qed.
End Opening.

(** ** Handlers that leave the batch alone *)

(** The batch of [s'] is the batch of [s], for states that differ by updates
    of other fields. *)
Ltac same H := peel H; subst; repeat case_match; try reflexivity.

Section SameBatch.
Implicit Types s : KernelState.
Notation kept s s' := (k_active_tool_batch s' = k_active_tool_batch s).

Lemma apply_stage_outcome_batch s o s' : apply_stage_outcome s o = Ok s' -> kept s s'.
Proof. unfold apply_stage_outcome, apply_continued, continued_after_model. intros H. same H. Qed.

Lemma insert_completion_identity_batch s e d cid s' : insert_completion_identity s e d cid = Ok s' -> kept s s'.
Proof. unfold insert_completion_identity. intros H. same H. Qed.

Lemma insert_model_identity_batch s e k d cid s' : insert_model_identity s e k d cid = Ok s' -> kept s s'.
Proof. unfold insert_model_identity. intros H. step H. by apply insert_completion_identity_batch in H. Qed.

Lemma insert_tool_identity_batch s e k d cid s' : insert_tool_identity s e k d cid = Ok s' -> kept s s'.
Proof. unfold insert_tool_identity. intros H. step H. by apply insert_completion_identity_batch in H. Qed.

Lemma insert_tool_identities_batch s l s' :
  rfold (fun s e => insert_tool_identity s e.1 ToolSettlementKind_Synthetic e.2 None) s l = Ok s' -> kept s s'.
Proof.
  apply (rfold_ind (fun s1 => kept s s1)); [done|]. intros s1 e s2 _ Hs1 Hs2%insert_tool_identity_batch. congruence.
Qed.

Lemma update_wall_usage_batch s now s' : update_wall_usage s now = Ok s' -> kept s s'.
Proof. unfold update_wall_usage. intros H. same H. Qed.

Lemma apply_completed_usage_batch s c s' : apply_completed_usage s c = Ok s' -> kept s s'.
Proof. unfold apply_completed_usage. intros H. same H. Qed.

Lemma apply_interaction_requested_batch s r s' : apply_interaction_requested s r = Ok s' -> kept s s'.
Proof. unfold apply_interaction_requested. intros H. same H. Qed.

Lemma apply_interaction_terminal_outcome_batch s i o s' :
  apply_interaction_terminal_outcome s i o = Ok s' -> kept s s'.
Proof. unfold apply_interaction_terminal_outcome. intros H. same H. Qed.

Lemma apply_interaction_effect_terminal_batch s e c d s' :
  apply_interaction_effect_terminal s e c d = Ok s' -> kept s s'.
Proof.
  unfold apply_interaction_effect_terminal. intros H. do 2 step H.
  destruct c; step H; injection H as <-; try reflexivity; repeat case_match; reflexivity.
Qed.

Lemma apply_entry_appended_batch s e s' : apply_entry_appended s e = Ok s' -> kept s s'.
Proof. unfold apply_entry_appended. intros H. same H. Qed.

Lemma apply_child_run_prepared_batch s p s' : apply_child_run_prepared s p = Ok s' -> kept s s'.
Proof.
  unfold apply_child_run_prepared. intros H. do 4 step H. injection H as <-.
  step E2; [step E2|]; injection E2 as <-; reflexivity.
Qed.

Lemma clear_completed_pending_batch r s : kept s (clear_completed_pending r s).
Proof. unfold clear_completed_pending. cbv zeta. repeat case_match; reflexivity. Qed.
End SameBatch.

(** ** Handlers that update the batch *)

Section Updates.
Context `{Hasher, Serde}.
Implicit Types s : KernelState.

Lemma apply_tool_requested_ok s r s' : batch_ok s -> apply_tool_requested s r = Ok s' -> batch_ok s'.
Proof.
  unfold apply_tool_requested. intros Hok HH. do 5 step HH. injection HH as <-. crush_ok.
  destruct (Hok _ E) as [Hinv _].
  match goal with Hc : atb_calls _ !! _ = Some ?c |- _ => rename c into active; rename Hc into Hact end.
  set (g := asg_group_index (atc_assigned active)) in *.
  assert (is_undispatched (atc_status active) = true) as Hund by (by apply negb_false_iff).
  assert (atb_current_group a <= g) as Hle by lia.
  eapply (batch_ok_replace s _ a); [..|reflexivity| |]; try done.
  - eauto with finstack.
  - apply (set_call_status_inv _ _ _ active); try done; try (by destruct (atc_status active)).
    + apply set_current_group_inv; [done|done|]. intros Hlt c Hc Hgc.
      rewrite (proj2 (Z.ltb_lt _ _) Hlt) in E3. cbn [andb] in E3. rewrite existsb_false in E3.
      specialize (E3 c Hc). rewrite (proj2 (Z.ltb_lt _ _) Hgc) in E3. by apply negb_false_iff in E3.
    + right. by destruct (atc_status active).
  - by destruct (set_call_status_fields a0 (ActiveToolCallStatus_Requested r None) (set_current_group g a))
      as (_ & _ & _ & -> & _).
Qed.

(** A requested call becomes buffered or keeps its request. *)
Lemma update_requested_inv b i c st :
  batch_inv b -> atb_calls b !! i = Some c -> is_requested (atc_status c) = true ->
  is_requested st || is_buffered st = true -> batch_inv (set_call_status i st b).
Proof.
  intros Hinv Hc Hreq Hst. apply (set_call_status_inv _ _ _ c); try done.
  - by destruct (atc_status c).
  - by destruct st.
  - intros _. apply (bi_flight _ Hinv); [by eapply list_elem_of_lookup_2|done].
  - destruct (is_buffered st) eqn:Hb; [left; unfold is_done; by rewrite Hb|].
    right. by destruct (atc_status c).
Qed.

Lemma set_call_status_results i st b :
  atb_result_message_ids (set_call_status i st b) = atb_result_message_ids b.
Proof. apply set_call_status_fields. Qed.

Lemma apply_effect_deferred_ok s d s' : batch_ok s -> apply_effect_deferred s d = Ok s' -> batch_ok s'.
Proof.
  intros Hok HH. pose proof (apply_effect_deferred_grows s d s' HH) as Hg.
  unfold apply_effect_deferred in HH. step HH.
  - peel HH. subst. crush_ok. destruct (Hok _ E0) as [Hinv _].
    eapply (batch_ok_replace s _ a); [done..|reflexivity| |apply set_call_status_results].
    eapply update_requested_inv; [done..|by rewrite E3|done].
  - peel HH. subst. by eapply batch_ok_frame; [exact Hg|left|].
Qed.

Lemma apply_tool_effect_completed_ok s c s' :
  batch_ok s -> apply_tool_effect_completed s c = Ok s' -> batch_ok s'.
Proof.
  intros Hok HH. pose proof (apply_tool_effect_completed_grows s c s' HH) as Hg.
  unfold apply_tool_effect_completed in HH. peel HH. subst. crush_ok. destruct (Hok _ E) as [Hinv _].
  eapply (batch_ok_replace s _ a); [done..|reflexivity| |apply set_call_status_results].
  eapply update_requested_inv; [done..|by rewrite E2|done].
Qed.

Lemma apply_tool_effect_failed_ok s f s' : batch_ok s -> apply_tool_effect_failed s f = Ok s' -> batch_ok s'.
Proof.
  intros Hok HH. pose proof (apply_tool_effect_failed_grows s f s' HH) as Hg.
  unfold apply_tool_effect_failed in HH. do 3 step HH. step HH. do 4 step HH. injection HH as <-. crush_ok.
  destruct (Hok _ E) as [Hinv _].
  eapply (batch_ok_replace s _ a); [done..|reflexivity| |].
  - assert (batch_inv (set_call_status a0
      (ActiveToolCallStatus_Buffered a4 a3 true (Some (fld_error f))) a)) as Hb.
    { eapply update_requested_inv; [done..|by rewrite E2|done]. }
    case_match; [by apply set_fatal_inv|done].
  - case_match; simpl; apply set_call_status_results.
Qed.

Lemma settle_identity_batch s t m s' :
  settle_identity s t m = Ok s' -> k_active_tool_batch s' = k_active_tool_batch s /\ k_messages s' = k_messages s.
Proof.
  assert (forall s e k d cid s', insert_tool_identity s e k d cid = Ok s' -> k_messages s' = k_messages s) as Hm.
  { unfold insert_tool_identity, insert_completion_identity. intros s0 ????? HH. peel HH; by subst. }
  unfold settle_identity. intros HH. peel HH; subst; try done.
  split; [by eapply insert_tool_identity_batch|by eapply Hm].
Qed.

Lemma apply_tool_call_settled_ok s t r s' : batch_ok s -> apply_tool_call_settled s t r = Ok s' -> batch_ok s'.
Proof.
  intros Hok. unfold apply_tool_call_settled. intros HH. peel HH. subst. crush_ok.
  match goal with
  | HS : settle_identity _ _ _ = Ok ?s1 |- _ => apply settle_identity_batch in HS as [_ Hmsg]
  end.
  destruct (Hok _ E) as [Hinv Hsub]. intros b Hb. cbn in Hb. injection Hb as <-. split.
  - match goal with Hn : u32_checked_add _ 1 = Some _ |- _ =>
      destruct (set_call_status_fields (Z.to_nat (atb_next_source_index a))
        (ActiveToolCallStatus_Settled (msg_id (tcs_message t)) (tcs_settlement_digest t)) a)
        as (_ & _ & Hnx & Hrs & _);
      cbn in Hn; rewrite Hnx in Hn; cbn; rewrite Hrs; eapply settle_next_inv; [done..|machine]
    end.
  - cbn. rewrite fmap_app, Hmsg.
    destruct (set_call_status_fields (Z.to_nat (atb_next_source_index a))
      (ActiveToolCallStatus_Settled (msg_id (tcs_message t)) (tcs_settlement_digest t)) a)
      as (_ & _ & _ & -> & _). by apply sublist_app.
Qed.

Lemma apply_tool_batch_closed_ok s c s' : apply_tool_batch_closed s c = Ok s' -> batch_ok s'.
Proof. unfold apply_tool_batch_closed. intros HH. do 4 step HH. injection HH as <-. intros b Hb. done. Qed.

Lemma buffer_cancelled_tool_effect_ok s c s' :
  batch_ok s -> buffer_cancelled_tool_effect s c = Ok s' -> batch_ok s'.
Proof.
  intros Hok HH. pose proof (buffer_cancelled_tool_effect_grows s c s' HH) as Hg.
  unfold buffer_cancelled_tool_effect in HH. do 6 step HH. crush_ok. apply insert_tool_identity_batch in HH.
  destruct (Hok _ E) as [Hinv _]. unfold buffer_cancelled_effect in E2. peel E2; subst; simplify_eq.
  eapply (batch_ok_replace s _ a); [done..|exact HH| |apply set_call_status_results].
  eapply update_requested_inv; [done..|].
  match goal with HB : buffer_cancellation_result _ _ _ = Ok _ |- _ =>
    unfold buffer_cancellation_result in HB; peel HB; by subst end.
Qed.

Lemma close_reconciled_inv error b i b' :
  batch_inv b -> (forall c, atb_calls b !! i = Some c -> is_settled (atc_status c) = false) ->
  close_reconciled_step error b i = Ok b' ->
  batch_inv b' /\ atb_result_message_ids b' = atb_result_message_ids b /\
  forall j c', atb_calls b' !! j = Some c' ->
    exists c, atb_calls b !! j = Some c /\ (is_settled (atc_status c) = false -> is_settled (atc_status c') = false).
Proof.
  intros Hinv Hns. unfold close_reconciled_step. destruct (atb_calls b !! i) as [c|] eqn:Hc; intros HH.
  - step HH. injection HH as <-. unfold buffer_cancellation_result in E. peel E. subst.
    rewrite set_call_status_results. split_and!; [|done|].
    + apply (set_call_status_inv _ _ _ c); try done; [by apply Hns|by left].
    + rewrite (set_call_status_calls _ _ _ _ Hc). intros j c' Hj.
      apply list_lookup_insert_Some in Hj as [(<- & <- & _)|[_ Hj]]; [by exists c|by exists c'].
  - injection HH as <-. split_and!; [done..|]. intros j c' Hj. by exists c'.
Qed.

Lemma close_reconciled_loop error l b b' :
  batch_inv b -> (forall i c, i ∈ l -> atb_calls b !! i = Some c -> is_settled (atc_status c) = false) ->
  rfold (close_reconciled_step error) b l = Ok b' ->
  batch_inv b' /\ atb_result_message_ids b' = atb_result_message_ids b.
Proof.
  intros Hinv Hns HH.
  enough (batch_inv b' /\ atb_result_message_ids b' = atb_result_message_ids b /\
    forall i c, i ∈ l -> atb_calls b' !! i = Some c -> is_settled (atc_status c) = false) by naive_solver.
  revert HH. apply (rfold_ind (fun b1 => batch_inv b1 /\ atb_result_message_ids b1 = atb_result_message_ids b /\
    forall i c, i ∈ l -> atb_calls b1 !! i = Some c -> is_settled (atc_status c) = false)); [done|].
  intros b1 i b2 Hi (Hinv1 & Hr1 & Hns1) Hstep.
  destruct (close_reconciled_inv _ _ _ _ Hinv1 (fun c => Hns1 i c Hi) Hstep) as (Hinv2 & Hr2 & Hback).
  split_and!; [done|congruence|]. intros j c Hj Hc. destruct (Hback _ _ Hc) as (c0 & Hc0 & Himp).
  apply Himp. by eapply Hns1.
Qed.

Lemma enumerate_lookup {A} (l : list A) i a : (i, a) ∈ enumerate l -> l !! i = Some a.
Proof.
  unfold enumerate. intros [j Hj]%list_elem_of_lookup. rewrite lookup_zip_with in Hj.
  destruct (seq 0 (length l) !! j) as [k|] eqn:Hk; [|done]. apply lookup_seq in Hk as [-> _].
  destruct (l !! j) eqn:Hl; by simplify_eq/=.
Qed.

Lemma buffer_reconciled_ok b completed b' :
  batch_inv b -> buffer_reconciled_tool_closures b completed = Ok b' ->
  batch_inv b' /\ atb_result_message_ids b' = atb_result_message_ids b.
Proof.
  intros Hinv HH. unfold buffer_reconciled_tool_closures in HH. step HH. cbv zeta in HH.
  eapply close_reconciled_loop; [done| |exact HH].
  intros i c ([k c'] & Hin & Heq)%list_elem_of_omap Hc. simpl in Heq. apply enumerate_lookup in Hin.
  destruct (_ || _) eqn:Hst in Heq; [|done]. injection Heq as ->. simplify_eq.
  by destruct (atc_status c'); simpl in Hst; rewrite ?andb_false_r in Hst.
Qed.

Lemma apply_cancellation_reconciled_ok s r s' :
  batch_ok s -> apply_cancellation_reconciled s r = Ok s' -> batch_ok s'.
Proof.
  intros Hok HH. pose proof (apply_cancellation_reconciled_grows s r s' HH) as Hg.
  unfold apply_cancellation_reconciled in HH. do 4 step HH. injection HH as <-.
  apply insert_tool_identities_batch in E2. cbv zeta in E1.
  match type of E1 with context [clear_completed_pending r ?t] =>
    pose proof (clear_completed_pending_batch r t) as Hc; set (s2 := clear_completed_pending r t) in * end.
  cbn in Hc. rewrite Hc in E1.
  destruct (k_active_tool_batch s) as [b|] eqn:Hb.
  - step E1. injection E1 as <-. destruct (Hok b Hb) as [Hinv _].
    destruct (buffer_reconciled_ok _ _ _ Hinv E3) as [Hinv' Hr].
    by eapply (batch_ok_replace s _ b); [..|exact E2| |].
  - injection E1 as <-. intros b' Hb'. cbn in Hb'. congruence.
Qed.
End Updates.

(** ** The dispatcher *)

Section Dispatch.
Context `{Hasher, Serde}.
Implicit Types s : KernelState.

Lemma apply_effect_requested_ok s r next s' :
  batch_ok s -> apply_effect_requested s r next = Ok s' -> batch_ok s'.
Proof.
  intros Hok HH. pose proof (apply_effect_requested_grows s r next s' HH) as Hg.
  unfold apply_effect_requested in HH. step HH; try (by eapply apply_tool_requested_ok);
    eapply batch_ok_frame; try done; left.
  - unfold apply_model_requested in HH. same HH.
  - unfold apply_extension_requested in HH. same HH.
  - unfold apply_extension_requested in HH. same HH.
  - unfold apply_interaction_effect_requested in HH. do 4 step HH. injection HH as <-. cbn.
    step E3; [by eapply apply_interaction_requested_batch|by injection E3 as <-].
  - unfold apply_timer_requested in HH. same HH.
Qed.

Lemma apply_extension_settled_batch s o s' :
  apply_extension_settled s o = Ok s' -> k_active_tool_batch s' = k_active_tool_batch s.
Proof.
  unfold apply_extension_settled. intros HH. do 5 step HH. injection HH as <-.
  by apply insert_completion_identity_batch in E3.
Qed.

Lemma apply_effect_completed_ok s c next s' :
  batch_ok s -> apply_effect_completed s c next = Ok s' -> batch_ok s'.
Proof.
  intros Hok HH. pose proof (apply_effect_completed_grows s c next s' HH) as Hg.
  assert (forall s1, apply_compaction_completed s c = Ok s1 -> k_active_tool_batch s1 = k_active_tool_batch s) as Hcompaction.
  { unfold apply_compaction_completed. intros s1 H1. do 3 step H1. injection H1 as <-.
    by eapply insert_model_identity_batch in E1. }
  assert (forall s1, apply_model_completed s c next = Ok s1 -> k_active_tool_batch s1 = k_active_tool_batch s) as Hmodel.
  { unfold apply_model_completed. intros s1 H1. peel H1. subst.
    match goal with HI : insert_model_identity _ _ _ _ _ = Ok _ |- _ =>
      exact (insert_model_identity_batch _ _ _ _ _ _ HI) end. }
  unfold apply_effect_completed in HH.
  step HH; try (by eapply apply_tool_effect_completed_ok); eapply batch_ok_frame; try done; left;
    try (step HH; eauto; fail).
  - by eapply apply_extension_settled_batch.
  - by eapply apply_extension_settled_batch.
  - by eapply apply_interaction_effect_terminal_batch.
Qed.

Lemma apply_effect_failed_ok s f s' : batch_ok s -> apply_effect_failed s f = Ok s' -> batch_ok s'.
Proof.
  intros Hok HH. pose proof (apply_effect_failed_grows s f s' HH) as Hg. unfold apply_effect_failed in HH.
  step HH; try (by eapply apply_tool_effect_failed_ok); eapply batch_ok_frame; try done; left;
    try (do 3 step HH; injection HH as <-; by eapply insert_model_identity_batch in E2).
  - by eapply apply_extension_settled_batch.
  - by eapply apply_extension_settled_batch.
  - by eapply apply_interaction_effect_terminal_batch.
Qed.

Lemma apply_effect_cancelled_ok s c s' : batch_ok s -> apply_effect_cancelled s c = Ok s' -> batch_ok s'.
Proof.
  intros Hok HH. pose proof (apply_effect_cancelled_grows s c s' HH) as Hg.
  assert (forall v s1, batch_ok s1 -> batch_ok (raise_version v s1)) as Hrv by done.
  assert (forall s1, apply_other_cancelled s c = Ok s1 -> batch_ok s1) as Hother.
  { unfold apply_other_cancelled. intros s1 H1. repeat (cbv zeta in H1; step H1); subst; try done;
      apply Hrv;
      repeat match goal with
      | E : match _ with _ => _ end = Ok _ |- _ => step E
      | E : (if _ then _ else _) = Ok _ |- _ => step E
      | E : rbind _ _ = Ok _ |- _ => step E
      end; try (by eapply buffer_cancelled_tool_effect_ok); by crush_ok. }
  unfold apply_effect_cancelled in HH. step HH; eauto; eapply batch_ok_frame; try done; left.
  - by eapply apply_interaction_effect_terminal_batch.
  - unfold apply_timer_effect_cancelled in HH. same HH.
Qed.

Lemma budget_handlers_batch s record next s' :
  match rec_body record with
  | RecordBody_BudgetReservationRequested _ | RecordBody_BudgetReservationSettled _
  | RecordBody_BudgetChargeRecorded _ | RecordBody_BudgetReservationReleased _ => True
  | _ => False
  end ->
  apply_body s record next = Ok s' -> k_active_tool_batch s' = k_active_tool_batch s.
Proof.
  unfold apply_body. intros Hk HH. destruct (rec_body record); try done.
  - unfold apply_budget_reservation_requested in HH. do 3 step HH. injection HH as <-.
    step E1; [step E1|]; by injection E1 as <-.
  - unfold apply_budget_reservation_settled in HH. do 4 step HH. injection HH as <-.
    step E2; [step E2|]; by injection E2 as <-.
  - unfold apply_budget_charge_recorded in HH. do 4 step HH. injection HH as <-.
    step E2; [step E2|]; by injection E2 as <-.
  - unfold apply_budget_reservation_released in HH. do 4 step HH. injection HH as <-.
    step E2; [step E2|]; by injection E2 as <-.
Qed.

Lemma apply_body_batch_ok s record next s' :
  batch_ok s -> apply_body s record next = Ok s' -> batch_ok s'.
Proof.
  intros Hok HH. pose proof (apply_body_grows s record next s' HH) as Hg.
  destruct (rec_body record) eqn:Hb;
    try (eapply batch_ok_frame; [exact Hg|left; eapply budget_handlers_batch; [by rewrite Hb|exact HH]|done]);
    unfold apply_body in HH; rewrite Hb in HH;
    try (lazymatch type of HH with
      | apply_effect_requested _ _ _ = _ => by eapply apply_effect_requested_ok
      | apply_effect_deferred _ _ = _ => by eapply apply_effect_deferred_ok
      | apply_effect_failed _ _ = _ => by eapply apply_effect_failed_ok
      | apply_effect_cancelled _ _ = _ => by eapply apply_effect_cancelled_ok
      | apply_tool_call_settled _ _ _ = _ => by eapply apply_tool_call_settled_ok
      | apply_tool_batch_closed _ _ = _ => by eapply apply_tool_batch_closed_ok
      | apply_cancellation_reconciled _ _ = _ => by eapply apply_cancellation_reconciled_ok
      end);
    try (eapply batch_ok_frame; [exact Hg|left|done]; lazymatch type of HH with
      | apply_interaction_requested _ _ = _ => by eapply apply_interaction_requested_batch
      | apply_interaction_terminal_outcome _ _ _ = _ => by eapply apply_interaction_terminal_outcome_batch
      | apply_stage_outcome _ _ = _ => by eapply apply_stage_outcome_batch
      | apply_entry_appended _ _ = _ => by eapply apply_entry_appended_batch
      | apply_child_run_prepared _ _ = _ => by eapply apply_child_run_prepared_batch
      | Ok _ = _ => injection HH as <-; reflexivity
      end).
  - step HH. eapply apply_effect_completed_ok; [|exact HH].
    eapply batch_ok_frame; [by eapply apply_completed_usage_grows|left|done]. by eapply apply_completed_usage_batch.
  - eapply batch_ok_frame; [exact Hg|left|done]. unfold apply_interaction_resolved in HH. do 4 step HH.
    by apply apply_interaction_terminal_outcome_batch in HH.
  - eapply batch_ok_frame; [exact Hg|left|done]. unfold apply_context_prepared in HH. same HH.
  - step HH. by eapply apply_tool_batch_opened_batch.
  - eapply batch_ok_frame; [exact Hg|left|done]. unfold apply_cancellation_requested in HH. same HH.
  - eapply batch_ok_frame; [exact Hg|left|done]. step HH. injection HH as <-.
    unfold apply_limit_reached in E. same E.
  - eapply batch_ok_frame; [exact Hg|left|done]. unfold apply_timer_fired in HH. same HH.
  - eapply batch_ok_frame; [exact Hg|left|done]. injection HH as <-. unfold apply_run_failed. cbv zeta.
    by case_match.
  - eapply batch_ok_frame; [exact Hg|left|done]. unfold apply_output_configured in HH. same HH.
  - eapply batch_ok_frame; [exact Hg|left|done]. unfold apply_capabilities_activated in HH. same HH.
  - eapply batch_ok_frame; [exact Hg|left|done]. unfold apply_final_result in HH. same HH.
  - eapply batch_ok_frame; [exact Hg|left|done]. unfold apply_validation_failure in HH. same HH.
Qed.

Lemma apply_record_batch_ok s record next s' :
  batch_ok s -> apply_record s record next = Ok s' -> batch_ok s'.
Proof.
  intros Hok. unfold apply_record. intros HH. step HH; [by injection HH as <-|].
  step HH; [by injection HH as <-|]. step HH. eapply apply_body_batch_ok; [|exact HH].
  step E1; [by injection E1 as <-|].
  eapply batch_ok_frame; [by eapply update_wall_usage_grows|left|done]. by eapply update_wall_usage_batch.
Qed.
End Dispatch.
