(* ===== verification/PhaseMachine.v ===== *)
(** * The phase machine

    The phases of a run as an abstract automaton.  [successors] lists, for each
    phase, the phases one committed batch may lead to; [record_phases] lists the
    phases a single record may lead to.  Replay refines the automaton: a batch
    that [apply] accepts moves the phase along an edge, back to the phase an
    interaction interrupted, or not at all. *)

From S2P Require Import Prelude Primitives Effects Records State Inputs ToolBatch Digests Policy ApplyStage ApplyTools ApplyEffects ApplyRecord Shapes Events Apply BatchOrder History.

(** ** The automaton *)

(** What any accepted, unfinished run may do: start cancelling, fail on a
    limit or deadline, suspend. *)
Definition control_phases : list RunPhase := [RunPhase_Cancelling; RunPhase_Failed; RunPhase_Suspended].

Definition successors (p : option RunPhase) : list RunPhase :=
  match p with
  | None => [RunPhase_BeforeRun; RunPhase_Failed; RunPhase_Suspended]
  | Some RunPhase_BeforeRun =>
      [RunPhase_PreparingContext; RunPhase_BeforeFinalize; RunPhase_AwaitingInteraction] ++ control_phases
  | Some RunPhase_PreparingContext =>
      [RunPhase_BeforeModel; RunPhase_BeforeFinalize; RunPhase_AwaitingInteraction] ++ control_phases
  | Some RunPhase_BeforeModel =>
      [RunPhase_AwaitingModel; RunPhase_BeforeFinalize; RunPhase_AwaitingInteraction] ++ control_phases
  | Some RunPhase_AwaitingModel =>
      [RunPhase_AwaitingExternal; RunPhase_AfterModel; RunPhase_BeforeFinalize; RunPhase_BeforeModel;
       RunPhase_AwaitingTools] ++ control_phases
  | Some RunPhase_AwaitingExternal =>
      [RunPhase_AfterModel; RunPhase_BeforeFinalize; RunPhase_BeforeModel; RunPhase_AwaitingTools;
       RunPhase_AfterToolBatch] ++ control_phases
  | Some RunPhase_AfterModel =>
      [RunPhase_BeforeToolBatch; RunPhase_BeforeFinalize; RunPhase_AwaitingInteraction] ++ control_phases
  | Some RunPhase_BeforeToolBatch =>
      [RunPhase_AwaitingTools; RunPhase_AfterToolBatch; RunPhase_BeforeFinalize; RunPhase_AwaitingInteraction]
      ++ control_phases
  | Some RunPhase_AwaitingTools =>
      [RunPhase_AwaitingExternal; RunPhase_AfterToolBatch; RunPhase_AwaitingInteraction; RunPhase_AwaitingModel]
      ++ control_phases
  | Some RunPhase_AfterToolBatch =>
      [RunPhase_PreparingContext; RunPhase_BeforeFinalize; RunPhase_AwaitingInteraction] ++ control_phases
  | Some RunPhase_BeforeFinalize =>
      [RunPhase_Completed; RunPhase_PreparingContext; RunPhase_Sleeping; RunPhase_AwaitingInteraction]
      ++ control_phases
  | Some RunPhase_Sleeping => RunPhase_PreparingContext :: control_phases
  | Some RunPhase_AwaitingInteraction => control_phases
  | Some (RunPhase_Cancelling | RunPhase_Suspended) =>
      [RunPhase_AfterToolBatch; RunPhase_Cancelled] ++ control_phases
  | Some RunPhase_Accepted => RunPhase_BeforeRun :: control_phases
  | Some (RunPhase_Completed | RunPhase_Failed | RunPhase_Cancelled) => []
  end.

(** The phase an open interaction returns to. *)
Definition prior_phases (s : KernelState) : list RunPhase :=
  match k_pending_interaction s with Some p => [pin_prior_phase p] | None => [] end.

(** ** Phases after one record *)

Definition settled_phases (s : KernelState) (kind : EffectOutputKind) (model : list RunPhase) : list RunPhase :=
  match kind with
  | EffectOutputKind_ContextContribution | EffectOutputKind_MiddlewareOutcome => []
  | EffectOutputKind_InteractionResolution =>
      (if is_some (k_cancellation s)
       then match k_phase s with
            | Some (RunPhase_Cancelling | RunPhase_Suspended | RunPhase_Cancelled) => []
            | _ => [RunPhase_Cancelling]
            end
       else prior_phases s)
  | EffectOutputKind_ToolResult => [RunPhase_AwaitingTools; RunPhase_AwaitingExternal]
  | _ => model
  end.

Definition record_phases (s : KernelState) (body : RecordBody) : list RunPhase :=
  match body with
  | RecordBody_RunAccepted _ => [RunPhase_Accepted]
  | RecordBody_StageOutcomeRecorded o =>
      match so_disposition o, sc_stage (so_cursor o) with
      | StageDisposition_Continued, Stage_BeforeRun => [RunPhase_PreparingContext]
      | StageDisposition_Continued, Stage_AfterModel => [RunPhase_BeforeFinalize; RunPhase_BeforeToolBatch]
      | StageDisposition_Continued, Stage_AfterToolBatch => [RunPhase_PreparingContext; RunPhase_BeforeFinalize]
      | StageDisposition_ContinueModel _, _ => [RunPhase_PreparingContext]
      | StageDisposition_Failed _, _ => [RunPhase_BeforeFinalize]
      | _, _ => []
      end
  | RecordBody_ContextPrepared _ => [RunPhase_BeforeModel]
  | RecordBody_EffectRequested r =>
      match req_kind r with
      | EffectKind_Context | EffectKind_Middleware => []
      | EffectKind_Interaction => [RunPhase_AwaitingInteraction]
      | EffectKind_Timer => [RunPhase_Sleeping]
      | EffectKind_Tool => [RunPhase_AwaitingTools]
      | EffectKind_Model => [RunPhase_AwaitingModel]
      end
  | RecordBody_EffectDeferred _ => [RunPhase_AwaitingExternal]
  | RecordBody_EffectCompleted c =>
      settled_phases s (oc_kind (cpl_output_contract c)) [RunPhase_AwaitingTools; RunPhase_BeforeModel]
  | RecordBody_EffectFailed f => settled_phases s (oc_kind (fld_output_contract f)) [RunPhase_BeforeFinalize]
  | RecordBody_EffectCancelled c =>
      match oc_kind (cnl_output_contract c) with
      | EffectOutputKind_InteractionResolution => settled_phases s EffectOutputKind_InteractionResolution []
      | _ => []
      end
  | RecordBody_EntryAppended _ => [RunPhase_AfterModel]
  | RecordBody_ToolBatchOpened _ => [RunPhase_AwaitingTools]
  | RecordBody_ToolBatchClosed _ => [RunPhase_AfterToolBatch]
  | RecordBody_RunCompleted _ => [RunPhase_Completed]
  | RecordBody_RunFailed _ => [RunPhase_Failed]
  | RecordBody_RunCancelled _ => [RunPhase_Cancelled]
  | RecordBody_RunSuspended _ => [RunPhase_Suspended]
  | RecordBody_CancellationRequested _ => [RunPhase_Cancelling]
  | RecordBody_RetryScheduled _ => [RunPhase_Sleeping]
  | RecordBody_TimerFired _ => [RunPhase_PreparingContext]
  | _ => []
  end.

(** The phase stays or becomes one of [l]. *)
Definition phase_in (s s' : KernelState) (l : list RunPhase) : Prop :=
  k_phase s' = k_phase s \/ exists p, k_phase s' = Some p /\ p ∈ l.

Lemma phase_in_same s s' l : k_phase s' = k_phase s -> phase_in s s' l.
Proof. by left. Qed.
Lemma phase_in_some s s' l p : k_phase s' = Some p -> p ∈ l -> phase_in s s' l.
Proof. right. by exists p. Qed.
Lemma phase_in_weaken s s' l l' : phase_in s s' l -> l ⊆ l' -> phase_in s s' l'.
Proof. intros [?|(p & ? & ?)] ?; [by left|right; exists p; set_solver]. Qed.

#[export] Hint Extern 1 (phase_in _ _ _) => (apply phase_in_same; reflexivity) : finstack.
#[export] Hint Extern 2 (phase_in _ _ _) => (eapply phase_in_some; [reflexivity|set_solver]) : finstack.

(** ** Updates of identities and usage *)

(** The helpers below change a settlement map, the completion identities or
    the usage, and nothing else. *)
Section Forms.
Implicit Types s : KernelState.

Lemma with_completion_identities_id s : with_completion_identities (k_completion_identities s) s = s.
Proof. by destruct s. Qed.
Lemma with_limit_usage_id s : with_limit_usage (k_limit_usage s) s = s.
Proof. by destruct s. Qed.

Lemma insert_completion_identity_form s e d cid s' :
  insert_completion_identity s e d cid = Ok s' -> exists m, s' = with_completion_identities m s.
Proof.
  unfold insert_completion_identity. intros H. peel H; subst; [by eexists|].
  exists (k_completion_identities s'). by rewrite with_completion_identities_id.
Qed.

Lemma insert_model_identity_form s e k d cid s' :
  insert_model_identity s e k d cid = Ok s' ->
  exists m n, s' = with_completion_identities m (with_model_settlements n s).
Proof.
  unfold insert_model_identity. intros H. step H. apply insert_completion_identity_form in H as [m ->]. by do 2 eexists.
Qed.

Lemma insert_tool_identity_form s e k d cid s' :
  insert_tool_identity s e k d cid = Ok s' ->
  exists m n, s' = with_completion_identities m (with_tool_settlements n s).
Proof.
  unfold insert_tool_identity. intros H. step H. apply insert_completion_identity_form in H as [m ->]. by do 2 eexists.
Qed.

Lemma with_tool_forms s m n m' n' :
  with_completion_identities m (with_tool_settlements n (with_completion_identities m' (with_tool_settlements n' s)))
  = with_completion_identities m (with_tool_settlements n s).
Proof. done. Qed.

Lemma with_tool_settlements_id s :
  with_completion_identities (k_completion_identities s) (with_tool_settlements (k_tool_settlements s) s) = s.
Proof. by destruct s. Qed.

Lemma insert_tool_identities_form s l s' :
  rfold (fun s e => insert_tool_identity s e.1 ToolSettlementKind_Synthetic e.2 None) s l = Ok s' ->
  exists m n, s' = with_completion_identities m (with_tool_settlements n s).
Proof.
  apply (rfold_ind (fun s1 => exists m n, s1 = with_completion_identities m (with_tool_settlements n s))).
  - exists (k_completion_identities s), (k_tool_settlements s). by rewrite with_tool_settlements_id.
  - intros s1 e s2 _ (m & n & ->) (m' & n' & ->)%insert_tool_identity_form. by do 2 eexists.
Qed.

Lemma update_wall_usage_form s now s' :
  update_wall_usage s now = Ok s' -> exists u, s' = with_limit_usage u s.
Proof.
  unfold update_wall_usage. intros H. peel H; subst; [by eexists|].
  exists (k_limit_usage s'). by rewrite with_limit_usage_id.
Qed.

Lemma apply_completed_usage_form s c s' :
  apply_completed_usage s c = Ok s' -> exists u, s' = with_limit_usage u s.
Proof. unfold apply_completed_usage. intros H. peel H; subst; by eexists. Qed.

Lemma record_tool_batch_usage_form s o s' :
  record_tool_batch_usage s o = Ok s' -> exists u, s' = with_limit_usage u s.
Proof. unfold record_tool_batch_usage. intros H. peel H; subst; by eexists. Qed.
End Forms.

(** ** One record *)

Section RecordPhases.
Context `{Hasher, Serde}.
Implicit Types s : KernelState.

Lemma apply_stage_outcome_phase s o s' :
  apply_stage_outcome s o = Ok s' -> phase_in s s' (record_phases s (RecordBody_StageOutcomeRecorded o)).
Proof.
  unfold apply_stage_outcome. intros HH. step HH. cbv zeta in HH. cbn [record_phases].
  destruct (so_disposition o); try (injection HH as <-; auto with finstack; fail).
  - unfold apply_continued, continued_after_model in HH. destruct (sc_stage (so_cursor o)); try discriminate HH;
      peel HH; subst; auto with finstack; cbn [continued_after_model] in *;
      match goal with E : (if _ then _ else _) = Ok _ |- _ => peel E; subst; auto with finstack end;
      match goal with |- phase_in _ (with_phase (Some (if ?b then _ else _)) _) _ => destruct b end;
      auto with finstack.
  - step HH. injection HH as <-. auto with finstack.
  - injection HH as <-. case_match; auto with finstack.
Qed.

Lemma tool_wait_phase_in b : tool_wait_phase b ∈ [RunPhase_AwaitingTools; RunPhase_AwaitingExternal].
Proof. unfold tool_wait_phase. destruct (existsb _ _); set_solver. Qed.

Lemma apply_interaction_effect_terminal_phase s e c d s' m :
  apply_interaction_effect_terminal s e c d = Ok s' ->
  phase_in s s' (settled_phases s EffectOutputKind_InteractionResolution m).
Proof.
  unfold apply_interaction_effect_terminal, settled_phases, prior_phases. intros HH. do 2 step HH.
  apply ok_or_Ok in E. rewrite E.
  assert (forall s1, k_cancellation s1 = k_cancellation s -> k_phase s1 = k_phase s ->
    (if is_some (k_cancellation s1) then
       Ok match k_phase s1 with
          | Some (RunPhase_Cancelling | RunPhase_Suspended | RunPhase_Cancelled) => s1
          | _ => with_phase (Some RunPhase_Cancelling) s1
          end
     else Ok (with_phase (Some (pin_prior_phase a)) s1)) = (Ok s' : kresult KernelState) ->
    phase_in s s' (if is_some (k_cancellation s)
       then match k_phase s with
            | Some (RunPhase_Cancelling | RunPhase_Suspended | RunPhase_Cancelled) => []
            | _ => [RunPhase_Cancelling]
            end
       else [pin_prior_phase a])) as Hgen.
  { intros s1 Hc Hp. rewrite Hc, Hp. destruct (is_some (k_cancellation s)); intros [= <-].
    - destruct (k_phase s) as [[]|] eqn:Hph; try (left; congruence); (eapply phase_in_some; [reflexivity|set_solver]).
    - eapply phase_in_some; [reflexivity|set_solver]. }
  destruct c; (eapply Hgen; [..|exact HH]; reflexivity).
Qed.

Lemma apply_effect_requested_phase s r next s' :
  apply_effect_requested s r next = Ok s' -> phase_in s s' (record_phases s (RecordBody_EffectRequested r)).
Proof.
  unfold apply_effect_requested, record_phases. intros HH. destruct (req_kind r).
  - unfold apply_model_requested in HH. peel HH; subst; auto with finstack.
  - unfold apply_tool_requested in HH. peel HH; subst; auto with finstack.
  - unfold apply_extension_requested in HH. peel HH; subst; auto with finstack.
  - unfold apply_extension_requested in HH. peel HH; subst; auto with finstack.
  - unfold apply_interaction_effect_requested in HH. do 4 step HH. injection HH as <-. auto with finstack.
  - unfold apply_timer_requested in HH. peel HH; subst; auto with finstack.
Qed.

Lemma apply_extension_settled_phase s o s' : apply_extension_settled s o = Ok s' -> k_phase s' = k_phase s.
Proof.
  unfold apply_extension_settled. intros HH. do 5 step HH. injection HH as <-.
  by apply insert_completion_identity_form in E3 as [m ->].
Qed.

Lemma apply_effect_completed_phase s c next s' :
  apply_effect_completed s c next = Ok s' -> phase_in s s' (record_phases s (RecordBody_EffectCompleted c)).
Proof.
  assert (forall s', apply_compaction_completed s c = Ok s' ->
    phase_in s s' [RunPhase_AwaitingTools; RunPhase_BeforeModel]) as Hcompaction.
  { unfold apply_compaction_completed. intros s1 HH. do 3 step HH. injection HH as <-.
    case_match; auto with finstack. }
  assert (forall s', apply_model_completed s c next = Ok s' -> k_phase s' = k_phase s) as Hmodel.
  { unfold apply_model_completed. intros s1 HH. peel HH. subst.
    match goal with HI : insert_model_identity _ _ _ _ _ = Ok _ |- _ =>
      by apply insert_model_identity_form in HI as (m & n & ->) end. }
  unfold apply_effect_completed, record_phases. intros HH. destruct (oc_kind (cpl_output_contract c));
    cbn [settled_phases]; try (step HH; [by apply Hcompaction|apply phase_in_same; by apply Hmodel]).
  - unfold apply_tool_effect_completed in HH. peel HH. subst.
    eapply phase_in_some; [reflexivity|apply tool_wait_phase_in].
  - apply phase_in_same. by eapply apply_extension_settled_phase.
  - apply phase_in_same. by eapply apply_extension_settled_phase.
  - by eapply (apply_interaction_effect_terminal_phase _ _ _ _ _ []).
Qed.

Lemma apply_effect_failed_phase s f s' :
  apply_effect_failed s f = Ok s' -> phase_in s s' (record_phases s (RecordBody_EffectFailed f)).
Proof.
  unfold apply_effect_failed, record_phases. intros HH. destruct (oc_kind (fld_output_contract f));
    cbn [settled_phases]; try (do 3 step HH; injection HH as <-; auto with finstack; fail).
  - unfold apply_tool_effect_failed in HH. do 3 step HH. step HH. do 4 step HH. injection HH as <-.
    eapply phase_in_some; [reflexivity|apply tool_wait_phase_in].
  - apply phase_in_same. by eapply apply_extension_settled_phase.
  - apply phase_in_same. by eapply apply_extension_settled_phase.
  - by eapply (apply_interaction_effect_terminal_phase _ _ _ _ _ []).
Qed.

Lemma buffer_cancelled_tool_effect_phase s c s' : buffer_cancelled_tool_effect s c = Ok s' -> k_phase s' = k_phase s.
Proof.
  unfold buffer_cancelled_tool_effect. intros HH. do 6 step HH.
  by apply insert_tool_identity_form in HH as (m & n & ->).
Qed.

Lemma apply_effect_cancelled_phase s c s' :
  apply_effect_cancelled s c = Ok s' -> phase_in s s' (record_phases s (RecordBody_EffectCancelled c)).
Proof.
  assert (forall s1, apply_other_cancelled s c = Ok s1 -> k_phase s1 = k_phase s) as Hother.
  { unfold apply_other_cancelled. intros s1 H1. repeat (cbv zeta in H1; step H1); subst; try done; cbn;
      repeat match goal with
      | E : match _ with _ => _ end = Ok _ |- _ => step E
      | E : (if _ then _ else _) = Ok _ |- _ => step E
      | E : rbind _ _ = Ok _ |- _ => step E
      end; try (by eapply buffer_cancelled_tool_effect_phase); by crush_ok. }
  unfold apply_effect_cancelled, record_phases. intros HH. destruct (oc_kind (cnl_output_contract c));
    try (apply phase_in_same; by apply Hother).
  - by eapply (apply_interaction_effect_terminal_phase _ _ _ _ _ []).
  - unfold apply_timer_effect_cancelled in HH. peel HH. subst. auto with finstack.
Qed.

Lemma apply_cancellation_reconciled_phase s r s' :
  apply_cancellation_reconciled s r = Ok s' -> k_phase s' = k_phase s.
Proof.
  unfold apply_cancellation_reconciled. intros HH. do 4 step HH. injection HH as <-.
  apply insert_tool_identities_form in E2 as (m & n & ->). cbn. cbv zeta in E1.
  match type of E1 with context [clear_completed_pending r ?t] =>
    assert (k_phase (clear_completed_pending r t) = k_phase t) as Hc
      by (unfold clear_completed_pending; cbv zeta; repeat case_match; reflexivity) end.
  etrans; [|exact Hc]. step E1; [step E1|]; by injection E1 as <-.
Qed.

Lemma budget_handlers_phase s record next s' :
  match rec_body record with
  | RecordBody_BudgetReservationRequested _ | RecordBody_BudgetReservationSettled _
  | RecordBody_BudgetChargeRecorded _ | RecordBody_BudgetReservationReleased _ | RecordBody_ChildRunPrepared _ => True
  | _ => False
  end ->
  apply_body s record next = Ok s' -> k_phase s' = k_phase s.
Proof.
  unfold apply_body. intros Hk HH. destruct (rec_body record); try done.
  - unfold apply_child_run_prepared in HH. do 4 step HH. injection HH as <-.
    step E2; [step E2|]; by injection E2 as <-.
  - unfold apply_budget_reservation_requested in HH. do 3 step HH. injection HH as <-.
    step E1; [step E1|]; by injection E1 as <-.
  - unfold apply_budget_reservation_settled in HH. do 4 step HH. injection HH as <-.
    step E2; [step E2|]; by injection E2 as <-.
  - unfold apply_budget_charge_recorded in HH. do 4 step HH. injection HH as <-.
    step E2; [step E2|]; by injection E2 as <-.
  - unfold apply_budget_reservation_released in HH. do 4 step HH. injection HH as <-.
    step E2; [step E2|]; by injection E2 as <-.
Qed.

Lemma apply_body_phase s record next s' :
  apply_body s record next = Ok s' -> phase_in s s' (record_phases s (rec_body record)).
Proof.
  intros HH.
  destruct (rec_body record) eqn:Hb;
    try (apply phase_in_same; eapply budget_handlers_phase; [by rewrite Hb|exact HH]);
    unfold apply_body in HH; rewrite Hb in HH;
    try (injection HH as <-; auto with finstack; fail).
  - by eapply apply_effect_requested_phase.
  - unfold apply_effect_deferred in HH. peel HH; subst; auto with finstack.
  - step HH. apply apply_completed_usage_form in E as [u ->]. by apply apply_effect_completed_phase in HH.
  - by apply apply_effect_failed_phase.
  - by apply apply_effect_cancelled_phase.
  - unfold apply_interaction_requested in HH. peel HH; subst; auto with finstack.
  - unfold apply_interaction_resolved, apply_interaction_terminal_outcome in HH. peel HH; subst; auto with finstack.
  - unfold apply_interaction_terminal_outcome in HH. peel HH; subst; auto with finstack.
  - unfold apply_interaction_terminal_outcome in HH. peel HH; subst; auto with finstack.
  - by apply apply_stage_outcome_phase.
  - unfold apply_context_prepared in HH. peel HH; subst; auto with finstack.
  - unfold apply_entry_appended in HH. peel HH; subst; auto with finstack.
  - step HH. unfold apply_tool_batch_opened in HH. do 4 step HH. injection HH as <-. auto with finstack.
  - unfold apply_tool_call_settled in HH. peel HH; subst. apply phase_in_same. cbn.
    match goal with HS : settle_identity _ _ _ = Ok _ |- _ =>
      unfold settle_identity in HS; peel HS; subst; try reflexivity;
      by apply insert_tool_identity_form in HS as (m & n & ->) end.
  - unfold apply_tool_batch_closed in HH. do 4 step HH. injection HH as <-. auto with finstack.
  - unfold apply_cancellation_requested in HH. peel HH; subst; auto with finstack.
  - apply phase_in_same. by eapply apply_cancellation_reconciled_phase.
  - step HH. injection HH as <-. unfold apply_limit_reached in E. peel E; subst; auto with finstack.
  - unfold apply_timer_fired in HH. peel HH; subst; auto with finstack.
  - injection HH as <-. unfold apply_run_failed. cbv zeta. case_match; auto with finstack.
  - unfold apply_output_configured in HH. peel HH; subst; auto with finstack.
  - unfold apply_capabilities_activated in HH. peel HH; subst; auto with finstack.
  - unfold apply_final_result in HH. peel HH; subst; auto with finstack.
  - unfold apply_validation_failure in HH. peel HH; subst; auto with finstack.
Qed.
End RecordPhases.

(** ** Open interactions *)

Definition opens_interaction (body : RecordBody) : bool :=
  match body with
  | RecordBody_InteractionRequested _ => true
  | RecordBody_EffectRequested r => req_kind r =?? EffectKind_Interaction
  | _ => false
  end.

(** The phases a stage cursor names. *)
Definition is_stage_phase (p : RunPhase) : bool :=
  match p with
  | RunPhase_BeforeRun | RunPhase_PreparingContext | RunPhase_BeforeModel | RunPhase_AfterModel
  | RunPhase_BeforeToolBatch | RunPhase_AwaitingTools | RunPhase_AfterToolBatch | RunPhase_BeforeFinalize => true
  | _ => false
  end.

(** The interaction stays, closes, or is opened by a record that may. *)
Definition interaction_step (body : RecordBody) (s s' : KernelState) : Prop :=
  k_pending_interaction s' = k_pending_interaction s \/
  k_pending_interaction s' = None \/
  (opens_interaction body = true /\
   exists p, k_pending_interaction s' = Some p /\ is_stage_phase (pin_prior_phase p) = true).

Section Interactions.
Context `{Hasher, Serde}.
Implicit Types s : KernelState.
Notation kept s s' := (k_pending_interaction s' = k_pending_interaction s).

Lemma apply_interaction_requested_pending s r s' :
  apply_interaction_requested s r = Ok s' ->
  kept s s' \/ exists p, k_pending_interaction s' = Some p /\ is_stage_phase (pin_prior_phase p) = true.
Proof.
  unfold apply_interaction_requested. cbv zeta. cbn. intros HH. peel HH; subst; [by left|].
  right. eexists. split; [reflexivity|]. cbn. crush_ok.
  rewrite E0 in E1. simpl in E1. by destruct a.
Qed.

Lemma apply_effect_requested_pending s r next s' :
  apply_effect_requested s r next = Ok s' -> interaction_step (RecordBody_EffectRequested r) s s'.
Proof.
  unfold apply_effect_requested. intros HH. destruct (req_kind r) eqn:Hk.
  - left. unfold apply_model_requested in HH. peel HH; by subst.
  - left. unfold apply_tool_requested in HH. peel HH; by subst.
  - left. unfold apply_extension_requested in HH. peel HH; by subst.
  - left. unfold apply_extension_requested in HH. peel HH; by subst.
  - unfold apply_interaction_effect_requested in HH. do 4 step HH. injection HH as <-.
    step E2; [|injection E2 as <-; by left].
    apply apply_interaction_requested_pending in E2 as [Hsame|Hnew]; [by left|right; right].
    split; [cbn; by rewrite Hk|exact Hnew].
  - left. unfold apply_timer_requested in HH. peel HH; by subst.
Qed.

Lemma apply_interaction_effect_terminal_pending s e c d s' :
  apply_interaction_effect_terminal s e c d = Ok s' -> k_pending_interaction s' = None.
Proof.
  unfold apply_interaction_effect_terminal. intros HH. do 2 step HH.
  destruct c; step HH; injection HH as <-; try reflexivity; repeat case_match; reflexivity.
Qed.

Lemma apply_extension_settled_pending s o s' : apply_extension_settled s o = Ok s' -> kept s s'.
Proof.
  unfold apply_extension_settled. intros HH. do 5 step HH. injection HH as <-.
  by apply insert_completion_identity_form in E3 as [m ->].
Qed.

Lemma apply_effect_completed_pending s c next s' :
  apply_effect_completed s c next = Ok s' -> interaction_step (RecordBody_EffectCompleted c) s s'.
Proof.
  assert (forall s', apply_compaction_completed s c = Ok s' -> kept s s') as Hcompaction.
  { unfold apply_compaction_completed. intros s1 HH. do 3 step HH. injection HH as <-.
    by apply insert_model_identity_form in E1 as (m & n & ->). }
  assert (forall s', apply_model_completed s c next = Ok s' -> kept s s') as Hmodel.
  { unfold apply_model_completed. intros s1 HH. peel HH. subst.
    match goal with HI : insert_model_identity _ _ _ _ _ = Ok _ |- _ =>
      by apply insert_model_identity_form in HI as (m & n & ->) end. }
  unfold apply_effect_completed. intros HH. destruct (oc_kind (cpl_output_contract c));
    try (left; step HH; [by apply Hcompaction|by apply Hmodel]).
  - left. unfold apply_tool_effect_completed in HH. peel HH. subst.
    match goal with HI : insert_tool_identity _ _ _ _ _ = Ok _ |- _ =>
      by apply insert_tool_identity_form in HI as (m & n & ->) end.
  - left. by eapply apply_extension_settled_pending.
  - left. by eapply apply_extension_settled_pending.
  - right. left. by eapply apply_interaction_effect_terminal_pending.
Qed.

Lemma apply_effect_failed_pending s f s' :
  apply_effect_failed s f = Ok s' -> interaction_step (RecordBody_EffectFailed f) s s'.
Proof.
  unfold apply_effect_failed. intros HH. destruct (oc_kind (fld_output_contract f));
    try (left; do 3 step HH; injection HH as <-; by apply insert_model_identity_form in E1 as (m & n & ->)).
  - left. unfold apply_tool_effect_failed in HH. do 3 step HH. step HH. do 4 step HH. injection HH as <-.
    by apply insert_tool_identity_form in E6 as (m & n & ->).
  - left. by eapply apply_extension_settled_pending.
  - left. by eapply apply_extension_settled_pending.
  - right. left. by eapply apply_interaction_effect_terminal_pending.
Qed.

Lemma apply_effect_cancelled_pending s c s' :
  apply_effect_cancelled s c = Ok s' -> interaction_step (RecordBody_EffectCancelled c) s s'.
Proof.
  assert (forall s1, buffer_cancelled_tool_effect s c = Ok s1 -> kept s s1) as Hbuffer.
  { unfold buffer_cancelled_tool_effect. intros s1 HH. do 6 step HH.
    by apply insert_tool_identity_form in HH as (m & n & ->). }
  assert (forall s1, apply_other_cancelled s c = Ok s1 -> kept s s1) as Hother.
  { unfold apply_other_cancelled. intros s1 H1. repeat (cbv zeta in H1; step H1); subst; try done; cbn;
      repeat match goal with
      | E : match _ with _ => _ end = Ok _ |- _ => step E
      | E : (if _ then _ else _) = Ok _ |- _ => step E
      | E : rbind _ _ = Ok _ |- _ => step E
      end; try (by eapply Hbuffer); by crush_ok. }
  unfold apply_effect_cancelled. intros HH. destruct (oc_kind (cnl_output_contract c));
    try (left; by apply Hother).
  - right. left. by eapply apply_interaction_effect_terminal_pending.
  - left. unfold apply_timer_effect_cancelled in HH. peel HH. by subst.
Qed.

Lemma apply_cancellation_reconciled_pending s r s' : apply_cancellation_reconciled s r = Ok s' -> kept s s'.
Proof.
  unfold apply_cancellation_reconciled. intros HH. do 4 step HH. injection HH as <-.
  apply insert_tool_identities_form in E2 as (m & n & ->). cbn. cbv zeta in E1.
  match type of E1 with context [clear_completed_pending r ?t] =>
    assert (k_pending_interaction (clear_completed_pending r t) = k_pending_interaction t) as Hc
      by (unfold clear_completed_pending; cbv zeta; repeat case_match; reflexivity) end.
  etrans; [|exact Hc]. step E1; [step E1|]; by injection E1 as <-.
Qed.

Lemma budget_handlers_pending s record next s' :
  match rec_body record with
  | RecordBody_BudgetReservationRequested _ | RecordBody_BudgetReservationSettled _
  | RecordBody_BudgetChargeRecorded _ | RecordBody_BudgetReservationReleased _ | RecordBody_ChildRunPrepared _ => True
  | _ => False
  end ->
  apply_body s record next = Ok s' -> kept s s'.
Proof.
  unfold apply_body. intros Hk HH. destruct (rec_body record); try done.
  - unfold apply_child_run_prepared in HH. do 4 step HH. injection HH as <-.
    step E2; [step E2|]; by injection E2 as <-.
  - unfold apply_budget_reservation_requested in HH. do 3 step HH. injection HH as <-.
    step E1; [step E1|]; by injection E1 as <-.
  - unfold apply_budget_reservation_settled in HH. do 4 step HH. injection HH as <-.
    step E2; [step E2|]; by injection E2 as <-.
  - unfold apply_budget_charge_recorded in HH. do 4 step HH. injection HH as <-.
    step E2; [step E2|]; by injection E2 as <-.
  - unfold apply_budget_reservation_released in HH. do 4 step HH. injection HH as <-.
    step E2; [step E2|]; by injection E2 as <-.
Qed.

Lemma apply_body_pending s record next s' :
  apply_body s record next = Ok s' -> interaction_step (rec_body record) s s'.
Proof.
  intros HH.
  destruct (rec_body record) eqn:Hb;
    try (left; eapply budget_handlers_pending; [by rewrite Hb|exact HH]);
    unfold apply_body in HH; rewrite Hb in HH;
    try (injection HH as <-; by left).
  - by eapply apply_effect_requested_pending.
  - left. unfold apply_effect_deferred in HH. peel HH; by subst.
  - step HH. apply apply_completed_usage_form in E as [u ->]. by apply apply_effect_completed_pending in HH.
  - by apply apply_effect_failed_pending.
  - by apply apply_effect_cancelled_pending.
  - apply apply_interaction_requested_pending in HH as [?|?]; [by left|by right; right].
  - left. unfold apply_interaction_resolved, apply_interaction_terminal_outcome in HH. peel HH; by subst.
  - left. unfold apply_interaction_terminal_outcome in HH. peel HH; by subst.
  - left. unfold apply_interaction_terminal_outcome in HH. peel HH; by subst.
  - left. unfold apply_stage_outcome, apply_continued, continued_after_model in HH. peel HH; subst; by repeat case_match.
  - left. unfold apply_context_prepared in HH. peel HH; by subst.
  - left. unfold apply_entry_appended in HH. peel HH; subst; by repeat case_match.
  - step HH. apply record_tool_batch_usage_form in E as [u ->]. left.
    unfold apply_tool_batch_opened in HH. do 4 step HH. by injection HH as <-.
  - left. unfold apply_tool_call_settled in HH. peel HH; subst. cbn.
    match goal with HS : settle_identity _ _ _ = Ok _ |- _ =>
      unfold settle_identity in HS; peel HS; subst; try reflexivity;
      by apply insert_tool_identity_form in HS as (m & n & ->) end.
  - left. unfold apply_tool_batch_closed in HH. do 4 step HH. injection HH as <-. cbn. peel E2; by subst.
  - left. unfold apply_cancellation_requested in HH. peel HH; by subst.
  - left. by eapply apply_cancellation_reconciled_pending.
  - left. step HH. injection HH as <-. unfold apply_limit_reached in E. peel E; by subst.
  - left. unfold apply_timer_fired in HH. peel HH; by subst.
  - left. injection HH as <-. unfold apply_run_failed. cbv zeta. by case_match.
  - left. unfold apply_output_configured in HH. peel HH; by subst.
  - left. unfold apply_capabilities_activated in HH. peel HH; by subst.
  - left. unfold apply_final_result in HH. peel HH; by subst.
  - left. unfold apply_validation_failure in HH. peel HH; by subst.
Qed.

Lemma apply_record_pending s record next s' :
  apply_record s record next = Ok s' -> interaction_step (rec_body record) s s'.
Proof.
  unfold apply_record. intros HH. step HH; [injection HH as <-; by left|].
  step HH; [injection HH as <-; by left|]. step HH.
  assert (exists u, a = with_limit_usage u s) as [u ->].
  { step E1; [injection E1 as <-; exists (k_limit_usage s); by rewrite with_limit_usage_id|].
    by eapply update_wall_usage_form. }
  by apply apply_body_pending in HH.
Qed.
End Interactions.
