(* ===== verification/PhaseBatch.v ===== *)
(** * Batches follow the phase machine

    Lifts the per-record phases of [PhaseMachine] to committed batches: the
    shape a batch passed determines the records it may contain, and those
    records determine the edge of the automaton. *)

From S2P Require Import Prelude Primitives Effects Records State Inputs ToolBatch Digests Policy ApplyStage ApplyTools ApplyEffects ApplyRecord Shapes Events Apply BatchOrder History PhaseMachine.

(** What replay knows about the control part of a state. *)
Record control_ok (s : KernelState) : Prop := {
  co_extension : forall p, k_pending_extension_effect s = Some p ->
    validate_request_shape (pxe_requested p) = Ok tt;
  co_interaction : forall p, k_pending_interaction s = Some p -> is_stage_phase (pin_prior_phase p) = true;
  co_accepted : k_phase s = None -> k_accepted s = None
}.

Section Batches.
Context `{Hasher, Serde}.
Implicit Types s : KernelState.

(** ** Stepping through a batch *)

Lemma record_phases_usage s u body : record_phases (with_limit_usage u s) body = record_phases s body.
Proof. done. Qed.

Lemma apply_record_phase s record next s' :
  apply_record s record next = Ok s' -> phase_in s s' (record_phases s (rec_body record)).
Proof.
  unfold apply_record. intros HH. step HH; [injection HH as <-; auto with finstack|].
  step HH; [injection HH as <-; auto with finstack|]. step HH.
  assert (exists u, a = with_limit_usage u s) as [u ->].
  { step E1; [injection E1 as <-; exists (k_limit_usage s); by rewrite with_limit_usage_id|].
    by eapply update_wall_usage_form. }
  apply apply_body_phase in HH. by rewrite record_phases_usage in HH.
Qed.

Lemma phase_in_trans s1 s2 s3 l : phase_in s1 s2 l -> phase_in s2 s3 l -> phase_in s1 s3 l.
Proof. intros [H1|H1] [H2|H2]; [left; congruence|by right|right|by right]. destruct H1 as (p & ? & ?). exists p. split; [congruence|done]. Qed.

Lemma with_next_elem {A} (l : list A) a o : (a, o) ∈ with_next l -> a ∈ l.
Proof.
  induction l as [|x l IH]; simpl; [set_solver|]. rewrite !elem_of_cons. intros [[= -> _]|?]; [by left|auto].
Qed.

(** If every record of the batch leads into [l] from every state that extends
    [s] and has no other open interaction, so does the batch. *)
Lemma semantic_phase s records acc l :
  (forall record s1, record ∈ records -> grows s s1 ->
     ((forall r, r ∈ records -> opens_interaction (rec_body r) = false) -> prior_phases s1 ⊆ prior_phases s) ->
     record_phases s1 (rec_body record) ⊆ l) ->
  rfold semantic_step (s, []) (with_next records) = Ok acc -> phase_in s acc.1 l.
Proof.
  intros Hall HH.
  set (P s1 := grows s s1 /\ phase_in s s1 l /\
    ((forall r, r ∈ records -> opens_interaction (rec_body r) = false) -> prior_phases s1 ⊆ prior_phases s)).
  enough (P acc.1) as (_ & ? & _) by done. revert HH.
  apply (rfold_ind (fun a => P a.1)); [by split_and!; [|left|]|].
  intros [s1 cs] [record next] acc1 Hin (Hg & Hp & Hi) Hstep. unfold semantic_step in Hstep. step Hstep.
  injection Hstep as <-. cbn [fst] in *. apply with_next_elem in Hin. split_and!.
  - apply grows_with_last_applied_sequence. etrans; [exact Hg|]. by eapply apply_record_grows.
  - eapply phase_in_trans; [exact Hp|].
    exact (phase_in_weaken s1 a _ l (apply_record_phase _ _ _ _ E) (Hall record s1 Hin Hg Hi)).
  - intros Hno. specialize (Hi Hno). apply apply_record_pending in E. unfold prior_phases in *. cbn.
    destruct E as [-> | [-> | [Ho _]]]; [done|set_solver|]. rewrite (Hno record Hin) in Ho. done.
Qed.

(** Acceptance settles into [BeforeRun] at the end of a batch. *)
Definition settle_phase (p : RunPhase) : RunPhase :=
  match p with RunPhase_Accepted => RunPhase_BeforeRun | _ => p end.

Lemma semantic_records_phase s records r l l' :
  (forall record s1, record ∈ records -> grows s s1 ->
     ((forall r, r ∈ records -> opens_interaction (rec_body r) = false) -> prior_phases s1 ⊆ prior_phases s) ->
     record_phases s1 (rec_body record) ⊆ l) ->
  (forall p, p ∈ l -> settle_phase p ∈ l') ->
  (k_phase s = Some RunPhase_Accepted -> RunPhase_BeforeRun ∈ l') ->
  apply_semantic_records s records = Ok r -> phase_in s r.1 l'.
Proof.
  intros Hall Hl Hacc HH. unfold apply_semantic_records in HH. step HH. injection HH as <-. cbn [fst].
  pose proof (semantic_phase _ _ _ _ Hall E) as Hp. unfold enter_before_run.
  destruct (k_phase a.1 =?? Some RunPhase_Accepted) eqn:Ha.
  - apply eqb_eq in Ha. right. exists RunPhase_BeforeRun. split; [done|].
    destruct Hp as [Hp|(p & Hp & Hin)]; [apply Hacc; congruence|].
    assert (p = RunPhase_Accepted) as -> by congruence. by apply (Hl RunPhase_Accepted).
  - destruct Hp as [Hp|(p & Hp & Hin)]; [by left|right]. exists p. split; [done|].
    apply Hl in Hin. rewrite Hp in Ha. by destruct p.
Qed.

(** ** Shapes determine the records *)

(** Every body of the batch satisfies [P]. *)
Definition all_bodies (P : RecordBody -> Prop) (records : list RecordEnvelope) : Prop :=
  Forall (fun record => P (rec_body record)) records.

Lemma zip_all_Forall {A B} (p : A -> B -> bool) l l' :
  zip_all p l l' = true -> (length l <= length l')%nat -> forall a, a ∈ l -> exists b, b ∈ l' /\ p a b = true.
Proof.
  unfold zip_all. revert l'. induction l as [|a l IH]; intros [|b l'] Hz Hlen c Hc; simpl in *;
    try (by apply elem_of_nil in Hc); try lia.
  apply andb_true_iff in Hz as [Hp Hz]. apply elem_of_cons in Hc as [->|Hc].
  - exists b. split; [set_solver|done].
  - destruct (IH l' Hz ltac:(lia) c Hc) as (b' & ? & ?). exists b'. split; [set_solver|done].
Qed.

(** The three kinds of record that follow the first ones of a tool batch. *)
Definition tool_followup (body : RecordBody) : Prop :=
  match body with
  | RecordBody_EffectRequested r => req_kind r = EffectKind_Tool
  | RecordBody_ToolCallSettled _ | RecordBody_ToolBatchClosed _ => True
  | _ => False
  end.

Lemma followup_split {A B} (p : RecordBody -> A -> bool) (q : RecordBody -> B -> bool) rest l1 l2 close id :
  zip_all p (take (length l1) rest) l1 = true ->
  zip_all q (take (length l2) (drop (length l1) rest)) l2 = true ->
  length rest = (length l1 + length l2 + close)%nat -> (close <= 1)%nat ->
  (close =? 0)%nat || is_close_of id (last rest) = true ->
  (forall body a, p body a = true -> tool_followup body) ->
  (forall body a, q body a = true -> tool_followup body) ->
  Forall tool_followup rest.
Proof.
  intros H1 H2 Hlen Hclose Hlast Hp Hq.
  rewrite <- (take_drop (length l1) rest), <- (take_drop (length l2) (drop (length l1) rest)).
  repeat apply Forall_app_2.
  - apply Forall_forall. intros body Hb.
    destruct (zip_all_Forall _ _ _ H1) with body as (a & _ & Ha); [rewrite length_take; lia|done|by eapply Hp].
  - apply Forall_forall. intros body Hb.
    destruct (zip_all_Forall _ _ _ H2) with body as (a & _ & Ha); [rewrite length_take; lia|done|by eapply Hq].
  - rewrite drop_drop. destruct close as [|close]; [rewrite drop_ge by lia; constructor|].
    assert (close = 0%nat) as -> by lia. simpl in Hlast. rewrite last_lookup, Hlen in Hlast.
    replace (Nat.pred (length l1 + length l2 + 1)) with (length l1 + length l2)%nat in Hlast by lia.
    destruct (rest !! (length l1 + length l2)%nat) as [body|] eqn:Hb; [|done].
    rewrite (drop_S _ _ _ Hb), drop_ge by lia. constructor; [|constructor].
    simpl in Hlast. by destruct body.
Qed.

Lemma tool_request_followup body e : is_tool_request e body = true -> tool_followup body.
Proof. destruct body; simpl; try done. intros [Hk _]%andb_true_iff. by apply eqb_eq in Hk. Qed.

Lemma settlement_followup body e : is_settlement_of e body = true -> tool_followup body.
Proof. by destruct body. Qed.

Lemma predicted_close_le b i fatal : ((predicted_settlement_counts b i fatal).2 <= 1)%nat.
Proof. unfold predicted_settlement_counts. simpl. case_match; lia. Qed.

Lemma settlement_followup_shape_bodies b i fatal rest :
  settlement_followup_shape b i fatal rest = true -> Forall tool_followup rest.
Proof.
  unfold settlement_followup_shape. pose proof (predicted_close_le b i fatal) as Hle.
  destruct (predicted_settlement_counts b i fatal) as [[es er] ec]. simpl in Hle. intros HH.
  repeat apply andb_true_iff in HH as [HH ?].
  repeat match goal with E : (length _ =? _)%nat = true |- _ => apply Nat.eqb_eq in E end.
  eapply followup_split; [exact HH|eassumption|..]; try eassumption; [congruence|..].
  - apply settlement_followup.
  - apply tool_request_followup.
Qed.

(** ** Phases by shape *)

(** [body] leads into [l] from every state. *)
Definition leads (l : list RunPhase) (body : RecordBody) : Prop := forall s1, record_phases s1 body ⊆ l.

Lemma leads_mono l l' body : leads l body -> l ⊆ l' -> leads l' body.
Proof. intros Hl Hsub s1. etrans; [apply Hl|done]. Qed.

(** Split the batch by the patterns of a shape, then face one body at a time. *)
Ltac shape H :=
  repeat match type of H with
  | context [match ?x with _ => _ end] => destruct x eqn:?; try discriminate H
  end;
  repeat (apply andb_true_iff in H as [H ?]); crush_ok; subst;
  repeat match goal with |- Forall _ (_ :: _) => constructor | |- Forall _ [] => constructor end; intros s1; unfold record_phases; cbn;
  repeat match goal with Hk : ?x = _ |- context [match ?x with _ => _ end] => rewrite Hk; cbn end;
  try set_solver.

Lemma one_settled_leads records c st :
  one_settled_stage records c st = true ->
  Forall (leads match st with
                | Stage_AfterModel => [RunPhase_BeforeToolBatch; RunPhase_BeforeFinalize]
                | _ => [RunPhase_PreparingContext; RunPhase_BeforeFinalize]
                end) (bodies records).
Proof.
  unfold one_settled_stage, one_stage. intros HH. shape HH; try discriminate; rewrite ?HH; cbn; destruct st; set_solver.
Qed.

Lemma one_failed_leads records c st :
  one_failed_stage records c st = true -> Forall (leads [RunPhase_BeforeFinalize]) (bodies records).
Proof. unfold one_failed_stage, one_stage. intros HH. shape HH; discriminate. Qed.

Lemma prepare_context_leads records c :
  prepare_context_shape records c = true -> Forall (leads [RunPhase_BeforeModel]) (bodies records).
Proof. unfold prepare_context_shape. intros HH. shape HH. Qed.

Lemma request_model_leads s records :
  request_model_shape s records = true -> Forall (leads [RunPhase_AwaitingModel]) (bodies records).
Proof. unfold request_model_shape. intros HH. shape HH. Qed.

Lemma child_model_kind r : is_runtime_owned_child_model r = true -> req_kind r = EffectKind_Model.
Proof.
  unfold is_runtime_owned_child_model, is_compaction_summary, is_nested_model.
  rewrite <- andb_orb_distrib_r. intros [Hk _]%andb_true_iff. by apply eqb_eq.
Qed.

Lemma compaction_leads records :
  compaction_model_request_shape records = true -> Forall (leads [RunPhase_AwaitingModel]) (bodies records).
Proof.
  unfold compaction_model_request_shape. intros HH. shape HH.
  match goal with Hr : is_runtime_owned_child_model _ = true |- _ => apply child_model_kind in Hr; rewrite Hr end.
  set_solver.
Qed.

Lemma retry_leads s records :
  retry_shape s records = true -> Forall (leads [RunPhase_Sleeping]) (bodies records).
Proof. unfold retry_shape. intros HH. shape HH. Qed.

Lemma timer_fired_leads s records :
  timer_fired_shape s records = true -> Forall (leads [RunPhase_PreparingContext]) (bodies records).
Proof. unfold timer_fired_shape. intros HH. shape HH. Qed.

Lemma finalize_leads s records :
  finalize_shape s records = true ->
  Forall (leads [RunPhase_PreparingContext; RunPhase_Completed; RunPhase_Failed; RunPhase_BeforeFinalize]) (bodies records).
Proof. unfold finalize_shape. cbv zeta. intros HH. shape HH. Qed.

Lemma interaction_request_leads records :
  interaction_request_shape records = true -> Forall (leads [RunPhase_AwaitingInteraction]) (bodies records).
Proof. unfold interaction_request_shape. cbv zeta. intros HH. shape HH. Qed.

Lemma extension_request_leads s records :
  extension_request_shape s records = true -> Forall (leads []) (bodies records).
Proof. unfold extension_request_shape. intros HH. shape HH. Qed.

Lemma composition_leads s records :
  composition_record_shape s records = true -> Forall (leads []) (bodies records).
Proof. unfold composition_record_shape. cbv zeta. intros HH. shape HH. Qed.

Lemma control_leads records :
  control_shape records = true -> Forall (leads [RunPhase_Failed; RunPhase_Suspended]) (bodies records).
Proof. unfold control_shape. intros HH. shape HH. Qed.

Lemma cancellation_leads s records :
  cancellation_shape s records = true -> Forall (leads [RunPhase_Cancelling]) (bodies records).
Proof. unfold cancellation_shape. intros [_ HH]%andb_true_iff. shape HH. Qed.

Lemma external_rejection_leads records :
  external_rejection_shape records = true -> Forall (leads []) (bodies records).
Proof. unfold external_rejection_shape. intros HH. shape HH. Qed.

Lemma structural_leads records :
  structural_record_shape records = true -> Forall (leads []) (bodies records).
Proof.
  unfold structural_record_shape. intros [_ HH]%andb_true_iff. rewrite forallb_forall in HH.
  apply Forall_fmap, Forall_forall. intros record Hin%list_elem_of_In%HH s1.
  destruct (rec_body record); try discriminate Hin; set_solver.
Qed.

Lemma followup_leads body :
  tool_followup body -> leads [RunPhase_AwaitingTools; RunPhase_AfterToolBatch] body.
Proof. intros Hf s1. destruct body; try done; simpl in *; rewrite ?Hf; set_solver. Qed.

Lemma tool_batch_open_leads s records :
  tool_batch_open_shape s records = true ->
  Forall (leads [RunPhase_AwaitingTools; RunPhase_AfterToolBatch]) (bodies records).
Proof.
  unfold tool_batch_open_shape. destruct (rec_body <$> records) as [|b1 l]; [done|].
  destruct b1 as [| | | | | | | | | |[cursor disposition digest]| | | | | | | | | | | | | | | | | | | | | | | | | | | | |];
    try done. destruct disposition; try done. destruct l as [|b2 rest]; [done|]. destruct b2; try done.
  destruct (opened_requests _) as [first requested] eqn:Hreq. cbv zeta. intros HH.
  repeat (apply andb_true_iff in HH as [HH ?]).
  constructor; [intros s1; set_solver|]. constructor; [intros s1; set_solver|].
  eapply Forall_impl; [|apply followup_leads].
  eapply followup_split; try eassumption.
  - by apply Nat.eqb_eq.
  - case_match; lia.
  - intros body e. apply tool_request_followup.
  - intros body e. by destruct body.
Qed.

Lemma settlement_target_leads b body t :
  settlement_target b body = Some t -> leads [RunPhase_AwaitingTools; RunPhase_AwaitingExternal] body.
Proof.
  unfold settlement_target. intros HH s1. destruct body; try done; unfold record_phases;
    repeat match type of HH with
    | context [if ?x then _ else _] => destruct x eqn:?; try discriminate HH
    end; crush_ok;
    try match goal with Hk : oc_kind _ = _ |- _ => rewrite Hk end; simpl; set_solver.
Qed.

Lemma tool_settlement_leads s records :
  tool_settlement_shape s records = true ->
  Forall (leads [RunPhase_AwaitingTools; RunPhase_AwaitingExternal; RunPhase_AfterToolBatch]) (bodies records).
Proof.
  unfold tool_settlement_shape. destruct (k_active_tool_batch s) as [b|]; [|done].
  destruct (rec_body <$> records) as [|first rest]; [done|].
  destruct (settlement_target b first) as [[[e deferred] fail_run]|] eqn:Ht; [|done].
  destruct (_ ≫= _) as [[i c]|]; [|done]. intros HH. constructor.
  { eapply leads_mono; [by eapply settlement_target_leads|set_solver]. }
  assert (Forall tool_followup rest) as Hrest.
  { repeat match type of HH with
    | context [if ?x then _ else _] => destruct x eqn:?; try discriminate HH
    end.
    - apply andb_true_iff in HH as [_ HH%Nat.eqb_eq]. apply nil_length_inv in HH as ->. constructor.
    - by eapply settlement_followup_shape_bodies. }
  eapply Forall_impl; [exact Hrest|]. intros body Hf. eapply leads_mono; [by apply followup_leads|set_solver].
Qed.

(** ** From shapes to edges *)

Lemma leads_phase s records r l l' :
  Forall (leads l) (bodies records) -> (forall p, p ∈ l -> settle_phase p ∈ l') ->
  (k_phase s = Some RunPhase_Accepted -> RunPhase_BeforeRun ∈ l') ->
  apply_semantic_records s records = Ok r -> phase_in s r.1 l'.
Proof.
  intros Hall. apply semantic_records_phase. intros record s1 Hin _ _.
  rewrite Forall_fmap, Forall_forall in Hall. by apply (Hall record).
Qed.

(** An unchanged phase may still settle from acceptance. *)
Lemma leads_nil_phase s records r l' :
  Forall (leads []) (bodies records) -> (k_phase s = Some RunPhase_Accepted -> RunPhase_BeforeRun ∈ l') ->
  apply_semantic_records s records = Ok r -> phase_in s r.1 l'.
Proof. intros Hall. apply (leads_phase s records r []); [done|]. intros p Hp. by apply elem_of_nil in Hp. Qed.

Lemma accepted_successors s l :
  k_phase s = Some RunPhase_Accepted -> RunPhase_BeforeRun ∈ successors (k_phase s) ++ l.
Proof. intros ->. set_solver. Qed.

Lemma foreign_phase s records r l' :
  foreign_run_shape s records = true -> (k_phase s = Some RunPhase_Accepted -> RunPhase_BeforeRun ∈ l') ->
  apply_semantic_records s records = Ok r -> phase_in s r.1 l'.
Proof.
  unfold foreign_run_shape. intros [_ Hall]%andb_true_iff Hacc HH. rewrite forallb_forall in Hall.
  unfold apply_semantic_records in HH. step HH. injection HH as <-. cbn [fst].
  assert (exists n, a.1 = with_last_applied_sequence n s) as [n Hn].
  { revert E. apply (rfold_ind (fun a => exists n, a.1 = with_last_applied_sequence n s)).
    - exists (k_last_applied_sequence s). by destruct s.
    - intros [s1 cs] [record next] acc1 Hin [n Hn] Hstep. cbn in Hn. subst s1. unfold semantic_step in Hstep.
      step Hstep. injection Hstep as <-. cbn. apply with_next_elem, list_elem_of_In, Hall in Hin.
      unfold apply_record in E. destruct (is_structural (rec_body record)); [injection E as <-; by eexists|].
      change (is_foreign_run (with_last_applied_sequence n s) record) with (is_foreign_run s record) in E.
      simpl in Hin. rewrite Hin in E. injection E as <-. by eexists. }
  rewrite Hn. unfold enter_before_run. case_match eqn:Ha; [|by left].
  apply eqb_eq in Ha. cbn in Ha. right. exists RunPhase_BeforeRun. split; [done|by apply Hacc].
Qed.

(** ** Shapes that depend on the state *)

Lemma validate_settlement_contract r e c : validate_settlement r e c = true -> c = req_output_contract r.
Proof. unfold validate_settlement. intros HH%negb_true_iff. by crush_ok. Qed.

Lemma extension_contract r :
  validate_request_shape r = Ok tt ->
  oc_kind (req_output_contract r) = EffectOutputKind_ContextContribution \/
  oc_kind (req_output_contract r) = EffectOutputKind_MiddlewareOutcome.
Proof.
  unfold validate_request_shape. cbv zeta. intros HH. step HH. apply reject_if_Ok, negb_false_iff in HH.
  destruct (req_input r); try done; repeat (apply andb_true_iff in HH as [HH ?]); crush_ok; auto.
Qed.

Lemma extension_settlement_leads s records :
  control_ok s -> extension_settlement_shape s records = true -> Forall (leads []) (bodies records).
Proof.
  intros Hok HH. unfold extension_settlement_shape in HH.
  destruct (k_pending_extension_effect s) as [p|] eqn:Hp; [|done].
  pose proof (extension_contract _ (co_extension s Hok p Hp)) as Hk.
  destruct (rec_body <$> records) as [|[] [|? ?]]; try done; apply validate_settlement_contract in HH;
    (constructor; [|constructor]); intros s1; unfold record_phases; rewrite HH; by destruct Hk as [-> | ->].
Qed.

Lemma settled_phases_sub s s1 kind model l :
  model ⊆ l -> [RunPhase_AwaitingTools; RunPhase_AwaitingExternal; RunPhase_Cancelling] ⊆ l ->
  prior_phases s1 ⊆ prior_phases s -> settled_phases s1 kind model ⊆ l ++ prior_phases s.
Proof.
  intros Hm Ht Hp. unfold settled_phases. destruct kind; try set_solver.
  destruct (is_some _); [|set_solver]. repeat case_match; set_solver.
Qed.

Lemma model_settlement_phases s records allow l record s1 :
  model_settlement_shape s records allow = true -> record ∈ records -> prior_phases s1 ⊆ prior_phases s ->
  [RunPhase_AwaitingExternal; RunPhase_BeforeFinalize; RunPhase_AwaitingTools; RunPhase_BeforeModel;
   RunPhase_AfterModel; RunPhase_Cancelling] ⊆ l ->
  record_phases s1 (rec_body record) ⊆ l ++ prior_phases s.
Proof.
  intros HH Hin Hprior Hl. unfold model_settlement_shape in HH.
  destruct (k_pending_model_effect s); [|done].
  destruct records as [|r1 [|r2 [|r3 rest]]]; try done.
  - apply list_elem_of_singleton in Hin as ->. destruct (rec_body r1); try done; unfold record_phases;
      [set_solver|apply settled_phases_sub; set_solver..].
  - destruct (rec_body r1) eqn:H1; try done. destruct (rec_body r2) eqn:H2; try done.
    apply elem_of_cons in Hin as [->|Hin].
    + rewrite H1. unfold record_phases. apply settled_phases_sub; set_solver.
    + apply list_elem_of_singleton in Hin as ->. rewrite H2. unfold record_phases. set_solver.
Qed.

Lemma model_settlement_no_open s records allow r :
  model_settlement_shape s records allow = true -> r ∈ records -> opens_interaction (rec_body r) = false.
Proof.
  intros HH Hin. unfold model_settlement_shape in HH. destruct (k_pending_model_effect s); [|done].
  destruct records as [|r1 [|r2 [|r3 rest]]]; try done.
  - apply list_elem_of_singleton in Hin as ->. by destruct (rec_body r1).
  - destruct (rec_body r1) eqn:H1; try done. destruct (rec_body r2) eqn:H2; try done.
    apply elem_of_cons in Hin as [->|Hin]; [by rewrite H1|].
    apply list_elem_of_singleton in Hin as ->. by rewrite H2.
Qed.

Lemma interaction_terminal_phases s records record s1 :
  interaction_terminal_shape records = true -> record ∈ records -> prior_phases s1 ⊆ prior_phases s ->
  opens_interaction (rec_body record) = false /\
  record_phases s1 (rec_body record) ⊆ [RunPhase_Cancelling] ++ prior_phases s.
Proof.
  intros HH Hin Hprior. unfold interaction_terminal_shape in HH.
  destruct records as [|r1 [|r2 [|r3 rest]]]; simpl in HH; try done; try (by destruct (rec_body r1)).
  2: by destruct (rec_body r1), (rec_body r2).
  destruct (rec_body r1) eqn:H1; try done; destruct (rec_body r2) eqn:H2; try done; apply eqb_eq in HH;
    (apply elem_of_cons in Hin as [->|Hin];
      [rewrite H1; split; [done|set_solver]
      |apply list_elem_of_singleton in Hin as ->; rewrite H2; split; [done|]; unfold record_phases; rewrite HH;
       unfold settled_phases; destruct (is_some _); repeat case_match; set_solver]).
Qed.

(** The bodies a reconciliation batch may carry. *)
Definition reconciliation_body (body : RecordBody) : Prop :=
  match body with
  | RecordBody_EffectCancelled _ | RecordBody_InteractionCancelled _ | RecordBody_CancellationReconciled _
  | RecordBody_ToolCallSettled _ | RecordBody_ToolBatchClosed _ | RecordBody_RunSuspended _
  | RecordBody_RunCancelled _ => True
  | _ => False
  end.

Lemma reconciliation_tail_bodies closed l : reconciliation_tail closed l = true -> Forall reconciliation_body l.
Proof.
  revert closed. induction l as [|b l IH]; intros closed HH; [constructor|]. simpl in HH.
  destruct b; try discriminate HH; (constructor; [done|]);
    try (apply andb_true_iff in HH as [_ HH]; by eapply IH); by destruct l.
Qed.

Lemma split_reconciled_app l before r after :
  split_reconciled l = Some (before, r, after) -> l = before ++ RecordBody_CancellationReconciled r :: after.
Proof.
  revert before. induction l as [|b l IH]; intros before HH; [done|]. simpl in HH.
  destruct b; try (destruct (split_reconciled l) as [[[before' r'] after']|]; [|done];
    injection HH as <- <- <-; simpl; f_equal; by apply IH).
  by injection HH as <- <- <-.
Qed.

Lemma reconciliation_bodies s records :
  reconciliation_shape s records = true -> is_some (k_cancellation s) = true /\ Forall reconciliation_body (bodies records).
Proof.
  unfold reconciliation_shape. destruct (k_cancellation s) as [c|]; [|done].
  destruct (split_reconciled _) as [[[before r] after]|] eqn:Hs; [|done]. intros HH.
  apply andb_true_iff in HH as [HH Htail]. apply andb_true_iff in HH as [Hbefore _]. split; [done|].
  rewrite (split_reconciled_app _ _ _ _ Hs). rewrite forallb_forall in Hbefore.
  apply Forall_app. split; [|constructor; [done|by eapply reconciliation_tail_bodies]].
  apply Forall_forall. intros b Hb%list_elem_of_In%Hbefore. by destruct b.
Qed.

Lemma reconciliation_phases s s1 body :
  is_some (k_cancellation s) = true -> grows s s1 -> reconciliation_body body ->
  record_phases s1 body ⊆ [RunPhase_Cancelling; RunPhase_AfterToolBatch; RunPhase_Suspended; RunPhase_Cancelled].
Proof.
  intros Hc Hg Hb. pose proof (gr_cancellation s s1 Hg Hc) as Hc1. unfold record_phases.
  destruct body; try done; try set_solver. repeat case_match; try set_solver.
  unfold settled_phases. rewrite Hc1. repeat case_match; set_solver.
Qed.

(** ** The edge of a batch *)

Definition self_phases (ph : option RunPhase) : list RunPhase :=
  match ph with Some p => [p] | None => [] end.

(** Staying put is no edge. *)
Lemma phase_in_self s s' l : phase_in s s' (self_phases (k_phase s) ++ l) -> phase_in s s' l.
Proof.
  intros [Hp|(p & Hp & [Hin|Hin]%elem_of_app)]; [by left| |right; by exists p].
  left. destruct (k_phase s) as [q|]; simpl in Hin; [|by apply elem_of_nil in Hin].
  apply list_elem_of_singleton in Hin as ->. done.
Qed.

Definition settles_within (l : list RunPhase) (ph : option RunPhase) : bool :=
  forallb (fun p => bool_decide (settle_phase p ∈ self_phases ph ++ successors ph)) l.

Lemma settles_within_elem l ph l' p :
  settles_within l ph = true -> p ∈ l -> settle_phase p ∈ self_phases ph ++ successors ph ++ l'.
Proof.
  unfold settles_within. rewrite forallb_forall. intros Hall Hin%list_elem_of_In%Hall.
  apply bool_decide_eq_true in Hin. set_solver.
Qed.

Notation edge s r := (phase_in s r.1 (successors (k_phase s) ++ prior_phases s)).

Lemma leads_edge s records r l :
  Forall (leads l) (bodies records) -> settles_within l (k_phase s) = true ->
  apply_semantic_records s records = Ok r -> edge s r.
Proof.
  intros Hall Hl HH. apply phase_in_self. eapply leads_phase; [exact Hall| |intros Ha|exact HH].
  - intros p. by apply settles_within_elem.
  - pose proof (accepted_successors s (prior_phases s) Ha). set_solver.
Qed.

(** The phase an interaction returns to is a stage phase, so it is settled. *)
Lemma prior_settled s p : control_ok s -> p ∈ prior_phases s -> settle_phase p = p.
Proof.
  intros Hok Hp. unfold prior_phases in Hp. destruct (k_pending_interaction s) as [i|] eqn:Hi;
    [|by apply elem_of_nil in Hp].
  apply list_elem_of_singleton in Hp as ->. pose proof (co_interaction s Hok i Hi) as Hst.
  by destruct (pin_prior_phase i).
Qed.

(** The same for batches whose phases depend on the state. *)
Lemma state_edge s records r l :
  control_ok s -> settles_within l (k_phase s) = true ->
  (forall record s1, record ∈ records -> grows s s1 -> prior_phases s1 ⊆ prior_phases s ->
     record_phases s1 (rec_body record) ⊆ l ++ prior_phases s) ->
  (forall r, r ∈ records -> opens_interaction (rec_body r) = false) ->
  apply_semantic_records s records = Ok r -> edge s r.
Proof.
  intros Hok Hl Hall Hno HH. apply phase_in_self.
  eapply semantic_records_phase with (l := l ++ prior_phases s); [| |intros Ha|exact HH].
  - intros record s1 Hin Hg Hp. apply Hall; auto.
  - intros p [Hp|Hp]%elem_of_app; [by eapply settles_within_elem|].
    rewrite (prior_settled s p Hok Hp). set_solver.
  - pose proof (accepted_successors s (prior_phases s) Ha). set_solver.
Qed.

Lemma model_settlement_edge s records allow r :
  control_ok s -> k_phase s = Some RunPhase_AwaitingModel \/ k_phase s = Some RunPhase_AwaitingExternal ->
  model_settlement_shape s records allow = true ->
  apply_semantic_records s records = Ok r -> edge s r.
Proof.
  intros Hok Hph Hshape HH.
  apply (state_edge s records r [RunPhase_AwaitingExternal; RunPhase_BeforeFinalize; RunPhase_AwaitingTools;
    RunPhase_BeforeModel; RunPhase_AfterModel; RunPhase_Cancelling]); [done| | | |done].
  - by destruct Hph as [-> | ->].
  - intros. eapply model_settlement_phases; eauto.
  - intros. by eapply model_settlement_no_open.
Qed.

Lemma interaction_terminal_edge s records r :
  control_ok s -> k_phase s = Some RunPhase_AwaitingInteraction -> interaction_terminal_shape records = true ->
  apply_semantic_records s records = Ok r -> edge s r.
Proof.
  intros Hok Hph Hshape HH. apply (state_edge s records r [RunPhase_Cancelling]); [done|by rewrite Hph| | |done].
  - intros record s1 Hin _ Hp. by apply (interaction_terminal_phases s records).
  - intros record Hin. by apply (interaction_terminal_phases s records record s Hshape Hin).
Qed.

Lemma reconciliation_edge s records r :
  k_phase s = Some RunPhase_Cancelling \/ k_phase s = Some RunPhase_Suspended ->
  reconciliation_shape s records = true ->
  apply_semantic_records s records = Ok r -> edge s r.
Proof.
  intros Hph [Hc Hall]%reconciliation_bodies HH. apply phase_in_self.
  rewrite Forall_fmap, Forall_forall in Hall.
  eapply semantic_records_phase with
    (l := [RunPhase_Cancelling; RunPhase_AfterToolBatch; RunPhase_Suspended; RunPhase_Cancelled]);
    [| |by destruct Hph; congruence|exact HH].
  - intros record s1 Hin Hg _. apply (reconciliation_phases s); [done|done|by apply Hall].
  - intros p. apply settles_within_elem. by destruct Hph as [-> | ->].
Qed.

(** Split a disjunction of shapes. *)
Ltac split_shapes H :=
  repeat match type of H with
  | (_ || _) = true => apply orb_true_iff in H as [H|H]
  end.

(** Conclude from the phases the shape in [H] leads to. *)
Ltac by_shape H :=
  first
    [ eapply leads_edge; [by eapply interaction_request_leads| |eassumption]
    | eapply leads_edge; [by eapply extension_request_leads| |eassumption]
    | eapply leads_edge; [by eapply one_settled_leads| |eassumption]
    | eapply leads_edge; [by eapply one_failed_leads| |eassumption]
    | eapply leads_edge; [by eapply prepare_context_leads| |eassumption]
    | eapply leads_edge; [by eapply request_model_leads| |eassumption]
    | eapply leads_edge; [by eapply compaction_leads| |eassumption]
    | eapply leads_edge; [by eapply retry_leads| |eassumption]
    | eapply leads_edge; [by eapply timer_fired_leads| |eassumption]
    | eapply leads_edge; [by eapply finalize_leads| |eassumption]
    | eapply leads_edge; [by eapply tool_batch_open_leads| |eassumption]
    | eapply leads_edge; [by eapply tool_settlement_leads| |eassumption]
    | eapply leads_edge with (l := []); [| |eassumption];
      [lazymatch goal with |- Forall _ ?l => destruct l as [|[] [|? ?]] end; try discriminate H;
       (constructor; [intros s1; set_solver|constructor])|] ].

Lemma first_accept_leads records :
  match records with
  | [record] => match rec_body record with
                | RecordBody_RunAccepted accepted => rec_run_id record =?? Some (ra_run_id accepted)
                | _ => false
                end
  | _ => false
  end = true -> Forall (leads [RunPhase_Accepted]) (bodies records).
Proof.
  destruct records as [|record [|? ?]]; try done. unfold bodies. simpl.
  destruct (rec_body record); try done. intros _. constructor; [intros s1; set_solver|constructor].
Qed.

Lemma phase_shape_edge s records r :
  control_ok s -> phase_shape s records = Some true ->
  apply_semantic_records s records = Ok r -> edge s r.
Proof.
  intros Hok Hs HH. unfold phase_shape in Hs. cbv zeta in Hs.
  destruct (k_phase s) as [p|] eqn:Hph; rewrite <- ?Hph.
  2: injection Hs as Hs; eapply leads_edge; [by apply first_accept_leads|by rewrite Hph|done].
  destruct p; try discriminate Hs; injection Hs as Hs; try discriminate Hs.
  all: lazymatch type of Hs with
       | interaction_terminal_shape _ = _ => by eapply interaction_terminal_edge
       | reconciliation_shape _ _ = _ => eapply reconciliation_edge; eauto
       | model_settlement_shape _ _ _ = _ => eapply model_settlement_edge; eauto
       | (if _ then _ else _) = _ =>
           destruct (is_some (k_pending_model_effect s));
             [eapply model_settlement_edge; eauto|by_shape Hs; by rewrite Hph]
       | _ => split_shapes Hs; (by_shape Hs; by rewrite Hph)
       end.
Qed.

Lemma release_leads records : post_terminal_budget_release records = true -> Forall (leads []) (bodies records).
Proof.
  unfold post_terminal_budget_release. rewrite forallb_forall. intros Hall.
  apply Forall_fmap, Forall_forall. intros record Hin%list_elem_of_In%Hall s1. simpl.
  destruct (rec_body record); try discriminate Hin; set_solver.
Qed.

(** The run can still move, or the batch only releases reservations. *)
Lemma live_or_release (release terminal : bool) ph :
  negb release && (terminal || is_terminal_phase ph) = false -> is_terminal_phase ph = false \/ release = true.
Proof. destruct release, terminal; simpl; auto. Qed.

Lemma cancellation_edge s records r :
  control_ok s -> is_terminal_phase (k_phase s) = false -> cancellation_shape s records = true ->
  apply_semantic_records s records = Ok r -> edge s r.
Proof.
  intros Hok Hlive Hc HH. eapply leads_edge; [by eapply cancellation_leads| |eassumption].
  destruct (k_phase s) as [[]|] eqn:Hph; try done.
  unfold cancellation_shape in Hc. by rewrite (co_accepted s Hok Hph) in Hc.
Qed.

(** An accepted batch follows an edge of the phase machine. *)
Lemma apply_edge s b t s' ev :
  control_ok s -> apply s b t = Ok (s', ev) -> phase_in s s' (successors (k_phase s) ++ prior_phases s).
Proof.
  intros Hok [c [_ _ Hterm _ Hshape _ _ _ _ Hrec _]]%apply_step.
  change s' with (s', c).1.
  unfold validate_batch_shape in Hshape.
  destruct (composition_record_shape s (cb_records b)) eqn:Hcomp;
    [eapply leads_edge; [by eapply composition_leads|done|eassumption]|].
  destruct (structural_record_shape (cb_records b)) eqn:Hstruct;
    [eapply leads_edge; [by eapply structural_leads|done|eassumption]|].
  destruct (foreign_run_shape s (cb_records b)) eqn:Hforeign;
    [eapply foreign_phase; [done|apply accepted_successors|eassumption]|].
  simpl orb in Hshape. cbv iota in Hshape.
  destruct (external_rejection_shape (cb_records b)) eqn:Hext;
    [eapply leads_edge; [by eapply external_rejection_leads|done|eassumption]|].
  rewrite andb_false_r in Hshape. unfold reject_terminal_batch in Hterm.
  rewrite Hext, Hstruct, Hforeign in Hterm. apply reject_if_Ok in Hterm. simpl in Hterm.
  destruct (live_or_release _ _ _ Hterm) as [Hlive|Hrel].
  2: eapply leads_edge; [by apply release_leads|done|eassumption].
  destruct (_ && negb _) in Hshape.
  - apply reject_if_Ok, negb_false_iff, orb_true_iff in Hshape as [Hshape|Hshape].
    + eapply leads_edge; [by eapply extension_settlement_leads|done|eassumption].
    + by eapply cancellation_edge.
  - destruct (phase_shape s (cb_records b)) as [valid|] eqn:Hps; [|done].
    apply reject_if_Ok, negb_false_iff in Hshape. split_shapes Hshape.
    + subst valid. by eapply phase_shape_edge.
    + by eapply cancellation_edge.
    + eapply leads_edge; [by eapply control_leads| |eassumption].
      by destruct (k_phase s) as [[]|].
Qed.
End Batches.
