(* ===== verification/Reach.v ===== *)
(** * Reachable kernels

    The states a kernel passes through: the empty state, then any number of
    committed batches and adopted session heads.  The invariants of the control
    part (phase, terminal, identity, pending effects) hold in all of them. *)

From S2P Require Import Prelude Primitives Effects Records State Inputs ToolBatch Digests Policy ApplyStage ApplyTools ApplyEffects ApplyRecord Shapes Events Apply BatchOrder History PhaseMachine PhaseBatch.

(** ** Batches by position *)

(** The terminal and the phase say the same. *)
Definition terminal_matches (t : option TerminalState) (p : option RunPhase) : Prop :=
  match t with
  | None => is_terminal_phase p = false
  | Some (TerminalState_Completed _) => p = Some RunPhase_Completed
  | Some (TerminalState_Failed _) => p = Some RunPhase_Failed
  | Some (TerminalState_Cancelled _) => p = Some RunPhase_Cancelled
  end.

(** The phases boundary records lead to. *)
Definition boundary_phases : list RunPhase :=
  [RunPhase_Accepted; RunPhase_Cancelling; RunPhase_Completed; RunPhase_Failed; RunPhase_Cancelled].

(** Boundary records come last in their batch, acceptance only before there is
    a phase and a cancellation request only before there is another. *)
Definition boundary_last (s : KernelState) (l : list RecordBody) : Prop :=
  exists before final, l = before ++ [final] /\ Forall (fun b => is_boundary b = false) before /\
    (forall a, final = RecordBody_RunAccepted a -> k_phase s = None) /\
    (forall c, final = RecordBody_CancellationRequested c -> k_cancellation s = None).

Section Positions.
Context `{Hasher, Serde}.
Implicit Types s : KernelState.

Lemma all_quiet_last s l :
  l <> [] -> Forall (fun b => is_boundary b = false) l -> boundary_last s l.
Proof.
  intros Hne Hall. destruct (exists_last Hne) as (before & final & ->). exists before, final.
  apply Forall_app in Hall as [? Hf]. apply Forall_inv in Hf. split_and!; [done|done|..]; by intros a ->.
Qed.

(** A boundary record leads to its own phase from everywhere. *)
Lemma leads_quiet l body :
  leads l body ->
  forallb (fun p => negb (bool_decide (p ∈ l)))
    boundary_phases = true ->
  is_boundary body = false.
Proof.
  intros Hl Hn. specialize (Hl KernelState_default). simpl in Hn. repeat apply andb_true_iff in Hn as [? Hn].
  repeat match goal with Hb : negb (bool_decide _) = true |- _ =>
    apply negb_true_iff, bool_decide_eq_false in Hb end.
  destruct body; try done; exfalso; cbn in Hl; set_solver.
Qed.

Lemma leads_last s records l :
  bodies records <> [] -> Forall (leads l) (bodies records) ->
  forallb (fun p => negb (bool_decide (p ∈ l)))
    boundary_phases = true ->
  boundary_last s (bodies records).
Proof.
  intros Hne Hall Hn. apply all_quiet_last; [done|]. eapply Forall_impl; [exact Hall|].
  intros body Hb. by eapply leads_quiet.
Qed.

(** Case analysis of an explicit list of bodies. *)
Ltac explicit HH :=
  repeat match type of HH with
  | context [match ?x with _ => _ end] =>
      destruct x eqn:?; rewrite ?andb_false_r in HH; try discriminate HH
  end.
Ltac positioned :=
  first
    [ exists []; eexists; split_and!; [reflexivity|constructor|discriminate|discriminate]
    | eexists [_]; eexists; split_and!; [reflexivity|by repeat constructor|discriminate|discriminate]
    | eexists [_; _]; eexists; split_and!; [reflexivity|by repeat constructor|discriminate|discriminate] ].

Lemma finalize_last s records : finalize_shape s records = true -> boundary_last s (bodies records).
Proof. unfold finalize_shape. cbv zeta. intros HH. explicit HH; positioned. Qed.

Lemma control_last s records : control_shape records = true -> boundary_last s (bodies records).
Proof. unfold control_shape. intros HH. explicit HH; positioned. Qed.

Lemma interaction_terminal_last s records :
  interaction_terminal_shape records = true -> boundary_last s (bodies records).
Proof. unfold interaction_terminal_shape. intros HH. explicit HH; positioned. Qed.

Lemma model_settlement_last s records allow :
  model_settlement_shape s records allow = true -> boundary_last s (bodies records).
Proof.
  unfold model_settlement_shape. destruct (k_pending_model_effect s); [|done].
  destruct records as [|r1 [|r2 [|r3 rest]]]; try done; intros HH; unfold bodies; simpl.
  - destruct (rec_body r1); try done; positioned.
  - destruct (rec_body r1); try done; destruct (rec_body r2); try done; positioned.
Qed.

Lemma cancellation_last s records : cancellation_shape s records = true -> boundary_last s (bodies records).
Proof.
  unfold cancellation_shape. intros [[_ Hc]%andb_true_iff HH]%andb_true_iff. explicit HH.
  eexists [], _. split_and!; [reflexivity|constructor|done|]. intros _ _. by destruct (k_cancellation s).
Qed.

Lemma first_accept_last s records :
  k_phase s = None ->
  match records with
  | [record] => match rec_body record with
                | RecordBody_RunAccepted accepted => rec_run_id record =?? Some (ra_run_id accepted)
                | _ => false
                end
  | _ => false
  end = true -> boundary_last s (bodies records).
Proof.
  intros Hp. destruct records as [|record [|? ?]]; try done. intros HH.
  exists [], (rec_body record). split_and!; [done|constructor|done|]. intros c Hc. by rewrite Hc in HH.
Qed.

Lemma reconciliation_tail_last s closed l :
  reconciliation_tail closed l = true -> l <> [] -> boundary_last s l.
Proof.
  revert closed. induction l as [|b l IH]; intros closed HH Hne; [done|]. simpl in HH.
  assert (forall c, is_boundary b = false -> reconciliation_tail c l = true -> boundary_last s (b :: l)) as Hcons.
  { intros c Hb Ht. destruct l as [|b' l']; [apply all_quiet_last; [done|by repeat constructor]|].
    destruct (IH c Ht ltac:(done)) as (before & final & -> & Hq & Ha & Hc). exists (b :: before), final.
    split_and!; [done|by constructor|done|done]. }
  destruct b; try discriminate HH; try (apply andb_true_iff in HH as [_ HH]; by eapply Hcons);
    destruct l; try discriminate HH; positioned.
Qed.

Lemma reconciliation_last s records :
  reconciliation_shape s records = true -> boundary_last s (bodies records).
Proof.
  unfold reconciliation_shape. destruct (k_cancellation s) as [c|]; [|done].
  destruct (split_reconciled _) as [[[before r] after]|] eqn:Hs; [|done]. intros HH.
  apply andb_true_iff in HH as [HH Htail]. apply andb_true_iff in HH as [Hbefore _].
  rewrite forallb_forall in Hbefore. rewrite (split_reconciled_app _ _ _ _ Hs).
  assert (Forall (fun b => is_boundary b = false) before) as Hq.
  { apply Forall_forall. intros b Hb%list_elem_of_In%Hbefore. by destruct b. }
  destruct after as [|b after].
  - exists before, (RecordBody_CancellationReconciled r). by split_and!.
  - destruct (reconciliation_tail_last s _ _ Htail ltac:(done)) as (mid & final & -> & Hm & Ha & Hc).
    exists (before ++ RecordBody_CancellationReconciled r :: mid), final.
    split_and!; [by rewrite <- app_assoc| |done|done]. apply Forall_app. split; [done|by constructor].
Qed.

Ltac split_shapes H :=
  repeat match type of H with
  | (_ || _) = true => apply orb_true_iff in H as [H|H]
  end.

Ltac last_by_shape H :=
  first
    [ eapply leads_last; [done|by eapply interaction_request_leads|done]
    | eapply leads_last; [done|by eapply extension_request_leads|done]
    | eapply leads_last; [done|by eapply one_settled_leads|done]
    | eapply leads_last; [done|by eapply one_failed_leads|done]
    | eapply leads_last; [done|by eapply prepare_context_leads|done]
    | eapply leads_last; [done|by eapply request_model_leads|done]
    | eapply leads_last; [done|by eapply compaction_leads|done]
    | eapply leads_last; [done|by eapply retry_leads|done]
    | eapply leads_last; [done|by eapply timer_fired_leads|done]
    | eapply leads_last; [done|by eapply tool_batch_open_leads|done]
    | eapply leads_last; [done|by eapply tool_settlement_leads|done]
    | by apply finalize_last
    | explicit H; positioned ].

Lemma phase_shape_last s records :
  bodies records <> [] -> phase_shape s records = Some true -> boundary_last s (bodies records).
Proof.
  intros Hne Hs. unfold phase_shape in Hs. cbv zeta in Hs.
  destruct (k_phase s) as [p|] eqn:Hph.
  2: injection Hs as Hs; by apply first_accept_last.
  destruct p; try discriminate Hs; injection Hs as Hs; try discriminate Hs.
  all: lazymatch type of Hs with
       | interaction_terminal_shape _ = _ => by apply interaction_terminal_last
       | reconciliation_shape _ _ = _ => by apply reconciliation_last
       | model_settlement_shape _ _ _ = _ => by eapply model_settlement_last
       | (if _ then _ else _) = _ =>
           destruct (is_some (k_pending_model_effect s)); [by eapply model_settlement_last|last_by_shape Hs]
       | _ => split_shapes Hs; last_by_shape Hs
       end.
Qed.

(** The three kinds of batch [apply] lets through. *)
Lemma batch_kind s records :
  control_ok s -> bodies records <> [] -> reject_terminal_batch s records = Ok tt ->
  validate_batch_shape s records = Ok tt ->
  foreign_run_shape s records = true \/
  Forall (leads []) (bodies records) \/
  (k_terminal s = None /\ is_terminal_phase (k_phase s) = false /\ boundary_last s (bodies records)).
Proof.
  intros Hok Hne Hterm Hshape. unfold validate_batch_shape in Hshape.
  destruct (composition_record_shape s records) eqn:Hcomp; [right; left; by eapply composition_leads|].
  destruct (structural_record_shape records) eqn:Hstruct; [right; left; by eapply structural_leads|].
  destruct (foreign_run_shape s records) eqn:Hforeign; [by left|right].
  simpl orb in Hshape. cbv iota in Hshape.
  destruct (external_rejection_shape records) eqn:Hext; [left; by eapply external_rejection_leads|].
  rewrite andb_false_r in Hshape. unfold reject_terminal_batch in Hterm.
  rewrite Hext, Hstruct, Hforeign in Hterm. apply reject_if_Ok in Hterm. simpl in Hterm.
  destruct (post_terminal_budget_release records) eqn:Hrel; [left; by apply release_leads|].
  simpl in Hterm. apply orb_false_iff in Hterm as [Ht Hlive].
  assert (forall l, Forall (leads l) (bodies records) ->
    forallb (fun p => negb (bool_decide (p ∈ l)))
      boundary_phases = true ->
    boundary_last s (bodies records)) as Hq by (intros; by eapply leads_last).
  right. split_and!; [by destruct (k_terminal s)|done|]. destruct (_ && negb _) in Hshape.
  - apply reject_if_Ok, negb_false_iff, orb_true_iff in Hshape as [Hshape|Hshape].
    + eapply Hq; [by eapply extension_settlement_leads|done].
    + by apply cancellation_last.
  - destruct (phase_shape s records) as [valid|] eqn:Hps; [|done].
    apply reject_if_Ok, negb_false_iff in Hshape. split_shapes Hshape.
    + subst valid. by apply phase_shape_last.
    + by apply cancellation_last.
    + by apply control_last.
Qed.
End Positions.

(** ** One record *)

(** The identity of the run: set by acceptance, then fixed. *)
Record same_run (s s' : KernelState) : Prop := {
  sr_session : k_session_id s' = k_session_id s;
  sr_lane : k_lane_id s' = k_lane_id s;
  sr_accepted : k_accepted s' = k_accepted s;
  sr_accepted_at : k_accepted_at s' = k_accepted_at s
}.

#[global] Instance same_run_preorder : PreOrder same_run.
Proof. split; [done|]. intros s1 s2 s3 [] []. constructor; congruence. Qed.

Definition is_accept (body : RecordBody) : bool :=
  match body with RecordBody_RunAccepted _ => true | _ => false end.

(** A run that can still move. *)
Definition live (s : KernelState) : Prop := k_terminal s = None /\ is_terminal_phase (k_phase s) = false.

Section Records.
Context `{Hasher, Serde}.
Implicit Types s : KernelState.

Lemma apply_record_cases s record next s' :
  apply_record s record next = Ok s' ->
  s' = s \/ exists u, apply_body (with_limit_usage u s) record next = Ok s'.
Proof.
  unfold apply_record. intros HH. step HH; [injection HH as <-; by left|].
  step HH; [injection HH as <-; by left|]. step HH. right.
  assert (exists u, a = with_limit_usage u s) as [u ->].
  { step E1; [injection E1 as <-; exists (k_limit_usage s); by rewrite with_limit_usage_id|].
    by eapply update_wall_usage_form. }
  by exists u.
Qed.

Lemma keeps_usage u s : keeps_run s (with_limit_usage u s).
Proof. framed. Qed.

Lemma quiet_record_keeps s record next s' :
  is_boundary (rec_body record) = false -> apply_record s record next = Ok s' -> keeps_run s s'.
Proof.
  intros Hb [->|[u HH]]%apply_record_cases; [reflexivity|].
  etrans; [apply (keeps_usage u)|]. by eapply apply_body_keeps_run.
Qed.

Lemma record_same_run s record next s' :
  is_accept (rec_body record) = false -> apply_record s record next = Ok s' -> same_run s s'.
Proof.
  intros Ha HH. destruct (is_boundary (rec_body record)) eqn:Hb.
  - apply apply_record_cases in HH as [->|[u HH]]; [done|]. unfold apply_body in HH.
    destruct (rec_body record); try discriminate; try (injection HH as <-; try done).
    + unfold apply_cancellation_requested in HH. step HH. by injection HH as <-.
    + unfold apply_run_failed. cbv zeta. by case_match.
  - by apply (quiet_record_keeps s record next) in HH as [].
Qed.

Lemma record_extension_ok s record next s' :
  extension_ok s -> apply_record s record next = Ok s' -> extension_ok s'.
Proof.
  intros He HH. destruct (is_boundary (rec_body record)) eqn:Hb;
    [|by apply (kr_extension _ _ (quiet_record_keeps _ _ _ _ Hb HH))].
  apply apply_record_cases in HH as [->|[u HH]]; [done|]. unfold apply_body in HH.
  destruct (rec_body record); try discriminate; try (injection HH as <-; try exact He).
  - unfold apply_cancellation_requested in HH. step HH. by injection HH as <-.
  - unfold apply_run_failed. cbv zeta. by case_match.
Qed.

Lemma record_accept_phase s record next s' :
  is_accept (rec_body record) = true -> apply_record s record next = Ok s' ->
  s' = s \/ k_phase s' = Some RunPhase_Accepted /\ k_terminal s' = k_terminal s.
Proof.
  intros Ha [->|[u HH]]%apply_record_cases; [by left|right]. unfold apply_body in HH.
  destruct (rec_body record); try discriminate. by injection HH as <-.
Qed.

Lemma apply_record_control_ok s record next s' :
  control_ok s -> apply_record s record next = Ok s' -> control_ok s'.
Proof.
  intros [He Hi Ha] HH. split.
  - by eapply record_extension_ok.
  - intros p Hp. apply apply_record_pending in HH as [Hs | [Hs | (_ & q & Hs & Hq)]];
      rewrite Hs in Hp; [by apply Hi|done|by injection Hp as <-].
  - intros Hp. destruct (is_accept (rec_body record)) eqn:Hacc.
    + apply record_accept_phase in HH as [->|[HH _]]; [auto|congruence|done].
    + rewrite (sr_accepted _ _ (record_same_run _ _ _ _ Hacc HH)). apply Ha.
      apply apply_record_phase in HH as [HH|(q & HH & _)]; congruence.
Qed.

Lemma quiet_phases s body p :
  control_ok s -> is_boundary body = false -> p ∈ record_phases s body -> is_terminal_phase (Some p) = false.
Proof.
  intros Hok Hb Hp.
  assert (forall q, q ∈ prior_phases s -> is_terminal_phase (Some q) = false) as Hprior.
  { unfold prior_phases. intros q Hq. destruct (k_pending_interaction s) as [i|] eqn:Hi;
      [|by apply elem_of_nil in Hq].
    apply list_elem_of_singleton in Hq as ->. pose proof (co_interaction s Hok i Hi).
    by destruct (pin_prior_phase i). }
  unfold record_phases, settled_phases in Hp.
  destruct body; try discriminate Hb; simpl in Hp; repeat case_match; auto;
    repeat match goal with
    | Hq : _ ∈ [] |- _ => by apply elem_of_nil in Hq
    | Hq : _ ∈ _ :: _ |- _ => apply elem_of_cons in Hq as [->|Hq]; [reflexivity|]
    end.
Qed.

Lemma quiet_record_live s record next s' :
  control_ok s -> live s -> is_boundary (rec_body record) = false ->
  apply_record s record next = Ok s' -> live s'.
Proof.
  intros Hok [Ht Hl] Hb HH. split.
  - by rewrite (kr_terminal _ _ (quiet_record_keeps _ _ _ _ Hb HH)).
  - apply apply_record_phase in HH as [->|(p & -> & Hp)]; [done|]. by eapply quiet_phases.
Qed.

Lemma live_matches s : live s -> terminal_matches (k_terminal s) (k_phase s).
Proof. intros [-> Hl]. exact Hl. Qed.

Lemma record_terminal_matches s record next s' :
  control_ok s -> live s -> apply_record s record next = Ok s' ->
  terminal_matches (k_terminal s') (k_phase s').
Proof.
  intros Hok Hl HH. destruct (is_boundary (rec_body record)) eqn:Hb;
    [|apply live_matches; by eapply quiet_record_live].
  apply apply_record_cases in HH as [->|[u HH]]; [by apply live_matches|]. unfold apply_body in HH.
  destruct (rec_body record); try discriminate Hb; try (injection HH as <-; try done).
  - cbn. destruct Hl as [-> _]. done.
  - unfold apply_cancellation_requested in HH. step HH. injection HH as <-. cbn. by destruct Hl as [-> _].
  - unfold apply_run_failed. cbv zeta. by case_match.
Qed.
End Records.

(** ** One batch *)

Section Steps.
Context `{Hasher, Serde}.
Implicit Types s : KernelState.

Lemma with_next_snoc {A} (l : list A) a :
  exists init, with_next (l ++ [a]) = init ++ [(a, None)] /\ init.*1 = l.
Proof.
  induction l as [|x l (init & Heq & Hfst)]; [by exists []|].
  exists ((x, head (l ++ [a])) :: init). split; [simpl; by rewrite Heq|].
  rewrite fmap_cons. by f_equal.
Qed.

Lemma with_next_fst {A} (l : list A) : (with_next l).*1 = l.
Proof. induction l as [|a l IH]; [done|]. cbn [with_next]. rewrite fmap_cons. by f_equal. Qed.

(** Anything every record keeps, whatever its position, the batch keeps. *)
Lemma records_ind (P : KernelState -> Prop) s entries acc :
  (forall s1 n, P s1 -> P (with_last_applied_sequence n s1)) ->
  (forall s1 record next s2, record ∈ entries.*1 -> P s1 -> apply_record s1 record next = Ok s2 -> P s2) ->
  P s -> rfold semantic_step (s, []) entries = Ok acc -> P acc.1.
Proof.
  intros Hseq Hrec Hs. apply (rfold_ind (fun a => P a.1)); [done|].
  intros [s1 cs] [record next] acc1 Hin Hp Hstep. unfold semantic_step in Hstep. step Hstep.
  injection Hstep as <-. cbn [fst] in *. apply Hseq. eapply Hrec; [|exact Hp|exact E].
  apply list_elem_of_fmap. by exists (record, next).
Qed.

Lemma control_ok_sequence s n : control_ok s -> control_ok (with_last_applied_sequence n s).
Proof. by intros []. Qed.

Lemma control_ok_before_run s : control_ok s -> control_ok (enter_before_run s).
Proof. intros []. unfold enter_before_run. case_match; by constructor. Qed.

Lemma semantic_control_ok s entries acc :
  control_ok s -> rfold semantic_step (s, []) entries = Ok acc -> control_ok acc.1.
Proof.
  apply records_ind; [apply control_ok_sequence|]. intros s1 record next s2 _ Hok HH.
  by eapply apply_record_control_ok.
Qed.

Lemma apply_control_ok s b t s' events : control_ok s -> apply s b t = Ok (s', events) -> control_ok s'.
Proof.
  intros Hok [c [_ _ _ _ _ _ _ _ _ HH _]]%apply_step. unfold apply_semantic_records in HH. step HH.
  injection HH as <- _. apply control_ok_before_run. by eapply semantic_control_ok.
Qed.

(** The loop over a batch whose last record may be a boundary. *)
Lemma semantic_split s records before final acc :
  bodies records = before ++ [final] ->
  rfold semantic_step (s, []) (with_next records) = Ok acc ->
  exists init record acc1 s2,
    init.*1 ++ [record] = records /\ rec_body record = final /\ bodies init.*1 = before /\
    rfold semantic_step (s, []) init = Ok acc1 /\ apply_record acc1.1 record None = Ok s2 /\
    acc.1 = with_last_applied_sequence (rec_sequence record) s2.
Proof.
  intros Hb HH. apply fmap_app_inv in Hb as (rs & l & Hbefore & Hf & ->).
  destruct l as [|record [|? ?]]; try discriminate Hf. injection Hf as Hf.
  destruct (with_next_snoc rs record) as (init & Heq & Hinit). rewrite Heq, rfold_app in HH.
  step HH. destruct a as [s1 cs]. simpl in HH. step HH. injection HH as <-. step E0. injection E0 as <-.
  subst. exists init, record, (s1, cs), a0. by split_and!.
Qed.

Lemma entries_quiet (init : list (RecordEnvelope * option RecordEnvelope)) before record :
  bodies init.*1 = before -> Forall (fun b => is_boundary b = false) before ->
  record ∈ init.*1 -> is_boundary (rec_body record) = false.
Proof. intros <- Hq Hin. rewrite Forall_fmap, Forall_forall in Hq. by apply Hq. Qed.

(** The live run a boundary batch reaches before its last record. *)
Lemma semantic_live s (init : list (RecordEnvelope * option RecordEnvelope)) before acc :
  control_ok s -> live s -> bodies init.*1 = before -> Forall (fun b => is_boundary b = false) before ->
  rfold semantic_step (s, []) init = Ok acc -> control_ok acc.1 /\ live acc.1 /\ same_run s acc.1.
Proof.
  intros Hok Hl Hb Hq.
  apply (records_ind (fun s1 => control_ok s1 /\ live s1 /\ same_run s s1)); [| |by split_and!].
  - intros s1 n (? & ? & ?). split_and!; [by apply control_ok_sequence|done|]. etrans; [done|by constructor].
  - intros s1 record next s2 Hin (Hok1 & Hl1 & Hs1) HH.
    pose proof (entries_quiet _ _ _ Hb Hq Hin) as Hr. split_and!.
    + by eapply apply_record_control_ok.
    + by eapply quiet_record_live.
    + etrans; [exact Hs1|]. eapply record_same_run; [|exact HH]. by destruct (rec_body record).
Qed.

Lemma matches_before_run s :
  terminal_matches (k_terminal s) (k_phase s) ->
  terminal_matches (k_terminal (enter_before_run s)) (k_phase (enter_before_run s)).
Proof.
  unfold enter_before_run. case_match eqn:Ha; [|done]. apply eqb_eq in Ha. rewrite Ha. cbn.
  by destruct (k_terminal s) as [[]|].
Qed.

Lemma same_run_before_run s : same_run s (enter_before_run s).
Proof. unfold enter_before_run. by case_match. Qed.

(** A quiet batch changes neither the terminal nor the phase. *)
Definition same_end (s s' : KernelState) : Prop :=
  k_terminal s' = k_terminal s /\ k_phase s' = k_phase s /\ same_run s s'.

Lemma leads_nil_end s records acc :
  Forall (leads []) (bodies records) -> rfold semantic_step (s, []) (with_next records) = Ok acc ->
  same_end s acc.1.
Proof.
  intros Hall. apply records_ind; [by intros s1 n (? & ? & []); split_and!| |by split_and!].
  intros s1 record next s2 Hin (Ht & Hp & Hr) HH.
  assert (leads [] (rec_body record)) as Hl.
  { rewrite Forall_fmap, Forall_forall in Hall. apply Hall.
    apply list_elem_of_fmap in Hin as ([r n] & -> & Hin). by eapply with_next_elem. }
  assert (is_boundary (rec_body record) = false) as Hb by (by eapply leads_quiet).
  destruct (quiet_record_keeps _ _ _ _ Hb HH) as [?? ?? _ ? _ _].
  apply apply_record_phase in HH as [HH|(p & _ & Hin')]; [|by apply Hl, elem_of_nil in Hin'].
  split_and!; [congruence|congruence|]. etrans; [exact Hr|by constructor].
Qed.

Lemma foreign_end s records acc :
  foreign_run_shape s records = true -> rfold semantic_step (s, []) (with_next records) = Ok acc ->
  exists n, acc.1 = with_last_applied_sequence n s.
Proof.
  unfold foreign_run_shape. intros [_ Hall]%andb_true_iff. rewrite forallb_forall in Hall.
  apply (records_ind (fun s1 => exists n, s1 = with_last_applied_sequence n s)).
  - intros s1 n [m ->]. by exists n.
  - intros s1 record next s2 Hin [n ->] HH.
    apply list_elem_of_fmap in Hin as ([r o] & -> & Hin%with_next_elem%list_elem_of_In%Hall).
    unfold apply_record in HH. simpl in HH.
    destruct (is_structural (rec_body r)); [injection HH as <-; by exists n|].
    change (is_foreign_run (with_last_applied_sequence n s) r) with (is_foreign_run s r) in HH.
    simpl in Hin. rewrite Hin in HH. injection HH as <-. by exists n.
  - exists (k_last_applied_sequence s). by destruct s.
Qed.
End Steps.

(** ** The invariant of a kernel *)

Section Invariant.
Context `{Hasher, Serde}.
Implicit Types s : KernelState.

Record kernel_ok (s : KernelState) : Prop := {
  ko_control : control_ok s;
  ko_terminal : terminal_matches (k_terminal s) (k_phase s);
  ko_batch : batch_ok s
}.

Lemma records_not_nil s b : validate_batch_range s b = Ok tt -> bodies (cb_records b) <> [].
Proof.
  unfold validate_batch_range. intros HH. do 2 step HH. apply reject_if_Ok, Nat.eqb_neq in E0.
  by destruct (cb_records b).
Qed.

(** What may still change once a run has ended: the applied sequence, the state
    version, the wall time spent, and releases of reservations that had none. *)
Record only_released (before after : gmap BudgetReservationId BudgetReservationReplay) : Prop := {
  orl_facts : set_brp_release None <$> after = set_brp_release None <$> before;
  orl_kept : forall id r, before !! id = Some r -> is_some (brp_release r) = true -> after !! id = Some r
}.

Definition ended (s s' : KernelState) : Prop := exists n v reservations wall,
  s' = with_last_applied_sequence n (with_state_version v (with_budget_reservations reservations
         (map_limit_usage (set_lu_wall_time wall) s))) /\
  k_state_version s <= v /\ only_released (k_budget_reservations s) reservations.

Lemma ended_refl s : ended s s.
Proof.
  exists (k_last_applied_sequence s), (k_state_version s), (k_budget_reservations s), (lu_wall_time (k_limit_usage s)).
  split; [by destruct s as [????????????????????????????????[]]|]. done.
Qed.

Lemma ended_sequence s s1 n : ended s s1 -> ended s (with_last_applied_sequence n s1).
Proof. intros (n1 & v & res & w & -> & Hv & Hres). by exists n, v, res, w. Qed.

Lemma ended_wall s s1 now s2 : ended s s1 -> update_wall_usage s1 now = Ok s2 -> ended s s2.
Proof.
  intros (n & v & res & w & -> & Hv & Hres) HH. unfold update_wall_usage in HH.
  destruct (k_accepted_at _); [|injection HH as <-; by exists n, v, res, w].
  step HH. injection HH as <-. by exists n, v, res, a.
Qed.

Lemma only_released_insert old res id r receipt : only_released old res -> res !! id = Some r -> brp_release r = None ->
  only_released old (<[id := set_brp_release (Some receipt) r]> res).
Proof.
  intros [Hf Hk] Hid Hnone. split.
  - rewrite fmap_insert, Hf. apply insert_id. rewrite <- Hf, lookup_fmap, Hid. done.
  - intros id' r' Hr' Hsome. destruct (decide (id = id')) as [<-|Hne]; [|rewrite lookup_insert_ne by done; by apply Hk].
    apply Hk in Hr' as Hr2; [|done]. rewrite Hid in Hr2. injection Hr2 as <-. by rewrite Hnone in Hsome.
Qed.

Lemma ended_release s s1 released s2 : ended s s1 -> apply_budget_reservation_released s1 released = Ok s2 -> ended s s2.
Proof.
  intros (n & v & res & w & -> & Hv & Hres) HH. unfold apply_budget_reservation_released in HH. do 3 step HH.
  apply ok_or_Ok in E0. step HH. injection HH as <-. destruct (brp_release a0) eqn:Hrel.
  - case_match; [|done]. injection E2 as <-. exists n, (Z.max v 5), res, w. split; [done|]. split; [lia|done].
  - injection E2 as <-. eexists n, (Z.max v 5), _, w. split; [reflexivity|]. split; [lia|]. by apply only_released_insert.
Qed.

(** Every record accepted after the end leaves the run as it was. *)
Lemma ended_record s s1 record next s2 : ended s s1 ->
  is_structural (rec_body record) = true \/ is_external_rejection (rec_body record) = true \/
  (exists released, rec_body record = RecordBody_BudgetReservationReleased released) ->
  apply_record s1 record next = Ok s2 -> ended s s2.
Proof.
  intros Hs Hb HH. unfold apply_record in HH.
  destruct (is_structural _) eqn:Hst; [by injection HH as <-|]. case_match; [by injection HH as <-|].
  destruct Hb as [Hb|[Hb|[released Hb]]]; [done| |].
  - rewrite Hb in HH. cbn [rbind] in HH. unfold apply_body in HH. destruct (rec_body record); try discriminate. by injection HH as <-.
  - rewrite Hb in HH. cbn [is_external_rejection] in HH. step HH. eapply ended_wall in E; [|done].
    unfold apply_body in HH. rewrite Hb in HH. by eapply ended_release.
Qed.

Lemma ended_records s records acc :
  is_some (k_terminal s) = true -> reject_terminal_batch s records = Ok tt ->
  rfold semantic_step (s, []) (with_next records) = Ok acc -> ended s acc.1.
Proof.
  intros Ht Hterm HH. destruct (foreign_run_shape s records) eqn:Hf.
  { destruct (foreign_end _ _ _ Hf HH) as [n ->]. apply ended_sequence, ended_refl. }
  unfold reject_terminal_batch in Hterm. rewrite Ht, Hf in Hterm. apply reject_if_Ok in Hterm.
  revert HH. apply records_ind; [intros; by apply ended_sequence| |apply ended_refl].
  intros s1 record next s2 Hin Hs1. apply ended_record; [done|]. rewrite with_next_fst in Hin. clear s1 s2 Hs1 next.
  destruct (external_rejection_shape records) eqn:Hext.
  { unfold external_rejection_shape in Hext. destruct records as [|r [|]]; cbn in Hext; [done| |by case_match].
    apply list_elem_of_singleton in Hin as ->. right. left. by destruct (rec_body r). }
  destruct (structural_record_shape records) eqn:Hstruct.
  { unfold structural_record_shape in Hstruct. apply andb_true_iff in Hstruct as [_ Hall]. rewrite forallb_forall in Hall.
    left. by apply Hall, list_elem_of_In. }
  destruct (post_terminal_budget_release records) eqn:Hrel; [|done].
  unfold post_terminal_budget_release in Hrel. rewrite forallb_forall in Hrel. apply list_elem_of_In, Hrel in Hin.
  right. right. destruct (rec_body record); try done. by eexists.
Qed.

Lemma ended_keeps s s' : ended s s' -> k_terminal s' = k_terminal s /\ k_phase s' = k_phase s /\ same_run s s'.
Proof. intros (n & v & res & w & -> & _). by split_and!. Qed.

Lemma apply_ended s b t s' events :
  control_ok s -> terminal_matches (k_terminal s) (k_phase s) -> is_some (k_terminal s) = true ->
  apply s b t = Ok (s', events) -> ended s s'.
Proof.
  intros Hok Hm Ht [c [_ _ Hterm _ _ _ _ _ _ HH _]]%apply_step. unfold apply_semantic_records in HH. step HH. injection HH as <- _.
  eapply ended_records in E; [|done..]. unfold enter_before_run. case_match eqn:Ha; [|done]. apply eqb_eq in Ha. exfalso.
  rewrite (proj1 (proj2 (ended_keeps _ _ E))) in Ha. rewrite Ha in Hm. by destruct (k_terminal s) as [[]|].
Qed.

(** What a batch does to the end of the run and to its identity. *)
Lemma apply_end s b t s' events :
  control_ok s -> terminal_matches (k_terminal s) (k_phase s) -> apply s b t = Ok (s', events) ->
  terminal_matches (k_terminal s') (k_phase s') /\
  (is_some (k_terminal s) = true -> same_end s s') /\
  (k_phase s <> None -> same_run s s').
Proof.
  intros Hok Ht [c [Hrange _ Hterm _ Hshape _ _ _ _ HH _]]%apply_step. apply records_not_nil in Hrange.
  unfold apply_semantic_records in HH. step HH. injection HH as <- _.
  assert (forall s1, same_end s s1 -> terminal_matches (k_terminal (enter_before_run s1)) (k_phase (enter_before_run s1)) /\
    (is_some (k_terminal s) = true -> same_end s (enter_before_run s1)) /\ same_run s (enter_before_run s1)) as Hend.
  { intros s1 (Hs & Hp & Hr). split_and!.
    - apply matches_before_run. congruence.
    - intros Hsome. unfold enter_before_run. case_match eqn:Ha; [|by split_and!].
      apply eqb_eq in Ha. exfalso. rewrite <- Hp, Ha in Ht. by destruct (k_terminal s) as [[]|].
    - etrans; [exact Hr|apply same_run_before_run]. }
  destruct (batch_kind s _ Hok Hrange Hterm Hshape) as [Hf|[Hn|(Hnone & Hlive & Hlast)]].
  - destruct (foreign_end _ _ _ Hf E) as [n Hn]. destruct (Hend a.1) as (? & ? & ?); [|by split_and!].
    rewrite Hn. by split_and!.
  - destruct (Hend a.1) as (? & ? & ?); [by eapply leads_nil_end|by split_and!].
  - destruct Hlast as (before & final & Hb & Hq & Hacc & _).
    destruct (semantic_split _ _ _ _ _ Hb E) as (init & record & acc1 & s2 & _ & Hr & Hi & Hinit & Hlast & Ha).
    destruct (semantic_live _ _ _ _ Hok (conj Hnone Hlive) Hi Hq Hinit) as (Hok1 & Hl1 & Hs1).
    rewrite Ha. split_and!.
    + apply matches_before_run. by apply (record_terminal_matches _ _ _ _ Hok1 Hl1 Hlast).
    + by rewrite Hnone.
    + intros Hph. etrans; [|apply same_run_before_run]. trans s2; [|by constructor]. etrans; [exact Hs1|].
      eapply record_same_run; [|exact Hlast]. rewrite Hr. destruct final; try done. by destruct Hph; eapply Hacc.
Qed.

Lemma apply_batch_ok s b t s' events : batch_ok s -> apply s b t = Ok (s', events) -> batch_ok s'.
Proof.
  intros Hok [c [_ _ _ _ _ _ _ _ _ HH _]]%apply_step. unfold apply_semantic_records in HH. step HH.
  injection HH as <- _. unfold enter_before_run.
  assert (batch_ok a.1) as Ha.
  { revert E. apply records_ind; [done| |done]. intros s1 record next s2 _ Hs1 HH.
    by eapply apply_record_batch_ok. }
  by case_match.
Qed.

Lemma apply_kernel_ok s b t s' events : kernel_ok s -> apply s b t = Ok (s', events) -> kernel_ok s'.
Proof.
  intros [Hc Ht Hb] HH. split.
  - by eapply apply_control_ok.
  - by apply (apply_end _ _ _ _ _ Hc Ht HH).
  - by eapply apply_batch_ok.
Qed.

(** The states of a kernel: [Kernel::default], then [Kernel::apply] and
    [Kernel::adopt_session_head] in any order. *)
Inductive reachable : KernelState -> Prop :=
| reachable_default : reachable KernelState_default
| reachable_apply s b t s' events : reachable s -> apply s b t = Ok (s', events) -> reachable s'
| reachable_adopt s sequence s' :
    reachable s -> Kernel_adopt_session_head s sequence = Ok s' -> reachable s'.

Lemma adopt_form s sequence s' :
  Kernel_adopt_session_head s sequence = Ok s' ->
  s' = with_last_applied_sequence sequence s /\ k_last_applied_sequence s <= sequence.
Proof. unfold Kernel_adopt_session_head. intros HH. step HH. injection HH as <-. crush_ok. split; [done|lia]. Qed.

Lemma reachable_ok s : reachable s -> kernel_ok s.
Proof.
  induction 1 as [|s b t s' ev Hr IH HH|s n s' Hr IH HH].
  - by repeat constructor.
  - by eapply apply_kernel_ok.
  - apply adopt_form in HH as [-> _]. destruct IH as [Hc Ht Hb]. split; [by apply control_ok_sequence|done|done].
Qed.

(** Acceptance is never left pending between batches. *)
Lemma reachable_settled s : reachable s -> k_phase s <> Some RunPhase_Accepted.
Proof.
  induction 1 as [|s b t s' ev Hr IH HH|s n s' Hr IH HH]; [done| |by apply adopt_form in HH as [-> _]].
  apply apply_step in HH as [c [_ _ _ _ _ _ _ _ _ HH _]]. unfold apply_semantic_records in HH. step HH.
  injection HH as <- _. unfold enter_before_run. case_match eqn:Ha; [done|]. by apply eqb_false in Ha.
Qed.

(** The states the record loop passes through, between and inside batches. *)
Inductive replaying : KernelState -> Prop :=
| replaying_reachable s : reachable s -> replaying s
| replaying_record s record next s' : replaying s -> apply_record s record next = Ok s' -> replaying s'
| replaying_sequence s n : replaying s -> replaying (with_last_applied_sequence n s).

Lemma replaying_batch_ok s : replaying s -> batch_ok s.
Proof.
  induction 1 as [s Hr|s record next s' Hr IH HH|s n Hr IH].
  - by apply ko_batch, reachable_ok.
  - by eapply apply_record_batch_ok.
  - exact IH.
Qed.

Lemma semantic_replaying s entries acc :
  replaying s -> rfold semantic_step (s, []) entries = Ok acc -> replaying acc.1.
Proof.
  apply records_ind; [by constructor|]. intros s1 record next s2 _ Hr HH. by eapply replaying_record.
Qed.
End Invariant.
