(* ===== verification/Journal.v ===== *)
(** * The journal

    Sequences, identities and derived events of committed batches: a batch
    extends the journal by exactly its records, and the public events are a
    projection of them.

    The second part follows a decision to its committed batch. *)

From S2P Require Import Prelude Primitives Ids Floats Cbor CborCodec CborDecode Serializer Effects Records State Inputs ToolBatch Digests Policy ApplyStage ApplyTools ApplyEffects ApplyRecord Shapes Events.
From S2P Require Import Apply Decide DecideLimit DecideTools DecideStage DecideSettle DecideControl Reducer Decisions Chain BatchOrder History PhaseMachine PhaseBatch Reach.

(** ** Sequences *)

Lemma validate_batch_range_inv s b :
  validate_batch_range s b = Ok tt ->
  cb_first_sequence b = k_last_applied_sequence s + 1 /\
  cb_last_sequence b = k_last_applied_sequence s + Z.of_nat (length (cb_records b)) /\
  (0 < length (cb_records b) <= APPEND_BATCH_MAX_RECORDS)%nat /\ cb_last_sequence b <= u64_max.
Proof.
  unfold validate_batch_range. intros H. do 4 step H. step H.
  apply reject_if_Ok, Nat.ltb_ge in E. apply reject_if_Ok, Nat.eqb_neq in E0.
  apply reject_if_Ok, orb_false_iff in H as [H1%negb_false_iff%Z.eqb_eq H2%negb_false_iff%Z.eqb_eq].
  apply ok_or_Ok in E1, E2, E3. unfold u64_checked_add, u64_checked_sub, u64_of_usize in *.
  apply in_range_Some in E1 as [-> ?], E2 as [-> ?], E3 as [-> ?]. split_and!; lia.
Qed.

Lemma validate_record_sequences_inv b i r :
  validate_record_sequences b = Ok tt -> cb_records b !! i = Some r ->
  rec_sequence r = cb_first_sequence b + Z.of_nat i.
Proof.
  unfold validate_record_sequences. intros H Hi.
  assert (forall l, rfold (check_sequence b) tt l = Ok tt -> (i, r) ∈ l -> rec_sequence r = cb_first_sequence b + Z.of_nat i)
    as Hall.
  { induction l as [|[j x] l IH]; intros HH Hin; [by apply elem_of_nil in Hin|]. simpl in HH. step HH.
    apply elem_of_cons in Hin as [[= <- <-]|Hin]; [|destruct a; by apply IH].
    unfold check_sequence in E. step E. apply reject_if_Ok, negb_false_iff, Z.eqb_eq in E. simpl in *.
    apply ok_or_Ok in E0. unfold u64_checked_add, u64_of_usize in E0. apply in_range_Some in E0 as [-> _]. done. }
  apply (Hall _ H). by apply elem_of_enumerate.
Qed.

Section Sequences.
Context `{Hasher, Serde}.
Implicit Types s : KernelState.

Lemma semantic_sequence s records acc :
  rfold semantic_step (s, []) (with_next records) = Ok acc ->
  forall r, last records = Some r -> k_last_applied_sequence acc.1 = rec_sequence r.
Proof.
  intros HH r Hr. apply last_Some in Hr as [init ->].
  destruct (with_next_snoc init r) as (entries & Heq & _). rewrite Heq, rfold_app in HH. step HH.
  destruct a as [s1 cs]. simpl in HH. step HH. injection HH as <-. step E0. by injection E0 as <-.
Qed.

(** An accepted batch extends the sequence by exactly its records. *)
Lemma apply_sequence s b t s' events :
  apply s b t = Ok (s', events) ->
  k_last_applied_sequence s' = k_last_applied_sequence s + Z.of_nat (length (cb_records b)) /\
  k_last_applied_sequence s' <= u64_max /\
  (0 < length (cb_records b) <= APPEND_BATCH_MAX_RECORDS)%nat /\
  forall i r, cb_records b !! i = Some r -> rec_sequence r = k_last_applied_sequence s + 1 + Z.of_nat i.
Proof.
  intros [c [Hr Hs _ _ _ _ _ _ _ HH _]]%apply_step.
  apply validate_batch_range_inv in Hr as (Hf & Hl & Hn & Hmax).
  assert (forall i r, cb_records b !! i = Some r -> rec_sequence r = k_last_applied_sequence s + 1 + Z.of_nat i) as Hi.
  { intros i r Hi. rewrite (validate_record_sequences_inv _ _ _ Hs Hi). lia. }
  unfold apply_semantic_records in HH. step HH. injection HH as <- _.
  assert (k_last_applied_sequence (enter_before_run a.1) = k_last_applied_sequence s + Z.of_nat (length (cb_records b)))
    as Hlast.
  { trans (k_last_applied_sequence a.1); [unfold enter_before_run; by case_match|].
    destruct (last (cb_records b)) as [r|] eqn:Hr; [|apply last_None in Hr; rewrite Hr in Hn; simpl in Hn; lia].
    rewrite (semantic_sequence _ _ _ E r Hr). rewrite last_lookup in Hr. rewrite (Hi _ _ Hr). lia. }
  split_and!; [done|lia|lia|lia|exact Hi].
Qed.
End Sequences.

(** ** Identities *)

Lemma insert_all_spec ids seen out :
  insert_all ids seen = Some out -> out = list_to_set ids ∪ seen /\ NoDup ids /\ (forall e, e ∈ ids -> e ∉ seen).
Proof.
  revert seen. induction ids as [|e ids IH]; intros seen H; simpl in H.
  - injection H as <-. split_and!; [set_solver|constructor|set_solver].
  - destruct (decide (e ∈ seen)) as [?|Hn]; [by rewrite bool_decide_eq_true_2 in H|].
    rewrite bool_decide_eq_false_2 in H by done. apply IH in H as (-> & Hnd & Hfresh).
    split_and!; [set_solver| |].
    + constructor; [|done]. intros Hin%Hfresh. set_solver.
    + intros x [->|Hx]%elem_of_cons; [done|]. apply Hfresh in Hx. set_solver.
Qed.

(** Record ids and derived event ids never repeat within a batch. *)
Lemma validate_identities_spec s records :
  validate_identities s records = Ok tt ->
  NoDup (rec_record_id <$> records) /\ NoDup (records ≫= rec_derived_event_ids) /\
  (forall sid, k_session_id s = Some sid -> Forall (fun r => rec_session_id r = sid) records).
Proof.
  unfold validate_identities. intros HH. step HH. step HH. clear HH.
  assert (forall seen out, rfold (identity_step s a) seen records = Ok out ->
    NoDup (rec_record_id <$> records) /\ (forall i, i ∈ rec_record_id <$> records -> i ∉ seen_records seen) /\
    NoDup (records ≫= rec_derived_event_ids) /\
    (forall e, e ∈ (records ≫= rec_derived_event_ids) -> e ∉ seen_events seen) /\
    (forall sid, k_session_id s = Some sid -> Forall (fun r => rec_session_id r = sid) records)) as Hall.
  { clear E E0. induction records as [|r records IH]; intros seen out Hf; simpl in Hf.
    - split_and!; intros; try constructor; by apply elem_of_nil in H.
    - step Hf. unfold identity_step in E. do 5 step E. injection E as <-.
      apply reject_if_Ok, bool_decide_eq_false in E0. apply ok_or_Ok, insert_all_spec in E1 as (-> & Hnd & Hfresh).
      apply reject_if_Ok in E3. destruct (IH _ _ Hf) as (H1 & H2 & H3 & H4 & H5). cbn [seen_records seen_events] in *.
      split_and!.
      + rewrite fmap_cons. constructor; [intros Hin%H2; set_solver|done].
      + intros i [->|Hi]%elem_of_cons; [done|]. apply H2 in Hi. set_solver.
      + simpl. apply NoDup_app. split_and!; [done| |done]. intros e He Hin%H4. set_solver.
      + intros e [He|He]%elem_of_app; [by apply Hfresh|]. apply H4 in He. set_solver.
      + intros sid Hs. constructor; [|by apply H5]. rewrite Hs in E3. simpl in E3. by crush_ok. }
  destruct (Hall _ _ E0) as (? & _ & ? & _ & ?). by split_and!.
Qed.

(** ** Derived events *)

(** What an event keeps of the record it is derived from. *)
Definition event_origin (e : RunEvent) : EventId * option Z * Timestamp * option RunId * SessionId :=
  (ev_event_id e, ev_durable_sequence e, ev_timestamp e, Some (ev_run_id e), ev_session_id e).

Definition record_origins (r : RecordEnvelope) : list (EventId * option Z * Timestamp * option RunId * SessionId) :=
  (fun id => (id, Some (rec_sequence r), rec_timestamp r, rec_run_id r, rec_session_id r)) <$> rec_derived_event_ids r.

Lemma try_from_record_origin record ordinal t c e :
  try_from_record record ordinal t c = Some e ->
  record_origins record !! ordinal = Some (event_origin e) /\ ev_transient_sequence e = t /\
  run_event_body_from_record (rec_body record) ordinal = Some (ev_body e).
Proof.
  unfold try_from_record. intros H. apply bind_Some in H as (k & _ & H). apply bind_Some in H as (id & Hid & H).
  apply bind_Some in H as (body & Hbody & H). destruct (_ <>?? _); [done|].
  apply bind_Some in H as (run & Hrun & H). cbv zeta in H. do 2 (destruct (_ && _) in H; [done|]).
  unfold RunEvent_try_new in H. destruct (_ && _) in H; [|done]. injection H as <-.
  unfold record_origins, event_origin. cbn. rewrite list_lookup_fmap, Hid, Hrun. done.
Qed.

(** [events] carry the transient sequences [t], [t + 1], ... *)
Definition numbered (t : Z) (events : list RunEvent) : Prop :=
  forall i e, events !! i = Some e -> ev_transient_sequence e = t + Z.of_nat i.

Lemma derive_event_spec t c record events ordinal events' :
  derive_event t c record events ordinal = Ok events' -> numbered t events ->
  numbered t events' /\ exists e, events' = events ++ [e] /\ record_origins record !! ordinal = Some (event_origin e).
Proof.
  unfold derive_event. intros H Hn. do 2 step H. injection H as <-. apply ok_or_Ok in E, E0.
  apply try_from_record_origin in E0 as (Ho & Ht & _).
  unfold u64_checked_add, u64_of_usize in E. apply in_range_Some in E as [-> _]. split; [|by eexists].
  intros i e [Hi|[Hi1 Hi2]]%lookup_app_Some; [by apply Hn|].
  apply list_lookup_singleton_Some in Hi2 as [Hz <-]. rewrite Ht. lia.
Qed.

Lemma derive_record_events_spec t record c n start events events' :
  rfold (derive_event t c record) events (seq start n) = Ok events' ->
  (start + n <= length (rec_derived_event_ids record))%nat -> numbered t events ->
  numbered t events' /\ event_origin <$> events' = (event_origin <$> events) ++ take n (drop start (record_origins record)).
Proof.
  revert start events. induction n as [|n IH]; intros start events HH Hlen Hn; simpl in HH.
  - injection HH as <-. by rewrite take_0, app_nil_r.
  - step HH. destruct (derive_event_spec _ _ _ _ _ _ E Hn) as (Hn' & e & -> & He).
    destruct (IH (S start) _ HH ltac:(lia) Hn') as [Hn'' ->]. split; [done|].
    rewrite fmap_app, <- app_assoc. f_equal. simpl. by rewrite (drop_S _ _ _ He).
Qed.

(** The events of a batch are the derived ids of its records, in order, each
    with the sequence, the timestamp and the run of its record. *)
Lemma derive_events_spec t entries events :
  derive_events t entries = Ok events ->
  numbered t events /\ event_origin <$> events = (entries.*1 ≫= record_origins).
Proof.
  unfold derive_events.
  enough (forall acc, rfold (derive_record_events t) acc entries = Ok events -> numbered t acc ->
    numbered t events /\ event_origin <$> events = (event_origin <$> acc) ++ (entries.*1 ≫= record_origins)) as Hall.
  { intros HH. apply (Hall [] HH). intros i e Hi. done. }
  induction entries as [|[r c] entries IH]; intros acc HH Hn; simpl in HH.
  - injection HH as <-. by rewrite app_nil_r.
  - step HH. unfold derive_record_events in E. simpl in E.
    destruct (derive_record_events_spec _ _ _ _ _ _ _ E ltac:(lia) Hn) as [Hn' Ha].
    destruct (IH _ HH Hn') as [Hn'' ->]. split; [done|]. rewrite Ha, <- app_assoc. f_equal.
    rewrite fmap_cons, bind_cons. f_equal. rewrite drop_0. apply take_ge.
    unfold record_origins. rewrite length_fmap. done.
Qed.

Section Correlations.
Context `{Hasher, Serde}.

(** The loop collects one entry of correlations per record. *)
Lemma semantic_correlations s records s' c :
  apply_semantic_records s records = Ok (s', c) -> length c = length records.
Proof.
  unfold apply_semantic_records. intros HH. step HH. injection HH as _ <-.
  enough (forall acc acc', rfold semantic_step acc (with_next records) = Ok acc' ->
    length acc'.2 = (length acc.2 + length records)%nat) as Hall by (by apply Hall in E).
  clear. induction records as [|r records IH]; intros [s1 cs] acc' HH; simpl in HH; [injection HH as <-; simpl; lia|].
  step HH. step E. injection E as <-. apply IH in HH. rewrite HH. simpl. rewrite length_app. simpl. lia.
Qed.
End Correlations.

(** Event ids are the derived ids of the records. *)
Lemma event_ids_of_origins events records :
  event_origin <$> events = (records ≫= record_origins) ->
  ev_event_id <$> events = (records ≫= rec_derived_event_ids).
Proof.
  intros He. apply (f_equal (fmap (fun o => o.1.1.1.1))) in He. rewrite <- list_fmap_compose in He.
  etrans; [exact He|]. clear. induction records as [|r records IH]; [done|].
  rewrite !bind_cons, fmap_app, IH. f_equal. unfold record_origins. rewrite <- list_fmap_compose. apply list_fmap_id.
Qed.

(** * From a decision to its committed batch

    The records a decision proposes, once committed by the store, form a batch
    that passes the envelope checks of [apply]: its range, its sequences and its
    identities. *)

(** ** What a reachable kernel knows about its run *)

(** The parts of the run's identity are set together. *)
Record identity_ok (s : KernelState) : Prop := {
  io_session : is_some (k_session_id s) = is_some (k_accepted s);
  io_lane : is_some (k_lane_id s) = is_some (k_accepted s);
  io_accepted_at : is_some (k_accepted_at s) = is_some (k_accepted s)
}.

Section Identity.
Context `{Hasher, Serde}.

Lemma identity_same_run s s' : same_run s s' -> identity_ok s -> identity_ok s'.
Proof. intros [] []. split; congruence. Qed.

Lemma record_identity_ok s record next s' : identity_ok s -> apply_record s record next = Ok s' -> identity_ok s'.
Proof.
  intros Hok HH. destruct (is_accept (rec_body record)) eqn:Ha; [|by eapply identity_same_run; [eapply record_same_run|]].
  apply apply_record_cases in HH as [->|[u HH]]; [done|]. unfold apply_body in HH.
  destruct (rec_body record); try discriminate. injection HH as <-. by split.
Qed.

Lemma reachable_identity s : reachable s -> identity_ok s.
Proof.
  induction 1 as [|s b t s' ev Hr IH HH|s n s' Hr IH HH]; [done| |by apply adopt_form in HH as [-> _]; destruct IH].
  apply apply_step in HH as [c [_ _ _ _ _ _ _ _ _ HH _]]. unfold apply_semantic_records in HH. step HH.
  injection HH as <- _. eapply identity_same_run; [apply same_run_before_run|].
  revert E. apply records_ind; [by intros s1 n []|intros s1 record next s2 _; apply record_identity_ok|done].
Qed.

Lemma reachable_sequence s : reachable s -> 0 <= k_last_applied_sequence s.
Proof.
  induction 1 as [|s b t s' ev Hr IH HH|s n s' Hr IH HH]; [done| |].
  - apply apply_sequence in HH as (-> & _). lia.
  - apply adopt_form in HH as [-> Hle]. cbn. lia.
Qed.
End Identity.

(** ** Envelope checks *)

Lemma insert_all_fresh ids : forall seen, NoDup ids -> (forall e, e ∈ ids -> e ∉ seen) ->
  insert_all ids seen = Some (list_to_set ids ∪ seen).
Proof.
  induction ids as [|e ids IH]; intros seen Hnd Hfresh; cbn [insert_all list_to_set]; [f_equal; set_solver|].
  apply NoDup_cons in Hnd as [Hn Hnd]. rewrite bool_decide_eq_false_2 by (apply Hfresh; set_solver).
  rewrite IH; [f_equal; set_solver|done|]. intros x Hx. specialize (Hfresh x). set_solver.
Qed.

(** A record of the run in scope, made at [t]. *)
Record record_in (sid : SessionId) (lane : LaneId) (run : RunId) (t : Timestamp) (r : RecordEnvelope) : Prop := {
  ri_session : rec_session_id r = sid;
  ri_lane : rec_lane_id r = lane;
  ri_run : rec_run_id r = Some run;
  ri_timestamp : rec_timestamp r = t;
  ri_kind_version : rec_kind_version r = RECORD_KIND_VERSION;
  ri_events : length (rec_derived_event_ids r) = derived_event_count (rec_body r);
  ri_plain : is_structural (rec_body r) = false
}.

(** The run in scope is the one the state follows, if it follows one. *)
Definition follows (s : KernelState) (sid : SessionId) (lane : LaneId) (run : RunId) : Prop :=
  k_session_id s = None /\ k_accepted s = None \/ in_scope s sid lane run.

Lemma identity_step_in s sid lane run t seen r :
  follows s sid lane run -> record_in sid lane run t r -> rec_record_id r ∉ seen_records seen ->
  NoDup (rec_derived_event_ids r) -> (forall e, e ∈ rec_derived_event_ids r -> e ∉ seen_events seen) ->
  identity_step s t seen r =
    Ok (mkSeenIds ({[ rec_record_id r ]} ∪ seen_records seen) (list_to_set (rec_derived_event_ids r) ∪ seen_events seen)).
Proof.
  intros Hf [Hs Hl Hr Ht _ _ _] Hid Hnd Hev. unfold identity_step. cbv zeta.
  rewrite bool_decide_eq_false_2 by done. cbn [reject_if rbind]. rewrite insert_all_fresh by done. cbn [ok_or rbind].
  rewrite Ht, Z.eqb_refl. cbn [negb reject_if rbind]. rewrite Hs, Hl, Hr.
  destruct Hf as [[-> ->]|(-> & -> & Hrun)]; cbn [is_some_and].
  - destruct (k_lane_id s); cbn [reject_if rbind]; rewrite andb_false_r; done.
  - rewrite eqb_refl. cbn [negb reject_if rbind]. destruct (k_accepted s) as [a|]; [|done]. cbn in Hrun. injection Hrun as ->.
    rewrite !eqb_refl. cbn [negb orb]. rewrite andb_false_r. done.
Qed.

Lemma identities_fresh s sid lane run t records : forall seen,
  follows s sid lane run -> Forall (record_in sid lane run t) records ->
  NoDup (rec_record_id <$> records) -> (forall i, i ∈ rec_record_id <$> records -> i ∉ seen_records seen) ->
  NoDup (records ≫= rec_derived_event_ids) -> (forall e, e ∈ (records ≫= rec_derived_event_ids) -> e ∉ seen_events seen) ->
  exists out, rfold (identity_step s t) seen records = Ok out.
Proof.
  induction records as [|r records IH]; intros seen Hf Hall Hni Hi Hne He; cbn [rfold]; [by eexists|].
  apply Forall_cons in Hall as [Hr Hall]. cbn [fmap list_fmap mbind list_bind] in *. apply NoDup_cons in Hni as [Hn Hni].
  apply NoDup_app in Hne as (Hne1 & Hdis & Hne2).
  rewrite (identity_step_in s sid lane run); [|done|done|apply Hi; set_solver|done|intros e Hin; apply He; set_solver]. cbn [rbind].
  apply IH; [done|done|done| |done|]; cbn [seen_records seen_events].
  - intros i Hin. specialize (Hi i). set_solver.
  - intros e Hin. specialize (He e). specialize (Hdis e). set_solver.
Qed.

Lemma check_sequences b l : forall start,
  (forall i r, l !! i = Some r -> rec_sequence r = cb_first_sequence b + Z.of_nat (start + i)) ->
  0 <= cb_first_sequence b -> cb_first_sequence b + Z.of_nat (start + length l) - 1 <= u64_max ->
  rfold (check_sequence b) tt (zip (seq start (length l)) l) = Ok tt.
Proof.
  induction l as [|r l IH]; intros start Hs H0 Hmax; cbn [length seq zip zip_with rfold]; [done|]. cbn [length] in Hmax.
  unfold check_sequence at 1. cbn [fst snd].
  assert (u64_checked_add (cb_first_sequence b) (u64_of_usize start) = Some (cb_first_sequence b + Z.of_nat start)) as ->
    by machine.
  cbn [ok_or rbind]. rewrite (Hs 0%nat r eq_refl), Nat.add_0_r, Z.eqb_refl. cbn [negb reject_if rbind].
  apply IH; [|done|lia]. intros i r' Hi. rewrite (Hs (S i) r' Hi). do 2 f_equal. lia.
Qed.

(** ** The committed batch *)

Section Commits.
Context `{HalfLaws, Hasher, Serde, Wire}.

(** The batch the store reports for committed records. *)
Definition batch_of (id : AppendBatchId) (first : Z) (records : list RecordEnvelope) : CommittedBatch :=
  mkCommittedBatch id first (first + Z.of_nat (length records) - 1) records.

Lemma linked_sequences previous first rs head : linked previous first rs head ->
  forall i r, rs !! i = Some r -> rec_sequence r = first + Z.of_nat i.
Proof.
  induction 1 as [|previous first r rs head Hv Hp Hs Hl IH]; intros i x Hi; [done|].
  destruct i as [|i]; cbn in Hi; [injection Hi as <-; lia|]. rewrite (IH i x Hi). lia.
Qed.

Lemma draft_records sid lane run env rs : Forall (draft_in sid lane run env) (draft_of <$> rs) ->
  Forall (record_in sid lane run (env_now env)) rs.
Proof. rewrite Forall_fmap. intros Hall. eapply Forall_impl; [exact Hall|]. intros r [? ? ? ? [_ ?] ? ?]. by split. Qed.

(** Committing a proposal yields its bodies in a batch that passes the envelope
    checks. *)
Lemma commit_proposal s env sid lane run bodies d previous at_ rs id :
  drafted s env sid lane run bodies d -> bodies <> [] -> follows s sid lane run -> 0 <= k_last_applied_sequence s ->
  NoDup (ids_record_ids (env_ids env)) -> NoDup (ids_event_ids (env_ids env)) ->
  commit_records (dec_records d) (dec_expected_sequence d) previous at_ = Ok rs ->
  let b := batch_of id (dec_expected_sequence d) rs in
  rec_body <$> rs = bodies /\ Forall (record_in sid lane run (env_now env)) rs /\
  validate_batch_range s b = Ok tt /\ validate_record_sequences b = Ok tt /\ validate_identities s rs = Ok tt.
Proof.
  intros [Hseq Hfits Hbodies Hdrafts Hrecs Hevs _] Hne Hfol Hpos Hnr Hnv (Hd & Hlen & [hd Hl] & Hmax)%commit_records_spec b.
  unfold b. clear b. rewrite Hseq in *. rewrite <- Hd in Hbodies, Hdrafts, Hrecs, Hevs, Hlen, Hmax. apply draft_records in Hdrafts. rewrite length_fmap in Hlen, Hmax.
  rewrite <- list_fmap_compose in Hbodies, Hrecs. change (rec_body <$> rs = bodies) in Hbodies.
  change (rec_record_id <$> rs = ids_record_ids (env_ids env)) in Hrecs.
  assert (rs ≫= rec_derived_event_ids = ids_event_ids (env_ids env)) as Hevents.
  { rewrite <- Hevs. clear. induction rs as [|r rs IH]; [done|]. cbn. by rewrite IH. }
  assert (rs <> []) as Hrs by (intros ->; by subst bodies). assert (length rs <> 0%nat) as Hlen0 by (by destruct rs).
  specialize (Hmax ltac:(by destruct rs)). split_and!; [done|done| | |].
  - unfold validate_batch_range, batch_of. cbn [cb_records cb_first_sequence cb_last_sequence].
    rewrite (proj2 (Nat.ltb_ge _ _)) by lia. cbn [reject_if rbind]. rewrite (proj2 (Nat.eqb_neq _ _)) by done. cbn [reject_if rbind].
    assert (u64_checked_add (k_last_applied_sequence s) 1 = Some (k_last_applied_sequence s + 1)) as -> by machine. cbn [ok_or rbind].
    assert (u64_checked_sub (u64_of_usize (length rs)) 1 = Some (Z.of_nat (length rs) - 1)) as ->.
    { unfold APPEND_BATCH_MAX_RECORDS in Hlen. machine. }
    cbn [ok_or rbind].
    assert (u64_checked_add (k_last_applied_sequence s + 1) (Z.of_nat (length rs) - 1) = Some (k_last_applied_sequence s + Z.of_nat (length rs))) as ->.
    { machine. }
    cbn [ok_or rbind]. rewrite Z.eqb_refl. cbn [negb orb].
    rewrite (proj2 (Z.eqb_eq _ _)) by lia. done.
  - unfold validate_record_sequences, enumerate. apply check_sequences; cbn; [|lia|lia].
    intros i r Hi. rewrite (linked_sequences _ _ _ _ Hl i r Hi). lia.
  - unfold validate_identities. destruct rs as [|r rs']; [done|]. cbn [head fmap option_fmap option_map ok_or rbind].
    pose proof Hdrafts as [[_ _ _ -> _ _ _] _]%Forall_cons.
    destruct (identities_fresh s sid lane run (env_now env) (r :: rs') (mkSeenIds ∅ ∅)) as [out ->]; try done.
    + by rewrite Hrecs.
    + by rewrite Hevents.
Qed.
End Commits.
