(* ===== verification/ValidateSound.v ===== *)
(** * What a validated state guarantees

    A state that passes the full check has the invariants replay maintains for
    its tool batch and its end, so a kernel restored from it continues like one
    that replayed the journal; its collections are bounded and its cancellation
    classifies every effect once.  And a run that a limit ends while a tool batch
    is active is left in a state that does not pass the check. *)

From S2P Require Import Prelude Primitives Effects Records State Inputs ToolBatch Digests Policy ApplyStage ApplyTools ApplyEffects ApplyRecord Shapes Apply Decide DecideLimit DecideTools DecideControl Validate BatchOrder PhaseMachine PhaseBatch Reach.

Section Validated.
Context `{Hasher}.

(** ** The parts of the check *)

Record validated (s : KernelState) : Prop := {
  va_ceilings : validate_collection_ceilings s = Ok tt;
  va_version : validate_state_version s = Ok tt;
  va_interaction : validate_pending_interaction s = Ok tt;
  va_terminal : terminal_phase_matches (k_terminal s) (k_phase s) = true;
  va_tools : has_tool_state s = true -> validate_tool_state s = Ok tt;
  va_control : 3 <= k_state_version s -> validate_control_state s = Ok tt
}.

Lemma from_version_Ok s v r : from_version s v r = Ok tt -> v <= k_state_version s -> r = Ok tt.
Proof. unfold from_version. intros HH Hv. by rewrite (proj2 (Z.leb_le _ _) Hv) in HH. Qed.

Lemma version_of_tools s : validate_state_version s = Ok tt -> has_tool_state s = true -> 2 <= k_state_version s.
Proof.
  unfold validate_state_version. cbv zeta. intros HH%reject_if_Ok Ht. rewrite Ht in HH. lia.
Qed.

Lemma version_of_control s : validate_state_version s = Ok tt -> has_control_state s = true -> 3 <= k_state_version s.
Proof.
  unfold validate_state_version. cbv zeta. intros HH%reject_if_Ok Ht. rewrite Ht in HH. lia.
Qed.

Lemma validate_parts s : validate s = Ok tt -> validated s.
Proof.
  unfold validate. intros HH. do 8 (apply (proj1 (rbind_Ok _ _ _)) in HH as ([] & ? & HH)).
  match goal with E : validate_terminal_phase s = _ |- _ => unfold validate_terminal_phase in E; apply reject_if_Ok, negb_false_iff in E end.
  split; [done..| |].
  - intros Ht. match goal with E : (if has_tool_state s then _ else _) = _ |- _ => rewrite Ht in E; eapply from_version_Ok; [exact E|] end.
    by apply version_of_tools.
  - intros Hv. by eapply from_version_Ok.
Qed.

(** ** The tool batch *)

(** What the check of one call establishes. *)
Record call_valid (b : ActiveToolBatch) (finalized i : nat) (c : ActiveToolCall) (a : AssignedToolCall) : Prop := {
  cv_assigned : atc_assigned c = a;
  cv_source : asg_source_index a = Z.of_nat i;
  cv_group : expected_group_index b i a = Some (asg_group_index a);
  cv_settled : is_settled (atc_status c) = true <-> (i < finalized)%nat;
  cv_flight : is_requested (atc_status c) = true -> asg_group_index a = atb_current_group b;
  cv_waiting : is_undispatched (atc_status c) = true -> atb_current_group b < asg_group_index a;
  cv_result : forall m, settled_message c = Some m -> atb_result_message_ids b !! i = Some m
}.

Lemma status_valid s b i c finalized r :
  validate_active_call_status s b i c finalized = Some r ->
  (is_requested (atc_status c) = true -> asg_group_index (atc_assigned c) = atb_current_group b) /\
  (is_undispatched (atc_status c) = true -> atb_current_group b < asg_group_index (atc_assigned c)) /\
  (forall m, settled_message c = Some m -> atb_result_message_ids b !! i = Some m).
Proof.
  unfold validate_active_call_status, settled_message. cbv zeta.
  destruct (asg_plan (atc_assigned c)) as [plan|closure], (atc_status c) as [|requested deferred|res digest synthetic error|m digest];
    intros HH; try discriminate HH; cbn [is_requested is_undispatched];
    (match type of HH with (if ?b then _ else _) = _ => destruct b eqn:E; [discriminate HH|] end); crush_ok;
    split_and!; try done; intros; crush_ok; simplify_eq; first [done|lia].
Qed.

Lemma call_validated s b finalized i c a r :
  validate_active_tool_call s b finalized (i, (c, a)) = Some r -> call_valid b finalized i c a.
Proof.
  unfold validate_active_tool_call. cbv zeta. intros HH.
  destruct ((atc_assigned c <>?? a) || _) eqn:E1; [done|]. crush_ok. subst a.
  destruct (expected_group_index b i (atc_assigned c)) as [g|] eqn:Eg; [|done]. cbn [mbind option_bind] in HH.
  destruct (negb (asg_group_index (atc_assigned c) =? g)) eqn:E2; [done|]. apply negb_false_iff, Z.eqb_eq in E2. subst g.
  destruct (k_tool_calls s !! _) as [identity|]; [|done]. cbn [mbind option_bind] in HH.
  match type of HH with (if ?b then _ else _) = _ => destruct b; [done|] end.
  destruct (validate_active_call_status s b i c finalized) as [r'|] eqn:Es; [|done]. cbn [mbind option_bind] in HH.
  match type of HH with (if ?b then _ else _) = _ => destruct b eqn:E3; [done|] end.
  apply orb_false_iff in E3 as [E3 E4]. apply status_valid in Es as (Hf & Hw & Hr).
  split; try done.
  - match goal with E : negb (_ =? _) = false |- _ => apply negb_false_iff, Z.eqb_eq in E; exact E end.
  - destruct (is_settled (atc_status c)), (Nat.ltb_spec i finalized), (Nat.leb_spec finalized i); cbn in E3, E4; naive_solver lia.
Qed.

Lemma calls_fold s b finalized entries : forall st r,
  foldl (validate_call_step s b finalized) st entries = Some r ->
  is_some st = true /\ forall e, e ∈ entries -> exists x, validate_active_tool_call s b finalized e = Some x.
Proof.
  induction entries as [|e entries IH]; cbn [foldl]; intros st r HH.
  { subst st. split; [done|]. intros e Hin. by apply not_elem_of_nil in Hin. }
  apply IH in HH as [Hst Hall]. unfold validate_call_step in Hst. destruct st as [h|]; [|done]. cbn [mbind option_bind] in Hst.
  destruct (validate_active_tool_call s b finalized e) as [x|] eqn:Ee; [|done]. split; [done|].
  intros e' [->|Hin]%elem_of_cons; [by exists x|by apply Hall].
Qed.

Lemma batch_calls_valid s b : validate_active_tool_batch s b = true ->
  length (atb_calls b) = length (tbo_calls (atb_opened b)) /\
  length (atb_result_message_ids b) = Z.to_nat (atb_next_source_index b) /\
  (Z.to_nat (atb_next_source_index b) <= length (atb_calls b))%nat /\
  forall i c a, atb_calls b !! i = Some c -> tbo_calls (atb_opened b) !! i = Some a ->
    call_valid b (Z.to_nat (atb_next_source_index b)) i c a.
Proof.
  unfold validate_active_tool_batch. intros [[Hh _]%andb_true_iff Hc]%andb_true_iff.
  unfold validate_active_batch_header in Hh. cbv zeta in Hh. apply negb_true_iff in Hh. crush_ok.
  repeat match goal with E : negb (_ =? _)%nat = false |- _ => apply negb_false_iff, Nat.eqb_eq in E end.
  match goal with E : (_ <? _)%nat = false |- _ => apply Nat.ltb_ge in E end.
  split_and!; [done|done|done|]. intros i c a Hi Ha.
  destruct (foldl _ _ _) as [r|] eqn:Ef; [|done]. apply calls_fold in Ef as [_ Hall].
  destruct (Hall (i, (c, a))) as [x Hx]; [|by eapply call_validated].
  unfold enumerate. apply (list_elem_of_lookup_2 _ i). rewrite lookup_zip_with, lookup_seq_lt, lookup_zip_with.
  - cbn. by rewrite Hi, Ha.
  - rewrite length_zip_with. apply lookup_lt_Some in Hi, Ha. lia.
Qed.

Lemma validated_group_after b i p a g :
  tbo_calls (atb_opened b) !! i = Some p -> expected_group_index b (S i) a = Some g -> g = group_after p a.
Proof.
  unfold expected_group_index, group_after. intros ->. cbn [mbind option_bind].
  destruct (_ && _); [by intros [= <-]|]. machine.
Qed.

(** The results are those of the settled prefix. *)
Lemma settled_prefix_results (calls : list ActiveToolCall) : forall (ids : list MessageId) n,
  length ids = n -> (n <= length calls)%nat ->
  (forall i c, calls !! i = Some c -> is_settled (atc_status c) = true <-> (i < n)%nat) ->
  (forall i c m, calls !! i = Some c -> settled_message c = Some m -> ids !! i = Some m) ->
  ids = omap settled_message calls.
Proof.
  induction calls as [|c calls IH]; intros ids n Hlen Hn Hs Hm.
  { cbn in Hn. by destruct ids; [|cbn in Hlen; lia]. }
  assert (forall i c', calls !! i = Some c' -> is_settled (atc_status c') = true <-> (S i < n)%nat) as Hs' by (intros i; apply (Hs (S i))).
  pose proof (Hs 0%nat c eq_refl) as Hc. pose proof (Hm 0%nat c) as Hm0.
  unfold settled_message in *. cbn [omap list_omap] in *. destruct (atc_status c) as [| | |m digest] eqn:Est; cbn [is_settled] in Hc.
  1-3: assert (n = 0%nat) as -> by (destruct n; [done|]; destruct Hc as [_ Hc]; discriminate Hc; lia);
    apply (IH _ 0%nat); [done|lia|intros i c' Hi; rewrite (Hs' i c' Hi); lia|];
    intros i c' m Hi Hset; exfalso; pose proof (Hs' i c' Hi); destruct (atc_status c'); try discriminate Hset; cbn in *; naive_solver lia.
  specialize (Hm0 m eq_refl eq_refl). destruct ids as [|id ids]; [done|]. injection Hm0 as ->. f_equal.
  destruct n as [|n]; [destruct Hc as [Hc _]; specialize (Hc eq_refl); lia|]. cbn in Hlen, Hn.
  apply (IH ids n); [lia|lia|intros i c' Hi; rewrite (Hs' i c' Hi); lia|]. intros i c' m' Hi. apply (Hm (S i) c' m' Hi).
Qed.

Lemma validated_batch s b : validated s -> k_active_tool_batch s = Some b -> indexed b -> 0 <= atb_next_source_index b ->
  batch_inv b.
Proof.
  intros Hv Hb Hix Hnext.
  assert (has_tool_state s = true) as Ht by (unfold has_tool_state; by rewrite Hb).
  pose proof (va_tools s Hv Ht) as Htools. unfold validate_tool_state in Htools. cbv zeta in Htools. rewrite Hb in Htools.
  do 4 (apply (proj1 (rbind_Ok _ _ _)) in Htools as (? & ? & Htools)).
  match goal with E : reject_if (negb (validate_active_tool_batch s b)) _ = Ok _ |- _ =>
    apply reject_if_Ok, negb_false_iff, batch_calls_valid in E as (Hlen & Hids & Hle & Hcalls) end.
  assert (forall i c, atb_calls b !! i = Some c -> exists a, tbo_calls (atb_opened b) !! i = Some a /\
            call_valid b (Z.to_nat (atb_next_source_index b)) i c a) as Hall.
  { intros i c Hi. destruct (lookup_lt_is_Some_2 (tbo_calls (atb_opened b)) i) as [a Ha];
      [apply lookup_lt_Some in Hi; lia|]. exists a. split; [done|by apply Hcalls]. }
  split; [done| | |done| | | |].
  - apply list_eq. intros i. rewrite list_lookup_fmap. destruct (atb_calls b !! i) as [c|] eqn:Hi.
    + destruct (Hall i c Hi) as (a & -> & [Ha _ _ _ _ _ _]). cbn. by rewrite Ha.
    + symmetry. apply lookup_ge_None. apply lookup_ge_None in Hi. lia.
  - assert (forall i a, tbo_calls (atb_opened b) !! i = Some a -> exists c, call_valid b (Z.to_nat (atb_next_source_index b)) i c a) as Hopen.
    { intros i a Ha. destruct (lookup_lt_is_Some_2 (atb_calls b) i) as [c Hc]; [apply lookup_lt_Some in Ha; lia|]. exists c. by apply Hcalls. }
    split.
    + intros i a Ha. destruct (Hopen i a Ha) as [c []]. done.
    + intros a Ha. destruct (Hopen 0%nat a Ha) as [c [_ _ Hg _ _ _ _]]. by injection Hg.
    + intros i p a Hp Ha. destruct (Hopen (S i) a Ha) as [c [_ _ Hg _ _ _ _]]. by eapply validated_group_after.
  - intros i c Hi. destruct (Hall i c Hi) as (a & _ & []). done.
  - eapply settled_prefix_results; [exact Hids|done| |].
    + intros i c Hi. destruct (Hall i c Hi) as (a & _ & []). done.
    + intros i c m Hi Hm. destruct (Hall i c Hi) as (a & _ & []). auto.
  - intros c [i Hi]%list_elem_of_lookup Hr. destruct (Hall i c Hi) as (a & _ & [-> _ _ _ ? _ _]). auto.
  - intros c [i Hi]%list_elem_of_lookup Hg. destruct (Hall i c Hi) as (a & _ & [Ha _ _ _ Hf Hw _]). rewrite Ha in Hg.
    unfold is_done. destruct (atc_status c); cbn in *; [specialize (Hw eq_refl); lia|specialize (Hf eq_refl); lia|done|done].
Qed.

(** ** The end of the run *)

Lemma validated_terminal s : validated s -> terminal_matches (k_terminal s) (k_phase s).
Proof.
  intros [_ _ _ Ht _ _]. unfold terminal_phase_matches in Ht. unfold terminal_matches.
  destruct (k_terminal s) as [[]|], (k_phase s) as [[]|]; try done; by apply negb_true_iff.
Qed.

(** ** Cancellation *)

Lemma NoDup_of_size (l : list EffectId) : size (list_to_set l : gset EffectId) = length l -> NoDup l.
Proof.
  induction l as [|e l IH]; [constructor|]. cbn [list_to_set length].
  destruct (decide (e ∈ l)) as [Hin|Hout].
  - replace ({[e]} ∪ list_to_set l : gset EffectId) with (list_to_set l : gset EffectId) by set_solver.
    intros Hs. exfalso. assert (forall l' : list EffectId, (size (list_to_set l' : gset EffectId) <= length l')%nat) as Hle.
    { clear. induction l' as [|x l' IH]; [done|]. cbn [list_to_set length]. rewrite size_union_alt, size_singleton.
      etrans; [|apply le_n_S, IH]. apply le_n_S, subseteq_size. set_solver. }
    specialize (Hle l). lia.
  - intros Hs. rewrite size_union in Hs by set_solver. rewrite size_singleton in Hs. constructor; [done|]. apply IH. lia.
Qed.

Lemma validated_cancellation s c : validated s -> k_cancellation s = Some c ->
  NoDup (cs_completed_effects c ++ cs_cancelled_effects c ++ cs_uncertain_effects c) /\
  forall e, e ∈ cs_outstanding_effects c ->
    e ∉ cs_completed_effects c ++ cs_cancelled_effects c ++ cs_uncertain_effects c.
Proof.
  intros Hv Hc. assert (has_control_state s = true) as Hh by (unfold has_control_state; by rewrite Hc).
  pose proof (va_control s Hv (version_of_control s (va_version s Hv) Hh)) as HH.
  unfold validate_control_state in HH. do 3 step HH. rewrite Hc in HH. unfold validate_cancellation_effect_sets in HH. step HH.
  apply reject_if_Ok, orb_false_iff in HH as [Hsize Hout]. apply negb_false_iff, Nat.eqb_eq in Hsize. split.
  - by apply NoDup_of_size.
  - intros e He Hin. rewrite existsb_false in Hout. specialize (Hout e). apply Hout in He. apply bool_decide_eq_false in He.
    by rewrite elem_of_list_to_set in He.
Qed.

(** ** Bounds *)

Lemma check_ceilings entries : rfold check_ceiling tt entries = Ok tt -> Forall (fun e : string * nat => (e.2 <= SEMANTIC_MAP_MAX_ENTRIES)%nat) entries.
Proof.
  induction entries as [|e entries IH]; cbn [rfold]; [constructor|]. intros HH. apply (proj1 (rbind_Ok _ _ _)) in HH as ([] & E & HH).
  constructor; [|by apply IH]. unfold check_ceiling in E. apply reject_if_Ok, Nat.ltb_ge in E. done.
Qed.

(** The sizes of the collections of a state. *)
Definition collection_sizes (s : KernelState) : list nat :=
  [size (k_stage_settlements s); size (k_model_settlements s); size (k_completion_identities s); size (k_tool_calls s);
   size (k_tool_settlements s); size (rst_timer_firings (k_retry s)); size (k_child_preparations s);
   size (k_budget_reservations s); size (k_budget_charges s); size (k_resolution_identities s);
   size (k_extension_settlements s)].

Lemma validated_bounded s : validated s ->
  (length (k_messages s) <= SEMANTIC_ARRAY_MAX_ITEMS)%nat /\
  Forall (fun n => (n <= SEMANTIC_MAP_MAX_ENTRIES)%nat) (collection_sizes s).
Proof.
  intros [HH _ _ _ _ _]. unfold validate_collection_ceilings in HH. do 2 (apply (proj1 (rbind_Ok _ _ _)) in HH as ([] & ? & HH)).
  split; [match goal with E : reject_if _ _ = Ok tt |- _ => by apply reject_if_Ok, Nat.ltb_ge in E end|].
  match goal with E : rfold check_ceiling tt _ = Ok tt |- _ => apply check_ceilings in E; exact (proj2 (Forall_fmap _ _ _) E) end.
Qed.

(** ** A failed run with an active batch *)

Lemma failed_batch_invalid s b : k_active_tool_batch s = Some b -> k_phase s = Some RunPhase_Failed -> validate s <> Ok tt.
Proof.
  intros Hb Hp HH%validate_parts.
  assert (has_tool_state s = true) as Ht by (unfold has_tool_state; by rewrite Hb).
  pose proof (va_tools s HH Ht) as Htools. unfold validate_tool_state in Htools. cbv zeta in Htools. rewrite Hb in Htools.
  do 4 (apply (proj1 (rbind_Ok _ _ _)) in Htools as (? & ? & Htools)).
  match goal with E : reject_if (negb (validate_active_tool_batch s b)) _ = Ok _ |- _ => apply reject_if_Ok, negb_false_iff in E; rename E into Hv end.
  unfold validate_active_tool_batch in Hv. apply andb_true_iff in Hv as [[Hv _]%andb_true_iff _].
  unfold validate_active_batch_header in Hv. cbv zeta in Hv. rewrite Hp in Hv. apply negb_true_iff in Hv.
  rewrite andb_false_r in Hv. discriminate Hv.
Qed.
End Validated.
