(* ===== verification/Accepting.v ===== *)
(** * Decided batches are accepted

    A decision is sound when the batch committed for it can be applied to the
    state it was decided on.  This file shows it for the decisions that start a
    run, that end or suspend it because a limit is crossed, and that request its
    cancellation; and it shows where the two sides disagree: a limit crossed
    while an extension effect is pending, and a clock that went back before the
    acceptance of the run.

    The second part shows that settlements count once. *)

From S2P Require Import Prelude Primitives Ids Floats Cbor CborCodec CborDecode Serializer Effects Records State Inputs ToolBatch Digests Policy ApplyStage ApplyTools ApplyEffects ApplyRecord Shapes Events.
From S2P Require Import Apply Decide DecideLimit DecideTools DecideStage DecideSettle DecideControl Reducer Decisions Chain BatchOrder History PhaseMachine PhaseBatch Reach Journal.

(** ** Events *)

(** Bodies whose single event needs no correlation. *)
Definition plain_event (run : RunId) (body : RecordBody) : bool :=
  match body with
  | RecordBody_RunAccepted a => lineage_flag (ra_lineage_validated a) && (ra_run_id a =?? run)
  | RecordBody_RunFailed _ | RecordBody_LimitReached _ | RecordBody_RunSuspended _ => true
  | _ => false
  end.

Lemma plain_event_derived sid lane run now r t c :
  record_in sid lane run now r -> plain_event run (rec_body r) = true ->
  exists e, try_from_record r 0 t c = Some e.
Proof.
  intros [Hs Hl Hr Ht Hk He _] Hp. unfold try_from_record. rewrite Hk, Hr.
  assert (exists id, rec_derived_event_ids r !! 0%nat = Some id) as [id ->].
  { apply lookup_lt_is_Some. rewrite He. destruct (rec_body r); try discriminate Hp; cbn; lia. }
  destruct (rec_body r) eqn:Hb; try discriminate Hp; cbn [plain_event] in Hp; try (by eexists).
  apply andb_true_iff in Hp as [Hf Hrun]. cbn -[eqb]. unfold RunEvent_try_new, validate_event_correlations. rewrite Hf, Hrun. by eexists.
Qed.

Lemma derive_plain sid lane run now r t c events :
  record_in sid lane run now r -> plain_event run (rec_body r) = true ->
  0 <= t -> t + Z.of_nat (length events) <= u64_max ->
  exists e, derive_record_events t events (r, c) = Ok (events ++ [e]).
Proof.
  intros Hin Hp H0 Hmax. unfold derive_record_events. cbn [fst snd]. rewrite (ri_events _ _ _ _ _ Hin).
  assert (derived_event_count (rec_body r) = 1%nat) as -> by (destruct (rec_body r); try discriminate Hp; done).
  cbn [seq rfold]. unfold derive_event.
  assert (u64_checked_add t (u64_of_usize (length events)) = Some (t + Z.of_nat (length events))) as -> by machine.
  cbn [ok_or rbind]. destruct (plain_event_derived sid lane run now r (t + Z.of_nat (length events)) c Hin Hp) as [e ->].
  by exists e.
Qed.

(** ** The remaining checks *)

Section Accepting.
Context `{HalfLaws, Hasher, Serde, Wire}.

(** Bodies that carry no digest, settle nothing and grow nothing. *)
Definition inert (body : RecordBody) : bool :=
  match body with
  | RecordBody_RunAccepted _ | RecordBody_RunFailed _ | RecordBody_LimitReached _ | RecordBody_RunSuspended _
  | RecordBody_CancellationRequested _ => true
  | _ => false
  end.

Lemma inert_stage_digests rs : Forall (fun r => inert (rec_body r) = true) rs -> validate_stage_digests rs = Ok tt.
Proof.
  intros Hall. unfold validate_stage_digests. induction Hall as [|r rs Hr Hall IH]; cbn [with_next rfold]; [done|].
  unfold check_stage_digest at 1. cbn [fst]. by destruct (rec_body r).
Qed.

Lemma inert_tool_digests rs : Forall (fun r => inert (rec_body r) = true) rs -> validate_tool_digests rs = Ok tt.
Proof.
  intros Hall. unfold validate_tool_digests. induction Hall as [|r rs Hr Hall IH]; cbn [rfold]; [done|].
  unfold check_tool_digest at 1. by destruct (rec_body r).
Qed.

Lemma inert_model_digests s rs : Forall (fun r => inert (rec_body r) = true) rs -> validate_model_digests s rs = Ok tt.
Proof.
  intros Hall. unfold validate_model_digests. destruct (k_pending_model_effect s); [|done]. unfold bodies.
  destruct Hall as [|r rs Hr Hall]; [done|]. cbn [fmap list_fmap]. by destruct (rec_body r).
Qed.

Lemma inert_growth s rs : Forall (fun r => inert (rec_body r) = true) rs ->
  growth_check BatchGrowth_default s = Ok tt -> preflight_batch s rs = Ok tt.
Proof.
  intros Hall Hc. unfold preflight_batch.
  assert (foldl (observe s) BatchGrowth_default rs = BatchGrowth_default) as ->; [|done].
  induction Hall as [|r rs Hr Hall IH]; cbn [foldl]; [done|]. unfold observe at 2.
  assert (observed s (rec_body r) = BatchGrowth_default) as -> by (destruct (rec_body r); done || discriminate).
  change (growth_join BatchGrowth_default BatchGrowth_default) with BatchGrowth_default. exact IH.
Qed.

(** The run is neither foreign nor over. *)
Lemma scope_not_foreign s sid lane run now r : follows s sid lane run -> record_in sid lane run now r -> is_foreign_run s r = false.
Proof.
  intros Hf [_ _ Hr _ _ _ _]. unfold is_foreign_run. rewrite Hr. destruct Hf as [[_ ->]|(_ & _ & Hrun)]; [done|].
  destruct (k_accepted s) as [a|]; [|done]. cbn in Hrun. injection Hrun as ->. by rewrite eqb_refl.
Qed.

Lemma live_not_rejected s rs : live s -> reject_terminal_batch s rs = Ok tt.
Proof. intros [Ht Hp]. unfold reject_terminal_batch. rewrite Ht, Hp. by rewrite andb_false_r. Qed.

(** The clock of the run has not gone back before its acceptance. *)
Definition clock_ok (s : KernelState) (now : Timestamp) : Prop :=
  forall accepted_at, k_accepted_at s = Some accepted_at -> exists elapsed, elapsed_ms now accepted_at = Some elapsed.

Lemma wall_usage_ok s now : clock_ok s now -> exists u, update_wall_usage s now = Ok (with_limit_usage u s).
Proof.
  intros Hc. unfold update_wall_usage. destruct (k_accepted_at s) as [a|] eqn:Ha.
  - destruct (Hc a Ha) as [e He]. unfold elapsed_ms in He. rewrite He. cbn [ok_or rbind]. by eexists.
  - exists (k_limit_usage s). by rewrite with_limit_usage_id.
Qed.

(** Applying an inert record of the run: the clock, then the body. *)
Lemma apply_inert s sid lane run now r next : follows s sid lane run -> record_in sid lane run now r ->
  inert (rec_body r) = true -> clock_ok s now ->
  exists u, apply_record s r next = apply_body (with_limit_usage u s) r next.
Proof.
  intros Hf Hin Hi Hc. unfold apply_record. rewrite (ri_plain _ _ _ _ _ Hin), (scope_not_foreign _ _ _ _ _ _ Hf Hin).
  assert (is_external_rejection (rec_body r) = false) as -> by (by destruct (rec_body r)).
  rewrite (ri_timestamp _ _ _ _ _ Hin). destruct (wall_usage_ok s now Hc) as [u ->]. by exists u.
Qed.

(** ** Accepting a run *)

Lemma singleton_body (rs : list RecordEnvelope) b : rec_body <$> rs = [b] -> exists r, rs = [r] /\ rec_body r = b.
Proof. destruct rs as [|r [|]]; [done| |done]. intros [= <-]. by exists r. Qed.

Lemma apply_one s b t r s1 events :
  cb_records b = [r] -> validate_batch_range s b = Ok tt -> validate_record_sequences b = Ok tt -> live s ->
  validate_identities s [r] = Ok tt -> validate_batch_shape s [r] = Ok tt -> inert (rec_body r) = true ->
  growth_check BatchGrowth_default s = Ok tt -> apply_record s r None = Ok s1 ->
  derive_record_events t [] (r, event_correlations_for s (rec_body r)) = Ok events ->
  apply s b t = Ok (enter_before_run (with_last_applied_sequence (rec_sequence r) s1), events).
Proof.
  intros Hb Hr Hs Hl Hi Hsh Hin Hg Ha He. assert (Forall (fun r => inert (rec_body r) = true) [r]) as Hall by by repeat constructor.
  apply (apply_of_step _ _ _ _ _ [event_correlations_for s (rec_body r)]). split; rewrite ?Hb;
    auto using live_not_rejected, inert_stage_digests, inert_tool_digests, inert_model_digests, inert_growth.
  - unfold apply_semantic_records. cbn [with_next head rfold]. unfold semantic_step. cbn [fmap option_fmap option_map].
    rewrite Ha. done.
  - unfold derive_events. cbn [zip zip_with rfold]. rewrite He. done.
Qed.

Lemma accept_creation env input d s : decide_accept s env input = Ok d ->
  lineage_flag (ra_lineage_validated (ar_accepted input)) = true.
Proof.
  unfold decide_accept. cbv zeta. intros HH. repeat step HH. apply ok_or_Ok in E5. unfold RecordDraft_try_new in E5.
  destruct (_ && _) eqn:Hv in E5; [|done]. apply andb_true_iff in Hv as [_ Hv]. unfold validate_body_for_creation in Hv.
  by apply andb_true_iff in Hv as [[Hv _]%andb_true_iff _].
Qed.

Lemma reject_terminal_live s u : reject_terminal s = Ok u -> live s.
Proof. unfold reject_terminal. intros [Hp Ht]%reject_if_Ok%orb_false_iff. apply is_some_false in Ht. by split. Qed.

Lemma accept_live env input d s : decide_accept s env input = Ok d -> live s.
Proof. unfold decide_accept. cbv zeta. intros HH. step HH. by eapply reject_terminal_live. Qed.

Lemma accepted_run_applies s env input d previous at_ rs id t :
  reachable s -> k_pending_extension_effect s = None -> growth_check BatchGrowth_default s = Ok tt -> NoDup (ids_record_ids (env_ids env)) -> NoDup (ids_event_ids (env_ids env)) ->
  0 <= t < u64_max -> decide_accept s env input = Ok d ->
  commit_records (dec_records d) (dec_expected_sequence d) previous at_ = Ok rs ->
  exists s' e, apply s (batch_of id (dec_expected_sequence d) rs) t = Ok (s', [e]) /\
    k_phase s' = Some RunPhase_BeforeRun /\ k_accepted s' = Some (ar_accepted input) /\
    k_session_id s' = Some (ar_session_id input) /\ k_accepted_at s' = Some (env_now env).
Proof.
  intros Hr Hx Hg Hn1 Hn2 Ht Hd Hcommit. pose proof (accept_creation _ _ _ _ Hd) as Hlin. pose proof (accept_live _ _ _ _ Hd) as Hlive.
  apply decide_accept_drafted in Hd as (Ha & Hp & Hdr).
  pose proof (reachable_identity s Hr) as [Hsid _ Hat]. rewrite Ha in Hsid, Hat. apply is_some_false in Hsid, Hat.
  assert (follows s (ar_session_id input) (ar_lane_id input) (ra_run_id (ar_accepted input))) as Hf by by left.
  destruct (commit_proposal _ _ _ _ _ _ _ _ _ _ id Hdr ltac:(done) Hf (reachable_sequence s Hr) Hn1 Hn2 Hcommit)
    as (Hb & Hall & Hrange & Hseq & Hids).
  apply singleton_body in Hb as (r & -> & Hb). apply Forall_cons in Hall as [Hin _].
  assert (clock_ok s (env_now env)) as Hc by (intros a; by rewrite Hat).
  destruct (apply_inert s _ _ _ _ r None Hf Hin ltac:(by rewrite Hb) Hc) as [u Hap].
  destruct (derive_plain _ _ _ _ r t (event_correlations_for s (rec_body r)) [] Hin) as [e He].
  { rewrite Hb. cbn. by rewrite Hlin, eqb_refl. }
  { lia. } { cbn. lia. }
  assert (validate_batch_shape s [r] = Ok tt) as Hshape.
  { unfold validate_batch_shape, composition_record_shape, structural_record_shape, foreign_run_shape, bodies.
    cbn [fmap list_fmap length Nat.eqb negb andb forallb]. rewrite Hb, Ha. cbn [is_structural is_some andb orb].
    rewrite Hx. cbn [is_some andb]. unfold phase_shape. rewrite Hp, Hb. rewrite (ri_run _ _ _ _ _ Hin), eqb_refl. done. }
  eexists _, e. split.
  - eapply apply_one; [reflexivity|done|done|done|done|done|by rewrite Hb|done| |exact He].
    rewrite Hap. unfold apply_body. rewrite Hb. reflexivity.
  - unfold enter_before_run. cbn. destruct Hin as [-> _ _ -> _ _ _]. done.
Qed.

(** ** Requesting cancellation *)

Lemma outstanding_usage u s : outstanding_requested_effects (with_limit_usage u s) = outstanding_requested_effects s.
Proof. reflexivity. Qed.

(** What a cancellation that is not a repetition proposes. *)
Lemma decide_cancel_proposes s env input d : decide_cancel s env input = Ok d -> dec_records d <> [] ->
  live s /\ k_cancellation s = None /\ is_some (k_accepted s) = true /\
  exists request, cr_initiator request = crq_initiator input /\ cr_reason request = crq_reason input /\
    proposes s env [RecordBody_CancellationRequested (mkCancellationRequested request)] d /\
    dec_actions d = PostCommitAction_CancelEffect <$> outstanding_requested_effects s.
Proof.
  unfold decide_cancel. intros HH Hne. step HH. apply reject_terminal_live in E. step HH.
  { step HH. exfalso. unfold duplicate_decision in HH. repeat step HH; subst; by apply Hne. }
  repeat step HH. apply ok_or_Ok in E1. rewrite E1. split_and!; [done..|]. apply ok_or_Ok in E5.
  unfold CancellationRequest_try_new in E5. apply bind_Some in E5 as (reason & Hr & [= <-]).
  unfold optional_label in Hr. destruct (is_none_or _ _); [|done]. injection Hr as <-.
  exists (mkCancellationRequest a3 (crq_initiator input) (crq_reason input)). split_and!; [reflexivity|reflexivity| |].
  - eapply decision_for_proposes; [exact E3| | |exact HH]; reflexivity.
  - unfold decision_for in HH. by repeat step HH; subst.
Qed.

Lemma phase_of_accepted s : reachable s -> is_some (k_accepted s) = true -> exists p, k_phase s = Some p.
Proof.
  intros [[_ _ Hc] _ _]%reachable_ok Ha. destruct (k_phase s) as [p|]; [by exists p|]. by rewrite (Hc eq_refl) in Ha.
Qed.

Lemma cancellation_accepted s r requested : live s -> is_some (k_accepted s) = true -> k_cancellation s = None ->
  is_foreign_run s r = false -> rec_body r = RecordBody_CancellationRequested requested ->
  validate_batch_shape s [r] = Ok tt.
Proof.
  intros [_ Hp] Ha Hc Hf Hb. unfold validate_batch_shape, cancellation_shape, composition_record_shape, structural_record_shape,
    foreign_run_shape, external_rejection_shape, bodies. cbn [fmap list_fmap length Nat.eqb negb andb forallb]. rewrite Hb, Hf, Ha, Hc.
  cbn [is_structural is_none is_some andb orb negb]. destruct (is_some (k_pending_extension_effect s) && _).
  - by rewrite orb_true_r.
  - destruct (phase_shape s [r]) as [valid|] eqn:Hps; [by rewrite orb_true_r|]. unfold phase_shape in Hps.
    by destruct (k_phase s) as [[]|].
Qed.

Lemma cancellation_applies s env input d previous at_ rs id t :
  reachable s -> clock_ok s (env_now env) -> growth_check BatchGrowth_default s = Ok tt ->
  NoDup (ids_record_ids (env_ids env)) -> NoDup (ids_event_ids (env_ids env)) ->
  decide_cancel s env input = Ok d -> dec_records d <> [] ->
  commit_records (dec_records d) (dec_expected_sequence d) previous at_ = Ok rs ->
  exists s' c, apply s (batch_of id (dec_expected_sequence d) rs) t = Ok (s', []) /\
    k_phase s' = Some RunPhase_Cancelling /\ k_cancellation s' = Some c /\ k_phase s = Some (cs_prior_phase c) /\
    cr_initiator (cs_request c) = crq_initiator input /\ cr_reason (cs_request c) = crq_reason input /\
    dec_actions d = PostCommitAction_CancelEffect <$> cs_outstanding_effects c.
Proof.
  intros Hr Hc Hg Hn1 Hn2 Hd Hne Hcommit.
  apply decide_cancel_proposes in Hd as (Hlive & Hcan & Hacc & request & Hi & Hre & (sid & lane & run & Hscope & Hdr) & Hact); [|done].
  assert (follows s sid lane run) as Hf by by right.
  destruct (commit_proposal _ _ _ _ _ _ _ _ _ _ id Hdr ltac:(done) Hf (reachable_sequence s Hr) Hn1 Hn2 Hcommit)
    as (Hb & Hall & Hrange & Hseq & Hids).
  apply singleton_body in Hb as (r & -> & Hb). apply Forall_cons in Hall as [Hin _].
  destruct (phase_of_accepted s Hr Hacc) as [p Hp].
  destruct (apply_inert s _ _ _ _ r None Hf Hin ltac:(by rewrite Hb) Hc) as [u Hap].
  assert (apply_record s r None = apply_cancellation_requested (with_limit_usage u s) (mkCancellationRequested request)) as Hap'
    by (rewrite Hap; unfold apply_body; by rewrite Hb).
  unfold apply_cancellation_requested in Hap'. cbv zeta in Hap'. cbn [k_phase with_limit_usage] in Hap'.
  rewrite outstanding_usage in Hap'. replace (k_phase (with_limit_usage u s)) with (k_phase s) in Hap' by done. rewrite Hp in Hap'.
  cbn [ok_or rbind] in Hap'.
  do 2 eexists. split.
  - eapply apply_one; [reflexivity|done|done|done|done| |by rewrite Hb|done|exact Hap'|].
    + eapply cancellation_accepted; [done|done|done| |exact Hb]. by eapply scope_not_foreign.
    + unfold derive_record_events. cbn [fst snd]. rewrite (ri_events _ _ _ _ _ Hin), Hb. done.
  - split_and!; [done|reflexivity|done|done|done|done].
Qed.
(** ** Crossing a limit *)

(** The bodies of a limit decision. *)
Inductive limit_bodies (s : KernelState) : list RecordBody -> Prop :=
| lb_failed error : is_limit_failure error = true -> limit_bodies s [RecordBody_RunFailed (failure_from_state s error)]
| lb_suspended suspended : limit_bodies s [RecordBody_RunSuspended suspended]
| lb_reached reached error : LimitReached_valid reached = true -> is_limit_failure error = true ->
    limit_bodies s [RecordBody_LimitReached reached; RecordBody_RunFailed (failure_from_state s error)].

Definition limit_decided (s : KernelState) (env : TransitionEnv) (d : Decision) : Prop :=
  exists bodies, limit_bodies s bodies /\ proposes s env bodies d.

Lemma error_new_category code message category retryable e :
  error_descriptor_new code message category retryable = Some e -> ed_category e = category.
Proof. unfold error_descriptor_new. cbv zeta. intros HH. do 2 (destruct (_ : bool) in HH; [|done]). by injection HH as <-. Qed.

Lemma control_failure_limits s env code message category d :
  control_failure_decision s env code message category = Ok d ->
  category = ErrorCategory_Limit \/ category = ErrorCategory_Deadline -> limit_decided s env d.
Proof.
  unfold control_failure_decision. intros HH Hc. repeat step HH. apply ok_or_Ok, error_new_category in E0.
  eexists. split; [|eapply decision_for_proposes; [exact E| | |exact HH]; reflexivity]. apply lb_failed.
  unfold is_limit_failure. rewrite E0. by destruct Hc as [-> | ->].
Qed.

Lemma projected_or_limits s env o code message d : projected_or s env o code message = Ok (Concluded d) -> limit_decided s env d.
Proof. unfold projected_or. intros HH. repeat step HH. subst. eapply control_failure_limits; [eassumption|by left]. Qed.

Lemma project_or_fail_limits s env u accepted output completion d :
  project_or_fail s env u accepted output completion = Ok (Concluded d) -> limit_decided s env d.
Proof. unfold project_or_fail. intros HH. repeat step HH. subst. eapply control_failure_limits; [eassumption|by left]. Qed.

Lemma project_input_limits s env input accepted canonical u d :
  project_input s env input accepted canonical u = Ok (Concluded d) -> limit_decided s env d.
Proof.
  unfold project_input, project_stage, bump_model_requests. intros HH.
  repeat step HH; subst; eauto using projected_or_limits, project_or_fail_limits.
Qed.

(** Every crossing compares values of the kind of its dimension. *)
Definition crossing_ok (c : LimitCrossing) : Prop :=
  limit_kinds_match (lc_dimension c) (lc_observed c) (lc_maximum c) = true /\
  (lc_category c = ErrorCategory_Limit \/ lc_category c = ErrorCategory_Deadline).

Lemma over_ok d kind field maximum c : over d kind field maximum = Some c ->
  (forall a b, limit_kinds_match d (kind a) (kind b) = true) -> crossing_ok c.
Proof.
  unfold over. intros (m & _ & HH)%bind_Some Hk. destruct (m <? field); [|done]. injection HH as <-. split; [apply Hk|by left].
Qed.

Lemma numeric_crossing_ok limits u c : numeric_crossing limits u = Some c -> crossing_ok c.
Proof.
  unfold numeric_crossing. cbn [foldr]. intros HH.
  repeat match type of HH with or_else ?a ?b = _ =>
    destruct a eqn:?; cbn [or_else] in HH; [injection HH as <-; by eapply over_ok|] end. done.
Qed.

Lemma cost_crossing_ok limits u c : cost_crossing limits u = Ok (Some c) -> crossing_ok c.
Proof. unfold cost_crossing. intros HH. repeat step HH. subst. split; [done|by left]. Qed.

Lemma counter_crossing_ok limits entries c : counter_crossing limits entries = Ok (Some c) -> crossing_ok c.
Proof.
  induction entries as [|[k v] entries IH]; intros HH; cbn [counter_crossing] in HH; [done|].
  repeat step HH; [subst; split; [done|by left]|by apply IH].
Qed.

Lemma first_crossing_ok accepted u c : first_limit_crossing accepted u = Ok (Some c) -> crossing_ok c.
Proof.
  unfold first_limit_crossing. cbv zeta. intros HH. repeat step HH; subst;
    eauto using numeric_crossing_ok, cost_crossing_ok, counter_crossing_ok.
Qed.

(** The decision for a crossing: the limit, then the failure of the run. *)
Lemma crossing_decided s env u c a v e d :
  crossing_ok c -> validate_allocated_ids (env_ids env) (IdRequirements_new 2 2 0 0 0 0) = Ok v ->
  LimitUsage_digest u = Some a -> error_descriptor_new (lc_code c) "configured run limit reached" (lc_category c) false = Some e ->
  decision_for s env [RecordBody_LimitReached (mkLimitReached (lc_dimension c) (lc_observed c) (lc_maximum c) u a);
                      RecordBody_RunFailed (failure_from_state s e)] [] = Ok d -> limit_decided s env d.
Proof.
  intros [Hk Hc] Hv Ha He%error_new_category HH. eexists.
  split; [|eapply decision_for_proposes; [exact Hv| | |exact HH]; reflexivity]. apply lb_reached.
  - unfold LimitReached_valid. cbn [lr_dimension lr_observed lr_maximum lr_usage lr_usage_digest]. rewrite Hk, Ha. apply eqb_refl.
  - unfold is_limit_failure. rewrite He. by destruct Hc as [-> | ->].
Qed.

Lemma decide_crossing_limits s env accepted u d : decide_crossing s env accepted u = Ok (Some d) -> limit_decided s env d.
Proof.
  unfold decide_crossing. cbv zeta. intros HH.
  repeat step HH; subst; try (eapply control_failure_limits; [eassumption|by right]);
    match goal with Hd : decision_for _ _ _ _ = Ok _, Hl : ok_or (LimitUsage_digest _) _ = Ok _,
        He : ok_or (error_descriptor_new _ _ _ _) _ = Ok _ |- _ =>
      apply ok_or_Ok in Hl, He; eapply (crossing_decided _ _ _ _ _ _ _ _); [|eassumption|exact Hl|exact He|exact Hd] end;
    first [by eapply first_crossing_ok|split; [done|by right]].
Qed.

Lemma decide_limit_limits s env input canonical d : decide_limit s env input canonical = Ok (Some d) -> limit_decided s env d.
Proof.
  unfold decide_limit. intros HH. step HH. step HH. step HH. destruct a as [d'|].
  - injection HH as <-. unfold decide_unknown_cost in E1. repeat step E1; subst;
      try (eapply control_failure_limits; [eassumption|by left]).
    eexists. split; [|eapply decision_for_proposes; [eassumption| | |eassumption]; reflexivity]. apply lb_suspended.
  - repeat step HH; subst;
      first [by eapply project_input_limits|by eapply decide_crossing_limits|repeat step E2; by eapply projected_or_limits].
Qed.

Lemma limit_live s env input canonical d : decide_limit s env input canonical = Ok (Some d) -> live s /\ k_pending_interaction s = None.
Proof.
  unfold decide_limit. intros HH. step HH. step HH. unfold limit_exempt in E0. rewrite !orb_false_iff in E0.
  destruct E0 as (((((_ & _) & Ht) & Hi) & _) & Hp). apply is_some_false in Ht, Hi. by repeat split.
Qed.

Lemma limit_bodies_inert s bodies : limit_bodies s bodies -> Forall (fun b => inert b = true) bodies.
Proof. intros []; repeat constructor. Qed.

Lemma limit_bodies_plain s bodies run : limit_bodies s bodies -> Forall (fun b => plain_event run b = true) bodies.
Proof. intros []; repeat constructor. Qed.

Lemma limit_shape s rs : live s -> k_pending_extension_effect s = None -> limit_bodies s (rec_body <$> rs) ->
  Forall (fun r => is_foreign_run s r = false) rs -> validate_batch_shape s rs = Ok tt.
Proof.
  intros [_ Hp] Hx Hl Hf.
  assert (composition_record_shape s rs = false /\ structural_record_shape rs = false /\ foreign_run_shape s rs = false /\
    external_rejection_shape rs = false /\ control_shape rs = true) as (H1' & H2' & H3' & H4' & H5').
  { unfold composition_record_shape, structural_record_shape, foreign_run_shape, external_rejection_shape, control_shape, bodies.
    destruct rs as [|r rs]; [inversion Hl|]. apply Forall_cons in Hf as [Hf _]. cbn [forallb length Nat.eqb negb andb]. rewrite Hf.
    rewrite fmap_cons in Hl |- *. inversion Hl as [e He Hb|x Hb|x e Hv He Hb]; cbn [is_structural orb andb]; rewrite ?andb_false_r; cbn; auto. }
  unfold validate_batch_shape. rewrite H1', H2', H3', H4', andb_false_r, Hx. cbn [is_some andb orb].
  destruct (phase_shape s rs) as [valid|] eqn:Hps; [by rewrite H5', orb_true_r|]. unfold phase_shape in Hps.
  by destruct (k_phase s) as [[]|].
Qed.

Lemma failed_phase s f n : k_phase (enter_before_run (with_last_applied_sequence n (apply_run_failed s f))) = Some RunPhase_Failed.
Proof. unfold enter_before_run, apply_run_failed. cbv zeta. by destruct (is_limit_failure (rf_error f)). Qed.

Lemma failed_batch s f n :
  k_active_tool_batch (enter_before_run (with_last_applied_sequence n (apply_run_failed s f))) = k_active_tool_batch s.
Proof. unfold enter_before_run, apply_run_failed. cbv zeta. by destruct (is_limit_failure (rf_error f)). Qed.

(** The records of a limit decision, applied one after the other. *)
Lemma limit_records_apply s sid lane run now rs : follows s sid lane run -> clock_ok s now ->
  Forall (record_in sid lane run now) rs -> limit_bodies s (rec_body <$> rs) ->
  exists s' cs, apply_semantic_records s rs = Ok (s', cs) /\ length cs = length rs /\
    (k_phase s' = Some RunPhase_Failed \/ k_phase s' = Some RunPhase_Suspended) /\
    k_active_tool_batch s' = k_active_tool_batch s.
Proof.
  intros Hf Hc Hall Hl. unfold apply_semantic_records.
  destruct rs as [|r rs]; [inversion Hl|]. apply Forall_cons in Hall as [Hin Hall]. rewrite fmap_cons in Hl.
  assert (inert (rec_body r) = true) as Hi by (apply limit_bodies_inert in Hl; by apply Forall_cons in Hl as [? _]).
  destruct (apply_inert s _ _ _ _ r (rec_body <$> head rs) Hf Hin Hi Hc) as [u Hap]. cbn [with_next rfold]. unfold semantic_step at 1.
  rewrite Hap. unfold apply_body.
  remember (rec_body r :: (rec_body <$> rs)) as l eqn:Hbodies.
  destruct Hl as [e He|x|x e Hv He]; injection Hbodies as Hb Hn; rewrite <- Hb.
  - destruct rs; [|done]. cbn [rbind with_next rfold]. do 2 eexists. split; [reflexivity|]. split; [done|].
    split; [left; apply failed_phase|etrans; [apply failed_batch|done]].
  - destruct rs; [|done]. cbn [rbind with_next rfold]. do 2 eexists. split; [reflexivity|]. split; [done|]. by split; [right|].
  - destruct rs as [|r2 [|]]; [done| |done]. injection Hn as Hb2. apply Forall_cons in Hall as [Hin2 _].
    unfold apply_limit_reached. rewrite Hv. cbn [negb reject_if rbind with_next rfold head fmap option_fmap option_map].
    unfold semantic_step. cbn [fmap option_fmap option_map].
    match goal with |- context [apply_record ?s1 r2 None] =>
      destruct (apply_inert s1 sid lane run now r2 None) as [u2 ->]; [exact Hf|done|by rewrite <- Hb2|exact Hc|] end.
    unfold apply_body. rewrite <- Hb2. cbn [rbind]. do 2 eexists. split; [reflexivity|]. split; [done|].
    split; [left; apply failed_phase|etrans; [apply failed_batch|done]].
Qed.

Lemma derive_plain_all sid lane run now t rs : forall cs events, Forall (record_in sid lane run now) rs ->
  Forall (fun b => plain_event run b = true) (rec_body <$> rs) -> length cs = length rs ->
  0 <= t -> t + Z.of_nat (length events + length rs) <= u64_max ->
  exists out, rfold (derive_record_events t) events (zip rs cs) = Ok out.
Proof.
  induction rs as [|r rs IH]; intros cs events Hall Hp Hlen H0' Hmax; [by eexists|]. destruct cs as [|c cs]; [done|].
  apply Forall_cons in Hall as [Hin Hall]. rewrite fmap_cons in Hp. apply Forall_cons in Hp as [Hr Hp]. cbn [length] in *.
  cbn [zip zip_with rfold]. destruct (derive_plain sid lane run now r t c events Hin Hr H0' ltac:(lia)) as [e ->]. cbn [rbind].
  apply IH; [done|done|by injection Hlen|done|]. rewrite length_app. cbn. lia.
Qed.

Lemma limit_applies s env input canonical d previous at_ rs id t :
  reachable s -> k_pending_extension_effect s = None -> clock_ok s (env_now env) ->
  growth_check BatchGrowth_default s = Ok tt ->
  NoDup (ids_record_ids (env_ids env)) -> NoDup (ids_event_ids (env_ids env)) -> 0 <= t -> t + 2 <= u64_max ->
  decide_limit s env input canonical = Ok (Some d) ->
  commit_records (dec_records d) (dec_expected_sequence d) previous at_ = Ok rs ->
  exists s' events, apply s (batch_of id (dec_expected_sequence d) rs) t = Ok (s', events) /\
    (k_phase s' = Some RunPhase_Failed \/ k_phase s' = Some RunPhase_Suspended) /\
    k_active_tool_batch s' = k_active_tool_batch s.
Proof.
  intros Hr Hx Hc Hg Hn1 Hn2 Ht0 Ht Hd Hcommit. pose proof (limit_live _ _ _ _ _ Hd) as [Hlive _].
  apply decide_limit_limits in Hd as (bodies & Hl & sid & lane & run & Hscope & Hdr).
  assert (follows s sid lane run) as Hf by by right. assert (bodies <> []) as Hne by (by destruct Hl).
  destruct (commit_proposal _ _ _ _ _ _ _ _ _ _ id Hdr Hne Hf (reachable_sequence s Hr) Hn1 Hn2 Hcommit)
    as (Hb & Hall & Hrange & Hseq & Hids). subst bodies.
  assert (Forall (fun r => inert (rec_body r) = true) rs) as Hinert by (by apply limit_bodies_inert in Hl; rewrite Forall_fmap in Hl).
  destruct (limit_records_apply s sid lane run (env_now env) rs Hf Hc Hall Hl) as (s' & cs & Happ & Hlen & Hphase & Hbatch).
  assert (length rs <= 2)%nat as Hlen2 by (rewrite <- (length_fmap rec_body rs); by destruct Hl; cbn; lia).
  destruct (derive_plain_all sid lane run (env_now env) t rs cs [] Hall (limit_bodies_plain _ _ run Hl) Hlen Ht0 ltac:(cbn; lia)) as [events Hev].
  exists s', events. split; [|by split]. apply (apply_of_step _ _ _ _ _ cs). split; cbn [cb_records batch_of];
    auto using live_not_rejected, inert_stage_digests, inert_tool_digests, inert_model_digests, inert_growth.
  apply limit_shape; [done..|]. eapply Forall_impl; [exact Hall|]. intros r Hin. by eapply scope_not_foreign.
Qed.

(** ** Where the two sides disagree *)

(** While an extension effect is pending, the batch of a limit decision is not
    accepted. *)
Lemma limit_refused s rs p : k_pending_extension_effect s = Some p ->
  k_phase s <> Some RunPhase_Cancelling -> k_phase s <> Some RunPhase_Suspended ->
  limit_bodies s (rec_body <$> rs) -> Forall (fun r => is_foreign_run s r = false) rs ->
  validate_batch_shape s rs = Err KernelError_InvalidRecordOrder.
Proof.
  intros Hx Hc Hs Hl Hf. unfold validate_batch_shape, composition_record_shape, structural_record_shape, foreign_run_shape,
    external_rejection_shape, extension_settlement_shape, cancellation_shape, bodies.
  destruct rs as [|r rs]; [inversion Hl|]. apply Forall_cons in Hf as [Hf _]. cbn [forallb length Nat.eqb negb andb]. rewrite Hf, Hx.
  rewrite fmap_cons in Hl |- *. inversion Hl as [e He Hb|x Hb|x e Hv He Hb]; cbn [is_structural orb andb is_some]; rewrite ?andb_false_r; cbn [orb];
    (destruct (k_phase s) as [[]|]; try done).
Qed.

(** The whole batch of a limit decision is refused then. *)
Lemma limit_batch_refused s env input canonical d previous at_ rs id t p :
  reachable s -> k_pending_extension_effect s = Some p ->
  k_phase s <> Some RunPhase_Cancelling -> k_phase s <> Some RunPhase_Suspended ->
  NoDup (ids_record_ids (env_ids env)) -> NoDup (ids_event_ids (env_ids env)) ->
  decide_limit s env input canonical = Ok (Some d) ->
  commit_records (dec_records d) (dec_expected_sequence d) previous at_ = Ok rs ->
  apply s (batch_of id (dec_expected_sequence d) rs) t = Err KernelError_InvalidRecordOrder.
Proof.
  intros Hr Hx Hnc Hns Hn1 Hn2 Hd Hcommit. pose proof (limit_live _ _ _ _ _ Hd) as [Hlive _].
  apply decide_limit_limits in Hd as (bodies & Hl & sid & lane & run & Hscope & Hdr).
  assert (follows s sid lane run) as Hf by by right. assert (bodies <> []) as Hne by (by destruct Hl).
  destruct (commit_proposal _ _ _ _ _ _ _ _ _ _ id Hdr Hne Hf (reachable_sequence s Hr) Hn1 Hn2 Hcommit)
    as (Hb & Hall & Hrange & Hseq & Hids). subst bodies.
  unfold apply. cbv zeta. rewrite Hrange, Hseq. cbn [rbind cb_records batch_of].
  rewrite (live_not_rejected s rs Hlive), Hids. cbn [rbind].
  rewrite (limit_refused s rs p); [done|done|done|done|done|].
  eapply Forall_impl; [exact Hall|]. intros r Hin. by eapply scope_not_foreign.
Qed.

(** Whatever batch starts with a record of the run from before its acceptance
    is not accepted: the wall time it stands for is negative. *)
Lemma early_clock_refused s sid lane run now r rs b t accepted_at :
  follows s sid lane run -> record_in sid lane run now r -> is_external_rejection (rec_body r) = false ->
  k_accepted_at s = Some accepted_at -> now < accepted_at -> cb_records b = r :: rs ->
  exists e, apply s b t = Err e.
Proof.
  intros Hf Hin He Hat Hnow Hb. destruct (apply s b t) as [[s' events]|e] eqn:HH; [|by exists e]. exfalso.
  apply apply_step in HH as (c & [_ _ _ _ _ _ _ _ _ HH _]). rewrite Hb in HH. unfold apply_semantic_records in HH.
  cbn [with_next rfold] in HH. unfold semantic_step at 1, apply_record in HH.
  rewrite (ri_plain _ _ _ _ _ Hin), (scope_not_foreign _ _ _ _ _ _ Hf Hin), He, (ri_timestamp _ _ _ _ _ Hin) in HH.
  unfold update_wall_usage in HH. rewrite Hat in HH.
  assert ((v ← i64_checked_sub now accepted_at; in_range 0 u64_max v) = None) as Hn; [|by rewrite Hn in HH].
  destruct (i64_checked_sub now accepted_at) as [v|] eqn:Hv; [|done]. unfold i64_checked_sub in Hv. apply in_range_Some in Hv as [-> _].
  cbn [mbind option_bind]. destruct (in_range _ _ _) as [w|] eqn:Hw; [|done]. apply in_range_Some in Hw as [_ ?]. lia.
Qed.

Lemma early_proposal_refused s env bodies d previous at_ rs id t accepted_at :
  reachable s -> k_accepted_at s = Some accepted_at -> env_now env < accepted_at ->
  NoDup (ids_record_ids (env_ids env)) -> NoDup (ids_event_ids (env_ids env)) ->
  proposes s env bodies d -> bodies <> [] -> Forall (fun b => is_external_rejection b = false) bodies ->
  commit_records (dec_records d) (dec_expected_sequence d) previous at_ = Ok rs ->
  exists e, apply s (batch_of id (dec_expected_sequence d) rs) t = Err e.
Proof.
  intros Hr Hat Hnow Hn1 Hn2 (sid & lane & run & Hscope & Hdr) Hne Hext Hcommit. assert (follows s sid lane run) as Hf by by right.
  destruct (commit_proposal _ _ _ _ _ _ _ _ _ _ id Hdr Hne Hf (reachable_sequence s Hr) Hn1 Hn2 Hcommit)
    as (Hb & Hall & _). destruct rs as [|r rs]; [by subst bodies|]. subst bodies. rewrite fmap_cons in Hext.
  apply Forall_cons in Hext as [Hext _]. apply Forall_cons in Hall as [Hin _]. by eapply early_clock_refused.
Qed.

Lemma not_elem_snoc {A} (x y : A) l : x ∉ l -> x <> y -> x ∉ l ++ [y].
Proof. intros Hl Hy [?|?%list_elem_of_singleton]%elem_of_app; done. Qed.

(** The record that closes a batch under cancellation never reports a failure,
    and a batch that failed fatally closes with its failure only. *)
Lemma cancel_calls_keep_open completed cancelled id error calls : forall st st' closed,
  rfold (cancel_call completed cancelled id error) st calls = Ok st' ->
  RecordBody_ToolBatchClosed closed ∉ st.2 -> RecordBody_ToolBatchClosed closed ∉ st'.2.
Proof.
  induction calls as [|c calls IH]; intros st st' closed HH Hst; cbn [rfold] in HH; [by injection HH as <-|].
  apply (proj1 (rbind_Ok _ _ _)) in HH as (st1 & E & HH). eapply IH; [exact HH|]. clear IH HH.
  unfold cancel_call in E. cbv zeta in E. repeat step E; subst; cbn [snd] in *; [done|].
  match goal with E : (if sorted_contains _ _ then _ else _) = Ok _ |- _ => repeat step E; subst end;
    rewrite ?app_nil_r; by try apply not_elem_snoc.
Qed.

Lemma settle_prefix_keeps_open env opened calls : forall st st' closed,
  settle_prefix env opened calls st = Ok st' ->
  RecordBody_ToolBatchClosed closed ∉ st.1.1.1 -> RecordBody_ToolBatchClosed closed ∉ st'.1.1.1.
Proof.
  induction calls as [|c calls IH]; intros [[[bodies ids] effects] n] st' closed HH Hst; cbn [settle_prefix] in HH;
    [by injection HH as <-|].
  destruct (buffered_result (atc_status c)); [|by injection HH as <-]. repeat step HH. eapply IH; [exact HH|].
  by apply not_elem_snoc.
Qed.

Lemma followups_close_plainly s env completed cancelled f closed :
  cancellation_followups s env completed cancelled = Ok f ->
  RecordBody_ToolBatchClosed closed ∈ tfu_bodies f ->
  exists continuation, tbc_outcome closed = outcome_for_continuation continuation.
Proof.
  unfold cancellation_followups. intros HH Hin. destruct (k_active_tool_batch s) as [batch|];
    [|injection HH as <-; by apply not_elem_of_nil in Hin].
  cbv zeta in HH. step HH.
  apply (proj1 (rbind_Ok _ _ _)) in HH as (p & Hp & HH). apply (cancel_calls_keep_open _ _ _ _ _ _ _ closed) in Hp;
    [|apply not_elem_of_nil].
  apply (proj1 (rbind_Ok _ _ _)) in HH as ([[[bodies ids] effects] n] & Hs & HH).
  apply (settle_prefix_keeps_open _ _ _ _ _ closed) in Hs; [|done]. cbn [fst] in Hs.
  apply (proj1 (rbind_Ok _ _ _)) in HH as (bodies' & Hc & HH). step HH. injection HH as <-. cbn [tfu_bodies] in Hin.
  destruct (_ =? _)%nat; [|by injection Hc as <-]. step Hc. injection Hc as <-.
  apply elem_of_app in Hin as [Hin|Hin%list_elem_of_singleton]; [done|]. injection Hin as ->.
  match goal with E : close_record _ _ _ = Ok _ |- _ => unfold close_record in E; repeat step E; subst end.
  by eexists.
Qed.

Lemma plain_close_refused s batch error closed continuation :
  k_active_tool_batch s = Some batch -> atb_fatal_error batch = Some error ->
  tbc_outcome closed = outcome_for_continuation continuation ->
  apply_tool_batch_closed s closed = Err KernelError_InvalidRecordOrder.
Proof.
  intros Hb He Ho. unfold apply_tool_batch_closed. rewrite Hb. cbn [ok_or rbind]. cbv zeta.
  match goal with |- context [reject_if ?b _] => destruct b; [done|] end. cbn [reject_if rbind].
  unfold closed_outcome_matches. rewrite He, Ho. by destruct (tbo_continuation (atb_opened batch)), continuation.
Qed.

(** ** The dispatcher *)

Lemma kernel_accepts s env a : Kernel_decide s env (KernelInput_AcceptRun a) = decide_accept s env a.
Proof.
  unfold Kernel_decide, authorize_cancel, context_canonical_of, review_settlement, decide_limit. cbn [rbind].
  by destruct (k_accepted s).
Qed.

Lemma kernel_cancels s env c d : Kernel_decide s env (KernelInput_CancelRequested c) = Ok d -> decide_cancel s env c = Ok d.
Proof.
  unfold Kernel_decide, context_canonical_of, review_settlement, decide_limit. intros HH. step HH. cbn [rbind] in HH.
  by destruct (k_accepted s).
Qed.

(** Every decision of a reachable kernel is a repetition or a proposal for the
    run the kernel follows. *)
Lemma reachable_decided s env input d : reachable s -> Kernel_decide s env input = Ok d ->
  duplicate_decision s = Ok d \/
  exists sid lane run bodies, bodies <> [] /\ follows s sid lane run /\ drafted s env sid lane run bodies d.
Proof.
  intros Hr [[Hd|bodies Hne (sid & lane & run & Hscope & Hdr)]|(a & -> & Hd)]%kernel_decided.
  - by left.
  - right. exists sid, lane, run, bodies. split_and!; [done|by right|done].
  - right. apply decide_accept_drafted in Hd as (Ha & _ & Hdr). pose proof (reachable_identity s Hr) as [Hsid _ _].
    rewrite Ha in Hsid. apply is_some_false in Hsid. do 4 eexists. split_and!; [|by left|exact Hdr]. done.
Qed.
End Accepting.

(** * Settlements count once

    A stage settlement that has been decided, committed and applied is recorded
    under its cursor: submitting it again is a duplicate that proposes nothing,
    and a different settlement of the same stage is a conflict. *)

Section ExactlyOnce.
Context `{HalfLaws, Hasher, Serde, Wire}.

(** ** The first record of a stage decision *)

Definition starts_with_stage (cursor : StageCursor) (digest : Digest) (bodies : list RecordBody) : Prop :=
  exists disposition rest, bodies = stage_record cursor disposition digest :: rest.

Lemma starts_app cursor digest l more : starts_with_stage cursor digest l -> starts_with_stage cursor digest (l ++ more).
Proof. intros (x & rest & ->). exists x, (rest ++ more). done. Qed.

Lemma stage_bodies_start s env input digest canonical p : stage_bodies s env input digest canonical = Ok p ->
  starts_with_stage (ss_cursor input) digest p.1.
Proof.
  unfold stage_bodies, prepared_context_bodies, requested_model_bodies, accepted_finalize_bodies, continued_model_bodies,
    retry_bodies, failed_stage_bodies. cbv zeta. intros HH. repeat step HH; subst; by do 2 eexists.
Qed.

Lemma closed_starts (complete : bool) bodies (closed : kresult ToolBatchClosed) r cursor digest :
  (if complete then let? c := closed in Ok (bodies ++ [RecordBody_ToolBatchClosed c]) else Ok bodies) = Ok r ->
  starts_with_stage cursor digest bodies -> starts_with_stage cursor digest r.
Proof. intros HH Hs. repeat step HH; subst; [by apply starts_app|done]. Qed.

Lemma batch_prepared_starts s env input digest d : decide_batch_prepared s env input digest = Ok d ->
  exists bodies, starts_with_stage (ss_cursor input) digest bodies /\ proposes s env bodies d.
Proof.
  unfold decide_batch_prepared. cbv zeta. intros HH. repeat step HH. eexists.
  split; [|eapply decision_for_proposes; [eassumption| | |exact HH]; reflexivity].
  match goal with Ec : (if _ then _ else Ok _) = Ok _ |- _ => apply (closed_starts _ _ _ _ _ _ Ec) end.
  match goal with Es : settle_synthetic _ _ _ _ = Ok _ |- _ =>
    apply settle_synthetic_extends in Es as [m1 Hm1]; cbn [fst] in Hm1; rewrite Hm1; apply starts_app end.
  match goal with Er : match first_executable_group _ with _ => _ end = Ok ?r |- _ => repeat step Er; subst end; [|by do 2 eexists].
  match goal with Er : append_group_requests _ _ _ = Ok _ |- _ =>
    apply append_group_requests_extends in Er as [m2 ->]; apply starts_app end. by do 2 eexists.
Qed.

Lemma decide_stage_starts s env input canonical digest d : decide_stage s env input canonical digest = Ok d ->
  exists bodies, starts_with_stage (ss_cursor input) digest bodies /\ proposes s env bodies d.
Proof.
  unfold decide_stage. intros HH. do 5 step HH.
  destruct (ss_outcome input) eqn:Ho; [| | |by apply batch_prepared_starts in HH| | | | ].
  all: do 4 step HH;
    match goal with Er : stage_id_requirements _ _ = Ok _, Eb : stage_bodies _ _ _ _ _ = Ok _ |- _ =>
      destruct (stage_requirements_match _ _ _ _ _ _ _ Er Eb) as (Hr & He & Hne); eexists;
      split; [by eapply stage_bodies_start|eapply decision_for_proposes; [eassumption|exact Hr|exact He|exact HH]] end.
Qed.

(** ** Its application records the settlement *)

Lemma stage_outcome_recorded s o s' : apply_stage_outcome s o = Ok s' ->
  k_stage_settlements s' !! so_cursor o = Some (so_settlement_digest o).
Proof.
  unfold apply_stage_outcome, apply_continued. cbv zeta. intros HH.
  repeat step HH; subst; try apply lookup_insert_eq. by case_match; apply lookup_insert_eq.
Qed.

Lemma stage_record_recorded s sid lane run now r next s' cursor disposition digest :
  follows s sid lane run -> record_in sid lane run now r -> rec_body r = stage_record cursor disposition digest ->
  apply_record s r next = Ok s' -> k_stage_settlements s' !! cursor = Some digest.
Proof.
  intros Hf Hin Hb HH. unfold apply_record in HH. rewrite (ri_plain _ _ _ _ _ Hin) in HH.
  assert (is_foreign_run s r = false) as Hfor.
  { unfold is_foreign_run. rewrite (ri_run _ _ _ _ _ Hin). destruct Hf as [[_ ->]|(_ & _ & Hrun)]; [done|].
    destruct (k_accepted s) as [a|]; [|done]. cbn in Hrun. injection Hrun as ->. by rewrite eqb_refl. }
  rewrite Hfor in HH. step HH. unfold apply_body in HH. rewrite Hb in HH. by apply stage_outcome_recorded in HH.
Qed.

Lemma first_record_grows s b t s' events r rs : cb_records b = r :: rs -> apply s b t = Ok (s', events) ->
  exists s1, apply_record s r (rec_body <$> head rs) = Ok s1 /\ grows s1 s'.
Proof.
  intros Hb [c [_ _ _ _ _ _ _ _ _ HH _]]%apply_step. rewrite Hb in HH. unfold apply_semantic_records in HH. step HH.
  injection HH as <- _. cbn [with_next rfold] in E. step E. unfold semantic_step in E0. step E0. injection E0 as <-.
  exists a1. split; [done|]. apply semantic_steps_grow in E. cbn [fst] in E. etrans; [|apply enter_before_run_grows].
  etrans; [|exact E]. by apply grows_with_last_applied_sequence.
Qed.

Lemma stage_settlement_recorded s env input canonical digest d previous at_ rs id t s' events :
  reachable s -> decide_stage s env input canonical digest = Ok d ->
  NoDup (ids_record_ids (env_ids env)) -> NoDup (ids_event_ids (env_ids env)) ->
  commit_records (dec_records d) (dec_expected_sequence d) previous at_ = Ok rs ->
  apply s (batch_of id (dec_expected_sequence d) rs) t = Ok (s', events) ->
  k_stage_settlements s' !! ss_cursor input = Some digest.
Proof.
  intros Hr Hd Hn1 Hn2 Hcommit Happ. apply decide_stage_starts in Hd as (bodies & (x & rest & Hs) & sid & lane & run & Hscope & Hdr).
  assert (follows s sid lane run) as Hf by by right. assert (bodies <> []) as Hne by by rewrite Hs.
  destruct (commit_proposal _ _ _ _ _ _ _ _ _ _ id Hdr Hne Hf (reachable_sequence s Hr) Hn1 Hn2 Hcommit) as (Hb & Hall & _).
  rewrite Hs in Hb. destruct rs as [|r rs]; [done|]. injection Hb as Hb _. apply Forall_cons in Hall as [Hin _].
  destruct (first_record_grows _ (batch_of id (dec_expected_sequence d) (r :: rs)) _ _ _ r rs eq_refl Happ) as (s1 & H1' & [Hg _ _ _ _ _ _ _ _ _ _ _]).
  eapply lookup_weaken; [|exact Hg]. by eapply stage_record_recorded.
Qed.

(** ** Submitting it again *)

Lemma duplicate_decision_Ok s : k_last_applied_sequence s < u64_max -> 0 <= k_last_applied_sequence s ->
  exists d, duplicate_decision s = Ok d /\ dec_records d = [] /\ dec_actions d = [].
Proof.
  intros Hlt H0'. unfold duplicate_decision.
  assert (exists g, Diagnostic_try_new "duplicate_settlement" "equal committed settlement was ignored" DiagnosticSeverity_Info METADATA_EMPTY = Some g)
    as [g ->] by (vm_compute; by eexists). cbn [ok_or rbind]. unfold next_sequence.
  assert (u64_checked_add (k_last_applied_sequence s) 1 = Some (k_last_applied_sequence s + 1)) as -> by machine.
  by eexists.
Qed.

Lemma settled_stage_reviewed s env input digest digest' canonical :
  stage_digest input = Ok digest' -> context_canonical_of (KernelInput_StageSettled input) = Ok canonical ->
  k_stage_settlements s !! ss_cursor input = Some digest ->
  Kernel_decide s env (KernelInput_StageSettled input) =
    if digest =?? digest' then duplicate_decision s else Err KernelError_ConflictingSettlement.
Proof.
  intros Hd Hc Hs. unfold Kernel_decide, authorize_cancel. cbn [rbind]. rewrite Hc. cbn [rbind].
  unfold review_settlement. rewrite Hd. cbn [rbind]. rewrite Hs. cbn [review_index]. by destruct (digest =?? digest').
Qed.
End ExactlyOnce.
