(* ===== verification/Bounds.v ===== *)
(** * Bounded state

    The capacity preflight of a batch is sound: the keys and messages a batch
    adds are among those the preflight counted, so the collections of a
    reachable state never exceed their ceilings.

    The second part is about cancellation. *)

From stdpp Require Import sorting.
From S2P Require Import Prelude Primitives Effects Records State Inputs ToolBatch Digests Policy ApplyStage ApplyTools ApplyEffects ApplyRecord Shapes Events Apply BatchOrder History PhaseMachine.
From S2P Require Import PhaseBatch Reach.

(** ** Growth of one record *)

(** The collections below change by at most [g]. *)
Record log_step (g : BatchGrowth) (s s' : KernelState) : Prop := {
  ls_messages : (length (k_messages s') <= length (k_messages s) + bg_messages g)%nat;
  ls_stage : dom (k_stage_settlements s') ⊆ dom (k_stage_settlements s) ∪ bg_stage_keys g;
  ls_extension : dom (k_extension_settlements s') ⊆ dom (k_extension_settlements s) ∪ bg_extension_keys g;
  ls_tool_calls : dom (k_tool_calls s') ⊆ dom (k_tool_calls s) ∪ bg_tool_call_keys g;
  ls_timers : dom (rst_timer_firings (k_retry s')) ⊆ dom (rst_timer_firings (k_retry s)) ∪ bg_timer_firing_keys g;
  ls_children : dom (k_child_preparations s') ⊆ dom (k_child_preparations s) ∪ bg_child_preparation_keys g;
  ls_reservations : dom (k_budget_reservations s') ⊆ dom (k_budget_reservations s) ∪ bg_budget_reservation_keys g;
  ls_charges : dom (k_budget_charges s') ⊆ dom (k_budget_charges s) ∪ bg_budget_charge_keys g
}.

(** The collections stay. *)
Record log_keeps (s s' : KernelState) : Prop := {
  lk_messages : k_messages s' = k_messages s;
  lk_stage : k_stage_settlements s' = k_stage_settlements s;
  lk_extension : k_extension_settlements s' = k_extension_settlements s;
  lk_tool_calls : k_tool_calls s' = k_tool_calls s;
  lk_timers : rst_timer_firings (k_retry s') = rst_timer_firings (k_retry s);
  lk_children : k_child_preparations s' = k_child_preparations s;
  lk_reservations : k_budget_reservations s' = k_budget_reservations s;
  lk_charges : k_budget_charges s' = k_budget_charges s
}.

#[global] Instance log_keeps_preorder : PreOrder log_keeps.
Proof. split; [done|]. intros s1 s2 s3 [] []. constructor; congruence. Qed.

Ltac logged := constructor; reflexivity.

Lemma log_keeps_step g s s' : log_keeps s s' -> log_step g s s'.
Proof. intros [E1 E2 E3 E4 E5 E6 E7 E8]. constructor; rewrite ?E1, ?E2, ?E3, ?E4, ?E5, ?E6, ?E7, ?E8; first [lia|set_solver]. Qed.

Lemma log_step_pre g s s1 s' : log_keeps s s1 -> log_step g s1 s' -> log_step g s s'.
Proof. intros [E1 E2 E3 E4 E5 E6 E7 E8] []. constructor; by rewrite <- ?E1, <- ?E2, <- ?E3, <- ?E4, <- ?E5, <- ?E6, <- ?E7, <- ?E8. Qed.

Lemma log_step_post g s s1 s' : log_step g s s1 -> log_keeps s1 s' -> log_step g s s'.
Proof. intros [] [E1 E2 E3 E4 E5 E6 E7 E8]. constructor; by rewrite ?E1, ?E2, ?E3, ?E4, ?E5, ?E6, ?E7, ?E8. Qed.

(** The keys a record inserts, whether or not they are new. *)
Definition touched (body : RecordBody) : BatchGrowth :=
  match body with
  | RecordBody_StageOutcomeRecorded o => mkBatchGrowth 0 {[ so_cursor o ]} ∅ ∅ ∅ ∅ ∅ ∅ ∅ ∅ ∅ ∅
  | RecordBody_EntryAppended e =>
      mkBatchGrowth 1 ∅ ∅ ∅ ∅ ∅ (list_to_set (tc_tool_call_id <$> assistant_tool_calls (ea_message e) true)) ∅ ∅ ∅ ∅ ∅
  | RecordBody_ToolCallSettled _ => mkBatchGrowth 1 ∅ ∅ ∅ ∅ ∅ ∅ ∅ ∅ ∅ ∅ ∅
  | RecordBody_EffectCompleted c =>
      match oc_kind (cpl_output_contract c) with
      | EffectOutputKind_ContextContribution | EffectOutputKind_MiddlewareOutcome =>
          mkBatchGrowth 0 ∅ ∅ {[ cpl_effect_id c ]} ∅ ∅ ∅ ∅ ∅ ∅ ∅ ∅
      | _ => BatchGrowth_default
      end
  | RecordBody_EffectFailed f =>
      match oc_kind (fld_output_contract f) with
      | EffectOutputKind_ContextContribution | EffectOutputKind_MiddlewareOutcome =>
          mkBatchGrowth 0 ∅ ∅ {[ fld_effect_id f ]} ∅ ∅ ∅ ∅ ∅ ∅ ∅ ∅
      | _ => BatchGrowth_default
      end
  | RecordBody_TimerFired f => mkBatchGrowth 0 ∅ ∅ ∅ ∅ ∅ ∅ ∅ {[ tf_effect_id f ]} ∅ ∅ ∅
  | RecordBody_ChildRunPrepared p => mkBatchGrowth 0 ∅ ∅ ∅ ∅ ∅ ∅ ∅ ∅ {[ crp_parent_effect_id p ]} ∅ ∅
  | RecordBody_BudgetReservationRequested r =>
      mkBatchGrowth 0 ∅ ∅ ∅ ∅ ∅ ∅ ∅ ∅ ∅ {[ brq_reservation_id (brd_request r) ]} ∅
  | RecordBody_BudgetChargeRecorded c => mkBatchGrowth 0 ∅ ∅ ∅ ∅ ∅ ∅ ∅ ∅ ∅ ∅ {[ bcr_effect_id (bch_receipt c) ]}
  | _ => BatchGrowth_default
  end.

(** ** Handlers that keep the collections *)

Ltac log_ifs :=
  repeat match goal with
  | |- log_keeps _ ?t => match t with context [if ?b then _ else _] => destruct b end
  end.
Ltac log_keep H := peel H; subst; log_ifs; try logged.

Section Keepers.
Implicit Types s : KernelState.

Lemma insert_completion_identity_log s e d c s' : insert_completion_identity s e d c = Ok s' -> log_keeps s s'.
Proof. intros [m ->]%insert_completion_identity_form. logged. Qed.

Lemma insert_model_identity_log s e k d c s' : insert_model_identity s e k d c = Ok s' -> log_keeps s s'.
Proof. intros (m & n & ->)%insert_model_identity_form. logged. Qed.

Lemma insert_tool_identity_log s e k d c s' : insert_tool_identity s e k d c = Ok s' -> log_keeps s s'.
Proof. intros (m & n & ->)%insert_tool_identity_form. logged. Qed.

Lemma apply_interaction_effect_terminal_log s e c d s' :
  apply_interaction_effect_terminal s e c d = Ok s' -> log_keeps s s'.
Proof.
  unfold apply_interaction_effect_terminal. intros H. do 2 step H. destruct c; cbn [k_cancellation] in H;
    step H; injection H as <-; try logged; repeat case_match; logged.
Qed.

Lemma apply_interaction_requested_log s r s' : apply_interaction_requested s r = Ok s' -> log_keeps s s'.
Proof. unfold apply_interaction_requested. intros H. log_keep H. Qed.

Lemma clear_completed_pending_log r s : log_keeps s (clear_completed_pending r s).
Proof. unfold clear_completed_pending. cbv zeta. repeat case_match; logged. Qed.
End Keepers.

Section KeepersDigests.
Context `{Hasher, Serde}.
Implicit Types s : KernelState.

Lemma apply_effect_requested_log s r next s' : apply_effect_requested s r next = Ok s' -> log_keeps s s'.
Proof.
  unfold apply_effect_requested. intros HH. step HH.
  - unfold apply_model_requested in HH. log_keep HH.
  - unfold apply_tool_requested in HH. log_keep HH.
  - unfold apply_extension_requested in HH. log_keep HH.
  - unfold apply_extension_requested in HH. log_keep HH.
  - unfold apply_interaction_effect_requested in HH. do 4 step HH. injection HH as <-. trans a2; [|logged].
    step E3; [by eapply apply_interaction_requested_log|by injection E3 as <-].
  - unfold apply_timer_requested in HH. log_keep HH.
Qed.

Lemma apply_tool_effect_completed_log s c s' : apply_tool_effect_completed s c = Ok s' -> log_keeps s s'.
Proof.
  unfold apply_tool_effect_completed. intros HH. peel HH. subst.
  etrans; [by eapply insert_tool_identity_log|logged].
Qed.

Lemma apply_tool_effect_failed_log s f s' : apply_tool_effect_failed s f = Ok s' -> log_keeps s s'.
Proof.
  unfold apply_tool_effect_failed. intros HH. peel HH; subst; (etrans; [by eapply insert_tool_identity_log|logged]).
Qed.

Lemma apply_model_completed_log s c next s' : apply_model_completed s c next = Ok s' -> log_keeps s s'.
Proof.
  unfold apply_model_completed. intros HH. peel HH. subst. etrans; [by eapply insert_model_identity_log|logged].
Qed.

Lemma apply_compaction_completed_log s c s' : apply_compaction_completed s c = Ok s' -> log_keeps s s'.
Proof.
  unfold apply_compaction_completed. intros HH. do 3 step HH. injection HH as <-.
  eapply insert_model_identity_log in E1. etrans; [exact E1|logged].
Qed.

Lemma apply_tool_batch_closed_log s c s' : apply_tool_batch_closed s c = Ok s' -> log_keeps s s'.
Proof. unfold apply_tool_batch_closed. intros HH. do 4 step HH. injection HH as <-. trans a2; [|logged]. log_keep E2. Qed.

Lemma buffer_cancelled_tool_effect_log s c s' : buffer_cancelled_tool_effect s c = Ok s' -> log_keeps s s'.
Proof.
  unfold buffer_cancelled_tool_effect. intros HH. do 6 step HH. apply insert_tool_identity_log in HH.
  etrans; [|exact HH]. logged.
Qed.

Lemma apply_effect_cancelled_log s c s' : apply_effect_cancelled s c = Ok s' -> log_keeps s s'.
Proof.
  assert (forall s', apply_other_cancelled s c = Ok s' -> log_keeps s s') as Hother.
  { unfold apply_other_cancelled. intros s1 HH.
    repeat (cbv zeta in HH; step HH); subst; try logged;
      (match goal with |- log_keeps _ (raise_version _ ?t) => trans t; [|logged] end);
      repeat match goal with
      | E : match _ with _ => _ end = Ok _ |- _ => step E
      | E : (if _ then _ else _) = Ok _ |- _ => step E
      | E : rbind _ _ = Ok _ |- _ => step E
      end; try (by eapply buffer_cancelled_tool_effect_log); crush_ok; logged. }
  unfold apply_effect_cancelled. intros HH. step HH; eauto.
  - by eapply apply_interaction_effect_terminal_log.
  - unfold apply_timer_effect_cancelled in HH. log_keep HH.
Qed.

Lemma apply_cancellation_reconciled_log s r s' : apply_cancellation_reconciled s r = Ok s' -> log_keeps s s'.
Proof.
  unfold apply_cancellation_reconciled. intros HH. do 4 step HH. injection HH as <-.
  apply insert_tool_identities_form in E2 as (m & n & ->).
  match type of E1 with context [clear_completed_pending r ?t] =>
    trans (clear_completed_pending r t); [etrans; [|apply clear_completed_pending_log]; logged|] end.
  trans a1; [|logged]. log_keep E1.
Qed.
End KeepersDigests.

(** ** Handlers that add to a collection *)

(** Every other collection is untouched: compute, then set reasoning. *)
Ltac grown := constructor; cbn; rewrite ?dom_insert_L; first [lia|set_solver].

Section Growers.
Context `{Hasher, Serde}.
Implicit Types s : KernelState.

Lemma apply_stage_outcome_log s o s' :
  apply_stage_outcome s o = Ok s' -> log_step (touched (RecordBody_StageOutcomeRecorded o)) s s'.
Proof.
  unfold apply_stage_outcome, apply_continued, continued_after_model. intros HH.
  apply (log_step_post _ s (with_stage_settlements (<[so_cursor o := so_settlement_digest o]> (k_stage_settlements s)) s)).
  - grown.
  - log_keep HH.
Qed.

Lemma apply_extension_settled_log g s o s' :
  bg_extension_keys g = {[ ExtensionSettlement_effect_id o ]} ->
  apply_extension_settled s o = Ok s' -> log_step g s s'.
Proof.
  unfold apply_extension_settled. intros Hg HH. do 5 step HH. injection HH as <-.
  apply insert_completion_identity_form in E3 as [m ->]. constructor; cbn; rewrite ?dom_insert_L, ?Hg;
    first [lia|set_solver].
Qed.

Lemma entry_steps_dom e calls m m' :
  rfold (entry_step e) m calls = Ok m' -> dom m' = dom m ∪ list_to_set (tc_tool_call_id <$> calls).
Proof.
  revert m. induction calls as [|c calls IH]; intros m HH; simpl in HH; [injection HH as <-; set_solver|].
  step HH. unfold entry_step in E. step E. injection E as <-. rewrite (IH _ HH), dom_insert_L. set_solver.
Qed.

Lemma apply_entry_appended_log s e s' :
  apply_entry_appended s e = Ok s' -> log_step (touched (RecordBody_EntryAppended e)) s s'.
Proof.
  unfold apply_entry_appended. intros HH. step HH. apply entry_steps_dom in E. cbv zeta in HH.
  step HH. injection HH as <-. clear E0. constructor; cbn; destruct (_ =? _)%nat; cbn;
    rewrite ?E, ?length_app; cbn; first [lia|set_solver].
Qed.

Lemma open_steps_dom o source l st st' :
  rfold (open_step o source) st l = Ok st' -> dom (ol_tool_calls st') = dom (ol_tool_calls st).
Proof.
  apply (rfold_ind (fun st1 => dom (ol_tool_calls st1) = dom (ol_tool_calls st))); [done|].
  intros st1 [i a] st2 _ Hd HH. unfold open_step in HH. cbv zeta in HH. do 6 step HH. injection HH as <-. cbn.
  apply ok_or_Ok in E0. rewrite dom_insert_L, <- Hd. apply elem_of_dom_2 in E0. set_solver.
Qed.

Lemma apply_tool_batch_opened_log g s o s' : apply_tool_batch_opened s o = Ok s' -> log_step g s s'.
Proof.
  unfold apply_tool_batch_opened. intros HH. do 4 step HH. injection HH as <-. apply open_steps_dom in E2. cbn in E2.
  constructor; cbn; rewrite ?E2; first [lia|set_solver].
Qed.

Lemma apply_tool_call_settled_log s t r s' :
  apply_tool_call_settled s t r = Ok s' -> log_step (touched (RecordBody_ToolCallSettled t)) s s'.
Proof.
  assert (forall m s1, settle_identity s t m = Ok s1 -> log_keeps s s1) as Hi.
  { unfold settle_identity. intros m s1 HH. peel HH; subst; try reflexivity. by eapply insert_tool_identity_log. }
  unfold apply_tool_call_settled. intros HH. peel HH. subst.
  match goal with HS : settle_identity _ _ _ = Ok _ |- _ => apply Hi in HS; eapply log_step_pre; [exact HS|] end.
  constructor; cbn; rewrite ?length_app; cbn; first [lia|set_solver].
Qed.

Lemma apply_timer_fired_log s f s' :
  apply_timer_fired s f = Ok s' -> log_step (touched (RecordBody_TimerFired f)) s s'.
Proof. unfold apply_timer_fired. intros HH. peel HH; subst; grown. Qed.

Lemma apply_child_run_prepared_log s p s' :
  apply_child_run_prepared s p = Ok s' -> log_step (touched (RecordBody_ChildRunPrepared p)) s s'.
Proof.
  unfold apply_child_run_prepared. intros HH. do 4 step HH. injection HH as <-.
  step E2; [step E2|]; injection E2 as <-; grown.
Qed.

(** Rewriting an existing reservation keeps the keys. *)
Lemma reservation_update_log g s id r r' v :
  k_budget_reservations s !! id = Some r ->
  log_step g s (raise_version v (with_budget_reservations (<[id := r']> (k_budget_reservations s)) s)).
Proof. intros Hr%elem_of_dom_2. grown. Qed.

Lemma budget_handlers_log s record next s' :
  match rec_body record with
  | RecordBody_BudgetReservationRequested _ | RecordBody_BudgetReservationSettled _
  | RecordBody_BudgetChargeRecorded _ | RecordBody_BudgetReservationReleased _ => True
  | _ => False
  end ->
  apply_body s record next = Ok s' -> log_step (touched (rec_body record)) s s'.
Proof.
  unfold apply_body. intros Hk HH. destruct (rec_body record); try done.
  - unfold apply_budget_reservation_requested in HH. do 3 step HH. injection HH as <-.
    step E1; [step E1|]; injection E1 as <-; grown.
  - unfold apply_budget_reservation_settled in HH. do 4 step HH. injection HH as <-. apply ok_or_Ok in E0.
    step E2; [step E2|]; injection E2 as <-; [grown|by eapply reservation_update_log].
  - unfold apply_budget_charge_recorded in HH. do 4 step HH. injection HH as <-.
    step E2; [step E2|]; injection E2 as <-; grown.
  - unfold apply_budget_reservation_released in HH. do 4 step HH. injection HH as <-. apply ok_or_Ok in E0.
    step E2; [step E2|]; injection E2 as <-; [grown|by eapply reservation_update_log].
Qed.

Lemma apply_effect_completed_log s c next s' :
  apply_effect_completed s c next = Ok s' -> log_step (touched (RecordBody_EffectCompleted c)) s s'.
Proof.
  unfold apply_effect_completed, touched. intros HH. destruct (oc_kind (cpl_output_contract c));
    try (apply log_keeps_step; step HH; [by eapply apply_compaction_completed_log|by eapply apply_model_completed_log]).
  - apply log_keeps_step. by eapply apply_tool_effect_completed_log.
  - by eapply apply_extension_settled_log; [|exact HH].
  - by eapply apply_extension_settled_log; [|exact HH].
  - apply log_keeps_step. by eapply apply_interaction_effect_terminal_log.
Qed.

Lemma apply_effect_failed_log s f s' :
  apply_effect_failed s f = Ok s' -> log_step (touched (RecordBody_EffectFailed f)) s s'.
Proof.
  unfold apply_effect_failed, touched. intros HH. destruct (oc_kind (fld_output_contract f));
    try (apply log_keeps_step; do 3 step HH; injection HH as <-; apply insert_model_identity_log in E1;
         etrans; [exact E1|logged]).
  - apply log_keeps_step. by eapply apply_tool_effect_failed_log.
  - by eapply apply_extension_settled_log; [|exact HH].
  - by eapply apply_extension_settled_log; [|exact HH].
  - apply log_keeps_step. by eapply apply_interaction_effect_terminal_log.
Qed.
End Growers.

(** ** One record, one batch *)

Section Batches.
Context `{Hasher, Serde}.
Implicit Types s : KernelState.

Lemma apply_body_log s record next s' :
  apply_body s record next = Ok s' -> log_step (touched (rec_body record)) s s'.
Proof.
  intros HH.
  destruct (rec_body record) eqn:Hb;
    try (rewrite <- Hb; eapply budget_handlers_log; [by rewrite Hb|exact HH]);
    unfold apply_body in HH; rewrite Hb in HH;
    try (injection HH as <-; apply log_keeps_step; logged).
  - apply log_keeps_step. by eapply apply_effect_requested_log.
  - apply log_keeps_step. unfold apply_effect_deferred in HH. log_keep HH.
  - step HH. apply apply_completed_usage_form in E as [u ->]. apply apply_effect_completed_log in HH.
    eapply log_step_pre; [|exact HH]. logged.
  - by apply apply_effect_failed_log.
  - apply log_keeps_step. by eapply apply_effect_cancelled_log.
  - apply log_keeps_step. by eapply apply_interaction_requested_log.
  - apply log_keeps_step. unfold apply_interaction_resolved, apply_interaction_terminal_outcome in HH. log_keep HH.
  - apply log_keeps_step. unfold apply_interaction_terminal_outcome in HH. log_keep HH.
  - apply log_keeps_step. unfold apply_interaction_terminal_outcome in HH. log_keep HH.
  - by apply apply_stage_outcome_log.
  - apply log_keeps_step. unfold apply_context_prepared in HH. log_keep HH.
  - by apply apply_entry_appended_log.
  - step HH. apply record_tool_batch_usage_form in E as [u ->]. eapply log_step_pre;
      [|by eapply apply_tool_batch_opened_log]. logged.
  - by eapply apply_tool_call_settled_log.
  - apply log_keeps_step. by eapply apply_tool_batch_closed_log.
  - apply log_keeps_step. unfold apply_cancellation_requested in HH. log_keep HH.
  - apply log_keeps_step. by eapply apply_cancellation_reconciled_log.
  - apply log_keeps_step. step HH. injection HH as <-. trans a; [|logged]. unfold apply_limit_reached in E. log_keep E.
  - by apply apply_timer_fired_log.
  - apply log_keeps_step. injection HH as <-. unfold apply_run_failed. cbv zeta. case_match; logged.
  - apply log_keeps_step. unfold apply_output_configured in HH. log_keep HH.
  - apply log_keeps_step. unfold apply_capabilities_activated in HH. log_keep HH.
  - apply log_keeps_step. unfold apply_final_result in HH. log_keep HH.
  - apply log_keeps_step. unfold apply_validation_failure in HH. log_keep HH.
  - by apply apply_child_run_prepared_log.
Qed.

Lemma apply_record_log s record next s' :
  apply_record s record next = Ok s' -> log_step (touched (rec_body record)) s s'.
Proof.
  intros [->|[u HH]]%apply_record_cases; [by apply log_keeps_step|].
  eapply log_step_pre; [|by apply (apply_body_log _ _ next)]. logged.
Qed.

Lemma fresh_set_cover `{Countable K} {V} (m : gmap K V) k : {[ k ]} ⊆ dom m ∪ fresh_set m k.
Proof.
  unfold fresh_set. destruct (m !! k) eqn:E; simpl; [|set_solver]. apply elem_of_dom_2 in E. set_solver.
Qed.

Lemma observed_calls_cover s m :
  list_to_set (tc_tool_call_id <$> assistant_tool_calls m true) ⊆ dom (k_tool_calls s) ∪ observe_tool_calls s m.
Proof.
  intros id Hid. apply elem_of_list_to_set, list_elem_of_fmap in Hid as (c & -> & Hc).
  unfold assistant_tool_calls in Hc. apply list_elem_of_omap in Hc as (block & Hb & Hc).
  destruct block; try done. destruct (_ || _); [|done]. injection Hc as ->.
  destruct (k_tool_calls s !! tc_tool_call_id c) eqn:E; [apply elem_of_dom_2 in E; set_solver|].
  apply elem_of_union. right. unfold observe_tool_calls. apply elem_of_list_to_set, list_elem_of_omap.
  exists (ContentBlock_ToolCall c). by rewrite E.
Qed.

(** The preflight counts every key a record inserts, unless it is there. *)
Lemma touched_cover s body :
  (bg_messages (touched body) <= bg_messages (observed s body))%nat /\
  bg_stage_keys (touched body) ⊆ dom (k_stage_settlements s) ∪ bg_stage_keys (observed s body) /\
  bg_extension_keys (touched body) ⊆ dom (k_extension_settlements s) ∪ bg_extension_keys (observed s body) /\
  bg_tool_call_keys (touched body) ⊆ dom (k_tool_calls s) ∪ bg_tool_call_keys (observed s body) /\
  bg_timer_firing_keys (touched body) ⊆
    dom (rst_timer_firings (k_retry s)) ∪ bg_timer_firing_keys (observed s body) /\
  bg_child_preparation_keys (touched body) ⊆
    dom (k_child_preparations s) ∪ bg_child_preparation_keys (observed s body) /\
  bg_budget_reservation_keys (touched body) ⊆
    dom (k_budget_reservations s) ∪ bg_budget_reservation_keys (observed s body) /\
  bg_budget_charge_keys (touched body) ⊆ dom (k_budget_charges s) ∪ bg_budget_charge_keys (observed s body).
Proof.
  destruct body; cbn [touched observed];
    try match goal with |- context [match ?k with EffectOutputKind_ModelResponse => _ | _ => _ end] => destruct k end;
    split_and!;
    first [reflexivity | apply Nat.le_0_l | apply empty_subseteq | apply fresh_set_cover | apply observed_calls_cover].
Qed.

Lemma cover_join {A} `{Countable A} (d0 d1 d2 k1 k2 o : gset A) :
  d1 ⊆ d0 ∪ k1 -> d2 ⊆ d1 ∪ k2 -> k2 ⊆ d0 ∪ o -> d2 ⊆ d0 ∪ (k1 ∪ o).
Proof. set_solver. Qed.

Lemma touched_observed s0 body g s1 s2 :
  log_step g s0 s1 -> log_step (touched body) s1 s2 -> log_step (growth_join g (observed s0 body)) s0 s2.
Proof.
  destruct (touched_cover s0 body) as (M0 & ? & ? & ? & ? & ? & ? & ?).
  intros [M1 ???????] [M2 ???????]. constructor; [cbn; lia|by eapply cover_join..].
Qed.

Lemma semantic_log s0 records : forall g acc acc',
  log_step g s0 acc.1 -> rfold semantic_step acc (with_next records) = Ok acc' ->
  log_step (foldl (observe s0) g records) s0 acc'.1.
Proof.
  induction records as [|r records IH]; intros g [s1 cs] acc' Hl HH; simpl in HH; [by injection HH as <-|].
  step HH. step E. injection E as <-. simpl foldl. eapply IH; [|exact HH].
  apply (log_step_post _ _ a0); [|logged]. eapply touched_observed; [exact Hl|]. by eapply apply_record_log.
Qed.

Definition within_capacity (s : KernelState) : Prop :=
  (length (k_messages s) <= SEMANTIC_ARRAY_MAX_ITEMS)%nat /\
  (size (k_stage_settlements s) <= SEMANTIC_MAP_MAX_ENTRIES)%nat /\
  (size (k_extension_settlements s) <= SEMANTIC_MAP_MAX_ENTRIES)%nat /\
  (size (k_tool_calls s) <= SEMANTIC_MAP_MAX_ENTRIES)%nat /\
  (size (rst_timer_firings (k_retry s)) <= SEMANTIC_MAP_MAX_ENTRIES)%nat /\
  (size (k_child_preparations s) <= SEMANTIC_MAP_MAX_ENTRIES)%nat /\
  (size (k_budget_reservations s) <= SEMANTIC_MAP_MAX_ENTRIES)%nat /\
  (size (k_budget_charges s) <= SEMANTIC_MAP_MAX_ENTRIES)%nat.

Lemma size_within `{Countable K} {V} (m0 m : gmap K V) (keys : gset K) f max :
  dom m ⊆ dom m0 ∪ keys -> check f (size m0) (size keys) max = Ok tt -> (size m <= max)%nat.
Proof.
  intros Hsub Hc. unfold check in Hc. apply reject_if_Ok, Nat.ltb_ge in Hc. rewrite <- size_dom.
  pose proof (subseteq_size _ _ Hsub). pose proof (size_union_alt (dom m0) keys) as Hu.
  pose proof (subseteq_size (keys ∖ dom m0) keys ltac:(set_solver)). rewrite size_dom in Hu. lia.
Qed.

(** A batch that passes the preflight leaves the state within capacity. *)
Lemma apply_within s b t s' events : apply s b t = Ok (s', events) -> within_capacity s'.
Proof.
  intros [c [_ _ _ _ _ _ _ _ Hcap HH _]]%apply_step. unfold apply_semantic_records in HH. step HH.
  injection HH as <- _. apply (semantic_log s _ BatchGrowth_default) in E; [|by apply log_keeps_step].
  unfold preflight_batch, growth_check in Hcap. set (g := foldl _ _ _) in *. clearbody g.
  do 11 step Hcap. repeat match goal with u : unit |- _ => destruct u end.
  assert (log_keeps a.1 (enter_before_run a.1)) as Hk by (unfold enter_before_run; case_match; logged).
  apply (log_step_post _ _ _ _ E) in Hk as []. unfold within_capacity. split_and!;
    try (by eapply size_within).
  unfold check in E0. apply reject_if_Ok, Nat.ltb_ge in E0. lia.
Qed.

Lemma reachable_within s : reachable s -> within_capacity s.
Proof.
  induction 1 as [|s b t s' ev Hr IH HH|s n s' Hr IH HH].
  - unfold within_capacity. cbn. rewrite !map_size_empty. split_and!; lia.
  - by eapply apply_within.
  - by apply adopt_form in HH as [-> _].
Qed.

(** The four collections whose ceilings are not derived from the preflight. *)
Definition settlements_within (s : KernelState) : Prop :=
  (size (k_model_settlements s) <= SEMANTIC_MAP_MAX_ENTRIES)%nat /\
  (size (k_completion_identities s) <= SEMANTIC_MAP_MAX_ENTRIES)%nat /\
  (size (k_resolution_identities s) <= SEMANTIC_MAP_MAX_ENTRIES)%nat /\
  (size (k_tool_settlements s) <= SEMANTIC_MAP_MAX_ENTRIES)%nat.

(** A batch that adds to no collection passes the preflight of a reachable
    kernel whose settlements are within their ceilings. *)
Lemma reachable_growth s : reachable s -> settlements_within s -> growth_check BatchGrowth_default s = Ok tt.
Proof.
  intros (H1 & H2 & H3 & H4 & H5 & H6 & H7 & H8)%reachable_within (G1 & G2 & G3 & G4). unfold growth_check, check, BatchGrowth_default.
  cbn [bg_messages bg_stage_keys bg_model_keys bg_extension_keys bg_completion_keys bg_resolution_keys bg_tool_call_keys
    bg_tool_settlement_keys bg_timer_firing_keys bg_child_preparation_keys bg_budget_reservation_keys bg_budget_charge_keys].
  rewrite ?size_empty, ?Nat.add_0_r.
  repeat (rewrite (proj2 (Nat.ltb_ge _ _)) by done; cbn [reject_if rbind]). done.
Qed.
End Batches.

(** * Cancellation

    The effects a cancellation has to account for are exactly the pending ones,
    listed once and in order; reconciliation removes exactly what it
    classifies, and no batch ever adds to the list or changes the request. *)

(** ** The outstanding effects *)

(** The effect [e] was requested and nothing has settled it: the model call,
    a tool call in flight, the open interaction, the extension, the timer. *)
Inductive outstanding (s : KernelState) (e : EffectId) : Prop :=
| outstanding_model p : k_pending_model_effect s = Some p -> req_effect_id (pme_requested p) = e -> outstanding s e
| outstanding_tool b c : k_active_tool_batch s = Some b -> c ∈ atb_calls b ->
    is_requested (atc_status c) = true -> asg_effect_id (atc_assigned c) = e -> outstanding s e
| outstanding_interaction p : k_pending_interaction s = Some p -> ir_effect_id (pin_request p) = e -> outstanding s e
| outstanding_extension p : k_pending_extension_effect s = Some p -> req_effect_id (pxe_requested p) = e ->
    outstanding s e
| outstanding_timer r : rst_pending (k_retry s) = Some r -> rs_timer_effect_id r = e -> outstanding s e.

Lemma dedup_sorted (l : list N) : StronglySorted N.le l -> StronglySorted N.lt (dedup l).
Proof.
  induction 1 as [|a l Hl IH Ha]; [constructor|]. destruct l as [|b l]; [repeat constructor|].
  simpl. simpl in IH. destruct (a =?? b) eqn:Hab; [done|]. apply eqb_false in Hab.
  constructor; [done|]. apply Forall_forall. intros x Hx.
  change (x ∈ dedup (b :: l)) in Hx. apply (proj1 (dedup_elem _ _)) in Hx.
  apply StronglySorted_inv in Hl as [_ Hb]. rewrite Forall_forall in Hb, Ha.
  assert (a <= b)%N by (apply Ha; set_solver). apply elem_of_cons in Hx as [->|Hx]; [lia|].
  specialize (Hb x Hx). lia.
Qed.

(** ** Binary search *)

Lemma sorted_lookup_lt l i j x y :
  StronglySorted N.lt l -> l !! i = Some x -> l !! j = Some y -> (i < j)%nat -> (x < y)%N.
Proof.
  intros Hl. revert i j. induction Hl as [|a l Hl IH Ha]; intros i j Hi Hj Hij; [done|].
  destruct j as [|j]; [lia|]. destruct i as [|i]; simpl in *.
  - simplify_eq. rewrite Forall_forall in Ha. apply Ha. by eapply list_elem_of_lookup_2.
  - eapply IH; [done..|lia].
Qed.

(** The window keeps every occurrence of the wanted element. *)
Lemma bisect_finds l e : StronglySorted N.lt l ->
  forall fuel base size k, (size <= S fuel)%nat -> (base + size <= length l)%nat ->
    (base <= k < base + size)%nat -> l !! k = Some e -> bisect fuel l e base size = k.
Proof.
  intros Hl. induction fuel as [|fuel IH]; intros base size k Hf Hb Hk He; cbn [bisect]; [lia|].
  case_match eqn:Hs; [apply Nat.leb_le in Hs; lia|]. apply Nat.leb_gt in Hs.
  assert (0 < size / 2 < size)%nat as Hh by (split; [apply Nat.div_str_pos; lia|apply Nat.div_lt; lia]).
  pose proof (Nat.Div0.mul_div_le size 2).
  destruct (lookup_lt_is_Some_2 l (base + size / 2)%nat) as [x Hx]; [lia|]. rewrite Hx; cbn [is_some_and].
  destruct (x <=? e)%N eqn:Hle.
  - apply N.leb_le in Hle. apply IH; [lia..| |done]. split; [|lia].
    destruct (decide (k < base + size / 2)%nat) as [Hlt|]; [|lia].
    pose proof (sorted_lookup_lt l _ _ _ _ Hl He Hx Hlt). lia.
  - apply N.leb_gt in Hle. apply IH; [lia..| |done]. split; [lia|].
    destruct (decide (k = base + size / 2)%nat) as [->|]; [rewrite He in Hx; simplify_eq; lia|].
    destruct (decide (base + size / 2 < k)%nat) as [Hlt|]; [|lia].
    pose proof (sorted_lookup_lt l _ _ _ _ Hl Hx He Hlt). lia.
Qed.

Lemma sorted_contains_elem l e : StronglySorted N.lt l -> sorted_contains l e = true <-> e ∈ l.
Proof.
  intros Hl. unfold sorted_contains. split.
  - destruct (l !! _) as [x|] eqn:Hx; [|done]. cbn [is_some_and]. intros ->%eqb_eq. by eapply list_elem_of_lookup_2.
  - intros [k Hk]%list_elem_of_lookup_1. pose proof (lookup_lt_Some _ _ _ Hk).
    rewrite (bisect_finds l e Hl _ _ _ k); [|lia|lia|lia|done]. rewrite Hk. apply eqb_refl.
Qed.

Lemma outstanding_sorted s : StronglySorted N.lt (outstanding_requested_effects s).
Proof.
  unfold outstanding_requested_effects. cbv zeta. apply dedup_sorted.
  apply Sorted_StronglySorted; [intros x y z; lia|]. apply (Sorted_merge_sort N.le).
Qed.

Lemma outstanding_iff s e : e ∈ outstanding_requested_effects s <-> outstanding s e.
Proof.
  unfold outstanding_requested_effects. cbv zeta. rewrite dedup_elem, merge_sort_Permutation, !elem_of_app.
  split.
  - intros [Hm|[Ht|[Hi|[Hx|Hr]]]].
    + destruct (k_pending_model_effect s) eqn:E; [|by apply elem_of_nil in Hm].
      apply list_elem_of_singleton in Hm as ->. by eapply outstanding_model.
    + destruct (k_active_tool_batch s) as [b|] eqn:E; [|by apply elem_of_nil in Ht].
      apply list_elem_of_omap in Ht as (c & Hc & Hs). destruct (is_requested (atc_status c)) eqn:Hr; [|done].
      injection Hs as <-. by eapply outstanding_tool.
    + destruct (k_pending_interaction s) eqn:E; [|by apply elem_of_nil in Hi].
      apply list_elem_of_singleton in Hi as ->. by eapply outstanding_interaction.
    + destruct (k_pending_extension_effect s) eqn:E; [|by apply elem_of_nil in Hx].
      apply list_elem_of_singleton in Hx as ->. by eapply outstanding_extension.
    + destruct (rst_pending (k_retry s)) eqn:E; [|by apply elem_of_nil in Hr].
      apply list_elem_of_singleton in Hr as ->. by eapply outstanding_timer.
  - intros [p E <-|b c E Hc Hr <-|p E <-|p E <-|r E <-]; rewrite E.
    + left. by apply list_elem_of_singleton.
    + right. left. apply list_elem_of_omap. exists c. by rewrite Hr.
    + right. right. left. by apply list_elem_of_singleton.
    + do 3 right. left. by apply list_elem_of_singleton.
    + do 4 right. by apply list_elem_of_singleton.
Qed.

(** ** Reconciliation *)

Lemma reconcile_outstanding c r e :
  e ∈ cs_outstanding_effects (reconcile_cancellation c r) <->
  e ∈ cs_outstanding_effects c /\
  e ∉ crc_completed_effects r ++ crc_cancelled_effects r ++ crc_uncertain_effects r.
Proof.
  cbn. rewrite !list_elem_of_In, filter_In, <- !list_elem_of_In. unfold classified_effects.
  rewrite negb_true_iff, bool_decide_eq_false, elem_of_list_to_set. done.
Qed.

(** ** Across batches *)

Section Follows.
Context `{Hasher, Serde}.
Implicit Types s : KernelState.

Lemma quiet_records_follow s (entries : list (RecordEnvelope * option RecordEnvelope)) acc :
  (forall record, record ∈ entries.*1 -> is_boundary (rec_body record) = false) ->
  rfold semantic_step (s, []) entries = Ok acc -> cancellation_follows (k_cancellation s) (k_cancellation acc.1).
Proof.
  intros Hq. apply (records_ind (fun s1 => cancellation_follows (k_cancellation s) (k_cancellation s1)));
    [done| |reflexivity].
  intros s1 record next s2 Hin Hs1 HH. etrans; [exact Hs1|].
  by apply (kr_cancellation _ _ (quiet_record_keeps _ _ _ _ (Hq _ Hin) HH)).
Qed.

Lemma boundary_record_follows s record next s' :
  (forall c, rec_body record = RecordBody_CancellationRequested c -> False) ->
  apply_record s record next = Ok s' -> cancellation_follows (k_cancellation s) (k_cancellation s').
Proof.
  intros Hc HH. destruct (is_boundary (rec_body record)) eqn:Hb;
    [|by apply (kr_cancellation _ _ (quiet_record_keeps _ _ _ _ Hb HH))].
  apply apply_record_cases in HH as [->|[u HH]]; [reflexivity|]. unfold apply_body in HH.
  destruct (rec_body record); try discriminate Hb; try (injection HH as <-; try reflexivity).
  - by destruct (Hc value).
  - unfold apply_run_failed. cbv zeta. case_match; reflexivity.
Qed.

Lemma follows_before_run s o :
  cancellation_follows o (k_cancellation s) -> cancellation_follows o (k_cancellation (enter_before_run s)).
Proof. unfold enter_before_run. by case_match. Qed.

(** A batch keeps the request of a cancellation and only shrinks what is
    outstanding. *)
Lemma apply_cancellation_follows s b t s' events :
  control_ok s -> apply s b t = Ok (s', events) -> cancellation_follows (k_cancellation s) (k_cancellation s').
Proof.
  intros Hok [c [Hrange _ Hterm _ Hshape _ _ _ _ HH _]]%apply_step. apply records_not_nil in Hrange.
  unfold apply_semantic_records in HH. step HH. injection HH as <- _. apply follows_before_run.
  destruct (batch_kind s _ Hok Hrange Hterm Hshape) as [Hf|[Hn|(Hnone & Hlive & Hlast)]].
  - destruct (foreign_end _ _ _ Hf E) as [n ->]. reflexivity.
  - eapply quiet_records_follow; [|exact E]. intros record Hin.
    apply list_elem_of_fmap in Hin as ([r o] & -> & Hin%with_next_elem).
    rewrite Forall_fmap, Forall_forall in Hn. eapply leads_quiet; [by apply (Hn r)|done].
  - destruct Hlast as (before & final & Hb & Hq & _ & Hc).
    destruct (semantic_split _ _ _ _ _ Hb E) as (init & record & acc1 & s2 & _ & Hr & Hi & Hinit & Hlast & Ha).
    rewrite Ha. change (k_cancellation (with_last_applied_sequence (rec_sequence record) s2)) with (k_cancellation s2).
    destruct (k_cancellation s) as [cancellation|] eqn:Hcanc; [rewrite <- Hcanc|by intros ? ?].
    etrans; [eapply quiet_records_follow; [|exact Hinit]; intros; by eapply entries_quiet|].
    eapply boundary_record_follows; [|exact Hlast]. intros c' Hc'.
    by discriminate (Hc c' ltac:(by rewrite <- Hr)).
Qed.
End Follows.
