(* ===== verification/ConversationTree.v ===== *)
(** * What a session keeps of its conversations

    The walk of a branch is the rooted path of its leaf; every projection that
    replays a journal is a forest whose lanes end in existing entries; entries
    never change; previews agree with the records they preview.

    The second part is about the tool pairs of a history and previews. *)

From S2P Require Import Prelude Primitives Effects Records State Inputs Decide Conversation.

(** ** Rooted paths *)

(** The entries from the root of a branch down to [id]. *)
Inductive rooted (entries : Entries) : EntryId -> list ConversationEntry -> Prop :=
| rooted_root id e : entries !! id = Some e -> ce_parent_id e = None -> rooted entries id [e]
| rooted_child id e parent path :
    entries !! id = Some e -> ce_parent_id e = Some parent -> rooted entries parent path ->
    rooted entries id (path ++ [e]).

Section Walk.
Context (entries : Entries).

Lemma rooted_fun id l1 l2 : rooted entries id l1 -> rooted entries id l2 -> l1 = l2.
Proof.
  intros H1. revert l2. induction H1 as [id e He Hp|id e parent path He Hp _ IH];
    intros l2 H2; inversion H2 as [? ? He' Hp'|? ? ? ? He' Hp' Hpath]; simplify_eq; [done|].
  by rewrite (IH _ Hpath).
Qed.

(** The loop ends within one turn per entry and one more. *)
Lemma walk_loop_total fuel : forall walk seen current,
  seen ⊆ dom entries -> (size entries < fuel + size seen)%nat ->
  is_Some (walk_loop fuel entries walk seen current).
Proof.
  induction fuel as [|fuel IH]; intros walk seen [id|] Hseen Hsize; cbn [walk_loop]; try by eexists.
  { pose proof (subseteq_size seen (dom entries) Hseen) as Hle. rewrite size_dom in Hle. lia. }
  case_decide as Hin; [by eexists|]. destruct (entries !! id) as [e|] eqn:He; [|by eexists].
  apply IH.
  - apply elem_of_dom_2 in He. set_solver.
  - rewrite size_union, size_singleton by set_solver. lia.
Qed.

Lemma walk_loop_rooted fuel : forall walk seen id l r,
  rooted entries id l ->
  (forall x lx, x ∈ seen -> rooted entries x lx -> (length l < length lx)%nat) ->
  walk_loop fuel entries walk seen (Some id) = Some r -> r = Ok (l ++ reverse walk).
Proof.
  induction fuel as [|fuel IH]; intros walk seen id l r Hl Hseen HH; cbn [walk_loop] in HH; [done|].
  case_decide as Hin; [by specialize (Hseen id l Hin Hl); lia|].
  inversion Hl as [? e He Hp|? e parent path He Hp Hpath]; subst; rewrite He in HH.
  - rewrite Hp in HH. destruct fuel; cbn [walk_loop] in HH; injection HH as <-; by rewrite reverse_snoc.
  - rewrite Hp in HH. eapply IH in HH; [|done|].
    + by rewrite HH, reverse_snoc, <- app_assoc.
    + intros x lx [->%elem_of_singleton|Hx]%elem_of_union Hlx.
      * rewrite (rooted_fun _ _ _ Hlx Hl), length_app. simpl. lia.
      * specialize (Hseen x lx Hx Hlx). rewrite length_app in Hseen. lia.
Qed.

Lemma walk_loop_sound fuel : forall walk seen id r,
  walk_loop fuel entries walk seen (Some id) = Some (Ok r) -> exists l, rooted entries id l /\ r = l ++ reverse walk.
Proof.
  induction fuel as [|fuel IH]; intros walk seen id r HH; cbn [walk_loop] in HH; [done|].
  case_decide as Hin; [done|]. destruct (entries !! id) as [e|] eqn:He; [|done].
  destruct (ce_parent_id e) as [parent|] eqn:Hp.
  - apply IH in HH as (l & Hl & ->). exists (l ++ [e]). split; [by econstructor|].
    by rewrite reverse_snoc, <- app_assoc.
  - destruct fuel; cbn [walk_loop] in HH; injection HH as <-; rewrite reverse_snoc; exists [e];
      (split; [by constructor|done]).
Qed.

(** A branch that starts in the map can fail only above its leaf. *)
Lemma walk_loop_missing_leaf fuel walk seen id :
  entries !! id = None -> id ∉ seen -> walk_loop (S fuel) entries walk seen (Some id)
    = Some (Err (match walk with [] => ConversationError_MissingLeaf | _ => ConversationError_MissingParent end)).
Proof. intros He Hs. cbn [walk_loop]. by rewrite decide_False, He. Qed.

Lemma walk_conversation_loop id : walk_loop (S (size entries)) entries [] ∅ (Some id) = Some (walk_conversation entries id).
Proof.
  unfold walk_conversation. destruct (walk_loop_total (S (size entries)) [] ∅ (Some id)) as [r ->]; [set_solver| |done].
  rewrite size_empty. lia.
Qed.

Lemma walk_loop_errors fuel : forall walk seen current e, walk_loop fuel entries walk seen current = Some (Err e) ->
  e = ConversationError_Cycle \/ e = ConversationError_MissingLeaf \/ e = ConversationError_MissingParent.
Proof.
  induction fuel as [|fuel IH]; intros walk seen [id|] e HH; cbn [walk_loop] in HH; try done.
  case_decide; [injection HH as <-; auto|]. destruct (entries !! id); [by eapply IH|]. injection HH as <-. destruct walk; auto.
Qed.

Lemma walk_rooted id l : walk_conversation entries id = Ok l <-> rooted entries id l.
Proof.
  pose proof (walk_conversation_loop id) as Hloop. split.
  - intros HH. rewrite HH in Hloop. apply walk_loop_sound in Hloop as (l' & Hl & ->).
    by rewrite reverse_nil, app_nil_r.
  - intros Hl. eapply walk_loop_rooted in Hloop; [|done|set_solver]. by rewrite Hloop, reverse_nil, app_nil_r.
Qed.
End Walk.

(** ** Forests *)

Record forest (entries : Entries) : Prop := {
  fo_keyed : forall id e, entries !! id = Some e -> ce_id e = id;
  fo_rooted : forall id, is_Some (entries !! id) -> exists l, rooted entries id l
}.

Lemma forest_empty : forest ∅.
Proof. split; intros id; [intros e|]; rewrite lookup_empty; [done|by intros []]. Qed.

Lemma rooted_grows entries entries' id l : entries ⊆ entries' -> rooted entries id l -> rooted entries' id l.
Proof.
  intros Hsub. induction 1 as [id e He Hp|id e parent path He Hp _ IH];
    [apply rooted_root|eapply rooted_child]; try done; by eapply lookup_weaken.
Qed.

Lemma forest_insert entries e :
  forest entries -> entries !! ce_id e = None ->
  (forall parent, ce_parent_id e = Some parent -> is_Some (entries !! parent)) -> forest (<[ce_id e := e]> entries).
Proof.
  intros [Hk Hr] Hfresh Hparent.
  assert (entries ⊆ <[ce_id e := e]> entries) as Hsub by by apply insert_subseteq.
  split.
  - intros id e'. rewrite lookup_insert_Some. intros [[<- <-]|[_ He']]; [done|by apply Hk].
  - intros id [e' [[<- <-]|[Hne He']]%lookup_insert_Some].
    + destruct (ce_parent_id e) as [parent|] eqn:Hp.
      * destruct (Hr parent) as [l Hl]; [by apply Hparent|]. exists (l ++ [e]).
        eapply rooted_child; [apply lookup_insert_eq|done|by eapply rooted_grows].
      * exists [e]. apply rooted_root; [apply lookup_insert_eq|done].
    + destruct (Hr id) as [l Hl]; [by eexists|]. exists l. by eapply rooted_grows.
Qed.

Lemma preview_parent committed staged e :
  preview_conversation_entry committed staged e = Ok tt ->
  forall parent, ce_parent_id e = Some parent -> is_Some (committed !! parent) \/ is_Some (staged !! parent).
Proof.
  unfold preview_conversation_entry. intros HH parent Hp. step HH. clear HH. apply reject_if_Ok in E. rewrite Hp in E.
  cbn [is_some_and] in E. apply andb_false_iff in E as [E|E]; apply is_none_false in E; [left|right]; exact E.
Qed.

(** What one applied entry does to the map. *)
Lemma apply_conversation_entry_spec entries e entries' :
  apply_conversation_entry entries e = Ok entries' ->
  (forall parent, ce_parent_id e = Some parent -> is_Some (entries !! parent)) /\
  (entries !! ce_id e = None /\ entries' = <[ce_id e := e]> entries \/
   exists e', entries !! ce_id e = Some e' /\ same_committed_entry e' e = true /\ entries' = entries).
Proof.
  unfold apply_conversation_entry. intros HH. step HH. injection HH as <-. destruct a. split.
  { intros parent Hp. eapply preview_parent in E as [E|E]; [done| |done]. by rewrite lookup_empty in E; destruct E. }
  unfold preview_conversation_entry in E. step E. rewrite lookup_empty in E. unfold or_else in E.
  destruct (entries !! ce_id e) as [e'|] eqn:He; [|by left]. right. exists e'. step E. done.
Qed.

Lemma apply_conversation_entry_forest entries e entries' :
  apply_conversation_entry entries e = Ok entries' -> forest entries ->
  forest entries' /\ entries ⊆ entries' /\ is_Some (entries' !! ce_id e).
Proof.
  intros HH Hf. apply apply_conversation_entry_spec in HH as [Hp [[Hfresh ->]|(e' & He & _ & ->)]].
  - split_and!; [by apply forest_insert|by apply insert_subseteq|rewrite lookup_insert_eq; by eexists].
  - split_and!; [done..|by eexists].
Qed.

(** ** Sessions *)

Record session_ok (p : SessionProjection) : Prop := {
  so_forest : forest (sp_entries p);
  so_names : forall a b la lb, sp_lanes p !! a = Some la -> sp_lanes p !! b = Some lb -> lp_name la = lp_name lb -> a = b;
  so_leaves : forall a la leaf, sp_lanes p !! a = Some la -> lp_leaf_id la = Some leaf -> is_Some (sp_entries p !! leaf);
  so_operations : forall r op, sp_operations p !! r = Some op -> os_run_id op = r
}.

(** Later projections of a session keep its entries, its lanes with their names,
    and its operations; a terminal operation stays terminal. *)
Definition lane_follows (l l' : LaneProjection) : Prop :=
  lp_name l' = lp_name l /\ (is_Some (lp_leaf_id l) -> is_Some (lp_leaf_id l')).
Definition operation_follows (o o' : OperationSummary) : Prop :=
  os_run_id o' = os_run_id o /\ os_lane_id o' = os_lane_id o /\ os_relation o' = os_relation o /\
  os_security o' = os_security o /\ os_propagation o' = os_propagation o /\
  (os_terminal o = true -> os_terminal o' = true).

Record session_extends (p p' : SessionProjection) : Prop := {
  se_session : forall sid, sp_session_id p = Some sid -> sp_session_id p' = Some sid;
  se_entries : sp_entries p ⊆ sp_entries p';
  se_lanes : forall a l, sp_lanes p !! a = Some l -> exists l', sp_lanes p' !! a = Some l' /\ lane_follows l l';
  se_operations : forall r o, sp_operations p !! r = Some o ->
    exists o', sp_operations p' !! r = Some o' /\ operation_follows o o'
}.

#[global] Instance lane_follows_preorder : PreOrder lane_follows.
Proof. split; [done|]. intros a b c [H1 H2] [H3 H4]. split; [congruence|auto]. Qed.
#[global] Instance operation_follows_preorder : PreOrder operation_follows.
Proof. split; [done|]. unfold operation_follows. intros a b c (?&?&?&?&?&?) (?&?&?&?&?&?). split_and!; try congruence; auto. Qed.

#[global] Instance session_extends_preorder : PreOrder session_extends.
Proof.
  split.
  - intros p. split; [done..|intros a l Hl; by exists l|intros r o Ho; by exists o].
  - intros p q r [s1 e1 l1 o1] [s2 e2 l2 o2]. split; [by auto|by etrans| |].
    + intros a l (l' & Hl' & Hf)%l1. apply l2 in Hl' as (l'' & ? & ?). exists l''. split; [done|by etrans].
    + intros a l (l' & Hl' & Hf)%o1. apply o2 in Hl' as (l'' & ? & ?). exists l''. split; [done|by etrans].
Qed.

(** A step keeps the invariant and extends the projection. *)
Definition session_step (p p' : SessionProjection) : Prop := session_ok p -> session_ok p' /\ session_extends p p'.

Lemma session_step_refl p : session_step p p.
Proof. done. Qed.
Lemma session_step_trans p q r : session_step p q -> session_step q r -> session_step p r.
Proof. intros H1 H2 Hp. destruct (H1 Hp) as [Hq Hpq]. destruct (H2 Hq) as [Hr Hqr]. split; [done|by etrans]. Qed.

Lemma adopt_session_step sid p : session_step p (adopt_session sid p).
Proof.
  unfold adopt_session. destruct (is_none (sp_session_id p)) eqn:E; [|apply session_step_refl].
  apply is_none_true in E. intros [? ? ? ?]. split; [by split|]. split; [by rewrite E|done|..].
  - intros a l Hl. by exists l.
  - intros r o Ho. by exists o.
Qed.

Lemma metadata_step m p : session_step p (set_sp_metadata m p).
Proof. intros [? ? ? ?]. split; [by split|]. split; [done..|intros a l Hl; by exists l|intros r o Ho; by exists o]. Qed.

Lemma child_mappings_step m p : session_step p (set_sp_child_mappings m p).
Proof. intros [? ? ? ?]. split; [by split|]. split; [done..|intros a l Hl; by exists l|intros r o Ho; by exists o]. Qed.

(** Replacing one lane by a follower with an existing leaf. *)
Lemma set_lane_step a l leaf p :
  sp_lanes p !! a = Some l -> is_Some (sp_entries p !! leaf) ->
  session_step p (set_sp_lanes (<[a := set_leaf leaf l]> (sp_lanes p)) p).
Proof.
  intros Hl Hleaf [Hf Hn Hv Ho]. split.
  - split; cbn; [done| | |done].
    + assert (forall b lb, <[a := set_leaf leaf l]> (sp_lanes p) !! b = Some lb ->
                exists lb', sp_lanes p !! b = Some lb' /\ lp_name lb' = lp_name lb) as Hback.
      { intros b lb [[<- <-]|[_ Hb]]%lookup_insert_Some; [by exists l|by exists lb]. }
      intros b c lb lc (lb' & Hb & Hbn)%Hback (lc' & Hc & Hcn)%Hback Hne. eapply Hn; [done..|congruence].
    + intros b lb x [[<- <-]|[_ Hb]]%lookup_insert_Some Hx; [cbn in Hx; by simplify_eq|by eapply Hv].
  - split; cbn; [done..| |intros r o Hr; by exists o].
    intros b lb Hb. destruct (decide (a = b)) as [<-|Hne].
    + exists (set_leaf leaf l). rewrite lookup_insert_eq. simplify_eq. split; [done|]. split; [done|by eexists].
    + exists lb. by rewrite lookup_insert_ne.
Qed.

Lemma move_leaf_step a leaf p : is_Some (sp_entries p !! leaf) -> session_step p (move_leaf a leaf p).
Proof. intros Hleaf. unfold move_leaf. case_match; [by apply set_lane_step|apply session_step_refl]. Qed.

Lemma set_entries_step p e entries :
  apply_conversation_entry (sp_entries p) e = Ok entries ->
  session_step p (set_sp_entries entries p) /\ (session_ok p -> is_Some (entries !! ce_id e)).
Proof.
  intros He. split; [|by intros [Hf _ _ _]; eapply apply_conversation_entry_forest].
  intros [Hf Hn Hv Ho]. destruct (apply_conversation_entry_forest _ _ _ He Hf) as (Hf' & Hsub & _). split.
  - split; cbn; [done|done| |done]. intros a la leaf Ha Hl. destruct (Hv _ _ _ Ha Hl) as [x Hx]. exists x. by eapply lookup_weaken.
  - split; cbn; [done|done|intros a l Hl; by exists l|intros r o Hr; by exists o].
Qed.

Lemma apply_lane_created_step p a created p' : apply_lane_created p a created = Ok p' -> session_step p p'.
Proof.
  unfold apply_lane_created. intros HH. do 2 step HH. injection HH as <-. apply reject_if_Ok, is_some_false in E.
  apply reject_if_Ok in E0. rewrite existsb_false in E0.
  assert (forall b lb, sp_lanes p !! b = Some lb -> lp_name lb <> lnc_name created) as Hfresh.
  { intros b lb Hb. assert (lb ∈ sorted_values (sp_lanes p)) as Hin.
    { unfold sorted_values. apply list_elem_of_fmap. exists (b, lb). split; [done|].
      rewrite merge_sort_Permutation. by apply elem_of_map_to_list. }
    apply E0, eqb_false in Hin. done. }
  intros [Hf Hn Hv Ho]. split.
  - split; cbn; [done| | |done].
    + intros b c lb lc Hb Hc Heq. apply lookup_insert_Some in Hb as [[<- <-]|[Hne Hb]];
        apply lookup_insert_Some in Hc as [[<- <-]|[Hne' Hc]]; cbn in Heq; [done| | |by eapply Hn].
      * by destruct (Hfresh _ _ Hc).
      * by destruct (Hfresh _ _ Hb).
    + intros b lb leaf [[<- <-]|[_ Hb]]%lookup_insert_Some Hl; [done|by eapply Hv].
  - split; cbn; [done..| |intros r o Hr; by exists o].
    intros b lb Hb. exists lb. split; [|done]. rewrite lookup_insert_ne; [done|]. intros ->. congruence.
Qed.

Lemma apply_lane_moved_step p a moved p' : apply_lane_moved p a moved = Ok p' -> session_step p p'.
Proof.
  unfold apply_lane_moved. intros HH. step HH. step HH. injection HH as <-. apply reject_if_Ok, is_none_false in E0.
  by apply set_lane_step.
Qed.

Lemma entry_then_leaf p e entries a p' :
  apply_conversation_entry (sp_entries p) e = Ok entries ->
  p' = move_leaf a (ce_id e) (set_sp_entries entries p) -> session_step p p'.
Proof.
  intros He -> Hp. destruct (set_entries_step p e entries He) as [Hstep Hleaf].
  eapply session_step_trans; [apply Hstep|apply move_leaf_step|done]. by apply Hleaf.
Qed.

Lemma apply_recorded_entry_step p r e p' : apply_recorded_entry p r e = Ok p' -> session_step p p'.
Proof. unfold apply_recorded_entry. intros HH. do 2 step HH. injection HH as <-. by eapply entry_then_leaf. Qed.

Lemma synthesize_step p m r parent p' : synthesize_from_message p m r parent = Ok p' -> session_step p p'.
Proof.
  unfold synthesize_from_message. intros HH. step HH; [injection HH as <-; apply session_step_refl|].
  do 2 step HH. injection HH as <-. unfold ConversationEntry_from_message, ConversationEntry_try_new in E0.
  step E0. injection E0 as <-. by eapply (entry_then_leaf p (mkConversationEntry (msg_id m) _ _ _ _)).
Qed.

Lemma run_accepted_step p a accepted : session_step p (apply_run_accepted p a accepted).
Proof.
  unfold apply_run_accepted. destruct (is_some _) eqn:E; [apply session_step_refl|]. apply is_some_false in E.
  intros [Hf Hn Hv Ho]. split.
  - split; cbn; [done..|]. intros r op [[<- <-]|[_ Hr]]%lookup_insert_Some; [done|by apply Ho].
  - split; cbn; [done|done|intros b l Hl; by exists l|]. intros r o Hr. exists o. split; [|done].
    rewrite lookup_insert_ne; [done|]. intros <-. congruence.
Qed.

Lemma run_terminal_step p run : session_step p (apply_run_terminal p run).
Proof.
  destruct run as [run|]; [|apply session_step_refl]. intros [Hf Hn Hv Ho]. cbn [apply_run_terminal]. split.
  - split; cbn; [done..|]. intros r op [(<- & o & Hr & ->)|[_ Hr]]%lookup_alter_Some; [cbn|]; by apply Ho.
  - split; cbn; [done|done|intros b l Hl; by exists l|]. intros r o Hr. destruct (decide (run = r)) as [<-|Hne].
    + exists (set_terminal o). rewrite lookup_alter_eq, Hr. split; [done|]. by split_and!.
    + exists o. by rewrite lookup_alter_ne.
Qed.

Lemma apply_envelope_step p r p' : apply_envelope p r = Ok p' -> session_step p p'.
Proof.
  unfold apply_envelope. destruct (other_session p (rec_session_id r)); [intros [= <-]; apply session_step_refl|].
  intros HH. eapply session_step_trans; [apply (adopt_session_step (rec_session_id r))|].
  destruct (rec_body r); try (injection HH as <-);
    eauto using session_step_refl, metadata_step, child_mappings_step, run_accepted_step, run_terminal_step,
      apply_lane_created_step, apply_lane_moved_step, apply_recorded_entry_step, synthesize_step.
Qed.

Definition replay_session (p : SessionProjection) (records : list RecordEnvelope) : cresult SessionProjection :=
  rfold apply_envelope p records.

Lemma replay_session_step p records p' : replay_session p records = Ok p' -> session_step p p'.
Proof.
  revert p. induction records as [|r rs IH]; intros p HH; cbn [replay_session rfold] in HH; [by injection HH as <-; apply session_step_refl|].
  step HH. eapply session_step_trans; [by eapply apply_envelope_step|by apply IH].
Qed.

Lemma session_new_ok sid : session_ok (SessionProjection_new sid).
Proof.
  split; cbn; [apply forest_empty|intros ? ? ? ?; by rewrite lookup_empty|intros ? ? ?; by rewrite lookup_empty|].
  intros ? ?. by rewrite lookup_empty.
Qed.

(** * Tool pairs of a history and previews of entries

    [validate_tool_pairs] accepts exactly the paths whose tool calls and results
    pair off in order, and the overlay of [preview_conversation_entries] answers
    what applying the drafts to a copy of the entries would answer. *)

(** ** The calls and results of a path *)

Inductive PairEvent : Type :=
| Called (id : ToolCallId)
| Returned (id : ToolCallId).
#[global] Instance PairEvent_eq_dec : EqDecision PairEvent.
Proof. solve_decision. Defined.

Definition message_events (m : Message) : list PairEvent :=
  match msg_role m with
  | MessageRole_Assistant =>
      omap (fun b => match b with ContentBlock_ToolCall c => Some (Called (tc_tool_call_id c)) | _ => None end) (msg_content m)
  | MessageRole_Tool =>
      omap (fun b => match b with ContentBlock_ToolResult r => Some (Returned (tr_tool_call_id r)) | _ => None end) (msg_content m)
  | _ => []
  end.
Definition entry_events (e : ConversationEntry) : list PairEvent :=
  let 'EntryBody_Message m := ce_body e in message_events m.
Definition path_events (path : list ConversationEntry) : list PairEvent := path ≫= entry_events.

Definition calls (ev : list PairEvent) : list ToolCallId :=
  omap (fun e => match e with Called id => Some id | _ => None end) ev.
Definition returns (ev : list PairEvent) : list ToolCallId :=
  omap (fun e => match e with Returned id => Some id | _ => None end) ev.

(** Every call is made once and returned once, after it was made. *)
Record paired (ev : list PairEvent) : Prop := {
  pr_calls : NoDup (calls ev);
  pr_returns : NoDup (returns ev);
  pr_same : forall id, id ∈ calls ev <-> id ∈ returns ev;
  pr_order : forall before id after, ev = before ++ Returned id :: after -> id ∈ calls before
}.

(** ** The validator on events *)

Definition event_step (st : ToolPairs) (e : PairEvent) : cresult ToolPairs :=
  match e with
  | Called id => if decide (id ∈ st.1) then Err ConversationError_InvalidToolPair else Ok ({[ id ]} ∪ st.1, st.2)
  | Returned id =>
      if decide (id ∉ st.1) then Err ConversationError_InvalidToolPair
      else if decide (id ∈ st.2) then Err ConversationError_InvalidToolPair
      else Ok (st.1 ∖ {[ id ]}, {[ id ]} ∪ st.2)
  end.

Lemma rfold_omap {A B S E} (f : S -> A -> result S E) (g : S -> B -> result S E) (h : A -> option B) s l :
  (forall s a, f s a = match h a with Some b => g s b | None => Ok s end) -> rfold f s l = rfold g s (omap h l).
Proof.
  intros Hf. revert s. induction l as [|a l IH]; intros s; [done|]. cbn [rfold omap list_omap]. rewrite Hf.
  destruct (h a); cbn [rfold rbind]; [destruct (g s b); cbn [rbind]; [apply IH|done]|apply IH].
Qed.

Lemma pair_step_events st e : pair_step st e = rfold event_step st (entry_events e).
Proof.
  unfold pair_step, entry_events, message_events. destruct (ce_body e) as [m]. destruct (msg_role m); try done.
  all: apply rfold_omap; intros s []; done.
Qed.

Lemma pair_steps_events path : forall st, rfold pair_step st path = rfold event_step st (path_events path).
Proof.
  induction path as [|e path IH]; intros st; [done|]. cbn [rfold path_events mbind list_bind]. rewrite rfold_app, pair_step_events.
  destruct (rfold event_step st (entry_events e)); cbn [rbind]; [apply IH|done].
Qed.

(** While no closed call is open again, the sets are those of the events so far. *)
Definition tracks (ev : list PairEvent) (st : ToolPairs) : Prop :=
  NoDup (calls ev) /\ NoDup (returns ev) /\
  (forall id, id ∈ st.1 <-> id ∈ calls ev /\ id ∉ returns ev) /\ (forall id, id ∈ st.2 <-> id ∈ returns ev) /\
  (forall before id after, ev = before ++ Returned id :: after -> id ∈ calls before).
Definition stuck (st : ToolPairs) : Prop := exists id, id ∈ st.1 /\ id ∈ st.2.

Lemma calls_snoc ev e : calls (ev ++ [e]) = calls ev ++ match e with Called id => [id] | _ => [] end.
Proof. unfold calls. rewrite omap_app. by destruct e. Qed.
Lemma returns_snoc ev e : returns (ev ++ [e]) = returns ev ++ match e with Returned id => [id] | _ => [] end.
Proof. unfold returns. rewrite omap_app. by destruct e. Qed.

(** A split of a list with a new last element puts its middle before or at it. *)
Lemma snoc_split {A} (l before after : list A) x y :
  l ++ [x] = before ++ y :: after -> (l = before /\ x = y /\ after = []) \/ exists after', l = before ++ y :: after'.
Proof.
  destruct after as [|z after _] using rev_ind.
  - intros [-> [= ->]]%app_inj_2; [by left|done].
  - rewrite app_comm_cons, app_assoc. intros [-> _]%app_inj_2; [|done]. right. by exists after.
Qed.

Lemma stuck_step st e st' : event_step st e = Ok st' -> stuck st -> stuck st'.
Proof.
  intros HH (id & Ho & Hc). exists id. destruct e as [x|x]; cbn [event_step] in HH.
  - step HH. injection HH as <-. cbn. set_solver.
  - step HH. step HH. injection HH as <-. cbn. split; [|set_solver]. apply elem_of_difference. set_solver.
Qed.

Lemma tracks_step ev st e st' : event_step st e = Ok st' -> tracks ev st -> tracks (ev ++ [e]) st' \/ stuck st'.
Proof.
  intros HH (Hc & Hr & Ho & Hcl & Hord). unfold tracks. destruct e as [x|x]; cbn [event_step] in HH.
  - case_decide as Hin; [done|]. injection HH as <-. cbn [fst snd]. destruct (decide (x ∈ returns ev)) as [Hx|Hx].
    { right. exists x. cbn. split; [set_solver|by apply Hcl]. }
    left. rewrite calls_snoc, returns_snoc, app_nil_r. split_and!; [|done| |done|].
    + apply NoDup_app. split_and!; [done| |apply NoDup_singleton]. intros y Hy ->%list_elem_of_singleton. set_solver.
    + intros id. rewrite elem_of_union, elem_of_singleton, Ho, elem_of_app, list_elem_of_singleton. naive_solver.
    + intros before id after [(_ & ? & _)|[after' ->]]%snoc_split; [done|]. by eapply Hord.
  - case_decide as Hopen; [done|]. case_decide as Hclosed; [done|]. injection HH as <-. left. cbn [fst snd]. rewrite calls_snoc, returns_snoc, app_nil_r.
    apply Ho in Hopen as [Hcall Hnot]. split_and!; [done| | | |].
    + apply NoDup_app. split_and!; [done| |apply NoDup_singleton]. intros y Hy ->%list_elem_of_singleton. done.
    + intros id. rewrite elem_of_difference, elem_of_singleton, Ho, elem_of_app, list_elem_of_singleton. naive_solver.
    + intros id. rewrite elem_of_union, elem_of_singleton, Hcl, elem_of_app, list_elem_of_singleton. naive_solver.
    + intros before id after [(<- & [= <-] & _)|[after' ->]]%snoc_split; [done|]. by eapply Hord.
Qed.

Lemma events_track ev : forall st, rfold event_step (∅, ∅) ev = Ok st -> tracks ev st \/ stuck st.
Proof.
  induction ev as [|e ev IH] using rev_ind; intros st HH.
  { injection HH as <-. left. split_and!; try apply NoDup_nil_2; [set_solver..|]. by intros [] ? ?. }
  rewrite rfold_app in HH. step HH. cbn [rfold] in HH. step HH. injection HH as <-.
  destruct (IH _ eq_refl) as [Ht|Hs]; [by eapply tracks_step|right; by eapply stuck_step].
Qed.

Lemma prefix_tracks ev : NoDup (calls ev) -> NoDup (returns ev) ->
  (forall before id after, ev = before ++ Returned id :: after -> id ∈ calls before) ->
  exists st, rfold event_step (∅, ∅) ev = Ok st /\ tracks ev st.
Proof.
  induction ev as [|e ev IH] using rev_ind; intros Hc Hr Hord.
  { exists (∅, ∅). split; [done|]. split_and!; try apply NoDup_nil_2; [set_solver..|]. by intros [] ? ?. }
  rewrite calls_snoc in Hc. rewrite returns_snoc in Hr. apply NoDup_app in Hc as (Hc & Hc' & _), Hr as (Hr & Hr' & _).
  destruct IH as (st & Hst & Ht); [done..| |].
  { intros before id after ->. eapply (Hord before id (after ++ [e])). by rewrite <- app_assoc. }
  destruct (event_step st e) as [st'|er] eqn:He.
  - exists st'. rewrite rfold_app, Hst. cbn [rbind rfold]. rewrite He. split; [done|].
    destruct (tracks_step _ _ _ _ He Ht) as [|(id & Ho & Hcl)]; [done|]. exfalso.
    destruct Ht as (_ & _ & Hto & Htc & _). destruct e as [x|x]; cbn [event_step] in He; repeat case_decide; simplify_eq; cbn in Ho, Hcl.
    + apply Htc in Hcl as Hret. apply elem_of_union in Ho as [->%elem_of_singleton|Ho]; [|by apply Hto in Ho as [_ ?]].
      apply list_elem_of_split in Hret as Hin. clear Hin.
      assert (x ∈ calls ev) as Hx.
      { unfold returns in Hret. apply list_elem_of_omap in Hret as ([y|y] & Hy & [= ->]).
        apply list_elem_of_split in Hy as (l1 & l2 & ->). unfold calls. rewrite omap_app. apply elem_of_app. left.
        apply (Hord l1 x (l2 ++ [Called x])). by rewrite <- app_assoc. }
      by apply (Hc' x Hx), list_elem_of_singleton.
    + apply elem_of_union in Hcl as [->%elem_of_singleton|Hcl]; [set_solver|].
      apply elem_of_difference in Ho as [Ho _]. apply Hto in Ho as [_ Ho]. by apply Htc in Hcl.
  - exfalso. destruct Ht as (_ & _ & Hto & Htc & _). destruct e as [x|x]; cbn [event_step] in He.
    + case_decide as Hin; [|done]. apply Hto in Hin as [Hx _]. by apply (Hc' x Hx), list_elem_of_singleton.
    + case_decide as Hin; [|case_decide as Hin'; [|done]]. 2: by apply Htc in Hin'; apply (Hr' x Hin'), list_elem_of_singleton.
      apply Hin, Hto. split; [by eapply (Hord ev x [])|]. intros Hx. by apply (Hr' x Hx), list_elem_of_singleton.
Qed.

Lemma validate_tool_pairs_paired path : validate_tool_pairs path = Ok tt <-> paired (path_events path).
Proof.
  unfold validate_tool_pairs. rewrite pair_steps_events. split.
  - intros HH. step HH. case_decide as Hempty; [|done]. apply events_track in E as [(Hc & Hr & Ho & _ & Hord)|(id & Hid & _)]; [|set_solver].
    split; [done..| |done]. rewrite Hempty in Ho. intros id. split.
    + intros Hid. destruct (decide (id ∈ returns (path_events path))); [done|]. destruct (not_elem_of_empty (C:=gset ToolCallId) id). by apply Ho.
    + unfold returns at 1. intros ([y|y] & Hy & [= ->])%list_elem_of_omap.
      apply list_elem_of_split in Hy as (l1 & l2 & Hl). apply Hord in Hl as Hin. rewrite Hl. unfold calls.
      rewrite omap_app. apply elem_of_app. by left.
  - intros [Hc Hr Hsame Hord]. destruct (prefix_tracks _ Hc Hr Hord) as (st & -> & _ & _ & Ho & _). cbn [rbind].
    rewrite decide_True; [done|]. apply set_eq. intros id. rewrite Ho, Hsame. set_solver.
Qed.

(** ** Previewing entries *)

(** Entries equal up to their sequence. *)
Definition entry_like (e e' : ConversationEntry) : Prop := same_committed_entry e e' = true.
#[global] Instance entry_like_equivalence : Equivalence entry_like.
Proof.
  unfold entry_like, same_committed_entry. split.
  - intros e. by rewrite !eqb_refl.
  - intros e e' HH. crush_ok. by repeat (apply andb_true_intro; split); apply eqb_true.
  - intros a b c H1 H2. crush_ok. by repeat (apply andb_true_intro; split); apply eqb_true; congruence.
Qed.

(** The overlay stands for the map that applying the drafts has built. *)
Definition overlays (entries staged applied : Entries) : Prop :=
  forall id, option_relation entry_like (fun _ => False) (fun _ => False) (or_else (entries !! id) (staged !! id)) (applied !! id).

Lemma preview_overlay entries staged applied e :
  overlays entries staged applied -> preview_conversation_entry entries staged e = preview_conversation_entry applied ∅ e.
Proof.
  intros Ho. unfold preview_conversation_entry.
  assert (forall id, is_none (entries !! id) && is_none (staged !! id) = is_none (applied !! id) && is_none ((∅ : Entries) !! id)) as Hnone.
  { intros id. rewrite lookup_empty, andb_true_r. specialize (Ho id).
    destruct (entries !! id), (staged !! id), (applied !! id); cbn in Ho |- *; done. }
  f_equal; [|].
  - f_equal. destruct (ce_parent_id e); cbn [is_some_and]; [apply Hnone|done].
  - clear Hnone. f_equal. rewrite lookup_empty. specialize (Ho (ce_id e)).
    destruct (or_else (entries !! ce_id e) (staged !! ce_id e)) as [x|], (applied !! ce_id e) as [y|];
      cbn [or_else option_relation] in *; try done.
    destruct (same_committed_entry x e) eqn:E1, (same_committed_entry y e) eqn:E2; try done; exfalso.
    + enough (entry_like y e) by congruence. by rewrite <- Ho.
    + enough (entry_like x e) by congruence. by rewrite Ho.
Qed.

(** Both loops fail with the same error, or leave maps that stand for each other. *)
Definition previews_agree (entries : Entries) (r r' : cresult Entries) : Prop :=
  match r, r' with
  | Ok staged, Ok applied => overlays entries staged applied
  | Err e, Err e' => e = e'
  | _, _ => False
  end.

Lemma overlays_step entries staged applied e :
  overlays entries staged applied -> previews_agree entries (preview_step entries staged e) (apply_conversation_entry applied e).
Proof.
  intros Ho. unfold preview_step, apply_conversation_entry. rewrite <- (preview_overlay _ _ _ _ Ho).
  destruct (preview_conversation_entry entries staged e) as [[]|er] eqn:Hp; cbn [rbind previews_agree]; [|done].
  unfold preview_conversation_entry in Hp. step Hp. clear E. intros id. specialize (Ho id) as Hid.
  specialize (Ho (ce_id e)). destruct (decide (id = ce_id e)) as [->|Hne]; cycle 1.
  { destruct (entries !! ce_id e), (applied !! ce_id e); cbn [is_none is_some negb]; by rewrite ?lookup_insert_ne by done. }
  destruct (entries !! ce_id e) as [x|] eqn:Hx, (applied !! ce_id e) as [y|] eqn:Hy; cbn [is_none is_some negb or_else] in *;
    rewrite ?lookup_insert_eq, ?Hx, ?Hy; try done.
  - destruct (staged !! ce_id e) as [z|]; cbn in Ho; [|done]. step Hp. cbn. by rewrite <- Ho.
  - cbn. reflexivity.
Qed.

Lemma previews_overlay entries drafts : forall staged applied,
  overlays entries staged applied ->
  previews_agree entries (rfold (preview_step entries) staged drafts) (rfold apply_conversation_entry applied drafts).
Proof.
  induction drafts as [|e drafts IH]; intros staged applied Ho; [done|]. cbn [rfold].
  apply (overlays_step _ _ _ e) in Ho. destruct (preview_step entries staged e), (apply_conversation_entry applied e); try done.
  by apply IH.
Qed.

Lemma overlays_refl entries : overlays entries ∅ entries.
Proof. intros id. rewrite lookup_empty. destruct (entries !! id); cbn; done. Qed.
