(* ===== verification/Append.v ===== *)
(** * Append requests

    Models [records/append.rs] and [validate_interaction_request_pairs] of
    [records/validate.rs]: the drafts of one atomic append, and the equality the
    stores compare requests with. *)

From S2P Require Import Prelude Primitives Effects Records State Inputs Digests ApplyEffects Apply Decide.

(** ** Equality of drafts *)

(** [LineageValidation] compares equal to every other value of its type. *)
#[global] Instance LineageValidation_eq_dec : EqDecision LineageValidation.
Proof. solve_decision. Defined.
#[global] Instance RunAccepted_eq_dec : EqDecision RunAccepted.
Proof. solve_decision. Defined.
#[global] Instance RecordBody_eq_dec : EqDecision RecordBody.
Proof. solve_decision. Defined.
#[global] Instance RecordDraft_eq_dec : EqDecision RecordDraft.
Proof. solve_decision. Defined.

Definition comparable_body (body : RecordBody) : RecordBody :=
  match body with
  | RecordBody_RunAccepted a =>
      RecordBody_RunAccepted (mkRunAccepted (ra_run_id a) (ra_relation a) (ra_security a) (ra_effective_deadline a)
                                (ra_limits a) (ra_propagation a) (ra_resolved_agent_lock_digest a)
                                (mkLineageValidation true))
  | _ => body
  end.
Definition comparable_draft (d : RecordDraft) : RecordDraft :=
  mkRecordDraft (dr_format_version d) (dr_kind_version d) (dr_record_id d) (dr_session_id d) (dr_lane_id d)
    (dr_run_id d) (dr_timestamp d) (dr_derived_event_ids d) (comparable_body (dr_body d)).
Definition drafts_equal (a b : list RecordDraft) : bool := (comparable_draft <$> a) =?? (comparable_draft <$> b).

(** ** Requests *)

Inductive RecordError : Type :=
| RecordError_BatchTooLarge (len max : nat)
| RecordError_RecordSessionMismatch
| RecordError_InvalidInteractionPair.

Record AppendRequest : Type := mkAppendRequest {
  apr_batch_id : AppendBatchId;
  apr_session_id : SessionId;
  apr_expected_sequence : Z;
  apr_records : list RecordDraft
}.

Definition requests_equal (a b : AppendRequest) : bool :=
  (apr_batch_id a =?? apr_batch_id b) && (apr_session_id a =?? apr_session_id b)
  && (apr_expected_sequence a =?? apr_expected_sequence b) && drafts_equal (apr_records a) (apr_records b).

Section Requests.
Context `{Hasher}.

Definition interaction_request_matches_effect (request : InteractionRequest) (effect : EffectRequested) : bool :=
  (req_effect_id effect =?? ir_effect_id request) && (req_kind effect =?? EffectKind_Interaction)
  && match req_input effect with
     | EffectInput_Interaction interaction_id d =>
         (interaction_id =?? ir_interaction_id request) && is_some_and (request_digest request) (fun digest => digest =?? d)
     | _ => false
     end.

(** The records of the batch that pair with one record, when it needs a partner. *)
Definition interaction_partners (bodies : list RecordBody) (body : RecordBody) : option nat :=
  match body with
  | RecordBody_InteractionRequested request =>
      Some (count (fun c => match c with
                            | RecordBody_EffectRequested effect => interaction_request_matches_effect request effect
                            | _ => false
                            end) bodies)
  | RecordBody_EffectRequested effect =>
      if req_kind effect =?? EffectKind_Interaction
      then Some (count (fun c => match c with
                                 | RecordBody_InteractionRequested request => interaction_request_matches_effect request effect
                                 | _ => false
                                 end) bodies)
      else None
  | _ => None
  end.

Definition resolves_interaction (c : EffectOutputContract) : bool := oc_kind c =?? EffectOutputKind_InteractionResolution.

Definition validate_interaction_request_pairs (records : list RecordDraft) : result unit RecordError :=
  let bodies := dr_body <$> records in
  do? reject_if (existsb (fun body => is_some_and (interaction_partners bodies body) (fun n => negb (n =? 1)%nat)) bodies)
        RecordError_InvalidInteractionPair in
  let resolved := count (fun b => match b with RecordBody_InteractionResolved _ => true | _ => false end) bodies in
  let completed := count (fun b => match b with RecordBody_EffectCompleted e => resolves_interaction (cpl_output_contract e) | _ => false end) bodies in
  let expired := count (fun b => match b with RecordBody_InteractionExpired _ => true | _ => false end) bodies in
  let failed := count (fun b => match b with RecordBody_EffectFailed e => resolves_interaction (fld_output_contract e) | _ => false end) bodies in
  let cancelled := count (fun b => match b with RecordBody_InteractionCancelled _ => true | _ => false end) bodies in
  let effect_cancelled := count (fun b => match b with RecordBody_EffectCancelled e => resolves_interaction (cnl_output_contract e) | _ => false end) bodies in
  reject_if (negb (resolved =? completed)%nat || negb (expired =? failed)%nat || negb (cancelled =? effect_cancelled)%nat)
    RecordError_InvalidInteractionPair.

Definition AppendRequest_try_new (batch_id : AppendBatchId) (session_id : SessionId) (expected_sequence : Z)
    (records : list RecordDraft) : result AppendRequest RecordError :=
  do? reject_if (APPEND_BATCH_MAX_RECORDS <? length records)%nat
        (RecordError_BatchTooLarge (length records) APPEND_BATCH_MAX_RECORDS) in
  do? reject_if (existsb (fun record => dr_session_id record <>?? session_id) records) RecordError_RecordSessionMismatch in
  do? validate_interaction_request_pairs records in
  Ok (mkAppendRequest batch_id session_id expected_sequence records).
End Requests.

(** [CommittedBatch::try_new]. *)
Definition CommittedBatch_try_new (batch_id : AppendBatchId) (first_sequence last_sequence : Z)
    (records : list RecordEnvelope) : option CommittedBatch :=
  if (APPEND_BATCH_MAX_RECORDS <? length records)%nat then None
  else Some (mkCommittedBatch batch_id first_sequence last_sequence records).

(** ** What a built request promises *)

Lemma AppendRequest_try_new_Ok `{Hasher} batch_id sid expected records req :
  AppendRequest_try_new batch_id sid expected records = Ok req ->
  req = mkAppendRequest batch_id sid expected records /\ (length records <= APPEND_BATCH_MAX_RECORDS)%nat /\
  Forall (fun d => dr_session_id d = sid) records.
Proof.
  unfold AppendRequest_try_new. intros HH. do 3 step HH. injection HH as <-.
  apply reject_if_Ok, Nat.ltb_ge in E. apply reject_if_Ok in E0. rewrite existsb_false in E0.
  split_and!; [done|done|]. apply Forall_forall. intros d Hd. apply E0 in Hd. by apply negb_false_iff, eqb_eq in Hd.
Qed.

Lemma comparable_session a b : comparable_draft a = comparable_draft b -> dr_session_id a = dr_session_id b /\ dr_record_id a = dr_record_id b.
Proof. unfold comparable_draft. by intros [=]. Qed.

Lemma drafts_equal_refl l : drafts_equal l l = true.
Proof. apply eqb_refl. Qed.

Lemma requests_equal_refl r : requests_equal r r = true.
Proof. unfold requests_equal. by rewrite !eqb_refl, drafts_equal_refl. Qed.
