(* ===== verification/Snapshot.v ===== *)
(** * Snapshot envelopes

    Models [snapshot.rs] of [finstack-ai-protocol].  The derived serializer of a
    state, the derived deserializers of the two envelope versions and the state
    hash are the operations of the class [SnapshotWire]; the class
    [SnapshotWireLaws] says what generated code promises: what was serialized
    deserializes, when the state is one its hash accepts. *)

From S2P Require Import Prelude Ids Floats Cbor CborCodec CborDecode Serializer.
From S2P Require Import Primitives Effects Records State Inputs Digests Decide Validate Chain ChainIntegrity.

Definition SNAPSHOT_ENVELOPE_FORMAT_VERSION : Z := 2.

Record DecodedSnapshot : Type := mkDecodedSnapshot {
  dsn_sequence : Z;
  dsn_head_checksum : Digest;
  dsn_state_hash : Digest;
  dsn_pending_timer_scheduled_at : option Timestamp;
  dsn_last_model_continuation : option RawJson;
  dsn_state : KernelState
}.

Record SnapshotEnvelopeV1 : Type := mkSnapshotEnvelopeV1 {
  sv1_format_version : Z;
  sv1_sequence : Z;
  sv1_head_checksum : Digest;
  sv1_state_hash : Digest;
  sv1_pending_timer_scheduled_at : option Timestamp;
  sv1_state : KernelState
}.

Record SnapshotEnvelopeV2 : Type := mkSnapshotEnvelopeV2 {
  sv2_format_version : Z;
  sv2_sequence : Z;
  sv2_head_checksum : Digest;
  sv2_state_hash : Digest;
  sv2_pending_timer_scheduled_at : option Timestamp;
  sv2_last_model_continuation : option RawJson;
  sv2_state : KernelState
}.

Class SnapshotWire : Type := {
  state_serde : KernelState -> SerdeTree;
  json_serde : RawJson -> SerdeTree;
  state_hash : KernelState -> option Digest;
  envelope_v1_of : CanonicalValue -> presult SnapshotEnvelopeV1;
  envelope_v2_of : CanonicalValue -> presult SnapshotEnvelopeV2
}.

(** The derived serializer of [SnapshotEnvelopeV2Ref]. *)
Definition snapshot_fields `{SnapshotWire} (e : SnapshotEnvelopeV2) : list (bytes * SerdeTree) :=
  [field "format_version" (Serde_u64 (Z.to_N (sv2_format_version e)));
   field "sequence" (Serde_u64 (Z.to_N (sv2_sequence e)));
   field "head_checksum" (digest_serde (sv2_head_checksum e));
   field "state_hash" (digest_serde (sv2_state_hash e));
   field "pending_timer_scheduled_at"
     (match sv2_pending_timer_scheduled_at e with Some t => Serde_some (timestamp_serde t) | None => Serde_none end)]
  ++ optional_field "last_model_continuation" (fun j => Serde_some (json_serde j)) (sv2_last_model_continuation e)
  ++ [field "state" (state_serde (sv2_state e))].

Definition snapshot_serde `{SnapshotWire} (e : SnapshotEnvelopeV2) : SerdeTree :=
  Serde_struct (len (snapshot_fields e)) (snapshot_fields e).

(** [( *key == CanonicalValue::Text(name) ).then_some(value)]. *)
Definition value_under (name : string) (kv : CanonicalValue * CanonicalValue) : option CanonicalValue :=
  match kv.1 with
  | CanonicalValue_Text key => if key =?? String.list_ascii_of_string name then Some kv.2 else None
  | _ => None
  end.

Section Snapshots.
Context `{Half, Hasher, SnapshotWire}.

(** [Digest::snapshot_state]. *)
Definition digest_snapshot_state (b : bytes) : Digest :=
  hash_domain "snapshot-state" 1 (String.string_of_list_ascii b).

Definition encode_snapshot (state : KernelState) (sequence : Z) (head_checksum : Digest)
    (pending_timer_scheduled_at : option Timestamp) (last_model_continuation : option RawJson)
    : presult (bytes * Digest) :=
  do? reject_if (sequence <>?? k_last_applied_sequence state) (integrity "snapshot_sequence_mismatch") in
  let? hash := ok_or (state_hash state) (ProtocolError_Codec "state hash") in
  let? b := encode (snapshot_serde (mkSnapshotEnvelopeV2 SNAPSHOT_ENVELOPE_FORMAT_VERSION sequence head_checksum hash
                                      pending_timer_scheduled_at last_model_continuation state)) in
  Ok (b, digest_snapshot_state b).

Definition snapshot_format_version (value : CanonicalValue) : presult Z :=
  match value with
  | CanonicalValue_Map entries =>
      match find_map (value_under "format_version") entries with
      | Some (CanonicalValue_Unsigned version) =>
          ok_or (in_range 0 u32_max (Z.of_N version)) (integrity "snapshot_format_unsupported")
      | Some _ => Err (ProtocolError_Codec "snapshot format_version must be unsigned")
      | None => Err (ProtocolError_Codec "snapshot format_version missing")
      end
  | _ => Err (ProtocolError_Codec "snapshot envelope must be a map")
  end.

Definition upgrade_v1 (v1 : SnapshotEnvelopeV1) : SnapshotEnvelopeV2 :=
  mkSnapshotEnvelopeV2 (sv1_format_version v1) (sv1_sequence v1) (sv1_head_checksum v1) (sv1_state_hash v1)
    (sv1_pending_timer_scheduled_at v1) None (sv1_state v1).

Definition decode_snapshot (b : bytes) : presult DecodedSnapshot :=
  let? value := decode_value b in
  let? format_version := snapshot_format_version value in
  let? envelope := if format_version =? 1 then let? v1 := envelope_v1_of value in Ok (upgrade_v1 v1)
                   else if format_version =? SNAPSHOT_ENVELOPE_FORMAT_VERSION then envelope_v2_of value
                   else Err (integrity "snapshot_format_unsupported") in
  do? reject_if (sv2_format_version envelope <>?? format_version) (integrity "snapshot_format_mismatch") in
  do? reject_if (sv2_sequence envelope <>?? k_last_applied_sequence (sv2_state envelope)) (integrity "snapshot_sequence_mismatch") in
  let? hash := ok_or (state_hash (sv2_state envelope)) (ProtocolError_Codec "state hash") in
  do? reject_if (hash <>?? sv2_state_hash envelope) (integrity "snapshot_state_hash_mismatch") in
  Ok (mkDecodedSnapshot (sv2_sequence envelope) (sv2_head_checksum envelope) hash
        (sv2_pending_timer_scheduled_at envelope) (sv2_last_model_continuation envelope) (sv2_state envelope)).

Definition decode_opaque_snapshot (sequence : Z) (digest : Digest) (b : bytes) : presult DecodedSnapshot :=
  do? reject_if (digest_snapshot_state b <>?? digest) (integrity "snapshot_digest_mismatch") in
  let? decoded := decode_snapshot b in
  do? reject_if (dsn_sequence decoded <>?? sequence) (integrity "snapshot_sequence_mismatch") in
  Ok decoded.
End Snapshots.

(** ** Round trip *)

(** What the types of the source guarantee of an envelope. *)
Record snapshot_typed (e : SnapshotEnvelopeV2) : Prop := {
  sty_format : 0 <= sv2_format_version e <= u32_max;
  sty_sequence : is_u64 (sv2_sequence e);
  sty_checksum : (sv2_head_checksum e < 2 ^ 256)%N;
  sty_hash : (sv2_state_hash e < 2 ^ 256)%N;
  sty_timer : forall t, sv2_pending_timer_scheduled_at e = Some t -> is_i64 t
}.

(** Generated code: what is serialized deserializes, when the state is one the
    state hash accepts (a valid one). *)
Class SnapshotWireLaws `{Half, Hasher, SnapshotWire} : Prop := {
  swl_state_typed s : serde_typed (state_serde s);
  swl_json_typed j : serde_typed (json_serde j);
  swl_hash_bits s d : state_hash s = Some d -> (d < 2 ^ 256)%N;
  swl_roundtrip e v : snapshot_typed e -> state_hash (sv2_state e) = Some (sv2_state_hash e) ->
    to_canonical (snapshot_serde e) = Ok v -> envelope_v2_of v = Ok e
}.

Section Fields.
Context `{HalfLaws}.

(** A field is found under its name wherever canonical order puts it. *)
Lemma struct_field_found n fields entries name t :
  Forall (fun f => utf8_valid f.1 = true /\ serde_typed f.2) fields -> NoDup fields.*1 ->
  serialize (Serde_struct n fields) 0 = Ok (CanonicalValue_Map entries) -> field name t ∈ fields ->
  exists x, serialize t 1 = Ok x /\ find_map (value_under name) entries = Some x.
Proof.
  intros Ht Hnd HH Hin. apply struct_entries in HH as (unsorted & sorted & [= <-] & Hp & Hall); [|done].
  apply list_elem_of_lookup in Hin as [i Hi]. destruct (Forall2_lookup_l _ _ _ _ _ Hall Hi) as ([k x] & He & Hk & Hx).
  cbn [fst snd field] in Hk, Hx. subst k. exists x. split; [done|].
  assert ((CanonicalValue_Text (String.list_ascii_of_string name), x) ∈ entries) as Hmem
    by (rewrite Hp; by eapply list_elem_of_lookup_2).
  destruct (find_map (value_under name) entries) as [y|] eqn:Hy.
  - f_equal. apply find_map_Some in Hy as (j & [ky vy] & Hj & Hv & _). unfold value_under in Hv. cbn [fst snd] in Hv.
    destruct ky as [| | | | |key| | |]; try done. destruct (eqb_reflect key (String.list_ascii_of_string name)) as [->|]; [|done]. injection Hv as ->.
    apply list_elem_of_lookup_2 in Hj. rewrite Hp in Hj. apply list_elem_of_lookup in Hj as [j' Hj].
    destruct (Forall2_lookup_r _ _ _ _ _ Hall Hj) as ([k' t'] & Hf & Hk' & Hx'). cbn [fst snd] in Hk', Hx'. injection Hk' as <-.
    assert (j' = i) as ->.
    { eapply (NoDup_lookup fields.*1); [done|rewrite list_lookup_fmap, Hf; reflexivity|rewrite list_lookup_fmap, Hi; reflexivity]. }
    rewrite Hi in Hf. injection Hf as ->. congruence.
  - eapply find_map_None in Hy; [|exact Hmem]. unfold value_under in Hy. cbn [fst snd] in Hy. by rewrite eqb_refl in Hy.
Qed.

(** And an absent field is not. *)
Lemma struct_field_missing n fields entries name :
  Forall (fun f => utf8_valid f.1 = true /\ serde_typed f.2) fields ->
  serialize (Serde_struct n fields) 0 = Ok (CanonicalValue_Map entries) -> String.list_ascii_of_string name ∉ fields.*1 ->
  find_map (value_under name) entries = None.
Proof.
  intros Ht HH Hni. apply struct_entries in HH as (unsorted & sorted & [= <-] & Hp & Hall); [|done].
  destruct (find_map (value_under name) entries) as [y|] eqn:Hy; [|done]. exfalso. apply Hni.
  apply find_map_Some in Hy as (j & [ky vy] & Hj & Hv & _). unfold value_under in Hv. cbn [fst snd] in Hv.
  destruct ky as [| | | | |key| | |]; try done. destruct (eqb_reflect key (String.list_ascii_of_string name)) as [->|]; [|done].
  apply list_elem_of_lookup_2 in Hj. rewrite Hp in Hj. apply list_elem_of_lookup in Hj as [j' Hj].
  destruct (Forall2_lookup_r _ _ _ _ _ Hall Hj) as ([k' t'] & Hf & Hk' & _). cbn [fst snd] in Hk'. injection Hk' as ->.
  apply list_elem_of_fmap. exists (k', t'). split; [done|by eapply list_elem_of_lookup_2].
Qed.
End Fields.

Section RoundTrip.
Context `{HalfLaws, Hasher, SnapshotWire}.

Lemma snapshot_fields_typed e : snapshot_typed e -> serde_typed (state_serde (sv2_state e)) -> (forall j, serde_typed (json_serde j)) ->
  Forall field_typed (snapshot_fields e).
Proof.
  intros [Hf Hs _ _ Ht] Hst Hj. unfold snapshot_fields. rewrite !Forall_app.
  assert (is_u64 (sv2_format_version e)) as Hf' by (unfold is_u64, u64_max, u32_max in *; lia). split; [|split].
  - repeat (constructor; [apply typed_field; [reflexivity|]|]); [by apply u64_typed|by apply u64_typed|apply digest_typed..| |constructor].
    destruct (sv2_pending_timer_scheduled_at e); [|constructor]. constructor. constructor. by apply Ht.
  - apply typed_optional; [reflexivity|]. intros j. constructor. apply Hj.
  - constructor; [apply typed_field; [reflexivity|done]|constructor].
Qed.

Lemma snapshot_fields_distinct e : NoDup (snapshot_fields e).*1.
Proof.
  unfold snapshot_fields. destruct (sv2_last_model_continuation e); cbn [optional_field app fmap list_fmap fst field];
    apply (bool_decide_unpack _); vm_compute; exact I.
Qed.

Lemma snapshot_version_found e v : snapshot_typed e -> Forall field_typed (snapshot_fields e) ->
  to_canonical (snapshot_serde e) = Ok v -> snapshot_format_version v = Ok (sv2_format_version e).
Proof.
  intros Hty Ht HH. pose proof HH as (es & sorted & Hv & _ & _)%struct_entries; [|exact Ht]. subst v.
  destruct (struct_field_found _ _ _ "format_version" (Serde_u64 (Z.to_N (sv2_format_version e))) Ht (snapshot_fields_distinct e) HH)
    as (x & Hx & Hfind); [apply elem_of_app; left; left|].
  unfold snapshot_format_version. rewrite Hfind. cbn [serialize] in Hx. injection Hx as <-. apply ok_or_Ok.
  destruct Hty as [Hf _ _ _ _]. rewrite Z2N.id by lia. apply in_range_Some. lia.
Qed.

Context `{!SnapshotWireLaws}.

Lemma snapshot_roundtrip s sequence checksum timer continuation b d :
  encode_snapshot s sequence checksum timer continuation = Ok (b, d) ->
  is_u64 (k_last_applied_sequence s) -> (checksum < 2 ^ 256)%N -> (forall t, timer = Some t -> is_i64 t) ->
  exists hash, state_hash s = Some hash /\
    decode_opaque_snapshot sequence d b = Ok (mkDecodedSnapshot sequence checksum hash timer continuation s).
Proof.
  unfold encode_snapshot. intros HH Hu Hc Ht. do 3 step HH. injection HH as <- <-.
  apply reject_if_Ok, negb_false_iff, eqb_eq in E. apply ok_or_Ok in E0. exists a0. split; [done|].
  set (e := mkSnapshotEnvelopeV2 _ _ _ _ _ _ _) in E1.
  assert (snapshot_typed e) as Hty.
  { split; cbn; [unfold SNAPSHOT_ENVELOPE_FORMAT_VERSION, u32_max; lia|by rewrite E|done|by eapply swl_hash_bits|done]. }
  assert (Forall field_typed (snapshot_fields e)) as Hf
    by (apply snapshot_fields_typed; [done|apply swl_state_typed|apply swl_json_typed]).
  apply encode_decode_tree in E1 as (v & Hv & Hd); [|by constructor].
  unfold decode_opaque_snapshot, decode_snapshot. rewrite eqb_refl. cbn [negb reject_if rbind]. rewrite Hd. cbn [rbind].
  rewrite (snapshot_version_found e v Hty Hf Hv).
  cbn [rbind sv2_format_version e]. change (SNAPSHOT_ENVELOPE_FORMAT_VERSION =? 1) with false. rewrite Z.eqb_refl.
  rewrite (swl_roundtrip e v Hty E0 Hv). cbn [rbind sv2_format_version sv2_sequence sv2_state sv2_state_hash e].
  rewrite eqb_refl, E, eqb_refl. cbn [negb reject_if rbind]. rewrite E0. cbn [ok_or rbind]. rewrite eqb_refl. cbn [negb reject_if rbind dsn_sequence].
  by rewrite eqb_refl.
Qed.
End RoundTrip.
