(* ===== verification/Store.v ===== *)
(** * Journal stores: the port types and the shared semantics

    Models the transfer types and the default windowed load of
    [finstack-ai-runtime/src/ports/journal.rs], and the crate
    [extensions/stores/finstack-ai-store-common]: admission of an append,
    commitment of a batch, windows over a journal and their verification, the
    verified-head cache and snapshot admission. *)

From S2P Require Import Prelude Ids Floats Cbor CborCodec CborDecode Serializer.
From S2P Require Import Primitives Effects Records State Inputs Digests Apply Decide Validate Chain ChainIntegrity Append Snapshot.

(** [Iterator::position]. *)
Fixpoint position {A} (p : A -> bool) (l : list A) : option nat :=
  match l with
  | [] => None
  | a :: l' => if p a then Some 0%nat else S <$> position p l'
  end.

(** ** Port types *)

Inductive StoreError : Type :=
| StoreError_Conflict (expected_sequence actual_next_sequence : Z)
| StoreError_Corruption (reason_code : string)
| StoreError_LimitExceeded (resource : string) (limit : N)
| StoreError_InvalidRequest (reason_code : string)
| StoreError_AmbiguousAcknowledgement
| StoreError_Unavailable (reason_code : string)
| StoreError_Integrity (reason_code : string).
#[global] Instance StoreError_eq_dec : EqDecision StoreError.
Proof. solve_decision. Defined.

Notation sresult A := (result A StoreError).

Record StoreLimits : Type := mkStoreLimits {
  sl_sessions : nat;
  sl_batches_per_session : nat;
  sl_records_per_session : nat;
  sl_snapshot_bytes : nat
}.

Definition StoreLimits_validate (l : StoreLimits) : sresult StoreLimits :=
  do? reject_if ((sl_sessions l =? 0)%nat || (sl_batches_per_session l =? 0)%nat || (sl_records_per_session l =? 0)%nat
                 || (sl_snapshot_bytes l =? 0)%nat) (StoreError_InvalidRequest "zero_store_limit") in
  Ok l.

Record OpaqueSnapshot : Type := mkOpaqueSnapshot {
  osn_sequence : Z;
  osn_digest : Digest;
  osn_bytes : bytes
}.

Definition OpaqueSnapshot_try_new (sequence : Z) (digest : Digest) (b : bytes) (max_bytes : nat) : sresult OpaqueSnapshot :=
  do? reject_if (max_bytes <? length b)%nat (StoreError_LimitExceeded "snapshot_bytes" (N.of_nat max_bytes)) in
  Ok (mkOpaqueSnapshot sequence digest b).

Record AcceleratedRestore : Type := mkAcceleratedRestore {
  acr_sequence : Z;
  acr_head_checksum : Digest;
  acr_pending_timer_scheduled_at : option Timestamp;
  acr_last_model_continuation : option RawJson;
  acr_state : KernelState
}.

Record LoadedSession : Type := mkLoadedSession {
  ls_session_id : SessionId;
  ls_head_sequence : Z;
  ls_head_checksum : option Digest;
  ls_metadata : Metadata;
  ls_committed_batches : list CommittedBatch;
  ls_snapshot : option OpaqueSnapshot;
  ls_accelerated : option AcceleratedRestore
}.

Definition LoadedSession_empty (session_id : SessionId) : LoadedSession :=
  mkLoadedSession session_id 0 None METADATA_EMPTY [] None None.

Definition with_batches (batches : list CommittedBatch) (l : LoadedSession) : LoadedSession :=
  mkLoadedSession (ls_session_id l) (ls_head_sequence l) (ls_head_checksum l) (ls_metadata l) batches
    (ls_snapshot l) (ls_accelerated l).

Definition first_loaded_sequence (l : LoadedSession) : Z :=
  match ls_committed_batches l with batch :: _ => cb_first_sequence batch | [] => 0 end.

Definition omits_prefix (l : LoadedSession) : bool :=
  (1 <? first_loaded_sequence l)
  || (match ls_committed_batches l with [] => true | _ => false end && (0 <? ls_head_sequence l)).

Inductive LoadWindow : Type :=
| LoadWindow_Full
| LoadWindow_FromSequence (from_sequence : Z) (prior_checksum : Digest)
| LoadWindow_SnapshotPlusTail.

Record LoadFromRequest : Type := mkLoadFromRequest {
  lfr_session_id : SessionId;
  lfr_window : LoadWindow
}.

Record StateSnapshotRequest : Type := mkStateSnapshotRequest {
  ssr_session_id : SessionId;
  ssr_state : KernelState;
  ssr_head_checksum : Digest;
  ssr_pending_timer_scheduled_at : option Timestamp;
  ssr_last_model_continuation : option RawJson
}.

(** The records of a list of batches, in order. *)
Definition batch_records (batches : list CommittedBatch) : list RecordEnvelope := batches ≫= cb_records.

(** ** The default windowed load *)

Definition store_integrity (reason_code : string) : StoreError := StoreError_Integrity reason_code.

Definition record_at (loaded : LoadedSession) (sequence : Z) : option RecordEnvelope :=
  find_map (fun r => if rec_sequence r =? sequence then Some r else None) (batch_records (ls_committed_batches loaded)).

(** The batch at which a window starts, checked to start there. *)
Definition window_start (batches : list CommittedBatch) (start : Z) (gap split : string) : sresult nat :=
  let? start_index := ok_or (position (fun batch => start <=? cb_first_sequence batch) batches) (store_integrity gap) in
  do? reject_if (negb (is_some_and (batches !! start_index) (fun batch => cb_first_sequence batch =? start)))
        (store_integrity split) in
  Ok start_index.

Definition trim_from_sequence (loaded : LoadedSession) (from_sequence : Z) (prior_checksum : Digest) : sresult LoadedSession :=
  let start := if from_sequence =? 0 then 1 else from_sequence in
  if start <=? 1 then Ok loaded
  else
    do? reject_if (u64_saturating_add (ls_head_sequence loaded) 1 <? start) (store_integrity "load_from_sequence_gap") in
    do? reject_if (is_some_and (record_at loaded (Z.max 0 (start - 1))) (fun prior => rec_checksum prior <>?? prior_checksum))
          (store_integrity "load_from_prior_checksum_mismatch") in
    if start =? u64_saturating_add (ls_head_sequence loaded) 1 then
      do? reject_if (ls_head_checksum loaded <>?? Some prior_checksum) (store_integrity "load_from_prior_checksum_mismatch") in
      Ok (with_batches [] loaded)
    else
      let? start_index := window_start (ls_committed_batches loaded) start "load_from_sequence_gap" "load_from_splits_batch" in
      let? first := ok_or (ls_committed_batches loaded !! start_index ≫= fun b => head (cb_records b))
                      (store_integrity "load_from_empty_batch") in
      do? reject_if (negb (rec_sequence first =? start) || (rec_previous_checksum first <>?? Some prior_checksum))
            (store_integrity "load_from_prior_checksum_mismatch") in
      Ok (with_batches (drop start_index (ls_committed_batches loaded)) loaded).

Definition trim_snapshot_plus_tail (loaded : LoadedSession) : sresult LoadedSession :=
  match ls_accelerated loaded with
  | None => Ok loaded
  | Some accelerated =>
      let start := u64_saturating_add (acr_sequence accelerated) 1 in
      do? reject_if (u64_saturating_add (ls_head_sequence loaded) 1 <? start) (store_integrity "snapshot_sequence_invalid") in
      if ls_head_sequence loaded =? acr_sequence accelerated then
        do? reject_if (ls_head_checksum loaded <>?? Some (acr_head_checksum accelerated)) (store_integrity "snapshot_checksum_mismatch") in
        Ok (with_batches [] loaded)
      else
        let? start_index := window_start (ls_committed_batches loaded) start "snapshot_missing_record" "snapshot_splits_batch" in
        let? first := ok_or (ls_committed_batches loaded !! start_index ≫= fun b => head (cb_records b))
                        (store_integrity "snapshot_missing_record") in
        do? reject_if (rec_previous_checksum first <>?? Some (acr_head_checksum accelerated)) (store_integrity "snapshot_checksum_mismatch") in
        Ok (with_batches (drop start_index (ls_committed_batches loaded)) loaded)
  end.

Definition trim_loaded_session (loaded : LoadedSession) (window : LoadWindow) : sresult LoadedSession :=
  match window with
  | LoadWindow_Full => Ok loaded
  | LoadWindow_FromSequence from_sequence prior_checksum => trim_from_sequence loaded from_sequence prior_checksum
  | LoadWindow_SnapshotPlusTail => trim_snapshot_plus_tail loaded
  end.

(** ** Errors *)

Definition protocol_error (error : ProtocolError) : StoreError :=
  match error with
  | ProtocolError_LimitExceeded resource limit => StoreError_LimitExceeded resource limit
  | ProtocolError_Integrity reason_code | ProtocolError_InvalidCbor reason_code | ProtocolError_InvalidFrame reason_code
  | ProtocolError_InvalidEnvelope reason_code | ProtocolError_UnsupportedVersion reason_code
  | ProtocolError_InvalidMessage reason_code => StoreError_Integrity reason_code
  | ProtocolError_Codec _ => StoreError_Integrity "canonical_codec"
  end.

(** ** Appending *)

Definition classify_record_reuse (hits : list AppendBatchId) (total_records : nat) : sresult (option AppendBatchId) :=
  match hits with
  | [] => Ok None
  | first :: _ =>
      do? reject_if (negb (length hits =? total_records)%nat) (StoreError_Corruption "mixed_record_id_reuse") in
      do? reject_if (existsb (fun batch_id => batch_id <>?? first) hits) (StoreError_Corruption "mixed_record_batch_reuse") in
      Ok (Some first)
  end.

Definition check_append_sequence (current_head expected_sequence : Z) : sresult unit :=
  let? actual_next_sequence := ok_or (u64_checked_add current_head 1) (store_integrity "sequence_exhausted") in
  reject_if (negb (expected_sequence =? actual_next_sequence)) (StoreError_Conflict expected_sequence actual_next_sequence).

Record SessionUsage : Type := mkSessionUsage {
  su_batches : nat;
  su_records : nat
}.

Definition limit_exceeded (resource : string) (limit : nat) : StoreError := StoreError_LimitExceeded resource (N.of_nat limit).

Definition admit_append_limits (limits : StoreLimits) (sessions : nat) (usage : option SessionUsage)
    (incoming_records : nat) : sresult unit :=
  match usage with
  | None =>
      do? reject_if (sl_sessions limits <=? sessions)%nat (limit_exceeded "sessions" (sl_sessions limits)) in
      reject_if (sl_records_per_session limits <? incoming_records)%nat
        (limit_exceeded "records_per_session" (sl_records_per_session limits))
  | Some usage =>
      do? reject_if (sl_batches_per_session limits <=? su_batches usage)%nat
            (limit_exceeded "batches_per_session" (sl_batches_per_session limits)) in
      reject_if (sl_records_per_session limits <? su_records usage + incoming_records)%nat
        (limit_exceeded "records_per_session" (sl_records_per_session limits))
  end.

(** ** Windows *)

Record WindowCodes : Type := mkWindowCodes {
  wc_gap : string;
  wc_split : string;
  wc_checksum : string
}.

Definition FROM_SEQUENCE_WINDOW : WindowCodes :=
  mkWindowCodes "load_from_sequence_gap" "load_from_splits_batch" "load_from_prior_checksum_mismatch".
Definition SNAPSHOT_WINDOW : WindowCodes :=
  mkWindowCodes "snapshot_missing_record" "snapshot_splits_batch" "snapshot_checksum_mismatch".

Definition select_tail_batches (batches : list CommittedBatch) (start : Z) (codes : WindowCodes) : sresult (list CommittedBatch) :=
  match position (fun batch => start <=? cb_first_sequence batch) batches with
  | None =>
      do? reject_if (is_some_and (last batches) (fun batch => start <=? cb_last_sequence batch)) (store_integrity (wc_split codes)) in
      Ok []
  | Some index =>
      do? reject_if (is_some_and (batches !! index) (fun batch => start <? cb_first_sequence batch)
                     && match index with
                        | O => false
                        | S prior => is_some_and (batches !! prior) (fun prior => start <=? cb_last_sequence prior)
                        end) (store_integrity (wc_split codes)) in
      Ok (drop index batches)
  end.

(** ** The verified-head cache *)

Record VerifiedHead : Type := mkVerifiedHead {
  vh_sequence : Z;
  vh_checksum : option Digest
}.
#[global] Instance VerifiedHead_eq_dec : EqDecision VerifiedHead.
Proof. solve_decision. Defined.

Record CacheSlot : Type := mkCacheSlot {
  cslot_generation : Z;
  cslot_head : option VerifiedHead
}.
Record VerifiedRead : Type := mkVerifiedRead {
  vr_generation : Z;
  vr_head : option VerifiedHead
}.
Notation VerifiedHeadCache := (gmap SessionId CacheSlot).

Definition cache_read (cache : VerifiedHeadCache) (session_id : SessionId) : VerifiedRead :=
  match cache !! session_id with
  | Some slot => mkVerifiedRead (cslot_generation slot) (cslot_head slot)
  | None => mkVerifiedRead 0 None
  end.

Definition cache_generation (cache : VerifiedHeadCache) (session_id : SessionId) : Z :=
  match cache !! session_id with Some slot => cslot_generation slot | None => 0 end.

Definition cache_remember (cache : VerifiedHeadCache) (session_id : SessionId) (read : VerifiedRead) (head : VerifiedHead)
    : VerifiedHeadCache :=
  let generation := cache_generation cache session_id in
  if negb (generation =? vr_generation read) then cache
  else <[session_id := mkCacheSlot generation (Some head)]> cache.

Definition cache_invalidate (cache : VerifiedHeadCache) (session_id : SessionId) : VerifiedHeadCache :=
  <[session_id := mkCacheSlot (u64_saturating_add (cache_generation cache session_id) 1) None]> cache.

(** ** Scans *)

Definition SCAN_PAGE_MAX_RECORDS : Z := 256.

Definition validate_scan_limit (limit : Z) : sresult unit :=
  do? reject_if (limit =? 0) (StoreError_InvalidRequest "scan_limit_zero") in
  reject_if (SCAN_PAGE_MAX_RECORDS <? limit) (StoreError_InvalidRequest "scan_limit_exceeded").

Definition scan_start (from_sequence : Z) : Z := if from_sequence =? 0 then 1 else from_sequence.

Definition scan_next_sequence (records : list RecordEnvelope) (has_more : bool) : option Z :=
  if negb has_more then None else last records ≫= fun r => u64_checked_add (rec_sequence r) 1.

(** ** Snapshot admission *)

Definition check_snapshot_size (b limit : nat) : sresult unit :=
  reject_if (limit <? b)%nat (limit_exceeded "snapshot_bytes" limit).

Definition admit_snapshot_sequence (snapshot_sequence head_sequence : Z) (current_snapshot_sequence : option Z) : sresult unit :=
  do? reject_if (head_sequence <? snapshot_sequence) (StoreError_InvalidRequest "snapshot_ahead_of_journal") in
  reject_if (is_some_and current_snapshot_sequence (fun current => snapshot_sequence <? current))
    (StoreError_InvalidRequest "snapshot_sequence_regression").

Definition admit_prune_snapshot (snapshot_sequence head_sequence : Z) : sresult unit :=
  reject_if ((snapshot_sequence =? 0) || (head_sequence <? snapshot_sequence)) (StoreError_InvalidRequest "prune_snapshot_not_aligned").

Definition outstanding_count (restored : AcceleratedRestore) : Z :=
  u64_saturating_add (if is_some (k_pending_model_effect (acr_state restored)) then 1 else 0)
    (if is_some (k_pending_interaction (acr_state restored)) then 1 else 0).

Definition tombstone_count (restored : AcceleratedRestore) : Z :=
  let s := acr_state restored in
  u64_of_usize (size (k_completion_identities s) + size (k_resolution_identities s) + size (k_model_settlements s)
                + size (k_tool_settlements s)).

(** ** Verification *)

Section Verification.
Context `{Half, Hasher, Wire}.

Definition build_committed_batch (request : AppendRequest) (previous_checksum : option Digest) : sresult CommittedBatch :=
  do? reject_if (match apr_records request with [] => true | _ => false end) (StoreError_InvalidRequest "empty_append_batch") in
  let? records := map_err protocol_error (commit_records (apr_records request) (apr_expected_sequence request) previous_checksum None) in
  let? last_sequence := ok_or (u64_checked_add (apr_expected_sequence request) (u64_of_usize (length records - 1)))
                          (store_integrity "sequence_exhausted") in
  ok_or (CommittedBatch_try_new (apr_batch_id request) (apr_expected_sequence request) last_sequence records)
    (store_integrity "committed_batch_invalid").

Definition verify_tail_records (session_id : SessionId) (records : list RecordEnvelope) (start : Z) (prior_checksum : Digest)
    (head_sequence : Z) (stored_head : option Digest) (codes : WindowCodes) : sresult unit :=
  do? reject_if (u64_saturating_add head_sequence 1 <? start) (store_integrity (wc_gap codes)) in
  match records with
  | [] =>
      do? reject_if (negb (start =? u64_saturating_add head_sequence 1)) (store_integrity (wc_gap codes)) in
      reject_if (stored_head <>?? Some prior_checksum) (store_integrity (wc_checksum codes))
  | first :: _ =>
      do? reject_if (negb (rec_sequence first =? start)) (store_integrity (wc_gap codes)) in
      do? reject_if (rec_previous_checksum first <>?? Some prior_checksum) (store_integrity (wc_checksum codes)) in
      let? anchor := map_err protocol_error (ChainAnchor_try_new session_id start (Some prior_checksum)) in
      let? head := map_err protocol_error (verify_chain_from records anchor) in
      reject_if (head <>?? stored_head) (store_integrity "head_checksum_mismatch")
  end.

Definition verify_full_head (anchor : ChainAnchor) (records : list RecordEnvelope) (stored_head : option Digest)
    : sresult (option Digest) :=
  let? head := match records with
               | [] => Ok (ca_previous_checksum anchor)
               | _ => map_err protocol_error (verify_chain_from records anchor)
               end in
  do? reject_if (head <>?? stored_head) (store_integrity "head_checksum_mismatch") in
  Ok head.

Definition suffix_verifies (session_id : SessionId) (records : list RecordEnvelope) (verified_sequence : Z)
    (verified_checksum : Digest) (head_sequence : Z) (stored_head : option Digest) : bool :=
  let split := default (length records) (position (fun r => verified_sequence <? rec_sequence r) records) in
  let anchored := match split with
                  | O => false
                  | S index => is_some_and (records !! index) (fun r =>
                                 (rec_sequence r =? verified_sequence) && (rec_checksum r =?? verified_checksum))
                  end in
  if negb anchored then false
  else match verify_tail_records session_id (drop split records) (u64_saturating_add verified_sequence 1) verified_checksum
               head_sequence stored_head FROM_SEQUENCE_WINDOW with
       | Ok _ => true
       | Err _ => false
       end.

Definition verify_head_against_cache (anchor : ChainAnchor) (records : list RecordEnvelope) (head_sequence : Z)
    (stored_head : option Digest) (cached : option VerifiedHead) : sresult (option Digest) :=
  match cached with
  | Some (mkVerifiedHead sequence (Some prior)) =>
      if (1 <=? sequence) && (sequence <=? head_sequence)
         && suffix_verifies (ca_session_id anchor) records sequence prior head_sequence stored_head
      then Ok stored_head
      else verify_full_head anchor records stored_head
  | _ => verify_full_head anchor records stored_head
  end.
End Verification.

(** ** Snapshot codecs *)

Section SnapshotCodec.
Context `{Half, Hasher, SnapshotWire}.

Definition encode_state_request (request : StateSnapshotRequest) (max_bytes : nat) : sresult OpaqueSnapshot :=
  let sequence := k_last_applied_sequence (ssr_state request) in
  let? '(b, digest) := map_err (fun _ => store_integrity "snapshot_encode_failed")
                         (encode_snapshot (ssr_state request) sequence (ssr_head_checksum request)
                            (ssr_pending_timer_scheduled_at request) (ssr_last_model_continuation request)) in
  OpaqueSnapshot_try_new sequence digest b max_bytes.

Definition accelerated_from (snapshot : OpaqueSnapshot) : option AcceleratedRestore :=
  match decode_opaque_snapshot (osn_sequence snapshot) (osn_digest snapshot) (osn_bytes snapshot) with
  | Ok d => Some (mkAcceleratedRestore (dsn_sequence d) (dsn_head_checksum d) (dsn_pending_timer_scheduled_at d)
                    (dsn_last_model_continuation d) (dsn_state d))
  | Err _ => None
  end.
End SnapshotCodec.
