(* ===== verification/StoreChain.v ===== *)
(** * Chains in a store

    Lemmas on linked chains split at a sequence, on the batches that cover a
    chain, and on the head verification of [Store]: full, of a tail, and through
    the verified-head cache. *)

From S2P Require Import Prelude Ids Floats Cbor CborCodec CborDecode Serializer.
From S2P Require Import Primitives Effects Records State Inputs Digests Apply Decide Validate Chain ChainIntegrity Append Snapshot Store.

(** ** First positions *)

Lemma position_Some {A} (p : A -> bool) l i : position p l = Some i ->
  (exists a, l !! i = Some a /\ p a = true) /\ forall j a, (j < i)%nat -> l !! j = Some a -> p a = false.
Proof.
  revert i. induction l as [|a l IH]; intros i; cbn [position]; [done|]. destruct (p a) eqn:Ha.
  { intros [= <-]. split; [by exists a|lia]. }
  destruct (position p l) as [k|]; [|done]. intros [= <-]. destruct (IH k eq_refl) as [(b & Hb & Hp) Hmin].
  split; [by exists b|]. intros [|j] c Hj; cbn; [by intros [= <-]|]. apply Hmin. lia.
Qed.

Lemma position_None {A} (p : A -> bool) l : position p l = None <-> Forall (fun a => p a = false) l.
Proof.
  induction l as [|a l IH]; cbn [position]; [by split; constructor|]. rewrite Forall_cons. destruct (p a) eqn:Ha.
  { split; [done|]. by intros [? _]. }
  rewrite fmap_None, IH. naive_solver.
Qed.

Lemma position_first {A} (p : A -> bool) l i a : l !! i = Some a -> p a = true ->
  (forall j b, (j < i)%nat -> l !! j = Some b -> p b = false) -> position p l = Some i.
Proof.
  revert i. induction l as [|x l IH]; intros [|i]; cbn [position lookup list_lookup]; try done.
  - intros [= ->] -> _. done.
  - intros Hl Hp Hmin. rewrite (Hmin 0%nat x); [|lia|done]. rewrite (IH i Hl Hp); [done|].
    intros j b Hj Hb. apply (Hmin (S j)); [lia|done].
Qed.

(** ** Linked chains *)

Section Linked.
Context `{Half, Hasher, Wire}.

Lemma linked_app rs1 rs2 : forall p s h,
  linked p s (rs1 ++ rs2) h <-> exists m, linked p s rs1 m /\ linked m (s + Z.of_nat (length rs1)) rs2 h.
Proof.
  induction rs1 as [|r rs1 IH]; intros p s h; cbn [app length].
  { rewrite Z.add_0_r. split; [intros Hl; exists p; split; [constructor|done]|].
    intros (m & Hm & Hl). by inversion Hm; subst. }
  split.
  - intros Hl. inversion Hl as [|? ? ? ? ? Hv Hp Hs Hn]; subst. apply IH in Hn as (m & H1' & H2').
    exists m. split; [by constructor|]. by rewrite Nat2Z.inj_succ, <- Z.add_1_l, Z.add_assoc.
  - intros (m & Hm & Hl). inversion Hm as [|? ? ? ? ? Hv Hp Hs Hn]; subst. constructor; [done..|]. apply IH.
    exists m. split; [done|]. by rewrite Nat2Z.inj_succ, <- Z.add_1_l, Z.add_assoc in Hl.
Qed.

Lemma linked_det rs p s h h' : linked p s rs h -> linked p s rs h' -> h = h'.
Proof.
  intros Hl. revert h'. induction Hl as [|? ? ? ? ? Hv Hp Hs Hl IH]; intros h' Hl'; inversion Hl'; subst; [done|]. by apply IH.
Qed.

Lemma linked_lookup rs p s h i r : linked p s rs h -> rs !! i = Some r -> rec_sequence r = s + Z.of_nat i.
Proof.
  intros Hl. revert i. induction Hl as [|? ? ? ? ? Hv Hp Hs Hl IH]; intros [|i]; cbn; try done.
  - intros [= <-]. lia.
  - intros Hi%IH. lia.
Qed.

Lemma linked_last rs p s h : linked p s rs h -> rs <> [] -> h = rec_checksum <$> last rs.
Proof.
  destruct rs as [|r rs _] using rev_ind; [done|]. intros (h' & _ & _ & _ & _ & ->)%linked_snoc _. by rewrite last_snoc.
Qed.

(** The chain split after its first [n] records. *)
Lemma linked_split n rs p s h : linked p s rs h -> (n <= length rs)%nat ->
  exists m, linked p s (take n rs) m /\ linked m (s + Z.of_nat n) (drop n rs) h.
Proof.
  intros Hl Hn. rewrite <- (take_drop n rs) in Hl. apply linked_app in Hl as (m & Hl1 & Hl2).
  exists m. split; [done|]. by rewrite length_take, Nat.min_l in Hl2.
Qed.

(** Where a chain passes a sequence. *)
Lemma linked_position rs p s h q : linked p s rs h ->
  default (length rs) (position (fun r => q <? rec_sequence r) rs) = Nat.min (Z.to_nat (q + 1 - s)) (length rs).
Proof.
  intros Hl. destruct (decide (Z.to_nat (q + 1 - s) < length rs)%nat) as [Hlt|Hge].
  - destruct (lookup_lt_is_Some_2 _ _ Hlt) as [r Hr]. rewrite (position_first _ _ _ r Hr); [cbn; lia| |].
    + apply Z.ltb_lt. rewrite (linked_lookup _ _ _ _ _ _ Hl Hr). lia.
    + intros j b Hj Hb. apply Z.ltb_ge. rewrite (linked_lookup _ _ _ _ _ _ Hl Hb). lia.
  - rewrite (proj2 (position_None _ _)); [cbn; lia|]. apply Forall_lookup. intros i r Hi. apply Z.ltb_ge.
    rewrite (linked_lookup _ _ _ _ _ _ Hl Hi). apply lookup_lt_Some in Hi. lia.
Qed.
End Linked.

(** ** Verification of a head *)

Section Heads.
Context `{Half, Hasher, Wire}.

(** The records of a session that continue a chain, within the counter's range. *)
Record chained (sid : SessionId) (p : option Digest) (s : Z) (rs : list RecordEnvelope) (h : option Digest) : Prop := {
  ch_linked : linked p s rs h;
  ch_session : Forall (fun r => rec_session_id r = sid) rs;
  ch_range : rs <> [] -> 0 <= s + 1 /\ s + Z.of_nat (length rs) <= u64_max
}.

Lemma chained_verifies sid p s rs h : chained sid p s rs h <-> verify_chain_from rs (mkChainAnchor sid s p) = Ok h.
Proof.
  rewrite verify_chain_from_spec. cbn [ca_previous_checksum ca_next_sequence ca_session_id].
  split; [intros []; done|]. intros (? & ? & ?). done.
Qed.

Lemma chained_split sid p s rs h n : chained sid p s rs h -> (n <= length rs)%nat -> 0 <= s ->
  exists m, chained sid p s (take n rs) m /\ chained sid m (s + Z.of_nat n) (drop n rs) h.
Proof.
  intros [Hl Hs Hr] Hn Hpos. destruct (linked_split n _ _ _ _ Hl Hn) as (m & H1' & H2'). exists m.
  split; split; try done; [by apply Forall_take| |by apply Forall_drop|].
  - intros Hne. destruct rs; [by destruct n|]. specialize (Hr ltac:(done)). rewrite length_take. lia.
  - intros Hne. destruct rs; [by destruct n|]. specialize (Hr ltac:(done)). rewrite length_drop. lia.
Qed.

Lemma chained_app sid p s rs1 rs2 m h : chained sid p s rs1 m -> chained sid m (s + Z.of_nat (length rs1)) rs2 h -> 0 <= s ->
  chained sid p s (rs1 ++ rs2) h.
Proof.
  intros [L1 S1 R1] [L2 S2 R2] Hs. split.
  - apply linked_app. by exists m.
  - by apply Forall_app.
  - intros Hne. rewrite length_app. destruct (decide (rs2 = [])) as [->|N2].
    + rewrite app_nil_r in Hne. specialize (R1 Hne). cbn [length]. lia.
    + specialize (R2 N2). lia.
Qed.

(** A head is accepted exactly when the records chain from the anchor to it. *)
Lemma verify_full_head_spec sid p s rs stored h :
  verify_full_head (mkChainAnchor sid s p) rs stored = Ok h <-> h = stored /\ chained sid p s rs stored.
Proof.
  unfold verify_full_head. cbn [ca_previous_checksum]. destruct rs as [|r rs].
  { cbn [rbind]. destruct (p <>?? stored) eqn:E; cbn [reject_if rbind].
    - split; [done|]. intros [_ [Hl _ _]]. inversion Hl; subst. by rewrite eqb_refl in E.
    - apply negb_false_iff, eqb_eq in E as ->. split; [intros [= <-]; split; [done|split; [constructor|constructor|done]]|].
      by intros [-> _]. }
  rewrite chained_verifies. destruct (verify_chain_from _ _) as [d|e]; cbn [map_err rbind]; [|split; [done|by intros [_ ?]]].
  destruct (d <>?? stored) eqn:E; cbn [reject_if rbind].
  - split; [done|]. intros [_ [= ->]]. by rewrite eqb_refl in E.
  - apply negb_false_iff, eqb_eq in E as ->. naive_solver.
Qed.

(** A non-empty tail is accepted exactly when it chains from the prior checksum
    to the stored head. *)
Lemma verify_tail_spec sid rs s prior hseq stored codes : rs <> [] -> 2 <= s ->
  verify_tail_records sid rs s prior hseq stored codes = Ok tt <->
  s <= u64_saturating_add hseq 1 /\ chained sid (Some prior) s rs stored.
Proof.
  intros Hne Hs. unfold verify_tail_records. destruct rs as [|r rs]; [done|].
  destruct (Z.ltb_spec (u64_saturating_add hseq 1) s) as [Hlt|Hle]; cbn [reject_if rbind]; [split; [done|lia]|].
  assert (ChainAnchor_try_new sid s (Some prior) = Ok (mkChainAnchor sid s (Some prior))) as ->.
  { unfold ChainAnchor_try_new. rewrite (proj2 (Z.eqb_neq s 0)), (proj2 (Z.eqb_neq s 1)) by lia. done. }
  destruct (decide (rec_sequence r = s)) as [Hq|Hq].
  2: { rewrite (proj2 (Z.eqb_neq _ _) Hq). cbn [negb reject_if rbind]. split; [done|]. intros [_ [Hl _ _]]. by inversion Hl. }
  rewrite (proj2 (Z.eqb_eq _ _) Hq). cbn [negb reject_if rbind].
  destruct (decide (rec_previous_checksum r = Some prior)) as [Hp|Hp].
  2: { rewrite (proj2 (eqb_false _ _) Hp). cbn [negb reject_if rbind]. split; [done|]. intros [_ [Hl _ _]]. by inversion Hl. }
  rewrite Hp, eqb_refl. cbn [negb reject_if rbind map_err]. rewrite chained_verifies.
  destruct (verify_chain_from _ _) as [d|e]; cbn [map_err rbind]; [|split; [done|by intros [_ ?]]].
  destruct (d <>?? stored) eqn:E; cbn [reject_if rbind].
  - split; [done|]. intros [_ [= ->]]. by rewrite eqb_refl in E.
  - apply negb_false_iff, eqb_eq in E as ->. naive_solver.
Qed.
(** ** The verified-head cache *)

(** The records a cached head stands for. *)
Definition verified_prefix (q : Z) (rs : list RecordEnvelope) : list RecordEnvelope :=
  take (default (length rs) (position (fun r => q <? rec_sequence r) rs)) rs.

Lemma position_le {A} (p : A -> bool) (l : list A) : (default (length l) (position p l) <= length l)%nat.
Proof.
  destruct (position p l) as [i|] eqn:E; [|done]. apply position_Some in E as [(a & Ha & _) _].
  apply lookup_lt_Some in Ha. cbn. lia.
Qed.

(** A journal that verifies is accepted whatever the cache holds. *)
Lemma cache_accepts sid p s rs hseq stored cached h :
  verify_full_head (mkChainAnchor sid s p) rs stored = Ok h ->
  verify_head_against_cache (mkChainAnchor sid s p) rs hseq stored cached = Ok h.
Proof.
  intros Hf. pose proof Hf as [-> _]%verify_full_head_spec. unfold verify_head_against_cache.
  destruct cached as [[q [c|]]|]; [|done..]. by case_match.
Qed.

(** The shortcut is taken only over a chain from the cached record to the head. *)
Lemma suffix_chained sid rs q c hseq stored : 1 <= q <= hseq ->
  suffix_verifies sid rs q c hseq stored = true ->
  exists r n, default (length rs) (position (fun r => q <? rec_sequence r) rs) = S n /\ rs !! n = Some r /\
    rec_sequence r = q /\ rec_checksum r = c /\ chained sid (Some c) (q + 1) (drop (S n) rs) stored.
Proof.
  intros Hq. unfold suffix_verifies. destruct (default _ _) as [|n] eqn:Hn; [done|].
  destruct (rs !! n) as [r|] eqn:Hr; [|done]. cbn [is_some_and].
  destruct ((rec_sequence r =? q) && (rec_checksum r =?? c)) eqn:E; [|done].
  apply andb_true_iff in E as [E1%Z.eqb_eq E2%eqb_eq]. cbn [negb].
  destruct (verify_tail_records _ _ _ _ _ _ _) as [[]|e] eqn:Ht; [|done]. intros _. exists r, n. split_and!; try done.
  destruct (decide (drop (S n) rs = [])) as [Hnil|Hne].
  { rewrite Hnil in *. unfold verify_tail_records in Ht. step Ht. step Ht. apply reject_if_Ok, negb_false_iff, eqb_eq in Ht. subst stored.
    split; [constructor|constructor|done]. }
  assert (position (fun r => q <? rec_sequence r) rs = Some (S n)) as Hpos.
  { destruct (position _ _) as [i|]; cbn in Hn; [by f_equal|]. destruct Hne. by rewrite <- Hn, drop_all. }
  apply position_Some in Hpos as [(t & Ht1 & Ht2%Z.ltb_lt) _].
  rewrite (drop_S _ _ _ Ht1) in Ht |- *.
  assert (2 <= u64_saturating_add q 1) as H2 by (unfold u64_saturating_add, u64_max; lia).
  apply verify_tail_spec in Ht as [_ [Hl Hses Hran]]; [|done|done].
  assert (rec_sequence t = u64_saturating_add q 1) as Heq by by inversion Hl.
  assert (u64_saturating_add q 1 = q + 1) as Hsat by (unfold u64_saturating_add in *; lia).
  rewrite Hsat in *. by split.
Qed.

(** The shortcut looks at nothing before the cached record. *)
Lemma suffix_accepted sid before r after q hseq stored :
  Forall (fun x => rec_sequence x <= q) before -> rec_sequence r = q -> 1 <= q ->
  chained sid (Some (rec_checksum r)) (q + 1) after stored -> hseq = q + Z.of_nat (length after) -> hseq < u64_max ->
  suffix_verifies sid (before ++ r :: after) q (rec_checksum r) hseq stored = true.
Proof.
  intros Hb Hr Hq Hc -> Hmax.
  assert (default (length (before ++ r :: after)) (position (fun x => q <? rec_sequence x) (before ++ r :: after)) = S (length before)) as Hsplit.
  { destruct after as [|t after].
    - rewrite (proj2 (position_None _ _)); [cbn; rewrite length_app; cbn; lia|]. apply Forall_app. split.
      + eapply Forall_impl; [exact Hb|]. intros x Hx. by apply Z.ltb_ge.
      + constructor; [|done]. apply Z.ltb_ge. lia.
    - rewrite (position_first _ _ (S (length before)) t); [done|by rewrite lookup_app_r, Nat.sub_succ_l, Nat.sub_diag by lia| |].
      + apply Z.ltb_lt. destruct Hc as [Hl _ _]. inversion Hl. lia.
      + intros j x Hj Hx. apply Z.ltb_ge. destruct (decide (j < length before)%nat) as [Hlt|].
        * rewrite lookup_app_l in Hx by done. by apply (Forall_lookup_1 _ _ _ _ Hb Hx).
        * assert (j = length before) as -> by lia. rewrite lookup_app_r, Nat.sub_diag in Hx by lia. injection Hx as <-. lia. }
  unfold suffix_verifies. rewrite Hsplit. cbv beta iota zeta.
  assert ((before ++ r :: after) !! length before = Some r) as -> by (by rewrite lookup_app_r, Nat.sub_diag by lia).
  cbn [is_some_and]. rewrite (proj2 (Z.eqb_eq _ _) Hr), eqb_refl. cbn [andb negb].
  assert (drop (S (length before)) (before ++ r :: after) = after) as ->
    by (rewrite drop_app_ge by lia; by rewrite Nat.sub_succ_l, Nat.sub_diag by lia).
  assert (u64_saturating_add q 1 = q + 1) as -> by (unfold u64_saturating_add; lia).
  destruct (decide (after = [])) as [->|Hne].
  - destruct Hc as [Hl _ _]. inversion Hl; subst. unfold verify_tail_records. cbn [length].
    rewrite Z.add_0_r, (proj2 (Z.ltb_ge _ _)), eqb_refl by (unfold u64_saturating_add; lia). cbn [reject_if rbind].
    rewrite (proj2 (Z.eqb_eq _ _)) by (unfold u64_saturating_add; lia). done.
  - rewrite (proj2 (verify_tail_spec sid after (q + 1) (rec_checksum r) _ stored FROM_SEQUENCE_WINDOW Hne ltac:(lia))); [done|].
    split; [|done]. unfold u64_saturating_add. lia.
Qed.

(** While the records up to the cached head still chain to it, the cache decides
    exactly as a full verification, error codes included. *)
Lemma cache_exact sid p s rs hseq stored q c : 0 <= s ->
  chained sid p s (verified_prefix q rs) (Some c) ->
  verify_head_against_cache (mkChainAnchor sid s p) rs hseq stored (Some (mkVerifiedHead q (Some c)))
  = verify_full_head (mkChainAnchor sid s p) rs stored.
Proof.
  intros Hs Hpre. unfold verify_head_against_cache. cbn [ca_session_id].
  destruct ((1 <=? q) && (q <=? hseq) && suffix_verifies sid rs q c hseq stored) eqn:E; [|done].
  apply andb_true_iff in E as [[E1%Z.leb_le E2%Z.leb_le]%andb_true_iff E].
  symmetry. apply verify_full_head_spec. split; [done|].
  apply suffix_chained in E as (r & n & Hn & Hr & Hq & Hc & Htail); [|done].
  unfold verified_prefix in Hpre. rewrite Hn in Hpre. rewrite <- (take_drop (S n) rs).
  pose proof (lookup_lt_Some _ _ _ Hr) as Hlt. apply (chained_app _ _ _ _ _ (Some c)); [done| |done].
  destruct Hpre as [Hl _ _]. assert (take (S n) rs !! n = Some r) as Hr' by (rewrite lookup_take_lt by lia; done).
  pose proof (linked_lookup _ _ _ _ _ _ Hl Hr') as Hseq. rewrite length_take, Nat.min_l by lia.
  by replace (s + Z.of_nat (S n)) with (q + 1) by lia.
Qed.
End Heads.
