(* ===== verification/MemoryStore.v ===== *)
(** * The in-memory journal store

    Models [extensions/stores/finstack-ai-store-memory/src/lib.rs].  Every port
    operation is one atomic step on the store's state: the source holds the
    store's mutex for its state changes, and the sections it leaves outside the
    mutex (the chain walks of [scan_sync] and [prune_sync]) read a captured copy
    of the session.  A poisoned mutex, which only a panic leaves behind, is not
    modelled. *)

From S2P Require Import Prelude Ids Floats Cbor CborCodec CborDecode Serializer.
From S2P Require Import Primitives Effects Records State Inputs Digests Apply Decide Validate Chain ChainIntegrity Append Snapshot Store.

(** ** State *)

Record SessionData : Type := mkSessionData {
  sd_head_sequence : Z;
  sd_head_checksum : option Digest;
  sd_metadata : Metadata;
  sd_records : nat;
  sd_batches : list CommittedBatch;
  sd_boundary_record : option RecordEnvelope;
  sd_snapshot : option OpaqueSnapshot;
  sd_anchor_next_sequence : Z;
  sd_anchor_previous_checksum : option Digest
}.

Definition SessionData_default : SessionData := mkSessionData 0 None METADATA_EMPTY 0 [] None None 1 None.

Record BatchIndexEntry : Type := mkBatchIndexEntry {
  bie_request : AppendRequest;
  bie_committed : CommittedBatch;
  bie_history_pruned : bool
}.

Record Inner : Type := mkInner {
  in_sessions : gmap SessionId SessionData;
  in_batches_by_id : gmap AppendBatchId BatchIndexEntry;
  in_records_by_id : gmap RecordId AppendBatchId
}.

Record MemoryJournalStore : Type := mkMemoryJournalStore {
  ms_limits : StoreLimits;
  ms_inner : Inner;
  ms_verified : VerifiedHeadCache
}.

Definition MemoryJournalStore_try_new (limits : StoreLimits) : sresult MemoryJournalStore :=
  let? limits := StoreLimits_validate limits in
  Ok (mkMemoryJournalStore limits (mkInner ∅ ∅ ∅) ∅).

Definition set_ms_inner (inner : Inner) (m : MemoryJournalStore) : MemoryJournalStore :=
  mkMemoryJournalStore (ms_limits m) inner (ms_verified m).
Definition set_ms_verified (cache : VerifiedHeadCache) (m : MemoryJournalStore) : MemoryJournalStore :=
  mkMemoryJournalStore (ms_limits m) (ms_inner m) cache.
Definition set_session (sid : SessionId) (sd : SessionData) (m : MemoryJournalStore) : MemoryJournalStore :=
  set_ms_inner (mkInner (<[sid := sd]> (in_sessions (ms_inner m))) (in_batches_by_id (ms_inner m)) (in_records_by_id (ms_inner m))) m.
Definition session_of (m : MemoryJournalStore) (sid : SessionId) : option SessionData := in_sessions (ms_inner m) !! sid.

Inductive CacheUse : Type := CacheUse_Proving | CacheUse_Windowed.

(** [SessionChain]: the anchor and the retained records of a session. *)
Definition session_anchor (sid : SessionId) (sd : SessionData) : ChainAnchor :=
  mkChainAnchor sid (sd_anchor_next_sequence sd) (sd_anchor_previous_checksum sd).
Definition session_records (sd : SessionData) : list RecordEnvelope :=
  option_list (sd_boundary_record sd) ++ batch_records (sd_batches sd).

Record ScanRequest : Type := mkScanRequest {
  scr_session_id : SessionId;
  scr_from_sequence : Z;
  scr_limit : Z
}.
Record ScanPage : Type := mkScanPage {
  scp_session_id : SessionId;
  scp_records : list RecordEnvelope;
  scp_next_sequence : option Z
}.
Record PruneReceipt : Type := mkPruneReceipt {
  prr_pruned_through_sequence : Z;
  prr_retained_outstanding : Z;
  prr_retained_tombstones : Z
}.

Section MemoryStore.
Context `{Half, Hasher, Wire, SnapshotWire}.

(** ** Append *)

(** The batch with this identity answers the request again, or refuses it. *)
Definition replay_batch (existing : BatchIndexEntry) (request : AppendRequest) : sresult CommittedBatch :=
  if bie_history_pruned existing
  then Err (if requests_equal (bie_request existing) request then StoreError_InvalidRequest "append_history_pruned"
            else StoreError_Corruption "append_batch_id_reuse")
  else if requests_equal (bie_request existing) request then Ok (bie_committed existing)
       else Err (StoreError_Corruption "append_batch_id_reuse").

(** The records are known under another batch identity. *)
Definition replay_records (existing : BatchIndexEntry) (request : AppendRequest) : sresult CommittedBatch :=
  let prior := bie_request existing in
  if (apr_session_id prior =?? apr_session_id request) && (apr_expected_sequence prior =?? apr_expected_sequence request)
     && drafts_equal (apr_records prior) (apr_records request)
  then Ok (bie_committed existing)
  else Err (StoreError_Corruption "record_id_reuse").

(** The state transition of a fresh append. *)
Definition commit_append (m : MemoryJournalStore) (request : AppendRequest) (committed : CommittedBatch) : MemoryJournalStore :=
  let inner := ms_inner m in
  let sid := apr_session_id request in
  let session := default SessionData_default (in_sessions inner !! sid) in
  let head_checksum := rec_checksum <$> last (cb_records committed) in
  let session := mkSessionData (cb_last_sequence committed) head_checksum (sd_metadata session)
                   (sd_records session + length (apr_records request)) (sd_batches session ++ [committed])
                   (sd_boundary_record session) (sd_snapshot session) (sd_anchor_next_sequence session)
                   (sd_anchor_previous_checksum session) in
  let records_by_id := foldl (fun ids record => <[dr_record_id record := apr_batch_id request]> ids)
                         (in_records_by_id inner) (apr_records request) in
  let batches_by_id := <[apr_batch_id request := mkBatchIndexEntry request committed false]> (in_batches_by_id inner) in
  let cache := ms_verified m in
  let cache := cache_remember cache sid (cache_read cache sid) (mkVerifiedHead (sd_head_sequence session) (sd_head_checksum session)) in
  mkMemoryJournalStore (ms_limits m) (mkInner (<[sid := session]> (in_sessions inner)) batches_by_id records_by_id) cache.

Definition append_sync (m : MemoryJournalStore) (request : AppendRequest) : sresult (CommittedBatch * MemoryJournalStore) :=
  let inner := ms_inner m in
  let sid := apr_session_id request in
  match in_batches_by_id inner !! apr_batch_id request with
  | Some existing => let? committed := replay_batch existing request in Ok (committed, m)
  | None =>
      do? reject_if (match apr_records request with [] => true | _ => false end) (StoreError_InvalidRequest "empty_append_batch") in
      let hits := omap (fun record => in_records_by_id inner !! dr_record_id record) (apr_records request) in
      do? reject_if (existsb (fun batch_id => is_some_and (in_batches_by_id inner !! batch_id) bie_history_pruned) hits)
            (StoreError_InvalidRequest "append_history_pruned") in
      let? original := classify_record_reuse hits (length (apr_records request)) in
      match original with
      | Some original_batch_id =>
          let? existing := ok_or (in_batches_by_id inner !! original_batch_id) (store_integrity "missing_record_batch_index") in
          let? committed := replay_records existing request in
          Ok (committed, m)
      | None =>
          let session := in_sessions inner !! sid in
          let current_head := match session with Some sd => sd_head_sequence sd | None => 0 end in
          do? check_append_sequence current_head (apr_expected_sequence request) in
          let usage := (fun sd => mkSessionUsage (length (sd_batches sd)) (sd_records sd)) <$> session in
          do? admit_append_limits (ms_limits m) (size (in_sessions inner)) usage (length (apr_records request)) in
          let? committed := build_committed_batch request (session ≫= sd_head_checksum) in
          Ok (committed, commit_append m request committed)
      end
  end.

(** ** Loads *)

Definition is_integrity {A} (r : sresult A) : bool :=
  match r with Err (StoreError_Integrity _) => true | _ => false end.

Definition verify_session_head (m : MemoryJournalStore) (sid : SessionId) (sd : SessionData) (read : VerifiedRead)
    (cache_use : CacheUse) : MemoryJournalStore * sresult (option Digest) :=
  let cached := match cache_use with CacheUse_Proving => vr_head read | CacheUse_Windowed => None end in
  let r := verify_head_against_cache (session_anchor sid sd) (session_records sd) (sd_head_sequence sd) (sd_head_checksum sd) cached in
  (if is_integrity r then set_ms_verified (cache_invalidate (ms_verified m) sid) m else m, r).

Definition loaded_session (sid : SessionId) (sd : SessionData) (batches : list CommittedBatch) : LoadedSession :=
  mkLoadedSession sid (sd_head_sequence sd) (sd_head_checksum sd) (sd_metadata sd) batches (sd_snapshot sd)
    (sd_snapshot sd ≫= accelerated_from).

Definition load_full (m : MemoryJournalStore) (sid : SessionId) (cache_use : CacheUse)
    : MemoryJournalStore * sresult LoadedSession :=
  let read := cache_read (ms_verified m) sid in
  match session_of m sid with
  | None => (m, Ok (LoadedSession_empty sid))
  | Some sd =>
      let '(m, verified) := verify_session_head m sid sd read cache_use in
      match verified with
      | Err e => (m, Err e)
      | Ok head =>
          (match cache_use with
           | CacheUse_Proving => set_ms_verified (cache_remember (ms_verified m) sid read (mkVerifiedHead (sd_head_sequence sd) head)) m
           | CacheUse_Windowed => m
           end, Ok (loaded_session sid sd (sd_batches sd)))
      end
  end.

Definition load (m : MemoryJournalStore) (sid : SessionId) : MemoryJournalStore * sresult LoadedSession :=
  load_full m sid CacheUse_Proving.

Definition loaded_from_batches (sid : SessionId) (sd : SessionData) (start : Z) (prior_checksum : Digest) (codes : WindowCodes)
    : sresult LoadedSession :=
  let? tail := select_tail_batches (sd_batches sd) start codes in
  do? verify_tail_records sid (batch_records tail) start prior_checksum (sd_head_sequence sd) (sd_head_checksum sd) codes in
  Ok (loaded_session sid sd tail).

Definition load_from_sequence (m : MemoryJournalStore) (sid : SessionId) (from_sequence : Z) (prior_checksum : Digest)
    : MemoryJournalStore * sresult LoadedSession :=
  if from_sequence <=? 1 then load_full m sid CacheUse_Windowed
  else (m, match session_of m sid with
           | None => Err (store_integrity "load_from_sequence_gap")
           | Some sd => loaded_from_batches sid sd from_sequence prior_checksum FROM_SEQUENCE_WINDOW
           end).

Definition load_snapshot_plus_tail (m : MemoryJournalStore) (sid : SessionId) : MemoryJournalStore * sresult LoadedSession :=
  match session_of m sid with
  | None => (m, Ok (LoadedSession_empty sid))
  | Some sd =>
      match sd_snapshot sd with
      | None => load_full m sid CacheUse_Windowed
      | Some snapshot =>
          (m, match accelerated_from snapshot with
              | None => Err (store_integrity "snapshot_state_invalid")
              | Some accelerated =>
                  loaded_from_batches sid sd (u64_saturating_add (acr_sequence accelerated) 1) (acr_head_checksum accelerated) SNAPSHOT_WINDOW
              end)
      end
  end.

Definition load_from (m : MemoryJournalStore) (request : LoadFromRequest) : MemoryJournalStore * sresult LoadedSession :=
  let sid := lfr_session_id request in
  let '(m, r) := match lfr_window request with
                 | LoadWindow_Full => load_full m sid CacheUse_Proving
                 | LoadWindow_FromSequence from_sequence prior_checksum => load_from_sequence m sid from_sequence prior_checksum
                 | LoadWindow_SnapshotPlusTail => load_snapshot_plus_tail m sid
                 end in
  (if is_integrity r then set_ms_verified (cache_invalidate (ms_verified m) sid) m else m, r).

(** ** Scans *)

Definition remember_if_head_unchanged (m : MemoryJournalStore) (sid : SessionId) (head : VerifiedHead) : MemoryJournalStore :=
  if is_some_and (session_of m sid) (fun sd => (sd_head_sequence sd =? vh_sequence head) && (sd_head_checksum sd =?? vh_checksum head))
  then set_ms_verified (cache_remember (ms_verified m) sid (cache_read (ms_verified m) sid) head) m
  else m.

(** The page, and whether a record was left for the next one. *)
Fixpoint slice_loop (records : list RecordEnvelope) (start : Z) (limit : nat) (page : list RecordEnvelope) : list RecordEnvelope * bool :=
  match records with
  | [] => (page, false)
  | r :: records =>
      if rec_sequence r <? start then slice_loop records start limit page
      else if (length page =? limit)%nat then (page, true)
      else slice_loop records start limit (page ++ [r])
  end.

Definition slice_records (boundary_record : option RecordEnvelope) (batches : list CommittedBatch) (start : Z) (limit : nat)
    : list RecordEnvelope * bool :=
  match boundary_record with
  | Some boundary =>
      if start <=? rec_sequence boundary
      then if (limit =? 0)%nat then ([], true) else slice_loop (batch_records batches) start limit [boundary]
      else slice_loop (batch_records batches) start limit []
  | None => slice_loop (batch_records batches) start limit []
  end.

Definition scan_sync (m : MemoryJournalStore) (request : ScanRequest) : MemoryJournalStore * sresult ScanPage :=
  let sid := scr_session_id request in
  match validate_scan_limit (scr_limit request) with
  | Err e => (m, Err e)
  | Ok _ =>
      let read := cache_read (ms_verified m) sid in
      match session_of m sid with
      | None => (m, Ok (mkScanPage sid [] None))
      | Some sd =>
          let '(m, verified) := verify_session_head m sid sd read CacheUse_Proving in
          match verified with
          | Err e => (m, Err e)
          | Ok head =>
              let m := remember_if_head_unchanged m sid (mkVerifiedHead (sd_head_sequence sd) head) in
              let '(records, saw_more) := slice_records (sd_boundary_record sd) (sd_batches sd) (scan_start (scr_from_sequence request))
                                            (Z.to_nat (scr_limit request)) in
              (m, Ok (mkScanPage sid records (scan_next_sequence records saw_more)))
          end
      end
  end.

(** ** Metadata and snapshots *)

Definition write_metadata_sync (m : MemoryJournalStore) (sid : SessionId) (expected_head_checksum : option Digest) (metadata : Metadata)
    : sresult MemoryJournalStore :=
  let? sd := ok_or (session_of m sid) (StoreError_InvalidRequest "metadata_session_not_found") in
  do? reject_if (sd_head_checksum sd <>?? expected_head_checksum) (StoreError_InvalidRequest "metadata_cas_mismatch") in
  Ok (set_session sid (mkSessionData (sd_head_sequence sd) (sd_head_checksum sd) metadata (sd_records sd) (sd_batches sd)
                         (sd_boundary_record sd) (sd_snapshot sd) (sd_anchor_next_sequence sd) (sd_anchor_previous_checksum sd)) m).

Definition set_sd_snapshot (snapshot : option OpaqueSnapshot) (sd : SessionData) : SessionData :=
  mkSessionData (sd_head_sequence sd) (sd_head_checksum sd) (sd_metadata sd) (sd_records sd) (sd_batches sd)
    (sd_boundary_record sd) snapshot (sd_anchor_next_sequence sd) (sd_anchor_previous_checksum sd).

Definition write_snapshot_sync (m : MemoryJournalStore) (sid : SessionId) (snapshot : OpaqueSnapshot) : sresult MemoryJournalStore :=
  do? check_snapshot_size (length (osn_bytes snapshot)) (sl_snapshot_bytes (ms_limits m)) in
  let? sd := ok_or (session_of m sid) (StoreError_InvalidRequest "snapshot_session_not_found") in
  do? admit_snapshot_sequence (osn_sequence snapshot) (sd_head_sequence sd) (osn_sequence <$> sd_snapshot sd) in
  Ok (set_session sid (set_sd_snapshot (Some snapshot) sd) m).

Definition write_state_snapshot_sync (m : MemoryJournalStore) (request : StateSnapshotRequest) : sresult MemoryJournalStore :=
  let? snapshot := encode_state_request request (sl_snapshot_bytes (ms_limits m)) in
  write_snapshot_sync m (ssr_session_id request) snapshot.

Definition discard_snapshot (m : MemoryJournalStore) (sid : SessionId) : sresult MemoryJournalStore :=
  let? sd := ok_or (session_of m sid) (StoreError_InvalidRequest "snapshot_session_not_found") in
  Ok (set_session sid (set_sd_snapshot None sd) m).

(** ** Prune *)

(** The session without the batches the boundary batch closes. *)
Definition prune_session (sd : SessionData) (pruned_through : Z) (boundary : RecordEnvelope) : SessionData :=
  let batches := List.filter (fun batch => pruned_through <? cb_last_sequence batch) (sd_batches sd) in
  mkSessionData (sd_head_sequence sd) (sd_head_checksum sd) (sd_metadata sd) (1 + length (batch_records batches)) batches
    (Some boundary) (sd_snapshot sd) (rec_sequence boundary) (rec_previous_checksum boundary).

(** The indices without the entries of the dropped batches. *)
Definition prune_index (inner : Inner) (sid : SessionId) (pruned_through : Z) (boundary_batch : CommittedBatch) (boundary : RecordEnvelope)
    : gmap AppendBatchId BatchIndexEntry * gmap RecordId AppendBatchId :=
  let batches := filter (fun kv : AppendBatchId * BatchIndexEntry =>
                   apr_session_id (bie_request kv.2) <> sid \/ pruned_through <= cb_last_sequence (bie_committed kv.2))
                   (in_batches_by_id inner) in
  let batches := alter (fun entry => mkBatchIndexEntry (bie_request entry) (bie_committed entry)
                          (negb (cb_first_sequence boundary_batch =? cb_last_sequence boundary_batch)))
                   (cb_batch_id boundary_batch) batches in
  let records := foldl (fun ids id => if id <>?? rec_record_id boundary then delete id ids else ids) (in_records_by_id inner)
                   (rec_record_id <$> cb_records boundary_batch) in
  (batches, filter (fun kv : RecordId * AppendBatchId => is_Some (batches !! kv.2)) records).

Definition prune_sync (m : MemoryJournalStore) (sid : SessionId) : MemoryJournalStore * sresult PruneReceipt :=
  let inner := ms_inner m in
  let checked :=
    let? sd := ok_or (in_sessions inner !! sid) (StoreError_InvalidRequest "prune_session_not_found") in
    let? snapshot := ok_or (sd_snapshot sd) (StoreError_InvalidRequest "prune_requires_snapshot") in
    do? admit_prune_snapshot (osn_sequence snapshot) (sd_head_sequence sd) in
    do? reject_if (negb (existsb (fun batch => cb_last_sequence batch =? osn_sequence snapshot) (sd_batches sd)))
          (StoreError_InvalidRequest "prune_not_batch_aligned") in
    let? accelerated := ok_or (accelerated_from snapshot) (store_integrity "prune_snapshot_undecodable") in
    let pruned_through := osn_sequence snapshot in
    let? boundary_batch := ok_or (find_map (fun b => if cb_last_sequence b =? pruned_through then Some b else None) (sd_batches sd))
                             (store_integrity "prune_boundary_batch_missing") in
    let? boundary := ok_or (last (cb_records boundary_batch)) (store_integrity "prune_boundary_record_missing") in
    Ok (sd, accelerated, pruned_through, boundary_batch, boundary) in
  match checked with
  | Err e => (m, Err e)
  | Ok (sd, accelerated, pruned_through, boundary_batch, boundary) =>
      let pruned := prune_session sd pruned_through boundary in
      let '(batches, records) := prune_index inner sid pruned_through boundary_batch boundary in
      let m := mkMemoryJournalStore (ms_limits m) (mkInner (<[sid := pruned]> (in_sessions inner)) batches records)
                 (cache_invalidate (ms_verified m) sid) in
      match verify_full_head (session_anchor sid pruned) (session_records pruned) (sd_head_checksum pruned) with
      | Err e => (m, Err e)
      | Ok _ =>
          (remember_if_head_unchanged m sid (mkVerifiedHead (sd_head_sequence pruned) (sd_head_checksum pruned)),
           Ok (mkPruneReceipt pruned_through (outstanding_count accelerated) (tombstone_count accelerated)))
      end
  end.
End MemoryStore.
