(* ===== verification/StoreJournal.v ===== *)
(** * The store refines an append-only journal

    The abstract store is a map from sessions to their whole history, the list
    of every batch ever committed.  [store_repr] relates a [MemoryJournalStore]
    to it: the retained records are a suffix of the history, the anchor is the
    chain state where they start, and every indexed batch is a stretch of the
    history.  Each operation is simulated by appending to the history or by
    leaving it alone. *)

From S2P Require Import Prelude Ids Floats Cbor CborCodec CborDecode Serializer.
From S2P Require Import Primitives Effects Records State Inputs Digests Apply Decide Validate Chain ChainIntegrity Append Snapshot Store StoreChain MemoryStore.

(** ** Batches that cover consecutive sequences *)

Inductive covers : Z -> list CommittedBatch -> Prop :=
| covers_nil s : covers s []
| covers_cons s b bs :
    cb_records b <> [] -> cb_first_sequence b = s -> cb_last_sequence b = s + Z.of_nat (length (cb_records b)) - 1 ->
    covers (s + Z.of_nat (length (cb_records b))) bs -> covers s (b :: bs).

Lemma covers_app bs1 bs2 : forall s,
  covers s (bs1 ++ bs2) <-> covers s bs1 /\ covers (s + Z.of_nat (length (batch_records bs1))) bs2.
Proof.
  induction bs1 as [|b bs1 IH]; intros s; cbn [app].
  { cbn. rewrite Z.add_0_r. split; [by split; [constructor|]|by intros [_ ?]]. }
  assert (length (batch_records (b :: bs1)) = length (cb_records b) + length (batch_records bs1))%nat as ->
    by (unfold batch_records; cbn; by rewrite length_app).
  rewrite Nat2Z.inj_add, Z.add_assoc. split.
  - intros Hc. inversion Hc as [|? ? ? Hne Hf Hla Hc']; subst. apply IH in Hc' as [Hc1 Hc2]. split; [by constructor|done].
  - intros [Hc Hc2]. inversion Hc as [|? ? ? Hne Hf Hla Hc']; subst. constructor; [done..|]. apply IH. done.
Qed.

Lemma covers_last s bs b : covers s bs -> b ∈ bs -> s <= cb_last_sequence b.
Proof.
  intros Hc. induction Hc as [|? b' bs Hne Hf Hla Hc IH]; [by intros ?%not_elem_of_nil|].
  assert (1 <= length (cb_records b'))%nat by (destruct (cb_records b'); cbn; [done|lia]).
  intros [->|Hb]%elem_of_cons; [lia|]. apply IH in Hb. lia.
Qed.

Lemma filter_all {A} (p : A -> bool) l : (forall x, x ∈ l -> p x = true) -> List.filter p l = l.
Proof. induction l as [|x l IH]; intros Hl; cbn; [done|]. rewrite Hl by left. f_equal. apply IH. intros y Hy. apply Hl. by right. Qed.

Lemma filter_none {A} (p : A -> bool) l : (forall x, x ∈ l -> p x = false) -> List.filter p l = [].
Proof. induction l as [|x l IH]; intros Hl; cbn; [done|]. rewrite Hl by left. apply IH. intros y Hy. apply Hl. by right. Qed.

Lemma covers_upto s bs b : covers s bs -> b ∈ bs -> cb_last_sequence b < s + Z.of_nat (length (batch_records bs)).
Proof.
  intros Hc. induction Hc as [|? b' bs Hne Hf Hla Hc IH]; [by intros ?%not_elem_of_nil|].
  unfold batch_records. cbn [mbind list_bind]. rewrite length_app. fold (batch_records bs).
  intros [->|Hb]%elem_of_cons; [lia|]. apply IH in Hb. lia.
Qed.

(** The batches past the one that ends at [q]. *)
Lemma covers_past s bs q b : covers s bs -> find_map (fun b => if cb_last_sequence b =? q then Some b else None) bs = Some b ->
  exists pre post, bs = pre ++ b :: post /\ List.filter (fun b => q <? cb_last_sequence b) bs = post /\ cb_last_sequence b = q.
Proof.
  intros Hc. induction Hc as [|? b' bs Hne Hf Hla Hc IH]; cbn [find_map List.filter]; [done|].
  destruct (Z.eqb_spec (cb_last_sequence b') q) as [Hq|Hq].
  { intros [= <-]. exists [], bs. split_and!; [done| |done]. rewrite (proj2 (Z.ltb_ge _ _)) by lia.
    apply filter_all. intros x Hx. apply Z.ltb_lt. pose proof (covers_last _ _ _ Hc Hx). lia. }
  intros Hb. destruct (IH Hb) as (pre & post & -> & Hpost & Hlast). exists (b' :: pre), post. split_and!; [done| |done].
  rewrite (proj2 (Z.ltb_ge _ _)); [done|]. assert (b ∈ pre ++ b :: post) as Hin by set_solver.
  pose proof (covers_last _ _ _ Hc Hin). lia.
Qed.

Lemma batch_records_app bs1 bs2 : batch_records (bs1 ++ bs2) = batch_records bs1 ++ batch_records bs2.
Proof. apply bind_app. Qed.

Lemma batch_records_snoc bs b : batch_records (bs ++ [b]) = batch_records bs ++ cb_records b.
Proof. rewrite batch_records_app. f_equal. unfold batch_records. cbn. apply app_nil_r. Qed.

(** ** The representation *)

Notation Journals := (gmap SessionId (list CommittedBatch)).

Section Repr.
Context `{Half, Hasher, Wire, SnapshotWire}.

Record session_repr (sid : SessionId) (sd : SessionData) (j : list RecordEnvelope) : Prop := {
  sr_linked : linked None 1 j (sd_head_checksum sd);
  sr_session : Forall (fun r => rec_session_id r = sid) j;
  sr_head : sd_head_sequence sd = Z.of_nat (length j);
  sr_range : Z.of_nat (length j) <= u64_max;
  sr_retained : exists old, j = old ++ session_records sd /\ linked None 1 old (sd_anchor_previous_checksum sd) /\
    sd_anchor_next_sequence sd = 1 + Z.of_nat (length old);
  sr_covers : covers (sd_anchor_next_sequence sd + Z.of_nat (length (option_list (sd_boundary_record sd)))) (sd_batches sd);
  sr_count : sd_records sd = length (session_records sd);
  sr_snapshot : forall s, sd_snapshot sd = Some s -> osn_sequence s <= sd_head_sequence sd
}.

(** The session against the batches of its history. *)
Record session_journal (sid : SessionId) (sd : SessionData) (jb : list CommittedBatch) : Prop := {
  sj_repr : session_repr sid sd (batch_records jb);
  sj_suffix : sd_batches sd `suffix_of` jb;
  sj_covers : covers 1 jb
}.

(** An indexed batch is the stretch of the journal its request asked for. *)
Record entry_repr (J : Journals) (id : AppendBatchId) (e : BatchIndexEntry) : Prop := {
  er_request : apr_batch_id (bie_request e) = id;
  er_batch : cb_batch_id (bie_committed e) = id;
  er_first : cb_first_sequence (bie_committed e) = apr_expected_sequence (bie_request e);
  er_drafts : draft_of <$> cb_records (bie_committed e) = apr_records (bie_request e);
  er_holds : exists jb, J !! apr_session_id (bie_request e) = Some jb /\ bie_committed e ∈ jb
}.

Record store_repr (m : MemoryJournalStore) (J : Journals) : Prop := {
  st_sessions : forall sid, option_Forall2 (session_journal sid) (session_of m sid) (J !! sid);
  st_index : map_Forall (entry_repr J) (in_batches_by_id (ms_inner m))
}.

(** History only grows. *)
Definition journals_extend (J J' : Journals) : Prop :=
  forall sid j, J !! sid = Some j -> exists rs, J' !! sid = Some (j ++ rs).

#[global] Instance journals_extend_preorder : PreOrder journals_extend.
Proof.
  split; [by intros J sid j Hj; exists []; rewrite app_nil_r|]. intros J1 J2 J3 H12 H23 sid j Hj.
  destruct (H12 _ _ Hj) as [rs Hrs]. destruct (H23 _ _ Hrs) as [rs' Hrs']. exists (rs ++ rs'). by rewrite app_assoc.
Qed.

Lemma entry_repr_extend J J' id e : entry_repr J id e -> journals_extend J J' -> entry_repr J' id e.
Proof.
  intros [? ? ? ? (j & Hj & Hh)] Hx. destruct (Hx _ _ Hj) as [rs Hrs]. split; [done..|].
  exists (j ++ rs). split; [done|]. apply elem_of_app. by left.
Qed.

(** A session entered or replaced, under any cache and any part of the index. *)
Lemma store_repr_session m J sid sd j batches records cache :
  store_repr m J -> session_journal sid sd j -> journals_extend J (<[sid := j]> J) ->
  map_Forall (entry_repr (<[sid := j]> J)) batches ->
  store_repr (mkMemoryJournalStore (ms_limits m) (mkInner (<[sid := sd]> (in_sessions (ms_inner m))) batches records) cache)
    (<[sid := j]> J).
Proof.
  intros [Hs Hi] Hsd Hx Hb. split; cbn; [|done]. intros sid'. unfold session_of. cbn.
  destruct (decide (sid = sid')) as [->|Hne]; [rewrite !lookup_insert_eq; by constructor|].
  rewrite !lookup_insert_ne by done. apply Hs.
Qed.

Lemma store_repr_cache m J cache : store_repr m J -> store_repr (set_ms_verified cache m) J.
Proof. intros [Hs Hi]. by split. Qed.

Lemma store_repr_new limits m : MemoryJournalStore_try_new limits = Ok m -> store_repr m ∅.
Proof.
  unfold MemoryJournalStore_try_new. intros HH. step HH. injection HH as <-. split; cbn; [|by intros ? ? ?].
  intros sid. unfold session_of. cbn. rewrite !lookup_empty. constructor.
Qed.

(** ** Append *)

Lemma build_committed_batch_spec request p c : build_committed_batch request p = Ok c ->
  cb_batch_id c = apr_batch_id request /\ cb_first_sequence c = apr_expected_sequence request /\ cb_records c <> [] /\
  cb_last_sequence c = apr_expected_sequence request + Z.of_nat (length (cb_records c)) - 1 /\ cb_last_sequence c <= u64_max /\
  draft_of <$> cb_records c = apr_records request /\
  linked p (apr_expected_sequence request) (cb_records c) (rec_checksum <$> last (cb_records c)).
Proof.
  unfold build_committed_batch. intros HH. step HH. step HH. step HH. apply ok_or_Ok in HH. unfold CommittedBatch_try_new in HH.
  case_match; [done|]. injection HH as <-. cbn. destruct (commit_records _ _ _ _) as [rs|] eqn:Ec; [|done].
  injection E0 as <-. apply commit_records_spec in Ec as (Hd & _ & [h Hl] & _). apply ok_or_Ok in E1.
  unfold u64_checked_add, u64_of_usize in E1. apply in_range_Some in E1 as [-> Hr].
  assert (rs <> []) as Hne by (intros ->; rewrite <- Hd in E; done).
  assert (1 <= length rs)%nat by (destruct rs; cbn; [done|lia]).
  split_and!; [done..|lia|lia|done|]. by rewrite <- (linked_last _ _ _ _ Hl Hne).
Qed.

(** The session with one more batch, as [commit_append] updates it. *)
Definition append_batch (sd : SessionData) (c : CommittedBatch) (n : nat) : SessionData :=
  mkSessionData (cb_last_sequence c) (rec_checksum <$> last (cb_records c)) (sd_metadata sd) (sd_records sd + n)
    (sd_batches sd ++ [c]) (sd_boundary_record sd) (sd_snapshot sd) (sd_anchor_next_sequence sd) (sd_anchor_previous_checksum sd).

Lemma session_records_append sd c n : session_records (append_batch sd c n) = session_records sd ++ cb_records c.
Proof.
  unfold session_records. cbn [append_batch sd_boundary_record sd_batches]. by rewrite batch_records_snoc, app_assoc.
Qed.

Lemma session_repr_default sid : session_repr sid SessionData_default [].
Proof. split; cbn; try done; [constructor|exists []; split_and!; [done|constructor|done]|constructor]. Qed.

Lemma session_repr_append sid sd j c : session_repr sid sd j ->
  cb_first_sequence c = sd_head_sequence sd + 1 -> cb_records c <> [] ->
  cb_last_sequence c = cb_first_sequence c + Z.of_nat (length (cb_records c)) - 1 -> cb_last_sequence c <= u64_max ->
  Forall (fun r => rec_session_id r = sid) (cb_records c) ->
  linked (sd_head_checksum sd) (cb_first_sequence c) (cb_records c) (rec_checksum <$> last (cb_records c)) ->
  session_repr sid (append_batch sd c (length (cb_records c))) (j ++ cb_records c).
Proof.
  intros [Sl Ss Sh Sr (old & So1 & So2 & So3) Sc Sct Ssn] Hf Hne Hla Hmax Hses Hl.
  assert (1 <= length (cb_records c))%nat by (destruct (cb_records c); cbn; [done|lia]).
  split; rewrite ?session_records_append; cbn [append_batch sd_head_checksum sd_head_sequence sd_anchor_next_sequence
    sd_anchor_previous_checksum sd_records sd_batches sd_boundary_record sd_snapshot]; rewrite ?length_app.
  - apply linked_app. eexists. split; [exact Sl|]. by replace (1 + Z.of_nat (length j)) with (cb_first_sequence c) by lia.
  - by apply Forall_app.
  - lia.
  - lia.
  - exists old. by rewrite app_assoc, <- So1.
  - apply covers_app. split; [done|]. assert (length j = length old + length (session_records sd))%nat as Hj by by rewrite So1, length_app.
    unfold session_records in Hj. rewrite length_app in Hj. constructor; [done|lia|lia|constructor].
  - lia.
  - intros s Hs. apply Ssn in Hs. lia.
Qed.

Lemma option_repr_default sid o jb : option_Forall2 (session_journal sid) o jb ->
  session_journal sid (default SessionData_default o) (default [] jb).
Proof. intros []; [done|]. split; [apply session_repr_default|done|constructor]. Qed.

Lemma journals_extend_insert J sid rs : journals_extend J (<[sid := default [] (J !! sid) ++ rs]> J).
Proof.
  intros sid' j Hj. destruct (decide (sid = sid')) as [<-|Hn]; [rewrite lookup_insert_eq, Hj; by eexists|].
  rewrite lookup_insert_ne by done. exists []. by rewrite app_nil_r.
Qed.

(** A fresh commit appends its records to the session's history. *)
Lemma commit_append_repr m J request c sid : sid = apr_session_id request ->
  store_repr m J -> Forall (fun d => dr_session_id d = sid) (apr_records request) ->
  check_append_sequence (match session_of m sid with Some sd => sd_head_sequence sd | None => 0 end) (apr_expected_sequence request) = Ok tt ->
  build_committed_batch request (session_of m sid ≫= sd_head_checksum) = Ok c ->
  cb_first_sequence c = 1 + Z.of_nat (length (batch_records (default [] (J !! sid)))) /\
  store_repr (commit_append m request c) (<[sid := default [] (J !! sid) ++ [c]]> J).
Proof.
  intros -> Hr Hses Hseq (Hid & Hfirst & Hne & Hlast & Hmax & Hd & Hl)%build_committed_batch_spec.
  set (sid := apr_session_id request) in *. unfold check_append_sequence in Hseq. step Hseq. apply ok_or_Ok in E.
  unfold u64_checked_add in E. apply in_range_Some in E as [-> _].
  apply reject_if_Ok, negb_false_iff, Z.eqb_eq in Hseq. destruct (option_repr_default _ _ _ (st_sessions _ _ Hr sid)) as [Hsd Hsuf Hcov].
  set (sd := default SessionData_default (session_of m sid)) in *.
  assert (sd_head_sequence sd + 1 = apr_expected_sequence request /\ sd_head_checksum sd = session_of m sid ≫= sd_head_checksum) as [Hh Hc].
  { subst sd. by destruct (session_of m sid). }
  assert (Forall (fun r => rec_session_id r = sid) (cb_records c)) as Hs' by (rewrite <- Hd, Forall_fmap in Hses; exact Hses).
  assert (cb_first_sequence c = 1 + Z.of_nat (length (batch_records (default [] (J !! sid))))) as Hf1
    by (rewrite Hfirst, <- Hh, (sr_head _ _ _ Hsd); lia). split; [done|].
  assert (length (apr_records request) = length (cb_records c)) as Hlen by (rewrite <- Hd; apply length_fmap).
  unfold commit_append. rewrite Hlen. apply store_repr_session; [done| |apply journals_extend_insert|].
  - split.
    + rewrite batch_records_snoc. apply (session_repr_append sid sd); [done|lia|done|lia|done|done|]. by rewrite Hfirst, Hc.
    + destruct Hsuf as [k Hk]. exists k. rewrite Hk. symmetry. apply app_assoc.
    + apply covers_app. split; [done|]. constructor; [done|lia|lia|constructor].
  - apply map_Forall_insert_2.
    + split; cbn; [done..|]. eexists. rewrite lookup_insert_eq. split; [done|set_solver].
    + eapply map_Forall_impl; [apply (st_index _ _ Hr)|]. intros id e He. eapply entry_repr_extend; [done|apply journals_extend_insert].
Qed.
(** What an acknowledged append promises: the batch is in the history, with the
    requested drafts at the requested sequence. *)
Definition acknowledged (J : Journals) (request : AppendRequest) (c : CommittedBatch) : Prop :=
  cb_first_sequence c = apr_expected_sequence request /\ drafts_equal (draft_of <$> cb_records c) (apr_records request) = true /\
  exists jb, J !! apr_session_id request = Some jb /\ c ∈ jb.

Lemma entry_acknowledged J id e request : entry_repr J id e ->
  apr_session_id (bie_request e) = apr_session_id request -> apr_expected_sequence (bie_request e) = apr_expected_sequence request ->
  drafts_equal (apr_records (bie_request e)) (apr_records request) = true -> acknowledged J request (bie_committed e).
Proof. intros [Er Eb Ef Ed (j & Hj & Hh)] Hs He Hd. split_and!; [congruence|by rewrite Ed|]. exists j. split; congruence. Qed.

(** An append extends the history by its own records, or finds them in it. *)
Lemma append_repr m J request c m' :
  store_repr m J -> Forall (fun d => dr_session_id d = apr_session_id request) (apr_records request) ->
  append_sync m request = Ok (c, m') ->
  exists J', store_repr m' J' /\ acknowledged J' request c /\
    ((m' = m /\ J' = J) \/
     (in_batches_by_id (ms_inner m) !! apr_batch_id request = None /\
      J' = <[apr_session_id request := default [] (J !! apr_session_id request) ++ [c]]> J)).
Proof.
  intros Hr Hses. unfold append_sync. destruct (in_batches_by_id _ !! _) as [e|] eqn:He.
  { intros HH. step HH. injection HH as <- <-. exists J. split; [done|]. split; [|by left].
    unfold replay_batch in E. destruct (bie_history_pruned e); [by case_match|]. destruct (requests_equal _ _) eqn:Hq; [|done].
    injection E as <-. unfold requests_equal in Hq. rewrite !andb_true_iff in Hq. destruct Hq as [[[_ ?%eqb_eq] ?%eqb_eq] ?].
    eapply entry_acknowledged; [by eapply (st_index _ _ Hr)|done..]. }
  intros HH. step HH. step HH. step HH. destruct a1 as [bid|].
  { step HH. step HH. injection HH as <- <-. apply ok_or_Ok in E2. exists J. split; [done|]. split; [|by left].
    unfold replay_records in E3. case_match eqn:Hq; [|done]. injection E3 as <-. rewrite !andb_true_iff in Hq.
    destruct Hq as [[?%eqb_eq ?%eqb_eq] ?]. eapply entry_acknowledged; [by eapply (st_index _ _ Hr)|done..]. }
  step HH. step HH. step HH. injection HH as <- <-.
  pose proof E4 as (_ & Hf & _ & _ & _ & Hd & _)%build_committed_batch_spec. destruct a1.
  apply (commit_append_repr m J request a3 _ eq_refl Hr Hses) in E4 as [Hfirst Hrepr]; [|exact E2].
  eexists. split; [exact Hrepr|]. split; [|by right]. split_and!; [done|by rewrite Hd, drafts_equal_refl|].
  eexists. rewrite lookup_insert_eq. split; [done|set_solver].
Qed.

(** ** Loads and scans *)

Lemma session_repr_head sid sd j : session_repr sid sd j -> Z.of_nat (length j) < u64_max ->
  verify_full_head (session_anchor sid sd) (session_records sd) (sd_head_checksum sd) = Ok (sd_head_checksum sd).
Proof.
  intros [Sl Ss Sh Sr (old & -> & So2 & So3) Sc Sct Ssn] Hlt. apply verify_full_head_spec. split; [done|].
  apply Forall_app in Ss as [_ Ss]. rewrite length_app in Hlt. split; [|done|lia].
  apply linked_app in Sl as (h & Sl1 & Sl2). rewrite (linked_det _ _ _ _ _ So2 Sl1), So3. done.
Qed.

Lemma load_full_state m sid use : in_sessions (ms_inner (load_full m sid use).1) = in_sessions (ms_inner m) /\
  exists cache, (load_full m sid use).1 = set_ms_verified cache m.
Proof.
  assert (m = set_ms_verified (ms_verified m) m) as Hm by by destruct m.
  unfold load_full, verify_session_head. destruct (session_of m sid); [|split; [done|by eexists]].
  repeat case_match; cbn; split; try done; try (by eexists); destruct (is_integrity _); cbn; try done; by eexists.
Qed.

(** Every load of a represented session succeeds, whatever the cache holds. *)
Lemma load_full_repr m J sid sd jb use : store_repr m J -> session_of m sid = Some sd -> J !! sid = Some jb ->
  Z.of_nat (length (batch_records jb)) < u64_max -> (load_full m sid use).2 = Ok (loaded_session sid sd (sd_batches sd)).
Proof.
  intros Hr Hsd Hj Hlt. pose proof (st_sessions _ _ Hr sid) as Hs. rewrite Hsd, Hj in Hs. inversion Hs as [? ? [Hrep _ _]|]; subst.
  unfold load_full, verify_session_head. rewrite Hsd.
  rewrite (cache_accepts sid _ _ _ _ _ _ _ (session_repr_head _ _ _ Hrep Hlt)). done.
Qed.
(** The state after an operation differs from the state before in its cache only. *)
Definition only_cache (m m' : MemoryJournalStore) : Prop := exists cache, m' = set_ms_verified cache m.

Lemma only_cache_refl m : only_cache m m.
Proof. exists (ms_verified m). by destruct m. Qed.

Lemma only_cache_trans m1 m2 m3 : only_cache m1 m2 -> only_cache m2 m3 -> only_cache m1 m3.
Proof. intros [c ->] [c' ->]. by exists c'. Qed.

Lemma only_cache_set m c : only_cache m (set_ms_verified c m).
Proof. by exists c. Qed.

Lemma only_cache_if m (b : bool) c : only_cache m (if b then set_ms_verified c m else m).
Proof. destruct b; [apply only_cache_set|apply only_cache_refl]. Qed.
#[local] Hint Resolve only_cache_refl only_cache_set only_cache_if : core.

Lemma only_cache_repr m m' J : only_cache m m' -> store_repr m J -> store_repr m' J.
Proof. intros [c ->]. apply store_repr_cache. Qed.

Lemma verify_session_head_state m sid sd read use : only_cache m (verify_session_head m sid sd read use).1.
Proof. unfold verify_session_head. cbn [fst]. auto. Qed.

Lemma load_full_cache m sid use : only_cache m (load_full m sid use).1.
Proof. destruct (load_full_state m sid use) as [_ [c ->]]. auto. Qed.

Lemma load_from_cache m request : only_cache m (load_from m request).1.
Proof.
  unfold load_from. destruct (match lfr_window request with LoadWindow_Full => _ | _ => _ end) as [m1 r] eqn:E. cbn [fst].
  eapply only_cache_trans; [|apply only_cache_if]. revert E.
  destruct (lfr_window request) as [|from prior|]; unfold load_from_sequence, load_snapshot_plus_tail.
  - intros E. pose proof (load_full_cache m (lfr_session_id request) CacheUse_Proving) as Hc. by rewrite E in Hc.
  - case_match; [|intros [= <- _]; auto]. intros E.
    pose proof (load_full_cache m (lfr_session_id request) CacheUse_Windowed) as Hc. by rewrite E in Hc.
  - case_match; [|intros [= <- _]; auto]. case_match; [intros [= <- _]; auto|]. intros E.
    pose proof (load_full_cache m (lfr_session_id request) CacheUse_Windowed) as Hc. by rewrite E in Hc.
Qed.

Lemma remember_cache m sid head : only_cache m (remember_if_head_unchanged m sid head).
Proof. unfold remember_if_head_unchanged. auto. Qed.

Lemma scan_cache m request : only_cache m (scan_sync m request).1.
Proof.
  unfold scan_sync. destruct (validate_scan_limit _); [|cbn; auto]. destruct (session_of m _) as [sd|]; [|cbn; auto].
  pose proof (verify_session_head_state m (scr_session_id request) sd (cache_read (ms_verified m) (scr_session_id request)) CacheUse_Proving) as Hc.
  destruct (verify_session_head _ _ _ _ _) as [m1 [h|e]]; cbn [fst] in *; [|done].
  destruct (slice_records _ _ _ _) as [rs more]. cbn [fst]. eapply only_cache_trans; [done|apply remember_cache].
Qed.

(** ** Pages *)

Lemma slice_loop_spec rs start limit : forall page, (length page <= limit)%nat ->
  let l := List.filter (fun r => start <=? rec_sequence r) rs in
  slice_loop rs start limit page = (page ++ take (limit - length page) l, (limit - length page <? length l)%nat).
Proof.
  induction rs as [|r rs IH]; intros page Hp; cbn [slice_loop List.filter].
  { by rewrite take_nil, app_nil_r. }
  rewrite Z.leb_antisym. destruct (rec_sequence r <? start); cbn [negb]; [by apply IH|].
  destruct (Nat.eqb_spec (length page) limit) as [->|Hne].
  { rewrite Nat.sub_diag. cbn. by rewrite app_nil_r. }
  rewrite IH by (rewrite length_app; cbn; lia). rewrite length_app. cbn [length].
  replace (limit - length page)%nat with (S (limit - (length page + 1))) by lia. cbn [take]. by rewrite <- app_assoc.
Qed.

Lemma linked_from rs p s h start : linked p s rs h ->
  List.filter (fun r => start <=? rec_sequence r) rs = drop (Z.to_nat (start - s)) rs.
Proof.
  intros Hl. induction Hl as [|p s r rs h Hv Hp Hs Hl IH]; [by destruct (Z.to_nat _)|]. cbn [List.filter].
  destruct (Z.leb_spec start (rec_sequence r)) as [Hle|Hlt].
  - replace (Z.to_nat (start - s)) with 0%nat by lia. rewrite IH. by replace (Z.to_nat (start - (s + 1))) with 0%nat by lia.
  - rewrite IH. replace (Z.to_nat (start - s)) with (S (Z.to_nat (start - (s + 1)))) by lia. done.
Qed.

Lemma slice_records_whole sd start limit :
  slice_records (sd_boundary_record sd) (sd_batches sd) start limit = slice_loop (session_records sd) start limit [].
Proof.
  unfold slice_records, session_records. destruct (sd_boundary_record sd) as [b|]; [|done].
  change (option_list (Some b)) with [b]. cbn [app slice_loop]. rewrite Z.leb_antisym. destruct (rec_sequence b <? start); cbn [negb]; [done|].
  by destruct limit.
Qed.

(** The retained records of a session, from the anchor on. *)
Lemma session_repr_retained sid sd j : session_repr sid sd j ->
  exists h0, linked h0 (sd_anchor_next_sequence sd) (session_records sd) (sd_head_checksum sd) /\
    1 <= sd_anchor_next_sequence sd /\
    sd_anchor_next_sequence sd + Z.of_nat (length (session_records sd)) = 1 + Z.of_nat (length j) /\
    session_records sd = drop (Z.to_nat (sd_anchor_next_sequence sd - 1)) j.
Proof.
  intros [Sl Ss Sh Sr (old & -> & So2 & So3) Sc Sct Ssn]. apply linked_app in Sl as (h0 & Sl1 & Sl2). exists h0.
  rewrite So3, length_app. split_and!; [done|lia|lia|]. rewrite drop_app_length'; [done|lia].
Qed.

(** A page is a stretch of the history, and says whether more follows. *)
Lemma scan_repr m J sid sd jb request : store_repr m J -> session_of m sid = Some sd -> J !! sid = Some jb ->
  scr_session_id request = sid -> 1 <= scr_limit request <= SCAN_PAGE_MAX_RECORDS ->
  Z.of_nat (length (batch_records jb)) < u64_max ->
  let start := Z.max (scan_start (scr_from_sequence request)) (sd_anchor_next_sequence sd) in
  let rest := drop (Z.to_nat (start - 1)) (batch_records jb) in
  let page := take (Z.to_nat (scr_limit request)) rest in
  (scan_sync m request).2 =
    Ok (mkScanPage sid page (scan_next_sequence page (Z.to_nat (scr_limit request) <? length rest)%nat)).
Proof.
  intros Hr Hsd Hj <- Hlim Hlt start rest page. pose proof (st_sessions _ _ Hr (scr_session_id request)) as Hs.
  rewrite Hsd, Hj in Hs. inversion Hs as [? ? [Hrep _ _]|]; subst.
  unfold scan_sync, validate_scan_limit. rewrite (proj2 (Z.eqb_neq _ _)) by lia. cbn [reject_if rbind].
  rewrite (proj2 (Z.ltb_ge _ _)) by lia. cbn [reject_if]. rewrite Hsd. unfold verify_session_head.
  rewrite (cache_accepts _ _ _ _ _ _ _ _ (session_repr_head _ _ _ Hrep Hlt)).
  rewrite slice_records_whole, slice_loop_spec by (cbn; lia).
  destruct (session_repr_retained _ _ _ Hrep) as (h0 & Hl & Hge & Hlen & Hret).
  rewrite (linked_from _ _ _ _ _ Hl). rewrite Hret, drop_drop. cbn [length]. rewrite Nat.sub_0_r, app_nil_l.
  replace (Z.to_nat (sd_anchor_next_sequence sd - 1) + Z.to_nat (scan_start (scr_from_sequence request) - sd_anchor_next_sequence sd))%nat
    with (Z.to_nat (start - 1)) by (subst start; lia). done.
Qed.
(** ** Metadata, snapshots and pruning *)

(** A session replaced by one with the same history. *)
Lemma store_repr_replace m J sid sd sd' : store_repr m J -> session_of m sid = Some sd ->
  (forall j, session_repr sid sd j -> session_repr sid sd' j) -> sd_batches sd' = sd_batches sd ->
  store_repr (set_session sid sd' m) J.
Proof.
  intros [Hs Hi] Hsd Hrep Hb. split; [|done]. intros sid'. unfold session_of, set_session, set_ms_inner. cbn.
  destruct (decide (sid = sid')) as [<-|Hne]; [|rewrite lookup_insert_ne by done; apply Hs].
  rewrite lookup_insert_eq. specialize (Hs sid). rewrite Hsd in Hs. inversion Hs as [? ? [Hr Hsuf Hcov]|]; subst. constructor.
  split; [by apply Hrep|by rewrite Hb|done].
Qed.

Lemma write_metadata_repr m J sid expected metadata m' : store_repr m J ->
  write_metadata_sync m sid expected metadata = Ok m' -> store_repr m' J.
Proof.
  intros Hr HH. unfold write_metadata_sync in HH. step HH. step HH. injection HH as <-. apply ok_or_Ok in E.
  eapply store_repr_replace; [done..| |done]. intros j [Sl Ss Sh Sr So Sc Sct Ssn]. by split.
Qed.

Lemma session_repr_snapshot sid sd j snapshot : session_repr sid sd j ->
  (forall s, snapshot = Some s -> osn_sequence s <= sd_head_sequence sd) -> session_repr sid (set_sd_snapshot snapshot sd) j.
Proof. intros [Sl Ss Sh Sr So Sc Sct Ssn] Hs. by split. Qed.

Lemma write_snapshot_repr m J sid snapshot m' : store_repr m J -> write_snapshot_sync m sid snapshot = Ok m' -> store_repr m' J.
Proof.
  intros Hr HH. unfold write_snapshot_sync in HH. step HH. step HH. step HH. injection HH as <-. apply ok_or_Ok in E0.
  unfold admit_snapshot_sequence in E1. step E1. apply reject_if_Ok, Z.ltb_ge in E2.
  eapply store_repr_replace; [done..| |done]. intros j Hj. apply session_repr_snapshot; [done|]. by intros s [= <-].
Qed.

Lemma write_state_snapshot_repr m J request m' : store_repr m J -> write_state_snapshot_sync m request = Ok m' -> store_repr m' J.
Proof. intros Hr HH. unfold write_state_snapshot_sync in HH. step HH. by eapply write_snapshot_repr. Qed.

Lemma discard_snapshot_repr m J sid m' : store_repr m J -> discard_snapshot m sid = Ok m' -> store_repr m' J.
Proof.
  intros Hr HH. unfold discard_snapshot in HH. step HH. injection HH as <-. apply ok_or_Ok in E.
  eapply store_repr_replace; [done..| |done]. intros j Hj. by apply session_repr_snapshot.
Qed.

(** Pruning keeps the boundary record and everything after it. *)
Lemma prune_session_repr sid sd j q b boundary : session_repr sid sd j ->
  find_map (fun b => if cb_last_sequence b =? q then Some b else None) (sd_batches sd) = Some b ->
  last (cb_records b) = Some boundary ->
  session_repr sid (prune_session sd q boundary) j /\ sd_batches (prune_session sd q boundary) `suffix_of` sd_batches sd.
Proof.
  intros [Sl Ss Sh Sr (old & So1 & So2 & So3) Sc Sct Ssn] Hb (init & Hinit)%last_Some.
  destruct (covers_past _ _ _ _ Sc Hb) as (pre & post & Hbs & Hpost & Hlast).
  assert (session_records (prune_session sd q boundary) = boundary :: batch_records post) as Hret.
  { unfold session_records, prune_session. cbn [sd_boundary_record sd_batches]. by rewrite Hpost. }
  assert (j = (old ++ option_list (sd_boundary_record sd) ++ batch_records pre ++ init) ++ boundary :: batch_records post) as Hj.
  { rewrite So1. unfold session_records. rewrite Hbs, batch_records_app. unfold batch_records at 2. cbn [mbind list_bind].
    rewrite Hinit, <- !app_assoc. done. }
  set (old' := old ++ _ ++ _ ++ init) in Hj. pose proof Sl as Sl'. rewrite Hj in Sl'. apply linked_app in Sl' as (h & L1 & L2).
  inversion L2 as [|? ? ? ? ? Hv Hp Hs L3]; subst h.
  rewrite Hbs, covers_app in Sc. destruct Sc as [_ Sc]. inversion Sc as [|? ? ? Hne Hf Hla Hc]; subst s b0 bs.
  assert (rec_sequence boundary = q) as Hq.
  { rewrite Hs, <- Hlast, Hla, So3. subst old'. rewrite Hinit, !length_app. cbn [length]. lia. }
  split; [|cbn [prune_session sd_batches]; rewrite Hpost, Hbs; exists (pre ++ [b]); by rewrite <- app_assoc].
  split; rewrite ?Hret; try done; unfold prune_session; cbn [sd_head_checksum sd_head_sequence
    sd_anchor_next_sequence sd_anchor_previous_checksum sd_records sd_batches sd_boundary_record sd_snapshot].
  - exists old'. by rewrite Hs.
  - rewrite Hpost. change (option_list (Some boundary)) with [boundary]. cbn [length].
    rewrite Hq, <- Hlast, Hla. eapply (eq_rect _ (fun z => covers z post) Hc). lia.
  - by rewrite Hpost.
Qed.

Lemma prune_index_repr inner sid q b boundary J : map_Forall (entry_repr J) (in_batches_by_id inner) ->
  map_Forall (entry_repr J) (prune_index inner sid q b boundary).1.
Proof.
  intros Hi id e. unfold prune_index. cbn [fst]. destruct (decide (cb_batch_id b = id)) as [<-|Hne].
  - rewrite lookup_alter_eq. intros (e0 & [He0 _]%map_lookup_filter_Some & ->)%fmap_Some. apply Hi in He0 as []. by split.
  - rewrite lookup_alter_ne by done. intros [He _]%map_lookup_filter_Some. by apply Hi.
Qed.

(** Pruning never loses history and never leaves a session that fails to verify. *)
Lemma prune_repr m J sid : store_repr m J -> store_repr (prune_sync m sid).1 J.
Proof.
  intros Hr. unfold prune_sync.
  match goal with |- context [match ?c with Ok _ => _ | Err _ => _ end] => destruct c as [[[[[sd acc] q] b] boundary]|e] eqn:E end; [|done].
  do 7 step E. injection E as <- <- <- <- <-. apply ok_or_Ok in E0. apply ok_or_Ok in E5. apply ok_or_Ok in E6.
  pose proof (st_sessions _ _ Hr sid) as Hs. unfold session_of in Hs. rewrite E0 in Hs. inversion Hs as [? j [Hrep Hsuf Hcov] Hsd Hj|]; subst x.
  destruct (prune_session_repr _ _ _ _ _ _ Hrep E5 E6) as [Hpr Hsuf'].
  assert (session_journal sid (prune_session a (osn_sequence a0) a5) j) as Hsj by (split; [done|by etransitivity|done]).
  pose proof (prune_index_repr (ms_inner m) sid (osn_sequence a0) a4 a5 J (st_index _ _ Hr)) as Hi.
  destruct (prune_index _ _ _ _ _) as [batches records]. cbn [fst] in Hi.
  assert (<[sid := j]> J = J) as HJ by by apply insert_id. rewrite <- HJ in Hi |- *.
  destruct (verify_full_head _ _ _) as [h|e]; cbn [fst].
  - eapply only_cache_repr; [apply remember_cache|]. apply store_repr_session; try done. by rewrite HJ.
  - apply store_repr_session; try done. by rewrite HJ.
Qed.

(** ** Operations in sequence *)

Inductive StoreOp : Type :=
| Op_append (request : AppendRequest)
| Op_load (sid : SessionId)
| Op_load_from (request : LoadFromRequest)
| Op_scan (request : ScanRequest)
| Op_write_metadata (sid : SessionId) (expected : option Digest) (metadata : Metadata)
| Op_write_snapshot (sid : SessionId) (snapshot : OpaqueSnapshot)
| Op_write_state_snapshot (request : StateSnapshotRequest)
| Op_discard_snapshot (sid : SessionId)
| Op_prune (sid : SessionId).

Definition ok_state {A} (f : A -> MemoryJournalStore) (m : MemoryJournalStore) (r : sresult A) : MemoryJournalStore :=
  match r with Ok a => f a | Err _ => m end.

(** The state each port operation leaves behind. *)
Definition run_op (m : MemoryJournalStore) (op : StoreOp) : MemoryJournalStore :=
  match op with
  | Op_append request => ok_state snd m (append_sync m request)
  | Op_load sid => (load m sid).1
  | Op_load_from request => (load_from m request).1
  | Op_scan request => (scan_sync m request).1
  | Op_write_metadata sid expected metadata => ok_state id m (write_metadata_sync m sid expected metadata)
  | Op_write_snapshot sid snapshot => ok_state id m (write_snapshot_sync m sid snapshot)
  | Op_write_state_snapshot request => ok_state id m (write_state_snapshot_sync m request)
  | Op_discard_snapshot sid => ok_state id m (discard_snapshot m sid)
  | Op_prune sid => (prune_sync m sid).1
  end.

(** Requests come from [AppendRequest::try_new]. *)
Definition op_wf (op : StoreOp) : Prop :=
  match op with
  | Op_append request => Forall (fun d => dr_session_id d = apr_session_id request) (apr_records request)
  | _ => True
  end.

Lemma run_op_repr m J op : store_repr m J -> op_wf op -> exists J', store_repr (run_op m op) J' /\ journals_extend J J'.
Proof.
  intros Hr Hwf. destruct op as [request|sid|request|request|sid expected metadata|sid snapshot|request|sid|sid]; cbn [run_op].
  { destruct (append_sync m request) as [[c m']|e] eqn:E; cbn [ok_state snd]; [|by exists J].
    destruct (append_repr _ _ _ _ _ Hr Hwf E) as (J' & Hr' & _ & [[-> ->]|[_ ->]]); [by exists J|].
    eexists. split; [done|apply journals_extend_insert]. }
  all: exists J; split; [|done].
  - eapply only_cache_repr; [apply load_full_cache|done].
  - eapply only_cache_repr; [apply load_from_cache|done].
  - eapply only_cache_repr; [apply scan_cache|done].
  - destruct (write_metadata_sync _ _ _ _) eqn:E; [by eapply write_metadata_repr|done].
  - destruct (write_snapshot_sync _ _ _) eqn:E; [by eapply write_snapshot_repr|done].
  - destruct (write_state_snapshot_sync _ _) eqn:E; [by eapply write_state_snapshot_repr|done].
  - destruct (discard_snapshot _ _) eqn:E; [by eapply discard_snapshot_repr|done].
  - by apply prune_repr.
Qed.

Definition run_ops (m : MemoryJournalStore) (ops : list StoreOp) : MemoryJournalStore := foldl run_op m ops.

Lemma run_ops_repr ops : forall m J, store_repr m J -> Forall op_wf ops ->
  exists J', store_repr (run_ops m ops) J' /\ journals_extend J J'.
Proof.
  induction ops as [|op ops IH]; intros m J Hr Hwf; [by exists J|]. apply Forall_cons in Hwf as [Hop Hwf].
  destruct (run_op_repr m J op Hr Hop) as (J1 & Hr1 & Hx1). destruct (IH _ _ Hr1 Hwf) as (J2 & Hr2 & Hx2).
  exists J2. split; [done|by transitivity J1].
Qed.
(** ** Retries *)

(** The index answers the request again. *)
Definition answers (m : MemoryJournalStore) (request : AppendRequest) (c : CommittedBatch) : Prop :=
  exists e, in_batches_by_id (ms_inner m) !! apr_batch_id request = Some e /\ replay_batch e request = Ok c.

Lemma answers_append m request c : answers m request c -> append_sync m request = Ok (c, m).
Proof. intros (e & He & Hc). unfold append_sync. by rewrite He, Hc. Qed.

Lemma append_answers m J request c m' : store_repr m J -> append_sync m request = Ok (c, m') ->
  cb_batch_id c = apr_batch_id request -> answers m' request c.
Proof.
  intros Hr. unfold append_sync. destruct (in_batches_by_id _ !! _) as [e|] eqn:He.
  { intros HH. step HH. injection HH as <- <-. intros _. by exists e. }
  intros HH Hid. step HH. step HH. step HH. destruct a1 as [bid|].
  { step HH. step HH. injection HH as <- <-. apply ok_or_Ok in E2. unfold replay_records in E3. case_match; [|done].
    injection E3 as <-. pose proof (er_batch _ _ _ (st_index _ _ Hr _ _ E2)). congruence. }
  step HH. step HH. step HH. injection HH as <- <-. exists (mkBatchIndexEntry request a3 false). unfold commit_append. cbn.
  rewrite lookup_insert_eq. split; [done|]. unfold replay_batch. cbn. by rewrite requests_equal_refl.
Qed.

Definition not_prune (op : StoreOp) : Prop := match op with Op_prune _ => False | _ => True end.

Lemma answers_op m op request c : answers m request c -> not_prune op -> answers (run_op m op) request c.
Proof.
  intros (e & He & Hc) Hop. exists e. split; [|done]. rewrite <- He.
  destruct op as [request'|sid|request'|request'|sid expected metadata|sid snapshot|request'|sid|sid]; cbn [run_op]; [..|done].
  - destruct (append_sync m request') as [[c' m']|] eqn:E; [|done]. cbn [ok_state snd]. unfold append_sync in E.
    destruct (in_batches_by_id (ms_inner m) !! apr_batch_id request') as [e'|] eqn:He'; [step E; by injection E as _ <-|].
    do 3 step E. destruct a1; [do 2 step E; by injection E as _ <-|]. do 3 step E. injection E as _ <-.
    unfold commit_append. cbn. rewrite lookup_insert_ne; congruence.
  - unfold load. by destruct (load_full_cache m sid CacheUse_Proving) as [cache ->].
  - by destruct (load_from_cache m request') as [cache ->].
  - by destruct (scan_cache m request') as [cache ->].
  - destruct (write_metadata_sync _ _ _ _) eqn:E; [|done]. unfold write_metadata_sync in E. do 2 step E. by injection E as <-.
  - destruct (write_snapshot_sync _ _ _) eqn:E; [|done]. unfold write_snapshot_sync in E. do 3 step E. by injection E as <-.
  - destruct (write_state_snapshot_sync _ _) eqn:E; [|done]. unfold write_state_snapshot_sync, write_snapshot_sync in E. do 4 step E.
    by injection E as <-.
  - destruct (discard_snapshot _ _) eqn:E; [|done]. unfold discard_snapshot in E. step E. by injection E as <-.
Qed.

Lemma answers_ops ops : forall m request c, answers m request c -> Forall not_prune ops -> answers (run_ops m ops) request c.
Proof.
  induction ops as [|op ops IH]; intros m request c Ha Hops; [done|]. apply Forall_cons in Hops as [Hop Hops].
  apply IH; [|done]. by apply answers_op.
Qed.

(** ** The pruning boundary *)

(** The sequence up to which the session's batches were dropped, 0 before any prune. *)
Definition pruned_through (sd : SessionData) : Z :=
  sd_anchor_next_sequence sd + Z.of_nat (length (option_list (sd_boundary_record sd))) - 1.

(** The retained batches are those of the history past a sequence between the
    boundary and the first of them. *)
Lemma retained_filter sid sd jb q : session_journal sid sd jb -> pruned_through sd <= q ->
  List.filter (fun b => q <? cb_last_sequence b) (sd_batches sd) = List.filter (fun b => q <? cb_last_sequence b) jb.
Proof.
  intros [Hrep [pre Hpre] Hcov] Hq. destruct (sr_retained _ _ _ Hrep) as (old & Hold & _ & Hnext).
  rewrite Hpre, batch_records_app in Hold. unfold session_records in Hold. rewrite app_assoc in Hold. apply app_inv_tail in Hold.
  rewrite Hpre in Hcov |- *. apply covers_app in Hcov as [Hcov _]. rewrite List.filter_app. rewrite (filter_none _ pre); [done|].
  intros b Hb. apply Z.ltb_ge. pose proof (covers_upto _ _ _ Hcov Hb). rewrite Hold, length_app in *. unfold pruned_through in Hq. lia.
Qed.

Lemma retained_batches sid sd jb : session_journal sid sd jb ->
  sd_batches sd = List.filter (fun b => pruned_through sd <? cb_last_sequence b) jb.
Proof.
  intros Hj. rewrite <- (retained_filter sid sd) by done. symmetry. apply filter_all. intros b Hb. apply Z.ltb_lt.
  pose proof (covers_last _ _ _ (sr_covers _ _ _ (sj_repr _ _ _ Hj)) Hb). unfold pruned_through. lia.
Qed.

(** What a prune that succeeds leaves is the history past the snapshot, which it
    keeps with the head. *)
Lemma prune_leaves m J sid jb m' receipt : store_repr m J -> J !! sid = Some jb -> prune_sync m sid = (m', Ok receipt) ->
  exists sd sn sd', session_of m sid = Some sd /\ sd_snapshot sd = Some sn /\ prr_pruned_through_sequence receipt = osn_sequence sn /\
    session_of m' sid = Some sd' /\ sd_snapshot sd' = Some sn /\ sd_head_sequence sd' = sd_head_sequence sd /\
    sd_head_checksum sd' = sd_head_checksum sd /\
    sd_batches sd' = List.filter (fun b => prr_pruned_through_sequence receipt <? cb_last_sequence b) jb.
Proof.
  intros Hr Hj. unfold prune_sync.
  match goal with |- context [match ?c with Ok _ => _ | Err _ => _ end] => destruct c as [[[[[sd acc] q] b] boundary]|e] eqn:E end; [|done].
  do 7 step E. injection E as <- <- <- <- <-. apply ok_or_Ok in E0. apply ok_or_Ok in E1. apply ok_or_Ok in E5.
  pose proof (st_sessions _ _ Hr sid) as Hs. unfold session_of in Hs. rewrite E0, Hj in Hs. inversion Hs as [? ? Hsj|]; subst.
  destruct (prune_index _ _ _ _ _) as [batches records]. destruct (verify_full_head _ _ _) as [h|e]; [|done].
  intros [= <- <-]. exists a, a0, (prune_session a (osn_sequence a0) a5). split; [done|]. split; [done|]. split; [done|]. split.
  { destruct (remember_cache (mkMemoryJournalStore (ms_limits m)
      (mkInner (<[sid := prune_session a (osn_sequence a0) a5]> (in_sessions (ms_inner m))) batches records) (cache_invalidate (ms_verified m) sid))
      sid (mkVerifiedHead (sd_head_sequence a) (sd_head_checksum a))) as [cache ->]. unfold session_of. cbn. by rewrite lookup_insert_eq. }
  split; [done|]. split; [done|]. split; [done|].
  cbn [prune_session sd_batches prr_pruned_through_sequence]. apply (retained_filter sid); [done|].
  pose proof (sr_covers _ _ _ (sj_repr _ _ _ Hsj)) as Hcov. destruct (covers_past _ _ _ _ Hcov E5) as (pre & post & Hbs & _ & Hlast).
  assert (a4 ∈ sd_batches a) as Hin by (rewrite Hbs; set_solver). pose proof (covers_last _ _ _ Hcov Hin).
  unfold pruned_through. lia.
Qed.

(** Without prunes nothing is dropped. *)
Definition unpruned (m : MemoryJournalStore) : Prop := map_Forall (fun _ sd => pruned_through sd = 0) (in_sessions (ms_inner m)).

Lemma unpruned_session m sid sd : unpruned m -> pruned_through sd = 0 -> unpruned (set_session sid sd m).
Proof. intros Hm Hsd. unfold unpruned, set_session. cbn. by apply map_Forall_insert_2. Qed.

Lemma unpruned_snapshot m sid sd snapshot : unpruned m -> session_of m sid = Some sd -> unpruned (set_session sid (set_sd_snapshot snapshot sd) m).
Proof. intros Hm Hsd. apply unpruned_session; [done|]. exact (Hm _ _ Hsd). Qed.

Lemma unpruned_op m op : unpruned m -> not_prune op -> unpruned (run_op m op).
Proof.
  intros Hm Hop.
  destruct op as [request'|sid|request'|request'|sid expected metadata|sid snapshot|request'|sid|sid]; cbn [run_op]; [..|done].
  - destruct (append_sync m request') as [[c' m']|] eqn:E; [|done]. cbn [ok_state snd]. unfold append_sync in E.
    destruct (in_batches_by_id (ms_inner m) !! apr_batch_id request') as [e'|] eqn:He'; [step E; by injection E as _ <-|].
    do 3 step E. destruct a1; [do 2 step E; by injection E as _ <-|]. do 3 step E. injection E as _ <-.
    unfold unpruned, commit_append. cbn. apply map_Forall_insert_2; [|done]. unfold pruned_through. cbn.
    destruct (in_sessions (ms_inner m) !! apr_session_id request') as [sd|] eqn:Hsd; [exact (Hm _ _ Hsd)|done].
  - unfold load. by destruct (load_full_cache m sid CacheUse_Proving) as [cache ->].
  - by destruct (load_from_cache m request') as [cache ->].
  - by destruct (scan_cache m request') as [cache ->].
  - destruct (write_metadata_sync _ _ _ _) eqn:E; [|done]. unfold write_metadata_sync in E. do 2 step E. injection E as <-.
    apply ok_or_Ok in E0. apply unpruned_session; [done|]. exact (Hm _ _ E0).
  - destruct (write_snapshot_sync _ _ _) eqn:E; [|done]. unfold write_snapshot_sync in E. do 3 step E. injection E as <-.
    apply ok_or_Ok in E1. by apply unpruned_snapshot.
  - destruct (write_state_snapshot_sync _ _) eqn:E; [|done]. unfold write_state_snapshot_sync, write_snapshot_sync in E. do 4 step E.
    injection E as <-. apply ok_or_Ok in E2. by apply unpruned_snapshot.
  - destruct (discard_snapshot _ _) eqn:E; [|done]. unfold discard_snapshot in E. step E. injection E as <-.
    apply ok_or_Ok in E0. by apply unpruned_snapshot.
Qed.

Lemma unpruned_ops limits m ops : MemoryJournalStore_try_new limits = Ok m -> Forall not_prune ops -> unpruned (run_ops m ops).
Proof.
  intros Hnew. assert (unpruned m) as Hm.
  { unfold MemoryJournalStore_try_new in Hnew. step Hnew. injection Hnew as <-. by intros ? ? ?. }
  clear Hnew. revert m Hm. induction ops as [|op ops IH]; intros m Hm Hops; [done|]. apply Forall_cons in Hops as [Hop Hops].
  apply IH; [|done]. by apply unpruned_op.
Qed.

Lemma unpruned_journal m J sid sd : store_repr m J -> unpruned m -> session_of m sid = Some sd -> J !! sid = Some (sd_batches sd).
Proof.
  intros Hr Hm Hsd. pose proof (st_sessions _ _ Hr sid) as Hs. rewrite Hsd in Hs. inversion Hs as [? jb Hsj|]; subst. f_equal.
  rewrite (retained_batches _ _ _ Hsj), (Hm _ _ Hsd). symmetry. apply filter_all. intros b Hin. apply Z.ltb_lt.
  pose proof (covers_last _ _ _ (sj_covers _ _ _ Hsj) Hin). lia.
Qed.

(** ** Windows *)

Lemma select_tail_drop bs start codes tail : select_tail_batches bs start codes = Ok tail -> exists n, tail = drop n bs.
Proof.
  unfold select_tail_batches. case_match; intros HH; step HH; injection HH as <-; [by eexists|].
  exists (length bs). by rewrite drop_all.
Qed.

Lemma batch_records_drop n bs : exists k, batch_records (drop n bs) = drop k (batch_records bs).
Proof.
  exists (length (batch_records (take n bs))). rewrite <- (take_drop n bs) at 3. by rewrite batch_records_app, drop_app_length.
Qed.

(** A window that loads is the history from its start, after the record that
    carries the prior checksum. *)
Lemma window_repr sid sd j start prior codes l : session_repr sid sd j -> 2 <= start -> Z.of_nat (length j) < u64_max ->
  loaded_from_batches sid sd start prior codes = Ok l ->
  batch_records (ls_committed_batches l) = drop (Z.to_nat (start - 1)) j /\
  rec_checksum <$> j !! Z.to_nat (start - 2) = Some prior /\ start <= Z.of_nat (length j) + 1.
Proof.
  intros Hrep Hst Hlt HH. unfold loaded_from_batches in HH. step HH. step HH. injection HH as <-. cbn [loaded_session ls_committed_batches].
  destruct a0. destruct (select_tail_drop _ _ _ _ E) as [n ->]. destruct (batch_records_drop n (sd_batches sd)) as [k Hk].
  destruct (session_repr_retained _ _ _ Hrep) as (h0 & Hl0 & Hge & Hlen & Hret).
  assert (exists k', batch_records (drop n (sd_batches sd)) = drop k' j) as [k' Hk'].
  { rewrite Hk. exists (Z.to_nat (sd_anchor_next_sequence sd - 1) + (length (option_list (sd_boundary_record sd)) + k))%nat.
    rewrite <- !drop_drop, <- Hret. unfold session_records. by rewrite drop_app_length. }
  rewrite Hk' in *. destruct Hrep as [Sl Ss Sh Sr So Sc Sct Ssn].
  destruct (decide (drop k' j = [])) as [Hnil|Hne].
  - rewrite Hnil in E0. unfold verify_tail_records in E0. step E0. step E0. apply reject_if_Ok, negb_false_iff, eqb_eq in E0.
    apply reject_if_Ok, negb_false_iff, Z.eqb_eq in E2. rewrite Sh in E2. unfold u64_saturating_add in E2.
    assert (start = Z.of_nat (length j) + 1) as -> by lia. rewrite Hnil. split_and!; [by rewrite drop_ge by lia| |lia].
    assert (j <> []) as Hj by (intros ->; cbn in *; lia). rewrite (linked_last _ _ _ _ Sl Hj), last_lookup in E0.
    by replace (Z.to_nat (Z.of_nat (length j) + 1 - 2)) with (Init.Nat.pred (length j)) by lia.
  - apply verify_tail_spec in E0 as [Hle [Hl _ _]]; [|done..].
    assert (k' < length j)%nat as Hkl by (destruct (decide (k' < length j)%nat); [done|]; by rewrite drop_ge in Hne by lia).
    destruct (lookup_lt_is_Some_2 j k' Hkl) as [r Hr]. pose proof (linked_lookup _ _ _ _ _ _ Sl Hr) as Hseq.
    rewrite (drop_S _ _ _ Hr) in Hl. inversion Hl as [|? ? ? ? ? Hv Hp Hs Hl']; subst.
    destruct (linked_split k' _ _ _ _ Sl ltac:(lia)) as (mid & Hm1 & Hm2). rewrite (drop_S _ _ _ Hr) in Hm2.
    inversion Hm2 as [|? ? ? ? ? _ Hp2 _ _]; subst. split_and!; [f_equal; lia| |lia].
    assert (take k' j <> []) as Hne' by (intros Hx; apply (f_equal length) in Hx; rewrite length_take in Hx; cbn in Hx; lia).
    pose proof (linked_last _ _ _ _ Hm1 Hne') as Hlast. rewrite last_lookup, length_take, Nat.min_l, lookup_take_lt in Hlast by lia.
    rewrite <- Hp, Hlast. f_equal. f_equal. lia.
Qed.
End Repr.
