(* ===== verification/Recover.v ===== *)
(** * Recovery by replay

    Models [exec/coordinator/recover.rs] of [finstack-ai-runtime], with
    [Kernel::try_restore] and [update_pending_timer_timestamp]: how a loaded
    session becomes a kernel, a session projection and the continuation of the
    last model response.  The reader of a model response's continuation is the
    derived deserializer of [ModelContinuationOutput], the class [Continuations]. *)

From S2P Require Import Prelude Ids Floats Cbor CborCodec CborDecode Serializer.
From S2P Require Import Primitives Effects Records State Inputs ToolBatch Digests Policy ApplyStage ApplyTools ApplyEffects ApplyRecord Shapes Events Apply Decide.
From S2P Require Import Conversation Validate Chain Append Snapshot Store.

Class Continuations : Type := { continuation_state_of : RawJson -> option (option RawJson) }.

Notation rresult A := (result A string).

Inductive ReplayScope : Type :=
| ReplayScope_Primary
| ReplayScope_StructuralOnly
| ReplayScope_Run (run_id : RunId).
#[global] Instance ReplayScope_eq_dec : EqDecision ReplayScope.
Proof. solve_decision. Defined.

(** The kernel, the next transient sequence and the time of the pending timer. *)
Record Replayed : Type := mkReplayed {
  rp_kernel : KernelState;
  rp_next_transient_sequence : Z;
  rp_pending_timer_scheduled_at : option Timestamp
}.

Definition used_snapshot_sequence (loaded : LoadedSession) (used_snapshot : bool) : option Z :=
  if negb used_snapshot then None else acr_sequence <$> ls_accelerated loaded.

Definition update_pending_timer_timestamp (pending : option Timestamp) (committed : CommittedBatch) : option Timestamp :=
  foldl (fun pending record =>
           match rec_body record with
           | RecordBody_RetryScheduled _ => Some (rec_timestamp record)
           | RecordBody_TimerFired _ => None
           | _ => pending
           end) pending (cb_records committed).

Definition adopt_session_head (kernel : KernelState) (sequence : Z) : rresult KernelState :=
  let current := k_last_applied_sequence kernel in
  if current =? sequence then Ok kernel
  else do? reject_if (sequence <? current) "filtered_sequence_regression" in
       map_err (fun _ => "filtered_head_invalid") (Kernel_adopt_session_head kernel sequence).

Definition record_belongs_to_scope (record : RecordEnvelope) (target : option RunId) : bool :=
  if is_structural (rec_body record) || is_none (rec_run_id record) then true
  else is_some_and target (fun run_id => rec_run_id record =?? Some run_id).

(** ** Session projections *)

(** The loop updates the projection in place: what the records before a refused
    one did stays. *)
Fixpoint apply_records_to_session (session : SessionProjection) (records : list RecordEnvelope) : SessionProjection * rresult unit :=
  match records with
  | [] => (session, Ok tt)
  | record :: records =>
      match apply_envelope session record with
      | Ok session => apply_records_to_session session records
      | Err _ => (session, Err "session_projection_failed")
      end
  end.

Definition apply_batch_to_session (session : SessionProjection) (batch : CommittedBatch) : SessionProjection * rresult unit :=
  apply_records_to_session session (cb_records batch).

Definition project_loaded (loaded : LoadedSession) : rresult SessionProjection :=
  rfold (fun session batch => let '(session, r) := apply_batch_to_session session batch in do? r in Ok session)
    (SessionProjection_new (ls_session_id loaded)) (ls_committed_batches loaded).

(** ** Indices of a loaded journal *)

Definition completed_effect_pairs (loaded : LoadedSession) : gmap EffectId (EffectRequested * EffectCompleted) :=
  let records := batch_records (ls_committed_batches loaded) in
  let requested := foldl (fun m r => match rec_body r with
                                     | RecordBody_EffectRequested effect => <[req_effect_id effect := effect]> m
                                     | _ => m
                                     end) (∅ : gmap EffectId EffectRequested) records in
  let completed := foldl (fun m r => match rec_body r with
                                     | RecordBody_EffectCompleted effect => <[cpl_effect_id effect := effect]> m
                                     | _ => m
                                     end) (∅ : gmap EffectId EffectCompleted) records in
  map_zip_with pair requested completed.

Definition extension_request_envelopes (loaded : LoadedSession) : gmap EffectId RecordEnvelope :=
  foldl (fun m r => match rec_body r with
                    | RecordBody_EffectRequested requested =>
                        if (req_kind requested =?? EffectKind_Context) || (req_kind requested =?? EffectKind_Middleware)
                        then <[req_effect_id requested := r]> m else m
                    | _ => m
                    end) ∅ (batch_records (ls_committed_batches loaded)).

(** ** Continuations *)

Section Continuation.
Context `{Continuations}.

Definition update_continuation_from_record (current : option RawJson) (record : RecordEnvelope) : rresult (option RawJson) :=
  match rec_body record with
  | RecordBody_EffectCompleted completed =>
      if oc_kind (cpl_output_contract completed) <>?? EffectOutputKind_ModelResponse then Ok current
      else ok_or (continuation_state_of (cpl_output completed)) "model_continuation_invalid"
  | _ => Ok current
  end.

Definition update_last_model_continuation (current : option RawJson) (committed : CommittedBatch) : rresult (option RawJson) :=
  rfold update_continuation_from_record current (cb_records committed).

Definition continuation_after_replay (loaded : LoadedSession) (scope : ReplayScope) (used_snapshot : bool)
    : rresult (option RawJson) :=
  let snapshot_sequence := default 0 (used_snapshot_sequence loaded used_snapshot) in
  let continuation := if used_snapshot then ls_accelerated loaded ≫= acr_last_model_continuation else None in
  rfold (fun continuation record =>
           if negb (snapshot_sequence <? rec_sequence record) then Ok continuation
           else if match scope with
                   | ReplayScope_Primary => true
                   | ReplayScope_StructuralOnly => false
                   | ReplayScope_Run run_id => record_belongs_to_scope record (Some run_id)
                   end
                then update_continuation_from_record continuation record
                else Ok continuation)
    continuation (batch_records (ls_committed_batches loaded)).
End Continuation.

(** ** Checksums of a snapshot *)

Definition checksum_at (loaded : LoadedSession) (sequence : Z) : option Digest :=
  find_map (fun r => if rec_sequence r =? sequence then Some (rec_checksum r) else None)
    (batch_records (ls_committed_batches loaded)).

Definition snapshot_checksum_ok (loaded : LoadedSession) (accelerated : AcceleratedRestore) : rresult unit :=
  match checksum_at loaded (acr_sequence accelerated) with
  | Some checksum => reject_if (checksum <>?? acr_head_checksum accelerated) "snapshot_checksum_mismatch"
  | None =>
      if (ls_head_sequence loaded =? acr_sequence accelerated)
         && (ls_head_checksum loaded =?? Some (acr_head_checksum accelerated))
         && match ls_committed_batches loaded with [] => true | _ => false end
      then Ok tt
      else
        let? first := ok_or (head (ls_committed_batches loaded) ≫= fun batch => head (cb_records batch)) "snapshot_missing_record" in
        do? reject_if (negb (rec_sequence first =? u64_saturating_add (acr_sequence accelerated) 1)) "snapshot_missing_record" in
        reject_if (rec_previous_checksum first <>?? Some (acr_head_checksum accelerated)) "snapshot_checksum_mismatch"
  end.

(** ** Replays *)

Section Replay.
Context `{Hasher, Serde, SnapshotWire}.

(** [Kernel::try_restore]; the digest of a valid state is its hash projection. *)
Definition Kernel_try_restore (state : KernelState) : kresult KernelState :=
  do? validate state in
  let? _ := ok_or (state_hash state) KernelError_StateHashFailed in
  Ok state.

(** One batch of a replay. *)
Definition replay_batch_step (acc : Replayed) (batch : CommittedBatch) : rresult Replayed :=
  let? '(kernel, events) := map_err (fun _ => "journal_replay_failed")
                              (apply (rp_kernel acc) batch (rp_next_transient_sequence acc)) in
  let? next := ok_or (u64_checked_add (rp_next_transient_sequence acc) (u64_of_usize (length events)))
                 "transient_event_sequence_exhausted" in
  Ok (mkReplayed kernel next (update_pending_timer_timestamp (rp_pending_timer_scheduled_at acc) batch)).

Definition replay_from_default (loaded : LoadedSession) : rresult Replayed :=
  let? acc := rfold replay_batch_step (mkReplayed KernelState_default 0 None) (ls_committed_batches loaded) in
  let last_batch_sequence := match last (ls_committed_batches loaded) with Some batch => cb_last_sequence batch | None => 0 end in
  do? reject_if (negb (last_batch_sequence =? ls_head_sequence loaded)
                 || negb (k_last_applied_sequence (rp_kernel acc) =? ls_head_sequence loaded)) "loaded_head_mismatch" in
  Ok acc.

Definition snapshot_batch_step (sequence : Z) (acc : Replayed) (batch : CommittedBatch) : rresult Replayed :=
  if cb_last_sequence batch <=? sequence then Ok acc
  else do? reject_if (cb_first_sequence batch <=? sequence) "snapshot_splits_batch" in
       replay_batch_step acc batch.

Definition replay_from_snapshot (loaded : LoadedSession) (accelerated : AcceleratedRestore) : rresult Replayed :=
  do? reject_if ((ls_head_sequence loaded <? acr_sequence accelerated)
                 || negb (acr_sequence accelerated =? k_last_applied_sequence (acr_state accelerated)))
        "snapshot_sequence_invalid" in
  do? snapshot_checksum_ok loaded accelerated in
  let? kernel := map_err (fun _ => "snapshot_state_invalid") (Kernel_try_restore (acr_state accelerated)) in
  let? acc := rfold (snapshot_batch_step (acr_sequence accelerated))
                (mkReplayed kernel 0 (acr_pending_timer_scheduled_at accelerated)) (ls_committed_batches loaded) in
  do? reject_if (negb (k_last_applied_sequence (rp_kernel acc) =? ls_head_sequence loaded)) "loaded_head_mismatch" in
  Ok acc.

Definition replay_loaded (loaded : LoadedSession) : rresult (Replayed * bool) :=
  let fallback := let? acc := replay_from_default loaded in Ok (acc, false) in
  match ls_accelerated loaded with
  | Some accelerated =>
      match replay_from_snapshot loaded accelerated with
      | Ok acc => Ok (acc, true)
      | Err _ => fallback
      end
  | None => fallback
  end.

Definition apply_filtered_segment (acc : Replayed) (batch_id : AppendBatchId) (records : list RecordEnvelope) : rresult Replayed :=
  match records with
  | [] => Ok acc
  | first :: _ =>
      let first_sequence := rec_sequence first in
      let? last_record := ok_or (last records) "filtered_batch_invalid" in
      let? prior := ok_or (u64_checked_sub first_sequence 1) "filtered_sequence_invalid" in
      let? kernel := adopt_session_head (rp_kernel acc) prior in
      let? filtered := ok_or (CommittedBatch_try_new batch_id first_sequence (rec_sequence last_record) records) "filtered_batch_invalid" in
      replay_batch_step (mkReplayed kernel (rp_next_transient_sequence acc) (rp_pending_timer_scheduled_at acc)) filtered
  end.

(** The records of a batch, cut where a record belongs to another run. *)
Definition filtered_record_step (batch_id : AppendBatchId) (target : option RunId) (st : Replayed * list RecordEnvelope)
    (record : RecordEnvelope) : rresult (Replayed * list RecordEnvelope) :=
  let '(acc, segment) := st in
  if negb (record_belongs_to_scope record target)
  then let? acc := apply_filtered_segment acc batch_id segment in Ok (acc, [])
  else Ok (acc, segment ++ [record]).

Definition filtered_batch_step (target : option RunId) (acc : Replayed) (batch : CommittedBatch) : rresult Replayed :=
  let? '(acc, segment) := rfold (filtered_record_step (cb_batch_id batch) target) (acc, []) (cb_records batch) in
  apply_filtered_segment acc (cb_batch_id batch) segment.

Definition replay_filtered (loaded : LoadedSession) (target : option RunId) : rresult Replayed :=
  let? acc := rfold (filtered_batch_step target) (mkReplayed KernelState_default 0 None) (ls_committed_batches loaded) in
  let last_batch_sequence := match last (ls_committed_batches loaded) with Some batch => cb_last_sequence batch | None => 0 end in
  do? reject_if (negb (last_batch_sequence =? ls_head_sequence loaded)) "loaded_head_mismatch" in
  let? kernel := adopt_session_head (rp_kernel acc) (ls_head_sequence loaded) in
  do? reject_if (negb (k_last_applied_sequence kernel =? ls_head_sequence loaded)) "loaded_head_mismatch" in
  Ok (mkReplayed kernel (rp_next_transient_sequence acc) (rp_pending_timer_scheduled_at acc)).

Definition replay_scoped (loaded : LoadedSession) (scope : ReplayScope) : rresult (Replayed * bool) :=
  match scope with
  | ReplayScope_Primary => replay_loaded loaded
  | ReplayScope_StructuralOnly =>
      let? kernel := adopt_session_head KernelState_default (ls_head_sequence loaded) in
      Ok (mkReplayed kernel 0 None, false)
  | ReplayScope_Run run_id =>
      let filtered := let? acc := replay_filtered loaded (Some run_id) in Ok (acc, false) in
      match ls_accelerated loaded with
      | Some accelerated =>
          if is_some_and (k_accepted (acr_state accelerated)) (fun accepted => ra_run_id accepted =?? run_id)
          then match replay_from_snapshot loaded accelerated with
               | Ok acc => Ok (acc, true)
               | Err _ => filtered
               end
          else filtered
      | None => filtered
      end
  end.
End Replay.
