(* ===== verification/RecoverSound.v ===== *)
(** * Recovery agrees with replay

    The kernel a replay produces does not depend on the transient sequence it
    starts from, so a replay that starts from an honest snapshot ends in the
    kernel of a full replay, whether the snapshot's batches are still in the
    journal or were pruned.

    The second part relates kernels to the journals they replay. *)

From S2P Require Import Prelude Primitives Ids Floats Cbor CborCodec CborDecode Serializer Effects Records State Inputs ToolBatch Digests Policy ApplyStage ApplyTools ApplyEffects ApplyRecord Shapes Events.
From S2P Require Import Apply Decide DecideLimit DecideTools DecideStage DecideSettle DecideControl Conversation Validate Reducer Decisions Chain ChainIntegrity BatchOrder History PhaseMachine PhaseBatch Reach Journal Append.
From S2P Require Import Snapshot Store StoreChain MemoryStore StoreJournal Recover.

(** Folds that keep a relation between their accumulators. *)
Lemma rfold_sim {A S1 S2 E1 E2} (R : S1 -> S2 -> Prop) (f : S1 -> A -> result S1 E1) (g : S2 -> A -> result S2 E2) :
  (forall s1 s2 a s1', R s1 s2 -> f s1 a = Ok s1' -> exists s2', g s2 a = Ok s2' /\ R s1' s2') ->
  forall l s1 s2 s1', R s1 s2 -> rfold f s1 l = Ok s1' -> exists s2', rfold g s2 l = Ok s2' /\ R s1' s2'.
Proof.
  intros Hstep l. induction l as [|a l IH]; intros s1 s2 s1' HR HH; cbn [rfold] in *; [injection HH as <-; by exists s2|].
  step HH. destruct (Hstep _ _ _ _ HR E) as (s2' & Hg & HR'). rewrite Hg. cbn [rbind]. by eapply IH.
Qed.

(** ** Renumbering events *)

Lemma try_from_record_renumber r o t t' c e : try_from_record r o t c = Some e -> exists e', try_from_record r o t' c = Some e'.
Proof.
  unfold try_from_record. intros H. apply bind_Some in H as (k & Hk & H). apply bind_Some in H as (id & Hid & H).
  apply bind_Some in H as (body & Hbody & H). rewrite Hk, Hid, Hbody. cbn [mbind option_bind].
  destruct (_ <>?? _); [done|]. apply bind_Some in H as (run & Hrun & H). rewrite Hrun. cbn [mbind option_bind]. cbv zeta in *.
  do 2 (destruct (_ && _) in H |- *; [done|]). unfold RunEvent_try_new in *. destruct (_ && _) in H |- *; [by eexists|done].
Qed.

Lemma derive_events_renumber t t' entries events : 0 <= t' <= t -> derive_events t entries = Ok events ->
  exists events', derive_events t' entries = Ok events' /\ length events' = length events.
Proof.
  intros Ht. unfold derive_events.
  apply (rfold_sim (fun a b : list RunEvent => length b = length a)); [|done]. intros s1 s2 [r c] s1' HR.
  unfold derive_record_events. cbn [fst snd].
  apply (rfold_sim (fun a b : list RunEvent => length b = length a)); [|done]. clear s1 s2 s1' HR.
  intros s1 s2 o s1' HR. unfold derive_event. intros HH. step HH. step HH. injection HH as <-.
  apply ok_or_Ok in E. apply ok_or_Ok in E0. unfold u64_checked_add, u64_of_usize in *. apply in_range_Some in E as [-> Hr].
  rewrite HR. rewrite (proj2 (in_range_Some _ _ _ (t' + Z.of_nat (length s1)))) by (split; [done|lia]). cbn [ok_or rbind].
  destruct (try_from_record_renumber _ _ _ (t' + Z.of_nat (length s1)) _ _ E0) as [e' ->]. cbn [ok_or rbind].
  eexists. split; [done|]. rewrite !length_app, HR. done.
Qed.

Section Sound.
Context `{Hasher, Serde, SnapshotWire}.

Lemma apply_renumber s b t t' s' events : 0 <= t' <= t -> apply s b t = Ok (s', events) ->
  exists events', apply s b t' = Ok (s', events') /\ length events' = length events.
Proof.
  intros Ht HH. apply apply_step in HH as (c & []).
  destruct (derive_events_renumber _ _ _ _ Ht cs_events) as (events' & He & Hl). exists events'. split; [|done].
  by eapply apply_of_step.
Qed.

(** ** The same replay, numbered from elsewhere *)

(** [b] is the replay [a], its events numbered from [skipped] earlier. *)
Record same_replay_state (skipped : Z) (a b : Replayed) : Prop := {
  srs_kernel : rp_kernel b = rp_kernel a;
  srs_timer : rp_pending_timer_scheduled_at b = rp_pending_timer_scheduled_at a;
  srs_next : rp_next_transient_sequence b = rp_next_transient_sequence a - skipped;
  srs_range : 0 <= skipped <= rp_next_transient_sequence a
}.

Lemma replay_step_same d a b batch a' : same_replay_state d a b -> replay_batch_step a batch = Ok a' ->
  exists b', replay_batch_step b batch = Ok b' /\ same_replay_state d a' b'.
Proof.
  intros [Hk Ht Hd Hrange] HH. assert (0 <= rp_next_transient_sequence b <= rp_next_transient_sequence a) as Hn by lia. unfold replay_batch_step in *. step HH. destruct a0 as [k events]. step HH. injection HH as <-.
  destruct (apply _ _ _) as [[k1 ev1]|] eqn:Ea; [|done]. injection E as -> ->. apply ok_or_Ok in E0.
  destruct (apply_renumber _ _ _ _ _ _ Hn Ea) as (events' & He & Hl). rewrite Hk, He. cbn [map_err rbind].
  unfold u64_checked_add, u64_of_usize in *. apply in_range_Some in E0 as [-> Hr]. rewrite Hl.
  rewrite (proj2 (in_range_Some _ _ _ (rp_next_transient_sequence b + Z.of_nat (length events)))) by (split; [done|lia]).
  cbn [ok_or rbind]. eexists. split; [done|]. split; cbn; [done|by rewrite Ht|lia|lia].
Qed.

Lemma replays_same d l a b a' : same_replay_state d a b -> rfold replay_batch_step a l = Ok a' ->
  exists b', rfold replay_batch_step b l = Ok b' /\ same_replay_state d a' b'.
Proof. apply rfold_sim. intros s1 s2 x s1'. apply replay_step_same. Qed.

Lemma replays_next l : forall a a', rfold replay_batch_step a l = Ok a' -> 0 <= rp_next_transient_sequence a ->
  0 <= rp_next_transient_sequence a'.
Proof.
  induction l as [|b l IH]; intros a a' HH Ha; cbn [rfold] in HH; [by injection HH as <-|]. step HH. apply (IH _ _ HH).
  unfold replay_batch_step in E. step E. destruct a1. step E. injection E as <-. apply ok_or_Ok in E1.
  unfold u64_checked_add in E1. by apply in_range_Some in E1 as [-> [? _]].
Qed.

(** ** Batches on either side of a snapshot *)

Lemma replay_step_sequence a batch a' : replay_batch_step a batch = Ok a' ->
  cb_first_sequence batch = k_last_applied_sequence (rp_kernel a) + 1 /\
  cb_last_sequence batch = k_last_applied_sequence (rp_kernel a') /\
  k_last_applied_sequence (rp_kernel a) < k_last_applied_sequence (rp_kernel a').
Proof.
  intros HH. unfold replay_batch_step in HH. step HH. destruct a0 as [k events]. step HH. injection HH as <-. cbn [rp_kernel].
  destruct (apply _ _ _) as [[k1 ev1]|] eqn:Ea; [|done]. injection E as -> ->.
  pose proof (apply_sequence _ _ _ _ _ Ea) as (Hk & _ & Hn & _).
  apply apply_step in Ea as (c & [Hr _ _ _ _ _ _ _ _ _ _]). apply validate_batch_range_inv in Hr as (Hf & Hl & _ & _). lia.
Qed.

Lemma replays_le l : forall a a', rfold replay_batch_step a l = Ok a' ->
  k_last_applied_sequence (rp_kernel a) <= k_last_applied_sequence (rp_kernel a') /\
  Forall (fun b => k_last_applied_sequence (rp_kernel a) < cb_first_sequence b /\
                   cb_last_sequence b <= k_last_applied_sequence (rp_kernel a') /\ cb_first_sequence b <= cb_last_sequence b) l.
Proof.
  induction l as [|b l IH]; intros a a' HH; cbn [rfold] in HH; [injection HH as <-; by split|].
  step HH. apply replay_step_sequence in E as (Hf & Hl & Hlt). apply IH in HH as [Hle Hall]. split; [lia|].
  constructor; [lia|]. eapply Forall_impl; [exact Hall|]. cbn. lia.
Qed.

(** Past the snapshot every batch is replayed, before it none is. *)
Lemma snapshot_steps_skip q l a : Forall (fun b => cb_last_sequence b <= q) l -> rfold (snapshot_batch_step q) a l = Ok a.
Proof.
  induction 1 as [|b l Hb Hl IH]; [done|]. cbn [rfold]. unfold snapshot_batch_step at 1. by rewrite (proj2 (Z.leb_le _ _) Hb).
Qed.

Lemma snapshot_steps_replay q l : forall a, Forall (fun b => q < cb_first_sequence b /\ cb_first_sequence b <= cb_last_sequence b) l ->
  rfold (snapshot_batch_step q) a l = rfold replay_batch_step a l.
Proof.
  induction l as [|b l IH]; intros a Hall; [done|]. apply Forall_cons in Hall as [Hb Hall]. cbn [rfold].
  unfold snapshot_batch_step at 1. rewrite (proj2 (Z.leb_gt _ _)), (proj2 (Z.leb_gt (cb_first_sequence b) q)) by lia. cbn [reject_if rbind].
  destruct (replay_batch_step a b); cbn [rbind]; [by apply IH|done].
Qed.

(** A snapshot taken by replaying a prefix of the history. *)
Record honest_snapshot (history : list CommittedBatch) (acc : AcceleratedRestore) (n : nat) (a : Replayed) : Prop := {
  hs_replay : rfold replay_batch_step (mkReplayed KernelState_default 0 None) (take n history) = Ok a;
  hs_state : acr_state acc = rp_kernel a;
  hs_sequence : acr_sequence acc = k_last_applied_sequence (rp_kernel a);
  hs_timer : acr_pending_timer_scheduled_at acc = rp_pending_timer_scheduled_at a
}.

(** Replaying from an honest snapshot any journal that still holds the batches
    after it gives the kernel of the full replay. *)
Lemma snapshot_replay history acc n a full k : honest_snapshot history acc n a ->
  rfold replay_batch_step (mkReplayed KernelState_default 0 None) history = Ok full -> (k <= n)%nat ->
  exists b, rfold (snapshot_batch_step (acr_sequence acc)) (mkReplayed (acr_state acc) 0 (acr_pending_timer_scheduled_at acc))
              (drop k history) = Ok b /\ same_replay_state (rp_next_transient_sequence a) full b.
Proof.
  intros [Hr Hs Hq Ht] Hfull Hk. rewrite <- (take_drop n history), rfold_app, Hr in Hfull. cbn [rbind] in Hfull.
  assert (0 <= rp_next_transient_sequence a) as Hpos by (eapply replays_next; [exact Hr|done]).
  destruct (replays_same (rp_next_transient_sequence a) _ a (mkReplayed (acr_state acc) 0 (acr_pending_timer_scheduled_at acc)) _
    ltac:(split; cbn; [done|done|lia|lia]) Hfull) as (b & Hb & Hsame).
  exists b. split; [|done]. pose proof (replays_le _ _ _ Hfull) as [_ Hpost]. pose proof (replays_le _ _ _ Hr) as [_ Hpre].
  rewrite <- (drop_take_drop history k n Hk).
  rewrite rfold_app, snapshot_steps_skip; cbn [rbind].
  - rewrite snapshot_steps_replay; [done|]. eapply Forall_impl; [exact Hpost|]. cbn. lia.
  - apply Forall_drop. eapply Forall_impl; [exact Hpre|]. cbn. lia.
Qed.

Lemma replays_last l a a' b : rfold replay_batch_step a l = Ok a' -> last l = Some b ->
  cb_last_sequence b = k_last_applied_sequence (rp_kernel a').
Proof.
  destruct l as [|x l _] using rev_ind; [done|]. rewrite rfold_app, last_snoc. intros HH [= ->]. step HH. cbn [rfold] in HH.
  step HH. injection HH as <-. by apply replay_step_sequence in E0 as (_ & ? & _).
Qed.

(** A journal whose head is where its batches end. *)
Definition whole_journal (loaded : LoadedSession) (full : Replayed) : Prop :=
  rfold replay_batch_step (mkReplayed KernelState_default 0 None) (ls_committed_batches loaded) = Ok full /\
  ls_head_sequence loaded = k_last_applied_sequence (rp_kernel full).

Lemma replay_from_default_whole loaded full : replay_from_default loaded = Ok full <-> whole_journal loaded full.
Proof.
  unfold replay_from_default, whole_journal. rewrite rbind_Ok. split.
  - intros (a & Ha & HH). step HH. injection HH as <-. split; [done|]. apply reject_if_Ok, orb_false_iff in E as [_ E].
    apply negb_false_iff, Z.eqb_eq in E. done.
  - intros [Ha Hh]. exists full. split; [done|]. rewrite Hh, Z.eqb_refl, orb_false_r.
    assert (match last (ls_committed_batches loaded) with Some batch => cb_last_sequence batch | None => 0 end
            = k_last_applied_sequence (rp_kernel full)) as ->.
    { destruct (last _) as [b|] eqn:Hl; [by eapply replays_last|]. apply last_None in Hl. rewrite Hl in Ha. by injection Ha as <-. }
    by rewrite Z.eqb_refl.
Qed.

(** Recovering from a snapshot, with the journal pruned up to it or not. *)
Lemma snapshot_recovers history acc n a full k loaded : honest_snapshot history acc n a ->
  rfold replay_batch_step (mkReplayed KernelState_default 0 None) history = Ok full -> (k <= n)%nat ->
  ls_committed_batches loaded = drop k history -> ls_head_sequence loaded = k_last_applied_sequence (rp_kernel full) ->
  snapshot_checksum_ok loaded acc = Ok tt -> Kernel_try_restore (acr_state acc) = Ok (acr_state acc) ->
  exists b, replay_from_snapshot loaded acc = Ok b /\ same_replay_state (rp_next_transient_sequence a) full b.
Proof.
  intros Hh Hfull Hk Hb Hhead Hc Hres. destruct (snapshot_replay _ _ _ _ _ _ Hh Hfull Hk) as (b & Hrun & Hsame).
  exists b. split; [|done]. destruct Hh as [Hr Hs Hq Ht]. unfold replay_from_snapshot.
  assert (acr_sequence acc <= ls_head_sequence loaded) as Hle.
  { rewrite Hq, Hhead. rewrite <- (take_drop n history), rfold_app, Hr in Hfull. cbn [rbind] in Hfull.
    by apply replays_le in Hfull as [? _]. }
  rewrite (proj2 (Z.ltb_ge _ _) Hle), Hq, Hs, Z.eqb_refl. cbn [orb negb reject_if rbind]. rewrite Hc. cbn [rbind].
  rewrite Hs in Hres. rewrite Hres. cbn [map_err rbind]. rewrite Hb. rewrite Hq, Hs in Hrun. rewrite Hrun. cbn [rbind].
  rewrite (srs_kernel _ _ _ Hsame), Hhead, Z.eqb_refl. done.
Qed.

(** A restored state is the snapshot's. *)
Lemma try_restore_same s s' : Kernel_try_restore s = Ok s' -> s' = s.
Proof. unfold Kernel_try_restore. intros HH. do 2 step HH. by injection HH as <-. Qed.

(** How many events a recovery leaves unnumbered: those of the batches a used
    snapshot stands for. *)
Definition skipped_events (a : Replayed) (used : bool) : Z := if used then rp_next_transient_sequence a else 0.

(** With the whole journal at hand, a snapshot changes nothing but speed: any
    recovery, from it or around it, ends in the kernel of the full replay. *)
Lemma recovery_exact loaded acc n a full : whole_journal loaded full -> ls_accelerated loaded = Some acc ->
  honest_snapshot (ls_committed_batches loaded) acc n a ->
  exists b used, replay_loaded loaded = Ok (b, used) /\ same_replay_state (skipped_events a used) full b.
Proof.
  intros [Hrun Hhead] Hacc Hh. unfold replay_loaded. rewrite Hacc.
  destruct (replay_from_snapshot loaded acc) as [b|e] eqn:Hs.
  - exists b, true. split; [done|]. unfold replay_from_snapshot in Hs. do 3 step Hs.
    destruct (Kernel_try_restore _) as [k|] eqn:Hk; [|done]. injection E1 as ->. apply try_restore_same in Hk as ->.
    destruct (snapshot_replay _ _ _ _ _ 0 Hh Hrun ltac:(lia)) as (b' & Hb' & Hsame). rewrite drop_0 in Hb'.
    rewrite Hb' in Hs. cbn [rbind] in Hs. step Hs. by injection Hs as <-.
  - rewrite (proj2 (replay_from_default_whole loaded full)) by done. exists full, false. split; [done|].
    apply replays_next in Hrun; [|done]. split; cbn; [done|done|lia|lia].
Qed.

End Sound.

(** ** The checksum of a snapshot *)

Section Checksums.
Context `{Half, Hasher, Wire}.

Lemma find_map_sequence_None q rs : Forall (fun r => rec_sequence r <> q) rs ->
  find_map (fun r => if rec_sequence r =? q then Some (rec_checksum r) else None) rs = None.
Proof.
  induction 1 as [|r rs Hr Hrs IH]; [done|]. cbn [find_map]. by rewrite (proj2 (Z.eqb_neq _ _) Hr).
Qed.

Lemma find_map_sequence_Some q pre r rs : Forall (fun r => rec_sequence r <> q) pre -> rec_sequence r = q ->
  find_map (fun r => if rec_sequence r =? q then Some (rec_checksum r) else None) (pre ++ r :: rs) = Some (rec_checksum r).
Proof.
  intros Hpre <-. induction Hpre as [|x pre Hx Hpre IH]; cbn [app find_map]; [by rewrite Z.eqb_refl|].
  by rewrite (proj2 (Z.eqb_neq _ _) Hx).
Qed.

(** A snapshot that carries the checksum of the last record it covers passes
    the checksum test, whether that record is still retained, the first record
    retained is the one after it, or nothing is retained. *)
Lemma snapshot_checksum_passes history n k loaded acc r :
  linked None 1 (batch_records history) (ls_head_checksum loaded) ->
  Z.of_nat (length (batch_records history)) = ls_head_sequence loaded -> ls_head_sequence loaded <= u64_max ->
  (k <= n)%nat -> ls_committed_batches loaded = drop k history -> Forall (fun b => cb_records b <> []) history ->
  last (batch_records (take n history)) = Some r ->
  acr_head_checksum acc = rec_checksum r -> acr_sequence acc = Z.of_nat (length (batch_records (take n history))) ->
  snapshot_checksum_ok loaded acc = Ok tt.
Proof.
  intros Hlink Hlen Hmax Hk Hb Hne Hlast Hsum Hq. pose proof (take_drop n history) as Hsplit.
  rewrite <- Hsplit, batch_records_app in Hlink, Hlen. rewrite length_app in Hlen.
  set (past := batch_records (take n history)) in *. set (after := batch_records (drop n history)) in *.
  apply linked_app in Hlink as (m & Hpast & Hafter).
  assert (past <> []) as Hpne by (intros E; by rewrite E in Hlast).
  pose proof (linked_last _ _ _ _ Hpast Hpne) as ->. rewrite Hlast in Hafter. cbn [fmap option_fmap option_map] in Hafter.
  assert (batch_records (ls_committed_batches loaded) = batch_records (drop k (take n history)) ++ after) as Hret
    by (rewrite Hb, <- (drop_take_drop history k n Hk), batch_records_app; done).
  assert (past = batch_records (take k (take n history)) ++ batch_records (drop k (take n history))) as Hcut
    by (unfold past; rewrite <- batch_records_app, take_drop; done).
  assert (Forall (fun x => rec_sequence x <> acr_sequence acc) after) as Habove.
  { apply Forall_forall. intros x [i Hi]%list_elem_of_lookup. apply (linked_lookup _ _ _ _ _ _ Hafter) in Hi. lia. }
  unfold snapshot_checksum_ok, checksum_at. rewrite Hret.
  destruct (batch_records (drop k (take n history))) as [|y kept _] eqn:Hkept using rev_ind.
  - rewrite find_map_sequence_None by done. cbn [app] in Hret. destruct after as [|x after].
    + assert (ls_committed_batches loaded = []) as ->.
      { destruct (ls_committed_batches loaded) as [|b bs]; [done|]. exfalso. apply (Forall_drop _ k) in Hne.
        rewrite <- Hb in Hne. apply Forall_cons in Hne as [Hne _]. unfold batch_records in Hret. cbn in Hret. by apply app_eq_nil in Hret as [? _]. }
      inversion Hafter as [? ? Hp Hs Hh|]; subst. cbn [length] in Hlen. rewrite (proj2 (Z.eqb_eq _ _)) by lia.
      by rewrite Hsum, eqb_refl.
    + assert (head (ls_committed_batches loaded) ≫= (fun batch => head (cb_records batch)) = Some x) as ->.
      { destruct (ls_committed_batches loaded) as [|b bs]; [done|]. apply (Forall_drop _ k) in Hne. rewrite <- Hb in Hne.
        apply Forall_cons in Hne as [Hne _]. unfold batch_records in Hret. cbn in *. destruct (cb_records b); [done|]. cbn in *. congruence. }
      inversion Hafter as [|? ? ? ? ? _ Hprev Hseq _]; subst. cbn [length] in Hlen.
      rewrite (proj2 (Z.eqb_neq _ _)) by lia. cbn [andb ok_or rbind].
      rewrite Hseq, Hprev, Hsum, eqb_refl. unfold u64_saturating_add. rewrite (proj2 (Z.eqb_eq _ _)) by lia. done.
  - rewrite <- app_assoc. cbn [app]. rewrite Hcut, app_assoc, last_snoc in Hlast. injection Hlast as ->.
    rewrite Hcut in Hpast, Hq. rewrite find_map_sequence_Some.
    + by rewrite Hsum, eqb_refl.
    + apply Forall_forall. intros x [i Hi]%list_elem_of_lookup. apply lookup_lt_Some in Hi as Hlt.
      apply linked_app in Hpast as (m & _ & Hkeep). apply (lookup_app_l_Some _ [r]) in Hi.
      apply (linked_lookup _ _ _ _ _ _ Hkeep) in Hi. rewrite !length_app in Hq. cbn [length] in Hq. lia.
    + apply linked_app in Hpast as (m & _ & Hkeep). assert ((kept ++ [r]) !! length kept = Some r) as Hi by by apply list_lookup_middle.
      apply (linked_lookup _ _ _ _ _ _ Hkeep) in Hi. rewrite !length_app in Hq. cbn [length] in Hq. lia.
Qed.
End Checksums.


(** * Kernels as replays of a journal

    [replays] relates a list of batches to the kernel and the pending timer that
    applying them yields, whatever numbers their events were given.  A kernel
    that replays a prefix of a session's journal can only apply the batch that
    follows in it, so every recovery and every commit keeps it a replay of a
    prefix. *)

Section Replays.
Context `{Hasher, Serde}.

Inductive replays : list CommittedBatch -> KernelState -> option Timestamp -> Prop :=
| replays_nil : replays [] KernelState_default None
| replays_snoc l k t c n k' events :
    replays l k t -> apply k c n = Ok (k', events) -> replays (l ++ [c]) k' (update_pending_timer_timestamp t c).

(** The kernel an application yields does not depend on the numbers of its events. *)
Lemma apply_state_det s b t1 t2 s1 s2 e1 e2 : apply s b t1 = Ok (s1, e1) -> apply s b t2 = Ok (s2, e2) -> s1 = s2.
Proof. intros (c1 & [])%apply_step (c2 & [])%apply_step. congruence. Qed.

Lemma replays_snoc_inv l c k t : replays (l ++ [c]) k t -> exists k0 t0 n events,
  replays l k0 t0 /\ apply k0 c n = Ok (k, events) /\ t = update_pending_timer_timestamp t0 c.
Proof.
  inversion 1 as [Hn|l' k0 t0 c' n k' events Hl Ha Heq]; [by destruct l|]. apply app_inj_tail in Heq as [-> ->]. by exists k0, t0, n, events.
Qed.

Lemma replays_det l : forall k t k' t', replays l k t -> replays l k' t' -> k = k' /\ t = t'.
Proof.
  induction l as [|c l IH] using rev_ind; intros k t k' t' H1' H2'.
  - inversion H1' as [|? ? ? ? ? ? ? ? ? Heq]; [|by destruct l]. inversion H2' as [|? ? ? ? ? ? ? ? ? Heq]; [done|by destruct l].
  - apply replays_snoc_inv in H1' as (k1 & t1 & n1 & e1 & R1 & A1 & ->), H2' as (k2 & t2 & n2 & e2 & R2 & A2 & ->).
    destruct (IH _ _ _ _ R1 R2) as [<- <-]. split; [|done]. by eapply apply_state_det.
Qed.

Lemma replays_sequence l k t : replays l k t ->
  k_last_applied_sequence k = Z.of_nat (length (batch_records l)) /\ k_last_applied_sequence k <= u64_max.
Proof.
  induction 1 as [|l k t c n k' events Hl [IH _] HH]; [done|]. apply apply_sequence in HH as (Hk & Hmax & _).
  rewrite batch_records_snoc, length_app. lia.
Qed.

Lemma replays_reachable l k t : replays l k t -> reachable k.
Proof. induction 1; [constructor|by econstructor]. Qed.

(** The loop of a full replay, as a replay of the journal. *)
Lemma replay_loop_replays l : forall a, rfold replay_batch_step (mkReplayed KernelState_default 0 None) l = Ok a ->
  replays l (rp_kernel a) (rp_pending_timer_scheduled_at a).
Proof.
  induction l as [|b l IH] using rev_ind; intros a HH; [injection HH as <-; constructor|].
  rewrite rfold_app in HH. step HH. cbn [rfold] in HH. step HH. injection HH as <-. specialize (IH _ eq_refl).
  unfold replay_batch_step in E0. step E0. destruct (apply _ _ _) as [[k1 ev1]|] eqn:Ea; [|done].
  cbn in E1. simplify_eq. steps E0. simplify_eq. by econstructor.
Qed.

Lemma replays_batches l k t : replays l k t -> Forall (fun b => cb_records b <> []) l.
Proof.
  induction 1 as [|l k t c n k' events Hl IH HH]; [done|]. apply Forall_app. split; [done|]. repeat constructor.
  apply apply_sequence in HH as (_ & _ & Hn & _). intros E. rewrite E in Hn. cbn in Hn. lia.
Qed.

(** A replay of one session's records follows no other session. *)
Lemma replays_session l k t sid : replays l k t -> Forall (fun r => rec_session_id r = sid) (batch_records l) ->
  k_session_id k = None \/ k_session_id k = Some sid.
Proof.
  induction 1 as [|l k t c n k' events Hl IH HH]; [by left|]. rewrite batch_records_snoc. intros [Hs Hc]%Forall_app.
  apply apply_step in HH as [cor [_ _ _ _ _ _ _ _ _ HH _]]. unfold apply_semantic_records in HH. step HH. injection HH as <- _.
  rewrite (Reach.sr_session _ _ (same_run_before_run a.1)). revert E.
  apply (records_ind (fun s1 => k_session_id s1 = None \/ k_session_id s1 = Some sid)); [done| |by apply IH].
  intros s1 record next s2 Hin Hs1 Hr. assert (rec_session_id record = sid) as Hsid.
  { rewrite Forall_forall in Hc. apply Hc. by rewrite with_next_fst in Hin. }
  destruct (is_accept (rec_body record)) eqn:Ha; [|by rewrite (Reach.sr_session _ _ (record_same_run _ _ _ _ Ha Hr))].
  apply apply_record_cases in Hr as [->|[u Hr]]; [done|]. unfold apply_body in Hr.
  destruct (rec_body record); try discriminate. injection Hr as <-. right. cbn. by rewrite Hsid.
Qed.

(** ** The next batch of a journal *)

Lemma covers_next s pre rest c : covers s (pre ++ rest) -> c ∈ pre ++ rest ->
  cb_first_sequence c = s + Z.of_nat (length (batch_records pre)) -> exists rest', rest = c :: rest'.
Proof.
  intros Hcov Hin Hf. apply covers_app in Hcov as [Hpre Hrest]. apply elem_of_app in Hin as [Hin|Hin].
  - exfalso. revert s Hpre Hrest Hf. induction pre as [|b pre IH]; intros s Hpre Hrest Hf; [by apply not_elem_of_nil in Hin|].
    assert (length (batch_records (b :: pre)) = length (cb_records b) + length (batch_records pre))%nat as Hlen
      by (unfold batch_records; cbn; by rewrite length_app).
    inversion Hpre as [|? ? ? Hne Hb Hla Hpre']; subst. assert (1 <= length (cb_records b))%nat by (destruct (cb_records b); [done|cbn; lia]).
    apply elem_of_cons in Hin as [->|Hin]; [lia|]. eapply (IH Hin _ Hpre'); [|lia].
    eapply (eq_rect _ (fun z => covers z rest) Hrest). lia.
  - inversion Hrest as [|? b bs Hne Hb Hla Hbs]; subst; [by apply not_elem_of_nil in Hin|].
    apply elem_of_cons in Hin as [->|Hin]; [by eexists|]. exfalso.
    apply list_elem_of_lookup in Hin as [i Hi]. rewrite <- (take_drop i bs) in Hbs. apply covers_app in Hbs as [_ Hbs].
    rewrite (drop_S _ _ _ Hi) in Hbs. inversion Hbs as [|? ? ? _ Hc _ _]; subst.
    assert (1 <= length (cb_records b))%nat by (destruct (cb_records b); [done|cbn; lia]). lia.
Qed.

(** The kernel is the replay of a prefix of the journal. *)
Definition replay_of (jb : list CommittedBatch) (k : KernelState) (t : option Timestamp) : Prop :=
  exists pre, pre `prefix_of` jb /\ replays pre k t.

Lemma replay_of_default jb : replay_of jb KernelState_default None.
Proof. exists []. split; [apply prefix_nil|constructor]. Qed.

Lemma replay_of_extend jb more k t : replay_of jb k t -> replay_of (jb ++ more) k t.
Proof. intros (pre & Hp & Hr). exists pre. split; [|done]. by apply prefix_app_r. Qed.

Lemma replay_of_apply jb k t c n k' events : covers 1 jb -> replay_of jb k t -> c ∈ jb -> apply k c n = Ok (k', events) ->
  replay_of jb k' (update_pending_timer_timestamp t c).
Proof.
  intros Hcov (pre & [rest ->] & Hr) Hin HH. pose proof (replays_sequence _ _ _ Hr) as [Hlen _].
  pose proof HH as (cor & [Hran _ _ _ _ _ _ _ _ _ _])%apply_step. apply validate_batch_range_inv in Hran as (Hf & _ & _ & _).
  destruct (covers_next _ _ _ _ Hcov Hin) as [rest' ->]; [lia|]. exists (pre ++ [c]). split; [by exists rest'; rewrite <- app_assoc|].
  by econstructor.
Qed.

(** ** Recovery yields replays *)

Lemma replay_batch_step_of jb a batch a' : covers 1 jb -> replay_of jb (rp_kernel a) (rp_pending_timer_scheduled_at a) ->
  batch ∈ jb -> replay_batch_step a batch = Ok a' -> replay_of jb (rp_kernel a') (rp_pending_timer_scheduled_at a').
Proof.
  intros Hcov Ha Hin HH. unfold replay_batch_step in HH. step HH. destruct a0 as [k ev]. step HH. injection HH as <-. cbn.
  destruct (apply _ _ _) as [[k1 ev1]|] eqn:Ea; [|done]. injection E as -> ->. by eapply replay_of_apply.
Qed.

Lemma replay_loop_of jb (f : Replayed -> CommittedBatch -> rresult Replayed) l : covers 1 jb -> Forall (fun b => b ∈ jb) l ->
  (forall a b a', f a b = Ok a' -> a' = a \/ replay_batch_step a b = Ok a') ->
  forall a a', replay_of jb (rp_kernel a) (rp_pending_timer_scheduled_at a) -> rfold f a l = Ok a' ->
  replay_of jb (rp_kernel a') (rp_pending_timer_scheduled_at a').
Proof.
  intros Hcov Hall Hf. induction Hall as [|b l Hb Hl IH]; intros a a' Ha HH; cbn [rfold] in HH; [by injection HH as <-|].
  step HH. apply Hf in E as [->|E]; [by eapply IH|]. eapply IH; [|exact HH]. by eapply replay_batch_step_of.
Qed.
End Replays.

(** What a snapshot of a prefix must carry to pass the checksum test. *)
Lemma sealed_snapshot_passes `{Half, Hasher, Wire, Serde, SnapshotWire} history acc n a full k loaded :
  honest_snapshot history acc n a -> rec_checksum <$> last (batch_records (take n history)) = Some (acr_head_checksum acc) ->
  rfold replay_batch_step (mkReplayed KernelState_default 0 None) history = Ok full ->
  linked None 1 (batch_records history) (ls_head_checksum loaded) -> ls_head_sequence loaded = k_last_applied_sequence (rp_kernel full) ->
  (k <= n)%nat -> ls_committed_batches loaded = drop k history -> snapshot_checksum_ok loaded acc = Ok tt.
Proof.
  intros [Hr _ Hq _] Hsum Hfull Hlink Hhead Hk Hb. apply fmap_Some in Hsum as (r & Hlast & Hsum).
  apply replay_loop_replays in Hfull, Hr. pose proof (replays_sequence _ _ _ Hfull) as [Hlen Hmax].
  pose proof (replays_sequence _ _ _ Hr) as [Hlenr _].
  eapply (snapshot_checksum_passes history n k); try done; [lia|lia|by eapply replays_batches|by rewrite Hq].
Qed.

Section Recovered.
Context `{Hasher, Serde, SnapshotWire}.

(** What a store may hand back for a session with this journal. *)
Record loaded_from (jb : list CommittedBatch) (sid : SessionId) (loaded : LoadedSession) : Prop := {
  lf_batches : Forall (fun b => b ∈ jb) (ls_committed_batches loaded);
  lf_snapshot : forall acc, ls_accelerated loaded = Some acc ->
    replay_of jb (acr_state acc) (acr_pending_timer_scheduled_at acc)
}.

Lemma replay_loaded_of jb sid loaded a used : covers 1 jb -> loaded_from jb sid loaded -> replay_loaded loaded = Ok (a, used) ->
  replay_of jb (rp_kernel a) (rp_pending_timer_scheduled_at a).
Proof.
  intros Hcov [Hb Hs] HH.
  assert (forall a, replay_from_default loaded = Ok a -> replay_of jb (rp_kernel a) (rp_pending_timer_scheduled_at a)) as Hdef.
  { intros a' HH'. unfold replay_from_default in HH'. step HH'. step HH'. injection HH' as <-.
    eapply (replay_loop_of jb replay_batch_step); [done|exact Hb|by right| |exact E]. apply replay_of_default. }
  unfold replay_loaded in HH. destruct (ls_accelerated loaded) as [acc|] eqn:Hacc; [|step HH; injection HH as <- <-; by apply Hdef].
  destruct (replay_from_snapshot loaded acc) as [a'|e] eqn:Hrs; [|step HH; injection HH as <- <-; by apply Hdef].
  injection HH as <- <-. unfold replay_from_snapshot in Hrs. do 3 step Hrs. destruct (Kernel_try_restore _) as [k|] eqn:Hk; [|done].
  injection E1 as ->. apply try_restore_same in Hk as ->. step Hrs. step Hrs. injection Hrs as <-.
  eapply (replay_loop_of jb (snapshot_batch_step (acr_sequence acc))); [done|exact Hb| | |exact E1].
  - intros x b x' Hx. unfold snapshot_batch_step in Hx. case_match; [injection Hx as <-; by left|]. step Hx. by right.
  - cbn. by apply Hs.
Qed.
End Recovered.
