(* ===== verification/Dispatch.v ===== *)
(** * Post-commit dispatch

    Models [exec/coordinator/dispatch.rs] of [finstack-ai-runtime]: when a
    post-commit action may run, and the seeds an effect driver is handed. *)

From S2P Require Import Prelude Primitives Effects Records State Inputs ToolBatch Policy ApplyStage ApplyTools ApplyEffects Apply.

(** ** Authorization *)

Definition committed_effect_request (committed : CommittedBatch) (effect_id : EffectId) : option EffectRequested :=
  find_map (fun record => match rec_body record with
                          | RecordBody_EffectRequested request =>
                              if req_effect_id request =?? effect_id then Some request else None
                          | _ => None
                          end) (cb_records committed).

Definition pending_effect_request (state : KernelState) (effect_id : EffectId) : option EffectRequested :=
  let tools := batch ← k_active_tool_batch state;
               find_map (fun c => match atc_status c with
                                  | ActiveToolCallStatus_Requested requested deferred =>
                                      if (req_effect_id requested =?? effect_id) && is_none deferred then Some requested else None
                                  | _ => None
                                  end) (atb_calls batch) in
  match k_pending_model_effect state with
  | Some pending =>
      if (req_effect_id (pme_requested pending) =?? effect_id) && is_none (pme_deferred pending)
      then Some (pme_requested pending) else tools
  | None => tools
  end.

Definition action_is_authorized (state : KernelState) (action : PostCommitAction) (now : Timestamp) (committed : CommittedBatch)
    : bool :=
  if is_some (k_terminal state) then false
  else match action with
       | PostCommitAction_ExecuteEffect effect_id =>
           if is_some (k_cancellation state) then false
           else is_some_and (or_else (committed_effect_request committed effect_id) (pending_effect_request state effect_id))
                  (fun request => is_none_or (req_deadline request) (fun deadline => now <? deadline))
       | PostCommitAction_CancelEffect effect_id =>
           is_some_and (k_cancellation state) (fun value => bool_decide (effect_id ∈ cs_outstanding_effects value))
       end.

(** ** Seeds *)

Record AuthorizationContext : Type := mkAuthorizationContext {
  auc_principal : PrincipalRef;
  auc_authentication_method : string;
  auc_assurance_level : string;
  auc_roles : list string;
  auc_permitted_scopes : list string;
  auc_safe_claims : Metadata;
  auc_policy_version : string;
  auc_decision_id : string
}.

Record ModelDispatchSeed : Type := mkModelDispatchSeed {
  mds_pending : PendingModelEffect;
  mds_locator : OperationLocator;
  mds_authorization : AuthorizationContext;
  mds_budget_scope_id : option BudgetScopeId;
  mds_attempt : Z;
  mds_requested_at : Timestamp;
  mds_continuation_state : option RawJson;
  mds_relation_depth : Z
}.

Record ToolDispatchSeed : Type := mkToolDispatchSeed {
  tds_requested : EffectRequested;
  tds_tool_batch_id : ToolBatchId;
  tds_tool_call_id : ToolCallId;
  tds_call : ValidatedToolCall;
  tds_locator : OperationLocator;
  tds_authorization : AuthorizationContext;
  tds_budget_scope_id : option BudgetScopeId;
  tds_attempt : Z;
  tds_requested_at : Timestamp;
  tds_relation_depth : Z
}.

Record TimerDispatchSeed : Type := mkTimerDispatchSeed {
  tis_scheduled : RetryScheduled;
  tis_scheduled_at : Timestamp
}.

Record ContextDispatchSeed : Type := mkContextDispatchSeed {
  cds_requested : EffectRequested;
  cds_envelope : RecordEnvelope;
  cds_locator : OperationLocator;
  cds_authorization : AuthorizationContext;
  cds_budget_scope_id : option BudgetScopeId;
  cds_attempt : Z;
  cds_relation_depth : Z
}.

Record StageDispatchSeed : Type := mkStageDispatchSeed {
  sds_locator : OperationLocator;
  sds_authorization : AuthorizationContext;
  sds_budget_scope_id : option BudgetScopeId;
  sds_attempt : Z;
  sds_deadline : option Timestamp;
  sds_relation_depth : Z;
  sds_compaction_authorization : option CompactionAuthorization
}.

Record RuntimeDispatch : Type := mkRuntimeDispatch {
  rd_action : PostCommitAction;
  rd_model : option ModelDispatchSeed;
  rd_tool : option ToolDispatchSeed;
  rd_timer : option TimerDispatchSeed;
  rd_context : option ContextDispatchSeed
}.

Definition OperationLocator_try_new (tenant_scope : string) (session_id : SessionId) (lane_id : LaneId) (run_id : RunId)
    : option OperationLocator :=
  if label_is_valid tenant_scope then Some (mkOperationLocator tenant_scope session_id lane_id run_id) else None.

Definition dispatch_security_context (state : KernelState)
    : option (OperationLocator * AuthorizationContext * option BudgetScopeId) :=
  accepted ← k_accepted state;
  let security := ra_security accepted in
  session_id ← k_session_id state;
  lane_id ← k_lane_id state;
  locator ← OperationLocator_try_new (rsc_tenant_scope security) session_id lane_id (ra_run_id accepted);
  Some (locator,
        mkAuthorizationContext (rsc_principal security) (rsc_authentication_method security) (rsc_assurance_level security)
          [] [rsc_tenant_scope security] METADATA_EMPTY (rsc_authorization_policy_version security)
          (rsc_authorization_decision_id security),
        rr_budget_scope_id (ra_relation accepted)).

Definition relation_depth_from_state (state : KernelState) : Z :=
  match k_accepted state with Some accepted => rr_depth (ra_relation accepted) | None => 0 end.

Definition effect_requested_at (committed : CommittedBatch) (effect_id : EffectId) : option Timestamp :=
  find_map (fun record => match rec_body record with
                          | RecordBody_EffectRequested request =>
                              if req_effect_id request =?? effect_id then Some (rec_timestamp record) else None
                          | _ => None
                          end) (cb_records committed).

Definition executed_effect (action : PostCommitAction) : option EffectId :=
  match action with PostCommitAction_ExecuteEffect effect_id => Some effect_id | _ => None end.

Definition model_dispatch_seed (state : KernelState) (action : PostCommitAction) (committed : CommittedBatch)
    (continuation_state : option RawJson) : option ModelDispatchSeed :=
  effect_id ← executed_effect action;
  pending ← k_pending_model_effect state;
  if (req_effect_id (pme_requested pending) <>?? effect_id) || is_some (pme_deferred pending) then None
  else
    '(locator, authorization, budget_scope_id) ← dispatch_security_context state;
    attempt ← u32_checked_add (rst_attempts (k_retry state)) 1;
    requested_at ← effect_requested_at committed effect_id;
    Some (mkModelDispatchSeed pending locator authorization budget_scope_id attempt requested_at continuation_state
            (relation_depth_from_state state)).

(** A call that is requested and not deferred, with its validated plan. *)
Definition requested_call (c : ActiveToolCall) : option EffectRequested :=
  match atc_status c with ActiveToolCallStatus_Requested requested None => Some requested | _ => None end.
Definition executable_call (c : ActiveToolCall) : option ValidatedToolCall :=
  match asg_plan (atc_assigned c) with ToolCallPlan_Execute call => Some call | _ => None end.

Definition tool_dispatch_seed (state : KernelState) (action : PostCommitAction) (committed : CommittedBatch)
    : option ToolDispatchSeed :=
  effect_id ← executed_effect action;
  batch ← k_active_tool_batch state;
  active ← find_map (fun c => if (asg_effect_id (atc_assigned c) =?? effect_id) && is_some (requested_call c) then Some c else None)
             (atb_calls batch);
  requested ← requested_call active;
  validated ← executable_call active;
  '(locator, authorization, budget_scope_id) ← dispatch_security_context state;
  requested_at ← effect_requested_at committed effect_id;
  Some (mkToolDispatchSeed requested (tbo_tool_batch_id (atb_opened batch)) (tc_tool_call_id (vt_call validated)) validated
          locator authorization budget_scope_id 1 requested_at (relation_depth_from_state state)).

Definition timer_dispatch_seed (state : KernelState) (action : PostCommitAction) (scheduled_at : option Timestamp)
    : option TimerDispatchSeed :=
  effect_id ← executed_effect action;
  scheduled ← rst_pending (k_retry state);
  scheduled_at ← scheduled_at;
  if rs_timer_effect_id scheduled =?? effect_id then Some (mkTimerDispatchSeed scheduled scheduled_at) else None.

Definition context_dispatch_seed (state : KernelState) (action : PostCommitAction) (committed : CommittedBatch)
    : option ContextDispatchSeed :=
  effect_id ← executed_effect action;
  '(envelope, requested) ← find_map (fun record =>
      match rec_body record with
      | RecordBody_EffectRequested request =>
          if (req_effect_id request =?? effect_id) && (req_kind request =?? EffectKind_Context) then Some (record, request) else None
      | _ => None
      end) (cb_records committed);
  '(locator, authorization, budget_scope_id) ← dispatch_security_context state;
  attempt ← u32_checked_add (rst_attempts (k_retry state)) 1;
  Some (mkContextDispatchSeed requested envelope locator authorization budget_scope_id attempt (relation_depth_from_state state)).

(** ** Seeds rebuilt from committed state *)

Definition pending_timer_seed (state : KernelState) (scheduled_at : option Timestamp) : option TimerDispatchSeed :=
  scheduled ← rst_pending (k_retry state);
  scheduled_at ← scheduled_at;
  Some (mkTimerDispatchSeed scheduled scheduled_at).

Definition pending_model_seed (state : KernelState) (continuation_state : option RawJson) : option ModelDispatchSeed :=
  pending ← k_pending_model_effect state;
  '(locator, authorization, budget_scope_id) ← dispatch_security_context state;
  attempt ← u32_checked_add (rst_attempts (k_retry state)) 1;
  requested_at ← k_accepted_at state;
  Some (mkModelDispatchSeed pending locator authorization budget_scope_id attempt requested_at continuation_state
          (relation_depth_from_state state)).

Definition pending_tool_seeds (state : KernelState) : list ToolDispatchSeed :=
  match k_active_tool_batch state, dispatch_security_context state, k_accepted_at state with
  | Some batch, Some (locator, authorization, budget_scope_id), Some requested_at =>
      omap (fun c => requested ← requested_call c;
                     validated ← executable_call c;
                     Some (mkToolDispatchSeed requested (tbo_tool_batch_id (atb_opened batch)) (tc_tool_call_id (vt_call validated))
                             validated locator authorization budget_scope_id 1 requested_at (relation_depth_from_state state)))
        (atb_calls batch)
  | _, _, _ => []
  end.

Definition tool_seed (state : KernelState) (effect_id : EffectId) : option ToolDispatchSeed :=
  batch ← k_active_tool_batch state;
  c ← call batch effect_id;
  requested ← match atc_status c with ActiveToolCallStatus_Requested requested _ => Some requested | _ => None end;
  validated ← executable_call c;
  '(locator, authorization, budget_scope_id) ← dispatch_security_context state;
  requested_at ← k_accepted_at state;
  Some (mkToolDispatchSeed requested (tbo_tool_batch_id (atb_opened batch)) (tc_tool_call_id (vt_call validated)) validated
          locator authorization budget_scope_id 1 requested_at (relation_depth_from_state state)).

Definition stage_dispatch_seed (state : KernelState) : option StageDispatchSeed :=
  '(locator, authorization, budget_scope_id) ← dispatch_security_context state;
  accepted ← k_accepted state;
  attempt ← u32_checked_add (rst_attempts (k_retry state)) 1;
  Some (mkStageDispatchSeed locator authorization budget_scope_id attempt (ra_effective_deadline accepted)
          (rr_depth (ra_relation accepted)) (rsc_compaction_authorization (ra_security accepted))).
