(* ===== verification/Coordinator.v ===== *)
(** * The commit coordinator

    Models [exec/coordinator/mod.rs], [submit.rs] and [session_commit.rs] of
    [finstack-ai-runtime]: one command through decide, append, apply and
    dispatch, with one reload after a sequence conflict.  The journal is the
    class [JournalStore], the port's operations as functions on the store's
    state; the effect driver and the event hub are the class [Host].  A call on
    either may find that other writers or drivers ran since the last one: that is
    a store or a host whose operation moves further than the call alone.

    The coordinator's state, the store and the host are threaded by a small
    state and error monad: an error keeps the changes made before it.  Left out
    of the state are the live-state publisher, which only observes, the manual
    drive gate of tests, and what the facade installs for the stage driver. *)

From S2P Require Import Prelude Ids Floats Cbor CborCodec CborDecode Serializer.
From S2P Require Import Primitives Effects Records State Inputs ToolBatch Digests Policy ApplyStage ApplyTools ApplyEffects ApplyRecord Shapes Events Apply Decide Reducer.
From S2P Require Import Conversation Validate Chain Append Snapshot Store Recover Dispatch.

(** ** Ports *)

Class JournalStore (S : Type) : Type := {
  js_append : S -> AppendRequest -> S * sresult CommittedBatch;
  js_load : S -> SessionId -> S * sresult LoadedSession;
  js_load_from : S -> LoadFromRequest -> S * sresult LoadedSession;
  js_write_state_snapshot : S -> StateSnapshotRequest -> S * sresult unit
}.

Class Host (W : Type) : Type := {
  host_validate_before_commit : W -> KernelInput -> result unit string;
  host_publish : W -> list RunEvent -> W * result unit string;
  host_dispatch : W -> RuntimeDispatch -> W * result unit string
}.

(** ** State *)

Inductive CommitCoordinatorError : Type :=
| CommitCoordinatorError_SidecarConflict
| CommitCoordinatorError_Faulted (code : string)
| CommitCoordinatorError_Decision (error : KernelError)
| CommitCoordinatorError_ModelRequest (code : string)
| CommitCoordinatorError_AppendBatchIdCardinality
| CommitCoordinatorError_Store (error : StoreError)
| CommitCoordinatorError_BoundaryFault (code : string)
| CommitCoordinatorError_EventDelivery (code : string).

Record CommitOutcome : Type := mkCommitOutcome {
  out_committed : option CommittedBatch;
  out_events : list RunEvent;
  out_diagnostics : list Diagnostic;
  out_dispatched_actions : nat;
  out_fault : option string
}.

Record CommitCoordinator : Type := mkCommitCoordinator {
  co_kernel : KernelState;
  co_session : SessionProjection;
  co_next_transient_sequence : Z;
  co_pending_timer_scheduled_at : option Timestamp;
  co_snapshot_every_n_records : Z;
  co_last_snapshot_sequence : option Z;
  co_head_checksum : option Digest;
  co_fault : option string;
  co_last_store_reason : option StoreError;
  co_dispatcher : bool;
  co_event_publisher : bool;
  co_replay_scope : ReplayScope;
  co_last_model_continuation : option RawJson;
  co_replayed_completed_effects : gmap EffectId (EffectRequested * EffectCompleted);
  co_replayed_extension_envelopes : gmap EffectId RecordEnvelope
}.

Definition SNAPSHOT_EVERY_N_RECORDS : Z := 32.
Definition SessionProjection_default : SessionProjection := mkSessionProjection None METADATA_EMPTY ∅ ∅ ∅ ∅.

Definition CommitCoordinator_new : CommitCoordinator :=
  mkCommitCoordinator KernelState_default SessionProjection_default 0 None SNAPSHOT_EVERY_N_RECORDS None None None None false
    false ReplayScope_Primary None ∅ ∅.

Definition set_co_kernel (v : KernelState) (c : CommitCoordinator) : CommitCoordinator :=
  mkCommitCoordinator v (co_session c) (co_next_transient_sequence c) (co_pending_timer_scheduled_at c) (co_snapshot_every_n_records c) (co_last_snapshot_sequence c) (co_head_checksum c) (co_fault c) (co_last_store_reason c) (co_dispatcher c) (co_event_publisher c) (co_replay_scope c) (co_last_model_continuation c) (co_replayed_completed_effects c) (co_replayed_extension_envelopes c).
Definition set_co_session (v : SessionProjection) (c : CommitCoordinator) : CommitCoordinator :=
  mkCommitCoordinator (co_kernel c) v (co_next_transient_sequence c) (co_pending_timer_scheduled_at c) (co_snapshot_every_n_records c) (co_last_snapshot_sequence c) (co_head_checksum c) (co_fault c) (co_last_store_reason c) (co_dispatcher c) (co_event_publisher c) (co_replay_scope c) (co_last_model_continuation c) (co_replayed_completed_effects c) (co_replayed_extension_envelopes c).
Definition set_co_next_transient_sequence (v : Z) (c : CommitCoordinator) : CommitCoordinator :=
  mkCommitCoordinator (co_kernel c) (co_session c) v (co_pending_timer_scheduled_at c) (co_snapshot_every_n_records c) (co_last_snapshot_sequence c) (co_head_checksum c) (co_fault c) (co_last_store_reason c) (co_dispatcher c) (co_event_publisher c) (co_replay_scope c) (co_last_model_continuation c) (co_replayed_completed_effects c) (co_replayed_extension_envelopes c).
Definition set_co_pending_timer_scheduled_at (v : option Timestamp) (c : CommitCoordinator) : CommitCoordinator :=
  mkCommitCoordinator (co_kernel c) (co_session c) (co_next_transient_sequence c) v (co_snapshot_every_n_records c) (co_last_snapshot_sequence c) (co_head_checksum c) (co_fault c) (co_last_store_reason c) (co_dispatcher c) (co_event_publisher c) (co_replay_scope c) (co_last_model_continuation c) (co_replayed_completed_effects c) (co_replayed_extension_envelopes c).
Definition set_co_snapshot_every_n_records (v : Z) (c : CommitCoordinator) : CommitCoordinator :=
  mkCommitCoordinator (co_kernel c) (co_session c) (co_next_transient_sequence c) (co_pending_timer_scheduled_at c) v (co_last_snapshot_sequence c) (co_head_checksum c) (co_fault c) (co_last_store_reason c) (co_dispatcher c) (co_event_publisher c) (co_replay_scope c) (co_last_model_continuation c) (co_replayed_completed_effects c) (co_replayed_extension_envelopes c).
Definition set_co_last_snapshot_sequence (v : option Z) (c : CommitCoordinator) : CommitCoordinator :=
  mkCommitCoordinator (co_kernel c) (co_session c) (co_next_transient_sequence c) (co_pending_timer_scheduled_at c) (co_snapshot_every_n_records c) v (co_head_checksum c) (co_fault c) (co_last_store_reason c) (co_dispatcher c) (co_event_publisher c) (co_replay_scope c) (co_last_model_continuation c) (co_replayed_completed_effects c) (co_replayed_extension_envelopes c).
Definition set_co_head_checksum (v : option Digest) (c : CommitCoordinator) : CommitCoordinator :=
  mkCommitCoordinator (co_kernel c) (co_session c) (co_next_transient_sequence c) (co_pending_timer_scheduled_at c) (co_snapshot_every_n_records c) (co_last_snapshot_sequence c) v (co_fault c) (co_last_store_reason c) (co_dispatcher c) (co_event_publisher c) (co_replay_scope c) (co_last_model_continuation c) (co_replayed_completed_effects c) (co_replayed_extension_envelopes c).
Definition set_co_fault (v : option string) (c : CommitCoordinator) : CommitCoordinator :=
  mkCommitCoordinator (co_kernel c) (co_session c) (co_next_transient_sequence c) (co_pending_timer_scheduled_at c) (co_snapshot_every_n_records c) (co_last_snapshot_sequence c) (co_head_checksum c) v (co_last_store_reason c) (co_dispatcher c) (co_event_publisher c) (co_replay_scope c) (co_last_model_continuation c) (co_replayed_completed_effects c) (co_replayed_extension_envelopes c).
Definition set_co_last_store_reason (v : option StoreError) (c : CommitCoordinator) : CommitCoordinator :=
  mkCommitCoordinator (co_kernel c) (co_session c) (co_next_transient_sequence c) (co_pending_timer_scheduled_at c) (co_snapshot_every_n_records c) (co_last_snapshot_sequence c) (co_head_checksum c) (co_fault c) v (co_dispatcher c) (co_event_publisher c) (co_replay_scope c) (co_last_model_continuation c) (co_replayed_completed_effects c) (co_replayed_extension_envelopes c).
Definition set_co_replay_scope (v : ReplayScope) (c : CommitCoordinator) : CommitCoordinator :=
  mkCommitCoordinator (co_kernel c) (co_session c) (co_next_transient_sequence c) (co_pending_timer_scheduled_at c) (co_snapshot_every_n_records c) (co_last_snapshot_sequence c) (co_head_checksum c) (co_fault c) (co_last_store_reason c) (co_dispatcher c) (co_event_publisher c) v (co_last_model_continuation c) (co_replayed_completed_effects c) (co_replayed_extension_envelopes c).
Definition set_co_last_model_continuation (v : option RawJson) (c : CommitCoordinator) : CommitCoordinator :=
  mkCommitCoordinator (co_kernel c) (co_session c) (co_next_transient_sequence c) (co_pending_timer_scheduled_at c) (co_snapshot_every_n_records c) (co_last_snapshot_sequence c) (co_head_checksum c) (co_fault c) (co_last_store_reason c) (co_dispatcher c) (co_event_publisher c) (co_replay_scope c) v (co_replayed_completed_effects c) (co_replayed_extension_envelopes c).
Definition set_co_replayed (completed : gmap EffectId (EffectRequested * EffectCompleted)) (envelopes : gmap EffectId RecordEnvelope)
    (c : CommitCoordinator) : CommitCoordinator :=
  mkCommitCoordinator (co_kernel c) (co_session c) (co_next_transient_sequence c) (co_pending_timer_scheduled_at c) (co_snapshot_every_n_records c) (co_last_snapshot_sequence c) (co_head_checksum c) (co_fault c) (co_last_store_reason c) (co_dispatcher c) (co_event_publisher c) (co_replay_scope c) (co_last_model_continuation c) completed envelopes.

(** ** Recovery *)

Section Recovery.
Context `{Hasher, Serde, SnapshotWire, Continuations}.

Definition STRUCTURAL_EVERY_N_RECORDS : Z := u64_max.

Definition CommitCoordinator_from_loaded (loaded : LoadedSession) (scope : ReplayScope) (every_n_records : Z)
    : result CommitCoordinator CommitCoordinatorError :=
  let? '(replayed, used_snapshot) := map_err CommitCoordinatorError_BoundaryFault (replay_scoped loaded scope) in
  let? continuation := map_err CommitCoordinatorError_BoundaryFault (continuation_after_replay loaded scope used_snapshot) in
  let? session := map_err CommitCoordinatorError_BoundaryFault (project_loaded loaded) in
  Ok (mkCommitCoordinator (rp_kernel replayed) session (rp_next_transient_sequence replayed)
        (rp_pending_timer_scheduled_at replayed) every_n_records (used_snapshot_sequence loaded used_snapshot)
        (ls_head_checksum loaded) None None false false scope continuation (completed_effect_pairs loaded)
        (extension_request_envelopes loaded)).

Definition CommitCoordinator_structural_from_loaded (loaded : LoadedSession) (session : SessionProjection)
    : result CommitCoordinator CommitCoordinatorError :=
  let? kernel := map_err CommitCoordinatorError_BoundaryFault (adopt_session_head KernelState_default (ls_head_sequence loaded)) in
  Ok (set_co_head_checksum (ls_head_checksum loaded) (set_co_session session (set_co_kernel kernel
        (set_co_snapshot_every_n_records STRUCTURAL_EVERY_N_RECORDS
           (set_co_replay_scope ReplayScope_StructuralOnly CommitCoordinator_new))))).
End Recovery.

(** ** Records of a commit *)

Definition committed_matches_request (committed : CommittedBatch) (request : AppendRequest) : bool :=
  if (cb_batch_id committed <>?? apr_batch_id request)
     || negb (cb_first_sequence committed =? apr_expected_sequence request)
     || negb (length (cb_records committed) =? length (apr_records request))%nat
  then false
  else
    let expected_last := u64_checked_add (apr_expected_sequence request) (u64_of_usize (length (apr_records request) - 1)) in
    if expected_last <>?? Some (cb_last_sequence committed) then false
    else forallb (fun rd : RecordEnvelope * RecordDraft =>
           let '(record, draft) := rd in
           (rec_record_id record =?? dr_record_id draft) && (rec_session_id record =?? dr_session_id draft)
           && (rec_lane_id record =?? dr_lane_id draft) && (rec_run_id record =?? dr_run_id draft)
           && (rec_timestamp record =?? dr_timestamp draft) && (rec_derived_event_ids record =?? dr_derived_event_ids draft)
           && (comparable_body (rec_body record) =?? comparable_body (dr_body draft)))
           (zip (cb_records committed) (apr_records request)).

Inductive CompositionRecordStatus : Type :=
| CompositionRecordStatus_Absent
| CompositionRecordStatus_Equal
| CompositionRecordStatus_Conflict.

(** Whether the state already holds what the record would add, and if it is the
    same; the outer [None] is a record of another family. *)
Definition composition_comparison (state : KernelState) (body : RecordBody) : option (option bool) :=
  match body with
  | RecordBody_ChildRunPrepared value =>
      Some ((fun existing => existing =?? value) <$> k_child_preparations state !! crp_parent_effect_id value)
  | RecordBody_BudgetReservationRequested value =>
      Some ((fun existing => brp_request existing =?? brd_request value)
              <$> k_budget_reservations state !! brq_reservation_id (brd_request value))
  | RecordBody_BudgetReservationSettled value =>
      Some ((fun existing => existing =?? brs_receipt value)
              <$> (k_budget_reservations state !! brr_reservation_id (brs_receipt value) ≫= brp_settlement))
  | RecordBody_BudgetChargeRecorded value =>
      Some ((fun existing => existing =?? bch_receipt value) <$> k_budget_charges state !! bcr_effect_id (bch_receipt value))
  | RecordBody_BudgetReservationReleased value =>
      Some ((fun existing => existing =?? bre_receipt value)
              <$> (k_budget_reservations state !! brl_reservation_id (bre_receipt value) ≫= brp_release))
  | _ => None
  end.

Fixpoint classify_loop (state : KernelState) (records : list RecordDraft) (present total : nat) : CompositionRecordStatus :=
  match records with
  | [] => if (present =? total)%nat then CompositionRecordStatus_Equal else CompositionRecordStatus_Absent
  | record :: records =>
      match composition_comparison state (dr_body record) with
      | None => CompositionRecordStatus_Conflict
      | Some (Some true) => classify_loop state records (Datatypes.S present) total
      | Some (Some false) => CompositionRecordStatus_Conflict
      | Some None => classify_loop state records present total
      end
  end.

Definition classify_composition_records (state : KernelState) (records : list RecordDraft) : CompositionRecordStatus :=
  classify_loop state records 0 (length records).

Definition is_composition_body (body : RecordBody) : bool :=
  match body with
  | RecordBody_ChildRunPrepared _ | RecordBody_BudgetReservationRequested _ | RecordBody_BudgetReservationSettled _
  | RecordBody_BudgetChargeRecorded _ | RecordBody_BudgetReservationReleased _ => true
  | _ => false
  end.

Definition no_events (draft : RecordDraft) : bool := match dr_derived_event_ids draft with [] => true | _ => false end.

(** ** Session records *)

Definition session_records_invalid : CommitCoordinatorError := CommitCoordinatorError_BoundaryFault "session_records_invalid".

Section SessionRecords.
Context `{Hasher}.

(** Conversation entries carry the sequence they will be committed at. *)
Definition align_draft (first_sequence : Z) (entry : nat * RecordDraft) : result RecordDraft CommitCoordinatorError :=
  let '(offset, draft) := entry in
  let? sequence := ok_or (u64_checked_add first_sequence (u64_of_usize offset))
                     (CommitCoordinatorError_BoundaryFault "session_sequence_overflow") in
  match dr_body draft with
  | RecordBody_ConversationEntry entry =>
      if ce_sequence entry =? sequence then Ok draft
      else
        let? aligned := map_err (fun _ => session_records_invalid)
                          (ConversationEntry_try_new (ce_id entry) (ce_parent_id entry) (ce_lane_id entry) sequence (ce_body entry)) in
        ok_or (RecordDraft_try_new (dr_format_version draft) (dr_kind_version draft) (dr_record_id draft) (dr_session_id draft)
                 (dr_lane_id draft) (dr_run_id draft) (dr_timestamp draft) (dr_derived_event_ids draft)
                 (RecordBody_ConversationEntry aligned)) session_records_invalid
  | _ => Ok draft
  end.

Definition align_conversation_sequences (records : list RecordDraft) (first_sequence : Z)
    : result (list RecordDraft) CommitCoordinatorError :=
  rfold (fun aligned entry => let? draft := align_draft first_sequence entry in Ok (aligned ++ [draft])) [] (enumerate records).

Definition session_draft (record_id : RecordId) (session_id : SessionId) (lane_id : LaneId) (timestamp : Timestamp) (body : RecordBody)
    : result RecordDraft CommitCoordinatorError :=
  ok_or (RecordDraft_try_new RECORD_FORMAT_VERSION RECORD_KIND_VERSION record_id session_id lane_id None timestamp [] body)
    session_records_invalid.

Definition preview_session_records (session : SessionProjection) (records : list RecordDraft) : result unit CommitCoordinatorError :=
  let? _ := map_err (fun _ => session_records_invalid) (preview_structural_drafts session records) in Ok tt.

(** The last byte of the identity is changed. *)
Definition lane_moved_record_id (entry_id : EntryId) : RecordId := N.lxor entry_id 165.

(** The conversation entry and the lane move that stand beside one message. *)
Definition sibling_step (session : SessionProjection) (drafts : list RecordDraft) (record : RecordEnvelope)
    : result (list RecordDraft) CommitCoordinatorError :=
  if is_none (sp_lanes session !! rec_lane_id record) then Ok drafts
  else
    match match rec_body record with
          | RecordBody_EntryAppended entry => Some (ea_message entry)
          | RecordBody_ToolCallSettled settled => Some (tcs_message settled)
          | _ => None
          end with
    | None => Ok drafts
    | Some message =>
        let parent_id := sp_entries session !! msg_id message ≫= ce_parent_id in
        let? entry := map_err (fun _ => session_records_invalid)
                        (ConversationEntry_from_message message parent_id (rec_lane_id record) 0) in
        let? entry_draft := session_draft (ce_id entry) (rec_session_id record) (rec_lane_id record) (rec_timestamp record)
                              (RecordBody_ConversationEntry entry) in
        let? move_draft := session_draft (lane_moved_record_id (ce_id entry)) (rec_session_id record) (rec_lane_id record)
                             (rec_timestamp record) (RecordBody_LaneMoved (mkLaneMoved (ce_id entry))) in
        Ok (drafts ++ [entry_draft; move_draft])
    end.

Definition sibling_drafts (session : SessionProjection) (committed : CommittedBatch)
    : result (list RecordDraft) CommitCoordinatorError :=
  rfold (sibling_step session) [] (cb_records committed).

End SessionRecords.

(** ** The monad *)

Section Submit.
Context `{Hasher, Serde, SnapshotWire, Continuations} {S W : Type} `{!JournalStore S, !Host W}.

Record System : Type := mkSystem {
  sys_co : CommitCoordinator;
  sys_store : S;
  sys_host : W
}.

Definition M (A : Type) : Type := System -> System * result A CommitCoordinatorError.

Definition ret {A} (a : A) : M A := fun s => (s, Ok a).
Definition throw {A} (e : CommitCoordinatorError) : M A := fun s => (s, Err e).
Definition bind {A B} (m : M A) (k : A -> M B) : M B :=
  fun s => match m s with (s', Ok a) => k a s' | (s', Err e) => (s', Err e) end.
Definition lift {A} (r : result A CommitCoordinatorError) : M A := fun s => (s, r).
Definition get : M CommitCoordinator := fun s => (s, Ok (sys_co s)).
Definition modify (f : CommitCoordinator -> CommitCoordinator) : M unit :=
  fun s => (mkSystem (f (sys_co s)) (sys_store s) (sys_host s), Ok tt).
(** A call on the store or the host; its error is a value. *)
Definition on_store {A} (f : S -> S * A) : M A :=
  fun s => let '(store, a) := f (sys_store s) in (mkSystem (sys_co s) store (sys_host s), Ok a).
Definition on_host {A} (f : W -> W * A) : M A :=
  fun s => let '(host, a) := f (sys_host s) in (mkSystem (sys_co s) (sys_store s) host, Ok a).

Notation "'let!' x ':=' m 'in' k" := (bind m (fun x => k)) (at level 10, x name, m at level 100, k at level 200).
Notation "'do!' m 'in' k" := (bind m (fun _ => k)) (at level 10, m at level 100, k at level 200).

Definition boundary_fault {A} (code : string) : M A :=
  do! modify (set_co_fault (Some code)) in throw (CommitCoordinatorError_BoundaryFault code).
Definition boundary_fault_with_store {A} (code : string) (error : StoreError) : M A :=
  do! modify (set_co_last_store_reason (Some error)) in boundary_fault code.
(** A fallible step whose error faults the run. *)
Definition or_fault {A} (r : rresult A) : M A := match r with Ok a => ret a | Err code => boundary_fault code end.

(** ** Appending *)

Definition append_frozen (frozen : AppendRequest) : M (sresult CommittedBatch) :=
  let! r := on_store (fun s => js_append s frozen) in
  match r with
  | Err StoreError_AmbiguousAcknowledgement => on_store (fun s => js_append s frozen)
  | r => ret r
  end.

Definition sidecar_append_error {A} (error : StoreError) : M A :=
  match error with
  | StoreError_AmbiguousAcknowledgement => boundary_fault "continued_ambiguous_acknowledgement"
  | StoreError_Corruption _ | StoreError_Integrity _ => boundary_fault_with_store "store_integrity_uncertain" error
  | _ => throw (CommitCoordinatorError_Store error)
  end.

(** ** Reloading *)

(** [apply_batch_to_session(&mut self.session, batch)], with its error as a fault. *)
Definition project_batch (batch : CommittedBatch) : M unit :=
  let! co := get in
  let '(session, r) := apply_batch_to_session (co_session co) batch in
  do! modify (set_co_session session) in
  or_fault r.

Definition apply_batches_to_session (batches : list CommittedBatch) : M unit :=
  foldr (fun batch k => do! project_batch batch in k) (ret tt) batches.

Definition reload_from_loaded (loaded : LoadedSession) : M unit :=
  let! co := get in
  let prior := co_next_transient_sequence co in
  let! r := or_fault (replay_scoped loaded (co_replay_scope co)) in
  let '(replayed, used_snapshot) := r in
  do! modify (set_co_kernel (rp_kernel replayed)) in
  do! modify (set_co_next_transient_sequence (Z.max prior (rp_next_transient_sequence replayed))) in
  do! modify (set_co_pending_timer_scheduled_at (rp_pending_timer_scheduled_at replayed)) in
  let! continuation := or_fault (continuation_after_replay loaded (co_replay_scope co) used_snapshot) in
  do! modify (set_co_last_model_continuation continuation) in
  do! modify (set_co_replayed (completed_effect_pairs loaded) (extension_request_envelopes loaded)) in
  do! modify (set_co_last_snapshot_sequence (used_snapshot_sequence loaded used_snapshot)) in
  do! modify (set_co_head_checksum (ls_head_checksum loaded)) in
  if omits_prefix loaded then apply_batches_to_session (ls_committed_batches loaded)
  else let! session := or_fault (project_loaded loaded) in modify (set_co_session session).

Definition catch_up_structural (loaded : LoadedSession) : M unit :=
  do! apply_batches_to_session (ls_committed_batches loaded) in
  let! co := get in
  let! kernel := or_fault (adopt_session_head (co_kernel co) (ls_head_sequence loaded)) in
  do! modify (set_co_kernel kernel) in
  modify (set_co_head_checksum (ls_head_checksum loaded)).

Definition reload_full (session_id : SessionId) (fault_code : string) : M unit :=
  let! r := on_store (fun s => js_load s session_id) in
  match r with
  | Ok loaded => reload_from_loaded loaded
  | Err _ => boundary_fault fault_code
  end.

Definition reload_after_conflict (session_id : SessionId) (fault_code : string) : M unit :=
  let! co := get in
  let from_sequence := u64_saturating_add (k_last_applied_sequence (co_kernel co)) 1 in
  match co_replay_scope co, co_head_checksum co with
  | ReplayScope_StructuralOnly, Some prior_checksum =>
      if 1 <? from_sequence then
        let! r := on_store (fun s => js_load_from s (mkLoadFromRequest session_id (LoadWindow_FromSequence from_sequence prior_checksum))) in
        match r with
        | Ok loaded => catch_up_structural loaded
        | Err _ => boundary_fault fault_code
        end
      else reload_full session_id fault_code
  | _, _ => reload_full session_id fault_code
  end.

(** ** Applying a committed batch *)

Definition note_head_checksum (committed : CommittedBatch) : M unit :=
  modify (set_co_head_checksum (rec_checksum <$> last (cb_records committed))).

Definition apply_committed_session (committed : CommittedBatch) : M unit :=
  do! project_batch committed in
  note_head_checksum committed.

(** [self.kernel.apply], with the fault code of the call site. *)
Definition kernel_apply (committed : CommittedBatch) (fault_code : string) : M (list RunEvent) :=
  let! co := get in
  match apply (co_kernel co) committed (co_next_transient_sequence co) with
  | Ok (kernel, events) => do! modify (set_co_kernel kernel) in ret events
  | Err _ => boundary_fault fault_code
  end.

(** ** Sidecar commits *)

Definition next_sequence (fault_code : string) : M Z :=
  let! co := get in
  match u64_checked_add (k_last_applied_sequence (co_kernel co)) 1 with
  | Some sequence => ret sequence
  | None => boundary_fault fault_code
  end.

(** The zero-event apply at the end of both sidecar loops. *)
Definition finish_sidecar (committed : CommittedBatch) (apply_failed emitted_events : string) : M (option CommittedBatch) :=
  let! events := kernel_apply committed apply_failed in
  match events with
  | [] => do! apply_committed_session committed in ret (Some committed)
  | _ => boundary_fault emitted_events
  end.

(** A second conflict reports where the kernel stands. *)
Definition conflict_error {A} (expected_sequence : Z) : M A :=
  let! co := get in
  throw (CommitCoordinatorError_Store
           (StoreError_Conflict expected_sequence (u64_saturating_add (k_last_applied_sequence (co_kernel co)) 1))).

(** One turn of the [loop].  Before the first conflict there is a turn left to
    take [again], after the reload. *)
Definition composition_turn (again : option (M (option CommittedBatch))) (batch_id : AppendBatchId) (session_id : SessionId)
    (records : list RecordDraft) : M (option CommittedBatch) :=
  let! co := get in
  match classify_composition_records (co_kernel co) records with
  | CompositionRecordStatus_Equal => ret None
  | CompositionRecordStatus_Conflict => throw CommitCoordinatorError_SidecarConflict
  | CompositionRecordStatus_Absent =>
      let! expected_sequence := next_sequence "composition_sequence_overflow" in
      let! request := lift (map_err (fun _ => CommitCoordinatorError_BoundaryFault "composition_append_request_invalid")
                              (AppendRequest_try_new batch_id session_id expected_sequence records)) in
      let! r := append_frozen request in
      match r, again with
      | Ok committed, _ => finish_sidecar committed "composition_apply_failed" "composition_emitted_events"
      | Err (StoreError_Conflict _ _), Some again =>
          do! reload_after_conflict session_id "composition_conflict_reload_failed" in again
      | Err (StoreError_Conflict _ _), None => conflict_error expected_sequence
      | Err error, _ => sidecar_append_error error
      end
  end.

Definition commit_composition_records (batch_id : AppendBatchId) (records : list RecordDraft) : M (option CommittedBatch) :=
  match records with
  | first :: _ =>
      if existsb (fun record => negb (no_events record) || negb (is_composition_body (dr_body record))) records
      then throw (CommitCoordinatorError_BoundaryFault "composition_records_invalid")
      else let turn again := composition_turn again batch_id (dr_session_id first) records in turn (Some (turn None))
  | [] => throw (CommitCoordinatorError_BoundaryFault "composition_records_invalid")
  end.

Definition session_turn (again : option (M (option CommittedBatch))) (batch_id : AppendBatchId) (session_id : SessionId)
    (drafts : list RecordDraft) : M (option CommittedBatch) :=
  let! expected_sequence := next_sequence "session_sequence_overflow" in
  let! records := lift (align_conversation_sequences drafts expected_sequence) in
  let! co := get in
  do! lift (preview_session_records (co_session co) records) in
  let! request := lift (map_err (fun _ => CommitCoordinatorError_BoundaryFault "session_append_request_invalid")
                          (AppendRequest_try_new batch_id session_id expected_sequence records)) in
  let! r := append_frozen request in
  match r, again with
  | Ok committed, _ => finish_sidecar committed "session_apply_failed" "session_emitted_events"
  | Err (StoreError_Conflict _ _), Some again =>
      do! reload_after_conflict session_id "session_conflict_reload_failed" in again
  | Err (StoreError_Conflict _ _), None => conflict_error expected_sequence
  | Err error, _ => sidecar_append_error error
  end.

Definition commit_session_records (batch_id : AppendBatchId) (records : list RecordDraft) : M (option CommittedBatch) :=
  match records with
  | first :: _ =>
      if existsb (fun record => negb (no_events record) || negb (is_structural (dr_body record))) records
      then throw session_records_invalid
      else let turn again := session_turn again batch_id (dr_session_id first) records in turn (Some (turn None))
  | [] => throw session_records_invalid
  end.

Definition maybe_commit_conversation_siblings (committed : CommittedBatch) : M unit :=
  let! co := get in
  if (size (sp_lanes (co_session co)) =? 0)%nat then ret tt
  else
    let! drafts := lift (sibling_drafts (co_session co) committed) in
    match drafts with
    | [] => ret tt
    | first :: _ => do! commit_session_records (dr_record_id first) drafts in ret tt
    end.

(** ** Events, dispatch and snapshots *)

Definition publish_events (events : list RunEvent) : M unit :=
  let! co := get in
  if negb (co_event_publisher co) then ret tt
  else
    let! r := on_host (fun w => host_publish w events) in
    match r with
    | Ok _ => ret tt
    | Err code => do! modify (set_co_fault (Some code)) in throw (CommitCoordinatorError_EventDelivery code)
    end.

(** The action's outcome is a value: a failed dispatch does not undo the commit. *)
Definition dispatch_after_recheck (action : PostCommitAction) (now : Timestamp) (committed : CommittedBatch) : M (result unit string) :=
  let! co := get in
  let state := co_kernel co in
  if negb (action_is_authorized state action now committed) then ret (Err "dispatch_precondition_failed")
  else if match action with
          | PostCommitAction_ExecuteEffect effect_id =>
              is_some_and (k_pending_extension_effect state) (fun pending => req_effect_id (pxe_requested pending) =?? effect_id)
          | _ => false
          end
       then ret (Ok tt)
  else if negb (co_dispatcher co) then ret (Err "effect_driver_unavailable")
  else on_host (fun w => host_dispatch w
         (mkRuntimeDispatch action (model_dispatch_seed state action committed (co_last_model_continuation co))
            (tool_dispatch_seed state action committed) (timer_dispatch_seed state action (co_pending_timer_scheduled_at co))
            (context_dispatch_seed state action committed))).

(** Actions run in order until one fails; the count and the failure. *)
Fixpoint dispatch_actions (actions : list PostCommitAction) (now : Timestamp) (committed : CommittedBatch) (dispatched : nat)
    : M (nat * option string) :=
  match actions with
  | [] => ret (dispatched, None)
  | action :: actions =>
      let! r := dispatch_after_recheck action now committed in
      match r with
      | Ok _ => dispatch_actions actions now committed (1 + dispatched)
      | Err code => ret (dispatched, Some code)
      end
  end.

Definition maybe_write_snapshot (committed : CommittedBatch) : M unit :=
  let! co := get in
  if (co_replay_scope co <>?? ReplayScope_Primary) || (co_snapshot_every_n_records co =? 0) then ret tt
  else
    let head := k_last_applied_sequence (co_kernel co) in
    if Z.max 0 (head - default 0 (co_last_snapshot_sequence co)) <? co_snapshot_every_n_records co then ret tt
    else
      match last (cb_records committed) with
      | None => ret tt
      | Some record =>
          let! r := on_store (fun s => js_write_state_snapshot s
                      (mkStateSnapshotRequest (rec_session_id record) (co_kernel co) (rec_checksum record)
                         (co_pending_timer_scheduled_at co) (co_last_model_continuation co))) in
          match r with
          | Ok _ => modify (set_co_last_snapshot_sequence (Some head))
          | Err _ => ret tt
          end
      end.

(** ** Submission *)

Definition empty_outcome (decision : Decision) : CommitOutcome := mkCommitOutcome None [] (dec_diagnostics decision) 0 None.

(** From the acknowledged batch to the end of [submit]. *)
Definition finish_submit (env : TransitionEnv) (decision : Decision) (frozen : AppendRequest) (committed : CommittedBatch)
    : M CommitOutcome :=
  if negb (committed_matches_request committed frozen) then boundary_fault "store_receipt_mismatch"
  else
    let! events := kernel_apply committed "committed_batch_apply_failed" in
    do! modify (fun co => set_co_pending_timer_scheduled_at
                            (update_pending_timer_timestamp (co_pending_timer_scheduled_at co) committed) co) in
    let! co := get in
    let! continuation := or_fault (update_last_model_continuation (co_last_model_continuation co) committed) in
    do! modify (set_co_last_model_continuation continuation) in
    let! next := or_fault (ok_or (u64_checked_add (co_next_transient_sequence co) (u64_of_usize (length events)))
                             "transient_event_sequence_exhausted") in
    do! modify (set_co_next_transient_sequence next) in
    do! apply_committed_session committed in
    do! maybe_commit_conversation_siblings committed in
    do! publish_events events in
    let! r := dispatch_actions (dec_actions decision) (env_now env) committed 0 in
    match r with
    | (dispatched, Some code) =>
        do! modify (set_co_fault (Some code)) in
        ret (mkCommitOutcome (Some committed) events (dec_diagnostics decision) dispatched (Some code))
    | (dispatched, None) =>
        do! maybe_write_snapshot committed in
        ret (mkCommitOutcome (Some committed) events (dec_diagnostics decision) dispatched None)
    end.

Definition kernel_decide (env : TransitionEnv) (input : KernelInput) : M Decision :=
  let! co := get in
  lift (map_err CommitCoordinatorError_Decision (Kernel_decide (co_kernel co) env input)).

(** One turn of the [loop], and the turn after a reload. *)
Definition submit_turn (again : option (Decision -> M CommitOutcome)) (env : TransitionEnv) (input : KernelInput)
    (append_batch_id : AppendBatchId) (decision : Decision) : M CommitOutcome :=
  match dec_records decision with
  | [] => throw (CommitCoordinatorError_BoundaryFault "empty_nonduplicate_decision")
  | first :: _ =>
      let session_id := dr_session_id first in
      let! frozen := lift (map_err (fun _ => CommitCoordinatorError_BoundaryFault "append_request_invalid")
                             (AppendRequest_try_new append_batch_id session_id (dec_expected_sequence decision) (dec_records decision))) in
      let! r := append_frozen frozen in
      match r, again with
      | Ok committed, _ => finish_submit env decision frozen committed
      | Err (StoreError_Conflict _ _), Some again =>
          do! reload_after_conflict session_id "conflict_reload_failed" in
          let! decision := kernel_decide env input in
          match dec_records decision with
          | [] => ret (empty_outcome decision)
          | _ => again decision
          end
      | Err (StoreError_Conflict _ _), None => boundary_fault "repeated_store_conflict"
      | Err StoreError_AmbiguousAcknowledgement, _ => boundary_fault "continued_ambiguous_acknowledgement"
      | Err ((StoreError_Corruption _ | StoreError_Integrity _) as error), _ =>
          boundary_fault_with_store "store_integrity_uncertain" error
      | Err error, _ => throw (CommitCoordinatorError_Store error)
      end
  end.

Definition submit (env : TransitionEnv) (input : KernelInput) : M CommitOutcome :=
  let! co := get in
  match co_fault co with
  | Some code => throw (CommitCoordinatorError_Faulted code)
  | None =>
      let! decision := kernel_decide env input in
      match dec_records decision with
      | [] => ret (empty_outcome decision)
      | _ =>
          do! (if co_dispatcher co
               then fun s => (s, map_err CommitCoordinatorError_ModelRequest (host_validate_before_commit (sys_host s) input))
               else ret tt) in
          match ids_append_batch_ids (env_ids env) with
          | [append_batch_id] =>
              let turn again := submit_turn again env input append_batch_id in turn (Some (turn None)) decision
          | _ => throw CommitCoordinatorError_AppendBatchIdCardinality
          end
      end
  end.
End Submit.
