(* ===== verification/CoordinatorSound.v ===== *)
(** * The coordinator's kernel is a replay of the journal

    [JournalLaws] is what the coordinator relies on a store for: the journal of
    a session only grows, an acknowledged append is in it, a load returns batches
    of it and the snapshots that were written.  Against that interface, every
    step of the coordinator keeps its kernel the replay of a prefix of its
    session's journal, in a Hoare style over the coordinator's monad.

    The second part discharges the laws for the in-memory store. *)

From S2P Require Import Prelude Primitives Ids Floats Cbor CborCodec CborDecode Serializer Effects Records State Inputs ToolBatch Digests Policy ApplyStage ApplyTools ApplyEffects ApplyRecord Shapes Events.
From S2P Require Import Apply Decide DecideLimit DecideTools DecideStage DecideSettle DecideControl Conversation Validate Reducer Decisions Chain ChainIntegrity History BatchOrder PhaseMachine PhaseBatch Reach Journal Append Snapshot Store.
From S2P Require Import StoreChain MemoryStore StoreJournal Recover RecoverSound Dispatch Coordinator.

(** ** The interface *)

(** The journal of a session, empty when nothing was committed. *)
Definition journal_of (J : Journals) (sid : SessionId) : list CommittedBatch := default [] (J !! sid).

Definition request_wf (request : AppendRequest) : Prop :=
  Forall (fun d => dr_session_id d = apr_session_id request /\ is_i64 (dr_timestamp d)) (apr_records request).

(** A record of the session, within the ranges of its types. *)
Definition of_session (sid : SessionId) (r : RecordEnvelope) : Prop :=
  rec_session_id r = sid /\ is_i64 (rec_timestamp r) /\ (rec_checksum r < 2 ^ 256)%N.

Class JournalLaws `{Hasher, Serde, SnapshotWire} (S : Type) `{!JournalStore S} : Type := {
  js_repr : S -> Journals -> Prop;
  jl_covers s J sid : js_repr s J -> covers 1 (journal_of J sid);
  jl_session s J sid : js_repr s J -> Forall (of_session sid) (batch_records (journal_of J sid));
  jl_append s J request : js_repr s J -> request_wf request ->
    exists J', js_repr (js_append s request).1 J' /\ journals_extend J J' /\
      forall c, (js_append s request).2 = Ok c -> acknowledged J' request c;
  jl_load s J sid : js_repr s J ->
    exists J', js_repr (js_load s sid).1 J' /\ journals_extend J J' /\
      forall l, (js_load s sid).2 = Ok l -> loaded_from (journal_of J' sid) sid l;
  jl_write s J request : js_repr s J -> (ssr_head_checksum request < 2 ^ 256)%N ->
    replay_of (journal_of J (ssr_session_id request)) (ssr_state request) (ssr_pending_timer_scheduled_at request) ->
    exists J', js_repr (js_write_state_snapshot s request).1 J' /\ journals_extend J J'
}.

Lemma journal_of_extend J J' sid : journals_extend J J' -> journal_of J sid `prefix_of` journal_of J' sid.
Proof.
  intros Hx. unfold journal_of. destruct (J !! sid) as [jb|] eqn:Hj; [|apply prefix_nil].
  destruct (Hx _ _ Hj) as [rs ->]. cbn. by exists rs.
Qed.

Section Triples.
Context `{Hasher, Serde, SnapshotWire, Continuations} {S W : Type} `{!JournalStore S, !JournalLaws S, !Host W}.
Variables (sid : SessionId) (now : Timestamp).

Notation System := (System (S := S) (W := W)).
Notation M := (M (S := S) (W := W)).

Record inv (J : Journals) (s : System) : Prop := {
  iv_store : js_repr (sys_store s) J;
  iv_replay : replay_of (journal_of J sid) (co_kernel (sys_co s)) (co_pending_timer_scheduled_at (sys_co s));
  iv_scope : co_replay_scope (sys_co s) = ReplayScope_Primary
}.

(** An action that a durable batch and the state replayed from the journal allow. *)
Definition dispatch_ok (J : Journals) (d : RuntimeDispatch) : Prop :=
  exists c k t, c ∈ journal_of J sid /\ replay_of (journal_of J sid) k t /\ action_is_authorized k (rd_action d) now c = true.

(** Events that a durable batch yields on a replay of the journal. *)
Definition publish_ok (J : Journals) (events : list RunEvent) : Prop :=
  exists c k t n k', c ∈ journal_of J sid /\ replay_of (journal_of J sid) k t /\ apply k c n = Ok (k', events).

(** One call on the host that the journal justifies. *)
Inductive host_step (J : Journals) (w : W) : W -> Prop :=
| host_step_publish events : publish_ok J events -> host_step J w (host_publish w events).1
| host_step_dispatch d : dispatch_ok J d -> host_step J w (host_dispatch w d).1.

Definition host_moves (J : Journals) : W -> W -> Prop := rtc (host_step J).

Lemma in_journal_extend J J' c : journals_extend J J' -> c ∈ journal_of J sid -> c ∈ journal_of J' sid.
Proof. intros Hx Hc. destruct (journal_of_extend J J' sid Hx) as [more ->]. set_solver. Qed.

Lemma replay_of_journal J J' k t : journals_extend J J' -> replay_of (journal_of J sid) k t -> replay_of (journal_of J' sid) k t.
Proof. intros Hx (pre & Hpre & Hr). exists pre. split; [|done]. etransitivity; [exact Hpre|by apply journal_of_extend]. Qed.

Lemma publish_ok_extend J J' events : publish_ok J events -> journals_extend J J' -> publish_ok J' events.
Proof.
  intros (c & k & t & n & k' & Hc & Hr & Ha) Hx. exists c, k, t, n, k'. split_and!; [by eapply in_journal_extend|by eapply replay_of_journal|done].
Qed.

Lemma host_moves_extend J J' w w' : journals_extend J J' -> host_moves J w w' -> host_moves J' w w'.
Proof.
  intros Hx. unfold host_moves. apply rtc_subrel. intros x y Hstep. destruct Hstep as [events Hp|d (c & k & t & Hc & Hr & Ha)].
  - constructor. by eapply publish_ok_extend.
  - constructor. exists c, k, t. split_and!; [by eapply in_journal_extend|by eapply replay_of_journal|done].
Qed.

(** From [P], the step keeps the invariant for a journal that may have grown,
    calls the host only as that journal justifies, and its result satisfies [Q]. *)
Definition triple {A} (P : Journals -> System -> Prop) (m : M A) (Q : A -> Journals -> System -> Prop) : Prop :=
  forall s J, inv J s -> P J s -> exists J', inv J' (m s).1 /\ journals_extend J J' /\
    host_moves J' (sys_host s) (sys_host (m s).1) /\ forall a, (m s).2 = Ok a -> Q a J' (m s).1.

Definition always : Journals -> System -> Prop := fun _ _ => True.
Definition any {A} : A -> Journals -> System -> Prop := fun _ _ _ => True.

Lemma triple_weaken {A} (P P' : Journals -> System -> Prop) (m : M A) (Q Q' : A -> Journals -> System -> Prop) :
  triple P m Q -> (forall J s, P' J s -> P J s) -> (forall a J s, Q a J s -> Q' a J s) -> triple P' m Q'.
Proof. intros Ht HP HQ s J Hi Hp. destruct (Ht s J Hi (HP _ _ Hp)) as (J' & Hi' & Hx & Hh & Hq). exists J'. eauto 10. Qed.

Lemma triple_ret {A} (a : A) (P : Journals -> System -> Prop) Q : (forall J s, P J s -> Q a J s) -> triple P (ret a) Q.
Proof. intros HQ s J Hi Hp. exists J. split; [done|]. split; [done|]. split; [done|]. cbn. intros a' [= <-]. auto. Qed.

Lemma triple_throw {A} e P (Q : A -> Journals -> System -> Prop) : triple P (throw e) Q.
Proof. intros s J Hi Hp. by exists J. Qed.

Lemma triple_lift {A} (r : result A CommitCoordinatorError) P (Q : A -> Journals -> System -> Prop) :
  (forall J s a, P J s -> r = Ok a -> Q a J s) -> triple P (lift r) Q.
Proof. intros HQ s J Hi Hp. exists J. split; [done|]. split; [done|]. split; [done|]. cbn. intros a Ha. eauto. Qed.

Lemma triple_bind {A B} P (m : M A) Q (k : A -> M B) R :
  triple P m Q -> (forall a, triple (Q a) (k a) R) -> triple P (bind m k) R.
Proof.
  intros Hm Hk s J Hi Hp. destruct (Hm s J Hi Hp) as (J1 & Hi1 & Hx1 & Hh1 & Hq). unfold bind.
  destruct (m s) as [s1 [a|e]]; cbn [fst snd] in *; [|by exists J1].
  destruct (Hk a s1 J1 Hi1 (Hq a eq_refl)) as (J2 & Hi2 & Hx2 & Hh2 & Hr). exists J2.
  split; [done|]. split; [by etransitivity|]. split; [|done]. etransitivity; [by eapply host_moves_extend|done].
Qed.

Lemma triple_known {A} (phi : Prop) P (m : M A) Q : (forall J s, inv J s -> P J s -> phi) -> (phi -> triple P m Q) -> triple P m Q.
Proof. intros Hp Hm s J Hi HP. by apply Hm; [eapply Hp|..]. Qed.

Lemma triple_pure {A} (phi : Prop) P (m : M A) Q : (forall J s, P J s -> phi) -> (phi -> triple P m Q) -> triple P m Q.
Proof. intros Hp. apply triple_known. intros J s _. apply Hp. Qed.

Lemma triple_get P : triple P get (fun co J s => P J s /\ co = sys_co s).
Proof. intros s J Hi Hp. exists J. split; [done|]. split; [done|]. split; [done|]. cbn. by intros a [= <-]. Qed.

(** Reading the coordinator first. *)
Lemma triple_get_bind {B} P (k : CommitCoordinator -> M B) R :
  (forall co, triple (fun J s => P J s /\ co = sys_co s) (k co) R) -> triple P (bind get k) R.
Proof. intros Hk. eapply triple_bind; [apply triple_get|]. cbn. exact Hk. Qed.

Lemma triple_get_primary {B} P (k : CommitCoordinator -> M B) R :
  (forall co, co_replay_scope co = ReplayScope_Primary -> triple (fun J s => P J s /\ co = sys_co s) (k co) R) -> triple P (bind get k) R.
Proof. intros Hk s J Hi Hp. by apply (Hk (sys_co s) (iv_scope _ _ Hi) s J Hi). Qed.

Definition keeps_kernel (f : CommitCoordinator -> CommitCoordinator) : Prop :=
  forall c, co_kernel (f c) = co_kernel c /\ co_pending_timer_scheduled_at (f c) = co_pending_timer_scheduled_at c /\
            co_replay_scope (f c) = co_replay_scope c.

Lemma triple_modify f (P : Journals -> System -> Prop) Q : keeps_kernel f ->
  (forall J s, P J s -> Q tt J (mkSystem (f (sys_co s)) (sys_store s) (sys_host s))) -> triple P (modify f) Q.
Proof.
  intros Hf HQ s J [Hi1 Hi2 Hi3] Hp. exists J. cbn. destruct (Hf (sys_co s)) as (Hk & Ht & Hs).
  split; [by split; cbn; rewrite ?Hk, ?Ht, ?Hs|]. split; [done|]. split; [done|]. intros [] _. auto.
Qed.

Lemma triple_boundary_fault {A} code P (Q : A -> Journals -> System -> Prop) : triple P (boundary_fault code) Q.
Proof. eapply triple_bind; [by apply (triple_modify _ _ any)|]. intros []. apply triple_throw. Qed.

Lemma triple_fault_with_store {A} code e P (Q : A -> Journals -> System -> Prop) : triple P (boundary_fault_with_store code e) Q.
Proof. eapply triple_bind; [by apply (triple_modify _ _ any)|]. intros []. apply triple_boundary_fault. Qed.

Lemma triple_or_fault {A} (r : rresult A) P (Q : A -> Journals -> System -> Prop) :
  (forall J s a, P J s -> r = Ok a -> Q a J s) -> triple P (or_fault r) Q.
Proof.
  intros HQ. destruct r as [a|e]; [|apply triple_boundary_fault]. cbn [or_fault].
  apply triple_ret. intros J s Hp. by eapply HQ.
Qed.

Lemma inv_host J s w : inv J s -> inv J (mkSystem (sys_co s) (sys_store s) w).
Proof. intros [? ? ?]. by split. Qed.

Lemma triple_host {A} (f : W -> W * A) (P : Journals -> System -> Prop) :
  (forall J s w, inv J s -> P J s -> host_step J w (f w).1) -> triple P (on_host f) any.
Proof.
  intros Hf s J Hi Hp. exists J. pose proof (Hf J s (sys_host s) Hi Hp) as Hstep. unfold on_host. destruct (f (sys_host s)) as [w a]. cbn in *.
  split; [by apply inv_host|]. split; [done|]. split; [by apply rtc_once|done].
Qed.

(** A store call that moves the journal forward. *)
Lemma triple_store {A} (f : S -> S * A) (P : Journals -> System -> Prop) (Q : A -> Journals -> System -> Prop) :
  (forall s J, inv J s -> P J s -> exists J', js_repr (f (sys_store s)).1 J' /\ journals_extend J J' /\
     forall s', Q (f (sys_store s)).2 J' s') -> triple P (on_store f) Q.
Proof.
  intros Hf s J Hi Hp. destruct (Hf s J Hi Hp) as (J' & Hr & Hx & Hq). exists J'. unfold on_store.
  destruct (f (sys_store s)) as [st a]. cbn [fst snd] in *. destruct Hi as [Hi1 (pre & Hpre & Hrep) Hi3].
  split; [|split; [done|split; [done|by intros a' [= <-]]]]. split; [done| |done]. exists pre. split; [|done].
  etransitivity; [exact Hpre|by apply journal_of_extend].
Qed.

(** What is true of a journal stays true of a longer one. *)
Definition stable (R : Journals -> Prop) : Prop := forall J J', R J -> journals_extend J J' -> R J'.

Lemma triple_frame {A} (R : Journals -> Prop) P (m : M A) Q : stable R -> triple P m Q ->
  triple (fun J s => P J s /\ R J) m (fun a J s => Q a J s /\ R J).
Proof. intros HR Hm s J Hi [Hp Hr]. destruct (Hm s J Hi Hp) as (J' & Hi' & Hx & Hh & Hq). exists J'. split_and!; [done..|]. intros a Ha. split; [by apply Hq|by eapply HR]. Qed.

Lemma triple_carry {A} (R : Journals -> Prop) (m : M A) : stable R -> triple (fun J _ => R J) m any -> triple (fun J _ => R J) m (fun _ J _ => R J).
Proof.
  intros HR Hm. eapply triple_weaken; [apply (triple_frame R _ _ _ HR Hm)|by intros J s|]. by intros a J s [_ ?].
Qed.

Definition committed_in (c : CommittedBatch) (J : Journals) : Prop := c ∈ journal_of J sid.

Lemma committed_in_stable c : stable (committed_in c).
Proof. intros J J' Hc Hx. by eapply in_journal_extend. Qed.

(** ** Appends and reloads *)

Definition acknowledged_if (request : AppendRequest) (r : sresult CommittedBatch) (J : Journals) (s : System) : Prop :=
  forall c, r = Ok c -> acknowledged J request c.

Lemma append_triple request : request_wf request -> triple always (append_frozen request) (acknowledged_if request).
Proof.
  intros Hwf. assert (triple always (on_store (fun s => js_append s request)) (acknowledged_if request)) as Hone.
  { apply triple_store. intros s J [Hi _ _] _. destruct (jl_append _ _ _ Hi Hwf) as (J' & Hr & Hx & Ha). by exists J'. }
  unfold append_frozen. eapply triple_bind; [exact Hone|]. intros [c|e]; [by apply triple_ret|].
  destruct e; try (by apply triple_ret). eapply triple_weaken; [exact Hone|done|done].
Qed.

Lemma project_batch_triple c P : triple P (project_batch c) any.
Proof.
  unfold project_batch. apply triple_get_bind. intros co. destruct (apply_batch_to_session _ _) as [session r].
  eapply triple_bind; [by apply (triple_modify _ _ any)|]. intros []. by apply triple_or_fault.
Qed.

Lemma apply_batches_triple batches P : triple P (apply_batches_to_session batches) any.
Proof.
  revert P. induction batches as [|b batches IH]; intros P; cbn [apply_batches_to_session foldr]; [by apply triple_ret|].
  eapply triple_bind; [apply project_batch_triple|]. intros []. apply IH.
Qed.

(** Installing a kernel and a timer that replay the journal. *)
Lemma install_triple k t {B} (m : M B) next Q :
  triple always m Q ->
  triple (fun J _ => replay_of (journal_of J sid) k t)
    (bind (modify (set_co_kernel k)) (fun _ => bind (modify (set_co_next_transient_sequence next))
       (fun _ => bind (modify (set_co_pending_timer_scheduled_at t)) (fun _ => m)))) Q.
Proof.
  intros Hm s J [Hi1 Hi2 Hi3] Hr. unfold bind, modify. cbn [sys_co sys_store sys_host].
  by apply (Hm (mkSystem (set_co_pending_timer_scheduled_at t (set_co_next_transient_sequence next (set_co_kernel k (sys_co s))))
                  (sys_store s) (sys_host s)) J).
Qed.

Lemma reload_from_loaded_triple loaded :
  triple (fun J _ => covers 1 (journal_of J sid) /\ loaded_from (journal_of J sid) sid loaded) (reload_from_loaded loaded) any.
Proof.
  unfold reload_from_loaded. apply triple_get_primary. intros co ->. cbn [replay_scoped]. eapply triple_bind.
  { apply (triple_or_fault _ _ (fun r J _ => replay_of (journal_of J sid) (rp_kernel r.1) (rp_pending_timer_scheduled_at r.1))).
    intros J s [a used] [[Hcov Hl] _] Hr. by eapply replay_loaded_of. }
  intros [replayed used]. cbn [fst]. apply install_triple.
  eapply triple_bind; [by apply (triple_or_fault _ _ any)|]. intros continuation.
  do 4 (eapply triple_bind; [by apply (triple_modify _ _ any)|]; intros []).
  case_match; [apply apply_batches_triple|]. eapply triple_bind; [by apply (triple_or_fault _ _ any)|].
  intros session. by apply triple_modify.
Qed.

Lemma reload_full_triple code : triple always (reload_full sid code) any.
Proof.
  unfold reload_full. eapply triple_bind.
  { apply (triple_store _ _ (fun r J _ => forall l, r = Ok l -> covers 1 (journal_of J sid) /\ loaded_from (journal_of J sid) sid l)).
    intros s J [Hi _ _] _. destruct (jl_load _ _ sid Hi) as (J' & Hr & Hx & Hl). exists J'. split_and!; [done..|].
    intros s' l Hs. split; [by eapply jl_covers|by apply Hl]. }
  intros [loaded|e]; [|apply triple_boundary_fault].
  eapply triple_weaken; [apply reload_from_loaded_triple| |done]. cbn. intros J s Hl. by apply Hl.
Qed.

Lemma reload_triple code : triple always (reload_after_conflict sid code) any.
Proof.
  unfold reload_after_conflict. apply triple_get_primary. intros co ->.
  eapply triple_weaken; [apply reload_full_triple|done|done].
Qed.

(** ** Applying *)

Lemma kernel_apply_inv J s c kernel events :
  inv J s -> committed_in c J -> apply (co_kernel (sys_co s)) c (co_next_transient_sequence (sys_co s)) = Ok (kernel, events) ->
  replay_of (journal_of J sid) kernel (update_pending_timer_timestamp (co_pending_timer_scheduled_at (sys_co s)) c).
Proof. intros [Hi1 Hi2 Hi3] Hc Ha. eapply replay_of_apply; [by eapply jl_covers|done|exact Hc|exact Ha]. Qed.

(** Applying and then updating the timer. *)
Definition apply_and_time (c : CommittedBatch) (code : string) : M (list RunEvent) :=
  bind (kernel_apply c code) (fun events =>
    bind (modify (fun co => set_co_pending_timer_scheduled_at (update_pending_timer_timestamp (co_pending_timer_scheduled_at co) c) co))
      (fun _ => ret events)).

Lemma apply_and_time_triple c code : triple (fun J _ => committed_in c J) (apply_and_time c code)
  (fun events J _ => committed_in c J /\ publish_ok J events).
Proof.
  intros s J Hi Hc. unfold apply_and_time, kernel_apply, bind, get. destruct (apply _ _ _) as [[kernel events]|e] eqn:Ha.
  - pose proof (kernel_apply_inv _ _ _ _ _ Hi Hc Ha) as Hr. destruct Hi as [Hi1 Hi2 Hi3]. exists J. split_and!; [done..|].
    cbn. intros a [= <-]. split; [done|]. exists c. do 4 eexists. split_and!; [exact Hc|exact Hi2|exact Ha].
  - destruct Hi as [Hi1 Hi2 Hi3]. exists J. by split_and!.
Qed.

Lemma triple_ext {A} P (m m' : M A) Q : (forall s, m s = m' s) -> triple P m' Q -> triple P m Q.
Proof. intros Heq Hm s J. rewrite Heq. apply Hm. Qed.

Lemma apply_timer_triple c code {B} (k : list RunEvent -> M B) Q P : (forall J s, P J s -> committed_in c J) ->
  (forall events, triple (fun J _ => committed_in c J /\ publish_ok J events) (k events) Q) ->
  triple P (bind (kernel_apply c code) (fun events =>
    bind (modify (fun co => set_co_pending_timer_scheduled_at (update_pending_timer_timestamp (co_pending_timer_scheduled_at co) c) co))
      (fun _ => k events))) Q.
Proof.
  intros HP Hk. apply (triple_ext _ _ (bind (apply_and_time c code) k)).
  { intros s. unfold apply_and_time, bind. destruct (kernel_apply c code s) as [s1 [ev|e]]; done. }
  eapply triple_bind; [eapply triple_weaken; [apply apply_and_time_triple|exact HP|done]|]. intros events. apply Hk.
Qed.

(** A batch without retries or timers. *)
Definition timeless (c : CommittedBatch) : Prop := forall t, update_pending_timer_timestamp t c = t.

Lemma apply_timeless_triple c code : timeless c ->
  triple (fun J _ => committed_in c J) (kernel_apply c code) any.
Proof.
  intros Ht s J Hi Hc. unfold kernel_apply, bind at 1, get. cbn. destruct (apply _ _ _) as [[kernel events]|e] eqn:Ha.
  - pose proof (kernel_apply_inv _ _ _ _ _ Hi Hc Ha) as Hr. rewrite Ht in Hr. destruct Hi as [Hi1 Hi2 Hi3]. exists J. by split_and!.
  - destruct (triple_boundary_fault (A := list RunEvent) code always any s J Hi I) as (J' & Hi' & Hx & Hh & _). exists J'. by split_and!.
Qed.

Lemma apply_committed_session_triple c P : triple P (apply_committed_session c) any.
Proof.
  unfold apply_committed_session. eapply triple_bind; [apply project_batch_triple|]. intros []. by apply triple_modify.
Qed.

Lemma finish_sidecar_triple c code1 code2 : timeless c -> triple (fun J _ => committed_in c J) (finish_sidecar c code1 code2) any.
Proof.
  intros Ht. unfold finish_sidecar. eapply triple_bind; [by apply apply_timeless_triple|]. intros [|e events].
  - eapply triple_bind; [apply apply_committed_session_triple|]. intros []. by apply triple_ret.
  - apply triple_boundary_fault.
Qed.

Lemma sidecar_error_triple {A} e P (Q : A -> Journals -> System -> Prop) : triple P (sidecar_append_error e) Q.
Proof.
  destruct e; cbn [sidecar_append_error]; (apply triple_throw || apply triple_boundary_fault || apply triple_fault_with_store).
Qed.

(** ** Session records *)

(** Drafts of the session that only shape its conversation. *)
Definition session_drafts (drafts : list RecordDraft) : Prop :=
  Forall (fun d => dr_session_id d = sid /\ is_i64 (dr_timestamp d) /\ is_structural (dr_body d) = true) drafts.

Lemma align_draft_keeps first entry d : align_draft first entry = Ok d ->
  dr_session_id d = dr_session_id entry.2 /\ dr_timestamp d = dr_timestamp entry.2 /\
  is_structural (dr_body d) = is_structural (dr_body entry.2).
Proof.
  destruct entry as [offset draft]. unfold align_draft. intros HH. step HH. cbn [snd].
  destruct (dr_body draft) eqn:Hb; try (injection HH as <-; by rewrite Hb). case_match; [injection HH as <-; by rewrite Hb|].
  step HH. apply ok_or_Ok in HH. unfold RecordDraft_try_new in HH. case_match; [|done]. by injection HH as <-.
Qed.

Lemma enumerate_snd {A} (l : list A) : (enumerate l).*2 = l.
Proof. unfold enumerate. apply snd_zip. by rewrite length_seq. Qed.

Lemma align_keeps drafts first aligned : session_drafts drafts -> align_conversation_sequences drafts first = Ok aligned ->
  session_drafts aligned.
Proof.
  unfold align_conversation_sequences, session_drafts. intros Hd.
  assert (Forall (fun e : nat * RecordDraft => dr_session_id e.2 = sid /\ is_i64 (dr_timestamp e.2) /\ is_structural (dr_body e.2) = true)
            (enumerate drafts)) as He by (rewrite <- (enumerate_snd drafts), Forall_fmap in Hd; exact Hd).
  apply (rfold_ind (fun acc => session_drafts acc)); [constructor|]. intros acc e acc' Hin Hacc HH. step HH. injection HH as <-.
  apply align_draft_keeps in E as (E1 & E2 & E3). apply Forall_app. split; [done|]. constructor; [|constructor].
  rewrite E1, E2, E3. rewrite Forall_forall in He. by apply He.
Qed.

Lemma comparable_structural b b' : comparable_body b = comparable_body b' -> is_structural b = is_structural b'.
Proof. destruct b, b'; cbn; try done; intros [=]. Qed.

(** A batch of structural drafts has no retries and no timers. *)
Lemma structural_timeless drafts c : session_drafts drafts -> drafts_equal (draft_of <$> cb_records c) drafts = true -> timeless c.
Proof.
  intros Hd Heq t. unfold drafts_equal in Heq. apply eqb_eq in Heq. unfold update_pending_timer_timestamp.
  assert (Forall (fun r => is_structural (rec_body r) = true) (cb_records c)) as Hs.
  { apply Forall_lookup. intros i r Hr. apply (f_equal (fun l => l !! i)) in Heq. rewrite !list_lookup_fmap, Hr in Heq. cbn in Heq.
    destruct (drafts !! i) as [d|] eqn:Hi; [|done]. apply (f_equal (fun o => dr_body <$> o)) in Heq. cbn in Heq. injection Heq as Heq.
    apply comparable_structural in Heq. cbn in Heq. rewrite Heq. unfold session_drafts in Hd. rewrite Forall_lookup in Hd. by apply Hd in Hi as (_ & _ & ?). }
  clear Heq. revert t. induction Hs as [|r l Hr Hl IH]; intros t; cbn [foldl]; [done|]. destruct (rec_body r); try done; apply IH.
Qed.

Lemma append_request_wf batch_id expected drafts request : session_drafts drafts ->
  AppendRequest_try_new batch_id sid expected drafts = Ok request ->
  request = mkAppendRequest batch_id sid expected drafts /\ request_wf request.
Proof.
  intros Hd (-> & _ & Hs)%AppendRequest_try_new_Ok. split; [done|]. unfold request_wf. cbn. eapply Forall_impl; [exact Hd|]. cbn. tauto.
Qed.

Lemma next_sequence_triple code P : triple P (Coordinator.next_sequence code) any.
Proof. unfold Coordinator.next_sequence. apply triple_get_bind. intros co. case_match; [by apply triple_ret|apply triple_boundary_fault]. Qed.

Definition again_ok {A} (again : option (M A)) : Prop := forall m, again = Some m -> triple always m any.

Lemma session_turn_triple again batch_id drafts : session_drafts drafts -> again_ok again ->
  triple always (session_turn again batch_id sid drafts) any.
Proof.
  intros Hd Hagain. unfold session_turn. eapply triple_bind; [apply next_sequence_triple|]. intros expected.
  eapply triple_bind; [apply (triple_lift _ _ (fun aligned _ _ => session_drafts aligned)); intros J s aligned _ Hal; by eapply align_keeps|].
  intros aligned. apply (triple_pure (session_drafts aligned)); [done|]. intros Hal. apply triple_get_bind. intros co.
  eapply triple_bind; [by apply (triple_lift _ _ any)|]. intros []. eapply triple_bind.
  { apply (triple_lift _ _ (fun request _ _ => request = mkAppendRequest batch_id sid expected aligned /\ request_wf request)).
    intros J s request _ Hreq. destruct (AppendRequest_try_new _ _ _ _) eqn:E in Hreq; [|done]. injection Hreq as ->.
    by eapply append_request_wf. }
  intros request. apply (triple_pure (request = mkAppendRequest batch_id sid expected aligned /\ request_wf request)); [done|].
  intros [-> Hwf]. eapply triple_bind; [eapply triple_weaken; [by apply append_triple|done|done]|]. intros [c|e].
  - apply (triple_pure (timeless c)).
    { intros J s Ha. destruct (Ha c eq_refl) as (_ & Heq & _). by eapply structural_timeless. }
    intros Ht. eapply triple_weaken; [by apply finish_sidecar_triple| |done].
    intros J s Ha. destruct (Ha c eq_refl) as (_ & _ & jb & Hj & Hc). unfold committed_in, journal_of. cbn in Hj. by rewrite Hj.
  - destruct e; try apply sidecar_error_triple. destruct again as [m|]; [|apply triple_get_bind; intros co'; apply triple_throw].
    eapply triple_bind; [eapply triple_weaken; [apply reload_triple|done|done]|]. intros []. eapply triple_weaken; [by apply Hagain|done|done].
Qed.

Lemma commit_session_triple batch_id drafts : session_drafts drafts -> triple always (commit_session_records batch_id drafts) any.
Proof.
  intros Hd. unfold commit_session_records. destruct drafts as [|d drafts]; [apply triple_throw|]. case_match; [apply triple_throw|].
  pose proof Hd as [[-> _] _]%Forall_cons. apply session_turn_triple; [done|]. intros m [= <-]. by apply session_turn_triple.
Qed.

(** ** Siblings *)

Lemma session_draft_ok record_id s lane t body d : session_draft record_id s lane t body = Ok d ->
  dr_session_id d = s /\ dr_timestamp d = t /\ dr_body d = body.
Proof. unfold session_draft, RecordDraft_try_new. intros HH%ok_or_Ok. case_match; [|done]. by injection HH as <-. Qed.

Lemma sibling_drafts_ok session c drafts : Forall (of_session sid) (cb_records c) -> sibling_drafts session c = Ok drafts ->
  session_drafts drafts.
Proof.
  intros Hc. unfold sibling_drafts. apply (rfold_ind (fun acc => session_drafts acc)); [constructor|].
  intros acc r acc' Hin Hacc HH. rewrite Forall_forall in Hc. apply Hc in Hin as (Hs & Ht & _). unfold sibling_step in HH.
  case_match; [by injection HH as <-|]. case_match; [|by injection HH as <-]. do 3 step HH. injection HH as <-.
  apply session_draft_ok in E0 as (? & ? & Hb1). apply session_draft_ok in E1 as (? & ? & Hb2).
  apply Forall_app. split; [done|].
  constructor; [|constructor; [|constructor]]; split_and!; try congruence; by rewrite ?Hb1, ?Hb2.
Qed.

Lemma committed_records J s c : inv J s -> committed_in c J -> Forall (of_session sid) (cb_records c).
Proof.
  intros [Hi _ _] Hc. pose proof (jl_session _ _ sid Hi) as Hs. apply list_elem_of_lookup in Hc as [i Hi'].
  apply Forall_forall. intros r Hr. rewrite Forall_forall in Hs. apply Hs. apply list_elem_of_bind. exists c. split; [done|].
  by eapply list_elem_of_lookup_2.
Qed.

Lemma siblings_triple c : triple (fun J _ => committed_in c J) (maybe_commit_conversation_siblings c) any.
Proof.
  apply (triple_known (Forall (of_session sid) (cb_records c))); [intros J s; apply committed_records|]. intros Hrs.
  unfold maybe_commit_conversation_siblings. apply triple_get_bind. intros co. case_match; [by apply triple_ret|].
  eapply triple_bind; [apply (triple_lift _ _ (fun drafts _ _ => session_drafts drafts)); intros J s drafts _ Hd; by eapply sibling_drafts_ok|].
  intros drafts. apply (triple_pure (session_drafts drafts)); [done|]. intros Hd. destruct drafts as [|d drafts]; [by apply triple_ret|].
  eapply triple_bind; [eapply triple_weaken; [by apply commit_session_triple|done|done]|]. intros r. by apply triple_ret.
Qed.

(** ** Events, dispatch and snapshots *)

Lemma publish_triple events : triple (fun J _ => publish_ok J events) (publish_events events) any.
Proof.
  unfold publish_events. apply triple_get_bind. intros co. case_match; [by apply triple_ret|].
  eapply triple_bind; [apply triple_host; intros J s w _ [Hp _]; by constructor|]. intros [u|e]; [by apply triple_ret|].
  eapply triple_bind; [by apply (triple_modify _ _ any)|]. intros []. apply triple_throw.
Qed.

Lemma dispatch_triple action c : triple (fun J _ => committed_in c J) (dispatch_after_recheck action now c) any.
Proof.
  unfold dispatch_after_recheck. apply triple_get_bind. intros co. destruct (action_is_authorized _ _ _ _) eqn:Hauth; cbn [negb]; [|by apply triple_ret].
  case_match; [by apply triple_ret|]. destruct (negb (co_dispatcher co)); [by apply triple_ret|].
  apply triple_host. intros J s w [_ Hi2 _] [Hc ->]. constructor. exists c. by eexists _, _.
Qed.

Lemma dispatch_actions_triple actions c : forall n, triple (fun J _ => committed_in c J) (dispatch_actions actions now c n) any.
Proof.
  induction actions as [|a actions IH]; intros n; cbn [dispatch_actions]; [by apply triple_ret|].
  eapply triple_bind; [apply triple_carry; [apply committed_in_stable|apply dispatch_triple]|]. intros [u|e]; [apply IH|by apply triple_ret].
Qed.

Lemma write_snapshot_triple c : triple (fun J _ => committed_in c J) (maybe_write_snapshot c) any.
Proof.
  apply (triple_known (Forall (of_session sid) (cb_records c))); [intros J s; apply committed_records|]. intros Hrs.
  unfold maybe_write_snapshot. apply triple_get_bind. intros co. do 2 (case_match; [by apply triple_ret|]).
  destruct (last (cb_records c)) as [r|] eqn:Hl; [|by apply triple_ret].
  assert (of_session sid r) as (Hr & _ & Hbits) by (rewrite Forall_forall in Hrs; apply Hrs; by apply last_Some_elem_of in Hl).
  eapply triple_bind; [|intros [u|e]; [by apply triple_modify|by apply triple_ret]].
  apply (triple_store _ _ any). intros s J [Hi1 Hi2 Hi3] [_ ->].
  destruct (jl_write (sys_store s) J (mkStateSnapshotRequest (rec_session_id r) (co_kernel (sys_co s)) (rec_checksum r)
    (co_pending_timer_scheduled_at (sys_co s)) (co_last_model_continuation (sys_co s))) Hi1 Hbits) as (J' & Hr' & Hx).
  { cbn. by rewrite Hr. }
  by exists J'.
Qed.

(** ** Submission *)

(** The outcome's batch is in the journal. *)
Definition outcome_in (out : CommitOutcome) (J : Journals) (s : System) : Prop :=
  forall c, out_committed out = Some c -> committed_in c J.

Lemma finish_submit_triple env decision frozen c : env_now env = now ->
  triple (fun J _ => committed_in c J) (finish_submit env decision frozen c) outcome_in.
Proof.
  intros Hnow. unfold finish_submit. case_match; [apply triple_boundary_fault|]. apply apply_timer_triple; [done|]. intros events.
  set (R := fun J => committed_in c J /\ publish_ok J events).
  assert (stable R) as HR by (intros J J' [] Hx; split; [by eapply committed_in_stable|by eapply publish_ok_extend]).
  assert (forall m : M unit, triple (fun J _ => committed_in c J) m any -> triple (fun J _ => R J) m (fun _ J _ => R J)) as Hcarry.
  { intros m Hm. apply triple_carry; [done|]. eapply triple_weaken; [exact Hm|by intros J s [? _]|done]. }
  apply triple_get_bind. intros co.
  eapply triple_bind; [apply (triple_or_fault _ _ (fun _ J _ => R J)); by intros J s a [? _] _|]. intros continuation.
  eapply triple_bind; [by apply (triple_modify _ _ (fun _ J _ => R J))|]. intros [].
  eapply triple_bind; [by apply (triple_or_fault _ _ (fun _ J _ => R J))|]. intros next.
  eapply triple_bind; [by apply (triple_modify _ _ (fun _ J _ => R J))|]. intros [].
  eapply triple_bind; [apply Hcarry, apply_committed_session_triple|]. intros [].
  eapply triple_bind; [apply Hcarry, siblings_triple|]. intros [].
  eapply triple_bind; [apply triple_carry; [done|]; eapply triple_weaken; [apply publish_triple|by intros J s [_ ?]|done]|]. intros [].
  rewrite Hnow. eapply triple_bind.
  { apply triple_carry; [done|]. eapply triple_weaken; [apply dispatch_actions_triple|by intros J s [? _]|done]. }
  intros [n [code|]].
  - eapply triple_bind; [by apply (triple_modify _ _ (fun _ J _ => R J))|]. intros [].
    apply triple_ret. intros J s [Hc _] c' [= <-]. done.
  - eapply triple_bind; [apply Hcarry, write_snapshot_triple|]. intros []. apply triple_ret. intros J s [Hc _] c' [= <-]. done.
Qed.

Context (env : TransitionEnv) (input : KernelInput).
Hypothesis Hnow : env_now env = now /\ is_i64 now.
Hypothesis Hinput : forall a, input = KernelInput_AcceptRun a -> ar_session_id a = sid.

(** What is decided on a replay of the session's journal is drafted for it. *)
Definition decision_ok (d : Decision) : Prop := Forall (fun r => dr_session_id r = sid /\ is_i64 (dr_timestamp r)) (dec_records d).

Lemma decide_ok J s d : inv J s -> Kernel_decide (co_kernel (sys_co s)) env input = Ok d -> decision_ok d.
Proof.
  intros [Hi1 (pre & Hpre & Hrep) _] [Hd|(a & Ha & Hd)]%kernel_decided; unfold decision_ok.
  - destruct Hd as [Hdup|bodies Hne (s0 & lane & run & (Hs & _ & _) & [_ _ _ Hdr _ _ _])].
    { unfold duplicate_decision in Hdup. step Hdup. step Hdup. injection Hdup as <-. constructor. }
    assert (s0 = sid) as ->.
    { pose proof (jl_session _ _ sid Hi1) as Hses. destruct Hpre as [rest Hj]. rewrite Hj, batch_records_app in Hses.
      apply Forall_app in Hses as [Hses _].
      destruct (replays_session _ _ _ sid Hrep) as [Hn|Hn]; [eapply Forall_impl; [exact Hses|by intros r []]|congruence..]. }
    eapply Forall_impl; [exact Hdr|]. intros r [H3 H4 H5 H6 H7 H8 H9]. rewrite H6, (proj1 Hnow). split; [congruence|apply Hnow].
  - apply decide_accept_drafted in Hd as (_ & _ & [_ _ _ Hdr _ _ _]). eapply Forall_impl; [exact Hdr|].
    intros r [H3 H4 H5 H6 H7 H8 H9]. rewrite H6, (proj1 Hnow). split; [|apply Hnow]. rewrite H3. by apply Hinput.
Qed.

Lemma decide_triple P : triple P (kernel_decide env input) (fun d _ _ => decision_ok d).
Proof.
  intros s J Hi Hp. exists J. unfold kernel_decide, bind, get, lift. cbn. split_and!; [done..|]. intros d Hd.
  destruct (Kernel_decide _ _ _) eqn:E; [|done]. injection Hd as ->. by eapply decide_ok.
Qed.

Lemma submit_turn_triple again batch_id d : decision_ok d ->
  (forall k, again = Some k -> forall d, decision_ok d -> triple always (k d) outcome_in) ->
  triple always (submit_turn again env input batch_id d) outcome_in.
Proof.
  intros Hd Hagain. unfold submit_turn. destruct (dec_records d) as [|first records] eqn:Hrs; [apply triple_throw|].
  assert (dr_session_id first = sid) as -> by (unfold decision_ok in Hd; rewrite Hrs in Hd; by apply Forall_cons in Hd as [[? _] _]).
  eapply triple_bind.
  { apply (triple_lift _ _ (fun request _ _ => apr_session_id request = sid /\ request_wf request)).
    intros J s request _ Hreq. destruct (AppendRequest_try_new _ _ _ _) eqn:E in Hreq; [|done]. injection Hreq as ->.
    apply AppendRequest_try_new_Ok in E as (-> & _ & _). split; [done|]. unfold request_wf. cbn. by rewrite <- Hrs. }
  intros frozen. apply (triple_pure (apr_session_id frozen = sid /\ request_wf frozen)); [done|]. intros [Hs Hwf].
  eapply triple_bind; [eapply triple_weaken; [by apply append_triple|done|done]|]. intros [c|e].
  - eapply triple_weaken; [apply finish_submit_triple, Hnow| |done]. intros J s Ha. destruct (Ha c eq_refl) as (_ & _ & jb & Hj & Hc).
    unfold committed_in, journal_of. rewrite <- Hs, Hj. done.
  - destruct e; try apply triple_throw; try apply triple_boundary_fault; try apply triple_fault_with_store.
    destruct again as [k|]; [|apply triple_boundary_fault].
    eapply triple_bind; [eapply triple_weaken; [apply reload_triple|done|done]|]. intros [].
    eapply triple_bind; [apply decide_triple|]. intros d'. apply (triple_pure (decision_ok d')); [done|]. intros Hd'.
    destruct (dec_records d'); [apply triple_ret; intros J s _ c Hc; done|]. eapply triple_weaken; [by apply (Hagain k eq_refl)|done|done].
Qed.

Lemma submit_triple : triple always (submit env input) outcome_in.
Proof.
  unfold submit. apply triple_get_bind. intros co. case_match; [apply triple_throw|].
  eapply triple_bind; [apply decide_triple|]. intros d. apply (triple_pure (decision_ok d)); [done|]. intros Hd.
  destruct (dec_records d); [apply triple_ret; intros J s _ c Hc; done|].
  eapply (triple_bind _ _ any).
  { destruct (co_dispatcher co); [|by apply triple_ret]. intros s J Hi Hp. exists J. by split_and!. }
  intros []. destruct (ids_append_batch_ids _) as [|batch_id []]; [apply triple_throw| |apply triple_throw].
  eapply triple_weaken; [apply submit_turn_triple; [done|]|done|done]. intros k [= <-] d' Hd'. by apply submit_turn_triple.
Qed.
End Triples.

(** * The in-memory store as a journal

    The [JournalStore] instance of [MemoryJournalStore] and the proof of its
    laws: what the coordinator relies on is what the store does. *)

#[global] Instance memory_journal `{Half, Hasher, Wire, SnapshotWire} : JournalStore MemoryJournalStore := {|
  js_append m request := match append_sync m request with Ok (c, m') => (m', Ok c) | Err e => (m, Err e) end;
  js_load := load;
  js_load_from := load_from;
  js_write_state_snapshot m request := match write_state_snapshot_sync m request with Ok m' => (m', Ok tt) | Err e => (m, Err e) end
|}.

Section Laws.
Context `{HalfLaws, Hasher, !HasherLaws, Serde, Wire, SnapshotWire, !SnapshotWireLaws}.

(** Timestamps in range, and snapshots of states the journal replays to. *)
Record memory_repr (m : MemoryJournalStore) (J : Journals) : Prop := {
  mr_store : store_repr m J;
  mr_times : forall sid, Forall (fun r => is_i64 (rec_timestamp r)) (batch_records (journal_of J sid));
  mr_snapshots : forall sid sd sn acc, session_of m sid = Some sd -> sd_snapshot sd = Some sn -> accelerated_from sn = Some acc ->
    replay_of (journal_of J sid) (acr_state acc) (acr_pending_timer_scheduled_at acc)
}.

Lemma linked_bits rs p s h : linked p s rs h -> Forall (fun r => (rec_checksum r < 2 ^ 256)%N) rs.
Proof. induction 1 as [|p s r rs h Hv Hp Hs Hl IH]; constructor; [by apply verified_bits|done]. Qed.

Lemma memory_session m J sid : memory_repr m J -> Forall (of_session sid) (batch_records (journal_of J sid)).
Proof.
  intros [Hs Ht _]. pose proof (option_repr_default _ _ _ (st_sessions _ _ Hs sid)) as [Hr _ _].
  pose proof (linked_bits _ _ _ _ (sr_linked _ _ _ Hr)) as Hb. pose proof (StoreJournal.sr_session _ _ _ Hr) as Hses. specialize (Ht sid).
  unfold journal_of in *. rewrite Forall_forall in Hb, Hses, Ht |- *. intros r Hin. split_and!; auto.
Qed.

Lemma memory_covers m J sid : memory_repr m J -> covers 1 (journal_of J sid).
Proof. intros [Hs _ _]. by destruct (option_repr_default _ _ _ (st_sessions _ _ Hs sid)). Qed.

Lemma replays_timer l k t x : replays l k t -> Forall (fun r => is_i64 (rec_timestamp r)) (batch_records l) -> t = Some x -> is_i64 x.
Proof.
  intros Hr. revert x. induction Hr as [|l k t c n k' events Hl IH HH]; [done|]. intros x. rewrite batch_records_snoc. intros [Hs Hc]%Forall_app.
  unfold update_pending_timer_timestamp.
  enough (forall t, (forall y, t = Some y -> is_i64 y) -> forall x, foldl (fun pending record => match rec_body record with
    | RecordBody_RetryScheduled _ => Some (rec_timestamp record) | RecordBody_TimerFired _ => None | _ => pending end) t (cb_records c) = Some x -> is_i64 x)
    as Hall by (apply Hall; intros y; by apply IH).
  clear -Hc. induction Hc as [|r rs Hr Hrs IH]; intros t Ht x; cbn [foldl]; [apply Ht|]. apply IH. intros y Hy.
  destruct (rec_body r); by (congruence || apply Ht || (injection Hy as <-)).
Qed.

Lemma replay_of_timer m J sid k t x : memory_repr m J -> replay_of (journal_of J sid) k t -> t = Some x -> is_i64 x.
Proof.
  intros [_ Ht _] (pre & [rest Hj] & Hr). eapply replays_timer; [exact Hr|]. specialize (Ht sid). rewrite Hj, batch_records_app in Ht.
  by apply Forall_app in Ht as [? _].
Qed.

(** The store with another cache still represents the journal. *)
Lemma memory_repr_cache m m' J : only_cache m m' -> memory_repr m J -> memory_repr m' J.
Proof. intros Hc [Hs Ht Hn]. split; [by eapply only_cache_repr|done|]. by destruct Hc as [c ->]. Qed.

(** Loaded batches are the journal's. *)
Lemma loaded_session_from m J sid sd batches : memory_repr m J -> session_of m sid = Some sd -> (forall b, b ∈ batches -> b ∈ sd_batches sd) ->
  loaded_from (journal_of J sid) sid (loaded_session sid sd batches).
Proof.
  intros [Hs _ Hn] Hsd Hb. split; cbn.
  - apply Forall_forall. intros b Hin%Hb. pose proof (st_sessions _ _ Hs sid) as Hj. unfold journal_of. rewrite Hsd in Hj.
    inversion Hj as [? jb [_ [pre ->] _]|]; subst. cbn. set_solver.
  - intros acc Hacc. destruct (sd_snapshot sd) as [sn|] eqn:Hsn; [|done]. by eapply Hn.
Qed.

Lemma load_full_from m J sid use l : memory_repr m J -> (load_full m sid use).2 = Ok l -> loaded_from (journal_of J sid) sid l.
Proof.
  intros Hm. unfold load_full. destruct (session_of m sid) as [sd|] eqn:Hsd.
  - destruct (verify_session_head _ _ _ _ _) as [m1 [h|e]]; [|done]. cbn. intros [= <-]. by eapply loaded_session_from.
  - cbn. intros [= <-]. by split; [constructor|].
Qed.

(** An append keeps every session's snapshot. *)
Lemma append_snapshot m request c m' sid sd' sn : append_sync m request = Ok (c, m') -> session_of m' sid = Some sd' ->
  sd_snapshot sd' = Some sn -> exists sd, session_of m sid = Some sd /\ sd_snapshot sd = Some sn.
Proof.
  unfold append_sync. intros HH Hs Hn. destruct (in_batches_by_id _ !! _); [step HH; injection HH as _ <-; by exists sd'|].
  do 3 step HH. destruct a1; [do 2 step HH; injection HH as _ <-; by exists sd'|]. do 3 step HH. injection HH as _ <-.
  unfold session_of, commit_append in *. cbn in Hs. destruct (N.eq_dec (apr_session_id request) sid) as [Heq|Hne].
  - subst sid. rewrite lookup_insert_eq in Hs. injection Hs as <-. cbn in Hn. destruct (in_sessions (ms_inner m) !! _) as [sd|]; [by exists sd|done].
  - rewrite lookup_insert_ne in Hs by done. by exists sd'.
Qed.

Lemma drafts_times c drafts : drafts_equal (draft_of <$> cb_records c) drafts = true ->
  Forall (fun d => is_i64 (dr_timestamp d)) drafts -> Forall (fun r => is_i64 (rec_timestamp r)) (cb_records c).
Proof.
  unfold drafts_equal. intros Heq%eqb_eq Hd. apply (f_equal (fmap dr_timestamp)) in Heq. rewrite <- !list_fmap_compose in Heq.
  assert (Forall is_i64 ((dr_timestamp ∘ comparable_draft) <$> drafts)) as Ht by by rewrite Forall_fmap.
  rewrite <- Heq, Forall_fmap in Ht. exact Ht.
Qed.

Lemma memory_append m J request : memory_repr m J -> request_wf request ->
  exists J', memory_repr (js_append m request).1 J' /\ journals_extend J J' /\
    forall c, (js_append m request).2 = Ok c -> acknowledged J' request c.
Proof.
  intros Hm Hwf. cbn. destruct (append_sync m request) as [[c m']|e] eqn:E; cbn; [|by exists J].
  assert (Forall (fun d => dr_session_id d = apr_session_id request) (apr_records request)) as Hses
    by (eapply Forall_impl; [exact Hwf|by intros d []]).
  destruct (append_repr _ _ _ _ _ (mr_store _ _ Hm) Hses E) as (J' & Hr' & Hack & Hcase).
  assert (journals_extend J J') as Hx by (destruct Hcase as [[_ ->]|[_ ->]]; [done|apply journals_extend_insert]).
  exists J'. split; [|split; [done|by intros c' [= <-]]]. split; [done| |].
  - intros sid. destruct Hcase as [[_ ->]|[_ ->]]; [by apply Hm|]. unfold journal_of.
    destruct (decide (apr_session_id request = sid)) as [<-|Hne]; [|rewrite lookup_insert_ne by done; by apply Hm].
    rewrite lookup_insert_eq. cbn. rewrite batch_records_snoc. apply Forall_app. split; [apply Hm|].
    destruct Hack as (_ & Heq & _). eapply drafts_times; [exact Heq|]. eapply Forall_impl; [exact Hwf|by intros d []].
  - intros sid sd sn acc Hsd Hsn Hacc. destruct (append_snapshot _ _ _ _ _ _ _ E Hsd Hsn) as (sd0 & Hsd0 & Hsn0).
    destruct (mr_snapshots _ _ Hm _ _ _ _ Hsd0 Hsn0 Hacc) as (pre & Hpre & Hrep). exists pre. split; [|done].
    etransitivity; [exact Hpre|by apply journal_of_extend].
Qed.

Lemma memory_write m J request : memory_repr m J -> (ssr_head_checksum request < 2 ^ 256)%N ->
  replay_of (journal_of J (ssr_session_id request)) (ssr_state request) (ssr_pending_timer_scheduled_at request) ->
  exists J', memory_repr (js_write_state_snapshot m request).1 J' /\ journals_extend J J'.
Proof.
  intros Hm Hbits Hrep. exists J. split; [|done]. cbn. destruct (write_state_snapshot_sync m request) as [m'|e] eqn:E; cbn; [|done].
  split; [by eapply write_state_snapshot_repr; [apply Hm|]|apply Hm|]. intros sid sd sn acc Hsd Hsn Hacc.
  unfold write_state_snapshot_sync in E. step E. unfold write_snapshot_sync in E. step E. step E. step E. injection E as <-.
  apply ok_or_Ok in E2. unfold session_of, set_session, set_ms_inner in Hsd. cbn in Hsd.
  destruct (decide (ssr_session_id request = sid)) as [<-|Hne].
  2: { rewrite lookup_insert_ne in Hsd by done. by eapply (mr_snapshots _ _ Hm). }
  rewrite lookup_insert_eq in Hsd. injection Hsd as <-. cbn in Hsn. injection Hsn as ->.
  unfold encode_state_request in E0. step E0.
  match goal with p : (bytes * Digest)%type |- _ => destruct p as [b d] end. unfold OpaqueSnapshot_try_new in E0. step E0. injection E0 as <-.
  destruct (encode_snapshot _ _ _ _ _) as [[b' d']|] eqn:Henc; [|done]. injection E as -> ->.
  destruct Hrep as (pre & Hpre & Hrep). pose proof (replays_sequence _ _ _ Hrep) as [Hlen Hmax].
  apply snapshot_roundtrip in Henc as (hash & _ & Hdec); [|unfold is_u64; lia|done|].
  2: { intros t Ht. eapply replay_of_timer; [exact Hm|exists pre; by split|exact Ht]. }
  unfold accelerated_from in Hacc. cbn in Hacc. rewrite Hdec in Hacc. injection Hacc as <-. cbn. by exists pre.
Qed.

(** ** A snapshot under the checksum of another record *)

(** The state and the checksum a snapshot was written from are read back. *)
Lemma written_snapshot m J jb request m' : store_repr m J -> J !! ssr_session_id request = Some jb ->
  replays jb (ssr_state request) (ssr_pending_timer_scheduled_at request) -> (ssr_head_checksum request < 2 ^ 256)%N ->
  Forall (fun r => is_i64 (rec_timestamp r)) (batch_records jb) -> write_state_snapshot_sync m request = Ok m' ->
  exists sd sn, session_of m' (ssr_session_id request) = Some sd /\ sd_snapshot sd = Some sn /\
    osn_sequence sn = Z.of_nat (length (batch_records jb)) /\
    accelerated_from sn = Some (mkAcceleratedRestore (osn_sequence sn) (ssr_head_checksum request)
      (ssr_pending_timer_scheduled_at request) (ssr_last_model_continuation request) (ssr_state request)).
Proof.
  intros Hm Hj Hrep Hbits Htimes HH. unfold write_state_snapshot_sync in HH. step HH. unfold write_snapshot_sync in HH. do 3 step HH.
  injection HH as <-. eexists _, a. split; [unfold session_of, set_session, set_ms_inner; cbn; by rewrite lookup_insert_eq|].
  split; [done|]. unfold encode_state_request in E. step E.
  match goal with p : (bytes * Digest)%type |- _ => destruct p as [b d] end. unfold OpaqueSnapshot_try_new in E. step E. injection E as <-.
  destruct (encode_snapshot _ _ _ _ _) as [[b' d']|] eqn:Henc; [|done]. injection E3 as -> ->.
  pose proof (replays_sequence _ _ _ Hrep) as [Hlen Hmax].
  apply snapshot_roundtrip in Henc as (hash & _ & Hdec); [|unfold is_u64; lia|done|intros t Ht; by eapply replays_timer].
  split; [exact Hlen|]. unfold accelerated_from. cbn [osn_sequence osn_digest osn_bytes]. by rewrite Hdec.
Qed.

(** Batches that end at a sequence have no tail after it. *)
Lemma no_tail s bs q codes : covers s bs -> s + Z.of_nat (length (batch_records bs)) <= q + 1 ->
  select_tail_batches bs (q + 1) codes = Ok [].
Proof.
  intros Hcov Hq. assert (forall b, b ∈ bs -> cb_last_sequence b <= q /\ cb_first_sequence b <= q) as Hle.
  { intros b Hb. pose proof (covers_upto _ _ _ Hcov Hb). pose proof (covers_last _ _ _ Hcov Hb). split; [lia|].
    enough (cb_first_sequence b <= cb_last_sequence b) by lia. clear -Hcov Hb. induction Hcov as [|? b' bs Hne Hf Hla Hc IH]; [set_solver|].
    apply elem_of_cons in Hb as [->|Hb]; [|by apply IH]. destruct (cb_records b'); [done|]. cbn in Hla. lia. }
  unfold select_tail_batches. destruct (position _ bs) as [i|] eqn:Hp.
  - apply position_Some in Hp as [(b & Hb & Ht) _]. apply list_elem_of_lookup_2, Hle in Hb as [_ ?]. apply Z.leb_le in Ht. lia.
  - destruct (last bs) as [b|] eqn:Hl; [|done]. cbn [is_some_and]. apply last_Some_elem_of, Hle in Hl as [? _].
    rewrite (proj2 (Z.leb_gt _ _)) by lia. done.
Qed.

(** A snapshot at the head of the journal whose checksum is not the head's: a
    windowed load is refused, and after a prune nothing can be replayed. *)
Lemma misplaced_snapshot_refused m J sid jb sd sn acc : store_repr m J -> J !! sid = Some jb -> session_of m sid = Some sd ->
  sd_snapshot sd = Some sn -> accelerated_from sn = Some acc -> acr_sequence acc = Z.of_nat (length (batch_records jb)) ->
  sd_head_checksum sd <> Some (acr_head_checksum acc) -> Z.of_nat (length (batch_records jb)) < u64_max ->
  (load_from m (mkLoadFromRequest sid LoadWindow_SnapshotPlusTail)).2 = Err (StoreError_Integrity "snapshot_checksum_mismatch").
Proof.
  intros Hm Hj Hsd Hsn Hacc Hseq Hne Hlt. pose proof (st_sessions _ _ Hm sid) as Hs. rewrite Hsd, Hj in Hs. inversion Hs as [? ? [Hrep _ _]|]; subst.
  unfold load_from, load_snapshot_plus_tail. cbn [lfr_session_id lfr_window]. rewrite Hsd, Hsn, Hacc. cbn [snd].
  unfold loaded_from_batches, u64_saturating_add. rewrite Z.min_r by lia. rewrite Hseq.
  destruct (sr_retained _ _ _ Hrep) as (old & Hold & _ & Hnext).
  erewrite no_tail; [|exact (sr_covers _ _ _ Hrep)|].
  2: { rewrite Hold, Hnext. unfold session_records. rewrite !length_app. lia. }
  cbn [rbind batch_records mbind list_bind]. unfold verify_tail_records, u64_saturating_add. rewrite (sr_head _ _ _ Hrep), Z.min_r by lia.
  rewrite Z.ltb_irrefl, Z.eqb_refl. cbn [negb reject_if rbind]. by rewrite (proj2 (eqb_false _ _) Hne).
Qed.

Lemma pruned_session_unreplayable m J sid jb sd sn acc m' receipt : store_repr m J -> J !! sid = Some jb -> session_of m sid = Some sd ->
  sd_snapshot sd = Some sn -> accelerated_from sn = Some acc -> osn_sequence sn = Z.of_nat (length (batch_records jb)) ->
  sd_head_checksum sd <> Some (acr_head_checksum acc) -> 0 < Z.of_nat (length (batch_records jb)) < u64_max ->
  prune_sync m sid = (m', Ok receipt) ->
  exists l, (load m' sid).2 = Ok l /\ ls_committed_batches l = [] /\ replay_loaded l = Err "loaded_head_mismatch".
Proof.
  intros Hm Hj Hsd Hsn Hacc Hseq Hne [Hpos Hlt] Hp. pose proof (prune_repr m J sid Hm) as Hm'. rewrite Hp in Hm'. cbn [fst] in Hm'.
  destruct (prune_leaves _ _ _ _ _ _ Hm Hj Hp) as (sd0 & sn0 & sd' & Hsd0 & Hsn0 & Hrc & Hsd' & Hsn' & Hhs & Hhc & Hb).
  rewrite Hsd in Hsd0. injection Hsd0 as <-. rewrite Hsn in Hsn0. injection Hsn0 as <-.
  exists (loaded_session sid sd' (sd_batches sd')). split; [by apply (load_full_repr _ J sid sd' jb)|].
  pose proof (st_sessions _ _ Hm sid) as Hs. rewrite Hsd, Hj in Hs. inversion Hs as [? ? [Hrep _ Hcov]|]; subst.
  assert (sd_batches sd' = []) as Hnil.
  { rewrite Hb. apply filter_none. intros b Hin. apply Z.ltb_ge. pose proof (covers_upto _ _ _ Hcov Hin). lia. }
  split; [done|]. unfold replay_loaded, loaded_session. cbn [ls_accelerated]. rewrite Hsn'. cbn [mbind option_bind]. rewrite Hacc.
  assert (replay_from_default (mkLoadedSession sid (sd_head_sequence sd') (sd_head_checksum sd') (sd_metadata sd') (sd_batches sd')
            (Some sn) (Some acc)) = Err "loaded_head_mismatch") as Hdef.
  { unfold replay_from_default. cbn [ls_committed_batches ls_head_sequence]. rewrite Hnil. cbn [rfold rbind last].
    rewrite Hhs, (sr_head _ _ _ Hrep), (proj2 (Z.eqb_neq _ _)) by lia. done. }
  rewrite Hdef. unfold replay_from_snapshot. destruct (reject_if _ _); [|done]. cbn [rbind].
  unfold snapshot_checksum_ok, checksum_at. cbn [ls_committed_batches ls_head_checksum ls_head_sequence]. rewrite Hnil, Hhc.
  cbn [find_map batch_records mbind list_bind head option_bind ok_or rbind].
  rewrite (proj2 (eqb_false _ _) Hne), andb_false_r. done.
Qed.

#[global] Instance memory_laws : JournalLaws MemoryJournalStore := {|
  js_repr := memory_repr;
  jl_covers := memory_covers;
  jl_session := memory_session;
  jl_append := memory_append;
  jl_load m J sid Hm := ex_intro _ J (conj (memory_repr_cache _ _ _ (load_full_cache m sid CacheUse_Proving) Hm)
                          (conj (reflexivity J) (fun l => load_full_from m J sid CacheUse_Proving l Hm)));
  jl_write := memory_write
|}.

Lemma memory_new limits m : MemoryJournalStore_try_new limits = Ok m -> memory_repr m ∅.
Proof.
  intros Hnew. split; [by eapply store_repr_new|intros sid; unfold journal_of; rewrite lookup_empty; constructor|].
  unfold MemoryJournalStore_try_new in Hnew. step Hnew. injection Hnew as <-. intros sid sd sn acc Hsd.
  unfold session_of in Hsd. cbn in Hsd. by rewrite lookup_empty in Hsd.
Qed.
End Laws.
