(* ===== verification/Sample.v ===== *)
(** * A concrete run

    A complete run, executed by the model: acceptance, a model turn that asks
    for two tools (one batch, two groups), the tool results in source order, a
    second model turn, completion; and branches of it that fail, suspend, wait
    for a person and are cancelled.  The states of these runs are the concrete
    inputs at which the theorems are instantiated.

    The hasher and the codecs are toys: a digest is the length of the hashed
    bytes, a canonical form names the kind of value, and every payload decodes
    to the result of the tool call it is read for.

    The second part drives concrete decisions: decide, commit, apply. *)

From S2P Require Import Prelude Primitives Ids Floats Cbor CborCodec CborDecode Serializer Effects Records State Inputs ToolBatch Digests Policy ApplyStage ApplyTools ApplyEffects ApplyRecord Shapes Events.
From S2P Require Import Apply Decide DecideLimit DecideTools DecideStage DecideSettle DecideControl Reducer Decisions Chain ChainIntegrity BatchOrder History PhaseMachine PhaseBatch Reach Journal.

(** ** Toy external code *)

Definition toy_sha256 (bytes : string) : Digest := (N.of_nat (String.length bytes) mod 2 ^ 256)%N.
Definition toy_canonicalize (v : Canonical) : option string :=
  match v with Canon_Stage (StageFp_Fail _ _) => Some "failed" | _ => Some "value" end.
#[global] Instance toy_hasher : Hasher := {| sha256 := toy_sha256; canonicalize := toy_canonicalize |}.

(** The payloads ["20"] and ["21"] are the results of the calls 20 and 21. *)
Definition toy_decode_result (json : RawJson) : option ToolResultBlock :=
  if json =?? "20" then Some (mkToolResultBlock 20 [] false)
  else if json =?? "21" then Some (mkToolResultBlock 21 [] false)
  else None.
#[global] Instance toy_serde : Serde :=
  {| encode_error := fun _ => Some "{}"; decode_tool_result_block := toy_decode_result; decode_object := fun _ => Some ∅ |}.

(** ** Committing bodies *)

Definition sample_record (first : Z) (i : nat) (entry : RecordBody * nat) : RecordEnvelope :=
  let n := Z.to_N (first + Z.of_nat i) in
  mkRecordEnvelope 1 RECORD_KIND_VERSION (1000 + n)%N 1 2 (Some 3%N) (first + Z.of_nat i) (100 + first) None 0%N None 0%N
    ((fun k => (5000 + 10 * n + N.of_nat k)%N) <$> seq 0 entry.2) entry.1.

(** The batch a store would commit next for these bodies, each with its number
    of derived events. *)
Definition sample_batch (s : KernelState) (entries : list (RecordBody * nat)) : CommittedBatch :=
  let first := k_last_applied_sequence s + 1 in
  mkCommittedBatch 7 first (k_last_applied_sequence s + Z.of_nat (length entries))
    (imap (sample_record first) entries).

Definition commit (s : KernelState) (entries : list (RecordBody * nat)) : kresult (KernelState * list RunEvent) :=
  apply s (sample_batch s entries) 0.

(** ** The records *)

Definition no_limits : RunLimits := mkRunLimits None None None None None None None None None None None ∅.
Definition sample_principal : PrincipalRef := mkPrincipalRef "issuer" "subject" None.
Definition sample_accept : RunAccepted :=
  mkRunAccepted 3 (mkRunRelation 3 None None RunRelationKind_Root 0 None None)
    (mkRunSecurityContext "tenant" sample_principal "password" "low" "1" "d" None None) None no_limits
    (mkRunPropagationPolicy CancellationPropagation_Cascade DeadlinePropagation_MinimumOfParentAndChild
       BudgetPropagation_SharedScope PrincipalPropagation_Inherit) 0 (mkLineageValidation true).

Definition sample_stage_digest (fp : StageSettlementFingerprintV1) : Digest :=
  match canonical_digest "stage-settlement" (Canon_Stage fp) with Ok d => d | Err _ => 0%N end.
Definition sample_stage (cycle : Z) (stage : Stage) (d : StageDisposition) : RecordBody :=
  RecordBody_StageOutcomeRecorded
    (mkStageOutcomeRecorded (mkStageCursor cycle stage) d (sample_stage_digest (StageFp_Continue (mkStageCursor cycle stage)))).

Definition user_message : Message :=
  mkMessage 10 MessageRole_User [ContentBlock_Text (mkTextBlock "hello")] 90 None ProviderIds_empty METADATA_EMPTY.
Definition sample_context_digest (messages : list Message) : Digest :=
  match context_digest_and_len messages with Some p => p.1 | None => 0%N end.
Definition sample_context (cycle : Z) (turn : TurnId) : RecordBody :=
  RecordBody_ContextPrepared (mkContextPrepared cycle turn [user_message] (sample_context_digest [user_message])).

Definition model_contract : EffectOutputContract := mkEffectOutputContract EffectOutputKind_ModelResponse 1 0.
Definition tool_contract : EffectOutputContract := mkEffectOutputContract EffectOutputKind_ToolResult 1 0.
Definition model_request (effect : EffectId) : EffectRequested :=
  mkEffectRequested effect EffectKind_Model None None None model_contract (EffectInput_Model "{}") 0
    RetrySafety_SafeToRetry None.
Definition model_completed (effect : EffectId) : EffectCompleted :=
  mkEffectCompleted effect model_contract "{}" 0 None None [] ProviderIds_empty None None.

Definition tool_call (id : ToolCallId) : ToolCallBlock := mkToolCallBlock id "calculator" "{}" None.
Definition validated (id : ToolCallId) : ValidatedToolCall :=
  mkValidatedToolCall (tool_call id) "calculator" None tool_contract RetrySafety_SafeToRetry None
    ToolExecutionMode_Sequential ToolFailurePolicy_ReturnToModel.
Definition assigned (i : Z) (effect : EffectId) (id : ToolCallId) : AssignedToolCall :=
  mkAssignedToolCall i i effect (ToolCallPlan_Execute (validated id)).

(** The timestamp of the next batch. *)
Definition next_time (s : KernelState) : Timestamp := 100 + (k_last_applied_sequence s + 1).

Definition sample_entry (s : KernelState) (cycle : Z) (turn : TurnId) (request : ModelRequestId) (effect : EffectId)
    (message : MessageId) (content : list ContentBlock) : RecordBody :=
  RecordBody_EntryAppended
    (mkEntryAppended cycle turn request effect (msg_id <$> last (k_messages s))
       (mkMessage message MessageRole_Assistant content (next_time s) None ProviderIds_empty METADATA_EMPTY)).

Definition tool_request (effect : EffectId) (id : ToolCallId) : RecordBody :=
  RecordBody_EffectRequested
    (mkEffectRequested effect EffectKind_Tool None None None tool_contract (EffectInput_Tool (tool_call id)) 0
       RetrySafety_SafeToRetry None).
Definition tool_completed (effect : EffectId) (output : RawJson) : EffectCompleted :=
  mkEffectCompleted effect tool_contract output 0 None None [] ProviderIds_empty None None.
Definition ok_digest (r : result Digest KernelError) : Digest := match r with Ok d => d | Err _ => 0%N end.
Definition tool_settled (s : KernelState) (effect : EffectId) (id : ToolCallId) (output : RawJson) (message : MessageId)
    : RecordBody :=
  RecordBody_ToolCallSettled
    (mkToolCallSettled 0 11 30 id effect
       (mkMessage message MessageRole_Tool [ContentBlock_ToolResult (mkToolResultBlock id [] false)] (next_time s) None
          ProviderIds_empty METADATA_EMPTY)
       (ok_digest (completed_tool_record_digest 30 false (tool_completed effect output))) false None).

Definition sample_calls : list AssignedToolCall := [assigned 0 50 20; assigned 1 51 21].
Definition sample_plan_digest : Digest :=
  ok_digest (tool_batch_plan_digest 0 11 30 14 sample_calls ToolBatchContinuation_ContinueModel).
Definition sample_opened : ToolBatchOpened :=
  mkToolBatchOpened 0 11 30 14 sample_calls ToolBatchContinuation_ContinueModel sample_plan_digest.
Definition sample_closed : ToolBatchClosed :=
  mkToolBatchClosed 0 11 30 14 [60; 61]%N ToolBatchOutcome_ContinueModel
    (ok_digest (tool_batch_close_digest 0 11 30 14 [60; 61]%N ToolBatchOutcome_ContinueModel)).

(** ** The scripts *)

(** One committed batch as a function of the state it extends. *)
Definition Step : Type := KernelState -> list (RecordBody * nat).

Fixpoint play (s : KernelState) (script : list Step) : kresult KernelState :=
  match script with
  | [] => Ok s
  | step :: rest => let? r := commit s (step s) in play r.1 rest
  end.

Definition played (r : kresult KernelState) : KernelState :=
  match r with Ok s => s | Err _ => KernelState_default end.

Definition accept_run : Step := fun _ => [(RecordBody_RunAccepted sample_accept, 1%nat)].
Definition continue_stage (cycle : Z) (stage : Stage) : Step := fun _ =>
  [(sample_stage cycle stage StageDisposition_Continued, 0%nat)].
Definition prepare_context (cycle : Z) (turn : TurnId) : Step := fun _ =>
  [(sample_stage cycle Stage_PrepareContext
      (StageDisposition_ContextPrepared turn (sample_context_digest [user_message])), 0%nat);
   (sample_context cycle turn, 0%nat)].
Definition request_model (cycle : Z) (turn : TurnId) (request : ModelRequestId) (effect : EffectId) : Step := fun _ =>
  [(sample_stage cycle Stage_BeforeModel (StageDisposition_ModelRequested turn request effect), 0%nat);
   (RecordBody_EffectRequested (model_request effect), 1%nat)].
Definition complete_model (cycle : Z) (turn : TurnId) (request : ModelRequestId) (effect : EffectId)
    (message : MessageId) (content : list ContentBlock) : Step := fun s =>
  [(RecordBody_EffectCompleted (model_completed effect), 1%nat);
   (sample_entry s cycle turn request effect message content, 1%nat)].
Definition open_batch : Step := fun _ =>
  [(sample_stage 0 Stage_BeforeToolBatch (StageDisposition_ToolBatchPrepared 30 sample_plan_digest), 0%nat);
   (RecordBody_ToolBatchOpened sample_opened, 0%nat); (tool_request 50 20, 1%nat)].
Definition settle_first : Step := fun s =>
  [(RecordBody_EffectCompleted (tool_completed 50 "20"), 1%nat); (tool_settled s 50 20 "20" 60, 2%nat);
   (tool_request 51 21, 1%nat)].
Definition settle_second : Step := fun s =>
  [(RecordBody_EffectCompleted (tool_completed 51 "21"), 1%nat); (tool_settled s 51 21 "21" 61, 2%nat);
   (RecordBody_ToolBatchClosed sample_closed, 0%nat)].
Definition complete_run : Step := fun s =>
  [(sample_stage 1 Stage_BeforeFinalize StageDisposition_FinalizeAccepted, 0%nat);
   (RecordBody_RunCompleted
      match k_terminal_candidate s with
      | Some (TerminalCandidate_Completed c t m e r d) => mkRunCompleted c t m e r d
      | _ => mkRunCompleted 0 0 0 0 0 0
      end, 1%nat)].

Definition script : list Step :=
  [accept_run; continue_stage 0 Stage_BeforeRun; prepare_context 0 11; request_model 0 11 12 13;
   complete_model 0 11 12 13 14 [ContentBlock_ToolCall (tool_call 20); ContentBlock_ToolCall (tool_call 21)];
   continue_stage 0 Stage_AfterModel; open_batch; settle_first; settle_second; continue_stage 0 Stage_AfterToolBatch;
   prepare_context 1 15; request_model 1 15 16 17;
   complete_model 1 15 16 17 18 [ContentBlock_Text (mkTextBlock "done")];
   continue_stage 1 Stage_AfterModel; complete_run].

(** The run is cancelled while the first tool call is in flight; the call is
    reported cancelled, both results are settled synthetically and the batch
    closes before the run ends. *)
Definition request_cancellation : Step := fun _ =>
  [(RecordBody_CancellationRequested
      (mkCancellationRequested (mkCancellationRequest 70 CancellationInitiator_RuntimeShutdown None)), 0%nat)].

Definition tool_cancelled : RecordBody :=
  RecordBody_EffectCancelled (mkEffectCancelled 50 tool_contract None None).
Definition sample_cancelled_error : ErrorDescriptor :=
  mkErrorDescriptor "cancelled" "tool call was cancelled before run termination" ErrorCategory_Cancellation false
    ErrorIdentifiers_default METADATA_EMPTY.
Definition cancelled_result (id : ToolCallId) : ToolResultBlock :=
  mkToolResultBlock id [ContentBlock_Json (mkJsonBlock "{}")] true.
Definition tool_cancel_settled (s : KernelState) (effect : EffectId) (id : ToolCallId) (message : MessageId) : RecordBody :=
  RecordBody_ToolCallSettled
    (mkToolCallSettled 0 11 30 id effect
       (mkMessage message MessageRole_Tool [ContentBlock_ToolResult (cancelled_result id)] (next_time s) None
          ProviderIds_empty METADATA_EMPTY)
       (ok_digest (synthetic_tool_digest 30 id effect (cancelled_result id) sample_cancelled_error)) true
       (Some sample_cancelled_error)).
Definition sample_reconciled : CancellationReconciled := mkCancellationReconciled 70 [] [50%N] [].
Definition reconcile : Step := fun s =>
  [(tool_cancelled, 1%nat); (RecordBody_CancellationReconciled sample_reconciled, 0%nat);
   (tool_cancel_settled s 50 20 60, 2%nat); (tool_cancel_settled s 51 21 61, 2%nat);
   (RecordBody_ToolBatchClosed sample_closed, 0%nat);
   (RecordBody_RunCancelled (mkRunCancelled 70 "cancelled"), 1%nat)].
Definition cancel_script : list Step := take 7 script ++ [request_cancellation; reconcile].

(** The states after some of the batches. *)
Definition run6 : KernelState := Eval vm_compute in played (play KernelState_default (take 6 script)).
Definition run7 : KernelState := Eval vm_compute in played (play KernelState_default (take 7 script)).
Definition run8 : KernelState := Eval vm_compute in played (play KernelState_default (take 8 script)).
Definition run9 : KernelState := Eval vm_compute in played (play KernelState_default (take 9 script)).
Definition run14 : KernelState := Eval vm_compute in played (play KernelState_default (take 14 script)).
Definition run15 : KernelState := Eval vm_compute in played (play KernelState_default script).
Definition cancel1 : KernelState := Eval vm_compute in played (play KernelState_default (take 8 cancel_script)).
Definition cancel2 : KernelState := Eval vm_compute in played (play KernelState_default cancel_script).

(** ** Reachability *)

Lemma play_reachable s script s' : reachable s -> play s script = Ok s' -> reachable s'.
Proof.
  revert s. induction script as [|step rest IH]; intros s Hs HH; simpl in HH; [by injection HH as <-|].
  step HH. destruct a as [s1 events]. eapply IH; [|exact HH]. by eapply reachable_apply.
Qed.

(** The script runs to completion, the branch to cancellation. *)
Example script_completes : k_phase <$> [run6; run7; run8; run9; run14; run15; cancel1; cancel2] =
  [Some RunPhase_BeforeToolBatch; Some RunPhase_AwaitingTools; Some RunPhase_AwaitingTools;
   Some RunPhase_AfterToolBatch; Some RunPhase_BeforeFinalize; Some RunPhase_Completed;
   Some RunPhase_Cancelling; Some RunPhase_Cancelled].
Proof. reflexivity. Qed.

Ltac replayed l := apply (play_reachable KernelState_default l); [constructor|vm_compute; reflexivity].

Lemma run7_reachable : reachable run7.
Proof. replayed (take 7 script). Qed.
Lemma run8_reachable : reachable run8.
Proof. replayed (take 8 script). Qed.
Lemma run14_reachable : reachable run14.
Proof. replayed (take 14 script). Qed.
Lemma run15_reachable : reachable run15.
Proof. replayed script. Qed.
Lemma cancel1_reachable : reachable cancel1.
Proof. replayed (take 8 cancel_script). Qed.
Lemma cancel2_reachable : reachable cancel2.
Proof. replayed cancel_script. Qed.

(** ** Single steps *)

Definition step_events (s : KernelState) (step : Step) : list RunEvent :=
  match commit s (step s) with Ok p => p.2 | Err _ => [] end.

Lemma settle_commits :
  apply run7 (sample_batch run7 (settle_first run7)) 0 = Ok (run8, step_events run7 settle_first).
Proof. vm_compute. reflexivity. Qed.
Lemma complete_commits :
  apply run14 (sample_batch run14 (complete_run run14)) 0 = Ok (run15, step_events run14 complete_run).
Proof. vm_compute. reflexivity. Qed.
Lemma cancel_commits :
  apply run7 (sample_batch run7 (request_cancellation run7)) 0 = Ok (cancel1, step_events run7 request_cancellation).
Proof. vm_compute. reflexivity. Qed.
Lemma reconcile_commits :
  apply cancel1 (sample_batch cancel1 (reconcile cancel1)) 0 = Ok (cancel2, step_events cancel1 reconcile).
Proof. vm_compute. reflexivity. Qed.

(** * A driver for concrete decisions

    Executes the whole loop of the reducer on concrete inputs: decide, commit
    the proposed records to the journal, apply the committed batch.  The derived
    serializers are toys: the name of a record's kind stands for the record. *)

#[global] Existing Instances ieee_half ieee_half_laws.

Definition text (s : string) : bytes := String.list_ascii_of_string s.

Definition toy_body_serde (body : RecordBody) : SerdeTree :=
  match body with
  | RecordBody_RunAccepted _ => Serde_str (text "run_accepted")
  | RecordBody_RunFailed _ => Serde_str (text "run_failed")
  | _ => Serde_str (text "other")
  end.
#[global] Instance toy_wire : Wire :=
  {| body_serde := toy_body_serde; envelope_serde := fun r => toy_body_serde (rec_body r) |}.
#[global] Instance toy_hasher_laws : HasherLaws.
Proof. split. intros s. by apply N.mod_lt. Qed.

(** ** The loop *)

Inductive Driven : Type :=
| Driven_Undecided (e : KernelError)
| Driven_Uncommitted (e : ProtocolError)
| Driven_Rejected (d : Decision) (e : KernelError)
| Driven_Applied (d : Decision) (s : KernelState) (events : list RunEvent).

Definition drive (s : KernelState) (env : TransitionEnv) (input : KernelInput) : Driven :=
  match Kernel_decide s env input with
  | Err e => Driven_Undecided e
  | Ok d =>
      match commit_records (dec_records d) (dec_expected_sequence d) None None with
      | Err e => Driven_Uncommitted e
      | Ok rs =>
          match apply s (batch_of 7 (dec_expected_sequence d) rs) 0 with
          | Err e => Driven_Rejected d e
          | Ok (s', events) => Driven_Applied d s' events
          end
      end
  end.

Definition driven (r : Driven) : KernelState :=
  match r with Driven_Applied _ s _ => s | _ => KernelState_default end.

(** Fresh identities: [n] of them from a base. *)
Definition fresh (base : N) (n : nat) : list N := (fun k => (base + N.of_nat k)%N) <$> seq 0 n.

(** An environment with this many record, event and effect identities. *)
Definition sample_env (base : N) (now : Timestamp) (records events effects : nat) : TransitionEnv :=
  mkTransitionEnv now
    (mkAllocatedIds (fresh base records) (fresh (base + 100) events) (fresh (base + 200) effects) [] [] [] [] [] [] [] []).

(** ** A run with a deadline and a pending extension effect *)

Definition deadline_accept : RunAccepted :=
  mkRunAccepted 3 (ra_relation sample_accept) (ra_security sample_accept) (Some 1000) no_limits
    (ra_propagation sample_accept) 0 (mkLineageValidation true).
Definition accept_input : KernelInput := KernelInput_AcceptRun (mkAcceptRun 1 2 deadline_accept).

Definition middleware_contract : EffectOutputContract := mkEffectOutputContract EffectOutputKind_MiddlewareOutcome 1 0.
Definition middleware_request : EffectRequested :=
  mkEffectRequested 1200 EffectKind_Middleware None
    (Some (mkComponentInvocation "acme.middleware" (mkVersion 1 0 0) 0 InvocationRecovery_RecomputeSafe))
    (Some (mkPipelinePosition 0 "before_run" 0)) middleware_contract
    (EffectInput_Middleware (mkStageCursor 0 Stage_BeforeRun) "before_run" "{}" None) 0 RetrySafety_SafeToRetry None.
Definition middleware_settled : KernelInput :=
  KernelInput_ExtensionEffectSettled
    (mkExtensionEffectSettled (mkStageCursor 0 Stage_BeforeRun)
       (ExtensionSettlement_Completed
          (mkEffectCompleted 1200 middleware_contract "{}" 0 None None [] ProviderIds_empty None None))).

Definition drive1 : Driven := drive KernelState_default (sample_env 900 100 1 1 0) accept_input.
Definition deadline_run : KernelState := Eval vm_compute in driven drive1.
Definition drive2 : Driven :=
  drive deadline_run (sample_env 1000 200 1 1 1) (KernelInput_RequestExtensionEffect (mkRequestExtensionEffect middleware_request)).
Definition extension_run : KernelState := Eval vm_compute in driven drive2.

(** ** Two parallel calls whose failure fails the run *)

Definition drive_env (base : N) (now : Timestamp) (records events effects messages batches cancels : nat) : TransitionEnv :=
  mkTransitionEnv now
    (mkAllocatedIds (fresh base records) (fresh (base + 100) events) (fresh (base + 200) effects) []
       (fresh (base + 300) messages) [] [] (fresh (base + 400) batches) [] [] (fresh (base + 500) cancels)).

Definition fatal_call (id : ToolCallId) : ToolCallPlan :=
  ToolCallPlan_Execute
    (mkValidatedToolCall (tool_call id) "calculator" None tool_contract RetrySafety_SafeToRetry None
       ToolExecutionMode_Parallel ToolFailurePolicy_FailRun).
Definition open_fatal : KernelInput :=
  KernelInput_StageSettled
    (mkStageSettled (mkStageCursor 0 Stage_BeforeToolBatch)
       (ReducerStageOutcome_ToolBatchPrepared [fatal_call 20; fatal_call 21] ToolBatchContinuation_ContinueModel)).
Definition tool_error : ErrorDescriptor :=
  mkErrorDescriptor "tool_failed" "the tool failed" ErrorCategory_Tool false ErrorIdentifiers_default METADATA_EMPTY.
Definition fail_first : KernelInput :=
  KernelInput_ToolBatchSettled
    (mkToolBatchSettled 10400 (ToolSettlement_Failed (mkEffectFailed 10200 tool_contract tool_error None None None))).
Definition cancel_input : KernelInput :=
  KernelInput_CancelRequested (mkCancelRequested CancellationInitiator_RuntimeShutdown None).
Definition reconcile_second : KernelInput :=
  KernelInput_CancellationReconciled (mkCancellationReconciledInput 12500 [] [10201%N] []).

Definition fatal1 : KernelState := Eval vm_compute in driven (drive run6 (drive_env 10000 120 4 2 2 0 1 0) open_fatal).
Definition fatal2 : KernelState := Eval vm_compute in driven (drive fatal1 (drive_env 11000 130 2 3 0 1 0 0) fail_first).
Definition fatal3 : KernelState := Eval vm_compute in driven (drive fatal2 (drive_env 12000 140 1 0 0 0 0 1) cancel_input).

(** ** Reachability *)

Definition decision_of (s : KernelState) (env : TransitionEnv) (input : KernelInput) : Decision :=
  match Kernel_decide s env input with Ok d => d | Err _ => mkDecision 0 [] [] [] end.
Definition committed_of (d : Decision) : list RecordEnvelope :=
  match commit_records (dec_records d) (dec_expected_sequence d) None None with Ok rs => rs | Err _ => [] end.
Definition applied (r : Driven) : bool := match r with Driven_Applied _ _ _ => true | _ => false end.

Lemma driven_reachable s env input : reachable s -> applied (drive s env input) = true -> reachable (driven (drive s env input)).
Proof.
  intros Hr. unfold drive. destruct (Kernel_decide _ _ _) as [d|]; [|done]. destruct (commit_records _ _ _ _) as [rs|]; [|done].
  destruct (apply _ _ _) as [[s' events]|] eqn:Ha; [|done]. intros _. by eapply reachable_apply.
Qed.

Ltac was_driven s env input prior :=
  change (reachable (driven (drive s env input))); apply driven_reachable; [exact prior|vm_compute; reflexivity].

Lemma deadline_run_reachable : reachable deadline_run.
Proof. was_driven KernelState_default (sample_env 900 100 1 1 0) accept_input reachable_default. Qed.
Lemma extension_run_reachable : reachable extension_run.
Proof.
  was_driven deadline_run (sample_env 1000 200 1 1 1)
    (KernelInput_RequestExtensionEffect (mkRequestExtensionEffect middleware_request)) deadline_run_reachable.
Qed.
Lemma run6_reachable : reachable run6.
Proof. replayed (take 6 script). Qed.
Lemma fatal1_reachable : reachable fatal1.
Proof. was_driven run6 (drive_env 10000 120 4 2 2 0 1 0) open_fatal run6_reachable. Qed.

(** ** A plan that changes the provider's identity of a call *)

Definition renamed_call (id : ToolCallId) : ToolCallPlan :=
  ToolCallPlan_Execute
    (mkValidatedToolCall (mkToolCallBlock id "calculator" "{}" (Some "other")) "calculator" None tool_contract
       RetrySafety_SafeToRetry None ToolExecutionMode_Parallel ToolFailurePolicy_FailRun).
Definition open_renamed : KernelInput :=
  KernelInput_StageSettled
    (mkStageSettled (mkStageCursor 0 Stage_BeforeToolBatch)
       (ReducerStageOutcome_ToolBatchPrepared [renamed_call 20; renamed_call 21] ToolBatchContinuation_ContinueModel)).

(** The plan is decided on and committed, and the batch is refused. *)
Lemma renamed_plan_refused :
  match drive run6 (drive_env 10000 120 4 2 2 0 1 0) open_renamed with
  | Driven_Rejected _ e => e = KernelError_ToolBatchPlanMismatch
  | _ => False
  end.
Proof. vm_compute. reflexivity. Qed.

(** ** A deadline that passes while tool calls are in flight *)

Definition accept_deadline : Step := fun _ => [(RecordBody_RunAccepted deadline_accept, 1%nat)].
Definition deadline_script : list Step := accept_deadline :: drop 1 (take 7 script).
Definition deadline_tools : KernelState := Eval vm_compute in played (play KernelState_default deadline_script).
Lemma deadline_tools_reachable : reachable deadline_tools.
Proof. replayed deadline_script. Qed.

Definition settle_late : KernelInput :=
  KernelInput_ToolBatchSettled (mkToolBatchSettled 30 (ToolSettlement_Completed (tool_completed 50 "20"))).
Definition late_failed : KernelState :=
  Eval vm_compute in driven (drive deadline_tools (drive_env 14000 2000 2 2 0 0 0 0) settle_late).
