(* ===== verification/ModelPort.v ===== *)
(** * The model port: profiles and requests

    Models [ports/model] of [finstack-ai-runtime]: [error.rs], [identity.rs],
    [profile.rs], [request.rs] and the request check of [port.rs].  Canonical
    JSON of a draft and of a profile and the decoding of a committed draft are
    the class [ModelJson]; the token estimate is a function of the provider. *)

From S2P Require Import Prelude Primitives Effects Records State Inputs Digests.

(** ** Errors ([error.rs], [mod.rs]) *)

Definition MODEL_REQUEST_INVALID : string := "model_request_invalid".
Definition MODEL_PROFILE_INVALID : string := "model_profile_invalid".
Definition MODEL_PROFILE_RELAXATION : string := "model_profile_relaxation".
Definition MODEL_PROFILE_OVERRIDE_NOT_ALLOWED : string := "model_profile_override_not_allowed".
Definition MODEL_ESTIMATOR_MISMATCH : string := "model_estimator_mismatch".
Definition MODEL_CONTEXT_LIMIT_EXCEEDED : string := "model_context_limit_exceeded".

Definition STREAM_TEXT_MAX_BYTES : Z := 1048576.
Definition STREAM_REASONING_MAX_BYTES : Z := 1048576.

Record ModelError : Type := mkModelError {
  mde_code : string;
  mde_category : ErrorCategory;
  mde_retryable : bool;
  mde_message : string
}.
#[global] Instance ModelError_eq_dec : EqDecision ModelError.
Proof. solve_decision. Defined.

Definition ModelError_validation (code message : string) : ModelError :=
  mkModelError code ErrorCategory_Validation false message.
Definition ModelError_limit (code message : string) : ModelError := mkModelError code ErrorCategory_Limit false message.

Notation dresult A := (result A ModelError) (only parsing).

(** [validated_label] of [identity.rs]. *)
Definition validated_label (value : string) : dresult string :=
  if label_is_valid value then Ok value
  else Err (ModelError_validation MODEL_REQUEST_INVALID "model label is empty, oversized, or contains NUL").

Record ModelDescriptor : Type := mkModelDescriptor {
  mdd_provider : string;
  mdd_models : list string;
  mdd_metadata : Metadata
}.

Definition MAX_MODELS : nat := 256.

Definition ModelDescriptor_validate (d : ModelDescriptor) : dresult unit :=
  do? reject_if (negb (label_is_valid (mdd_provider d)))
        (ModelError_validation MODEL_PROFILE_INVALID "model provider identity is invalid") in
  do? reject_if ((length (mdd_models d) =? 0)%nat || (MAX_MODELS <? length (mdd_models d))%nat)
        (ModelError_validation MODEL_PROFILE_INVALID "model descriptor has an invalid model count") in
  reject_if (negb (size (list_to_set (mdd_models d) : gset string) =? length (mdd_models d))%nat)
    (ModelError_validation MODEL_PROFILE_INVALID "model descriptor contains duplicate model names").

(** ** Profiles ([profile.rs]) *)

Inductive TokenEstimatorSource : Type :=
| TokenEstimatorSource_ProviderTokenizer
| TokenEstimatorSource_ProjectExact
| TokenEstimatorSource_ConservativeUpperBound.
#[global] Instance TokenEstimatorSource_eq_dec : EqDecision TokenEstimatorSource.
Proof. solve_decision. Defined.

Record TokenEstimatorRef : Type := mkTokenEstimatorRef {
  ter_id : string;
  ter_version : string;
  ter_source : TokenEstimatorSource
}.
#[global] Instance TokenEstimatorRef_eq_dec : EqDecision TokenEstimatorRef.
Proof. solve_decision. Defined.

Record ModelContextProfile : Type := mkModelContextProfile {
  mcp_provider : string;
  mcp_model : string;
  mcp_hard_input_bytes : Z;
  mcp_context_window_tokens : Z;
  mcp_max_output_tokens : Z;
  mcp_reserved_output_tokens : Z;
  mcp_provider_overhead_tokens : Z;
  mcp_estimator : TokenEstimatorRef
}.
#[global] Instance ModelContextProfile_eq_dec : EqDecision ModelContextProfile.
Proof. solve_decision. Defined.

Record ModelContextProfileOverride : Type := mkModelContextProfileOverride {
  mco_hard_input_bytes : option Z;
  mco_context_window_tokens : option Z;
  mco_max_output_tokens : option Z;
  mco_reserved_output_tokens : option Z;
  mco_provider_overhead_tokens : option Z
}.

Definition override_is_empty (o : ModelContextProfileOverride) : bool :=
  is_none (mco_hard_input_bytes o) && is_none (mco_context_window_tokens o) && is_none (mco_max_output_tokens o)
  && is_none (mco_reserved_output_tokens o) && is_none (mco_provider_overhead_tokens o).

Record LockedModelContextProfile : Type := mkLockedModelContextProfile {
  lmp_profile : ModelContextProfile;
  lmp_digest : Digest
}.

Definition tighten_ceiling (current : Z) (candidate : option Z) : dresult Z :=
  match candidate with
  | Some candidate =>
      if current <? candidate
      then Err (ModelError_validation MODEL_PROFILE_RELAXATION
                  "model-profile ceiling override would relax the current profile")
      else Ok (Z.min current candidate)
  | None => Ok current
  end.

Definition tighten_margin (current : Z) (candidate : option Z) : dresult Z :=
  match candidate with
  | Some candidate =>
      if candidate <? current
      then Err (ModelError_validation MODEL_PROFILE_RELAXATION
                  "model-profile margin override would relax the current profile")
      else Ok (Z.max current candidate)
  | None => Ok current
  end.

Definition validate_profile (p : ModelContextProfile) : dresult unit :=
  do? reject_if (negb (label_is_valid (mcp_provider p)) || negb (label_is_valid (ter_id (mcp_estimator p)))
                 || negb (label_is_valid (ter_version (mcp_estimator p))) || (mcp_hard_input_bytes p =? 0)
                 || (mcp_context_window_tokens p =? 0) || (mcp_max_output_tokens p =? 0))
        (ModelError_validation MODEL_PROFILE_INVALID "model profile requires non-zero ceilings and estimator identity") in
  let? margins := ok_or (u64_checked_add (mcp_reserved_output_tokens p) (mcp_provider_overhead_tokens p))
                    (ModelError_validation MODEL_PROFILE_INVALID "model profile margin overflow") in
  reject_if (mcp_context_window_tokens p <? margins)
    (ModelError_validation MODEL_PROFILE_INVALID "model profile margins exceed the context window").

Definition apply_profile_override (p : ModelContextProfile) (o : ModelContextProfileOverride) : dresult ModelContextProfile :=
  let? hard := tighten_ceiling (mcp_hard_input_bytes p) (mco_hard_input_bytes o) in
  let? window := tighten_ceiling (mcp_context_window_tokens p) (mco_context_window_tokens o) in
  let? output := tighten_ceiling (mcp_max_output_tokens p) (mco_max_output_tokens o) in
  let? reserved := tighten_margin (mcp_reserved_output_tokens p) (mco_reserved_output_tokens o) in
  let? overhead := tighten_margin (mcp_provider_overhead_tokens p) (mco_provider_overhead_tokens o) in
  let p := mkModelContextProfile (mcp_provider p) (mcp_model p) hard window output reserved overhead (mcp_estimator p) in
  do? validate_profile p in
  Ok p.

(** ** Request drafts ([request.rs]) *)

Inductive ApprovalRequirement : Type :=
| ApprovalRequirement_Policy
| ApprovalRequirement_Required
| ApprovalRequirement_NotRequired.
#[global] Instance ApprovalRequirement_eq_dec : EqDecision ApprovalRequirement.
Proof. solve_decision. Defined.

Record ApprovalMetadata : Type := mkApprovalMetadata {
  apm_requirement : ApprovalRequirement;
  apm_reason : option string;
  apm_attributes : Metadata
}.
#[global] Instance ApprovalMetadata_eq_dec : EqDecision ApprovalMetadata.
Proof. solve_decision. Defined.

Inductive SideEffectClass : Type :=
| SideEffectClass_ReadOnly
| SideEffectClass_IdempotentWrite
| SideEffectClass_NonIdempotentWrite.
#[global] Instance SideEffectClass_eq_dec : EqDecision SideEffectClass.
Proof. solve_decision. Defined.

Inductive ToolDeferralSupport : Type :=
| ToolDeferralSupport_Never
| ToolDeferralSupport_Supported.
#[global] Instance ToolDeferralSupport_eq_dec : EqDecision ToolDeferralSupport.
Proof. solve_decision. Defined.

Record ToolSpec : Type := mkToolSpec {
  tsp_id : ToolId;
  tsp_model_name : string;
  tsp_title : string;
  tsp_description : string;
  tsp_input_schema : RawJson;
  tsp_output_schema : option RawJson;
  tsp_execution : ToolExecutionMode;
  tsp_side_effect : SideEffectClass;
  tsp_retry_safety : RetrySafety;
  tsp_approval : ApprovalMetadata;
  tsp_max_result_bytes : Z;
  tsp_metadata : Metadata;
  tsp_deferral : ToolDeferralSupport
}.
#[global] Instance ToolSpec_eq_dec : EqDecision ToolSpec.
Proof. solve_decision. Defined.

Definition bad_text (s : string) : bool := (s =?? "") || (STREAM_TEXT_MAX_BYTES <? str_len s) || has_nul s.

Definition ToolSpec_validate (t : ToolSpec) : dresult unit :=
  do? validated_label (tsp_model_name t) in
  do? validated_label (tsp_title t) in
  do? reject_if (bad_text (tsp_description t) || (tsp_max_result_bytes t =? 0))
        (ModelError_validation MODEL_REQUEST_INVALID "model tool metadata or result bound is invalid") in
  reject_if (is_some_and (apm_reason (tsp_approval t)) bad_text)
    (ModelError_validation MODEL_REQUEST_INVALID "model tool approval reason is invalid").

Record ModelRequestLimits : Type := mkModelRequestLimits {
  mrl_max_input_bytes : Z;
  mrl_max_input_tokens : Z;
  mrl_max_output_tokens : Z
}.
#[global] Instance ModelRequestLimits_eq_dec : EqDecision ModelRequestLimits.
Proof. solve_decision. Defined.

Record ModelRequestDraft : Type := mkModelRequestDraft {
  mrd_model : string;
  mrd_messages : list Message;
  mrd_tools : list ToolSpec;
  mrd_output : OutputSpec;
  mrd_settings : RawJson;
  mrd_limits : ModelRequestLimits
}.
#[global] Instance ModelRequestDraft_eq_dec : EqDecision ModelRequestDraft.
Proof. solve_decision. Defined.

Definition MAX_MESSAGES : nat := Z.to_nat 4096.
Definition MAX_TOOLS : nat := Z.to_nat 1024.

Definition draft_tool_step (names : gset string) (tool : ToolSpec) : dresult (gset string) :=
  do? ToolSpec_validate tool in
  if bool_decide (tsp_model_name tool ∈ names)
  then Err (ModelError_validation MODEL_REQUEST_INVALID "model request contains a duplicate tool name")
  else Ok ({[tsp_model_name tool]} ∪ names).

Definition ModelRequestDraft_validate (d : ModelRequestDraft) : dresult unit :=
  do? reject_if ((MAX_MESSAGES <? length (mrd_messages d))%nat || (MAX_TOOLS <? length (mrd_tools d))%nat)
        (ModelError_validation MODEL_REQUEST_INVALID "model request collection exceeds its cardinality limit") in
  do? rfold draft_tool_step ∅ (mrd_tools d) in
  Ok tt.

Class ModelJson : Type := {
  jcs_draft : ModelRequestDraft -> option string;
  jcs_profile : ModelContextProfile -> option string;
  draft_of_json : RawJson -> option ModelRequestDraft
}.

Definition ModelRequestDraft_canonical_bytes `{ModelJson} (d : ModelRequestDraft) : dresult string :=
  do? ModelRequestDraft_validate d in
  ok_or (jcs_draft d) (ModelError_validation MODEL_REQUEST_INVALID "model request is not serializable").

Definition resolve_model_context_profile `{Hasher, ModelJson} (provider : ModelContextProfile)
    (agent run : option ModelContextProfileOverride) (run_override_allowed : bool) : dresult LockedModelContextProfile :=
  do? validate_profile provider in
  let? profile := match agent with Some overlay => apply_profile_override provider overlay | None => Ok provider end in
  let? profile := match run with
                  | Some overlay =>
                      if negb run_override_allowed && negb (override_is_empty overlay)
                      then Err (ModelError_validation MODEL_PROFILE_OVERRIDE_NOT_ALLOWED
                                  "run model-profile override is not allowlisted")
                      else apply_profile_override profile overlay
                  | None => Ok profile
                  end in
  do? validate_profile profile in
  let? bytes := ok_or (jcs_profile profile)
                  (ModelError_validation MODEL_PROFILE_INVALID "model profile is not serializable") in
  Ok (mkLockedModelContextProfile profile (digest_raw_json bytes)).

(** ** Checking a request ([port.rs]) *)

Record ModelTokenEstimate : Type := mkModelTokenEstimate {
  mte_input_tokens : Z;
  mte_estimator : TokenEstimatorRef
}.

Record ModelRequestValidation : Type := mkModelRequestValidation {
  mrv_canonical_request : string;
  mrv_estimated_input_tokens : Z;
  mrv_available_input_tokens : Z
}.

Definition validate_model_request `{ModelJson} (estimate_input_tokens : string -> string -> dresult ModelTokenEstimate)
    (draft : ModelRequestDraft) (locked : LockedModelContextProfile) : dresult ModelRequestValidation :=
  let profile := lmp_profile locked in
  let limits := mrd_limits draft in
  do? reject_if (mrd_model draft <>?? mcp_model profile)
        (ModelError_validation MODEL_REQUEST_INVALID "model request does not match the locked profile") in
  let? canonical := ModelRequestDraft_canonical_bytes draft in
  let byte_limit := Z.min (mrl_max_input_bytes limits) (mcp_hard_input_bytes profile) in
  do? reject_if ((byte_limit =? 0) || (byte_limit <? str_len canonical))
        (ModelError_limit MODEL_CONTEXT_LIMIT_EXCEEDED "model request exceeds the canonical byte ceiling") in
  do? reject_if ((mcp_hard_input_bytes profile <? mrl_max_input_bytes limits)
                 || (mcp_reserved_output_tokens profile <? mrl_max_output_tokens limits)
                 || (mrl_max_input_tokens limits =? 0) || (mrl_max_output_tokens limits =? 0))
        (ModelError_limit MODEL_CONTEXT_LIMIT_EXCEEDED "model request limits exceed the locked profile") in
  let? estimate := estimate_input_tokens (mrd_model draft) canonical in
  do? reject_if (mte_estimator estimate <>?? mcp_estimator profile)
        (ModelError_validation MODEL_ESTIMATOR_MISMATCH "model token estimator does not match the locked profile") in
  let? margins := ok_or (u64_checked_add (mcp_reserved_output_tokens profile) (mcp_provider_overhead_tokens profile))
                    (ModelError_validation MODEL_PROFILE_INVALID "model profile margin overflow") in
  let? available := ok_or (u64_checked_sub (mcp_context_window_tokens profile) margins)
                      (ModelError_validation MODEL_PROFILE_INVALID "model profile margins are invalid") in
  let input_limit := Z.min (mrl_max_input_tokens limits) available in
  do? reject_if ((input_limit <? mte_input_tokens estimate) || (mcp_max_output_tokens profile <? mrl_max_output_tokens limits))
        (ModelError_limit MODEL_CONTEXT_LIMIT_EXCEEDED "model request exceeds the effective token budget") in
  Ok (mkModelRequestValidation canonical (mte_input_tokens estimate) available).

Definition parse_committed_model_request `{ModelJson}
    (estimate_input_tokens : string -> string -> dresult ModelTokenEstimate) (locked : LockedModelContextProfile)
    (raw : RawJson) : dresult ModelRequestDraft :=
  let? draft := ok_or (draft_of_json raw)
                  (ModelError_validation MODEL_REQUEST_INVALID "committed model request draft is invalid") in
  let? bytes := ModelRequestDraft_canonical_bytes draft in
  do? reject_if (bytes <>?? raw)
        (ModelError_validation MODEL_REQUEST_INVALID "model request draft is not the canonical committed DTO") in
  do? validate_model_request estimate_input_tokens draft locked in
  Ok draft.
