(* ===== verification/ContextPort.v ===== *)
(** * The context port

    Models [ports/context] of [finstack-ai-runtime] ([types.rs], [error.rs],
    [assembly.rs], [committed.rs] and the data of [port.rs]): context items and
    contributions with their checks, the assembly of committed contributions
    under a budget, the guard that ties a provider call to its committed effect,
    and the normalization that decides which items speak with authority.

    Canonical JSON ([serde_json_canonicalizer], [serde_json] and the derived
    serializers) is the class [ContextJson]; a provider is a record of functions
    on a world, because it is a trait object that may act and drift. *)

From S2P Require Import Prelude Primitives Effects Records State Inputs Dispatch.

(** ** Errors ([error.rs]) *)

Definition CONTEXT_CONFIGURATION_INVALID : string := "context_configuration_invalid".
Definition CONTEXT_COMMIT_REQUIRED : string := "context_commit_required".
Definition CONTEXT_CONTRIBUTION_INVALID : string := "context_contribution_invalid".
Definition CONTEXT_BUDGET_EXCEEDED : string := "context_budget_exceeded".
Definition CONTEXT_RECOVERY_UNCERTAIN : string := "context_recovery_uncertain".

Record ContextError : Type := mkContextError {
  cxe_code : string;
  cxe_category : ErrorCategory;
  cxe_message : string;
  cxe_metadata : Metadata
}.
#[global] Instance ContextError_eq_dec : EqDecision ContextError.
Proof. solve_decision. Defined.

Definition ContextError_stable (code message : string) : ContextError :=
  mkContextError code
    (if code =?? CONTEXT_BUDGET_EXCEEDED then ErrorCategory_Limit else ErrorCategory_Validation) message METADATA_EMPTY.

Definition ContextError_descriptor (e : ContextError) : ErrorDescriptor :=
  mkErrorDescriptor (cxe_code e) (cxe_message e) (cxe_category e) false ErrorIdentifiers_default (cxe_metadata e).

Definition commit_required : ContextError :=
  ContextError_stable CONTEXT_COMMIT_REQUIRED "context invocation is not backed by the exact committed effect".

Notation xresult A := (result A ContextError) (only parsing).

Definition validate_label (value field : string) : xresult unit :=
  reject_if (negb (label_is_valid value)) (ContextError_stable CONTEXT_CONTRIBUTION_INVALID field).

Definition CONTEXT_TEXT_MAX_BYTES : Z := 1048576.

Definition validate_text (value field : string) : xresult unit :=
  reject_if ((value =?? "") || (CONTEXT_TEXT_MAX_BYTES <? str_len value) || has_nul value)
    (ContextError_stable CONTEXT_CONTRIBUTION_INVALID field).

(** ** Data ([types.rs]) *)

Inductive ContextOverflowPolicy : Type :=
| ContextOverflowPolicy_Reject
| ContextOverflowPolicy_TruncateWithDiagnostic.
#[global] Instance ContextOverflowPolicy_eq_dec : EqDecision ContextOverflowPolicy.
Proof. solve_decision. Defined.

Record ContextBudget : Type := mkContextBudget {
  cb_max_items : nat;
  cb_max_tokens : Z;
  cb_max_bytes : Z;
  cb_overflow : ContextOverflowPolicy
}.
#[global] Instance ContextBudget_eq_dec : EqDecision ContextBudget.
Proof. solve_decision. Defined.

Definition ContextBudget_validate (b : ContextBudget) : xresult ContextBudget :=
  if (SEMANTIC_ARRAY_MAX_ITEMS <? cb_max_items b)%nat
  then Err (ContextError_stable CONTEXT_CONFIGURATION_INVALID "context item budget exceeds the semantic maximum")
  else Ok b.

Inductive ContextAuthority : Type :=
| ContextAuthority_Untrusted
| ContextAuthority_TrustedApplication.
#[global] Instance ContextAuthority_eq_dec : EqDecision ContextAuthority.
Proof. solve_decision. Defined.

Inductive ContextItemKind : Type :=
| ContextItemKind_Instruction
| ContextItemKind_QuotedSource
| ContextItemKind_Reference
| ContextItemKind_Metadata
| ContextItemKind_HiddenApplicationContext
| ContextItemKind_DerivedSummary.
#[global] Instance ContextItemKind_eq_dec : EqDecision ContextItemKind.
Proof. solve_decision. Defined.

Record ContextProvenance : Type := mkContextProvenance {
  cp_source_id : string;
  cp_source_ref : option string;
  cp_external : bool
}.
#[global] Instance ContextProvenance_eq_dec : EqDecision ContextProvenance.
Proof. solve_decision. Defined.

Definition ContextProvenance_validate (p : ContextProvenance) : xresult unit :=
  do? validate_label (cp_source_id p) "context provenance source" in
  match cp_source_ref p with
  | Some value => validate_text value "context provenance reference"
  | None => Ok tt
  end.

Record ContextItem : Type := mkContextItem {
  cxi_kind : ContextItemKind;
  cxi_content : list ContentBlock;
  cxi_provenance : ContextProvenance;
  cxi_authority : ContextAuthority;
  cxi_priority : Z;
  cxi_estimated_tokens : Z;
  cxi_bytes : Z;
  cxi_sensitivity : Sensitivity;
  cxi_protected : bool
}.
#[global] Instance ContextItem_eq_dec : EqDecision ContextItem.
Proof. solve_decision. Defined.

Record ContextRequest : Type := mkContextRequest {
  cxr_session_id : SessionId;
  cxr_lane_id : LaneId;
  cxr_run_id : RunId;
  cxr_user_input : list ContentBlock;
  cxr_recent_history : list Message;
  cxr_budget : ContextBudget;
  cxr_active_capabilities : list CapabilityId
}.
#[global] Instance ContextRequest_eq_dec : EqDecision ContextRequest.
Proof. solve_decision. Defined.

Record ContextContribution : Type := mkContextContribution {
  cxc_items : list ContextItem;
  cxc_estimated_tokens : Z;
  cxc_bytes : Z;
  cxc_cache_key : option string
}.
#[global] Instance ContextContribution_eq_dec : EqDecision ContextContribution.
Proof. solve_decision. Defined.

(** Canonical JSON of the port's values, [RawJson::parse] of canonical bytes and
    the decoding of a committed contribution.  [None] is the encoder's error. *)
Class ContextJson : Type := {
  jcs_content : list ContentBlock -> option string;
  jcs_request : ContextRequest -> option string;
  jcs_contribution : ContextContribution -> option string;
  raw_json_parse : string -> option RawJson;
  contribution_of_json : RawJson -> option ContextContribution
}.

Definition canonical_bytes (bytes : option string) : xresult string :=
  ok_or bytes (ContextError_stable CONTEXT_CONTRIBUTION_INVALID "context value could not be canonicalized").

Section Checks.
Context `{ContextJson}.

(** ** Checks of items and contributions ([types.rs]) *)

Definition ContextItem_validate (item : ContextItem) : xresult unit :=
  do? ContextProvenance_validate (cxi_provenance item) in
  do? reject_if (length (cxi_content item) =? 0)%nat
        (ContextError_stable CONTEXT_CONTRIBUTION_INVALID "context item content is empty") in
  let? bytes := canonical_bytes (jcs_content (cxi_content item)) in
  do? reject_if (str_len bytes <>?? cxi_bytes item)
        (ContextError_stable CONTEXT_CONTRIBUTION_INVALID "context item byte estimate does not match canonical content") in
  reject_if ((cxi_kind item =?? ContextItemKind_DerivedSummary) && (cxi_authority item <>?? ContextAuthority_Untrusted))
    (ContextError_stable CONTEXT_CONTRIBUTION_INVALID "derived context cannot acquire instruction authority").

Definition ContextItem_try_new (kind : ContextItemKind) (content : list ContentBlock) (provenance : ContextProvenance)
    (authority : ContextAuthority) (priority estimated_tokens : Z) (sensitivity : Sensitivity) (protected : bool)
    : xresult ContextItem :=
  let? bytes := canonical_bytes (jcs_content content) in
  let item := mkContextItem kind content provenance authority priority estimated_tokens (str_len bytes) sensitivity
                protected in
  do? ContextItem_validate item in
  Ok item.

Definition totals_step (totals : Z * Z) (item : ContextItem) : xresult (Z * Z) :=
  do? ContextItem_validate item in
  let? tokens := ok_or (u64_checked_add (fst totals) (cxi_estimated_tokens item))
                   (ContextError_stable CONTEXT_CONTRIBUTION_INVALID "context token estimate overflowed") in
  let? bytes := ok_or (u64_checked_add (snd totals) (cxi_bytes item))
                  (ContextError_stable CONTEXT_CONTRIBUTION_INVALID "context byte estimate overflowed") in
  Ok (tokens, bytes).

Definition item_totals (items : list ContextItem) : xresult (Z * Z) := rfold totals_step (0, 0) items.

Definition ContextContribution_validate (c : ContextContribution) : xresult unit :=
  do? reject_if (SEMANTIC_ARRAY_MAX_ITEMS <? length (cxc_items c))%nat
        (ContextError_stable CONTEXT_CONTRIBUTION_INVALID "context contribution contains too many items") in
  do? match cxc_cache_key c with Some value => validate_label value "context cache key" | None => Ok tt end in
  let? '(tokens, bytes) := item_totals (cxc_items c) in
  reject_if ((tokens <>?? cxc_estimated_tokens c) || (bytes <>?? cxc_bytes c))
    (ContextError_stable CONTEXT_CONTRIBUTION_INVALID "context contribution totals do not match its items").

Definition ContextContribution_try_new (items : list ContextItem) (cache_key : option string)
    : xresult ContextContribution :=
  let? '(tokens, bytes) := item_totals items in
  let contribution := mkContextContribution items tokens bytes cache_key in
  do? ContextContribution_validate contribution in
  Ok contribution.

Definition ContextContribution_to_raw_json (c : ContextContribution) : xresult RawJson :=
  do? ContextContribution_validate c in
  let? bytes := canonical_bytes (jcs_contribution c) in
  ok_or (raw_json_parse bytes)
    (ContextError_stable CONTEXT_CONTRIBUTION_INVALID "context contribution could not be normalized").

Definition ContextRequest_canonical_bytes (r : ContextRequest) : xresult string :=
  do? ContextBudget_validate (cxr_budget r) in
  do? reject_if ((SEMANTIC_ARRAY_MAX_ITEMS <? length (cxr_user_input r))%nat
                 || (SEMANTIC_ARRAY_MAX_ITEMS <? length (cxr_recent_history r))%nat
                 || (SEMANTIC_ARRAY_MAX_ITEMS <? length (cxr_active_capabilities r))%nat)
        (ContextError_stable CONTEXT_CONFIGURATION_INVALID "context request exceeds a semantic array bound") in
  canonical_bytes (jcs_request r).

Definition ContextRequest_to_raw_json (r : ContextRequest) : xresult RawJson :=
  let? bytes := ContextRequest_canonical_bytes r in
  ok_or (raw_json_parse bytes)
    (ContextError_stable CONTEXT_CONFIGURATION_INVALID "context request could not be normalized").
End Checks.

(** ** Assembly ([assembly.rs]) *)

Record RecordedContextContribution : Type := mkRecordedContextContribution {
  rcc_component : ComponentId;
  rcc_provider_index : Z;
  rcc_contribution : ContextContribution
}.
#[global] Instance RecordedContextContribution_eq_dec : EqDecision RecordedContextContribution.
Proof. solve_decision. Defined.

Record ContextTruncationDiagnostic : Type := mkContextTruncationDiagnostic {
  td_component : ComponentId;
  td_dropped_items : Z;
  td_dropped_tokens : Z;
  td_dropped_bytes : Z
}.
#[global] Instance ContextTruncationDiagnostic_eq_dec : EqDecision ContextTruncationDiagnostic.
Proof. solve_decision. Defined.

Record AssembledContext : Type := mkAssembledContext {
  asm_items : list ContextItem;
  asm_diagnostics : list ContextTruncationDiagnostic;
  asm_estimated_tokens : Z;
  asm_bytes : Z
}.
#[global] Instance AssembledContext_eq_dec : EqDecision AssembledContext.
Proof. solve_decision. Defined.

Definition index_le (a b : RecordedContextContribution) : Prop := rcc_provider_index a <= rcc_provider_index b.
#[global] Instance index_le_dec : RelDecision index_le :=
  fun a b => decide (rcc_provider_index a <= rcc_provider_index b).

Definition recorded_order_step (st : nat * list ComponentId) (r : RecordedContextContribution)
    : xresult (nat * list ComponentId) :=
  let '(expected, components) := st in
  if (rcc_provider_index r <>?? Z.of_nat expected) || bool_decide (rcc_component r ∈ components)
  then Err (ContextError_stable CONTEXT_CONFIGURATION_INVALID
              "recorded context provider order has a duplicate, gap, or unstable identity")
  else Ok (S expected, rcc_component r :: components).

(** The loop over the sorted providers, with the set of components seen. *)
Definition check_recorded_order (recorded : list RecordedContextContribution) : xresult unit :=
  do? rfold recorded_order_step (0%nat, []) recorded in Ok tt.

(** One item with the keys it is placed by. *)
Record IndexedItem : Type := mkIndexedItem {
  ix_provider_index : Z;
  ix_source_index : nat;
  ix_component : ComponentId;
  ix_item : ContextItem
}.
#[global] Instance IndexedItem_eq_dec : EqDecision IndexedItem.
Proof. solve_decision. Defined.

Definition indexed_items (recorded : list RecordedContextContribution) : list IndexedItem :=
  recorded ≫= fun provider =>
    (fun '(source_index, item) =>
       mkIndexedItem (rcc_provider_index provider) source_index (rcc_component provider) item)
    <$> enumerate (cxc_items (rcc_contribution provider)).

Definition is_trusted_instruction (item : ContextItem) : bool :=
  (cxi_kind item =?? ContextItemKind_Instruction) && (cxi_authority item =?? ContextAuthority_TrustedApplication).

(** The sort key [(authority_group, provider_index, Reverse(priority), source_index)]. *)
Definition item_key (i : IndexedItem) : Z * Z * Z * Z :=
  (if is_trusted_instruction (ix_item i) then 0 else 1, ix_provider_index i, - cxi_priority (ix_item i),
   Z.of_nat (ix_source_index i)).

(** Lexicographic order of four-part keys, Rust's [Ord] on tuples. *)
Definition key_leb (a b : Z * Z * Z * Z) : bool :=
  let '(a1, a2, a3, a4) := a in
  let '(b1, b2, b3, b4) := b in
  (a1 <? b1) || ((a1 =? b1) && ((a2 <? b2) || ((a2 =? b2) && ((a3 <? b3) || ((a3 =? b3) && (a4 <=? b4)))))).

Definition item_le (a b : IndexedItem) : Prop := key_leb (item_key a) (item_key b) = true.
#[global] Instance item_le_dec : RelDecision item_le := fun a b => decide (key_leb (item_key a) (item_key b) = true).

(** The two branches of the diagnostics update. *)
Fixpoint record_dropped (component : ComponentId) (item : ContextItem) (ds : list ContextTruncationDiagnostic)
    : list ContextTruncationDiagnostic :=
  match ds with
  | [] => [mkContextTruncationDiagnostic component 1 (cxi_estimated_tokens item) (cxi_bytes item)]
  | d :: ds' =>
      if td_component d =?? component
      then mkContextTruncationDiagnostic (td_component d) (u32_saturating_add (td_dropped_items d) 1)
             (u64_saturating_add (td_dropped_tokens d) (cxi_estimated_tokens item))
             (u64_saturating_add (td_dropped_bytes d) (cxi_bytes item)) :: ds'
      else d :: record_dropped component item ds'
  end.

Section Assembly.
Context `{ContextJson}.

Definition fits_budget (budget : ContextBudget) (acc : AssembledContext) (item : ContextItem) : bool :=
  (S (length (asm_items acc)) <=? cb_max_items budget)%nat
  && is_some_and (u64_checked_add (asm_estimated_tokens acc) (cxi_estimated_tokens item))
       (fun value => value <=? cb_max_tokens budget)
  && is_some_and (u64_checked_add (asm_bytes acc) (cxi_bytes item)) (fun value => value <=? cb_max_bytes budget).

Definition assemble_step (budget : ContextBudget) (acc : AssembledContext) (i : IndexedItem) : xresult AssembledContext :=
  let item := ix_item i in
  do? ContextItem_validate item in
  if fits_budget budget acc item
  then Ok (mkAssembledContext (asm_items acc ++ [item]) (asm_diagnostics acc)
             (asm_estimated_tokens acc + cxi_estimated_tokens item) (asm_bytes acc + cxi_bytes item))
  else
    do? reject_if (cb_overflow budget =?? ContextOverflowPolicy_Reject)
          (ContextError_stable CONTEXT_BUDGET_EXCEEDED "assembled context exceeds its explicit budget") in
    Ok (mkAssembledContext (asm_items acc) (record_dropped (ix_component i) item (asm_diagnostics acc))
          (asm_estimated_tokens acc) (asm_bytes acc)).

Definition empty_assembled : AssembledContext := mkAssembledContext [] [] 0 0.

Definition assemble_context (recorded : list RecordedContextContribution) (budget : ContextBudget)
    : xresult AssembledContext :=
  do? ContextBudget_validate budget in
  do? reject_if (SEMANTIC_ARRAY_MAX_ITEMS <? length recorded)%nat
        (ContextError_stable CONTEXT_CONFIGURATION_INVALID
           "recorded context provider chain exceeds the semantic item bound") in
  let recorded := merge_sort index_le recorded in
  do? check_recorded_order recorded in
  rfold (assemble_step budget) empty_assembled (merge_sort item_le (indexed_items recorded)).
End Assembly.
