(* ===== verification/ContextCall.v ===== *)
(** * Committed context calls and the messages they become

    Models [ports/context/committed.rs] and the pure parts of
    [exec/context_driver/collect.rs] of [finstack-ai-runtime]: the guard that
    binds a provider call to a committed effect, invocation and recovery, the
    contribution read back from the journal, the request handed to providers,
    and the message array and protection map built from the assembled items.

    A provider is a record of functions on a world.  Clock and entropy are the
    class [IdSources], as is the layout of version 7 identifiers by the [uuid]
    crate.  The cancellation signal of a call context is left out: nothing here
    reads it. *)

From S2P Require Import Prelude Primitives Effects Records State Inputs Digests ApplyTools Decide Dispatch ModelPort ContextPort.

(** ** Port data ([port.rs], [ports/model/context.rs]) *)

Definition CONTEXT_STAGE : string := "prepare_context".

Record ContextProviderDescriptor : Type := mkContextProviderDescriptor {
  cpd_invocation : ComponentInvocation;
  cpd_trusted_application_instructions : bool;
  cpd_metadata : Metadata
}.
#[global] Instance ContextProviderDescriptor_eq_dec : EqDecision ContextProviderDescriptor.
Proof. solve_decision. Defined.

Record RunCallContext : Type := mkRunCallContext {
  rcx_locator : OperationLocator;
  rcx_authorization : AuthorizationContext;
  rcx_effect_id : EffectId;
  rcx_attempt : Z;
  rcx_deadline : option Timestamp;
  rcx_budget_scope_id : option BudgetScopeId;
  rcx_relation_depth : Z
}.

Record ContextCallContext : Type := mkContextCallContext {
  ccx_run : RunCallContext;
  ccx_provider_index : Z;
  ccx_chain_digest : Digest
}.

Record ReconcileContext : Type := mkReconcileContext {
  rcn_run : RunCallContext;
  rcn_original_input_digest : Digest
}.

Record PendingContextEffect : Type := mkPendingContextEffect {
  pce_request : ContextRequest;
  pce_invocation : ComponentInvocation;
  pce_pipeline : PipelinePosition
}.

Inductive ContextReconcileResult : Type :=
| ContextReconcileResult_Completed (contribution : ContextContribution)
| ContextReconcileResult_NotStarted
| ContextReconcileResult_RetrySafe
| ContextReconcileResult_Unknown
| ContextReconcileResult_NonRepeatable.

(** The trait [ContextProvider] over a world it may change. *)
Record ContextProvider (W : Type) : Type := mkContextProvider {
  cpr_descriptor : W -> ContextProviderDescriptor;
  cpr_collect : ContextCallContext -> ContextRequest -> W -> W * xresult ContextContribution;
  cpr_reconcile : ReconcileContext -> PendingContextEffect -> W -> W * xresult ContextReconcileResult
}.
Arguments cpr_descriptor {W} _ _.
Arguments cpr_collect {W} _ _ _ _.
Arguments cpr_reconcile {W} _ _ _ _.

Inductive InvocationResumeAction : Type :=
| InvocationResumeAction_UseRecorded
| InvocationResumeAction_Recompute
| InvocationResumeAction_Reconcile
| InvocationResumeAction_SuspendUncertain.

Definition map_context_reconcile_result (result : ContextReconcileResult) : InvocationResumeAction :=
  match result with
  | ContextReconcileResult_Completed _ => InvocationResumeAction_UseRecorded
  | ContextReconcileResult_NotStarted | ContextReconcileResult_RetrySafe => InvocationResumeAction_Recompute
  | ContextReconcileResult_Unknown | ContextReconcileResult_NonRepeatable => InvocationResumeAction_SuspendUncertain
  end.

(** ** Accepting a contribution *)

Definition set_item_authority (kind : ContextItemKind) (authority : ContextAuthority) (i : ContextItem) : ContextItem :=
  mkContextItem kind (cxi_content i) (cxi_provenance i) authority (cxi_priority i) (cxi_estimated_tokens i) (cxi_bytes i)
    (cxi_sensitivity i) (cxi_protected i).

Definition normalize_item (trusted_instructions : bool) (item : ContextItem) : ContextItem :=
  if cxi_kind item =?? ContextItemKind_Instruction
  then if trusted_instructions && negb (cp_external (cxi_provenance item))
       then set_item_authority (cxi_kind item) ContextAuthority_TrustedApplication item
       else set_item_authority ContextItemKind_QuotedSource ContextAuthority_Untrusted item
  else item.

Definition normalize_instruction_authority (c : ContextContribution) (trusted_instructions : bool) : ContextContribution :=
  mkContextContribution (normalize_item trusted_instructions <$> cxc_items c) (cxc_estimated_tokens c) (cxc_bytes c)
    (cxc_cache_key c).

Definition contribution_fits_budget (c : ContextContribution) (budget : ContextBudget) : bool :=
  (length (cxc_items c) <=? cb_max_items budget)%nat && (cxc_estimated_tokens c <=? cb_max_tokens budget)
  && (cxc_bytes c <=? cb_max_bytes budget).

Record CommittedContextCall : Type := mkCommittedContextCall {
  ccc_context : ContextCallContext;
  ccc_request : ContextRequest;
  ccc_requested : EffectRequested;
  ccc_sequence : Z
}.

Section Calls.
Context `{ContextJson}.

Definition input_is_request (input : EffectInput) (raw : RawJson) : bool :=
  match input with EffectInput_Context _ request => request =?? raw | _ => false end.

Definition CommittedContextCall_try_new (envelope : RecordEnvelope) (context : ContextCallContext) (request : ContextRequest)
    (descriptor : ContextProviderDescriptor) : xresult CommittedContextCall :=
  match rec_body envelope with
  | RecordBody_EffectRequested requested =>
      let? raw := ContextRequest_to_raw_json request in
      let? expected_pipeline := ok_or (req_pipeline requested) commit_required in
      let locator := rcx_locator (ccx_run context) in
      if (rec_sequence envelope =? 0)
         || (rec_session_id envelope <>?? ol_session_id locator)
         || (rec_lane_id envelope <>?? ol_lane_id locator)
         || (rec_run_id envelope <>?? Some (ol_run_id locator))
         || (cxr_session_id request <>?? ol_session_id locator)
         || (cxr_lane_id request <>?? ol_lane_id locator)
         || (cxr_run_id request <>?? ol_run_id locator)
         || (req_effect_id requested <>?? rcx_effect_id (ccx_run context))
         || (req_kind requested <>?? EffectKind_Context)
         || (req_component requested <>?? Some (cpd_invocation descriptor))
         || (pp_chain_digest expected_pipeline <>?? ccx_chain_digest context)
         || (pp_stage expected_pipeline <>?? CONTEXT_STAGE)
         || (pp_index expected_pipeline <>?? ccx_provider_index context)
         || (req_deadline requested <>?? rcx_deadline (ccx_run context))
         || (req_retry_safety requested =?? RetrySafety_Unknown)
         || (oc_kind (req_output_contract requested) <>?? EffectOutputKind_ContextContribution)
         || negb (input_is_request (req_input requested) raw)
      then Err commit_required
      else Ok (mkCommittedContextCall context request requested (rec_sequence envelope))
  | _ => Err commit_required
  end.

Definition accept_contribution (call : CommittedContextCall) (descriptor : ContextProviderDescriptor)
    (contribution : ContextContribution) : xresult ContextContribution :=
  do? ContextContribution_validate contribution in
  let contribution := normalize_instruction_authority contribution (cpd_trusted_application_instructions descriptor) in
  do? ContextContribution_validate contribution in
  do? reject_if ((cb_overflow (cxr_budget (ccc_request call)) =?? ContextOverflowPolicy_Reject)
                 && negb (contribution_fits_budget contribution (cxr_budget (ccc_request call))))
        (ContextError_stable CONTEXT_BUDGET_EXCEEDED "context provider contribution exceeds its explicit budget") in
  Ok contribution.

Section Provider.
Context {W : Type} (provider : ContextProvider W).

(** [collect(..).await?] followed by [accept_contribution]. *)
Definition collect_and_accept (call : CommittedContextCall) (descriptor : ContextProviderDescriptor) (w : W)
    : W * xresult ContextContribution :=
  let '(w, r) := cpr_collect provider (ccc_context call) (ccc_request call) w in
  (w, let? contribution := r in accept_contribution call descriptor contribution).

Definition CommittedContextCall_invoke (call : CommittedContextCall) (w : W) : W * xresult ContextContribution :=
  let descriptor := cpr_descriptor provider w in
  if req_component (ccc_requested call) <>?? Some (cpd_invocation descriptor) then (w, Err commit_required)
  else collect_and_accept call descriptor w.

Definition CommittedContextCall_resume (call : CommittedContextCall) (w : W) : W * xresult ContextContribution :=
  let descriptor := cpr_descriptor provider w in
  if req_component (ccc_requested call) <>?? Some (cpd_invocation descriptor) then (w, Err commit_required)
  else
    match req_pipeline (ccc_requested call) with
    | None => (w, Err commit_required)
    | Some pipeline =>
        let '(w, r) := cpr_reconcile provider
                         (mkReconcileContext (ccx_run (ccc_context call)) (req_input_digest (ccc_requested call)))
                         (mkPendingContextEffect (ccc_request call) (cpd_invocation descriptor) pipeline) w in
        match r with
        | Err e => (w, Err e)
        | Ok result =>
            match map_context_reconcile_result result with
            | InvocationResumeAction_UseRecorded =>
                match result with
                | ContextReconcileResult_Completed contribution => (w, accept_contribution call descriptor contribution)
                | _ => (w, Err (ContextError_stable CONTEXT_RECOVERY_UNCERTAIN "completed resume missing contribution"))
                end
            | InvocationResumeAction_Recompute => collect_and_accept call descriptor w
            | InvocationResumeAction_Reconcile | InvocationResumeAction_SuspendUncertain =>
                (w, Err (ContextError_stable CONTEXT_RECOVERY_UNCERTAIN "context resume is non-repeatable or unknown"))
            end
        end
    end.
End Provider.

Definition RecordedContextContribution_try_from_records (requested_envelope completed_envelope : RecordEnvelope)
    : xresult RecordedContextContribution :=
  match rec_body requested_envelope with
  | RecordBody_EffectRequested requested =>
      match rec_body completed_envelope with
      | RecordBody_EffectCompleted completed =>
          let? invocation := ok_or (req_component requested) commit_required in
          let? pipeline := ok_or (req_pipeline requested) commit_required in
          if (req_kind requested <>?? EffectKind_Context)
             || (oc_kind (req_output_contract requested) <>?? EffectOutputKind_ContextContribution)
             || (pp_stage pipeline <>?? CONTEXT_STAGE)
             || (rec_sequence completed_envelope <=? rec_sequence requested_envelope)
             || (rec_session_id completed_envelope <>?? rec_session_id requested_envelope)
             || (rec_lane_id completed_envelope <>?? rec_lane_id requested_envelope)
             || (rec_run_id completed_envelope <>?? rec_run_id requested_envelope)
             || negb (validate_settlement requested (cpl_effect_id completed) (cpl_output_contract completed))
          then Err (ContextError_stable CONTEXT_CONTRIBUTION_INVALID
                      "context completion does not match its committed request")
          else
            let? contribution := ok_or (contribution_of_json (cpl_output completed))
                                   (ContextError_stable CONTEXT_CONTRIBUTION_INVALID
                                      "committed context contribution is invalid") in
            do? ContextContribution_validate contribution in
            Ok (mkRecordedContextContribution (ci_component invocation) (pp_index pipeline) contribution)
      | _ => Err (ContextError_stable CONTEXT_CONTRIBUTION_INVALID "context completion record is missing")
      end
  | _ => Err commit_required
  end.
End Calls.

(** The run errors these operations return. *)
Inductive RunHandleError : Type :=
| RunHandleError_ModelSettlement (code : string)
| RunHandleError_Middleware (code : string)
| RunHandleError_Tool (code : string).
#[global] Instance RunHandleError_eq_dec : EqDecision RunHandleError.
Proof. solve_decision. Defined.

(** [context_settlement] of [exec/context_driver/commit.rs]: the journal entry a
    call ends in. *)
Definition context_settlement `{Hasher, ContextJson} (requested : EffectRequested) (result : xresult ContextContribution)
    : Prelude.result ExtensionSettlement RunHandleError :=
  let invalid := RunHandleError_Middleware CONTEXT_CONTRIBUTION_INVALID in
  match result with
  | Ok contribution =>
      let? bytes := ok_or (jcs_contribution contribution) invalid in
      let? output := ok_or (raw_json_parse bytes) invalid in
      let? completed := ok_or (EffectCompleted_try_new (req_effect_id requested) (req_output_contract requested) output None []
                                 ProviderIds_empty None None) invalid in
      Ok (ExtensionSettlement_Completed completed)
  | Err error =>
      let? failed := ok_or (EffectFailed_try_new (req_effect_id requested) (req_output_contract requested)
                              (ContextError_descriptor error) None None) invalid in
      Ok (ExtensionSettlement_Failed failed)
  end.

(** ** The request ([context_request]) *)


(** Only a trailing user message is the current turn. *)
Definition split_current_user (messages : list Message) : option Message * list Message :=
  match last messages with
  | Some m => if msg_role m =?? MessageRole_User then (Some m, removelast messages) else (None, messages)
  | None => (None, messages)
  end.

Definition context_request (locator : OperationLocator) (state : KernelState) (profile : ModelContextProfile)
    (messages : list Message) : ContextRequest :=
  let '(current_user, history) := split_current_user messages in
  let user_input := match current_user with Some m => msg_content m | None => [] end in
  let hard_tokens := Z.max 1 (u64_saturating_sub (mcp_context_window_tokens profile)
                       (u64_saturating_add (mcp_reserved_output_tokens profile) (mcp_provider_overhead_tokens profile))) in
  mkContextRequest (ol_session_id locator) (ol_lane_id locator) (ol_run_id locator) user_input history
    (mkContextBudget SEMANTIC_ARRAY_MAX_ITEMS hard_tokens (mcp_hard_input_bytes profile)
       ContextOverflowPolicy_TruncateWithDiagnostic)
    (ac_capability_id <$> k_active_capabilities state).

(** ** Identifier sources ([services/id_generation.rs], [exec/settlement/mod.rs]) *)

Class IdSources (W : Type) : Type := {
  clock_now : W -> W * option Timestamp;
  fill_bytes : W -> W * option (list N);
  from_unix_timestamp_millis : Z -> list N -> N
}.

Definition id_source_error : RunHandleError := RunHandleError_ModelSettlement "model_settlement_id_source_failed".

Section Messages.
Context {W : Type} `{!IdSources W}.

Definition sources_now (w : W) : W * result Timestamp RunHandleError :=
  let '(w, t) := clock_now w in (w, ok_or t id_source_error).

(** [UuidV7Generator::generate]: the time, which must not precede the epoch,
    then ten bytes of entropy. *)
Definition sources_generate (w : W) : W * result N RunHandleError :=
  let '(w, t) := clock_now w in
  match t with
  | None => (w, Err id_source_error)
  | Some now =>
      if now <? 0 then (w, Err id_source_error)
      else let '(w, r) := fill_bytes w in
           match r with
           | None => (w, Err id_source_error)
           | Some bytes => (w, Ok (from_unix_timestamp_millis now bytes))
           end
  end.

(** ** Messages from items *)

Definition message_from_item (item : ContextItem) (w : W) : W * result Message RunHandleError :=
  let role := if is_trusted_instruction item then MessageRole_System else MessageRole_User in
  match sources_generate w with
  | (w, Err e) => (w, Err e)
  | (w, Ok id) =>
      match sources_now w with
      | (w, Err e) => (w, Err e)
      | (w, Ok now) =>
          (w, ok_or (Message_try_new id role (cxi_content item) now None ProviderIds_empty METADATA_EMPTY)
                (RunHandleError_Middleware "middleware_stage_payload_invalid"))
      end
  end.

Fixpoint messages_from_items (items : list ContextItem) (w : W) : W * result (list Message) RunHandleError :=
  match items with
  | [] => (w, Ok [])
  | item :: items =>
      match message_from_item item w with
      | (w, Err e) => (w, Err e)
      | (w, Ok message) =>
          match messages_from_items items w with
          | (w, Err e) => (w, Err e)
          | (w, Ok messages) => (w, Ok (message :: messages))
          end
      end
  end.

Definition is_preamble (m : Message) : bool :=
  match msg_role m with MessageRole_System | MessageRole_Developer => true | _ => false end.

Fixpoint take_while {A} (p : A -> bool) (l : list A) : list A :=
  match l with
  | [] => []
  | a :: l => if p a then a :: take_while p l else []
  end.

Definition MIDDLEWARE_STAGE_BOUNDS_EXCEEDED : string := "middleware_stage_bounds_exceeded".

Definition rebuild_messages (base : list Message) (items : list ContextItem) (w : W)
    : W * result (list Message) RunHandleError :=
  let '(current_user, prefix_and_history) := split_current_user base in
  let leading := take_while is_preamble prefix_and_history in
  let history := drop (length leading) prefix_and_history in
  match messages_from_items items w with
  | (w, Err e) => (w, Err e)
  | (w, Ok inserted) =>
      let messages := leading ++ inserted ++ history ++ option_list current_user in
      (w, if (SEMANTIC_ARRAY_MAX_ITEMS <? length messages)%nat
          then Err (RunHandleError_Middleware MIDDLEWARE_STAGE_BOUNDS_EXCEEDED) else Ok messages)
  end.
End Messages.

(** ** Protection *)

Definition structural_protected (message : Message) (is_last : bool) : bool :=
  is_preamble message || (is_last && (msg_role message =?? MessageRole_User)).

Section Protection.
Context `{ContextJson}.

(** The flag each content was last seen with. *)
Definition protected_by_content (items : list ContextItem) : gmap string bool :=
  foldl (fun m item => match jcs_content (cxi_content item) with
                       | Some bytes => <[bytes := cxi_protected item]> m
                       | None => m
                       end) ∅ items.

Definition message_protected (items : list ContextItem) (message : Message) (is_last : bool) : bool :=
  structural_protected message is_last
  || default false (jcs_content (msg_content message) ≫= fun bytes => protected_by_content items !! bytes).

Definition project_protected (messages : list Message) (items : list ContextItem) : gmap EntryId (bool * Sensitivity) :=
  let last := (length messages - 1)%nat in
  foldl (fun m '(index, message) =>
           <[msg_id message := (message_protected items message (index =? last)%nat, Sensitivity_Internal)]> m)
    ∅ (enumerate messages).
End Protection.

(** ** The end of a context stage ([collect_context_stage]) *)

(** The loop over the installed providers: one whose component is not active is
    skipped, and the others keep their position in the whole chain. *)
Definition active_providers {P} (is_active : P -> bool) (providers : list P) : list (nat * P) :=
  filter (fun p => is_active p.2 = true) (enumerate providers).

Record ContextStagePlan : Type := mkContextStagePlan {
  csp_messages : list Message;
  csp_projection : gmap EntryId (bool * Sensitivity)
}.

Definition context_error (e : ContextError) : RunHandleError := RunHandleError_Middleware (cxe_code e).

(** The end of [collect_context_stage], from the recorded contributions to the
    stage's plan.  A driver that is cancelled before the providers are asked does
    not get here: it returns the base messages as they are. *)
Definition context_stage_plan `{ContextJson} {W : Type} `{!IdSources W} (recorded : list RecordedContextContribution)
    (budget : ContextBudget) (base : list Message) (w : W) : W * result ContextStagePlan RunHandleError :=
  match (if (length recorded =? 0)%nat then Ok empty_assembled
         else map_err context_error (assemble_context recorded budget)) with
  | Err e => (w, Err e)
  | Ok assembled =>
      match rebuild_messages base (asm_items assembled) w with
      | (w, Err e) => (w, Err e)
      | (w, Ok messages) => (w, Ok (mkContextStagePlan messages (project_protected messages (asm_items assembled))))
      end
  end.
