(* ===== verification/ContextSound.v ===== *)
(** * Context assembly is deterministic, bounded and accounted

    Proofs about [ContextPort] and [ContextCall]: the order of the committed
    contributions alone decides the assembled context, what is kept fits the
    budget and what is not kept is reported, and no provider can give its items
    an authority its descriptor does not grant. *)

From S2P Require Import Prelude Primitives Effects Records State Inputs Digests ApplyTools Decide Dispatch ModelPort ContextPort ContextCall.

(** ** Sorting by keys *)

#[global] Instance index_le_trans : Transitive index_le.
Proof. intros a b c. unfold index_le. lia. Qed.
#[global] Instance index_le_total : Total index_le.
Proof. intros a b. unfold index_le. lia. Qed.

Lemma key_leb_iff a1 a2 a3 a4 b1 b2 b3 b4 :
  key_leb (a1, a2, a3, a4) (b1, b2, b3, b4) = true <->
  a1 < b1 \/ (a1 = b1 /\ (a2 < b2 \/ (a2 = b2 /\ (a3 < b3 \/ (a3 = b3 /\ a4 <= b4))))).
Proof.
  unfold key_leb. rewrite !orb_true_iff, !andb_true_iff, !orb_true_iff, !andb_true_iff, !orb_true_iff, !andb_true_iff,
    !Z.ltb_lt, !Z.eqb_eq, Z.leb_le. tauto.
Qed.

#[global] Instance item_le_trans : Transitive item_le.
Proof. intros a b c. unfold item_le, item_key. rewrite !key_leb_iff. lia. Qed.
#[global] Instance item_le_total : Total item_le.
Proof. intros a b. unfold item_le, item_key. rewrite !key_leb_iff. lia. Qed.

Lemma item_le_antisymm a b : item_le a b -> item_le b a -> item_key a = item_key b.
Proof.
  unfold item_le, item_key. rewrite !key_leb_iff. intros.
  repeat match goal with |- (_, _) = (_, _) => f_equal end; lia.
Qed.

(** ** The order check *)

Section Order.

Lemma recorded_order_spec l n seen :
  match rfold recorded_order_step (n, seen) l with
  | Ok _ => rcc_provider_index <$> l = Z.of_nat <$> seq n (length l)
            /\ NoDup (rcc_component <$> l) /\ (forall c, c ∈ rcc_component <$> l -> c ∉ seen)
  | Err e => e = ContextError_stable CONTEXT_CONFIGURATION_INVALID
                   "recorded context provider order has a duplicate, gap, or unstable identity"
             /\ ~ (rcc_provider_index <$> l = Z.of_nat <$> seq n (length l)
                   /\ NoDup (rcc_component <$> l) /\ (forall c, c ∈ rcc_component <$> l -> c ∉ seen))
  end.
Proof.
  revert n seen. induction l as [|r l IH]; intros n seen; simpl.
  { split_and!; [done|constructor|set_solver]. }
  destruct (eqb_reflect (rcc_provider_index r) (Z.of_nat n)) as [Hi|Hi]; simpl; last first.
  { split; [done|]. intros (Heq & _). by injection Heq. }
  case_bool_decide as Hseen; simpl.
  { split; [done|]. intros (_ & _ & Hn). apply (Hn (rcc_component r)); [set_solver|done]. }
  specialize (IH (S n) (rcc_component r :: seen)).
  destruct (rfold recorded_order_step _ l) as [st|e].
  - destruct IH as (Hx & Hnd & Hns). split_and!; [by f_equal|constructor; [|done]|set_solver].
    intros Hin. apply (Hns _ Hin). set_solver.
  - destruct IH as [He Hneg]. split; [done|]. intros (Hx & Hnd & Hns). apply Hneg.
    injection Hx as _ Hx. apply NoDup_cons in Hnd as [Hr Hnd]. split_and!; [done|done|set_solver].
Qed.

Definition in_order (l : list RecordedContextContribution) : Prop :=
  rcc_provider_index <$> l = Z.of_nat <$> seq 0 (length l) /\ NoDup (rcc_component <$> l).

Lemma check_recorded_order_spec l :
  match check_recorded_order l with
  | Ok _ => in_order l
  | Err e => e = ContextError_stable CONTEXT_CONFIGURATION_INVALID
                   "recorded context provider order has a duplicate, gap, or unstable identity" /\ ~ in_order l
  end.
Proof.
  unfold check_recorded_order, in_order. pose proof (recorded_order_spec l 0 []) as HH.
  destruct (rfold _ _ _); simpl; [naive_solver|]. destruct HH as [? HH]. split; [done|].
  intros [? ?]. apply HH. set_solver.
Qed.

Lemma in_order_inj l a b : in_order l -> a ∈ l -> b ∈ l -> rcc_provider_index a = rcc_provider_index b -> a = b.
Proof.
  intros [Hx _] (i & Ha)%list_elem_of_lookup (j & Hb)%list_elem_of_lookup He.
  assert (forall k r, l !! k = Some r -> rcc_provider_index r = Z.of_nat k) as Hk.
  { intros k r Hr. assert ((rcc_provider_index <$> l) !! k = Some (rcc_provider_index r)) as Hl
      by (by rewrite list_lookup_fmap, Hr).
    rewrite Hx, list_lookup_fmap in Hl. apply fmap_Some in Hl as (n & Hn & ->).
    apply lookup_seq in Hn as [-> _]. lia. }
  rewrite (Hk i a Ha), (Hk j b Hb) in He. apply Nat2Z.inj in He. subst. congruence.
Qed.

Lemma sorted_recorded_perm r1 r2 :
  r1 ≡ₚ r2 -> in_order (merge_sort index_le r1) -> merge_sort index_le r1 = merge_sort index_le r2.
Proof.
  intros Hp Hi. apply (StronglySorted_unique_strong index_le).
  - intros a b Ha Hb H1 H2. eapply in_order_inj; [done..| |unfold index_le in *; lia].
    rewrite merge_sort_Permutation, Hp, <- (merge_sort_Permutation index_le r2). done.
  - apply (StronglySorted_merge_sort _).
  - apply (StronglySorted_merge_sort _).
  - by rewrite !merge_sort_Permutation.
Qed.
End Order.

Section Assembly.
Context `{ContextJson}.

Lemma assemble_perm recorded1 recorded2 budget :
  recorded1 ≡ₚ recorded2 -> assemble_context recorded1 budget = assemble_context recorded2 budget.
Proof.
  intros Hp. unfold assemble_context. rewrite (Permutation_length Hp).
  destruct (ContextBudget_validate budget); simpl; [|done]. destruct (reject_if _ _); simpl; [|done].
  pose proof (check_recorded_order_spec (merge_sort index_le recorded1)) as H1.
  pose proof (check_recorded_order_spec (merge_sort index_le recorded2)) as H2.
  destruct (check_recorded_order (merge_sort index_le recorded1)) as [u|e] eqn:E1; simpl.
  - rewrite <- (sorted_recorded_perm _ _ Hp H1), E1. done.
  - destruct (check_recorded_order (merge_sort index_le recorded2)) as [u|e'] eqn:E2; simpl.
    + destruct H1 as [_ H1]. destruct H1. by rewrite <- (sorted_recorded_perm recorded2 recorded1).
    + destruct H1 as [-> _], H2 as [-> _]. done.
Qed.

(** ** What is kept and what is dropped *)

Definition sum_by {A} (f : A -> Z) (l : list A) : Z := foldr (fun a n => f a + n) 0 l.

Lemma sum_by_app {A} (f : A -> Z) l1 l2 : sum_by f (l1 ++ l2) = sum_by f l1 + sum_by f l2.
Proof. induction l1 as [|a l1 IH]; simpl; [done|]. rewrite IH. lia. Qed.

Lemma sum_by_nonneg {A} (f : A -> Z) l : Forall (fun a => 0 <= f a) l -> 0 <= sum_by f l.
Proof. induction 1; simpl; lia. Qed.

Definition item_tokens (i : IndexedItem) : Z := cxi_estimated_tokens (ix_item i).
Definition item_bytes (i : IndexedItem) : Z := cxi_bytes (ix_item i).

(** The items of the recorded contributions in the order they are placed. *)
Definition placement (recorded : list RecordedContextContribution) : list IndexedItem :=
  merge_sort item_le (indexed_items (merge_sort index_le recorded)).

(** [kept] and [dropped] split the items seen so far. *)
Record split_of (budget : ContextBudget) (seen : list IndexedItem) (a : AssembledContext)
    (kept dropped : list IndexedItem) : Prop := {
  so_split : seen ≡ₚ kept ++ dropped;
  so_kept : sublist kept seen;
  so_items : asm_items a = ix_item <$> kept;
  so_tokens : asm_estimated_tokens a = sum_by item_tokens kept;
  so_bytes : asm_bytes a = sum_by item_bytes kept;
  so_count_fits : kept <> [] -> (length kept <= cb_max_items budget)%nat;
  so_tokens_fit : kept <> [] -> asm_estimated_tokens a <= Z.min u64_max (cb_max_tokens budget);
  so_bytes_fit : kept <> [] -> asm_bytes a <= Z.min u64_max (cb_max_bytes budget);
  so_diagnostics : asm_diagnostics a = foldl (fun ds i => record_dropped (ix_component i) (ix_item i) ds) [] dropped;
  so_policy : dropped <> [] -> cb_overflow budget = ContextOverflowPolicy_TruncateWithDiagnostic;
  so_valid : Forall (fun i => ContextItem_validate (ix_item i) = Ok tt) seen
}.

Lemma fits_budget_true budget a item :
  fits_budget budget a item = true ->
  (S (length (asm_items a)) <= cb_max_items budget)%nat
  /\ asm_estimated_tokens a + cxi_estimated_tokens item <= Z.min u64_max (cb_max_tokens budget)
  /\ asm_bytes a + cxi_bytes item <= Z.min u64_max (cb_max_bytes budget).
Proof.
  unfold fits_budget. intros [[Hi Ht]%andb_true_iff Hb]%andb_true_iff. apply Nat.leb_le in Hi.
  destruct (u64_checked_add (asm_estimated_tokens a) _) as [t|] eqn:Et; [|done].
  destruct (u64_checked_add (asm_bytes a) _) as [b|] eqn:Eb; [|done]. simpl in *.
  apply in_range_Some in Et as [-> ?], Eb as [-> ?]. apply Z.leb_le in Ht, Hb. lia.
Qed.

Lemma validate_unit item u : ContextItem_validate item = Ok u -> ContextItem_validate item = Ok tt.
Proof. by destruct u. Qed.

Lemma assemble_step_split budget seen a i a' kept dropped :
  split_of budget seen a kept dropped ->
  assemble_step budget a i = Ok a' ->
  exists kept' dropped', split_of budget (seen ++ [i]) a' kept' dropped'.
Proof.
  intros [Hs Hk Hi Ht Hb Hc Htf Hbf Hd Hp Hv]. unfold assemble_step. intros HH.
  destruct (ContextItem_validate (ix_item i)) as [u|] eqn:Ev; [|discriminate HH]. cbn [rbind] in HH.
  apply validate_unit in Ev. destruct (fits_budget budget a (ix_item i)) eqn:Ef.
  - injection HH as <-. apply fits_budget_true in Ef as (Hf1 & Hf2 & Hf3).
    exists (kept ++ [i]), dropped. split; simpl; try done.
    + rewrite Hs. solve_Permutation.
    + by apply sublist_app.
    + by rewrite Hi, fmap_app.
    + rewrite sum_by_app, Ht. simpl. unfold item_tokens. lia.
    + rewrite sum_by_app, Hb. simpl. unfold item_bytes. lia.
    + intros _. rewrite length_app. rewrite Hi, length_fmap in Hf1. simpl. lia.
    + apply Forall_app. auto.
  - destruct (eqb_reflect (cb_overflow budget) ContextOverflowPolicy_Reject) as [?|Hno]; [discriminate HH|].
    injection HH as <-. exists kept, (dropped ++ [i]). split; simpl; try done.
    + rewrite Hs. solve_Permutation.
    + by apply sublist_inserts_r.
    + by rewrite Hd, foldl_app.
    + intros _. by destruct (cb_overflow budget).
    + apply Forall_app. auto.
Qed.

Lemma assemble_loop_split budget items seen a a' kept dropped :
  split_of budget seen a kept dropped ->
  rfold (assemble_step budget) a items = Ok a' ->
  exists kept' dropped', split_of budget (seen ++ items) a' kept' dropped'.
Proof.
  revert seen a kept dropped. induction items as [|i items IH]; intros seen a kept dropped Hs; simpl.
  { intros [= <-]. rewrite app_nil_r. eauto. }
  destruct (assemble_step budget a i) as [a1|] eqn:E; simpl; [|done]. intros HH.
  destruct (assemble_step_split _ _ _ _ _ _ _ Hs E) as (k & d & Hs').
  destruct (IH _ _ _ _ Hs' HH) as (k' & d' & Hs''). exists k', d'. by rewrite <- (assoc_L (++)) in Hs''.
Qed.

Lemma assemble_split recorded budget a :
  assemble_context recorded budget = Ok a ->
  in_order (merge_sort index_le recorded) /\ exists kept dropped, split_of budget (placement recorded) a kept dropped.
Proof.
  unfold assemble_context. intros HH. steps HH. split.
  { pose proof (check_recorded_order_spec (merge_sort index_le recorded)) as Hc. rewrite E1 in Hc. done. }
  eapply (assemble_loop_split budget _ [] empty_assembled _ [] []); [|done]. by split.
Qed.

(** ** The diagnostics *)

Definition dropped_of (c : ComponentId) (dropped : list IndexedItem) : list IndexedItem :=
  filter (fun i => ix_component i = c) dropped.

(** What the diagnostics say of a list of dropped items. *)
Record reports (ds : list ContextTruncationDiagnostic) (dropped : list IndexedItem) : Prop := {
  rp_unique : NoDup (td_component <$> ds);
  rp_all : forall i, i ∈ dropped -> ix_component i ∈ td_component <$> ds;
  rp_exact : forall d, d ∈ ds ->
    dropped_of (td_component d) dropped <> []
    /\ td_dropped_items d = Z.min u32_max (Z.of_nat (length (dropped_of (td_component d) dropped)))
    /\ td_dropped_tokens d = Z.min u64_max (sum_by item_tokens (dropped_of (td_component d) dropped))
    /\ td_dropped_bytes d = Z.min u64_max (sum_by item_bytes (dropped_of (td_component d) dropped))
}.

Definition item_sized (i : IndexedItem) : Prop := is_u64 (item_tokens i) /\ is_u64 (item_bytes i).

Lemma record_dropped_components c item ds :
  td_component <$> record_dropped c item ds
  = if bool_decide (c ∈ td_component <$> ds) then td_component <$> ds else (td_component <$> ds) ++ [c].
Proof.
  induction ds as [|d ds IH]; [done|]. cbn [record_dropped].
  destruct (eqb_reflect (td_component d) c) as [<-|Hne]; rewrite !fmap_cons.
  - rewrite bool_decide_true; [done|]. set_solver.
  - rewrite IH. case_bool_decide; case_bool_decide; set_solver.
Qed.

Lemma record_dropped_elem c item ds d :
  NoDup (td_component <$> ds) ->
  d ∈ record_dropped c item ds ->
  (td_component d <> c /\ d ∈ ds)
  \/ (c ∉ td_component <$> ds /\ d = mkContextTruncationDiagnostic c 1 (cxi_estimated_tokens item) (cxi_bytes item))
  \/ (exists d0, d0 ∈ ds /\ td_component d0 = c /\
        d = mkContextTruncationDiagnostic c (u32_saturating_add (td_dropped_items d0) 1)
              (u64_saturating_add (td_dropped_tokens d0) (cxi_estimated_tokens item))
              (u64_saturating_add (td_dropped_bytes d0) (cxi_bytes item))).
Proof.
  induction ds as [|d0 ds IH]; simpl; intros Hnd Hin.
  - apply list_elem_of_singleton in Hin as ->. right. left. set_solver.
  - apply NoDup_cons in Hnd as [Hd0 Hnd]. destruct (eqb_reflect (td_component d0) c) as [<-|Hne].
    + apply elem_of_cons in Hin as [->|Hin]; [right; right; exists d0; set_solver|].
      left. split; [|set_solver]. intros He. apply Hd0. rewrite <- He. by apply list_elem_of_fmap_2.
    + apply elem_of_cons in Hin as [->|Hin]; [left; set_solver|].
      destruct (IH Hnd Hin) as [[? ?]|[[? ?]|(d1 & ? & ? & ?)]]; [left; set_solver|right; left; set_solver|].
      right; right. exists d1. set_solver.
Qed.

Lemma dropped_of_snoc c dropped i :
  dropped_of c (dropped ++ [i]) = dropped_of c dropped ++ (if bool_decide (ix_component i = c) then [i] else []).
Proof. unfold dropped_of. rewrite filter_app. f_equal. unfold filter; simpl. case_decide; by case_bool_decide. Qed.

Lemma dropped_of_nil c dropped : (forall i, i ∈ dropped -> ix_component i <> c) -> dropped_of c dropped = [].
Proof.
  intros Hn. unfold dropped_of. induction dropped as [|i l IH]; [done|].
  rewrite filter_cons_False; [|apply Hn; set_solver]. apply IH. set_solver.
Qed.

Lemma record_dropped_reports ds dropped i :
  reports ds dropped -> item_sized i ->
  reports (record_dropped (ix_component i) (ix_item i) ds) (dropped ++ [i]).
Proof.
  intros [Hu Ha He] [Hst Hsb]. split.
  - rewrite record_dropped_components. case_bool_decide as Hc; [done|].
    apply NoDup_app; split_and!; [done|set_solver|apply NoDup_singleton].
  - intros j. rewrite record_dropped_components, elem_of_app, list_elem_of_singleton.
    case_bool_decide; intros [Hj| ->]; set_solver.
  - intros d Hd. apply record_dropped_elem in Hd; [|done].
    rewrite dropped_of_snoc. destruct Hd as [[Hne Hd]|[[Hc ->]|(d0 & Hd0 & Hc & ->)]]; simpl.
    + rewrite bool_decide_false by congruence. rewrite app_nil_r. by apply He.
    + rewrite bool_decide_true by done. rewrite dropped_of_nil by (intros j Hj Heq; apply Hc; rewrite <- Heq; by apply Ha). simpl.
      unfold item_sized, item_tokens, item_bytes in *. machine.
      split_and!; [done|reflexivity|lia|lia].
    + rewrite bool_decide_true by done. destruct (He d0 Hd0) as (Hn & Hi & Ht & Hb). rewrite Hc in *.
      rewrite length_app, !sum_by_app, Hi, Ht, Hb. simpl. unfold item_tokens, item_bytes in *. machine.
      split_and!; [by destruct (dropped_of _ dropped)|lia|lia|lia].
Qed.

Lemma diagnostics_report dropped :
  Forall item_sized dropped ->
  reports (foldl (fun ds i => record_dropped (ix_component i) (ix_item i) ds) [] dropped) dropped.
Proof.
  induction dropped as [|i dropped IH] using rev_ind; intros Hs.
  - split; simpl; [constructor|set_solver|set_solver].
  - apply Forall_app in Hs as [Hs Hi]. rewrite Forall_singleton in Hi. rewrite foldl_app. simpl.
    apply record_dropped_reports; [by apply IH|done].
Qed.
End Assembly.

(** ** Trusted items come first *)

Lemma sorted_trusted_split l :
  StronglySorted item_le l ->
  exists trusted rest, l = trusted ++ rest
    /\ Forall (fun i => is_trusted_instruction (ix_item i) = true) trusted
    /\ Forall (fun i => is_trusted_instruction (ix_item i) = false) rest.
Proof.
  induction 1 as [|i l Hs IH Hi]; [by exists [], []|].
  destruct (is_trusted_instruction (ix_item i)) eqn:E.
  - destruct IH as (t & r & -> & Ht & Hr). exists (i :: t), r. split_and!; [done|by constructor|done].
  - exists [], (i :: l). split_and!; [done|constructor|]. constructor; [done|].
    eapply Forall_impl; [apply Hi|]. intros j Hj. unfold item_le, item_key in Hj. rewrite E in Hj.
    apply key_leb_iff in Hj. destruct (is_trusted_instruction (ix_item j)); [lia|done].
Qed.

Lemma StronglySorted_sublist {A} (R : relation A) k l : sublist k l -> StronglySorted R l -> StronglySorted R k.
Proof.
  induction 1 as [|x k l Hkl IH|x k l Hkl IH]; intros Hs; [done| |].
  - apply StronglySorted_inv in Hs as [Hs Hx]. constructor; [by apply IH|].
    eapply list.Forall_forall. intros y Hy. eapply (proj1 (list.Forall_forall _ _) Hx), elem_of_sublist; done.
  - apply StronglySorted_inv in Hs as [Hs _]. by apply IH.
Qed.

Lemma placement_sorted recorded : StronglySorted item_le (placement recorded).
Proof. apply (StronglySorted_merge_sort _). Qed.

Lemma trusted_items_lead `{ContextJson} recorded budget a :
  assemble_context recorded budget = Ok a ->
  exists trusted rest, asm_items a = trusted ++ rest
    /\ Forall (fun i => is_trusted_instruction i = true) trusted
    /\ Forall (fun i => is_trusted_instruction i = false) rest.
Proof.
  intros (_ & kept & dropped & Hs)%assemble_split.
  destruct (sorted_trusted_split kept) as (t & r & Hk & Ht & Hr).
  { eapply StronglySorted_sublist; [apply (so_kept _ _ _ _ _ Hs)|apply placement_sorted]. }
  exists (ix_item <$> t), (ix_item <$> r). rewrite (so_items _ _ _ _ _ Hs), Hk, fmap_app.
  split_and!; [done|by apply Forall_fmap..].
Qed.

(** ** Everything fits: nothing is dropped *)

Section Fits.
Context `{ContextJson}.

Lemma fits_budget_intro budget a item :
  (S (length (asm_items a)) <= cb_max_items budget)%nat ->
  0 <= asm_estimated_tokens a + cxi_estimated_tokens item <= Z.min u64_max (cb_max_tokens budget) ->
  0 <= asm_bytes a + cxi_bytes item <= Z.min u64_max (cb_max_bytes budget) ->
  fits_budget budget a item = true.
Proof.
  intros Hi Ht Hb. unfold fits_budget, u64_checked_add.
  assert (forall z hi, 0 <= z <= Z.min u64_max hi -> is_some_and (in_range 0 u64_max z) (fun v => v <=? hi) = true) as Hr.
  { intros z hi Hz. assert (in_range 0 u64_max z = Some z) as -> by (apply in_range_Some; lia). simpl. lia. }
  rewrite !Hr by done. rewrite (proj2 (Nat.leb_le _ _) Hi). done.
Qed.

Lemma assemble_loop_fits budget items a :
  Forall (fun i => ContextItem_validate (ix_item i) = Ok tt) items ->
  Forall item_sized items ->
  0 <= asm_estimated_tokens a -> 0 <= asm_bytes a ->
  (length (asm_items a) + length items <= cb_max_items budget)%nat ->
  asm_estimated_tokens a + sum_by item_tokens items <= Z.min u64_max (cb_max_tokens budget) ->
  asm_bytes a + sum_by item_bytes items <= Z.min u64_max (cb_max_bytes budget) ->
  rfold (assemble_step budget) a items
  = Ok (mkAssembledContext (asm_items a ++ (ix_item <$> items)) (asm_diagnostics a)
          (asm_estimated_tokens a + sum_by item_tokens items) (asm_bytes a + sum_by item_bytes items)).
Proof.
  revert a. induction items as [|i items IH]; intros a Hv Hz Ht0 Hb0 Hi Ht Hb.
  { simpl. rewrite app_nil_r, !Z.add_0_r. by destruct a. }
  apply Forall_cons in Hv as [Hv Hvs], Hz as [[Hz1 Hz2] Hzs].
  assert (0 <= sum_by item_tokens items /\ 0 <= sum_by item_bytes items) as [? ?].
  { split; apply sum_by_nonneg; (eapply Forall_impl; [apply Hzs|]); intros j [? ?]; machine. }
  cbn [rfold]. unfold assemble_step at 1. rewrite Hv. cbn [rbind].
  simpl in Hi, Ht, Hb. unfold item_tokens, item_bytes, is_u64 in Hz1, Hz2, Ht, Hb.
  rewrite fits_budget_intro by (fold item_tokens item_bytes in *; unfold item_tokens, item_bytes in *; lia).
  cbn [rbind]. rewrite IH; simpl; try (unfold item_tokens, item_bytes in *; lia); [|done|done|].
  - rewrite <- (assoc_L (++)). simpl. unfold item_tokens, item_bytes. do 2 f_equal; lia.
  - rewrite length_app. simpl. lia.
Qed.

Lemma placement_items recorded :
  ix_item <$> placement recorded ≡ₚ recorded ≫= fun r => cxc_items (rcc_contribution r).
Proof.
  unfold placement. rewrite merge_sort_Permutation.
  assert (forall l, ix_item <$> indexed_items l = l ≫= fun r => cxc_items (rcc_contribution r)) as Hl.
  { induction l as [|r l IHl]; [done|]. unfold indexed_items in *. rewrite !bind_cons, fmap_app, IHl. f_equal.
    rewrite <- list_fmap_compose. unfold enumerate.
    transitivity (snd <$> zip (seq 0 (length (cxc_items (rcc_contribution r)))) (cxc_items (rcc_contribution r))).
    - apply list_fmap_ext. by intros ? [? ?].
    - apply snd_zip. by rewrite length_seq. }
  rewrite Hl. apply bind_Permutation. apply merge_sort_Permutation.
Qed.
End Fits.

(** ** Authority *)

(** What a descriptor lets an item claim. *)
Definition authorized_item (descriptor : ContextProviderDescriptor) (item : ContextItem) : Prop :=
  is_trusted_instruction item = true ->
  cpd_trusted_application_instructions descriptor = true /\ cp_external (cxi_provenance item) = false.

Section Authority.
Context `{ContextJson}.

Lemma normalize_item_authorized descriptor item :
  authorized_item descriptor (normalize_item (cpd_trusted_application_instructions descriptor) item).
Proof.
  unfold authorized_item, normalize_item, is_trusted_instruction.
  destruct (eqb_reflect (cxi_kind item) ContextItemKind_Instruction) as [Hk|Hk].
  - destruct (cpd_trusted_application_instructions descriptor); simpl.
    + destruct (cp_external (cxi_provenance item)) eqn:Hx; simpl; by rewrite ?Hx.
    + by intros.
  - intros [Hk' _]%andb_true_iff. destruct (Hk (eqb_eq _ _ Hk')).
Qed.

Lemma accept_contribution_inv call descriptor c c' :
  accept_contribution call descriptor c = Ok c' ->
  c' = normalize_instruction_authority c (cpd_trusted_application_instructions descriptor)
  /\ ContextContribution_validate c' = Ok tt
  /\ (cb_overflow (cxr_budget (ccc_request call)) = ContextOverflowPolicy_Reject ->
      contribution_fits_budget c' (cxr_budget (ccc_request call)) = true).
Proof.
  unfold accept_contribution. intros HH.
  destruct (ContextContribution_validate c); [|discriminate HH]. cbn [rbind] in HH.
  destruct (ContextContribution_validate (normalize_instruction_authority _ _)) as [[]|] eqn:E; [|discriminate HH].
  cbn [rbind] in HH. destruct (reject_if _ _) as [[]|] eqn:Er; [|discriminate HH]. injection HH as <-.
  split_and!; [done|done|]. intros Hp. apply reject_if_Ok in Er. rewrite Hp in Er. simpl in Er.
  by apply negb_false_iff in Er.
Qed.

Lemma accept_contribution_authorized call descriptor c c' :
  accept_contribution call descriptor c = Ok c' -> Forall (authorized_item descriptor) (cxc_items c').
Proof.
  intros (-> & _)%accept_contribution_inv. simpl. apply Forall_fmap, Forall_true.
  intros item. apply normalize_item_authorized.
Qed.

(** Both ways a committed call ends go through [accept_contribution]. *)
Lemma invoke_accepts {W} (provider : ContextProvider W) call w w' c :
  CommittedContextCall_invoke provider call w = (w', Ok c) ->
  req_component (ccc_requested call) = Some (cpd_invocation (cpr_descriptor provider w))
  /\ exists c0, accept_contribution call (cpr_descriptor provider w) c0 = Ok c.
Proof.
  unfold CommittedContextCall_invoke, collect_and_accept.
  destruct (eqb_reflect (req_component (ccc_requested call)) (Some (cpd_invocation (cpr_descriptor provider w)))); [|done].
  simpl. destruct (cpr_collect _ _ _ _) as [w1 [c0|]]; simpl; [|done]. intros [= <- HH]. eauto.
Qed.

Lemma resume_accepts {W} (provider : ContextProvider W) call w w' c :
  CommittedContextCall_resume provider call w = (w', Ok c) ->
  req_component (ccc_requested call) = Some (cpd_invocation (cpr_descriptor provider w))
  /\ exists c0, accept_contribution call (cpr_descriptor provider w) c0 = Ok c.
Proof.
  unfold CommittedContextCall_resume, collect_and_accept.
  destruct (eqb_reflect (req_component (ccc_requested call)) (Some (cpd_invocation (cpr_descriptor provider w)))); [|done].
  simpl. destruct (req_pipeline _); [|done].
  destruct (cpr_reconcile _ _ _ _) as [w1 [[]|]]; simpl; try done.
  - intros [= <- HH]. eauto.
  - destruct (cpr_collect _ _ _ _) as [w2 [c0|]]; simpl; [|done]. intros [= <- HH]. eauto.
  - destruct (cpr_collect _ _ _ _) as [w2 [c0|]]; simpl; [|done]. intros [= <- HH]. eauto.
Qed.
End Authority.

(** ** Rebuilt messages *)

Section Rebuild.
Context {W : Type} `{!IdSources W}.

Definition message_of_item (item : ContextItem) (m : Message) : Prop :=
  msg_content m = cxi_content item
  /\ msg_role m = (if is_trusted_instruction item then MessageRole_System else MessageRole_User).

Lemma message_from_item_spec item w w' m : message_from_item item w = (w', Ok m) -> message_of_item item m.
Proof.
  unfold message_from_item. destruct (sources_generate w) as [w1 [id|]]; [|done].
  destruct (sources_now w1) as [w2 [now|]]; [|done]. intros [= <- HH]. apply ok_or_Ok in HH.
  unfold Message_try_new in HH. case_match; [|done]. by injection HH as <-.
Qed.

Lemma messages_from_items_spec items w w' ms :
  messages_from_items items w = (w', Ok ms) -> Forall2 message_of_item items ms.
Proof.
  revert w w' ms. induction items as [|item items IH]; intros w w' ms; simpl; [intros [= <- <-]; constructor|].
  destruct (message_from_item item w) as [w1 [m|]] eqn:E; [|done].
  destruct (messages_from_items items w1) as [w2 [l|]] eqn:E2; [|done]. intros [= <- <-].
  constructor; [by eapply message_from_item_spec|by eapply IH].
Qed.

Lemma split_current_user_app base :
  base = (split_current_user base).2 ++ option_list (split_current_user base).1
  /\ forall m, (split_current_user base).1 = Some m -> msg_role m = MessageRole_User.
Proof.
  unfold split_current_user. destruct base as [|m l _] using rev_ind; [done|].
  rewrite last_snoc. destruct (eqb_reflect (msg_role m) MessageRole_User); simpl.
  - rewrite removelast_last. naive_solver.
  - by rewrite app_nil_r.
Qed.

Lemma take_while_drop {A} (p : A -> bool) l : l = take_while p l ++ drop (length (take_while p l)) l.
Proof. induction l as [|a l IH]; [done|]. simpl. destruct (p a); simpl; [by f_equal|done]. Qed.

Lemma take_while_Forall {A} (p : A -> bool) l : Forall (fun a => p a = true) (take_while p l).
Proof. induction l as [|a l IH]; simpl; [constructor|]. destruct (p a) eqn:E; constructor; auto. Qed.

(** The assembled items are inserted behind the leading system and developer
    messages, and nothing else moves. *)
Lemma rebuild_messages_spec base items w w' ms :
  rebuild_messages base items w = (w', Ok ms) ->
  exists leading inserted rest,
    base = leading ++ rest /\ ms = leading ++ inserted ++ rest
    /\ Forall (fun m => is_preamble m = true) leading
    /\ Forall2 message_of_item items inserted
    /\ (length ms <= SEMANTIC_ARRAY_MAX_ITEMS)%nat
    /\ (forall m, last base = Some m -> msg_role m = MessageRole_User -> last rest = Some m).
Proof.
  unfold rebuild_messages. destruct (split_current_user_app base) as [Hb Hu].
  destruct (split_current_user base) as [user prefix] eqn:Es. simpl in *.
  destruct (messages_from_items items w) as [w1 [inserted|]] eqn:Em; [|done].
  destruct (Nat.ltb_spec SEMANTIC_ARRAY_MAX_ITEMS
              (length (take_while is_preamble prefix ++ inserted ++ drop (length (take_while is_preamble prefix)) prefix
                         ++ option_list user))) as [|Hl]; [done|].
  intros [= <- <-].
  exists (take_while is_preamble prefix), inserted,
    (drop (length (take_while is_preamble prefix)) prefix ++ option_list user).
  split_and!; [by rewrite (assoc_L (++)), <- take_while_drop|done|apply take_while_Forall
              |by eapply messages_from_items_spec|done|].
  intros m Hm Hr. unfold split_current_user in Es. rewrite Hm in Es. rewrite Hr in Es. simpl in Es.
  injection Es as <- <-. simpl. by rewrite last_snoc.
Qed.
End Rebuild.

(** ** Positions *)

Lemma elem_of_enumerate_iff {A} (l : list A) n a : (n, a) ∈ enumerate l <-> l !! n = Some a.
Proof.
  split; [|apply enumerate_elem]. unfold enumerate. intros (k & Hk)%list_elem_of_lookup.
  apply lookup_zip_with_Some in Hk as (m & b & [= -> ->] & Hm & Hb). apply lookup_seq in Hm as [-> _]. done.
Qed.

(** ** Protection *)

Section Protection.
Context `{ContextJson}.

Lemma project_protected_lookup messages items k m :
  NoDup (msg_id <$> messages) -> messages !! k = Some m ->
  project_protected messages items !! msg_id m
  = Some (message_protected items m (k =? length messages - 1)%nat, Sensitivity_Internal).
Proof.
  intros Hnd Hk. unfold project_protected.
  pose proof (foldl_insert_lookup (fun p : nat * Message => msg_id p.2)
    (fun p => (message_protected items p.2 (p.1 =? length messages - 1)%nat, Sensitivity_Internal))
    (enumerate messages) ∅ (k, m)) as HH. simpl in HH. rewrite <- HH.
  - f_equal. generalize (∅ : gmap EntryId (bool * Sensitivity)). unfold enumerate.
    induction (zip _ _) as [|[? ?] l IH]; intros M; simpl; [done|apply IH].
  - assert ((fun p : nat * Message => msg_id p.2) <$> enumerate messages = msg_id <$> messages) as ->; [|done].
    unfold enumerate. rewrite <- (snd_zip (seq 0 (length messages)) messages) at 3 by (by rewrite length_seq).
    by rewrite <- list_fmap_compose.
  - by apply enumerate_elem.
Qed.

(** Flags agree on equal content. *)
Definition flags_agree (items : list ContextItem) : Prop :=
  forall i j, i ∈ items -> j ∈ items ->
    jcs_content (cxi_content i) = jcs_content (cxi_content j) -> cxi_protected i = cxi_protected j.

Lemma protected_by_content_last items bytes :
  protected_by_content items !! bytes
  = cxi_protected <$> last (filter (fun i => jcs_content (cxi_content i) = Some bytes) items).
Proof.
  unfold protected_by_content. induction items as [|i items IH] using rev_ind; [done|].
  rewrite foldl_app, filter_app, filter_cons, filter_nil. cbn [foldl].
  destruct (jcs_content (cxi_content i)) as [b|] eqn:E.
  - destruct (decide (b = bytes)) as [->|Hne].
    + rewrite decide_True by done. by rewrite lookup_insert_eq, last_snoc.
    + rewrite decide_False by congruence. rewrite lookup_insert_ne by done. by rewrite app_nil_r.
  - rewrite decide_False by done. by rewrite app_nil_r.
Qed.

Lemma protected_item_kept items item m is_last bytes :
  flags_agree items -> item ∈ items -> cxi_protected item = true ->
  jcs_content (cxi_content item) = Some bytes -> msg_content m = cxi_content item ->
  message_protected items m is_last = true.
Proof.
  intros Hf Hi Hp Hb Hm. unfold message_protected. rewrite Hm, Hb. simpl.
  rewrite protected_by_content_last. apply orb_true_iff. right.
  destruct (last (filter _ items)) as [j|] eqn:E.
  - simpl. apply last_Some_elem_of, list_elem_of_filter in E as [Hj Hin].
    rewrite <- Hp. apply Hf; [done|done|congruence].
  - exfalso. apply last_None in E. assert (item ∈ filter (fun i => jcs_content (cxi_content i) = Some bytes) items) as Hx
      by (by apply list_elem_of_filter). rewrite E in Hx. set_solver.
Qed.
End Protection.
