(* ===== verification/Middleware.v ===== *)
(** * The middleware chain

    Models [ports/middleware/chain.rs] and the descriptors of
    [ports/middleware/types.rs] of [finstack-ai-runtime]: stage masks, ordering
    declarations, descriptor checks, and the resolution of a list of registered
    components into one order per stage.

    A component is a trait object of which only [descriptor()] is read here: the
    handle is a type of the section and [descriptor] a function on it.  Canonical
    JSON of the descriptors is the class [MiddlewareJson].  A [BTreeSet] or
    [BTreeMap] keyed by component is a [gset] or [gmap]; the resolver walks them
    only to fill a map or to take a minimum whose keys are distinct. *)

From S2P Require Import Prelude Primitives Effects Digests.

(** ** Errors ([error.rs], [mod.rs]) *)

Definition MIDDLEWARE_RESOLUTION_INVALID : string := "middleware_resolution_invalid".
Definition MIDDLEWARE_ORDER_CYCLE : string := "middleware_order_cycle".
Definition MIDDLEWARE_OUTCOME_NOT_ALLOWED : string := "middleware_outcome_not_allowed".
Definition COMPACTION_RESULT_INVALID : string := "compaction_result_invalid".
Definition COMPACTION_BUDGET_EXCEEDED : string := "context_budget_exceeded".
Definition COMPACTION_MODEL_NOT_AUTHORIZED : string := "compaction_model_not_authorized".
Definition MIDDLEWARE_STAGE_UNLANDABLE : string := "middleware_stage_unlandable".

Record MiddlewareError : Type := mkMiddlewareError {
  mwe_code : string;
  mwe_category : ErrorCategory;
  mwe_message : string
}.
#[global] Instance MiddlewareError_eq_dec : EqDecision MiddlewareError.
Proof. solve_decision. Defined.

Definition MiddlewareError_stable (code message : string) : MiddlewareError :=
  mkMiddlewareError code
    (if code =?? COMPACTION_BUDGET_EXCEEDED then ErrorCategory_Limit else ErrorCategory_Middleware) message.

Definition outcome_not_allowed : MiddlewareError :=
  MiddlewareError_stable MIDDLEWARE_OUTCOME_NOT_ALLOWED
    "middleware outcome is not allowed at this stage or descriptor tier".
Definition compaction_invalid : MiddlewareError :=
  MiddlewareError_stable COMPACTION_RESULT_INVALID
    "compaction projection or evidence violates the frozen integrity contract".

Notation mresult A := (result A MiddlewareError) (only parsing).

(** ** Stage masks *)

Definition stage_bit (stage : Stage) : Z :=
  Z.shiftl 1 match stage with
             | Stage_BeforeRun => 0
             | Stage_PrepareContext => 1
             | Stage_BeforeModel => 2
             | Stage_AfterModel => 3
             | Stage_BeforeToolBatch => 4
             | Stage_AfterToolBatch => 5
             | Stage_BeforeFinalize => 6
             end.

(** A [u8]. *)
Notation StageMask := Z (only parsing).
Definition StageMask_EMPTY : StageMask := 0.
Definition StageMask_ALL : StageMask := 127.
Definition StageMask_from_stages (stages : list Stage) : StageMask :=
  foldl (fun value stage => Z.lor value (stage_bit stage)) 0 stages.
Definition StageMask_contains (mask : StageMask) (stage : Stage) : bool := negb (Z.land mask (stage_bit stage) =? 0).

(** [self.0 & !Self::ALL.0]: the complement of a byte. *)
Definition StageMask_validate (mask : StageMask) : mresult StageMask :=
  if (mask =? 0) || negb (Z.land mask (Z.lxor 255 StageMask_ALL) =? 0)
  then Err (MiddlewareError_stable MIDDLEWARE_RESOLUTION_INVALID
              "middleware stage mask is empty or contains an unknown stage")
  else Ok mask.

(** ** Descriptors *)

Inductive OrderTier : Type :=
| OrderTier_Standard
| OrderTier_RequestShaping
| OrderTier_ContextMutation
| OrderTier_ContextCompaction
| OrderTier_PostCompactionValidation.
#[global] Instance OrderTier_eq_dec : EqDecision OrderTier.
Proof. solve_decision. Defined.

(** The derived [Ord]: the position of the constructor. *)
Definition tier_rank (t : OrderTier) : Z :=
  match t with
  | OrderTier_Standard => 0
  | OrderTier_RequestShaping => 1
  | OrderTier_ContextMutation => 2
  | OrderTier_ContextCompaction => 3
  | OrderTier_PostCompactionValidation => 4
  end.

Record MiddlewareOrder : Type := mkMiddlewareOrder {
  mwo_tier : OrderTier;
  mwo_priority : Z;
  mwo_before : list ComponentId;
  mwo_after : list ComponentId
}.
#[global] Instance MiddlewareOrder_eq_dec : EqDecision MiddlewareOrder.
Proof. solve_decision. Defined.

Inductive MiddlewareRole : Type :=
| MiddlewareRole_Standard
| MiddlewareRole_ContextCompactor (strategy_id : string) (strategy_version : Z)
| MiddlewareRole_PostCompactionValidator.
#[global] Instance MiddlewareRole_eq_dec : EqDecision MiddlewareRole.
Proof. solve_decision. Defined.

Record MiddlewareDescriptor : Type := mkMiddlewareDescriptor {
  mwd_invocation : ComponentInvocation;
  mwd_stages : StageMask;
  mwd_order : MiddlewareOrder;
  mwd_role : MiddlewareRole;
  mwd_metadata : Metadata
}.
#[global] Instance MiddlewareDescriptor_eq_dec : EqDecision MiddlewareDescriptor.
Proof. solve_decision. Defined.

Definition component_of (d : MiddlewareDescriptor) : ComponentId := ci_component (mwd_invocation d).

Definition resolution_invalid (message : string) : MiddlewareError :=
  MiddlewareError_stable MIDDLEWARE_RESOLUTION_INVALID message.

Definition MiddlewareDescriptor_validate (d : MiddlewareDescriptor) : mresult unit :=
  let order := mwd_order d in
  do? StageMask_validate (mwd_stages d) in
  do? reject_if ((SEMANTIC_ARRAY_MAX_ITEMS <? length (mwo_before order))%nat
                 || (SEMANTIC_ARRAY_MAX_ITEMS <? length (mwo_after order))%nat)
        (resolution_invalid "middleware ordering declaration exceeds semantic bounds") in
  do? reject_if (existsb (fun component => component =?? component_of d) (mwo_before order ++ mwo_after order))
        (resolution_invalid "middleware cannot order itself") in
  match mwd_role d with
  | MiddlewareRole_ContextCompactor strategy_id strategy_version =>
      do? reject_if (negb (label_is_valid strategy_id)) (resolution_invalid "compaction strategy id is invalid") in
      reject_if ((strategy_version =? 0) || negb (StageMask_contains (mwd_stages d) Stage_BeforeModel)
                 || (mwo_tier order <>?? OrderTier_ContextCompaction))
        (resolution_invalid "context compactor descriptor has an invalid stage, tier, or version")
  | MiddlewareRole_PostCompactionValidator =>
      reject_if (negb (StageMask_contains (mwd_stages d) Stage_BeforeModel)
                 || (mwo_tier order <>?? OrderTier_PostCompactionValidation))
        (resolution_invalid "post-compaction validator has an invalid stage or tier")
  | MiddlewareRole_Standard =>
      reject_if ((mwo_tier order =?? OrderTier_ContextCompaction) || (mwo_tier order =?? OrderTier_PostCompactionValidation))
        (resolution_invalid "standard middleware cannot occupy a specialized compaction tier")
  end.

(** ** Resolution ([chain.rs]) *)

Class MiddlewareJson : Type := { jcs_descriptors : list MiddlewareDescriptor -> option string }.

Section Chain.
Context {Handle : Type} (descriptor : Handle -> MiddlewareDescriptor).

Record ResolvedMiddleware : Type := mkResolvedMiddleware {
  rm_middleware : Handle;
  rm_descriptor : MiddlewareDescriptor;
  rm_registration_index : Z
}.

Definition rm_component (r : ResolvedMiddleware) : ComponentId := component_of (rm_descriptor r).
Definition rm_order (r : ResolvedMiddleware) : MiddlewareOrder := mwd_order (rm_descriptor r).

(** The edges added so far: how many enter each node, and which leave it. *)
Record Graph : Type := mkGraph {
  g_incoming : gmap ComponentId nat;
  g_outgoing : gmap ComponentId (gset ComponentId)
}.

Definition out_of (g : Graph) (from : ComponentId) : gset ComponentId := default ∅ (g_outgoing g !! from).

Definition add_edge (node_ids : gset ComponentId) (g : Graph) (from to : ComponentId) : Graph :=
  if (from <>?? to) && bool_decide (from ∈ node_ids) && bool_decide (to ∈ node_ids)
     && bool_decide (to ∉ out_of g from)
  then mkGraph (<[to := S (default 0%nat (g_incoming g !! to))]> (g_incoming g))
         (<[from := {[to]} ∪ out_of g from]> (g_outgoing g))
  else g.

(** The edges declared by one node: towards every node of a higher tier, then
    [before], then [after]. *)
Definition add_node_edges (node_ids : gset ComponentId) (nodes : list ResolvedMiddleware) (g : Graph)
    (left : ResolvedMiddleware) : Graph :=
  let g := foldl (fun g right =>
             if tier_rank (mwo_tier (rm_order left)) <? tier_rank (mwo_tier (rm_order right))
             then add_edge node_ids g (rm_component left) (rm_component right) else g) g nodes in
  let g := foldl (fun g after => add_edge node_ids g (rm_component left) after) g (mwo_before (rm_order left)) in
  foldl (fun g before => add_edge node_ids g before (rm_component left)) g (mwo_after (rm_order left)).

Definition initial_graph (node_ids : gset ComponentId) : Graph :=
  mkGraph (gset_to_gmap 0%nat node_ids) ∅.

Definition build_graph (nodes : list ResolvedMiddleware) : Graph :=
  let node_ids : gset ComponentId := list_to_set (rm_component <$> nodes) in
  foldl (add_node_edges node_ids nodes) (initial_graph node_ids) nodes.

(** The key [(tier, priority, registration_index, id)]. *)
Definition node_key (r : ResolvedMiddleware) : Z * Z * Z * ComponentId :=
  (tier_rank (mwo_tier (rm_order r)), mwo_priority (rm_order r), rm_registration_index r, rm_component r).

Definition node_key_ltb (a b : Z * Z * Z * ComponentId) : bool :=
  let '(a1, a2, a3, a4) := a in
  let '(b1, b2, b3, b4) := b in
  (a1 <? b1) || ((a1 =? b1) && ((a2 <? b2) || ((a2 =? b2) && ((a3 <? b3) || ((a3 =? b3) && (String.ltb a4 b4)))))).

(** [min_by]: the first of the least candidates. *)
Definition least_node (candidates : list ResolvedMiddleware) : option ResolvedMiddleware :=
  match candidates with
  | [] => None
  | c :: cs => Some (foldl (fun best r => if node_key_ltb (node_key r) (node_key best) then r else best) c cs)
  end.

Definition by_id (nodes : list ResolvedMiddleware) : gmap ComponentId ResolvedMiddleware :=
  foldl (fun m r => <[rm_component r := r]> m) ∅ nodes.

Definition is_ready (g : Graph) (id : ComponentId) : bool := (default 0%nat (g_incoming g !! id) =? 0)%nat.

Definition remove_node (g : Graph) (next : ComponentId) : Graph :=
  mkGraph (foldl (fun incoming target => alter (fun value => (value - 1)%nat) target incoming) (g_incoming g)
             (elements (out_of g next)))
    (g_outgoing g).

Definition order_cycle : MiddlewareError :=
  MiddlewareError_stable MIDDLEWARE_ORDER_CYCLE "middleware ordering contains a cycle".

(** The [while] loop; [None] is fuel run out.  Every turn takes one node away, so
    the number of nodes is fuel enough. *)
Fixpoint resolve_loop (fuel : nat) (nodes : gmap ComponentId ResolvedMiddleware) (g : Graph)
    (remaining : gset ComponentId) (result : list ResolvedMiddleware) : option (mresult (list ResolvedMiddleware)) :=
  if bool_decide (remaining = ∅) then Some (Ok result)
  else
    match fuel with
    | O => None
    | S fuel =>
        let ready := filter (fun id => is_ready g id = true) (elements remaining) in
        match least_node (omap (fun id => nodes !! id) ready) with
        | None => Some (Err order_cycle)
        | Some next =>
            let id := rm_component next in
            match nodes !! id with
            | None => Some (Err (resolution_invalid "middleware graph is missing a resolved node"))
            | Some item => resolve_loop fuel nodes (remove_node g id) (remaining ∖ {[id]}) (result ++ [item])
            end
        end
    end.

Definition stage_nodes (stage : Stage) (all : list ResolvedMiddleware) : list ResolvedMiddleware :=
  filter (fun item => StageMask_contains (mwd_stages (rm_descriptor item)) stage = true) all.

Definition resolve_stage (stage : Stage) (all : list ResolvedMiddleware) : option (mresult (list ResolvedMiddleware)) :=
  let nodes := stage_nodes stage all in
  let node_ids : gset ComponentId := list_to_set (rm_component <$> nodes) in
  resolve_loop (length nodes) (by_id nodes) (build_graph nodes) node_ids [].

(** ** The whole chain *)

Definition register_step (st : list ResolvedMiddleware * nat) (entry : nat * Handle)
    : mresult (list ResolvedMiddleware * nat) :=
  let '(resolved, compactors) := st in
  let '(index, middleware) := entry in
  let d := descriptor middleware in
  do? MiddlewareDescriptor_validate d in
  do? reject_if (ci_recovery (mwd_invocation d) <>?? InvocationRecovery_RecomputeSafe)
        (resolution_invalid "middleware must be recompute-safe until a reconcile port exists") in
  do? reject_if (existsb (fun r => rm_component r =?? component_of d) resolved)
        (resolution_invalid "middleware component is registered more than once") in
  let compactors := match mwd_role d with MiddlewareRole_ContextCompactor _ _ => S compactors | _ => compactors end in
  Ok (resolved ++ [mkResolvedMiddleware middleware d (Z.of_nat index)], compactors).

Definition check_dependencies (resolved : list ResolvedMiddleware) : mresult unit :=
  reject_if (existsb (fun item =>
               existsb (fun dependency => negb (existsb (fun r => rm_component r =?? dependency) resolved))
                 (mwo_before (rm_order item) ++ mwo_after (rm_order item))) resolved)
    (resolution_invalid "middleware ordering references a missing component").

Definition CHAIN_STAGES : list Stage :=
  [Stage_BeforeRun; Stage_PrepareContext; Stage_BeforeModel; Stage_AfterModel; Stage_BeforeToolBatch;
   Stage_AfterToolBatch; Stage_BeforeFinalize].

Definition DOMAIN_MIDDLEWARE_CHAIN : string := "middleware-chain".

Record ResolvedMiddlewareChain : Type := mkResolvedMiddlewareChain {
  mwc_chain_digest : Digest;
  mwc_stages : gmap Stage (list ResolvedMiddleware)
}.

Fixpoint resolve_stages (stages : list Stage) (all : list ResolvedMiddleware) (m : gmap Stage (list ResolvedMiddleware))
    : option (mresult (gmap Stage (list ResolvedMiddleware))) :=
  match stages with
  | [] => Some (Ok m)
  | stage :: stages =>
      match resolve_stage stage all with
      | None => None
      | Some (Err e) => Some (Err e)
      | Some (Ok ordered) => resolve_stages stages all (<[stage := ordered]> m)
      end
  end.

(** [try_new]; the [registration_index] of a component fits a [u32] because the
    chain is bounded. *)
Definition ResolvedMiddlewareChain_try_new `{Hasher, MiddlewareJson} (registrations : list Handle)
    : option (mresult ResolvedMiddlewareChain) :=
  match
    (do? reject_if (SEMANTIC_ARRAY_MAX_ITEMS <? length registrations)%nat
           (resolution_invalid "middleware chain exceeds the semantic component bound") in
     let? '(resolved, compactors) := rfold register_step ([], 0%nat) (enumerate registrations) in
     do? reject_if (1 <? compactors)%nat (resolution_invalid "more than one context-compaction owner is active") in
     do? check_dependencies resolved in
     let? bytes := ok_or (jcs_descriptors (rm_descriptor <$> resolved))
                     (MiddlewareError_stable MIDDLEWARE_OUTCOME_NOT_ALLOWED "middleware value could not be canonicalized") in
     Ok (resolved, hash_domain DOMAIN_MIDDLEWARE_CHAIN 1 bytes))
  with
  | Err e => Some (Err e)
  | Ok (resolved, digest) =>
      match resolve_stages CHAIN_STAGES resolved ∅ with
      | None => None
      | Some (Err e) => Some (Err e)
      | Some (Ok stages) => Some (Ok (mkResolvedMiddlewareChain digest stages))
      end
  end.

Definition chain_stage (chain : ResolvedMiddlewareChain) (stage : Stage) : list ResolvedMiddleware :=
  default [] (mwc_stages chain !! stage).
End Chain.
