(* ===== verification/MiddlewareSound.v ===== *)
(** * The resolved order of a middleware chain

    Proofs about [Middleware]: the resolver terminates; when it succeeds its
    order holds every component of the stage once, respects tiers and declared
    constraints, and takes the least ready component at every step; when it
    fails no order would have done. *)

From S2P Require Import Prelude Primitives Effects Digests Middleware.

(** ** The graph *)

Section Graph.

(** Edges stay within the nodes, and [g_incoming] counts those that leave the
    nodes of [from]. *)
Record counts (ids from : gset ComponentId) (g : Graph) : Prop := {
  ct_nodes : forall a b, b ∈ out_of g a -> a ∈ ids /\ b ∈ ids /\ a <> b;
  ct_incoming : forall b, b ∈ ids -> g_incoming g !! b = Some (size (filter (fun a => b ∈ out_of g a) from))
}.

Lemma out_of_initial ids a : out_of (initial_graph ids) a = ∅.
Proof. unfold out_of, initial_graph. simpl. by rewrite lookup_empty. Qed.

Lemma initial_counts ids : counts ids ids (initial_graph ids).
Proof.
  split.
  - intros a b. rewrite out_of_initial. set_solver.
  - intros b Hb. simpl. rewrite lookup_gset_to_gmap, option_guard_True by done. simpl. f_equal.
    symmetry. apply size_empty_iff. intros a. rewrite elem_of_filter, out_of_initial. set_solver.
Qed.

Definition adds (ids : gset ComponentId) (from to : ComponentId) : Prop := from <> to /\ from ∈ ids /\ to ∈ ids.

Lemma add_edge_out ids g from to a b :
  b ∈ out_of (add_edge ids g from to) a <-> b ∈ out_of g a \/ (a = from /\ b = to /\ adds ids from to).
Proof.
  unfold add_edge, adds. destruct (eqb_reflect from to); simpl; [naive_solver|].
  repeat case_bool_decide; simpl; try naive_solver.
  unfold out_of at 1. simpl. destruct (decide (a = from)) as [->|Hne].
  - rewrite lookup_insert_eq. simpl. set_solver.
  - rewrite lookup_insert_ne by done. fold (out_of g a). naive_solver.
Qed.

Lemma add_edge_counts ids g from to : counts ids ids g -> counts ids ids (add_edge ids g from to).
Proof.
  intros [Hn Hi]. split.
  - intros a b. rewrite add_edge_out. intros [?|(-> & -> & ? & ? & ?)]; [by apply Hn|done].
  - intros b Hb. specialize (Hi b Hb) as Hib.
    destruct (decide (b = to /\ adds ids from to /\ to ∉ out_of g from)) as [(-> & Ha & Hnew)|Hold].
    + assert (g_incoming (add_edge ids g from to)
              = <[to := S (default 0%nat (g_incoming g !! to))]> (g_incoming g)) as ->.
      { unfold add_edge. destruct Ha as (? & ? & ?). destruct (eqb_reflect from to); [done|].
        rewrite !bool_decide_true by done. done. }
      rewrite lookup_insert_eq, Hib. simpl. f_equal.
      assert (filter (fun a => to ∈ out_of (add_edge ids g from to) a) ids
              = {[from]} ∪ filter (fun a => to ∈ out_of g a) ids) as ->.
      { apply leibniz_equiv. intros a. rewrite elem_of_union, !elem_of_filter, elem_of_singleton, add_edge_out.
        unfold adds in *. naive_solver. }
      rewrite size_union, size_singleton; [done|]. intros a. rewrite elem_of_singleton, elem_of_filter. naive_solver.
    + assert (filter (fun a => b ∈ out_of (add_edge ids g from to) a) ids = filter (fun a => b ∈ out_of g a) ids) as ->.
      { apply leibniz_equiv. intros a. rewrite !elem_of_filter, add_edge_out.
        destruct (decide (to ∈ out_of g from)); naive_solver. }
      rewrite <- Hib. unfold add_edge. destruct (eqb_reflect from to); simpl; [done|].
      repeat case_bool_decide; simpl; try done. apply lookup_insert_ne. intros ->. apply Hold. done.
Qed.

(** A fold of conditional edges adds exactly the edges it names. *)
Lemma fold_edges {A} ids (p : A -> bool) (src dst : A -> ComponentId) (l : list A) g :
  counts ids ids g ->
  let g' := foldl (fun g x => if p x then add_edge ids g (src x) (dst x) else g) g l in
  counts ids ids g'
  /\ forall a b, b ∈ out_of g' a <->
       b ∈ out_of g a \/ exists x, x ∈ l /\ p x = true /\ a = src x /\ b = dst x /\ adds ids a b.
Proof.
  revert g. induction l as [|x l IH]; intros g Hc; simpl.
  { split; [done|]. intros a b. split; [tauto|]. intros [?|(x & Hx & _)]; [done|]. by apply not_elem_of_nil in Hx. }
  destruct (p x) eqn:Ep.
  - destruct (IH (add_edge ids g (src x) (dst x))) as [Hc' Ho]; [by apply add_edge_counts|]. split; [done|].
    intros a b. rewrite Ho, add_edge_out. setoid_rewrite elem_of_cons. split.
    + intros [[?|(-> & -> & ?)]|(y & Hy & Hrest)]; [by left|right; exists x; auto 6|right; exists y; auto].
    + intros [?|(y & [->|Hy] & Hp & Hrest)]; [by left; left|left; right; naive_solver|right; exists y; auto].
  - destruct (IH g Hc) as [Hc' Ho]. split; [done|]. intros a b. rewrite Ho. setoid_rewrite elem_of_cons. split.
    + intros [?|(y & Hy & Hrest)]; [by left|right; exists y; auto].
    + intros [?|(y & [->|Hy] & Hp & Hrest)]; [by left|congruence|right; exists y; auto].
Qed.

End Graph.

Section Chain.
Context {Handle : Type}.
Implicit Types (nodes order : list (@ResolvedMiddleware Handle)).

Definition ids_of nodes : gset ComponentId := list_to_set (rm_component <$> nodes).

(** What the declarations of [l] and [r] say about their order. *)
Definition precedes (l r : @ResolvedMiddleware Handle) : Prop :=
  tier_rank (mwo_tier (rm_order l)) < tier_rank (mwo_tier (rm_order r))
  \/ rm_component r ∈ mwo_before (rm_order l)
  \/ rm_component l ∈ mwo_after (rm_order r).

(** An edge of the stage's graph. *)
Definition edge nodes (a b : ComponentId) : Prop :=
  exists l r, l ∈ nodes /\ r ∈ nodes /\ rm_component l = a /\ rm_component r = b /\ a <> b /\ precedes l r.

Definition node_edge nodes (n : @ResolvedMiddleware Handle) (a b : ComponentId) : Prop :=
  adds (ids_of nodes) a b
  /\ ((rm_component n = a /\ exists r, r ∈ nodes /\ rm_component r = b
                              /\ tier_rank (mwo_tier (rm_order n)) < tier_rank (mwo_tier (rm_order r)))
      \/ (rm_component n = a /\ b ∈ mwo_before (rm_order n))
      \/ (rm_component n = b /\ a ∈ mwo_after (rm_order n))).

Lemma add_node_edges_spec nodes g n :
  counts (ids_of nodes) (ids_of nodes) g ->
  counts (ids_of nodes) (ids_of nodes) (add_node_edges (ids_of nodes) nodes g n)
  /\ forall a b, b ∈ out_of (add_node_edges (ids_of nodes) nodes g n) a <-> b ∈ out_of g a \/ node_edge nodes n a b.
Proof.
  intros Hc. unfold add_node_edges.
  destruct (fold_edges (ids_of nodes) (fun r => tier_rank (mwo_tier (rm_order n)) <? tier_rank (mwo_tier (rm_order r)))
              (fun _ => rm_component n) rm_component nodes g Hc) as [Hc1 Ho1].
  set (g1 := foldl _ g nodes) in *.
  destruct (fold_edges (ids_of nodes) (fun _ : ComponentId => true) (fun _ => rm_component n) (fun x => x)
              (mwo_before (rm_order n)) g1 Hc1) as [Hc2 Ho2].
  set (g2 := foldl _ g1 _) in *.
  destruct (fold_edges (ids_of nodes) (fun _ : ComponentId => true) (fun x => x) (fun _ => rm_component n)
              (mwo_after (rm_order n)) g2 Hc2) as [Hc3 Ho3].
  split; [done|]. intros a b. simpl in *. rewrite Ho3, Ho2, Ho1. unfold node_edge. setoid_rewrite Z.ltb_lt. naive_solver.
Qed.

Lemma elem_of_ids nodes a : a ∈ ids_of nodes <-> exists n, n ∈ nodes /\ rm_component n = a.
Proof. unfold ids_of. rewrite elem_of_list_to_set, list_elem_of_fmap. naive_solver. Qed.

Lemma component_inj nodes (l r : @ResolvedMiddleware Handle) :
  NoDup (rm_component <$> nodes) -> l ∈ nodes -> r ∈ nodes -> rm_component l = rm_component r -> l = r.
Proof.
  intros Hnd (i & Hi)%list_elem_of_lookup (j & Hj)%list_elem_of_lookup He.
  assert (i = j) as ->; [|congruence].
  eapply NoDup_lookup; [done|rewrite list_lookup_fmap, Hi; done|rewrite list_lookup_fmap, Hj; simpl; by rewrite He].
Qed.

Lemma build_graph_spec nodes :
  counts (ids_of nodes) (ids_of nodes) (build_graph nodes)
  /\ forall a b, b ∈ out_of (build_graph nodes) a <-> exists n, n ∈ nodes /\ node_edge nodes n a b.
Proof.
  unfold build_graph. fold (ids_of nodes).
  assert (forall l g, counts (ids_of nodes) (ids_of nodes) g ->
    counts (ids_of nodes) (ids_of nodes) (foldl (add_node_edges (ids_of nodes) nodes) g l)
    /\ forall a b, b ∈ out_of (foldl (add_node_edges (ids_of nodes) nodes) g l) a
                   <-> b ∈ out_of g a \/ exists n, n ∈ l /\ node_edge nodes n a b) as Hl.
  { induction l as [|n l IH]; intros g Hc; simpl.
    { split; [done|]. intros a b. split; [tauto|]. intros [?|(x & Hx & _)]; [done|]. by apply not_elem_of_nil in Hx. }
    destruct (add_node_edges_spec nodes g n Hc) as [Hc1 Ho1]. destruct (IH _ Hc1) as [Hc2 Ho2]. split; [done|].
    intros a b. rewrite Ho2, Ho1. setoid_rewrite elem_of_cons. split.
    + intros [[?|?]|(y & Hy & Hrest)]; [by left|right; exists n; auto|right; exists y; auto].
    + intros [?|(y & [->|Hy] & Hrest)]; [by left; left|by left; right|right; exists y; auto]. }
  destruct (Hl nodes (initial_graph (ids_of nodes)) (initial_counts _)) as [Hc Ho]. split; [done|].
  intros a b. rewrite Ho, out_of_initial. set_solver.
Qed.

Lemma build_graph_edge nodes a b :
  NoDup (rm_component <$> nodes) -> (b ∈ out_of (build_graph nodes) a <-> edge nodes a b).
Proof.
  intros Hnd. rewrite (proj2 (build_graph_spec nodes)). unfold edge, node_edge, adds, precedes. split.
  - intros (n & Hn & (Hne & Ha & Hb) & Hcase). apply elem_of_ids in Ha as (l & Hl & <-), Hb as (r & Hr & <-).
    exists l, r. split_and!; try done. destruct Hcase as [(Heq & r' & Hr' & Hr'eq & Ht)|[[Heq Hin]|[Heq Hin]]].
    + apply (component_inj nodes) in Heq, Hr'eq; try done. subst. auto.
    + apply (component_inj nodes) in Heq; try done. subst. auto.
    + apply (component_inj nodes) in Heq; try done. subst. auto.
  - intros (l & r & Hl & Hr & <- & <- & Hne & Hp).
    assert (rm_component l ∈ ids_of nodes /\ rm_component r ∈ ids_of nodes) as [? ?] by (split; apply elem_of_ids; eauto).
    destruct Hp as [Hp|[Hp|Hp]]; [exists l|exists l|exists r]; naive_solver.
Qed.

(** ** The least candidate *)

(** [a] is not after [b] in key order. *)
Definition key_le (a b : @ResolvedMiddleware Handle) : Prop := node_key_ltb (node_key b) (node_key a) = false.

Lemma string_ltb_false (a b : string) : String.ltb b a = false <-> String.le a b.
Proof.
  unfold String.le, String.ltb, String.leb. rewrite (String.compare_antisym a b).
  destruct (String.compare b a); simpl; split; done.
Qed.

Lemma node_key_ltb_false a1 a2 a3 a4 b1 b2 b3 b4 :
  node_key_ltb (b1, b2, b3, b4) (a1, a2, a3, a4) = false <->
  a1 < b1 \/ (a1 = b1 /\ (a2 < b2 \/ (a2 = b2 /\ (a3 < b3 \/ (a3 = b3 /\ String.le a4 b4))))).
Proof.
  unfold node_key_ltb. rewrite <- string_ltb_false.
  destruct (Z.ltb_spec b1 a1), (Z.eqb_spec b1 a1), (Z.ltb_spec b2 a2), (Z.eqb_spec b2 a2), (Z.ltb_spec b3 a3), (Z.eqb_spec b3 a3);
    simpl; try (destruct (String.ltb b4 a4)); intuition (try lia; try congruence).
Qed.

#[global] Instance key_le_trans : Transitive key_le.
Proof.
  intros a b c. unfold key_le, node_key. rewrite !node_key_ltb_false. intros Hab Hbc.
  destruct Hab as [?|(? & [?|(? & [?|(? & ?)])])], Hbc as [?|(? & [?|(? & [?|(? & ?)])])]; try lia.
  right. split; [lia|]. right. split; [lia|]. right. split; [lia|]. by etransitivity.
Qed.

Lemma key_le_refl (a : @ResolvedMiddleware Handle) : key_le a a.
Proof.
  unfold key_le, node_key. rewrite node_key_ltb_false. do 3 (right; split; [lia|]). done.
Qed.

#[global] Instance key_le_total : Total key_le.
Proof.
  intros a b. unfold key_le, node_key. rewrite !node_key_ltb_false.
  destruct (Z.lt_total (tier_rank (mwo_tier (rm_order a))) (tier_rank (mwo_tier (rm_order b)))) as [?|[?|?]]; try lia.
  destruct (Z.lt_total (mwo_priority (rm_order a)) (mwo_priority (rm_order b))) as [?|[?|?]]; try lia.
  destruct (Z.lt_total (rm_registration_index a) (rm_registration_index b)) as [?|[?|?]]; try lia.
  destruct (total String.le (rm_component a) (rm_component b)) as [Hs|Hs]; [left|right];
    (do 3 (right; split; [lia|])); done.
Qed.

Lemma node_key_ltb_le (a b : @ResolvedMiddleware Handle) : node_key_ltb (node_key a) (node_key b) = true -> key_le a b.
Proof. intros Hlt. destruct (total key_le a b) as [?|Hba]; [done|]. unfold key_le in Hba. congruence. Qed.

Lemma least_node_Some candidates (next : @ResolvedMiddleware Handle) :
  least_node candidates = Some next -> next ∈ candidates /\ forall c, c ∈ candidates -> key_le next c.
Proof.
  unfold least_node. destruct candidates as [|c0 cs]; [done|]. intros HH%(inj Some). rewrite <- HH. clear next HH.
  revert c0. induction cs as [|c cs IH]; intros c0; cbn [foldl].
  { split; [by left|]. intros c Hc. apply list_elem_of_singleton in Hc as ->. apply key_le_refl. }
  destruct (node_key_ltb (node_key c) (node_key c0)) eqn:E.
  - destruct (IH c) as [Hin Hle]. split; [by right|]. intros d [->|Hd]%elem_of_cons; [|by apply Hle].
    transitivity c; [apply Hle; by left|by apply node_key_ltb_le].
  - destruct (IH c0) as [Hin Hle]. split.
    { apply elem_of_cons in Hin as [->|Hin]; [by left|by right; right]. }
    intros d [->|[->|Hd]%elem_of_cons]%elem_of_cons; [apply Hle; by left| |apply Hle; by right].
    transitivity c0; [apply Hle; by left|done].
Qed.

Lemma least_node_None (candidates : list (@ResolvedMiddleware Handle)) : least_node candidates = None -> candidates = [].
Proof. by destruct candidates. Qed.

(** ** The specification: take the least ready component *)

(** Every component that must run before [x] is in [l]. *)
Definition ready nodes order (x : @ResolvedMiddleware Handle) : Prop :=
  forall w, w ∈ nodes -> rm_component w <> rm_component x -> precedes w x -> w ∈ order.

Inductive resolves nodes : list (@ResolvedMiddleware Handle) -> Prop :=
| resolves_nil : resolves nodes []
| resolves_snoc order x :
    resolves nodes order -> x ∈ nodes -> x ∉ order -> ready nodes order x ->
    (forall y, y ∈ nodes -> y ∉ order -> ready nodes order y -> key_le x y) ->
    resolves nodes (order ++ [x]).

(** The order the declarations ask for. *)
Definition respects order : Prop :=
  forall i j x y, order !! i = Some x -> order !! j = Some y ->
    rm_component x <> rm_component y -> precedes x y -> (i < j)%nat.

Lemma resolves_NoDup nodes order : resolves nodes order -> NoDup order.
Proof.
  induction 1 as [|order x Hr IH Hx Hn Hre Hl]; [constructor|].
  apply NoDup_app. split_and!; [done|set_solver|apply NoDup_singleton].
Qed.

Lemma resolves_incl nodes order : resolves nodes order -> order ⊆ nodes.
Proof. induction 1; set_solver. Qed.

Lemma resolves_respects nodes order : resolves nodes order -> respects order.
Proof.
  intros Hr. pose proof (resolves_NoDup _ _ Hr) as Hnd. induction Hr as [|order x Hr IH Hx Hn Hre Hl]; [done|].
  apply NoDup_app in Hnd as Hnd'. destruct Hnd' as (Hndo & _ & _).
  intros i j a b Ha Hb Hne Hp. apply lookup_snoc_Some in Hb as [[Hj Hb]|[-> ->]].
  - apply lookup_snoc_Some in Ha as [[Hi Ha]|[-> ->]]; [by eapply IH|].
    exfalso. apply Hn.
    assert (forall l, resolves nodes l -> forall k y, l !! k = Some y -> ready nodes l y) as Hready.
    { induction 1 as [|l z Hl' IHl Hz Hzn Hzr Hzl]; [done|]. intros k y [[Hk Hy]|[-> ->]]%lookup_snoc_Some.
      - intros w Hw Hwy Hpw. apply elem_of_app. left. by eapply IHl.
      - intros w Hw Hwy Hpw. apply elem_of_app. left. by eapply Hzr. }
    by eapply (Hready order Hr j b Hb).
  - assert (a ∈ order) as (k & Hk)%list_elem_of_lookup.
    { apply Hre; [|done|done]. apply list_elem_of_lookup_2 in Ha. apply elem_of_app in Ha as [Ha|Ha].
      - by eapply resolves_incl.
      - set_solver. }
    assert (i = k) as ->.
    { eapply NoDup_lookup; [apply Hnd|done|]. by apply lookup_app_l_Some. }
    by eapply lookup_lt_Some.
Qed.

(** Membership among the nodes is decided by the component. *)
Lemma elem_or_not nodes order (w : @ResolvedMiddleware Handle) :
  NoDup (rm_component <$> nodes) -> resolves nodes order -> w ∈ nodes -> w ∈ order \/ w ∉ order.
Proof.
  intros Hnd Hr Hw. destruct (decide (rm_component w ∈ rm_component <$> order)) as [Hin|Hin].
  - left. apply list_elem_of_fmap in Hin as (n & He & Hn).
    apply (component_inj nodes) in He; [by subst|done|done|by eapply resolves_incl].
  - right. intros Ho. apply Hin. by apply list_elem_of_fmap_2.
Qed.

(** ** The loop *)

Lemma by_id_Some nodes a n : NoDup (rm_component <$> nodes) -> (by_id nodes !! a = Some n <-> n ∈ nodes /\ rm_component n = a).
Proof.
  intros Hnd. unfold by_id. split.
  - intros (m & Hm & -> & ->)%(foldl_insert_inv rm_component (fun n => n)). done.
  - intros [Hn <-]. by apply (foldl_insert_lookup rm_component (fun n => n)).
Qed.

Lemma alter_each (f : nat -> nat) (l : list ComponentId) (m : gmap ComponentId nat) b :
  NoDup l ->
  foldl (fun m t => alter f t m) m l !! b = (if bool_decide (b ∈ l) then f <$> m !! b else m !! b).
Proof.
  revert m. induction l as [|t l IH]; intros m Hnd; [done|].
  apply NoDup_cons in Hnd as [Ht Hnd]. simpl. rewrite IH by done.
  destruct (decide (t = b)) as [->|Hne].
  - rewrite bool_decide_false by done. rewrite bool_decide_true by (by left). by rewrite lookup_alter_eq.
  - rewrite lookup_alter_ne by done. assert (b ∈ t :: l <-> b ∈ l) as He by (rewrite elem_of_cons; naive_solver).
    by rewrite (bool_decide_ext _ _ He).
Qed.

Record loop_inv nodes g (remaining : gset ComponentId) order : Prop := {
  li_out : g_outgoing g = g_outgoing (build_graph nodes);
  li_counts : forall b, b ∈ ids_of nodes ->
    g_incoming g !! b = Some (size (filter (fun a => b ∈ out_of (build_graph nodes) a) remaining));
  li_resolves : resolves nodes order;
  li_remaining : forall n, n ∈ nodes -> (rm_component n ∈ remaining <-> n ∉ order);
  li_within : remaining ⊆ ids_of nodes
}.

Lemma is_ready_spec nodes g remaining order x :
  NoDup (rm_component <$> nodes) -> loop_inv nodes g remaining order -> x ∈ nodes ->
  (is_ready g (rm_component x) = true <-> ready nodes order x).
Proof.
  intros Hnd [_ Hc Hres Hr Hw] Hx. unfold is_ready.
  rewrite Hc by (apply elem_of_ids; eauto). simpl. rewrite Nat.eqb_eq, size_empty_iff. split.
  - intros He w Hw' Hne Hp. destruct (elem_or_not nodes order w) as [|Hn]; [done..|]. exfalso.
    apply (not_elem_of_empty (C := gset ComponentId) (rm_component w)). rewrite <- He. apply elem_of_filter.
    split; [|by apply Hr].
    apply build_graph_edge; [done|]. exists w, x. done.
  - intros Hready a. split; [|set_solver]. rewrite elem_of_filter, build_graph_edge by done.
    intros [(l & r & Hl & Hr' & <- & Hrx & Hne & Hp) Hrem].
    apply (component_inj nodes) in Hrx; try done. subst r.
    apply Hr in Hrem; [|done]. destruct Hrem. by apply Hready.
Qed.

Lemma remove_node_inv nodes g remaining order x :
  NoDup (rm_component <$> nodes) -> loop_inv nodes g remaining order -> x ∈ nodes -> rm_component x ∈ remaining ->
  resolves nodes (order ++ [x]) ->
  loop_inv nodes (remove_node g (rm_component x)) (remaining ∖ {[rm_component x]}) (order ++ [x]).
Proof.
  intros Hnd [Ho Hc Hs Hr Hw] Hx Hrem Hs'. split; [done| |done| |set_solver].
  - intros b Hb. simpl. rewrite alter_each by apply NoDup_elements. rewrite Hc by done.
    assert (out_of g (rm_component x) = out_of (build_graph nodes) (rm_component x)) as -> by (unfold out_of; by rewrite Ho).
    assert (filter (fun a => b ∈ out_of (build_graph nodes) a) (remaining ∖ {[rm_component x]})
            = filter (fun a => b ∈ out_of (build_graph nodes) a) remaining ∖ {[rm_component x]}) as ->
      by (apply leibniz_equiv; intros a; rewrite !elem_of_difference, !elem_of_filter, elem_of_difference; tauto).
    case_bool_decide as Hin.
    + apply elem_of_elements in Hin. simpl. f_equal.
      rewrite size_difference; [by rewrite size_singleton|].
      intros a. rewrite elem_of_singleton, elem_of_filter. intros ->. done.
    + rewrite elem_of_elements in Hin. do 2 f_equal. apply leibniz_equiv. intros a.
      rewrite elem_of_difference, elem_of_filter, elem_of_singleton. naive_solver.
  - intros n Hn. rewrite elem_of_difference, elem_of_singleton, elem_of_app, list_elem_of_singleton, Hr by done.
    split; [intros [? Hne] [?| ->]; done|]. intros Hno. split; [tauto|]. intros He. apply Hno. right.
    by apply (component_inj nodes).
Qed.

(** One turn: nothing left, the least ready component, or no ready component. *)
Lemma ready_candidates nodes g remaining order x :
  NoDup (rm_component <$> nodes) -> loop_inv nodes g remaining order ->
  x ∈ omap (fun id => by_id nodes !! id) (filter (fun id => is_ready g id = true) (elements remaining))
  <-> x ∈ nodes /\ x ∉ order /\ ready nodes order x.
Proof.
  intros Hnd Hi. rewrite list_elem_of_omap. split.
  - intros (a & Ha & Hx). apply list_elem_of_filter in Ha as [Hrd Ha%elem_of_elements].
    apply by_id_Some in Hx as [Hx <-]; [|done]. split_and!; [done| |by eapply is_ready_spec].
    by eapply (li_remaining _ _ _ _ Hi).
  - intros (Hx & Hn & Hrd). exists (rm_component x). split; [|by apply by_id_Some].
    apply list_elem_of_filter. split; [by eapply is_ready_spec|]. by eapply elem_of_elements, (li_remaining _ _ _ _ Hi).
Qed.

Lemma nothing_left nodes g order : NoDup (rm_component <$> nodes) -> loop_inv nodes g ∅ order -> nodes ⊆ order.
Proof.
  intros Hnd Hi n Hn. destruct (elem_or_not nodes order n) as [|Hno]; [done|apply Hi|done|done|].
  apply (li_remaining _ _ _ _ Hi) in Hno; [set_solver|done].
Qed.

(** No candidate left although some component is. *)
Definition stuck nodes order : Prop :=
  resolves nodes order /\ (exists x, x ∈ nodes /\ x ∉ order)
  /\ forall x, x ∈ nodes -> x ∉ order -> ~ ready nodes order x.

Lemma resolve_loop_spec nodes fuel g remaining order :
  NoDup (rm_component <$> nodes) -> loop_inv nodes g remaining order -> (size remaining <= fuel)%nat ->
  match resolve_loop fuel (by_id nodes) g remaining order with
  | None => False
  | Some (Ok result) => resolves nodes result /\ nodes ⊆ result
  | Some (Err e) => e = order_cycle /\ exists result, stuck nodes result
  end.
Proof.
  intros Hnd. revert g remaining order. induction fuel as [|fuel IH]; intros g remaining order Hi Hf.
  - assert (remaining = ∅) as -> by (apply leibniz_equiv, size_empty_iff; lia). simpl.
    rewrite bool_decide_true by done. split; [apply Hi|]. by eapply nothing_left.
  - cbn [resolve_loop]. case_bool_decide as He.
    { subst. split; [apply Hi|]. by eapply nothing_left. }
    destruct (least_node _) as [x|] eqn:Hl.
    + apply least_node_Some in Hl as [Hx Hle]. apply (ready_candidates nodes g remaining order) in Hx as (Hx & Hn & Hrd); [|done..].
      rewrite (proj2 (by_id_Some nodes (rm_component x) x Hnd)) by done.
      assert (rm_component x ∈ remaining) as Hrem by (by eapply (li_remaining _ _ _ _ Hi)).
      apply IH.
      * apply remove_node_inv; try done. constructor; [apply Hi|done..|].
        intros y Hy Hyn Hyr. apply Hle. by apply (ready_candidates nodes g remaining order).
      * rewrite size_difference, size_singleton by set_solver. lia.
    + apply least_node_None in Hl. split; [done|]. exists order. split_and!; [apply Hi| |].
      * apply set_choose_L in He as [a Ha]. pose proof (li_within _ _ _ _ Hi _ Ha) as Hids.
        apply elem_of_ids in Hids as (x & Hx & <-). exists x. split; [done|]. by apply (li_remaining _ _ _ _ Hi).
      * intros x Hx Hn Hrd.
        assert (x ∈ omap (fun id => by_id nodes !! id) (filter (fun id => is_ready g id = true) (elements remaining))) as Hc
          by (by apply (ready_candidates nodes g remaining order)).
        rewrite Hl in Hc. by apply not_elem_of_nil in Hc.
Qed.

(** ** Stages *)

Lemma resolve_stage_spec stage all :
  NoDup (rm_component <$> all) ->
  match resolve_stage stage all with
  | None => False
  | Some (Ok order) => resolves (stage_nodes stage all) order /\ order ≡ₚ stage_nodes stage all
  | Some (Err e) => e = order_cycle /\ exists order, stuck (stage_nodes stage all) order
  end.
Proof.
  intros Hnd. set (nodes := stage_nodes stage all).
  assert (NoDup (rm_component <$> nodes)) as Hndn.
  { eapply sublist_NoDup; [apply Hnd|]. apply fmap_sublist, sublist_filter. }
  unfold resolve_stage. fold nodes. fold (ids_of nodes).
  assert (loop_inv nodes (build_graph nodes) (ids_of nodes) []) as Hi.
  { split; [done|apply (build_graph_spec nodes)|constructor| |done]. intros n Hn. rewrite elem_of_ids. set_solver. }
  assert (size (ids_of nodes) <= length nodes)%nat as Hf.
  { unfold ids_of. rewrite size_list_to_set by done. by rewrite length_fmap. }
  pose proof (resolve_loop_spec nodes (length nodes) (build_graph nodes) (ids_of nodes) [] Hndn Hi Hf) as HH.
  destruct (resolve_loop _ _ _ _ _) as [[order|e]|]; [|done|done].
  destruct HH as [Hr Hs]. split; [done|].
  apply NoDup_Permutation; [by eapply resolves_NoDup|by eapply NoDup_fmap_1|].
  intros x. split; [apply (resolves_incl _ _ Hr)|apply Hs].
Qed.

(** A stuck resolution has a cycle: no order of the components respects their
    declarations. *)
Lemma stuck_no_order nodes partial order :
  NoDup (rm_component <$> nodes) -> stuck nodes partial -> order ≡ₚ nodes -> ~ respects order.
Proof.
  intros Hnd (Hres & (x0 & Hx0 & Hx0n) & Hst) Hp Hresp.
  assert (forall i x, order !! i = Some x -> x ∉ partial -> False) as Hno.
  { intros i. induction (lt_wf i) as [i _ IH]. intros x Hx Hxn.
    assert (x ∈ nodes) as Hxs by (rewrite <- Hp; by eapply list_elem_of_lookup_2).
    apply (Hst x Hxs Hxn). intros w Hw Hne Hpr. destruct (elem_or_not nodes partial w) as [|Hwn]; [done..|]. exfalso.
    rewrite <- Hp in Hw. apply list_elem_of_lookup in Hw as [j Hj]. by apply (IH j (Hresp j i w x Hj Hx Hne Hpr) w). }
  rewrite <- Hp in Hx0. apply list_elem_of_lookup in Hx0 as [i Hi]. by apply (Hno i x0).
Qed.
End Chain.

(** ** The whole chain *)

Section TryNew.
Context {Handle : Type} (descriptor : Handle -> MiddlewareDescriptor).

Definition is_compactor (r : @ResolvedMiddleware Handle) : bool :=
  match mwd_role (rm_descriptor r) with MiddlewareRole_ContextCompactor _ _ => true | _ => false end.

(** What registration establishes. *)
Record registered (resolved : list (@ResolvedMiddleware Handle)) (registrations : list Handle) : Prop := {
  rg_handles : rm_middleware <$> resolved = registrations;
  rg_descriptors : Forall (fun r => rm_descriptor r = descriptor (rm_middleware r)) resolved;
  rg_valid : Forall (fun r => MiddlewareDescriptor_validate (rm_descriptor r) = Ok tt) resolved;
  rg_recompute : Forall (fun r => ci_recovery (mwd_invocation (rm_descriptor r)) = InvocationRecovery_RecomputeSafe) resolved;
  rg_unique : NoDup (rm_component <$> resolved)
}.

Lemma register_step_inv st l h st' :
  (registered st.1 l /\ st.2 = length (filter (fun r => is_compactor r = true) st.1)) ->
  register_step descriptor st (length l, h) = Ok st' ->
  registered st'.1 (l ++ [h]) /\ st'.2 = length (filter (fun r => is_compactor r = true) st'.1).
Proof.
  destruct st as [resolved compactors]. simpl. intros [[Hh Hd Hv Hr Hu] Hc] HH.
  destruct (MiddlewareDescriptor_validate (descriptor h)) as [[]|] eqn:Ev; [|discriminate HH]. cbn [rbind] in HH.
  destruct (reject_if (_ <>?? _) _) as [[]|] eqn:Er; [|discriminate HH]. cbn [rbind] in HH.
  destruct (reject_if (existsb _ _) _) as [[]|] eqn:Ex; [|discriminate HH]. cbn [rbind] in HH. injection HH as <-.
  apply reject_if_Ok in Er, Ex. crush_ok. cbn [fst snd]. split.
  - split; rewrite ?fmap_app; try (apply Forall_app; split; [done|by constructor]).
    + by rewrite Hh.
    + apply NoDup_app. split_and!; [done| |apply NoDup_singleton]. intros c Hin%list_elem_of_fmap Hc'.
      apply list_elem_of_singleton in Hc' as ->. destruct Hin as (r & He & Hr').
      apply not_true_iff_false in Ex. apply Ex. apply existsb_exists. exists r. rewrite <- list_elem_of_In.
      split; [done|]. apply eqb_true. symmetry. exact He.
  - rewrite filter_app, length_app, Hc.
    destruct (mwd_role (descriptor h)) eqn:Erole; [rewrite filter_cons_False|rewrite filter_cons_True|rewrite filter_cons_False];
      try (unfold is_compactor; cbn [rm_descriptor]; by rewrite Erole); simpl; lia.
Qed.

Lemma register_inv registrations resolved compactors :
  rfold (register_step descriptor) ([], 0%nat) (enumerate registrations) = Ok (resolved, compactors) ->
  registered resolved registrations /\ compactors = length (filter (fun r => is_compactor r = true) resolved).
Proof.
  intros HH. apply (rfold_enumerate_ind
    (fun st l => registered st.1 l /\ st.2 = length (filter (fun r => is_compactor r = true) st.1))) in HH; [done| |].
  - split; [|done]. split; constructor.
  - intros st l h st' Hi Hs. by eapply register_step_inv.
Qed.

(** Registration never reports a cycle. *)
Lemma reject_if_Err {E} (c : bool) (e e' : E) : reject_if c e = Err e' -> e' = e.
Proof. unfold reject_if. case_match; [by intros [= <-]|done]. Qed.

Lemma descriptor_error d e : MiddlewareDescriptor_validate d = Err e -> mwe_code e = MIDDLEWARE_RESOLUTION_INVALID.
Proof.
  unfold MiddlewareDescriptor_validate, StageMask_validate. intros HH.
  repeat match goal with
  | HH : rbind ?m _ = Err _ |- _ =>
      let E := fresh "E" in destruct m eqn:E; cbn [rbind] in HH; [|injection HH as ->]
  | HH : (if ?c then _ else _) = Err _ |- _ => destruct c; [injection HH as <-|discriminate HH]
  | HH : reject_if _ _ = Err _ |- _ => apply reject_if_Err in HH; subst
  | HH : match mwd_role d with _ => _ end = Err _ |- _ => destruct (mwd_role d)
  | HH : _ = Ok _ |- _ => clear HH
  end; done.
Qed.

Lemma register_not_cycle l st : rfold (register_step descriptor) st l <> Err order_cycle.
Proof.
  revert st. induction l as [|[i h] l IH]; intros [resolved compactors]; [done|]. cbn [rfold].
  destruct (register_step descriptor _ (i, h)) as [st'|e] eqn:Es; cbn [rbind]; [apply IH|].
  intros [= ->]. unfold register_step in Es.
  destruct (MiddlewareDescriptor_validate (descriptor h)) as [[]|e] eqn:Ev; cbn [rbind] in Es.
  - destruct (reject_if (_ <>?? _) _) as [[]|] eqn:Er; cbn [rbind] in Es; [|by injection Es as ->; apply reject_if_Err in Er].
    destruct (reject_if (existsb _ _) _) as [[]|] eqn:Ex; cbn [rbind] in Es; [done|].
    injection Es as ->. by apply reject_if_Err in Ex.
  - injection Es as ->. by apply descriptor_error in Ev.
Qed.

(** Every stage of the map is resolved. *)
Lemma resolve_stages_spec stages (all : list (@ResolvedMiddleware Handle)) m :
  NoDup (rm_component <$> all) ->
  match resolve_stages stages all m with
  | None => False
  | Some (Ok m') =>
      forall stage, (stage ∈ stages /\ exists order, m' !! stage = Some order /\ resolve_stage stage all = Some (Ok order))
                    \/ (stage ∉ stages /\ m' !! stage = m !! stage)
  | Some (Err e) => e = order_cycle /\ exists stage partial, stage ∈ stages /\ stuck (stage_nodes stage all) partial
  end.
Proof.
  intros Hnd. revert m. induction stages as [|s stages IH]; intros m; simpl; [intros stage; right; set_solver|].
  pose proof (resolve_stage_spec s all Hnd) as Hs. destruct (resolve_stage s all) as [[order|e]|] eqn:Er; [| |done].
  - specialize (IH (<[s := order]> m)). destruct (resolve_stages stages all _) as [[m'|e]|]; [| |done].
    + intros stage. destruct (IH stage) as [[Hin Ho]|[Hni Heq]]; [left; split; [by right|done]|].
      destruct (decide (stage = s)) as [->|Hne].
      * left. split; [by left|]. exists order. rewrite Heq, lookup_insert_eq. done.
      * right. rewrite Heq, lookup_insert_ne by done. set_solver.
    + destruct IH as (-> & stage & partial & Hin & Hst). split; [done|]. exists stage, partial. split; [by right|done].
  - destruct Hs as (-> & partial & Hst). split; [done|]. exists s, partial. split; [by left|done].
Qed.

Section Digested.
Context `{Hasher, MiddlewareJson}.

Lemma try_new_spec registrations :
  match ResolvedMiddlewareChain_try_new descriptor registrations with
  | None => False
  | Some (Ok chain) => exists resolved,
      registered resolved registrations
      /\ (length (filter (fun r => is_compactor r = true) resolved) <= 1)%nat
      /\ forall stage, resolve_stage stage resolved = Some (Ok (chain_stage chain stage))
  | Some (Err e) => e = order_cycle ->
      exists resolved stage partial, registered resolved registrations /\ stuck (stage_nodes stage resolved) partial
  end.
Proof.
  unfold ResolvedMiddlewareChain_try_new.
  destruct (reject_if (SEMANTIC_ARRAY_MAX_ITEMS <? length registrations)%nat _) as [[]|e] eqn:E1; cbn [rbind]; last first.
  { unfold reject_if in E1. case_match; [|done]. by injection E1 as <-. }
  destruct (rfold _ _ _) as [[resolved compactors]|e] eqn:E2; cbn [rbind]; last first.
  { intros ->. exfalso. by eapply register_not_cycle. }
  apply register_inv in E2 as [Hreg ->].
  destruct (reject_if (1 <? _)%nat _) as [[]|e] eqn:E3; cbn [rbind]; last first.
  { unfold reject_if in E3. case_match; [|done]. by injection E3 as <-. }
  destruct (check_dependencies resolved) as [[]|e] eqn:E4; cbn [rbind]; last first.
  { unfold check_dependencies, reject_if in E4. case_match; [|done]. by injection E4 as <-. }
  destruct (jcs_descriptors _) as [bytes|]; cbn [ok_or rbind]; [|done].
  pose proof (resolve_stages_spec CHAIN_STAGES resolved ∅ (rg_unique _ _ Hreg)) as Hs.
  destruct (resolve_stages CHAIN_STAGES resolved ∅) as [[m|e]|]; [| |done].
  - exists resolved. split_and!; [done| |].
    + apply reject_if_Ok, Nat.ltb_ge in E3. done.
    + intros stage. destruct (Hs stage) as [(_ & order & Hm & Ho)|[Hni _]].
      * unfold chain_stage. simpl. rewrite Hm. done.
      * exfalso. apply Hni. unfold CHAIN_STAGES. destruct stage; set_solver.
  - destruct Hs as (_ & stage & partial & _ & Hst). intros _. eauto.
Qed.
End Digested.
End TryNew.
