(* ===== verification/ModelStream.v ===== *)
(** * Assembling a model stream

    Models [ports/model/stream.rs] and the response types of
    [ports/model/request.rs] of [finstack-ai-runtime]: the bounded assembler
    that reads a provider's stream of fragments to its end and accepts it only
    if it closes with one terminal item that repeats what was streamed.

    A stream is the finite list of what [poll_next] yields before the end.  The
    progress callback is a function on a world that may refuse.  Byte counts of
    canonical JSON and the parse of streamed arguments are the class
    [StreamJson].  The counters are [usize] with checked additions: an overflow
    and a value above the limit return the same error, so a plain comparison
    with the limit covers both. *)

From S2P Require Import Prelude Primitives Effects Records ModelPort.

(** ** Stream items *)

Definition MODEL_STREAM_MISSING_COMPLETION : string := "model_stream_missing_completion".
Definition MODEL_STREAM_DUPLICATE_COMPLETION : string := "model_stream_duplicate_completion".
Definition MODEL_STREAM_ITEM_AFTER_COMPLETION : string := "model_stream_item_after_completion".
Definition MODEL_STREAM_ERROR_AFTER_COMPLETION : string := "model_stream_error_after_completion".
Definition MODEL_STREAM_LIMIT_EXCEEDED : string := "model_stream_limit_exceeded".
Definition MODEL_TOOL_CALL_DELTA_INVALID : string := "model_tool_call_delta_invalid".
Definition MODEL_TOOL_CALL_INCOMPLETE : string := "model_tool_call_incomplete".
Definition MODEL_TOOL_CALL_ARGUMENTS_INVALID : string := "model_tool_call_arguments_invalid".
Definition MODEL_USAGE_INVALID : string := "model_usage_invalid".
Definition MODEL_RESPONSE_MISMATCH : string := "model_response_mismatch".

Record ModelToolCall : Type := mkModelToolCall {
  mtc_name : string;
  mtc_arguments : RawJson;
  mtc_provider_call_id : option string
}.
#[global] Instance ModelToolCall_eq_dec : EqDecision ModelToolCall.
Proof. solve_decision. Defined.

Record ModelResponse : Type := mkModelResponse {
  mrs_assistant_content : list ContentBlock;
  mrs_tool_calls : list ModelToolCall;
  mrs_usage : Usage;
  mrs_provider_ids : ProviderIds;
  mrs_completion_id : string;
  mrs_continuation_state : option RawJson
}.
#[global] Instance ModelResponse_eq_dec : EqDecision ModelResponse.
Proof. solve_decision. Defined.

Record ModelDeferral : Type := mkModelDeferral {
  mdf_handle : ExternalHandleRef;
  mdf_reconciliation : ReconciliationPolicy;
  mdf_next_poll_at : option Timestamp;
  mdf_expires_at : option Timestamp
}.
#[global] Instance ModelDeferral_eq_dec : EqDecision ModelDeferral.
Proof. solve_decision. Defined.

Record ToolCallDelta : Type := mkToolCallDelta {
  tcd_index : Z;
  tcd_name : option string;
  tcd_arguments_delta : string;
  tcd_provider_call_id : option string
}.
#[global] Instance ToolCallDelta_eq_dec : EqDecision ToolCallDelta.
Proof. solve_decision. Defined.

Inductive ModelStreamItem : Type :=
| ModelStreamItem_TextDelta (text : string)
| ModelStreamItem_ReasoningDelta (text : string)
| ModelStreamItem_ToolCallDelta (delta : ToolCallDelta)
| ModelStreamItem_Usage (usage : Usage)
| ModelStreamItem_Heartbeat (metadata : Metadata)
| ModelStreamItem_ProviderEvent (namespace : string) (payload : RawJson)
| ModelStreamItem_Completed (response : ModelResponse)
| ModelStreamItem_Deferred (deferral : ModelDeferral).

Record ModelStreamLimits : Type := mkModelStreamLimits {
  msl_max_items : Z;
  msl_max_bytes : Z;
  msl_max_tool_calls : nat
}.

Definition ModelStreamLimits_default : ModelStreamLimits := mkModelStreamLimits 4096 (2 * 1048576) (Z.to_nat 1024).

Inductive ModelProgress : Type :=
| ModelProgress_Text (text : string)
| ModelProgress_Reasoning (text : string)
| ModelProgress_Heartbeat (metadata : Metadata).

Inductive ModelTerminal : Type :=
| ModelTerminal_Completed (response : ModelResponse)
| ModelTerminal_Deferred (deferral : ModelDeferral).

Record PartialToolCall : Type := mkPartialToolCall {
  ptc_name : option string;
  ptc_arguments : string;
  ptc_provider_call_id : option string
}.

Definition PartialToolCall_default : PartialToolCall := mkPartialToolCall None "" None.

Record StreamState : Type := mkStreamState {
  sst_item_count : Z;
  sst_byte_count : Z;
  sst_text : string;
  sst_reasoning_bytes : Z;
  sst_tools : gmap Z PartialToolCall;
  sst_order : list Z;
  sst_usage : option Usage;
  sst_terminal : option ModelTerminal
}.

Definition StreamState_new : StreamState := mkStreamState 0 0 "" 0 ∅ [] None None.

Definition set_sst_items (v : Z) (s : StreamState) : StreamState :=
  mkStreamState v (sst_byte_count s) (sst_text s) (sst_reasoning_bytes s) (sst_tools s) (sst_order s) (sst_usage s) (sst_terminal s).
Definition set_sst_bytes (v : Z) (s : StreamState) : StreamState :=
  mkStreamState (sst_item_count s) v (sst_text s) (sst_reasoning_bytes s) (sst_tools s) (sst_order s) (sst_usage s) (sst_terminal s).
Definition set_sst_text (v : string) (s : StreamState) : StreamState :=
  mkStreamState (sst_item_count s) (sst_byte_count s) v (sst_reasoning_bytes s) (sst_tools s) (sst_order s) (sst_usage s) (sst_terminal s).
Definition set_sst_reasoning (v : Z) (s : StreamState) : StreamState :=
  mkStreamState (sst_item_count s) (sst_byte_count s) (sst_text s) v (sst_tools s) (sst_order s) (sst_usage s) (sst_terminal s).
Definition set_sst_tools (tools : gmap Z PartialToolCall) (order : list Z) (s : StreamState) : StreamState :=
  mkStreamState (sst_item_count s) (sst_byte_count s) (sst_text s) (sst_reasoning_bytes s) tools order (sst_usage s) (sst_terminal s).
Definition set_sst_usage (v : option Usage) (s : StreamState) : StreamState :=
  mkStreamState (sst_item_count s) (sst_byte_count s) (sst_text s) (sst_reasoning_bytes s) (sst_tools s) (sst_order s) v (sst_terminal s).
Definition set_sst_terminal (v : option ModelTerminal) (s : StreamState) : StreamState :=
  mkStreamState (sst_item_count s) (sst_byte_count s) (sst_text s) (sst_reasoning_bytes s) (sst_tools s) (sst_order s) (sst_usage s) v.

Class StreamJson : Type := {
  response_byte_len : ModelResponse -> option Z;
  deferral_byte_len : ModelDeferral -> option Z;
  parse_arguments : string -> option RawJson
}.

(** ** Checks *)

Definition stream_limit_error : ModelError :=
  ModelError_limit MODEL_STREAM_LIMIT_EXCEEDED "model stream exceeded a configured aggregate limit".

Definition validate_delta (value : string) : dresult unit :=
  reject_if ((value =?? "") || has_nul value)
    (ModelError_validation MODEL_STREAM_LIMIT_EXCEEDED "model stream delta must be non-empty UTF-8 without NUL").

Definition regressed (previous current : option Z) : bool :=
  match previous, current with
  | Some _, None => true
  | Some previous, Some current => current <? previous
  | None, _ => false
  end.

Definition cost_regressed (previous current : Usage) : bool :=
  match us_cost previous, us_cost current with
  | Some _, None => true
  | Some previous, Some current =>
      (ca_unit previous <>?? ca_unit current) || (ca_pricing_policy_version previous <>?? ca_pricing_policy_version current)
      || (ca_micros current <? ca_micros previous)
  | None, _ => false
  end.

Definition usage_regressed (previous current : Usage) : bool :=
  regressed (us_input_tokens previous) (us_input_tokens current)
  || regressed (us_output_tokens previous) (us_output_tokens current)
  || regressed (us_total_tokens previous) (us_total_tokens current)
  || cost_regressed previous current
  || existsb (fun '(key, value) => is_none_or (us_extension_counters current !! key) (fun current => current <? value))
       (map_to_list (us_extension_counters previous)).

Definition usage_total_consistent (usage : Usage) : bool :=
  match us_input_tokens usage, us_output_tokens usage, us_total_tokens usage with
  | Some input, Some output, Some total => u64_checked_add input output =?? Some total
  | _, _, _ => true
  end.

Definition validate_usage (current : Usage) (previous : option Usage) : dresult unit :=
  do? reject_if (negb (usage_valid current)) (ModelError_validation MODEL_USAGE_INVALID "model usage is invalid") in
  do? reject_if (negb (usage_total_consistent current))
        (ModelError_validation MODEL_USAGE_INVALID "model usage total is inconsistent") in
  reject_if (is_some_and previous (fun previous => usage_regressed previous current))
    (ModelError_validation MODEL_USAGE_INVALID "model usage regressed across cumulative snapshots").

Definition merge_fragment_label (current : option string) (value mutated : string) : dresult (option string) :=
  do? reject_if (is_some_and current (fun current => current <>?? value))
        (ModelError_validation MODEL_TOOL_CALL_DELTA_INVALID mutated) in
  Ok (Some value).

(** ** The assembler *)

Section Assembler.
Context `{StreamJson} (limits : ModelStreamLimits).

Definition add_bytes (add : Z) (s : StreamState) : dresult StreamState :=
  if msl_max_bytes limits <? sst_byte_count s + add then Err stream_limit_error
  else Ok (set_sst_bytes (sst_byte_count s + add) s).

Definition accept_text (text : string) (s : StreamState) : dresult StreamState :=
  do? validate_delta text in
  let? s := add_bytes (str_len text) s in
  let s := set_sst_text (sst_text s +:+ text) s in
  if STREAM_TEXT_MAX_BYTES <? str_len (sst_text s) then Err stream_limit_error else Ok s.

Definition accept_reasoning (text : string) (s : StreamState) : dresult StreamState :=
  do? validate_delta text in
  let? s := add_bytes (str_len text) s in
  let s := set_sst_reasoning (sst_reasoning_bytes s + str_len text) s in
  if STREAM_REASONING_MAX_BYTES <? sst_reasoning_bytes s then Err stream_limit_error else Ok s.

Definition accept_tool_call (delta : ToolCallDelta) (s : StreamState) : dresult StreamState :=
  let index := tcd_index delta in
  let? order :=
    if is_some (sst_tools s !! index) then Ok (sst_order s)
    else if (msl_max_tool_calls limits <=? size (sst_tools s))%nat then Err stream_limit_error
    else Ok (sst_order s ++ [index]) in
  let partial := default PartialToolCall_default (sst_tools s !! index) in
  let? '(s, name) :=
    match tcd_name delta with
    | None => Ok (s, ptc_name partial)
    | Some name =>
        do? validated_label name in
        let? s := add_bytes (str_len name) s in
        let? merged := merge_fragment_label (ptc_name partial) name "model tool-call name mutated across fragments" in
        Ok (s, merged)
    end in
  let? s := add_bytes (str_len (tcd_arguments_delta delta)) s in
  let arguments := ptc_arguments partial +:+ tcd_arguments_delta delta in
  let? provider_call_id :=
    match tcd_provider_call_id delta with
    | None => Ok (ptc_provider_call_id partial)
    | Some id =>
        do? validated_label id in
        merge_fragment_label (ptc_provider_call_id partial) id "model tool-call provider id mutated across fragments"
    end in
  Ok (set_sst_tools (<[index := mkPartialToolCall name arguments provider_call_id]> (sst_tools s)) order s).

Definition accept (item : ModelStreamItem) (s : StreamState) : dresult (StreamState * option ModelProgress) :=
  let s := set_sst_items (sst_item_count s + 1) s in
  if msl_max_items limits <? sst_item_count s then Err stream_limit_error
  else
    match item with
    | ModelStreamItem_TextDelta text => let? s := accept_text text s in Ok (s, Some (ModelProgress_Text text))
    | ModelStreamItem_ReasoningDelta text => let? s := accept_reasoning text s in Ok (s, Some (ModelProgress_Reasoning text))
    | ModelStreamItem_ToolCallDelta delta => let? s := accept_tool_call delta s in Ok (s, None)
    | ModelStreamItem_Usage usage =>
        do? validate_usage usage (sst_usage s) in
        Ok (set_sst_usage (Some usage) s, None)
    | ModelStreamItem_Heartbeat metadata =>
        let? s := add_bytes (str_len metadata) s in Ok (s, Some (ModelProgress_Heartbeat metadata))
    | ModelStreamItem_ProviderEvent namespace payload =>
        do? validated_label namespace in
        let? s := add_bytes (str_len namespace) s in
        let? s := add_bytes (str_len payload) s in
        Ok (s, None)
    | ModelStreamItem_Completed response =>
        let? len := ok_or (response_byte_len response)
                      (ModelError_validation MODEL_RESPONSE_MISMATCH "model response is not serializable") in
        let? s := add_bytes len s in
        Ok (set_sst_terminal (Some (ModelTerminal_Completed response)) s, None)
    | ModelStreamItem_Deferred deferral =>
        let? len := ok_or (deferral_byte_len deferral)
                      (ModelError_validation MODEL_RESPONSE_MISMATCH "model deferral is not serializable") in
        let? s := add_bytes len s in
        Ok (set_sst_terminal (Some (ModelTerminal_Deferred deferral)) s, None)
    end.

Definition after_terminal_error (item : dresult ModelStreamItem) : ModelError :=
  match item with
  | Err _ => ModelError_validation MODEL_STREAM_ERROR_AFTER_COMPLETION
               "model stream returned an error after its terminal item"
  | Ok (ModelStreamItem_Completed _ | ModelStreamItem_Deferred _) =>
      ModelError_validation MODEL_STREAM_DUPLICATE_COMPLETION "model stream returned more than one terminal item"
  | Ok _ => ModelError_validation MODEL_STREAM_ITEM_AFTER_COMPLETION
              "model stream returned an item after its terminal item"
  end.

(** ** The end of the stream *)

Definition validate_deferral (deferral : ModelDeferral) (tools : gmap Z PartialToolCall) : dresult unit :=
  do? reject_if (bool_decide (tools <> ∅))
        (ModelError_validation MODEL_TOOL_CALL_INCOMPLETE "deferred model stream contains an unsettled tool call") in
  reject_if (match mdf_next_poll_at deferral, mdf_expires_at deferral with
             | Some next, Some expires => expires <? next
             | _, _ => false
             end)
    (ModelError_validation MODEL_RESPONSE_MISMATCH "model deferral poll time exceeds its expiry").

Definition final_text_step (text : string) (block : ContentBlock) : dresult string :=
  match block with
  | ContentBlock_Text value => Ok (text +:+ tb_text value)
  | ContentBlock_ToolCall _ | ContentBlock_ToolResult _ =>
      Err (ModelError_validation MODEL_RESPONSE_MISMATCH "model response content contains a framework-owned tool block")
  | _ => Ok text
  end.

(** [tools[index]] cannot fail: every index of [order] was entered with its
    call, which is the [None] branch left out of the source. *)
Definition assemble_call (tools : gmap Z PartialToolCall) (index : Z) : dresult ModelToolCall :=
  let partial := default PartialToolCall_default (tools !! index) in
  let? name := ok_or (ptc_name partial)
                 (ModelError_validation MODEL_TOOL_CALL_INCOMPLETE "model tool call completed without a name") in
  do? reject_if (ptc_arguments partial =?? "")
        (ModelError_validation MODEL_TOOL_CALL_INCOMPLETE "model tool call completed without arguments") in
  let? arguments := ok_or (parse_arguments (ptc_arguments partial))
                      (ModelError_validation MODEL_TOOL_CALL_ARGUMENTS_INVALID
                         "model tool-call arguments are not strict JSON") in
  Ok (mkModelToolCall name arguments (ptc_provider_call_id partial)).

Definition assemble_calls (tools : gmap Z PartialToolCall) (order : list Z) : dresult (list ModelToolCall) :=
  rfold (fun calls index => let? call := assemble_call tools index in Ok (calls ++ [call])) [] order.

Definition validate_completed_response (response : ModelResponse) (streamed_text : string) (tools : gmap Z PartialToolCall)
    (order : list Z) (usage : option Usage) : dresult unit :=
  do? validated_label (mrs_completion_id response) in
  let? final_text := rfold final_text_step "" (mrs_assistant_content response) in
  do? reject_if (final_text <>?? streamed_text)
        (ModelError_validation MODEL_RESPONSE_MISMATCH "streamed text does not match the final response") in
  let? assembled_calls := assemble_calls tools order in
  do? reject_if (assembled_calls <>?? mrs_tool_calls response)
        (ModelError_validation MODEL_RESPONSE_MISMATCH "streamed tool calls do not match the final response") in
  do? validate_usage (mrs_usage response) None in
  reject_if (is_some_and usage (fun streamed => streamed <>?? mrs_usage response))
    (ModelError_validation MODEL_RESPONSE_MISMATCH "streamed usage does not match the final response").

Definition finish (s : StreamState) : dresult ModelTerminal :=
  let? terminal := ok_or (sst_terminal s)
                     (ModelError_validation MODEL_STREAM_MISSING_COMPLETION "model stream ended without a terminal item") in
  do? match terminal with
      | ModelTerminal_Completed response =>
          validate_completed_response response (sst_text s) (sst_tools s) (sst_order s) (sst_usage s)
      | ModelTerminal_Deferred deferral => validate_deferral deferral (sst_tools s)
      end in
  Ok terminal.

(** ** The loop *)

Section Progress.
Context {W : Type} (emit_progress : ModelProgress -> W -> W * dresult unit).

Definition emit (progress : option ModelProgress) (w : W) : W * dresult unit :=
  match progress with Some p => emit_progress p w | None => (w, Ok tt) end.

Fixpoint assemble_loop (stream : list (dresult ModelStreamItem)) (s : StreamState) (w : W) : W * dresult ModelTerminal :=
  match stream with
  | [] => (w, finish s)
  | item :: stream =>
      if is_some (sst_terminal s) then (w, Err (after_terminal_error item))
      else
        match item with
        | Err e => (w, Err e)
        | Ok item =>
            match accept item s with
            | Err e => (w, Err e)
            | Ok (s, progress) =>
                match emit progress w with
                | (w, Err e) => (w, Err e)
                | (w, Ok _) => assemble_loop stream s w
                end
            end
        end
  end.

Definition assemble_incremental (stream : list (dresult ModelStreamItem)) (w : W) : W * dresult ModelTerminal :=
  assemble_loop stream StreamState_new w.
End Progress.

(** [assemble]: the progress is collected, in order. *)
Definition assemble (stream : list (dresult ModelStreamItem)) : dresult (list ModelProgress * ModelTerminal) :=
  match assemble_incremental (fun p ps => (ps ++ [p], Ok tt)) stream [] with
  | (progress, Ok terminal) => Ok (progress, terminal)
  | (_, Err e) => Err e
  end.
End Assembler.

Definition ModelStreamAssembler_new (limits : ModelStreamLimits) : dresult ModelStreamLimits :=
  if (msl_max_items limits =? 0) || (msl_max_bytes limits =? 0) || (msl_max_tool_calls limits =? 0)%nat
  then Err (ModelError_validation MODEL_STREAM_LIMIT_EXCEEDED "model stream limits must be non-zero")
  else Ok limits.
