(* ===== verification/ModelStreamSound.v ===== *)
(** * What an accepted model stream says

    Proofs about [ModelStream]: an accepted stream is a run of fragments closed
    by one terminal item, and the terminal response repeats the fragments: the
    text is their concatenation, every tool call is the join of its own
    fragments, and usage never went backwards. *)

From S2P Require Import Prelude Primitives Effects Records ModelPort ModelStream.

(** ** Reference definitions over the list of items *)

Definition is_terminal (item : ModelStreamItem) : bool :=
  match item with ModelStreamItem_Completed _ | ModelStreamItem_Deferred _ => true | _ => false end.

Definition join (l : list string) : string := foldl (fun acc s => acc +:+ s) "" l.

Definition streamed_texts (items : list ModelStreamItem) : list string :=
  omap (fun item => match item with ModelStreamItem_TextDelta text => Some text | _ => None end) items.

Definition tool_deltas (items : list ModelStreamItem) : list ToolCallDelta :=
  omap (fun item => match item with ModelStreamItem_ToolCallDelta delta => Some delta | _ => None end) items.

Definition usages (items : list ModelStreamItem) : list Usage :=
  omap (fun item => match item with ModelStreamItem_Usage usage => Some usage | _ => None end) items.

Definition progress_of (item : ModelStreamItem) : option ModelProgress :=
  match item with
  | ModelStreamItem_TextDelta text => Some (ModelProgress_Text text)
  | ModelStreamItem_ReasoningDelta text => Some (ModelProgress_Reasoning text)
  | ModelStreamItem_Heartbeat metadata => Some (ModelProgress_Heartbeat metadata)
  | _ => None
  end.

(** The fragments of one call, and the indices in the order they first appear. *)
Definition fragments (index : Z) (items : list ModelStreamItem) : list ToolCallDelta :=
  filter (fun d => tcd_index d = index) (tool_deltas items).

Definition first_seen (l : list Z) : list Z :=
  foldl (fun seen i => if bool_decide (i ∈ seen) then seen else seen ++ [i]) [] l.

Definition call_indices (items : list ModelStreamItem) : list Z := first_seen (tcd_index <$> tool_deltas items).

(** All the labels the fragments give are the one the call has. *)
Definition label_is (label : option string) (given : list string) : Prop :=
  match label with
  | Some n => given <> [] /\ Forall (fun m => m = n) given
  | None => given = []
  end.

Record joins (ds : list ToolCallDelta) (p : PartialToolCall) : Prop := {
  jn_name : label_is (ptc_name p) (omap tcd_name ds);
  jn_arguments : ptc_arguments p = join (tcd_arguments_delta <$> ds);
  jn_provider_call_id : label_is (ptc_provider_call_id p) (omap tcd_provider_call_id ds)
}.

Lemma join_snoc l s : join (l ++ [s]) = join l +:+ s.
Proof. unfold join. by rewrite foldl_app. Qed.

Lemma first_seen_snoc l i :
  first_seen (l ++ [i]) = if bool_decide (i ∈ first_seen l) then first_seen l else first_seen l ++ [i].
Proof. unfold first_seen. by rewrite foldl_app. Qed.

Lemma first_seen_elem l i : i ∈ first_seen l <-> i ∈ l.
Proof.
  induction l as [|j l IH] using rev_ind; [done|]. rewrite first_seen_snoc, elem_of_app, list_elem_of_singleton.
  case_bool_decide as Hj; rewrite ?elem_of_app, ?list_elem_of_singleton, IH; [|done].
  split; [tauto|]. intros [?| ->]; [done|]. by apply IH.
Qed.

Lemma fragments_snoc items item index :
  fragments index (items ++ [item])
  = fragments index items ++
    match item with
    | ModelStreamItem_ToolCallDelta d => if bool_decide (tcd_index d = index) then [d] else []
    | _ => []
    end.
Proof.
  unfold fragments, tool_deltas. rewrite omap_app, filter_app. f_equal. destruct item; try done.
  simpl. rewrite filter_cons, filter_nil. case_decide; by case_bool_decide.
Qed.

Lemma fragments_nil index items : fragments index items = [] <-> index ∉ call_indices items.
Proof.
  unfold fragments, call_indices. rewrite first_seen_elem. induction (tool_deltas items) as [|d ds IH]; [set_solver|].
  rewrite filter_cons, fmap_cons, not_elem_of_cons, <- IH. case_decide; naive_solver.
Qed.

(** ** The state after a run of fragments *)

Section Sound.
Context `{StreamJson} (limits : ModelStreamLimits).

Record streamed (items : list ModelStreamItem) (s : StreamState) : Prop := {
  sd_fragments : Forall (fun item => is_terminal item = false) items;
  sd_count : sst_item_count s = Z.of_nat (length items);
  sd_within : items <> [] -> Z.of_nat (length items) <= msl_max_items limits;
  sd_text : sst_text s = join (streamed_texts items);
  sd_order : sst_order s = call_indices items;
  sd_tools : forall index,
    match sst_tools s !! index with
    | Some p => index ∈ call_indices items /\ joins (fragments index items) p
    | None => index ∉ call_indices items
    end;
  sd_usage : sst_usage s = last (usages items);
  sd_monotone : forall i u v, usages items !! i = Some u -> usages items !! S i = Some v -> usage_regressed u v = false;
  sd_open : sst_terminal s = None
}.

Lemma streamed_new : streamed [] StreamState_new.
Proof. split; try done. intros index. simpl. rewrite lookup_empty. apply not_elem_of_nil. Qed.

Lemma add_bytes_Ok add s s' :
  add_bytes limits add s = Ok s' -> s' = set_sst_bytes (sst_byte_count s + add) s.
Proof. unfold add_bytes. case_match; [done|]. by intros [= <-]. Qed.

(** The parts of the state that [add_bytes] leaves alone. *)
Definition same_content (s s' : StreamState) : Prop :=
  sst_item_count s' = sst_item_count s /\ sst_text s' = sst_text s /\ sst_tools s' = sst_tools s
  /\ sst_order s' = sst_order s /\ sst_usage s' = sst_usage s /\ sst_terminal s' = sst_terminal s.

Lemma add_bytes_content add s s' : add_bytes limits add s = Ok s' -> same_content s s'.
Proof. intros ->%add_bytes_Ok. done. Qed.

Lemma usages_monotone_snoc us u :
  (forall i a b, us !! i = Some a -> us !! S i = Some b -> usage_regressed a b = false) ->
  (forall a, last us = Some a -> usage_regressed a u = false) ->
  forall i a b, (us ++ [u]) !! i = Some a -> (us ++ [u]) !! S i = Some b -> usage_regressed a b = false.
Proof.
  intros Hm Hl i a b Ha Hb. apply lookup_snoc_Some in Hb as [[Hi Hb]|[Hi ->]].
  - rewrite lookup_app_l in Ha by lia. by eapply Hm.
  - apply Hl. rewrite lookup_app_l in Ha by lia. rewrite last_lookup. by replace (pred (length us)) with i by lia.
Qed.

(** Items that carry neither text, nor call fragments, nor usage. *)
Lemma streamed_plain items item s s' :
  streamed items s -> is_terminal item = false ->
  streamed_texts (items ++ [item]) = streamed_texts items ->
  tool_deltas (items ++ [item]) = tool_deltas items -> usages (items ++ [item]) = usages items ->
  Z.of_nat (length (items ++ [item])) <= msl_max_items limits ->
  sst_item_count s' = sst_item_count s + 1 -> sst_text s' = sst_text s -> sst_tools s' = sst_tools s ->
  sst_order s' = sst_order s -> sst_usage s' = sst_usage s -> sst_terminal s' = sst_terminal s ->
  streamed (items ++ [item]) s'.
Proof.
  intros [Hf Hc Hw Ht Ho Htl Hu Hm Hop] Hni Htx Htd Hus Hmax E1 E2 E3 E4 E5 E6.
  unfold call_indices, fragments in *. split; rewrite ?Htx, ?Htd, ?Hus; try congruence; try done.
  - apply Forall_app. by split; [|constructor].
  - rewrite E1, Hc, length_app. simpl. lia.
  - unfold call_indices. rewrite Htd. congruence.
  - unfold call_indices, fragments. rewrite Htd, E3. done.
Qed.

(** ** Tool-call fragments *)

Lemma merge_label_is cur given value mutated r :
  label_is cur given -> merge_fragment_label cur value mutated = Ok r -> label_is r (given ++ [value]).
Proof.
  unfold merge_fragment_label. intros Hl HH. destruct cur as [n|]; simpl in *.
  - destruct (eqb_reflect n value) as [->|]; simpl in HH; [|done]. injection HH as <-.
    destruct Hl as [? ?]. split; [by destruct given|]. apply Forall_app. by split; [|constructor].
  - injection HH as <-. subst. split; [done|]. by constructor.
Qed.

Lemma accept_tool_call_inv d s s' :
  accept_tool_call limits d s = Ok s' ->
  exists p', sst_tools s' = <[tcd_index d := p']> (sst_tools s)
    /\ sst_order s' = (if is_some (sst_tools s !! tcd_index d) then sst_order s else sst_order s ++ [tcd_index d])
    /\ sst_item_count s' = sst_item_count s /\ sst_text s' = sst_text s
    /\ sst_usage s' = sst_usage s /\ sst_terminal s' = sst_terminal s
    /\ forall ds, joins ds (default PartialToolCall_default (sst_tools s !! tcd_index d)) -> joins (ds ++ [d]) p'.
Proof.
  unfold accept_tool_call. set (p0 := default PartialToolCall_default _). intros HH.
  match type of HH with rbind ?m _ = _ => destruct m as [order|] eqn:Eorder end; cbn [rbind] in HH; [|discriminate HH].
  match type of HH with rbind ?m _ = _ => destruct m as [[s1 name]|] eqn:Ename end; cbn [rbind] in HH; [|discriminate HH].
  match type of HH with rbind ?m _ = _ => destruct m as [s2|] eqn:Ebytes end; cbn [rbind] in HH; [|discriminate HH].
  match type of HH with rbind ?m _ = _ => destruct m as [pid|] eqn:Eid end; cbn [rbind] in HH; [|discriminate HH].
  injection HH as <-.
  apply add_bytes_content in Ebytes as (C1 & C2 & C3 & C4 & C5 & C6).
  assert (same_content s s1 /\ forall given, label_is (ptc_name p0) given ->
            label_is name (given ++ option_list (tcd_name d))) as [(D1 & D2 & D3 & D4 & D5 & D6) Hname].
  { destruct (tcd_name d) as [n|]; simpl in *.
    - step Ename. step Ename. step Ename. injection Ename as <- <-. split; [by eapply add_bytes_content|].
      intros given Hg. by eapply merge_label_is.
    - injection Ename as <- <-. split; [done|]. intros given. by rewrite app_nil_r. }
  eexists. cbn. split_and!; try congruence.
  - rewrite C3, D3. reflexivity.
  - destruct (is_some (sst_tools s !! tcd_index d)); [congruence|].
    destruct (msl_max_tool_calls limits <=? size (sst_tools s))%nat; congruence.
  - intros ds [Jn Ja Ji]. split; cbn.
    + rewrite omap_app. specialize (Hname _ Jn). simpl. destruct (tcd_name d); simpl in *; done.
    + rewrite fmap_app. cbn. rewrite join_snoc, Ja. done.
    + rewrite omap_app. simpl. destruct (tcd_provider_call_id d) as [id|]; simpl in *.
      * step Eid. by eapply merge_label_is.
      * injection Eid as <-. by rewrite app_nil_r.
Qed.

Lemma joins_default : joins [] PartialToolCall_default.
Proof. by split. Qed.

Lemma streamed_tool_call items d s s' :
  streamed items s -> accept_tool_call limits d (set_sst_items (sst_item_count s + 1) s) = Ok s' ->
  sst_item_count s + 1 <= msl_max_items limits ->
  streamed (items ++ [ModelStreamItem_ToolCallDelta d]) s'.
Proof.
  intros [Hf Hc Hw Ht Ho Htl Hu Hm Hop] HH Hmax. apply accept_tool_call_inv in HH as (p' & T1 & T2 & T3 & T4 & T5 & T6 & Tj).
  cbn in *.
  assert (call_indices (items ++ [ModelStreamItem_ToolCallDelta d])
          = if bool_decide (tcd_index d ∈ call_indices items) then call_indices items
            else call_indices items ++ [tcd_index d]) as Hci.
  { unfold call_indices, tool_deltas. rewrite omap_app, fmap_app. cbn. by rewrite first_seen_snoc. }
  assert (is_some (sst_tools s !! tcd_index d) = bool_decide (tcd_index d ∈ call_indices items)) as His.
  { specialize (Htl (tcd_index d)). destruct (sst_tools s !! tcd_index d); simpl.
    - rewrite bool_decide_true; [done|]. by destruct Htl.
    - by rewrite bool_decide_false. }
  assert (joins (fragments (tcd_index d) items) (default PartialToolCall_default (sst_tools s !! tcd_index d))) as Hj.
  { specialize (Htl (tcd_index d)). destruct (sst_tools s !! tcd_index d); simpl; [by destruct Htl|].
    rewrite (proj2 (fragments_nil _ _) Htl). apply joins_default. }
  assert (usages (items ++ [ModelStreamItem_ToolCallDelta d]) = usages items) as Hus.
  { unfold usages. rewrite omap_app. apply app_nil_r. }
  split; try done.
  - apply Forall_app. by split; [|constructor].
  - rewrite T3, Hc, length_app. simpl. lia.
  - intros _. rewrite length_app. simpl. lia.
  - rewrite T4, Ht. unfold streamed_texts. rewrite omap_app. simpl. by rewrite app_nil_r.
  - rewrite T2, Hci, His, Ho. done.
  - intros index. rewrite T1, Hci, fragments_snoc. destruct (decide (tcd_index d = index)) as [<-|Hne].
    + rewrite lookup_insert_eq. split.
      * case_bool_decide; [done|]. apply elem_of_app. right. by apply list_elem_of_singleton.
      * rewrite bool_decide_true by done. by apply Tj.
    + rewrite lookup_insert_ne by done. rewrite (bool_decide_false (tcd_index d = index)) by done. rewrite app_nil_r.
      assert (index ∈ (if bool_decide (tcd_index d ∈ call_indices items) then call_indices items
                       else call_indices items ++ [tcd_index d]) <-> index ∈ call_indices items) as Hix.
      { case_bool_decide; [done|]. rewrite elem_of_app, list_elem_of_singleton. naive_solver. }
      specialize (Htl index). destruct (sst_tools s !! index); [by split; [apply Hix|]; apply Htl|by rewrite Hix].
  - by rewrite T5, Hu, Hus.
  - by rewrite Hus.
  - congruence.
Qed.

(** ** Accepting any fragment *)

Lemma accept_streamed items item s s' progress :
  streamed items s -> accept limits item s = Ok (s', progress) -> is_terminal item = false ->
  streamed (items ++ [item]) s' /\ progress = progress_of item.
Proof.
  intros Hs HH Hni. unfold accept in HH.
  destruct (Z.ltb_spec (msl_max_items limits) (sst_item_count (set_sst_items (sst_item_count s + 1) s))) as [|Hmax];
    [discriminate HH|]. cbn in Hmax.
  assert (Z.of_nat (length (items ++ [item])) <= msl_max_items limits) as Hlen.
  { rewrite length_app. pose proof (sd_count _ _ Hs). simpl. lia. }
  destruct item as [text|text|d|usage|metadata|ns payload|r|r]; try discriminate Hni; clear Hni.
  - destruct (accept_text limits text _) as [s1|] eqn:E; [|discriminate HH]. injection HH as <- <-. split; [|done].
    unfold accept_text in E. step E. step E. apply add_bytes_content in E1 as (C1 & C2 & C3 & C4 & C5 & C6).
    case_match; [done|]. injection E as <-. cbn in *. destruct Hs as [Hf Hc Hw Ht Ho Htl Hu Hm Hop].
    assert (usages (items ++ [ModelStreamItem_TextDelta text]) = usages items) as Hus
      by (unfold usages; rewrite omap_app; apply app_nil_r).
    assert (tool_deltas (items ++ [ModelStreamItem_TextDelta text]) = tool_deltas items) as Htd
      by (unfold tool_deltas; rewrite omap_app; apply app_nil_r).
    split; cbn; rewrite ?C2, ?C3, ?C4, ?C5, ?C6, ?Hus; try done.
    + apply Forall_app. by split; [|constructor].
    + rewrite C1, Hc, length_app. simpl. lia.
    + unfold streamed_texts. rewrite omap_app. cbn. by rewrite join_snoc, Ht.
    + unfold call_indices. by rewrite Htd.
    + unfold call_indices, fragments. rewrite Htd. apply Htl.
  - destruct (accept_reasoning limits text _) as [s1|] eqn:E; [|discriminate HH]. injection HH as <- <-. split; [|done].
    unfold accept_reasoning in E. step E. step E. apply add_bytes_content in E1 as (C1 & C2 & C3 & C4 & C5 & C6).
    case_match; [done|]. injection E as <-. cbn in *.
    eapply streamed_plain; try done; try (unfold streamed_texts, tool_deltas, usages; rewrite omap_app; apply app_nil_r).
  - destruct (accept_tool_call limits d _) as [s1|] eqn:E; [|discriminate HH]. injection HH as <- <-. split; [|done].
    eapply streamed_tool_call; [done|done|lia].
  - destruct (validate_usage usage _) as [u|] eqn:E; [|discriminate HH]. injection HH as <- <-. split; [|done].
    unfold validate_usage in E. step E. step E. apply reject_if_Ok in E. cbn in E.
    destruct Hs as [Hf Hc Hw Ht Ho Htl Hu Hm Hop].
    assert (usages (items ++ [ModelStreamItem_Usage usage]) = usages items ++ [usage]) as Hus
      by (unfold usages; by rewrite omap_app).
    assert (tool_deltas (items ++ [ModelStreamItem_Usage usage]) = tool_deltas items) as Htd
      by (unfold tool_deltas; rewrite omap_app; apply app_nil_r).
    split; cbn; rewrite ?Hus; try done.
    + apply Forall_app. by split; [|constructor].
    + rewrite Hc, length_app. simpl. lia.
    + unfold streamed_texts. rewrite omap_app. cbn. by rewrite app_nil_r.
    + unfold call_indices. by rewrite Htd.
    + unfold call_indices, fragments. rewrite Htd. apply Htl.
    + by rewrite last_snoc.
    + apply usages_monotone_snoc; [done|]. intros u0 Hu0. rewrite Hu, Hu0 in E. done.
  - destruct (add_bytes limits _ _) as [s1|] eqn:E; [|discriminate HH]. injection HH as <- <-. split; [|done].
    apply add_bytes_content in E as (C1 & C2 & C3 & C4 & C5 & C6). cbn in *.
    eapply streamed_plain; try done; try (unfold streamed_texts, tool_deltas, usages; rewrite omap_app; apply app_nil_r).
  - step HH. step HH. step HH. injection HH as <- <-. split; [|done].
    apply add_bytes_content in E0 as (C1 & C2 & C3 & C4 & C5 & C6).
    apply add_bytes_content in E1 as (D1 & D2 & D3 & D4 & D5 & D6). cbn in *.
    eapply streamed_plain; try done; try congruence;
      try (unfold streamed_texts, tool_deltas, usages; rewrite omap_app; apply app_nil_r).
Qed.

Definition terminal_of (item : ModelStreamItem) : option ModelTerminal :=
  match item with
  | ModelStreamItem_Completed response => Some (ModelTerminal_Completed response)
  | ModelStreamItem_Deferred deferral => Some (ModelTerminal_Deferred deferral)
  | _ => None
  end.

(** A terminal item changes only the terminal, and the counters. *)
Lemma accept_terminal item s s' progress :
  accept limits item s = Ok (s', progress) -> is_terminal item = true ->
  sst_item_count s + 1 <= msl_max_items limits /\ sst_text s' = sst_text s /\ sst_tools s' = sst_tools s
  /\ sst_order s' = sst_order s /\ sst_usage s' = sst_usage s /\ sst_terminal s' = terminal_of item /\ progress = None.
Proof.
  intros HH Ht. unfold accept in HH.
  destruct (Z.ltb_spec (msl_max_items limits) (sst_item_count (set_sst_items (sst_item_count s + 1) s))) as [|Hmax];
    [discriminate HH|]. cbn in Hmax. destruct item; try discriminate Ht; step HH; step HH; injection HH as <- <-;
    apply add_bytes_content in E0 as (C1 & C2 & C3 & C4 & C5 & C6); cbn in *; done.
Qed.

(** ** The whole stream *)

Definition collect (p : ModelProgress) (ps : list ModelProgress) : list ModelProgress * dresult unit := (ps ++ [p], Ok tt).

Definition settled (terminal : ModelTerminal) (s : StreamState) : Prop :=
  match terminal with
  | ModelTerminal_Completed response =>
      validate_completed_response response (sst_text s) (sst_tools s) (sst_order s) (sst_usage s) = Ok tt
  | ModelTerminal_Deferred deferral => validate_deferral deferral (sst_tools s) = Ok tt
  end.

Lemma finish_Ok s terminal : finish s = Ok terminal -> sst_terminal s = Some terminal /\ settled terminal s.
Proof.
  unfold finish. intros HH. step HH. apply ok_or_Ok in E. step HH. injection HH as <-. split; [done|].
  destruct a; simpl in *; by destruct a0.
Qed.

Lemma loop_sound stream items s ps ps' terminal :
  streamed items s -> assemble_loop limits collect stream s ps = (ps', Ok terminal) ->
  exists items' final s', stream = (Ok <$> items') ++ [Ok final] /\ terminal_of final = Some terminal
    /\ ps' = ps ++ omap progress_of items' /\ streamed (items ++ items') s' /\ settled terminal s'
    /\ Z.of_nat (length (items ++ items')) + 1 <= msl_max_items limits.
Proof.
  revert items s ps. induction stream as [|item stream IH]; intros items s ps Hs HH; cbn [assemble_loop] in HH.
  { injection HH as <- HH. apply finish_Ok in HH as [HH _]. rewrite (sd_open _ _ Hs) in HH. done. }
  rewrite (sd_open _ _ Hs) in HH. cbn [is_some] in HH. destruct item as [item|]; [|done].
  destruct (accept limits item s) as [[s1 progress]|] eqn:Ea; [|done].
  destruct (is_terminal item) eqn:Et.
  - destruct (accept_terminal _ _ _ _ Ea Et) as (Hc & C2 & C3 & C4 & C5 & C6 & ->). cbn [emit] in HH.
    destruct stream as [|item' stream]; cbn [assemble_loop] in HH.
    + injection HH as <- HH. apply finish_Ok in HH as [HT HF].
      exists [], item, s. rewrite !app_nil_r. cbn. rewrite ?app_nil_r. split_and!; try done.
      * congruence.
      * unfold settled in *. rewrite C2, C3, C4, C5 in HF. done.
      * rewrite <- (sd_count _ _ Hs). done.
    + rewrite C6 in HH. by destruct item.
  - destruct (accept_streamed _ _ _ _ _ Hs Ea Et) as [Hs1 ->].
    assert (emit collect (progress_of item) ps = (ps ++ option_list (progress_of item), Ok tt)) as He.
    { destruct (progress_of item); cbn; [done|]. by rewrite app_nil_r. }
    rewrite He in HH. destruct (IH _ _ _ Hs1 HH) as (items' & final & s' & -> & Hf & -> & Hs' & Hset & Hlen).
    exists (item :: items'), final, s'. rewrite <- (assoc_L (++)) in Hs', Hlen. split_and!; try done.
    cbn. destruct (progress_of item); cbn; rewrite <- (assoc_L (++)); done.
Qed.

Lemma assemble_sound stream progress terminal :
  assemble limits stream = Ok (progress, terminal) ->
  exists items final s, stream = (Ok <$> items) ++ [Ok final] /\ terminal_of final = Some terminal
    /\ progress = omap progress_of items /\ streamed items s /\ settled terminal s
    /\ Z.of_nat (length stream) <= msl_max_items limits.
Proof.
  unfold assemble, assemble_incremental. fold collect. intros HH.
  destruct (assemble_loop limits collect stream StreamState_new []) as [ps [t|]] eqn:E; [|done]. injection HH as <- <-.
  destruct (loop_sound _ _ _ _ _ _ streamed_new E) as (items & final & s & -> & Hf & -> & Hs & Hset & Hlen).
  exists items, final, s. split_and!; try done. rewrite length_app, length_fmap. simpl in *. lia.
Qed.

(** ** The response *)

(** One call of the response, from the fragments of its index. *)
Record call_joins (ds : list ToolCallDelta) (call : ModelToolCall) : Prop := {
  cj_name : label_is (Some (mtc_name call)) (omap tcd_name ds);
  cj_arguments : parse_arguments (join (tcd_arguments_delta <$> ds)) = Some (mtc_arguments call);
  cj_provider_call_id : label_is (mtc_provider_call_id call) (omap tcd_provider_call_id ds)
}.

Lemma assemble_calls_spec tools order done calls :
  rfold (fun calls index => let? call := assemble_call tools index in Ok (calls ++ [call])) done order = Ok calls ->
  exists new, calls = done ++ new /\ Forall2 (fun index call => assemble_call tools index = Ok call) order new.
Proof.
  revert done. induction order as [|i order IH]; intros done HH; cbn [rfold] in HH.
  { injection HH as <-. exists []. by rewrite app_nil_r. }
  destruct (assemble_call tools i) as [call|] eqn:E; [|discriminate HH]. cbn [rbind] in HH.
  destruct (IH _ HH) as (new & -> & Hf). exists (call :: new). rewrite <- (assoc_L (++)). split; [done|by constructor].
Qed.

Lemma completed_calls items s calls :
  streamed items s -> assemble_calls (sst_tools s) (sst_order s) = Ok calls ->
  Forall2 (fun index call => call_joins (fragments index items) call) (call_indices items) calls.
Proof.
  intros Hs (new & -> & Hf)%assemble_calls_spec. rewrite (sd_order _ _ Hs) in Hf. cbn.
  eapply Forall2_impl; [apply Hf|]. intros index call Hc. unfold assemble_call in Hc.
  pose proof (sd_tools _ _ Hs index) as Ht. destruct (sst_tools s !! index) as [p|]; cbn in Hc; [|done].
  destruct Ht as [_ [Jn Ja Ji]]. step Hc. apply ok_or_Ok in E. step Hc. step Hc. apply ok_or_Ok in E1. injection Hc as <-.
  rewrite E in Jn. rewrite Ja in E1. by split.
Qed.
End Sound.
