(* ===== verification/ToolPort.v ===== *)
(** * The tool port: catalog, stream and recovery

    Models [ports/tool] of [finstack-ai-runtime]: [error.rs], [types.rs], the
    catalog and its planning decision ([catalog.rs]), the stream assembler
    ([stream.rs]) and the recovery decisions ([resume.rs]), beside the recovery
    decisions of the model port ([ports/model/context.rs]) and the loop that
    recovers the calls of a batch ([exec/settlement/tool.rs]).

    A toolset is a trait object of which only [descriptor()] and [tools()] are
    read here; the JSON Schema compiler and its validators are the class
    [ToolSchemas], as are the canonical bytes of stream values. *)

From S2P Require Import Prelude Primitives Effects Records State Inputs Digests ToolBatch Dispatch ContextPort ContextCall ModelPort ModelStream.

(** ** Errors ([error.rs]) *)

Definition UNKNOWN_TOOL : string := "unknown_tool".
Definition TOOL_ARGUMENTS_INVALID : string := "tool_arguments_invalid".
Definition TOOL_OUTPUT_INVALID : string := "tool_output_invalid".
Definition TOOL_STREAM_INVALID : string := "tool_stream_invalid".
Definition TOOL_RESULT_LIMIT_EXCEEDED : string := "tool_result_limit_exceeded".
Definition TOOL_STREAM_LIMIT_EXCEEDED : string := "tool_stream_limit_exceeded".
Definition TOOL_APPROVAL_REQUIRED : string := "tool_approval_required".
Definition TOOL_INTERACTION_REQUIRED : string := "tool_interaction_required".
Definition MCP_SAMPLING_REQUIRED : string := "mcp_sampling_required".
Definition MCP_SAMPLING_UNAVAILABLE : string := "mcp_sampling_unavailable".
Definition MCP_SAMPLING_UNSUPPORTED : string := "mcp_sampling_unsupported".
Definition TOOL_POLICY_DENIED : string := "tool_policy_denied".
Definition TOOL_RECONCILIATION_UNSUPPORTED : string := "tool_reconciliation_unsupported".
Definition TOOL_CANCELLED : string := "tool_cancelled".
Definition TOOL_DEADLINE_EXCEEDED : string := "tool_deadline_exceeded".
Definition TOOL_PANICKED : string := "tool_panicked".
Definition TOOL_REGISTRATION_INVALID : string := "tool_registration_invalid".
Definition TOOL_DEFERRAL_NOT_DECLARED : string := "tool_deferral_not_declared".
Definition TOOL_DEFERRAL_INVALID : string := "tool_deferral_invalid".
Definition TOOL_DEFERRAL_EXPIRED : string := "tool_deferral_expired".

Record ToolError : Type := mkToolError {
  tle_code : ErrorCode;
  tle_category : ErrorCategory;
  tle_retryable : bool;
  tle_message : string;
  tle_metadata : Metadata
}.
#[global] Instance ToolError_eq_dec : EqDecision ToolError.
Proof. solve_decision. Defined.

Notation tresult A := (result A ToolError) (only parsing).

Definition one_of (code : string) (codes : list string) : bool := existsb (fun c => code =?? c) codes.

Definition reserved_category (code : string) : option ErrorCategory :=
  if one_of code [TOOL_ARGUMENTS_INVALID; TOOL_OUTPUT_INVALID; TOOL_STREAM_INVALID; TOOL_DEFERRAL_NOT_DECLARED;
                  TOOL_DEFERRAL_INVALID] then Some ErrorCategory_Validation
  else if one_of code [TOOL_RESULT_LIMIT_EXCEEDED; TOOL_STREAM_LIMIT_EXCEEDED] then Some ErrorCategory_Limit
  else if one_of code [TOOL_CANCELLED] then Some ErrorCategory_Cancellation
  else if one_of code [TOOL_DEADLINE_EXCEEDED; TOOL_DEFERRAL_EXPIRED] then Some ErrorCategory_Deadline
  else if one_of code [TOOL_PANICKED] then Some ErrorCategory_Internal
  else if one_of code [TOOL_REGISTRATION_INVALID] then Some ErrorCategory_Registration
  else if one_of code [UNKNOWN_TOOL; TOOL_APPROVAL_REQUIRED; TOOL_INTERACTION_REQUIRED; TOOL_POLICY_DENIED;
                       MCP_SAMPLING_REQUIRED; MCP_SAMPLING_UNAVAILABLE; MCP_SAMPLING_UNSUPPORTED]
       then Some ErrorCategory_Tool
  else None.

Inductive PortErrorInvalid : Type :=
| PortErrorInvalid_InvalidCode
| PortErrorInvalid_InvalidMessage
| PortErrorInvalid_InvalidClassification.

Definition TOOL_TEXT_MAX_BYTES : Z := 1048576.

(** [ToolError::try_new], with [PortErrorData::try_from_parts]. *)
Definition ToolError_try_new (code : string) (category : ErrorCategory) (retryable : bool) (message : string)
    (metadata : Metadata) : result ToolError PortErrorInvalid :=
  do? reject_if (negb (error_code_is_valid code)) PortErrorInvalid_InvalidCode in
  do? reject_if ((message =?? "") || (TOOL_TEXT_MAX_BYTES <? str_len message) || has_nul message)
        PortErrorInvalid_InvalidMessage in
  do? reject_if (is_some_and (reserved_category code) (fun expected => (category <>?? expected) || retryable))
        PortErrorInvalid_InvalidClassification in
  Ok (mkToolError code category retryable message metadata).

(** [ToolError::stable], with [PortErrorData::frozen]. *)
Definition ToolError_stable (code message : string) : ToolError :=
  mkToolError (if error_code_is_valid code then code else "internal")
    (default ErrorCategory_Tool (reserved_category code)) false message METADATA_EMPTY.

Definition ToolError_registration (message : string) : ToolError := ToolError_stable TOOL_REGISTRATION_INVALID message.

(** [to_descriptor]; [ErrorDescriptor::new] checks the code and the text. *)
Definition ToolError_to_descriptor (e : ToolError) : tresult ErrorDescriptor :=
  let descriptor := mkErrorDescriptor (tle_code e) (tle_message e) (tle_category e) (tle_retryable e)
                      ErrorIdentifiers_default METADATA_EMPTY in
  if negb (error_code_is_valid (tle_code e)) || negb (error_descriptor_valid descriptor)
  then Err (ToolError_registration "tool error descriptor is invalid")
  else Ok (mkErrorDescriptor (tle_code e) (tle_message e) (tle_category e) (tle_retryable e)
             ErrorIdentifiers_default (tle_metadata e)).

(** ** The catalog ([catalog.rs]) *)

Inductive ToolPolicyDecision : Type :=
| ToolPolicyDecision_Allow
| ToolPolicyDecision_RequireApproval
| ToolPolicyDecision_Deny.
#[global] Instance ToolPolicyDecision_eq_dec : EqDecision ToolPolicyDecision.
Proof. solve_decision. Defined.

(** The derived [Ord] and its [max]. *)
Definition decision_rank (d : ToolPolicyDecision) : Z :=
  match d with ToolPolicyDecision_Allow => 0 | ToolPolicyDecision_RequireApproval => 1 | ToolPolicyDecision_Deny => 2 end.
Definition decision_max (a b : ToolPolicyDecision) : ToolPolicyDecision :=
  if decision_rank a <=? decision_rank b then b else a.

Inductive ApprovalState : Type :=
| ApprovalState_Unpaid
| ApprovalState_Granted
| ApprovalState_Refused.
#[global] Instance ApprovalState_eq_dec : EqDecision ApprovalState.
Proof. solve_decision. Defined.

Inductive ToolCatalogPlan : Type :=
| ToolCatalogPlan_Ready (plan : ToolCallPlan)
| ToolCatalogPlan_RequireApproval.

Record ToolExecutionPolicy : Type := mkToolExecutionPolicy {
  tep_failure_policy : ToolFailurePolicy;
  tep_approval : ToolPolicyDecision;
  tep_max_concurrency : Z
}.

Record ToolsetDescriptor : Type := mkToolsetDescriptor {
  tsd_name : string;
  tsd_metadata : Metadata
}.

(** Schemas: the compiler with an explicit registry, compiled validators, the
    parse of a canonical schema and the canonical bytes of the output envelope. *)
Class ToolSchemas (Validator : Type) : Type := {
  validate : Validator -> RawJson -> ValidationOutcome;
  compile : RawJson -> gmap string RawJson -> tresult Validator;
  schema_parses : RawJson -> bool;
  jcs_output_envelope : option RawJson -> option string
}.

Section Catalog.
Context {Toolset Validator : Type} `{Hasher, !ToolSchemas Validator}.
Context (toolset_descriptor : Toolset -> ToolsetDescriptor) (toolset_tools : Toolset -> list ToolSpec).

Record ToolsetRegistration : Type := mkToolsetRegistration {
  trg_toolset : Toolset;
  trg_policies : gmap ToolId ToolExecutionPolicy;
  trg_components : gmap ToolId ComponentInvocation
}.

Record ResolvedTool : Type := mkResolvedTool {
  rtl_spec : ToolSpec;
  rtl_toolset : Toolset;
  rtl_component : option ComponentInvocation;
  rtl_input_validator : Validator;
  rtl_output_validator : option Validator;
  rtl_output_contract : EffectOutputContract;
  rtl_policy : ToolExecutionPolicy
}.

Record ResolvedToolCatalog : Type := mkResolvedToolCatalog {
  cat_by_id : gmap ToolId ResolvedTool;
  cat_by_name : gmap string ResolvedTool
}.

Definition CATALOG_MAX_TOOLS : nat := Z.to_nat 1024.
Definition CATALOG_MAX_RESOURCES : nat := 256.

Definition validate_descriptor (d : ToolsetDescriptor) : tresult unit :=
  reject_if (negb (label_is_valid (tsd_name d))) (ToolError_registration "toolset descriptor name is invalid").

Definition tool_output_contract (spec : ToolSpec) : tresult EffectOutputContract :=
  do? reject_if (is_some_and (tsp_output_schema spec) (fun schema => negb (schema_parses schema)))
        (ToolError_registration "canonical tool schema is invalid") in
  let? bytes := ok_or (jcs_output_envelope (tsp_output_schema spec))
                  (ToolError_registration "tool output contract is not serializable") in
  Ok (mkEffectOutputContract EffectOutputKind_ToolResult 1 (digest_raw_json bytes)).

(** The body of the inner loop: one tool of one toolset. *)
Definition register_tool (resources : gmap string RawJson) (registration : ToolsetRegistration)
    (catalog : ResolvedToolCatalog) (spec : ToolSpec) : tresult ResolvedToolCatalog :=
  do? reject_if (CATALOG_MAX_TOOLS <=? size (cat_by_id catalog))%nat (ToolError_registration "resolved tool limit exceeded") in
  do? map_err (fun _ => ToolError_registration "tool specification metadata is invalid") (ToolSpec_validate spec) in
  do? reject_if (is_some (cat_by_id catalog !! tsp_id spec) || is_some (cat_by_name catalog !! tsp_model_name spec))
        (ToolError_registration "duplicate tool id or model-visible name") in
  let? policy := ok_or (trg_policies registration !! tsp_id spec)
                   (ToolError_registration "tool execution policy is missing") in
  do? reject_if (tep_max_concurrency policy =? 0) (ToolError_registration "tool concurrency limit must be positive") in
  let? input_validator := compile (tsp_input_schema spec) resources in
  let? output_validator := match tsp_output_schema spec with
                           | Some schema => let? v := compile schema resources in Ok (Some v)
                           | None => Ok None
                           end in
  let? output_contract := tool_output_contract spec in
  let resolved := mkResolvedTool spec (trg_toolset registration) (trg_components registration !! tsp_id spec)
                    input_validator output_validator output_contract policy in
  Ok (mkResolvedToolCatalog (<[tsp_id spec := resolved]> (cat_by_id catalog))
        (<[tsp_model_name spec := resolved]> (cat_by_name catalog))).

Definition keys_known {A} (m : gmap ToolId A) (specs : list ToolSpec) : bool :=
  forallb (fun '(id, _) => existsb (fun spec => tsp_id spec =?? id) specs) (map_to_list m).

Definition register_toolset (resources : gmap string RawJson) (catalog : ResolvedToolCatalog)
    (registration : ToolsetRegistration) : tresult ResolvedToolCatalog :=
  do? validate_descriptor (toolset_descriptor (trg_toolset registration)) in
  let specs := toolset_tools (trg_toolset registration) in
  do? reject_if (negb (keys_known (trg_policies registration) specs) || negb (keys_known (trg_components registration) specs))
        (ToolError_registration "tool registration contains an unknown policy or component entry") in
  rfold (register_tool resources registration) catalog specs.

Definition ResolvedToolCatalog_try_new (registrations : list ToolsetRegistration) (resources : gmap string RawJson)
    : tresult ResolvedToolCatalog :=
  do? reject_if (CATALOG_MAX_RESOURCES <? size resources)%nat (ToolError_registration "tool schema resource limit exceeded") in
  rfold (register_toolset resources) (mkResolvedToolCatalog ∅ ∅) registrations.

(** ** Planning a call *)

Definition synthetic (call : ToolCallBlock) (execution : ToolExecutionMode) (failure_policy : ToolFailurePolicy)
    (error : ToolError) : ToolCallPlan :=
  let descriptor :=
    match ToolError_to_descriptor error with
    | Ok d => d
    | Err fallback =>
        mkErrorDescriptor (if error_code_is_valid (tle_code fallback) then tle_code fallback else "internal")
          (tle_message fallback) (tle_category fallback) (tle_retryable fallback) ErrorIdentifiers_default
          (tle_metadata fallback)
    end in
  ToolCallPlan_SyntheticClosure (mkSyntheticToolClosure call execution failure_policy descriptor).

Definition declared_floor (tool : ResolvedTool) : ToolPolicyDecision :=
  match apm_requirement (tsp_approval (rtl_spec tool)) with
  | ApprovalRequirement_Required | ApprovalRequirement_Policy => ToolPolicyDecision_RequireApproval
  | ApprovalRequirement_NotRequired => ToolPolicyDecision_Allow
  end.

Definition effective_decision (tool : ResolvedTool) (middleware : option ToolPolicyDecision) : ToolPolicyDecision :=
  decision_max (decision_max (tep_approval (rtl_policy tool)) (declared_floor tool))
    (default ToolPolicyDecision_Allow middleware).

Definition is_invalid (outcome : ValidationOutcome) : bool :=
  match outcome with ValidationOutcome_Invalid _ _ => true | ValidationOutcome_Valid => false end.

Definition execute_plan (tool : ResolvedTool) (call : ToolCallBlock) (deadline : option Timestamp) : ToolCallPlan :=
  ToolCallPlan_Execute
    (mkValidatedToolCall call (tsp_id (rtl_spec tool)) (rtl_component tool) (rtl_output_contract tool)
       (tsp_retry_safety (rtl_spec tool)) deadline (tsp_execution (rtl_spec tool)) (tep_failure_policy (rtl_policy tool))).

Definition decide_plan (catalog : ResolvedToolCatalog) (call : ToolCallBlock) (deadline : option Timestamp)
    (middleware : option ToolPolicyDecision) (approval : ApprovalState) : ToolCatalogPlan :=
  match cat_by_name catalog !! tc_tool_name call with
  | None =>
      ToolCatalogPlan_Ready (synthetic call ToolExecutionMode_Sequential ToolFailurePolicy_ReturnToModel
                               (ToolError_stable UNKNOWN_TOOL "requested tool is not registered"))
  | Some tool =>
      let close error := ToolCatalogPlan_Ready (synthetic call (tsp_execution (rtl_spec tool))
                                                  (tep_failure_policy (rtl_policy tool)) error) in
      if is_invalid (validate (rtl_input_validator tool) (tc_arguments call))
      then close (ToolError_stable TOOL_ARGUMENTS_INVALID "tool arguments do not satisfy the registered schema")
      else
        match effective_decision tool middleware, approval with
        | ToolPolicyDecision_Deny, _ =>
            close (ToolError_stable TOOL_POLICY_DENIED "tool execution was denied by policy")
        | ToolPolicyDecision_RequireApproval, ApprovalState_Refused =>
            close (ToolError_stable TOOL_APPROVAL_REQUIRED
                     "the approver refused this tool call; do not retry it, and continue without it")
        | ToolPolicyDecision_RequireApproval, ApprovalState_Unpaid => ToolCatalogPlan_RequireApproval
        | ToolPolicyDecision_RequireApproval, ApprovalState_Granted | ToolPolicyDecision_Allow, _ =>
            ToolCatalogPlan_Ready (execute_plan tool call deadline)
        end
  end.

Definition plan_call (catalog : ResolvedToolCatalog) (call : ToolCallBlock) (deadline : option Timestamp)
    (middleware : option ToolPolicyDecision) : ToolCallPlan :=
  match decide_plan catalog call deadline middleware ApprovalState_Unpaid with
  | ToolCatalogPlan_Ready plan => plan
  | ToolCatalogPlan_RequireApproval =>
      synthetic call ToolExecutionMode_Sequential ToolFailurePolicy_ReturnToModel
        (ToolError_stable TOOL_APPROVAL_REQUIRED "tool execution requires durable approval evidence")
  end.
End Catalog.

(** ** The stream ([stream.rs]) *)

Record ToolResult : Type := mkToolResult {
  trs_output : RawJson;
  trs_is_error : bool
}.

Record ToolDeferral : Type := mkToolDeferral {
  tdf_handle : ExternalHandleRef;
  tdf_reconciliation : ReconciliationPolicy;
  tdf_next_poll_at : option Timestamp;
  tdf_expires_at : option Timestamp
}.

Record ToolProgress : Type := mkToolProgress {
  tpg_message : string;
  tpg_percent : option Z
}.

Inductive ToolStreamItem : Type :=
| ToolStreamItem_Progress (value : ToolProgress)
| ToolStreamItem_Usage (value : Usage)
| ToolStreamItem_Artifact (value : ArtifactRef)
| ToolStreamItem_Completed (value : ToolResult)
| ToolStreamItem_Deferred (value : ToolDeferral).

Inductive ToolTerminal : Type :=
| ToolTerminal_Completed (value : ToolResult)
| ToolTerminal_Deferred (value : ToolDeferral).

Definition MAX_TOOL_RESULT_ARTIFACTS : nat := 64.

Record ToolStreamLimits : Type := mkToolStreamLimits {
  tsl_max_items : Z;
  tsl_max_stream_bytes : Z
}.

Definition ToolStreamLimits_default : ToolStreamLimits := mkToolStreamLimits 4096 1048576.

Record ToolStreamState : Type := mkToolStreamState {
  tss_count : Z;
  tss_stream_bytes : Z;
  tss_usage : option Usage;
  tss_artifacts : list ArtifactRef;
  tss_terminal : option ToolTerminal
}.

Record AssembledToolTerminal : Type := mkAssembledToolTerminal {
  att_usage : option Usage;
  att_artifacts : list ArtifactRef;
  att_terminal : ToolTerminal
}.

(** Lengths of the canonical bytes of the values a stream counts. *)
Class ToolStreamJson : Type := {
  progress_byte_len : ToolProgress -> option Z;
  usage_byte_len : Usage -> option Z
}.

Definition tool_stream_limit : ToolError :=
  ToolError_stable TOOL_STREAM_LIMIT_EXCEEDED "tool stream exceeds its configured limit".
Definition tool_stream_invalid : ToolError := ToolError_stable TOOL_STREAM_INVALID "tool stream is malformed".

Definition validate_completed {Validator} `{!ToolSchemas Validator} (value : ToolResult) (output_validator : option Validator)
    (max_result_bytes : Z) : tresult ToolTerminal :=
  do? reject_if (max_result_bytes <? str_len (trs_output value))
        (ToolError_stable TOOL_RESULT_LIMIT_EXCEEDED "tool result exceeds the registered byte limit") in
  do? reject_if (negb (trs_is_error value)
                 && is_some_and output_validator (fun v => is_invalid (validate v (trs_output value))))
        (ToolError_stable TOOL_OUTPUT_INVALID "successful tool output does not satisfy the registered schema") in
  Ok (ToolTerminal_Completed value).

Definition validate_tool_deferral (value : ToolDeferral) (support : ToolDeferralSupport) : tresult ToolTerminal :=
  do? reject_if (support =?? ToolDeferralSupport_Never)
        (ToolError_stable TOOL_DEFERRAL_NOT_DECLARED "tool returned an undeclared deferral") in
  do? reject_if ((eh_handle (tdf_handle value) =?? "")
                 || match tdf_next_poll_at value, tdf_expires_at value with
                    | Some next, Some expires => expires <? next
                    | _, _ => false
                    end)
        (ToolError_stable TOOL_DEFERRAL_INVALID "tool returned an invalid deferral") in
  Ok (ToolTerminal_Deferred value).

Definition validate_tool_usage (current : Usage) (previous : option Usage) : tresult unit :=
  do? reject_if (negb (usage_valid current)) tool_stream_invalid in
  reject_if (negb (usage_total_consistent current)
             || is_some_and previous (fun previous => usage_regressed previous current)) tool_stream_invalid.

Section ToolStream.
Context {Validator : Type} `{!ToolSchemas Validator, !ToolStreamJson}.
Context (limits : ToolStreamLimits) (output_validator : option Validator) (max_result_bytes : Z)
        (deferral : ToolDeferralSupport).

Definition add_stream_bytes (total add : Z) : tresult Z :=
  if tsl_max_stream_bytes limits <? total + add then Err tool_stream_limit else Ok (total + add).

(** The [match] on one item, with the progress it emits. *)
Definition tool_stream_accept (item : ToolStreamItem) (s : ToolStreamState)
    : tresult (ToolStreamState * option ToolProgress) :=
  let 'mkToolStreamState count bytes usage artifacts terminal := s in
  match item with
  | ToolStreamItem_Progress value =>
      let? len := ok_or (progress_byte_len value) tool_stream_invalid in
      let? bytes := add_stream_bytes bytes len in
      Ok (mkToolStreamState count bytes usage artifacts terminal, Some value)
  | ToolStreamItem_Usage value =>
      do? validate_tool_usage value usage in
      let? len := ok_or (usage_byte_len value) tool_stream_invalid in
      let? bytes := add_stream_bytes bytes len in
      Ok (mkToolStreamState count bytes (Some value) artifacts terminal, None)
  | ToolStreamItem_Artifact value =>
      if bool_decide (value ∈ artifacts) then Ok (s, None)
      else if (MAX_TOOL_RESULT_ARTIFACTS <=? length artifacts)%nat then Err tool_stream_limit
      else Ok (mkToolStreamState count bytes usage (artifacts ++ [value]) terminal, None)
  | ToolStreamItem_Completed value =>
      let? t := validate_completed value output_validator max_result_bytes in
      Ok (mkToolStreamState count bytes usage artifacts (Some t), None)
  | ToolStreamItem_Deferred value =>
      let? t := validate_tool_deferral value deferral in
      Ok (mkToolStreamState count bytes usage artifacts (Some t), None)
  end.

Context {W : Type} (emit_progress : ToolProgress -> W -> W * tresult unit).

Fixpoint tool_stream_loop (stream : list (tresult ToolStreamItem)) (s : ToolStreamState) (w : W)
    : W * tresult AssembledToolTerminal :=
  match stream with
  | [] =>
      (w, let? terminal := ok_or (tss_terminal s)
                             (ToolError_stable TOOL_STREAM_INVALID "tool stream ended without a terminal item") in
          Ok (mkAssembledToolTerminal (tss_usage s) (tss_artifacts s) terminal))
  | item :: stream =>
      if is_some (tss_terminal s)
      then (w, Err (ToolError_stable TOOL_STREAM_INVALID
                      match item with
                      | Err _ => "tool stream emitted an error after its terminal item"
                      | Ok _ => "tool stream emitted data after its terminal item"
                      end))
      else
        let count := tss_count s + 1 in
        if tsl_max_items limits <? count then (w, Err tool_stream_limit)
        else
          match item with
          | Err e => (w, Err e)
          | Ok item =>
              match tool_stream_accept item (mkToolStreamState count (tss_stream_bytes s) (tss_usage s) (tss_artifacts s)
                                               (tss_terminal s)) with
              | Err e => (w, Err e)
              | Ok (s, None) => tool_stream_loop stream s w
              | Ok (s, Some progress) =>
                  match emit_progress progress w with
                  | (w, Err e) => (w, Err e)
                  | (w, Ok _) => tool_stream_loop stream s w
                  end
              end
          end
  end.

Definition tool_assemble_incremental (stream : list (tresult ToolStreamItem)) (w : W) : W * tresult AssembledToolTerminal :=
  tool_stream_loop stream (mkToolStreamState 0 0 None [] None) w.
End ToolStream.

(** [assemble]: the progress is collected. *)
Definition tool_assemble {Validator} `{!ToolSchemas Validator, !ToolStreamJson} (limits : ToolStreamLimits)
    (output_validator : option Validator) (max_result_bytes : Z) (deferral : ToolDeferralSupport)
    (stream : list (tresult ToolStreamItem)) : tresult (list ToolProgress * AssembledToolTerminal) :=
  match tool_assemble_incremental limits output_validator max_result_bytes deferral (fun p ps => (ps ++ [p], Ok tt)) stream [] with
  | (progress, Ok terminal) => Ok (progress, terminal)
  | (_, Err e) => Err e
  end.

(** [normalize_tool_result]; one JSON block passes the checks of
    [ToolResultBlock::try_new]. *)
Definition normalize_tool_result (tool_call_id : ToolCallId) (r : ToolResult) : tresult ToolResultBlock :=
  Ok (mkToolResultBlock tool_call_id [ContentBlock_Json (mkJsonBlock (trs_output r))] (trs_is_error r)).

(** ** Recovery of a tool effect ([resume.rs]) *)

Inductive ToolReconcileResult : Type :=
| ToolReconcileResult_Completed (value : ToolResult)
| ToolReconcileResult_Deferred (value : ToolDeferral)
| ToolReconcileResult_NotStarted
| ToolReconcileResult_StillRunning (value : ToolDeferral)
| ToolReconcileResult_RetrySafe
| ToolReconcileResult_Unknown
| ToolReconcileResult_NonRepeatable.

(** [ToolResumeAction] and [ModelResumeAction] have the same variants. *)
Inductive ResumeAction : Type :=
| ResumeAction_NoOutstanding
| ResumeAction_UseRecorded
| ResumeAction_Reconcile
| ResumeAction_Retry
| ResumeAction_WaitExternal
| ResumeAction_SuspendUncertain.
#[global] Instance ResumeAction_eq_dec : EqDecision ResumeAction.
Proof. solve_decision. Defined.

Definition reconcile_by_policy (policy : ReconciliationPolicy) : ResumeAction :=
  match policy with
  | ReconciliationPolicy_CallbackOnly | ReconciliationPolicy_ExternalWorkflow => ResumeAction_WaitExternal
  | ReconciliationPolicy_Poll | ReconciliationPolicy_CallbackOrPoll => ResumeAction_Reconcile
  end.

Definition has_outcome (status : ActiveToolCallStatus) : bool :=
  match status with ActiveToolCallStatus_Settled _ _ | ActiveToolCallStatus_Buffered _ _ _ _ => true | _ => false end.

Definition is_synthetic_plan (plan : ToolCallPlan) : bool :=
  match plan with ToolCallPlan_SyntheticClosure _ => true | ToolCallPlan_Execute _ => false end.

Definition tool_resume_action (s : KernelState) (effect_id : EffectId) : ResumeAction :=
  match k_active_tool_batch s with
  | None => ResumeAction_NoOutstanding
  | Some batch =>
      match find (fun c => asg_effect_id (atc_assigned c) =?? effect_id) (atb_calls batch) with
      | None => ResumeAction_NoOutstanding
      | Some c =>
          if is_some (k_tool_settlements s !! effect_id) || has_outcome (atc_status c)
             || is_synthetic_plan (asg_plan (atc_assigned c))
          then ResumeAction_UseRecorded
          else
            match atc_status c with
            | ActiveToolCallStatus_Undispatched => ResumeAction_NoOutstanding
            | ActiveToolCallStatus_Requested _ None => ResumeAction_Reconcile
            | ActiveToolCallStatus_Requested _ (Some deferred) => reconcile_by_policy (def_reconciliation deferred)
            | ActiveToolCallStatus_Buffered _ _ _ _ | ActiveToolCallStatus_Settled _ _ => ResumeAction_UseRecorded
            end
      end
  end.

Definition retry_safety_allows (r : RetrySafety) : bool :=
  match r with RetrySafety_SafeToRetry | RetrySafety_IdempotentWithKey => true | _ => false end.

Definition tool_retry_allowed (requested : EffectRequested) (spec : ToolSpec) : bool :=
  retry_safety_allows (req_retry_safety requested)
  && match tsp_side_effect spec with SideEffectClass_ReadOnly | SideEffectClass_IdempotentWrite => true | _ => false end.

Definition is_deferred_call (effect_id : EffectId) (c : ActiveToolCall) : bool :=
  (asg_effect_id (atc_assigned c) =?? effect_id)
  && match atc_status c with ActiveToolCallStatus_Requested _ (Some _) => true | _ => false end.

Definition map_tool_reconcile_result (s : KernelState) (effect_id : EffectId) (r : ToolReconcileResult)
    (retry_allowed : bool) : ResumeAction :=
  match tool_resume_action s effect_id with
  | (ResumeAction_NoOutstanding | ResumeAction_UseRecorded) as recorded => recorded
  | _ =>
      let awaiting_external := is_some_and (k_active_tool_batch s)
                                 (fun batch => existsb (is_deferred_call effect_id) (atb_calls batch)) in
      match r with
      | ToolReconcileResult_Completed _ => ResumeAction_UseRecorded
      | ToolReconcileResult_Deferred _ | ToolReconcileResult_StillRunning _ => ResumeAction_WaitExternal
      | ToolReconcileResult_NonRepeatable => ResumeAction_SuspendUncertain
      | ToolReconcileResult_NotStarted | ToolReconcileResult_RetrySafe =>
          if awaiting_external then ResumeAction_SuspendUncertain else ResumeAction_Retry
      | ToolReconcileResult_Unknown =>
          if awaiting_external || negb retry_allowed then ResumeAction_SuspendUncertain else ResumeAction_Retry
      end
  end.

(** ** Recovery of a model effect ([ports/model/context.rs]) *)

Inductive ModelReconcileResult : Type :=
| ModelReconcileResult_Completed (response : ModelResponse)
| ModelReconcileResult_Deferred (deferral : ModelDeferral)
| ModelReconcileResult_NotStarted
| ModelReconcileResult_StillRunning (deferral : ModelDeferral)
| ModelReconcileResult_RetrySafe
| ModelReconcileResult_Unknown
| ModelReconcileResult_NonRepeatable.

Definition model_resume_action (s : KernelState) : ResumeAction :=
  match k_pending_model_effect s with
  | None => ResumeAction_NoOutstanding
  | Some pending =>
      if is_some (k_model_settlements s !! req_effect_id (pme_requested pending)) then ResumeAction_UseRecorded
      else if k_phase s =?? Some RunPhase_AwaitingExternal
           then match pme_deferred pending with
                | Some deferred => reconcile_by_policy (def_reconciliation deferred)
                | None => ResumeAction_Reconcile
                end
           else ResumeAction_Reconcile
  end.

(** [model_retry_allowed]; of the capabilities only [idempotent_requests] is read. *)
Definition model_retry_allowed (requested : EffectRequested) (idempotent_requests : bool) : bool :=
  retry_safety_allows (req_retry_safety requested) && idempotent_requests.

Definition map_model_reconcile_result (s : KernelState) (r : ModelReconcileResult) (retry_allowed : bool) : ResumeAction :=
  match k_pending_model_effect s with
  | None => ResumeAction_NoOutstanding
  | Some pending =>
      if is_some (k_model_settlements s !! req_effect_id (pme_requested pending)) then ResumeAction_UseRecorded
      else
        let awaiting_external := (k_phase s =?? Some RunPhase_AwaitingExternal) || is_some (pme_deferred pending) in
        match r with
        | ModelReconcileResult_Completed _ => ResumeAction_UseRecorded
        | ModelReconcileResult_Deferred _ | ModelReconcileResult_StillRunning _ => ResumeAction_WaitExternal
        | ModelReconcileResult_NonRepeatable => ResumeAction_SuspendUncertain
        | ModelReconcileResult_NotStarted | ModelReconcileResult_RetrySafe =>
            if awaiting_external then ResumeAction_SuspendUncertain else ResumeAction_Retry
        | ModelReconcileResult_Unknown =>
            if awaiting_external || negb retry_allowed then ResumeAction_SuspendUncertain else ResumeAction_Retry
        end
  end.

(** ** The recovery loop ([exec/settlement/tool.rs], [exec/task/owner.rs]) *)

(** The call waits for its next poll or its expiry. *)
Definition poll_scheduled (c : ActiveToolCall) : bool :=
  match atc_status c with
  | ActiveToolCallStatus_Requested _ (Some deferred) =>
      match def_reconciliation deferred with
      | ReconciliationPolicy_Poll | ReconciliationPolicy_CallbackOrPoll =>
          is_some (def_next_poll_at deferred) || is_some (def_expires_at deferred)
      | _ => false
      end
  | _ => false
  end.

(** One turn of the first pass: the actions so far and the effects to ask about. *)
Definition first_pass_step (s : KernelState) (acc : list ResumeAction * list EffectId) (c : ActiveToolCall)
    : list ResumeAction * list EffectId :=
  let effect_id := asg_effect_id (atc_assigned c) in
  let action := tool_resume_action s effect_id in
  if (action =?? ResumeAction_Reconcile) && poll_scheduled c then (acc.1 ++ [ResumeAction_WaitExternal], acc.2)
  else (acc.1 ++ [action], if action =?? ResumeAction_Reconcile then acc.2 ++ [effect_id] else acc.2).

Definition aggregate_tool_resume_actions (actions : list ResumeAction) : ResumeAction :=
  let contains action := existsb (fun a => a =?? action) actions in
  if contains ResumeAction_SuspendUncertain then ResumeAction_SuspendUncertain
  else if contains ResumeAction_Retry then ResumeAction_Retry
  else if contains ResumeAction_WaitExternal then ResumeAction_WaitExternal
  else if contains ResumeAction_UseRecorded then ResumeAction_UseRecorded
  else if contains ResumeAction_Reconcile then ResumeAction_Reconcile
  else ResumeAction_NoOutstanding.

(** What the loop calls: the state of the coordinator [C], the toolsets, which
    answer from a world [W] of their own, and the submissions that record an
    answer, each of which may change the coordinator and the world. *)
Class ToolRecovery (C W Toolset : Type) : Type := {
  recovery_state : C -> KernelState;
  toolset_reconcile : Toolset -> ReconcileContext -> ValidatedToolCall -> W -> W * tresult ToolReconcileResult;
  process_tool_result : ToolDispatchSeed -> ToolResult -> C * W -> (C * W) * result unit RunHandleError;
  settle_external_tool : ToolDispatchSeed -> ToolResult -> C * W -> (C * W) * result ResumeAction RunHandleError;
  submit_tool_deferral : ToolDispatchSeed -> ToolDeferral -> C * W -> (C * W) * result unit RunHandleError;
  submit_tool_fail_closed : EffectId -> string -> C * W -> (C * W) * result unit RunHandleError;
  resume_call : ToolDispatchSeed -> C * W -> (C * W) * result unit string
}.

Section Recovery.
Context {C W Toolset Validator : Type} `{!ToolRecovery C W Toolset}.
Variable catalog : ResolvedToolCatalog (Toolset := Toolset) (Validator := Validator).

Notation Mapped := (ToolDispatchSeed * ToolReconcileResult * ResumeAction)%type.

Definition reconcile_context (s : KernelState) (effect_id : EffectId) (seed : ToolDispatchSeed) : ReconcileContext :=
  mkReconcileContext
    (mkRunCallContext (tds_locator seed) (tds_authorization seed) effect_id (tds_attempt seed) (req_deadline (tds_requested seed))
       (tds_budget_scope_id seed) (relation_depth_from_state s))
    (req_input_digest (tds_requested seed)).

(** The questions, in order; [None] when one has no seed, no tool or no answer. *)
Fixpoint reconcile_loop (s : KernelState) (ids : list EffectId) (mapped : list Mapped) (w : W) : W * option (list Mapped) :=
  match ids with
  | [] => (w, Some mapped)
  | effect_id :: ids =>
      match tool_seed s effect_id with
      | None => (w, None)
      | Some seed =>
          match cat_by_id catalog !! vt_tool_id (tds_call seed) with
          | None => (w, None)
          | Some resolved =>
              let retry_allowed := tool_retry_allowed (tds_requested seed) (rtl_spec resolved) in
              match toolset_reconcile (rtl_toolset resolved) (reconcile_context s effect_id seed) (tds_call seed) w with
              | (w, Err _) => (w, None)
              | (w, Ok r) =>
                  reconcile_loop s ids (mapped ++ [(seed, r, map_tool_reconcile_result s effect_id r retry_allowed)]) w
              end
          end
      end
  end.

Definition settle_reconciled_tool (seed : ToolDispatchSeed) (r : ToolResult) (st : C * W) : (C * W) * result ResumeAction RunHandleError :=
  let s := recovery_state st.1 in
  let effect_id := req_effect_id (tds_requested seed) in
  if is_some (k_tool_settlements s !! effect_id) then (st, Ok ResumeAction_UseRecorded)
  else
    let deferred := is_some_and (k_active_tool_batch s) (fun batch => is_some_and (call batch effect_id) (fun c =>
                      match atc_status c with ActiveToolCallStatus_Requested _ (Some _) => true | _ => false end)) in
    if deferred then settle_external_tool seed r st
    else match process_tool_result seed r st with
         | (st, Err e) => (st, Err e)
         | (st, Ok _) => (st, Ok ResumeAction_UseRecorded)
         end.

Definition ensure_or_wait_tool_deferred (seed : ToolDispatchSeed) (deferral : ToolDeferral) (st : C * W)
    : (C * W) * result ResumeAction RunHandleError :=
  let effect_id := req_effect_id (tds_requested seed) in
  let existing := batch ← k_active_tool_batch (recovery_state st.1); c ← call batch effect_id;
                  match atc_status c with ActiveToolCallStatus_Requested _ (Some deferred) => Some deferred | _ => None end in
  match existing with
  | Some existing =>
      if def_handle existing =?? tdf_handle deferral then (st, Ok ResumeAction_WaitExternal)
      else match submit_tool_fail_closed effect_id (eh_handle (tdf_handle deferral)) st with
           | (st, Err e) => (st, Err e)
           | (st, Ok _) => (st, Ok ResumeAction_SuspendUncertain)
           end
  | None =>
      match submit_tool_deferral seed deferral st with
      | (st, Err e) => (st, Err e)
      | (st, Ok _) => (st, Ok ResumeAction_WaitExternal)
      end
  end.

Definition apply_tool_reconcile_result (seed : ToolDispatchSeed) (r : ToolReconcileResult) (st : C * W)
    : (C * W) * result ResumeAction RunHandleError :=
  match r with
  | ToolReconcileResult_Completed tool_result => settle_reconciled_tool seed tool_result st
  | ToolReconcileResult_Deferred deferral | ToolReconcileResult_StillRunning deferral => ensure_or_wait_tool_deferred seed deferral st
  | ToolReconcileResult_NotStarted | ToolReconcileResult_RetrySafe | ToolReconcileResult_Unknown | ToolReconcileResult_NonRepeatable =>
      (st, Ok ResumeAction_NoOutstanding)
  end.

(** The answers recorded, in order; [None] when one of them turns out uncertain. *)
Fixpoint settle_loop (mapped : list Mapped) (applied : list ResumeAction) (st : C * W)
    : (C * W) * result (option (list ResumeAction)) RunHandleError :=
  match mapped with
  | [] => (st, Ok (Some applied))
  | (seed, r, mapped_action) :: mapped =>
      match apply_tool_reconcile_result seed r st with
      | (st, Err e) => (st, Err e)
      | (st, Ok action) =>
          if action =?? ResumeAction_SuspendUncertain then (st, Ok None)
          else settle_loop mapped (applied ++ [mapped_action]) st
      end
  end.

Definition resume_pending_tool_effects (st : C * W) : (C * W) * result ResumeAction RunHandleError :=
  let s := recovery_state st.1 in
  match k_active_tool_batch s with
  | None => (st, Ok ResumeAction_NoOutstanding)
  | Some batch =>
      let '(first_pass, to_reconcile) := foldl (first_pass_step s) ([], []) (atb_calls batch) in
      match to_reconcile with
      | [] => (st, Ok (aggregate_tool_resume_actions first_pass))
      | _ =>
          match reconcile_loop s to_reconcile [] st.2 with
          | (w, None) => ((st.1, w), Ok ResumeAction_SuspendUncertain)
          | (w, Some mapped) =>
              if existsb (fun m : Mapped => m.2 =?? ResumeAction_SuspendUncertain) mapped
              then ((st.1, w), Ok ResumeAction_SuspendUncertain)
              else
                match settle_loop mapped [] (st.1, w) with
                | (st, Err e) => (st, Err e)
                | (st, Ok None) => (st, Ok ResumeAction_SuspendUncertain)
                | (st, Ok (Some applied)) =>
                    (st, Ok (aggregate_tool_resume_actions
                               (List.filter (fun a => negb (a =?? ResumeAction_Reconcile)) first_pass ++ applied)))
                end
          end
      end
  end.

Definition tool_resume_retry_seeds (action : ResumeAction) (pending_seeds : list ToolDispatchSeed)
    : result (option (list ToolDispatchSeed)) RunHandleError :=
  match action with
  | ResumeAction_Retry => Ok (Some pending_seeds)
  | ResumeAction_SuspendUncertain => Err (RunHandleError_Tool TOOL_RECONCILIATION_UNSUPPORTED)
  | ResumeAction_NoOutstanding | ResumeAction_UseRecorded | ResumeAction_Reconcile | ResumeAction_WaitExternal => Ok None
  end.

Fixpoint resume_calls (seeds : list ToolDispatchSeed) (st : C * W) : (C * W) * result unit RunHandleError :=
  match seeds with
  | [] => (st, Ok tt)
  | seed :: seeds =>
      match resume_call seed st with
      | (st, Err code) => (st, Err (RunHandleError_Tool code))
      | (st, Ok _) => resume_calls seeds st
      end
  end.

Definition resume_tool_effects (st : C * W) : (C * W) * result unit RunHandleError :=
  match resume_pending_tool_effects st with
  | (st, Err e) => (st, Err e)
  | (st, Ok action) =>
      match tool_resume_retry_seeds action (pending_tool_seeds (recovery_state st.1)) with
      | Err e => (st, Err e)
      | Ok None => (st, Ok tt)
      | Ok (Some seeds) => resume_calls seeds st
      end
  end.
End Recovery.
