(* ===== verification/ToolPortSound.v ===== *)
(** * What the tool port guarantees

    Proofs about [ToolPort]: a resolved catalog holds every registered tool once,
    under one identity and one name, with the policy its host gave it; a call is
    planned for execution only when every party that may ask for approval is
    satisfied; an accepted stream is its own items closed by one valid terminal;
    recovery repeats only an effect that nothing is known of, and the calls of a
    batch only when every one of them is accounted for. *)

From S2P Require Import Prelude Primitives Effects Records State Inputs Digests ToolBatch Dispatch ContextPort ContextCall ModelPort ModelStream ModelStreamSound ToolPort.

(** ** The catalog *)

Section Catalog.
Context {Toolset Validator : Type} `{Hasher, !ToolSchemas Validator}.
Context (toolset_descriptor : Toolset -> ToolsetDescriptor) (toolset_tools : Toolset -> list ToolSpec).
Context (resources : gmap string RawJson).

Notation registration := (@ToolsetRegistration Toolset).
Notation tool := (@ResolvedTool Toolset Validator).
Notation catalog := (@ResolvedToolCatalog Toolset Validator).

(** [t] is what registration [r] resolves its tool [spec] to. *)
Record resolved_from (r : registration) (spec : ToolSpec) (t : tool) : Prop := {
  rf_spec : rtl_spec t = spec;
  rf_valid : ToolSpec_validate spec = Ok tt;
  rf_toolset : rtl_toolset t = trg_toolset r;
  rf_policy : trg_policies r !! tsp_id spec = Some (rtl_policy t);
  rf_concurrency : tep_max_concurrency (rtl_policy t) <> 0;
  rf_component : rtl_component t = trg_components r !! tsp_id spec;
  rf_input : compile (tsp_input_schema spec) resources = Ok (rtl_input_validator t);
  rf_output : match tsp_output_schema spec with
              | Some schema => exists v, compile schema resources = Ok v /\ rtl_output_validator t = Some v
              | None => rtl_output_validator t = None
              end;
  rf_contract : tool_output_contract spec = Ok (rtl_output_contract t)
}.

(** The catalog after the tools [entries] were resolved. *)
Record catalog_of (entries : list (registration * ToolSpec)) (c : catalog) : Prop := {
  co_ids : forall id t, cat_by_id c !! id = Some t <->
    tsp_id (rtl_spec t) = id /\ cat_by_name c !! tsp_model_name (rtl_spec t) = Some t;
  co_names : forall name t, cat_by_name c !! name = Some t ->
    tsp_model_name (rtl_spec t) = name /\ cat_by_id c !! tsp_id (rtl_spec t) = Some t;
  co_from : forall id t, cat_by_id c !! id = Some t -> exists r spec, (r, spec) ∈ entries /\ resolved_from r spec t;
  co_all : forall r spec, (r, spec) ∈ entries -> exists t, cat_by_id c !! tsp_id spec = Some t /\ resolved_from r spec t;
  co_unique : NoDup (tsp_id <$> entries.*2) /\ NoDup (tsp_model_name <$> entries.*2);
  co_size : (size (cat_by_id c) <= CATALOG_MAX_TOOLS)%nat
}.

Lemma catalog_of_empty : catalog_of [] (mkResolvedToolCatalog ∅ ∅).
Proof.
  split; simpl; try (split; constructor).
  - intros id t. rewrite !lookup_empty. naive_solver.
  - intros name t. by rewrite lookup_empty.
  - intros id t. by rewrite lookup_empty.
  - intros r spec []%not_elem_of_nil.
  - rewrite map_size_empty. unfold CATALOG_MAX_TOOLS. lia.
Qed.

Lemma register_tool_inv r c spec c' :
  register_tool resources r c spec = Ok c' ->
  exists t, resolved_from r spec t /\ cat_by_id c !! tsp_id spec = None /\ cat_by_name c !! tsp_model_name spec = None
    /\ (size (cat_by_id c) < CATALOG_MAX_TOOLS)%nat
    /\ c' = mkResolvedToolCatalog (<[tsp_id spec := t]> (cat_by_id c)) (<[tsp_model_name spec := t]> (cat_by_name c)).
Proof.
  unfold register_tool. intros HH.
  destruct (reject_if (CATALOG_MAX_TOOLS <=? _)%nat _) as [[]|] eqn:E1; [|discriminate HH]. cbn [rbind] in HH.
  destruct (ToolSpec_validate spec) as [[]|] eqn:E2; [|discriminate HH]. cbn [map_err rbind] in HH.
  destruct (reject_if (is_some _ || is_some _) _) as [[]|] eqn:E3; [|discriminate HH]. cbn [rbind] in HH.
  destruct (trg_policies r !! tsp_id spec) as [policy|] eqn:E4; [|discriminate HH]. cbn [ok_or rbind] in HH.
  destruct (reject_if (_ =? 0) _) as [[]|] eqn:E5; [|discriminate HH]. cbn [rbind] in HH.
  destruct (compile (tsp_input_schema spec) resources) as [iv|] eqn:E6; [|discriminate HH]. cbn [rbind] in HH.
  destruct (match tsp_output_schema spec with Some _ => _ | None => _ end) as [ov|] eqn:E7; [|discriminate HH]. cbn [rbind] in HH.
  destruct (tool_output_contract spec) as [oc|] eqn:E8; [|discriminate HH]. cbn [rbind] in HH. injection HH as <-.
  apply reject_if_Ok in E1, E3, E5. apply Nat.leb_gt in E1. apply orb_false_iff in E3 as [E3%is_some_false E3'%is_some_false].
  eexists. split_and!; [|done|done|done|reflexivity]. split; cbn; try done.
  - by apply Z.eqb_neq.
  - destruct (tsp_output_schema spec) as [schema|]; [|by injection E7 as <-].
    destruct (compile schema resources) as [v|]; [|discriminate E7]. injection E7 as <-. eauto.
Qed.

Lemma register_tool_catalog entries r c spec c' :
  catalog_of entries c -> register_tool resources r c spec = Ok c' -> catalog_of (entries ++ [(r, spec)]) c'.
Proof.
  intros [Hi Hn Hf Ha [Hui Hun] Hs] (t & Ht & Eid & Enm & Esz & ->)%register_tool_inv.
  pose proof (rf_spec _ _ _ Ht) as Hspec.
  assert (forall id t', cat_by_id c !! id = Some t' -> tsp_id (rtl_spec t') <> tsp_id spec /\ tsp_model_name (rtl_spec t') <> tsp_model_name spec) as Hfresh.
  { intros id t' Hl. pose proof (proj1 (Hi id t') Hl) as [Hid Hnm]. subst id.
    split; intros Heq.
    - rewrite Heq, Eid in Hl. done.
    - rewrite Heq, Enm in Hnm. done. }
  split; cbn.
  - intros id t'. rewrite !lookup_insert_Some. split.
    + intros [[<- <-]|[Hne Hl]]; [rewrite Hspec; naive_solver|].
      destruct (Hfresh _ _ Hl). apply Hi in Hl as [? ?]. naive_solver.
    + intros [Hid [[Hnm <-]|[Hne Hl]]]; [left; split; congruence|]. right. apply Hn in Hl as [_ Hl]. rewrite Hid in Hl.
      destruct (Hfresh _ _ Hl). split; [congruence|done].
  - intros name t'. rewrite !lookup_insert_Some. intros [[<- <-]|[Hne Hl]]; [rewrite Hspec; naive_solver|].
    apply Hn in Hl as [? Hl]. destruct (Hfresh _ _ Hl). naive_solver.
  - intros id t'. rewrite lookup_insert_Some. intros [[<- <-]|[Hne Hl]]; [exists r, spec; set_solver|].
    destruct (Hf _ _ Hl) as (r' & spec' & Hin & ?). exists r', spec'. set_solver.
  - intros r' spec' [Hin|[= -> ->]%list_elem_of_singleton]%elem_of_app; [|exists t; by rewrite lookup_insert_eq].
    destruct (Ha _ _ Hin) as (t' & Hl & Ht'). exists t'. split; [|done]. rewrite lookup_insert_ne; [done|]. congruence.
  - rewrite !fmap_app. cbn. split; apply NoDup_app; split_and!; try done; try apply NoDup_singleton.
    + intros id (spec' & -> & ([r' ?] & -> & Hin)%list_elem_of_fmap)%list_elem_of_fmap Hx%list_elem_of_singleton.
      destruct (Ha _ _ Hin) as (t' & Hl & _). cbn in Hx. congruence.
    + intros name (spec' & -> & ([r' ?] & -> & Hin)%list_elem_of_fmap)%list_elem_of_fmap Hx%list_elem_of_singleton.
      destruct (Ha _ _ Hin) as (t' & Hl & Ht'). destruct (Hfresh _ _ Hl) as [_ Hne]. apply Hne.
      by rewrite (rf_spec _ _ _ Ht').
  - rewrite map_size_insert_None by done. lia.
Qed.

(** Every tool of every toolset, in order. *)
Definition offered (registrations : list registration) : list (registration * ToolSpec) :=
  registrations ≫= fun r => (fun spec => (r, spec)) <$> toolset_tools (trg_toolset r).

Lemma register_tools_catalog entries r c specs c' :
  catalog_of entries c -> rfold (register_tool resources r) c specs = Ok c' ->
  catalog_of (entries ++ ((fun spec => (r, spec)) <$> specs)) c'.
Proof.
  revert entries c. induction specs as [|spec specs IH]; intros entries c Hc HH; cbn [rfold] in HH.
  { injection HH as <-. cbn. by rewrite app_nil_r. }
  destruct (register_tool resources r c spec) as [c1|] eqn:E; [|discriminate HH]. cbn [rbind] in HH.
  pose proof (IH _ _ (register_tool_catalog _ _ _ _ _ Hc E) HH) as HH'. by rewrite <- (assoc_L (++)) in HH'.
Qed.

Lemma try_new_catalog registrations c :
  ResolvedToolCatalog_try_new toolset_descriptor toolset_tools registrations resources = Ok c ->
  catalog_of (offered registrations) c.
Proof.
  unfold ResolvedToolCatalog_try_new. intros HH.
  destruct (reject_if _ _) as [[]|]; [|discriminate HH]. cbn [rbind] in HH.
  assert (forall rs entries c0, catalog_of entries c0 ->
    rfold (register_toolset toolset_descriptor toolset_tools resources) c0 rs = Ok c ->
    catalog_of (entries ++ offered rs) c) as Hl.
  { induction rs as [|r rs IH]; intros entries c0 Hc H0; cbn [rfold] in H0.
    { injection H0 as <-. cbn. by rewrite app_nil_r. }
    destruct (register_toolset _ _ resources c0 r) as [c1|] eqn:E; [|discriminate H0]. cbn [rbind] in H0.
    unfold register_toolset in E. steps E.
    pose proof (IH _ _ (register_tools_catalog _ _ _ _ _ Hc E) H0) as HH'.
    unfold offered in *. rewrite bind_cons, (assoc_L (++)). done. }
  eapply (Hl registrations []); [apply catalog_of_empty|done].
Qed.

(** ** Planning *)

(** Who asks for approval, and who denies. *)
Definition asks_approval (t : tool) (middleware : option ToolPolicyDecision) : Prop :=
  tep_approval (rtl_policy t) = ToolPolicyDecision_RequireApproval
  \/ apm_requirement (tsp_approval (rtl_spec t)) <> ApprovalRequirement_NotRequired
  \/ middleware = Some ToolPolicyDecision_RequireApproval.

Definition denies (t : tool) (middleware : option ToolPolicyDecision) : Prop :=
  tep_approval (rtl_policy t) = ToolPolicyDecision_Deny \/ middleware = Some ToolPolicyDecision_Deny.

Lemma effective_decision_spec (t : tool) middleware :
  match effective_decision t middleware with
  | ToolPolicyDecision_Deny => denies t middleware
  | ToolPolicyDecision_RequireApproval => ~ denies t middleware /\ asks_approval t middleware
  | ToolPolicyDecision_Allow => ~ denies t middleware /\ ~ asks_approval t middleware
  end.
Proof.
  unfold effective_decision, declared_floor, denies, asks_approval.
  destruct (tep_approval (rtl_policy t)), (apm_requirement (tsp_approval (rtl_spec t))), middleware as [[]|];
    cbn; naive_solver.
Qed.

Lemma decide_plan_execute (c : catalog) call deadline middleware approval v :
  decide_plan c call deadline middleware approval = ToolCatalogPlan_Ready (ToolCallPlan_Execute v) <->
  exists t, cat_by_name c !! tc_tool_name call = Some t
    /\ validate (rtl_input_validator t) (tc_arguments call) = ValidationOutcome_Valid
    /\ ~ denies t middleware /\ (asks_approval t middleware -> approval = ApprovalState_Granted)
    /\ ToolCallPlan_Execute v = execute_plan t call deadline.
Proof.
  unfold decide_plan. destruct (cat_by_name c !! tc_tool_name call) as [t|] eqn:Et; [|by split; [done|intros (? & ? & _)]].
  pose proof (effective_decision_spec t middleware) as He.
  destruct (validate (rtl_input_validator t) (tc_arguments call)) eqn:Ev; cbn [is_invalid]; last first.
  { split; [done|]. intros (t' & [= <-] & HH & _). congruence. }
  destruct (effective_decision t middleware), approval; (split; [intros HH; try discriminate HH|]);
    try (intros (t' & [= <-] & _ & Hd & Ha & Hx); try (exfalso; naive_solver); by rewrite Hx);
    try (exists t; injection HH as <-; naive_solver).
Qed.
End Catalog.

(** ** The stream *)

Definition tool_progress (items : list ToolStreamItem) : list ToolProgress :=
  omap (fun item => match item with ToolStreamItem_Progress value => Some value | _ => None end) items.
Definition tool_usages (items : list ToolStreamItem) : list Usage :=
  omap (fun item => match item with ToolStreamItem_Usage value => Some value | _ => None end) items.
Definition tool_artifacts (items : list ToolStreamItem) : list ArtifactRef :=
  omap (fun item => match item with ToolStreamItem_Artifact value => Some value | _ => None end) items.

Definition is_tool_terminal (item : ToolStreamItem) : bool :=
  match item with ToolStreamItem_Completed _ | ToolStreamItem_Deferred _ => true | _ => false end.

(** The artifacts without repetitions, in the order they first appear. *)
Definition distinct (l : list ArtifactRef) : list ArtifactRef :=
  foldl (fun seen a => if bool_decide (a ∈ seen) then seen else seen ++ [a]) [] l.

Section ToolStream.
Context {Validator : Type} `{!ToolSchemas Validator, !ToolStreamJson}.
Context (limits : ToolStreamLimits) (output_validator : option Validator) (max_result_bytes : Z)
        (deferral : ToolDeferralSupport).

Record tool_streamed (items : list ToolStreamItem) (s : ToolStreamState) : Prop := {
  ts_fragments : Forall (fun item => is_tool_terminal item = false) items;
  ts_count : tss_count s = Z.of_nat (length items);
  ts_usage : tss_usage s = last (tool_usages items);
  ts_monotone : forall i u v, tool_usages items !! i = Some u -> tool_usages items !! S i = Some v -> usage_regressed u v = false;
  ts_artifacts : tss_artifacts s = distinct (tool_artifacts items);
  ts_few : (length (tss_artifacts s) <= MAX_TOOL_RESULT_ARTIFACTS)%nat;
  ts_open : tss_terminal s = None
}.

(** What a terminal item must be for the stream to be accepted. *)
Definition terminal_accepted (item : ToolStreamItem) (terminal : ToolTerminal) : Prop :=
  match item with
  | ToolStreamItem_Completed value => validate_completed value output_validator max_result_bytes = Ok terminal
  | ToolStreamItem_Deferred value => validate_tool_deferral value deferral = Ok terminal
  | _ => False
  end.

Notation accept := (tool_stream_accept limits output_validator max_result_bytes deferral).

Definition counted (s : ToolStreamState) : ToolStreamState :=
  mkToolStreamState (tss_count s + 1) (tss_stream_bytes s) (tss_usage s) (tss_artifacts s) (tss_terminal s).

Lemma tool_accept_streamed items item s s' progress :
  tool_streamed items s -> accept item (counted s) = Ok (s', progress) -> is_tool_terminal item = false ->
  tool_streamed (items ++ [item]) s' /\ option_list progress = tool_progress [item].
Proof.
  destruct s as [count bytes usage artifacts terminal]. intros [Hf Hc Hu Hm Ha Hw Ho] HH Ht. cbn [tss_count tss_usage tss_artifacts tss_terminal] in *.
  assert (Forall (fun item => is_tool_terminal item = false) (items ++ [item])) as Hf'
    by (apply Forall_app; split; [done|by constructor]).
  assert (count + 1 = Z.of_nat (length (items ++ [item]))) as Hc' by (rewrite length_app; cbn; lia).
  destruct item as [value|value|value|value|value]; try discriminate Ht; cbn [tool_stream_accept counted tss_count
    tss_stream_bytes tss_usage tss_artifacts tss_terminal] in HH.
  - step HH. step HH. injection HH as <- <-. split; [|done].
    split; cbn; unfold tool_usages, tool_artifacts in *; rewrite ?omap_app; cbn; rewrite ?app_nil_r; done.
  - destruct (validate_tool_usage value usage) as [[]|] eqn:Ev; [|discriminate HH]. cbn [rbind] in HH.
    step HH. step HH. injection HH as <- <-. split; [|done].
    unfold validate_tool_usage in Ev. step Ev. apply reject_if_Ok, orb_false_iff in Ev as [_ Ev].
    split; cbn; try done; unfold tool_usages, tool_artifacts in *; rewrite ?omap_app; cbn; rewrite ?app_nil_r, ?last_snoc; try done.
    intros i u v Hi Hv. eapply (usages_monotone_snoc _ value); [exact Hm| |exact Hi|exact Hv].
    rewrite <- Hu. intros w Hw'. rewrite Hw' in Ev. done.
  - case_bool_decide as Hin.
    + injection HH as <- <-. split; [|done].
      split; cbn; try done; unfold tool_usages, tool_artifacts in *; rewrite ?omap_app; cbn; rewrite ?app_nil_r; try done.
      unfold distinct in *. rewrite foldl_app. cbn. rewrite <- Ha, bool_decide_true by done. done.
    + destruct (Nat.leb_spec MAX_TOOL_RESULT_ARTIFACTS (length artifacts)); [discriminate HH|]. injection HH as <- <-.
      split; [|done].
      split; cbn; try done; unfold tool_usages, tool_artifacts in *; rewrite ?omap_app; cbn; rewrite ?app_nil_r; try done.
      * unfold distinct in *. rewrite foldl_app. cbn. rewrite <- Ha, bool_decide_false by done. done.
      * rewrite length_app. cbn. lia.
Qed.

Lemma tool_accept_terminal item s s' progress :
  accept item (counted s) = Ok (s', progress) -> is_tool_terminal item = true ->
  progress = None /\ tss_usage s' = tss_usage s /\ tss_artifacts s' = tss_artifacts s
  /\ exists terminal, tss_terminal s' = Some terminal /\ terminal_accepted item terminal.
Proof.
  intros HH Ht. destruct item; try discriminate Ht; cbn [tool_stream_accept counted] in HH; step HH; injection HH as <- <-; eauto 10.
Qed.

Lemma tool_loop_sound stream items s ps ps' out :
  tool_streamed items s ->
  tool_stream_loop limits output_validator max_result_bytes deferral (fun p ps => (ps ++ [p], Ok tt)) stream s ps = (ps', Ok out) ->
  exists items' final s', stream = (Ok <$> items') ++ [Ok final] /\ ps' = ps ++ tool_progress items'
    /\ tool_streamed (items ++ items') s' /\ terminal_accepted final (att_terminal out)
    /\ att_usage out = tss_usage s' /\ att_artifacts out = tss_artifacts s'
    /\ Z.of_nat (length (items ++ items')) + 1 <= tsl_max_items limits.
Proof.
  revert items s ps. induction stream as [|item stream IH]; intros items s ps Hs HH; cbn [tool_stream_loop] in HH.
  { rewrite (ts_open _ _ Hs) in HH. by injection HH. }
  rewrite (ts_open _ _ Hs) in HH. cbn [is_some] in HH.
  destruct (Z.ltb_spec (tsl_max_items limits) (tss_count s + 1)) as [|Hmax]; [by injection HH|].
  destruct item as [item|]; [|by injection HH]. rewrite <- (ts_open _ _ Hs) in HH. fold (counted s) in HH.
  destruct (accept item (counted s)) as [[s1 progress]|] eqn:Ea; [|by injection HH].
  destruct (is_tool_terminal item) eqn:Et.
  - destruct (tool_accept_terminal _ _ _ _ Ea Et) as (-> & Hu & Ha & terminal & Hterm & Hok).
    destruct stream as [|item' stream]; cbn [tool_stream_loop] in HH; rewrite Hterm in HH; cbn in HH; [|by injection HH].
    injection HH as <- <-. exists [], item, s. rewrite !app_nil_r. cbn. rewrite ?app_nil_r.
    split_and!; try done. rewrite <- (ts_count _ _ Hs). done.
  - destruct (tool_accept_streamed _ _ _ _ _ Hs Ea Et) as [Hs1 Hp].
    assert (exists ps1, ps1 = ps ++ option_list progress
      /\ tool_stream_loop limits output_validator max_result_bytes deferral (fun p ps => (ps ++ [p], Ok tt)) stream s1 ps1 = (ps', Ok out))
      as (ps1 & -> & HH1).
    { destruct progress; [by eauto|]. exists ps. cbn. by rewrite app_nil_r. }
    destruct (IH _ _ _ Hs1 HH1) as (items' & final & s' & -> & -> & Hs' & Hok & Hu & Ha & Hlen).
    exists (item :: items'), final, s'. rewrite <- (assoc_L (++)) in Hs', Hlen. split_and!; try done.
    unfold tool_progress in *. rewrite Hp, <- (assoc_L (++)). cbn. by destruct item.
Qed.

Lemma tool_assemble_sound stream progress out :
  tool_assemble limits output_validator max_result_bytes deferral stream = Ok (progress, out) ->
  exists items final, stream = (Ok <$> items) ++ [Ok final]
    /\ Forall (fun item => is_tool_terminal item = false) items
    /\ progress = tool_progress items
    /\ att_usage out = last (tool_usages items)
    /\ (forall i u v, tool_usages items !! i = Some u -> tool_usages items !! S i = Some v -> usage_regressed u v = false)
    /\ att_artifacts out = distinct (tool_artifacts items) /\ (length (att_artifacts out) <= MAX_TOOL_RESULT_ARTIFACTS)%nat
    /\ terminal_accepted final (att_terminal out)
    /\ Z.of_nat (length stream) <= tsl_max_items limits.
Proof.
  unfold tool_assemble, tool_assemble_incremental. intros HH.
  destruct (tool_stream_loop _ _ _ _ _ stream _ []) as [ps [t|]] eqn:E; [|done]. injection HH as <- <-.
  assert (tool_streamed [] (mkToolStreamState 0 0 None [] None)) as H0 by (split; cbn; try done; lia).
  destruct (tool_loop_sound _ _ _ _ _ _ H0 E) as (items & final & s & -> & -> & Hs & Hok & Hu & Ha & Hlen).
  exists items, final. cbn in *. rewrite Hu, Ha. split_and!; try done; try apply Hs.
  rewrite length_app, length_fmap. cbn. lia.
Qed.
End ToolStream.

(** ** Recovery *)

Lemma first_pass_never_retries s effect_id :
  tool_resume_action s effect_id <> ResumeAction_Retry /\ model_resume_action s <> ResumeAction_Retry.
Proof.
  unfold tool_resume_action, model_resume_action, reconcile_by_policy. split; repeat case_match; done.
Qed.

(** The effect is a call that was requested and of which nothing else is known. *)
Definition outstanding_call (s : KernelState) (effect_id : EffectId) : Prop :=
  exists batch c requested,
    k_active_tool_batch s = Some batch
    /\ find (fun c => asg_effect_id (atc_assigned c) =?? effect_id) (atb_calls batch) = Some c
    /\ atc_status c = ActiveToolCallStatus_Requested requested None
    /\ is_synthetic_plan (asg_plan (atc_assigned c)) = false
    /\ k_tool_settlements s !! effect_id = None
    /\ forall c', c' ∈ atb_calls batch -> is_deferred_call effect_id c' = false.

Definition outstanding_model (s : KernelState) : Prop :=
  exists pending, k_pending_model_effect s = Some pending
    /\ k_model_settlements s !! req_effect_id (pme_requested pending) = None
    /\ k_phase s <> Some RunPhase_AwaitingExternal /\ pme_deferred pending = None.

Lemma existsb_false_elem {A} (p : A -> bool) l : existsb p l = false <-> forall a, a ∈ l -> p a = false.
Proof.
  rewrite <- not_true_iff_false, existsb_exists. setoid_rewrite <- list_elem_of_In. split.
  - intros Hn a Ha. destruct (p a) eqn:E; [|done]. destruct Hn. eauto.
  - intros HH (a & Ha & Hp). rewrite (HH a Ha) in Hp. done.
Qed.

Lemma tool_retry_iff s effect_id r retry_allowed :
  map_tool_reconcile_result s effect_id r retry_allowed = ResumeAction_Retry <->
  outstanding_call s effect_id
  /\ (r = ToolReconcileResult_NotStarted \/ r = ToolReconcileResult_RetrySafe
      \/ (r = ToolReconcileResult_Unknown /\ retry_allowed = true)).
Proof.
  unfold map_tool_reconcile_result, tool_resume_action, outstanding_call.
  destruct (k_active_tool_batch s) as [batch|]; [|split; [done|intros [(? & ? & ? & ? & _) _]; done]].
  destruct (find _ (atb_calls batch)) as [c|] eqn:Ef; [|split; [done|intros [(? & ? & ? & [= <-] & ? & _) _]; congruence]].
  cbn [is_some_and].
  destruct (k_tool_settlements s !! effect_id) as [d|] eqn:Es; cbn [is_some orb].
  { split; [done|]. intros [(? & ? & ? & [= <-] & ? & _ & _ & ? & _) _]. congruence. }
  destruct (is_synthetic_plan (asg_plan (atc_assigned c))) eqn:Ep.
  { rewrite orb_true_r. split; [done|]. intros [(? & ? & ? & [= <-] & Hc & _ & ? & _) _]. congruence. }
  destruct (atc_status c) as [|requested [d|]| |] eqn:Ec; cbn [has_outcome orb];
    try (split; [done|]; intros [(? & ? & ? & [= <-] & Hc & Hst & _) _]; congruence).
  - destruct (existsb (is_deferred_call effect_id) (atb_calls batch)) eqn:Ed.
    + split; [unfold reconcile_by_policy; destruct (def_reconciliation d), r, retry_allowed; done|].
      intros [(b & ? & ? & [= <-] & Hc & Hst & _) _]. congruence.
    + exfalso. rewrite existsb_false_elem in Ed. apply find_some in Ef as [Hin%list_elem_of_In Heq].
      specialize (Ed c Hin). unfold is_deferred_call in Ed. rewrite Heq, Ec in Ed. done.
  - destruct (existsb (is_deferred_call effect_id) (atb_calls batch)) eqn:Ed.
    + split; [destruct r; cbn; done|]. intros [(b & ? & ? & [= <-] & _ & _ & _ & _ & Hd) _].
      apply existsb_false_elem in Hd. congruence.
    + rewrite existsb_false_elem in Ed. split.
      * intros HH. split; [by exists batch, c, requested|]. destruct r, retry_allowed; cbn in HH; naive_solver.
      * intros [_ [-> | [-> | [-> ->]]]]; done.
Qed.

Lemma model_retry_iff s r retry_allowed :
  map_model_reconcile_result s r retry_allowed = ResumeAction_Retry <->
  outstanding_model s
  /\ (r = ModelReconcileResult_NotStarted \/ r = ModelReconcileResult_RetrySafe
      \/ (r = ModelReconcileResult_Unknown /\ retry_allowed = true)).
Proof.
  unfold map_model_reconcile_result, outstanding_model.
  destruct (k_pending_model_effect s) as [p|]; [|split; [done|intros [(? & ? & _) _]; done]].
  destruct (k_model_settlements s !! _) as [d|] eqn:Es; cbn [is_some].
  { split; [done|]. intros [(? & [= <-] & ? & _) _]. congruence. }
  destruct (eqb_reflect (k_phase s) (Some RunPhase_AwaitingExternal)) as [Hp|Hp]; cbn [orb].
  { split; [destruct r; done|]. intros [(? & [= <-] & _ & ? & _) _]. done. }
  destruct (pme_deferred p) as [d|] eqn:Ed; cbn [is_some orb].
  { split; [destruct r; done|]. intros [(? & [= <-] & _ & _ & ?) _]. congruence. }
  split.
  - intros HH. split; [by exists p|]. destruct r, retry_allowed; cbn in HH; naive_solver.
  - intros [_ [-> | [-> | [-> ->]]]]; done.
Qed.

(** ** The recovery loop *)

Section RecoveryLoop.
Context {C W Toolset Validator : Type} `{!ToolRecovery C W Toolset}.
Variable catalog : ResolvedToolCatalog (Toolset := Toolset) (Validator := Validator).

(** The calls the loop asks about, in the order of the batch. *)
Definition asked_call (s : KernelState) (c : ActiveToolCall) : option EffectId :=
  let effect_id := asg_effect_id (atc_assigned c) in
  if (tool_resume_action s effect_id =?? ResumeAction_Reconcile) && negb (poll_scheduled c) then Some effect_id else None.

Definition asked_effects (s : KernelState) : list EffectId :=
  match k_active_tool_batch s with Some batch => omap (asked_call s) (atb_calls batch) | None => [] end.

Definition first_action (s : KernelState) (c : ActiveToolCall) : ResumeAction :=
  let action := tool_resume_action s (asg_effect_id (atc_assigned c)) in
  if (action =?? ResumeAction_Reconcile) && poll_scheduled c then ResumeAction_WaitExternal else action.

Lemma first_pass_spec s calls : forall acc,
  foldl (first_pass_step s) acc calls = (acc.1 ++ (first_action s <$> calls), acc.2 ++ omap (asked_call s) calls).
Proof.
  induction calls as [|c calls IH]; intros [actions ids]; cbn [foldl]; [by rewrite !app_nil_r|].
  rewrite IH. unfold first_pass_step, first_action, asked_call. cbn [fmap list_fmap omap list_omap fst snd].
  destruct (tool_resume_action s _ =?? ResumeAction_Reconcile), (poll_scheduled c); cbn [andb negb fst snd]; by rewrite <- ?app_assoc.
Qed.

Lemma first_action_plain s c : first_action s c <> ResumeAction_Retry /\ first_action s c <> ResumeAction_SuspendUncertain.
Proof.
  unfold first_action, tool_resume_action, reconcile_by_policy. split; repeat case_match; done.
Qed.

(** One answer of a toolset. *)
Record Answer : Type := mkAnswer {
  an_effect : EffectId;
  an_seed : ToolDispatchSeed;
  an_tool : ResolvedTool (Toolset := Toolset) (Validator := Validator);
  an_result : ToolReconcileResult
}.

(** Every effect of the list has a seed and a registered tool, whose toolset,
    asked in turn, gives the answer. *)
Inductive reconciled (s : KernelState) : W -> list EffectId -> list Answer -> W -> Prop :=
| reconciled_nil w : reconciled s w [] [] w
| reconciled_cons w effect_id ids seed tool r w1 answers w2 :
    tool_seed s effect_id = Some seed -> cat_by_id catalog !! vt_tool_id (tds_call seed) = Some tool ->
    toolset_reconcile (rtl_toolset tool) (reconcile_context s effect_id seed) (tds_call seed) w = (w1, Ok r) ->
    reconciled s w1 ids answers w2 -> reconciled s w (effect_id :: ids) (mkAnswer effect_id seed tool r :: answers) w2.

(** Every answer is recorded in turn, and none turns out uncertain. *)
Inductive recorded_answers : C * W -> list Answer -> C * W -> Prop :=
| recorded_answers_nil st : recorded_answers st [] st
| recorded_answers_cons st a answers st1 action st2 :
    apply_tool_reconcile_result (an_seed a) (an_result a) st = (st1, Ok action) -> action <> ResumeAction_SuspendUncertain ->
    recorded_answers st1 answers st2 -> recorded_answers st (a :: answers) st2.

Definition answer_action (s : KernelState) (a : Answer) : ResumeAction :=
  map_tool_reconcile_result s (an_effect a) (an_result a) (tool_retry_allowed (tds_requested (an_seed a)) (rtl_spec (an_tool a))).

(** The answer tells an outcome to record, or allows the call to be repeated. *)
Definition tells_outcome (a : Answer) : Prop :=
  match an_result a with
  | ToolReconcileResult_Completed _ | ToolReconcileResult_Deferred _ | ToolReconcileResult_StillRunning _ => True
  | _ => False
  end.
Definition allows_repetition (a : Answer) : Prop :=
  an_result a = ToolReconcileResult_NotStarted \/ an_result a = ToolReconcileResult_RetrySafe
  \/ (an_result a = ToolReconcileResult_Unknown /\ tool_retry_allowed (tds_requested (an_seed a)) (rtl_spec (an_tool a)) = true).

Notation mapped s := (fun a => (an_seed a, an_result a, answer_action s a)).

Lemma reconcile_loop_iff s ids : forall acc w w' out,
  reconcile_loop catalog s ids acc w = (w', Some out) <->
  exists answers, reconciled s w ids answers w' /\ out = acc ++ (mapped s <$> answers).
Proof.
  induction ids as [|e ids IH]; intros acc w w' out; cbn [reconcile_loop].
  { split; [intros [= -> ->]; exists []; split; [constructor|by rewrite app_nil_r]|].
    intros (answers & Hr & ->). inversion Hr; subst. by rewrite app_nil_r. }
  split.
  - destruct (tool_seed s e) as [seed|] eqn:Hs; [|done]. destruct (_ !! _) as [tool|] eqn:Ht; [|done].
    destruct (toolset_reconcile _ _ _ _) as [w1 [r|]] eqn:Hr; [|done]. intros (answers & Ha & ->)%IH.
    exists (mkAnswer e seed tool r :: answers). split; [by econstructor|]. by rewrite fmap_cons, <- app_assoc.
  - intros (answers & Hr & ->). inversion Hr as [|? ? ? seed tool r w1 answers' ? Hs Ht Hq Hrest]; subst.
    rewrite Hs, Ht, Hq. apply IH. exists answers'. split; [done|]. by rewrite fmap_cons, <- app_assoc.
Qed.

Lemma settle_loop_iff s answers : forall acc st st' out,
  settle_loop (mapped s <$> answers) acc st = (st', Ok (Some out)) <->
  recorded_answers st answers st' /\ out = acc ++ (answer_action s <$> answers).
Proof.
  induction answers as [|a answers IH]; intros acc st st' out; rewrite ?fmap_nil, ?fmap_cons; cbn [settle_loop].
  { split; [intros [= -> ->]; split; [constructor|by rewrite app_nil_r]|].
    intros [Hr ->]. inversion Hr; subst. by rewrite app_nil_r. }
  split.
  - destruct (apply_tool_reconcile_result _ _ _) as [st1 [action|]] eqn:Ha; [|done].
    destruct (eqb_reflect action ResumeAction_SuspendUncertain) as [->|Hne]; [done|].
    intros [Hr ->]%IH. split; [by econstructor|by rewrite <- app_assoc].
  - intros [Hr ->]. inversion Hr as [|? ? ? st1 action ? Ha Hne Hrest]; subst. rewrite Ha, (proj2 (eqb_false _ _) Hne).
    apply IH. split; [done|]. by rewrite <- app_assoc.
Qed.

Lemma aggregate_retry actions :
  aggregate_tool_resume_actions actions = ResumeAction_Retry <->
  ResumeAction_Retry ∈ actions /\ ResumeAction_SuspendUncertain ∉ actions.
Proof.
  assert (forall x, existsb (fun a => a =?? x) actions = true <-> x ∈ actions) as Hin.
  { intros x. rewrite existsb_exists, list_elem_of_In. setoid_rewrite eqb_true. naive_solver. }
  unfold aggregate_tool_resume_actions. rewrite <- !Hin, not_true_iff_false.
  repeat case_match; split; intros; naive_solver congruence.
Qed.

Lemma reconciled_effects s w ids answers w' : reconciled s w ids answers w' -> an_effect <$> answers = ids.
Proof. induction 1 as [|w e ids seed tool r w1 answers w2 _ _ _ _ IH]; [done|]. rewrite fmap_cons. by f_equal. Qed.

(** An effect asked about is certain when its outcome is told or it may be repeated. *)
Lemma answer_certain s a : tool_resume_action s (an_effect a) = ResumeAction_Reconcile ->
  answer_action s a <> ResumeAction_SuspendUncertain <->
  tells_outcome a \/ (outstanding_call s (an_effect a) /\ allows_repetition a).
Proof.
  intros Hrec. pose proof (tool_retry_iff s (an_effect a) (an_result a)
    (tool_retry_allowed (tds_requested (an_seed a)) (rtl_spec (an_tool a)))) as Hiff.
  unfold allows_repetition. rewrite <- Hiff. clear Hiff.
  unfold answer_action, map_tool_reconcile_result, tells_outcome. rewrite Hrec. cbv zeta.
  destruct (an_result a); repeat case_match; naive_solver.
Qed.

Lemma asked_reconcile s e : e ∈ asked_effects s -> tool_resume_action s e = ResumeAction_Reconcile.
Proof.
  unfold asked_effects. destruct (k_active_tool_batch s) as [batch|]; [|by intros ?%not_elem_of_nil].
  intros (c & _ & Hc)%list_elem_of_omap. unfold asked_call in Hc. destruct (_ && _) eqn:Ha; [|done]. injection Hc as <-.
  apply andb_true_iff in Ha as [Ha _]. by apply eqb_eq.
Qed.

Lemma outstanding_asked s e : outstanding_call s e -> e ∈ asked_effects s.
Proof.
  intros (batch & c & requested & Hb & Hf & Hst & Hplan & Hset & _). unfold asked_effects. rewrite Hb.
  apply list_elem_of_omap. exists c. apply find_some in Hf as Hc. destruct Hc as [Hin%list_elem_of_In Heq%eqb_eq]. split; [done|].
  unfold asked_call, tool_resume_action. rewrite Heq, Hb, Hf, Hset, Hst, Hplan. unfold poll_scheduled. by rewrite Hst.
Qed.

Lemma certain_answers s w answers w1 : reconciled s w (asked_effects s) answers w1 ->
  Forall (fun a => answer_action s a <> ResumeAction_SuspendUncertain) answers <->
  Forall (fun a => tells_outcome a \/ (outstanding_call s (an_effect a) /\ allows_repetition a)) answers.
Proof.
  intros Hr. rewrite !Forall_forall. apply reconciled_effects in Hr.
  assert (forall a, a ∈ answers -> tool_resume_action s (an_effect a) = ResumeAction_Reconcile) as Hrec.
  { intros a Ha. apply asked_reconcile. rewrite <- Hr. by apply list_elem_of_fmap_2. }
  split; intros HH a Ha; specialize (HH a Ha); by apply answer_certain; [apply Hrec|].
Qed.

Lemma uncertain_exists s answers :
  existsb (fun m : ToolDispatchSeed * ToolReconcileResult * ResumeAction => m.2 =?? ResumeAction_SuspendUncertain) (mapped s <$> answers) = false <->
  Forall (fun a => answer_action s a <> ResumeAction_SuspendUncertain) answers.
Proof.
  rewrite existsb_false_elem, Forall_forall. split.
  - intros HH a Ha. apply eqb_false. apply (HH (an_seed a, an_result a, answer_action s a)), list_elem_of_fmap. by exists a.
  - intros HH m (a & -> & Ha)%list_elem_of_fmap. by apply eqb_false, HH.
Qed.

(** Only an answer can make the loop ask for a repetition. *)
Lemma aggregate_answers s calls answers : Forall (fun a => answer_action s a <> ResumeAction_SuspendUncertain) answers ->
  aggregate_tool_resume_actions (List.filter (fun a => negb (a =?? ResumeAction_Reconcile)) (first_action s <$> calls)
    ++ (answer_action s <$> answers)) = ResumeAction_Retry <-> ResumeAction_Retry ∈ answer_action s <$> answers.
Proof.
  intros Hc. assert (forall x, x ∈ List.filter (fun a => negb (a =?? ResumeAction_Reconcile)) (first_action s <$> calls) ->
    x <> ResumeAction_Retry /\ x <> ResumeAction_SuspendUncertain) as Hf.
  { intros x Hx. apply list_elem_of_In, filter_In in Hx as [Hx%list_elem_of_In _].
    apply list_elem_of_fmap in Hx as (c & -> & _). apply first_action_plain. }
  rewrite aggregate_retry, elem_of_app, not_elem_of_app. split.
  - intros [[Hx|Hx] _]; [|done]. by apply Hf in Hx as [? _].
  - intros Hx. split; [by right|]. split; [by intros [_ ?]%Hf|]. intros (a & Ha & Hin)%list_elem_of_fmap.
    rewrite Forall_forall in Hc. by apply (Hc a Hin).
Qed.

Lemma resume_retry_intro st answers w1 : let s := recovery_state st.1 in
  reconciled s st.2 (asked_effects s) answers w1 -> Forall (fun a => answer_action s a <> ResumeAction_SuspendUncertain) answers ->
  recorded_answers (st.1, w1) answers (resume_pending_tool_effects catalog st).1 -> ResumeAction_Retry ∈ answer_action s <$> answers ->
  (resume_pending_tool_effects catalog st).2 = Ok ResumeAction_Retry.
Proof.
  intros s Hr Hc Hs Hretry. pose proof (proj2 (reconcile_loop_iff s _ [] st.2 w1 _) (ex_intro _ answers (conj Hr eq_refl))) as Hloop.
  revert Hs. unfold resume_pending_tool_effects. fold s. unfold asked_effects in Hr, Hloop.
  destruct (k_active_tool_batch s) as [batch|]; [|by inversion Hr; subst; apply not_elem_of_nil in Hretry].
  rewrite first_pass_spec. cbn [fst snd app]. cbn [app] in Hloop.
  destruct (omap (asked_call s) (atb_calls batch)) as [|e ids]; [by inversion Hr; subst; apply not_elem_of_nil in Hretry|].
  rewrite Hloop, (proj2 (uncertain_exists s answers) Hc).
  destruct (settle_loop (mapped s <$> answers) [] (st.1, w1)) as [st' r] eqn:Hset.
  assert (forall st2, recorded_answers (st.1, w1) answers st2 -> (st', r) = (st2, Ok (Some (answer_action s <$> answers)))) as Hdet.
  { intros st2 H2. rewrite <- Hset. by apply (settle_loop_iff s answers []). }
  destruct r as [[applied|]|e']; cbn [fst snd]; intros Hs; apply Hdet in Hs; [|done..]. injection Hs as ->.
  by rewrite (proj2 (aggregate_answers s _ answers Hc)).
Qed.

Lemma resume_retry_inv st : let s := recovery_state st.1 in
  (resume_pending_tool_effects catalog st).2 = Ok ResumeAction_Retry ->
  exists answers w1, reconciled s st.2 (asked_effects s) answers w1 /\
    Forall (fun a => answer_action s a <> ResumeAction_SuspendUncertain) answers /\
    recorded_answers (st.1, w1) answers (resume_pending_tool_effects catalog st).1 /\
    ResumeAction_Retry ∈ answer_action s <$> answers.
Proof.
  intros s. unfold resume_pending_tool_effects, asked_effects. fold s. destruct (k_active_tool_batch s) as [batch|]; [|done].
  rewrite first_pass_spec. cbn [fst snd app].
  destruct (omap (asked_call s) (atb_calls batch)) as [|e ids].
  { cbn [snd]. intros [= (Hx & _)%aggregate_retry]. apply list_elem_of_fmap in Hx as (c & Hc & _). by destruct (first_action_plain s c). }
  destruct (reconcile_loop catalog s (e :: ids) [] st.2) as [w1 [out|]] eqn:Hloop; [|done].
  apply reconcile_loop_iff in Hloop as (answers & Hr & ->). cbn [app].
  destruct (existsb _ _) eqn:Hex; [done|]. apply uncertain_exists in Hex.
  destruct (settle_loop _ [] (st.1, w1)) as [st' [[applied|]|]] eqn:Hset; [|done..]. cbn [fst snd].
  apply settle_loop_iff in Hset as [Hrec ->]. cbn [app]. intros [= Hag]. apply aggregate_answers in Hag; [|done]. by exists answers, w1.
Qed.

(** The loop asks for a repetition exactly when every answer it asked for was
    given, is certain and was recorded, and one of them allows it. *)
Lemma resume_retry_iff st : let s := recovery_state st.1 in
  (resume_pending_tool_effects catalog st).2 = Ok ResumeAction_Retry <->
  exists answers w1, reconciled s st.2 (asked_effects s) answers w1
    /\ Forall (fun a => tells_outcome a \/ (outstanding_call s (an_effect a) /\ allows_repetition a)) answers
    /\ recorded_answers (st.1, w1) answers (resume_pending_tool_effects catalog st).1
    /\ exists a, a ∈ answers /\ outstanding_call s (an_effect a) /\ allows_repetition a.
Proof.
  intros s. split.
  - intros HH. destruct (resume_retry_inv st HH) as (answers & w1 & Hr & Hc & Hs & Hretry). exists answers, w1. split; [done|].
    pose proof (certain_answers _ _ _ _ Hr) as Hcert. split; [by apply Hcert|]. split; [done|]. fold s in Hretry.
    apply list_elem_of_fmap in Hretry as (a & Ha & Hin). exists a. split; [done|]. by apply tool_retry_iff.
  - intros (answers & w1 & Hr & Hc & Hs & a & Hin & Ha). apply (certain_answers _ _ _ _ Hr) in Hc.
    apply (resume_retry_intro st answers w1); [done..|]. apply list_elem_of_fmap. exists a. split; [|done]. symmetry. by apply tool_retry_iff.
Qed.

(** What is repeated then: the calls that are requested and not deferred. *)
Lemma pending_seed_call s seed : seed ∈ pending_tool_seeds s ->
  exists batch c, k_active_tool_batch s = Some batch /\ c ∈ atb_calls batch
    /\ atc_status c = ActiveToolCallStatus_Requested (tds_requested seed) None
    /\ asg_plan (atc_assigned c) = ToolCallPlan_Execute (tds_call seed).
Proof.
  unfold pending_tool_seeds. destruct (k_active_tool_batch s) as [batch|]; [|by intros ?%not_elem_of_nil].
  destruct (dispatch_security_context s) as [[[locator authorization] scope]|]; [|by intros ?%not_elem_of_nil].
  destruct (k_accepted_at s) as [at_|]; [|by intros ?%not_elem_of_nil].
  intros (c & Hin & Hc)%list_elem_of_omap. apply bind_Some in Hc as (requested & Hr & Hc). apply bind_Some in Hc as (call & Hx & [= <-]).
  exists batch, c. unfold requested_call in Hr. unfold executable_call in Hx. split_and!; [done..| |].
  - destruct (atc_status c) as [|? []| |]; try done. by injection Hr as ->.
  - destruct (asg_plan _); [|done]. by injection Hx as ->.
Qed.
End RecoveryLoop.
