(* ===== verification/Compaction.v ===== *)
(** * Stage outcomes and context compaction

    Models [ports/middleware/validate.rs], [digest.rs], the stage types of
    [types.rs] and [exec/middleware_driver/fold.rs] of [finstack-ai-runtime]:
    which outcome a middleware component may return at which stage, what a
    compacted context must keep, and the fold of a stage's outcomes into one.

    Canonical JSON of messages, source entries, entry lists and summaries is the
    class [CompactionJson]; the digest domains are fixed names, so
    [Digest::domain_separated] is [hash_domain]. *)

From S2P Require Import Prelude Primitives Effects Records State Inputs Digests Decide Dispatch ModelPort ModelStream ContextPort ContextCall Middleware.

(** ** Data ([types.rs]) *)

Record CompactionSourceEntry : Type := mkCompactionSourceEntry {
  cse_entry_id : EntryId;
  cse_message : Message;
  cse_sensitivity : Sensitivity;
  cse_provenance_digest : Digest;
  cse_protected : bool
}.

Inductive PromptCacheImpact : Type :=
| PromptCacheImpact_StablePrefixPreserved
| PromptCacheImpact_MutableSuffixChanged
| PromptCacheImpact_CacheInvalidated.

Record CompactionEvidence : Type := mkCompactionEvidence {
  cev_strategy_id : string;
  cev_strategy_version : Z;
  cev_configuration_digest : Digest;
  cev_model_context_profile_digest : Digest;
  cev_source_digest : Digest;
  cev_protected_item_set_digest : Digest;
  cev_covered_entry_ids : list EntryId;
  cev_retained_entry_ids : list EntryId;
  cev_projection_digest : Digest;
  cev_estimated_tokens_before : Z;
  cev_estimated_tokens_after : Z;
  cev_summary_digest : option Digest;
  cev_cache_impact : PromptCacheImpact
}.

Inductive CompactedSummary : Type :=
| CompactedSummary_Inline (items : list ContextItem)
| CompactedSummary_Artifact (artifact : ArtifactRef).

Record CompactionCheckpoint : Type := mkCompactionCheckpoint {
  cck_component_id : ComponentId;
  cck_strategy_id : string;
  cck_strategy_version : Z;
  cck_configuration_digest : Digest;
  cck_model_context_profile_digest : Digest;
  cck_covered_through_entry_id : EntryId;
  cck_source_digest : Digest;
  cck_summary : CompactedSummary;
  cck_summary_digest : Digest;
  cck_sensitivity : Sensitivity
}.

Record CompactionResult : Type := mkCompactionResult {
  crs_replacement_messages : list Message;
  crs_derived_summaries : list ContextItem;
  crs_evidence : CompactionEvidence;
  crs_checkpoint : option CompactionCheckpoint
}.

Record BeforeModelInput : Type := mkBeforeModelInput {
  bmi_request : ModelRequestDraft;
  bmi_source_entries : list CompactionSourceEntry;
  bmi_model_context_profile_digest : Digest;
  bmi_hard_input_tokens : Z;
  bmi_checkpoint : option CompactionCheckpoint
}.

Record BeforeToolBatchInput : Type := mkBeforeToolBatchInput {
  bti_prior_write_tool_calls : Z;
  bti_calls : list ToolCallBlock;
  bti_tools : list ToolSpec
}.

Inductive StageInput : Type :=
| StageInput_BeforeRun (value : RawJson)
| StageInput_PrepareContext (value : RawJson)
| StageInput_BeforeModel (input : BeforeModelInput)
| StageInput_AfterModel (value : RawJson)
| StageInput_BeforeToolBatch (input : BeforeToolBatchInput)
| StageInput_AfterToolBatch (value : RawJson)
| StageInput_BeforeFinalize (candidate : RawJson) (result_message : option RawJson).

Definition StageInput_stage (i : StageInput) : Stage :=
  match i with
  | StageInput_BeforeRun _ => Stage_BeforeRun
  | StageInput_PrepareContext _ => Stage_PrepareContext
  | StageInput_BeforeModel _ => Stage_BeforeModel
  | StageInput_AfterModel _ => Stage_AfterModel
  | StageInput_BeforeToolBatch _ => Stage_BeforeToolBatch
  | StageInput_AfterToolBatch _ => Stage_AfterToolBatch
  | StageInput_BeforeFinalize _ _ => Stage_BeforeFinalize
  end.

Record CompactionModelRequest : Type := mkCompactionModelRequest {
  cmr_model : ComponentRef;
  cmr_request : ModelRequestDraft;
  cmr_budget_scope_id : BudgetScopeId;
  cmr_source_sensitivity : Sensitivity;
  cmr_residency_policy_digest : Digest;
  cmr_resume_state : RawJson
}.

Inductive StageOutcome : Type :=
| StageOutcome_Continue
| StageOutcome_Replace (value : RawJson)
| StageOutcome_AddInstructions (items : list ContextItem)
| StageOutcome_AddContext (items : list ContextItem)
| StageOutcome_CompactContext (result : CompactionResult)
| StageOutcome_RequestCompactionModel (request : CompactionModelRequest)
| StageOutcome_FilterTools (tools : list ToolId)
| StageOutcome_RequestInteraction (request : InteractionRequest)
| StageOutcome_Retry (directive : RetryDirective)
| StageOutcome_Suspend (reason : ErrorDescriptor)
| StageOutcome_Complete (output : RawJson)
| StageOutcome_Fail (error : ErrorDescriptor).

(** ** Digests ([digest.rs]) *)

Class CompactionJson : Type := {
  jcs_message : Message -> option string;
  jcs_source_entries : list CompactionSourceEntry -> option string;
  jcs_entry_ids : list EntryId -> option string;
  jcs_messages : list Message -> option string;
  jcs_summary : CompactedSummary -> option string
}.

Definition sensitivity_rank (value : Sensitivity) : Z :=
  match value with
  | Sensitivity_Public => 0
  | Sensitivity_Internal => 1
  | Sensitivity_Confidential => 2
  | Sensitivity_Secret => 3
  | Sensitivity_Credential => 4
  end.

(** [iter().map(sensitivity_rank).max().unwrap_or(0)]. *)
Definition max_sensitivity (entries : list CompactionSourceEntry) : Z :=
  foldr (fun e m => Z.max (sensitivity_rank (cse_sensitivity e)) m) 0 entries.

Definition middleware_bytes (bytes : option string) : mresult string :=
  ok_or bytes (MiddlewareError_stable MIDDLEWARE_OUTCOME_NOT_ALLOWED "middleware value could not be canonicalized").

Section Compaction.
Context `{Hasher, ModelJson, CompactionJson}.

Definition digest_value (domain : string) (bytes : option string) : mresult Digest :=
  let? bytes := middleware_bytes bytes in Ok (hash_domain domain 1 bytes).

Definition compaction_source_digest (entries : list CompactionSourceEntry) : mresult Digest :=
  digest_value "compaction-source" (jcs_source_entries entries).
Definition compaction_protected_set_digest (entries : list EntryId) : mresult Digest :=
  digest_value "compaction-protected-set" (jcs_entry_ids entries).
Definition compaction_projection_digest (messages : list Message) : mresult Digest :=
  digest_value "compaction-projection" (jcs_messages messages).
Definition compaction_summary_digest (summary : CompactedSummary) : mresult Digest :=
  digest_value "compaction-summary" (jcs_summary summary).

(** The prefix through the entry a checkpoint covers. *)
Definition covered_prefix (entries : list CompactionSourceEntry) (through : EntryId) : option (list CompactionSourceEntry) :=
  (fun '(index, _) => take (S index) entries) <$> list_find (fun e => cse_entry_id e = through) entries.

Definition summary_is_safe (summary : CompactedSummary) (source_sensitivity : Z) : bool :=
  match summary with
  | CompactedSummary_Inline items =>
      forallb (fun item => (cxi_kind item =?? ContextItemKind_DerivedSummary)
                           && (cxi_authority item =?? ContextAuthority_Untrusted)
                           && (source_sensitivity <=? sensitivity_rank (cxi_sensitivity item))) items
  | CompactedSummary_Artifact _ => true
  end.

Definition compaction_checkpoint_compatible (d : MiddlewareDescriptor) (input : BeforeModelInput)
    (checkpoint : CompactionCheckpoint) : mresult bool :=
  match mwd_role d with
  | MiddlewareRole_ContextCompactor strategy_id strategy_version =>
      match covered_prefix (bmi_source_entries input) (cck_covered_through_entry_id checkpoint) with
      | None => Ok false
      | Some covered =>
          let? source_digest := compaction_source_digest covered in
          let? summary_digest := compaction_summary_digest (cck_summary checkpoint) in
          let source_sensitivity := max_sensitivity covered in
          Ok ((cck_component_id checkpoint =?? component_of d)
              && (cck_strategy_id checkpoint =?? strategy_id)
              && (cck_strategy_version checkpoint =?? strategy_version)
              && (cck_configuration_digest checkpoint =?? ci_configuration_digest (mwd_invocation d))
              && (cck_model_context_profile_digest checkpoint =?? bmi_model_context_profile_digest input)
              && (cck_source_digest checkpoint =?? source_digest)
              && (cck_summary_digest checkpoint =?? summary_digest)
              && (source_sensitivity <=? sensitivity_rank (cck_sensitivity checkpoint))
              && summary_is_safe (cck_summary checkpoint) source_sensitivity)
      end
  | _ => Ok false
  end.

(** ** Checking a compaction ([validate.rs]) *)

Definition compaction_budget_exceeded : MiddlewareError :=
  MiddlewareError_stable COMPACTION_BUDGET_EXCEEDED "compacted projection exceeds the hard model-input budget".

Definition validate_compaction_evidence (d : MiddlewareDescriptor) (input : BeforeModelInput) (result : CompactionResult)
    (strategy_id : string) (strategy_version : Z) : mresult unit :=
  let entries := bmi_source_entries input in
  let evidence := crs_evidence result in
  do? reject_if ((SEMANTIC_ARRAY_MAX_ITEMS <? length entries)%nat
                 || (SEMANTIC_ARRAY_MAX_ITEMS <? length (crs_replacement_messages result))%nat
                 || (SEMANTIC_ARRAY_MAX_ITEMS <? length (crs_derived_summaries result))%nat) compaction_invalid in
  let? source_digest := compaction_source_digest entries in
  let? protected_digest := compaction_protected_set_digest
                             (cse_entry_id <$> filter (fun e => cse_protected e = true) entries) in
  let? projection_digest := compaction_projection_digest (crs_replacement_messages result) in
  reject_if ((cev_strategy_id evidence <>?? strategy_id)
             || (cev_strategy_version evidence <>?? strategy_version)
             || (cev_configuration_digest evidence <>?? ci_configuration_digest (mwd_invocation d))
             || (cev_model_context_profile_digest evidence <>?? bmi_model_context_profile_digest input)
             || (cev_source_digest evidence <>?? source_digest)
             || (cev_protected_item_set_digest evidence <>?? protected_digest)
             || (cev_projection_digest evidence <>?? projection_digest)
             || (cev_covered_entry_ids evidence <>?? (cse_entry_id <$> entries))
             || (bmi_hard_input_tokens input <? cev_estimated_tokens_after evidence)
             || (cev_estimated_tokens_before evidence <? cev_estimated_tokens_after evidence))
    (if bmi_hard_input_tokens input <? cev_estimated_tokens_after evidence then compaction_budget_exceeded
     else compaction_invalid).

(** Later entries of the same message identity win, as in [collect] into a map. *)
Definition source_by_message (entries : list CompactionSourceEntry) : gmap MessageId (nat * CompactionSourceEntry) :=
  foldl (fun m '(index, e) => <[msg_id (cse_message e) := (index, e)]> m) ∅ (enumerate entries).

Record RetainState : Type := mkRetainState {
  rts_replacements : gmap MessageId Message;
  rts_actual_retained : list EntryId;
  rts_last_source_index : option nat
}.

Definition retain_step (sources : gmap MessageId (nat * CompactionSourceEntry)) (st : RetainState) (message : Message)
    : mresult RetainState :=
  match sources !! msg_id message with
  | None => Err compaction_invalid
  | Some (source_index, source) =>
      do? reject_if (is_some_and (rts_last_source_index st) (fun last => (source_index <=? last)%nat)) compaction_invalid in
      do? reject_if (is_some (rts_replacements st !! msg_id message)) compaction_invalid in
      Ok (mkRetainState (<[msg_id message := message]> (rts_replacements st))
            (rts_actual_retained st ++ [cse_entry_id source]) (Some source_index))
  end.

Definition check_protected (replacements : gmap MessageId Message) (u : unit) (e : CompactionSourceEntry) : mresult unit :=
  match replacements !! msg_id (cse_message e) with
  | None => Err compaction_invalid
  | Some replacement =>
      let? a := middleware_bytes (jcs_message replacement) in
      let? b := middleware_bytes (jcs_message (cse_message e)) in
      reject_if (a <>?? b) compaction_invalid
  end.

(** [validate_tool_associations(Some(known))]. *)
Definition tool_associations_known (message : Message) (known : gmap ToolCallId bool) : bool :=
  validate_tool_associations (msg_role message) (msg_content message)
  && ((msg_role message <>?? MessageRole_Tool)
      || forallb (fun id => is_some (known !! id)) (tool_result_ids (msg_content message))).

Definition tool_pair_block (pairs : gmap ToolCallId bool) (block : ContentBlock) : mresult (gmap ToolCallId bool) :=
  match block with
  | ContentBlock_ToolCall call =>
      do? reject_if (is_some (pairs !! tc_tool_call_id call)) compaction_invalid in
      Ok (<[tc_tool_call_id call := false]> pairs)
  | ContentBlock_ToolResult r =>
      do? reject_if (is_none (pairs !! tr_tool_call_id r)) compaction_invalid in
      Ok (<[tr_tool_call_id r := true]> pairs)
  | _ => Ok pairs
  end.

Definition tool_pair_message (pairs : gmap ToolCallId bool) (message : Message) : mresult (gmap ToolCallId bool) :=
  do? reject_if (negb (tool_associations_known message pairs)) compaction_invalid in
  rfold tool_pair_block pairs (msg_content message).

Definition tool_pairs (messages : list Message) : mresult (gmap ToolCallId bool) := rfold tool_pair_message ∅ messages.

(** A retained call whose result was in the source keeps its result. *)
Definition pairs_kept (source replacement : gmap ToolCallId bool) : bool :=
  forallb (fun '(call, has_result) => negb (has_result && (replacement !! call =?? Some false))) (map_to_list source).

Definition validate_checkpoint (d : MiddlewareDescriptor) (input : BeforeModelInput) (result : CompactionResult)
    : mresult unit :=
  match crs_checkpoint result with
  | None => Ok tt
  | Some checkpoint =>
      match covered_prefix (bmi_source_entries input) (cck_covered_through_entry_id checkpoint) with
      | None => Err compaction_invalid
      | Some covered =>
          let? checkpoint_source_digest := compaction_source_digest covered in
          do? reject_if ((cck_component_id checkpoint <>?? component_of d)
                         || (cck_strategy_id checkpoint <>?? cev_strategy_id (crs_evidence result))
                         || (cck_strategy_version checkpoint <>?? cev_strategy_version (crs_evidence result))
                         || (cck_configuration_digest checkpoint <>?? ci_configuration_digest (mwd_invocation d))
                         || (cck_model_context_profile_digest checkpoint <>?? bmi_model_context_profile_digest input)
                         || (cck_source_digest checkpoint <>?? checkpoint_source_digest)) compaction_invalid in
          let? summary_digest := compaction_summary_digest (cck_summary checkpoint) in
          reject_if ((cck_summary_digest checkpoint <>?? summary_digest)
                     || (cev_summary_digest (crs_evidence result) <>?? Some summary_digest)
                     || (sensitivity_rank (cck_sensitivity checkpoint) <? max_sensitivity covered)) compaction_invalid
      end
  end.

Definition trailing_user_protected (entries : list CompactionSourceEntry) : bool :=
  is_some_and (last entries) (fun e => cse_protected e && (msg_role (cse_message e) =?? MessageRole_User)).

Definition validate_compaction_result (d : MiddlewareDescriptor) (input : BeforeModelInput) (result : CompactionResult)
    : mresult unit :=
  match mwd_role d with
  | MiddlewareRole_ContextCompactor strategy_id strategy_version =>
      let entries := bmi_source_entries input in
      do? validate_compaction_evidence d input result strategy_id strategy_version in
      do? reject_if (negb (trailing_user_protected entries)) compaction_invalid in
      let? st := rfold (retain_step (source_by_message entries)) (mkRetainState ∅ [] None) (crs_replacement_messages result) in
      do? reject_if (rts_actual_retained st <>?? cev_retained_entry_ids (crs_evidence result)) compaction_invalid in
      do? rfold (check_protected (rts_replacements st)) tt (filter (fun e => cse_protected e = true) entries) in
      let? source_pairs := tool_pairs (cse_message <$> entries) in
      let? replacement_pairs := tool_pairs (crs_replacement_messages result) in
      do? reject_if (negb (pairs_kept source_pairs replacement_pairs)) compaction_invalid in
      do? reject_if (existsb (fun summary =>
                       (cxi_kind summary <>?? ContextItemKind_DerivedSummary)
                       || (cxi_authority summary <>?? ContextAuthority_Untrusted)
                       || (sensitivity_rank (cxi_sensitivity summary) <? max_sensitivity entries))
                       (crs_derived_summaries result)) compaction_invalid in
      validate_checkpoint d input result
  | _ => Err outcome_not_allowed
  end.

Definition COMPACTION_RESUME_MAX_BYTES : Z := 1048576.

Definition validate_compaction_model_request (request : CompactionModelRequest) : mresult unit :=
  do? reject_if (COMPACTION_RESUME_MAX_BYTES <? str_len (cmr_resume_state request))
        (MiddlewareError_stable COMPACTION_MODEL_NOT_AUTHORIZED "compaction resume state exceeds its hard bound") in
  do? map_err (fun _ => MiddlewareError_stable COMPACTION_MODEL_NOT_AUTHORIZED "compaction model request is invalid")
        (ModelRequestDraft_canonical_bytes (cmr_request request)) in
  Ok tt.

(** [CompactionAuthorization::authorizes]. *)
Definition authorizes (a : CompactionAuthorization) (model : ComponentRef) (source_sensitivity : Sensitivity)
    (residency_policy_digest : Digest) : bool :=
  (cau_allowed_model a =?? model) && (cau_residency_policy_digest a =?? residency_policy_digest)
  && (sensitivity_rank source_sensitivity <=? sensitivity_rank (cau_maximum_sensitivity a)).

Definition authorize_compaction_model_request (authorization : option CompactionAuthorization)
    (request : CompactionModelRequest) : mresult unit :=
  do? validate_compaction_model_request request in
  match authorization with
  | None => Err (MiddlewareError_stable COMPACTION_MODEL_NOT_AUTHORIZED
                   "compaction model request lacks durable run authorization")
  | Some a =>
      reject_if (negb (authorizes a (cmr_model request) (cmr_source_sensitivity request)
                         (cmr_residency_policy_digest request)))
        (MiddlewareError_stable COMPACTION_MODEL_NOT_AUTHORIZED
           "compaction model request does not match the accepted authorization lock")
  end.

(** ** The stage and outcome matrix *)

Definition is_context_compactor (role : MiddlewareRole) : bool :=
  match role with MiddlewareRole_ContextCompactor _ _ => true | _ => false end.

Definition outcome_allowed (role : MiddlewareRole) (stage : Stage) (outcome : StageOutcome) : bool :=
  match outcome with
  | StageOutcome_Continue | StageOutcome_Fail _ | StageOutcome_Suspend _ | StageOutcome_RequestInteraction _ => true
  | StageOutcome_Replace _ => stage <>?? Stage_BeforeFinalize
  | StageOutcome_AddInstructions _ | StageOutcome_AddContext _ =>
      match stage with Stage_PrepareContext | Stage_BeforeModel => true | _ => false end
  | StageOutcome_FilterTools _ => match stage with Stage_BeforeModel | Stage_BeforeToolBatch => true | _ => false end
  | StageOutcome_CompactContext _ | StageOutcome_RequestCompactionModel _ =>
      (stage =?? Stage_BeforeModel) && is_context_compactor role
  | StageOutcome_Retry _ =>
      match stage with Stage_AfterModel | Stage_AfterToolBatch | Stage_BeforeFinalize => true | _ => false end
  | StageOutcome_Complete _ =>
      match stage with
      | Stage_BeforeRun | Stage_AfterModel | Stage_AfterToolBatch | Stage_BeforeFinalize => true
      | _ => false
      end
  end.

Definition observes_only (outcome : StageOutcome) : bool :=
  match outcome with
  | StageOutcome_Continue | StageOutcome_Fail _ | StageOutcome_Suspend _ | StageOutcome_RequestInteraction _ => true
  | _ => false
  end.

Definition validate_stage_outcome (d : MiddlewareDescriptor) (input : StageInput) (outcome : StageOutcome) : mresult unit :=
  let stage := StageInput_stage input in
  do? reject_if (negb (StageMask_contains (mwd_stages d) stage)) outcome_not_allowed in
  do? reject_if (negb (outcome_allowed (mwd_role d) stage outcome)) outcome_not_allowed in
  do? reject_if ((mwd_role d =?? MiddlewareRole_PostCompactionValidator) && negb (observes_only outcome)) outcome_not_allowed in
  match outcome with
  | StageOutcome_CompactContext result =>
      match input with
      | StageInput_BeforeModel before_model => validate_compaction_result d before_model result
      | _ => Err outcome_not_allowed
      end
  | StageOutcome_RequestCompactionModel request => validate_compaction_model_request request
  | _ => Ok tt
  end.
End Compaction.

(** ** Folding a stage ([fold.rs]) *)

Inductive StageTerminal : Type :=
| StageTerminal_Fail (error : ErrorDescriptor)
| StageTerminal_Retry (directive : RetryDirective).

Record StageFold : Type := mkStageFold {
  sfo_instructions : list ContextItem;
  sfo_context : list ContextItem;
  sfo_retained_tools : option (gset ToolId);
  sfo_replacement : option RawJson;
  sfo_compaction : option CompactionResult;
  sfo_terminal : option StageTerminal
}.

Definition StageFold_default : StageFold := mkStageFold [] [] None None None None.

Definition unlandable (reason : string) : MiddlewareError := MiddlewareError_stable MIDDLEWARE_STAGE_UNLANDABLE reason.
Definition bounds_exceeded (reason : string) : MiddlewareError :=
  MiddlewareError_stable MIDDLEWARE_STAGE_BOUNDS_EXCEEDED reason.

Definition carries_context (stage : Stage) : bool :=
  match stage with Stage_PrepareContext | Stage_BeforeModel => true | _ => false end.

(** The body of the loop for one outcome; a terminal leaves the loop. *)
Definition fold_outcome (stage : Stage) (f : StageFold) (outcome : StageOutcome) : mresult StageFold :=
  let 'mkStageFold instructions context tools replacement compaction terminal := f in
  match outcome with
  | StageOutcome_Continue => Ok f
  | StageOutcome_AddInstructions items =>
      Ok (mkStageFold (instructions ++ items) context tools replacement compaction terminal)
  | StageOutcome_AddContext items => Ok (mkStageFold instructions (context ++ items) tools replacement compaction terminal)
  | StageOutcome_FilterTools ids =>
      let incoming := list_to_set ids in
      Ok (mkStageFold instructions context
            (Some match tools with Some existing => existing ∩ incoming | None => incoming end)
            replacement compaction terminal)
  | StageOutcome_Replace raw =>
      if carries_context stage then Ok (mkStageFold instructions context tools (Some raw) compaction terminal)
      else Err (unlandable "middleware Replace has no kernel landing shape at this stage")
  | StageOutcome_CompactContext result =>
      if stage =?? Stage_BeforeModel then Ok (mkStageFold instructions context tools replacement (Some result) terminal)
      else Err (unlandable "middleware CompactContext has no kernel landing shape at this stage")
  | StageOutcome_RequestCompactionModel _ =>
      Err (unlandable "middleware RequestCompactionModel has no StageSettled landing path")
  | StageOutcome_RequestInteraction _ =>
      Err (unlandable "middleware RequestInteraction does not consume a stage cursor")
  | StageOutcome_Suspend _ => Err (unlandable "middleware Suspend has no StageSettled landing path")
  | StageOutcome_Complete _ => Err (unlandable "middleware Complete has no ReducerStageOutcome peer")
  | StageOutcome_Retry directive =>
      if stage =?? Stage_BeforeFinalize
      then Ok (mkStageFold instructions context tools replacement compaction (Some (StageTerminal_Retry directive)))
      else Err (unlandable "the kernel admits ReducerStageOutcome::Retry only at BeforeFinalize")
  | StageOutcome_Fail error =>
      Ok (mkStageFold instructions context tools replacement compaction (Some (StageTerminal_Fail error)))
  end.

Fixpoint fold_outcomes (stage : Stage) (f : StageFold) (outcomes : list StageOutcome) : mresult StageFold :=
  match outcomes with
  | [] => Ok f
  | outcome :: outcomes =>
      let? f := fold_outcome stage f outcome in
      if is_some (sfo_terminal f) then Ok f else fold_outcomes stage f outcomes
  end.

Definition check_bounds (f : StageFold) (stage : Stage) : mresult unit :=
  if is_some (sfo_terminal f) then Ok tt
  else
    let added := (length (sfo_instructions f) + length (sfo_context f))%nat in
    match stage with
    | Stage_PrepareContext =>
        reject_if (SEMANTIC_ARRAY_MAX_ITEMS <? added)%nat
          (bounds_exceeded "aggregate PrepareContext instructions/context exceed the semantic array bound")
    | Stage_BeforeModel =>
        let compacted := match sfo_compaction f with
                         | Some r => (length (crs_replacement_messages r) + length (crs_derived_summaries r))%nat
                         | None => 0%nat
                         end in
        reject_if (MAX_MESSAGES <? added + compacted)%nat
          (bounds_exceeded "aggregate BeforeModel additions exceed the model request message bound")
    | _ => Ok tt
    end.

Definition StageFold_accumulate (stage : Stage) (outcomes : list StageOutcome) : mresult StageFold :=
  let? f := fold_outcomes stage StageFold_default outcomes in
  do? reject_if (is_some (sfo_replacement f) && is_some (sfo_compaction f))
        (unlandable "BeforeModel Replace and CompactContext cannot both claim the model projection") in
  do? check_bounds f stage in
  Ok f.

Definition StageFold_is_identity (f : StageFold) : bool :=
  (length (sfo_instructions f) =? 0)%nat && (length (sfo_context f) =? 0)%nat && is_none (sfo_retained_tools f)
  && is_none (sfo_replacement f) && is_none (sfo_compaction f) && is_none (sfo_terminal f).
