(* ===== verification/CompactionSound.v ===== *)
(** * What a validated compaction keeps

    Proofs about [Compaction]: an accepted compaction keeps a subsequence of the
    source messages, every protected one verbatim and the current user message
    last, never splits a tool call from its result, and stays within the hard
    token budget; the fold of a stage is the left-to-right reading of its
    outcomes up to the first terminal one. *)

From S2P Require Import Prelude Primitives Effects Records State Inputs Digests Decide Dispatch ModelPort ModelStream ContextPort ContextCall Middleware Compaction.

(** ** Increasing positions are a subsequence *)

Lemma increasing_sublist {A} (l : list A) k idxs xs :
  StronglySorted lt idxs -> Forall (fun i => (k <= i)%nat) idxs ->
  Forall2 (fun i x => l !! (i - k)%nat = Some x) idxs xs -> sublist xs l.
Proof.
  revert k idxs xs. induction l as [|a l IH]; intros k idxs xs Hs Hk Hf.
  { destruct Hf; [constructor|done]. }
  destruct Hf as [|i x idxs xs Hx Hf]; [apply sublist_nil_l|].
  apply StronglySorted_inv in Hs as [Hs Hi]. apply Forall_cons in Hk as [Hki Hk].
  assert (forall idxs xs, Forall (lt k) idxs -> Forall2 (fun i x => (a :: l) !! (i - k)%nat = Some x) idxs xs ->
            Forall2 (fun i x => l !! (i - S k)%nat = Some x) idxs xs) as Hshift.
  { intros is' xs' Hlt Hf'. induction Hf' as [|j y is' xs' Hy Hf' IHf]; [constructor|].
    apply Forall_cons in Hlt as [Hj Hlt]. constructor; [|by apply IHf].
    by replace (j - k)%nat with (S (j - S k)) in Hy by lia. }
  destruct (decide (i = k)) as [->|Hne].
  - rewrite Nat.sub_diag in Hx. injection Hx as <-. apply sublist_skip, (IH (S k) idxs); [done|done|by apply Hshift].
  - assert (Forall (lt k) idxs) as Hlt by (eapply Forall_impl; [apply Hi|]; simpl; lia).
    apply sublist_cons, (IH (S k) (i :: idxs)); [by constructor| |].
    + constructor; [lia|done].
    + apply Hshift; [constructor; [lia|done]|by constructor].
Qed.

Lemma StronglySorted_lookup_lt {A} (R : relation A) l i j x y :
  StronglySorted R l -> l !! i = Some x -> l !! j = Some y -> (i < j)%nat -> R x y.
Proof.
  intros Hs. revert i j. induction Hs as [|a l Hs IH Ha]; intros i j Hi Hj Hlt; [done|].
  destruct j as [|j]; [lia|]. simpl in Hj. destruct i as [|i]; simpl in Hi.
  - injection Hi as <-. rewrite list.Forall_forall in Ha. apply Ha. by eapply list_elem_of_lookup_2.
  - eapply IH; [done|done|lia].
Qed.

Section Sources.

Lemma source_by_message_spec entries id i e :
  source_by_message entries !! id = Some (i, e) ->
  entries !! i = Some e /\ msg_id (cse_message e) = id
  /\ forall j e', entries !! j = Some e' -> msg_id (cse_message e') = id -> (j <= i)%nat.
Proof.
  unfold source_by_message, enumerate.
  induction entries as [|a entries IH] using rev_ind; [simpl; by rewrite lookup_empty|].
  rewrite length_app, seq_app, zip_with_app by (by rewrite length_seq). rewrite foldl_app. simpl.
  rewrite lookup_insert_Some. intros [[<- [= <- <-]]|[Hne HH]].
  - split_and!; [by rewrite lookup_app_r, Nat.sub_diag by lia|done|].
    intros j e' Hj _. apply lookup_lt_Some in Hj. rewrite length_app in Hj. simpl in Hj. lia.
  - destruct (IH HH) as (Hi & Hid & Hmax). split_and!; [by apply lookup_app_l_Some|done|].
    intros j e' [[Hlt Hj]|[-> ->]]%lookup_snoc_Some He; [by eapply Hmax|done].
Qed.

(** What the loop over the replacement messages has seen. *)
Record retained (entries : list CompactionSourceEntry) (messages : list Message) (idxs : list nat) (st : RetainState)
    : Prop := {
  rt_sources : Forall2 (fun i m => exists e, source_by_message entries !! msg_id m = Some (i, e)) idxs messages;
  rt_increasing : StronglySorted lt idxs;
  rt_last : rts_last_source_index st = last idxs;
  rt_entries : Forall2 (fun i entry => exists e, entries !! i = Some e /\ cse_entry_id e = entry) idxs (rts_actual_retained st);
  rt_replacements : forall id m, rts_replacements st !! id = Some m -> m ∈ messages /\ msg_id m = id
}.

Lemma StronglySorted_snoc (l : list nat) (x : nat) :
  StronglySorted lt l -> (forall y, last l = Some y -> (y < x)%nat) -> StronglySorted lt (l ++ [x]).
Proof.
  intros Hs Hx. induction Hs as [|a l Hs IH Ha]; simpl; [repeat constructor|]. constructor.
  - apply IH. intros y Hy. apply Hx. rewrite last_cons, Hy. done.
  - apply Forall_app. split; [done|]. constructor; [|done].
    destruct (last l) as [y|] eqn:E.
    + specialize (Hx y). rewrite last_cons, E in Hx. specialize (Hx eq_refl).
      apply last_Some_elem_of in E. rewrite list.Forall_forall in Ha. specialize (Ha y E). lia.
    + apply Hx. by rewrite last_cons, E.
Qed.

Lemma retain_step_inv entries messages idxs st m st' :
  retained entries messages idxs st -> retain_step (source_by_message entries) st m = Ok st' ->
  exists i, retained entries (messages ++ [m]) (idxs ++ [i]) st'.
Proof.
  intros [Hs Hi Hl He Hr] HH. unfold retain_step in HH.
  destruct (source_by_message entries !! msg_id m) as [[i e]|] eqn:Esrc; [|discriminate HH].
  step HH. step HH. injection HH as <-. apply reject_if_Ok in E, E0. exists i.
  destruct (source_by_message_spec _ _ _ _ Esrc) as (Hei & Hid & _).
  split; cbn.
  - apply Forall2_app; [done|]. constructor; [eauto|constructor].
  - apply StronglySorted_snoc; [done|]. intros y Hy. rewrite Hl, Hy in E. simpl in E. apply Nat.leb_gt in E. done.
  - by rewrite last_snoc.
  - apply Forall2_app; [done|]. constructor; [eauto|constructor].
  - intros id m'. rewrite lookup_insert_Some. intros [[<- <-]|[_ HH]]; [set_solver|]. apply Hr in HH. set_solver.
Qed.

Lemma retain_loop entries messages st :
  rfold (retain_step (source_by_message entries)) (mkRetainState ∅ [] None) messages = Ok st ->
  exists idxs, retained entries messages idxs st.
Proof.
  assert (forall l seen idxs st0, retained entries seen idxs st0 ->
    rfold (retain_step (source_by_message entries)) st0 l = Ok st -> exists idxs', retained entries (seen ++ l) idxs' st) as Hl.
  { induction l as [|m l IH]; intros seen idxs st0 Hs HH; cbn [rfold] in HH.
    { injection HH as <-. rewrite app_nil_r. eauto. }
    destruct (retain_step _ st0 m) as [st1|] eqn:E; [|discriminate HH]. cbn [rbind] in HH.
    destruct (retain_step_inv _ _ _ _ _ _ Hs E) as [i Hs1]. destruct (IH _ _ _ Hs1 HH) as [idxs' HH'].
    exists idxs'. by rewrite <- (assoc_L (++)) in HH'. }
  apply (Hl messages [] []). split; cbn; [constructor|constructor|done|constructor|]. intros i m. by rewrite lookup_empty.
Qed.

Lemma retained_sublist entries messages idxs st :
  retained entries messages idxs st ->
  sublist (msg_id <$> messages) ((fun e => msg_id (cse_message e)) <$> entries)
  /\ sublist (rts_actual_retained st) (cse_entry_id <$> entries).
Proof.
  intros [Hs Hi Hl He Hr]. split; eapply (increasing_sublist _ 0 idxs); try done; try (apply Forall_true; lia).
  - apply Forall2_fmap_r. eapply Forall2_impl; [apply Hs|]. intros i m (e & Hsrc).
    destruct (source_by_message_spec _ _ _ _ Hsrc) as (Hei & Hid & _). rewrite Nat.sub_0_r, list_lookup_fmap, Hei. simpl. by rewrite Hid.
  - eapply Forall2_impl; [apply He|]. intros i entry (e & Hei & <-). by rewrite Nat.sub_0_r, list_lookup_fmap, Hei.
Qed.

(** A message kept for the last source entry is the last replacement. *)
Lemma retained_last entries messages idxs st e m :
  retained entries messages idxs st -> last entries = Some e -> m ∈ messages -> msg_id m = msg_id (cse_message e) ->
  last messages = Some m.
Proof.
  intros [Hs Hi _ _ _] Hl (k & Hk)%list_elem_of_lookup Hm.
  rewrite last_lookup in Hl. destruct (Forall2_lookup_r _ _ _ _ _ Hs Hk) as (i & Hik & e0 & Hsrc).
  destruct (source_by_message_spec _ _ _ _ Hsrc) as (He0 & _ & Hmax).
  specialize (Hmax _ _ Hl (eq_sym Hm)). rewrite last_lookup.
  destruct (decide (S k < length messages)%nat) as [Hlt|Hge].
  - exfalso. apply lookup_lt_is_Some in Hlt as [m' Hm'].
    destruct (Forall2_lookup_r _ _ _ _ _ Hs Hm') as (j & Hj & e' & Hsrc').
    destruct (source_by_message_spec _ _ _ _ Hsrc') as (He' & _ & _). apply lookup_lt_Some in He'.
    assert (i < j)%nat; [|lia]. eapply (StronglySorted_lookup_lt lt idxs k (S k)); [done|done|done|lia].
  - apply lookup_lt_Some in Hk as Hk'. by replace (pred (length messages)) with k by lia.
Qed.
End Sources.

(** ** Tool calls and their results *)

Definition block_call (block : ContentBlock) : option ToolCallId :=
  match block with ContentBlock_ToolCall call => Some (tc_tool_call_id call) | _ => None end.
Definition block_result (block : ContentBlock) : option ToolCallId :=
  match block with ContentBlock_ToolResult r => Some (tr_tool_call_id r) | _ => None end.

Definition blocks_of (messages : list Message) : list ContentBlock := messages ≫= msg_content.

(** [pairs] says of the blocks seen which calls they hold and which are answered. *)
Definition pairs_of (blocks : list ContentBlock) (pairs : gmap ToolCallId bool) : Prop :=
  forall call, pairs !! call = if bool_decide (call ∈ omap block_call blocks)
                               then Some (bool_decide (call ∈ omap block_result blocks)) else None.

Lemma pairs_of_skip blocks block pairs :
  pairs_of blocks pairs -> block_call block = None -> block_result block = None -> pairs_of (blocks ++ [block]) pairs.
Proof. intros Hp Hc Hr call. rewrite !omap_app. simpl. rewrite Hc, Hr, !app_nil_r. apply Hp. Qed.

Lemma tool_pair_block_spec blocks block pairs pairs' :
  pairs_of blocks pairs -> (forall c, c ∈ omap block_result blocks -> c ∈ omap block_call blocks) ->
  tool_pair_block pairs block = Ok pairs' ->
  pairs_of (blocks ++ [block]) pairs'
  /\ (forall c, c ∈ omap block_result (blocks ++ [block]) -> c ∈ omap block_call (blocks ++ [block])).
Proof.
  intros Hp Hrc HH. unfold tool_pair_block in HH.
  destruct block as [v|v|v|v|v|call|r|v];
    try (injection HH as <-; split; [by apply pairs_of_skip|rewrite !omap_app; simpl; rewrite !app_nil_r; done]).
  - step HH. injection HH as <-. apply reject_if_Ok, is_some_false in E. pose proof (Hp (tc_tool_call_id call)) as Hc.
    rewrite E in Hc. case_bool_decide as Hin; [done|]. rewrite !omap_app. simpl. rewrite app_nil_r. split.
    + intros c. rewrite omap_app, omap_app. simpl. rewrite app_nil_r. destruct (decide (c = tc_tool_call_id call)) as [->|Hne].
      * rewrite lookup_insert_eq, bool_decide_true by (apply elem_of_app; right; by apply list_elem_of_singleton).
        rewrite bool_decide_false; [done|]. naive_solver.
      * rewrite lookup_insert_ne, Hp by done.
        assert (c ∈ omap block_call blocks ++ [tc_tool_call_id call] <-> c ∈ omap block_call blocks) as He
          by (rewrite elem_of_app, list_elem_of_singleton; naive_solver).
        by rewrite (bool_decide_ext _ _ He).
    + intros c Hc'. apply elem_of_app. left. by apply Hrc.
  - step HH. injection HH as <-. apply reject_if_Ok, is_none_false in E as [b Hb]. pose proof (Hp (tr_tool_call_id r)) as Hc.
    rewrite Hb in Hc. case_bool_decide as Hin; [|done]. rewrite !omap_app. simpl. rewrite app_nil_r. split.
    + intros c. rewrite omap_app, omap_app. simpl. rewrite app_nil_r. destruct (decide (c = tr_tool_call_id r)) as [->|Hne].
      * rewrite lookup_insert_eq, (bool_decide_true _ Hin), bool_decide_true; [done|].
        apply elem_of_app. right. by apply list_elem_of_singleton.
      * rewrite lookup_insert_ne, Hp by done. destruct (bool_decide (c ∈ omap block_call blocks)); [|done]. f_equal. apply bool_decide_ext.
        rewrite elem_of_app, list_elem_of_singleton. naive_solver.
    + intros c [Hc'| ->%list_elem_of_singleton]%elem_of_app; [by apply Hrc|done].
Qed.

Lemma tool_pair_blocks_spec content blocks pairs pairs' :
  pairs_of blocks pairs -> (forall c, c ∈ omap block_result blocks -> c ∈ omap block_call blocks) ->
  rfold tool_pair_block pairs content = Ok pairs' ->
  pairs_of (blocks ++ content) pairs'
  /\ (forall c, c ∈ omap block_result (blocks ++ content) -> c ∈ omap block_call (blocks ++ content)).
Proof.
  revert blocks pairs. induction content as [|b content IH]; intros blocks pairs Hp Hrc HH; cbn [rfold] in HH.
  { injection HH as <-. by rewrite app_nil_r. }
  destruct (tool_pair_block pairs b) as [p1|] eqn:E; [|discriminate HH]. cbn [rbind] in HH.
  destruct (tool_pair_block_spec _ _ _ _ Hp Hrc E) as [Hp1 Hrc1].
  pose proof (IH _ _ Hp1 Hrc1 HH) as HH'. by rewrite <- (assoc_L (++)) in HH'.
Qed.

Lemma tool_pairs_spec messages pairs : tool_pairs messages = Ok pairs -> pairs_of (blocks_of messages) pairs.
Proof.
  unfold tool_pairs, blocks_of.
  assert (forall l blocks p0, pairs_of blocks p0 ->
    (forall c, c ∈ omap block_result blocks -> c ∈ omap block_call blocks) ->
    rfold tool_pair_message p0 l = Ok pairs -> pairs_of (blocks ++ (l ≫= msg_content)) pairs) as Hl.
  { induction l as [|m l IH]; intros blocks p0 Hp Hrc HH; cbn [rfold] in HH.
    { injection HH as <-. simpl. by rewrite app_nil_r. }
    destruct (tool_pair_message p0 m) as [p1|] eqn:E; [|discriminate HH]. cbn [rbind] in HH.
    unfold tool_pair_message in E. step E. destruct (tool_pair_blocks_spec _ _ _ _ Hp Hrc E) as [Hp1 Hrc1].
    pose proof (IH _ _ Hp1 Hrc1 HH) as HH'. rewrite bind_cons, (assoc_L (++)). done. }
  apply (Hl messages []); [|done]. intros c. by rewrite lookup_empty.
Qed.

Lemma pairs_kept_spec source replacement call :
  pairs_kept source replacement = true -> source !! call = Some true -> replacement !! call <> Some false.
Proof.
  unfold pairs_kept. rewrite forallb_forall. intros HH Hs Hr.
  specialize (HH (call, true)). rewrite <- list_elem_of_In, elem_of_map_to_list in HH. specialize (HH Hs).
  simpl in HH. rewrite Hr, eqb_refl in HH. done.
Qed.

(** ** The whole check *)

Section Kept.
Context `{Hasher, ModelJson, CompactionJson}.

Lemma middleware_bytes_Ok o b : middleware_bytes o = Ok b -> o = Some b.
Proof. apply ok_or_Ok. Qed.

Lemma check_protected_spec replacements l u :
  rfold (check_protected replacements) tt l = Ok u ->
  forall e, e ∈ l -> exists m bytes, replacements !! msg_id (cse_message e) = Some m
    /\ jcs_message m = Some bytes /\ jcs_message (cse_message e) = Some bytes.
Proof.
  induction l as [|e0 l IH]; intros HH e He; [by apply not_elem_of_nil in He|]. cbn [rfold] in HH.
  destruct (check_protected replacements tt e0) as [[]|] eqn:E; [|discriminate HH]. cbn [rbind] in HH.
  apply elem_of_cons in He as [->|He]; [|by apply IH]. unfold check_protected in E.
  destruct (replacements !! _) as [m|]; [|discriminate E]. step E. step E. apply reject_if_Ok in E.
  apply middleware_bytes_Ok in E0, E1. crush_ok. subst. eauto.
Qed.

Lemma max_sensitivity_le entries e :
  e ∈ entries -> sensitivity_rank (cse_sensitivity e) <= max_sensitivity entries.
Proof.
  induction entries as [|a entries IH]; intros He; [by apply not_elem_of_nil in He|]. simpl.
  apply elem_of_cons in He as [->|He]; [lia|]. specialize (IH He). lia.
Qed.

(** What a validated compaction of [entries] to [messages] keeps. *)
Record compaction_keeps (input : BeforeModelInput) (result : CompactionResult) : Prop := {
  ck_subsequence : sublist (msg_id <$> crs_replacement_messages result)
                     ((fun e => msg_id (cse_message e)) <$> bmi_source_entries input);
  ck_protected : forall e, e ∈ bmi_source_entries input -> cse_protected e = true ->
    exists m bytes, m ∈ crs_replacement_messages result /\ msg_id m = msg_id (cse_message e)
      /\ jcs_message m = Some bytes /\ jcs_message (cse_message e) = Some bytes;
  ck_current_user : exists e m bytes, last (bmi_source_entries input) = Some e
    /\ msg_role (cse_message e) = MessageRole_User /\ last (crs_replacement_messages result) = Some m
    /\ jcs_message m = Some bytes /\ jcs_message (cse_message e) = Some bytes;
  ck_pairs : forall call,
    call ∈ omap block_call (blocks_of (cse_message <$> bmi_source_entries input)) ->
    call ∈ omap block_result (blocks_of (cse_message <$> bmi_source_entries input)) ->
    call ∈ omap block_call (blocks_of (crs_replacement_messages result)) ->
    call ∈ omap block_result (blocks_of (crs_replacement_messages result));
  ck_budget : cev_estimated_tokens_after (crs_evidence result) <= bmi_hard_input_tokens input;
  ck_summaries : forall s e, s ∈ crs_derived_summaries result -> e ∈ bmi_source_entries input ->
    cxi_kind s = ContextItemKind_DerivedSummary /\ cxi_authority s = ContextAuthority_Untrusted
    /\ sensitivity_rank (cse_sensitivity e) <= sensitivity_rank (cxi_sensitivity s)
}.

Lemma validate_compaction_keeps d input result :
  validate_compaction_result d input result = Ok tt -> compaction_keeps input result.
Proof.
  unfold validate_compaction_result. intros HH. destruct (mwd_role d) as [|sid sver|]; [done| |done].
  destruct (validate_compaction_evidence _ _ _ _ _) as [[]|] eqn:Eev; [|discriminate HH]. cbn [rbind] in HH.
  destruct (reject_if (negb (trailing_user_protected _)) _) as [[]|] eqn:Etr; [|discriminate HH]. cbn [rbind] in HH.
  destruct (rfold (retain_step _) _ _) as [st|] eqn:Ert; [|discriminate HH]. cbn [rbind] in HH.
  destruct (reject_if (_ <>?? _) _) as [[]|] eqn:Eact; [|discriminate HH]. cbn [rbind] in HH.
  destruct (rfold (check_protected _) _ _) as [u|] eqn:Epr; [|discriminate HH]. cbn [rbind] in HH.
  destruct (tool_pairs (cse_message <$> _)) as [sp|] eqn:Esp; [|discriminate HH]. cbn [rbind] in HH.
  destruct (tool_pairs (crs_replacement_messages _)) as [rp|] eqn:Erp; [|discriminate HH]. cbn [rbind] in HH.
  destruct (reject_if (negb (pairs_kept _ _)) _) as [[]|] eqn:Epk; [|discriminate HH]. cbn [rbind] in HH.
  destruct (reject_if (existsb _ _) _) as [[]|] eqn:Esm; [|discriminate HH]. cbn [rbind] in HH. clear HH.
  apply reject_if_Ok in Etr, Eact, Epk, Esm. apply negb_false_iff in Etr, Epk.
  apply retain_loop in Ert as [idxs Hret].
  assert (forall e, e ∈ bmi_source_entries input -> cse_protected e = true ->
    exists m bytes, m ∈ crs_replacement_messages result /\ msg_id m = msg_id (cse_message e)
      /\ jcs_message m = Some bytes /\ jcs_message (cse_message e) = Some bytes) as Hprot.
  { intros e He Hp. destruct (check_protected_spec _ _ _ Epr e) as (m & bytes & Hm & Hb & Hb').
    - by apply list_elem_of_filter.
    - destruct (rt_replacements _ _ _ _ Hret _ _ Hm) as [? ?]. eauto 10. }
  split.
  - by eapply retained_sublist.
  - done.
  - unfold trailing_user_protected in Etr. destruct (last (bmi_source_entries input)) as [e|] eqn:El; [|done]. simpl in Etr.
    apply andb_true_iff in Etr as [Hp Hu%eqb_eq].
    destruct (Hprot e) as (m & bytes & Hm & Hid & Hb & Hb'); [by apply last_Some_elem_of|done|].
    exists e, m, bytes. split_and!; try done. by eapply retained_last.
  - intros call Hc Hr Hc'. apply tool_pairs_spec in Esp, Erp.
    specialize (Esp call). specialize (Erp call).
    rewrite (bool_decide_true _ Hc), (bool_decide_true _ Hr) in Esp. rewrite (bool_decide_true _ Hc') in Erp.
    pose proof (pairs_kept_spec _ _ _ Epk Esp) as Hk. rewrite Erp in Hk. case_bool_decide; [done|]. congruence.
  - unfold validate_compaction_evidence in Eev. steps Eev. apply reject_if_Ok in Eev.
    repeat apply orb_false_iff in Eev as [Eev ?]. lia.
  - intros s e Hs He. rewrite <- not_true_iff_false, existsb_exists in Esm.
    destruct (decide (cxi_kind s = ContextItemKind_DerivedSummary /\ cxi_authority s = ContextAuthority_Untrusted
      /\ max_sensitivity (bmi_source_entries input) <= sensitivity_rank (cxi_sensitivity s))) as [(? & ? & ?)|Hno].
    + split_and!; [done|done|]. pose proof (max_sensitivity_le _ _ He). lia.
    + exfalso. apply Esm. exists s. rewrite <- list_elem_of_In. split; [done|].
      destruct (eqb_reflect (cxi_kind s) ContextItemKind_DerivedSummary); simpl; [|done].
      destruct (eqb_reflect (cxi_authority s) ContextAuthority_Untrusted); simpl; [|done].
      apply Z.ltb_lt, Z.nle_gt. intros Hle. by apply Hno.
Qed.
End Kept.

(** ** The fold of a stage *)

Definition is_terminal_outcome (outcome : StageOutcome) : bool :=
  match outcome with StageOutcome_Fail _ | StageOutcome_Retry _ => true | _ => false end.

Definition added_instructions (outcomes : list StageOutcome) : list ContextItem :=
  outcomes ≫= fun o => match o with StageOutcome_AddInstructions items => items | _ => [] end.
Definition added_context (outcomes : list StageOutcome) : list ContextItem :=
  outcomes ≫= fun o => match o with StageOutcome_AddContext items => items | _ => [] end.
Definition tool_filters (outcomes : list StageOutcome) : list (gset ToolId) :=
  omap (fun o => match o with StageOutcome_FilterTools ids => Some (list_to_set ids) | _ => None end) outcomes.
Definition replacements_of (outcomes : list StageOutcome) : list RawJson :=
  omap (fun o => match o with StageOutcome_Replace raw => Some raw | _ => None end) outcomes.

(** The tools every filter lets through. *)
Definition tools_through (filters : list (gset ToolId)) (tools : option (gset ToolId)) : Prop :=
  match tools with
  | None => filters = []
  | Some kept => filters <> [] /\ forall t, t ∈ kept <-> Forall (fun f => t ∈ f) filters
  end.

Record fold_of (outcomes : list StageOutcome) (f : StageFold) : Prop := {
  fo_instructions : sfo_instructions f = added_instructions outcomes;
  fo_context : sfo_context f = added_context outcomes;
  fo_tools : tools_through (tool_filters outcomes) (sfo_retained_tools f);
  fo_replacement : sfo_replacement f = last (replacements_of outcomes)
}.

Lemma tools_through_snoc filters tools (incoming : gset ToolId) :
  tools_through filters tools ->
  tools_through (filters ++ [incoming])
    (Some match tools with Some existing => existing ∩ incoming | None => incoming end).
Proof.
  destruct tools as [kept|]; simpl; intros Ht.
  - destruct Ht as [_ Ht]. split; [by destruct filters|]. intros t. rewrite elem_of_intersection, Ht, Forall_app, Forall_singleton. done.
  - subst. split; [done|]. intros t. simpl. rewrite Forall_singleton. done.
Qed.

Lemma fold_outcome_spec stage outcomes f outcome f' :
  fold_of outcomes f -> sfo_terminal f = None -> fold_outcome stage f outcome = Ok f' ->
  fold_of (outcomes ++ [outcome]) f' /\ is_some (sfo_terminal f') = is_terminal_outcome outcome.
Proof.
  destruct f as [ins ctx tools repl comp term]. intros [Hi Hc Ht Hr] Hterm HH. simpl in *. subst term.
  unfold added_instructions, added_context, tool_filters, replacements_of in *.
  destruct outcome; simpl in HH; try discriminate HH; try (case_match; [|discriminate HH]); injection HH as <-;
    (split; [|done]); split; cbn [sfo_instructions sfo_context sfo_retained_tools sfo_replacement];
    unfold added_instructions, added_context, tool_filters, replacements_of;
    rewrite ?bind_app, ?omap_app; cbn; rewrite ?app_nil_r, ?last_snoc; subst; try done.
  by apply tools_through_snoc.
Qed.

Lemma fold_outcomes_spec stage outcomes seen f f' :
  fold_of seen f -> sfo_terminal f = None -> fold_outcomes stage f outcomes = Ok f' ->
  exists run rest, outcomes = run ++ rest /\ fold_of (seen ++ run) f'
    /\ match sfo_terminal f' with
       | None => rest = [] /\ Forall (fun o => is_terminal_outcome o = false) run
       | Some _ => exists pre o, run = pre ++ [o] /\ is_terminal_outcome o = true
                     /\ Forall (fun o => is_terminal_outcome o = false) pre
       end.
Proof.
  revert seen f. induction outcomes as [|o outcomes IH]; intros seen f Hf Ht HH; cbn [fold_outcomes] in HH.
  { injection HH as <-. exists [], []. rewrite !app_nil_r, Ht. split_and!; [done|done|done|constructor]. }
  destruct (fold_outcome stage f o) as [f1|] eqn:E; [|discriminate HH]. cbn [rbind] in HH.
  destruct (fold_outcome_spec _ _ _ _ _ Hf Ht E) as [Hf1 Ht1].
  destruct (is_some (sfo_terminal f1)) eqn:Es.
  - injection HH as <-. exists [o], outcomes. split_and!; [done|done|].
    destruct (sfo_terminal f1); [|done]. exists [], o. split_and!; [done|done|constructor].
  - apply is_some_false in Es. destruct (IH _ _ Hf1 Es HH) as (run & rest & -> & Hfo & Hm).
    exists (o :: run), rest. split_and!; [done|by rewrite <- (assoc_L (++)) in Hfo|].
    destruct (sfo_terminal f').
    + destruct Hm as (pre & o' & -> & Ho' & Hpre). exists (o :: pre), o'. split_and!; [done|done|by constructor].
    + destruct Hm as [-> Hrun]. split; [done|by constructor].
Qed.
