(* ===== verification/EventHub.v ===== *)
(** * The per-run event hub

    Models [exec/event_hub] of [finstack-ai-runtime], the native variant:
    [mod.rs] (configuration, filters, batches, statistics, the source order
    check), [subscription.rs] (the shared status of a subscription),
    [batching.rs] (the task of a subscription), [dispatch.rs] (the fan-out),
    [handle.rs] and [task.rs] (the hub and its commands).

    A hub, one task per subscription and one consumer per subscription run
    concurrently.  They share the status of the subscription and two bounded
    channels: the inbox, from the hub to the task, and the batch queue, from the
    task to the consumer.  The model is a labelled transition system whose steps
    are the pieces of code between two awaits; an await on a bounded send is a
    state of its own ([PcSend] for a task, [HubWait] for the hub), which ends
    when the channel takes the message, when its receiver is gone, or when the
    timer fires.  Reads and updates of the status next to a completed send
    commute with what the other parties do to it, so they belong to the same
    step.  Timers are not tied to a clock: a deadline that is set, and a wait
    that has started, may end at any later step.

    The channels are those of an external crate: class [Mpsc] has the operations
    the hub uses and their documented behaviour.  The size of an event as JSON
    is a parameter, [json_byte_len]. *)

From S2P Require Import Prelude Primitives Effects Records State Inputs Policy Events Compaction.

(** ** Configuration ([mod.rs]) *)

Inductive EventSubscriptionError : Type :=
| EventSubscriptionError_InvalidConfiguration
| EventSubscriptionError_CapacityExhausted
| EventSubscriptionError_HubClosed.

Record EventHubConfig : Type := mkEventHubConfig {
  ehc_source_capacity : nat;
  ehc_max_subscribers : nat
}.

Definition EventHubConfig_validate (c : EventHubConfig) : result EventHubConfig EventSubscriptionError :=
  do? reject_if ((ehc_source_capacity c =? 0)%nat || (ehc_max_subscribers c =? 0)%nat)
        EventSubscriptionError_InvalidConfiguration in
  Ok c.

(** Durations are in nanoseconds. *)
Record EventBatchConfig : Type := mkEventBatchConfig {
  ebc_flush_count : nat;
  ebc_flush_bytes : Z;
  ebc_flush_interval : Z
}.

Record EventFilter : Type := mkEventFilter {
  ef_include_durable : bool;
  ef_include_transient : bool;
  ef_kinds : list RunEventKind;
  ef_max_sensitivity : Sensitivity
}.

Definition EventFilter_validate (f : EventFilter) : result unit EventSubscriptionError :=
  do? reject_if (negb (ef_include_durable f) && negb (ef_include_transient f))
        EventSubscriptionError_InvalidConfiguration in
  reject_if (existsb (fun '(index, kind) => existsb (fun k => k =?? kind) (take index (ef_kinds f)))
               (enumerate (ef_kinds f)))
    EventSubscriptionError_InvalidConfiguration.

(** [RunEvent::class]. *)
Definition run_event_class (e : RunEvent) : RunEventClass := event_class (ev_kind e).

Definition is_durable (e : RunEvent) : bool := run_event_class e =?? RunEventClass_DurableDerived.

Definition EventFilter_matches (f : EventFilter) (e : RunEvent) : bool :=
  let class_allowed :=
    match run_event_class e with
    | RunEventClass_DurableDerived => ef_include_durable f
    | RunEventClass_Transient => ef_include_transient f
    end in
  class_allowed
  && ((length (ef_kinds f) =? 0)%nat || existsb (fun k => k =?? ev_kind e) (ef_kinds f))
  && (sensitivity_rank (ev_sensitivity e) <=? sensitivity_rank (ef_max_sensitivity f)).

Inductive ProgressCoalescing : Type :=
| ProgressCoalescing_Disabled
| ProgressCoalescing_Enabled.
#[global] Instance ProgressCoalescing_eq_dec : EqDecision ProgressCoalescing.
Proof. solve_decision. Defined.

Inductive SubscriberAudience : Type :=
| SubscriberAudience_Interactive
| SubscriberAudience_Observer.

Inductive EventLagPolicy : Type :=
| EventLagPolicy_BlockBounded (timeout : Z)
| EventLagPolicy_DropProgress (durable_timeout : Z)
| EventLagPolicy_Disconnect.

Record EventSubscriptionConfig : Type := mkEventSubscriptionConfig {
  esc_queue_capacity : nat;
  esc_filter : EventFilter;
  esc_batching : EventBatchConfig;
  esc_progress_coalescing : ProgressCoalescing;
  esc_lag_policy : EventLagPolicy
}.

Definition EventSubscriptionConfig_validate (c : EventSubscriptionConfig) : result unit EventSubscriptionError :=
  do? reject_if ((esc_queue_capacity c =? 0)%nat
                 || (ebc_flush_count (esc_batching c) =? 0)%nat
                 || (ebc_flush_bytes (esc_batching c) =? 0)
                 || (ebc_flush_interval (esc_batching c) =? 0))
        EventSubscriptionError_InvalidConfiguration in
  do? match esc_lag_policy c with
      | EventLagPolicy_BlockBounded timeout =>
          reject_if (timeout =? 0) EventSubscriptionError_InvalidConfiguration
      | EventLagPolicy_DropProgress durable_timeout =>
          reject_if (durable_timeout =? 0) EventSubscriptionError_InvalidConfiguration
      | EventLagPolicy_Disconnect => Ok tt
      end in
  EventFilter_validate (esc_filter c).

Record EventBatch : Type := mkEventBatch {
  eb_events : list RunEvent;
  eb_first_sequence : Z;
  eb_last_sequence : Z;
  eb_dropped_progress : Z
}.

Definition EventBatch_new (events : list RunEvent) (dropped_progress : Z) : option EventBatch :=
  match head events, last events with
  | Some e, Some e' =>
      Some (mkEventBatch events (ev_transient_sequence e) (ev_transient_sequence e') dropped_progress)
  | _, _ => None
  end.

Record EventDeliveryStats : Type := mkEventDeliveryStats {
  eds_delivered_batches : Z;
  eds_delivered_events : Z;
  eds_dropped_progress : Z;
  eds_last_delivered_sequence : option Z
}.

Inductive EventSubscriptionCloseReason : Type :=
| CloseReason_HubClosed
| CloseReason_SubscriberClosed
| CloseReason_ReceiverDropped
| CloseReason_Lagged
| CloseReason_MissedDurable.
#[global] Instance EventSubscriptionCloseReason_eq_dec : EqDecision EventSubscriptionCloseReason.
Proof. solve_decision. Defined.

(** [EventSubscriptionStatus] with the drops that no batch has reported yet. *)
Record SubscriptionState : Type := mkSubscriptionState {
  sst_close_reason : option EventSubscriptionCloseReason;
  sst_stats : EventDeliveryStats;
  sst_unreported_dropped : Z
}.

Definition SubscriptionState_default : SubscriptionState :=
  mkSubscriptionState None (mkEventDeliveryStats 0 0 0 None) 0.

(** ** The order of the source *)

Definition event_sequence_mismatch : string := "event_sequence_mismatch".
Definition event_sequence_exhausted : string := "event_sequence_exhausted".
Definition event_hub_closed : string := "event_hub_closed".

Definition expect_sequence (expected sequence : Z) : result Z string :=
  do? reject_if (negb (sequence =? expected)) event_sequence_mismatch in
  ok_or (u64_checked_add expected 1) event_sequence_exhausted.

Definition validate_event_sequences (sequences : list Z) (next_sequence : option Z) : result (option Z) string :=
  match sequences with
  | [] => Ok next_sequence
  | first :: _ =>
      let? expected := rfold expect_sequence (default first next_sequence) sequences in
      Ok (Some expected)
  end.

(** ** The status of a subscription ([subscription.rs]) *)

Record SizedEvent : Type := mkSizedEvent {
  se_event : RunEvent;
  se_bytes : Z
}.

(** [usize::saturating_add] of a 64-bit target. *)
Definition usize_saturating_add (a b : Z) : Z := Z.min u64_max (a + b).

Definition record_delivery (count : nat) (last_sequence : option Z) (v : SubscriptionState) : SubscriptionState :=
  let stats := sst_stats v in
  mkSubscriptionState (sst_close_reason v)
    (mkEventDeliveryStats (u64_saturating_add (eds_delivered_batches stats) 1)
       (u64_saturating_add (eds_delivered_events stats) (u64_of_usize count))
       (eds_dropped_progress stats) last_sequence)
    (sst_unreported_dropped v).

Definition record_dropped_progress (count : nat) (v : SubscriptionState) : SubscriptionState :=
  let stats := sst_stats v in
  let dropped := u64_of_usize count in
  mkSubscriptionState (sst_close_reason v)
    (mkEventDeliveryStats (eds_delivered_batches stats) (eds_delivered_events stats)
       (u64_saturating_add (eds_dropped_progress stats) dropped) (eds_last_delivered_sequence stats))
    (u64_saturating_add (sst_unreported_dropped v) dropped).

Definition clear_reported_dropped (reported : Z) (v : SubscriptionState) : SubscriptionState :=
  mkSubscriptionState (sst_close_reason v) (sst_stats v)
    (u64_saturating_sub (sst_unreported_dropped v) reported).

Definition close_status (reason : EventSubscriptionCloseReason) (v : SubscriptionState) : SubscriptionState :=
  if is_none (sst_close_reason v)
  then mkSubscriptionState (Some reason) (sst_stats v) (sst_unreported_dropped v)
  else v.

Definition is_terminal_event (kind : RunEventKind) : bool :=
  match kind with
  | RunEventKind_RunCompleted | RunEventKind_RunFailed | RunEventKind_RunCancelled => true
  | _ => false
  end.

(** ** Bounded channels

    [queued] are the messages sent and not yet received.  [try_send] appends a
    message exactly when the receiver is there and fewer messages than the
    capacity wait; [recv] takes the oldest.  A closed receiver still hands out
    what is queued.  A pending [send] ends like a [try_send] that finds room, or
    finds the receiver gone. *)

Inductive TrySendError : Type :=
| TrySendError_Full
| TrySendError_Closed.

Class Mpsc (C : Type -> Type) : Type := {
  channel : forall {A}, nat -> C A;
  try_send : forall {A}, A -> C A -> result (C A) TrySendError;
  recv : forall {A}, C A -> option (A * C A);
  close_receiver : forall {A}, C A -> C A;
  drop_sender : forall {A}, C A -> C A;
  is_closed : forall {A}, C A -> bool;
  senders_gone : forall {A}, C A -> bool;
  queued : forall {A}, C A -> list A;
  capacity : forall {A}, C A -> nat
}.

Class MpscLaws (C : Type -> Type) `{!Mpsc C} : Prop := {
  channel_new A n :
    queued (channel n : C A) = [] /\ capacity (channel n : C A) = n /\ is_closed (channel n : C A) = false;
  try_send_Ok A a (c c' : C A) :
    try_send a c = Ok c' ->
    queued c' = queued c ++ [a] /\ (length (queued c) < capacity c)%nat
    /\ capacity c' = capacity c /\ is_closed c' = is_closed c;
  recv_Some A a (c c' : C A) :
    recv c = Some (a, c') ->
    queued c = a :: queued c' /\ capacity c' = capacity c /\ is_closed c' = is_closed c;
  close_receiver_queued A (c : C A) :
    queued (close_receiver c) = queued c /\ capacity (close_receiver c) = capacity c;
  drop_sender_queued A (c : C A) :
    queued (drop_sender c) = queued c /\ capacity (drop_sender c) = capacity c
    /\ is_closed (drop_sender c) = is_closed c
}.

(** ** The task of a subscription ([batching.rs]) *)

(** What [flush_pending] holds while it sends a batch. *)
Record Flight : Type := mkFlight {
  fl_batch : EventBatch;
  fl_durable : bool;
  fl_count : nat;
  fl_last_sequence : option Z;
  fl_dropped : Z
}.

(** The caller [flush_pending] returns to: the two calls of the loop of
    [append_and_maybe_flush], the deadline of [run_subscriber], and its end. *)
Inductive Cont : Type :=
| KPush (item : SizedEvent) (rest : list SizedEvent)
| KAppend (rest : list SizedEvent)
| KLoop
| KFinish.

Inductive TaskPc : Type :=
| PcLoop
| PcAppend (rest : list SizedEvent)
| PcPush (item : SizedEvent) (rest : list SizedEvent)
| PcSend (flight : Flight) (k : Cont)
| PcDone.

Record SubTask : Type := mkSubTask {
  st_pending : list SizedEvent;
  st_pending_bytes : Z;
  st_deadline : bool;
  st_pc : TaskPc
}.

(** A subscription: what the hub keeps of it ([SubscriberSink]), what the task
    keeps ([run_subscriber]), what the consumer keeps ([EventSubscription]) and
    what they share.  [sub_sender] says whether the sink still has its sender.
    The last three fields record the past and no code reads them: the batches
    the consumer took, the events the hub selected for the subscription, and how
    many events were published before it existed. *)
Record Sub {C : Type -> Type} : Type := mkSub {
  sub_audience : SubscriberAudience;
  sub_config : EventSubscriptionConfig;
  sub_status : SubscriptionState;
  sub_inbox : C (list SizedEvent);
  sub_sender : bool;
  sub_out : C EventBatch;
  sub_task : SubTask;
  sub_received : list EventBatch;
  sub_offered : list SizedEvent;
  sub_since : nat
}.
Arguments Sub C : clear implicits.
Arguments mkSub {C}.

Section Subscription.
Context {C : Type -> Type} `{!Mpsc C}.
Implicit Types s : Sub C.

Definition on_status (f : SubscriptionState -> SubscriptionState) (s : Sub C) : Sub C :=
  mkSub (sub_audience s) (sub_config s) (f (sub_status s)) (sub_inbox s) (sub_sender s) (sub_out s)
    (sub_task s) (sub_received s) (sub_offered s) (sub_since s).

Definition set_inbox (c : C (list SizedEvent)) (s : Sub C) : Sub C :=
  mkSub (sub_audience s) (sub_config s) (sub_status s) c (sub_sender s) (sub_out s)
    (sub_task s) (sub_received s) (sub_offered s) (sub_since s).

Definition set_out (c : C EventBatch) (s : Sub C) : Sub C :=
  mkSub (sub_audience s) (sub_config s) (sub_status s) (sub_inbox s) (sub_sender s) c
    (sub_task s) (sub_received s) (sub_offered s) (sub_since s).

Definition set_task (t : SubTask) (s : Sub C) : Sub C :=
  mkSub (sub_audience s) (sub_config s) (sub_status s) (sub_inbox s) (sub_sender s) (sub_out s)
    t (sub_received s) (sub_offered s) (sub_since s).

Definition set_pc (pc : TaskPc) (s : Sub C) : Sub C :=
  let t := sub_task s in
  set_task (mkSubTask (st_pending t) (st_pending_bytes t) (st_deadline t) pc) s.

Definition received (batch : EventBatch) (s : Sub C) : Sub C :=
  mkSub (sub_audience s) (sub_config s) (sub_status s) (sub_inbox s) (sub_sender s) (sub_out s)
    (sub_task s) (sub_received s ++ [batch]) (sub_offered s) (sub_since s).

Definition selected_for (events : list SizedEvent) (s : Sub C) : Sub C :=
  mkSub (sub_audience s) (sub_config s) (sub_status s) (sub_inbox s) (sub_sender s) (sub_out s)
    (sub_task s) (sub_received s) (sub_offered s ++ events) (sub_since s).

(** [subscriber.sender.take()], or the drop of the sink. *)
Definition take_sender (s : Sub C) : Sub C :=
  mkSub (sub_audience s) (sub_config s) (sub_status s)
    (if sub_sender s then drop_sender (sub_inbox s) else sub_inbox s) false (sub_out s)
    (sub_task s) (sub_received s) (sub_offered s) (sub_since s).

(** [run_subscriber] returns: its receiver and its sender are dropped. *)
Definition task_return (s : Sub C) : Sub C :=
  set_pc PcDone (set_out (drop_sender (sub_out s)) (set_inbox (close_receiver (sub_inbox s)) s)).

(** [flush_pending] returned [true]. *)
Definition resume (k : Cont) (s : Sub C) : Sub C :=
  match k with
  | KPush item rest => set_pc (PcPush item rest) s
  | KAppend rest => set_pc (PcAppend rest) s
  | KLoop => set_pc PcLoop s
  | KFinish => task_return (on_status (close_status CloseReason_HubClosed) s)
  end.

(** [flush_pending] closed the status and returned [false]. *)
Definition fail_flush (reason : EventSubscriptionCloseReason) (k : Cont) (s : Sub C) : Sub C :=
  let s := on_status (close_status reason) s in
  match k with
  | KFinish => task_return (on_status (close_status CloseReason_HubClosed) s)
  | _ => task_return s
  end.

Definition delivered (f : Flight) (k : Cont) (s : Sub C) : Sub C :=
  resume k (on_status (fun v => clear_reported_dropped (fl_dropped f)
                                  (record_delivery (fl_count f) (fl_last_sequence f) v)) s).

Definition lag_reason (durable : bool) : EventSubscriptionCloseReason :=
  if durable then CloseReason_MissedDurable else CloseReason_Lagged.

Definition flush_pending (k : Cont) (s : Sub C) : Sub C :=
  let t := sub_task s in
  let events := map se_event (st_pending t) in
  let dropped := sst_unreported_dropped (sub_status s) in
  let count := length events in
  let s := set_task (mkSubTask [] (if (count =? 0)%nat then st_pending_bytes t else 0) false (st_pc t)) s in
  match EventBatch_new events dropped with
  | None => resume k s
  | Some batch =>
      let durable := existsb is_durable events in
      let f := mkFlight batch durable count (ev_transient_sequence <$> last events) dropped in
      match esc_lag_policy (sub_config s) with
      | EventLagPolicy_BlockBounded _ => set_pc (PcSend f k) s
      | EventLagPolicy_DropProgress _ =>
          if durable then set_pc (PcSend f k) s
          else
            match try_send batch (sub_out s) with
            | Ok c => delivered f k (set_out c s)
            | Err TrySendError_Full => resume k (on_status (record_dropped_progress count) s)
            | Err TrySendError_Closed => fail_flush CloseReason_ReceiverDropped k s
            end
      | EventLagPolicy_Disconnect =>
          match try_send batch (sub_out s) with
          | Ok c => delivered f k (set_out c s)
          | Err TrySendError_Full => fail_flush (lag_reason durable) k s
          | Err TrySendError_Closed => fail_flush CloseReason_ReceiverDropped k s
          end
      end
  end.

(** The first half of an iteration of [append_and_maybe_flush]. *)
Definition append_item (item : SizedEvent) (rest : list SizedEvent) (s : Sub C) : Sub C :=
  let oversized := ebc_flush_bytes (esc_batching (sub_config s)) <? se_bytes item in
  if (is_durable (se_event item) || oversized) && negb (length (st_pending (sub_task s)) =? 0)%nat
  then flush_pending (KPush item rest) s
  else set_pc (PcPush item rest) s.

(** The second half: [pending.push(item)] and the flush it may call for. *)
Definition push_event (item : SizedEvent) (rest : list SizedEvent) (s : Sub C) : Sub C :=
  let t := sub_task s in
  let config := sub_config s in
  let durable := is_durable (se_event item) in
  let oversized := ebc_flush_bytes (esc_batching config) <? se_bytes item in
  let deadline := if (length (st_pending t) =? 0)%nat then true else st_deadline t in
  let pending_bytes := usize_saturating_add (st_pending_bytes t) (se_bytes item) in
  let terminal := is_terminal_event (ev_kind (se_event item)) in
  let pending := st_pending t ++ [item] in
  let immediate_progress := (esc_progress_coalescing config =?? ProgressCoalescing_Disabled) && negb durable in
  let should_flush :=
    immediate_progress || durable || oversized || terminal
    || (ebc_flush_count (esc_batching config) <=? length pending)%nat
    || (ebc_flush_bytes (esc_batching config) <=? pending_bytes) in
  let s := set_task (mkSubTask pending pending_bytes deadline (st_pc t)) s in
  if should_flush then flush_pending (KAppend rest) s else set_pc (PcAppend rest) s.

Inductive TaskLabel : Type :=
| T_run
| T_recv
| T_timer
| T_end
| T_sent
| T_refused
| T_timeout.

(** [run_subscriber], one piece at a time. *)
Definition task_step (l : TaskLabel) (s : Sub C) : option (Sub C) :=
  let t := sub_task s in
  let idle := (length (st_pending t) =? 0)%nat in
  match st_pc t, l with
  | PcLoop, T_run =>
      if idle || st_deadline t then None
      else Some (task_return (on_status (close_status CloseReason_ReceiverDropped) s))
  | PcLoop, T_recv =>
      if idle || st_deadline t then
        match recv (sub_inbox s) with
        | Some (events, c) => Some (set_pc (PcAppend events) (set_inbox c s))
        | None => None
        end
      else None
  | PcLoop, T_timer => if negb idle && st_deadline t then Some (flush_pending KLoop s) else None
  | PcLoop, T_end =>
      if idle || st_deadline t then
        match recv (sub_inbox s) with
        | Some _ => None
        | None => if senders_gone (sub_inbox s) then Some (flush_pending KFinish s) else None
        end
      else None
  | PcAppend [], T_run => Some (set_pc PcLoop s)
  | PcAppend (item :: rest), T_run => Some (append_item item rest s)
  | PcPush item rest, T_run => Some (push_event item rest s)
  | PcSend f k, T_sent =>
      match try_send (fl_batch f) (sub_out s) with
      | Ok c => Some (delivered f k (set_out c s))
      | Err _ => None
      end
  | PcSend f k, T_refused =>
      match try_send (fl_batch f) (sub_out s) with
      | Err TrySendError_Closed => Some (fail_flush CloseReason_ReceiverDropped k s)
      | _ => None
      end
  | PcSend f k, T_timeout => Some (fail_flush (lag_reason (fl_durable f)) k s)
  | _, _ => None
  end.

(** ** The consumer ([EventSubscription]) *)

Inductive ConsumerLabel : Type :=
| C_next
| C_close
| C_drop.

Definition consumer_step (l : ConsumerLabel) (s : Sub C) : option (Sub C) :=
  match l with
  | C_next =>
      match recv (sub_out s) with
      | Some (batch, c) => Some (received batch (set_out c s))
      | None => None
      end
  | C_close =>
      Some (set_out (close_receiver (sub_out s)) (on_status (close_status CloseReason_SubscriberClosed) s))
  | C_drop =>
      Some (set_out (close_receiver (sub_out s)) (on_status (close_status CloseReason_ReceiverDropped) s))
  end.

(** ** What the hub does to one subscription ([dispatch.rs], [subscription.rs]) *)

Definition is_active (s : Sub C) : bool :=
  is_none (sst_close_reason (sub_status s)) && (sub_sender s && negb (is_closed (sub_inbox s))).

Definition close_sink (reason : EventSubscriptionCloseReason) (s : Sub C) : Sub C :=
  take_sender (on_status (close_status reason) s).

Inductive Offer : Type :=
| Offer_passed
| Offer_refused
| Offer_waits (selected : list SizedEvent) (durable : bool).

(** The body of the loop of [fan_out], up to the await of a bounded send. *)
Definition offer (events : list SizedEvent) (s : Sub C) : Offer * Sub C :=
  let selected := List.filter (fun item => EventFilter_matches (esc_filter (sub_config s)) (se_event item)) events in
  let durable := existsb (fun item => is_durable (se_event item)) selected in
  let s := selected_for selected s in
  if (length selected =? 0)%nat then (Offer_passed, s)
  else if negb (sub_sender s) then (Offer_refused, s)
  else
    match sub_audience s, esc_lag_policy (sub_config s) with
    | SubscriberAudience_Observer, _ =>
        match try_send selected (sub_inbox s) with
        | Ok c => (Offer_passed, set_inbox c s)
        | Err TrySendError_Full =>
            if durable then (Offer_refused, close_sink CloseReason_MissedDurable s)
            else (Offer_passed, on_status (record_dropped_progress (length selected)) s)
        | Err TrySendError_Closed => (Offer_refused, close_sink CloseReason_ReceiverDropped s)
        end
    | SubscriberAudience_Interactive, EventLagPolicy_BlockBounded _ => (Offer_waits selected durable, s)
    | SubscriberAudience_Interactive, EventLagPolicy_DropProgress _ =>
        if durable then (Offer_waits selected durable, s)
        else
          match try_send selected (sub_inbox s) with
          | Ok c => (Offer_passed, set_inbox c s)
          | Err TrySendError_Full => (Offer_passed, on_status (record_dropped_progress (length selected)) s)
          | Err TrySendError_Closed => (Offer_refused, close_sink CloseReason_ReceiverDropped s)
          end
    | SubscriberAudience_Interactive, EventLagPolicy_Disconnect =>
        match try_send selected (sub_inbox s) with
        | Ok c => (Offer_passed, set_inbox c s)
        | Err TrySendError_Full => (Offer_refused, close_sink (lag_reason durable) s)
        | Err TrySendError_Closed => (Offer_refused, close_sink CloseReason_ReceiverDropped s)
        end
    end.

Inductive WaitLabel : Type :=
| W_sent
| W_refused
| W_timeout.

(** The end of the await of a bounded send in [fan_out]. *)
Definition end_wait (l : WaitLabel) (selected : list SizedEvent) (durable : bool) (s : Sub C) : option (Offer * Sub C) :=
  match l, try_send selected (sub_inbox s) with
  | W_sent, Ok c => Some (Offer_passed, set_inbox c s)
  | W_refused, Err TrySendError_Closed => Some (Offer_refused, close_sink CloseReason_ReceiverDropped s)
  | W_timeout, _ => Some (Offer_refused, close_sink (lag_reason durable) s)
  | _, _ => None
  end.

(** [spawn_subscriber]. *)
Definition spawn_subscriber (audience : SubscriberAudience) (config : EventSubscriptionConfig) (since : nat) : Sub C :=
  mkSub audience config SubscriptionState_default (channel (esc_queue_capacity config)) true
    (channel (esc_queue_capacity config)) (mkSubTask [] 0 false PcLoop) [] [] since.
End Subscription.

(** ** The hub ([task.rs], [handle.rs]) *)

Inductive HubPc : Type :=
| HubRecv
| HubFanOut (events : list SizedEvent) (rest closed : list Z)
| HubWait (id : Z) (selected : list SizedEvent) (durable : bool) (events : list SizedEvent) (rest closed : list Z)
| HubJoin
| HubStopped.

(** [EventHubTask::run].  [h_subs] holds every subscription that was made, by
    its number; [h_live] are the keys of the map [subscribers], which grow with
    the counter, so that the order of the map is the order of insertion.
    [h_log] records the events of the accepted publications. *)
Record Hub {C : Type -> Type} : Type := mkHub {
  h_config : EventHubConfig;
  h_subs : gmap Z (Sub C);
  h_live : list Z;
  h_next_subscriber : Z;
  h_next_sequence : option Z;
  h_pc : HubPc;
  h_log : list SizedEvent
}.
Arguments Hub C : clear implicits.
Arguments mkHub {C}.

Section Hub.
Context {C : Type -> Type} `{!Mpsc C}.
Variable json_byte_len : RunEvent -> result Z string.

Definition event_hub (config : EventHubConfig) : result (Hub C) EventSubscriptionError :=
  let? config := EventHubConfig_validate config in
  Ok (mkHub config ∅ [] 0 None HubRecv []).

Definition on_sub (id : Z) (f : Sub C -> Sub C) (h : Hub C) : Hub C :=
  mkHub (h_config h) (alter f id (h_subs h)) (h_live h) (h_next_subscriber h) (h_next_sequence h) (h_pc h) (h_log h).

Definition set_hub_pc (pc : HubPc) (h : Hub C) : Hub C :=
  mkHub (h_config h) (h_subs h) (h_live h) (h_next_subscriber h) (h_next_sequence h) pc (h_log h).

Definition set_live (live : list Z) (h : Hub C) : Hub C :=
  mkHub (h_config h) (h_subs h) live (h_next_subscriber h) (h_next_sequence h) (h_pc h) (h_log h).

Definition live_active (h : Hub C) (id : Z) : bool := is_some_and (h_subs h !! id) is_active.

(** [subscribers.retain(|_, subscriber| subscriber.is_active())]. *)
Definition retain_active (h : Hub C) : Hub C :=
  set_live (List.filter (live_active h) (h_live h))
    (foldr (fun id h => on_sub id take_sender h) h (List.filter (fun id => negb (live_active h id)) (h_live h))).

Definition handle_subscribe (audience : SubscriberAudience) (config : EventSubscriptionConfig) (h : Hub C)
    : Hub C * result Z EventSubscriptionError :=
  let h := retain_active h in
  if (ehc_max_subscribers (h_config h) <=? length (h_live h))%nat
  then (h, Err EventSubscriptionError_CapacityExhausted)
  else
    match u64_checked_add (h_next_subscriber h) 1 with
    | None => (h, Err EventSubscriptionError_CapacityExhausted)
    | Some id =>
        let subscriber_id := h_next_subscriber h in
        let sub := spawn_subscriber audience config (length (h_log h)) in
        (mkHub (h_config h) (<[subscriber_id := sub]> (h_subs h)) (h_live h ++ [subscriber_id]) id
           (h_next_sequence h) (h_pc h) (h_log h),
         Ok subscriber_id)
    end.

(** A command sent to a hub that is closing or gone gets no reply. *)
Definition hub_answers (h : Hub C) : bool :=
  match h_pc h with HubJoin | HubStopped => false | _ => true end.

(** [EventHubHandle::subscribe]. *)
Definition subscribe (audience : SubscriberAudience) (config : EventSubscriptionConfig) (h : Hub C)
    : Hub C * result Z EventSubscriptionError :=
  match EventSubscriptionConfig_validate config with
  | Err e => (h, Err e)
  | Ok _ =>
      if hub_answers h then handle_subscribe audience config h
      else (h, Err EventSubscriptionError_HubClosed)
  end.

Definition validate_source_order (events : list SizedEvent) (next_sequence : option Z) : result (option Z) string :=
  validate_event_sequences (map (fun item => ev_transient_sequence (se_event item)) events) next_sequence.

Definition handle_publish (events : list SizedEvent) (h : Hub C) : Hub C * result unit string :=
  match validate_source_order events (h_next_sequence h) with
  | Err e => (h, Err e)
  | Ok next =>
      (mkHub (h_config h) (h_subs h) (h_live h) (h_next_subscriber h) next
         (HubFanOut events (h_live h) []) (h_log h ++ events),
       Ok tt)
  end.

Definition size_event (sized : list SizedEvent) (event : RunEvent) : result (list SizedEvent) string :=
  let? bytes := json_byte_len event in
  Ok (sized ++ [mkSizedEvent event bytes]).

(** [EventHubHandle::publish]. *)
Definition publish (events : list RunEvent) (h : Hub C) : Hub C * result unit string :=
  if (length events =? 0)%nat then (h, Ok tt)
  else
    match rfold size_event [] events with
    | Err e => (h, Err e)
    | Ok sized => if hub_answers h then handle_publish sized h else (h, Err event_hub_closed)
    end.

(** The [Close] command, and the end of [run] when every handle is gone. *)
Definition handle_close (h : Hub C) : Hub C :=
  set_hub_pc HubJoin
    (set_live [] (foldr (fun id h => on_sub id (close_sink CloseReason_HubClosed) h) h (h_live h))).

(** One iteration of the loop of [fan_out]; the closed subscriptions leave the
    map at the end. *)
Definition after_offer (id : Z) (o : Offer) (events : list SizedEvent) (rest closed : list Z) : HubPc :=
  match o with
  | Offer_passed => HubFanOut events rest closed
  | Offer_refused => HubFanOut events rest (closed ++ [id])
  | Offer_waits selected durable => HubWait id selected durable events rest closed
  end.

Definition fan_out_step (h : Hub C) : option (Hub C) :=
  match h_pc h with
  | HubFanOut events [] closed =>
      Some (set_hub_pc HubRecv (set_live (List.filter (fun id => negb (bool_decide (id ∈ closed))) (h_live h)) h))
  | HubFanOut events (id :: rest) closed =>
      match h_subs h !! id with
      | Some s =>
          let '(o, s') := offer events s in
          Some (set_hub_pc (after_offer id o events rest closed) (on_sub id (fun _ => s') h))
      | None => None
      end
  | _ => None
  end.

Definition wait_step (l : WaitLabel) (h : Hub C) : option (Hub C) :=
  match h_pc h with
  | HubWait id selected durable events rest closed =>
      s ← h_subs h !! id;
      '(o, s') ← end_wait l selected durable s;
      Some (set_hub_pc (after_offer id o events rest closed) (on_sub id (fun _ => s') h))
  | _ => None
  end.

Definition task_done (s : Sub C) : bool :=
  match st_pc (sub_task s) with PcDone => true | _ => false end.

(** [subscriber_tasks.join_next()] until none is left. *)
Definition join_step (h : Hub C) : option (Hub C) :=
  match h_pc h with
  | HubJoin =>
      if forallb (fun '(_, s) => task_done s) (map_to_list (h_subs h)) then Some (set_hub_pc HubStopped h) else None
  | _ => None
  end.

Inductive HubLabel : Type :=
| L_subscribe (audience : SubscriberAudience) (config : EventSubscriptionConfig)
| L_publish (events : list RunEvent)
| L_close
| L_fan_out
| L_wait (l : WaitLabel)
| L_join
| L_task (id : Z) (l : TaskLabel)
| L_consumer (id : Z) (l : ConsumerLabel).

Definition sub_step (id : Z) (f : Sub C -> option (Sub C)) (h : Hub C) : option (Hub C) :=
  s ← h_subs h !! id;
  s' ← f s;
  Some (on_sub id (fun _ => s') h).

(** One step of the hub, of a task or of a consumer. *)
Definition hub_step (l : HubLabel) (h : Hub C) : option (Hub C) :=
  match l, h_pc h with
  | L_subscribe audience config, HubRecv => Some (subscribe audience config h).1
  | L_publish events, HubRecv => Some (publish events h).1
  | L_close, HubRecv => Some (handle_close h)
  | L_fan_out, _ => fan_out_step h
  | L_wait l, _ => wait_step l h
  | L_join, _ => join_step h
  | L_task id l, _ => sub_step id (task_step l) h
  | L_consumer id l, _ => sub_step id (consumer_step l) h
  | _, _ => None
  end.

Fixpoint hub_run (ls : list HubLabel) (h : Hub C) : option (Hub C) :=
  match ls with
  | [] => Some h
  | l :: ls => h' ← hub_step l h; hub_run ls h'
  end.
End Hub.
