(* ===== verification/EventHubSound.v ===== *)
(** * What a subscription of the event hub receives

    Invariants of [EventHub], by induction on the runs of the hub, its tasks and
    its consumers.  [Lossy] relates the events selected for a subscription with
    those that are delivered or on their way: the same order, with some progress
    events left out and counted.  [SubInv] is the invariant of a subscription,
    [HubInv] that of the hub. *)

From S2P Require Import Prelude Primitives Effects Records State Inputs Policy Events Compaction EventHub.

(** ** Lossy streams *)

Inductive Lossy : list RunEvent -> list RunEvent -> nat -> Prop :=
| Lossy_nil : Lossy [] [] 0
| Lossy_keep e offered kept n : Lossy offered kept n -> Lossy (e :: offered) (e :: kept) n
| Lossy_drop e offered kept n :
    is_durable e = false -> Lossy offered kept n -> Lossy (e :: offered) kept (S n).

Definition progress_only (l : list RunEvent) : Prop := Forall (fun e => is_durable e = false) l.

Lemma Lossy_refl l : Lossy l l 0.
Proof. induction l; by constructor. Qed.

Lemma Lossy_app o1 k1 n1 o2 k2 n2 :
  Lossy o1 k1 n1 -> Lossy o2 k2 n2 -> Lossy (o1 ++ o2) (k1 ++ k2) (n1 + n2).
Proof. induction 1; intros H2; cbn; [done|constructor..]; auto. Qed.

Lemma Lossy_snoc o k n l : Lossy o k n -> Lossy (o ++ l) (k ++ l) n.
Proof. intros H. rewrite <- (Nat.add_0_r n). apply Lossy_app; [done|apply Lossy_refl]. Qed.

Lemma Lossy_all l : progress_only l -> Lossy l [] (length l).
Proof. induction 1; cbn; by constructor. Qed.

Lemma Lossy_snoc_drop o k n l : Lossy o k n -> progress_only l -> Lossy (o ++ l) k (n + length l).
Proof. intros H Hl. rewrite <- (app_nil_r k). apply Lossy_app; [done|by apply Lossy_all]. Qed.

(** Dropping progress from the middle of what was kept. *)
Lemma Lossy_remove o a b c n :
  progress_only b -> Lossy o (a ++ b ++ c) n -> Lossy o (a ++ c) (n + length b).
Proof.
  intros Hb. remember (a ++ b ++ c) as k eqn:Hk. intros H. revert a b Hb Hk.
  induction H as [|e o k n H IH|e o k n He _ IH]; intros a b Hb Hk.
  - symmetry in Hk. apply app_eq_nil in Hk as [-> [-> ->]%app_eq_nil]. constructor.
  - destruct a as [|a0 a]; cbn in Hk |- *.
    + destruct b as [|b0 b]; cbn in Hk |- *.
      * rewrite Nat.add_0_r, <- Hk. by constructor.
      * injection Hk as -> ->. apply Forall_cons in Hb as [Hb0 Hb].
        rewrite Nat.add_succ_r. constructor; [done|]. by apply (IH [] b).
    + injection Hk as -> ->. constructor. by apply IH.
  - cbn. constructor; [done|]. by apply IH.
Qed.

Lemma Lossy_sublist o k n : Lossy o k n -> k `sublist_of` o.
Proof. induction 1; by constructor. Qed.

Lemma Lossy_durable o k n : Lossy o k n -> List.filter is_durable k = List.filter is_durable o.
Proof. induction 1 as [|e o k n _ IH|e o k n He _ IH]; cbn; [done|by rewrite IH|by rewrite He, IH]. Qed.

Lemma Lossy_length o k n : Lossy o k n -> (length o = length k + n)%nat.
Proof. induction 1; cbn; lia. Qed.

(** ** The parts of a subscription *)

Definition zsum {A} (f : A -> Z) (l : list A) : Z := foldr (fun a z => f a + z) 0 l.

#[global] Arguments zsum {A} f l : simpl never.

Lemma zsum_cons {A} (f : A -> Z) a l : zsum f (a :: l) = f a + zsum f l.
Proof. done. Qed.

Lemma zsum_app {A} (f : A -> Z) l l' : zsum f (l ++ l') = zsum f l + zsum f l'.
Proof. unfold zsum. induction l; cbn; lia. Qed.

Definition batch_events (l : list EventBatch) : list RunEvent := concat (map eb_events l).

#[global] Arguments batch_events _ : simpl never.

Lemma batch_events_snoc l b : batch_events (l ++ [b]) = batch_events l ++ eb_events b.
Proof. unfold batch_events. by rewrite map_app, concat_app; cbn; rewrite app_nil_r. Qed.

Definition last_sequence (l : list EventBatch) : option Z := last l ≫= fun b => ev_transient_sequence <$> last (eb_events b).

#[global] Arguments last_sequence _ : simpl never.

Section Parts.
Context {C : Type -> Type} `{!Mpsc C}.

Definition sent (s : Sub C) : list EventBatch := sub_received s ++ queued (sub_out s).

Definition cont_items (k : Cont) : list SizedEvent :=
  match k with
  | KPush item rest => item :: rest
  | KAppend rest => rest
  | _ => []
  end.

(** The items of the received group that are not in [pending] yet. *)
Definition pc_items (pc : TaskPc) : list SizedEvent :=
  match pc with
  | PcAppend rest => rest
  | PcPush item rest => item :: rest
  | PcSend _ k => cont_items k
  | _ => []
  end.

Definition pc_flight (pc : TaskPc) : list RunEvent :=
  match pc with PcSend f _ => eb_events (fl_batch f) | _ => [] end.

Definition inbox_items (s : Sub C) : list SizedEvent := concat (queued (sub_inbox s)).

(** What a running task still has to deliver, with the group [items] in hand. *)
Definition backlog (items : list SizedEvent) (s : Sub C) : list RunEvent :=
  map se_event (st_pending (sub_task s)) ++ map se_event items ++ map se_event (inbox_items s).

Definition in_task (s : Sub C) : list RunEvent :=
  match st_pc (sub_task s) with
  | PcDone => []
  | pc => pc_flight pc ++ backlog (pc_items pc) s
  end.

(** Delivered or on its way. *)
Definition carried (s : Sub C) : list RunEvent := batch_events (sent s) ++ in_task s.

Definition is_closed_sub (s : Sub C) : Prop := sst_close_reason (sub_status s) <> None.
End Parts.

(** ** The invariant of a subscription *)

Section Invariant.
Context {C : Type -> Type} `{!Mpsc C, !MpscLaws C}.
Variable size : RunEvent -> Z.
Implicit Types s : Sub C.

(** What is left out of the stream is progress, counted in the statistics, or
    ([lost]) belongs to a subscription whose status says that it is closed. *)
Definition Flow (done : Prop) (mid : list RunEvent) (held : list SizedEvent) (s : Sub C) : Prop :=
  exists lost n,
    Lossy (map se_event (sub_offered s)) (batch_events (sent s) ++ mid ++ lost ++ map se_event held) n
    /\ eds_dropped_progress (sst_stats (sub_status s)) = Z.min u64_max (Z.of_nat n)
    /\ (lost = [] \/ is_closed_sub s /\ (done \/ sub_sender s = false)).

(** Statistics: deliveries, and drops reported by a batch or not yet reported. *)
Definition Accounts (s : Sub C) : Prop :=
  let v := sub_status s in
  let stats := sst_stats v in
  0 <= sst_unreported_dropped v <= u64_max
  /\ 0 <= zsum eb_dropped_progress (sent s)
  /\ (eds_dropped_progress stats < u64_max ->
      zsum eb_dropped_progress (sent s) + sst_unreported_dropped v = eds_dropped_progress stats)
  /\ eds_delivered_batches stats = Z.min u64_max (Z.of_nat (length (sent s)))
  /\ eds_delivered_events stats = Z.min u64_max (Z.of_nat (length (batch_events (sent s))))
  /\ eds_last_delivered_sequence stats = last_sequence (sent s).

Definition transport_ok (config : EventSubscriptionConfig) (b : EventBatch) : Prop :=
  EventBatch_new (eb_events b) (eb_dropped_progress b) = Some b
  /\ (length (eb_events b) <= ebc_flush_count (esc_batching config))%nat
  /\ (existsb is_durable (eb_events b) = true -> length (eb_events b) = 1%nat)
  /\ (is_u64 (ebc_flush_bytes (esc_batching config)) ->
      length (eb_events b) = 1%nat \/ zsum size (eb_events b) < 2 * ebc_flush_bytes (esc_batching config)).

Definition event_sized (item : SizedEvent) : Prop := se_bytes item = size (se_event item).

(** Events that need not leave at once. *)
Definition plain (config : EventSubscriptionConfig) (item : SizedEvent) : Prop :=
  is_durable (se_event item) = false /\ se_bytes item <= ebc_flush_bytes (esc_batching config).

Definition pending_ok (s : Sub C) : Prop :=
  let t := sub_task s in
  let batching := esc_batching (sub_config s) in
  Forall (plain (sub_config s)) (st_pending t)
  /\ (length (st_pending t) < ebc_flush_count batching)%nat
  /\ st_deadline t = negb (length (st_pending t) =? 0)%nat
  /\ (st_pending t = [] -> st_pending_bytes t = 0)
  /\ (is_u64 (ebc_flush_bytes batching) ->
      st_pending_bytes t = zsum se_bytes (st_pending t) /\ st_pending_bytes t < ebc_flush_bytes batching).

Definition config_ok (c : EventSubscriptionConfig) : Prop :=
  (0 < ebc_flush_count (esc_batching c))%nat /\ ebc_flush_bytes (esc_batching c) <> 0.

(** The facts that no task step disturbs. *)
Definition Frame (s : Sub C) : Prop :=
  config_ok (sub_config s)
  /\ Forall (transport_ok (sub_config s)) (sent s)
  /\ Forall event_sized (inbox_items s)
  /\ capacity (sub_inbox s) = esc_queue_capacity (sub_config s)
  /\ (length (queued (sub_inbox s)) <= capacity (sub_inbox s))%nat
  /\ capacity (sub_out s) = esc_queue_capacity (sub_config s)
  /\ (length (queued (sub_out s)) <= capacity (sub_out s))%nat
  /\ (sub_sender s = false -> is_closed_sub s).

(** A task about to go on with the items of [k]. *)
Definition Running (k : Cont) (held : list SizedEvent) (s : Sub C) : Prop :=
  Flow False (backlog (cont_items k) s) held s
  /\ Accounts s /\ Frame s /\ pending_ok s
  /\ Forall event_sized (st_pending (sub_task s) ++ cont_items k)
  /\ is_closed (sub_inbox s) = false
  /\ match k with
     | KPush item _ => plain (sub_config s) item \/ st_pending (sub_task s) = []
     | _ => True
     end.

(** A task that is sending [f]. *)
Definition Flying (f : Flight) (k : Cont) (held : list SizedEvent) (s : Sub C) : Prop :=
  Flow False (eb_events (fl_batch f) ++ backlog (cont_items k) s) held s
  /\ Accounts s /\ Frame s /\ st_pending (sub_task s) = [] /\ st_deadline (sub_task s) = false
  /\ st_pending_bytes (sub_task s) = 0
  /\ Forall event_sized (cont_items k)
  /\ is_closed (sub_inbox s) = false
  /\ transport_ok (sub_config s) (fl_batch f)
  /\ fl_count f = length (eb_events (fl_batch f))
  /\ fl_last_sequence f = ev_transient_sequence <$> last (eb_events (fl_batch f))
  /\ fl_dropped f = eb_dropped_progress (fl_batch f)
  /\ 0 <= fl_dropped f <= sst_unreported_dropped (sub_status s).

Definition pc_cont (pc : TaskPc) : Cont :=
  match pc with
  | PcAppend rest => KAppend rest
  | PcPush item rest => KPush item rest
  | _ => KLoop
  end.

Definition SubInv (held : list SizedEvent) (s : Sub C) : Prop :=
  (held = [] \/ sub_sender s = true)
  /\ match st_pc (sub_task s) with
     | PcDone => Flow True [] held s /\ Accounts s /\ Frame s /\ is_closed_sub s
     | PcSend f k => Flying f k held s
     | pc => Running (pc_cont pc) held s
     end.

(** ** Closing and returning *)

Lemma close_status_closed r s : is_closed_sub (on_status (close_status r) s).
Proof.
  unfold is_closed_sub, on_status, close_status; cbn.
  destruct (sst_close_reason (sub_status s)) eqn:E; cbn; [by rewrite E|done].
Qed.

Lemma close_status_keeps r s : is_closed_sub s -> on_status (close_status r) s = s.
Proof.
  unfold is_closed_sub, on_status, close_status. destruct s as [a c v]; cbn.
  by destruct (sst_close_reason v).
Qed.

Lemma close_status_stats r v :
  sst_stats (close_status r v) = sst_stats v
  /\ sst_unreported_dropped (close_status r v) = sst_unreported_dropped v.
Proof. unfold close_status. by destruct (is_none _). Qed.

Lemma Flow_close r done mid held s : Flow done mid held s -> Flow done mid held (on_status (close_status r) s).
Proof.
  intros (lost & n & HL & Hn & Hl). exists lost, n. cbn. rewrite (proj1 (close_status_stats r _)).
  split_and!; [done..|]. destruct Hl as [->|[_ Hl]]; [by left|right]. split; [apply close_status_closed|done].
Qed.

Lemma Accounts_close r s : Accounts s -> Accounts (on_status (close_status r) s).
Proof. unfold Accounts. cbn. by destruct (close_status_stats r (sub_status s)) as [-> ->]. Qed.

Lemma Frame_close r s : Frame s -> Frame (on_status (close_status r) s).
Proof. intros (H1 & H2 & H3 & H4 & H5 & H6 & H7 & _). split_and!; try done. intros _. apply close_status_closed. Qed.

Lemma sent_return s : sent (task_return s) = sent s.
Proof. unfold sent; cbn. by rewrite (proj1 (drop_sender_queued _ _)). Qed.

Lemma Flow_done done mid held s : Flow done mid held s -> is_closed_sub s -> Flow True [] held (task_return s).
Proof.
  intros (lost & n & HL & Hn & Hl) Hc. exists (mid ++ lost), n. rewrite sent_return, app_assoc in *.
  rewrite <- !app_assoc in *. cbn [app]. split_and!; [done..|right]. split; [done|by left].
Qed.

Lemma Frame_return s : Frame s -> Frame (task_return s).
Proof.
  intros (H1 & H2 & H3 & H4 & H5 & H6 & H7 & H8). unfold Frame. rewrite sent_return. unfold inbox_items in *. cbn.
  destruct (close_receiver_queued _ (sub_inbox s)) as [-> ->].
  destruct (drop_sender_queued _ (sub_out s)) as (-> & -> & _). split_and!; done.
Qed.

Lemma return_inv done mid held s :
  Flow done mid held s -> Accounts s -> Frame s -> is_closed_sub s -> held = [] \/ sub_sender s = true ->
  SubInv held (task_return s).
Proof.
  intros HF HA HFr Hc Hh. split; [done|]. cbn. split_and!; [by eapply Flow_done| |by apply Frame_return|done].
  unfold Accounts in *. by rewrite sent_return.
Qed.

Lemma fail_inv r k mid held s :
  Flow False mid held s -> Accounts s -> Frame s -> held = [] \/ sub_sender s = true ->
  SubInv held (fail_flush r k s).
Proof.
  intros HF HA HFr Hh. unfold fail_flush.
  assert (H : SubInv held (task_return (on_status (close_status r) s))).
  { eapply return_inv; [by apply Flow_close|by apply Accounts_close|by apply Frame_close| |done].
    apply close_status_closed. }
  destruct k; try done. rewrite close_status_keeps; [done|apply close_status_closed].
Qed.

Lemma resume_inv k held s :
  Running k held s -> held = [] \/ sub_sender s = true -> SubInv held (resume k s).
Proof.
  intros HR Hh. destruct k; [split; [done|exact HR]..|].
  destruct HR as (HF & HA & HFr & _). eapply return_inv;
    [by apply Flow_close|by apply Accounts_close|by apply Frame_close|apply close_status_closed|done].
Qed.

(** ** Sending a batch *)

Lemma min_add_nat M a b : 0 <= M -> Z.min M (Z.min M (Z.of_nat a) + Z.of_nat b) = Z.min M (Z.of_nat (a + b)).
Proof. lia. Qed.

Lemma Flow_sent b c mid held s :
  try_send b (sub_out s) = Ok c ->
  Flow False (eb_events b ++ mid) held s -> Flow False mid held (set_out c s).
Proof.
  intros (Hq & _)%try_send_Ok (lost & n & HL & Hn & Hl). exists lost, n. unfold sent in *. cbn.
  rewrite Hq, (app_assoc (sub_received s)), batch_events_snoc, <- !app_assoc. by rewrite <- !app_assoc in HL.
Qed.

Lemma Accounts_sent f k held c s :
  try_send (fl_batch f) (sub_out s) = Ok c -> Flying f k held s ->
  Accounts (on_status (fun v => clear_reported_dropped (fl_dropped f)
                                  (record_delivery (fl_count f) (fl_last_sequence f) v)) (set_out c s)).
Proof.
  intros (Hq & _)%try_send_Ok (_ & (HU & HZ & HD & HB & HE & HS) & _ & _ & _ & _ & _ & _ & _ & Hcount & Hlast & Hdr & Hle).
  unfold Accounts, sent in *; cbn. rewrite Hq, !app_assoc.
  unfold u64_saturating_sub, u64_saturating_add, u64_of_usize. split_and!.
  - lia.
  - lia.
  - rewrite zsum_app, zsum_cons. change (zsum _ []) with 0. lia.
  - intros Hlt. rewrite zsum_app, zsum_cons. specialize (HD Hlt). change (zsum _ []) with 0. lia.
  - rewrite length_app, HB. cbn [length]. exact (min_add_nat u64_max _ 1 ltac:(done)).
  - rewrite batch_events_snoc, length_app, HE, Hcount. by apply min_add_nat.
  - unfold last_sequence. by rewrite last_snoc.
Qed.

Lemma Frame_sent b c s :
  try_send b (sub_out s) = Ok c -> transport_ok (sub_config s) b -> Frame s -> Frame (set_out c s).
Proof.
  intros (Hq & Hlt & Hcap & _)%try_send_Ok Hb (H1 & H2 & H3 & H4 & H5 & H6 & H7 & H8).
  unfold Frame, sent in *; cbn. rewrite Hq, Hcap, (app_assoc (sub_received s)), Forall_app, Forall_singleton, length_app; cbn.
  split_and!; try done. lia.
Qed.

Lemma pending_ok_empty t s :
  config_ok (sub_config s) -> st_pending t = [] -> st_pending_bytes t = 0 -> st_deadline t = false ->
  pending_ok (set_task t s).
Proof.
  intros [Hc Hb] Hp Hz Hd. unfold pending_ok; cbn. rewrite Hp, Hz, Hd; cbn.
  split_and!; [done..|]. intros [? ?]. split; [done|lia].
Qed.

Lemma set_task_id s : set_task (sub_task s) s = s.
Proof. by destruct s. Qed.

Lemma on_status_id s : on_status id s = s.
Proof. by destruct s. Qed.

Lemma delivered_inv f k held c s :
  try_send (fl_batch f) (sub_out s) = Ok c -> Flying f k held s -> held = [] \/ sub_sender s = true ->
  SubInv held (delivered f k (set_out c s)).
Proof.
  intros Hs HF Hh. apply resume_inv; [|done].
  pose proof (Accounts_sent _ _ _ _ _ Hs HF) as HA.
  destruct HF as (Hflow & _ & HFr & Hp & Hd & Hz & Hsz & Hcl & Hb & _).
  split_and!; [by eapply Flow_sent|done|by eapply Frame_sent| | |done|].
  - rewrite <- (set_task_id s). apply (pending_ok_empty (sub_task s) (set_out c s)); try done. apply HFr.
  - cbn. by rewrite Hp.
  - destruct k; [by right|done..].
Qed.

(** ** Flushing *)

(** What [flush_pending] may be called on: the pending events make a batch. *)
Definition Flushable (k : Cont) (held : list SizedEvent) (s : Sub C) : Prop :=
  let t := sub_task s in
  let batching := esc_batching (sub_config s) in
  Flow False (backlog (cont_items k) s) held s
  /\ Accounts s /\ Frame s
  /\ Forall event_sized (st_pending t ++ cont_items k)
  /\ is_closed (sub_inbox s) = false
  /\ (st_pending t = [] -> st_pending_bytes t = 0)
  /\ (length (st_pending t) <= ebc_flush_count batching)%nat
  /\ (existsb is_durable (map se_event (st_pending t)) = true -> length (st_pending t) = 1%nat)
  /\ (is_u64 (ebc_flush_bytes batching) ->
      length (st_pending t) = 1%nat \/ zsum se_bytes (st_pending t) < 2 * ebc_flush_bytes batching).

Lemma zsum_sized l : Forall event_sized l -> zsum size (map se_event l) = zsum se_bytes l.
Proof. induction 1 as [|a l Ha _ IH]; [done|]. cbn [map]. rewrite !zsum_cons, IH. by rewrite Ha. Qed.

Lemma EventBatch_new_Some events d b :
  EventBatch_new events d = Some b -> eb_events b = events /\ eb_dropped_progress b = d.
Proof. unfold EventBatch_new. destruct (head events), (last events); naive_solver. Qed.

Lemma EventBatch_new_None events d : EventBatch_new events d = None -> events = [].
Proof.
  unfold EventBatch_new. destruct events as [|e l]; [done|]. cbn [head].
  destruct (last (e :: l)) eqn:E; [done|]. by apply last_None in E.
Qed.

Section Flush.
Context (k : Cont) (held : list SizedEvent) (s : Sub C).
Hypothesis HP : Flushable k held s.
Let t := sub_task s.
Let emptied := mkSubTask [] (if (length (map se_event (st_pending t)) =? 0)%nat then st_pending_bytes t else 0) false (st_pc t).
Let events := map se_event (st_pending t).

Lemma emptied_bytes : st_pending_bytes emptied = 0.
Proof.
  destruct HP as (_ & _ & _ & _ & _ & Hz & _). cbn. rewrite length_map.
  destruct (st_pending t) eqn:E; cbn; [by apply Hz|done].
Qed.

Lemma emptied_running f :
  Flow False (backlog (cont_items k) (set_task emptied s)) held (on_status f s) ->
  Accounts (on_status f s) -> sst_close_reason (f (sub_status s)) = sst_close_reason (sub_status s) ->
  Running k held (on_status f (set_task emptied s)).
Proof.
  intros HF HA Hf. pose proof emptied_bytes as Hz. destruct HP as (_ & _ & HFr & Hsz & Hcl & _).
  split_and!; [done..| | | |done|].
  - destruct HFr as (H1 & H2 & H3 & H4 & H5 & H6 & H7 & H8). split_and!; try done.
    unfold is_closed_sub in *; cbn. by rewrite Hf.
  - apply (pending_ok_empty emptied (on_status f s)); [apply HFr|done..].
  - by apply Forall_app in Hsz as [_ Hsz].
  - destruct k; [by right|done..].
Qed.

(** The flight of a flush. *)
Lemma flight_flying b pc :
  EventBatch_new events (sst_unreported_dropped (sub_status s)) = Some b ->
  Flying (mkFlight b (existsb is_durable events) (length events) (ev_transient_sequence <$> last events)
            (sst_unreported_dropped (sub_status s))) k held
    (set_pc pc (set_task emptied s)).
Proof.
  intros Hb. destruct (EventBatch_new_Some _ _ _ Hb) as [He Hd].
  pose proof emptied_bytes as Hz.
  destruct HP as (HF & HA & HFr & Hsz & Hcl & _ & Hlen & Hdur & Hbytes).
  apply Forall_app in Hsz as [Hsz1 Hsz2]. split_and!; try done; cbn.
  - unfold backlog in *; cbn in *. by rewrite He.
  - unfold transport_ok. rewrite He, Hd. unfold events. rewrite length_map, zsum_sized by done. done.
  - by rewrite He.
  - by rewrite He.
  - apply HA.
Qed.

Lemma flow_dropped :
  existsb is_durable events = false ->
  Flow False (backlog (cont_items k) (set_task emptied s)) held
    (on_status (record_dropped_progress (length events)) s).
Proof.
  intros Hnd. destruct HP as ((lost & n & HL & Hn & Hl) & _).
  exists lost, (n + length events)%nat. unfold backlog in *. split_and!.
  - rewrite <- !app_assoc in HL. cbn. rewrite <- !app_assoc. apply (Lossy_remove _ _ events); [|done].
    apply Forall_forall. intros e He. by apply (proj1 (existsb_false _ _) Hnd).
  - cbn. rewrite Hn. unfold u64_saturating_add, u64_of_usize. by apply min_add_nat.
  - done.
Qed.

Lemma accounts_dropped m : Accounts s -> Accounts (on_status (record_dropped_progress m) s).
Proof.
  intros (HU & HZ & HD & HB & HE & HS). unfold Accounts; cbn. unfold u64_saturating_add, u64_of_usize.
  unfold sent in *. split_and!; [lia|lia|done| |done..]. intros Hlt. specialize (HD ltac:(lia)). lia.
Qed.
End Flush.

Lemma flush_inv k held s :
  Flushable k held s -> held = [] \/ sub_sender s = true -> SubInv held (flush_pending k s).
Proof.
  intros HP Hh. unfold flush_pending.
  destruct (EventBatch_new _ _) as [b|] eqn:Hb.
  - pose proof (flight_flying k held s HP b) as Hfly.
    set (emptied := mkSubTask _ _ _ _) in *. set (f := mkFlight _ _ _ _ _) in *.
    assert (Hfail : forall r, SubInv held (fail_flush r k (set_task emptied s))).
    { intros r. destruct (Hfly (st_pc (sub_task s)) Hb) as (HF & HA & HFr & _). by eapply fail_inv. }
    assert (Hsend : SubInv held (set_pc (PcSend f k) (set_task emptied s))).
    { split; [done|]. by apply Hfly. }
    assert (Hok : forall c, try_send b (sub_out (set_task emptied s)) = Ok c ->
                  SubInv held (delivered f k (set_out c (set_task emptied s)))).
    { intros c Hc. eapply delivered_inv; [done| |done]. by apply (Hfly (st_pc (sub_task s))). }
    destruct (esc_lag_policy _); [done| |].
    + destruct (existsb is_durable _) eqn:Hd; [done|].
      destruct (try_send b _) as [c|[]] eqn:Hs; [by apply Hok| |by apply Hfail].
      apply resume_inv; [|done].
      pose proof (flow_dropped k held s HP Hd) as HF. 
      apply (emptied_running k held s HP); [done| |done]. apply accounts_dropped, HP.
    + destruct (try_send b _) as [c|[]] eqn:Hs; [by apply Hok|by apply Hfail..].
  - apply EventBatch_new_None in Hb. apply resume_inv; [|done].
    rewrite <- (on_status_id (set_task _ s)). apply (emptied_running k held s HP); rewrite ?on_status_id; [|apply HP|done].
    destruct HP as (HF & _). unfold backlog in *. by rewrite Hb in HF.
Qed.

(** ** The steps of a task *)

Lemma plain_progress config l : Forall (plain config) l -> existsb is_durable (map se_event l) = false.
Proof.
  intros Hp. apply existsb_false. intros e (it & -> & Hit)%list_elem_of_fmap.
  by apply (proj1 (Forall_forall _ _) Hp it).
Qed.

Lemma running_flushable k k' held s :
  Running k held s -> cont_items k = cont_items k' -> Flushable k' held s.
Proof.
  intros (HF & HA & HFr & (Hp & Hlen & _ & Hz & Hb) & Hsz & Hcl & _) Hk. unfold Flushable. rewrite <- Hk.
  split_and!; [done..|lia| |].
  - by rewrite (plain_progress _ _ Hp).
  - intros [H0 H1]. destruct (Hb (conj H0 H1)) as [<- ?]. right. lia.
Qed.

Lemma append_inv item rest held s :
  Running (KAppend (item :: rest)) held s -> held = [] \/ sub_sender s = true ->
  SubInv held (append_item item rest s).
Proof.
  intros HR Hh. unfold append_item. destruct (_ && _) eqn:Hc.
  - apply flush_inv; [|done]. by eapply running_flushable.
  - split; [done|]. destruct HR as (HF & HA & HFr & Hp & Hsz & Hcl & _). split_and!; try done.
    cbn. apply andb_false_iff in Hc as [Hc|Hc].
    + left. apply orb_false_iff in Hc as [Hd Ho]. split; [done|lia].
    + right. destruct (st_pending (sub_task s)); [done|discriminate].
Qed.

Section Push.
Context (item : SizedEvent) (rest held : list SizedEvent) (s : Sub C).
Hypothesis HR : Running (KPush item rest) held s.
Let t := sub_task s.
Let batching := esc_batching (sub_config s).
Let pushed := mkSubTask (st_pending t ++ [item]) (usize_saturating_add (st_pending_bytes t) (se_bytes item))
                (if (length (st_pending t) =? 0)%nat then true else st_deadline t) (st_pc t).

Lemma pushed_flow : Flow False (backlog rest (set_task pushed s)) held (set_task pushed s).
Proof. destruct HR as (HF & _). unfold backlog in *; cbn in *. by rewrite map_app, <- app_assoc. Qed.

Lemma pushed_sized : Forall event_sized ((st_pending t ++ [item]) ++ rest).
Proof. destruct HR as (_ & _ & _ & _ & Hsz & _). cbn in Hsz. by rewrite <- app_assoc. Qed.

Lemma pushed_flushable : Flushable (KAppend rest) held (set_task pushed s).
Proof.
  pose proof pushed_flow as HF. pose proof pushed_sized as Hsz'. subst pushed batching t.
  destruct HR as (_ & HA & HFr & (Hp & Hlen & _ & Hz & Hb) & Hsz & Hcl & Hk).
  split_and!; try done; cbn; rewrite ?length_app; cbn [length].
  - by destruct (st_pending (sub_task s)).
  - lia.
  - destruct Hk as [[Hd _]| ->]; [|done].
    rewrite map_app, existsb_app, (plain_progress _ _ Hp). cbn. by rewrite Hd.
  - intros Hfb. destruct Hk as [[_ Ho]| ->]; [right|by left].
    destruct (Hb Hfb) as [He Hlt]. rewrite zsum_app, zsum_cons. change (zsum _ []) with 0.
    lia.
Qed.

Lemma pushed_running :
  plain (sub_config s) item ->
  (length (st_pending t ++ [item]) < ebc_flush_count batching)%nat ->
  usize_saturating_add (st_pending_bytes t) (se_bytes item) < ebc_flush_bytes batching ->
  Running (KAppend rest) held (set_task pushed s).
Proof.
  intros Hpl Hl Hbytes. pose proof pushed_flow as HF. pose proof pushed_sized as Hsz'. subst pushed batching t.
  destruct HR as (_ & HA & HFr & (Hp & Hlen & Hdl & Hz & Hb) & Hsz & Hcl & Hk).
  split_and!; try done. unfold pending_ok; cbn. split_and!; [|done|..].
  - apply Forall_app. split; [done|]. by apply Forall_singleton.
  - rewrite Hdl, length_app. by destruct (st_pending (sub_task s)).
  - by destruct (st_pending (sub_task s)).
  - intros H. split; [|done]. destruct (Hb H) as [He _]. rewrite zsum_app, zsum_cons. change (zsum _ []) with 0.
    destruct H as [? H]. unfold usize_saturating_add in *. lia.
Qed.

Lemma push_inv : held = [] \/ sub_sender s = true -> SubInv held (push_event item rest s).
Proof.
  intros Hh. unfold push_event. destruct (_ || _) eqn:Hf; [by apply flush_inv; [apply pushed_flushable|]|].
  rewrite !orb_false_iff in Hf. destruct Hf as [[[[[Hi Hd] Ho] Ht] Hc] Hb].
  apply Nat.leb_gt in Hc. apply Z.leb_gt in Hb.
  split; [done|]. apply pushed_running; [split; [done|lia]|done..].
Qed.
End Push.

Lemma recv_running events c held s :
  recv (sub_inbox s) = Some (events, c) -> Running KLoop held s ->
  Running (KAppend events) held (set_inbox c s).
Proof.
  intros (Hq & Hcap & Hic)%recv_Some (HF & HA & HFr & Hp & Hsz & Hcl & _).
  assert (Hi : inbox_items s = events ++ inbox_items (set_inbox c s)) by (unfold inbox_items; cbn; by rewrite Hq).
  destruct HFr as (H1 & H2 & H3 & H4 & H5 & H6 & H7 & H8).
  rewrite Hi in H3. apply Forall_app in H3 as [H3 H3']. rewrite Hq in H5. cbn in H5.
  split_and!; try done.
  - unfold backlog in *. rewrite Hi in HF. cbn in HF |- *. by rewrite map_app in HF.
  - unfold Frame; cbn. rewrite Hcap. split_and!; try done. lia.
  - cbn in Hsz. rewrite app_nil_r in Hsz. by apply Forall_app.
  - cbn. by rewrite Hic.
Qed.

Lemma task_inv l held s s' : SubInv held s -> task_step l s = Some s' -> SubInv held s'.
Proof.
  intros [Hh HI] Hs. unfold task_step in Hs. destruct (st_pc (sub_task s)) as [|rest|item rest|f k|] eqn:Hpc.
  - pose proof HI as (_ & _ & _ & (_ & _ & Hdl & _) & _). rewrite Hdl in Hs.
    destruct (_ =? 0)%nat in Hs; cbn in Hs; destruct l; try discriminate Hs.
    1, 3: destruct (recv _) as [[events c]|] eqn:Hr; [|discriminate Hs]; injection Hs as <-; split; [done|];
      by apply recv_running.
    2: injection Hs as <-.
    1, 3: destruct (recv _); [discriminate Hs|]; destruct (senders_gone _); [|discriminate Hs]; injection Hs as <-.
    all: apply flush_inv; [|done]; by eapply running_flushable.
  - destruct rest as [|item rest]; destruct l; try discriminate Hs; injection Hs as <-; [by split|].
    by apply append_inv.
  - destruct l; try discriminate Hs. injection Hs as <-. by apply push_inv.
  - destruct l; try discriminate Hs.
    + destruct (try_send _ _) eqn:Ht; [|discriminate Hs]. injection Hs as <-. by eapply delivered_inv.
    + destruct (try_send _ _) as [|[]]; try discriminate Hs. injection Hs as <-.
      destruct HI as (HF & HA & HFr & _). by eapply fail_inv.
    + injection Hs as <-. destruct HI as (HF & HA & HFr & _). by eapply fail_inv.
  - by destruct l.
Qed.

(** ** What the hub and the consumer change *)

Definition Local (s : Sub C) : Prop :=
  match st_pc (sub_task s) with
  | PcDone => is_closed_sub s
  | PcSend f k =>
      st_pending (sub_task s) = [] /\ st_deadline (sub_task s) = false /\ st_pending_bytes (sub_task s) = 0
      /\ Forall event_sized (cont_items k) /\ is_closed (sub_inbox s) = false
      /\ transport_ok (sub_config s) (fl_batch f)
      /\ fl_count f = length (eb_events (fl_batch f))
      /\ fl_last_sequence f = ev_transient_sequence <$> last (eb_events (fl_batch f))
      /\ fl_dropped f = eb_dropped_progress (fl_batch f)
      /\ 0 <= fl_dropped f <= sst_unreported_dropped (sub_status s)
  | pc =>
      pending_ok s /\ Forall event_sized (st_pending (sub_task s) ++ cont_items (pc_cont pc))
      /\ is_closed (sub_inbox s) = false
      /\ match pc_cont pc with
         | KPush item _ => plain (sub_config s) item \/ st_pending (sub_task s) = []
         | _ => True
         end
  end.

Lemma Flow_iff (P Q : Prop) mid held s : P <-> Q -> Flow P mid held s <-> Flow Q mid held s.
Proof. intros H. split; intros (lost & n & HL & Hn & Hl); exists lost, n; split_and!; tauto. Qed.

Lemma SubInv_split held s :
  SubInv held s <->
  (held = [] \/ sub_sender s = true) /\ Flow (st_pc (sub_task s) = PcDone) (in_task s) held s
  /\ Accounts s /\ Frame s /\ Local s.
Proof.
  unfold SubInv, Local, in_task, Running, Flying. destruct (st_pc (sub_task s)) eqn:E; cbn [pc_flight pc_cont pc_items app].
  5: rewrite (Flow_iff (PcDone = PcDone) True) by done; tauto.
  all: rewrite (Flow_iff (_ = PcDone) False) by done; cbn [cont_items]; tauto.
Qed.

Lemma SubInv_close r held s : SubInv held s -> SubInv held (on_status (close_status r) s).
Proof.
  rewrite !SubInv_split. intros (Hh & HF & HA & HFr & HL).
  split_and!; [done|by apply Flow_close|by apply Accounts_close|by apply Frame_close|].
  unfold Local in *. cbn. rewrite (proj2 (close_status_stats r _)).
  destruct (st_pc (sub_task s)); try done. apply close_status_closed.
Qed.

(** The consumer only moves batches from the queue to the received ones. *)
Lemma SubInv_consumer c rcv held s :
  let s' := mkSub (sub_audience s) (sub_config s) (sub_status s) (sub_inbox s) (sub_sender s) c
              (sub_task s) rcv (sub_offered s) (sub_since s) in
  rcv ++ queued c = sent s -> capacity c = capacity (sub_out s) ->
  (length (queued c) <= length (queued (sub_out s)))%nat ->
  SubInv held s -> SubInv held s'.
Proof.
  intros s' Hs Hc Hl. rewrite !SubInv_split. intros (Hh & HF & HA & HFr & HL).
  assert (Hsent : sent s' = sent s) by done. split_and!; [done| | | |done].
  - destruct HF as (lost & n & HF). exists lost, n. by rewrite Hsent.
  - unfold Accounts in *. by rewrite Hsent.
  - destruct HFr as (H1 & H2 & H3 & H4 & H5 & H6 & H7 & H8). unfold Frame. rewrite Hsent. cbn. rewrite Hc.
    split_and!; try done. lia.
Qed.

Lemma consumer_inv l held s s' : SubInv held s -> consumer_step l s = Some s' -> SubInv held s'.
Proof.
  intros HI Hs. destruct l; cbn in Hs.
  - destruct (recv (sub_out s)) as [[b c]|] eqn:Hr; [|discriminate Hs]. injection Hs as <-.
    apply recv_Some in Hr as (Hq & Hc & _). apply (SubInv_consumer c (sub_received s ++ [b]) held s); [|done| |done].
    + unfold sent. by rewrite Hq, <- app_assoc.
    + rewrite Hq. cbn. lia.
  - injection Hs as <-. destruct (close_receiver_queued _ (sub_out s)) as [Hq Hc].
    apply (SubInv_consumer _ (sub_received s) held (on_status _ s)); cbn; rewrite ?Hq; [done|done|lia|]. by apply SubInv_close.
  - injection Hs as <-. destruct (close_receiver_queued _ (sub_out s)) as [Hq Hc].
    apply (SubInv_consumer _ (sub_received s) held (on_status _ s)); cbn; rewrite ?Hq; [done|done|lia|]. by apply SubInv_close.
Qed.

(** *** The hub offers a group *)

Lemma SubInv_hold selected s :
  sub_sender s = true -> SubInv [] s -> SubInv selected (selected_for selected s).
Proof.
  intros Hs. rewrite !SubInv_split. intros (Hh & (lost & n & HL & Hn & Hl) & HA & HFr & HLc).
  split_and!; [by right| |done..]. exists lost, n. split_and!; [|done..]. cbn in *.
  rewrite app_nil_r in HL. rewrite map_app, !app_assoc. rewrite !app_assoc in HL. by apply Lossy_snoc.
Qed.

Lemma SubInv_miss selected s :
  sub_sender s = false -> SubInv [] s -> SubInv [] (selected_for selected s).
Proof.
  intros Hs. rewrite !SubInv_split. intros (Hh & (lost & n & HL & Hn & Hl) & HA & HFr & HLc).
  split_and!; [by left| |done..]. exists (lost ++ map se_event selected), n. split_and!; [|done|].
  - cbn in *. rewrite app_nil_r in *. rewrite map_app, !app_assoc. rewrite !app_assoc in HL. by apply Lossy_snoc.
  - right. split; [by apply HFr|by right].
Qed.

Lemma SubInv_sent selected c s :
  sub_sender s = true -> Forall event_sized selected -> try_send selected (sub_inbox s) = Ok c ->
  SubInv selected s -> SubInv [] (set_inbox c s).
Proof.
  intros Hs Hsz (Hq & Hlt & Hcap & Hic)%try_send_Ok. rewrite !SubInv_split.
  intros (Hh & (lost & n & HL & Hn & Hl) & HA & HFr & HLc).
  assert (Hi : inbox_items (set_inbox c s) = inbox_items s ++ selected).
  { unfold inbox_items; cbn. rewrite Hq, concat_app. cbn. by rewrite app_nil_r. }
  split_and!; [by left| |done| |].
  - assert (Hdec : st_pc (sub_task s) = PcDone \/ st_pc (sub_task s) <> PcDone)
      by (destruct (st_pc (sub_task s)); [by right..|by left]).
    destruct Hdec as [Hd|Hd].
    + assert (Hin : in_task (set_inbox c s) = in_task s) by (unfold in_task; cbn; by rewrite Hd).
      exists (lost ++ map se_event selected), n. rewrite Hin. split_and!; [|done|].
      * rewrite app_nil_r. done.
      * right. split; [|by left]. unfold Local in HLc. by rewrite Hd in HLc.
    + assert (lost = []) as -> by (destruct Hl as [?|[_ [?|?]]]; [done..|congruence]).
      assert (Hin : in_task (set_inbox c s) = in_task s ++ map se_event selected).
      { unfold in_task, backlog. cbn [sub_task set_inbox]. rewrite Hi, map_app.
        destruct (st_pc (sub_task s)); [..|done]; by rewrite <- !app_assoc. }
      exists [], n. rewrite Hin. split_and!; [|done|by left]. cbn in *. by rewrite app_nil_r.
  - destruct HFr as (H1 & H2 & H3 & H4 & H5 & H6 & H7 & H8). unfold Frame. rewrite Hi. cbn.
    rewrite Hq, Hcap, length_app. cbn. split_and!; try done; [by apply Forall_app|lia].
  - unfold Local in *. cbn. rewrite Hic. done.
Qed.

Lemma SubInv_dropped selected s :
  existsb (fun item => is_durable (se_event item)) selected = false ->
  SubInv selected s -> SubInv [] (on_status (record_dropped_progress (length selected)) s).
Proof.
  intros Hnd. rewrite !SubInv_split. intros (Hh & (lost & n & HL & Hn & Hl) & HA & HFr & HLc).
  split_and!; [by left| |by apply accounts_dropped|exact HFr|].
  - exists lost, (n + length selected)%nat. split_and!; [| |done].
    + cbn. rewrite !app_assoc in HL |- *. rewrite <- (length_map se_event selected).
      apply (Lossy_remove _ _ (map se_event selected) []); [|by rewrite app_nil_r].
      apply Forall_map, Forall_forall. intros it Hit. by apply (proj1 (existsb_false _ _) Hnd).
    + cbn. rewrite Hn. unfold u64_saturating_add, u64_of_usize. by apply min_add_nat.
  - unfold Local in *. cbn [sub_task on_status]. destruct (st_pc (sub_task s)); [exact HLc..| |exact HLc].
    destruct HLc as (?&?&?&?&?&?&?&?&?&Hd&Hle). split_and!; try done. cbn.
    unfold u64_saturating_add, u64_of_usize. destruct HA as (HU & _). lia.
Qed.

Lemma SubInv_take_sender held s :
  is_closed_sub s -> SubInv held s -> SubInv [] (take_sender s).
Proof.
  intros Hc. rewrite !SubInv_split. intros (Hh & (lost & n & HL & Hn & Hl) & HA & HFr & HLc).
  assert (Hq : queued (sub_inbox (take_sender s)) = queued (sub_inbox s)
               /\ capacity (sub_inbox (take_sender s)) = capacity (sub_inbox s)
               /\ is_closed (sub_inbox (take_sender s)) = is_closed (sub_inbox s))
    by (cbn; destruct (sub_sender s); [apply drop_sender_queued|done]).
  destruct Hq as (Hq & Hcap & Hic).
  assert (Hi : inbox_items (take_sender s) = inbox_items s) by (unfold inbox_items; by rewrite Hq).
  split_and!; [by left| |done| |].
  - exists (lost ++ map se_event held), n. unfold in_task, backlog. rewrite Hi. cbn [map]. rewrite app_nil_r.
    split_and!; [done..|right]. split; [done|by right].
  - destruct HFr as (H1 & H2 & H3 & H4 & H5 & H6 & H7 & H8). unfold Frame. rewrite Hi, Hq, Hcap. done.
  - unfold Local in *. rewrite Hic. done.
Qed.

Lemma SubInv_close_sink r held s : SubInv held s -> SubInv [] (close_sink r s).
Proof. intros HI. eapply SubInv_take_sender; [apply close_status_closed|by apply SubInv_close]. Qed.

Lemma close_sink_closed r s : is_closed_sub (close_sink r s).
Proof. exact (close_status_closed r s). Qed.

Definition offer_held (o : Offer) : list SizedEvent :=
  match o with Offer_waits selected _ => selected | _ => [] end.

(** The events of a publication that a subscription asked for. *)
Definition wanted (config : EventSubscriptionConfig) (events : list SizedEvent) : list SizedEvent :=
  List.filter (fun item => EventFilter_matches (esc_filter config) (se_event item)) events.

Lemma filter_sized config events : Forall event_sized events -> Forall event_sized (wanted config events).
Proof.
  intros H. apply Forall_forall. intros it Hit. apply (proj1 (Forall_forall _ _) H it).
  apply list_elem_of_In in Hit. apply filter_In in Hit as [Hit _]. by apply list_elem_of_In.
Qed.

Lemma offer_inv events s o s' :
  SubInv [] s -> Forall event_sized events -> offer events s = (o, s') ->
  SubInv (offer_held o) s' /\ (o = Offer_refused -> is_closed_sub s').
Proof.
  intros HI Hsz%(filter_sized (sub_config s)) Ho. unfold offer in Ho. fold (wanted (sub_config s) events) in Ho.
  set (sel := wanted (sub_config s) events) in *.
  destruct (_ =? 0)%nat eqn:Hz.
  { injection Ho as <- <-. split; [|done]. destruct sel; [|discriminate Hz].
    destruct (sub_sender s) eqn:Hs; [by apply (SubInv_hold [])|by apply SubInv_miss]. }
  cbn [selected_for sub_sender] in Ho. destruct (sub_sender s) eqn:Hs; cbn [negb] in Ho.
  2: { injection Ho as <- <-. split; [by apply SubInv_miss|]. intros _.
       apply SubInv_split in HI as (_ & _ & _ & HFr & _). by apply HFr. }
  pose proof (SubInv_hold sel s Hs HI) as HH. set (s1 := selected_for sel s) in *.
  assert (Hclose : forall r, SubInv [] (close_sink r s1) /\ (Offer_refused = Offer_refused -> is_closed_sub (close_sink r s1)))
    by (intros r; split; [by eapply SubInv_close_sink|intros _; apply close_sink_closed]).
  assert (Hsend : forall c, try_send sel (sub_inbox s1) = Ok c -> SubInv [] (set_inbox c s1))
    by (intros c Hc; by eapply SubInv_sent).
  destruct (sub_audience s1), (esc_lag_policy (sub_config s1)), (existsb _ sel) eqn:Hd;
    try (injection Ho as <- <-; by split);
    destruct (try_send sel (sub_inbox s1)) as [c|[]] eqn:Ht; injection Ho as <- <-;
    try apply Hclose; (split; [|discriminate]); auto using SubInv_dropped.
Qed.

Lemma end_wait_inv l selected durable s o s' :
  SubInv selected s -> sub_sender s = true -> Forall event_sized selected ->
  end_wait l selected durable s = Some (o, s') ->
  SubInv [] s' /\ offer_held o = [] /\ (o = Offer_refused -> is_closed_sub s').
Proof.
  intros HI Hs Hsz Ho. unfold end_wait in Ho.
  destruct l; [destruct (try_send _ _) eqn:Ht; [|discriminate Ho]
              |destruct (try_send _ _) as [|[]]; try discriminate Ho|]; injection Ho as <- <-.
  - split_and!; [by eapply SubInv_sent|done..].
  - split_and!; [by eapply SubInv_close_sink|done|intros _; apply close_sink_closed].
  - split_and!; [by eapply SubInv_close_sink|done|intros _; apply close_sink_closed].
Qed.

Lemma spawn_inv audience config since :
  EventSubscriptionConfig_validate config = Ok tt -> SubInv [] (spawn_subscriber audience config since).
Proof.
  intros Hv. unfold EventSubscriptionConfig_validate in Hv. step Hv. crush_ok.
  assert (Hc : config_ok config) by (split; [by apply Nat.neq_0_lt_0, Nat.eqb_neq|by apply Z.eqb_neq]).
  destruct (channel_new (list SizedEvent) (esc_queue_capacity config)) as (Hq & Hcap & Hic).
  destruct (channel_new EventBatch (esc_queue_capacity config)) as (Hq' & Hcap' & _).
  assert (Hsent : sent (spawn_subscriber audience config since) = []) by (unfold sent; cbn; by rewrite Hq').
  assert (Hin : inbox_items (spawn_subscriber audience config since) = []) by (unfold inbox_items; cbn; by rewrite Hq).
  apply SubInv_split. split_and!; [by left| | | |].
  - exists [], 0%nat. rewrite Hsent. unfold in_task, backlog. rewrite Hin. split_and!; [constructor|done|by left].
  - unfold Accounts. rewrite Hsent. done.
  - unfold Frame. rewrite Hsent, Hin. cbn. rewrite Hq, Hcap, Hq', Hcap'. split_and!; try done; cbn; lia.
  - split_and!; [by apply (pending_ok_empty (mkSubTask [] 0 false PcLoop) (spawn_subscriber audience config since))|done..].
Qed.
End Invariant.

(** ** What a step leaves alone *)

Section Same.
Context {C : Type -> Type} `{!Mpsc C}.
Implicit Types s : Sub C.

(** A step of a task or of a consumer: the hub's part of the subscription and
    its past are untouched, and a closed status stays closed. *)
Definition Same (s s' : Sub C) : Prop :=
  sub_config s' = sub_config s /\ sub_offered s' = sub_offered s /\ sub_since s' = sub_since s
  /\ sub_sender s' = sub_sender s /\ (is_closed_sub s -> is_closed_sub s').

Ltac same := intros; unfold Same; by split_and!.

Lemma Same_trans s1 s2 s3 : Same s1 s2 -> Same s2 s3 -> Same s1 s3.
Proof. unfold Same. intuition congruence. Qed.

Lemma Same_status f s :
  (sst_close_reason (sub_status s) <> None -> sst_close_reason (f (sub_status s)) <> None) -> Same s (on_status f s).
Proof. same. Qed.

Lemma Same_close r s : Same s (on_status (close_status r) s).
Proof. apply Same_status. intros _. exact (close_status_closed r s). Qed.

Lemma Same_return s : Same s (task_return s).
Proof. same. Qed.

Lemma Same_resume k s : Same s (resume k s).
Proof.
  destruct k; cbn [resume]; [same..|]. eapply Same_trans; [apply Same_close|apply Same_return].
Qed.

Lemma Same_fail r k s : Same s (fail_flush r k s).
Proof.
  destruct k; cbn [fail_flush]; (eapply Same_trans; [apply Same_close|]); [apply Same_return..|].
  eapply Same_trans; [apply Same_close|apply Same_return].
Qed.

Lemma Same_delivered f k c s : Same s (delivered f k (set_out c s)).
Proof. eapply Same_trans; [|apply Same_resume]. same. Qed.

Lemma Same_flush k s : Same s (flush_pending k s).
Proof.
  unfold flush_pending. set (t := mkSubTask _ _ _ _).
  apply (Same_trans s (set_task t s)); [same|].
  destruct (EventBatch_new _ _); [|apply Same_resume].
  destruct (esc_lag_policy _); [same|destruct (existsb _ _); [same|]|];
    destruct (try_send _ _) as [|[]]; auto using Same_delivered, Same_fail.
  eapply Same_trans; [|apply Same_resume]. by apply Same_status.
Qed.

Lemma Same_task l s s' : task_step l s = Some s' -> Same s s'.
Proof.
  intros Hs. unfold task_step in Hs. destruct (st_pc (sub_task s)) as [|[|item rest]|item rest|f k|], l;
    repeat match type of Hs with
    | (if ?b then _ else _) = _ => destruct b
    | match ?o with _ => _ end = _ => destruct o
    end; try discriminate Hs; injection Hs as <-;
    auto using Same_flush, Same_delivered, Same_fail; try same.
  - eapply Same_trans; [apply Same_close|apply Same_return].
  - unfold append_item. destruct (_ && _); [apply Same_flush|same].
  - unfold push_event. set (t := mkSubTask _ _ _ _). apply (Same_trans s (set_task t s)); [same|].
    destruct (_ || _); [apply Same_flush|same].
Qed.

Lemma Same_consumer l s s' : consumer_step l s = Some s' -> Same s s'.
Proof.
  destruct l; cbn; [destruct (recv _) as [[]|]; [|done]|..]; intros [= <-]; [same|..].
  - eapply Same_trans; [apply (Same_close CloseReason_SubscriberClosed)|same].
  - eapply Same_trans; [apply (Same_close CloseReason_ReceiverDropped)|same].
Qed.

Lemma offer_records events s o s' :
  offer events s = (o, s') ->
  sub_config s' = sub_config s /\ sub_since s' = sub_since s
  /\ sub_offered s' = sub_offered s ++ wanted (sub_config s) events
  /\ (is_closed_sub s -> is_closed_sub s')
  /\ match o with
     | Offer_waits selected _ => selected = wanted (sub_config s) events /\ sub_sender s' = true
     | _ => True
     end.
Proof.
  unfold offer. fold (wanted (sub_config s) events). set (sel := wanted _ _).
  cbn [selected_for sub_sender sub_audience sub_config].
  destruct (_ =? 0)%nat; [intros [= <- <-]; by split_and!|].
  destruct (sub_sender s) eqn:Hs; [|intros [= <- <-]; by split_and!]. cbn [negb].
  destruct (sub_audience s), (esc_lag_policy (sub_config s)), (existsb _ sel); intros Ho;
    repeat match type of Ho with
    | match ?o with _ => _ end = _ => destruct o
    end; injection Ho as <- <-; (split_and!; try done); intros _; apply (close_sink_closed _ (selected_for sel s)).
Qed.

Lemma end_wait_records l selected durable s o s' :
  end_wait l selected durable s = Some (o, s') ->
  sub_config s' = sub_config s /\ sub_since s' = sub_since s /\ sub_offered s' = sub_offered s
  /\ (is_closed_sub s -> is_closed_sub s') /\ forall sel d, o <> Offer_waits sel d.
Proof.
  unfold end_wait. intros Ho. destruct l; repeat match type of Ho with
    | match ?o with _ => _ end = _ => destruct o
    end; try discriminate Ho; injection Ho as <- <-; (split_and!; try done); intros _; apply close_sink_closed.
Qed.
End Same.
