(* ===== verification/EventHubRun.v ===== *)
(** * Runs of the event hub

    The invariant of the whole hub, over the subscriptions of [EventHubSound]
    and the log of accepted publications: which events each subscription was
    offered, that the log is one contiguous sequence, and that only closed
    subscriptions leave the hub.  It holds of every state that a run of
    [hub_step] reaches. *)

From S2P Require Import Prelude Primitives Effects Records State Inputs Policy Events Compaction EventHub EventHubSound.

Section Run.
Context {C : Type -> Type} `{!Mpsc C, !MpscLaws C}.
Variable json_byte_len : RunEvent -> result Z string.
Implicit Types (h : Hub C) (s : Sub C).

(** The size of an event that was published. *)
Definition json_size (e : RunEvent) : Z := match json_byte_len e with Ok bytes => bytes | Err _ => 0 end.

Local Notation sized := (event_sized json_size).
Local Notation SubInv := (SubInv json_size).

(** The group the hub holds for a subscription while it waits for room. *)
Definition held (pc : HubPc) (id : Z) : list SizedEvent :=
  match pc with
  | HubWait id' selected _ _ _ _ => if decide (id = id') then selected else []
  | _ => []
  end.

(** The publication a subscription has yet to be offered. *)
Definition due (pc : HubPc) (id : Z) : list SizedEvent :=
  match pc with
  | HubFanOut events rest _ | HubWait _ _ _ events rest _ => if decide (id ∈ rest) then events else []
  | _ => []
  end.

(** [s] was offered what it wants of the log since it exists, but for what is
    due; a subscription that left the hub was offered a prefix. *)
Definition Offered (pc : HubPc) (log : list SizedEvent) (live : Prop) (id : Z) (s : Sub C) : Prop :=
  (sub_since s <= length log)%nat
  /\ exists rest, sub_offered s ++ rest = wanted (sub_config s) (drop (sub_since s) log)
                  /\ (live -> rest = wanted (sub_config s) (due pc id)).

Fixpoint contiguous (l : list Z) : Prop :=
  match l with
  | a :: ((b :: _) as l') => b = a + 1 /\ contiguous l'
  | _ => True
  end.

Definition sequences (l : list SizedEvent) : list Z := map (fun item => ev_transient_sequence (se_event item)) l.

Definition LogInv h : Prop :=
  contiguous (sequences (h_log h)) /\ h_next_sequence h = (Z.succ <$> last (sequences (h_log h))).

Definition rest_ok h (rest closed : list Z) : Prop :=
  NoDup rest /\ (forall id, id ∈ rest -> id ∈ h_live h)
  /\ forall id s, id ∈ closed -> h_subs h !! id = Some s -> is_closed_sub s.

Definition PcInv h : Prop :=
  match h_pc h with
  | HubFanOut events rest closed => Forall sized events /\ rest_ok h rest closed
  | HubWait id selected _ events rest closed =>
      Forall sized events /\ rest_ok h rest closed /\ id ∉ rest /\ Forall sized selected
      /\ forall s, h_subs h !! id = Some s -> sub_sender s = true
  | _ => True
  end.

Record HubInv h : Prop := {
  hi_subs id s : h_subs h !! id = Some s -> SubInv (held (h_pc h) id) s;
  hi_offered id s : h_subs h !! id = Some s -> Offered (h_pc h) (h_log h) (id ∈ h_live h) id s;
  hi_open id s : h_subs h !! id = Some s -> is_closed_sub s \/ id ∈ h_live h;
  hi_live id : id ∈ h_live h -> is_Some (h_subs h !! id);
  hi_ids id s : h_subs h !! id = Some s -> id < h_next_subscriber h;
  hi_nodup : NoDup (h_live h);
  hi_bound : (length (h_live h) <= ehc_max_subscribers (h_config h))%nat;
  hi_pc : PcInv h;
  hi_log : LogInv h
}.

Lemma hub_init config h : event_hub config = Ok h -> HubInv h.
Proof.
  unfold event_hub. intros Hv. step Hv. injection Hv as <-.
  split; cbn; try done; try set_solver; [constructor|lia].
Qed.

Lemma lookup_on_sub id f h id' s' :
  h_subs (on_sub id f h) !! id' = Some s' ->
  (id' = id /\ exists s, h_subs h !! id = Some s /\ s' = f s) \/ (id' <> id /\ h_subs h !! id' = Some s').
Proof.
  cbn. intros [[-> Hs]|[Hne Hs]]%lookup_alter_Some; [left|right; done]. split; [done|]. naive_solver.
Qed.

(** One subscription changes, and the hub stays where it is. *)
Lemma HubInv_on_sub id f h :
  HubInv h ->
  (forall s, h_subs h !! id = Some s ->
     SubInv (held (h_pc h) id) (f s)
     /\ sub_config (f s) = sub_config s /\ sub_offered (f s) = sub_offered s /\ sub_since (f s) = sub_since s
     /\ (is_closed_sub s -> is_closed_sub (f s))
     /\ (sub_sender (f s) = sub_sender s \/ h_pc h = HubRecv)) ->
  HubInv (on_sub id f h).
Proof.
  intros HI Hf. destruct HI as [HS HO Hop Hl Hi Hn Hb Hp Hlog]. split; [..|done|done| |done].
  - intros id' s' [(-> & s & Hs & ->)|[_ Hs]]%lookup_on_sub; [by apply Hf|by apply HS].
  - intros id' s' [(-> & s & Hs & ->)|[_ Hs]]%lookup_on_sub; [|by apply HO].
    destruct (Hf s Hs) as (_ & Hc & Ho & Hsi & _). specialize (HO _ _ Hs). unfold Offered in *.
    by rewrite Hc, Ho, Hsi.
  - intros id' s' [(-> & s & Hs & ->)|[_ Hs]]%lookup_on_sub; [|by apply (Hop _ s')].
    destruct (Hf s Hs) as (_ & _ & _ & _ & Hcl & _). destruct (Hop _ _ Hs); auto.
  - intros id' Hid. cbn. apply lookup_alter_is_Some. by apply Hl.
  - intros id' s' [(-> & s & Hs & ->)|[_ Hs]]%lookup_on_sub; by eapply Hi.
  - assert (Hcl : forall rest closed, rest_ok h rest closed -> rest_ok (on_sub id f h) rest closed).
    { intros rest closed (Hr1 & Hr2 & Hr3). split_and!; [done..|].
      intros id' s' Hin [(-> & s & Hs & ->)|[_ Hs]]%lookup_on_sub; [|by eapply Hr3].
      destruct (Hf s Hs) as (_ & _ & _ & _ & Hcl & _). eauto. }
    unfold PcInv in *. cbn [h_pc on_sub]. destruct (h_pc h) as [|ev rest cl|wid sel d ev rest cl| |] eqn:Hpc; try done.
    + destruct Hp as [? ?]. auto.
    + destruct Hp as (H1 & H2 & H3 & H4 & H5). split_and!; auto.
      intros s' [(-> & s & Hs & ->)|[_ Hs]]%lookup_on_sub; [|auto].
      destruct (Hf s Hs) as (_ & _ & _ & _ & _ & [-> | Hno]); [auto|done].
Qed.

Lemma sub_step_inv id f h h' :
  HubInv h -> (forall s s' hd, f s = Some s' -> SubInv hd s -> SubInv hd s' /\ Same s s') ->
  sub_step id f h = Some h' -> HubInv h'.
Proof.
  intros HI Hf Hs. unfold sub_step in Hs.
  destruct (h_subs h !! id) as [s|] eqn:Hid; [|done]. cbn in Hs. destruct (f s) as [s'|] eqn:Hfs; [|done].
  cbn in Hs. injection Hs as <-. apply HubInv_on_sub; [done|]. intros s0 Hs0.
  assert (s0 = s) as -> by congruence.
  destruct (Hf _ _ _ Hfs (hi_subs _ HI _ _ Hid)) as [HI' (Hc & Ho & Hsi & Hse & Hcl)]. split_and!; auto.
Qed.

(** *** The fan-out *)

Lemma HubInv_advance id s s' pc h :
  let h' := set_hub_pc pc (on_sub id (fun _ => s') h) in
  HubInv h -> h_subs h !! id = Some s ->
  (forall id', id' <> id -> held pc id' = held (h_pc h) id' /\ due pc id' = due (h_pc h) id') ->
  SubInv (held pc id) s' -> Offered pc (h_log h) (id ∈ h_live h) id s' ->
  (is_closed_sub s -> is_closed_sub s') -> PcInv h' -> HubInv h'.
Proof.
  intros h' [HS HO Hop Hl Hi Hn Hb Hp Hlog] Hs Hpc HI' HO' Hcl Hp'. split; [..|done|done|done|done].
  - intros id' s1 [(-> & s0 & _ & ->)|[Hne Hs1]]%(lookup_on_sub id (fun _ => s')); [done|].
    cbn. rewrite (proj1 (Hpc _ Hne)). by apply HS.
  - intros id' s1 [(-> & s0 & _ & ->)|[Hne Hs1]]%(lookup_on_sub id (fun _ => s')); [done|].
    specialize (HO _ _ Hs1). unfold Offered in *. cbn. by rewrite (proj2 (Hpc _ Hne)).
  - intros id' s1 [(-> & s0 & Hs0 & ->)|[Hne Hs1]]%(lookup_on_sub id (fun _ => s')); [|by apply (Hop _ s1)].
    destruct (Hop _ _ Hs) as [Hc|Hc]; [left; auto|by right].
  - intros id' Hid. cbn. apply lookup_alter_is_Some. by apply Hl.
  - intros id' s1 [(-> & s0 & Hs0 & ->)|[Hne Hs1]]%(lookup_on_sub id (fun _ => s')); by eapply Hi.
Qed.

Lemma rest_ok_advance id s s' pc rest closed h (refused : bool) :
  rest_ok h rest closed -> h_subs h !! id = Some s ->
  (is_closed_sub s -> is_closed_sub s') -> (refused = true -> is_closed_sub s') ->
  rest_ok (set_hub_pc pc (on_sub id (fun _ => s') h)) rest (if refused then closed ++ [id] else closed).
Proof.
  intros (H1 & H2 & H3) Hs Hcl Hr. split_and!; [done..|].
  intros id' s1 Hin [(-> & s0 & Hs0 & ->)|[Hne Hs1]]%(lookup_on_sub id (fun _ => s')).
  - destruct refused; [by apply Hr|]. eauto.
  - apply (H3 id'); [|done]. destruct refused; [|done]. set_solver.
Qed.

Lemma wanted_nil config : wanted config [] = [].
Proof. done. Qed.

Lemma wanted_app config l l' : wanted config (l ++ l') = wanted config l ++ wanted config l'.
Proof. apply List.filter_app. Qed.

Lemma after_offer_pc id o ev rest closed id' :
  id ∉ rest ->
  due (after_offer id o ev rest closed) id = []
  /\ held (after_offer id o ev rest closed) id = offer_held o
  /\ (id' <> id -> held (after_offer id o ev rest closed) id' = []
                  /\ due (after_offer id o ev rest closed) id' = if decide (id' ∈ rest) then ev else []).
Proof.
  intros Hn. destruct o; cbn; rewrite ?(decide_False _ _ Hn), ?decide_True by done; split_and!; try done.
  intros Hne. by rewrite decide_False.
Qed.

(** The state of the hub after a subscription was dealt with. *)
Lemma after_offer_inv id s s' o ev rest closed h :
  HubInv h -> h_subs h !! id = Some s -> id ∉ rest ->
  (forall id', id' <> id -> held (h_pc h) id' = [] /\ due (h_pc h) id' = if decide (id' ∈ rest) then ev else []) ->
  Forall sized ev -> rest_ok h rest closed ->
  SubInv (offer_held o) s' -> (is_closed_sub s -> is_closed_sub s') -> (o = Offer_refused -> is_closed_sub s') ->
  (forall sel d, o = Offer_waits sel d -> Forall sized sel /\ sub_sender s' = true) ->
  Offered HubRecv (h_log h) (id ∈ h_live h) id s' ->
  HubInv (set_hub_pc (after_offer id o ev rest closed) (on_sub id (fun _ => s') h)).
Proof.
  intros HI Hs Hn Hpc Hev Hr HI' Hcl Href Hw HO.
  apply (HubInv_advance id s); [done..| | | |done|].
  - intros id' Hne. destruct (after_offer_pc id o ev rest closed id' Hn) as (_ & _ & Ha).
    destruct (Ha Hne) as [-> ->]. destruct (Hpc _ Hne) as [-> ->]. done.
  - by rewrite (proj1 (proj2 (after_offer_pc id o ev rest closed 0 Hn))).
  - unfold Offered in *. by rewrite (proj1 (after_offer_pc id o ev rest closed 0 Hn)).
  - unfold PcInv. cbn [h_pc set_hub_pc]. destruct o as [| |sel d]; cbn [after_offer].
    + split; [done|]. by apply (rest_ok_advance id s s' _ rest closed h false).
    + split; [done|]. apply (rest_ok_advance id s s' _ rest closed h true); auto.
    + destruct (Hw _ _ eq_refl) as [Hsz Hse]. split_and!; [done| |done|done|].
      * by apply (rest_ok_advance id s s' _ rest closed h false).
      * intros s1 [(_ & s0 & _ & ->)|[Hne _]]%(lookup_on_sub id (fun _ => s')); done.
Qed.

Lemma fan_out_inv h h' : HubInv h -> fan_out_step h = Some h' -> HubInv h'.
Proof.
  intros HI Hs. pose proof (hi_pc _ HI) as Hp. unfold fan_out_step, PcInv in *.
  destruct (h_pc h) as [|ev [|id rest] closed| | |] eqn:Hpc; try discriminate Hs.
  - injection Hs as <-. destruct Hp as (_ & _ & _ & Hclosed).
    destruct HI as [HS HO Hop Hl Hi Hn Hb _ Hlog].
    assert (Hin : forall id, id ∈ List.filter (fun id => negb (bool_decide (id ∈ closed))) (h_live h)
                             <-> id ∈ h_live h /\ id ∉ closed).
    { intros id. rewrite !list_elem_of_In, filter_In, negb_true_iff, bool_decide_eq_false. by rewrite list_elem_of_In. }
    split; cbn; [..| |done|done].
    + intros id s Hs. specialize (HS _ _ Hs). by rewrite Hpc in HS.
    + intros id s Hs. specialize (HO _ _ Hs). rewrite Hpc in HO. destruct HO as (? & r & ? & Hlive).
      split; [done|]. exists r. split; [done|]. intros [Hid _]%Hin. rewrite (Hlive Hid). cbn.
      rewrite decide_False; [done|]. set_solver.
    + intros id s Hs. destruct (Hop _ _ Hs) as [?|Hid]; [by left|].
      destruct (decide (id ∈ closed)) as [Hc|Hc]; [left; by eapply Hclosed|right; by apply Hin].
    + intros id [Hid _]%Hin. by apply Hl.
    + done.
    + by apply NoDup_ListNoDup, List.NoDup_filter, NoDup_ListNoDup.
    + etrans; [apply filter_length_le|done].
  - destruct Hp as (Hev & Hnd & Hsub & Hclosed). apply NoDup_cons in Hnd as [Hid Hnd].
    destruct (h_subs h !! id) as [s|] eqn:Hsid; [|discriminate Hs].
    destruct (offer ev s) as [o s'] eqn:Ho. injection Hs as <-.
    pose proof (hi_subs _ HI _ _ Hsid) as HSI. rewrite Hpc in HSI.
    destruct (offer_inv _ _ _ _ _ HSI Hev Ho) as [HI' Href].
    destruct (offer_records _ _ _ _ Ho) as (Hc & Hsi & Hoff & Hcl & Hw).
    eapply after_offer_inv; try done.
    + intros id' Hne. rewrite Hpc. cbn. split; [done|].
      destruct (decide (id' ∈ rest)) as [Hr|Hr]; [rewrite decide_True by set_solver; done|].
      rewrite decide_False by set_solver. done.
    + split_and!; [done| |done]. set_solver.
    + intros sel d ->. destruct Hw as [-> Hse]. split; [by apply filter_sized|done].
    + destruct (hi_offered _ HI _ _ Hsid) as (Hle & r & Hr & Hlive). unfold Offered. rewrite Hc, Hsi, Hoff.
      split; [done|]. exists []. split; [|done]. rewrite Hlive in Hr by (apply Hsub; set_solver).
      rewrite Hpc in Hr. cbn in Hr. rewrite decide_True in Hr by set_solver. by rewrite app_nil_r.
Qed.

Lemma wait_inv l h h' : HubInv h -> wait_step l h = Some h' -> HubInv h'.
Proof.
  intros HI Hs. pose proof (hi_pc _ HI) as Hp. unfold wait_step, PcInv in *.
  destruct (h_pc h) as [| |id sel d ev rest closed| |] eqn:Hpc; try discriminate Hs.
  destruct Hp as (Hev & Hr & Hid & Hsel & Hsend).
  destruct (h_subs h !! id) as [s|] eqn:Hsid; [|discriminate Hs]. cbn in Hs.
  destruct (end_wait l sel d s) as [[o s']|] eqn:Ho; [|discriminate Hs]. cbn in Hs. injection Hs as <-.
  pose proof (hi_subs _ HI _ _ Hsid) as HSI. rewrite Hpc in HSI. cbn in HSI. rewrite decide_True in HSI by done.
  destruct (end_wait_inv _ _ _ _ _ _ _ HSI (Hsend _ eq_refl) Hsel Ho) as (HI' & Hheld & Href).
  destruct (end_wait_records _ _ _ _ _ _ Ho) as (Hc & Hsi & Hoff & Hcl & Hnw).
  eapply after_offer_inv; try done.
  - intros id' Hne. rewrite Hpc. cbn. by rewrite decide_False.
  - by rewrite Hheld.
  - intros sel' d' ->. by destruct (Hnw sel' d').
  - destruct (hi_offered _ HI _ _ Hsid) as (Hle & r & Hrr & Hlive). unfold Offered. rewrite Hc, Hsi, Hoff.
    split; [done|]. exists r. split; [done|]. intros Hl. rewrite (Hlive Hl), Hpc. cbn. by rewrite decide_False.
Qed.

(** *** Publications *)

Lemma contiguous_app l l' :
  contiguous l -> contiguous l' ->
  (forall a b, last l = Some a -> head l' = Some b -> b = a + 1) -> contiguous (l ++ l').
Proof.
  intros Hl Hl' Hb. induction l as [|a [|c l] IH]; [done| |].
  - destruct l' as [|b l']; [done|]. split; [by apply Hb|done].
  - destruct Hl as [Hc Hl]. split; [done|]. apply IH; [done|]. intros x y Hx. by apply Hb.
Qed.

Lemma expect_sequences e l e' :
  rfold expect_sequence e l = Ok e' ->
  contiguous l /\ (forall b, head l = Some b -> b = e) /\ (l <> [] -> Z.succ <$> last l = Some e').
Proof.
  revert e. induction l as [|a l IH]; intros e H; [done|]. cbn in H. step H.
  unfold expect_sequence in E. step E. apply reject_if_Ok, negb_false_iff, Z.eqb_eq in E0 as ->.
  apply ok_or_Ok, in_range_Some in E as [-> _]. destruct (IH _ H) as (Hc & Hh & Hl).
  split_and!; [|naive_solver|].
  - destruct l as [|b l]; [done|]. split; [by apply Hh|done].
  - intros _. destruct l as [|b l]; [|by apply Hl]. cbn in H. injection H as <-. cbn. by rewrite Z.add_1_r.
Qed.

Lemma validate_sequences ev h next :
  LogInv h -> ev <> [] -> validate_source_order ev (h_next_sequence h) = Ok next ->
  contiguous (sequences (h_log h ++ ev)) /\ next = (Z.succ <$> last (sequences (h_log h ++ ev))).
Proof.
  intros [Hc Hn] Hne Hv. unfold validate_source_order in Hv. fold (sequences ev) in Hv.
  destruct (sequences ev) as [|a l] eqn:El; [by destruct ev|].
  unfold validate_event_sequences in Hv. step Hv. injection Hv as <-.
  destruct (expect_sequences _ _ _ E) as (Hce & Hh & Hl). unfold sequences. rewrite map_app.
  fold (sequences (h_log h)) (sequences ev). rewrite El. split.
  - apply contiguous_app; [done..|]. intros x y Hx Hy. rewrite (Hh _ Hy), Hn, Hx. cbn. lia.
  - rewrite last_app_cons. by rewrite Hl.
Qed.

Lemma size_events events acc sized' :
  rfold (size_event json_byte_len) acc events = Ok sized' -> Forall sized acc ->
  Forall sized sized' /\ map se_event sized' = map se_event acc ++ events.
Proof.
  revert acc. induction events as [|e l IH]; intros acc H Hacc; cbn in H.
  - injection H as <-. by rewrite app_nil_r.
  - step H. unfold size_event in E. step E. injection E as <-.
    destruct (IH _ H) as [H1 H2].
    + apply Forall_app. split; [done|]. apply Forall_singleton. unfold event_sized, json_size. cbn. by rewrite E0.
    + split; [done|]. rewrite H2, map_app, <- app_assoc. done.
Qed.

Lemma publish_inv events h : HubInv h -> h_pc h = HubRecv -> HubInv (publish json_byte_len events h).1.
Proof.
  intros HI Hpc. unfold publish. destruct (_ =? 0)%nat eqn:Hz; [done|].
  destruct (rfold _ _ _) as [ev|] eqn:Hsz; [|done].
  destruct (size_events _ _ _ Hsz (Forall_nil_2 _)) as [Hev Hmap]. unfold hub_answers, handle_publish. rewrite Hpc at 1.
  destruct (validate_source_order _ _) as [next|] eqn:Hv; [|done]. cbn.
  assert (Hne : ev <> []) by (intros ->; by destruct events).
  destruct HI as [HS HO Hop Hl Hi Hn Hb Hp Hlog]. rewrite Hpc in *.
  split; cbn; try done.
  - intros id s Hs. destruct (HO _ _ Hs) as (Hle & r & Hr & Hlive). split; [rewrite length_app; lia|].
    exists (r ++ wanted (sub_config s) ev). rewrite drop_app_le, wanted_app, app_assoc, Hr by done. split; [done|].
    intros Hid. rewrite (Hlive Hid). cbn. by rewrite decide_True.
  - split; [done|]. split_and!; [done..|]. set_solver.
  - by apply (validate_sequences ev h next).
Qed.

(** *** Subscriptions come and go *)

Lemma HubInv_take_all f ids h :
  HubInv h -> h_pc h = HubRecv ->
  (forall id s, id ∈ ids -> h_subs h !! id = Some s -> forall hd s', SubInv hd s' -> (is_closed_sub s -> is_closed_sub s') ->
     SubInv [] (f s') /\ is_closed_sub (f s')) ->
  (forall s, sub_config (f s) = sub_config s /\ sub_offered (f s) = sub_offered s /\ sub_since (f s) = sub_since s) ->
  let h' := foldr (fun id h => on_sub id f h) h ids in
  HubInv h' /\ h_pc h' = HubRecv /\ h_live h' = h_live h /\ h_log h' = h_log h
  /\ h_config h' = h_config h /\ h_next_subscriber h' = h_next_subscriber h
  /\ (forall id s', h_subs h' !! id = Some s' ->
       exists s, h_subs h !! id = Some s /\ (is_closed_sub s \/ id ∈ ids -> is_closed_sub s')).
Proof.
  intros HI Hpc Hf Hsame. induction ids as [|id ids IH]; cbn [foldr].
  - split_and!; try done. intros id s' Hs. exists s'. split; [done|]. set_solver.
  - destruct IH as (HI1 & Hpc1 & Hl1 & Hlog1 & Hc1 & Hn1 & Hs1); [intros; eapply Hf; [|done..]; set_solver|].
    set (h1 := foldr _ _ _) in *.
    assert (Hfid : forall s, h_subs h1 !! id = Some s -> SubInv [] (f s) /\ is_closed_sub (f s)).
    { intros s Hs. destruct (Hs1 _ _ Hs) as (s0 & Hs0 & Hcl0).
      pose proof (hi_subs _ HI1 _ _ Hs) as HSI. eapply (Hf id s0); [set_solver|done|done|]. auto. }
    split_and!; [|done..|].
    + apply HubInv_on_sub; [done|]. intros s Hs. destruct (Hfid _ Hs) as [H1 H2]. destruct (Hsame s) as (? & ? & ?).
      rewrite Hpc1. split_and!; auto.
    + intros id' s' [(-> & s & Hs & ->)|[Hne Hs]]%lookup_on_sub.
      * destruct (Hs1 _ _ Hs) as (s0 & Hs0 & _). exists s0. split; [done|]. intros _. by apply Hfid.
      * destruct (Hs1 _ _ Hs) as (s0 & Hs0 & Hcl0). exists s0. split; [done|]. set_solver.
Qed.

Lemma inactive_closed h id s :
  HubInv h -> h_subs h !! id = Some s -> is_active s = false -> is_closed_sub s.
Proof.
  intros HI Hs Ha. destruct (hi_subs _ HI _ _ Hs) as [_ Hpc]. unfold is_active in Ha.
  apply andb_false_iff in Ha as [Hr|[Hse|Hic%negb_false_iff]%andb_false_iff].
  - unfold is_closed_sub. by destruct (sst_close_reason _).
  - assert (HFr : Frame json_size s) by (destruct (st_pc (sub_task s)); apply Hpc). by apply HFr.
  - destruct (st_pc (sub_task s)); try (exfalso; assert (is_closed (sub_inbox s) = false) by apply Hpc; congruence).
    apply Hpc.
Qed.

(** The live subscriptions are cut down to [live]; the others are closed. *)
Lemma HubInv_set_live live h :
  HubInv h -> NoDup live -> (forall id, id ∈ live -> id ∈ h_live h) -> (length live <= length (h_live h))%nat ->
  (forall id s, h_subs h !! id = Some s -> id ∈ h_live h -> id ∈ live \/ is_closed_sub s) ->
  h_pc h = HubRecv -> HubInv (set_live live h).
Proof.
  intros [HS HO Hop Hl Hi Hn Hb Hp Hlog] Hnd Hsub Hlen Hcl Hpc.
  assert (Hpc' : PcInv (set_live live h)) by (unfold PcInv; cbn; by rewrite Hpc).
  split; cbn; try done.
  - intros id s Hs. destruct (HO _ _ Hs) as (Hle & r & Hr & Hlive). split; [done|]. exists r. split; [done|]. auto.
  - intros id s Hs. destruct (Hop _ _ Hs) as [?|Hid]; [by left|]. destruct (Hcl _ _ Hs Hid); auto.
  - auto.
  - lia.
Qed.

Lemma retain_inv h : HubInv h -> h_pc h = HubRecv -> HubInv (retain_active h) /\ h_pc (retain_active h) = HubRecv.
Proof.
  intros HI Hpc. unfold retain_active. set (gone := List.filter (fun id => negb (live_active h id)) (h_live h)).
  assert (Hgone : forall id, id ∈ gone <-> id ∈ h_live h /\ live_active h id = false).
  { intros id. unfold gone. by rewrite !list_elem_of_In, filter_In, negb_true_iff. }
  assert (Hkept : forall id, id ∈ List.filter (live_active h) (h_live h) <-> id ∈ h_live h /\ live_active h id = true).
  { intros id. by rewrite !list_elem_of_In, filter_In. }
  assert (Hclosed : forall id s, id ∈ gone -> h_subs h !! id = Some s -> is_closed_sub s).
  { intros id s [_ Ha]%Hgone Hs. unfold live_active in Ha. rewrite Hs in Ha. by eapply inactive_closed. }
  destruct (HubInv_take_all take_sender gone h) as (HI1 & Hpc1 & Hl1 & _ & _ & _ & Hs1); [done..| |done|].
  { intros id s Hid Hs hd s' HSI Hc. pose proof (Hc (Hclosed _ _ Hid Hs)) as Hc'.
    split; [by eapply SubInv_take_sender|exact Hc']. }
  split; [|done]. apply HubInv_set_live; [done|..|done].
  - apply NoDup_ListNoDup, List.NoDup_filter, NoDup_ListNoDup, HI.
  - rewrite Hl1. intros id. rewrite Hkept. tauto.
  - rewrite Hl1. apply filter_length_le.
  - rewrite Hl1. intros id s' Hs' Hid. destruct (Hs1 _ _ Hs') as (s & Hs & Hcl).
    destruct (live_active h id) eqn:Ha; [left; by apply Hkept|right]. apply Hcl. right. by apply Hgone.
Qed.

Lemma subscribe_inv audience config h :
  HubInv h -> h_pc h = HubRecv -> HubInv (subscribe audience config h).1.
Proof.
  intros HI Hpc. unfold subscribe. destruct (EventSubscriptionConfig_validate config) as [[]|] eqn:Hv; [|done].
  unfold hub_answers. rewrite Hpc.
  destruct (retain_inv h HI Hpc) as [HI1 Hpc1]. unfold handle_subscribe. set (h1 := retain_active h) in *.
  destruct (_ <=? _)%nat eqn:Hcap; [done|]. apply Nat.leb_gt in Hcap.
  destruct (u64_checked_add _ 1) as [next|] eqn:Hnext; [|done]. apply in_range_Some in Hnext as [-> _].
  destruct HI1 as [HS HO Hop Hl Hi Hn Hb Hp Hlog]. rewrite Hpc1 in *.
  assert (Hfresh : h_next_subscriber h1 ∉ h_live h1).
  { intros Hin. destruct (Hl _ Hin) as [s Hs]. specialize (Hi _ _ Hs). lia. }
  clearbody h1. split; cbn [h_subs h_live h_next_subscriber h_next_sequence h_pc h_log h_config fst]; rewrite ?Hpc1.
  - intros id s [[<- <-]|[_ Hs]]%lookup_insert_Some; [by apply spawn_inv|by apply HS].
  - intros id s [[<- <-]|[Hne Hs]]%lookup_insert_Some.
    + split; [done|]. exists []. cbn [sub_offered sub_since sub_config spawn_subscriber app]. by rewrite drop_all.
    + destruct (HO _ _ Hs) as (Hle & r & Hr & Hlive). split; [done|]. exists r. split; [done|].
      intros [Hid|Hid]%elem_of_app; [auto|]. apply list_elem_of_singleton in Hid. congruence.
  - intros id s [[<- <-]|[Hne Hs]]%lookup_insert_Some; [right; set_solver|].
    destruct (Hop _ _ Hs); [by left|right; set_solver].
  - intros id [Hid|Hid]%elem_of_app; apply lookup_insert_is_Some'; [right; auto|left; set_solver].
  - intros id s [[<- <-]|[Hne Hs]]%lookup_insert_Some; [lia|]. specialize (Hi _ _ Hs). lia.
  - apply NoDup_app. split_and!; [done|set_solver|apply NoDup_singleton].
  - rewrite length_app. cbn. lia.
  - unfold PcInv. cbn [h_pc]. by rewrite ?Hpc1.
  - done.
Qed.

Lemma close_inv h : HubInv h -> h_pc h = HubRecv -> HubInv (handle_close h).
Proof.
  intros HI Hpc. unfold handle_close.
  destruct (HubInv_take_all (close_sink CloseReason_HubClosed) (h_live h) h)
    as (HI1 & Hpc1 & Hl1 & _ & _ & _ & Hs1); [done..| |done|].
  { intros id s _ _ hd s' HSI _. split; [by eapply SubInv_close_sink|apply close_sink_closed]. }
  set (h1 := foldr _ _ _) in *.
  assert (HI2 : HubInv (set_live [] h1)).
  { apply HubInv_set_live; [done|constructor|set_solver|cbn; lia| |done].
    intros id s Hs Hid. right. destruct (Hs1 _ _ Hs) as (s0 & _ & Hcl). apply Hcl. right. by rewrite <- Hl1. }
  destruct HI2 as [HS HO Hop Hl Hi Hn Hb Hp Hlog]. cbn in *. rewrite Hpc1 in *. by split.
Qed.

Lemma join_inv h h' : HubInv h -> join_step h = Some h' -> HubInv h'.
Proof.
  intros HI Hs. unfold join_step in Hs. destruct (h_pc h) eqn:Hpc; try discriminate Hs.
  destruct (forallb _ _); [|discriminate Hs]. injection Hs as <-.
  destruct HI as [HS HO Hop Hl Hi Hn Hb Hp Hlog]. rewrite Hpc in *. by split.
Qed.

Lemma hub_step_inv l h h' : HubInv h -> hub_step json_byte_len l h = Some h' -> HubInv h'.
Proof.
  intros HI Hs. unfold hub_step in Hs. destruct l.
  1-3: destruct (h_pc h) eqn:Hpc; try discriminate Hs; injection Hs as <-;
    auto using subscribe_inv, publish_inv, close_inv.
  - by eapply fan_out_inv.
  - by eapply wait_inv.
  - by eapply join_inv.
  - eapply sub_step_inv; [done| |done]. intros s s' hd Hf HSI. split; [by eapply task_inv|by eapply Same_task].
  - eapply sub_step_inv; [done| |done]. intros s s' hd Hf HSI. split; [by eapply consumer_inv|by eapply Same_consumer].
Qed.

(** The states of the hub. *)
Definition hub_reaches (config : EventHubConfig) h : Prop :=
  exists h0 ls, event_hub config = Ok h0 /\ hub_run json_byte_len ls h0 = Some h.

Theorem hub_invariant config h : hub_reaches config h -> HubInv h.
Proof.
  intros (h0 & ls & H0 & Hr). apply hub_init in H0. revert h0 H0 Hr.
  induction ls as [|l ls IH]; intros h0 H0 Hr; cbn in Hr; [by injection Hr as <-|].
  destruct (hub_step _ l h0) as [h1|] eqn:Hs; [|discriminate Hr]. cbn in Hr.
  eapply IH; [|done]. by eapply hub_step_inv.
Qed.

(** ** What follows *)

Lemma SubInv_parts hd s :
  SubInv hd s ->
  (exists done, Flow done (in_task s) hd s) /\ Accounts s /\ Frame json_size s.
Proof. intros (_ & HF & HA & HFr & _)%SubInv_split. eauto. Qed.

Lemma wanted_log_sublist h id s :
  HubInv h -> h_subs h !! id = Some s ->
  sub_offered s `sublist_of` wanted (sub_config s) (drop (sub_since s) (h_log h)).
Proof. intros HI Hs. destruct (hi_offered _ HI _ _ Hs) as (_ & r & <- & _). by apply sublist_inserts_r. Qed.

Lemma contiguous_sorted l : contiguous l -> StronglySorted Z.lt l.
Proof.
  induction l as [|b [|c l] IH]; intros Hc; [constructor|repeat constructor|].
  destruct Hc as [-> Hc]. specialize (IH Hc). constructor; [done|].
  inversion IH as [|? ? Hs Hf]; subst. constructor; [lia|]. eapply Forall_impl; [done|]. intros x. lia.
Qed.

Lemma sorted_sublist (l l' : list Z) : l `sublist_of` l' -> StronglySorted Z.lt l' -> StronglySorted Z.lt l.
Proof.
  induction 1 as [|a l l' Hs IH|a l l' Hs IH]; intros Hss; [done| |]; inversion Hss as [|? ? Hs1 Hf]; subst; [|auto].
  constructor; [auto|]. apply Forall_forall. intros x Hx. apply (proj1 (Forall_forall _ _) Hf). by eapply elem_of_sublist.
Qed.

(** The events the consumer has, or will find in the queue. *)
Definition delivered_events (s : Sub C) : list RunEvent := batch_events (sent s).

(** What a subscription was published for it, as events. *)
Definition published_for h (s : Sub C) : list RunEvent :=
  map se_event (wanted (sub_config s) (drop (sub_since s) (h_log h))).

Lemma delivered_sublist h id s :
  HubInv h -> h_subs h !! id = Some s -> delivered_events s `sublist_of` published_for h s.
Proof.
  intros HI Hs. destruct (SubInv_parts _ _ (hi_subs _ HI _ _ Hs)) as ((d & lost & n & HL & _) & _).
  etrans; [|apply fmap_sublist; by eapply wanted_log_sublist]. etrans; [|by eapply Lossy_sublist].
  by apply sublist_inserts_r.
Qed.

Lemma published_sorted h s : HubInv h -> StronglySorted Z.lt (map ev_transient_sequence (published_for h s)).
Proof.
  intros HI. destruct (hi_log _ HI) as [Hc _]. apply contiguous_sorted in Hc.
  eapply sorted_sublist; [|done]. unfold published_for, sequences. rewrite map_map.
  apply fmap_sublist. etrans; [|apply (sublist_drop (h_log h) (sub_since s))].
  unfold wanted. induction (drop _ _) as [|a l IH]; [done|]. cbn. destruct (EventFilter_matches _ _); by constructor.
Qed.

(** An open subscription: nothing is lost but counted progress. *)
Lemma open_subscription h id s :
  HubInv h -> h_subs h !! id = Some s -> sst_close_reason (sub_status s) = None ->
  exists n,
    Lossy (published_for h s)
      (carried s ++ map se_event (held (h_pc h) id ++ wanted (sub_config s) (due (h_pc h) id))) n
    /\ eds_dropped_progress (sst_stats (sub_status s)) = Z.min u64_max (Z.of_nat n).
Proof.
  intros HI Hs Hopen. destruct (SubInv_parts _ _ (hi_subs _ HI _ _ Hs)) as ((d & lost & n & HL & Hn & Hl) & _).
  assert (lost = []) as -> by (destruct Hl as [?|[Hc _]]; done).
  destruct (hi_open _ HI _ _ Hs) as [Hc|Hlive]; [done|].
  destruct (hi_offered _ HI _ _ Hs) as (_ & r & Hr & Hdue). rewrite (Hdue Hlive) in Hr.
  exists n. split; [|done]. unfold published_for, carried. rewrite <- Hr, !map_app, <- app_assoc.
  apply Lossy_snoc with (l := map se_event (wanted (sub_config s) (due (h_pc h) id))) in HL.
  cbn in HL. rewrite <- !app_assoc in HL. by rewrite <- ?app_assoc.
Qed.
End Run.
