(* ===== verification/SampleStore.v ===== *)
(** * A concrete session

    A session driven through the coordinator and the in-memory store: the
    session and its lane are created, a run is accepted and prepared, and a
    model turn appends its message, beside which the coordinator commits a
    conversation entry.  The states of this session are the concrete inputs at
    which the theorems on stores, recovery and the coordinator are instantiated.

    The host is a list of the calls made on it, and the serializer of a state
    is a toy: the states of the session are numbered. *)

From S2P Require Import Prelude Ids Floats Cbor CborCodec CborDecode Serializer.
From S2P Require Import Primitives Effects Records State Inputs ToolBatch Digests Policy ApplyStage ApplyTools ApplyEffects ApplyRecord Shapes Events Apply Decide DecideLimit DecideTools DecideStage DecideSettle DecideControl Reducer BatchOrder History PhaseMachine PhaseBatch Reach Journal Decisions.
From S2P Require Import Conversation Validate Chain ChainIntegrity Append Snapshot Store StoreChain MemoryStore StoreJournal Recover RecoverSound Dispatch Coordinator CoordinatorSound Sample.

(** ** The host and the continuations *)

Inductive HostCall : Type :=
| HostCall_Publish (events : list RunEvent)
| HostCall_Dispatch (action : PostCommitAction).
#[global] Instance toy_host : Host (list HostCall) := {|
  host_validate_before_commit _ _ := Ok tt;
  host_publish w events := (w ++ [HostCall_Publish events], Ok tt);
  host_dispatch w d := (w ++ [HostCall_Dispatch (rd_action d)], Ok tt)
|}.
#[global] Instance toy_continuations : Continuations := {| continuation_state_of _ := Some None |}.

(** ** The inputs *)

Definition lane_drafts : list RecordDraft :=
  [mkRecordDraft 1 RECORD_KIND_VERSION 800 1 2 None 50 [] (RecordBody_SessionCreated (mkSessionCreated METADATA_EMPTY));
   mkRecordDraft 1 RECORD_KIND_VERSION 801 1 2 None 50 [] (RecordBody_LaneCreated (mkLaneCreated "main"))].

(** An environment whose identities start at [base], the batch's included. *)
Definition submit_env (base : N) (now : Timestamp) (records events effects turns requests messages : nat) : TransitionEnv :=
  mkTransitionEnv now
    (mkAllocatedIds (fresh base records) (fresh (base + 100) events) (fresh (base + 200) effects) [] (fresh (base + 500) messages) (fresh (base + 300) turns)
       (fresh (base + 400) requests) [] [] [base] []).

Definition settle (stage : Stage) (outcome : ReducerStageOutcome) : KernelInput :=
  KernelInput_StageSettled (mkStageSettled (mkStageCursor 0 stage) outcome).
Definition accept_session_run : KernelInput := KernelInput_AcceptRun (mkAcceptRun 1 2 sample_accept).
Definition answer : KernelInput :=
  KernelInput_ModelSettled
    (mkModelSettled 22300 23400
       (ModelSettlement_Completed (model_completed 23200)
          (mkMessage 24500 MessageRole_Assistant [ContentBlock_Text (mkTextBlock "done")] 500 None ProviderIds_empty METADATA_EMPTY))).

Definition store_limits : StoreLimits := mkStoreLimits 10 100 100 10000.
Definition empty_store : MemoryJournalStore := mkMemoryJournalStore store_limits (mkInner ∅ ∅ ∅) ∅.

Section Session.
Context `{SnapshotWire}.

Definition ToySystem : Type := System (S := MemoryJournalStore) (W := list HostCall).
Definition start : ToySystem :=
  mkSystem (mkCommitCoordinator KernelState_default SessionProjection_default 0 None 9 None None None None true true
              ReplayScope_Primary None ∅ ∅) empty_store [].

Definition after {A} (m : M (S := MemoryJournalStore) (W := list HostCall) A) (s : ToySystem) : ToySystem := (m s).1.

Definition session0 : ToySystem := after (commit_session_records 800 lane_drafts) start.
Definition session1 : ToySystem := after (submit (submit_env 20000 100 1 1 0 0 0 0) accept_session_run) session0.
Definition session2 : ToySystem := after (submit (submit_env 21000 200 1 0 0 0 0 0) (settle Stage_BeforeRun ReducerStageOutcome_Continue)) session1.
Definition session3 : ToySystem :=
  after (submit (submit_env 22000 300 2 0 0 1 0 0) (settle Stage_PrepareContext (ReducerStageOutcome_ContextPrepared [user_message]))) session2.
Definition session4 : ToySystem :=
  after (submit (submit_env 23000 400 2 1 1 0 1 0)
           (settle Stage_BeforeModel (ReducerStageOutcome_ModelRequestPrepared "{}" None model_contract RetrySafety_SafeToRetry None))) session3.
Definition session5 : ToySystem := after (submit (submit_env 24000 500 2 2 0 0 0 1) answer) session4.
End Session.

(** ** A serializer of states *)

#[global] Instance ActiveToolBatch_eq_dec : EqDecision ActiveToolBatch.
Proof. solve_decision. Defined.
#[global] Instance KernelState_eq_dec : EqDecision KernelState.
Proof. solve_decision. Defined.

Definition mute_wire : SnapshotWire :=
  {| state_serde _ := Serde_unit; json_serde _ := Serde_unit; state_hash _ := None;
     envelope_v1_of _ := Err (ProtocolError_Codec "v1"); envelope_v2_of _ := Err (ProtocolError_Codec "v2") |}.
Definition kernel4 : KernelState := Eval vm_compute in co_kernel (sys_co (session4 (H := mute_wire))).
Definition kernel5 : KernelState := Eval vm_compute in co_kernel (sys_co (session5 (H := mute_wire))).
Definition saved_states : list KernelState := [kernel4; kernel5].

Definition saved_index (s : KernelState) : option nat := position (fun k => bool_decide (s = k)) saved_states.

Fixpoint bytes_of_hex (l : bytes) : option (list N) :=
  match l with
  | c :: d :: rest => hi ← hex_nibble c; lo ← hex_nibble d; rs ← bytes_of_hex rest; Some (N.lor (N.shiftl hi 4) lo :: rs)
  | [] => Some []
  | _ => None
  end.
Definition digest_of_hex (l : bytes) : option Digest := of_be_bytes <$> bytes_of_hex l.

Definition toy_timer (v : CanonicalValue) : option (option Timestamp) :=
  match v with
  | CanonicalValue_Null => Some None
  | CanonicalValue_Unsigned n => Some (Some (Z.of_N n))
  | CanonicalValue_Negative n => Some (Some (Z.lnot (Z.of_N n)))
  | _ => None
  end.
Definition toy_continuation (v : option CanonicalValue) : option (option RawJson) :=
  match v with
  | None => Some None
  | Some (CanonicalValue_Bytes b) => Some (Some (String.string_of_list_ascii b))
  | Some _ => None
  end.

Definition toy_envelope (entries : list (CanonicalValue * CanonicalValue)) : option SnapshotEnvelopeV2 :=
  let under name := find_map (value_under name) entries in
  match under "format_version", under "sequence", under "head_checksum", under "state_hash", under "state" with
  | Some (CanonicalValue_Unsigned version), Some (CanonicalValue_Unsigned sequence), Some (CanonicalValue_Text checksum),
    Some (CanonicalValue_Text hash), Some (CanonicalValue_Unsigned index) =>
      checksum ← digest_of_hex checksum; hash ← digest_of_hex hash;
      timer ← under "pending_timer_scheduled_at" ≫= toy_timer;
      continuation ← toy_continuation (under "last_model_continuation");
      state ← saved_states !! N.to_nat index;
      Some (mkSnapshotEnvelopeV2 (Z.of_N version) (Z.of_N sequence) checksum hash timer continuation state)
  | _, _, _, _, _ => None
  end.

#[global] Instance toy_snapshot_wire : SnapshotWire := {|
  state_serde s := Serde_u64 (N.of_nat (default 0%nat (saved_index s)));
  json_serde j := Serde_bytes (text j);
  state_hash s := N.of_nat <$> saved_index s;
  envelope_v1_of _ := Err (ProtocolError_Codec "v1");
  envelope_v2_of v :=
    match v with
    | CanonicalValue_Map entries => ok_or (toy_envelope entries) (ProtocolError_Codec "v2")
    | _ => Err (ProtocolError_Codec "v2")
    end
|}.

Lemma saved_index_Some s i : saved_index s = Some i -> saved_states !! i = Some s /\ (i < 2)%nat.
Proof.
  intros HH. pose proof HH as HH'. unfold saved_index, saved_states, position in HH'.
  destruct (bool_decide_reflect (s = kernel4)) as [->|]; [injection HH' as <-; split; [done|lia]|].
  destruct (bool_decide_reflect (s = kernel5)) as [->|]; [injection HH' as <-; split; [done|lia]|]. done.
Qed.

Lemma digest_of_hex_text d : (d < 2 ^ 256)%N -> digest_of_hex (hex_text d) = Some d.
Proof.
  intros Hd. unfold digest_of_hex, hex_text.
  assert (forall l, Forall (fun b => b < 256)%N l -> bytes_of_hex (mbind hex_byte l) = Some l) as Hall.
  { induction 1 as [|b l Hb Hl IH]; [done|]. destruct (hex_byte_nibbles b Hb) as (c & e & Heq & Hc & He).
    cbn [mbind list_bind]. rewrite Heq. cbn [app bytes_of_hex]. rewrite Hc, He. cbn [mbind option_bind]. rewrite nibbles_byte.
    by rewrite IH. }
  rewrite Hall by apply be_bytes_bounded. cbn [fmap option_fmap option_map]. rewrite of_be_bytes_be_bytes. f_equal. apply N.mod_small. exact Hd.
Qed.

Lemma toy_timer_serialized t x : (forall y, t = Some y -> is_i64 y) ->
  serialize (match t with Some t => Serde_some (timestamp_serde t) | None => Serde_none end) 1 = Ok x -> toy_timer x = Some t.
Proof.
  intros _. destruct t as [t|]; cbn [serialize timestamp_serde]; intros [= <-]; [|done]. unfold serialize_i64.
  destruct (Z.leb_spec 0 t); cbn [toy_timer]; do 2 f_equal; [lia|]. rewrite Z2N.id by (unfold Z.lnot; lia). apply Z.lnot_involutive.
Qed.

Lemma toy_continuation_serialized j x : serialize (Serde_some (json_serde j)) 1 = Ok x -> toy_continuation (Some x) = Some (Some j).
Proof.
  cbn [serialize json_serde toy_snapshot_wire]. unfold serialize_bytes. intros HH. step HH. injection HH as <-. cbn. unfold text.
  by rewrite String.string_of_list_ascii_of_string.
Qed.

Lemma toy_envelope_roundtrip e v : snapshot_typed e -> state_hash (sv2_state e) = Some (sv2_state_hash e) ->
  to_canonical (snapshot_serde e) = Ok v -> envelope_v2_of v = Ok e.
Proof.
  intros Hty Hh HH. cbn [state_hash toy_snapshot_wire] in Hh. apply fmap_Some in Hh as (i & Hi & Hx). apply saved_index_Some in Hi as Hsv.
  assert (Forall field_typed (snapshot_fields e)) as Ht.
  { apply snapshot_fields_typed; [done| |]; cbn [state_serde json_serde toy_snapshot_wire].
    - rewrite Hi. cbn. constructor. unfold u64_max. lia.
    - constructor. }
  pose proof HH as (es & entries & -> & _ & _)%struct_entries; [|exact Ht]. cbn [envelope_v2_of toy_snapshot_wire].
  apply ok_or_Ok. unfold toy_envelope. cbv zeta.
  pose proof (fun name t => struct_field_found _ _ _ name t Ht (snapshot_fields_distinct e) HH) as Hfound.
  pose proof (fun name => struct_field_missing _ _ _ name Ht HH) as Hmissing.
  destruct (Hfound "format_version" (Serde_u64 (Z.to_N (sv2_format_version e)))) as (x1 & [= <-] & ->); [set_solver|].
  destruct (Hfound "sequence" (Serde_u64 (Z.to_N (sv2_sequence e)))) as (x2 & [= <-] & ->); [set_solver|].
  destruct (Hfound "head_checksum" (digest_serde (sv2_head_checksum e))) as (x3 & E3 & ->); [set_solver|].
  rewrite serialize_digest in E3. injection E3 as <-.
  destruct (Hfound "state_hash" (digest_serde (sv2_state_hash e))) as (x4 & E4 & ->); [set_solver|].
  rewrite serialize_digest in E4. injection E4 as <-.
  destruct (Hfound "state" (state_serde (sv2_state e))) as (x5 & [= <-] & ->); [set_solver|].
  destruct (Hfound "pending_timer_scheduled_at" (match sv2_pending_timer_scheduled_at e with Some t => Serde_some (timestamp_serde t) | None => Serde_none end))
    as (x6 & E6 & ->); [set_solver|].
  apply toy_timer_serialized in E6; [|apply Hty]. cbn [mbind option_bind]. rewrite E6.
  rewrite !digest_of_hex_text by apply Hty. cbn [mbind option_bind].
  assert (toy_continuation (find_map (value_under "last_model_continuation") entries) = Some (sv2_last_model_continuation e)) as ->.
  { destruct (sv2_last_model_continuation e) as [j|] eqn:Hc.
    - destruct (Hfound "last_model_continuation" (Serde_some (json_serde j))) as (x7 & E7 & ->).
      { unfold snapshot_fields. rewrite Hc. set_solver. }
      by apply toy_continuation_serialized.
    - rewrite Hmissing; [done|]. unfold snapshot_fields. rewrite Hc. by apply (bool_decide_unpack _). }
  cbn [mbind option_bind]. rewrite Hi. cbn [default from_option id]. rewrite Nat2N.id. rewrite (proj1 Hsv). cbn [mbind option_bind]. destruct Hty as [[Hf _] [Hs _] _ _ _].
  rewrite !Z2N.id by done. by destruct e.
Qed.

#[global] Instance toy_snapshot_laws : SnapshotWireLaws.
Proof.
  split; [|by constructor| |apply toy_envelope_roundtrip].
  - intros s. constructor. destruct (saved_index s) as [i|] eqn:Hi; cbn; [apply saved_index_Some in Hi as [_ Hi]|]; unfold u64_max; lia.
  - intros s d. cbn [state_hash toy_snapshot_wire]. intros (i & Hi & ->)%fmap_Some. apply saved_index_Some in Hi as [_ Hi].
    apply (N.lt_trans _ 2); [lia|done].
Qed.

(** ** The first append *)

Definition request0 : AppendRequest := mkAppendRequest 800 1 1 lane_drafts.
Definition appended0 : CommittedBatch * MemoryJournalStore :=
  match append_sync empty_store request0 with Ok p => p | Err _ => (mkCommittedBatch 0 0 0 [], empty_store) end.

Lemma appended0_commits : append_sync empty_store request0 = Ok (appended0.1, appended0.2).
Proof. vm_compute. reflexivity. Qed.

Lemma empty_store_new : MemoryJournalStore_try_new store_limits = Ok empty_store.
Proof. reflexivity. Qed.

Lemma request0_wf : op_wf (Op_append request0).
Proof. repeat constructor. Qed.

Definition journals0 : Journals := {[1%N := [appended0.1]]}.

Lemma appended0_repr : store_repr appended0.2 journals0.
Proof.
  destruct (append_repr _ _ _ _ _ (store_repr_new _ _ empty_store_new) request0_wf appended0_commits) as (J & Hr & _ & Hcase).
  destruct Hcase as [[Hm _]|[_ ->]]; [|exact Hr].
  apply (f_equal (fun m => is_some (session_of m 1))) in Hm. vm_compute in Hm. done.
Qed.

(** Its two records, and the first one with another checksum. *)
Definition record1 : RecordEnvelope := nth 0 (cb_records appended0.1) (sample_record 0 0 (RecordBody_RunAccepted sample_accept, 0%nat)).
Definition record2 : RecordEnvelope := nth 1 (cb_records appended0.1) (sample_record 0 0 (RecordBody_RunAccepted sample_accept, 0%nat)).
Definition tampered1 : RecordEnvelope :=
  mkRecordEnvelope (rec_format_version record1) (rec_kind_version record1) (rec_record_id record1) (rec_session_id record1)
    (rec_lane_id record1) (rec_run_id record1) (rec_sequence record1) (rec_timestamp record1) (rec_committed_at record1)
    (rec_payload_digest record1) (rec_previous_checksum record1) (rec_checksum record1 + 1)%N (rec_derived_event_ids record1)
    (rec_body record1).

(** ** The journal of the session, and a snapshot in it *)

Definition loaded5 : LoadedSession :=
  match (load (sys_store session5) 1).2 with Ok l => l | Err _ => LoadedSession_empty 1 end.
Definition history5 : list CommittedBatch := Eval vm_compute in ls_committed_batches loaded5.
Definition replayed_of (batches : list CommittedBatch) : Replayed :=
  match rfold replay_batch_step (mkReplayed KernelState_default 0 None) batches with Ok r => r | Err _ => mkReplayed KernelState_default 0 None end.

(** The state before the answer, under the checksum of its last record. *)
Definition restore4 : AcceleratedRestore := mkAcceleratedRestore 8 508 None None kernel4.

(** The session as it is loaded after a prune through that snapshot, and whole. *)
Definition pruned5 : LoadedSession := mkLoadedSession 1 12 (Some 425%N) METADATA_EMPTY (drop 5 history5) None (Some restore4).
Definition whole5 : LoadedSession := mkLoadedSession 1 12 (Some 425%N) METADATA_EMPTY history5 None (Some restore4).

Lemma history5_replays : rfold replay_batch_step (mkReplayed KernelState_default 0 None) history5 = Ok (replayed_of history5).
Proof. vm_compute. reflexivity. Qed.

Lemma history5_linked : linked None 1 (batch_records history5) (Some 425%N).
Proof. repeat (apply linked_cons; [vm_compute; reflexivity..|]). apply linked_nil. Qed.

Lemma restore4_honest : honest_snapshot history5 restore4 5 (replayed_of (take 5 history5)).
Proof. split; vm_compute; reflexivity. Qed.

Lemma whole5_journal : whole_journal whole5 (replayed_of history5).
Proof. split; [exact history5_replays|vm_compute; reflexivity]. Qed.

(** A store with the batches of that history and no snapshot, and the coordinator
    after the answer that has written none. *)
Definition appends5 : list StoreOp :=
  (fun b => Op_append (mkAppendRequest (cb_batch_id b) 1 (cb_first_sequence b) (draft_of <$> cb_records b))) <$> history5.
Definition store5 : MemoryJournalStore := Eval vm_compute in run_ops empty_store appends5.
Lemma store5_runs : run_ops empty_store appends5 = store5.
Proof. vm_compute. reflexivity. Qed.

Lemma store5_repr : exists J, store_repr store5 J /\ J !! 1%N = Some history5.
Proof.
  rewrite <- store5_runs. destruct (run_ops_repr appends5 empty_store ∅ (store_repr_new _ _ empty_store_new)) as (J & Hr & _).
  { unfold appends5. repeat constructor. }
  exists J. split; [done|]. assert (unpruned (run_ops empty_store appends5)) as Hu
    by (apply (unpruned_ops store_limits); [reflexivity|unfold appends5; repeat constructor]).
  rewrite store5_runs in *.
  rewrite (unpruned_journal store5 J 1 (default SessionData_default (session_of store5 1)) Hr Hu); vm_compute; reflexivity.
Qed.

Definition due5 : ToySystem :=
  mkSystem (set_co_last_snapshot_sequence None (sys_co session5)) store5 [].

Lemma history5_kernel : replays history5 (co_kernel (sys_co due5)) (co_pending_timer_scheduled_at (sys_co due5)).
Proof.
  assert (co_kernel (sys_co due5) = rp_kernel (replayed_of history5)) as -> by (vm_compute; reflexivity).
  assert (co_pending_timer_scheduled_at (sys_co due5) = rp_pending_timer_scheduled_at (replayed_of history5)) as -> by (vm_compute; reflexivity).
  apply replay_loop_replays, history5_replays.
Qed.

(** The store with the snapshot of that coordinator, and after a prune through it. *)
Definition request5 : StateSnapshotRequest := mkStateSnapshotRequest 1 kernel5 508 None None.
Definition snapshot_store5 : MemoryJournalStore := Eval vm_compute in (match write_state_snapshot_sync store5 request5 with Ok m => m | Err _ => store5 end).
Definition pruned_store5 : MemoryJournalStore := Eval vm_compute in (prune_sync snapshot_store5 1).1.
