(* ===== verification/PropertiesReplay.v ===== *)
(** * Properties of replay

    The theorems that make the transactional half of the reducer correct: what
    a committed batch can do to a reachable kernel.

    The second part has the properties of tool batches. *)

From S2P Require Import Prelude Primitives Effects Records State Inputs ToolBatch Digests Policy ApplyStage ApplyTools ApplyEffects ApplyRecord Shapes Events Apply History BatchOrder PhaseMachine PhaseBatch.
From S2P Require Import Reach Journal Bounds Sample.

Section Replay.
Context `{Hasher, Serde}.

(** C1: replay refines the phase automaton.  From a reachable state, a batch
    that [apply] accepts leaves the phase alone, moves it along an edge of
    [successors], or returns to the phase an open interaction interrupted. *)
Theorem replay_refines_phase_machine s b t s' events :
  reachable s -> apply s b t = Ok (s', events) ->
  phase_in s s' (successors (k_phase s) ++ prior_phases s).
Proof. intros Hr. apply apply_edge, ko_control, reachable_ok, Hr. Qed.

(** C5: the terminal record and the terminal phase of a reachable kernel
    always agree: there is a terminal exactly in the phase that names it. *)
Theorem reachable_terminal_agrees s :
  reachable s -> terminal_matches (k_terminal s) (k_phase s).
Proof. intros Hr. by apply ko_terminal, reachable_ok. Qed.

(** C6: a terminal run is immutable.  Whatever batch is accepted after the end of
    a run, the terminal, the phase, the identity of the run and its conversation
    stay; indeed the new kernel is the old one with the applied sequence, a state
    version that is no smaller, the wall time spent and the budget reservations
    replaced, and of the reservations only those not yet released may have
    gained a release. *)
Theorem terminal_is_immutable s b t s' events :
  reachable s -> is_some (k_terminal s) = true -> apply s b t = Ok (s', events) ->
  k_terminal s' = k_terminal s /\ k_phase s' = k_phase s /\ same_run s s' /\ k_messages s' = k_messages s /\
  exists n v reservations wall,
    s' = with_last_applied_sequence n (with_state_version v (with_budget_reservations reservations
           (map_limit_usage (set_lu_wall_time wall) s))) /\
    k_state_version s <= v /\ only_released (k_budget_reservations s) reservations.
Proof.
  intros Hr%reachable_ok Ht HH. pose proof (apply_ended _ _ _ _ _ (ko_control s Hr) (ko_terminal s Hr) Ht HH) as Hend.
  destruct (ended_keeps _ _ Hend) as (? & ? & ?). split_and!; [done..| |exact Hend]. by destruct Hend as (? & ? & ? & ? & -> & _).
Qed.

(** An accepted batch extends the journal by exactly its records: it is
    not empty and not oversized, record [i] carries the [i]-th sequence after
    the last applied one, and the kernel ends at the last of them, within
    [u64]. *)
Theorem apply_extends_journal s b t s' events :
  apply s b t = Ok (s', events) ->
  k_last_applied_sequence s' = k_last_applied_sequence s + Z.of_nat (length (cb_records b)) /\
  k_last_applied_sequence s' <= u64_max /\
  (0 < length (cb_records b) <= APPEND_BATCH_MAX_RECORDS)%nat /\
  forall i r, cb_records b !! i = Some r -> rec_sequence r = k_last_applied_sequence s + 1 + Z.of_nat i.
Proof. apply apply_sequence. Qed.

(** History only grows.  No accepted batch removes or changes a recorded
    settlement, child preparation, charge, reservation fact, tool-call
    identity, output configuration or message; messages are only appended. *)
Theorem apply_only_appends s b t s' events :
  apply s b t = Ok (s', events) -> grows s s'.
Proof. intros [c [_ _ _ _ _ _ _ _ _ HH _]]%apply_step. by apply apply_semantic_grows in HH. Qed.

(** The public events of a batch are a projection of its records: one
    event per derived event id, in order, numbered from the first transient
    sequence, each carrying the sequence, timestamp, run and session of its
    record. *)
Theorem apply_events_project s b t s' events :
  apply s b t = Ok (s', events) ->
  (event_origin <$> events) = (cb_records b ≫= record_origins) /\ numbered t events.
Proof.
  intros [c [_ _ _ _ _ _ _ _ _ HH He]]%apply_step. apply derive_events_spec in He as [Hn ->]. split; [|done].
  rewrite fst_zip; [done|]. apply semantic_correlations in HH. lia.
Qed.

(** The identity of a run is fixed by its acceptance: once a run is
    accepted, no batch changes the session, the lane, the accepted record or
    its time. *)
Theorem accepted_run_is_fixed s b t s' events a :
  reachable s -> k_accepted s = Some a -> apply s b t = Ok (s', events) ->
  k_accepted s' = Some a /\ k_session_id s' = k_session_id s /\ k_lane_id s' = k_lane_id s /\
  k_accepted_at s' = k_accepted_at s.
Proof.
  intros Hr%reachable_ok Ha HH.
  destruct (apply_end _ _ _ _ _ (ko_control s Hr) (ko_terminal s Hr) HH) as (_ & _ & Hsame).
  destruct Hsame as [? ? Hacc ?]; [|by rewrite Hacc].
  intros Hnone. by rewrite (co_accepted s (ko_control s Hr) Hnone) in Ha.
Qed.

(** Identities do not repeat within an accepted batch: record ids and
    derived event ids are distinct, and every record belongs to the session
    of the kernel. *)
Theorem batch_identities_unique s b t s' events :
  apply s b t = Ok (s', events) ->
  NoDup (rec_record_id <$> cb_records b) /\ NoDup (ev_event_id <$> events) /\
  forall sid, k_session_id s = Some sid -> Forall (fun r => rec_session_id r = sid) (cb_records b).
Proof.
  intros [c [_ _ _ Hid _ _ _ _ _ HH He]]%apply_step.
  apply validate_identities_spec in Hid as (H1 & H2 & H3). apply derive_events_spec in He as [_ He].
  apply semantic_correlations in HH. rewrite fst_zip in He by lia. split_and!; [done| |done].
  rewrite (event_ids_of_origins _ _ He). done.
Qed.

(** C7: the state is bounded: in every reachable kernel the messages, stage
    and extension settlements, tool calls, timer firings, child preparations,
    reservations and charges are within the ceilings the preflight checks. *)
Theorem reachable_within_capacity s : reachable s -> within_capacity s.
Proof. apply reachable_within. Qed.

(** Runs are isolated.  A batch that belongs to other runs of the session
    changes nothing of a reachable kernel but the last applied sequence. *)
Theorem foreign_batch_isolated s b t s' events :
  reachable s -> foreign_run_shape s (cb_records b) = true -> apply s b t = Ok (s', events) ->
  s' = with_last_applied_sequence (k_last_applied_sequence s + Z.of_nat (length (cb_records b))) s.
Proof.
  intros Hr Hf HH. pose proof (apply_sequence _ _ _ _ _ HH) as [Hseq _].
  apply apply_step in HH as [c [_ _ _ _ _ _ _ _ _ HH _]]. unfold apply_semantic_records in HH. step HH.
  injection HH as <- _. destruct (foreign_end _ _ _ Hf E) as [n Hn].
  assert (enter_before_run a.1 = a.1) as Hsame.
  { unfold enter_before_run. case_match eqn:Ha; [|done]. apply eqb_eq in Ha. rewrite Hn in Ha.
    by apply reachable_settled in Hr. }
  rewrite Hsame, Hn in *. by rewrite <- Hseq.
Qed.

(** The effects a cancellation must account for are exactly the pending
    ones (the model call, the tool calls in flight, the interaction, the
    extension effect, the timer), each once, in increasing order. *)
Theorem outstanding_effects_exact s :
  StronglySorted N.lt (outstanding_requested_effects s) /\
  forall e, e ∈ outstanding_requested_effects s <-> outstanding s e.
Proof. split; [apply outstanding_sorted|apply outstanding_iff]. Qed.

(** C8: a cancellation is never lost or widened.  Once requested, every later
    batch keeps its request and the phase it interrupted, and can only remove
    outstanding effects. *)
Theorem cancellation_only_shrinks s b t s' events c :
  reachable s -> k_cancellation s = Some c -> apply s b t = Ok (s', events) ->
  exists c', k_cancellation s' = Some c' /\ cs_request c' = cs_request c /\
    cs_prior_phase c' = cs_prior_phase c /\ cs_outstanding_effects c' ⊆ cs_outstanding_effects c.
Proof.
  intros Hr Hc HH. by apply (apply_cancellation_follows s b t s' events (ko_control s (reachable_ok s Hr)) HH).
Qed.
End Replay.

(** ** Instances *)

Lemma replay_refines_phase_machine_witness :
  phase_in run14 run15 (successors (k_phase run14) ++ prior_phases run14) /\ k_phase run15 = Some RunPhase_Completed.
Proof.
  split; [|reflexivity].
  exact (replay_refines_phase_machine run14 _ 0 run15 _ run14_reachable complete_commits).
Defined.

Lemma reachable_terminal_agrees_witness :
  terminal_matches (k_terminal cancel2) (k_phase cancel2) /\ is_some (k_terminal cancel2) = true.
Proof. split; [exact (reachable_terminal_agrees cancel2 cancel2_reachable)|reflexivity]. Defined.

(** A record about the session lands after the run has completed. *)
Definition late_record : Step := fun _ =>
  [(RecordBody_SnapshotWritten (mkSnapshotWritten 1 0), 0%nat)].
Definition after_end : KernelState := Eval vm_compute in played (play run15 [late_record]).
Lemma late_commits :
  apply run15 (sample_batch run15 (late_record run15)) 0 = Ok (after_end, step_events run15 late_record).
Proof. vm_compute. reflexivity. Qed.

Lemma terminal_is_immutable_witness :
  k_terminal after_end = k_terminal run15 /\ k_phase after_end = k_phase run15 /\ same_run run15 after_end /\
  k_messages after_end = k_messages run15 /\ exists n v reservations wall,
    after_end = with_last_applied_sequence n (with_state_version v (with_budget_reservations reservations
                  (map_limit_usage (set_lu_wall_time wall) run15))) /\
    k_state_version run15 <= v /\ only_released (k_budget_reservations run15) reservations.
Proof. exact (terminal_is_immutable run15 _ 0 after_end _ run15_reachable eq_refl late_commits). Defined.

Lemma apply_extends_journal_witness :
  k_last_applied_sequence run8 = k_last_applied_sequence run7 + 3.
Proof.
  destruct (apply_extends_journal run7 _ 0 run8 _ settle_commits) as [Hlast _]. exact Hlast.
Defined.

Lemma apply_only_appends_witness : grows run7 run8.
Proof. exact (apply_only_appends run7 _ 0 run8 _ settle_commits). Defined.

Lemma apply_events_project_witness :
  numbered 0 (step_events run7 settle_first) /\ length (step_events run7 settle_first) = 4%nat.
Proof.
  split; [|reflexivity]. destruct (apply_events_project run7 _ 0 run8 _ settle_commits) as [_ Hn]. exact Hn.
Defined.

Lemma accepted_run_is_fixed_witness : k_accepted run8 = Some sample_accept.
Proof.
  destruct (accepted_run_is_fixed run7 _ 0 run8 _ sample_accept run7_reachable eq_refl settle_commits) as [Ha _].
  exact Ha.
Defined.

Lemma batch_identities_unique_witness : NoDup (ev_event_id <$> step_events run7 settle_first).
Proof. destruct (batch_identities_unique run7 _ 0 run8 _ settle_commits) as (_ & Hn & _). exact Hn. Defined.

Lemma reachable_within_capacity_witness : within_capacity run15.
Proof. exact (reachable_within_capacity run15 run15_reachable). Defined.

(** Another run of the session is accepted while this one waits for tools. *)
Definition foreign_accept : CommittedBatch :=
  let first := k_last_applied_sequence run7 + 1 in
  mkCommittedBatch 8 first first
    [mkRecordEnvelope 1 RECORD_KIND_VERSION 900 1 5 (Some 33%N) first 500 None 0%N None 0%N [901%N]
       (RecordBody_RunAccepted
          (mkRunAccepted 33 (ra_relation sample_accept) (ra_security sample_accept) None no_limits
             (ra_propagation sample_accept) 0 (mkLineageValidation true)))].
Definition foreign_events : list RunEvent :=
  match apply run7 foreign_accept 0 with Ok p => p.2 | Err _ => [] end.

Lemma foreign_batch_isolated_witness :
  apply run7 foreign_accept 0 = Ok (with_last_applied_sequence (k_last_applied_sequence run7 + 1) run7, foreign_events).
Proof.
  destruct (apply run7 foreign_accept 0) as [[s' ev]|e] eqn:HH.
  - unfold foreign_events. rewrite HH. cbn [snd].
    rewrite (foreign_batch_isolated run7 foreign_accept 0 s' ev run7_reachable eq_refl HH). reflexivity.
  - vm_compute in HH. discriminate HH.
Defined.

Lemma cancellation_only_shrinks_witness :
  exists c', k_cancellation cancel2 = Some c' /\ cs_outstanding_effects c' ⊆ [50%N].
Proof.
  destruct (cancellation_only_shrinks cancel1 _ 0 cancel2 _ _ cancel1_reachable eq_refl reconcile_commits)
    as (c' & Hc & _ & _ & Hsub).
  exists c'. split; [exact Hc|exact Hsub].
Defined.

(** * Properties of tool batches

    What replay guarantees about the tool calls of a run: the plan that is
    executed, the order in which results become visible, the barriers between
    groups, and the cached answers the reducer relies on. *)

Lemma opened_new_calls opened calls g :
  atb_calls (ActiveToolBatch_new opened calls g 0 [] None) = calls.
Proof.
  unfold ActiveToolBatch_new, reindex.
  enough (forall l b, atb_calls (foldl reindex_step b l) = atb_calls b) as -> by done.
  induction l as [|[i c] l IH]; intros b; [done|]. cbn [foldl]. by rewrite IH.
Qed.

(** Every settled call contributes its message, so a fully settled batch has
    one message per call. *)
Lemma settled_messages_length calls :
  forallb (fun c => is_settled (atc_status c)) calls = true -> length (omap settled_message calls) = length calls.
Proof.
  induction calls as [|c calls IH]; [done|]. simpl. intros [Hc Hall]%andb_true_iff.
  change (length (omap settled_message (c :: calls)) = S (length calls)). rewrite <- (IH Hall). simpl.
  unfold settled_message at 1. by destruct (atc_status c).
Qed.

Section Tools.
Context `{Hasher, Serde}.

(** C9: results are settled in source order.  At every point of
    replay the settled calls of the active batch are a prefix of its plan, the recorded
    result messages are theirs in that order, and they appear in that order
    in the conversation. *)
Theorem tools_settle_in_source_order s b :
  replaying s -> k_active_tool_batch s = Some b ->
  (forall i c, atb_calls b !! i = Some c ->
     is_settled (atc_status c) = true <-> (i < Z.to_nat (atb_next_source_index b))%nat) /\
  atb_result_message_ids b = omap settled_message (atb_calls b) /\
  atb_result_message_ids b `sublist_of` (msg_id <$> k_messages s).
Proof.
  intros Hr Hb. destruct (replaying_batch_ok s Hr b Hb) as [[] Hsub]. by split_and!.
Qed.

(** Groups are barriers.  At every point of replay, while a call is
    in flight, every call of an earlier group has its outcome; all calls in
    flight belong to one group. *)
Theorem tool_groups_are_barriers s b ci cj :
  replaying s -> k_active_tool_batch s = Some b -> ci ∈ atb_calls b -> cj ∈ atb_calls b ->
  is_requested (atc_status cj) = true ->
  (asg_group_index (atc_assigned ci) < asg_group_index (atc_assigned cj) -> is_done (atc_status ci) = true) /\
  (is_requested (atc_status ci) = true -> asg_group_index (atc_assigned ci) = asg_group_index (atc_assigned cj)).
Proof.
  intros Hr Hb Hi Hj Hreq. destruct (replaying_batch_ok s Hr b Hb) as [[] _].
  rewrite (bi_flight cj Hj Hreq). split; [by apply bi_barrier|by apply bi_flight].
Qed.

(** An opened batch is the recorded plan: its calls are the planned ones
    in source order, indexed from zero, grouped by the parallel-neighbour
    rule; executable calls start undispatched and synthetic ones buffered. *)
Theorem opened_batch_is_the_plan s o s' :
  apply_tool_batch_opened s o = Ok s' ->
  exists b, k_active_tool_batch s' = Some b /\ atb_opened b = o /\
    atc_assigned <$> atb_calls b = tbo_calls o /\ well_planned (tbo_calls o) /\
    Forall opened_as (atb_calls b).
Proof.
  intros HH. pose proof (apply_tool_batch_opened_batch s o s' HH) as Hok.
  unfold apply_tool_batch_opened in HH. do 4 step HH. injection HH as <-.
  apply (rfold_enumerate_ind opening) in E2; [|by constructor|intros; by eapply open_step_opening].
  destruct E2 as [Ha Hp _ Hs]. eexists. split; [reflexivity|].
  destruct (Hok _ eq_refl) as [[] _]. rewrite opened_new_calls in *. split_and!; [|done|done|done].
  unfold ActiveToolBatch_new, reindex.
  enough (forall l b, atb_opened (foldl reindex_step b l) = atb_opened b) as -> by done.
  induction l as [|[i c] l IH]; intros b; [done|]. cbn [foldl]. by rewrite IH.
Qed.

(** The incremental index and counters of the active batch never drift:
    at every point of replay the constant-time answers equal a recount over
    the calls, and a lookup by effect returns a call with that effect. *)
Theorem tool_counters_agree_with_recount s b :
  replaying s -> k_active_tool_batch s = Some b ->
  (forall g, group_is_terminal b g = group_is_terminal_ref b g) /\
  all_settled b = all_settled_ref b /\
  next_executable_group b = next_executable_group_ref b /\
  (forall e c, call b e = Some c -> c ∈ atb_calls b /\ effect_of c = e) /\
  (forall c, c ∈ atb_calls b -> is_Some (call b (effect_of c))).
Proof.
  intros Hr Hb. destruct (replaying_batch_ok s Hr b Hb) as [[Hidx _ _ _ _ _ _ _] _].
  destruct Hidx as [_ Hsound Hcomplete Hcount]. split_and!.
  - intros g. by apply group_is_terminal_cached.
  - by apply all_settled_cached.
  - by apply next_executable_group_cached.
  - unfold call, call_index. intros e c Hc. destruct (atb_effect_index b !! e) as [i|] eqn:Hi; [|done].
    destruct (Hsound _ _ Hi) as [_ (c' & Hc' & He)]. simpl in Hc. rewrite Hc' in Hc. injection Hc as <-.
    split; [by eapply list_elem_of_lookup_2|done].
  - unfold call, call_index. intros c Hc. destruct (Hcomplete c Hc) as [i Hi]. rewrite Hi. simpl.
    destruct (Hsound _ _ Hi) as [_ (c' & Hc' & _)]. rewrite Hc'. by eexists.
Qed.

(** A batch closes only when it is complete.  At every point of replay,
    a closure is accepted only if every call has been settled, and it records
    one result message per planned call, in source order, all of them in the
    conversation. *)
Theorem tool_batch_closes_complete s closed s' b :
  replaying s -> k_active_tool_batch s = Some b -> apply_tool_batch_closed s closed = Ok s' ->
  forallb (fun c => is_settled (atc_status c)) (atb_calls b) = true /\
  tbc_result_message_ids closed = omap settled_message (atb_calls b) /\
  length (tbc_result_message_ids closed) = length (tbo_calls (atb_opened b)) /\
  tbc_result_message_ids closed `sublist_of` (msg_id <$> k_messages s) /\
  k_active_tool_batch s' = None /\ k_last_tool_batch s' = Some closed.
Proof.
  intros Hr Hb HH. destruct (replaying_batch_ok s Hr b Hb) as [[Hidx Ha _ _ _ Hres _ _] Hsub].
  unfold apply_tool_batch_closed in HH. rewrite Hb in HH. do 4 step HH. injection HH as <-.
  cbn [ok_or] in E. injection E as <-. apply reject_if_Ok in E0.
  apply orb_false_iff in E0 as [E0 Hall%negb_false_iff]. apply orb_false_iff in E0 as [_ Hids].
  apply negb_false_iff, eqb_eq in Hids.
  rewrite all_settled_cached in Hall by (by destruct Hidx). unfold all_settled_ref in Hall.
  rewrite Hids. split_and!; try done.
  - rewrite Hres, (settled_messages_length _ Hall), <- Ha. by rewrite length_fmap.
Qed.
End Tools.

(** ** Instances *)

Definition sample_active (s : KernelState) : ActiveToolBatch :=
  match k_active_tool_batch s with
  | Some b => b
  | None => ActiveToolBatch_new sample_opened [] 0 0 [] None
  end.

Lemma tools_settle_in_source_order_witness :
  atb_result_message_ids (sample_active run8) = [60%N] /\
  [60%N] `sublist_of` (msg_id <$> k_messages run8).
Proof.
  destruct (tools_settle_in_source_order run8 (sample_active run8) (replaying_reachable run8 run8_reachable) eq_refl) as (_ & Hids & Hsub).
  split; [rewrite Hids; reflexivity|exact Hsub].
Defined.

Definition first_call (s : KernelState) : ActiveToolCall :=
  match atb_calls (sample_active s) with c :: _ => c | [] => mkActiveToolCall (assigned 0 0 0) ActiveToolCallStatus_Undispatched end.
Definition second_call (s : KernelState) : ActiveToolCall :=
  match atb_calls (sample_active s) with
  | _ :: c :: _ => c
  | _ => mkActiveToolCall (assigned 0 0 0) ActiveToolCallStatus_Undispatched
  end.

Lemma tool_groups_are_barriers_witness :
  is_requested (atc_status (second_call run8)) = true /\ is_done (atc_status (first_call run8)) = true.
Proof.
  split; [reflexivity|].
  destruct (tool_groups_are_barriers run8 (sample_active run8) (first_call run8) (second_call run8) (replaying_reachable run8 run8_reachable))
    as [Hb _]; [reflexivity|left|right; left|reflexivity|]. apply Hb. reflexivity.
Defined.

Definition reopened : KernelState :=
  match apply_tool_batch_opened run6 sample_opened with Ok s => s | Err _ => run6 end.

Lemma opened_batch_is_the_plan_witness :
  exists b, k_active_tool_batch reopened = Some b /\ atc_assigned <$> atb_calls b = sample_calls.
Proof.
  destruct (opened_batch_is_the_plan run6 sample_opened reopened) as (b & Hb & _ & Ha & _);
    [vm_compute; reflexivity|]. exists b. split; [exact Hb|exact Ha].
Defined.

Lemma tool_counters_agree_with_recount_witness :
  all_settled (sample_active run8) = all_settled_ref (sample_active run8).
Proof.
  destruct (tool_counters_agree_with_recount run8 (sample_active run8) (replaying_reachable run8 run8_reachable) eq_refl) as (_ & Hall & _).
  exact Hall.
Defined.

(** The last batch of the sample up to its closure. *)
Definition before_closure : list (RecordEnvelope * option RecordEnvelope) :=
  with_next (take 2 (cb_records (sample_batch run8 (settle_second run8)))).
Definition settled_all : KernelState :=
  match rfold semantic_step (run8, []) before_closure with Ok p => p.1 | Err _ => run8 end.
Definition closed_state : KernelState :=
  match apply_tool_batch_closed settled_all sample_closed with Ok s => s | Err _ => settled_all end.

Lemma settled_all_replaying : replaying settled_all.
Proof.
  unfold settled_all. destruct (rfold semantic_step (run8, []) before_closure) as [acc|] eqn:HH.
  - exact (semantic_replaying run8 _ acc (replaying_reachable run8 run8_reachable) HH).
  - exact (replaying_reachable run8 run8_reachable).
Qed.

Lemma tool_batch_closes_complete_witness :
  tbc_result_message_ids sample_closed = [60; 61]%N /\ k_last_tool_batch closed_state = Some sample_closed.
Proof.
  destruct (tool_batch_closes_complete settled_all sample_closed closed_state (sample_active settled_all)
              settled_all_replaying) as (_ & Hids & _ & _ & _ & Hlast); [vm_compute; reflexivity..|].
  split; [rewrite Hids; vm_compute; reflexivity|exact Hlast].
Defined.
