(* ===== verification/PropertiesProtocol.v ===== *)
(** * Properties of the protocol

    What the canonical codec, the serializer in front of it, the journal chain,
    the frames and the handshake guarantee.  The witnesses use IEEE binary16 for
    the [half] crate and toy serializers for the derived ones. *)

From S2P Require Import Prelude Primitives Ids Floats Cbor CborCodec CborDecode Serializer Framing.
From S2P Require Import Effects Records State Inputs ToolBatch Digests Policy ApplyStage ApplyTools ApplyEffects ApplyRecord Shapes Events Apply Decide Chain ChainIntegrity Sample.

(** ** The canonical codec *)

Section Codec.
Context `{HalfLaws}.

(** C17: the decoder accepts exactly the canonical encodings.  Bytes decode
    to a value if and only if they are its deterministic encoding, the value is
    canonical within the nesting bound (shortest heads and floats, strictly
    sorted keys, bounded strings and collections, UTF-8 text), and they fit one
    envelope. *)
Theorem cbor_decodes_canonical b v :
  decode_value b = Ok v <->
  b = spec_bytes v /\ canonical CANONICAL_NESTING_DEPTH v /\ (len b <= CANONICAL_ENVELOPE_MAX_BYTES)%N.
Proof.
  split; [apply decode_canonical|]. intros (-> & Hc & Hlen). by apply decode_spec_bytes.
Qed.

(** C18: the codec round trips.  Whatever the writer produces for a typed
    value decodes to that value with its maps in canonical order; re-encoding
    what was decoded returns the same bytes, and no other bytes decode to it. *)
Theorem cbor_roundtrip v b :
  well_typed v -> encode_value v = Ok b ->
  decode_value b = Ok (normalize v) /\ encode_value (normalize v) = Ok b /\
  forall b', decode_value b' = Ok (normalize v) -> b' = b.
Proof.
  intros Ht He. pose proof (decode_of_encode v b Ht He) as Hd. pose proof (encode_of_decode b _ Hd) as He'.
  split_and!; [done|done|]. intros b' Hd'%encode_of_decode. rewrite He' in Hd'. by injection Hd'.
Qed.

(** The serializer agrees with the decoder.  The bytes [encode] writes for
    a typed value decode to the tree the value serializes to, within the
    envelope limit, and values with equal bytes serialize to equal trees. *)
Theorem serialized_values_decode t b :
  serde_typed t -> encode t = Ok b ->
  (len b <= CANONICAL_ENVELOPE_MAX_BYTES)%N /\
  (exists v, to_canonical t = Ok v /\ decode_value b = Ok v) /\
  (forall t', serde_typed t' -> encode t' = Ok b -> to_canonical t' = to_canonical t).
Proof.
  intros Ht He. split; [by eapply encode_length|]. split; [by apply encode_decode_tree|].
  intros t' Ht' He'. by eapply encode_inj.
Qed.
End Codec.

(** A map whose entries are not in canonical order, with a half, a single and a
    double precision float. *)
Definition sample_value : CanonicalValue :=
  CanonicalValue_Map
    [(CanonicalValue_Text (text "floats"),
      CanonicalValue_Array [CanonicalValue_Float 4607182418800017408; CanonicalValue_Float 4607182418801090560;
                            CanonicalValue_Float 4607182418800017409]);
     (CanonicalValue_Text (text "n"), CanonicalValue_Negative 499); (CanonicalValue_Unsigned 7, CanonicalValue_Null)].
Definition sample_value_bytes : bytes :=
  Eval vm_compute in match encode_value sample_value with Ok b => b | Err _ => [] end.

Lemma sample_value_typed : well_typed sample_value.
Proof. repeat (constructor || split); cbn; done. Qed.

Lemma cbor_roundtrip_witness :
  encode_value sample_value = Ok sample_value_bytes /\ decode_value sample_value_bytes = Ok (normalize sample_value) /\
  normalize sample_value <> sample_value.
Proof.
  split_and!; [vm_compute; reflexivity| |by vm_compute].
  destruct (cbor_roundtrip sample_value sample_value_bytes sample_value_typed) as [Hd _]; [vm_compute; reflexivity|exact Hd].
Defined.

Lemma cbor_decodes_canonical_witness :
  decode_value sample_value_bytes = Ok (normalize sample_value) /\
  sample_value_bytes = spec_bytes (normalize sample_value) /\
  canonical CANONICAL_NESTING_DEPTH (normalize sample_value).
Proof.
  assert (decode_value sample_value_bytes = Ok (normalize sample_value)) as Hd by (vm_compute; reflexivity).
  split; [exact Hd|].
  destruct (proj1 (cbor_decodes_canonical sample_value_bytes (normalize sample_value)) Hd) as (Hb & Hc & _).
  exact (conj Hb Hc).
Defined.

Definition sample_tree : SerdeTree :=
  Serde_struct 3 [(text "id", Serde_u64 12); (text "values", Serde_seq (Some 2%N) [Serde_i64 (-3); Serde_none]);
                  (text "kind", Serde_newtype_variant (text "run") (Serde_bool true))].
Definition sample_tree_bytes : bytes := Eval vm_compute in match encode sample_tree with Ok b => b | Err _ => [] end.

Lemma serialized_values_decode_witness :
  encode sample_tree = Ok sample_tree_bytes /\ exists v, to_canonical sample_tree = Ok v /\ decode_value sample_tree_bytes = Ok v.
Proof.
  assert (encode sample_tree = Ok sample_tree_bytes) as He by (vm_compute; reflexivity).
  split; [exact He|]. refine (proj1 (proj2 (serialized_values_decode sample_tree sample_tree_bytes _ He))).
  repeat (constructor || split); cbn; done || lia.
Defined.

(** ** The journal chain *)

Section Journal.
Context `{HalfLaws, Hasher, Serde, Wire, !HasherLaws}.

(** C19: a checksum fixes its history.  Two nonempty chains that verify from
    one anchor and end in the same checksum have the same length and agree
    record by record in every replayed field and checksum, unless two of their
    records exhibit a collision of SHA-256. *)
Theorem chain_head_fixes_history rs1 rs2 anchor head :
  rs1 <> [] -> rs2 <> [] -> Forall envelope_typed rs1 -> Forall envelope_typed rs2 ->
  verify_chain_from rs1 anchor = Ok head -> verify_chain_from rs2 anchor = Ok head ->
  Forall2 same_replay rs1 rs2 \/ collision rs1 rs2.
Proof. apply chain_fixes_records. Qed.

(** What is committed verifies, and so does what follows it.  Records
    committed at an anchor carry exactly their drafts, in order, and verify as a
    chain from that anchor; appending more records verifies exactly when those
    verify from the head and the sequence the commit reached. *)
Theorem committed_chain_verifies drafts first previous committed_at rs sid :
  commit_records drafts first previous committed_at = Ok rs ->
  Forall (fun d => dr_session_id d = sid) drafts -> 0 <= first -> first + Z.of_nat (length drafts) <= u64_max ->
  draft_of <$> rs = drafts /\
  exists head, verify_chain_from rs (mkChainAnchor sid first previous) = Ok head /\
    forall more final, verify_chain_from (rs ++ more) (mkChainAnchor sid first previous) = Ok final <->
      verify_chain_from more (mkChainAnchor sid (first + Z.of_nat (length rs)) head) = Ok final.
Proof.
  intros Hc Hs Hf Hle. split; [by apply commit_records_spec in Hc as [? _]|].
  destruct (committed_verifies _ _ _ _ _ _ Hc Hs Hf Hle) as [head Hv]. exists head. split; [done|]. intros more final.
  rewrite verify_chain_app. split; [intros (middle & Hm & Hmore)|intros Hmore; by exists head].
  rewrite Hv in Hm. by injection Hm as <-.
Qed.
End Journal.

Definition sample_draft (id : RecordId) (body : RecordBody) : RecordDraft :=
  mkRecordDraft 1 RECORD_KIND_VERSION id 1 2 (Some 3%N) 100 ((fun k => (id + 10 + N.of_nat k)%N) <$> seq 0 (derived_event_count body))
    body.
Definition sample_drafts : list RecordDraft :=
  [sample_draft 100 (RecordBody_RunAccepted sample_accept); sample_draft 200 (RecordBody_RunCancelled (mkRunCancelled 70 "cancelled"))].
Definition sample_chain : list RecordEnvelope :=
  Eval vm_compute in match commit_records sample_drafts 1 None None with Ok rs => rs | Err _ => [] end.
Definition sample_head : option Digest :=
  Eval vm_compute in match verify_chain_from sample_chain (ChainAnchor_root 1) with Ok h => h | Err _ => None end.

Lemma chain_head_fixes_history_witness :
  verify_chain_from sample_chain (ChainAnchor_root 1) = Ok sample_head /\ length sample_chain = 2%nat /\
  (Forall2 same_replay sample_chain sample_chain \/ collision sample_chain sample_chain).
Proof.
  assert (verify_chain_from sample_chain (ChainAnchor_root 1) = Ok sample_head) as Hv by (vm_compute; reflexivity).
  assert (Forall envelope_typed sample_chain) as Ht.
  { repeat (apply Forall_cons; split); [..|by apply Forall_nil]; split; cbn; unfold is_u16, is_u64, is_i64, u16_max, u64_max, i64_min, i64_max;
      try lia; by apply st_str. }
  split_and!; [exact Hv|reflexivity|].
  exact (chain_head_fixes_history sample_chain sample_chain (ChainAnchor_root 1) sample_head ltac:(done) ltac:(done) Ht Ht Hv Hv).
Defined.

Lemma committed_chain_verifies_witness :
  draft_of <$> sample_chain = sample_drafts /\
  exists head, verify_chain_from sample_chain (mkChainAnchor 1 1 None) = Ok head.
Proof.
  destruct (committed_chain_verifies sample_drafts 1 None None sample_chain 1%N) as (Hd & head & Hv & _);
    [vm_compute; reflexivity|repeat constructor|lia|by vm_compute|].
  split; [exact Hd|exists head; exact Hv].
Defined.

(** ** Frames, offers and identifiers *)

(** Framing is exact.  A frame decodes to a payload if and only if it is
    that payload's encoding under the same ceiling; encoding fails exactly when
    the payload exceeds the ceiling or the 32-bit length field. *)
Theorem frames_are_exact payload frame ceiling :
  (encode_frame payload ceiling = Ok frame <-> decode_frame frame ceiling = Ok payload) /\
  (encode_frame payload ceiling = Err (frame_limit ceiling) <-> (ceiling < len payload \/ 2 ^ 32 <= len payload)%N).
Proof. split; [split; [apply frame_roundtrip|apply frame_canonical]|apply encode_frame_Err]. Qed.

(** Negotiation picks the best shared version.  [select_version] returns
    the greatest version both sides support that neither floor excludes, fails
    with [unknown_protocol_version] exactly when there is none, and does not
    depend on which side is called the client. *)
Theorem negotiation_is_best_shared client server :
  (forall v, select_version client server = Ok v <->
     shared client server v /\ forall w, shared client server w -> w <= v) /\
  (select_version client server = Err (ProtocolError_UnsupportedVersion "unknown_protocol_version") <->
     forall v, ~ shared client server v) /\
  select_version client server = select_version server client.
Proof.
  split_and!; [intros v; apply select_version_spec|symmetry; apply select_version_none|apply select_version_sym].
Qed.

(** A decoded offer is a constructed one.  Deserialization accepts exactly
    the offers that the validating constructor can return, unchanged. *)
Theorem decoded_offers_are_constructed w o :
  VersionOffer_deserialize w = Ok o <->
  o = w /\ exists versions floor features, VersionOffer_try_new versions floor features = Ok w.
Proof.
  rewrite deserialize_offer. split.
  - intros [-> HH]. split; [done|]. by do 3 eexists.
  - intros [-> (vs & floor & fs & HH)]. split; [done|]. by eapply try_new_normal.
Qed.

(** Identifier text round trips: every 128-bit identifier is parsed back
    from its canonical hyphenated text. *)
Theorem identifier_text_roundtrip id :
  (id < 2 ^ 128)%N -> Id_parse (to_canonical_string id) = Some id.
Proof. apply id_roundtrip. Qed.

Lemma identifier_text_roundtrip_witness :
  to_canonical_string 97433442488726861213578988847752201310 = "494cff9a-3f4f-473f-91d1-16af7382c45e" /\
  Id_parse "494cff9a-3f4f-473f-91d1-16af7382c45e" = Some 97433442488726861213578988847752201310%N.
Proof.
  split; [vm_compute; reflexivity|].
  exact (identifier_text_roundtrip 97433442488726861213578988847752201310 ltac:(lia)).
Defined.
