(* ===== verification/PropertiesDecide.v ===== *)
(** * Properties of the decide side

    What a decision is made of, that the batches the kernel decides on are the
    ones it accepts, that settlements count once, and that the limits it checks
    are the limits it accounts.  The last group also pins down two situations in
    which a decided and committed batch is refused.  The witnesses run the whole
    loop, decide, commit and apply, on concrete inputs.

    The second part has the properties of states and of time. *)

From S2P Require Import Prelude Primitives Ids Time Floats Cbor CborCodec CborDecode Serializer Effects Records State Inputs ToolBatch Digests Policy ApplyStage ApplyTools ApplyEffects ApplyRecord Shapes.
From S2P Require Import Events Apply Decide DecideLimit DecideTools DecideStage DecideSettle DecideControl Validate Reducer Decisions Chain ChainIntegrity BatchOrder History PhaseMachine PhaseBatch Reach Journal.
From S2P Require Import Bounds ValidateSound Accepting Sample.

Section DecideProperties.
Context `{HalfLaws, Hasher, Serde, Wire}.

(** C23: decisions spend their allocation exactly.  Whatever input a reachable
    kernel decides on, the decision either repeats what is settled, proposing no
    record and no action, or proposes records for the next sequence that carry
    the run in scope and the transition's time, and whose record and event
    identities are, in order, all the identities the coordinator allocated. *)
Theorem decisions_spend_allocations s env input d :
  reachable s -> Kernel_decide s env input = Ok d ->
  (dec_records d = [] /\ dec_actions d = [] /\ duplicate_decision s = Ok d) \/
  exists sid lane run bodies, bodies <> [] /\ follows s sid lane run /\ drafted s env sid lane run bodies d.
Proof.
  intros Hr [Hd|Hd]%reachable_decided; [left|by right|done]. pose proof Hd as HH.
  unfold duplicate_decision in HH. repeat step HH. by subst.
Qed.

(** Committed decisions pass the envelope checks.  Committing a proposal to
    the journal yields a batch that continues the applied sequence, is numbered
    without gaps, and repeats no identity, as long as the allocated identities
    are distinct; the batch belongs to the run the kernel follows. *)
Theorem committed_decisions_pass_envelope s env input d previous at_ rs id :
  reachable s -> Kernel_decide s env input = Ok d -> dec_records d <> [] ->
  NoDup (ids_record_ids (env_ids env)) -> NoDup (ids_event_ids (env_ids env)) ->
  commit_records (dec_records d) (dec_expected_sequence d) previous at_ = Ok rs ->
  let b := batch_of id (dec_expected_sequence d) rs in
  rec_body <$> rs = dr_body <$> dec_records d /\
  validate_batch_range s b = Ok tt /\ validate_record_sequences b = Ok tt /\ validate_identities s rs = Ok tt /\
  Forall (fun r => is_foreign_run s r = false) rs.
Proof.
  intros Hr Hd Hne Hn1 Hn2 Hcommit. apply reachable_decided in Hd as [Hd|(sid & lane & run & bodies & Hb & Hf & Hdr)]; [| |done].
  { unfold duplicate_decision in Hd. repeat step Hd. subst. by destruct Hne. }
  destruct (commit_proposal _ _ _ _ _ _ _ _ _ _ id Hdr Hb Hf (reachable_sequence s Hr) Hn1 Hn2 Hcommit) as (Hbodies & Hall & ? & ? & ?).
  rewrite (dd_bodies _ _ _ _ _ _ _ Hdr). split_and!; [done..|].
  eapply Forall_impl; [exact Hall|]. intros r Hin. by eapply scope_not_foreign.
Qed.

(** An allocation that does not match is refused and named.  Validation
    succeeds exactly when each of the ten identity queues holds as many
    identities as the decision needs; a queue that is too short is reported as
    exhausted before one that is too long is reported as unused, and both
    reports name such a queue. *)
Theorem allocations_must_match ids r :
  match validate_allocated_ids ids r with
  | Ok _ => Forall (fun q : string * nat * nat => q.1.2 = q.2) (id_queues ids r)
  | Err e => (exists kind available needed, e = KernelError_AllocatedIdsExhausted kind /\
                (kind, available, needed) ∈ id_queues ids r /\ (available < needed)%nat) \/
             (exists kind available needed, e = KernelError_UnusedAllocatedIds kind /\
                (kind, available, needed) ∈ id_queues ids r /\ (needed < available)%nat /\
                Forall (fun q : string * nat * nat => (q.2 <= q.1.2)%nat) (id_queues ids r))
  end.
Proof.
  destruct (validate_allocated_ids ids r) as [[]|e] eqn:E; [by apply validate_allocated_exact|].
  unfold validate_allocated_ids in E. cbv zeta in E.
  destruct (rfold check_exhausted tt (id_queues ids r)) as [[]|e'] eqn:Ex; cbn [rbind] in E.
  - right. destruct (check_unused_Err _ _ E) as (kind & a & n & ? & ? & ?). exists kind, a, n.
    split_and!; [done..|]. by apply check_exhausted_all.
  - left. injection E as ->. by apply check_exhausted_Err.
Qed.

(** An accepted run starts.  When a kernel without a run decides to accept
    one, the committed batch applies: the run is in its first phase, with the
    session and the time of its acceptance, and one public event announces it. *)
Theorem accepted_run_starts s env input d previous at_ rs id t :
  reachable s -> k_pending_extension_effect s = None -> growth_check BatchGrowth_default s = Ok tt ->
  NoDup (ids_record_ids (env_ids env)) -> NoDup (ids_event_ids (env_ids env)) -> 0 <= t < u64_max ->
  Kernel_decide s env (KernelInput_AcceptRun input) = Ok d ->
  commit_records (dec_records d) (dec_expected_sequence d) previous at_ = Ok rs ->
  exists s' e, apply s (batch_of id (dec_expected_sequence d) rs) t = Ok (s', [e]) /\
    k_phase s' = Some RunPhase_BeforeRun /\ k_accepted s' = Some (ar_accepted input) /\
    k_session_id s' = Some (ar_session_id input) /\ k_accepted_at s' = Some (env_now env).
Proof. rewrite kernel_accepts. apply accepted_run_applies. Qed.

(** C24: a cancellation takes hold.  Suppose the clock has not gone back before
    the acceptance of the run (replay computes the wall time of every record),
    and the model and tool settlements and the completion and resolution
    identities are within their ceilings (the preflight of every batch tests
    them).  When the kernel then decides on a cancellation that is not a repetition, the committed batch
    applies whatever the phase of the run is: the run is cancelling, remembers
    the phase it was in and who asked for it, and the actions returned are
    exactly one cancellation per effect that replay then waits for. *)
Theorem cancellation_takes_hold s env input d previous at_ rs id t :
  reachable s -> clock_ok s (env_now env) -> settlements_within s ->
  NoDup (ids_record_ids (env_ids env)) -> NoDup (ids_event_ids (env_ids env)) ->
  Kernel_decide s env (KernelInput_CancelRequested input) = Ok d -> dec_records d <> [] ->
  commit_records (dec_records d) (dec_expected_sequence d) previous at_ = Ok rs ->
  exists s' c, apply s (batch_of id (dec_expected_sequence d) rs) t = Ok (s', []) /\
    k_phase s' = Some RunPhase_Cancelling /\ k_cancellation s' = Some c /\ k_phase s = Some (cs_prior_phase c) /\
    cr_initiator (cs_request c) = crq_initiator input /\ cr_reason (cs_request c) = crq_reason input /\
    dec_actions d = PostCommitAction_CancelEffect <$> cs_outstanding_effects c.
Proof.
  intros Hr Hc Hg Hn1 Hn2 Hd%kernel_cancels Hne Hcommit. by eapply (cancellation_applies s env); [| |apply reachable_growth|..].
Qed.

(** C25: crossing a limit stops the run.  When the kernel decides that a limit
    of the run is crossed, no extension effect is pending, the clock has not gone
    back before the acceptance of the run, and the model and tool settlements and
    the completion and resolution identities are within their ceilings, the
    committed batch applies and leaves the run failed or suspended. *)
Theorem crossed_limit_stops_run s env input canonical d previous at_ rs id t :
  reachable s -> k_pending_extension_effect s = None -> clock_ok s (env_now env) -> settlements_within s ->
  NoDup (ids_record_ids (env_ids env)) -> NoDup (ids_event_ids (env_ids env)) -> 0 <= t -> t + 2 <= u64_max ->
  decide_limit s env input canonical = Ok (Some d) ->
  commit_records (dec_records d) (dec_expected_sequence d) previous at_ = Ok rs ->
  exists s' events, apply s (batch_of id (dec_expected_sequence d) rs) t = Ok (s', events) /\
    (k_phase s' = Some RunPhase_Failed \/ k_phase s' = Some RunPhase_Suspended).
Proof.
  intros Hr Hx Hc Hg%reachable_growth Hn1 Hn2 Ht0 Ht Hd Hcommit; [|done].
  destruct (limit_applies s env input canonical d previous at_ rs id t Hr Hx Hc Hg Hn1 Hn2 Ht0 Ht Hd Hcommit)
    as (s' & events & Ha & Hp & _). by exists s', events.
Qed.

(** C31: a clock that went back makes decided batches unreplayable.  At a time
    before the acceptance of the run, a cancellation can still be decided on,
    and the limit check decides to fail the run because its wall time cannot be
    computed; but replay refuses every record with a negative wall time, so
    either batch, committed, is refused. *)
Theorem early_clock_makes_batches_unreplayable s env d previous at_ rs id t accepted_at :
  reachable s -> k_accepted_at s = Some accepted_at -> env_now env < accepted_at ->
  NoDup (ids_record_ids (env_ids env)) -> NoDup (ids_event_ids (env_ids env)) ->
  (exists input, Kernel_decide s env (KernelInput_CancelRequested input) = Ok d /\ dec_records d <> []) \/
  (exists input canonical, decide_limit s env input canonical = Ok (Some d)) ->
  commit_records (dec_records d) (dec_expected_sequence d) previous at_ = Ok rs ->
  exists e, apply s (batch_of id (dec_expected_sequence d) rs) t = Err e.
Proof.
  intros Hr Hat Hnow Hn1 Hn2 [(input & Hd%kernel_cancels & Hne)|(input & canonical & Hd)] Hcommit.
  - apply decide_cancel_proposes in Hd as (_ & _ & _ & request & _ & _ & Hp & _); [|done].
    eapply early_proposal_refused; [done..|exact Hp|done|by repeat constructor|exact Hcommit].
  - apply decide_limit_limits in Hd as (bodies & Hl & Hp).
    eapply early_proposal_refused; [done..|exact Hp|by destruct Hl|by destruct Hl; repeat constructor|exact Hcommit].
Qed.

(** C36: a limit crossed while an extension effect is pending cannot be
    recorded.  The limit decision does not look at the pending extension effect,
    but replay then accepts only its settlement: the batch that was decided on
    and committed is refused. *)
Theorem limit_refused_during_extension s env input canonical d previous at_ rs id t p :
  reachable s -> k_pending_extension_effect s = Some p ->
  k_phase s <> Some RunPhase_Cancelling -> k_phase s <> Some RunPhase_Suspended ->
  NoDup (ids_record_ids (env_ids env)) -> NoDup (ids_event_ids (env_ids env)) ->
  decide_limit s env input canonical = Ok (Some d) ->
  commit_records (dec_records d) (dec_expected_sequence d) previous at_ = Ok rs ->
  apply s (batch_of id (dec_expected_sequence d) rs) t = Err KernelError_InvalidRecordOrder.
Proof. apply limit_batch_refused. Qed.

(** C37: a fatally failed tool batch cannot be closed by a cancellation.  The
    closing record that reconciliation builds carries the outcome of the plan,
    while replay closes a batch with a fatal error only as failed, so the record
    is refused in every state whose batch has a fatal error. *)
Theorem fatal_batch_refuses_cancellation s env completed cancelled f closed s1 batch error :
  cancellation_followups s env completed cancelled = Ok f ->
  RecordBody_ToolBatchClosed closed ∈ tfu_bodies f ->
  k_active_tool_batch s1 = Some batch -> atb_fatal_error batch = Some error ->
  apply_tool_batch_closed s1 closed = Err KernelError_InvalidRecordOrder.
Proof.
  intros Hf Hin Hb He. destruct (followups_close_plainly _ _ _ _ _ _ Hf Hin) as [k Hk]. by eapply plain_close_refused.
Qed.

(** A stage settles once.  After a stage settlement is decided, committed
    and applied, in every state that extends that history the same settlement is
    a duplicate that proposes nothing, and a settlement of the stage with
    another digest is a conflict, whatever the environment. *)
Theorem stage_settles_once s env input canonical digest d previous at_ rs id t s1 events s2 env2 input2 digest2 canonical2 :
  reachable s -> decide_stage s env input canonical digest = Ok d ->
  NoDup (ids_record_ids (env_ids env)) -> NoDup (ids_event_ids (env_ids env)) ->
  commit_records (dec_records d) (dec_expected_sequence d) previous at_ = Ok rs ->
  apply s (batch_of id (dec_expected_sequence d) rs) t = Ok (s1, events) ->
  grows s1 s2 -> ss_cursor input2 = ss_cursor input -> stage_digest input2 = Ok digest2 ->
  context_canonical_of (KernelInput_StageSettled input2) = Ok canonical2 ->
  Kernel_decide s2 env2 (KernelInput_StageSettled input2) =
    if digest =?? digest2 then duplicate_decision s2 else Err KernelError_ConflictingSettlement.
Proof.
  intros Hr Hd Hn1 Hn2 Hcommit Ha [Hg _ _ _ _ _ _ _ _ _ _ _] Hcur Hdig Hcan. eapply settled_stage_reviewed; [done|done|].
  rewrite Hcur. eapply lookup_weaken; [|exact Hg]. by eapply stage_settlement_recorded.
Qed.

(** The usage checked is the usage accounted.  What the limit check
    projects for a completion is what replay accounts for it, although replay
    adds extension counters in map order; and the call count and widest parallel
    group it projects for a tool batch are those replay counts from the groups
    of the opened batch. *)
Theorem projected_usage_is_accounted s :
  (forall c limits u,
     project_completed_usage (k_limit_usage s) (cpl_output c) (cpl_usage c) limits = Ok u ->
     apply_completed_usage s c = Ok (with_limit_usage u s)) /\
  (forall env plans assigned opened total w,
     assign_plans env plans = Ok assigned -> tbo_calls opened = assigned ->
     u64_checked_add (lu_tool_calls (k_limit_usage s)) (u64_of_usize (length plans)) = Some total ->
     largest_tool_group plans = Some w ->
     record_tool_batch_usage s opened =
       Ok (with_limit_usage (set_lu_max_parallel_tools (Z.max (lu_max_parallel_tools (k_limit_usage s)) w)
                               (set_lu_tool_calls total (k_limit_usage s))) s)).
Proof. split; [intros c limits u; apply projected_usage_applies|intros env plans; apply projected_tools_apply]. Qed.

(** Limits are checked exactly.  The search for a crossed limit finds none
    if and only if the usage is at most every configured maximum, the cost
    included, and every extension counter is registered and within its own. *)
Theorem limits_checked_exactly accepted u :
  first_limit_crossing accepted u = Ok None <-> within_limits (ra_limits accepted) u.
Proof. apply no_crossing. Qed.
End DecideProperties.

(** ** Witnesses *)

Definition accept_env : TransitionEnv := sample_env 900 100 1 1 0.
Definition accept_decision : Decision := Eval vm_compute in decision_of KernelState_default accept_env accept_input.
Definition accept_records : list RecordEnvelope := Eval vm_compute in committed_of accept_decision.

Lemma accept_decides : Kernel_decide KernelState_default accept_env accept_input = Ok accept_decision.
Proof. vm_compute. reflexivity. Qed.
Lemma accept_commits :
  commit_records (dec_records accept_decision) (dec_expected_sequence accept_decision) None None = Ok accept_records.
Proof. vm_compute. reflexivity. Qed.

Ltac distinct := apply (bool_decide_unpack _); vm_compute; exact I.

Lemma decisions_spend_allocations_witness :
  dr_record_id <$> dec_records accept_decision = [900%N] /\ dec_expected_sequence accept_decision = 1.
Proof.
  destruct (decisions_spend_allocations KernelState_default accept_env accept_input accept_decision
              reachable_default accept_decides) as [(Hnone & _)|(sid & lane & run & bodies & _ & _ & [Hs _ _ _ Hr _ _])];
    [discriminate Hnone|split; [exact Hr|exact Hs]].
Defined.

Lemma committed_decisions_pass_envelope_witness :
  validate_identities KernelState_default accept_records = Ok tt.
Proof.
  destruct (committed_decisions_pass_envelope KernelState_default accept_env accept_input accept_decision None None
              accept_records 7 reachable_default accept_decides) as (_ & _ & _ & Hi & _);
    [discriminate|distinct|distinct|exact accept_commits|exact Hi].
Defined.

Lemma accepted_run_starts_witness :
  exists s' e, apply KernelState_default (batch_of 7 1 accept_records) 0 = Ok (s', [e]) /\
    k_phase s' = Some RunPhase_BeforeRun.
Proof.
  destruct (accepted_run_starts KernelState_default accept_env (mkAcceptRun 1 2 deadline_accept) accept_decision None None
              accept_records 7 0 reachable_default eq_refl) as (s' & e & Ha & Hp & _);
    [vm_compute; reflexivity|distinct|distinct|vm_compute; split; [discriminate|reflexivity]|exact accept_decides|exact accept_commits|].
  exists s', e. split; [exact Ha|exact Hp].
Defined.

Definition cancel_env : TransitionEnv := drive_env 11000 130 1 0 0 0 0 1.
Definition cancel_decision : Decision := Eval vm_compute in decision_of fatal1 cancel_env cancel_input.
Definition cancel_records : list RecordEnvelope := Eval vm_compute in committed_of cancel_decision.

Lemma cancellation_takes_hold_witness :
  exists s' c, apply fatal1 (batch_of 7 (dec_expected_sequence cancel_decision) cancel_records) 0 = Ok (s', []) /\
    k_cancellation s' = Some c /\ PostCommitAction_CancelEffect <$> cs_outstanding_effects c =
      [PostCommitAction_CancelEffect 10200; PostCommitAction_CancelEffect 10201].
Proof.
  destruct (cancellation_takes_hold fatal1 cancel_env (mkCancelRequested CancellationInitiator_RuntimeShutdown None)
              cancel_decision None None cancel_records 7 0 fatal1_reachable) as (s' & c & Ha & _ & Hc & _ & _ & _ & Hact);
    [intros a [= <-]; vm_compute; eexists; reflexivity|repeat split; apply Nat.leb_le; vm_compute; reflexivity|distinct|distinct|vm_compute; reflexivity|discriminate
    |vm_compute; reflexivity|].
  exists s', c. split; [exact Ha|]. split; [exact Hc|]. rewrite <- Hact. reflexivity.
Defined.

Definition late_env : TransitionEnv := sample_env 2000 2000 2 2 0.
Definition late_input : KernelInput := KernelInput_RequestExtensionEffect (mkRequestExtensionEffect middleware_request).
Definition late_decision : Decision := Eval vm_compute in decision_of deadline_run late_env late_input.

Lemma crossed_limit_stops_run_witness :
  exists s' events,
    apply deadline_run (batch_of 7 (dec_expected_sequence late_decision) (committed_of late_decision)) 0 = Ok (s', events) /\
    (k_phase s' = Some RunPhase_Failed \/ k_phase s' = Some RunPhase_Suspended).
Proof.
  apply (crossed_limit_stops_run deadline_run late_env late_input None late_decision None None);
    [exact deadline_run_reachable|reflexivity|intros a [= <-]; vm_compute; eexists; reflexivity
    |repeat split; apply Nat.leb_le; vm_compute; reflexivity|distinct|distinct
    |discriminate|vm_compute; discriminate|vm_compute; reflexivity|vm_compute; reflexivity].
Defined.

(** The run was accepted at 100; at 50 the cancellation and the failure of its
    wall-time accounting are decided and committed, and refused. *)
Definition early_cancel_env : TransitionEnv := drive_env 11000 50 1 0 0 0 0 1.
Definition early_cancel : Decision := Eval vm_compute in decision_of deadline_run early_cancel_env cancel_input.
Definition early_limit_env : TransitionEnv := sample_env 2000 50 1 1 0.
Definition early_limit : Decision := Eval vm_compute in decision_of deadline_run early_limit_env late_input.

Lemma early_clock_makes_batches_unreplayable_witness :
  dec_records early_cancel <> [] /\ dec_records early_limit <> [] /\
  (exists e, apply deadline_run (batch_of 7 (dec_expected_sequence early_cancel) (committed_of early_cancel)) 0 = Err e) /\
  exists e, apply deadline_run (batch_of 7 (dec_expected_sequence early_limit) (committed_of early_limit)) 0 = Err e.
Proof.
  split; [discriminate|]. split; [discriminate|]. split.
  - apply (early_clock_makes_batches_unreplayable deadline_run early_cancel_env early_cancel None None _ 7 0 100 deadline_run_reachable);
      [reflexivity|reflexivity|distinct|distinct| |vm_compute; reflexivity].
    left. exists (mkCancelRequested CancellationInitiator_RuntimeShutdown None). split; [vm_compute; reflexivity|discriminate].
  - apply (early_clock_makes_batches_unreplayable deadline_run early_limit_env early_limit None None _ 7 0 100 deadline_run_reachable);
      [reflexivity|reflexivity|distinct|distinct| |vm_compute; reflexivity].
    right. exists late_input, None. vm_compute. reflexivity.
Defined.

Definition blocked_decision : Decision := Eval vm_compute in decision_of extension_run late_env middleware_settled.

Lemma limit_refused_during_extension_witness :
  apply extension_run (batch_of 7 (dec_expected_sequence blocked_decision) (committed_of blocked_decision)) 0 =
    Err KernelError_InvalidRecordOrder.
Proof.
  eapply (limit_refused_during_extension extension_run late_env middleware_settled None blocked_decision None None);
    [exact extension_run_reachable|reflexivity|discriminate|discriminate|distinct|distinct|vm_compute; reflexivity|vm_compute; reflexivity].
Defined.

(** The second call of the fatally failed batch is cancelled: the reconciliation
    is decided and committed, and refused. *)
Definition reconcile_env : TransitionEnv := drive_env 13000 150 5 4 0 1 0 0.
Definition fatal_followups : ToolFollowups :=
  Eval vm_compute in
    match cancellation_followups fatal3 reconcile_env [] [10201%N] with Ok f => f | Err _ => ToolFollowups_default end.
Definition fatal_closed : ToolBatchClosed :=
  Eval vm_compute in
    match last (tfu_bodies fatal_followups) with
    | Some (RecordBody_ToolBatchClosed closed) => closed
    | _ => mkToolBatchClosed 0 0 0 0 [] ToolBatchOutcome_Finalize 0
    end.
Definition refused (r : Driven) : option KernelError := match r with Driven_Rejected _ e => Some e | _ => None end.

Lemma fatal_batch_refuses_cancellation_witness :
  apply_tool_batch_closed fatal3 fatal_closed = Err KernelError_InvalidRecordOrder /\
  refused (drive fatal3 reconcile_env reconcile_second) = Some KernelError_InvalidRecordOrder.
Proof.
  split; [|vm_compute; reflexivity].
  eapply (fatal_batch_refuses_cancellation fatal3 reconcile_env [] [10201%N] fatal_followups fatal_closed fatal3);
    [vm_compute; reflexivity| |reflexivity|reflexivity].
  apply (list_elem_of_lookup_2 _ (pred (length (tfu_bodies fatal_followups)))). reflexivity.
Defined.

(** The same plan again, and a failure of the stage instead. *)
Definition open_settled (calls : list ToolCallPlan) : StageSettled :=
  mkStageSettled (mkStageCursor 0 Stage_BeforeToolBatch)
    (ReducerStageOutcome_ToolBatchPrepared calls ToolBatchContinuation_ContinueModel).
Definition open_failed : StageSettled :=
  mkStageSettled (mkStageCursor 0 Stage_BeforeToolBatch) (ReducerStageOutcome_Fail tool_error).
Definition digest_of (input : StageSettled) : Digest := match stage_digest input with Ok d => d | Err _ => 0%N end.
Definition open_env : TransitionEnv := drive_env 10000 120 4 2 2 0 1 0.
Definition open_decision : Decision := Eval vm_compute in decision_of run6 open_env open_fatal.
Definition open_digest : Digest := Eval vm_compute in digest_of (open_settled [fatal_call 20; fatal_call 21]).
Definition open_events : list RunEvent :=
  match apply run6 (batch_of 7 (dec_expected_sequence open_decision) (committed_of open_decision)) 0 with
  | Ok p => p.2 | Err _ => [] end.

Lemma stage_settles_once_witness :
  Kernel_decide fatal1 open_env (KernelInput_StageSettled (open_settled [fatal_call 20; fatal_call 21])) =
    duplicate_decision fatal1 /\
  Kernel_decide fatal1 open_env (KernelInput_StageSettled open_failed) =
    Err KernelError_ConflictingSettlement.
Proof.
  split.
  - apply (stage_settles_once run6 open_env (open_settled [fatal_call 20; fatal_call 21]) None open_digest open_decision
             None None (committed_of open_decision) 7 0 fatal1 open_events fatal1 open_env
             (open_settled [fatal_call 20; fatal_call 21]) open_digest None);
      [exact run6_reachable|vm_compute; reflexivity|distinct|distinct|vm_compute; reflexivity|vm_compute; reflexivity
      |reflexivity|reflexivity|vm_compute; reflexivity|reflexivity].
  - apply (stage_settles_once run6 open_env (open_settled [fatal_call 20; fatal_call 21]) None open_digest open_decision
             None None (committed_of open_decision) 7 0 fatal1 open_events fatal1 open_env
             open_failed (digest_of open_failed) None);
      [exact run6_reachable|vm_compute; reflexivity|distinct|distinct|vm_compute; reflexivity|vm_compute; reflexivity
      |reflexivity|reflexivity|vm_compute; reflexivity|reflexivity].
Defined.

(** A completion that reports tokens and no cost. *)
Definition sample_completed : EffectCompleted :=
  mkEffectCompleted 1200 middleware_contract "{}" 0
    (Some (mkUsage (Some 10) (Some 5) None None ∅)) None [] ProviderIds_empty None None.

Lemma projected_usage_is_accounted_witness :
  exists u, apply_completed_usage deadline_run sample_completed = Ok (with_limit_usage u deadline_run) /\
    lu_input_tokens u = 10 /\ lu_output_tokens u = 5.
Proof.
  destruct (projected_usage_is_accounted deadline_run) as [Hc _].
  eexists. split; [apply (Hc sample_completed no_limits); vm_compute; reflexivity|split; reflexivity].
Defined.

(** * Properties of states and of time

    What a state that passes the full check guarantees to the kernel restored
    from it, a situation in which replay leaves that set of states, and the text
    of timestamps. *)

Section StateProperties.
Context `{HalfLaws, Hasher, Serde, Wire}.

(** C26: a validated state has the invariants of replay.  When a state passes the
    full check, its terminal record and phase agree; its tool batch, if one is
    active, is the opened plan settled in source order with barriers between
    groups, given that its index was rebuilt; its cancellation classifies every
    effect once and apart from the outstanding ones; and its collections are
    within their ceilings. *)
Theorem validated_state_sound s :
  validate s = Ok tt ->
  terminal_matches (k_terminal s) (k_phase s) /\
  (forall b, k_active_tool_batch s = Some b -> indexed b -> 0 <= atb_next_source_index b -> batch_inv b) /\
  (forall c, k_cancellation s = Some c ->
     NoDup (cs_completed_effects c ++ cs_cancelled_effects c ++ cs_uncertain_effects c) /\
     forall e, e ∈ cs_outstanding_effects c ->
       e ∉ cs_completed_effects c ++ cs_cancelled_effects c ++ cs_uncertain_effects c) /\
  (length (k_messages s) <= SEMANTIC_ARRAY_MAX_ITEMS)%nat /\
  Forall (fun n => (n <= SEMANTIC_MAP_MAX_ENTRIES)%nat) (collection_sizes s).
Proof.
  intros Hv%validate_parts. split_and!; [by apply validated_terminal|intros b; by apply validated_batch
    |intros c; by apply validated_cancellation|apply validated_bounded, Hv..].
Qed.

(** C38: a limit that ends a run while a tool batch is active leaves a state that
    cannot be restored.  The committed batch of the limit decision applies, the
    batch stays active, and a failed run with an active batch does not pass the
    full check. *)
Theorem limit_failure_not_restorable s env input canonical d previous at_ rs id t b s' events :
  reachable s -> k_pending_extension_effect s = None -> clock_ok s (env_now env) ->
  growth_check BatchGrowth_default s = Ok tt ->
  NoDup (ids_record_ids (env_ids env)) -> NoDup (ids_event_ids (env_ids env)) -> 0 <= t -> t + 2 <= u64_max ->
  decide_limit s env input canonical = Ok (Some d) ->
  commit_records (dec_records d) (dec_expected_sequence d) previous at_ = Ok rs ->
  k_active_tool_batch s = Some b ->
  apply s (batch_of id (dec_expected_sequence d) rs) t = Ok (s', events) ->
  k_phase s' = Some RunPhase_Failed -> validate s' <> Ok tt.
Proof.
  intros Hr Hx Hc Hg Hn1 Hn2 Ht0 Ht Hd Hcommit Hb Ha Hp.
  destruct (limit_applies s env input canonical d previous at_ rs id t Hr Hx Hc Hg Hn1 Hn2 Ht0 Ht Hd Hcommit)
    as (s1 & events1 & Ha1 & _ & Hkeep). rewrite Ha in Ha1. injection Ha1 as <- <-.
  apply (failed_batch_invalid s' b); [|done]. by rewrite Hkeep.
Qed.
End StateProperties.

(** Timestamp text round trips.  Text parses to a timestamp if and only if
    the timestamp is in range and the text is the one printed for it: the civil
    calendar and its inverse agree on every day of the years 1 to 9999, and no
    other spelling is accepted. *)
Theorem timestamp_text_roundtrip input t :
  parse_rfc3339 input = Ok t <-> TIMESTAMP_MIN_MS <= t <= TIMESTAMP_MAX_MS /\ input = to_rfc3339 t.
Proof.
  split.
  - intros [Ht Hr]%text_of_parse. by split.
  - intros [Hr ->]. by apply parse_of_text.
Qed.

(** ** Witnesses *)

Definition fatal_batch : option ActiveToolBatch := Eval vm_compute in k_active_tool_batch fatal1.

Lemma validated_state_sound_witness : exists b, fatal_batch = Some b /\ batch_inv b.
Proof.
  destruct (validated_state_sound fatal1) as (_ & Hb & _); [vm_compute; reflexivity|].
  eexists. split; [reflexivity|]. apply Hb; [reflexivity| |vm_compute; discriminate].
  apply bi_indexed. by apply (ko_batch fatal1 (reachable_ok fatal1 fatal1_reachable)).
Defined.

Definition late_tool_env : TransitionEnv := drive_env 14000 2000 2 2 0 0 0 0.
Definition late_tool_decision : Decision := Eval vm_compute in decision_of deadline_tools late_tool_env settle_late.
Definition late_tool_events : list RunEvent :=
  match apply deadline_tools (batch_of 7 (dec_expected_sequence late_tool_decision) (committed_of late_tool_decision)) 0 with
  | Ok p => p.2 | Err _ => [] end.

Lemma limit_failure_not_restorable_witness : validate late_failed <> Ok tt.
Proof.
  eapply (limit_failure_not_restorable deadline_tools late_tool_env settle_late None late_tool_decision None None
            (committed_of late_tool_decision) 7 0 _ late_failed late_tool_events);
    [exact deadline_tools_reachable|reflexivity|intros a [= <-]; vm_compute; eexists; reflexivity|vm_compute; reflexivity
    |apply (bool_decide_unpack _); vm_compute; exact I|apply (bool_decide_unpack _); vm_compute; exact I|discriminate
    |vm_compute; discriminate|vm_compute; reflexivity|vm_compute; reflexivity|reflexivity|vm_compute; reflexivity|reflexivity].
Defined.
