(* ===== verification/PropertiesStore.v ===== *)
(** * Properties of the stores

    The in-memory store refines an append-only journal, its loads and scans
    return stretches of that journal, and the cache of verified heads decides
    as a full verification does while what it stands for is intact.

    The second part has the properties of sessions. *)

From S2P Require Import Prelude Primitives Ids Floats Cbor CborCodec CborDecode Serializer Effects Records State Inputs ToolBatch Digests Policy ApplyStage ApplyTools ApplyEffects ApplyRecord Shapes Events.
From S2P Require Import Apply Decide DecideLimit DecideTools DecideStage DecideSettle DecideControl Conversation Validate Reducer Decisions Chain ChainIntegrity History BatchOrder PhaseMachine PhaseBatch Reach Journal ConversationTree Append Snapshot.
From S2P Require Import Store StoreChain MemoryStore StoreJournal Recover RecoverSound Dispatch Coordinator CoordinatorSound Sample SampleStore.

(** ** The journal behind the store *)

Section Refinement.
Context `{HalfLaws, Hasher, Wire, SnapshotWire}.

(** C3: the store refines an append-only journal.  Whatever sequence of port
    operations runs on a new store (appends, loads, scans, metadata, snapshots,
    prunes, failed ones included), there is a history per session that the store
    represents: the retained records are a verified chain that ends it, and the
    index answers with batches of it.  Running more operations only extends the
    histories. *)
Theorem store_refines_journal limits m first more :
  MemoryJournalStore_try_new limits = Ok m -> Forall op_wf (first ++ more) ->
  exists J J', store_repr (run_ops m first) J /\ store_repr (run_ops m (first ++ more)) J' /\ journals_extend J J'.
Proof.
  intros Hnew [Hf Hm]%Forall_app. destruct (run_ops_repr first m ∅ (store_repr_new _ _ Hnew) Hf) as (J & Hr & _).
  destruct (run_ops_repr more _ J Hr Hm) as (J' & Hr' & Hx). exists J, J'. unfold run_ops. by rewrite foldl_app.
Qed.

(** C20: an acknowledged append is never lost.  The batch an append returns is
    in the session's history after any later operations, prunes included, with
    the drafts it was asked to commit at the sequence it was asked for.  And when
    it was returned under the batch identity of the request, not found through
    the identities of its records under another one, then as long as nothing is
    pruned, retrying the request returns the same batch and changes nothing. *)
Theorem acknowledged_appends_survive limits m before request c m' later :
  MemoryJournalStore_try_new limits = Ok m -> Forall op_wf (before ++ Op_append request :: later) ->
  append_sync (run_ops m before) request = Ok (c, m') ->
  (exists J, store_repr (run_ops m' later) J /\ acknowledged J request c) /\
  (cb_batch_id c = apr_batch_id request -> Forall not_prune later ->
   append_sync (run_ops m' later) request = Ok (c, run_ops m' later)).
Proof.
  intros Hnew [Hb [Hq Hl]%Forall_cons]%Forall_app Ha. destruct (run_ops_repr before m ∅ (store_repr_new _ _ Hnew) Hb) as (J & Hr & _).
  destruct (append_repr _ _ _ _ _ Hr Hq Ha) as (J1 & Hr1 & Hack & _). split.
  - destruct (run_ops_repr later m' J1 Hr1 Hl) as (J2 & Hr2 & Hx). exists J2. split; [done|].
    destruct Hack as (Hs & Hd & jb & Hj & Hc). split; [done|]. split; [done|]. destruct (Hx _ _ Hj) as [more Hj2].
    exists (jb ++ more). set_solver.
  - intros Hid Hnp. apply answers_append, answers_ops; [|done]. eapply append_answers; [exact Hr|exact Ha|done].
Qed.
End Refinement.

(** ** Reading *)

Section Reading.
Context `{HalfLaws, Hasher, Wire, SnapshotWire}.

(** C21: loads succeed and return the journal.  Whatever the cache of verified
    heads holds, stale or wrong, loading a session the store represents succeeds
    while its counter has room.  The loaded batches are exactly those of the
    session's history past the pruning boundary, in order: all of them when the
    store was only used without prunes, and those after the sequence of its
    receipt when the session was just pruned.  The head is the last record of the
    history. *)
Theorem loads_return_the_journal m J sid jb cache :
  store_repr m J -> J !! sid = Some jb -> Z.of_nat (length (batch_records jb)) < u64_max ->
  exists sd l, session_of m sid = Some sd /\ (load (set_ms_verified cache m) sid).2 = Ok l /\ ls_session_id l = sid /\
    ls_committed_batches l = List.filter (fun b => pruned_through sd <? cb_last_sequence b) jb /\
    ls_head_sequence l = Z.of_nat (length (batch_records jb)) /\ linked None 1 (batch_records jb) (ls_head_checksum l) /\
    (forall limits m0 ops, MemoryJournalStore_try_new limits = Ok m0 -> Forall not_prune ops -> m = run_ops m0 ops ->
       ls_committed_batches l = jb) /\
    (forall m' receipt, prune_sync m sid = (m', Ok receipt) -> exists l', (load (set_ms_verified cache m') sid).2 = Ok l' /\
       ls_committed_batches l' = List.filter (fun b => prr_pruned_through_sequence receipt <? cb_last_sequence b) jb).
Proof.
  intros Hr Hj Hlen. pose proof (st_sessions _ _ Hr sid) as Hs. rewrite Hj in Hs.
  destruct (session_of m sid) as [sd|] eqn:Hsd; inversion Hs as [? ? Hsj|]; subst. pose proof (retained_batches _ _ _ Hsj) as Hb.
  exists sd, (loaded_session sid sd (sd_batches sd)). split; [done|].
  split; [by apply (load_full_repr _ J sid sd jb); [apply store_repr_cache|..]|]. pose proof (sj_repr _ _ _ Hsj) as Hrep.
  split; [done|]. split; [done|]. split; [by destruct Hrep|]. split; [by destruct Hrep|]. split.
  - intros limits m0 ops Hnew Hops ->. cbn [loaded_session ls_committed_batches]. rewrite Hb.
    rewrite (unpruned_ops _ _ _ Hnew Hops sid sd Hsd). apply filter_all. intros b Hin. apply Z.ltb_lt.
    pose proof (covers_last _ _ _ (sj_covers _ _ _ Hsj) Hin). lia.
  - intros m' receipt Hp. destruct (prune_leaves _ _ _ _ _ _ Hr Hj Hp) as (_ & _ & sd' & _ & _ & _ & Hsd' & _ & _ & _ & Hb').
    exists (loaded_session sid sd' (sd_batches sd')). split; [|done]. pose proof (prune_repr m J sid Hr) as Hr'. rewrite Hp in Hr'.
    by apply (load_full_repr _ J sid sd' jb); [apply store_repr_cache|..].
Qed.

(** A scan returns a stretch of the journal.  A page holds the records of
    the session's history from the requested sequence (or from where the
    history was pruned), as many as asked for, and points to the next page
    exactly when records are left. *)
Theorem scans_page_the_journal m J sid sd jb from limit cache :
  store_repr m J -> session_of m sid = Some sd -> J !! sid = Some jb -> 1 <= limit <= SCAN_PAGE_MAX_RECORDS ->
  Z.of_nat (length (batch_records jb)) < u64_max ->
  let start := Z.max (scan_start from) (sd_anchor_next_sequence sd) in
  let rest := drop (Z.to_nat (start - 1)) (batch_records jb) in
  let page := take (Z.to_nat limit) rest in
  (scan_sync (set_ms_verified cache m) (mkScanRequest sid from limit)).2 =
    Ok (mkScanPage sid page (if (Z.to_nat limit <? length rest)%nat then Some (start + limit) else None)).
Proof.
  intros Hr Hsd Hj Hlim Hlen start rest page. erewrite (scan_repr _ J); [|by apply store_repr_cache|done|done|done|done|done].
  cbn [scr_from_sequence scr_limit]. fold start. fold rest. fold page. do 2 f_equal.
  unfold scan_next_sequence. destruct (Nat.ltb_spec (Z.to_nat limit) (length rest)) as [Hlt|]; [|done]. cbn [negb].
  pose proof (st_sessions _ _ Hr sid) as Hs. rewrite Hj, Hsd in Hs. inversion Hs as [? ? [Hrep _ _]|]; subst.
  destruct (session_repr_retained _ _ _ Hrep) as (_ & _ & Hge & _ & _). unfold rest in Hlt. rewrite length_drop in Hlt.
  assert (length page = Z.to_nat limit) as Hpage by (unfold page, rest; rewrite length_take, length_drop; lia).
  destruct (last page) as [r|] eqn:Hlast; [|apply last_None in Hlast; rewrite Hlast in Hpage; cbn in Hpage; lia].
  rewrite last_lookup, Hpage in Hlast. unfold page, rest in Hlast. rewrite lookup_take_lt, lookup_drop in Hlast by lia.
  apply (linked_lookup _ _ _ _ _ _ (sr_linked _ _ _ Hrep)) in Hlast as Hseq. cbn [mbind option_bind]. apply in_range_Some. lia.
Qed.
End Reading.

(** ** The cache of verified heads *)

Section Cache.
Context `{HalfLaws, Hasher, Wire}.

(** C22: the cache is transparent over an intact prefix.  While the records up to
    the cached head still chain to it, the check against the cache returns
    exactly what a full verification returns, error codes included; and a
    journal that verifies is accepted whatever the cache holds. *)
Theorem cache_is_transparent sid p s records head_sequence stored :
  (forall q c, 0 <= s -> chained sid p s (verified_prefix q records) (Some c) ->
   verify_head_against_cache (mkChainAnchor sid s p) records head_sequence stored (Some (mkVerifiedHead q (Some c)))
   = verify_full_head (mkChainAnchor sid s p) records stored) /\
  (forall cached h, verify_full_head (mkChainAnchor sid s p) records stored = Ok h ->
   verify_head_against_cache (mkChainAnchor sid s p) records head_sequence stored cached = Ok h).
Proof. split; [intros q c Hs Hc; by apply cache_exact|intros cached h Hf; by apply cache_accepts]. Qed.

(** C39: the cache trusts everything before the cached record.  Whatever records
    a journal holds in place of the verified ones before the cached record, the
    check against the cache accepts it as long as that record and what follows
    it are intact, even where a full verification refuses it. *)
Theorem cache_trusts_the_prefix sid p s before r after q head_sequence stored :
  Forall (fun x => rec_sequence x <= q) before -> rec_sequence r = q -> 1 <= q ->
  chained sid (Some (rec_checksum r)) (q + 1) after stored -> head_sequence = q + Z.of_nat (length after) -> head_sequence < u64_max ->
  verify_head_against_cache (mkChainAnchor sid s p) (before ++ r :: after) head_sequence stored
    (Some (mkVerifiedHead q (Some (rec_checksum r)))) = Ok stored.
Proof.
  intros Hb Hr Hq Hc -> Hmax. unfold verify_head_against_cache. cbn [ca_session_id].
  rewrite (proj2 (Z.leb_le 1 q)), (proj2 (Z.leb_le q _)) by lia. cbn [andb].
  by rewrite suffix_accepted.
Qed.
End Cache.

(** ** Witnesses *)

Lemma store_refines_journal_witness : exists J J', store_repr (run_ops empty_store [Op_append request0; Op_load 1]) J /\
  store_repr (run_ops empty_store ([Op_append request0; Op_load 1] ++ [Op_discard_snapshot 1; Op_prune 1])) J' /\ journals_extend J J'.
Proof. apply (store_refines_journal store_limits); [reflexivity|]. repeat constructor. Defined.

Lemma acknowledged_appends_survive_witness :
  (exists J, store_repr (run_ops appended0.2 [Op_load 1; Op_discard_snapshot 1]) J /\ acknowledged J request0 appended0.1) /\
  append_sync (run_ops appended0.2 [Op_load 1; Op_discard_snapshot 1]) request0
  = Ok (appended0.1, run_ops appended0.2 [Op_load 1; Op_discard_snapshot 1]).
Proof.
  destruct (acknowledged_appends_survive store_limits empty_store [] request0 appended0.1 appended0.2 [Op_load 1; Op_discard_snapshot 1])
    as [Ha Hb]; [reflexivity|repeat constructor|exact appended0_commits|]. split; [exact Ha|].
  apply Hb; [vm_compute; reflexivity|repeat constructor].
Defined.

Lemma loads_return_the_journal_witness : exists sd l, session_of appended0.2 1 = Some sd /\
  (load (set_ms_verified ∅ appended0.2) 1).2 = Ok l /\ Store.ls_session_id l = 1%N /\
  ls_committed_batches l = List.filter (fun b => pruned_through sd <? cb_last_sequence b) [appended0.1] /\ ls_head_sequence l = 2 /\
  linked None 1 (batch_records [appended0.1]) (ls_head_checksum l) /\ ls_committed_batches l = [appended0.1].
Proof.
  destruct (loads_return_the_journal appended0.2 journals0 1 [appended0.1] ∅ appended0_repr)
    as (sd & l & Hsd & Hl & Hs & Hb & Hh & Hc & Hall & _); [apply lookup_singleton_eq|vm_compute; reflexivity|].
  exists sd, l. split_and!; [assumption..|].
  apply (Hall store_limits empty_store [Op_append request0]); [reflexivity|repeat constructor|].
  cbn [run_ops foldl run_op]. by rewrite appended0_commits.
Defined.

Lemma scans_page_the_journal_witness :
  (scan_sync appended0.2 (mkScanRequest 1 0 1)).2 = Ok (mkScanPage 1 [record1] (Some 2)).
Proof.
  destruct (session_of appended0.2 1) as [sd|] eqn:Hsd; [|vm_compute in Hsd; discriminate].
  assert (sd_anchor_next_sequence sd = 1) as Ha by (vm_compute in Hsd; injection Hsd as <-; reflexivity).
  pose proof (scans_page_the_journal appended0.2 journals0 1 sd [appended0.1] 0 1 (ms_verified appended0.2) appended0_repr Hsd
    (lookup_singleton_eq _ _)) as Hscan. rewrite Ha in Hscan. apply Hscan; [unfold SCAN_PAGE_MAX_RECORDS; lia|vm_compute; reflexivity].
Defined.

Lemma cache_is_transparent_witness :
  verify_head_against_cache (mkChainAnchor 1 1 None) [record1; record2] 2 (Some (rec_checksum record2))
    (Some (mkVerifiedHead 1 (Some (rec_checksum record1))))
  = verify_full_head (mkChainAnchor 1 1 None) [record1; record2] (Some (rec_checksum record2)).
Proof.
  apply (proj1 (cache_is_transparent 1 None 1 [record1; record2] 2 (Some (rec_checksum record2)))); [lia|].
  apply chained_verifies. vm_compute. reflexivity.
Defined.

(** The first record was altered: a full verification refuses the journal, the
    check against the cache accepts it. *)
Lemma cache_trusts_the_prefix_witness :
  verify_full_head (mkChainAnchor 1 1 None) [tampered1; record2] (Some (rec_checksum record2))
    = Err (StoreError_Integrity "envelope_checksum_mismatch") /\
  verify_head_against_cache (mkChainAnchor 1 1 None) [tampered1; record2] 2 (Some (rec_checksum record2))
    (Some (mkVerifiedHead 2 (Some (rec_checksum record2)))) = Ok (Some (rec_checksum record2)).
Proof.
  split; [vm_compute; reflexivity|].
  apply (cache_trusts_the_prefix 1 None 1 [tampered1] record2 [] 2 2 (Some (rec_checksum record2)));
    [repeat constructor; vm_compute; discriminate|vm_compute; reflexivity|lia| |reflexivity|unfold u64_max; lia].
  split; [constructor|constructor|done].
Defined.

(** * Properties of sessions

    Submissions keep the kernel a replay of the durable journal and reach the
    host only after the commit, recovery from a snapshot is the full replay,
    snapshots round trip, and the conversation of a session is a forest whose
    histories are well paired. *)

(** ** Submissions *)

(** C2: a submission of a primary coordinator follows the journal.  From a
    coordinator with the primary replay scope (the scopes of one run and of
    structural records only reload a filtered journal, and are not meant here)
    whose kernel replays a prefix of its session's journal, a submission (through
    conflicts, reloads, ambiguous acknowledgements and faults) ends in one whose
    kernel does too; the journal only grows; every event published and every
    action dispatched on the way is justified by a batch that is already durable
    and by a state that replays the journal; and the batch it reports is in the
    journal.  This holds for every store that keeps the laws of a journal. *)
Theorem submissions_follow_the_journal `{Hasher, Serde, SnapshotWire, Continuations} {S W : Type}
    `{!JournalStore S, !JournalLaws S, !Host W} sid env input (s : System (S := S) (W := W)) J :
  is_i64 (env_now env) -> (forall a, input = KernelInput_AcceptRun a -> ar_session_id a = sid) ->
  co_replay_scope (sys_co s) = ReplayScope_Primary -> js_repr (sys_store s) J ->
  replay_of (journal_of J sid) (co_kernel (sys_co s)) (co_pending_timer_scheduled_at (sys_co s)) ->
  let '(s', r) := submit env input s in
  exists J', js_repr (sys_store s') J' /\ journals_extend J J' /\
    replay_of (journal_of J' sid) (co_kernel (sys_co s')) (co_pending_timer_scheduled_at (sys_co s')) /\
    co_replay_scope (sys_co s') = ReplayScope_Primary /\ host_moves sid (env_now env) J' (sys_host s) (sys_host s') /\
    forall out c, r = Ok out -> out_committed out = Some c -> c ∈ journal_of J' sid.
Proof.
  intros Hnow Hinput Hscope Hrepr Hreplay. destruct (submit env input s) as [s' r] eqn:E.
  destruct (submit_triple sid (env_now env) env input (conj eq_refl Hnow) Hinput s J (Build_inv _ _ _ Hrepr Hreplay Hscope) I)
    as (J' & [Hrepr' Hreplay' Hscope'] & Hx & Hh & Hq).
  rewrite E in *. exists J'. split_and!; [done..|]. intros out c -> Hc. by eapply Hq.
Qed.

Definition first_env : TransitionEnv := submit_env 20000 100 1 1 0 0 0 0.

Lemma submissions_follow_the_journal_witness :
  let '(s', r) := submit first_env accept_session_run start in
  exists J', js_repr (sys_store s') J' /\ journals_extend ∅ J' /\
    replay_of (journal_of J' 1) (co_kernel (sys_co s')) (co_pending_timer_scheduled_at (sys_co s')) /\
    co_replay_scope (sys_co s') = ReplayScope_Primary /\ host_moves 1 (env_now first_env) J' (sys_host start) (sys_host s') /\
    forall out c, r = Ok out -> out_committed out = Some c -> c ∈ journal_of J' 1.
Proof.
  apply (submissions_follow_the_journal 1 first_env accept_session_run start ∅);
    [split; vm_compute; discriminate|by intros a [= <-]|reflexivity|by apply (memory_new store_limits)|apply replay_of_default].
Defined.

(** It commits a batch and publishes its event. *)
Example first_submission_commits :
  match (submit first_env accept_session_run start).2 with
  | Ok out => (cb_batch_id <$> out_committed out, length (out_events out))
  | Err _ => (None, 0%nat)
  end = (Some 20000%N, 1%nat).
Proof. vm_compute. reflexivity. Qed.

(** ** Recovery *)

(** C4: recovery from a snapshot is the full replay.  Take a snapshot of what
    replaying a prefix of the session's history yields, sealed with the checksum
    of the last record of that prefix, and a load of the session that still has
    every batch after the snapshot, however many of those it covers were pruned.
    When the state of the snapshot passes the state check of a restore, recovery
    uses the snapshot and ends in the kernel and the pending timer of replaying
    the whole history, with the next transient sequence short by exactly the
    events of the prefix.  When it does not pass but nothing was pruned, recovery
    still ends there.  (That the check passes is assumed: a run that a limit
    ended with an active tool batch leaves a state that it refuses.) *)
Theorem snapshot_recovery_is_replay `{Half, Hasher, Wire, Serde, SnapshotWire} history acc n a full k loaded :
  honest_snapshot history acc n a -> rec_checksum <$> last (batch_records (take n history)) = Some (acr_head_checksum acc) ->
  rfold replay_batch_step (mkReplayed KernelState_default 0 None) history = Ok full ->
  linked None 1 (batch_records history) (ls_head_checksum loaded) -> ls_head_sequence loaded = k_last_applied_sequence (rp_kernel full) ->
  (k <= n)%nat -> ls_committed_batches loaded = drop k history -> ls_accelerated loaded = Some acc ->
  (Kernel_try_restore (acr_state acc) = Ok (acr_state acc) ->
   exists b, replay_loaded loaded = Ok (b, true) /\ same_replay_state (rp_next_transient_sequence a) full b) /\
  (k = 0%nat -> exists b used, replay_loaded loaded = Ok (b, used) /\ same_replay_state (skipped_events a used) full b).
Proof.
  intros Hh Hsum Hfull Hlink Hhead Hk Hb Hacc. split.
  - intros Hres. pose proof (sealed_snapshot_passes _ _ _ _ _ _ _ Hh Hsum Hfull Hlink Hhead Hk Hb) as Hc.
    destruct (snapshot_recovers _ _ _ _ _ _ _ Hh Hfull Hk Hb Hhead Hc Hres) as (b & Hrun & Hsame).
    exists b. split; [|done]. unfold replay_loaded. by rewrite Hacc, Hrun.
  - intros ->. rewrite drop_0 in Hb. subst history. by apply (recovery_exact loaded acc n).
Qed.

Lemma snapshot_recovery_is_replay_witness :
  (exists b, replay_loaded pruned5 = Ok (b, true) /\
     same_replay_state (rp_next_transient_sequence (replayed_of (take 5 history5))) (replayed_of history5) b) /\
  exists b used, replay_loaded whole5 = Ok (b, used) /\
     same_replay_state (skipped_events (replayed_of (take 5 history5)) used) (replayed_of history5) b.
Proof.
  split.
  - apply (snapshot_recovery_is_replay history5 restore4 5 (replayed_of (take 5 history5)) (replayed_of history5) 5 pruned5 restore4_honest);
      [vm_compute; reflexivity|exact history5_replays|exact history5_linked|vm_compute; reflexivity|lia|reflexivity|reflexivity|vm_compute; reflexivity].
  - apply (snapshot_recovery_is_replay history5 restore4 5 (replayed_of (take 5 history5)) (replayed_of history5) 0 whole5 restore4_honest);
      [vm_compute; reflexivity|exact history5_replays|exact history5_linked|vm_compute; reflexivity|lia|reflexivity|reflexivity|reflexivity].
Defined.

(** With the whole journal at hand a snapshot changes nothing but speed.
    Whatever its checksum and whether or not its state validates, recovery ends
    in the kernel and timer of the full replay. *)
Theorem snapshots_do_not_change_recovery `{Hasher, Serde, SnapshotWire} loaded acc n a full :
  whole_journal loaded full -> ls_accelerated loaded = Some acc -> honest_snapshot (ls_committed_batches loaded) acc n a ->
  exists b used, replay_loaded loaded = Ok (b, used) /\ same_replay_state (skipped_events a used) full b.
Proof. apply recovery_exact. Qed.

Lemma snapshots_do_not_change_recovery_witness :
  exists b used, replay_loaded whole5 = Ok (b, used) /\
    same_replay_state (skipped_events (replayed_of (take 5 history5)) used) (replayed_of history5) b.
Proof.
  apply (snapshots_do_not_change_recovery whole5 restore4 5 (replayed_of (take 5 history5)) (replayed_of history5) whole5_journal);
    [reflexivity|exact restore4_honest].
Defined.

(** Snapshots round trip.  What [encode_snapshot] writes for a state in range
    is read back by [decode_opaque_snapshot] as the state, the checksum, the
    timer and the continuation it was written from. *)
Theorem snapshots_round_trip `{HalfLaws, Hasher, SnapshotWire, !SnapshotWireLaws} s sequence checksum timer continuation b d :
  encode_snapshot s sequence checksum timer continuation = Ok (b, d) ->
  is_u64 (k_last_applied_sequence s) -> (checksum < 2 ^ 256)%N -> (forall t, timer = Some t -> is_i64 t) ->
  exists hash, state_hash s = Some hash /\
    decode_opaque_snapshot sequence d b = Ok (mkDecodedSnapshot sequence checksum hash timer continuation s).
Proof. apply snapshot_roundtrip. Qed.

Definition encoded4 : bytes * Digest :=
  match encode_snapshot kernel4 8 508 (Some 77) (Some "{}") with Ok p => p | Err _ => ([], 0%N) end.
Lemma snapshots_round_trip_witness : exists hash, state_hash kernel4 = Some hash /\
  decode_opaque_snapshot 8 encoded4.2 encoded4.1 = Ok (mkDecodedSnapshot 8 508 hash (Some 77) (Some "{}") kernel4).
Proof.
  apply (snapshots_round_trip kernel4 8 508 (Some 77) (Some "{}") encoded4.1 encoded4.2);
    [vm_compute; reflexivity|split; vm_compute; discriminate|reflexivity|]. intros t [= <-]. split; vm_compute; discriminate.
Defined.

(** C35: a snapshot written after conversation entries is lost.  Take a primary
    coordinator over the in-memory store whose submission committed a batch and
    beside it sibling batches (the conversation entries of an answer), which its
    kernel has applied.  When a snapshot is due and the store takes it, it pairs
    the sequence of the last sibling with the checksum of the last record of the
    committed batch.  Unless the two checksums collide, a windowed load from that
    snapshot is refused, and once the session is pruned through it the session
    still loads, without batches, but cannot be recovered any more. *)
Theorem sibling_snapshot_is_lost `{HalfLaws, Hasher, !HasherLaws, Serde, Wire, SnapshotWire, !SnapshotWireLaws} {W : Type} `{!Host W}
    (s : System (S := MemoryJournalStore) (W := W)) J sid earlier committed siblings r r' store' :
  let co := sys_co s in
  let jb := earlier ++ committed :: siblings in
  store_repr (sys_store s) J -> J !! sid = Some jb -> Z.of_nat (length (batch_records jb)) < u64_max ->
  Forall (fun r => is_i64 (rec_timestamp r)) (batch_records jb) ->
  replays jb (co_kernel co) (co_pending_timer_scheduled_at co) ->
  last (cb_records committed) = Some r -> last (batch_records siblings) = Some r' -> rec_checksum r' <> rec_checksum r ->
  co_replay_scope co = ReplayScope_Primary ->
  0 < co_snapshot_every_n_records co <= k_last_applied_sequence (co_kernel co) - default 0 (co_last_snapshot_sequence co) ->
  write_state_snapshot_sync (sys_store s) (mkStateSnapshotRequest sid (co_kernel co) (rec_checksum r)
    (co_pending_timer_scheduled_at co) (co_last_model_continuation co)) = Ok store' ->
  sys_store (maybe_write_snapshot committed s).1 = store' /\
  (exists sd sn acc, session_of store' sid = Some sd /\ sd_snapshot sd = Some sn /\ accelerated_from sn = Some acc /\
     acr_sequence acc = rec_sequence r' /\ acr_head_checksum acc = rec_checksum r /\ sd_head_checksum sd = Some (rec_checksum r')) /\
  (load_from store' (mkLoadFromRequest sid LoadWindow_SnapshotPlusTail)).2 = Err (StoreError_Integrity "snapshot_checksum_mismatch") /\
  forall pruned receipt, prune_sync store' sid = (pruned, Ok receipt) ->
    exists l, (load pruned sid).2 = Ok l /\ ls_committed_batches l = [] /\ replay_loaded l = Err "loaded_head_mismatch".
Proof.
  intros co jb Hr Hj Hlen Htimes Hrep Hlast Hlast' Hne Hscope [Hevery Hdue] Hw. pose proof (write_state_snapshot_repr _ _ _ _ Hr Hw) as Hr'.
  pose proof (st_sessions _ _ Hr' sid) as Hs. rewrite Hj in Hs. destruct (session_of store' sid) as [sd|] eqn:Hsd; inversion Hs as [? ? [Hsr _ _]|]; subst.
  assert (r ∈ batch_records jb) as Hin.
  { unfold jb. rewrite batch_records_app. apply elem_of_app. right. unfold batch_records. cbn. apply elem_of_app. left. by apply last_Some_elem_of. }
  assert (last (batch_records jb) = Some r') as Hend by (unfold jb; rewrite (cons_middle committed), app_assoc, batch_records_app, last_app, Hlast'; done).
  assert ((rec_checksum r < 2 ^ 256)%N) as Hbits.
  { pose proof (linked_bits _ _ _ _ (StoreJournal.sr_linked _ _ _ Hsr)) as Hb. rewrite Forall_forall in Hb. by apply Hb. }
  assert (rec_session_id r = sid) as Hsid.
  { pose proof (StoreJournal.sr_session _ _ _ Hsr) as Hb. rewrite Forall_forall in Hb. by apply Hb. }
  destruct (written_snapshot (sys_store s) J jb (mkStateSnapshotRequest sid (co_kernel co) (rec_checksum r)
    (co_pending_timer_scheduled_at co) (co_last_model_continuation co)) store' Hr Hj Hrep Hbits Htimes Hw) as (sd' & sn & Hsd' & Hsn & Hq & Hacc).
  cbn in Hacc. change (session_of store' sid = Some sd') in Hsd'.
  rewrite Hsd in Hsd'. injection Hsd' as <-.
  assert (sd_head_checksum sd = Some (rec_checksum r')) as Hhead.
  { rewrite (linked_last _ _ _ _ (StoreJournal.sr_linked _ _ _ Hsr)), Hend; [done|]. intros E. by rewrite E in Hend. }
  assert (rec_sequence r' = Z.of_nat (length (batch_records jb)) /\ 0 < Z.of_nat (length (batch_records jb))) as [Hseq Hpos].
  { rewrite last_lookup in Hend. apply lookup_lt_Some in Hend as Hlt. apply (linked_lookup _ _ _ _ _ _ (StoreJournal.sr_linked _ _ _ Hsr)) in Hend. lia. }
  assert (sd_head_checksum sd <> Some (rec_checksum r)) as Hdiff by congruence.
  split_and!.
  - unfold maybe_write_snapshot, bind, get, on_store. fold co. rewrite Hscope, eqb_refl. cbn [negb orb].
    rewrite (proj2 (Z.eqb_neq _ _)), (proj2 (Z.ltb_ge _ _)), Hlast by lia. cbn [js_write_state_snapshot memory_journal].
    rewrite Hsid, Hw. done.
  - eexists sd, sn, _. split_and!; [done|done|exact Hacc|cbn; lia|done|done].
  - eapply misplaced_snapshot_refused; [done|exact Hj|exact Hsd|exact Hsn|exact Hacc|done|exact Hdiff|done].
  - intros pruned receipt Hp. eapply pruned_session_unreplayable; [exact Hr'|exact Hj|exact Hsd|exact Hsn|exact Hacc|done|exact Hdiff|done|exact Hp].
Qed.

Lemma sibling_snapshot_is_lost_witness :
  sys_store (maybe_write_snapshot (nth 5 history5 (mkCommittedBatch 0 0 0 [])) due5).1 = snapshot_store5 /\
  (load_from snapshot_store5 (mkLoadFromRequest 1 LoadWindow_SnapshotPlusTail)).2 = Err (StoreError_Integrity "snapshot_checksum_mismatch") /\
  exists l, (load pruned_store5 1).2 = Ok l /\ ls_committed_batches l = [] /\ replay_loaded l = Err "loaded_head_mismatch".
Proof.
  destruct store5_repr as (J & Hr & Hj).
  destruct (sibling_snapshot_is_lost due5 J 1 (take 5 history5) (nth 5 history5 (mkCommittedBatch 0 0 0 [])) (drop 6 history5)
    (nth 9 (batch_records history5) record1) (nth 11 (batch_records history5) record1) snapshot_store5) as (Hstore & _ & Hload & Hprune);
    [exact Hr|exact Hj|vm_compute; reflexivity| |exact history5_kernel|vm_compute; reflexivity|vm_compute; reflexivity|vm_compute; discriminate
    |vm_compute; reflexivity|split; vm_compute; [reflexivity|discriminate]|vm_compute; reflexivity|].
  { change (batch_records (take 5 history5 ++ _ :: drop 6 history5)) with (batch_records history5).
    apply Forall_forall. intros x [i Hi]%list_elem_of_lookup. do 12 (destruct i as [|i]; [injection Hi as <-; split; vm_compute; discriminate|]). done. }
  split; [exact Hstore|]. split; [exact Hload|]. apply (Hprune pruned_store5 (mkPruneReceipt 12 0 1)). vm_compute. reflexivity.
Defined.

(** ** Conversations *)

(** C28: walking a conversation ends.  On any entries, cyclic or dangling ones
    included, the loop is over after one turn per entry and one more: it returns
    the path from the root down to the entry when there is one, reports a cycle
    or a missing entry when there is none, and never both. *)
Theorem walks_terminate entries id :
  exists r, walk_loop (S (size entries)) entries [] ∅ (Some id) = Some r /\ walk_conversation entries id = r /\
    (forall l, r = Ok l <-> rooted entries id l) /\
    (forall e, r = Err e -> e = ConversationError_Cycle \/ e = ConversationError_MissingLeaf \/ e = ConversationError_MissingParent).
Proof.
  exists (walk_conversation entries id). split; [apply walk_conversation_loop|]. split; [done|]. split; [intros l; apply walk_rooted|].
  intros e He. pose proof (walk_conversation_loop entries id) as Hl. rewrite He in Hl. by eapply walk_loop_errors.
Qed.

(** C27: a replayed session is a forest that only grows.  Replaying records into
    a projection of a session keeps every entry on a path from a root, keeps
    lane names distinct and lane leaves present, never changes or removes an
    entry, a lane's name or what a run was accepted with, and never reopens a
    terminal run. *)
Theorem sessions_are_growing_forests sid first more p p' :
  replay_session (SessionProjection_new sid) first = Ok p -> replay_session p more = Ok p' ->
  session_ok p /\ session_ok p' /\ session_extends p p'.
Proof.
  intros H1 H2. destruct (replay_session_step _ _ _ H1 (session_new_ok sid)) as [Hp _].
  destruct (replay_session_step _ _ _ H2 Hp) as [Hp' Hx]. done.
Qed.

Definition replayed_session (records : list RecordEnvelope) : SessionProjection :=
  match replay_session (SessionProjection_new 1) records with Ok p => p | Err _ => SessionProjection_new 1 end.
Lemma sessions_are_growing_forests_witness :
  let p := replayed_session (batch_records (take 5 history5)) in
  let p' := replayed_session (batch_records history5) in
  session_ok p /\ session_ok p' /\ session_extends p p'.
Proof.
  apply (sessions_are_growing_forests 1 (batch_records (take 5 history5)) (batch_records (drop 5 history5)));
    vm_compute; reflexivity.
Defined.

(** C29: a history is handed out exactly when its tool calls pair off.  The
    history of an entry is the path from its root when every call on the path is
    made once and returned once, after it was made; otherwise it is refused. *)
Theorem histories_are_paired entries id path :
  extract_history entries id = Ok path <-> rooted entries id path /\ paired (path_events path).
Proof.
  unfold extract_history. split.
  - intros HH. do 2 step HH. injection HH as ->. destruct a0. split; [by apply walk_rooted|by apply validate_tool_pairs_paired].
  - intros [Hw%walk_rooted Hp%validate_tool_pairs_paired]. rewrite Hw. cbn [rbind]. by rewrite Hp.
Qed.

(** A preview answers what committing would answer.  Checking drafted
    entries against an overlay of the session succeeds exactly when applying
    them one by one to its entries succeeds, and fails with the same error. *)
Theorem previews_agree_with_commits p drafts :
  preview_conversation_entries p drafts =
    match rfold apply_conversation_entry (sp_entries p) drafts with Ok _ => Ok tt | Err e => Err e end.
Proof.
  unfold preview_conversation_entries. pose proof (previews_overlay (sp_entries p) drafts ∅ (sp_entries p) (overlays_refl _)) as Ho.
  destruct (rfold (preview_step _) _ _), (rfold apply_conversation_entry _ _); cbn in *; congruence || done.
Qed.
