(* ===== verification/PropertiesPorts.v ===== *)
(** * Properties of the ports

    The theorems on the runtime's ports: the middleware chain, the model stream
    and request, context assembly, compaction, the tool catalog and the event
    hub, with their instances at the values of [SamplePorts]. *)

From S2P Require Import Prelude Primitives Effects Records State Inputs ToolBatch Digests Policy ApplyTools Decide Dispatch Sample.
From S2P Require Import ModelPort ContextPort ContextCall ContextSound Middleware MiddlewareSound ModelStream ModelStreamSound ToolPort ToolPortSound Compaction CompactionSound Events EventHub EventHubSound EventHubRun SamplePorts.

(** ** Middleware *)

(** C12: building a middleware chain ends, with the chain or with an error.  A
    chain that is built has the registered components, distinct and valid, with
    at most one compactor; each stage holds exactly the components of that stage,
    in an order that respects tiers and every before and after declaration, and
    is the order of the specification: again and again the least component by
    tier, priority and registration of those whose predecessors have all run.
    And a chain is refused for a cycle only when some stage has no order at all
    that respects the declarations. *)
Theorem chains_resolve_to_the_specified_order `{Hasher, MiddlewareJson} {Handle : Type}
    (descriptor : Handle -> MiddlewareDescriptor) registrations :
  match ResolvedMiddlewareChain_try_new descriptor registrations with
  | None => False
  | Some (Ok chain) => exists resolved,
      registered descriptor resolved registrations
      /\ (length (filter (fun r => is_compactor r = true) resolved) <= 1)%nat
      /\ forall stage, chain_stage chain stage ≡ₚ stage_nodes stage resolved
                       /\ respects (chain_stage chain stage)
                       /\ resolves (stage_nodes stage resolved) (chain_stage chain stage)
  | Some (Err e) => e = order_cycle ->
      exists resolved stage, registered descriptor resolved registrations
        /\ forall order, order ≡ₚ stage_nodes stage resolved -> ~ respects order
  end.
Proof.
  pose proof (try_new_spec descriptor registrations) as HH.
  destruct (ResolvedMiddlewareChain_try_new descriptor registrations) as [[chain|e]|]; [| |done].
  - destruct HH as (resolved & Hreg & Hc & Hs). exists resolved. split_and!; [done|done|]. intros stage.
    pose proof (resolve_stage_spec stage resolved (rg_unique _ _ _ Hreg)) as Hr. rewrite Hs in Hr.
    destruct Hr as [Hr Hp]. split_and!; [done|by eapply resolves_respects|done].
  - intros He. destruct (HH He) as (resolved & stage & partial & Hreg & Hst). exists resolved, stage. split; [done|].
    intros order Hp. eapply stuck_no_order; [|exact Hst|exact Hp]. eapply sublist_NoDup; [exact (rg_unique _ _ _ Hreg)|].
    apply fmap_sublist, sublist_filter.
Qed.

(** C14: a compaction that the stage check lets through comes from the chain's
    compactor and keeps what a compaction must keep: the kept messages are a
    subsequence of the source, every protected message is kept with the same
    canonical bytes, the current user message stays last, no answered tool call
    is kept without its result, the estimate fits the hard input budget, and
    summaries are untrusted derived items at least as sensitive as the source. *)
Theorem compaction_keeps_the_current_request `{Hasher, ModelJson, CompactionJson} d input result :
  validate_stage_outcome d (StageInput_BeforeModel input) (StageOutcome_CompactContext result) = Ok tt ->
  is_context_compactor (mwd_role d) = true /\ compaction_keeps input result.
Proof.
  unfold validate_stage_outcome. intros HH. step HH. step HH. step HH. apply reject_if_Ok, negb_false_iff in E0.
  cbn in E0. split; [done|]. by apply (validate_compaction_keeps d).
Qed.

Lemma compaction_keeps_the_current_request_witness :
  is_context_compactor (mwd_role compactor) = true /\ compaction_keeps compaction_input compaction.
Proof. apply compaction_keeps_the_current_request. vm_compute. reflexivity. Defined.

(** ** The model port *)

(** C13: an accepted model stream is a run of fragments closed by one terminal
    item, within the item limit, and the terminal repeats the fragments: the
    final text is their concatenation, the tool calls are, in order of first
    appearance, the joins of their own fragments (one name, one provider id,
    concatenated arguments that parse), reported usage never went backwards and
    its last report is the final one; a deferral has no open tool call.  The
    progress passed on is that of the fragments, in order. *)
Theorem accepted_streams_repeat_their_fragments `{StreamJson} limits stream progress terminal :
  assemble limits stream = Ok (progress, terminal) ->
  exists items final,
    stream = (Ok <$> items) ++ [Ok final] /\ Z.of_nat (length stream) <= msl_max_items limits
    /\ Forall (fun item => is_terminal item = false) items /\ progress = omap progress_of items
    /\ (forall i u v, usages items !! i = Some u -> usages items !! S i = Some v -> usage_regressed u v = false)
    /\ match terminal with
       | ModelTerminal_Completed response =>
           final = ModelStreamItem_Completed response
           /\ rfold final_text_step "" (mrs_assistant_content response) = Ok (join (streamed_texts items))
           /\ Forall2 (fun index call => call_joins (fragments index items) call) (call_indices items) (mrs_tool_calls response)
           /\ (forall u, last (usages items) = Some u -> u = mrs_usage response)
       | ModelTerminal_Deferred deferral => final = ModelStreamItem_Deferred deferral /\ call_indices items = []
       end.
Proof.
  intros (items & final & s & -> & Hf & -> & Hs & Hset & Hlen)%assemble_sound. exists items, final.
  split_and!; [done|done|apply Hs|done|apply Hs|].
  destruct terminal as [response|d]; cbn in Hset; destruct final; try discriminate Hf; injection Hf as ->.
  - unfold validate_completed_response in Hset. step Hset. step Hset. step Hset. apply reject_if_Ok in E1.
    step Hset. step Hset. apply reject_if_Ok in E3. step Hset. apply reject_if_Ok in Hset. crush_ok. subst.
    split_and!; [done| |by eapply completed_calls|].
    + rewrite <- (sd_text _ _ _ Hs). done.
    + intros u Hu. rewrite (sd_usage _ _ _ Hs), Hu in Hset. cbn in Hset. crush_ok. done.
  - split; [done|]. unfold validate_deferral in Hset. step Hset. apply reject_if_Ok in E. case_bool_decide as Ht; [done|].
    destruct (call_indices items) as [|i l] eqn:Ei; [done|]. pose proof (sd_tools _ _ _ Hs i) as Hi.
    rewrite Ht, lookup_empty in Hi. destruct Hi. rewrite Ei. set_solver.
Qed.

Lemma accepted_streams_repeat_their_fragments_witness :
  exists items final,
    sample_stream = (Ok <$> items) ++ [Ok final] /\ Z.of_nat (length sample_stream) <= msl_max_items ModelStreamLimits_default
    /\ Forall (fun item => is_terminal item = false) items
    /\ [ModelProgress_Text "hel"; ModelProgress_Text "lo"] = omap progress_of items
    /\ (forall i u v, usages items !! i = Some u -> usages items !! S i = Some v -> usage_regressed u v = false)
    /\ final = ModelStreamItem_Completed sample_response
    /\ rfold final_text_step "" (mrs_assistant_content sample_response) = Ok (join (streamed_texts items))
    /\ Forall2 (fun index call => call_joins (fragments index items) call) (call_indices items) (mrs_tool_calls sample_response)
    /\ (forall u, last (usages items) = Some u -> u = mrs_usage sample_response).
Proof.
  apply (accepted_streams_repeat_their_fragments ModelStreamLimits_default sample_stream
           [ModelProgress_Text "hel"; ModelProgress_Text "lo"] (ModelTerminal_Completed sample_response)).
  vm_compute. reflexivity.
Defined.

(** ** Profiles and requests *)

(** [p] is at least as tight as [q]. *)
Definition tighter_than (p q : ModelContextProfile) : Prop :=
  mcp_provider p = mcp_provider q /\ mcp_model p = mcp_model q /\ mcp_estimator p = mcp_estimator q
  /\ mcp_hard_input_bytes p <= mcp_hard_input_bytes q /\ mcp_context_window_tokens p <= mcp_context_window_tokens q
  /\ mcp_max_output_tokens p <= mcp_max_output_tokens q
  /\ mcp_reserved_output_tokens q <= mcp_reserved_output_tokens p
  /\ mcp_provider_overhead_tokens q <= mcp_provider_overhead_tokens p.

#[global] Instance tighter_than_preorder : PreOrder tighter_than.
Proof. split; [intros p|intros p q r]; unfold tighter_than; intuition (congruence || lia). Qed.

Lemma tighten_ceiling_le current candidate v : tighten_ceiling current candidate = Ok v -> v <= current.
Proof. unfold tighten_ceiling. intros HH. repeat case_match; try discriminate HH; injection HH as <-; lia. Qed.

Lemma tighten_margin_ge current candidate v : tighten_margin current candidate = Ok v -> current <= v.
Proof. unfold tighten_margin. intros HH. repeat case_match; try discriminate HH; injection HH as <-; lia. Qed.

Lemma apply_profile_override_tighter p o p' : apply_profile_override p o = Ok p' -> tighter_than p' p.
Proof.
  unfold apply_profile_override. intros HH. do 6 step HH. injection HH as <-.
  apply tighten_ceiling_le in E, E0, E1. apply tighten_margin_ge in E2, E3. unfold tighter_than. by cbn.
Qed.

Lemma resolve_profile_tighter `{Hasher, ModelJson} provider agent run allowed locked :
  resolve_model_context_profile provider agent run allowed = Ok locked -> tighter_than (lmp_profile locked) provider.
Proof.
  unfold resolve_model_context_profile. intros HH. step HH. step HH. step HH. step HH. step HH. injection HH as <-. cbn.
  transitivity a0.
  - destruct run as [o|]; [|by injection E1 as <-]. destruct (_ && _); [discriminate E1|]. by eapply apply_profile_override_tighter.
  - destruct agent as [o|]; [|by injection E0 as <-]. by eapply apply_profile_override_tighter.
Qed.

(** A request that is validated against a profile resolved from the
    provider's, through any overrides, fits the provider: its canonical bytes fit
    the provider's ceiling, and the estimated input, the output it asks for and
    the provider's overhead together fit the provider's context window. *)
Theorem validated_requests_fit_the_window `{Hasher, ModelJson} provider agent run allowed locked estimate draft v :
  resolve_model_context_profile provider agent run allowed = Ok locked ->
  validate_model_request estimate draft locked = Ok v ->
  tighter_than (lmp_profile locked) provider
  /\ jcs_draft draft = Some (mrv_canonical_request v)
  /\ str_len (mrv_canonical_request v) <= mcp_hard_input_bytes provider
  /\ mrv_estimated_input_tokens v + mrl_max_output_tokens (mrd_limits draft) + mcp_provider_overhead_tokens provider
     <= mcp_context_window_tokens provider
  /\ mrl_max_output_tokens (mrd_limits draft) <= mcp_max_output_tokens provider.
Proof.
  intros Ht%resolve_profile_tighter HH. unfold validate_model_request in HH.
  do 2 step HH. do 2 step HH. step HH. step HH. do 3 step HH. injection HH as <-. cbn.
  unfold ModelRequestDraft_canonical_bytes in E0. step E0. apply ok_or_Ok in E0.
  apply reject_if_Ok in E1, E2, E7. apply orb_false_iff in E1 as [_ E1], E7 as [E7 E7'].
  repeat apply orb_false_iff in E2 as [E2 ?]. apply ok_or_Ok in E5, E6. apply in_range_Some in E5 as [-> ?], E6 as [-> ?].
  destruct Ht as (Hp & Hm & He & Hb & Hw & Ho & Hr & Hv). unfold tighter_than. split_and!; try done; lia.
Qed.

Lemma validated_requests_fit_the_window_witness :
  tighter_than (lmp_profile locked_profile) sample_profile
  /\ jcs_draft sample_draft = Some "draft"
  /\ str_len "draft" <= mcp_hard_input_bytes sample_profile
  /\ 70 + mrl_max_output_tokens (mrd_limits sample_draft) + mcp_provider_overhead_tokens sample_profile
     <= mcp_context_window_tokens sample_profile
  /\ mrl_max_output_tokens (mrd_limits sample_draft) <= mcp_max_output_tokens sample_profile.
Proof.
  apply (validated_requests_fit_the_window sample_profile (Some tighter) None false locked_profile toy_estimate sample_draft
           (mkModelRequestValidation "draft" 70 80)); vm_compute; reflexivity.
Defined.

(** ** Context *)

(** C30: assembly is deterministic, bounded and accounted.  The assembled context
    does not depend on the order in which the providers finished.  Every item
    offered is either kept or dropped: the kept ones stay in the specified order
    with trusted instructions first, their number, tokens and bytes are what the
    context reports and fit the budget, items are dropped only under the
    truncating policy, and the diagnostics name each provider that lost items
    once, with exactly how many items, tokens and bytes it lost. *)
Theorem assembly_is_deterministic_and_accounted `{ContextJson} recorded budget a :
  Forall item_sized (placement recorded) ->
  assemble_context recorded budget = Ok a ->
  (forall recorded', recorded ≡ₚ recorded' -> assemble_context recorded' budget = Ok a)
  /\ (ix_item <$> placement recorded ≡ₚ recorded ≫= fun r => cxc_items (rcc_contribution r))
  /\ exists kept dropped,
       split_of budget (placement recorded) a kept dropped /\ reports (asm_diagnostics a) dropped
       /\ exists trusted rest, asm_items a = trusted ++ rest
            /\ Forall (fun i => is_trusted_instruction i = true) trusted
            /\ Forall (fun i => is_trusted_instruction i = false) rest.
Proof.
  intros Hz HH. split; [intros r Hr; by rewrite <- (assemble_perm _ _ _ Hr)|]. split; [apply placement_items|].
  destruct (assemble_split _ _ _ HH) as (_ & kept & dropped & Hs). exists kept, dropped. split_and!; [done| |].
  - rewrite (so_diagnostics _ _ _ _ _ Hs). apply diagnostics_report. rewrite list.Forall_forall in Hz |- *.
    intros i Hi. apply Hz. rewrite (so_split _ _ _ _ _ Hs). set_solver.
  - by eapply trusted_items_lead.
Qed.

Lemma assembly_is_deterministic_and_accounted_witness :
  exists a,
    length (asm_items a) = 2%nat
    /\ assemble_context [recorded_notes; recorded_rules] sample_budget = Ok a
    /\ exists kept dropped,
         split_of sample_budget (placement [recorded_rules; recorded_notes]) a kept dropped /\ reports (asm_diagnostics a) dropped.
Proof.
  destruct (assemble_context [recorded_rules; recorded_notes] sample_budget) as [a|] eqn:E; [|vm_compute in E; discriminate E].
  exists a. split; [vm_compute in E; injection E as <-; reflexivity|].
  edestruct (assembly_is_deterministic_and_accounted [recorded_rules; recorded_notes] sample_budget a) as (Hp & _ & k & d & Hs & Hr & _);
    [|exact E|].
  - repeat constructor; vm_compute; intuition discriminate.
  - split; [apply Hp, Permutation_swap|]. exists k, d. split; [exact Hs|exact Hr].
Defined.

(** C15: only a trusted provider speaks as the system.  When every recorded
    contribution was accepted under its provider's descriptor, a system message
    of the rebuilt request was there before or carries an instruction of a
    provider whose descriptor grants trusted instructions, and that instruction
    does not come from outside; everything else that was contributed is a user
    message.  And the messages that were there keep their order, the current
    user message last. *)
Theorem only_trusted_instructions_reach_system `{ContextJson} {W : Type} `{!IdSources W}
    (descriptor_of : ComponentId -> ContextProviderDescriptor) recorded budget a base w w' messages :
  Forall (fun r => exists call c, accept_contribution call (descriptor_of (rcc_component r)) c = Ok (rcc_contribution r)) recorded ->
  assemble_context recorded budget = Ok a ->
  rebuild_messages base (asm_items a) w = (w', Ok messages) ->
  sublist base messages
  /\ (forall m, last base = Some m -> msg_role m = MessageRole_User -> last messages = Some m)
  /\ forall m, m ∈ messages -> m ∈ base \/ exists r item,
       r ∈ recorded /\ item ∈ cxc_items (rcc_contribution r) /\ msg_content m = cxi_content item
       /\ (msg_role m = MessageRole_User
           \/ (msg_role m = MessageRole_System
               /\ cpd_trusted_application_instructions (descriptor_of (rcc_component r)) = true
               /\ cp_external (cxi_provenance item) = false)).
Proof.
  intros Hacc Ha Hr. apply rebuild_messages_spec in Hr as (leading & inserted & rest & -> & -> & _ & Hf & _ & Hl).
  split_and!.
  - apply sublist_app; [done|]. by apply sublist_inserts_l.
  - intros m Hm Hu. specialize (Hl m Hm Hu). by rewrite !last_app, Hl.
  - intros m. rewrite !elem_of_app. intros [?|[Hin|?]]; [left; tauto| |left; tauto]. right.
    apply list_elem_of_lookup in Hin as [k Hk]. destruct (Forall2_lookup_r _ _ _ _ _ Hf Hk) as (item & Hi & Hc & Hrole).
    apply list_elem_of_lookup_2 in Hi. apply assemble_split in Ha as (_ & kept & dropped & Hs).
    rewrite (so_items _ _ _ _ _ Hs) in Hi.
    assert (item ∈ ix_item <$> placement recorded) as Hp.
    { rewrite (so_split _ _ _ _ _ Hs), fmap_app. set_solver. }
    rewrite placement_items in Hp. apply list_elem_of_bind in Hp as (r & Hit & Hrec). exists r, item. split_and!; try done.
    destruct (is_trusted_instruction item) eqn:Et; [right|left; done]. split; [done|].
    rewrite list.Forall_forall in Hacc. destruct (Hacc r Hrec) as (call & c & Hc').
    pose proof (accept_contribution_authorized _ _ _ _ Hc') as Hau. rewrite list.Forall_forall in Hau. by apply Hau.
Qed.

Lemma only_trusted_instructions_reach_system_witness :
  exists messages,
    msg_role <$> messages = [MessageRole_System; MessageRole_User; MessageRole_User]
    /\ sublist [user_turn "hello"] messages
    /\ forall m, m ∈ messages -> m ∈ [user_turn "hello"] \/ exists r item,
         r ∈ [recorded_rules; recorded_notes] /\ item ∈ cxc_items (rcc_contribution r) /\ msg_content m = cxi_content item
         /\ (msg_role m = MessageRole_User
             \/ (msg_role m = MessageRole_System
                 /\ cpd_trusted_application_instructions (provider_of (rcc_component r)) = true
                 /\ cp_external (cxi_provenance item) = false)).
Proof.
  destruct (assemble_context [recorded_rules; recorded_notes] sample_budget) as [a|] eqn:E; [|vm_compute in E; discriminate E].
  destruct (rebuild_messages [user_turn "hello"] (asm_items a) 50) as [w' [messages|]] eqn:R;
    [|exfalso; vm_compute in E; injection E as <-; vm_compute in R; discriminate R].
  exists messages. split; [vm_compute in E; injection E as <-; vm_compute in R; injection R as _ <-; reflexivity|].
  destruct (only_trusted_instructions_reach_system provider_of [recorded_rules; recorded_notes] sample_budget a
              [user_turn "hello"] 50 w' messages) as (Hs & _ & Hm); [|exact E|exact R|split; [exact Hs|exact Hm]].
  repeat constructor.
  - exists sample_call, rules_contribution. vm_compute. reflexivity.
  - exists sample_call, notes_contribution. vm_compute. reflexivity.
Defined.

(** C34: a skipped provider breaks the stage.  Contributions carry the position of
    their provider among all installed ones.  When an inactive provider comes
    before an active one, the positions have a gap and the stage fails, whatever
    was contributed, the budget and the messages. *)
Theorem skipped_providers_break_the_stage `{ContextJson} {W : Type} `{!IdSources W} {P : Type} (is_active : P -> bool)
    providers i j p q recorded budget base (w : W) :
  providers !! i = Some p -> is_active p = false -> providers !! j = Some q -> is_active q = true -> (i < j)%nat ->
  rcc_provider_index <$> recorded = (fun a => Z.of_nat a.1) <$> active_providers is_active providers ->
  exists e, context_stage_plan recorded budget base w = (w, Err (context_error e)).
Proof.
  intros Hp Hip Hq Hiq Hij Hx.
  assert (forall n, Z.of_nat n ∈ rcc_provider_index <$> recorded <-> exists a, providers !! n = Some a /\ is_active a = true) as Hin.
  { intros n. rewrite Hx, list_elem_of_fmap. split.
    - intros ([m a] & Hn & Ha). apply list_elem_of_filter in Ha as [Ha He]. apply elem_of_enumerate_iff in He. cbn in *.
      assert (m = n) as -> by lia. eauto.
    - intros (a & Ha & Hact). exists (n, a). split; [done|]. apply list_elem_of_filter. split; [done|]. by apply elem_of_enumerate_iff. }
  unfold context_stage_plan. destruct recorded as [|r l] eqn:Er.
  { exfalso. assert (Z.of_nat j ∈ rcc_provider_index <$> ([] : list RecordedContextContribution)) as Hj by (apply Hin; eauto).
    by apply not_elem_of_nil in Hj. }
  rewrite <- Er in *. cbn [length Nat.eqb]. destruct (assemble_context recorded budget) as [a|e] eqn:E; cbn [map_err]; last first.
  { exists e. by destruct recorded. }
  exfalso. apply assemble_split in E as ([Hord _] & _).
  pose proof (merge_sort_Permutation index_le recorded) as Hperm.
  assert (forall n, Z.of_nat n ∈ rcc_provider_index <$> recorded <-> (n < length recorded)%nat) as Hseq.
  { intros n. rewrite <- Hperm, Hord, (Permutation_length Hperm), list_elem_of_fmap. setoid_rewrite elem_of_seq. split.
    - intros (m & ? & ?). lia.
    - intros ?. exists n. lia. }
  assert (Z.of_nat i ∈ rcc_provider_index <$> recorded) as Hi.
  { apply Hseq. assert (j < length recorded)%nat; [|lia]. apply Hseq, Hin. eauto. }
  apply Hin in Hi as (p' & Hp' & Hact). congruence.
Qed.

Lemma skipped_providers_break_the_stage_witness :
  exists e, context_stage_plan [recorded_notes] sample_budget [user_turn "hello"] 50 = (50, Err (context_error e)).
Proof.
  apply (skipped_providers_break_the_stage (fun name => name =?? "notes") ["rules"; "notes"] 0 1 "rules" "notes");
    first [reflexivity|lia].
Defined.

(** C33: protection is looked up by content.  A message is protected exactly when
    its role and place protect it, or when the last assembled item whose
    canonical content equals its own is protected; the item the message was built
    from is not consulted. *)
Theorem protection_follows_the_last_equal_content `{ContextJson} messages items k m :
  NoDup (msg_id <$> messages) -> messages !! k = Some m ->
  exists flag, project_protected messages items !! msg_id m = Some (flag, Sensitivity_Internal)
    /\ (flag = true <->
        structural_protected m (k =? length messages - 1)%nat = true
        \/ exists bytes item, jcs_content (msg_content m) = Some bytes
             /\ last (filter (fun i => jcs_content (cxi_content i) = Some bytes) items) = Some item
             /\ cxi_protected item = true).
Proof.
  intros Hnd Hk. eexists. split; [by apply project_protected_lookup|]. unfold message_protected.
  rewrite orb_true_iff. destruct (jcs_content (msg_content m)) as [bytes|]; cbn; [|naive_solver].
  rewrite protected_by_content_last. destruct (last (filter _ items)) as [item|] eqn:El; cbn; [|naive_solver].
  split; [|naive_solver]. intros [?|?]; [by left|right]. by exists bytes, item.
Qed.

(** The rules of one item and an unprotected copy of the same text behind it. *)
Definition copied_rules : ContextItem := sample_item ContextItemKind_QuotedSource false false 0 10 "be brief".
Lemma protection_follows_the_last_equal_content_witness :
  cxi_protected house_rules = true
  /\ project_protected [user_turn "be brief"; old_turn] [house_rules; copied_rules] !! 900%N = Some (false, Sensitivity_Internal)
  /\ exists flag, project_protected [user_turn "be brief"; old_turn] [house_rules; copied_rules] !! msg_id (user_turn "be brief")
       = Some (flag, Sensitivity_Internal).
Proof.
  split; [reflexivity|]. split; [vm_compute; reflexivity|].
  destruct (protection_follows_the_last_equal_content [user_turn "be brief"; old_turn] [house_rules; copied_rules] 0
              (user_turn "be brief")) as (flag & Hf & _); [|reflexivity|exists flag; exact Hf].
  apply NoDup_cons. split; [|apply NoDup_singleton]. intros Hin%list_elem_of_singleton. discriminate Hin.
Defined.

(** ** Tools *)

(** C16: a tool runs only with the approvals it needs.  When a catalog was
    resolved from registrations and plans a call for execution, the call names a
    tool that a registered toolset offers, its arguments satisfy the compiled
    schema of that tool, neither the host's policy for it nor the middleware
    denies it, and approval was granted if the host, the tool's own declaration
    or the middleware asks for it; the plan is that tool's, with the failure
    policy of its host. *)
Theorem tools_run_only_with_approval {Toolset Validator : Type} `{Hasher, !ToolSchemas Validator}
    (toolset_descriptor : Toolset -> ToolsetDescriptor) (toolset_tools : Toolset -> list ToolSpec)
    registrations resources catalog call deadline middleware approval v :
  ResolvedToolCatalog_try_new toolset_descriptor toolset_tools registrations resources = Ok catalog ->
  decide_plan catalog call deadline middleware approval = ToolCatalogPlan_Ready (ToolCallPlan_Execute v) ->
  exists r spec policy validator,
    r ∈ registrations /\ spec ∈ toolset_tools (trg_toolset r) /\ tsp_model_name spec = tc_tool_name call
    /\ trg_policies r !! tsp_id spec = Some policy
    /\ compile (tsp_input_schema spec) resources = Ok validator
    /\ validate validator (tc_arguments call) = ValidationOutcome_Valid
    /\ tep_approval policy <> ToolPolicyDecision_Deny /\ middleware <> Some ToolPolicyDecision_Deny
    /\ (approval = ApprovalState_Granted
        \/ (tep_approval policy = ToolPolicyDecision_Allow
            /\ apm_requirement (tsp_approval spec) = ApprovalRequirement_NotRequired
            /\ middleware <> Some ToolPolicyDecision_RequireApproval))
    /\ vt_call v = call /\ vt_tool_id v = tsp_id spec /\ vt_failure_policy v = tep_failure_policy policy
    /\ vt_retry_safety v = tsp_retry_safety spec /\ vt_component v = trg_components r !! tsp_id spec.
Proof.
  intros Hc (t & Ht & Hv & Hd & Ha & Hx)%decide_plan_execute. apply try_new_catalog in Hc.
  destruct (co_names _ _ _ Hc _ _ Ht) as [Hname Hid]. destruct (co_from _ _ _ Hc _ _ Hid) as (r & spec & Hin & Hr).
  apply list_elem_of_bind in Hin as (r' & Hin & Hreg). apply list_elem_of_fmap in Hin as (spec' & [= <- <-] & Hspec).
  pose proof (rf_spec _ _ _ _ Hr) as Hs. injection Hx as ->. exists r, spec, (rtl_policy t), (rtl_input_validator t).
  unfold denies, asks_approval in *. cbn. rewrite Hs in *. destruct Hr. split_and!; try done; [tauto..|].
  destruct approval; [|by left|]; right; (destruct (tep_approval (rtl_policy t)) eqn:Et, (apm_requirement (tsp_approval spec)) eqn:Eq;
    split_and!; naive_solver).
Qed.

Lemma tools_run_only_with_approval_witness :
  exists catalog v,
    ResolvedToolCatalog_try_new (fun _ => mkToolsetDescriptor "files" METADATA_EMPTY) (fun tools => tools) [sample_registration] ∅
      = Ok catalog
    /\ decide_plan catalog delete_call None None ApprovalState_Unpaid = ToolCatalogPlan_RequireApproval
    /\ exists r spec policy, r ∈ [sample_registration] /\ spec ∈ trg_toolset r /\ tsp_model_name spec = "delete"
         /\ trg_policies r !! tsp_id spec = Some policy /\ vt_tool_id v = tsp_id spec.
Proof.
  destruct (ResolvedToolCatalog_try_new (Validator := unit) (fun _ => mkToolsetDescriptor "files" METADATA_EMPTY)
              (fun tools => tools) [sample_registration] ∅) as [catalog|] eqn:E; [|vm_compute in E; discriminate E].
  destruct (decide_plan catalog delete_call None None ApprovalState_Granted) as [[v|]|] eqn:P;
    [|vm_compute in E; injection E as <-; vm_compute in P; discriminate P..].
  exists catalog, v. split; [reflexivity|]. split; [vm_compute in E; injection E as <-; vm_compute; reflexivity|].
  destruct (tools_run_only_with_approval (fun _ => mkToolsetDescriptor "files" METADATA_EMPTY) (fun tools => tools)
              [sample_registration] ∅ catalog delete_call None None ApprovalState_Granted v E P)
    as (r & spec & policy & _ & Hr & Hs & Hn & Hp & _ & _ & _ & _ & _ & _ & Hid & _).
  exists r, spec, policy. repeat split; [exact Hr|exact Hs|exact Hn|exact Hp|exact Hid].
Defined.

(** C32: recovery repeats tool calls only when every one of them is accounted for.
    Whatever the toolsets answer and whatever recording an answer does, the loop
    asks for a repetition exactly when each call it had to ask about has a seed,
    a registered tool and an answer; each answer tells an outcome (completed,
    deferred, running) or is about a call of which nothing else is known and
    allows to repeat it (not started, safe to repeat, or unknown where the effect
    may be retried); recording them all succeeds and leaves none uncertain; and
    one of them allows to repeat its call.  So one uncertain call stops the
    repetition of its siblings, and every call of which nothing is known is asked
    about.  Calls are dispatched again only then, and only those that the state
    after recording holds as requested, executable and not deferred. *)
Theorem retries_only_unknown_effects {C W Toolset Validator : Type} `{!ToolRecovery C W Toolset}
    (catalog : ResolvedToolCatalog (Toolset := Toolset) (Validator := Validator)) (st : C * W) :
  let s := recovery_state st.1 in
  let '(st', r) := resume_pending_tool_effects catalog st in
  (r = Ok ResumeAction_Retry <->
   exists answers w1, reconciled catalog s st.2 (asked_effects s) answers w1
     /\ Forall (fun a => tells_outcome a \/ (outstanding_call s (an_effect a) /\ allows_repetition a)) answers
     /\ recorded_answers (st.1, w1) answers st'
     /\ exists a, a ∈ answers /\ outstanding_call s (an_effect a) /\ allows_repetition a)
  /\ (forall effect_id, outstanding_call s effect_id -> effect_id ∈ asked_effects s)
  /\ (r <> Ok ResumeAction_Retry -> (resume_tool_effects catalog st).1 = st')
  /\ (r = Ok ResumeAction_Retry -> resume_tool_effects catalog st = resume_calls (pending_tool_seeds (recovery_state st'.1)) st')
  /\ forall seed, seed ∈ pending_tool_seeds (recovery_state st'.1) ->
       exists batch c, k_active_tool_batch (recovery_state st'.1) = Some batch /\ c ∈ atb_calls batch
         /\ atc_status c = ActiveToolCallStatus_Requested (tds_requested seed) None
         /\ asg_plan (atc_assigned c) = ToolCallPlan_Execute (tds_call seed).
Proof.
  intros s. destruct (resume_pending_tool_effects catalog st) as [st' r] eqn:E. split_and!.
  - pose proof (resume_retry_iff catalog st) as Hiff. by rewrite E in Hiff.
  - apply outstanding_asked.
  - intros Hr. unfold resume_tool_effects. rewrite E. destruct r as [[]|]; done.
  - intros ->. unfold resume_tool_effects. by rewrite E.
  - apply pending_seed_call.
Qed.

(** Both calls of a batch were requested.  When neither started, both are
    repeated; when one may not be repeated, neither is. *)
Example unstarted_calls_repeat :
  resume_tool_effects (calculator (fun _ => Ok ToolReconcileResult_NotStarted)) (fatal1, []) = ((fatal1, [10200; 10201]%N), Ok tt).
Proof. vm_compute. reflexivity. Qed.

Lemma retries_only_unknown_effects_witness :
  let catalog := calculator (fun _ => Ok ToolReconcileResult_NotStarted) in
  exists answers w1, reconciled catalog fatal1 [] (asked_effects fatal1) answers w1
    /\ recorded_answers (fatal1, w1) answers (fatal1, [])
    /\ exists a, a ∈ answers /\ outstanding_call fatal1 (an_effect a) /\ allows_repetition a.
Proof.
  intros catalog. pose proof (retries_only_unknown_effects catalog (fatal1, [])) as HH. cbv zeta in HH.
  assert (resume_pending_tool_effects catalog (fatal1, []) = ((fatal1, []), Ok ResumeAction_Retry)) as E by (vm_compute; reflexivity).
  rewrite E in HH. destruct HH as [[Hiff _] _]. destruct (Hiff eq_refl) as (answers & w1 & Hr & _ & Hs & Ha). exists answers, w1.
  split; [exact Hr|]. split; [exact Hs|exact Ha].
Defined.

Example uncertain_sibling_stops_repetition :
  resume_tool_effects (calculator (fun e => Ok (if e =?? 10201%N then ToolReconcileResult_NonRepeatable else ToolReconcileResult_NotStarted)))
    (fatal1, []) = ((fatal1, []), Err (RunHandleError_Tool TOOL_RECONCILIATION_UNSUPPORTED)).
Proof. vm_compute. reflexivity. Qed.

(** The classification of one effect.  The first pass never asks for a retry.
    After reconciliation a tool call is classified for repetition exactly when it
    was requested, is neither deferred, synthetic, buffered nor settled, and the
    tool says that it did not start or may be repeated, or cannot say and the
    effect may be retried; a model request likewise, when it is pending and
    unsettled and the run does not wait for an external completion. *)
Theorem reconciled_effects_classified s effect_id tool_result model_result retry_allowed :
  tool_resume_action s effect_id <> ResumeAction_Retry /\ model_resume_action s <> ResumeAction_Retry
  /\ (map_tool_reconcile_result s effect_id tool_result retry_allowed = ResumeAction_Retry <->
      outstanding_call s effect_id
      /\ (tool_result = ToolReconcileResult_NotStarted \/ tool_result = ToolReconcileResult_RetrySafe
          \/ (tool_result = ToolReconcileResult_Unknown /\ retry_allowed = true)))
  /\ (map_model_reconcile_result s model_result retry_allowed = ResumeAction_Retry <->
      outstanding_model s
      /\ (model_result = ModelReconcileResult_NotStarted \/ model_result = ModelReconcileResult_RetrySafe
          \/ (model_result = ModelReconcileResult_Unknown /\ retry_allowed = true))).
Proof.
  destruct (first_pass_never_retries s effect_id). split_and!; [done|done|apply tool_retry_iff|apply model_retry_iff].
Qed.

(** ** The event hub *)

(** C10: in every state that the hub, the tasks and the consumers can reach in
    any interleaving, a subscription has received, or finds in its queue, a
    subsequence of the events that were published since it exists and that its
    filter selects, with strictly increasing sequence numbers.  While it is
    open, every selected event is delivered, on its way or due, in order,
    except for progress events that are counted as dropped: no durable event is
    missing. *)
Theorem subscriptions_deliver_in_order `{!Mpsc C, !MpscLaws C} json_byte_len config (h : Hub C) id s :
  hub_reaches json_byte_len config h -> h_subs h !! id = Some s ->
  delivered_events s `sublist_of` published_for h s
  /\ StronglySorted Z.lt (map ev_transient_sequence (delivered_events s))
  /\ (sst_close_reason (sub_status s) = None ->
      let stream := carried s ++ map se_event (held (h_pc h) id ++ wanted (sub_config s) (due (h_pc h) id)) in
      List.filter is_durable stream = List.filter is_durable (published_for h s)
      /\ exists n, Lossy (published_for h s) stream n
                   /\ eds_dropped_progress (sst_stats (sub_status s)) = Z.min u64_max (Z.of_nat n)).
Proof.
  intros HI%hub_invariant Hs. pose proof (delivered_sublist _ _ _ _ HI Hs) as Hsub. split_and!; [done| |].
  - eapply sorted_sublist; [by apply fmap_sublist|by eapply published_sorted].
  - intros Hopen stream. destruct (open_subscription _ _ _ _ HI Hs Hopen) as (n & HL & Hn).
    split; [by eapply Lossy_durable|by exists n].
Qed.

Lemma subscriptions_deliver_in_order_witness :
  exists h s,
    run_hub slow_consumer = Some h /\ h_subs h !! 0 = Some s
    /\ sst_close_reason (sub_status s) = None /\ eds_dropped_progress (sst_stats (sub_status s)) = 2
    /\ List.filter is_durable (carried s) = [durable_event 0; durable_event 3]
    /\ delivered_events s `sublist_of` published_for h s.
Proof.
  destruct (run_hub slow_consumer) as [h|] eqn:E; [|vm_compute in E; discriminate E].
  destruct (h_subs h !! 0) as [s|] eqn:Hs; [|vm_compute in E; injection E as <-; vm_compute in Hs; discriminate Hs].
  destruct (subscriptions_deliver_in_order hub_sizes sample_hub_config h 0 s (run_hub_reaches _ _ E) Hs) as (Hsub & _).
  exists h, s. vm_compute in E. injection E as <-. vm_compute in Hs. injection Hs as <-.
  split; [reflexivity|]. split; [reflexivity|]. split; [reflexivity|]. split; [reflexivity|].
  split; [reflexivity|exact Hsub].
Defined.

(** C11: deliveries are bounded and accounted for.  The hub has at most the
    configured number of subscriptions, and the inbox and the batch queue of
    each hold at most its capacity.  Every batch has at most the configured
    number of events and, unless it is one event, fewer than twice the
    configured bytes; a durable event travels alone.  The statistics are the
    batches and events that were sent, with the last sequence number, and every
    dropped event is reported by exactly one batch or not yet reported. *)
Theorem deliveries_are_bounded_and_accounted `{!Mpsc C, !MpscLaws C} json_byte_len config (h : Hub C) id s :
  hub_reaches json_byte_len config h -> h_subs h !! id = Some s ->
  let settings := esc_batching (sub_config s) in
  let stats := sst_stats (sub_status s) in
  (length (h_live h) <= ehc_max_subscribers (h_config h))%nat
  /\ (length (queued (sub_inbox s)) <= esc_queue_capacity (sub_config s))%nat
  /\ (length (queued (sub_out s)) <= esc_queue_capacity (sub_config s))%nat
  /\ (forall b, b ∈ sent s ->
        (0 < length (eb_events b) <= ebc_flush_count settings)%nat
        /\ (existsb is_durable (eb_events b) = true -> length (eb_events b) = 1%nat)
        /\ (is_u64 (ebc_flush_bytes settings) ->
            length (eb_events b) = 1%nat
            \/ zsum (json_size json_byte_len) (eb_events b) < 2 * ebc_flush_bytes settings))
  /\ eds_delivered_batches stats = Z.min u64_max (Z.of_nat (length (sent s)))
  /\ eds_delivered_events stats = Z.min u64_max (Z.of_nat (length (delivered_events s)))
  /\ eds_last_delivered_sequence stats = last_sequence (sent s)
  /\ (eds_dropped_progress stats < u64_max ->
      zsum eb_dropped_progress (sent s) + sst_unreported_dropped (sub_status s) = eds_dropped_progress stats).
Proof.
  intros HI%hub_invariant Hs settings stats.
  destruct (SubInv_parts _ _ _ (hi_subs _ _ HI _ _ Hs)) as (_ & (_ & _ & HD & HB & HE & HL) & HFr).
  destruct HFr as (_ & Hb & _ & H4 & H5 & H6 & H7 & _). rewrite H4 in H5. rewrite H6 in H7.
  split_and!; try done; [by apply HI|]. intros b Hin.
  destruct (proj1 (Forall_forall _ _) Hb b Hin) as (Hnew & Hlen & Hdur & Hbytes). split_and!; try done.
  destruct (eb_events b); [discriminate Hnew|cbn; lia].
Qed.

Lemma deliveries_are_bounded_and_accounted_witness :
  exists h s,
    run_hub (slow_consumer ++ [L_consumer 0 C_next; L_task 0 T_recv; L_task 0 T_run; L_task 0 T_run; L_task 0 T_sent])
      = Some h
    /\ h_subs h !! 0 = Some s /\ length (sent s) = 2%nat /\ eds_dropped_progress (sst_stats (sub_status s)) = 2
    /\ sst_unreported_dropped (sub_status s) = 0 /\ eds_last_delivered_sequence (sst_stats (sub_status s)) = Some 3
    /\ eds_delivered_events (sst_stats (sub_status s)) = Z.min u64_max (Z.of_nat (length (delivered_events s))).
Proof.
  destruct (run_hub _) as [h|] eqn:E; [|vm_compute in E; discriminate E].
  destruct (h_subs h !! 0) as [s|] eqn:Hs; [|vm_compute in E; injection E as <-; vm_compute in Hs; discriminate Hs].
  destruct (deliveries_are_bounded_and_accounted hub_sizes sample_hub_config h 0 s (run_hub_reaches _ _ E) Hs)
    as (_ & _ & _ & _ & _ & He & _).
  exists h, s. vm_compute in E. injection E as <-. vm_compute in Hs. injection Hs as <-.
  split; [reflexivity|]. split; [reflexivity|]. split; [reflexivity|]. split; [reflexivity|].
  split; [reflexivity|]. split; [reflexivity|exact He].
Defined.

(** C40: closing the hub hides a missed durable event.  A subscription that the
    hub closed keeps that reason when the wait of its task for room in the batch
    queue runs out: the task ends, the durable event it was sending is not
    delivered, and the status says that the hub closed normally instead of
    [MissedDurable]. *)
Theorem closing_hides_missed_durables `{!Mpsc C, !MpscLaws C} (s : Sub C) f k :
  sst_close_reason (sub_status s) = Some CloseReason_HubClosed ->
  st_pc (sub_task s) = PcSend f k -> fl_durable f = true ->
  exists s', task_step T_timeout s = Some s'
    /\ sst_close_reason (sub_status s') = Some CloseReason_HubClosed
    /\ st_pc (sub_task s') = PcDone /\ delivered_events s' = delivered_events s.
Proof.
  intros Hr Hpc Hf. exists (fail_flush CloseReason_MissedDurable k s).
  assert (Hc : is_closed_sub s) by (unfold is_closed_sub; by rewrite Hr).
  assert (Hfail : fail_flush CloseReason_MissedDurable k s = task_return s)
    by (unfold fail_flush; rewrite close_status_keeps by done; by destruct k; rewrite ?close_status_keeps).
  unfold task_step. rewrite Hpc, Hf. cbn [lag_reason]. rewrite Hfail. split_and!; [done..|]. unfold delivered_events. by rewrite sent_return.
Qed.

Lemma closing_hides_missed_durables_witness :
  exists h s f k s',
    run_hub (slow_consumer ++ closing_hub) = Some h /\ hub_reaches hub_sizes sample_hub_config h
    /\ h_subs h !! 0 = Some s /\ st_pc (sub_task s) = PcSend f k /\ task_step T_timeout s = Some s'
    /\ sst_close_reason (sub_status s') = Some CloseReason_HubClosed /\ st_pc (sub_task s') = PcDone
    /\ durable_event 3 ∈ published_for h s' /\ durable_event 3 ∉ delivered_events s'.
Proof.
  destruct (run_hub (slow_consumer ++ closing_hub)) as [h|] eqn:E; [|vm_compute in E; discriminate E].
  pose proof (run_hub_reaches _ _ E) as Hreach.
  destruct (h_subs h !! 0) as [s|] eqn:Hs; [|vm_compute in E; injection E as <-; vm_compute in Hs; discriminate Hs].
  vm_compute in E. injection E as Hh. rewrite <- Hh in Hs. vm_compute in Hs. injection Hs as Hss.
  destruct (st_pc (sub_task s)) as [|r|i r|f k|] eqn:Hpc; try (rewrite <- Hss in Hpc; discriminate Hpc).
  assert (Hf : fl_durable f = true) by (rewrite <- Hss in Hpc; injection Hpc as <- <-; reflexivity).
  assert (Hc : sst_close_reason (sub_status s) = Some CloseReason_HubClosed) by (rewrite <- Hss; reflexivity).
  destruct (closing_hides_missed_durables s f k Hc Hpc Hf) as (s' & Hs' & Hr & Hd & Hdel).
  exists h, s, f, k, s'. rewrite <- Hh in Hreach |- *. split; [reflexivity|]. split; [exact Hreach|].
  split; [rewrite <- Hss; reflexivity|]. split; [exact Hpc|].
  split; [exact Hs'|]. split; [exact Hr|]. split; [exact Hd|]. clear Hreach Hpc Hc. subst s.
  vm_compute in Hs'. injection Hs' as <-. split.
  - apply list_elem_of_lookup. exists 3%nat. vm_compute. reflexivity.
  - intros Hin. apply list_elem_of_lookup in Hin as [[|i] Hi]; vm_compute in Hi; discriminate Hi.
Defined.
